(* ===== verification/_CoqProject ===== *)
-Q . S2P
Prelude.v
GoLib.v
GoText.v
FileStore.v
Ledger.v
Protocol.v
Fixtures.v
Exposure.v
Portfolio.v
Book.v
Custody.v
RelayEvidence.v
Relay.v
Oracle.v
Opportunity.v
OppService.v
OppWire.v
Gift.v
GiftService.v
GiftSafety.v
GiftLocal.v
GiftRuntime.v
GoProg.v
Bridge.v
Buyer.v
BuyerSafety.v
BuyerProgress.v
Provider.v
Coordinator.v
CapTypes.v
CapStore.v
CapOps.v
CapGate.v
CapOwner.v
CapSafety.v
CapPolicy.v
CapExample.v
GoUnicode.v
Routing.v
Session.v
ModelRouter.v
History.v
SessionStore.v
QuarTree.v
Quarantine.v
QuarSafety.v
QuarRecovery.v
QuarRefusal.v
QuarExample.v
