(* ===== verification/Prelude.v ===== *)
(** * OpenFox: the layers that act with the owner's money, verified

    OpenFox is an agent runtime in Go. Its core is the code that lets an agent
    act in a market with somebody else's money: what it may reserve, sign,
    broadcast, buy and attest, and what it must still know after a crash. This
    development models that code ([src/pkg/prediction], [src/pkg/opportunity],
    [src/pkg/agentgift], [src/pkg/servicebridge], parts of its [nativeimpl], and
    [src/pkg/capabilitycontrol]), and the path of a message to the agent and into
    its memory ([src/pkg/routing], [src/pkg/session], [src/pkg/memory],
    [messageutil]), and proves what makes it correct. Each operation is a
    function from a state and its arguments to a new state and a result, guard
    by guard as in the source, so every definition evaluates; what lies outside
    the repository is a class.

    ** The parts and how they interact

    - [exposure.go] bounds the collateral an oracle authority may be
      responsible for in one epoch: [AdmitMarket] reserves a market's ceiling,
      [ObserveMarket] follows finalized observations and releases it.
    - [portfolio.go] bounds the risk of one owner across markets: orders
      reserve their worst case, finalized fills turn reservations into
      positions, exits and inactive orders release them.
    - [book.go] is the local order book: admission of signed orders against
      finalized chain state, cancellation and fills, an index sorted by price,
      and the planning of matches.
    - [custody.go] drives both: it checks the owner's authorization, reserves
      in the portfolio, asks the signer, and admits the bytes to the book.
    - [relay.go] takes the exact signed message of an authorized contract call
      to the chain and back: broadcast, source finality, destination finality,
      bounce, with one file per action.
    - [oracle.go], [archive.go] and [watcher.go] commit a reporter to one
      statement per round context and a watcher to one challenge, on evidence
      with receipts of independent archive operators.
    - [opportunity] discovers offers of other agents: a journal of candidates
      from discovery to purchase, a scheduler that verifies, assesses against
      the local policy and drives purchases, and the socket protocol between
      the scheduler and the coordinator that verifies and buys.
    - [agentgift] is a private payment between two agents: a journal of gift
      records, the operations of both sides, a local API for the model and the
      owner's runtime; [nativeimpl/agent_gift_runtime.go] is the daemon's loop.
    - [servicebridge] buys and sells agent services: the owner's spending
      policy, a journal of purchase slots with a single funding lease each, the
      buyer's and the provider's flow, the authorization gate in front of
      custody; [nativeimpl/purchase_coordinator.go] is the isolated process
      that serves the opportunity scheduler's purchases.
    - [capabilitycontrol] decides which code the agent may run: the owner's
      trust root and policy, artifacts from quarantine through verification,
      admission, promotion and installation to activation, the gate in front of
      every execution and tool action, the owner's signed commands and staged
      exit. Every change is committed through a pending file, an external
      authority that numbers the states, and the state file.
    - [quarantine_ledger.go] and [quarantine_snapshot_linux.go] hold what is
      retrieved from outside until it enters that inventory: quotas reserved
      before the retrieval, a candidate tree captured, hashed, staged and
      published under its digest once the authority admitted the exact
      content, receipts for the inventory, deletion with tombstones.
    - [routing] maps a message that arrives on a channel to one of the
      configured agents and its turn to a model; [session] derives the key of
      the conversation from the route; [memory/jsonl.go] stores conversations
      as logs of lines with a metadata document, and [messageutil] shows them
      with the moderation of rooms applied.
    All of them persist through [fileutil.WriteFileAtomic]; all but the relay
    and the session store keep one JSON document, locked by one process.

    ** Files

    - Prelude.v (this file): results and [let?], machine integers, iteration
      over maps, checked sums, the tactics [bprop], [head_case], [op_cases],
      the hint database [openfox].
    - GoLib.v: what the code uses of the standard library, with proofs: hex,
      canonical digests, base64 ([decodeBase64Bounded]), [sort.Search],
      sorted lists.
    - GoText.v: byte predicates, [strings.TrimSpace], times and durations.
    - FileStore.v: [WriteFileAtomic], one boolean per system
      call; [openPrivateLockedDirectory].
    - Ledger.v: the shared shape of the ledgers (file, lock, document), the
      class [Durable] in which a component states its document invariant and
      its history order, and what follows for every run: [outcomes_ok].
    - Protocol.v: the interfaces of the address library and of the protocol
      package ([PredictionProtocol] and its law classes); Fixtures.v: concrete
      instances for the witnesses.
    - Exposure.v (Module [Exposure]), Portfolio.v ([Portfolio]), Book.v
      ([Book]), Custody.v ([Custody]): the components above; the state of each
      is a [ledger] over a record with the fields of the Go document, and each
      exported method is the definition of the same name.
    - RelayEvidence.v (Module [Evidence]): the relay's records and every
      validation function; Relay.v (Module [Relay]): the journal, with the two
      halves of a broadcast as separate steps.
    - Oracle.v (Module [Oracle]): votes, receipts, evidence, challenges.
    - Opportunity.v: types and journal; OppService.v: the scheduler over an
      arbitrary coordinator and runner; OppWire.v: client and handler of the
      socket protocol.
    - Gift.v: types and journal; GiftService.v: the twelve operations as
      programs of a state and error monad over the journal, the log of calls
      and an environment that answers as any function of the log;
      GiftSafety.v: a logic of triples for them, the invariant and its
      consequences; GiftLocal.v: the local API; GiftRuntime.v: the loop.
    - GoProg.v: programs as trees of calls, their histories and their runs,
      for the code that only orchestrates its collaborators.
    - Bridge.v: types, policy and both purchase journals behind the class
      [PurchaseJournal], with the contract [JournalContract] the buyer's
      theorems are proved against; Buyer.v: [Buyer.Purchase] as a program;
      BuyerSafety.v: pools of interleaved purchases over one journal, with
      crashes; BuyerProgress.v: the run that completes; Provider.v: the
      provider's flow and the authorized signer; Coordinator.v: the purchase
      coordinator, joined to the scheduler of OppService.v and OppWire.v.
    - CapTypes.v: types.go and what the code reads of the objects of the
      external protocol package, whose functions are the class
      [TrustedCapability], and the external authority with its laws
      ([MonotonicAuthority], [MonotonicLaws]); CapStore.v: disk, commit,
      reconciliation and opening, proved against the class [StateHistory];
      CapOps.v: the state and error monad of the operations, trust root,
      sessions, quarantine, publisher.go; CapGate.v: the rest of store.go,
      gate.go, mcp_action.go, action_outcome.go; CapOwner.v: owner_command.go;
      CapSafety.v: the history order, weakest preconditions for the operations,
      runs with crashes; CapPolicy.v: what the policy checks accept;
      CapExample.v: collaborators that answer, a complete run, the witnesses.
    - QuarTree.v (Module [QuarTree]): file trees, the walks over them, capture,
      staging and both hashes; Quarantine.v ([Quarantine]): the ledger over a
      world of file, directory and authority (the class
      [AcquisitionAuthority] with its laws), one function per method;
      QuarSafety.v: runs of a careful or of any client, quotas and admission;
      QuarRecovery.v: agreement of file and directory for a careful client,
      reopening, revisions, receipts, deletion; QuarRefusal.v: pending transitions the
      authority refuses; QuarExample.v: the authority of the tests, scripts of
      operations that are runs, the witnesses.
    - GoUnicode.v: [strings.ToLower] on all text (the Unicode tables are the
      class [CaseMap]), the runes of a string, cutting, joining, trimming.
    - Routing.v: identifiers, dispatch rules, identity links, the registry's
      lookup; Session.v: scopes, keys, aliases; ModelRouter.v: the choice of the
      model, with binary64 arithmetic from [SpecFloat]; History.v: messages and
      moderation; SessionStore.v: the session store, where an append can be
      torn and every write can fail.

    ** What the theorems show

    - Invariants of every reachable state, under arbitrary failing writes,
      closings and restarts: exact aggregate limits ([exposure_reachable_ok],
      [portfolio_limits], [portfolio_spend_cap]), authentic book records,
      valid relay records and legal transitions ([relay_history]), both
      ledgers across a custody call ([custody_preserves]).
    - History: the [..._history_forward] theorems, [relay_disposition_final],
      [oracle_no_equivocation], [oracle_challenge_once]: progress never goes
      back, terminal states are frozen, nothing signed or attested changes.
    - Safety of the effects that leave the process: the signer is reached only
      after authorization and reservation ([custody_signer_gated]), only the
      exact bytes are broadcast, never after source finality
      ([relay_broadcast_exact], [relay_final_silence],
      [relay_inflight_isolated]), votes rest on independent receipts.
    - Opportunity purchases: valid journals and forward histories
      ([opp_reachable_ok], [opp_history]) under a clock that does not go back,
      purchase calls only within the local policy or for purchases that were
      already assessed ([opp_policy_gate]), a bounded number of calls per cycle
      ([opp_cycle_bounded]), progress with a cooperating environment
      ([opp_purchase_liveness]), a wire client that returns only what the
      journal accepts and adds nothing ([wire_answers_accepted],
      [wire_verify_transparent]).
    - Gifts: every effect is announced on disk before it is made
      ([gift_effects_durable]), the owner approved exactly the terms custody
      signs ([gift_approved_terms]), no broadcast is repeated before the last
      one is settled ([gift_no_blind_rebroadcast]), records move forward
      ([gift_history]), admission is bounded ([gift_admission_bounds]), the
      model's socket confers no authority ([gift_model_confined]), both ends
      of the local API agree ([gift_local_roundtrip]) and the daemon's loop is
      a client of the operations ([gift_runtime_refines]).
    - Purchases of services: custody funds a slot at most once however
      purchases overlap and crash ([bridge_single_funding]), only as the end of
      the exact chain of calls from the resolved capability to the claim of
      exactly that amount ([bridge_funding_gated]); tasks leave only after finalized funding
      ([bridge_dispatch_gated]), settlements are terminal
      ([bridge_settlement_final]); sequential purchases stay within the budget
      ([bridge_claim_budget]); a purchase completes when its services agree
      ([bridge_purchase_completes]); the provider signs only what it executed
      for a funded escrow ([provider_signs_earned]); custody is reached only
      through an authorization of the same terms ([signer_spends_authorized]);
      the coordinator's records move forward ([coordinator_history]) and its
      answers pass the scheduler's checks ([coordinator_answers_accepted]).
    - Capabilities: no execution, tool action or owner command is granted
      twice in any run ([cap_granted_once]); an execution starts only under
      authority that is current and complete, with its slot on disk
      ([cap_use_gated]); the durable records (not the states of artifacts) only
      move forward ([cap_history]); an
      exit is final ([cap_exit_final]); the store opens only in a state the
      authority vouches for, and does open after every interruption
      ([cap_no_rollback], [cap_recovers]); who may sign a command, select a
      session, vouch for a publisher and promote ([cap_role_coverage],
      [cap_channel_session], [cap_publisher_coverage],
      [cap_promotion_separated]).
    - Quarantine: what is retained was admitted by the authority with exactly
      its content ([quar_admitted]) and stays within the quotas, of bytes and
      of granted requests ([quar_quotas]); a published tree is the captured one
      ([quar_publish_exact]); after a crash the ledger opens again with
      everything retained and what was under way completed ([quar_reopen]), its
      receipts pass the inventory's check, the revision never falling behind
      them ([quar_receipt]), and a deleted
      digest never comes back ([quar_deleted_stays]).
    - Messages: a route ends at a registered agent ([route_agent_registered])
      by the first rule that applies ([route_first_match]), independently of
      the order of the identity links exactly when they are unambiguous
      ([route_links_deterministic]); conversations with different scopes have
      different keys ([session_isolated]) and aliases name their agent
      ([session_alias_agent]); the light model is chosen for the documented
      signals ([router_score]); hidden text is never shown and can be restored
      ([history_hidden_masked], [history_restore_recovers]), decisions only
      move forward ([session_moderation_forward]); an authenticated message is
      stored once for as long as it is shown ([session_inbound_once]), truncation is exact
      ([session_truncate_exact]), rewriting and compacting lose nothing in a
      crash ([session_rewrite_crash], [session_compact_crash]), an alias never
      overwrites a conversation ([session_promote_safe]).
    - Where the code falls short of what it means to do: a clock set back
      makes the opportunity journal unopenable ([opp_clock_step_back]); a
      purchase under way is not stopped by a policy that was tightened
      ([opp_tightened_resumed]); a failed delivery that is refreshed strands a gift
      ([gift_delivery_stranded]); overlapping purchases and slots resumed after
      their window exceed the budget ([bridge_overlap_overspends],
      [bridge_stale_claim_overspends]); the purchase journal can outgrow what
      it loads ([bridge_journal_outgrows]); a lost reply of the coordinator
      strands a purchase ([coordinator_lost_reply]); a promotion can be
      brought along with a quarantined entry ([cap_promotion_kept], with a run
      in [cap_promotion_smuggled]); the
      revocation of a capability can be undone without a new admission
      ([cap_revoked_returns]); a failed commit can leave a command that is
      confirmed but not stored ([cap_resolve_unstored]); a name with two dots
      is captured and admitted but never published ([dotdot_unpublished]), and
      a displaced transition closes the quarantine ledger for good
      ([quar_displaced_final]); a rule without an
      account only serves the default account ([route_account_gap]), a long
      identifier is routed past the registry ([route_underscore_lost]), a bar in
      a name merges conversations ([session_bar_collision]); hiding leaves media
      visible ([history_hidden_media]), a message behind a torn append is lost
      ([session_torn_append_lost]), an oversized one makes its session
      unreadable ([session_oversized_unreadable]), retries are refused after a
      rewrite and repeated after a truncation ([session_retry_refused],
      [session_truncated_event_again]).
    - Functional behaviour: exact success conditions
      ([exposure_admit_exact], [portfolio_reserve_exact]), funded admission,
      sound match plans, complete and ordered search, what evidence in a
      committed or credited record establishes.
    - Refinement and equivalence: the exposure ledger refines a bounded pool;
      the two purchase journals answer every sequence of calls alike
      ([bridge_journals_agree]); the incremental book index equals the rebuilt one; the book's and the
      portfolio's risk arithmetic agree; any two accepted quorums intersect.
    - Round trips: what a write leaves is what the next open accepts
      ([..._restart_recovers], [relay_reopen]), and the two places where it is
      not: a leftover temporary file in the relay journal, a second vote in the
      oracle journal.

    ** Conventions

    Unsigned integers are [N] with wrap-around written out ([add64w],
    [sub64w], [mul64w], [u32], [u64]); signed ones are [Z]. Strings and byte
    slices are [string]; maps are [gmap string]; a loop over a Go map that
    stops at its first error is [range_check], one that only accepts or
    rejects is [map_all] or [map_any], so results do not depend on Go's
    iteration order. An error is [Err] with the source's message; where the
    source wraps or returns a library error, the message stands for it. Nil
    receivers, nil contexts and nil collaborators, which the source rejects
    first, are not values of the model. A file holds a decoded document:
    encoding to JSON and back is the identity on the documents the code
    writes (so text that is not valid UTF-8, and an empty slice that is not
    nil, are not told apart from what a reload makes of them), the encoded length is given by the environment, and a document
    with a null map counts as undecodable; so the source's clone functions,
    which copy slices and maps or go through JSON, are the identity. The
    environment of a write says which system calls fail; theorems quantify
    over it. Each mutex-protected operation is one step. Fuel occurs in
    six definitions: [sort_Search] (the length of the searched range; proved
    to find the least index), [TrimSpace] (the length of the text, of which
    each round removes at least a byte), [retry_loop] (four rounds, proved
    enough for every attempt count), [write_loop] (the length of the
    frame, proved enough), [runes_loop] and [count_loop] (the length of the text,
    of which each round consumes at least a byte). Operations on one gift are serialized by a striped
    mutex and change only their own record (a creation may evict a terminal
    one), so each is one step; a crash in the
    middle of one is a failing call followed by a restart. A purchase is not
    serialized: each of its calls is a step of its own, any number of purchases
    interleave, and a crash drops all of them and reopens the journal. An owner
    command takes the mutex of the capability store three times: its critical
    sections are calls of their own, and others may come between them.

    ** Not modelled

    The relay verifier, the evidence file archive, the HTTPS source and the
    Vault signer of the prediction package (parsing with the external cell
    library, and network I/O); the HTTP authority clients of
    [capabilitycontrol], its materialization of installed trees and its
    read-only projections, whose answers are the environment of its operations;
    the adapters of [nativeimpl] that talk to RPC nodes, custody and peers, and
    the signed form of the spending policy, which is parsed with an external
    codec; the migration of older session stores and the permissions of their
    files; the earning engine ([src/pkg/earning]), whose journals are a
    development of their own size; the rest of the runtime (agent loop,
    providers, channels, gateway, retrieval memory, configuration, command-line
    programs, web UI), which is driven by models, peers and processes outside
    the repository. *)

From Stdlib Require Export NArith ZArith Lia.
From stdpp Require Export sorting.
From stdpp Require Export base decidable countable numbers fin_maps gmap strings.
From stdpp Require Export list.

#[global] Open Scope N_scope.

(** ** Results: a Go function returning [(value, error)]

    [Err] carries the message given to [errors.New] in the source. *)
Inductive result (A : Type) : Type :=
| Ok (a : A)
| Err (msg : string).
Arguments Ok {A} a.
Arguments Err {A} msg.

Declare Scope go_scope.
Delimit Scope go_scope with go.

(** Sequencing of fallible calls: the Go idiom [x, err := c; if err != nil
    { return ..., err }]. *)
Notation "'let?' x ':=' c 'in' k" :=
  (match c with Ok x => k | Err e => Err e end)
  (at level 10, x pattern, c at level 100, k at level 200) : go_scope.
#[global] Open Scope go_scope.

Definition is_ok {A} (r : result A) : bool :=
  match r with Ok _ => true | Err _ => false end.

Definition is_err {A} (r : result A) : bool := negb (is_ok r).

(** A validation function of the source returns [error]; [nil] is [Ok tt]. *)
Definition check (b : bool) (msg : string) : result unit :=
  if b then Ok tt else Err msg.

#[global] Instance result_eq_dec {A} `{EqDecision A} : EqDecision (result A).
Proof. solve_decision. Defined.

(** ** Machine integers: unsigned Go integers are [N], with wrap-around written out *)
Definition MaxUint64 : N := 18446744073709551615.
Definition MaxUint32 : N := 4294967295.
Definition MaxInt64 : N := 9223372036854775807.

Definition u64 (n : N) : N := n `mod` 18446744073709551616.
Definition u32 (n : N) : N := n `mod` 4294967296.

Definition add64w (a b : N) : N := u64 (a + b).
Definition sub64w (a b : N) : N := u64 (a + 18446744073709551616 - b).
Definition mul64w (a b : N) : N := u64 (a * b).

(** The values a Go [uint64] variable can hold. *)
Definition is_u64 (n : N) : Prop := n <= MaxUint64.
Definition is_u32 (n : N) : Prop := n <= MaxUint32.

#[global] Instance is_u64_dec n : Decision (is_u64 n).
Proof. unfold is_u64. apply _. Defined.
#[global] Instance is_u32_dec n : Decision (is_u32 n).
Proof. unfold is_u32. apply _. Defined.

(** [uint32(len(m))] *)
Definition len32 {V} (m : gmap string V) : N := u32 (N.of_nat (size m)).

(** Lengths of Go strings and slices. *)
Definition slen (s : string) : N := N.of_nat (String.length s).
Definition llen {A} (l : list A) : N := N.of_nat (length l).

(** [for k, v := range m { if !f(k, v) { return err } }]: the loop's verdict
    does not depend on Go's unspecified iteration order. *)
Definition map_all {V} (f : string -> V -> bool) (m : gmap string V) : bool :=
  forallb (fun kv => f kv.1 kv.2) (map_to_list m).

Definition map_any {V} (f : string -> V -> bool) (m : gmap string V) : bool :=
  existsb (fun kv => f kv.1 kv.2) (map_to_list m).

(** The same loop when each step reports its own error: the first one met. *)
Fixpoint first_err (rs : list (result unit)) : result unit :=
  match rs with
  | [] => Ok tt
  | Ok _ :: rest => first_err rest
  | Err m :: _ => Err m
  end.

Definition range_check {V} (f : string -> V -> result unit) (m : gmap string V) : result unit :=
  first_err ((fun kv => f kv.1 kv.2) <$> map_to_list m).

(** The values of a map, in the order the model iterates over them. *)
Definition map_vals `{Countable K} {V} (m : gmap K V) : list V := (map_to_list m).*2.

(** Exact (unbounded) sums, used by specifications. *)
Definition sumN (l : list N) : N := foldr N.add 0 l.
Definition map_sum `{Countable K} {V} (f : V -> N) (m : gmap K V) : N := sumN (f <$> map_vals m).

(** The accumulation loop the source repeats:
    [if total > ^uint64(0)-x { overflow }; total += x]. *)
Fixpoint checked_sum (total : N) (l : list N) : option N :=
  match l with
  | [] => Some total
  | x :: rest =>
      if sub64w MaxUint64 x <? total then None
      else checked_sum (add64w total x) rest
  end.

(** ** Tactics *)

(** Turn boolean guards of the source into propositions. *)
Ltac bprop_step :=
  match goal with
  | H : (_ || _)%bool = false |- _ => apply orb_false_iff in H; destruct H
  | H : (_ && _)%bool = true |- _ => apply andb_true_iff in H; destruct H
  | H : (_ || _)%bool = true |- _ => apply orb_true_iff in H
  | H : (_ && _)%bool = false |- _ => apply andb_false_iff in H
  | H : negb _ = true |- _ => apply negb_true_iff in H
  | H : negb _ = false |- _ => apply negb_false_iff in H
  | H : bool_decide _ = true |- _ => apply bool_decide_eq_true in H
  | H : bool_decide _ = false |- _ => apply bool_decide_eq_false in H
  | H : (_ <? _) = true |- _ => apply N.ltb_lt in H
  | H : (_ <? _) = false |- _ => apply N.ltb_ge in H
  | H : (_ <=? _) = true |- _ => apply N.leb_le in H
  | H : (_ <=? _) = false |- _ => apply N.leb_gt in H
  | H : (_ =? _) = true |- _ => apply N.eqb_eq in H
  | H : (_ =? _) = false |- _ => apply N.eqb_neq in H
  | H : Is_true _ |- _ => apply Is_true_true in H
  end.
Ltac bprop := repeat bprop_step.

(** Follow an early-return chain in a hypothesis [op args = (st', r)]:
    split every guard and drop the branches the result rules out. *)
Ltac op_step H :=
  match type of H with
  | context [match ?x with _ => _ end] => destruct x eqn:?; simplify_eq/=
  end.
Ltac op_cases H := repeat op_step H.

(** Split the outermost guard of a handler in a hypothesis [op = _]. *)
Tactic Notation "head_case" ident(H) "as" simple_intropattern(pat) "eqn" ident(E) :=
  match type of H with
  | match ?x with _ => _ end = _ => destruct x as pat eqn:E
  end.
Tactic Notation "head_case" ident(H) "eqn" ident(E) :=
  match type of H with
  | match ?x with _ => _ end = _ => destruct x eqn:E
  end.

Create HintDb openfox.

(** ** Machine-integer lemmas *)
Lemma u64_small n : n <= MaxUint64 -> u64 n = n.
Proof. unfold u64, MaxUint64. intros. apply N.mod_small. lia. Qed.

Lemma u32_small n : n <= MaxUint32 -> u32 n = n.
Proof. unfold u32, MaxUint32. intros. apply N.mod_small. lia. Qed.

Lemma u64_range n : is_u64 (u64 n).
Proof. unfold is_u64, u64, MaxUint64. pose proof (N.mod_upper_bound n 18446744073709551616). lia. Qed.

Lemma add64w_exact a b : a + b <= MaxUint64 -> add64w a b = a + b.
Proof. apply u64_small. Qed.

Lemma mul64w_exact a b : a * b <= MaxUint64 -> mul64w a b = a * b.
Proof. apply u64_small. Qed.

Lemma sub64w_exact a b : b <= a -> a <= MaxUint64 -> sub64w a b = a - b.
Proof.
  unfold sub64w, u64, MaxUint64. intros.
  replace (a + 18446744073709551616 - b) with (a - b + 1 * 18446744073709551616) by lia.
  rewrite N.Div0.mod_add. apply N.mod_small. lia.
Qed.

#[export] Hint Resolve u64_range : openfox.

(** ** Results *)
Lemma check_ok b msg : check b msg = Ok tt <-> b = true.
Proof. unfold check. destruct b; naive_solver. Qed.

Lemma is_ok_check b msg : is_ok (check b msg) = b.
Proof. by destruct b. Qed.

Lemma is_err_false_ok (r : result unit) : is_err r = false -> r = Ok tt.
Proof. by destruct r as [[]|]. Qed.

Lemma is_ok_exists {A} (r : result A) : is_ok r = true <-> exists a, r = Ok a.
Proof. destruct r; simpl; split; [eauto|done|done|intros [? ?]; done]. Qed.

(** ** Sums and checked accumulation *)
Lemma sumN_app l1 l2 : sumN (l1 ++ l2) = sumN l1 + sumN l2.
Proof. induction l1 as [|x l1 IH]; simpl; [done|]. unfold sumN in *. simpl. lia. Qed.

#[global] Instance sumN_Permutation : Proper (Permutation ==> eq) sumN.
Proof. induction 1; unfold sumN in *; simpl in *; lia. Qed.

Lemma sumN_elem_le x l : x ∈ l -> x <= sumN l.
Proof. induction 1; unfold sumN in *; simpl; lia. Qed.

(** The checked loop computes the exact sum, and fails exactly when the exact
    sum does not fit in 64 bits. *)
Lemma checked_sum_spec l total :
  is_u64 total -> Forall is_u64 l ->
  checked_sum total l =
    if total + sumN l <=? MaxUint64 then Some (total + sumN l) else None.
Proof.
  intros Ht Hl. revert total Ht.
  induction Hl as [|x l Hx Hl IH]; intros total Ht; simpl.
  - change (sumN []) with 0. rewrite N.add_0_r. unfold is_u64 in *.
    destruct (N.leb_spec total MaxUint64); [done|lia].
  - change (sumN (x :: l)) with (x + sumN l). unfold is_u64 in *.
    rewrite sub64w_exact by lia.
    destruct (N.ltb_spec (MaxUint64 - x) total).
    + destruct (N.leb_spec (total + (x + sumN l)) MaxUint64); [lia|done].
    + rewrite add64w_exact by lia. rewrite IH by lia.
      by rewrite N.add_assoc.
Qed.

Lemma checked_sum_Permutation l1 l2 total :
  is_u64 total -> Forall is_u64 l1 -> l1 ≡ₚ l2 ->
  checked_sum total l1 = checked_sum total l2.
Proof.
  intros Ht H1 Hp.
  assert (Forall is_u64 l2) as H2 by (by rewrite <-Hp).
  rewrite (checked_sum_spec l1), (checked_sum_spec l2) by done.
  by rewrite (sumN_Permutation _ _ Hp).
Qed.

(** ** Map iteration *)
Section maps.
Context {V : Type}.
Implicit Types (m : gmap string V).

Lemma map_all_true (p : string -> V -> bool) m :
  map_all p m = true <-> map_Forall (fun k v => p k v = true) m.
Proof.
  unfold map_all. rewrite forallb_forall. split.
  - intros H k v Hkv. apply (H (k, v)). apply list_elem_of_In. by apply elem_of_map_to_list.
  - intros H [k v] Hin. apply H. by apply elem_of_map_to_list, list_elem_of_In.
Qed.

Lemma map_any_true (p : string -> V -> bool) m :
  map_any p m = true <-> exists k v, m !! k = Some v /\ p k v = true.
Proof.
  unfold map_any. rewrite existsb_exists. split.
  - intros ([k v] & Hin & Hp). exists k, v. split; [|done].
    by apply elem_of_map_to_list, list_elem_of_In.
  - intros (k & v & Hkv & Hp). exists (k, v). split; [|done].
    apply list_elem_of_In. by apply elem_of_map_to_list.
Qed.

Lemma range_check_ok (f : string -> V -> result unit) m :
  range_check f m = Ok tt <-> map_Forall (fun k v => f k v = Ok tt) m.
Proof.
  unfold range_check. rewrite map_Forall_to_list.
  induction (map_to_list m) as [|[k v] l IH]; simpl; [split; [constructor|done]|].
  destruct (f k v) as [[]|e] eqn:E.
  - rewrite IH, Forall_cons. simpl. naive_solver.
  - rewrite Forall_cons. simpl. split; [done|]. intros [? _]. congruence.
Qed.

Lemma map_any_false (p : string -> V -> bool) m :
  map_any p m = false <-> map_Forall (fun k v => p k v = false) m.
Proof.
  rewrite <-not_true_iff_false, map_any_true. split.
  - intros H k v Hkv. apply not_true_iff_false. naive_solver.
  - intros H (k & v & Hkv & Hp). rewrite (H k v Hkv) in Hp. done.
Qed.

Lemma len32_exact m (bound : N) :
  N.of_nat (size m) <= bound -> bound <= MaxUint32 -> len32 m = N.of_nat (size m).
Proof. intros. unfold len32. apply u32_small. lia. Qed.

End maps.

(** ** Values and sums over maps with any keys *)
Section map_values.
Context `{CK : Countable K} {V : Type}.
Implicit Types (m : gmap K V) (f : V -> N).

Lemma map_vals_insert m k v :
  m !! k = None -> map_vals (<[k:=v]> m) ≡ₚ v :: map_vals m.
Proof. intros H. unfold map_vals. by rewrite map_to_list_insert. Qed.

Lemma elem_of_map_vals m v : v ∈ map_vals m <-> exists k, m !! k = Some v.
Proof.
  unfold map_vals. rewrite list_elem_of_fmap. split.
  - intros ([k v'] & -> & Hin). exists k. by apply elem_of_map_to_list.
  - intros [k Hk]. exists (k, v). split; [done|]. by apply elem_of_map_to_list.
Qed.

Lemma map_sum_empty f : map_sum f (∅ : gmap K V) = 0.
Proof. unfold map_sum, map_vals. by rewrite map_to_list_empty. Qed.

Lemma map_sum_insert_fresh f m k v :
  m !! k = None -> map_sum f (<[k:=v]> m) = f v + map_sum f m.
Proof. intros H. unfold map_sum. by rewrite map_vals_insert. Qed.

Lemma map_sum_insert_existing f m k v v0 :
  m !! k = Some v0 -> map_sum f (<[k:=v]> m) + f v0 = f v + map_sum f m.
Proof.
  intros H.
  rewrite <-(insert_delete_eq m k v), map_sum_insert_fresh by apply lookup_delete_eq.
  rewrite <-(insert_delete_id m k v0 H) at 2.
  rewrite map_sum_insert_fresh by apply lookup_delete_eq. lia.
Qed.

Lemma map_sum_insert_same f m k v v0 :
  m !! k = Some v0 -> f v = f v0 -> map_sum f (<[k:=v]> m) = map_sum f m.
Proof. intros H Hf. pose proof (map_sum_insert_existing f m k v v0 H). lia. Qed.

Lemma map_sum_lookup_le f m k v : m !! k = Some v -> f v <= map_sum f m.
Proof.
  intros H. apply sumN_elem_le, list_elem_of_fmap. exists v. split; [done|].
  apply elem_of_map_vals. eauto.
Qed.

Lemma map_sum_zero f m : map_Forall (fun _ v => f v = 0) m -> map_sum f m = 0.
Proof.
  induction m as [|k v m Hk IH] using map_ind; intros Hm.
  - apply map_sum_empty.
  - apply map_Forall_insert in Hm as [Hv Hm]; [|done].
    rewrite map_sum_insert_fresh by done. rewrite Hv, IH; done.
Qed.

Lemma map_vals_Forall (P : V -> Prop) m :
  map_Forall (fun _ v => P v) m -> Forall P (map_vals m).
Proof.
  intros H. apply Forall_forall. intros v Hv.
  apply elem_of_map_vals in Hv as [k Hk]. by apply (H k).
Qed.

Lemma map_sum_delete f m k v :
  m !! k = Some v -> map_sum f m = f v + map_sum f (delete k m).
Proof.
  intros Hk. rewrite <- (insert_delete_id m k v Hk) at 1. by rewrite map_sum_insert_fresh by apply lookup_delete_eq.
Qed.

Lemma map_sum_delete_le f m k : map_sum f (delete k m) <= map_sum f m.
Proof.
  destruct (m !! k) as [v|] eqn:E; [rewrite (map_sum_delete f m k v E); lia|]. by rewrite delete_id.
Qed.

Lemma map_sum_insert_le f m k v :
  map_sum f (<[k:=v]> m) <= f v + map_sum f m.
Proof.
  destruct (m !! k) as [v0|] eqn:E.
  - pose proof (map_sum_insert_existing f m k v v0 E). lia.
  - by rewrite map_sum_insert_fresh.
Qed.

Lemma map_sum_le (f g : V -> N) m :
  map_Forall (fun _ v => f v <= g v) m -> map_sum f m <= map_sum g m.
Proof.
  induction m as [|k v m Hk IH] using map_ind; intros Hm; [by rewrite !map_sum_empty|].
  apply map_Forall_insert in Hm as [Hv Hm]; [|done]. rewrite !map_sum_insert_fresh by done.
  specialize (IH Hm). lia.
Qed.

Lemma map_sum_const c m : map_sum (fun _ => c) m = c * N.of_nat (size m).
Proof.
  induction m as [|k v m Hk IH] using map_ind; [by rewrite map_sum_empty, map_size_empty, N.mul_0_r|].
  rewrite map_sum_insert_fresh, map_size_insert_None, IH by done. lia.
Qed.

Lemma map_sum_subseteq (f : V -> N) m m' : m ⊆ m' -> map_sum f m <= map_sum f m'.
Proof.
  revert m'. induction m as [|k v m Hk IH] using map_ind; intros m' Hsub; [rewrite map_sum_empty; lia|].
  assert (m' !! k = Some v) as Hv by (eapply lookup_weaken; [|done]; by rewrite lookup_insert_eq).
  rewrite map_sum_insert_fresh, (map_sum_delete f m' k v Hv) by done.
  assert (m ⊆ delete k m') as Hm; [|specialize (IH _ Hm); lia].
  apply map_subseteq_spec. intros i x Hi. rewrite lookup_delete_ne by congruence.
  eapply lookup_weaken; [|exact Hsub]. rewrite lookup_insert_ne by congruence. done.
Qed.

Lemma map_size_delete_le m k : (size (delete k m) <= size m)%nat.
Proof. rewrite map_size_delete. destruct (m !! k); simpl; lia. Qed.

Lemma map_size_insert_le m k v : (size (<[k:=v]> m) <= S (size m))%nat.
Proof.
  destruct (m !! k) eqn:E; [rewrite map_size_insert_Some by eauto; lia|rewrite map_size_insert_None by done; lia].
Qed.

End map_values.
