(* ===== verification/GoLib.v ===== *)
(** * The parts of Go's standard library the modelled code relies on

    Byte strings are [string]; the functions below follow
    [strings], [encoding/hex], [encoding/base64], [strconv] and [sort].
    [canonicalDigest], [decodeBase64Bounded], [lowerHex] and
    [sortedUniqueCanonicalDigests] are the repository's own helpers
    (src/pkg/prediction/book.go and relay.go). *)

From Stdlib Require Export Ascii.
From stdpp Require Export pretty.
From S2P Require Import Prelude.

Definition byte_of (c : ascii) : N := N_of_ascii c.
Definition of_byte (n : N) : ascii := ascii_of_N n.

(** ** [strings] *)

(** [strings.ToLower], on ASCII; a string with a non-ASCII byte is never a
    digest, whichever way its case is folded. *)
Definition lower_byte (c : ascii) : ascii :=
  let n := byte_of c in
  if (65 <=? n) && (n <=? 90) then of_byte (n + 32) else c.

Fixpoint ToLower (s : string) : string :=
  match s with
  | EmptyString => EmptyString
  | String c s => String (lower_byte c) (ToLower s)
  end.

Definition HasPrefix (s prefix : string) : bool := String.prefix prefix s.

Fixpoint skip (n : nat) (s : string) : string :=
  match n, s with
  | S n, String _ s => skip n s
  | _, _ => s
  end.

Definition TrimPrefix (s prefix : string) : string :=
  if HasPrefix s prefix then skip (String.length prefix) s else s.

(** Byte-wise comparison of strings: Go's [<] and [<=]. *)
Definition str_le (a b : string) : bool := String.leb a b.
Definition str_lt (a b : string) : bool := negb (String.leb b a).

(** ** [encoding/hex] *)
Definition hex_digit (n : N) : ascii := of_byte (if n <? 10 then 48 + n else 87 + n).

Definition from_hex (c : ascii) : option N :=
  let n := byte_of c in
  if (48 <=? n) && (n <=? 57) then Some (n - 48)
  else if (97 <=? n) && (n <=? 102) then Some (n - 87)
  else if (65 <=? n) && (n <=? 70) then Some (n - 55)
  else None.

Fixpoint hex_EncodeToString (s : string) : string :=
  match s with
  | EmptyString => EmptyString
  | String c s =>
      String (hex_digit (byte_of c / 16))
        (String (hex_digit (byte_of c mod 16)) (hex_EncodeToString s))
  end.

Fixpoint hex_DecodeString (s : string) : option string :=
  match s with
  | EmptyString => Some EmptyString
  | String a (String b rest) =>
      match from_hex a, from_hex b, hex_DecodeString rest with
      | Some x, Some y, Some r => Some (String (of_byte (16 * x + y)) r)
      | _, _, _ => None
      end
  | String _ EmptyString => None
  end.

(** src/pkg/prediction/book.go, [canonicalDigest]. *)
Definition canonicalDigest (value prefix : string) : bool :=
  if negb (bool_decide (value = ToLower value)) || negb (HasPrefix value prefix)
     || negb (slen value =? slen prefix + 64)
  then false
  else
    match hex_DecodeString (TrimPrefix value prefix) with
    | Some decoded => slen decoded =? 32
    | None => false
    end.

(** src/pkg/prediction/relay.go, [lowerHex]. *)
Definition lowerHex (value : string) (length : N) : bool :=
  if negb (slen value =? length) || negb (bool_decide (value = ToLower value)) then false
  else
    match hex_DecodeString value with
    | Some decoded => slen decoded * 2 =? length
    | None => false
    end.

(** ** [encoding/base64], [StdEncoding] *)
Definition b64_char (n : N) : ascii :=
  of_byte (if n <? 26 then 65 + n else if n <? 52 then 71 + n
           else if n <? 62 then n - 4 else if n =? 62 then 43 else 47).

Definition b64_value (c : ascii) : option N :=
  let n := byte_of c in
  if (65 <=? n) && (n <=? 90) then Some (n - 65)
  else if (97 <=? n) && (n <=? 122) then Some (n - 71)
  else if (48 <=? n) && (n <=? 57) then Some (n + 4)
  else if n =? 43 then Some 62
  else if n =? 47 then Some 63
  else None.

Definition pad : ascii := of_byte 61.

Fixpoint base64_EncodeToString (s : string) : string :=
  match s with
  | EmptyString => EmptyString
  | String a EmptyString =>
      let v := byte_of a * 65536 in
      String (b64_char (v / 262144)) (String (b64_char (v / 4096 mod 64))
        (String pad (String pad EmptyString)))
  | String a (String b EmptyString) =>
      let v := byte_of a * 65536 + byte_of b * 256 in
      String (b64_char (v / 262144)) (String (b64_char (v / 4096 mod 64))
        (String (b64_char (v / 64 mod 64)) (String pad EmptyString)))
  | String a (String b (String c rest)) =>
      let v := byte_of a * 65536 + byte_of b * 256 + byte_of c in
      String (b64_char (v / 262144)) (String (b64_char (v / 4096 mod 64))
        (String (b64_char (v / 64 mod 64)) (String (b64_char (v mod 64))
          (base64_EncodeToString rest))))
  end.

(** The decoder skips carriage returns and line feeds wherever they stand. *)
Fixpoint strip_newlines (s : string) : string :=
  match s with
  | EmptyString => EmptyString
  | String c s =>
      if (byte_of c =? 10) || (byte_of c =? 13) then strip_newlines s
      else String c (strip_newlines s)
  end.

(** Quanta of four characters; padding only ends the input, and (as the
    encoding is not [Strict]) the unused bits before it are not inspected. *)
Fixpoint b64_quanta (s : string) : option string :=
  match s with
  | EmptyString => Some EmptyString
  | String a (String b (String c (String d rest))) =>
      match b64_value a, b64_value b with
      | Some w, Some x =>
          if Ascii.eqb c pad then
            if Ascii.eqb d pad && bool_decide (rest = EmptyString)
            then Some (String (of_byte ((w * 262144 + x * 4096) / 65536)) EmptyString)
            else None
          else
            match b64_value c with
            | None => None
            | Some y =>
                if Ascii.eqb d pad then
                  if bool_decide (rest = EmptyString) then
                    let v := w * 262144 + x * 4096 + y * 64 in
                    Some (String (of_byte (v / 65536)) (String (of_byte (v / 256 mod 256)) EmptyString))
                  else None
                else
                  match b64_value d, b64_quanta rest with
                  | Some z, Some r =>
                      let v := w * 262144 + x * 4096 + y * 64 + z in
                      Some (String (of_byte (v / 65536)) (String (of_byte (v / 256 mod 256))
                              (String (of_byte (v mod 256)) r)))
                  | _, _ => None
                  end
            end
      | _, _ => None
      end
  | _ => None
  end.

Definition base64_DecodeString (s : string) : option string := b64_quanta (strip_newlines s).

(** [base64.StdEncoding.EncodedLen] *)
Definition base64_EncodedLen (n : N) : N := (n + 2) / 3 * 4.

(** src/pkg/prediction/relay.go, [decodeBase64Bounded]. *)
Definition decodeBase64Bounded (encoded : string) (maximum : N) : result string :=
  if bool_decide (encoded = ""%string) || (base64_EncodedLen maximum <? slen encoded)
  then Err "encoded evidence exceeds bound"
  else
    match base64_DecodeString encoded with
    | None => Err "evidence is not canonical base64"
    | Some raw =>
        if (slen raw =? 0) || (maximum <? slen raw)
           || negb (bool_decide (base64_EncodeToString raw = encoded))
        then Err "evidence is not canonical base64"
        else Ok raw
    end.

(** ** [sort] *)

(** [sort.Search]: binary search for the first index satisfying [f]. *)
Fixpoint search_loop (fuel : nat) (f : nat -> bool) (i j : nat) : nat :=
  match fuel with
  | O => i
  | S fuel =>
      if decide (i < j)%nat then
        let h := Nat.div2 (i + j) in
        if f h then search_loop fuel f i h else search_loop fuel f (S h) j
      else i
  end.

Definition sort_Search (n : nat) (f : nat -> bool) : nat := search_loop n f 0 n.

(** [sort.SearchStrings] *)
Definition SearchStrings (a : list string) (x : string) : nat :=
  sort_Search (length a) (fun i => match a !! i with Some s => str_le x s | None => true end).

(** [sort.StringsAreSorted] *)
Fixpoint StringsAreSorted (values : list string) : bool :=
  match values with
  | a :: ((b :: _) as rest) => negb (str_lt b a) && StringsAreSorted rest
  | _ => true
  end.

(** [sort.Strings], and [sort.Slice] comparing one string key. *)
Definition key_le {A} (key : A -> string) (x y : A) : Prop := String.le (key x) (key y).

#[global] Instance key_le_dec {A} (key : A -> string) : RelDecision (key_le key).
Proof. intros x y. unfold key_le. apply _. Defined.

Definition sort_by {A} (key : A -> string) (l : list A) : list A := merge_sort (key_le key) l.
Definition sort_Strings (l : list string) : list string := sort_by id l.

(** src/pkg/prediction/relay.go, [sortedUniqueCanonicalDigests]. *)
Fixpoint adjacent_unique (prefix : string) (previous : option string) (values : list string) : bool :=
  match values with
  | [] => true
  | value :: rest =>
      if negb (canonicalDigest value prefix) || bool_decide (previous = Some value) then false
      else adjacent_unique prefix (Some value) rest
  end.

Definition sortedUniqueCanonicalDigests (values : list string) (prefix : string) : bool :=
  if (llen values =? 0) || negb (StringsAreSorted values) then false
  else adjacent_unique prefix None values.

(** ** [strconv.FormatUint(n, 10)] *)
Definition FormatUint10 (n : N) : string := pretty n.

(** ** [binary.BigEndian.PutUint64] and [PutUint32] *)
Fixpoint big_endian (n : nat) (v : N) : string :=
  match n with
  | O => EmptyString
  | S n => big_endian n (v / 256) +:+ String (of_byte (v mod 256)) EmptyString
  end.

(** ** [binary.BigEndian.Uint32] *)
Fixpoint from_big_endian (acc : N) (s : string) : N :=
  match s with
  | EmptyString => acc
  | String c s => from_big_endian (acc * 256 + byte_of c) s
  end.

(** ** Lemmas *)

Lemma byte_of_range c : byte_of c < 256.
Proof. apply N_ascii_bounded. Qed.

Lemma of_byte_of c : of_byte (byte_of c) = c.
Proof. apply ascii_N_embedding. Qed.

Lemma byte_of_of n : n < 256 -> byte_of (of_byte n) = n.
Proof. apply N_ascii_embedding. Qed.

(** A decidable property of a byte holds of all bytes if it holds of the 256
    of them. *)
Lemma byte_forall (p : N -> bool) :
  forallb (fun n => p (N.of_nat n)) (seq 0 256) = true -> forall c, p (byte_of c) = true.
Proof.
  intros H c. rewrite forallb_forall in H.
  specialize (H (N.to_nat (byte_of c))).
  rewrite N2Nat.id in H. apply H, in_seq.
  pose proof (byte_of_range c). lia.
Qed.

Lemma below_forall (k : nat) (p : N -> bool) :
  forallb (fun n => p (N.of_nat n)) (seq 0 k) = true -> forall n, n < N.of_nat k -> p n = true.
Proof.
  intros H n Hn. rewrite forallb_forall in H.
  specialize (H (N.to_nat n)). rewrite N2Nat.id in H. apply H, in_seq. lia.
Qed.

Lemma append_cons c a b : String c a +:+ b = String c (a +:+ b).
Proof. reflexivity. Qed.

Lemma append_nil b : ""%string +:+ b = b.
Proof. reflexivity. Qed.

Lemma append_assoc (a b c : string) : (a +:+ b) +:+ c = a +:+ b +:+ c.
Proof. induction a as [|x a IH]; [done|]. by rewrite !append_cons, IH. Qed.

Lemma slen_app a b : slen (a +:+ b) = slen a + slen b.
Proof. unfold slen. induction a as [|c a IH]; [done|]. rewrite append_cons. simpl. lia. Qed.

(** *** Digests *)
Lemma from_hex_digit n : n < 16 -> from_hex (hex_digit n) = Some n.
Proof.
  intros Hn.
  pose proof (below_forall 16 (fun n => bool_decide (from_hex (hex_digit n) = Some n)) eq_refl n Hn) as H.
  by apply bool_decide_eq_true in H.
Qed.

Lemma hex_digit_lower n : n < 16 -> lower_byte (hex_digit n) = hex_digit n.
Proof.
  intros Hn.
  pose proof (below_forall 16 (fun n => bool_decide (lower_byte (hex_digit n) = hex_digit n)) eq_refl n Hn) as H.
  by apply bool_decide_eq_true in H.
Qed.

(** A lower-case hex character is the digit of its value. *)
Lemma hex_digit_from c n :
  lower_byte c = c -> from_hex c = Some n -> hex_digit n = c /\ n < 16.
Proof.
  pose proof (byte_forall (fun b =>
    let c := of_byte b in
    negb (bool_decide (lower_byte c = c)) ||
    match from_hex c with
    | Some n => bool_decide (hex_digit n = c) && (n <? 16)
    | None => true
    end) eq_refl c) as H.
  cbv beta zeta in H. rewrite of_byte_of in H. intros Hl Hf. rewrite Hf in H. bprop.
  destruct H as [H|H]; bprop; [done|auto].
Qed.

Lemma length_hex d : String.length (hex_EncodeToString d) = (2 * String.length d)%nat.
Proof. induction d as [|c d IH]; simpl; lia. Qed.

Lemma ToLower_app a b : ToLower (a +:+ b) = ToLower a +:+ ToLower b.
Proof. induction a as [|c a IH]; [done|]. rewrite append_cons. simpl. by rewrite IH. Qed.

Lemma byte_div16 c : byte_of c / 16 < 16.
Proof. pose proof (byte_of_range c). apply N.Div0.div_lt_upper_bound; lia. Qed.

Lemma byte_mod16 c : byte_of c mod 16 < 16.
Proof. apply N.mod_upper_bound. lia. Qed.

#[export] Hint Resolve byte_div16 byte_mod16 byte_of_range : openfox.

Lemma ToLower_hex d : ToLower (hex_EncodeToString d) = hex_EncodeToString d.
Proof.
  induction d as [|c d IH]; simpl; [done|].
  by rewrite !hex_digit_lower, IH by auto with openfox.
Qed.

Lemma hex_decode_encode d : hex_DecodeString (hex_EncodeToString d) = Some d.
Proof.
  induction d as [|c d IH]; simpl; [done|].
  rewrite !from_hex_digit, IH by auto with openfox.
  do 2 f_equal. rewrite <-N.div_mod'. apply of_byte_of.
Qed.

Lemma string_ind2 (P : string -> Prop) :
  P EmptyString -> (forall a, P (String a EmptyString)) ->
  (forall a b s, P s -> P (String a (String b s))) -> forall s, P s.
Proof.
  intros H0 H1 H2. fix IH 1. intros [|a [|b s]]; [done|apply H1|apply H2, IH].
Qed.

Lemma hex_encode_decode s d :
  ToLower s = s -> hex_DecodeString s = Some d -> hex_EncodeToString d = s.
Proof.
  revert d. induction s as [|a|a b s IH] using string_ind2; intros d; simpl; [naive_solver|done|].
  intros Hl Hd. injection Hl as Ha Hb Hs.
  destruct (from_hex a) as [x|] eqn:Ex; [|done].
  destruct (from_hex b) as [y|] eqn:Ey; [|done].
  destruct (hex_DecodeString s) as [r|]; [|done].
  injection Hd as <-.
  apply hex_digit_from in Ex as [Ex ?]; [|done]. apply hex_digit_from in Ey as [Ey ?]; [|done].
  simpl. rewrite byte_of_of by lia.
  replace ((16 * x + y) / 16) with x by (rewrite N.mul_comm, N.div_add_l, N.div_small; lia).
  replace ((16 * x + y) mod 16) with y
    by (rewrite N.add_comm, N.mul_comm, N.Div0.mod_add, N.mod_small; lia).
  by rewrite Ex, Ey, (IH r).
Qed.

Lemma HasPrefix_app p s : HasPrefix (p +:+ s) p = true.
Proof.
  unfold HasPrefix. induction p as [|c p IH]; [by destruct s|].
  rewrite append_cons. simpl. destruct (ascii_dec c c); done.
Qed.

Lemma HasPrefix_skip s p :
  HasPrefix s p = true -> s = p +:+ skip (String.length p) s.
Proof.
  unfold HasPrefix. revert s. induction p as [|c p IH]; intros [|c' s]; simpl; try done.
  destruct (ascii_dec c c') as [<-|]; [|intros; discriminate].
  intros H. rewrite append_cons. by rewrite <-IH.
Qed.

Lemma TrimPrefix_app p s : TrimPrefix (p +:+ s) p = s.
Proof.
  unfold TrimPrefix. rewrite HasPrefix_app.
  induction p as [|c p IH]; [by destruct s|]. apply IH.
Qed.

Lemma append_inj p a b : p +:+ a = p +:+ b -> a = b.
Proof. induction p as [|c p IH]; [done|]. rewrite !append_cons. intros [= H]. auto. Qed.

(** A canonical digest is the prefix followed by the lower-case hex of exactly
    32 bytes, and nothing else is accepted. *)
Lemma canonicalDigest_spec value prefix :
  ToLower prefix = prefix ->
  canonicalDigest value prefix = true <->
  exists d, slen d = 32 /\ value = prefix +:+ hex_EncodeToString d.
Proof.
  intros Hp. unfold canonicalDigest. split.
  - destruct (_ || _ || _) eqn:E; [done|]. bprop.
    match goal with H : HasPrefix _ _ = true |- _ => pose proof (HasPrefix_skip _ _ H) as Hs end.
    set (rest := skip (String.length prefix) value) in *.
    rewrite Hs, TrimPrefix_app.
    destruct (hex_DecodeString rest) as [d|] eqn:Ed; [|done].
    intros H32. bprop. exists d. split; [done|]. f_equal. symmetry.
    apply hex_encode_decode; [|done].
    apply (append_inj prefix). rewrite <-Hp at 1. rewrite <-ToLower_app, <-Hs. done.
  - intros (d & Hd & ->).
    rewrite ToLower_app, Hp, ToLower_hex, HasPrefix_app, TrimPrefix_app, hex_decode_encode.
    rewrite bool_decide_true by done. rewrite slen_app. unfold slen at 2.
    rewrite length_hex. unfold slen in *.
    replace (N.of_nat (String.length prefix) + N.of_nat (2 * String.length d) =?
             N.of_nat (String.length prefix) + 64) with true
      by (symmetry; apply N.eqb_eq; lia).
    simpl. by apply N.eqb_eq.
Qed.

Lemma canonicalDigest_slen value prefix :
  canonicalDigest value prefix = true -> slen value = slen prefix + 64.
Proof.
  unfold canonicalDigest. destruct (_ || _ || _) eqn:E; [done|]. by bprop.
Qed.

Lemma canonicalDigest_nonempty value prefix :
  canonicalDigest value prefix = true -> value <> ""%string.
Proof. intros H ->. apply canonicalDigest_slen in H. unfold slen in H. simpl in H. lia. Qed.

(** *** Base64 *)
Lemma b64_value_char n : n < 64 -> b64_value (b64_char n) = Some n.
Proof.
  intros Hn.
  pose proof (below_forall 64 (fun n => bool_decide (b64_value (b64_char n) = Some n)) eq_refl n Hn) as H.
  by apply bool_decide_eq_true in H.
Qed.

(** The alphabet contains neither the padding character nor a line break. *)
Lemma b64_char_plain n :
  n < 64 -> Ascii.eqb (b64_char n) pad = false /\
  ((byte_of (b64_char n) =? 10) || (byte_of (b64_char n) =? 13))%bool = false.
Proof.
  intros Hn.
  pose proof (below_forall 64 (fun n => negb (Ascii.eqb (b64_char n) pad) &&
    negb ((byte_of (b64_char n) =? 10) || (byte_of (b64_char n) =? 13))) eq_refl n Hn) as H.
  apply andb_true_iff in H as [H1 H2]. split; by apply negb_true_iff.
Qed.

Lemma string_ind3 (P : string -> Prop) :
  P EmptyString -> (forall a, P (String a EmptyString)) ->
  (forall a b, P (String a (String b EmptyString))) ->
  (forall a b c s, P s -> P (String a (String b (String c s)))) -> forall s, P s.
Proof.
  intros H0 H1 H2 H3. fix IH 1.
  intros [|a [|b [|c s]]]; [done|apply H1|apply H2|apply H3, IH].
Qed.

Lemma b64_first a b c : a < 256 -> b < 256 -> c < 256 -> (a * 65536 + b * 256 + c) / 262144 < 64.
Proof. intros. apply N.Div0.div_lt_upper_bound. lia. Qed.

Lemma mod64 n : n mod 64 < 64.
Proof. apply N.mod_upper_bound. lia. Qed.

#[export] Hint Resolve b64_first mod64 : openfox.

(** The four six-bit groups of a 24-bit word rebuild the word. *)
Lemma b64_regroup v :
  v < 16777216 ->
  v / 262144 * 262144 + v / 4096 mod 64 * 4096 + v / 64 mod 64 * 64 + v mod 64 = v.
Proof.
  intros Hv. zify. Z.to_euclidean_division_equations. lia.
Qed.

Lemma b64_bytes a b c :
  a < 256 -> b < 256 -> c < 256 ->
  let v := a * 65536 + b * 256 + c in
  v / 65536 = a /\ v / 256 mod 256 = b /\ v mod 256 = c.
Proof. intros. subst v. zify. Z.to_euclidean_division_equations. lia. Qed.

Lemma strip_plain c s :
  ((byte_of c =? 10) || (byte_of c =? 13))%bool = false ->
  strip_newlines (String c s) = String c (strip_newlines s).
Proof. intros H. simpl. by rewrite H. Qed.

Lemma strip_encode s : strip_newlines (base64_EncodeToString s) = base64_EncodeToString s.
Proof.
  induction s as [|a|a b|a b c s IH] using string_ind3; [done|..];
    cbn [base64_EncodeToString]; cbv zeta;
    rewrite !strip_plain by (first [reflexivity | apply b64_char_plain]; auto with openfox;
      try (pose proof (byte_of_range a); try pose proof (byte_of_range b);
           try pose proof (byte_of_range c); apply N.Div0.div_lt_upper_bound; lia));
    by rewrite ?IH.
Qed.

Lemma b64_char_nopad n : n < 64 -> Ascii.eqb (b64_char n) pad = false.
Proof. intros Hn. apply (b64_char_plain n Hn). Qed.

Lemma b64_quantum_full w x y z rest :
  w < 64 -> x < 64 -> y < 64 -> z < 64 ->
  b64_quanta (String (b64_char w) (String (b64_char x) (String (b64_char y) (String (b64_char z) rest)))) =
  match b64_quanta rest with
  | Some r =>
      let v := w * 262144 + x * 4096 + y * 64 + z in
      Some (String (of_byte (v / 65536)) (String (of_byte (v / 256 mod 256))
              (String (of_byte (v mod 256)) r)))
  | None => None
  end.
Proof.
  intros. cbn [b64_quanta]. rewrite !b64_value_char by done.
  by rewrite !b64_char_nopad by done.
Qed.

Lemma b64_quantum_pad2 w x :
  w < 64 -> x < 64 ->
  b64_quanta (String (b64_char w) (String (b64_char x) (String pad (String pad EmptyString)))) =
  Some (String (of_byte ((w * 262144 + x * 4096) / 65536)) EmptyString).
Proof. intros. cbn [b64_quanta]. by rewrite !b64_value_char by done. Qed.

Lemma b64_quantum_pad1 w x y :
  w < 64 -> x < 64 -> y < 64 ->
  b64_quanta (String (b64_char w) (String (b64_char x) (String (b64_char y) (String pad EmptyString)))) =
  Some (String (of_byte ((w * 262144 + x * 4096 + y * 64) / 65536))
         (String (of_byte ((w * 262144 + x * 4096 + y * 64) / 256 mod 256)) EmptyString)).
Proof.
  intros. cbn [b64_quanta]. rewrite !b64_value_char by done.
  by rewrite !b64_char_nopad by done.
Qed.

Lemma byte_group_lt a b c k :
  a < 256 -> b < 256 -> c < 256 -> 262144 <= k -> (a * 65536 + b * 256 + c) / k < 64.
Proof. intros. apply N.Div0.div_lt_upper_bound. nia. Qed.

(** Decoding inverts encoding. *)
Lemma base64_decode_encode s : base64_DecodeString (base64_EncodeToString s) = Some s.
Proof.
  unfold base64_DecodeString. rewrite strip_encode.
  induction s as [|a|a b|a b c s IH] using string_ind3; [done|..];
    cbn [base64_EncodeToString]; cbv zeta;
    pose proof (byte_of_range a);
    try pose proof (byte_of_range b); try pose proof (byte_of_range c).
  - rewrite b64_quantum_pad2 by (auto with openfox; apply N.Div0.div_lt_upper_bound; lia).
    set (v := byte_of a * 65536).
    replace (v / 262144 * 262144 + v / 4096 mod 64 * 4096) with v
      by (subst v; zify; Z.to_euclidean_division_equations; lia).
    subst v. by rewrite N.div_mul, of_byte_of by lia.
  - rewrite b64_quantum_pad1 by (auto with openfox; apply N.Div0.div_lt_upper_bound; lia).
    set (v := byte_of a * 65536 + byte_of b * 256).
    replace (v / 262144 * 262144 + v / 4096 mod 64 * 4096 + v / 64 mod 64 * 64) with v
      by (subst v; zify; Z.to_euclidean_division_equations; lia).
    pose proof (b64_bytes (byte_of a) (byte_of b) 0) as Hv. cbv zeta in Hv.
    rewrite N.add_0_r in Hv. destruct Hv as (Hv1 & Hv2 & _); [lia..|].
    subst v. by rewrite Hv1, Hv2, !of_byte_of.
  - rewrite b64_quantum_full by (auto with openfox; apply N.Div0.div_lt_upper_bound; lia).
    rewrite IH. cbv zeta. rewrite b64_regroup by lia.
    destruct (b64_bytes (byte_of a) (byte_of b) (byte_of c)) as (Hv1 & Hv2 & Hv3); [lia..|].
    by rewrite Hv1, Hv2, Hv3, !of_byte_of.
Qed.

Lemma slen_base64 s : slen (base64_EncodeToString s) = base64_EncodedLen (slen s).
Proof.
  unfold slen, base64_EncodedLen.
  induction s as [|a|a b|a b c s IH] using string_ind3; [done..|].
  cbn [base64_EncodeToString String.length]; cbv zeta. cbn [String.length].
  replace (N.of_nat (S (S (S (S (String.length (base64_EncodeToString s)))))))
    with (N.of_nat (String.length (base64_EncodeToString s)) + 4) by lia.
  rewrite IH.
  replace (N.of_nat (S (S (S (String.length s)))) + 2) with (N.of_nat (String.length s) + 2 + 1 * 3) by lia.
  rewrite N.div_add by lia. lia.
Qed.

(** [decodeBase64Bounded] accepts exactly the canonical encodings of the
    non-empty byte strings within the bound. *)
Lemma decodeBase64Bounded_spec encoded maximum raw :
  decodeBase64Bounded encoded maximum = Ok raw <->
  encoded = base64_EncodeToString raw /\ 0 < slen raw /\ slen raw <= maximum.
Proof.
  unfold decodeBase64Bounded. split.
  - destruct (_ || _) eqn:E; [done|].
    destruct (base64_DecodeString encoded) as [r|]; [|done].
    destruct (_ || _ || _) eqn:E'; [done|]. intros [= ->]. bprop. split_and!; [done|lia|done].
  - intros (-> & H0 & Hmax). rewrite base64_decode_encode.
    replace (bool_decide (base64_EncodeToString raw = ""%string)) with false.
    2:{ symmetry. apply bool_decide_eq_false. intros Hn.
        assert (base64_DecodeString "" = Some raw) as Hd by (rewrite <-Hn; apply base64_decode_encode).
        by injection Hd as <-. }
    rewrite slen_base64. unfold base64_EncodedLen.
    replace ((maximum + 2) / 3 * 4 <? (slen raw + 2) / 3 * 4) with false.
    2:{ symmetry. apply N.ltb_ge. apply N.mul_le_mono_r, N.Div0.div_le_mono. lia. }
    rewrite bool_decide_true by done. simpl.
    destruct (N.eqb_spec (slen raw) 0); [lia|]. destruct (N.ltb_spec maximum (slen raw)); [lia|]. done.
Qed.

(** *** Ordering and searching *)
Lemma str_lt_true a b : str_lt a b = true <-> ~ String.le b a.
Proof. unfold str_lt, String.le. destruct (String.leb b a); simpl; naive_solver. Qed.

Lemma str_lt_le a b : str_lt a b = true -> String.le a b.
Proof. rewrite str_lt_true. destruct (total String.le a b); naive_solver. Qed.

Lemma str_le_true a b : str_le a b = true <-> String.le a b.
Proof. unfold str_le, String.le. by rewrite Is_true_true. Qed.

Lemma str_lt_irrefl a : str_lt a a = false.
Proof. apply not_true_iff_false. rewrite str_lt_true. intros H. by apply H. Qed.

Lemma str_lt_le_trans a b c : str_lt a b = true -> String.le b c -> str_lt a c = true.
Proof. rewrite !str_lt_true. intros H1 H2 H3. apply H1. by trans c. Qed.

Lemma str_le_lt_trans a b c : String.le a b -> str_lt b c = true -> str_lt a c = true.
Proof. rewrite !str_lt_true. intros H1 H2 H3. apply H2. by trans a. Qed.

Lemma str_lt_trans a b c : str_lt a b = true -> str_lt b c = true -> str_lt a c = true.
Proof. intros H1 H2. eapply str_lt_le_trans; [done|]. by apply str_lt_le. Qed.

Lemma str_le_neq_lt a b : String.le a b -> a <> b -> str_lt a b = true.
Proof. rewrite str_lt_true. intros H1 H2 H3. apply H2. by apply (anti_symm String.le). Qed.

Lemma StronglySorted_lookup_lt {A} (R : relation A) (l : list A) i j x y :
  StronglySorted R l -> (i < j)%nat -> l !! i = Some x -> l !! j = Some y -> R x y.
Proof.
  intros Hl. revert i j. induction Hl as [|z l Hl IH Hz]; intros i j Hij Hi Hj; [done|].
  destruct i as [|i], j as [|j]; simpl in *; [lia| |lia|].
  - simplify_eq. eapply Forall_lookup_1; [exact Hz|exact Hj].
  - eapply (IH i j); [lia|done..].
Qed.

(** Binary search with as much fuel as the interval is long finds the first
    index where a monotone predicate holds. *)
Lemma search_loop_spec f fuel i j :
  (forall a b, (a <= b)%nat -> f a = true -> f b = true) ->
  (i <= j)%nat -> (j - i <= fuel)%nat ->
  (forall k, (k < i)%nat -> f k = false) -> f j = true ->
  let r := search_loop fuel f i j in
  (i <= r <= j)%nat /\ (forall k, (k < r)%nat -> f k = false) /\ f r = true.
Proof.
  intros Hmono. revert i j. induction fuel as [|fuel IH]; intros i j Hij Hfuel Hlo Hhi; simpl.
  - replace j with i in * by lia. split_and!; [lia|lia|done..].
  - destruct (decide (i < j)%nat) as [Hlt|Hge].
    + assert (i <= Nat.div2 (i + j) < j)%nat as Hh.
      { rewrite Nat.div2_div. split.
        - apply Nat.div_le_lower_bound; lia.
        - apply Nat.Div0.div_lt_upper_bound; lia. }
      destruct (f (Nat.div2 (i + j))) eqn:Ef.
      * destruct (IH i (Nat.div2 (i + j))) as (? & ? & ?); [lia|lia|done|done|].
        split_and!; [lia|lia|done|done].
      * destruct (IH (S (Nat.div2 (i + j))) j) as (? & ? & ?); [lia|lia| |done|].
        { intros k Hk. apply not_true_iff_false. intros Hk'.
          rewrite (Hmono k (Nat.div2 (i + j))) in Ef; [done|lia|done]. }
        split_and!; [lia|lia|done|done].
    + replace j with i in * by lia. split_and!; [lia|lia|done..].
Qed.

(** On a sorted list [sort.SearchStrings] splits it at the first element that
    is not below the key. *)
Lemma SearchStrings_spec l x :
  StronglySorted String.le l ->
  let i := SearchStrings l x in
  (i <= length l)%nat /\
  (forall k s, (k < i)%nat -> l !! k = Some s -> str_lt s x = true) /\
  (forall k s, (i <= k)%nat -> l !! k = Some s -> String.le x s).
Proof.
  intros Hs. unfold SearchStrings, sort_Search.
  set (f := fun i => match l !! i with Some s => str_le x s | None => true end).
  assert (forall a b, (a <= b)%nat -> f a = true -> f b = true) as Hmono.
  { intros a b Hab. subst f; simpl.
    destruct (l !! b) as [sb|] eqn:Eb; [|done].
    assert (a < length l)%nat as Ha by (apply lookup_lt_Some in Eb; lia).
    apply lookup_lt_is_Some in Ha as [sa Ea]. rewrite Ea, !str_le_true. intros Hle.
    destruct (decide (a = b)) as [->|]; [congruence|].
    trans sa; [done|]. eapply (StronglySorted_lookup_lt String.le l a b); [done|lia|done..]. }
  destruct (search_loop_spec f (length l) 0 (length l)) as (Hr & Hlo & Hhi); [done|lia|lia|lia| |].
  { subst f; simpl. by rewrite lookup_ge_None_2. }
  split_and!; [lia| |].
  - intros k s Hk Hks. specialize (Hlo k Hk). subst f; simpl in Hlo. rewrite Hks in Hlo.
    rewrite str_lt_true. intros Hle. rewrite (proj2 (str_le_true _ _) Hle) in Hlo. done.
  - intros k s Hk Hks. apply str_le_true.
    specialize (Hmono _ k Hk Hhi). subst f; simpl in Hmono. by rewrite Hks in Hmono.
Qed.

(** Strictly increasing lists of strings: the shape of every sorted index. *)
Definition strict_sorted (l : list string) : Prop := StronglySorted (fun a b => str_lt a b = true) l.

Lemma strict_sorted_weak l : strict_sorted l -> StronglySorted String.le l.
Proof.
  induction 1 as [|x l Hl IH Hx]; constructor; [done|].
  eapply Forall_impl; [exact Hx|]. intros y. apply str_lt_le.
Qed.

Lemma strict_sorted_NoDup l : strict_sorted l -> NoDup l.
Proof.
  induction 1 as [|x l Hl IH Hx]; constructor; [|done].
  intros Hin. rewrite Forall_forall in Hx. specialize (Hx x Hin).
  by rewrite str_lt_irrefl in Hx.
Qed.

(** Strict sorting is canonical: the elements determine the list. *)
Lemma strict_sorted_unique l1 l2 :
  strict_sorted l1 -> strict_sorted l2 -> (forall x, x ∈ l1 <-> x ∈ l2) -> l1 = l2.
Proof.
  intros H1 H2 Hel. apply (StronglySorted_unique String.le); [by apply strict_sorted_weak..|].
  apply NoDup_Permutation; [by apply strict_sorted_NoDup..|done].
Qed.

Lemma SearchStrings_found l x :
  strict_sorted l -> x ∈ l -> l !! SearchStrings l x = Some x.
Proof.
  intros Hs Hin. apply list_elem_of_lookup in Hin as [k Hk].
  pose proof (strict_sorted_weak _ Hs) as Hw.
  destruct (SearchStrings_spec l x Hw) as (_ & Hlo & Hhi).
  set (i := SearchStrings l x) in *.
  assert (i <= k)%nat as Hik.
  { destruct (decide (i <= k)%nat); [done|]. specialize (Hlo k x ltac:(lia) Hk).
    by rewrite str_lt_irrefl in Hlo. }
  destruct (decide (i = k)) as [->|Hne]; [done|].
  assert (i < length l)%nat as Hi by (apply lookup_lt_Some in Hk; lia).
  apply lookup_lt_is_Some in Hi as [y Hy].
  specialize (Hhi i y ltac:(lia) Hy).
  pose proof (StronglySorted_lookup_lt _ l i k y x Hs ltac:(lia) Hy Hk) as Hlt. simpl in Hlt.
  rewrite str_lt_true in Hlt. done.
Qed.

(** [append], [copy] and the assignment at [position]: an insertion. *)
Definition insert_at (position : nat) (x : string) (l : list string) : list string :=
  take position l ++ x :: drop position l.

(** [append(l[:position], l[position+1:]...)]: a removal. *)
Definition remove_at (position : nat) (l : list string) : list string :=
  take position l ++ drop (S position) l.

Lemma elem_of_insert_at i x y l : y ∈ insert_at i x l <-> y = x \/ y ∈ l.
Proof.
  unfold insert_at. rewrite <-(take_drop i l) at 3.
  rewrite !elem_of_app, elem_of_cons. tauto.
Qed.

Lemma insert_at_sorted l x :
  strict_sorted l -> x ∉ l -> strict_sorted (insert_at (SearchStrings l x) x l).
Proof.
  intros Hs Hx. pose proof (strict_sorted_weak _ Hs) as Hw.
  destruct (SearchStrings_spec l x Hw) as (_ & Hlo & Hhi).
  set (i := SearchStrings l x) in *. unfold insert_at.
  rewrite <-(take_drop i l) in Hs. apply StronglySorted_app in Hs as (Hcross & Ht & Hd).
  assert (forall y, y ∈ take i l -> str_lt y x = true) as Htake.
  { intros y Hy. apply list_elem_of_lookup in Hy as [k Hk].
    apply lookup_take_Some in Hk as [Hk Hki]. by apply (Hlo k). }
  assert (forall y, y ∈ drop i l -> str_lt x y = true) as Hdrop.
  { intros y Hy. pose proof Hy as Hy'. apply list_elem_of_lookup in Hy as [k Hk].
    rewrite lookup_drop in Hk. apply str_le_neq_lt; [apply (Hhi (i + k)%nat); [lia|done]|].
    intros ->. apply Hx. rewrite <-(take_drop i l). apply elem_of_app. by right. }
  apply StronglySorted_app. split_and!; [|done|].
  - intros a b Ha Hb. apply elem_of_cons in Hb as [->|Hb]; [by apply Htake|by apply Hcross].
  - constructor; [done|]. by apply Forall_forall.
Qed.

Lemma remove_at_sorted i l : strict_sorted l -> strict_sorted (remove_at i l).
Proof.
  intros Hs. unfold remove_at. rewrite <-(take_drop i l) in Hs.
  apply StronglySorted_app in Hs as (Hcross & Ht & Hd).
  assert (drop (S i) l = drop 1 (drop i l)) as E by (rewrite drop_drop; f_equal; lia).
  apply StronglySorted_app. split_and!; [|done|].
  - intros a b Ha Hb. apply Hcross; [done|]. rewrite E in Hb.
    destruct (drop i l); [done|]. by apply elem_of_cons; right.
  - rewrite E. destruct Hd; [constructor|done].
Qed.

Lemma elem_of_remove_at i x l y :
  NoDup l -> l !! i = Some x -> y ∈ remove_at i l <-> y ∈ l /\ y <> x.
Proof.
  intros Hnd Hi. unfold remove_at.
  rewrite <-(take_drop_middle l i x Hi) in Hnd |- * at 3.
  apply NoDup_app in Hnd as (_ & Hnin & Hnd). apply NoDup_cons in Hnd as [Hx _].
  rewrite !elem_of_app, elem_of_cons.
  split.
  - intros [H|H]; (split; [naive_solver|]); intros ->; [|done].
    apply (Hnin x H). by left.
  - naive_solver.
Qed.

(** An accepted identity list is duplicate-free and canonical throughout. *)
Lemma adjacent_unique_spec prefix previous values :
  adjacent_unique prefix previous values = true -> StringsAreSorted values = true ->
  (forall p, previous = Some p -> match values with v :: _ => String.le p v | [] => True end) ->
  strict_sorted values /\ Forall (fun v => canonicalDigest v prefix = true) values /\
  (forall p, previous = Some p -> Forall (fun v => str_lt p v = true) values).
Proof.
  revert previous. induction values as [|v values IH]; intros previous H Hs Hp.
  { split_and!; [constructor..|]. constructor. }
  simpl in H. destruct (_ || _) eqn:E; [done|]. bprop.
  assert (match values with w :: _ => String.le v w | [] => True end) as Hvw.
  { destruct values as [|w values]; [done|]. simpl in Hs. bprop.
    destruct (total String.le v w) as [|Hwv]; [done|].
    destruct (decide (v = w)) as [->|Hne]; [done|].
    assert (str_lt w v = true) as Hlt by (apply str_le_neq_lt; [done|congruence]). congruence. }
  assert (StringsAreSorted values = true) as Hs'.
  { destruct values as [|w values]; [done|]. simpl in Hs. by bprop. }
  destruct (IH (Some v) H Hs') as (Hss & Hc & Hlt); [naive_solver|].
  specialize (Hlt v eq_refl).
  split_and!; [by constructor|by constructor|].
  intros p ->. specialize (Hp p eq_refl). simpl in Hp.
  assert (str_lt p v = true) as Hpv by (apply str_le_neq_lt; [done|congruence]).
  constructor; [done|]. eapply Forall_impl; [exact Hlt|]. intros w. by apply str_lt_trans.
Qed.

Lemma sortedUniqueCanonicalDigests_spec values prefix :
  sortedUniqueCanonicalDigests values prefix = true ->
  values <> [] /\ NoDup values /\ Forall (fun v => canonicalDigest v prefix = true) values.
Proof.
  unfold sortedUniqueCanonicalDigests. destruct (_ || _) eqn:E; [done|]. bprop. intros Ha.
  destruct (adjacent_unique_spec prefix None values Ha) as (Hs & Hc & _); [done|done|].
  split_and!; [|by apply strict_sorted_NoDup|done].
  intros ->. done.
Qed.

(** [sort.Slice] on a key returns the same elements in key order. *)
Lemma sort_by_Permutation {A} (key : A -> string) l : sort_by key l ≡ₚ l.
Proof. apply merge_sort_Permutation. Qed.

Lemma sort_by_sorted {A} (key : A -> string) l : StronglySorted (key_le key) (sort_by key l).
Proof.
  apply StronglySorted_merge_sort.
  - intros x y z. unfold key_le. apply transitivity.
  - intros x y. unfold key_le. apply (total String.le).
Qed.

(** ** Big-endian integers *)

Lemma slen_big_endian n v : slen (big_endian n v) = N.of_nat n.
Proof. revert v. induction n as [|n IH]; intros v; cbn; [done|]. rewrite slen_app, IH. unfold slen. cbn. lia. Qed.

Lemma from_big_endian_snoc acc s c :
  from_big_endian acc (s +:+ String c EmptyString) = from_big_endian acc s * 256 + byte_of c.
Proof. revert acc. induction s as [|d s IH]; intros acc; cbn; [done|apply IH]. Qed.

Lemma big_endian_round n v : v < 256 ^ N.of_nat n -> from_big_endian 0 (big_endian n v) = v.
Proof.
  revert v. induction n as [|n IH]; intros v Hv; cbn [big_endian].
  { cbn in *. lia. }
  rewrite from_big_endian_snoc, IH.
  - unfold byte_of, of_byte. rewrite N_ascii_embedding by (apply N.mod_lt; lia).
    pose proof (N.div_mod v 256 ltac:(lia)). lia.
  - apply N.Div0.div_lt_upper_bound. rewrite Nat2N.inj_succ, N.pow_succ_r' in Hv. lia.
Qed.
