(* ===== verification/GoText.v ===== *)
(** * Text checks, times and error chains of the Go standard library

    What the agent-facing packages use of [strings], [regexp], [time] and
    [errors] beyond GoLib.v: [strings.TrimSpace] on UTF-8 bytes, anchored
    byte-class patterns, [time.Time] as nanoseconds since the Unix epoch, and
    the error trees that [errors.Is] and [errors.As] walk. *)

From S2P Require Import Prelude GoLib.
#[local] Open Scope N_scope.

(** ** Byte classes *)

(** Every byte of [s] satisfies [p]. *)
Fixpoint all_bytes (p : N -> bool) (s : string) : bool :=
  match s with
  | EmptyString => true
  | String c s => p (byte_of c) && all_bytes p s
  end.

(** [strings.IndexByte(s, b) >= 0] *)
Definition ContainsByte (s : string) (b : N) : bool := negb (all_bytes (fun c => negb (c =? b)) s).

Definition is_digit (b : N) : bool := (48 <=? b) && (b <=? 57).
Definition is_upper (b : N) : bool := (65 <=? b) && (b <=? 90).
Definition is_lower (b : N) : bool := (97 <=? b) && (b <=? 122).
Definition is_alnum (b : N) : bool := is_digit b || is_upper b || is_lower b.
Definition is_lower_hex (b : N) : bool := is_digit b || ((97 <=? b) && (b <=? 102)).

(** [^<prefix>[0-9a-f]{64}$] *)
Definition hex64_pattern (prefix s : string) : bool :=
  HasPrefix s prefix && (slen s =? slen prefix + 64)
  && all_bytes is_lower_hex (skip (String.length prefix) s).

(** ** [strings.TrimSpace] *)

Definition bytes (l : list N) : string :=
  foldr (fun n s => String (of_byte n) s) EmptyString l.

(** The UTF-8 encodings of the runes for which [unicode.IsSpace] holds. *)
Definition space_encodings : list string :=
  [bytes [9]; bytes [10]; bytes [11]; bytes [12]; bytes [13]; bytes [32];
   bytes [194; 133]; bytes [194; 160]; bytes [225; 154; 128];
   bytes [226; 128; 128]; bytes [226; 128; 129]; bytes [226; 128; 130]; bytes [226; 128; 131];
   bytes [226; 128; 132]; bytes [226; 128; 133]; bytes [226; 128; 134]; bytes [226; 128; 135];
   bytes [226; 128; 136]; bytes [226; 128; 137]; bytes [226; 128; 138]; bytes [226; 128; 168];
   bytes [226; 128; 169]; bytes [226; 128; 175]; bytes [226; 129; 159]; bytes [227; 128; 128]].

Fixpoint str_rev_app (s acc : string) : string :=
  match s with
  | EmptyString => acc
  | String c s => str_rev_app s (String c acc)
  end.
Definition str_rev (s : string) : string := str_rev_app s EmptyString.

(** Drop leading runs of the given encodings; each round shortens the string,
    so its length is fuel enough. *)
Fixpoint trim_left (encodings : list string) (fuel : nat) (s : string) : string :=
  match fuel with
  | O => s
  | S fuel =>
      match List.find (HasPrefix s) encodings with
      | Some p => trim_left encodings fuel (skip (String.length p) s)
      | None => s
      end
  end.

(** A rune is trimmed on the right exactly when the string ends in its
    encoding: no encoding of a space is a proper suffix of another rune's. *)
Definition TrimSpace (s : string) : string :=
  let l := trim_left space_encodings (String.length s) s in
  str_rev (trim_left (str_rev <$> space_encodings) (String.length l) (str_rev l)).

(** ** [time.Time]: nanoseconds since the Unix epoch *)
Definition Unix (t : Z) : Z := (t / 1000000000)%Z.
Definition UnixMilli (t : Z) : Z := (t / 1000000)%Z.
Definition time_Add (t d : Z) : Z := (t + d)%Z.

(** [uint64(t.Unix())] *)
Definition unix_u64 (t : Z) : N := Z.to_N (Unix t mod 18446744073709551616)%Z.

(** [Time.IsZero]: January 1, year 1. *)
Definition IsZero (t : Z) : bool := (t =? -62135596800000000000)%Z.

Definition Second : Z := 1000000000.
Definition Minute : Z := 60000000000.
Definition Hour : Z := 3600000000000.

(** ** Guards on signed integers *)
Ltac zprop_step :=
  match goal with
  | H : (_ <? _)%Z = true |- _ => apply Z.ltb_lt in H
  | H : (_ <? _)%Z = false |- _ => apply Z.ltb_ge in H
  | H : (_ <=? _)%Z = true |- _ => apply Z.leb_le in H
  | H : (_ <=? _)%Z = false |- _ => apply Z.leb_gt in H
  | H : (_ =? _)%Z = true |- _ => apply Z.eqb_eq in H
  | H : (_ =? _)%Z = false |- _ => apply Z.eqb_neq in H
  end.
Ltac zprop := repeat (bprop_step || zprop_step).

(** ** Lemmas *)

Lemma all_bytes_impl (p q : N -> bool) s :
  (forall b, p b = true -> q b = true) -> all_bytes p s = true -> all_bytes q s = true.
Proof.
  intros Hpq. induction s as [|c s IH]; simpl; [done|].
  rewrite !andb_true_iff. naive_solver.
Qed.

Lemma all_bytes_app p a b : all_bytes p (a +:+ b) = all_bytes p a && all_bytes p b.
Proof.
  induction a as [|c a IH]; [done|]. rewrite append_cons. simpl. rewrite IH. by rewrite andb_assoc.
Qed.

Lemma skip_app p s : skip (String.length p) (p +:+ s) = s.
Proof. induction p as [|c p IH]; [by destruct s|]. apply IH. Qed.

(** The lower-case hex of 32 bytes matches [{64}] lower-case hex digits. *)
Lemma all_bytes_hex d : all_bytes is_lower_hex (hex_EncodeToString d) = true.
Proof.
  assert (forall n, n < 16 -> is_lower_hex (byte_of (hex_digit n)) = true) as Hd.
  { intros n Hn. by apply (below_forall 16 (fun n => is_lower_hex (byte_of (hex_digit n))) eq_refl). }
  induction d as [|c d IH]; simpl; [done|]. by rewrite !Hd, IH by auto with openfox.
Qed.

Lemma hex64_pattern_encode prefix d :
  slen d = 32 -> hex64_pattern prefix (prefix +:+ hex_EncodeToString d) = true.
Proof.
  intros Hd. unfold hex64_pattern. rewrite HasPrefix_app, skip_app, all_bytes_hex, slen_app.
  unfold slen in *. rewrite length_hex. rewrite !andb_true_r. simpl.
  apply N.eqb_eq. lia.
Qed.

(** A pattern's match is made of the prefix's bytes and hex digits. *)
Lemma hex64_pattern_bytes p prefix s :
  all_bytes p prefix = true -> (forall b, is_lower_hex b = true -> p b = true) ->
  hex64_pattern prefix s = true -> all_bytes p s = true.
Proof.
  intros Hp Hh H. unfold hex64_pattern in H. bprop.
  rewrite (HasPrefix_skip s prefix) by done. rewrite all_bytes_app, Hp. simpl.
  by eapply all_bytes_impl.
Qed.

(** ** Fields joined by a separator byte no field contains *)

Definition sep (b : N) : string := String (of_byte b) EmptyString.

Lemma sep_split b a a' r r' :
  b < 256 ->
  ContainsByte a b = false -> ContainsByte a' b = false ->
  a +:+ sep b +:+ r = a' +:+ sep b +:+ r' -> a = a' /\ r = r'.
Proof.
  intros Hb. unfold ContainsByte. rewrite !negb_false_iff. revert a'.
  induction a as [|c a IH]; intros [|c' a']; cbn [all_bytes]; intros Ha Ha' E.
  - split; [done|]. by injection E.
  - injection E as Ec _. bprop. rewrite <-Ec in *. exfalso.
    rewrite byte_of_of in * by done. by bprop.
  - injection E as Ec _. bprop. rewrite Ec in *. exfalso.
    rewrite byte_of_of in * by done. by bprop.
  - rewrite !append_cons in E. injection E as -> E. bprop.
    destruct (IH a') as [-> ->]; done.
Qed.

(** A byte class that leaves out [b] excludes it. *)
Lemma all_bytes_ContainsByte p s b :
  p b = false -> all_bytes p s = true -> ContainsByte s b = false.
Proof.
  intros Hb H. unfold ContainsByte. apply negb_false_iff. eapply all_bytes_impl; [|exact H].
  intros c Hc. apply negb_true_iff, N.eqb_neq. intros ->. congruence.
Qed.

(** ** Trimming *)

Lemma trim_left_fixed encodings fuel s :
  forallb (fun p => negb (HasPrefix s p)) encodings = true -> trim_left encodings fuel s = s.
Proof.
  intros H. destruct fuel as [|fuel]; [done|]. simpl.
  destruct (List.find (HasPrefix s) encodings) as [p|] eqn:E; [|done].
  apply List.find_some in E as [Hin Hp]. rewrite forallb_forall in H.
  specialize (H p Hin). by rewrite Hp in H.
Qed.

Lemma length_skip n s : String.length (skip n s) = (String.length s - n)%nat.
Proof. revert s. induction n as [|n IH]; intros [|c s]; simpl; auto. Qed.

Lemma HasPrefix_length s p : HasPrefix s p = true -> (String.length p <= String.length s)%nat.
Proof.
  unfold HasPrefix. revert s. induction p as [|c p IH]; intros [|c' s]; simpl; try done; try lia.
  destruct (ascii_dec c c'); [|done]. intros H. specialize (IH s H). lia.
Qed.

Lemma trim_left_length encodings fuel s :
  (String.length (trim_left encodings fuel s) <= String.length s)%nat.
Proof.
  revert s. induction fuel as [|fuel IH]; intros s; simpl; [done|].
  destruct (List.find _ _) as [p|]; [|done].
  etrans; [apply IH|]. rewrite length_skip. lia.
Qed.

(** Nothing is trimmed on the left exactly when no encoding leads. *)
Lemma trim_left_id encodings s :
  Forall (fun p => p <> ""%string) encodings ->
  trim_left encodings (String.length s) s = s <->
  forallb (fun p => negb (HasPrefix s p)) encodings = true.
Proof.
  intros Hne. split; [|apply trim_left_fixed]. intros H.
  apply forallb_forall. intros p Hin. apply negb_true_iff, not_true_iff_false. intros Hp.
  assert (Hp0 : p <> ""%string) by (rewrite Forall_forall in Hne; apply Hne; by apply list_elem_of_In).
  destruct s as [|c s]; [by destruct p|]. cbn [String.length trim_left] in H.
  destruct (List.find (HasPrefix (String c s)) encodings) as [q|] eqn:E.
  - apply List.find_some in E as [Hq _].
    assert (Hq0 : q <> ""%string) by (rewrite Forall_forall in Hne; apply Hne; by apply list_elem_of_In).
    pose proof (trim_left_length encodings (String.length s) (skip (String.length q) (String c s))) as Hl.
    rewrite H, length_skip in Hl. destruct q; [done|]. simpl in Hl. lia.
  - eapply List.find_none in E; [|exact Hin]. congruence.
Qed.

Lemma str_rev_app_spec s acc : str_rev_app s acc = str_rev s +:+ acc.
Proof.
  unfold str_rev. revert acc. induction s as [|c s IH]; intros acc; [done|].
  cbn [str_rev_app]. rewrite IH, (IH (String c "")). rewrite append_assoc. done.
Qed.

Lemma str_rev_cons c s : str_rev (String c s) = str_rev s +:+ String c "".
Proof. unfold str_rev at 1. cbn [str_rev_app]. by rewrite str_rev_app_spec. Qed.

Lemma append_empty_r s : s +:+ "" = s.
Proof. induction s as [|c s IH]; [done|]. by rewrite append_cons, IH. Qed.

Lemma str_rev_append a b : str_rev (a +:+ b) = str_rev b +:+ str_rev a.
Proof.
  induction a as [|c a IH]; [by rewrite append_nil, append_empty_r|].
  rewrite append_cons, !str_rev_cons, IH. by rewrite append_assoc.
Qed.

Lemma str_rev_involutive s : str_rev (str_rev s) = s.
Proof. induction s as [|c s IH]; [done|]. rewrite str_rev_cons, str_rev_append, IH. done. Qed.

Lemma length_str_rev s : String.length (str_rev s) = String.length s.
Proof.
  induction s as [|c s IH]; [done|]. rewrite str_rev_cons.
  pose proof (slen_app (str_rev s) (String c "")) as H. unfold slen in H. simpl in *. lia.
Qed.

(** A string is its own trimming exactly when it neither begins nor ends with
    the encoding of a space. *)
Definition trimmed (s : string) : bool :=
  forallb (fun p => negb (HasPrefix s p)) space_encodings
  && forallb (fun p => negb (HasPrefix (str_rev s) p)) (str_rev <$> space_encodings).

Lemma space_encodings_nonempty : Forall (fun p => p <> ""%string) space_encodings.
Proof. unfold space_encodings. repeat constructor; done. Qed.

Lemma rev_space_encodings_nonempty : Forall (fun p => p <> ""%string) (str_rev <$> space_encodings).
Proof. unfold space_encodings. cbn. repeat constructor; done. Qed.

Lemma TrimSpace_id s : TrimSpace s = s <-> trimmed s = true.
Proof.
  unfold TrimSpace, trimmed. rewrite andb_true_iff.
  rewrite <-(trim_left_id _ s space_encodings_nonempty).
  rewrite <-(trim_left_id _ (str_rev s) rev_space_encodings_nonempty).
  set (l := trim_left space_encodings (String.length s) s).
  rewrite length_str_rev. split.
  - intros H.
    assert (l = s) as Hl; [|rewrite Hl in *; split; [done|]].
    + pose proof (trim_left_length space_encodings (String.length s) s) as H1. fold l in H1.
      pose proof (trim_left_length (str_rev <$> space_encodings) (String.length l) (str_rev l)) as H2.
      rewrite <-(length_str_rev (trim_left _ _ _)), H, length_str_rev in H2.
      assert (String.length l = String.length s) as Hlen by lia.
      subst l. clear -Hlen. revert Hlen. generalize (String.length s) at 1 3 as fuel.
      intros [|fuel] Hlen; [done|]. cbn [trim_left] in *.
      destruct (List.find _ _) as [p|] eqn:E; [|done].
      apply List.find_some in E as [Hin Hp].
      pose proof (trim_left_length space_encodings fuel (skip (String.length p) s)) as Hl.
      rewrite length_skip in Hl. apply HasPrefix_length in Hp.
      assert (p <> ""%string) as Hp0.
      { pose proof space_encodings_nonempty as Hf. rewrite Forall_forall in Hf.
        apply Hf. by apply list_elem_of_In. }
      destruct p; [done|]. simpl in *. lia.
    + apply (f_equal str_rev) in H. by rewrite str_rev_involutive in H.
  - intros [-> H]. rewrite H. apply str_rev_involutive.
Qed.

(** Text whose bytes all lie in a class that begins no space is trimmed. *)
Definition starts_outside (q : N -> bool) (p : string) : bool :=
  match p with EmptyString => false | String c _ => negb (q (byte_of c)) end.

Lemma no_prefix_outside q encodings s :
  forallb (starts_outside q) encodings = true -> all_bytes q s = true ->
  forallb (fun p => negb (HasPrefix s p)) encodings = true.
Proof.
  rewrite !forallb_forall. intros He Hs p Hp. specialize (He p Hp).
  destruct p as [|c p]; [done|]. cbn in He. apply negb_true_iff in He. apply negb_true_iff.
  destruct s as [|c' s]; [done|]. cbn in Hs. bprop. unfold HasPrefix. cbn. destruct (ascii_dec c c') as [->|]; congruence.
Qed.

Lemma all_bytes_str_rev q s : all_bytes q (str_rev s) = all_bytes q s.
Proof.
  induction s as [|c s IH]; [done|]. rewrite str_rev_cons, all_bytes_app, IH. cbn. rewrite andb_true_r. apply andb_comm.
Qed.

Lemma TrimSpace_bytes q s :
  forallb (starts_outside q) space_encodings = true ->
  forallb (starts_outside q) (str_rev <$> space_encodings) = true -> all_bytes q s = true -> TrimSpace s = s.
Proof.
  intros H1 H2 Hs. apply TrimSpace_id. unfold trimmed.
  rewrite (no_prefix_outside q), (no_prefix_outside q) by (done || by rewrite all_bytes_str_rev). done.
Qed.
