(* ===== verification/FileStore.v ===== *)
(** * The durable file under every ledger

    [WriteFileAtomic] (src/pkg/fileutil/file.go) replaces one file through a
    temporary file and a rename. Each system call it makes may fail; which of
    them do is an argument of the model, so theorems hold for every failure
    pattern. A file holds a decoded document: the JSON encoding is
    [encoding/json]'s, and what the ledgers use of it is the length of the
    encoding ([io_marshal]) and that a document written is the document read. *)

From S2P Require Import Prelude.

(** The system calls, in the order of the source. *)
Inductive write_step :=
| MkdirAll | CreateTemp | WriteTemp | SyncTemp | ChmodTemp | CloseTemp
| RenameTemp | OpenDir | SyncDir | CloseDir | RemoveTemp.

#[global] Instance write_step_eq_dec : EqDecision write_step.
Proof. solve_decision. Defined.

(** What a path holds: nothing, something that cannot be read within its
    bound, something that is not the expected JSON value, or a document. *)
Inductive file_state (D : Type) :=
| FileAbsent
| FileUnreadable
| FileUndecodable
| FileDoc (d : D).
Arguments FileAbsent {D}.
Arguments FileUnreadable {D}.
Arguments FileUndecodable {D}.
Arguments FileDoc {D} d.

(** The outcome: what the target path holds, whether the temporary file is
    still there, and the returned error. *)
Record write_outcome (D : Type) := {
  wo_file : file_state D;
  wo_temp_left : bool;
  wo_result : result unit
}.
Arguments wo_file {D} _.
Arguments wo_temp_left {D} _.
Arguments wo_result {D} _.

(** The deferred clean-up of the temporary file after a failure. *)
Definition failed {D} (fails : write_step -> bool) (temp_exists : bool)
    (file : file_state D) (msg : string) : write_outcome D :=
  {| wo_file := file; wo_temp_left := temp_exists && fails RemoveTemp; wo_result := Err msg |}.

Definition WriteFileAtomic {D} (fails : write_step -> bool) (data : D)
    (file : file_state D) : write_outcome D :=
  if fails MkdirAll then
    {| wo_file := file; wo_temp_left := false; wo_result := Err "failed to create directory" |}
  else if fails CreateTemp then
    {| wo_file := file; wo_temp_left := false; wo_result := Err "failed to create temp file" |}
  else if fails WriteTemp then failed fails true file "failed to write temp file"
  else if fails SyncTemp then failed fails true file "failed to sync temp file"
  else if fails ChmodTemp then failed fails true file "failed to set permissions"
  else if fails CloseTemp then failed fails true file "failed to close temp file"
  else if fails RenameTemp then failed fails true file "failed to rename temp file"
  else if fails OpenDir then failed fails false (FileDoc data) "failed to open directory for sync"
  else if fails SyncDir then failed fails false (FileDoc data) "failed to sync directory"
  else if fails CloseDir then failed fails false (FileDoc data) "failed to close synced directory"
  else {| wo_file := FileDoc data; wo_temp_left := false; wo_result := Ok tt |}.

(** What the environment decides about one write: the length of the JSON
    encoding ([None] when [json.Marshal] fails) and the failing calls. *)
Record io (D : Type) := {
  io_marshal : D -> option N;
  io_fails : write_step -> bool
}.
Arguments io_marshal {D} _ _.
Arguments io_fails {D} _ _.

(** [json.Marshal], the size bound, then [WriteFileAtomic]: the common body of
    every ledger's [persist]. *)
Definition persist_bounded {D} (e : io D) (bound : N) (msg : string) (next : D)
    (file : file_state D) : file_state D * result unit :=
  match io_marshal e next with
  | None => (file, Err msg)
  | Some size =>
      if bound <? size then (file, Err msg)
      else
        let out := WriteFileAtomic (io_fails e) next file in
        (wo_file out, wo_result out)
  end.

(** ** The owner-private directory and its lock *)

(** What the operating system answers about a state directory. *)
Record dir_env := {
  de_abs_clean : bool;        (* filepath.IsAbs && filepath.Clean(d) == d *)
  de_mkdir : result unit;     (* os.MkdirAll *)
  de_lstat : bool;            (* os.Lstat succeeded *)
  de_is_dir : bool;
  de_symlink : bool;
  de_perm : N;
  de_lock : result unit       (* acquireBookLock *)
}.

Definition openPrivateLockedDirectory (d : dir_env) : result unit :=
  if negb (de_abs_clean d) then Err "prediction state directory path is invalid"
  else
    match de_mkdir d with
    | Err e => Err e
    | Ok _ =>
        if negb (de_lstat d) || negb (de_is_dir d) || de_symlink d || negb (de_perm d =? 448)
        then Err "prediction state directory must be owner-private"
        else de_lock d
    end.

(** A directory with mode 0o700 whose lock is free. *)
Definition dir_good : dir_env :=
  {| de_abs_clean := true; de_mkdir := Ok tt; de_lstat := true; de_is_dir := true;
     de_symlink := false; de_perm := 448; de_lock := Ok tt |}.

(** An environment in which every write succeeds. *)
Definition io_good {D} : io D :=
  {| io_marshal := fun _ => Some 0; io_fails := fun _ => false |}.

(** The target holds the old content or the complete new content, never
    anything else; success means the new content. *)
Lemma WriteFileAtomic_atomic {D} (fails : write_step -> bool) (data : D) file :
  let out := WriteFileAtomic fails data file in
  (wo_file out = file \/ wo_file out = FileDoc data) /\
  (wo_result out = Ok tt -> wo_file out = FileDoc data /\ wo_temp_left out = false).
Proof.
  unfold WriteFileAtomic, failed. repeat case_match; simpl; split; auto; try done.
Qed.

Lemma persist_bounded_cases {D} (e : io D) bound msg next file file' r :
  persist_bounded e bound msg next file = (file', r) ->
  (file' = file \/ file' = FileDoc next) /\ (r = Ok tt -> file' = FileDoc next).
Proof.
  unfold persist_bounded. destruct (io_marshal e next) as [size|].
  - destruct (bound <? size).
    + intros [= <- <-]. split; [auto|done].
    + intros [= <- <-]. destruct (WriteFileAtomic_atomic (io_fails e) next file) as [H1 H2].
      split; [done|]. intros H. by apply H2.
  - intros [= <- <-]. split; [auto|done].
Qed.

Lemma persist_bounded_good {D} bound msg (next : D) file :
  persist_bounded io_good bound msg next file = (FileDoc next, Ok tt).
Proof. unfold persist_bounded. simpl. destruct bound; reflexivity. Qed.
