(* ===== verification/Ledger.v ===== *)
(** * Durable ledgers

    The prediction ledgers share one shape (src/pkg/prediction): a document in
    memory, its copy on disk, and an exclusive lock. A mutation clones the
    document, changes the clone, persists it and only then publishes it in
    memory. This file models that shape once and states, as the class
    [Durable], what a component must promise about its documents; what every
    ledger then guarantees across failed writes, closings and restarts is
    proved here against the class. *)

From S2P Require Import Prelude FileStore.
#[local] Open Scope N_scope.

(** The ledger object: its file, whether it still holds the lock, and the
    document in memory. *)
Record ledger (D : Type) := {
  lg_file : file_state D;
  lg_lock : bool;
  lg_doc : D
}.
Arguments Build_ledger {D} _ _ _.
Arguments lg_file {D} _.
Arguments lg_lock {D} _.
Arguments lg_doc {D} _.

(** The common tail of a mutation: [persist(next)]; on success publish
    [next] in memory. *)
Definition commit {D} (persist : file_state D -> D -> file_state D * result unit)
    (l : ledger D) (next : D) : ledger D * result unit :=
  let '(file', r) := persist (lg_file l) next in
  match r with
  | Err m => ({| lg_file := file'; lg_lock := lg_lock l; lg_doc := lg_doc l |}, Err m)
  | Ok _ => ({| lg_file := file'; lg_lock := lg_lock l; lg_doc := next |}, Ok tt)
  end.

(** [Close]; the lock is dropped even when releasing it reports an error. *)
Definition Close {D} (release : result unit) (l : ledger D) : ledger D * result unit :=
  if negb (lg_lock l) then (l, Ok tt)
  else ({| lg_file := lg_file l; lg_lock := false; lg_doc := lg_doc l |}, release).

(** A ledger opened on a file that holds an accepted document. *)
Definition reopened {D} (d : D) : ledger D :=
  {| lg_file := FileDoc d; lg_lock := true; lg_doc := d |}.

(** What a component promises about its documents: an invariant, and a
    preorder saying that history only moves forward. *)
Class Durable (P D : Type) := {
  doc_ok : P -> D -> Prop;
  doc_le : D -> D -> Prop;
  doc_le_preorder :: PreOrder doc_le
}.

(** What a [persist] function may do: leave the file or replace it by the
    document it was given, and the latter when it succeeds. *)
Definition persist_sound {D} (persist : file_state D -> D -> file_state D * result unit) : Prop :=
  forall file next file' r, persist file next = (file', r) ->
  (file' = file \/ file' = FileDoc next) /\ (r = Ok tt -> file' = FileDoc next).

Section durable.
Context {P D : Type} `{Durable P D}.
Implicit Types (l : ledger D) (d : D).

(** Memory and file both hold acceptable documents, and the file is never
    behind memory. *)
Definition ledger_ok (p : P) l : Prop :=
  doc_ok p (lg_doc l) /\
  exists d, lg_file l = FileDoc d /\ doc_ok p d /\ doc_le (lg_doc l) d.

(** What may happen to a ledger in one step. *)
Inductive outcome (p : P) l : ledger D -> Prop :=
| outcome_same : outcome p l l
| outcome_commit persist next l' r :
    persist_sound persist -> doc_ok p next -> doc_le (lg_doc l) next ->
    commit persist l next = (l', r) -> outcome p l l'
| outcome_close release l' r : Close release l = (l', r) -> outcome p l l'
| outcome_restart d : lg_file l = FileDoc d -> outcome p l (reopened d).

Lemma commit_cases persist l next l' r :
  persist_sound persist -> commit persist l next = (l', r) ->
  lg_lock l' = lg_lock l /\
  ((r = Ok tt /\ lg_doc l' = next /\ lg_file l' = FileDoc next) \/
   (is_err r = true /\ lg_doc l' = lg_doc l /\
    (lg_file l' = lg_file l \/ lg_file l' = FileDoc next))).
Proof.
  intros Hp. unfold commit. destruct (persist (lg_file l) next) as [file' rp] eqn:E.
  apply Hp in E as [Hf Hok].
  destruct rp as [[]|m]; intros [= <- <-]; simpl; split; auto.
Qed.

Lemma reopened_ok p d : doc_ok p d -> ledger_ok p (reopened d).
Proof. intros Hd. split; [done|]. exists d. split_and!; [done|done|reflexivity]. Qed.

(** One step keeps the invariant and moves history forward. *)
Lemma outcome_ok p l l' :
  ledger_ok p l -> outcome p l l' -> ledger_ok p l' /\ doc_le (lg_doc l) (lg_doc l').
Proof.
  intros (Hd & d & Hf & Hfd & Hle) Ho.
  destruct Ho as [|persist next l' r Hp Hn Hnle Hc|release l' r Hc|d' Hd'].
  - split; [|reflexivity]. split; [done|]. by exists d.
  - destruct (commit_cases _ _ _ _ _ Hp Hc) as [_ [(_ & Hdoc & Hfile)|(_ & Hdoc & [Hfile|Hfile])]];
      unfold ledger_ok; rewrite Hdoc, Hfile; (split; [split; [done|]|done]); [exists next|exists d|exists next];
      split_and!; done || reflexivity.
  - unfold Close in Hc. case_match; simplify_eq/=.
    + split; [|reflexivity]. split; [done|]. by exists d.
    + split; [|reflexivity]. split; [done|]. by exists d.
  - rewrite Hd' in Hf. simplify_eq. split; [by apply reopened_ok|done].
Qed.

(** Every run of a step relation whose steps are outcomes. *)
Lemma outcomes_ok p (R : ledger D -> ledger D -> Prop) l l' :
  (forall l1 l2, ledger_ok p l1 -> R l1 l2 -> outcome p l1 l2) ->
  rtc R l l' -> ledger_ok p l -> ledger_ok p l' /\ doc_le (lg_doc l) (lg_doc l').
Proof.
  intros HR Hr. induction Hr as [l|l1 l2 l3 Hs Hr IH]; intros Hl; [split; [done|reflexivity]|].
  destruct (outcome_ok p l1 l2 Hl (HR _ _ Hl Hs)) as [Hl2 Hle2].
  destruct (IH Hl2) as [Hl3 Hle3]. split; [done|]. by trans (lg_doc l2).
Qed.

End durable.

Lemma commit_good {D} (persist : file_state D -> D -> file_state D * result unit) l next :
  persist (lg_file l) next = (FileDoc next, Ok tt) ->
  commit persist l next = ({| lg_file := FileDoc next; lg_lock := lg_lock l; lg_doc := next |}, Ok tt).
Proof. intros E. unfold commit. by rewrite E. Qed.

Lemma persist_bounded_sound {D} (e : io D) bound msg :
  persist_sound (fun file next => persist_bounded e bound msg next file).
Proof. intros file next file' r E. by eapply persist_bounded_cases. Qed.

#[export] Hint Resolve persist_bounded_sound : openfox.

(** History of a map of records: every key keeps its record, moved forward by
    [le]. *)
Definition map_le `{CK : Countable K} {V} (le : V -> V -> Prop) (m m' : gmap K V) : Prop :=
  forall k v, m !! k = Some v -> exists v', m' !! k = Some v' /\ le v v'.

#[global] Instance map_le_preorder `{CK : Countable K} {V} (le : V -> V -> Prop) `{!PreOrder le} :
  PreOrder (map_le (K := K) le).
Proof.
  split.
  - intros m k v Hv. exists v. split; [done|reflexivity].
  - intros m1 m2 m3 H1 H2 k v Hv. destruct (H1 k v Hv) as (v2 & Hv2 & Hle2).
    destruct (H2 k v2 Hv2) as (v3 & Hv3 & Hle3). exists v3. split; [done|]. by trans v2.
Qed.

Lemma map_le_insert `{CK : Countable K} {V} (le : V -> V -> Prop) `{!PreOrder le} (m : gmap K V) k v :
  (forall v0, m !! k = Some v0 -> le v0 v) -> map_le le m (<[k := v]> m).
Proof.
  intros Hk k' v' Hv'. destruct (decide (k = k')) as [<-|Hne].
  - exists v. rewrite lookup_insert_eq. auto.
  - exists v'. rewrite lookup_insert_ne by done. split; [done|reflexivity].
Qed.

(** ** Maps stored as lists

    The journals that keep a map in memory write its values as a sorted list;
    reading refuses an invalid or repeated record. *)
Section stored_map.
Context `{CK : Countable K} {V : Type} (valid : V -> bool) (key : V -> K) (bad dup : string).

Fixpoint load_list (m : gmap K V) (l : list V) : result (gmap K V) :=
  match l with
  | [] => Ok m
  | v :: rest =>
      if negb (valid v) then Err bad
      else
        match m !! key v with
        | Some _ => Err dup
        | None => load_list (<[key v := v]> m) rest
        end
  end.

(** Valid records under their own keys. *)
Definition map_wf (m : gmap K V) : Prop := map_Forall (fun k v => key v = k /\ valid v = true) m.

Lemma load_list_wf l : forall m m', map_wf m -> load_list m l = Ok m' -> map_wf m'.
Proof.
  induction l as [|v l IH]; intros m m' Hm; cbn [load_list]; [by intros [= <-]|].
  destruct (valid v) eqn:Hv; cbn [negb]; [|done].
  destruct (m !! key v) eqn:Hk; [done|]. apply IH. by apply map_Forall_insert_2.
Qed.

(** Valid records with distinct fresh keys are all taken. *)
Lemma load_list_fresh l : forall m,
  Forall (fun v => valid v = true) l -> NoDup (key <$> l) -> Forall (fun v => m !! key v = None) l ->
  load_list m l = Ok (list_to_map ((fun v => (key v, v)) <$> l) ∪ m).
Proof.
  induction l as [|v l IH]; intros m Hv Hn Hm; cbn [load_list]; rewrite ?fmap_cons in *.
  - f_equal. symmetry. apply (left_id_L ∅ (∪)).
  - apply Forall_cons in Hv as [Hr Hv]. apply NoDup_cons in Hn as [Hin Hn]. apply Forall_cons in Hm as [Hk Hm].
    rewrite Hr. cbn [negb]. rewrite Hk. rewrite IH; [|done|done|].
    + f_equal. rewrite list_to_map_cons, <-insert_union_r; [by rewrite <-insert_union_l|].
      apply not_elem_of_list_to_map_1. by rewrite <-list_fmap_compose.
    + apply Forall_forall. intros v' Hv'. rewrite lookup_insert_ne; [by eapply Forall_forall in Hm|].
      intros E. apply Hin. rewrite E. by apply list_elem_of_fmap_2.
Qed.

Lemma map_vals_keys m : map_wf m -> key <$> map_vals m = (map_to_list m).*1.
Proof.
  intros Hm. unfold map_vals. rewrite <-list_fmap_compose. apply list_fmap_ext. intros i [k v] Hi. cbn.
  apply list_elem_of_lookup_2, elem_of_map_to_list in Hi. by destruct (Hm k v Hi).
Qed.

(** What is written, in any order, is what is read. *)
Lemma load_list_vals m l : map_wf m -> l ≡ₚ map_vals m -> load_list ∅ l = Ok m.
Proof.
  intros Hm Hp. rewrite load_list_fresh.
  - rewrite (right_id_L ∅ (∪)). f_equal.
    assert (NoDup (key <$> map_vals m)) as Hnd
      by (rewrite map_vals_keys by done; apply NoDup_fst_map_to_list).
    rewrite (list_to_map_proper _ ((fun v => (key v, v)) <$> map_vals m));
      [|rewrite <-list_fmap_compose; cbn; rewrite Hp; done|by rewrite Hp].
    rewrite <-(list_to_map_to_list m) at 2. f_equal. unfold map_vals. rewrite <-list_fmap_compose.
    rewrite <-(list_fmap_id (map_to_list m)) at 2. apply list_fmap_ext. intros i [k v] Hi. cbn.
    apply list_elem_of_lookup_2, elem_of_map_to_list in Hi. by destruct (Hm k v Hi) as [-> _].
  - rewrite Hp. apply map_vals_Forall. by intros k v [_ Hv]%Hm.
  - rewrite Hp, map_vals_keys by done. apply NoDup_fst_map_to_list.
  - apply Forall_forall. intros. apply lookup_empty.
Qed.

End stored_map.
