(* ===== verification/Protocol.v ===== *)
(** * Interfaces of the code outside the repository

    The prediction package calls the TOS address library and the
    [predictionmarket] protocol package. Neither is part of the repository, so
    both are classes: the components are modelled and proved for every
    instance. *)

From S2P Require Import Prelude GoLib.
#[local] Open Scope N_scope.

(** What the source reads of a parsed [address.Address]. *)
Record raw_addr := {
  ra_std : bool;        (* Type() == address.StdAddress *)
  ra_bits : N;          (* BitsLen() *)
  ra_workchain : Z;     (* Workchain() *)
  ra_string : string    (* StringRaw() *)
}.

(** [address.ParseRawAddr]; [None] is an error or a nil address. *)
Class TosAddress := {
  ParseRawAddr : string -> option raw_addr
}.

Section addresses.
Context `{TosAddress}.

(** src/pkg/prediction/relay.go, [validRawAddress]. *)
Definition validRawAddress (value : string) : bool :=
  match ParseRawAddr value with
  | None => false
  | Some parsed =>
      ra_std parsed && (ra_bits parsed =? 256) && bool_decide (ra_string parsed = value)
  end.

End addresses.

(** ** The prediction-market protocol package

    [predictionmarket.PredictionOrderV1]: the fields the repository reads and
    writes. A [Hash32] is 32 bytes. *)
Definition Hash32 : Type := string.

Record PredictionOrderV1 := {
  o_GlobalID : Z;
  o_WorkchainID : Z;
  o_MarketAddress : string;
  o_MarketConfigHash : Hash32;
  o_OwnerAddress : string;
  o_KeyEpoch : N;
  o_Nonce : N;
  o_Salt : Hash32;
  o_Action : N;
  o_Outcome : N;
  o_LiquidityRole : N;
  o_QuantityLots : N;
  o_MinFillLots : N;
  o_AllowPartial : bool;
  o_LimitPriceTick : N;
  o_ValidAfter : N;
  o_ValidUntil : N
}.

#[global] Instance PredictionOrderV1_eq_dec : EqDecision PredictionOrderV1.
Proof. solve_decision. Defined.

(** The integer fields at their Go widths. *)
Definition order_typed (o : PredictionOrderV1) : Prop :=
  is_u64 (o_QuantityLots o) /\ is_u64 (o_ValidUntil o) /\ o_LimitPriceTick o <= 65535.

(** [predictionmarket.SignedPredictionOrderV1], as decoding returns it. *)
Record SignedPredictionOrderV1 := {
  so_Order : PredictionOrderV1;
  so_OrderDigest : Hash32;
  so_OrderCellHash : Hash32;
  so_PublicKey : string
}.

(** [predictionmarket.AccountBalance]. *)
Record AccountBalance := {
  ab_Free : N;
  ab_YesLots : N;
  ab_NoLots : N
}.

#[global] Instance AccountBalance_eq_dec : EqDecision AccountBalance.
Proof. solve_decision. Defined.

(** [predictionmarket.ReferenceModel]: the fields the repository assigns, and
    the rest of it. *)
Record ReferenceModel (private : Type) := {
  rm_private : private;
  rm_CompleteSets : N;
  rm_LockedCollateral : N;
  rm_Accounts : gmap string AccountBalance
}.
Arguments Build_ReferenceModel {private} _ _ _ _.
Arguments rm_private {private} _.
Arguments rm_CompleteSets {private} _.
Arguments rm_LockedCollateral {private} _.
Arguments rm_Accounts {private} _.

(** The constants and pure functions of the package. [cell] stands for
    [*cell.Cell]. *)
Class PredictionProtocol := {
  PriceScale : N;
  ActionBuy : N;
  ActionSell : N;
  OutcomeYes : N;
  OutcomeNo : N;
  CellHashString : Hash32 -> string;
  SHA256String : Hash32 -> string;
  cell : Type;
  BuildPredictionOrderCell : PredictionOrderV1 -> result cell;
  PredictionOrderDigest : cell -> result Hash32;
  CellHash : cell -> Hash32;
  BuildSignedPredictionOrderCell : cell -> string -> string -> result cell;
  ParseHash32 : string -> result Hash32;
  Hash32_IsZero : Hash32 -> bool;
  FromBOC : string -> option cell;
  ToBOC : cell -> string;
  DecodeAndVerifySignedPredictionOrder : cell -> result SignedPredictionOrderV1;
  ValidateOrderFill : PredictionOrderV1 -> N -> N -> N -> N -> N -> result unit;
  model_private : Type;
  MatchAmounts : Type;
  NewReferenceModel : N -> result (ReferenceModel model_private);
  CheckInvariants : ReferenceModel model_private -> result unit;
  Match : ReferenceModel model_private -> PredictionOrderV1 -> PredictionOrderV1 -> N ->
    result MatchAmounts
}.

(** What the components rely on: the enumerations are enumerations, and a
    price tick is a fraction of a positive 16-bit scale. *)
Class PredictionProtocolLaws `{PredictionProtocol} : Prop := {
  actions_distinct : ActionBuy <> ActionSell;
  outcomes_distinct : OutcomeYes <> OutcomeNo;
  PriceScale_range : 0 < PriceScale <= 65535
}.

(** What the book relies on when it stores a verified order: a digest is a
    32-byte array and prints canonically, and an order that verifies is for at
    least one lot. *)
Class SignedOrderLaws `{PredictionProtocol} : Prop := {
  CellHashString_canonical : forall h, slen h = 32 ->
    canonicalDigest (CellHashString h) "tvm-cell-sha256:" = true;
  verified_digest : forall c v, DecodeAndVerifySignedPredictionOrder c = Ok v ->
    slen (so_OrderDigest v) = 32;
  verified_quantity : forall c v, DecodeAndVerifySignedPredictionOrder c = Ok v ->
    0 < o_QuantityLots (so_Order v) /\ is_u64 (o_QuantityLots (so_Order v))
}.

(** The bag-of-cells codec inverts itself, and a signed order, whose layout is
    fixed, fits the book's bound. *)
Class CellCodecLaws `{PredictionProtocol} : Prop := {
  FromBOC_ToBOC : forall c, FromBOC (ToBOC c) = Some c;
  signed_cell_size : forall c key signature s,
    BuildSignedPredictionOrderCell c key signature = Ok s -> slen (ToBOC s) <= 8192
}.

(** Decoding a signed order gives back the order that was encoded and its
    digest. *)
Class SignedRoundTrip `{PredictionProtocol} : Prop := {
  signed_round_trip : forall o c key signature s v,
    BuildPredictionOrderCell o = Ok c -> BuildSignedPredictionOrderCell c key signature = Ok s ->
    DecodeAndVerifySignedPredictionOrder s = Ok v ->
    so_Order v = o /\ PredictionOrderDigest c = Ok (so_OrderDigest v)
}.

(** [crypto/sha256.Sum256] of a byte string. *)
Class Sha256 := { sha256_Sum256 : string -> Hash32 }.
