(* ===== verification/Fixtures.v ===== *)
(** * Concrete identities for the witnesses

    Sample digests and addresses in the formats the code accepts, and an
    instance of the address interface for them. *)

From S2P Require Import Prelude GoLib Protocol.
#[local] Open Scope N_scope.

Module Fixtures.

Fixpoint bytes (n : nat) (b : N) : string :=
  match n with
  | O => EmptyString
  | S n => String (of_byte b) (bytes n b)
  end.

(** 32 equal bytes, as the repository's own tests build their hashes. *)
Definition hash (b : N) : string := bytes 32 b.
Definition sha (b : N) : string := "sha256:" +:+ hex_EncodeToString (hash b).
Definition tvm (b : N) : string := "tvm-cell-sha256:" +:+ hex_EncodeToString (hash b).
Definition addr (b : N) : string := "-1:" +:+ hex_EncodeToString (hash b).

(** Masterchain addresses "-1:" followed by 64 lower-case hex digits. *)
#[global] Instance test_address : TosAddress := {|
  ParseRawAddr := fun s =>
    if canonicalDigest s "-1:"
    then Some {| ra_std := true; ra_bits := 256; ra_workchain := -1; ra_string := s |}
    else None
|}.

(** An order for ten YES lots at 40% in market 7, of owner 1. *)
Definition sample_order (salt action : N) : PredictionOrderV1 :=
  {| o_GlobalID := 1; o_WorkchainID := -1; o_MarketAddress := addr 7; o_MarketConfigHash := hash 8;
     o_OwnerAddress := addr 1; o_KeyEpoch := 1; o_Nonce := salt; o_Salt := hash salt;
     o_Action := action; o_Outcome := 1; o_LiquidityRole := 0; o_QuantityLots := 10;
     o_MinFillLots := 1; o_AllowPartial := true; o_LimitPriceTick := 4000; o_ValidAfter := 0;
     o_ValidUntil := 5000 |}.

(** The encoding of a signed sample order: its salt and action. *)
Definition sample_boc (salt action : N) : string :=
  String (of_byte salt) (String (of_byte action) EmptyString).

Definition sample_decode (boc : string) : result SignedPredictionOrderV1 :=
  match boc with
  | String salt (String action EmptyString) =>
      Ok {| so_Order := sample_order (byte_of salt) (byte_of action);
            so_OrderDigest := hash (byte_of salt); so_OrderCellHash := hash (byte_of action);
            so_PublicKey := hash 50 |}
  | _ => Err "not a sample order"
  end.

(** The sample orders are the only ones that encode. *)
Definition sample_build (o : PredictionOrderV1) : result string :=
  match sample_decode (sample_boc (o_Nonce o) (o_Action o)) with
  | Ok v => if decide (so_Order v = o) then Ok (sample_boc (o_Nonce o) (o_Action o)) else Err "order"
  | Err m => Err m
  end.

(** A protocol instance with the repository's test constants; a cell is
    its encoding. *)
#[global] Instance test_protocol : PredictionProtocol := {|
  PriceScale := 10000; ActionBuy := 1; ActionSell := 2; OutcomeYes := 1; OutcomeNo := 2;
  CellHashString := fun h => "tvm-cell-sha256:" +:+ hex_EncodeToString h;
  SHA256String := fun h => "sha256:" +:+ hex_EncodeToString h;
  cell := string;
  BuildPredictionOrderCell := sample_build;
  PredictionOrderDigest := fun c =>
    match sample_decode c with Ok v => Ok (so_OrderDigest v) | Err m => Err m end;
  CellHash := fun c => c;
  BuildSignedPredictionOrderCell := fun c _ _ => if decide (slen c <= 8192) then Ok c else Err "size";
  ParseHash32 := fun s =>
    match hex_DecodeString (TrimPrefix (TrimPrefix s "tvm-cell-sha256:") "sha256:") with Some h => Ok h | None => Err "hash" end;
  Hash32_IsZero := fun h => bool_decide (h = hash 0);
  FromBOC := fun s => Some s;
  ToBOC := fun c => c;
  DecodeAndVerifySignedPredictionOrder := sample_decode;
  ValidateOrderFill := fun o filled quantity _ _ _ =>
    check (filled + quantity <=? o_QuantityLots o) "fill";
  model_private := N;
  MatchAmounts := N;
  NewReferenceModel := fun lot => Ok {| rm_private := lot; rm_CompleteSets := 0;
                                        rm_LockedCollateral := 0; rm_Accounts := ∅ |};
  CheckInvariants := fun m => check (rm_LockedCollateral m =? rm_CompleteSets m * rm_private m) "backing";
  Match := fun m _ _ quantity => Ok (quantity * rm_private m)
|}.

#[global] Instance test_protocol_laws : PredictionProtocolLaws.
Proof. split; simpl; [done|done|lia]. Qed.

Lemma slen_bytes n b : slen (bytes n b) = N.of_nat n.
Proof. unfold slen. f_equal. induction n as [|n IH]; simpl; [done|by f_equal]. Qed.

#[global] Instance test_signed_laws : SignedOrderLaws.
Proof.
  split.
  - intros h Hh. apply canonicalDigest_spec; [reflexivity|]. exists h. done.
  - intros c v Hv. simpl in Hv. unfold sample_decode in Hv. repeat (case_match; try done).
    injection Hv as <-. apply slen_bytes.
  - intros c v Hv. simpl in Hv. unfold sample_decode in Hv. repeat (case_match; try done).
    injection Hv as <-. simpl. unfold is_u64, MaxUint64. lia.
Qed.

#[global] Instance test_codec_laws : CellCodecLaws.
Proof.
  split; [done|]. intros c key signature s Hs. simpl in *. case_decide; [|done]. by injection Hs as <-.
Qed.

#[global] Instance test_round_trip : SignedRoundTrip.
Proof.
  split. intros o c key signature sc v Hb Hs Hv. simpl in *. case_decide; [|done]. injection Hs as <-.
  unfold sample_build in Hb. destruct (sample_decode (sample_boc (o_Nonce o) (o_Action o))) as [w|] eqn:E; [|done].
  case_decide as Hw; [|done]. injection Hb as <-. rewrite Hv in E |- *. injection E as ->. done.
Qed.

#[global] Instance test_sha256 : Sha256 := {| sha256_Sum256 := fun s => hash (slen s mod 256) |}.

Lemma sha_canonical : canonicalDigest (sha 5) "sha256:" = true.
Proof. vm_compute. reflexivity. Qed.

End Fixtures.
