(* ===== verification/Exposure.v ===== *)
(** * The Oracle exposure ledger (src/pkg/prediction/exposure.go)

    A durable document that reserves, per Oracle epoch, the worst-case
    exposure of every admitted market. *)

From S2P Require Import Prelude GoLib FileStore Ledger Protocol Fixtures.
#[local] Open Scope N_scope.

Module Exposure.

(** ** Data *)
Record OracleExposureProfile := {
  pf_NetworkDomainHash : string;
  pf_EventFamilyHash : string;
  pf_OracleEpochHash : string;
  pf_ContractCodeHash : string;
  pf_MaximumExposure : N;
  pf_MaximumMarketsPerEpoch : N
}.

Record MarketExposureAdmission := {
  ad_MarketID : string;
  ad_MarketAddress : string;
  ad_MarketConfigHash : string;
  ad_ExposureCeiling : N
}.

Record MarketExposureObservation := {
  ob_MarketID : string;
  ob_MarketAddress : string;
  ob_MarketConfigHash : string;
  ob_ContractCodeHash : string;
  ob_LockedCollateral : N;
  ob_MasterchainSeqno : N;
  ob_FinalityViewID : string;
  ob_QuorumFinalized : bool;
  ob_TerminalCompacted : bool;
  ob_LiabilitiesCleared : bool
}.

Record exposureRecord := {
  er_admission : MarketExposureAdmission;
  er_LockedCollateral : N;
  er_MasterchainSeqno : N;
  er_FinalityViewID : string;
  er_Released : bool
}.

Record exposureDocument := {
  ed_SchemaVersion : N;
  ed_Revision : N;
  ed_Profile : OracleExposureProfile;
  ed_Markets : gmap string exposureRecord
}.

Definition OracleExposureLedger : Type := ledger exposureDocument.

#[global] Instance OracleExposureProfile_eq_dec : EqDecision OracleExposureProfile.
Proof. solve_decision. Defined.
#[global] Instance MarketExposureAdmission_eq_dec : EqDecision MarketExposureAdmission.
Proof. solve_decision. Defined.
#[global] Instance exposureRecord_eq_dec : EqDecision exposureRecord.
Proof. solve_decision. Defined.

Definition er_ceiling (r : exposureRecord) : N := ad_ExposureCeiling (er_admission r).

(** ** Validation *)
Section operations.
Context `{TosAddress}.

Definition validateExposureProfile (profile : OracleExposureProfile) : result unit :=
  if negb (canonicalDigest (pf_NetworkDomainHash profile) "sha256:")
     || negb (canonicalDigest (pf_EventFamilyHash profile) "sha256:")
     || negb (canonicalDigest (pf_OracleEpochHash profile) "sha256:")
     || negb (canonicalDigest (pf_ContractCodeHash profile) "tvm-cell-sha256:")
     || (pf_MaximumExposure profile =? 0) || (pf_MaximumMarketsPerEpoch profile =? 0)
     || (10000 <? pf_MaximumMarketsPerEpoch profile)
  then Err "invalid Oracle exposure profile"
  else Ok tt.

Definition validateExposureAdmission (admission : MarketExposureAdmission) : result unit :=
  let market := ParseRawAddr (ad_MarketAddress admission) in
  if negb (canonicalDigest (ad_MarketID admission) "sha256:")
     || negb (canonicalDigest (ad_MarketConfigHash admission) "tvm-cell-sha256:")
     || match market with
        | None => true
        | Some a => negb (ra_std a) || negb (bool_decide (ra_string a = ad_MarketAddress admission))
        end
     || (ad_ExposureCeiling admission =? 0)
  then Err "invalid market exposure admission"
  else Ok tt.

(** The loop over the markets; released ones no longer reserve anything. *)
Fixpoint aggregate_loop (total : N) (records : list exposureRecord) : N * bool :=
  match records with
  | [] => (total, true)
  | record :: rest =>
      if er_Released record then aggregate_loop total rest
      else if sub64w MaxUint64 (er_ceiling record) <? total then (0, false)
      else aggregate_loop (add64w total (er_ceiling record)) rest
  end.

Definition aggregateExposureCeilings (markets : gmap string exposureRecord) : N * bool :=
  aggregate_loop 0 (map_vals markets).

(** ** Persistence *)
Definition maximumExposureBytes : N := 8 * 1048576.

Definition persist (e : io exposureDocument) (file : file_state exposureDocument)
    (next : exposureDocument) : file_state exposureDocument * result unit :=
  persist_bounded e maximumExposureBytes
    "prediction oracle exposure state exceeds its durable bound" next file.

(** The condition under which [loadOrInitialize] rejects one market. *)
Definition invalid_market (key : string) (record : exposureRecord) : bool :=
  negb (bool_decide (key = ad_MarketID (er_admission record)))
  || is_err (validateExposureAdmission (er_admission record))
  || (er_ceiling record <? er_LockedCollateral record)
  || (er_Released record
      && (negb (er_LockedCollateral record =? 0) || (er_MasterchainSeqno record =? 0)))
  || xorb (er_MasterchainSeqno record =? 0) (bool_decide (er_FinalityViewID record = ""%string))
  || (negb (bool_decide (er_FinalityViewID record = ""%string))
      && negb (canonicalDigest (er_FinalityViewID record) "sha256:")).

(** [loadOrInitialize]: returns the file afterwards and the document the
    ledger starts from. *)
Definition loadOrInitialize (e : io exposureDocument) (file : file_state exposureDocument)
    (doc : exposureDocument) : file_state exposureDocument * result exposureDocument :=
  match file with
  | FileAbsent =>
      let '(file', r) := persist e file doc in
      (file', match r with Ok _ => Ok doc | Err m => Err m end)
  | FileUnreadable => (file, Err "prediction oracle exposure state is unavailable")
  | FileUndecodable => (file, Err "prediction oracle exposure state identity or shape is invalid")
  | FileDoc loaded =>
      if negb (ed_SchemaVersion loaded =? 1)
         || negb (bool_decide (ed_Profile loaded = ed_Profile doc))
         || (pf_MaximumMarketsPerEpoch (ed_Profile loaded) <? len32 (ed_Markets loaded))
      then (file, Err "prediction oracle exposure state identity or shape is invalid")
      else if map_any invalid_market (ed_Markets loaded)
      then (file, Err "prediction oracle exposure state contains an invalid market")
      else
        let '(reserved, ok) := aggregateExposureCeilings (ed_Markets loaded) in
        if negb ok || (pf_MaximumExposure (ed_Profile loaded) <? reserved)
        then (file, Err "prediction oracle exposure state exceeds its aggregate limit")
        else (file, Ok loaded)
  end.

Definition emptyDocument (profile : OracleExposureProfile) : exposureDocument :=
  {| ed_SchemaVersion := 1; ed_Revision := 0; ed_Profile := profile; ed_Markets := ∅ |}.

(** [OpenOracleExposureLedger]: the file afterwards and the ledger, if any. *)
Definition OpenOracleExposureLedger (e : io exposureDocument) (d : dir_env)
    (file : file_state exposureDocument) (profile : OracleExposureProfile)
    : file_state exposureDocument * result OracleExposureLedger :=
  if is_err (validateExposureProfile profile)
  then (file, Err "prediction oracle exposure profile is invalid")
  else
    match openPrivateLockedDirectory d with
    | Err m => (file, Err m)
    | Ok _ =>
        let '(file', r) := loadOrInitialize e file (emptyDocument profile) in
        (file',
         match r with
         | Err m => Err m
         | Ok doc => Ok {| lg_file := file'; lg_lock := true; lg_doc := doc |}
         end)
    end.

(** ** Operations *)

Definition with_market (doc : exposureDocument) (key : string) (record : exposureRecord)
    : exposureDocument :=
  {| ed_SchemaVersion := ed_SchemaVersion doc; ed_Revision := add64w (ed_Revision doc) 1;
     ed_Profile := ed_Profile doc; ed_Markets := <[key := record]> (ed_Markets doc) |}.

Definition AdmitMarket (e : io exposureDocument) (l : OracleExposureLedger)
    (admission : MarketExposureAdmission) : OracleExposureLedger * result unit :=
  if is_err (validateExposureAdmission admission)
  then (l, Err "prediction market exposure admission is invalid")
  else if negb (lg_lock l) then (l, Err "prediction oracle exposure ledger is closed")
  else
    let doc := lg_doc l in
    match ed_Markets doc !! ad_MarketID admission with
    | Some prior =>
        if negb (bool_decide (er_admission prior = admission))
        then (l, Err "prediction market exposure admission conflicts with durable identity")
        else if er_Released prior
        then (l, Err "released prediction market exposure cannot be reactivated")
        else (l, Ok tt)
    | None =>
        if pf_MaximumMarketsPerEpoch (ed_Profile doc) <=? len32 (ed_Markets doc)
        then (l, Err "prediction oracle epoch market capacity reached")
        else
          let '(reserved, ok) := aggregateExposureCeilings (ed_Markets doc) in
          if negb ok || (pf_MaximumExposure (ed_Profile doc) <? reserved)
             || (sub64w (pf_MaximumExposure (ed_Profile doc)) reserved <? ad_ExposureCeiling admission)
          then (l, Err "prediction oracle aggregate exposure limit exceeded")
          else
            commit (persist e) l (with_market doc (ad_MarketID admission)
              {| er_admission := admission; er_LockedCollateral := 0; er_MasterchainSeqno := 0;
                 er_FinalityViewID := ""; er_Released := false |})
    end.

Definition ObserveMarket (e : io exposureDocument) (l : OracleExposureLedger)
    (observation : MarketExposureObservation) : OracleExposureLedger * result unit :=
  if negb (ob_QuorumFinalized observation) || (ob_MasterchainSeqno observation =? 0)
     || negb (canonicalDigest (ob_FinalityViewID observation) "sha256:")
  then (l, Err "prediction market exposure observation is not finalized")
  else if negb (lg_lock l) then (l, Err "prediction oracle exposure ledger is closed")
  else
    let doc := lg_doc l in
    match ed_Markets doc !! ob_MarketID observation with
    | None => (l, Err "prediction market exposure observation conflicts with admission")
    | Some record =>
        if negb (bool_decide (ob_MarketAddress observation = ad_MarketAddress (er_admission record)))
           || negb (bool_decide (ob_MarketConfigHash observation = ad_MarketConfigHash (er_admission record)))
           || negb (bool_decide (ob_ContractCodeHash observation = pf_ContractCodeHash (ed_Profile doc)))
           || (er_ceiling record <? ob_LockedCollateral observation)
        then (l, Err "prediction market exposure observation conflicts with admission")
        else if er_Released record then
          if ob_TerminalCompacted observation && ob_LiabilitiesCleared observation
             && (ob_LockedCollateral observation =? 0)
             && (ob_MasterchainSeqno observation =? er_MasterchainSeqno record)
             && bool_decide (ob_FinalityViewID observation = er_FinalityViewID record)
          then (l, Ok tt)
          else (l, Err "released prediction market exposure received non-idempotent evidence")
        else if ob_MasterchainSeqno observation <? er_MasterchainSeqno record
        then (l, Err "prediction market exposure observation rolled back finalized state")
        else if ob_MasterchainSeqno observation =? er_MasterchainSeqno record then
          if negb (bool_decide (ob_FinalityViewID observation = er_FinalityViewID record))
             || negb (ob_LockedCollateral observation =? er_LockedCollateral record)
             || ob_TerminalCompacted observation
          then (l, Err "prediction market exposure observation conflicts at one checkpoint")
          else (l, Ok tt)
        else if ob_TerminalCompacted observation
                && (negb (ob_LiabilitiesCleared observation) || negb (ob_LockedCollateral observation =? 0))
        then (l, Err "prediction market attempted to release exposure with live liabilities")
        else
          commit (persist e) l (with_market doc (ob_MarketID observation)
            (if ob_TerminalCompacted observation then
               {| er_admission := er_admission record; er_LockedCollateral := 0;
                  er_MasterchainSeqno := ob_MasterchainSeqno observation;
                  er_FinalityViewID := ob_FinalityViewID observation; er_Released := true |}
             else
               {| er_admission := er_admission record;
                  er_LockedCollateral := ob_LockedCollateral observation;
                  er_MasterchainSeqno := ob_MasterchainSeqno observation;
                  er_FinalityViewID := ob_FinalityViewID observation;
                  er_Released := er_Released record |}))
    end.

Definition ActiveMarkets (l : OracleExposureLedger) : list MarketExposureAdmission :=
  sort_by ad_MarketID
    (er_admission <$> filter (fun r => er_Released r = false) (map_vals (ed_Markets (lg_doc l)))).

(** ** Specification *)

(** The exposure one record reserves. *)
Definition reserve (r : exposureRecord) : N := if er_Released r then 0 else er_ceiling r.

(** The exposure reserved by a whole epoch, as an exact integer. *)
Definition active_exposure (markets : gmap string exposureRecord) : N := map_sum reserve markets.

(** What every document of a ledger with this profile satisfies. *)
Record exposure_ok (profile : OracleExposureProfile) (d : exposureDocument) : Prop := {
  ok_schema : ed_SchemaVersion d = 1;
  ok_profile : ed_Profile d = profile;
  ok_count : N.of_nat (size (ed_Markets d)) <= pf_MaximumMarketsPerEpoch profile;
  ok_markets : map_Forall (fun k r => invalid_market k r = false) (ed_Markets d);
  ok_typed : map_Forall (fun _ r => is_u64 (er_ceiling r)) (ed_Markets d);
  ok_exposure : active_exposure (ed_Markets d) <= pf_MaximumExposure profile
}.

(** One market's history moves forward: same admission, no earlier finality
    checkpoint, and a released market is frozen. *)
Definition record_le (r r' : exposureRecord) : Prop :=
  er_admission r' = er_admission r /\
  er_MasterchainSeqno r <= er_MasterchainSeqno r' /\
  (er_Released r = true -> r' = r).

#[global] Instance record_le_preorder : PreOrder record_le.
Proof.
  split.
  - intros r. split_and!; [done|lia|done].
  - intros r1 r2 r3 (Ha1 & Hs1 & Hr1) (Ha2 & Hs2 & Hr2). split_and!; [congruence|lia|].
    intros Hr. specialize (Hr1 Hr). subst r2. auto.
Qed.

Definition exposure_le (d d' : exposureDocument) : Prop :=
  map_le record_le (ed_Markets d) (ed_Markets d').

#[global] Instance exposure_le_preorder : PreOrder exposure_le.
Proof. split; [intros d|intros d1 d2 d3]; unfold exposure_le; [done|apply transitivity]. Qed.

#[global] Instance exposure_durable : Durable OracleExposureProfile exposureDocument :=
  {| doc_ok := exposure_ok; doc_le := exposure_le |}.

(** The documents an operation may install. *)
Inductive doc_next (d : exposureDocument) : exposureDocument -> Prop :=
| next_admit a :
    validateExposureAdmission a = Ok tt -> is_u64 (ad_ExposureCeiling a) ->
    ed_Markets d !! ad_MarketID a = None ->
    len32 (ed_Markets d) < pf_MaximumMarketsPerEpoch (ed_Profile d) ->
    (let '(reserved, ok) := aggregateExposureCeilings (ed_Markets d) in
     ok = true /\ reserved <= pf_MaximumExposure (ed_Profile d) /\
     ad_ExposureCeiling a <= sub64w (pf_MaximumExposure (ed_Profile d)) reserved) ->
    doc_next d (with_market d (ad_MarketID a)
      {| er_admission := a; er_LockedCollateral := 0; er_MasterchainSeqno := 0;
         er_FinalityViewID := ""; er_Released := false |})
| next_observe k r locked seqno view :
    ed_Markets d !! k = Some r -> er_Released r = false ->
    er_MasterchainSeqno r < seqno -> locked <= er_ceiling r ->
    canonicalDigest view "sha256:" = true ->
    doc_next d (with_market d k
      {| er_admission := er_admission r; er_LockedCollateral := locked;
         er_MasterchainSeqno := seqno; er_FinalityViewID := view; er_Released := false |})
| next_release k r seqno view :
    ed_Markets d !! k = Some r -> er_Released r = false ->
    er_MasterchainSeqno r < seqno -> canonicalDigest view "sha256:" = true ->
    doc_next d (with_market d k
      {| er_admission := er_admission r; er_LockedCollateral := 0;
         er_MasterchainSeqno := seqno; er_FinalityViewID := view; er_Released := true |}).

(** Everything that can happen to a ledger: operations under any write
    failures, closing, and a restart from whatever the file holds. *)
Inductive step (profile : OracleExposureProfile) (l l' : OracleExposureLedger) : Prop :=
| step_admit e a r :
    is_u64 (ad_ExposureCeiling a) -> AdmitMarket e l a = (l', r) -> step profile l l'
| step_observe e o r : ObserveMarket e l o = (l', r) -> step profile l l'
| step_close release r : Close release l = (l', r) -> step profile l l'
| step_restart e d file' :
    OpenOracleExposureLedger e d (lg_file l) profile = (file', Ok l') -> step profile l l'.

(** The abstract promise: a bounded pool of reservations, each released at
    most once. *)

Definition pool_reserve (x : N * bool) : N := if x.2 then 0 else x.1.

Inductive pool_step (capacity slots : N) (p : gmap string (N * bool))
    : gmap string (N * bool) -> Prop :=
| pool_stutter : pool_step capacity slots p p
| pool_admit k c :
    p !! k = None -> N.of_nat (size p) < slots ->
    map_sum pool_reserve p + c <= capacity ->
    pool_step capacity slots p (<[k := (c, false)]> p)
| pool_release k c :
    p !! k = Some (c, false) -> pool_step capacity slots p (<[k := (c, true)]> p).

Definition pool_of (d : exposureDocument) : gmap string (N * bool) :=
  (fun r => (er_ceiling r, er_Released r)) <$> ed_Markets d.

(** ** Lemmas *)

Lemma aggregate_loop_spec total records :
  is_u64 total -> Forall (fun r => is_u64 (er_ceiling r)) records ->
  aggregate_loop total records =
    if total + sumN (reserve <$> records) <=? MaxUint64
    then (total + sumN (reserve <$> records), true) else (0, false).
Proof.
  intros Ht Hr. revert total Ht. induction Hr as [|r records Hr Hrs IH]; intros total Ht; cbn [aggregate_loop].
  - change (sumN (reserve <$> [])) with 0. rewrite N.add_0_r. unfold is_u64 in Ht.
    destruct (N.leb_spec total MaxUint64); [done|lia].
  - rewrite fmap_cons. change (sumN (reserve r :: (reserve <$> records))) with (reserve r + sumN (reserve <$> records)).
    destruct (er_Released r) eqn:E.
    + replace (reserve r) with 0 by (unfold reserve; by rewrite E).
      rewrite N.add_0_l. by apply IH.
    + replace (reserve r) with (er_ceiling r) by (unfold reserve; by rewrite E).
      unfold is_u64 in *. rewrite sub64w_exact by lia.
      destruct (N.ltb_spec (MaxUint64 - er_ceiling r) total).
      * destruct (N.leb_spec (total + (er_ceiling r + sumN (reserve <$> records))) MaxUint64); [lia|done].
      * rewrite add64w_exact by lia. rewrite IH by lia. by rewrite N.add_assoc.
Qed.

Lemma aggregate_spec m :
  map_Forall (fun _ r => is_u64 (er_ceiling r)) m ->
  aggregateExposureCeilings m =
    if active_exposure m <=? MaxUint64 then (active_exposure m, true) else (0, false).
Proof.
  intros Hm. unfold aggregateExposureCeilings.
  rewrite aggregate_loop_spec; [by rewrite N.add_0_l|done|].
  by apply map_vals_Forall.
Qed.

(** Under the invariant the guard of [AdmitMarket] reads exactly. *)
Lemma aggregate_ok profile d :
  is_u64 (pf_MaximumExposure profile) -> exposure_ok profile d ->
  aggregateExposureCeilings (ed_Markets d) = (active_exposure (ed_Markets d), true).
Proof.
  intros Hmax Hd. rewrite aggregate_spec by apply Hd.
  pose proof (ok_exposure _ _ Hd). unfold is_u64 in *.
  destruct (N.leb_spec (active_exposure (ed_Markets d)) MaxUint64); [done|lia].
Qed.

Lemma persist_ok e : persist_sound (persist e).
Proof. apply persist_bounded_sound. Qed.

Lemma persist_good file next : persist io_good file next = (FileDoc next, Ok tt).
Proof. apply persist_bounded_good. Qed.

(** Every operation either leaves the ledger alone or commits one of the
    documents of [doc_next]. *)
Lemma AdmitMarket_cases e l a l' r :
  is_u64 (ad_ExposureCeiling a) -> AdmitMarket e l a = (l', r) ->
  l' = l \/ exists next, doc_next (lg_doc l) next /\ commit (persist e) l next = (l', r).
Proof.
  intros Ha Hop. unfold AdmitMarket in Hop.
  head_case Hop eqn Ev; [left; congruence|].
  head_case Hop eqn Elock; [left; congruence|]. cbv zeta in Hop.
  head_case Hop eqn El.
  { left. repeat case_match; congruence. }
  head_case Hop eqn Ecap; [left; congruence|].
  head_case Hop as [reserved ok] eqn Eagg.
  head_case Hop eqn Eg; [left; congruence|]. bprop.
  right. eexists. split; [|exact Hop].
  constructor; [|done|done|done|by rewrite Eagg].
  unfold is_err in Ev. destruct (validateExposureAdmission a) as [[]|]; done.
Qed.

Lemma ObserveMarket_cases e l o l' r :
  ObserveMarket e l o = (l', r) ->
  l' = l \/ exists next, doc_next (lg_doc l) next /\ commit (persist e) l next = (l', r).
Proof.
  intros Hop. unfold ObserveMarket in Hop.
  head_case Hop eqn Ef; [left; congruence|].
  head_case Hop eqn Elock; [left; congruence|]. cbv zeta in Hop.
  head_case Hop as [rec|] eqn El; [|left; congruence].
  head_case Hop eqn Ec; [left; congruence|].
  head_case Hop eqn Er.
  { left. case_match; congruence. }
  head_case Hop eqn El1; [left; congruence|].
  head_case Hop eqn El2.
  { left. case_match; congruence. }
  head_case Hop eqn Et; [left; congruence|]. bprop.
  right. eexists. split; [|exact Hop].
  destruct (ob_TerminalCompacted o).
  - apply next_release; [done|done|lia|done].
  - apply next_observe; [done|done|lia|done|done].
Qed.

Lemma doc_next_le d next : doc_next d next -> exposure_le d next.
Proof.
  destruct 1 as [a Hv Ha Hfresh Hcap Hagg|k r locked seqno view Hk Hr Hs Hl Hc|k r seqno view Hk Hr Hs Hc];
    apply (map_le_insert record_le); intros r0 Hr0; [congruence|..];
    rewrite Hk in Hr0; injection Hr0 as <-;
    (split_and!; simpl; [done|lia|congruence]).
Qed.

(** Installing a valid record keeps every other field of the invariant. *)
Lemma exposure_ok_with_market profile d k r :
  exposure_ok profile d ->
  invalid_market k r = false -> is_u64 (er_ceiling r) ->
  N.of_nat (size (<[k := r]> (ed_Markets d))) <= pf_MaximumMarketsPerEpoch profile ->
  active_exposure (<[k := r]> (ed_Markets d)) <= pf_MaximumExposure profile ->
  exposure_ok profile (with_market d k r).
Proof.
  intros [] Hi Hu Hc He. split; simpl; [done..|by apply map_Forall_insert_2|by apply map_Forall_insert_2|done].
Qed.

Lemma fresh_market_valid a :
  validateExposureAdmission a = Ok tt ->
  invalid_market (ad_MarketID a)
    {| er_admission := a; er_LockedCollateral := 0; er_MasterchainSeqno := 0;
       er_FinalityViewID := ""; er_Released := false |} = false.
Proof.
  intros Hv. unfold invalid_market. simpl. rewrite bool_decide_true by done.
  unfold is_err. rewrite Hv. simpl.
  destruct (N.ltb_spec (er_ceiling {| er_admission := a; er_LockedCollateral := 0;
    er_MasterchainSeqno := 0; er_FinalityViewID := ""; er_Released := false |}) 0); [lia|done].
Qed.

(** Re-observing a valid market with a later checkpoint keeps it valid. *)
Lemma observed_market_valid k r locked seqno view released :
  invalid_market k r = false -> er_MasterchainSeqno r < seqno -> locked <= er_ceiling r ->
  canonicalDigest view "sha256:" = true -> (released = true -> locked = 0) ->
  invalid_market k {| er_admission := er_admission r; er_LockedCollateral := locked;
    er_MasterchainSeqno := seqno; er_FinalityViewID := view; er_Released := released |} = false.
Proof.
  intros Hr Hs Hl Hc Hrel. unfold invalid_market in *. simpl. bprop.
  rewrite bool_decide_true by done.
  match goal with H : is_err _ = false |- _ => rewrite H end.
  rewrite (bool_decide_false (view = ""%string)) by (by eapply canonicalDigest_nonempty).
  rewrite Hc. unfold er_ceiling in *. simpl.
  destruct (N.eqb_spec seqno 0) as [?|_]; [lia|].
  destruct (N.ltb_spec (ad_ExposureCeiling (er_admission r)) locked) as [?|_]; [lia|].
  destruct released; simpl; [|done]. by rewrite Hrel.
Qed.

Lemma doc_next_ok profile d next :
  is_u64 (pf_MaximumExposure profile) -> pf_MaximumMarketsPerEpoch profile <= MaxUint32 ->
  exposure_ok profile d -> doc_next d next -> exposure_ok profile next.
Proof.
  intros Hmax Hcap Hd Hn.
  pose proof (ok_profile _ _ Hd) as Hp. pose proof (ok_count _ _ Hd) as Hcount.
  pose proof (ok_exposure _ _ Hd) as Hexp.
  destruct Hn as [a Hv Ha Hfresh Hlen Hagg|k r locked seqno view Hk Hr Hs Hl Hc|k r seqno view Hk Hr Hs Hc].
  - rewrite (aggregate_ok profile) in Hagg by done. destruct Hagg as (_ & Hle & Hroom).
    rewrite Hp in *. rewrite sub64w_exact in Hroom by done.
    rewrite (len32_exact _ _ Hcount Hcap) in Hlen.
    apply exposure_ok_with_market; [done|by apply fresh_market_valid|done|..].
    + rewrite map_size_insert_None by done. lia.
    + unfold active_exposure in *. rewrite map_sum_insert_fresh by done.
      unfold reserve at 1, er_ceiling. simpl. lia.
  - pose proof (ok_markets _ _ Hd k r Hk) as Hvalid.
    apply exposure_ok_with_market; [done|by apply observed_market_valid|exact (ok_typed _ _ Hd k r Hk)|..].
    + rewrite map_size_insert_Some by eauto. done.
    + unfold active_exposure in *. erewrite map_sum_insert_same; [done|exact Hk|].
      unfold reserve. by rewrite Hr.
  - pose proof (ok_markets _ _ Hd k r Hk) as Hvalid.
    apply exposure_ok_with_market; [done|apply observed_market_valid; [done|lia|lia|done|done]|exact (ok_typed _ _ Hd k r Hk)|..].
    + rewrite map_size_insert_Some by eauto. done.
    + unfold active_exposure in *.
      pose proof (map_sum_insert_existing reserve (ed_Markets d) k
        {| er_admission := er_admission r; er_LockedCollateral := 0; er_MasterchainSeqno := seqno;
           er_FinalityViewID := view; er_Released := true |} r Hk) as Hsum.
      unfold reserve at 2 3 in Hsum. simpl in Hsum. lia.
Qed.

(** The checks of [loadOrInitialize] accept every document of the invariant. *)
Lemma load_accepts profile d e doc0 :
  is_u64 (pf_MaximumExposure profile) -> pf_MaximumMarketsPerEpoch profile <= MaxUint32 ->
  exposure_ok profile d -> ed_Profile doc0 = profile ->
  loadOrInitialize e (FileDoc d) doc0 = (FileDoc d, Ok d).
Proof.
  intros Hmax Hcap Hd H0. unfold loadOrInitialize.
  rewrite (ok_schema _ _ Hd), (ok_profile _ _ Hd), H0, bool_decide_true by done.
  rewrite (len32_exact _ _ (ok_count _ _ Hd) Hcap).
  pose proof (ok_count _ _ Hd). destruct (N.ltb_spec (pf_MaximumMarketsPerEpoch profile)
    (N.of_nat (size (ed_Markets d)))) as [?|_]; [lia|]. simpl.
  rewrite (proj2 (map_any_false _ _) (ok_markets _ _ Hd)).
  rewrite (aggregate_ok profile) by done. simpl.
  pose proof (ok_exposure _ _ Hd).
  destruct (N.ltb_spec (pf_MaximumExposure profile) (active_exposure (ed_Markets d))) as [?|_]; [lia|done].
Qed.

(** A file written by Go code holds [uint64] fields, and one of at most 8 MiB
    holds fewer than 2^32 markets. *)
Definition file_typed (file : file_state exposureDocument) : Prop :=
  match file with
  | FileDoc d =>
      map_Forall (fun _ r => is_u64 (er_ceiling r)) (ed_Markets d) /\
      N.of_nat (size (ed_Markets d)) <= MaxUint32
  | _ => True
  end.

Lemma profile_bounds profile :
  validateExposureProfile profile = Ok tt -> pf_MaximumMarketsPerEpoch profile <= MaxUint32.
Proof.
  unfold validateExposureProfile. intros Hp. head_case Hp eqn E; [done|]. bprop.
  unfold MaxUint32. lia.
Qed.

Lemma empty_doc_ok profile : exposure_ok profile (emptyDocument profile).
Proof.
  split; simpl; [done|done|rewrite map_size_empty; lia|apply map_Forall_empty|apply map_Forall_empty|].
  unfold active_exposure. rewrite map_sum_empty. lia.
Qed.

Lemma loaded_doc_ok e d doc0 file' doc :
  file_typed (FileDoc d) -> is_u64 (pf_MaximumExposure (ed_Profile doc0)) ->
  loadOrInitialize e (FileDoc d) doc0 = (file', Ok doc) ->
  doc = d /\ file' = FileDoc d /\ exposure_ok (ed_Profile doc0) d.
Proof.
  intros [Ht Hsize] Hmax Hl. unfold loadOrInitialize in Hl.
  head_case Hl eqn E1; [done|]. head_case Hl eqn E2; [done|].
  rewrite aggregate_spec in Hl by done.
  destruct (N.leb_spec (active_exposure (ed_Markets d)) MaxUint64); [|done].
  head_case Hl eqn E3; [done|]. bprop. injection Hl as <- <-.
  assert (len32 (ed_Markets d) = N.of_nat (size (ed_Markets d))) as Hlen by (by apply u32_small).
  assert (ed_Profile d = ed_Profile doc0) as Hp by done.
  rewrite Hp in *. split_and!; [done|done|].
  split; [done|done|lia|by apply map_any_false|done|done].
Qed.

Lemma Open_ok e d file profile file' l :
  file_typed file -> is_u64 (pf_MaximumExposure profile) ->
  OpenOracleExposureLedger e d file profile = (file', Ok l) ->
  validateExposureProfile profile = Ok tt /\ ledger_ok profile l /\ lg_file l = file' /\
  file' = FileDoc (lg_doc l) /\ lg_lock l = true.
Proof.
  intros Ht Hmax Hop. unfold OpenOracleExposureLedger in Hop.
  head_case Hop eqn Ev; [done|].
  assert (validateExposureProfile profile = Ok tt) as Hv.
  { unfold is_err in Ev. destruct (validateExposureProfile profile) as [[]|]; done. }
  head_case Hop eqn Ed; [|done].
  destruct (loadOrInitialize e file (emptyDocument profile)) as [f r] eqn:El.
  destruct r as [doc|]; [|done]. simplify_eq. simpl.
  destruct file as [| | |d0]; [|done|done|].
  - simpl in El. destruct (persist e FileAbsent (emptyDocument profile)) as [f' rp] eqn:Ep. unfold persist in Ep.
    destruct rp as [[]|]; simplify_eq.
    apply persist_bounded_cases in Ep as [_ ->]; [|done].
    split_and!; [done| |done|done|done]. split; [apply empty_doc_ok|].
    exists (emptyDocument profile). split_and!; [done|apply empty_doc_ok|reflexivity].
  - apply loaded_doc_ok in El as (-> & -> & Hd); [|done|done].
    split_and!; [done| |done|done|done]. split; [done|]. exists d0. split_and!; [done|done|reflexivity].
Qed.

Lemma file_ok_typed profile d :
  pf_MaximumMarketsPerEpoch profile <= MaxUint32 -> exposure_ok profile d -> file_typed (FileDoc d).
Proof. intros Hcap Hd. split; [apply Hd|]. pose proof (ok_count _ _ Hd). lia. Qed.

Lemma commit_outcome profile e l next l' r :
  is_u64 (pf_MaximumExposure profile) -> pf_MaximumMarketsPerEpoch profile <= MaxUint32 ->
  ledger_ok profile l -> doc_next (lg_doc l) next -> commit (persist e) l next = (l', r) ->
  outcome profile l l'.
Proof.
  intros Hmax Hcap [Hd _] Hn Hc.
  eapply outcome_commit; [apply persist_ok|by eapply doc_next_ok|by apply doc_next_le|done].
Qed.

Lemma step_outcome profile l l' :
  is_u64 (pf_MaximumExposure profile) -> pf_MaximumMarketsPerEpoch profile <= MaxUint32 ->
  ledger_ok profile l -> step profile l l' -> outcome profile l l'.
Proof.
  intros Hmax Hcap Hl Hs.
  destruct Hs as [e a r Ha Hop|e o r Hop|release r Hop|e d file' Hop].
  - apply AdmitMarket_cases in Hop as [->|(next & Hn & Hc)]; [constructor| |done].
    by eapply commit_outcome.
  - apply ObserveMarket_cases in Hop as [->|(next & Hn & Hc)]; [constructor|].
    by eapply commit_outcome.
  - by eapply outcome_close.
  - destruct Hl as (Hd & d0 & Hf & Hfd & Hle). rewrite Hf in Hop.
    unfold OpenOracleExposureLedger in Hop. head_case Hop eqn Ev; [done|].
    head_case Hop eqn Ed; [|done].
    rewrite (load_accepts profile) in Hop by done. simplify_eq. by apply outcome_restart.
Qed.

Lemma steps_ok profile l l' :
  is_u64 (pf_MaximumExposure profile) -> pf_MaximumMarketsPerEpoch profile <= MaxUint32 ->
  rtc (step profile) l l' -> ledger_ok profile l ->
  ledger_ok profile l' /\ exposure_le (lg_doc l) (lg_doc l').
Proof.
  intros Hmax Hcap Hr Hl.
  exact (outcomes_ok (D := exposureDocument) profile (step profile) l l'
    (fun l1 l2 => step_outcome profile l1 l2 Hmax Hcap) Hr Hl).
Qed.

(** ** Theorems *)

(** C20: whatever sequence of admissions, observations, failed or interrupted
    writes, closings and restarts a ledger goes through, the exposure reserved
    by its active markets never exceeds the profile's maximum (as an exact
    integer, not modulo 2^64), the number of markets stays within the epoch's
    capacity, every record stays well formed, and the same holds of the
    document on disk. *)
Theorem exposure_reachable_ok profile e d file file' l0 l :
  file_typed file -> is_u64 (pf_MaximumExposure profile) ->
  OpenOracleExposureLedger e d file profile = (file', Ok l0) ->
  rtc (step profile) l0 l ->
  active_exposure (ed_Markets (lg_doc l)) <= pf_MaximumExposure profile /\
  N.of_nat (size (ed_Markets (lg_doc l))) <= pf_MaximumMarketsPerEpoch profile /\
  ledger_ok profile l.
Proof.
  intros Ht Hmax Hop Hr. apply Open_ok in Hop as (Hv & Hl0 & _); [|done|done].
  destruct (steps_ok _ _ _ Hmax (profile_bounds _ Hv) Hr Hl0) as [Hl _].
  pose proof (proj1 Hl) as Hd. split_and!; [apply Hd|apply Hd|done].
Qed.

(** a market's history only moves forward, across operations, failures and
    restarts: it keeps the admission it was admitted with, its finality
    checkpoint never goes back, and once released it is frozen, so its
    exposure is never reserved again. *)
Theorem exposure_history_forward profile e d file file' l0 l l' :
  file_typed file -> is_u64 (pf_MaximumExposure profile) ->
  OpenOracleExposureLedger e d file profile = (file', Ok l0) ->
  rtc (step profile) l0 l -> rtc (step profile) l l' ->
  exposure_le (lg_doc l) (lg_doc l').
Proof.
  intros Ht Hmax Hop Hr Hr'. apply Open_ok in Hop as (Hv & Hl0 & _); [|done|done].
  pose proof (profile_bounds _ Hv) as Hcap.
  destruct (steps_ok _ _ _ Hmax Hcap Hr Hl0) as [Hl _].
  by apply (steps_ok _ _ _ Hmax Hcap Hr').
Qed.

(** a ledger can always be reopened from its file: the checks of
    [loadOrInitialize] accept every document an interrupted or successful
    write left behind, and the recovered document is not behind the one that
    was in memory. *)
Theorem exposure_restart_recovers profile e d file file' l0 l e' d' :
  file_typed file -> is_u64 (pf_MaximumExposure profile) ->
  OpenOracleExposureLedger e d file profile = (file', Ok l0) ->
  rtc (step profile) l0 l -> openPrivateLockedDirectory d' = Ok tt ->
  exists doc,
    OpenOracleExposureLedger e' d' (lg_file l) profile =
      (lg_file l, Ok {| lg_file := lg_file l; lg_lock := true; lg_doc := doc |}) /\
    exposure_le (lg_doc l) doc.
Proof.
  intros Ht Hmax Hop Hr Hd'. apply Open_ok in Hop as (Hv & Hl0 & _); [|done|done].
  pose proof (profile_bounds _ Hv) as Hcap.
  destruct (steps_ok _ _ _ Hmax Hcap Hr Hl0) as [(_ & doc & Hf & Hdoc & Hle) _].
  exists doc. split; [|done]. unfold OpenOracleExposureLedger, is_err.
  rewrite Hv, Hd', Hf. simpl is_ok. cbv iota beta delta [negb].
  by rewrite (load_accepts profile).
Qed.

(** on a fresh market [AdmitMarket] succeeds exactly when the admission is
    valid, a slot is free and the ceiling fits in what is left of the maximum
    exposure; success adds exactly that ceiling to the reserved exposure and
    is durable, and failure changes nothing. *)
Theorem exposure_admit_exact profile l a :
  is_u64 (pf_MaximumExposure profile) -> pf_MaximumMarketsPerEpoch profile <= MaxUint32 ->
  ledger_ok profile l -> lg_lock l = true -> is_u64 (ad_ExposureCeiling a) ->
  ed_Markets (lg_doc l) !! ad_MarketID a = None ->
  let '(l', r) := AdmitMarket io_good l a in
  let m := ed_Markets (lg_doc l) in
  (r = Ok tt <->
     validateExposureAdmission a = Ok tt /\
     N.of_nat (size m) < pf_MaximumMarketsPerEpoch profile /\
     active_exposure m + ad_ExposureCeiling a <= pf_MaximumExposure profile) /\
  (r = Ok tt ->
     active_exposure (ed_Markets (lg_doc l')) = active_exposure m + ad_ExposureCeiling a /\
     lg_file l' = FileDoc (lg_doc l')) /\
  (is_err r = true -> l' = l).
Proof.
  intros Hmax Hcap Hl Hlock Ha Hfresh. pose proof (proj1 Hl) as Hd.
  unfold AdmitMarket. rewrite Hlock, Hfresh, (ok_profile _ _ Hd), (aggregate_ok profile) by done.
  rewrite (len32_exact _ _ (ok_count _ _ Hd) Hcap). pose proof (ok_exposure _ _ Hd) as Hexp.
  unfold is_err. destruct (validateExposureAdmission a) as [[]|]; cbn [is_ok negb]; [|naive_solver].
  destruct (N.leb_spec (pf_MaximumMarketsPerEpoch profile) (N.of_nat (size (ed_Markets (lg_doc l)))));
    [split_and!; [split; [done|lia]|done|done]|].
  rewrite sub64w_exact by done.
  destruct (N.ltb_spec (pf_MaximumExposure profile) (active_exposure (ed_Markets (lg_doc l)))); [lia|].
  destruct (N.ltb_spec (pf_MaximumExposure profile - active_exposure (ed_Markets (lg_doc l)))
    (ad_ExposureCeiling a)); cbn [negb orb]; [split_and!; [split; [done|lia]|done|done]|].
  rewrite (commit_good _ _ _ (persist_good _ _)). cbn [lg_doc lg_file with_market ed_Markets is_ok negb].
  split_and!; [split; [intros _; split_and!; [done|done|lia]|done]| |done].
  intros _. split; [|done]. unfold active_exposure. rewrite map_sum_insert_fresh by done.
  unfold reserve at 1, er_ceiling. simpl. lia.
Qed.

(** a market's reservation is released only by an observation of that very
    market carrying quorum finality, terminal compaction, cleared liabilities
    and no locked collateral, at a later checkpoint; the release frees exactly
    the market's ceiling. *)
Theorem exposure_release_evidence e l o l' r k rec rec' :
  ObserveMarket e l o = (l', r) ->
  ed_Markets (lg_doc l) !! k = Some rec -> er_Released rec = false ->
  ed_Markets (lg_doc l') !! k = Some rec' -> er_Released rec' = true ->
  k = ob_MarketID o /\ ob_QuorumFinalized o = true /\ ob_TerminalCompacted o = true /\
  ob_LiabilitiesCleared o = true /\ ob_LockedCollateral o = 0 /\
  er_MasterchainSeqno rec < ob_MasterchainSeqno o /\
  active_exposure (ed_Markets (lg_doc l')) + er_ceiling rec =
    active_exposure (ed_Markets (lg_doc l)).
Proof.
  intros Hop Hk Hrel Hk' Hrel'. unfold ObserveMarket in Hop.
  assert (lg_doc l' <> lg_doc l) as Hne by (intros E; rewrite E in Hk'; congruence).
  head_case Hop eqn Ef; [congruence|]. head_case Hop eqn Elock; [congruence|]. cbv zeta in Hop.
  head_case Hop as [r0|] eqn El; [|congruence]. head_case Hop eqn Ec; [congruence|].
  head_case Hop eqn Er0; [case_match; congruence|]. head_case Hop eqn Es; [congruence|].
  head_case Hop eqn Es'; [case_match; congruence|]. head_case Hop eqn Et; [congruence|].
  destruct (commit_cases _ _ _ _ _ (persist_ok e) Hop) as [_ [(_ & Hdoc & _)|(_ & Hdoc & _)]]; [|done].
  rewrite Hdoc in Hk' |- *. simpl in Hk' |- *.
  destruct (decide (ob_MarketID o = k)) as [<-|Hd];
    [|rewrite lookup_insert_ne in Hk' by done; congruence].
  rewrite lookup_insert_eq in Hk'. rewrite Hk in El. simplify_eq.
  destruct (ob_TerminalCompacted o) eqn:Ecomp; simpl in Hrel'; [|congruence].
  simpl in Et. bprop. split_and!; [done|done|done|done|done|lia|].
  unfold active_exposure.
  pose proof (map_sum_insert_existing reserve (ed_Markets (lg_doc l)) (ob_MarketID o)
    {| er_admission := er_admission r0; er_LockedCollateral := 0;
       er_MasterchainSeqno := ob_MasterchainSeqno o;
       er_FinalityViewID := ob_FinalityViewID o; er_Released := true |} r0 Hk) as Hsum.
  unfold reserve at 2 3 in Hsum. simpl in Hsum. rewrite Er0 in Hsum. lia.
Qed.

Lemma pool_sum d : map_sum pool_reserve (pool_of d) = active_exposure (ed_Markets d).
Proof.
  unfold pool_of, active_exposure.
  induction (ed_Markets d) as [|k r m Hk IH] using map_ind.
  - by rewrite fmap_empty, !map_sum_empty.
  - rewrite fmap_insert, !map_sum_insert_fresh by (rewrite ?lookup_fmap, ?Hk; done).
    by rewrite IH.
Qed.

Lemma doc_next_pool profile d next :
  is_u64 (pf_MaximumExposure profile) -> pf_MaximumMarketsPerEpoch profile <= MaxUint32 ->
  exposure_ok profile d -> doc_next d next ->
  pool_step (pf_MaximumExposure profile) (pf_MaximumMarketsPerEpoch profile)
    (pool_of d) (pool_of next).
Proof.
  intros Hmax Hcap Hd Hn. pose proof (ok_profile _ _ Hd) as Hp.
  destruct Hn as [a Hv Ha Hfresh Hlen Hagg|k r locked seqno view Hk Hr Hs Hl Hc|k r seqno view Hk Hr Hs Hc];
    unfold pool_of; simpl; rewrite fmap_insert; simpl.
  - rewrite (aggregate_ok profile), Hp in Hagg by done. destruct Hagg as (_ & Hle & Hroom).
    rewrite sub64w_exact in Hroom by done. pose proof (ok_exposure _ _ Hd).
    rewrite Hp, (len32_exact _ _ (ok_count _ _ Hd) Hcap) in Hlen.
    apply pool_admit.
    + by rewrite lookup_fmap, Hfresh.
    + by rewrite map_size_fmap.
    + fold (pool_of d). rewrite pool_sum. unfold er_ceiling. simpl. lia.
  - rewrite insert_id; [constructor|]. rewrite lookup_fmap, Hk. simpl. by rewrite Hr.
  - apply pool_release. rewrite lookup_fmap, Hk. simpl. by rewrite Hr.
Qed.

(** C32: the ledger implements a bounded pool of one-shot reservations: seen
    through the abstraction to (ceiling, released) pairs, every operation,
    under any write failure, is a step of the abstract pool or no step. *)
Theorem exposure_refines_pool profile l l' e o a r :
  is_u64 (pf_MaximumExposure profile) -> pf_MaximumMarketsPerEpoch profile <= MaxUint32 ->
  ledger_ok profile l -> is_u64 (ad_ExposureCeiling a) ->
  AdmitMarket e l a = (l', r) \/ ObserveMarket e l o = (l', r) ->
  pool_step (pf_MaximumExposure profile) (pf_MaximumMarketsPerEpoch profile)
    (pool_of (lg_doc l)) (pool_of (lg_doc l')).
Proof.
  intros Hmax Hcap Hl Ha Hop.
  assert (l' = l \/ exists next, doc_next (lg_doc l) next /\ commit (persist e) l next = (l', r)) as Hc.
  { destruct Hop as [Hop|Hop]; [by eapply AdmitMarket_cases|by eapply ObserveMarket_cases]. }
  destruct Hc as [->|(next & Hn & Hc)]; [constructor|].
  destruct (commit_cases _ _ _ _ _ (persist_ok e) Hc) as [_ [(_ & -> & _)|(_ & -> & _)]]; [|constructor].
  apply doc_next_pool; [done..|apply Hl|done].
Qed.

(** The listing of active markets is complete, duplicate-free and sorted. *)
Lemma ActiveMarkets_spec l :
  StronglySorted (key_le ad_MarketID) (ActiveMarkets l) /\
  (forall a, a ∈ ActiveMarkets l <->
     exists k r, ed_Markets (lg_doc l) !! k = Some r /\ er_Released r = false /\ er_admission r = a).
Proof.
  split; [apply sort_by_sorted|]. intros a. unfold ActiveMarkets.
  rewrite sort_by_Permutation, list_elem_of_fmap. split.
  - intros (r & -> & Hr). apply list_elem_of_filter in Hr as [Hrel Hr].
    apply elem_of_map_vals in Hr as [k Hk]. eauto.
  - intros (k & r & Hk & Hrel & <-). exists r. split; [done|].
    apply list_elem_of_filter. split; [done|]. apply elem_of_map_vals. eauto.
Qed.

End operations.

(** ** Witnesses *)
Import Fixtures.

Definition sample_profile : OracleExposureProfile :=
  {| pf_NetworkDomainHash := sha 1; pf_EventFamilyHash := sha 2; pf_OracleEpochHash := sha 3;
     pf_ContractCodeHash := tvm 4; pf_MaximumExposure := 1000; pf_MaximumMarketsPerEpoch := 2 |}.

Definition sample_admission (b ceiling : N) : MarketExposureAdmission :=
  {| ad_MarketID := sha b; ad_MarketAddress := addr b; ad_MarketConfigHash := tvm b;
     ad_ExposureCeiling := ceiling |}.

Definition sample_ledger : OracleExposureLedger :=
  {| lg_file := FileDoc (emptyDocument sample_profile); lg_lock := true;
     lg_doc := emptyDocument sample_profile |}.

Definition sample_observation (b locked seqno : N) (terminal : bool) : MarketExposureObservation :=
  {| ob_MarketID := sha b; ob_MarketAddress := addr b; ob_MarketConfigHash := tvm b;
     ob_ContractCodeHash := tvm 4; ob_LockedCollateral := locked; ob_MasterchainSeqno := seqno;
     ob_FinalityViewID := sha 9; ob_QuorumFinalized := true; ob_TerminalCompacted := terminal;
     ob_LiabilitiesCleared := terminal |}.

(** One market admitted, its collateral observed, then released. *)
Definition sample_admitted : OracleExposureLedger := (AdmitMarket io_good sample_ledger (sample_admission 7 600)).1.
Definition sample_observed : OracleExposureLedger := (ObserveMarket io_good sample_admitted (sample_observation 7 50 3 false)).1.
Definition sample_released : OracleExposureLedger := (ObserveMarket io_good sample_observed (sample_observation 7 0 4 true)).1.

Example sample_open :
  OpenOracleExposureLedger io_good dir_good FileAbsent sample_profile =
    (FileDoc (emptyDocument sample_profile), Ok sample_ledger).
Proof. vm_compute. reflexivity. Qed.

Example sample_overcommit :
  (AdmitMarket io_good sample_admitted (sample_admission 8 401)).2 =
    Err "prediction oracle aggregate exposure limit exceeded".
Proof. vm_compute. reflexivity. Qed.

Example sample_reuse :
  (AdmitMarket io_good sample_released (sample_admission 8 1000)).2 = Ok tt /\
  (AdmitMarket io_good sample_released (sample_admission 7 600)).2 =
    Err "released prediction market exposure cannot be reactivated".
Proof. split; vm_compute; reflexivity. Qed.

Lemma sample_step_admit : step sample_profile sample_ledger sample_admitted.
Proof.
  apply (step_admit _ _ _ io_good (sample_admission 7 600) (Ok tt)); [done|].
  unfold sample_admitted. vm_compute. reflexivity.
Defined.

Lemma sample_step_observe : step sample_profile sample_admitted sample_observed.
Proof.
  apply (step_observe _ _ _ io_good (sample_observation 7 50 3 false) (Ok tt)).
  vm_compute. reflexivity.
Defined.

Lemma sample_step_release : step sample_profile sample_observed sample_released.
Proof.
  apply (step_observe _ _ _ io_good (sample_observation 7 0 4 true) (Ok tt)).
  vm_compute. reflexivity.
Defined.

Lemma sample_steps : rtc (step sample_profile) sample_ledger sample_released.
Proof.
  eapply rtc_l; [exact sample_step_admit|]. eapply rtc_l; [exact sample_step_observe|].
  eapply rtc_l; [exact sample_step_release|]. apply rtc_refl.
Defined.

Lemma sample_max : is_u64 (pf_MaximumExposure sample_profile).
Proof. unfold is_u64, MaxUint64. simpl. lia. Defined.

Lemma exposure_reachable_ok_witness :
  active_exposure (ed_Markets (lg_doc sample_released)) <= 1000 /\
  N.of_nat (size (ed_Markets (lg_doc sample_released))) <= 2 /\
  ledger_ok sample_profile sample_released.
Proof.
  exact (exposure_reachable_ok sample_profile io_good dir_good FileAbsent _ sample_ledger sample_released
    I sample_max sample_open sample_steps).
Defined.

Lemma exposure_history_forward_witness : exposure_le (lg_doc sample_ledger) (lg_doc sample_released).
Proof.
  exact (exposure_history_forward sample_profile io_good dir_good FileAbsent _ sample_ledger sample_ledger
    sample_released I sample_max sample_open (rtc_refl _ _) sample_steps).
Defined.

Lemma exposure_restart_recovers_witness :
  exists doc,
    OpenOracleExposureLedger io_good dir_good (lg_file sample_released) sample_profile =
      (lg_file sample_released,
       Ok {| lg_file := lg_file sample_released; lg_lock := true; lg_doc := doc |}) /\
    exposure_le (lg_doc sample_released) doc.
Proof.
  exact (exposure_restart_recovers sample_profile io_good dir_good FileAbsent _ sample_ledger sample_released
    io_good dir_good I sample_max sample_open sample_steps eq_refl).
Defined.

Lemma sample_ledger_ok : ledger_ok sample_profile sample_ledger.
Proof.
  split; [apply empty_doc_ok|]. exists (emptyDocument sample_profile).
  split_and!; [done|apply empty_doc_ok|reflexivity].
Defined.

Lemma exposure_admit_exact_witness :
  let '(l', r) := AdmitMarket io_good sample_ledger (sample_admission 7 600) in
  r = Ok tt /\ active_exposure (ed_Markets (lg_doc l')) = 600.
Proof.
  pose proof (exposure_admit_exact sample_profile sample_ledger (sample_admission 7 600) sample_max
    ltac:(vm_compute; done) sample_ledger_ok eq_refl ltac:(vm_compute; done) eq_refl) as H.
  destruct (AdmitMarket io_good sample_ledger (sample_admission 7 600)) as [l' r] eqn:E.
  destruct H as (_ & H & _).
  assert (r = Ok tt) as -> by (transitivity ((l', r).2); [done|rewrite <-E; vm_compute; reflexivity]).
  split; [done|]. destruct (H eq_refl) as [-> _]. vm_compute. reflexivity.
Defined.

Lemma exposure_release_evidence_witness :
  active_exposure (ed_Markets (lg_doc sample_released)) + 600 =
    active_exposure (ed_Markets (lg_doc sample_observed)).
Proof.
  destruct (exposure_release_evidence io_good sample_observed (sample_observation 7 0 4 true)
    sample_released (Ok tt) (sha 7)
    {| er_admission := sample_admission 7 600; er_LockedCollateral := 50; er_MasterchainSeqno := 3;
       er_FinalityViewID := sha 9; er_Released := false |}
    {| er_admission := sample_admission 7 600; er_LockedCollateral := 0; er_MasterchainSeqno := 4;
       er_FinalityViewID := sha 9; er_Released := true |}) as (_ & _ & _ & _ & _ & _ & H);
    [vm_compute; reflexivity..|exact H].
Defined.

Lemma exposure_refines_pool_witness :
  pool_step 1000 2 (pool_of (lg_doc sample_ledger)) (pool_of (lg_doc sample_admitted)).
Proof.
  apply (exposure_refines_pool sample_profile sample_ledger sample_admitted io_good
    (sample_observation 7 50 3 false) (sample_admission 7 600) (Ok tt) sample_max
    ltac:(vm_compute; done) sample_ledger_ok ltac:(vm_compute; done)).
  left. vm_compute. reflexivity.
Defined.

End Exposure.
