(* ===== verification/Portfolio.v ===== *)
(** * The owner portfolio ledger (src/pkg/prediction/portfolio.go)

    One durable document per (owner, network, source account, asset): the
    worst-case risk of every order any agent of the owner has reserved, and
    the positions the finalized chain has shown. *)

From S2P Require Import Prelude GoLib FileStore Ledger Protocol Fixtures.
#[local] Open Scope N_scope.

Module Portfolio.

(** ** Data *)
Record OwnerPortfolioProfile := {
  op_OwnerID : string;
  op_OwnerAddress : string;
  op_NetworkDomainHash : string;
  op_SourceAgentAccount : string;
  op_CollateralAssetID : string;
  op_MaximumAtRiskAtomic : N;
  op_MaximumPositionLots : N;
  op_MaximumOrderReservations : N;
  op_MaximumMarkets : N
}.

Record PortfolioMarketSnapshot := {
  ps_OwnerAddress : string;
  ps_MarketID : string;
  ps_MarketAddress : string;
  ps_MarketConfigHash : string;
  ps_ContractCodeHash : string;
  ps_LotPayout : N;
  ps_FreeBalance : N;
  ps_YesLots : N;
  ps_NoLots : N;
  ps_MasterchainSeqno : N;
  ps_ObservedAt : N;
  ps_FinalityViewID : string;
  ps_QuorumFinalized : bool
}.

(** [PortfolioOrderStatus] is a string type with named constants; a decoded
    document may hold any string, which validation rejects. *)
Definition PortfolioOrderStatus : Type := string.
Definition PortfolioOrderReserved : PortfolioOrderStatus := "reserved".
Definition PortfolioOrderBroadcasting : PortfolioOrderStatus := "broadcasting".
Definition PortfolioOrderAmbiguous : PortfolioOrderStatus := "ambiguous".
Definition PortfolioOrderPartiallyFilled : PortfolioOrderStatus := "partially_filled".
Definition PortfolioOrderFilled : PortfolioOrderStatus := "filled".
Definition PortfolioOrderCancelConfirmed : PortfolioOrderStatus := "cancel_confirmed".
Definition PortfolioOrderExpiredConfirmed : PortfolioOrderStatus := "expired_confirmed".
Definition PortfolioOrderNonceInvalidated : PortfolioOrderStatus := "nonce_invalidated".
Definition PortfolioOrderKeyInvalidated : PortfolioOrderStatus := "key_invalidated".

Record PositionExposure := {
  pe_MarketID : string;
  pe_MarketAddress : string;
  pe_MarketConfigHash : string;
  pe_ContractCodeHash : string;
  pe_Outcome : N;
  pe_Lots : N;
  pe_AtRiskAtomic : N;
  pe_MasterchainSeqno : N;
  pe_FinalityViewID : string;
  pe_LastTransactionHash : string
}.

Record PortfolioOrderReservation := {
  r_OrderDigest : string;
  r_AgentID : string;
  r_MarketID : string;
  r_MarketAddress : string;
  r_MarketConfigHash : string;
  r_ContractCodeHash : string;
  r_Action : N;
  r_Outcome : N;
  r_QuantityLots : N;
  r_FilledLots : N;
  r_LimitPriceTick : N;
  r_LotPayout : N;
  r_ValidUntil : N;
  r_PendingCollateralAtomic : N;
  r_PendingPositionLots : N;
  r_CumulativeSpentAtomic : N;
  r_CumulativeProceedsAtomic : N;
  r_Status : PortfolioOrderStatus;
  r_LastTransactionHash : string;
  r_LastFinalityViewID : string;
  r_LastMasterchainSeqno : N
}.

Record PortfolioFillEvidence := {
  fe_OrderDigest : string;
  fe_CumulativeFilledLots : N;
  fe_CumulativeSpentAtomic : N;
  fe_CumulativeProceedsAtomic : N;
  fe_TransactionHash : string;
  fe_FinalityViewID : string;
  fe_MasterchainSeqno : N;
  fe_QuorumFinalized : bool
}.

Record PortfolioReservationProofV1 := {
  pp_SchemaVersion : N;
  pp_PortfolioKey : string;
  pp_Revision : N;
  pp_OrderDigest : string;
  pp_ReservationDigest : string;
  pp_AggregateAtRiskAtomic : N;
  pp_AggregatePositionLots : N;
  pp_FinalizedProceedsAtomic : N
}.

Definition PortfolioInactiveReason : Type := string.
Definition PortfolioInactiveCanceled : PortfolioInactiveReason := "canceled".
Definition PortfolioInactiveExpired : PortfolioInactiveReason := "expired".
Definition PortfolioInactiveNonceFloor : PortfolioInactiveReason := "nonce_floor".
Definition PortfolioInactiveKeyRotation : PortfolioInactiveReason := "key_rotation".

Record PortfolioInactiveEvidence := {
  ie_OrderDigest : string;
  ie_Reason : PortfolioInactiveReason;
  ie_ChainTime : N;
  ie_TransactionHash : string;
  ie_FinalityViewID : string;
  ie_MasterchainSeqno : N;
  ie_QuorumFinalized : bool
}.

Definition PortfolioPositionExitReason : Type := string.
Definition PortfolioPositionExitMerge : PortfolioPositionExitReason := "merge".
Definition PortfolioPositionExitClaim : PortfolioPositionExitReason := "claim".
Definition PortfolioPositionExitExternalSale : PortfolioPositionExitReason := "external_sale".

Record PortfolioPositionExitEvidence := {
  xe_MarketID : string;
  xe_MarketAddress : string;
  xe_MarketConfigHash : string;
  xe_ContractCodeHash : string;
  xe_Outcome : N;
  xe_RemainingLots : N;
  xe_Reason : PortfolioPositionExitReason;
  xe_TransactionHash : string;
  xe_FinalityViewID : string;
  xe_MasterchainSeqno : N;
  xe_QuorumFinalized : bool
}.

Record portfolioDocument := {
  pd_SchemaVersion : N;
  pd_Revision : N;
  pd_Profile : OwnerPortfolioProfile;
  pd_Orders : gmap string PortfolioOrderReservation;
  pd_Positions : gmap string PositionExposure;
  pd_FinalizedProceedsAtomic : N
}.

Definition OwnerPortfolioLedger : Type := ledger portfolioDocument.

(** custody.go: the risk commitment the owner approved. *)
Record WorstCaseOrderRiskV1 := {
  wr_SchemaVersion : N;
  wr_OrderDigest : string;
  wr_OwnerAddress : string;
  wr_MarketAddress : string;
  wr_Action : N;
  wr_Outcome : N;
  wr_QuantityLots : N;
  wr_CollateralDebit : N;
  wr_PositionDebit : N
}.

Record OwnerPortfolioSummary := {
  su_Revision : N;
  su_AggregateAtRiskAtomic : N;
  su_AggregatePositionLots : N;
  su_FinalizedProceedsAtomic : N
}.

#[global] Instance OwnerPortfolioProfile_eq_dec : EqDecision OwnerPortfolioProfile.
Proof. solve_decision. Defined.
#[global] Instance PortfolioOrderReservation_eq_dec : EqDecision PortfolioOrderReservation.
Proof. solve_decision. Defined.
#[global] Instance WorstCaseOrderRiskV1_eq_dec : EqDecision WorstCaseOrderRiskV1.
Proof. solve_decision. Defined.

(** The zero values Go's map lookup returns for a missing key. *)
Definition zeroPosition : PositionExposure :=
  {| pe_MarketID := ""; pe_MarketAddress := ""; pe_MarketConfigHash := ""; pe_ContractCodeHash := "";
     pe_Outcome := 0; pe_Lots := 0; pe_AtRiskAtomic := 0; pe_MasterchainSeqno := 0;
     pe_FinalityViewID := ""; pe_LastTransactionHash := "" |}.

Definition zeroSummary : OwnerPortfolioSummary :=
  {| su_Revision := 0; su_AggregateAtRiskAtomic := 0; su_AggregatePositionLots := 0;
     su_FinalizedProceedsAtomic := 0 |}.

(** Assignment of a reservation's mutable fields. *)
Definition set_progress (r : PortfolioOrderReservation)
    (filled pendingCollateral pendingPosition spent proceeds : N) (status : PortfolioOrderStatus)
    (tx view : string) (seqno : N) : PortfolioOrderReservation :=
  {| r_OrderDigest := r_OrderDigest r; r_AgentID := r_AgentID r; r_MarketID := r_MarketID r;
     r_MarketAddress := r_MarketAddress r; r_MarketConfigHash := r_MarketConfigHash r;
     r_ContractCodeHash := r_ContractCodeHash r; r_Action := r_Action r; r_Outcome := r_Outcome r;
     r_QuantityLots := r_QuantityLots r; r_FilledLots := filled;
     r_LimitPriceTick := r_LimitPriceTick r; r_LotPayout := r_LotPayout r;
     r_ValidUntil := r_ValidUntil r; r_PendingCollateralAtomic := pendingCollateral;
     r_PendingPositionLots := pendingPosition; r_CumulativeSpentAtomic := spent;
     r_CumulativeProceedsAtomic := proceeds; r_Status := status; r_LastTransactionHash := tx;
     r_LastFinalityViewID := view; r_LastMasterchainSeqno := seqno |}.

(** Assignment of a position's mutable fields. *)
Definition set_position (p : PositionExposure) (lots atRisk seqno : N) (view tx : string)
    : PositionExposure :=
  {| pe_MarketID := pe_MarketID p; pe_MarketAddress := pe_MarketAddress p;
     pe_MarketConfigHash := pe_MarketConfigHash p; pe_ContractCodeHash := pe_ContractCodeHash p;
     pe_Outcome := pe_Outcome p; pe_Lots := lots; pe_AtRiskAtomic := atRisk;
     pe_MasterchainSeqno := seqno; pe_FinalityViewID := view; pe_LastTransactionHash := tx |}.

Definition isPortfolioOrderTerminal (status : PortfolioOrderStatus) : bool :=
  bool_decide (status = PortfolioOrderFilled)
  || bool_decide (status = PortfolioOrderCancelConfirmed)
  || bool_decide (status = PortfolioOrderExpiredConfirmed)
  || bool_decide (status = PortfolioOrderNonceInvalidated)
  || bool_decide (status = PortfolioOrderKeyInvalidated).

Definition validPortfolioOrderStatus (status : PortfolioOrderStatus) : bool :=
  bool_decide (status ∈ [PortfolioOrderReserved; PortfolioOrderBroadcasting; PortfolioOrderAmbiguous;
    PortfolioOrderPartiallyFilled; PortfolioOrderFilled; PortfolioOrderCancelConfirmed;
    PortfolioOrderExpiredConfirmed; PortfolioOrderNonceInvalidated; PortfolioOrderKeyInvalidated]).

Definition validPositionExitReason (reason : PortfolioPositionExitReason) : bool :=
  bool_decide (reason = PortfolioPositionExitMerge)
  || bool_decide (reason = PortfolioPositionExitClaim)
  || bool_decide (reason = PortfolioPositionExitExternalSale).

Definition inactiveStatus (reason : PortfolioInactiveReason) : result PortfolioOrderStatus :=
  if bool_decide (reason = PortfolioInactiveCanceled) then Ok PortfolioOrderCancelConfirmed
  else if bool_decide (reason = PortfolioInactiveExpired) then Ok PortfolioOrderExpiredConfirmed
  else if bool_decide (reason = PortfolioInactiveNonceFloor) then Ok PortfolioOrderNonceInvalidated
  else if bool_decide (reason = PortfolioInactiveKeyRotation) then Ok PortfolioOrderKeyInvalidated
  else Err "unknown prediction inactivity reason".

Definition multiplyUint64 (left right : N) : N * bool :=
  if negb (right =? 0) && (MaxUint64 / right <? left) then (0, false)
  else (mul64w left right, true).

Definition remainingPositionRisk (atRisk lots sold : N) : N :=
  if lots <=? sold then 0
  else
    let released := mul64w (atRisk / lots) sold in
    sub64w atRisk released.

Definition portfolioPositionKey (marketID : string) (outcome : N) : string :=
  marketID +:+ ":" +:+ FormatUint10 outcome.

(** The mutable fields of a reservation blanked out. *)
Definition identity_of (r : PortfolioOrderReservation) : PortfolioOrderReservation :=
  set_progress r 0 0 0 0 0 PortfolioOrderReserved "" "" 0.

Definition sameReservationIdentity (left right : PortfolioOrderReservation) : bool :=
  bool_decide (identity_of left = identity_of right).

Section operations.
Context `{ADDR : TosAddress} `{PROT : PredictionProtocol} `{SHA : Sha256}.
(** [codec.Digest] on reservations, of the service-protocol repository. *)
Context (codec_Digest : string -> PortfolioOrderReservation -> result string).

(** ** Risk arithmetic *)
Definition portfolioBuyRisk (lotPayout price quantity : N) : N * bool :=
  if (lotPayout =? 0) || negb (lotPayout mod PriceScale =? 0) || (price =? 0) || (PriceScale <=? price)
  then (0, false)
  else
    let unit := lotPayout / PriceScale in
    let '(base, valid) := multiplyUint64 unit price in
    if negb valid then (0, false) else multiplyUint64 base quantity.

Definition portfolioRisk (order : PredictionOrderV1) (lotPayout : N) : result WorstCaseOrderRiskV1 :=
  let? orderCell := BuildPredictionOrderCell order in
  let? digest := PredictionOrderDigest orderCell in
  let risk collateral position :=
    {| wr_SchemaVersion := 1; wr_OrderDigest := SHA256String digest;
       wr_OwnerAddress := o_OwnerAddress order; wr_MarketAddress := o_MarketAddress order;
       wr_Action := o_Action order; wr_Outcome := o_Outcome order;
       wr_QuantityLots := o_QuantityLots order; wr_CollateralDebit := collateral;
       wr_PositionDebit := position |} in
  if o_Action order =? ActionBuy then
    let '(value, valid) := portfolioBuyRisk lotPayout (o_LimitPriceTick order) (o_QuantityLots order) in
    if negb valid then Err "prediction order portfolio risk overflows"
    else Ok (risk value 0)
  else Ok (risk 0 (o_QuantityLots order)).

Definition reservationFromOrder (agentID marketID codeHash : string) (order : PredictionOrderV1)
    (risk : WorstCaseOrderRiskV1) (snapshot : PortfolioMarketSnapshot) : PortfolioOrderReservation :=
  {| r_OrderDigest := wr_OrderDigest risk; r_AgentID := agentID; r_MarketID := marketID;
     r_MarketAddress := o_MarketAddress order;
     r_MarketConfigHash := CellHashString (o_MarketConfigHash order);
     r_ContractCodeHash := codeHash; r_Action := o_Action order; r_Outcome := o_Outcome order;
     r_QuantityLots := o_QuantityLots order; r_FilledLots := 0;
     r_LimitPriceTick := o_LimitPriceTick order; r_LotPayout := ps_LotPayout snapshot;
     r_ValidUntil := o_ValidUntil order; r_PendingCollateralAtomic := wr_CollateralDebit risk;
     r_PendingPositionLots := wr_PositionDebit risk; r_CumulativeSpentAtomic := 0;
     r_CumulativeProceedsAtomic := 0; r_Status := PortfolioOrderReserved;
     r_LastTransactionHash := ""; r_LastFinalityViewID := ""; r_LastMasterchainSeqno := 0 |}.

(** ** Totals *)
Fixpoint position_totals (atRisk lots : N) (positions : list PositionExposure) : option (N * N) :=
  match positions with
  | [] => Some (atRisk, lots)
  | position :: rest =>
      if (sub64w MaxUint64 (pe_AtRiskAtomic position) <? atRisk)
         || (sub64w MaxUint64 (pe_Lots position) <? lots)
      then None
      else position_totals (add64w atRisk (pe_AtRiskAtomic position)) (add64w lots (pe_Lots position)) rest
  end.

Fixpoint order_totals (atRisk : N) (orders : list PortfolioOrderReservation) : option N :=
  match orders with
  | [] => Some atRisk
  | reservation :: rest =>
      if isPortfolioOrderTerminal (r_Status reservation) then order_totals atRisk rest
      else if sub64w MaxUint64 (r_PendingCollateralAtomic reservation) <? atRisk then None
      else order_totals (add64w atRisk (r_PendingCollateralAtomic reservation)) rest
  end.

Definition portfolioTotals (document : portfolioDocument) : N * N * bool :=
  match position_totals 0 0 (map_vals (pd_Positions document)) with
  | None => (0, 0, false)
  | Some (atRisk, lots) =>
      match order_totals atRisk (map_vals (pd_Orders document)) with
      | None => (0, 0, false)
      | Some atRisk => (atRisk, lots, true)
      end
  end.

Definition validatePortfolioTotals (document : portfolioDocument) : result unit :=
  let '(atRisk, positionLots, valid) := portfolioTotals document in
  if negb valid then Err "prediction portfolio totals overflow"
  else if (op_MaximumAtRiskAtomic (pd_Profile document) <? atRisk)
          || (op_MaximumPositionLots (pd_Profile document) <? positionLots)
  then Err "prediction owner-wide portfolio limit exceeded"
  else Ok tt.

Definition portfolioKey (profile : OwnerPortfolioProfile) : string :=
  let nul := String (of_byte 0) EmptyString in
  let material :=
    op_OwnerID profile +:+ nul +:+ op_OwnerAddress profile +:+ nul +:+ op_NetworkDomainHash profile
    +:+ nul +:+ op_SourceAgentAccount profile +:+ nul +:+ op_CollateralAssetID profile in
  hex_EncodeToString (sha256_Sum256 material).

Definition portfolioReservationProof (document : portfolioDocument)
    (reservation : PortfolioOrderReservation) : result PortfolioReservationProofV1 :=
  let? reservationDigest := codec_Digest "tos.prediction.owner-portfolio-reservation.v1" reservation in
  let '(atRisk, positionLots, valid) := portfolioTotals document in
  if negb valid then Err "prediction portfolio totals overflow"
  else Ok {| pp_SchemaVersion := 1; pp_PortfolioKey := "sha256:" +:+ portfolioKey (pd_Profile document);
             pp_Revision := pd_Revision document; pp_OrderDigest := r_OrderDigest reservation;
             pp_ReservationDigest := reservationDigest; pp_AggregateAtRiskAtomic := atRisk;
             pp_AggregatePositionLots := positionLots;
             pp_FinalizedProceedsAtomic := pd_FinalizedProceedsAtomic document |}.

(** ** Validation *)
Definition validatePortfolioProfile (profile : OwnerPortfolioProfile) : result unit :=
  if bool_decide (op_OwnerID profile = ""%string) || negb (validRawAddress (op_OwnerAddress profile))
     || negb (canonicalDigest (op_NetworkDomainHash profile) "sha256:")
     || negb (validRawAddress (op_SourceAgentAccount profile))
     || negb (canonicalDigest (op_CollateralAssetID profile) "sha256:")
     || (op_MaximumAtRiskAtomic profile =? 0) || (op_MaximumPositionLots profile =? 0)
     || (op_MaximumOrderReservations profile =? 0) || (10000 <? op_MaximumOrderReservations profile)
     || (op_MaximumMarkets profile =? 0) || (1000 <? op_MaximumMarkets profile)
  then Err "invalid prediction owner portfolio profile"
  else Ok tt.

Definition validatePortfolioMarketSnapshot (profile : OwnerPortfolioProfile) (marketID codeHash : string)
    (order : PredictionOrderV1) (snapshot : PortfolioMarketSnapshot) : result unit :=
  if negb (ps_QuorumFinalized snapshot)
     || negb (bool_decide (ps_OwnerAddress snapshot = op_OwnerAddress profile))
     || negb (bool_decide (ps_OwnerAddress snapshot = o_OwnerAddress order))
     || negb (bool_decide (ps_MarketID snapshot = marketID))
     || negb (bool_decide (ps_MarketAddress snapshot = o_MarketAddress order))
     || negb (bool_decide (ps_MarketConfigHash snapshot = CellHashString (o_MarketConfigHash order)))
     || negb (bool_decide (ps_ContractCodeHash snapshot = codeHash))
     || (ps_LotPayout snapshot =? 0)
     || (ps_MasterchainSeqno snapshot =? 0)
     || (ps_ObservedAt snapshot =? 0)
     || negb (canonicalDigest (ps_FinalityViewID snapshot) "sha256:")
  then Err "prediction portfolio snapshot is not finalized in the exact market domain"
  else Ok tt.

Definition validatePositionExposure (key : string) (position : PositionExposure) : result unit :=
  if negb (bool_decide (key = portfolioPositionKey (pe_MarketID position) (pe_Outcome position)))
  then Err "prediction position key does not match its identity"
  else if negb (canonicalDigest (pe_MarketID position) "sha256:")
          || negb (validRawAddress (pe_MarketAddress position))
          || negb (canonicalDigest (pe_MarketConfigHash position) "tvm-cell-sha256:")
          || negb (canonicalDigest (pe_ContractCodeHash position) "tvm-cell-sha256:")
  then Err "prediction position market identity is invalid"
  else if xorb (pe_MasterchainSeqno position =? 0) (bool_decide (pe_FinalityViewID position = ""%string))
          || (negb (bool_decide (pe_FinalityViewID position = ""%string))
              && negb (canonicalDigest (pe_FinalityViewID position) "sha256:"))
          || (negb (bool_decide (pe_LastTransactionHash position = ""%string))
              && negb (canonicalDigest (pe_LastTransactionHash position) "sha256:"))
  then Err "prediction position finality identity is invalid"
  else Ok tt.

(** The body of the loop of [validatePortfolioDocument] over the orders. *)
Definition validate_order (digest : string) (reservation : PortfolioOrderReservation) : result unit :=
  if negb (bool_decide (digest = r_OrderDigest reservation)) || negb (canonicalDigest digest "sha256:")
     || bool_decide (r_AgentID reservation = ""%string)
     || negb (canonicalDigest (r_MarketID reservation) "sha256:")
     || negb (validRawAddress (r_MarketAddress reservation))
     || negb (canonicalDigest (r_MarketConfigHash reservation) "tvm-cell-sha256:")
     || negb (canonicalDigest (r_ContractCodeHash reservation) "tvm-cell-sha256:")
     || (r_QuantityLots reservation =? 0) || (r_QuantityLots reservation <? r_FilledLots reservation)
     || (r_ValidUntil reservation =? 0) || (r_LotPayout reservation =? 0)
     || negb (validPortfolioOrderStatus (r_Status reservation))
  then Err "invalid prediction order reservation"
  else if (negb (r_Action reservation =? ActionBuy) && negb (r_Action reservation =? ActionSell))
          || (negb (r_Outcome reservation =? OutcomeYes) && negb (r_Outcome reservation =? OutcomeNo))
          || xorb (r_LastMasterchainSeqno reservation =? 0)
               (bool_decide (r_LastTransactionHash reservation = ""%string))
          || xorb (r_LastMasterchainSeqno reservation =? 0)
               (bool_decide (r_LastFinalityViewID reservation = ""%string))
          || (negb (bool_decide (r_LastTransactionHash reservation = ""%string))
              && negb (canonicalDigest (r_LastTransactionHash reservation) "sha256:"))
          || (negb (bool_decide (r_LastFinalityViewID reservation = ""%string))
              && negb (canonicalDigest (r_LastFinalityViewID reservation) "sha256:"))
  then Err "prediction order reservation has invalid semantic state"
  else
    let remaining := sub64w (r_QuantityLots reservation) (r_FilledLots reservation) in
    let? _ :=
      if r_Action reservation =? ActionBuy then
        let '(maximumPending, valid) :=
          portfolioBuyRisk (r_LotPayout reservation) (r_LimitPriceTick reservation) remaining in
        if negb valid || (maximumPending <? r_PendingCollateralAtomic reservation)
           || negb (r_PendingPositionLots reservation =? 0)
           || negb (r_CumulativeProceedsAtomic reservation =? 0)
        then Err "prediction BUY reservation has invalid risk state"
        else Ok tt
      else if negb (r_PendingCollateralAtomic reservation =? 0)
              || (remaining <? r_PendingPositionLots reservation)
              || negb (r_CumulativeSpentAtomic reservation =? 0)
      then Err "prediction SELL reservation has invalid risk state"
      else Ok tt in
    if isPortfolioOrderTerminal (r_Status reservation)
       && (negb (r_PendingCollateralAtomic reservation =? 0)
           || negb (r_PendingPositionLots reservation =? 0))
    then Err "terminal prediction order retains pending risk"
    else if xorb (bool_decide (r_Status reservation = PortfolioOrderFilled))
                 (r_FilledLots reservation =? r_QuantityLots reservation)
    then Err "prediction filled status conflicts with quantity"
    else Ok tt.

(** The set of market identifiers the document names. *)
Definition document_markets (document : portfolioDocument) : gset string :=
  list_to_set (r_MarketID <$> map_vals (pd_Orders document))
  ∪ list_to_set (pe_MarketID <$> map_vals (pd_Positions document)).

Definition validatePortfolioDocument (document : portfolioDocument) (profile : OwnerPortfolioProfile)
    : result unit :=
  if negb (pd_SchemaVersion document =? 1) || negb (bool_decide (pd_Profile document = profile))
     || (op_MaximumOrderReservations profile <? len32 (pd_Orders document))
  then Err "invalid prediction portfolio document shape"
  else
    let? _ := range_check validate_order (pd_Orders document) in
    let? _ := range_check validatePositionExposure (pd_Positions document) in
    if (op_MaximumMarkets profile <? u32 (N.of_nat (size (document_markets document))))
       || is_err (validatePortfolioTotals document)
    then Err "prediction portfolio document exceeds limits"
    else Ok tt.

(** ** Persistence *)
Definition maximumPortfolioBytes : N := 32 * 1048576.

(** [persist] of a ledger whose document in memory has this profile. *)
Definition persist (e : io portfolioDocument) (profile : OwnerPortfolioProfile)
    (file : file_state portfolioDocument) (next : portfolioDocument)
    : file_state portfolioDocument * result unit :=
  match validatePortfolioDocument next profile with
  | Err m => (file, Err ("refuse to persist invalid prediction owner portfolio: " +:+ m))
  | Ok _ => persist_bounded e maximumPortfolioBytes
              "prediction owner portfolio exceeds its durable bound" next file
  end.

Definition loadOrInitialize (e : io portfolioDocument) (file : file_state portfolioDocument)
    (doc : portfolioDocument) : file_state portfolioDocument * result portfolioDocument :=
  match file with
  | FileAbsent =>
      let '(file', r) := persist e (pd_Profile doc) file doc in
      (file', match r with Ok _ => Ok doc | Err m => Err m end)
  | FileUnreadable => (file, Err "prediction owner portfolio state is unavailable")
  | FileUndecodable => (file, Err "prediction owner portfolio state is corrupt")
  | FileDoc loaded =>
      if is_err (validatePortfolioDocument loaded (pd_Profile doc))
      then (file, Err "prediction owner portfolio state is corrupt")
      else (file, Ok loaded)
  end.

Definition emptyPortfolio (profile : OwnerPortfolioProfile) : portfolioDocument :=
  {| pd_SchemaVersion := 1; pd_Revision := 0; pd_Profile := profile; pd_Orders := ∅;
     pd_Positions := ∅; pd_FinalizedProceedsAtomic := 0 |}.

Definition ensurePrivateDirectory (d : dir_env) : result unit :=
  match de_mkdir d with
  | Err m => Err m
  | Ok _ =>
      if negb (de_lstat d) || negb (de_is_dir d) || de_symlink d || negb (de_perm d =? 448)
      then Err "prediction portfolio path is not an owner-private directory"
      else Ok tt
  end.

(** [filepath.Join] of a clean absolute path and plain names. *)
Definition join_path (root : string) (names : list string) : string :=
  foldl (fun path name => if bool_decide (path = "/"%string) then "/" +:+ name
                          else path +:+ "/" +:+ name) root names.

(** [dirs] and [files] are what the operating system answers and holds per
    path; the returned file state is that of the portfolio's own path. *)
Definition OpenOwnerPortfolioLedger (e : io portfolioDocument) (dirs : string -> dir_env)
    (files : string -> file_state portfolioDocument) (root : string)
    (profile : OwnerPortfolioProfile)
    : file_state portfolioDocument * result OwnerPortfolioLedger :=
  let key := portfolioKey profile in
  let directory := join_path root ["owner-portfolios"%string; String.substring 0 2 key; key] in
  let file := files (join_path directory ["portfolio.json"%string]) in
  if negb (de_abs_clean (dirs root)) || is_err (validatePortfolioProfile profile)
  then (file, Err "prediction owner portfolio configuration is invalid")
  else
    match first_err (ensurePrivateDirectory <$> (dirs <$>
            [root; join_path root ["owner-portfolios"%string];
             join_path root ["owner-portfolios"%string; String.substring 0 2 key]; directory])) with
    | Err m => (file, Err m)
    | Ok _ =>
        match de_lock (dirs directory) with
        | Err m => (file, Err m)
        | Ok _ =>
            let '(file', r) := loadOrInitialize e file (emptyPortfolio profile) in
            (file',
             match r with
             | Err m => Err m
             | Ok doc => Ok {| lg_file := file'; lg_lock := true; lg_doc := doc |}
             end)
        end
    end.

(** ** Operations *)

(** [next := clonePortfolioDocument(doc); next.Revision++] with the given
    maps. *)
Definition next_document (doc : portfolioDocument)
    (orders : gmap string PortfolioOrderReservation) (positions : gmap string PositionExposure)
    (proceeds : N) : portfolioDocument :=
  {| pd_SchemaVersion := pd_SchemaVersion doc; pd_Revision := add64w (pd_Revision doc) 1;
     pd_Profile := pd_Profile doc; pd_Orders := orders; pd_Positions := positions;
     pd_FinalizedProceedsAtomic := proceeds |}.

Definition commit_portfolio (e : io portfolioDocument) (l : OwnerPortfolioLedger)
    (next : portfolioDocument) : OwnerPortfolioLedger * result unit :=
  commit (persist e (pd_Profile (lg_doc l))) l next.

Definition outcome_lots (snapshot : PortfolioMarketSnapshot) (outcome : N) : N :=
  if outcome =? OutcomeNo then ps_NoLots snapshot else ps_YesLots snapshot.

(** Its import of the lots the chain shows beyond the known ones. *)
Definition import_lots (position : PositionExposure) (lots : N) (snapshot : PortfolioMarketSnapshot)
    : result PositionExposure :=
  let delta := sub64w lots (pe_Lots position) in
  if negb (delta =? 0) then
    let '(additional, valid) := multiplyUint64 delta (ps_LotPayout snapshot) in
    if negb valid || (sub64w MaxUint64 additional <? pe_AtRiskAtomic position)
    then Err "prediction imported position risk overflows"
    else Ok (set_position position lots (add64w (pe_AtRiskAtomic position) additional)
               (pe_MasterchainSeqno position) (pe_FinalityViewID position)
               (pe_LastTransactionHash position))
  else Ok position.

Definition reconcilePortfolioPosition (positions : gmap string PositionExposure)
    (snapshot : PortfolioMarketSnapshot) (outcome : N) : result (gmap string PositionExposure) :=
  let key := portfolioPositionKey (ps_MarketID snapshot) outcome in
  let exists_ := bool_decide (is_Some (positions !! key)) in
  let position := default zeroPosition (positions !! key) in
  let lots := outcome_lots snapshot outcome in
  if exists_ && (negb (bool_decide (pe_MarketAddress position = ps_MarketAddress snapshot))
                 || negb (bool_decide (pe_MarketConfigHash position = ps_MarketConfigHash snapshot))
                 || negb (bool_decide (pe_ContractCodeHash position = ps_ContractCodeHash snapshot)))
  then Err "prediction position market identity changed"
  else if exists_ && (ps_MasterchainSeqno snapshot <? pe_MasterchainSeqno position)
  then Err "prediction position snapshot rolls back finalized state"
  else if exists_ && (ps_MasterchainSeqno snapshot =? pe_MasterchainSeqno position)
          && (negb (lots =? pe_Lots position)
              || negb (bool_decide (ps_FinalityViewID snapshot = pe_FinalityViewID position)))
  then Err "prediction position snapshot conflicts at one finalized checkpoint"
  else if exists_ && (lots <? pe_Lots position)
  then Err "prediction position decreased without exact finalized fill/exit evidence"
  else
    let position :=
      if exists_ then position
      else {| pe_MarketID := ps_MarketID snapshot; pe_MarketAddress := ps_MarketAddress snapshot;
              pe_MarketConfigHash := ps_MarketConfigHash snapshot;
              pe_ContractCodeHash := ps_ContractCodeHash snapshot; pe_Outcome := outcome;
              pe_Lots := 0; pe_AtRiskAtomic := 0; pe_MasterchainSeqno := 0;
              pe_FinalityViewID := ""; pe_LastTransactionHash := "" |} in
    let? position := import_lots position lots snapshot in
    Ok (<[key :=
          if pe_MasterchainSeqno position <=? ps_MasterchainSeqno snapshot
          then set_position position (pe_Lots position) (pe_AtRiskAtomic position)
                 (ps_MasterchainSeqno snapshot) (ps_FinalityViewID snapshot)
                 (pe_LastTransactionHash position)
          else position]> positions).

(** The loop of [checkPortfolioReservationCapacity]. *)
Fixpoint capacity_loop (reservation : PortfolioOrderReservation) (markets : gset string)
    (buy sell : N) (orders : list PortfolioOrderReservation) : result (gset string * N * N) :=
  match orders with
  | [] => Ok (markets, buy, sell)
  | prior :: rest =>
      let markets := {[ r_MarketID prior ]} ∪ markets in
      if isPortfolioOrderTerminal (r_Status prior)
         || negb (bool_decide (r_MarketID prior = r_MarketID reservation))
      then capacity_loop reservation markets buy sell rest
      else if r_Action prior =? ActionBuy then
        if sub64w MaxUint64 (r_PendingCollateralAtomic prior) <? buy
        then Err "prediction pending collateral overflows"
        else capacity_loop reservation markets (add64w buy (r_PendingCollateralAtomic prior)) sell rest
      else if r_Outcome prior =? r_Outcome reservation then
        if sub64w MaxUint64 (r_PendingPositionLots prior) <? sell
        then Err "prediction pending position overflows"
        else capacity_loop reservation markets buy (add64w sell (r_PendingPositionLots prior)) rest
      else capacity_loop reservation markets buy sell rest
  end.

Definition checkPortfolioReservationCapacity (document : portfolioDocument)
    (reservation : PortfolioOrderReservation) (snapshot : PortfolioMarketSnapshot) : result unit :=
  let? (markets, buy, sell) :=
    capacity_loop reservation {[ r_MarketID reservation ]} (r_PendingCollateralAtomic reservation)
      (r_PendingPositionLots reservation) (map_vals (pd_Orders document)) in
  if op_MaximumMarkets (pd_Profile document) <? u32 (N.of_nat (size markets))
  then Err "prediction owner portfolio market capacity reached"
  else if (r_Action reservation =? ActionBuy) && (ps_FreeBalance snapshot <? buy)
  then Err "prediction owner has insufficient unreserved market collateral"
  else
    let availablePosition := outcome_lots snapshot (r_Outcome reservation) in
    if (r_Action reservation =? ActionSell) && (availablePosition <? sell)
    then Err "prediction owner has insufficient unreserved market position"
    else
      validatePortfolioTotals
        {| pd_SchemaVersion := pd_SchemaVersion document; pd_Revision := pd_Revision document;
           pd_Profile := pd_Profile document;
           pd_Orders := <[r_OrderDigest reservation := reservation]> (pd_Orders document);
           pd_Positions := pd_Positions document;
           pd_FinalizedProceedsAtomic := pd_FinalizedProceedsAtomic document |}.

Definition with_positions (doc : portfolioDocument) (positions : gmap string PositionExposure)
    : portfolioDocument :=
  {| pd_SchemaVersion := pd_SchemaVersion doc; pd_Revision := pd_Revision doc;
     pd_Profile := pd_Profile doc; pd_Orders := pd_Orders doc; pd_Positions := positions;
     pd_FinalizedProceedsAtomic := pd_FinalizedProceedsAtomic doc |}.

Definition ReserveOrder (e : io portfolioDocument) (l : OwnerPortfolioLedger)
    (ownerID agentID networkDomainHash marketID contractCodeHash : string)
    (order : PredictionOrderV1) (risk : WorstCaseOrderRiskV1) (snapshot : PortfolioMarketSnapshot)
    : OwnerPortfolioLedger * result (PortfolioOrderReservation * PortfolioReservationProofV1) :=
  let doc := lg_doc l in
  if bool_decide (ownerID = ""%string) || bool_decide (agentID = ""%string)
     || negb (canonicalDigest networkDomainHash "sha256:")
     || negb (canonicalDigest marketID "sha256:")
     || negb (canonicalDigest contractCodeHash "tvm-cell-sha256:")
  then (l, Err "prediction portfolio reservation is invalid")
  else if negb (lg_lock l) then (l, Err "prediction owner portfolio is closed")
  else if negb (bool_decide (ownerID = op_OwnerID (pd_Profile doc)))
          || negb (bool_decide (networkDomainHash = op_NetworkDomainHash (pd_Profile doc)))
  then (l, Err "prediction reservation is outside the owner portfolio key")
  else
    match validatePortfolioMarketSnapshot (pd_Profile doc) marketID contractCodeHash order snapshot with
    | Err m => (l, Err m)
    | Ok _ =>
        if match portfolioRisk order (ps_LotPayout snapshot) with
           | Err _ => true
           | Ok expectedRisk => negb (bool_decide (expectedRisk = risk))
           end
        then (l, Err "prediction order risk does not match exact order economics")
        else
          let reservation :=
            reservationFromOrder agentID marketID contractCodeHash order risk snapshot in
          match pd_Orders doc !! wr_OrderDigest risk with
          | Some prior =>
              if negb (sameReservationIdentity prior reservation)
              then (l, Err "prediction order reservation conflicts with durable identity")
              else if isPortfolioOrderTerminal (r_Status prior)
              then (l, Err "terminal prediction order reservation cannot be reactivated")
              else
                (l, let? proof := portfolioReservationProof doc prior in Ok (prior, proof))
          | None =>
              if op_MaximumOrderReservations (pd_Profile doc) <=? len32 (pd_Orders doc)
              then (l, Err "prediction owner portfolio order capacity reached")
              else
                match reconcilePortfolioPosition (pd_Positions doc) snapshot OutcomeYes with
                | Err m => (l, Err m)
                | Ok positions =>
                match reconcilePortfolioPosition positions snapshot OutcomeNo with
                | Err m => (l, Err m)
                | Ok positions =>
                match checkPortfolioReservationCapacity (with_positions doc positions) reservation snapshot with
                | Err m => (l, Err m)
                | Ok _ =>
                    let next := next_document doc (<[wr_OrderDigest risk := reservation]> (pd_Orders doc))
                                  positions (pd_FinalizedProceedsAtomic doc) in
                    match portfolioReservationProof next reservation with
                    | Err m => (l, Err m)
                    | Ok proof =>
                        let '(l', r) := commit_portfolio e l next in
                        (l', let? _ := r in Ok (reservation, proof))
                    end
                end end end
          end
    end.

Definition MarkOrderBroadcastState (e : io portfolioDocument) (l : OwnerPortfolioLedger)
    (orderDigest : string) (state : PortfolioOrderStatus) : OwnerPortfolioLedger * result unit :=
  let doc := lg_doc l in
  if negb (bool_decide (state = PortfolioOrderBroadcasting))
     && negb (bool_decide (state = PortfolioOrderAmbiguous))
  then (l, Err "invalid prediction broadcast risk state")
  else
    match pd_Orders doc !! orderDigest with
    | None => (l, Err "prediction order reservation is unavailable")
    | Some reservation =>
        if negb (lg_lock l) || isPortfolioOrderTerminal (r_Status reservation)
        then (l, Err "prediction order reservation is unavailable")
        else if bool_decide (r_Status reservation = state) then (l, Ok tt)
        else
          let reservation :=
            set_progress reservation (r_FilledLots reservation) (r_PendingCollateralAtomic reservation)
              (r_PendingPositionLots reservation) (r_CumulativeSpentAtomic reservation)
              (r_CumulativeProceedsAtomic reservation) state (r_LastTransactionHash reservation)
              (r_LastFinalityViewID reservation) (r_LastMasterchainSeqno reservation) in
          commit_portfolio e l
            (next_document doc (<[orderDigest := reservation]> (pd_Orders doc)) (pd_Positions doc)
               (pd_FinalizedProceedsAtomic doc))
    end.

(** The two branches of [ApplyFinalizedFill]: the position's lots and risk,
    the reservation's pending amounts and the finalized proceeds after the
    fill. *)
Definition fill_amounts (doc : portfolioDocument) (reservation : PortfolioOrderReservation)
    (position : PositionExposure) (evidence : PortfolioFillEvidence)
    : result (N * N * N * N * N) :=
  let delta := sub64w (fe_CumulativeFilledLots evidence) (r_FilledLots reservation) in
  if r_Action reservation =? ActionBuy then
    let '(maximumSpent, valid) :=
      portfolioBuyRisk (r_LotPayout reservation) (r_LimitPriceTick reservation)
        (fe_CumulativeFilledLots evidence) in
    let spentDelta := sub64w (fe_CumulativeSpentAtomic evidence) (r_CumulativeSpentAtomic reservation) in
    if negb valid || (maximumSpent <? fe_CumulativeSpentAtomic evidence)
       || negb (fe_CumulativeProceedsAtomic evidence =? 0)
       || (sub64w MaxUint64 delta <? pe_Lots position)
       || (sub64w MaxUint64 spentDelta <? pe_AtRiskAtomic position)
    then Err "prediction BUY fill exceeds its reserved limit"
    else
      let '(remainingRisk, valid) :=
        portfolioBuyRisk (r_LotPayout reservation) (r_LimitPriceTick reservation)
          (sub64w (r_QuantityLots reservation) (fe_CumulativeFilledLots evidence)) in
      if negb valid then Err "prediction BUY remaining risk overflows"
      else Ok (add64w (pe_Lots position) delta, add64w (pe_AtRiskAtomic position) spentDelta,
               remainingRisk, r_PendingPositionLots reservation, pd_FinalizedProceedsAtomic doc)
  else if negb (fe_CumulativeSpentAtomic evidence =? 0) || (pe_Lots position <? delta)
  then Err "prediction SELL fill conflicts with realized position"
  else
    let proceedsDelta :=
      sub64w (fe_CumulativeProceedsAtomic evidence) (r_CumulativeProceedsAtomic reservation) in
    if sub64w MaxUint64 proceedsDelta <? pd_FinalizedProceedsAtomic doc
    then Err "prediction finalized SELL proceeds overflow"
    else Ok (sub64w (pe_Lots position) delta,
             remainingPositionRisk (pe_AtRiskAtomic position) (pe_Lots position) delta,
             r_PendingCollateralAtomic reservation,
             sub64w (r_QuantityLots reservation) (fe_CumulativeFilledLots evidence),
             add64w (pd_FinalizedProceedsAtomic doc) proceedsDelta).

Definition ApplyFinalizedFill (e : io portfolioDocument) (l : OwnerPortfolioLedger)
    (evidence : PortfolioFillEvidence) : OwnerPortfolioLedger * result unit :=
  let doc := lg_doc l in
  if negb (fe_QuorumFinalized evidence) || negb (canonicalDigest (fe_OrderDigest evidence) "sha256:")
     || negb (canonicalDigest (fe_TransactionHash evidence) "sha256:")
     || negb (canonicalDigest (fe_FinalityViewID evidence) "sha256:")
     || (fe_MasterchainSeqno evidence =? 0)
  then (l, Err "prediction portfolio fill evidence is not finalized")
  else
    match pd_Orders doc !! fe_OrderDigest evidence with
    | None => (l, Err "prediction fill conflicts with owner portfolio")
    | Some reservation =>
        if negb (lg_lock l) || isPortfolioOrderTerminal (r_Status reservation)
           || (fe_CumulativeFilledLots evidence <? r_FilledLots reservation)
           || (r_QuantityLots reservation <? fe_CumulativeFilledLots evidence)
           || (fe_CumulativeSpentAtomic evidence <? r_CumulativeSpentAtomic reservation)
           || (fe_CumulativeProceedsAtomic evidence <? r_CumulativeProceedsAtomic reservation)
        then (l, Err "prediction fill conflicts with owner portfolio")
        else if fe_CumulativeFilledLots evidence =? r_FilledLots reservation then
          if negb (fe_CumulativeSpentAtomic evidence =? r_CumulativeSpentAtomic reservation)
             || negb (fe_CumulativeProceedsAtomic evidence =? r_CumulativeProceedsAtomic reservation)
             || negb (bool_decide (fe_TransactionHash evidence = r_LastTransactionHash reservation))
             || negb (bool_decide (fe_FinalityViewID evidence = r_LastFinalityViewID reservation))
             || negb (fe_MasterchainSeqno evidence =? r_LastMasterchainSeqno reservation)
          then (l, Err "same prediction fill has conflicting finality evidence")
          else (l, Ok tt)
        else
          let positionKey := portfolioPositionKey (r_MarketID reservation) (r_Outcome reservation) in
          let position := default zeroPosition (pd_Positions doc !! positionKey) in
          if (fe_MasterchainSeqno evidence <? pe_MasterchainSeqno position)
             || (fe_MasterchainSeqno evidence <? r_LastMasterchainSeqno reservation)
          then (l, Err "prediction fill evidence rolls back finalized portfolio state")
          else
            match fill_amounts doc reservation position evidence with
            | Err m => (l, Err m)
            | Ok (lots, atRisk, pendingCollateral, pendingPosition, proceeds) =>
                let position' :=
                  set_position position lots atRisk (fe_MasterchainSeqno evidence)
                    (fe_FinalityViewID evidence) (fe_TransactionHash evidence) in
                let reservation' :=
                  set_progress reservation (fe_CumulativeFilledLots evidence) pendingCollateral
                    pendingPosition (fe_CumulativeSpentAtomic evidence)
                    (fe_CumulativeProceedsAtomic evidence)
                    (if fe_CumulativeFilledLots evidence =? r_QuantityLots reservation
                     then PortfolioOrderFilled else PortfolioOrderPartiallyFilled)
                    (fe_TransactionHash evidence) (fe_FinalityViewID evidence)
                    (fe_MasterchainSeqno evidence) in
                let next :=
                  next_document doc (<[fe_OrderDigest evidence := reservation']> (pd_Orders doc))
                    (<[positionKey := position']> (pd_Positions doc)) proceeds in
                if is_err (validatePortfolioTotals next)
                then (l, Err "prediction fill violates owner-wide portfolio limits")
                else commit_portfolio e l next
            end
    end.

Definition ApplyFinalizedPositionExit (e : io portfolioDocument) (l : OwnerPortfolioLedger)
    (evidence : PortfolioPositionExitEvidence) : OwnerPortfolioLedger * result unit :=
  let doc := lg_doc l in
  if negb (xe_QuorumFinalized evidence) || negb (canonicalDigest (xe_MarketID evidence) "sha256:")
     || negb (validRawAddress (xe_MarketAddress evidence))
     || negb (canonicalDigest (xe_MarketConfigHash evidence) "tvm-cell-sha256:")
     || negb (canonicalDigest (xe_ContractCodeHash evidence) "tvm-cell-sha256:")
     || negb (canonicalDigest (xe_TransactionHash evidence) "sha256:")
     || negb (canonicalDigest (xe_FinalityViewID evidence) "sha256:")
     || (xe_MasterchainSeqno evidence =? 0)
     || (negb (xe_Outcome evidence =? OutcomeYes) && negb (xe_Outcome evidence =? OutcomeNo))
     || negb (validPositionExitReason (xe_Reason evidence))
  then (l, Err "prediction position exit evidence is not finalized")
  else
    let key := portfolioPositionKey (xe_MarketID evidence) (xe_Outcome evidence) in
    match pd_Positions doc !! key with
    | None => (l, Err "prediction position exit conflicts with owner portfolio")
    | Some position =>
        if negb (lg_lock l)
           || negb (bool_decide (pe_MarketAddress position = xe_MarketAddress evidence))
           || negb (bool_decide (pe_MarketConfigHash position = xe_MarketConfigHash evidence))
           || negb (bool_decide (pe_ContractCodeHash position = xe_ContractCodeHash evidence))
           || (pe_Lots position <? xe_RemainingLots evidence)
           || (xe_MasterchainSeqno evidence <? pe_MasterchainSeqno position)
           || (bool_decide (xe_Reason evidence = PortfolioPositionExitClaim)
               && negb (xe_RemainingLots evidence =? 0))
        then (l, Err "prediction position exit conflicts with owner portfolio")
        else if xe_MasterchainSeqno evidence =? pe_MasterchainSeqno position then
          if (xe_RemainingLots evidence =? pe_Lots position)
             && bool_decide (xe_FinalityViewID evidence = pe_FinalityViewID position)
             && bool_decide (xe_TransactionHash evidence = pe_LastTransactionHash position)
          then (l, Ok tt)
          else (l, Err "prediction position exit conflicts at one finalized checkpoint")
        else
          let exited := sub64w (pe_Lots position) (xe_RemainingLots evidence) in
          let position' :=
            set_position position (xe_RemainingLots evidence)
              (remainingPositionRisk (pe_AtRiskAtomic position) (pe_Lots position) exited)
              (xe_MasterchainSeqno evidence) (xe_FinalityViewID evidence)
              (xe_TransactionHash evidence) in
          commit_portfolio e l
            (next_document doc (pd_Orders doc) (<[key := position']> (pd_Positions doc))
               (pd_FinalizedProceedsAtomic doc))
    end.

Definition ConfirmOrderInactive (e : io portfolioDocument) (l : OwnerPortfolioLedger)
    (evidence : PortfolioInactiveEvidence) : OwnerPortfolioLedger * result unit :=
  let doc := lg_doc l in
  if negb (ie_QuorumFinalized evidence) || negb (canonicalDigest (ie_OrderDigest evidence) "sha256:")
     || negb (canonicalDigest (ie_TransactionHash evidence) "sha256:")
     || negb (canonicalDigest (ie_FinalityViewID evidence) "sha256:")
     || (ie_MasterchainSeqno evidence =? 0)
  then (l, Err "prediction inactive-order evidence is not finalized")
  else
    match pd_Orders doc !! ie_OrderDigest evidence with
    | None => (l, Err "prediction order cannot release pending risk")
    | Some reservation =>
        if negb (lg_lock l) || bool_decide (r_Status reservation = PortfolioOrderFilled)
        then (l, Err "prediction order cannot release pending risk")
        else
          match inactiveStatus (ie_Reason evidence) with
          | Err _ => (l, Err "prediction order inactivity is not proven")
          | Ok status =>
              if bool_decide (ie_Reason evidence = PortfolioInactiveExpired)
                 && (ie_ChainTime evidence <? r_ValidUntil reservation)
              then (l, Err "prediction order inactivity is not proven")
              else if isPortfolioOrderTerminal (r_Status reservation) then
                if negb (bool_decide (r_Status reservation = status))
                   || negb (bool_decide (r_LastTransactionHash reservation = ie_TransactionHash evidence))
                   || negb (bool_decide (r_LastFinalityViewID reservation = ie_FinalityViewID evidence))
                   || negb (r_LastMasterchainSeqno reservation =? ie_MasterchainSeqno evidence)
                then (l, Err "terminal prediction order received conflicting evidence")
                else (l, Ok tt)
              else if ie_MasterchainSeqno evidence <? r_LastMasterchainSeqno reservation
              then (l, Err "prediction inactivity evidence rolls back finalized state")
              else
                let reservation' :=
                  set_progress reservation (r_FilledLots reservation) 0 0
                    (r_CumulativeSpentAtomic reservation) (r_CumulativeProceedsAtomic reservation)
                    status (ie_TransactionHash evidence) (ie_FinalityViewID evidence)
                    (ie_MasterchainSeqno evidence) in
                commit_portfolio e l
                  (next_document doc (<[ie_OrderDigest evidence := reservation']> (pd_Orders doc))
                     (pd_Positions doc) (pd_FinalizedProceedsAtomic doc))
          end
    end.

(** [Snapshot]: both listings sorted by their keys. *)
Definition Snapshot (l : OwnerPortfolioLedger)
    : list PortfolioOrderReservation * list PositionExposure :=
  (sort_by r_OrderDigest (map_vals (pd_Orders (lg_doc l))),
   sort_by (fun p => portfolioPositionKey (pe_MarketID p) (pe_Outcome p))
     (map_vals (pd_Positions (lg_doc l)))).

Definition Summary (l : OwnerPortfolioLedger) : OwnerPortfolioSummary :=
  let '(atRisk, lots, valid) := portfolioTotals (lg_doc l) in
  if negb (lg_lock l) || negb valid then zeroSummary
  else {| su_Revision := pd_Revision (lg_doc l); su_AggregateAtRiskAtomic := atRisk;
          su_AggregatePositionLots := lots;
          su_FinalizedProceedsAtomic := pd_FinalizedProceedsAtomic (lg_doc l) |}.

(** ** Specification *)

(** What an order still puts at risk. *)
Definition order_pending (r : PortfolioOrderReservation) : N :=
  if isPortfolioOrderTerminal (r_Status r) then 0 else r_PendingCollateralAtomic r.

(** The owner's aggregate exposure, as exact integers. *)
Definition at_risk (d : portfolioDocument) : N :=
  map_sum pe_AtRiskAtomic (pd_Positions d) + map_sum order_pending (pd_Orders d).

Definition position_lots (d : portfolioDocument) : N := map_sum pe_Lots (pd_Positions d).

(** The collateral [n] lots of an order cost at its limit price. *)
Definition limit_cost (r : PortfolioOrderReservation) (n : N) : N :=
  r_LotPayout r / PriceScale * r_LimitPriceTick r * n.

(** The market an order or position belongs to. *)
Definition same_market (r : PortfolioOrderReservation) (p : PositionExposure) : Prop :=
  pe_MarketAddress p = r_MarketAddress r /\ pe_MarketConfigHash p = r_MarketConfigHash r /\
  pe_ContractCodeHash p = r_ContractCodeHash r.

Record order_inv (positions : gmap string PositionExposure) (r : PortfolioOrderReservation) : Prop := {
  oi_quantity : is_u64 (r_QuantityLots r);
  oi_pending : is_u64 (r_PendingCollateralAtomic r);
  oi_buy : r_Action r = ActionBuy ->
    r_CumulativeSpentAtomic r + r_PendingCollateralAtomic r <= limit_cost r (r_QuantityLots r) /\
    (isPortfolioOrderTerminal (r_Status r) = false ->
     r_PendingCollateralAtomic r = limit_cost r (r_QuantityLots r - r_FilledLots r));
  oi_sell : r_Action r <> ActionBuy -> isPortfolioOrderTerminal (r_Status r) = false ->
    r_PendingPositionLots r = r_QuantityLots r - r_FilledLots r;
  oi_positions : forall outcome, outcome = OutcomeYes \/ outcome = OutcomeNo ->
    exists p, positions !! portfolioPositionKey (r_MarketID r) outcome = Some p /\ same_market r p
}.

Record position_inv (p : PositionExposure) : Prop := {
  pi_lots : is_u64 (pe_Lots p);
  pi_risk : is_u64 (pe_AtRiskAtomic p);
  pi_empty : pe_Lots p = 0 -> pe_AtRiskAtomic p = 0
}.

Record portfolio_ok (profile : OwnerPortfolioProfile) (d : portfolioDocument) : Prop := {
  ok_valid : validatePortfolioDocument d profile = Ok tt;
  ok_size : N.of_nat (size (pd_Orders d)) <= op_MaximumOrderReservations profile;
  ok_markets : N.of_nat (size (document_markets d)) <= op_MaximumMarkets profile;
  ok_orders : map_Forall (fun _ r => order_inv (pd_Positions d) r) (pd_Orders d);
  ok_positions : map_Forall (fun _ p => position_inv p) (pd_Positions d);
  ok_proceeds : pd_FinalizedProceedsAtomic d = map_sum r_CumulativeProceedsAtomic (pd_Orders d);
  ok_proceeds_u64 : is_u64 (pd_FinalizedProceedsAtomic d)
}.

(** An order's history: its identity is fixed, its finalized progress never
    goes back, and a terminal order is frozen. *)
Definition order_le (r r' : PortfolioOrderReservation) : Prop :=
  identity_of r' = identity_of r /\ r_FilledLots r <= r_FilledLots r' /\
  r_CumulativeSpentAtomic r <= r_CumulativeSpentAtomic r' /\
  r_CumulativeProceedsAtomic r <= r_CumulativeProceedsAtomic r' /\
  r_LastMasterchainSeqno r <= r_LastMasterchainSeqno r' /\
  (isPortfolioOrderTerminal (r_Status r) = true -> r' = r).

Definition position_le (p p' : PositionExposure) : Prop :=
  pe_MarketID p' = pe_MarketID p /\ pe_MarketAddress p' = pe_MarketAddress p /\
  pe_MarketConfigHash p' = pe_MarketConfigHash p /\ pe_ContractCodeHash p' = pe_ContractCodeHash p /\
  pe_Outcome p' = pe_Outcome p /\ pe_MasterchainSeqno p <= pe_MasterchainSeqno p'.

#[global] Instance order_le_preorder : PreOrder order_le.
Proof.
  split.
  - intros r. repeat split; try lia.
  - intros r1 r2 r3 (? & ? & ? & ? & ? & Hf1) (? & ? & ? & ? & ? & Hf2).
    repeat split; try lia; [congruence|]. intros Ht. pose proof (Hf1 Ht). subst r2. auto.
Qed.

#[global] Instance position_le_preorder : PreOrder position_le.
Proof.
  split.
  - intros p. repeat split; lia.
  - intros p1 p2 p3 (? & ? & ? & ? & ? & ?) (? & ? & ? & ? & ? & ?). repeat split; [congruence..|lia].
Qed.

Definition portfolio_le (d d' : portfolioDocument) : Prop :=
  map_le order_le (pd_Orders d) (pd_Orders d') /\
  map_le position_le (pd_Positions d) (pd_Positions d').

#[global] Instance portfolio_le_preorder : PreOrder portfolio_le.
Proof.
  split.
  - intros d. split; reflexivity.
  - intros d1 d2 d3 [Ho1 Hp1] [Ho2 Hp2]. split.
    + by apply (transitivity (R := map_le order_le) (y := pd_Orders d2)).
    + by apply (transitivity (R := map_le position_le) (y := pd_Positions d2)).
Qed.

#[global] Instance portfolio_durable : Durable OwnerPortfolioProfile portfolioDocument :=
  {| doc_ok := portfolio_ok; doc_le := portfolio_le |}.

(** ** Arithmetic *)
Lemma multiplyUint64_spec a b :
  multiplyUint64 a b = if a * b <=? MaxUint64 then (a * b, true) else (0, false).
Proof.
  unfold multiplyUint64. destruct (N.eqb_spec b 0) as [->|Hb]; simpl.
  - unfold mul64w. rewrite N.mul_0_r. reflexivity.
  - destruct (N.ltb_spec (MaxUint64 / b) a) as [Hlt|Hge].
    + destruct (N.leb_spec (a * b) MaxUint64) as [Hle|]; [|done]. exfalso.
      assert (a <= MaxUint64 / b); [|lia]. apply N.div_le_lower_bound; [done|lia].
    + assert (a * b <= MaxUint64) as Hle.
      { pose proof (N.Div0.mul_div_le MaxUint64 b). nia. }
      rewrite mul64w_exact by done. destruct (N.leb_spec (a * b) MaxUint64); [done|lia].
Qed.

(** The risk of a BUY order is its exact cost, or rejected. *)
Lemma portfolioBuyRisk_spec lot price quantity v :
  portfolioBuyRisk lot price quantity = (v, true) <->
    0 < lot /\ lot mod PriceScale = 0 /\ 0 < price < PriceScale /\
    lot / PriceScale * price <= MaxUint64 /\
    v = lot / PriceScale * price * quantity /\ v <= MaxUint64.
Proof.
  unfold portfolioBuyRisk.
  destruct (N.eqb_spec lot 0) as [->|Hl]; simpl; [split; [done|lia]|].
  destruct (N.eqb_spec (lot mod PriceScale) 0) as [Hm|Hm]; simpl; [|split; [done|lia]].
  destruct (N.eqb_spec price 0) as [->|Hp]; simpl; [split; [done|lia]|].
  destruct (N.leb_spec PriceScale price) as [Hs|Hs]; simpl; [split; [done|lia]|].
  rewrite multiplyUint64_spec.
  destruct (N.leb_spec (lot / PriceScale * price) MaxUint64) as [Hb|Hb]; simpl; [|split; [done|lia]].
  rewrite multiplyUint64_spec.
  destruct (N.leb_spec (lot / PriceScale * price * quantity) MaxUint64) as [Hq|Hq].
  - split; [intros [= <-]; repeat split; lia|]. by intros (_ & _ & _ & _ & -> & _).
  - split; [done|lia].
Qed.

(** Selling part of a position releases at most its pro-rata share of the
    risk; selling all of it releases everything. *)
Lemma remainingPositionRisk_spec atRisk lots sold :
  is_u64 atRisk ->
  remainingPositionRisk atRisk lots sold =
    if lots <=? sold then 0 else atRisk - atRisk / lots * sold.
Proof.
  intros Hu. unfold remainingPositionRisk. destruct (N.leb_spec lots sold); [done|].
  assert (atRisk / lots * sold <= atRisk) as Hle.
  { pose proof (N.Div0.mul_div_le atRisk lots). nia. }
  unfold is_u64 in Hu. rewrite mul64w_exact by lia. by apply sub64w_exact.
Qed.

Lemma remainingPositionRisk_le atRisk lots sold :
  is_u64 atRisk -> remainingPositionRisk atRisk lots sold <= atRisk.
Proof. intros Hu. rewrite remainingPositionRisk_spec by done. case_match; [apply N.le_0_l|apply N.le_sub_l]. Qed.

(** ** Totals *)
Lemma position_totals_spec a n l :
  is_u64 a -> is_u64 n -> Forall position_inv l ->
  position_totals a n l =
    if (a + sumN (pe_AtRiskAtomic <$> l) <=? MaxUint64) && (n + sumN (pe_Lots <$> l) <=? MaxUint64)
    then Some (a + sumN (pe_AtRiskAtomic <$> l), n + sumN (pe_Lots <$> l)) else None.
Proof.
  intros Ha Hn Hl. revert a n Ha Hn. induction Hl as [|p l [Hlots Hrisk _] Hl IH]; intros a n Ha Hn;
    unfold is_u64 in *.
  - simpl. change (sumN (pe_AtRiskAtomic <$> [])) with 0. change (sumN (pe_Lots <$> [])) with 0.
    rewrite !N.add_0_r. destruct (N.leb_spec a MaxUint64); [|lia]. by destruct (N.leb_spec n MaxUint64); [|lia].
  - rewrite !fmap_cons. cbn [position_totals].
    change (sumN (pe_AtRiskAtomic p :: (pe_AtRiskAtomic <$> l)))
      with (pe_AtRiskAtomic p + sumN (pe_AtRiskAtomic <$> l)).
    change (sumN (pe_Lots p :: (pe_Lots <$> l))) with (pe_Lots p + sumN (pe_Lots <$> l)).
    rewrite !sub64w_exact by lia.
    destruct (N.ltb_spec (MaxUint64 - pe_AtRiskAtomic p) a) as [H1|H1]; simpl.
    { destruct (N.leb_spec (a + (pe_AtRiskAtomic p + sumN (pe_AtRiskAtomic <$> l))) MaxUint64); [lia|done]. }
    destruct (N.ltb_spec (MaxUint64 - pe_Lots p) n) as [H2|H2]; simpl.
    { destruct (N.leb_spec (n + (pe_Lots p + sumN (pe_Lots <$> l))) MaxUint64); [lia|].
      by rewrite andb_false_r. }
    rewrite !add64w_exact by lia. rewrite IH by lia. by rewrite !N.add_assoc.
Qed.

Lemma order_totals_spec a l :
  is_u64 a -> Forall (fun r => is_u64 (r_PendingCollateralAtomic r)) l ->
  order_totals a l =
    if a + sumN (order_pending <$> l) <=? MaxUint64 then Some (a + sumN (order_pending <$> l)) else None.
Proof.
  intros Ha Hl. revert a Ha. induction Hl as [|r l Hr Hl IH]; intros a Ha; unfold is_u64 in *.
  - simpl. change (sumN (order_pending <$> [])) with 0. rewrite N.add_0_r.
    destruct (N.leb_spec a MaxUint64); [done|lia].
  - rewrite fmap_cons. cbn [order_totals].
    change (sumN (order_pending r :: (order_pending <$> l))) with (order_pending r + sumN (order_pending <$> l)).
    destruct (isPortfolioOrderTerminal (r_Status r)) eqn:E.
    + replace (order_pending r) with 0 by (unfold order_pending; by rewrite E). by apply IH.
    + replace (order_pending r) with (r_PendingCollateralAtomic r) by (unfold order_pending; by rewrite E).
      rewrite sub64w_exact by lia.
      destruct (N.ltb_spec (MaxUint64 - r_PendingCollateralAtomic r) a).
      * destruct (N.leb_spec (a + (r_PendingCollateralAtomic r + sumN (order_pending <$> l))) MaxUint64);
          [lia|done].
      * rewrite add64w_exact by lia. rewrite IH by lia. by rewrite N.add_assoc.
Qed.

(** The totals are the exact sums, whatever order the maps are walked in; they
    are refused exactly when they do not fit in 64 bits. *)
Lemma portfolioTotals_spec d :
  map_Forall (fun _ r => is_u64 (r_PendingCollateralAtomic r)) (pd_Orders d) ->
  map_Forall (fun _ p => position_inv p) (pd_Positions d) ->
  portfolioTotals d =
    if (at_risk d <=? MaxUint64) && (position_lots d <=? MaxUint64)
    then (at_risk d, position_lots d, true) else (0, 0, false).
Proof.
  intros Ho Hp. unfold portfolioTotals, at_risk, position_lots, map_sum.
  rewrite position_totals_spec by (done || by apply map_vals_Forall). rewrite !N.add_0_l.
  set (a := sumN (pe_AtRiskAtomic <$> _)). set (n := sumN (pe_Lots <$> _)).
  set (o := sumN (order_pending <$> _)).
  destruct (N.leb_spec a MaxUint64) as [Ha|Ha]; simpl.
  - destruct (N.leb_spec n MaxUint64) as [Hn|Hn]; [|by rewrite andb_false_r].
    rewrite order_totals_spec by (done || by apply map_vals_Forall). fold o.
    by destruct (N.leb_spec (a + o) MaxUint64).
  - destruct (N.leb_spec (a + o) MaxUint64); [lia|done].
Qed.

Lemma validatePortfolioTotals_spec d :
  map_Forall (fun _ r => is_u64 (r_PendingCollateralAtomic r)) (pd_Orders d) ->
  map_Forall (fun _ p => position_inv p) (pd_Positions d) ->
  is_u64 (op_MaximumAtRiskAtomic (pd_Profile d)) -> is_u64 (op_MaximumPositionLots (pd_Profile d)) ->
  validatePortfolioTotals d = Ok tt <->
    at_risk d <= op_MaximumAtRiskAtomic (pd_Profile d) /\
    position_lots d <= op_MaximumPositionLots (pd_Profile d).
Proof.
  intros Ho Hp H1 H2. unfold validatePortfolioTotals, is_u64 in *. rewrite portfolioTotals_spec by done.
  destruct (N.leb_spec (at_risk d) MaxUint64); simpl; [|split; [done|lia]].
  destruct (N.leb_spec (position_lots d) MaxUint64); simpl; [|split; [done|lia]].
  destruct (N.ltb_spec (op_MaximumAtRiskAtomic (pd_Profile d)) (at_risk d)); simpl; [split; [done|lia]|].
  destruct (N.ltb_spec (op_MaximumPositionLots (pd_Profile d)) (position_lots d)); simpl; [split; [done|lia]|].
  done.
Qed.

(** ** Documents and commits *)
Definition profile_bounds (profile : OwnerPortfolioProfile) : Prop :=
  is_u64 (op_MaximumAtRiskAtomic profile) /\ is_u64 (op_MaximumPositionLots profile) /\
  op_MaximumOrderReservations profile <= 10000 /\ op_MaximumMarkets profile <= 1000.

Lemma validatePortfolioDocument_ok d profile :
  validatePortfolioDocument d profile = Ok tt <->
    pd_SchemaVersion d = 1 /\ pd_Profile d = profile /\
    len32 (pd_Orders d) <= op_MaximumOrderReservations profile /\
    map_Forall (fun k r => validate_order k r = Ok tt) (pd_Orders d) /\
    map_Forall (fun k p => validatePositionExposure k p = Ok tt) (pd_Positions d) /\
    u32 (N.of_nat (size (document_markets d))) <= op_MaximumMarkets profile /\
    validatePortfolioTotals d = Ok tt.
Proof.
  unfold validatePortfolioDocument. rewrite <-!range_check_ok.
  destruct (N.eqb_spec (pd_SchemaVersion d) 1); simpl; [|naive_solver].
  case_bool_decide; simpl; [|naive_solver].
  destruct (N.ltb_spec (op_MaximumOrderReservations profile) (len32 (pd_Orders d)));
    [split; [done|intros (_ & _ & ? & _); lia]|].
  destruct (range_check validate_order _) as [[]|]; [|naive_solver].
  destruct (range_check validatePositionExposure _) as [[]|]; [|naive_solver].
  destruct (N.ltb_spec (op_MaximumMarkets profile) (u32 (N.of_nat (size (document_markets d)))));
    [split; [done|intros (_ & _ & _ & _ & _ & ? & _); lia]|].
  unfold is_err. destruct (validatePortfolioTotals d) as [[]|]; naive_solver.
Qed.

Lemma elem_of_document_markets d x :
  x ∈ document_markets d <->
    (exists k r, pd_Orders d !! k = Some r /\ r_MarketID r = x) \/
    (exists k p, pd_Positions d !! k = Some p /\ pe_MarketID p = x).
Proof.
  unfold document_markets. rewrite elem_of_union, !elem_of_list_to_set, !list_elem_of_fmap.
  setoid_rewrite elem_of_map_vals. naive_solver.
Qed.

Lemma portfolio_persist_ok e profile : persist_sound (persist e profile).
Proof.
  intros file next file' r. unfold persist. destruct (validatePortfolioDocument next profile).
  - apply persist_bounded_cases.
  - intros [= <- <-]. split; [auto|done].
Qed.

Lemma ok_profile profile d : portfolio_ok profile d -> pd_Profile d = profile.
Proof. intros [Hv]. by apply validatePortfolioDocument_ok in Hv as (_ & ? & _). Qed.

(** A commit of an invalid document changes nothing; of a valid one it is a
    step of the ledger. *)
Lemma portfolio_commit_outcome profile e l next l' r :
  ledger_ok profile l ->
  (validatePortfolioDocument next profile = Ok tt ->
   portfolio_ok profile next /\ portfolio_le (lg_doc l) next) ->
  commit_portfolio e l next = (l', r) -> outcome profile l l'.
Proof.
  intros [Hd _] Hn Hc. unfold commit_portfolio in Hc. rewrite (ok_profile profile) in Hc by done.
  destruct (validatePortfolioDocument next profile) as [[]|m] eqn:E.
  - destruct (Hn eq_refl). eapply outcome_commit; [apply (portfolio_persist_ok e profile)|done..].
  - unfold commit, persist in Hc. rewrite E in Hc. destruct l. simplify_eq/=. constructor.
Qed.

(** What is left to show for a valid successor document. *)
Lemma portfolio_ok_next profile d next :
  profile_bounds profile -> portfolio_ok profile d ->
  validatePortfolioDocument next profile = Ok tt ->
  (size (pd_Orders next) <= S (size (pd_Orders d)))%nat ->
  (exists m, document_markets next ⊆ {[ m ]} ∪ document_markets d) ->
  map_Forall (fun _ r => order_inv (pd_Positions next) r) (pd_Orders next) ->
  map_Forall (fun _ p => position_inv p) (pd_Positions next) ->
  pd_FinalizedProceedsAtomic next = map_sum r_CumulativeProceedsAtomic (pd_Orders next) ->
  is_u64 (pd_FinalizedProceedsAtomic next) ->
  portfolio_ok profile next.
Proof.
  intros (_ & _ & Hcap & Hmax) Hd Hv Hsize [m Hm] Ho Hp Hpr Hu.
  pose proof (proj1 (validatePortfolioDocument_ok _ _) Hv) as (_ & _ & Hlen & _ & _ & Hms & _).
  split; [done| | |done..].
  - pose proof (ok_size _ _ Hd). unfold len32 in Hlen. rewrite u32_small in Hlen; [done|].
    unfold MaxUint32. lia.
  - pose proof (ok_markets _ _ Hd). rewrite u32_small in Hms; [done|].
    apply subseteq_size in Hm. rewrite size_union_alt, size_singleton in Hm.
    pose proof (subseteq_size (document_markets d ∖ {[m]}) (document_markets d) ltac:(set_solver)).
    unfold MaxUint32. lia.
Qed.

Lemma order_inv_mono positions positions' r :
  map_le position_le positions positions' -> order_inv positions r -> order_inv positions' r.
Proof.
  intros Hle []. split; [done..|]. intros outcome Ho.
  destruct (oi_positions0 outcome Ho) as (p & Hp & Hs). destruct (Hle _ _ Hp) as (p' & Hp' & Hle').
  exists p'. split; [done|]. destruct Hs as (? & ? & ?), Hle' as (_ & ? & ? & ? & _).
  repeat split; congruence.
Qed.

Lemma orders_inv_mono positions positions' (m : gmap string PortfolioOrderReservation) :
  map_le position_le positions positions' ->
  map_Forall (fun _ r => order_inv positions r) m -> map_Forall (fun _ r => order_inv positions' r) m.
Proof. intros Hle Hm k r Hr. eapply order_inv_mono; [done|]. by apply (Hm k). Qed.

(** Replacing one order and its position, both moved forward: the part of the
    invariant that does not depend on amounts. *)
Lemma portfolio_ok_replace profile d next k r r' kp p p' :
  profile_bounds profile -> portfolio_ok profile d ->
  validatePortfolioDocument next profile = Ok tt ->
  pd_Orders d !! k = Some r -> pd_Orders next = <[k := r']> (pd_Orders d) -> order_le r r' ->
  pd_Positions d !! kp = Some p -> pd_Positions next = <[kp := p']> (pd_Positions d) ->
  position_le p p' -> position_inv p' ->
  order_inv (pd_Positions next) r' ->
  pd_FinalizedProceedsAtomic next + r_CumulativeProceedsAtomic r =
    pd_FinalizedProceedsAtomic d + r_CumulativeProceedsAtomic r' ->
  is_u64 (pd_FinalizedProceedsAtomic next) ->
  portfolio_ok profile next /\ portfolio_le d next.
Proof.
  intros Hb Hd Hv Hk Ho Hle Hkp Hp Hple Hpi Hinv Hsum Hu.
  assert (portfolio_le d next) as Hdle.
  { split; [rewrite Ho; apply (map_le_insert order_le)|rewrite Hp; apply (map_le_insert position_le)];
      intros v0 Hv0; [rewrite Hk in Hv0|rewrite Hkp in Hv0]; by injection Hv0 as <-. }
  split; [|done]. eapply portfolio_ok_next; [done|done|done|..].
  - rewrite Ho, map_size_insert_Some by eauto. lia.
  - exists (r_MarketID r). intros x. rewrite elem_of_union, !elem_of_document_markets, Ho, Hp.
    intros [(k' & r0 & Hr0 & <-)|(k' & p0 & Hp0 & <-)]; right.
    + apply lookup_insert_Some in Hr0 as [[-> <-]|[_ Hr0]]; [|left; eauto].
      left. exists k', r. split; [done|]. destruct Hle as [Hid _].
      exact (f_equal r_MarketID (eq_sym Hid)).
    + apply lookup_insert_Some in Hp0 as [[-> <-]|[_ Hp0]]; [|right; eauto].
      right. exists k', p. split; [done|]. destruct Hple as [Hid _]. done.
  - rewrite Ho. apply map_Forall_insert_2; [done|].
    eapply orders_inv_mono; [apply Hdle|apply Hd].
  - rewrite Hp. apply map_Forall_insert_2; [done|apply Hd].
  - rewrite Ho. pose proof (map_sum_insert_existing r_CumulativeProceedsAtomic (pd_Orders d) k r' r Hk).
    pose proof (ok_proceeds _ _ Hd). lia.
  - done.
Qed.

Lemma validate_order_facts k r :
  validate_order k r = Ok tt ->
  k = r_OrderDigest r /\ r_FilledLots r <= r_QuantityLots r /\
  (r_Action r = ActionBuy \/ r_Action r = ActionSell) /\
  (r_Outcome r = OutcomeYes \/ r_Outcome r = OutcomeNo) /\
  (r_Action r = ActionBuy -> r_CumulativeProceedsAtomic r = 0) /\
  (r_Action r <> ActionBuy -> r_PendingCollateralAtomic r = 0 /\ r_CumulativeSpentAtomic r = 0) /\
  (isPortfolioOrderTerminal (r_Status r) = true ->
   r_PendingCollateralAtomic r = 0 /\ r_PendingPositionLots r = 0).
Proof.
  intros Hv. unfold validate_order in Hv. head_case Hv eqn E1; [done|]. head_case Hv eqn E2; [done|].
  cbv zeta in Hv. head_case Hv as [[]|] eqn E3; [|done]. head_case Hv eqn E4; [done|].
  head_case Hv eqn E5; [done|].
  assert ((r_Action r = ActionBuy -> r_CumulativeProceedsAtomic r = 0) /\
    (r_Action r <> ActionBuy -> r_PendingCollateralAtomic r = 0 /\ r_CumulativeSpentAtomic r = 0)).
  { destruct (N.eqb_spec (r_Action r) ActionBuy).
    - destruct (portfolioBuyRisk _ _ _) as [v b]. head_case E3 eqn E6; [done|]. bprop. done.
    - head_case E3 eqn E6; [done|]. bprop. done. }
  bprop. split_and!; [done|done| | |naive_solver|naive_solver|].
  - match goal with H : _ \/ negb (r_Action r =? _) = false |- _ => destruct H; bprop; auto end.
  - match goal with H : _ \/ negb (r_Outcome r =? _) = false |- _ => destruct H; bprop; auto end.
  - intros Ht. rewrite Ht in E4. destruct E4 as [?|E4]; [done|]. by bprop.
Qed.

(** The facts an operation on an existing live order starts from. *)
Lemma live_order profile d k r :
  portfolio_ok profile d -> pd_Orders d !! k = Some r ->
  validate_order k r = Ok tt /\ order_inv (pd_Positions d) r /\
  exists p, pd_Positions d !! portfolioPositionKey (r_MarketID r) (r_Outcome r) = Some p /\
    position_inv p /\ validatePositionExposure (portfolioPositionKey (r_MarketID r) (r_Outcome r)) p = Ok tt.
Proof.
  intros Hd Hk. pose proof (proj1 (validatePortfolioDocument_ok _ _) (ok_valid _ _ Hd))
    as (_ & _ & _ & Hvo & Hvp & _).
  pose proof (Hvo k r Hk) as Hv. pose proof (ok_orders _ _ Hd k r Hk) as Hi.
  split_and!; [done|done|]. apply validate_order_facts in Hv as (_ & _ & _ & Hout & _).
  destruct (oi_positions _ _ Hi _ Hout) as (p & Hp & _). exists p.
  split_and!; [done|exact (ok_positions _ _ Hd _ _ Hp)|exact (Hvp _ _ Hp)].
Qed.

(** Operations that change one order and no position. *)
Lemma progress_ok profile d k r r' :
  profile_bounds profile -> portfolio_ok profile d -> pd_Orders d !! k = Some r ->
  isPortfolioOrderTerminal (r_Status r) = false -> order_le r r' ->
  order_inv (pd_Positions d) r' -> r_CumulativeProceedsAtomic r' = r_CumulativeProceedsAtomic r ->
  let next := next_document d (<[k := r']> (pd_Orders d)) (pd_Positions d) (pd_FinalizedProceedsAtomic d) in
  validatePortfolioDocument next profile = Ok tt -> portfolio_ok profile next /\ portfolio_le d next.
Proof.
  intros Hb Hd Hk Hlive Hle Hinv Hpr next Hv.
  destruct (live_order profile d k r Hd Hk) as (_ & _ & p & Hp & Hpi & _).
  eapply (portfolio_ok_replace profile d next k r r' _ p p);
    [done|done|done|exact Hk|done|done|exact Hp| |reflexivity|done|done|simpl; lia|simpl; apply Hd].
  simpl. by rewrite insert_id.
Qed.

Lemma MarkOrderBroadcastState_outcome profile e l k state l' r :
  profile_bounds profile -> ledger_ok profile l ->
  MarkOrderBroadcastState e l k state = (l', r) -> outcome profile l l'.
Proof.
  intros Hb Hl Hop. unfold MarkOrderBroadcastState in Hop.
  head_case Hop eqn Es; [simplify_eq; constructor|]. cbv zeta in Hop.
  head_case Hop as [res|] eqn Ek; [|simplify_eq; constructor].
  head_case Hop eqn El; [simplify_eq; constructor|].
  head_case Hop eqn Eq; [simplify_eq; constructor|].
  eapply portfolio_commit_outcome; [done| |exact Hop]. intros Hv.
  apply orb_false_iff in El as [_ Hlive].
  assert (isPortfolioOrderTerminal state = false) as Hst.
  { apply andb_false_iff in Es as [Es|Es]; bprop; subst state; reflexivity. }
  destruct Hl as [Hd _]. pose proof (ok_orders _ _ Hd _ _ Ek) as [].
  eapply (progress_ok profile (lg_doc l) k res); [done|done|done|done| | |done|exact Hv].
  - repeat split; simpl; try lia. by rewrite Hlive.
  - split; simpl; [done|done| |by intros; apply oi_sell0|done].
    intros Hbuy. destruct (oi_buy0 Hbuy) as [? Hp]. split; [done|]. intros _. by apply Hp.
Qed.

Lemma inactiveStatus_terminal reason status :
  inactiveStatus reason = Ok status -> isPortfolioOrderTerminal status = true.
Proof. unfold inactiveStatus. intros Hs. repeat case_match; simplify_eq; reflexivity. Qed.

Lemma ConfirmOrderInactive_outcome profile e l ev l' r :
  profile_bounds profile -> ledger_ok profile l ->
  ConfirmOrderInactive e l ev = (l', r) -> outcome profile l l'.
Proof.
  intros Hb Hl Hop. unfold ConfirmOrderInactive in Hop.
  head_case Hop eqn Ev; [simplify_eq; constructor|]. cbv zeta in Hop.
  head_case Hop as [res|] eqn Ek; [|simplify_eq; constructor].
  head_case Hop eqn El; [simplify_eq; constructor|].
  head_case Hop as [status|] eqn Es; [|simplify_eq; constructor].
  head_case Hop eqn Ex; [simplify_eq; constructor|].
  head_case Hop eqn Et; [case_match; simplify_eq; constructor|].
  head_case Hop eqn Eseq; [simplify_eq; constructor|].
  eapply portfolio_commit_outcome; [done| |exact Hop]. intros Hv.
  apply inactiveStatus_terminal in Es. bprop.
  destruct Hl as [Hd _]. pose proof (ok_orders _ _ Hd _ _ Ek) as [].
  eapply (progress_ok profile (lg_doc l) (ie_OrderDigest ev) res); [done|done|done|done| | |done|exact Hv].
  - repeat split; simpl; try lia. by rewrite Et.
  - split; simpl; [done|unfold is_u64; lia| |by rewrite Es|done].
    intros Hbuy. destruct (oi_buy0 Hbuy) as [? Hp]. split; [unfold limit_cost in *; simpl in *; lia|].
    by rewrite Es.
Qed.

(** The evidence of a fill, at Go's widths. *)
Definition fill_typed (ev : PortfolioFillEvidence) : Prop :=
  is_u64 (fe_CumulativeSpentAtomic ev) /\ is_u64 (fe_CumulativeProceedsAtomic ev).

(** The new amounts of [ApplyFinalizedFill], as exact integers. *)
Lemma fill_amounts_buy d r p ev lots atRisk pc pp proceeds :
  fill_typed ev -> is_u64 (r_QuantityLots r) -> r_Action r = ActionBuy ->
  r_FilledLots r < fe_CumulativeFilledLots ev <= r_QuantityLots r ->
  r_CumulativeSpentAtomic r <= fe_CumulativeSpentAtomic ev ->
  fill_amounts d r p ev = Ok (lots, atRisk, pc, pp, proceeds) ->
  lots = pe_Lots p + (fe_CumulativeFilledLots ev - r_FilledLots r) /\
  atRisk = pe_AtRiskAtomic p + (fe_CumulativeSpentAtomic ev - r_CumulativeSpentAtomic r) /\
  pc = limit_cost r (r_QuantityLots r - fe_CumulativeFilledLots ev) /\
  pp = r_PendingPositionLots r /\ proceeds = pd_FinalizedProceedsAtomic d /\
  fe_CumulativeProceedsAtomic ev = 0 /\
  fe_CumulativeSpentAtomic ev <= limit_cost r (fe_CumulativeFilledLots ev) /\
  is_u64 lots /\ is_u64 atRisk /\ is_u64 pc.
Proof.
  intros [Hts Htp] Hq Hbuy Hcum Hspent Hf. unfold fill_amounts in Hf.
  rewrite Hbuy, N.eqb_refl in Hf. unfold is_u64 in *.
  destruct (portfolioBuyRisk _ _ (fe_CumulativeFilledLots ev)) as [ms v1] eqn:E1.
  rewrite (sub64w_exact (fe_CumulativeFilledLots ev)), (sub64w_exact (fe_CumulativeSpentAtomic ev)),
    (sub64w_exact (r_QuantityLots r)) in Hf by lia.
  head_case Hf eqn E2; [done|]. bprop. subst v1.
  apply portfolioBuyRisk_spec in E1 as (_ & _ & _ & _ & -> & _).
  rewrite !sub64w_exact in * by lia.
  destruct (portfolioBuyRisk _ _ (r_QuantityLots r - _)) as [rr v2] eqn:E3.
  head_case Hf eqn E4; [done|]. bprop. subst v2.
  apply portfolioBuyRisk_spec in E3 as (_ & _ & _ & _ & -> & Hrr).
  injection Hf as <- <- <- <- <-. rewrite !add64w_exact by lia.
  repeat split; unfold limit_cost in *; lia.
Qed.

Lemma fill_amounts_sell d r p ev lots atRisk pc pp proceeds :
  fill_typed ev -> is_u64 (r_QuantityLots r) -> r_Action r <> ActionBuy -> position_inv p ->
  is_u64 (pd_FinalizedProceedsAtomic d) ->
  r_FilledLots r < fe_CumulativeFilledLots ev <= r_QuantityLots r ->
  r_CumulativeProceedsAtomic r <= fe_CumulativeProceedsAtomic ev ->
  fill_amounts d r p ev = Ok (lots, atRisk, pc, pp, proceeds) ->
  lots + (fe_CumulativeFilledLots ev - r_FilledLots r) = pe_Lots p /\
  atRisk = remainingPositionRisk (pe_AtRiskAtomic p) (pe_Lots p)
             (fe_CumulativeFilledLots ev - r_FilledLots r) /\
  pc = r_PendingCollateralAtomic r /\
  pp = r_QuantityLots r - fe_CumulativeFilledLots ev /\
  proceeds = pd_FinalizedProceedsAtomic d
             + (fe_CumulativeProceedsAtomic ev - r_CumulativeProceedsAtomic r) /\
  fe_CumulativeSpentAtomic ev = 0 /\ is_u64 proceeds.
Proof.
  intros [Hts Htp] Hq Hsell [Hpl Hpr _] Hd Hcum Hproc Hf. unfold fill_amounts in Hf.
  destruct (N.eqb_spec (r_Action r) ActionBuy); [done|]. unfold is_u64 in *.
  rewrite (sub64w_exact (fe_CumulativeFilledLots ev)), (sub64w_exact (fe_CumulativeProceedsAtomic ev)),
    (sub64w_exact (r_QuantityLots r)) in Hf by lia.
  head_case Hf eqn E2; [done|]. head_case Hf eqn E3; [done|]. bprop.
  rewrite !sub64w_exact in * by lia. rewrite add64w_exact in Hf by lia.
  injection Hf as <- <- <- <- <-. repeat split; lia.
Qed.

Lemma remainingPositionRisk_all a lots sold : lots <= sold -> remainingPositionRisk a lots sold = 0.
Proof. intros Hle. unfold remainingPositionRisk. by rewrite (proj2 (N.leb_le _ _) Hle). Qed.

(** The position after a fill, and the order's invariant after it. *)
Lemma fill_inv d r p ev lots atRisk pc pp proceeds :
  fill_typed ev -> order_inv (pd_Positions d) r -> position_inv p ->
  is_u64 (pd_FinalizedProceedsAtomic d) ->
  r_FilledLots r < fe_CumulativeFilledLots ev <= r_QuantityLots r ->
  r_CumulativeSpentAtomic r <= fe_CumulativeSpentAtomic ev ->
  r_CumulativeProceedsAtomic r <= fe_CumulativeProceedsAtomic ev ->
  (r_Action r = ActionBuy -> r_CumulativeProceedsAtomic r = 0) ->
  fill_amounts d r p ev = Ok (lots, atRisk, pc, pp, proceeds) ->
  (is_u64 lots /\ is_u64 atRisk /\ (lots = 0 -> atRisk = 0)) /\
  proceeds + r_CumulativeProceedsAtomic r = pd_FinalizedProceedsAtomic d + fe_CumulativeProceedsAtomic ev /\
  is_u64 proceeds /\
  forall status tx view seqno,
    order_inv (pd_Positions d)
      (set_progress r (fe_CumulativeFilledLots ev) pc pp (fe_CumulativeSpentAtomic ev)
         (fe_CumulativeProceedsAtomic ev) status tx view seqno).
Proof.
  intros Ht Hi Hpi Hu Hcum Hsp Hpr Hbp Hf. pose proof (oi_quantity _ _ Hi) as Hq.
  destruct (N.eqb_spec (r_Action r) ActionBuy) as [Hbuy|Hsell].
  - apply fill_amounts_buy in Hf as (-> & -> & -> & -> & -> & Hp0 & Hlim & Hul & Hua & Hup); [|done..].
    specialize (Hbp Hbuy). split_and!; [done|done|lia|lia|done|]. intros status tx view seqno.
    split; simpl; [done|done| |done|apply Hi]. intros _. split; [|done].
    unfold limit_cost in *. simpl. nia.
  - apply fill_amounts_sell in Hf as (Hlots & -> & -> & -> & -> & Hs0 & Hup); [|done..].
    destruct Hpi as [Hpl Hpk Hpe]. unfold is_u64 in *.
    split_and!; [lia|transitivity (pe_AtRiskAtomic p); [by apply remainingPositionRisk_le|done]
      |intros Hz; apply remainingPositionRisk_all; lia|lia|done|].
    intros status tx view seqno. split; simpl; [done|apply Hi|done|done|apply Hi].
Qed.

(** The documents a fill installs. *)
Definition filled_position (p : PositionExposure) (ev : PortfolioFillEvidence) (lots atRisk : N)
    : PositionExposure :=
  set_position p lots atRisk (fe_MasterchainSeqno ev) (fe_FinalityViewID ev) (fe_TransactionHash ev).

Definition filled_order (r : PortfolioOrderReservation) (ev : PortfolioFillEvidence) (pc pp : N)
    : PortfolioOrderReservation :=
  set_progress r (fe_CumulativeFilledLots ev) pc pp (fe_CumulativeSpentAtomic ev)
    (fe_CumulativeProceedsAtomic ev)
    (if fe_CumulativeFilledLots ev =? r_QuantityLots r
     then PortfolioOrderFilled else PortfolioOrderPartiallyFilled)
    (fe_TransactionHash ev) (fe_FinalityViewID ev) (fe_MasterchainSeqno ev).

Lemma ApplyFinalizedFill_cases profile e l ev l' rc :
  portfolio_ok profile (lg_doc l) -> ApplyFinalizedFill e l ev = (l', rc) ->
  l' = l \/
  exists r p lots atRisk pc pp proceeds,
    let key := portfolioPositionKey (r_MarketID r) (r_Outcome r) in
    pd_Orders (lg_doc l) !! fe_OrderDigest ev = Some r /\ pd_Positions (lg_doc l) !! key = Some p /\
    isPortfolioOrderTerminal (r_Status r) = false /\
    r_FilledLots r < fe_CumulativeFilledLots ev <= r_QuantityLots r /\
    r_CumulativeSpentAtomic r <= fe_CumulativeSpentAtomic ev /\
    r_CumulativeProceedsAtomic r <= fe_CumulativeProceedsAtomic ev /\
    pe_MasterchainSeqno p <= fe_MasterchainSeqno ev /\
    r_LastMasterchainSeqno r <= fe_MasterchainSeqno ev /\
    fill_amounts (lg_doc l) r p ev = Ok (lots, atRisk, pc, pp, proceeds) /\
    commit_portfolio e l
      (next_document (lg_doc l) (<[fe_OrderDigest ev := filled_order r ev pc pp]> (pd_Orders (lg_doc l)))
        (<[key := filled_position p ev lots atRisk]> (pd_Positions (lg_doc l))) proceeds) = (l', rc).
Proof.
  intros Hd Hop. unfold ApplyFinalizedFill in Hop.
  head_case Hop eqn Ev; [left; congruence|]. cbv zeta in Hop.
  head_case Hop as [res|] eqn Ek; [|left; congruence].
  head_case Hop eqn Eg; [left; congruence|].
  head_case Hop eqn Es; [left; case_match; congruence|].
  destruct (live_order profile _ _ _ Hd Ek) as (_ & _ & p & Hp & _).
  rewrite Hp in Hop. simpl in Hop.
  head_case Hop eqn Er; [left; congruence|].
  head_case Hop as [[[[[lots atRisk] pc] pp] proceeds]|] eqn Ea; [|left; congruence].
  head_case Hop eqn Et; [left; congruence|]. bprop.
  right. exists res, p, lots, atRisk, pc, pp, proceeds. split_and!; try done. lia.
Qed.

Lemma ApplyFinalizedFill_outcome profile e l ev l' rc :
  profile_bounds profile -> fill_typed ev -> ledger_ok profile l ->
  ApplyFinalizedFill e l ev = (l', rc) -> outcome profile l l'.
Proof.
  intros Hb Ht Hl Hop.
  destruct (ApplyFinalizedFill_cases _ _ _ _ _ _ (proj1 Hl) Hop)
    as [->|(r & p & lots & atRisk & pc & pp & proceeds & Hk & Hp & Hlive & Hcum & Hsp & Hpr & Hs1 & Hs2 & Ha & Hc)];
    [constructor|].
  eapply portfolio_commit_outcome; [done| |exact Hc]. intros Hv. destruct Hl as [Hd _].
  destruct (live_order profile _ _ _ Hd Hk) as (Hvo & Hi & p' & Hp' & Hpi & _).
  rewrite Hp in Hp'. injection Hp' as <-.
  apply validate_order_facts in Hvo as (_ & _ & _ & _ & Hbp & _).
  destruct (fill_inv _ _ _ _ _ _ _ _ _ Ht Hi Hpi (ok_proceeds_u64 _ _ Hd) Hcum Hsp Hpr Hbp Ha)
    as ((? & ? & ?) & Hsum & Hu & Hinv).
  assert (position_le p (filled_position p ev lots atRisk)) as Hple by (repeat split; simpl; lia).
  eapply (portfolio_ok_replace profile (lg_doc l) _ (fe_OrderDigest ev) r _ _ p);
    [done|done|exact Hv|done|reflexivity| |exact Hp|reflexivity|exact Hple|by split| |exact Hsum|done].
  - repeat split; simpl; try lia. congruence.
  - simpl. eapply order_inv_mono; [|apply Hinv].
    apply (map_le_insert position_le). intros p0 Hp0. rewrite Hp in Hp0. by injection Hp0 as <-.
Qed.

Lemma ApplyFinalizedPositionExit_outcome profile e l ev l' r :
  profile_bounds profile -> ledger_ok profile l ->
  ApplyFinalizedPositionExit e l ev = (l', r) -> outcome profile l l'.
Proof.
  intros Hb Hl Hop. unfold ApplyFinalizedPositionExit in Hop.
  head_case Hop eqn Ev; [simplify_eq; constructor|]. cbv zeta in Hop.
  head_case Hop as [p|] eqn Ep; [|simplify_eq; constructor].
  head_case Hop eqn Eg; [simplify_eq; constructor|].
  head_case Hop eqn Es; [case_match; simplify_eq; constructor|].
  eapply portfolio_commit_outcome; [done| |exact Hop]. intros Hv. destruct Hl as [Hd _].
  clear Hop. bprop. pose proof (ok_positions _ _ Hd _ _ Ep) as [Hpl Hpr _].
  set (p' := set_position _ _ _ _ _ _) in *.
  assert (position_le p p') as Hple by (repeat split; simpl; lia).
  assert (map_le position_le (pd_Positions (lg_doc l)) (<[portfolioPositionKey (xe_MarketID ev) (xe_Outcome ev) := p']>
    (pd_Positions (lg_doc l)))) as Hmle.
  { apply (map_le_insert position_le). intros p0 Hp0. rewrite Ep in Hp0. by injection Hp0 as <-. }
  split; [|split; [reflexivity|exact Hmle]].
  eapply portfolio_ok_next; [done|exact Hd|done|simpl; lia| | | |apply Hd|apply Hd].
  - exists (pe_MarketID p). intros x. rewrite elem_of_union, !elem_of_document_markets. simpl.
    intros [?|(k' & p0 & Hp0 & <-)]; [auto|]. right; right.
    apply lookup_insert_Some in Hp0 as [[<- <-]|[_ Hp0]]; [by exists (portfolioPositionKey (xe_MarketID ev) (xe_Outcome ev)), p|eauto].
  - simpl. eapply orders_inv_mono; [exact Hmle|apply Hd].
  - simpl. apply map_Forall_insert_2; [|apply Hd]. unfold is_u64 in *.
    split; simpl; unfold is_u64 in *.
    + lia.
    + transitivity (pe_AtRiskAtomic p); [by apply remainingPositionRisk_le|done].
    + intros Hz. apply remainingPositionRisk_all. rewrite sub64w_exact; lia.
Qed.

(** The snapshot, at Go's widths. *)
Definition snapshot_typed (s : PortfolioMarketSnapshot) : Prop :=
  is_u64 (ps_LotPayout s) /\ is_u64 (ps_FreeBalance s) /\ is_u64 (ps_YesLots s) /\ is_u64 (ps_NoLots s).

Lemma outcome_lots_typed s outcome : snapshot_typed s -> is_u64 (outcome_lots s outcome).
Proof. intros (_ & _ & ? & ?). unfold outcome_lots. by case_match. Qed.

Lemma import_lots_ok p lots s q :
  pe_Lots p <= lots -> is_u64 lots -> is_u64 (pe_AtRiskAtomic p) ->
  import_lots p lots s = Ok q ->
  q = set_position p lots (pe_AtRiskAtomic p + (lots - pe_Lots p) * ps_LotPayout s)
        (pe_MasterchainSeqno p) (pe_FinalityViewID p) (pe_LastTransactionHash p) /\
  is_u64 (pe_AtRiskAtomic q).
Proof.
  unfold import_lots, is_u64. intros Hle Hu Hr Hq. rewrite sub64w_exact in Hq by done.
  destruct (N.eqb_spec (lots - pe_Lots p) 0) as [Hz|Hz]; simpl in Hq.
  - injection Hq as <-. split; [|done]. rewrite Hz, N.mul_0_l, N.add_0_r.
    replace lots with (pe_Lots p) by lia. by destruct p.
  - rewrite multiplyUint64_spec in Hq.
    destruct (N.leb_spec ((lots - pe_Lots p) * ps_LotPayout s) MaxUint64); [|done].
    rewrite sub64w_exact in Hq by lia. simpl in Hq.
    destruct (N.ltb_spec (MaxUint64 - (lots - pe_Lots p) * ps_LotPayout s) (pe_AtRiskAtomic p)); [done|].
    rewrite add64w_exact in Hq by lia. injection Hq as <-. split; [done|simpl; lia].
Qed.

(** Importing a finalized snapshot sets the position's lots to the chain's and
    charges the imported lots at their full payout. *)
Lemma reconcile_ok positions s outcome positions' :
  snapshot_typed s -> map_Forall (fun _ p => position_inv p) positions ->
  reconcilePortfolioPosition positions s outcome = Ok positions' ->
  let key := portfolioPositionKey (ps_MarketID s) outcome in
  let old := default zeroPosition (positions !! key) in
  exists p',
    positions' = <[key := p']> positions /\ position_inv p' /\
    (forall p, positions !! key = Some p -> position_le p p') /\
    (positions !! key = None -> pe_MarketID p' = ps_MarketID s) /\
    pe_MarketAddress p' = ps_MarketAddress s /\ pe_MarketConfigHash p' = ps_MarketConfigHash s /\
    pe_ContractCodeHash p' = ps_ContractCodeHash s /\ pe_Lots p' = outcome_lots s outcome /\
    pe_Lots old <= pe_Lots p' /\
    pe_AtRiskAtomic p' = pe_AtRiskAtomic old + (pe_Lots p' - pe_Lots old) * ps_LotPayout s.
Proof.
  intros Hs Hpos Hr key old. pose proof (outcome_lots_typed s outcome Hs) as Hlots.
  unfold reconcilePortfolioPosition in Hr. fold key in Hr. cbv zeta in Hr. fold old in Hr.
  set (fresh := {| pe_MarketID := ps_MarketID s |}) in Hr.
  set (start := if bool_decide (is_Some (positions !! key)) then old else fresh) in Hr.
  assert (position_inv start /\ pe_Lots start = pe_Lots old /\ pe_AtRiskAtomic start = pe_AtRiskAtomic old)
    as (Hsi & Hsl & Hsr).
  { unfold start, old. destruct (positions !! key) as [p|] eqn:E; simpl; [split; [by apply (Hpos key)|done]|].
    split; [|done]. by split; simpl; unfold is_u64. }
  head_case Hr eqn E1; [done|]. head_case Hr eqn E2; [done|]. head_case Hr eqn E3; [done|].
  head_case Hr eqn E4; [done|].
  assert (pe_Lots start <= outcome_lots s outcome) as Hle.
  { rewrite Hsl. unfold old in *. destruct (positions !! key); simpl in *; [by bprop|lia]. }
  destruct Hsi as [Hil Hir Hie]. unfold is_u64 in *.
  head_case Hr as [q|] eqn E5; [|done]. injection Hr as <-.
  apply import_lots_ok in E5 as [Hqe Hqr]; [|done..].
  eexists. split; [done|].
  assert (pe_MasterchainSeqno q <= ps_MasterchainSeqno s) as Hseq.
  { subst q. simpl. unfold start, old in *. destruct (positions !! key); simpl in *; [by bprop|lia]. }
  rewrite (proj2 (N.leb_le _ _) Hseq). subst q. simpl in *.
  rewrite Hsr, Hsl in *. split_and!; [split; simpl; unfold is_u64|..]; try done.
  - intros Hz. assert (pe_Lots old = 0) as Hz' by lia. rewrite (Hie Hz'). lia.
  - intros p Hp. unfold start, old in *. rewrite Hp in *. simpl in *. repeat split. done.
  - intros Hn. unfold start. by rewrite Hn.
  - unfold start, old in *. destruct (positions !! key); simpl in *; [|done]. by bprop.
  - unfold start, old in *. destruct (positions !! key); simpl in *; [|done]. by bprop.
  - unfold start, old in *. destruct (positions !! key); simpl in *; [|done]. by bprop.
Qed.

(** The document a fresh reservation installs. *)
Definition reserved_document (d : portfolioDocument) (reservation : PortfolioOrderReservation)
    (positions : gmap string PositionExposure) : portfolioDocument :=
  next_document d (<[r_OrderDigest reservation := reservation]> (pd_Orders d)) positions
    (pd_FinalizedProceedsAtomic d).

Lemma ReserveOrder_cases e l owner agent network market code order risk s l' r :
  ReserveOrder e l owner agent network market code order risk s = (l', r) ->
  let reservation := reservationFromOrder agent market code order risk s in
  (l' = l /\ (is_err r = true \/ exists prior proof,
     pd_Orders (lg_doc l) !! wr_OrderDigest risk = Some prior /\
     identity_of prior = identity_of reservation /\ isPortfolioOrderTerminal (r_Status prior) = false /\
     portfolioReservationProof (lg_doc l) prior = Ok proof /\ r = Ok (prior, proof))) \/
  exists positions1 positions proof rc,
    lg_lock l = true /\
    validatePortfolioMarketSnapshot (pd_Profile (lg_doc l)) market code order s = Ok tt /\
    portfolioRisk order (ps_LotPayout s) = Ok risk /\
    pd_Orders (lg_doc l) !! wr_OrderDigest risk = None /\
    reconcilePortfolioPosition (pd_Positions (lg_doc l)) s OutcomeYes = Ok positions1 /\
    reconcilePortfolioPosition positions1 s OutcomeNo = Ok positions /\
    checkPortfolioReservationCapacity (with_positions (lg_doc l) positions) reservation s = Ok tt /\
    portfolioReservationProof (reserved_document (lg_doc l) reservation positions) reservation = Ok proof /\
    commit_portfolio e l (reserved_document (lg_doc l) reservation positions) = (l', rc) /\
    r = (let? _ := rc in Ok (reservation, proof)).
Proof.
  intros Hop reservation. unfold ReserveOrder in Hop. cbv zeta in Hop. fold reservation in Hop.
  head_case Hop eqn E1; [left; simplify_eq; auto|]. head_case Hop eqn E2; [left; simplify_eq; auto|].
  head_case Hop eqn E3; [left; simplify_eq; auto|]. head_case Hop as [[]|] eqn E4; [|left; simplify_eq; auto].
  destruct (portfolioRisk order (ps_LotPayout s)) as [risk0|] eqn:Erisk; [|left; simplify_eq; auto].
  head_case Hop eqn E5; [left; simplify_eq; auto|]. apply negb_false_iff, bool_decide_eq_true in E5. subst risk0.
  head_case Hop as [prior|] eqn E6.
  { left. head_case Hop eqn F1; [simplify_eq; auto|]. head_case Hop eqn F2; [simplify_eq; auto|].
    destruct (portfolioReservationProof (lg_doc l) prior) as [proof|m] eqn:F3; simplify_eq; [|auto].
    split; [done|]. right. exists prior, proof. apply negb_false_iff, bool_decide_eq_true in F1. done. }
  head_case Hop eqn E7; [left; simplify_eq; auto|].
  head_case Hop as [positions1|] eqn E8; [|left; simplify_eq; auto].
  head_case Hop as [positions|] eqn E9; [|left; simplify_eq; auto].
  head_case Hop as [[]|] eqn E10; [|left; simplify_eq; auto].
  head_case Hop as [proof|] eqn E11; [|left; simplify_eq; auto].
  destruct (commit_portfolio _ _ _) as [l2 rc] eqn:Ec in Hop.
  injection Hop as <- <-. right. exists positions1, positions, proof, rc. apply negb_false_iff in E2.
  split_and!; done.
Qed.

(** Both reconciliations together. *)
Lemma reconcile_both positions s positions1 positions2 :
  snapshot_typed s -> map_Forall (fun _ p => position_inv p) positions ->
  reconcilePortfolioPosition positions s OutcomeYes = Ok positions1 ->
  reconcilePortfolioPosition positions1 s OutcomeNo = Ok positions2 ->
  map_le position_le positions positions2 /\
  map_Forall (fun _ p => position_inv p) positions2 /\
  (forall k p, positions2 !! k = Some p -> pe_MarketID p = ps_MarketID s \/
     exists p0, positions !! k = Some p0 /\ pe_MarketID p0 = pe_MarketID p) /\
  (forall outcome, outcome = OutcomeYes \/ outcome = OutcomeNo ->
   exists p, positions2 !! portfolioPositionKey (ps_MarketID s) outcome = Some p /\
     pe_MarketAddress p = ps_MarketAddress s /\ pe_MarketConfigHash p = ps_MarketConfigHash s /\
     pe_ContractCodeHash p = ps_ContractCodeHash s).
Proof.
  intros Hs Hpos H1 H2.
  destruct (reconcile_ok _ _ _ _ Hs Hpos H1) as (p1 & -> & Hi1 & Hle1 & Hm1 & Ha1 & Hc1 & Hk1 & _).
  assert (map_Forall (fun _ p => position_inv p)
    (<[portfolioPositionKey (ps_MarketID s) OutcomeYes := p1]> positions)) as Hpos1
    by (by apply map_Forall_insert_2).
  destruct (reconcile_ok _ _ _ _ Hs Hpos1 H2) as (p2 & -> & Hi2 & Hle2 & Hm2 & Ha2 & Hc2 & Hk2 & _).
  assert (forall (k : string) p m, position_inv p -> (forall q, m !! k = Some q -> position_le q p) ->
    map_le position_le m (<[k := p]> m)) as Hins by (intros; by apply (map_le_insert position_le)).
  set (kY := portfolioPositionKey (ps_MarketID s) OutcomeYes) in *.
  set (kN := portfolioPositionKey (ps_MarketID s) OutcomeNo) in *.
  split_and!.
  - apply (transitivity (R := map_le position_le) (y := <[kY := p1]> positions)); by apply Hins.
  - by apply map_Forall_insert_2.
  - assert (forall k p p' (m : gmap string PositionExposure),
      (m !! k = None -> pe_MarketID p = ps_MarketID s) ->
      (forall q, m !! k = Some q -> position_le q p) -> <[k := p]> m !! k = Some p' ->
      pe_MarketID p' = ps_MarketID s \/ exists p0, m !! k = Some p0 /\ pe_MarketID p0 = pe_MarketID p') as Hid.
    { intros k p p' m Hn Hq. rewrite lookup_insert_eq. intros [= <-].
      destruct (m !! k) as [p0|]; [right; exists p0; split; [done|]; by destruct (Hq p0 eq_refl) as [-> _]|auto]. }
    intros k p Hp.
    assert (pe_MarketID p = ps_MarketID s \/
      exists p0, <[kY := p1]> positions !! k = Some p0 /\ pe_MarketID p0 = pe_MarketID p) as [?|(q & Hq & <-)].
    { destruct (decide (k = kN)) as [->|Hne]; [by apply (Hid kN p2 p)|].
      rewrite lookup_insert_ne in Hp by done. eauto. }
    { auto. }
    destruct (decide (k = kY)) as [->|Hne]; [by apply (Hid kY p1 q)|].
    rewrite lookup_insert_ne in Hq by done. eauto.
  - intros outcome Ho. destruct (decide (kN = portfolioPositionKey (ps_MarketID s) outcome)) as [<-|Hne].
    + exists p2. rewrite lookup_insert_eq. done.
    + exists p1. destruct Ho as [->| ->]; [|done]. fold kY. rewrite lookup_insert_ne by done.
      by rewrite lookup_insert_eq.
Qed.

Lemma portfolioRisk_ok order lot risk :
  portfolioRisk order lot = Ok risk ->
  wr_PositionDebit risk = (if o_Action order =? ActionBuy then 0 else o_QuantityLots order) /\
  (o_Action order = ActionBuy ->
   portfolioBuyRisk lot (o_LimitPriceTick order) (o_QuantityLots order) = (wr_CollateralDebit risk, true)) /\
  (o_Action order <> ActionBuy -> wr_CollateralDebit risk = 0).
Proof.
  unfold portfolioRisk. destruct (BuildPredictionOrderCell order); [|done].
  destruct (PredictionOrderDigest _); [|done]. destruct (N.eqb_spec (o_Action order) ActionBuy).
  - destruct (portfolioBuyRisk _ _ _) as [v b]. destruct b; [|done]. intros [= <-]. done.
  - intros [= <-]. done.
Qed.

Lemma reserved_ok profile d agent market code order risk s positions1 positions :
  profile_bounds profile -> portfolio_ok profile d -> order_typed order -> snapshot_typed s ->
  let reservation := reservationFromOrder agent market code order risk s in
  let next := reserved_document d reservation positions in
  validatePortfolioMarketSnapshot (pd_Profile d) market code order s = Ok tt ->
  portfolioRisk order (ps_LotPayout s) = Ok risk ->
  pd_Orders d !! wr_OrderDigest risk = None ->
  reconcilePortfolioPosition (pd_Positions d) s OutcomeYes = Ok positions1 ->
  reconcilePortfolioPosition positions1 s OutcomeNo = Ok positions ->
  validatePortfolioDocument next profile = Ok tt ->
  portfolio_ok profile next /\ portfolio_le d next.
Proof.
  intros Hb Hd [Hto _] Hts reservation next Hsnap Hrisk Hfresh H1 H2 Hv.
  destruct (reconcile_both _ _ _ _ Hts (ok_positions _ _ Hd) H1 H2) as (Hple & Hpi & Hpm & Hpo).
  apply portfolioRisk_ok in Hrisk as (Hpd & Hbuy & Hsell).
  unfold validatePortfolioMarketSnapshot in Hsnap. head_case Hsnap eqn Es; [done|]. clear Hsnap. bprop.
  assert (order_inv positions reservation) as Hinv.
  { split; simpl; [done| | | |].
    - destruct (decide (o_Action order = ActionBuy)) as [Ha|Ha].
      + by apply Hbuy, portfolioBuyRisk_spec in Ha as (_ & _ & _ & _ & _ & ?).
      + rewrite Hsell by done. done.
    - intros Ha. apply Hbuy, portfolioBuyRisk_spec in Ha as (_ & _ & _ & _ & -> & _).
      unfold limit_cost. simpl. rewrite N.sub_0_r. split; [lia|done].
    - intros Ha _. rewrite Hpd, N.sub_0_r. by destruct (N.eqb_spec (o_Action order) ActionBuy).
    - intros outcome Ho. destruct (Hpo outcome Ho) as (p & Hp & ? & ? & ?). exists p.
      split; [by replace market with (ps_MarketID s)|]. repeat split; simpl; congruence. }
  split; [|split; [apply (map_le_insert order_le); intros r0 Hr0; simpl in Hr0; congruence|done]].
  eapply portfolio_ok_next; [done|exact Hd|done| | | |done| |apply Hd].
  - simpl. rewrite map_size_insert_None by done. lia.
  - exists market. intros x. rewrite elem_of_union, !elem_of_document_markets, elem_of_singleton. simpl.
    intros [(k & r & Hr & <-)|(k & p & Hp & <-)].
    + apply lookup_insert_Some in Hr as [[_ <-]|[_ Hr]]; [by left|right; left; eauto].
    + destruct (Hpm k p Hp) as [->|(p0 & Hp0 & <-)]; [by left|right; right; eauto].
  - simpl. apply map_Forall_insert_2; [done|]. eapply orders_inv_mono; [done|apply Hd].
  - simpl. rewrite map_sum_insert_fresh by done. simpl. rewrite N.add_0_l. apply Hd.
Qed.

Lemma ReserveOrder_outcome profile e l owner agent network market code order risk s l' r :
  profile_bounds profile -> order_typed order -> snapshot_typed s -> ledger_ok profile l ->
  ReserveOrder e l owner agent network market code order risk s = (l', r) -> outcome profile l l'.
Proof.
  intros Hb Hto Hts Hl Hop.
  apply ReserveOrder_cases in Hop as [[-> _]|(p1 & p2 & proof & rc & _ & Hs & Hr & Hf & H1 & H2 & _ & _ & Hc & _)];
    [constructor|].
  eapply portfolio_commit_outcome; [done| |exact Hc]. intros Hv. destruct Hl as [Hd _].
  by eapply reserved_ok.
Qed.

(** ** Runs *)
Definition portfolio_path (root : string) (profile : OwnerPortfolioProfile) : string :=
  let key := portfolioKey profile in
  join_path root ["owner-portfolios"%string; String.substring 0 2 key; key; "portfolio.json"%string].

(** Everything that can happen to a portfolio ledger. *)
Inductive step (profile : OwnerPortfolioProfile) (l l' : OwnerPortfolioLedger) : Prop :=
| step_reserve e owner agent network market code order risk s r :
    order_typed order -> snapshot_typed s ->
    ReserveOrder e l owner agent network market code order risk s = (l', r) -> step profile l l'
| step_mark e k state r : MarkOrderBroadcastState e l k state = (l', r) -> step profile l l'
| step_fill e ev r : fill_typed ev -> ApplyFinalizedFill e l ev = (l', r) -> step profile l l'
| step_exit e ev r : ApplyFinalizedPositionExit e l ev = (l', r) -> step profile l l'
| step_inactive e ev r : ConfirmOrderInactive e l ev = (l', r) -> step profile l l'
| step_close release r : Close release l = (l', r) -> step profile l l'
| step_restart e dirs files root file' :
    files (portfolio_path root profile) = lg_file l ->
    OpenOwnerPortfolioLedger e dirs files root profile = (file', Ok l') -> step profile l l'.

(** A file this ledger may be opened on: none yet, or one it wrote. *)
Definition file_ours (profile : OwnerPortfolioProfile) (file : file_state portfolioDocument) : Prop :=
  match file with FileDoc d => portfolio_ok profile d | _ => True end.

Definition profile_typed (profile : OwnerPortfolioProfile) : Prop :=
  is_u64 (op_MaximumAtRiskAtomic profile) /\ is_u64 (op_MaximumPositionLots profile).

Lemma join_path_app root names name :
  join_path (join_path root names) [name] = join_path root (names ++ [name]).
Proof. unfold join_path. by rewrite foldl_app. Qed.

Lemma profile_typed_bounds profile :
  profile_typed profile -> validatePortfolioProfile profile = Ok tt -> profile_bounds profile.
Proof.
  intros [? ?] Hv. unfold validatePortfolioProfile in Hv. head_case Hv eqn E; [done|]. bprop. done.
Qed.

Lemma emptyPortfolio_ok profile :
  validatePortfolioDocument (emptyPortfolio profile) profile = Ok tt ->
  portfolio_ok profile (emptyPortfolio profile).
Proof.
  intros Hv. split; simpl; [done|rewrite map_size_empty; lia| |apply map_Forall_empty|apply map_Forall_empty
    |by rewrite map_sum_empty|unfold is_u64; lia].
  assert (document_markets (emptyPortfolio profile) = ∅) as ->; [|rewrite size_empty; lia].
  unfold document_markets, map_vals. simpl. rewrite !map_to_list_empty. set_solver.
Qed.

(** What a successful open yields. *)
Lemma portfolio_open_ok e dirs files root profile file' l :
  profile_typed profile -> file_ours profile (files (portfolio_path root profile)) ->
  OpenOwnerPortfolioLedger e dirs files root profile = (file', Ok l) ->
  profile_bounds profile /\ portfolio_ok profile (lg_doc l) /\ l = reopened (lg_doc l) /\
  (forall d, files (portfolio_path root profile) = FileDoc d -> lg_doc l = d).
Proof.
  intros Ht Hfile Hop. unfold OpenOwnerPortfolioLedger in Hop. rewrite join_path_app in Hop.
  change (["owner-portfolios"%string; String.substring 0 2 (portfolioKey profile); portfolioKey profile]
    ++ ["portfolio.json"%string]) with ["owner-portfolios"%string;
    String.substring 0 2 (portfolioKey profile); portfolioKey profile; "portfolio.json"%string] in Hop.
  fold (portfolio_path root profile) in Hop. cbv zeta in Hop.
  head_case Hop eqn Ev; [done|]. apply orb_false_iff in Ev as [_ Ev].
  assert (profile_bounds profile) as Hb.
  { apply profile_typed_bounds; [done|]. unfold is_err in Ev.
    by destruct (validatePortfolioProfile profile) as [[]|]. }
  head_case Hop eqn Ed; [|done]. head_case Hop eqn Elock; [|done].
  destruct (loadOrInitialize _ _ _) as [f [doc|]] eqn:El; [|done]. injection Hop as <- <-. simpl.
  destruct (files (portfolio_path root profile)) as [| | |d] eqn:Ef; [|done|done|]; simpl in El.
  - destruct (persist e profile FileAbsent (emptyPortfolio profile)) as [f' [[]|]] eqn:Ep; [|done].
    injection El as <- <-. pose proof (portfolio_persist_ok e profile _ _ _ _ Ep) as [_ Hf]. rewrite Hf by done.
    split_and!; [done| |done|done]. apply emptyPortfolio_ok. unfold persist in Ep.
    by destruct (validatePortfolioDocument (emptyPortfolio profile) profile) as [[]|].
  - case_match; [done|]. injection El as <- <-. split_and!; [done|done|done|by intros ? [= ->]].
Qed.

Lemma portfolio_step_outcome profile l l' :
  profile_bounds profile -> ledger_ok profile l -> step profile l l' -> outcome profile l l'.
Proof.
  intros Hb Hl Hs. destruct Hs as [e owner agent network market code order risk s r Hto Hts Hop|e k state r Hop
    |e ev r Ht Hop|e ev r Hop|e ev r Hop|release r Hop|e dirs files root file' Hf Hop].
  - by eapply ReserveOrder_outcome.
  - by eapply MarkOrderBroadcastState_outcome.
  - by eapply ApplyFinalizedFill_outcome.
  - by eapply ApplyFinalizedPositionExit_outcome.
  - by eapply ConfirmOrderInactive_outcome.
  - by eapply outcome_close.
  - destruct Hl as (Hd & d & Hfd & Hdok & Hle). rewrite Hfd in Hf.
    apply portfolio_open_ok in Hop as (_ & _ & Heq & Hdoc); [|by destruct Hb as (? & ? & _)|by rewrite Hf].
    rewrite Heq, (Hdoc d Hf). by apply outcome_restart.
Qed.

Lemma portfolio_steps_ok profile l l' :
  profile_bounds profile -> rtc (step profile) l l' -> ledger_ok profile l ->
  ledger_ok profile l' /\ portfolio_le (lg_doc l) (lg_doc l').
Proof.
  intros Hb Hr Hl. exact (outcomes_ok (D := portfolioDocument) profile (step profile) l l'
    (fun l1 l2 => portfolio_step_outcome profile l1 l2 Hb) Hr Hl).
Qed.

(** A ledger reached from one opened on its own file. *)
Definition reachable (profile : OwnerPortfolioProfile) (l : OwnerPortfolioLedger) : Prop :=
  exists e dirs files root file' l0,
    profile_typed profile /\ file_ours profile (files (portfolio_path root profile)) /\
    OpenOwnerPortfolioLedger e dirs files root profile = (file', Ok l0) /\ rtc (step profile) l0 l.

Lemma reachable_ok profile l : reachable profile l -> profile_bounds profile /\ ledger_ok profile l.
Proof.
  intros (e & dirs & files & root & file' & l0 & Ht & Hf & Hop & Hr).
  apply portfolio_open_ok in Hop as (Hb & Hd & Hl & _); [|done|done].
  split; [done|]. apply (portfolio_steps_ok profile l0 l); [done|done|]. rewrite Hl. by apply reopened_ok.
Qed.

Lemma ok_totals profile d :
  profile_bounds profile -> portfolio_ok profile d ->
  at_risk d <= op_MaximumAtRiskAtomic profile /\ position_lots d <= op_MaximumPositionLots profile /\
  portfolioTotals d = (at_risk d, position_lots d, true).
Proof.
  intros (H1 & H2 & _) Hd. pose proof (ok_profile _ _ Hd) as Hp.
  pose proof (proj1 (validatePortfolioDocument_ok _ _) (ok_valid _ _ Hd)) as (_ & _ & _ & _ & _ & _ & Ht).
  assert (map_Forall (fun _ r => is_u64 (r_PendingCollateralAtomic r)) (pd_Orders d)) as Ho.
  { intros k r Hr. exact (oi_pending _ _ (ok_orders _ _ Hd k r Hr)). }
  rewrite <-Hp in H1, H2. apply validatePortfolioTotals_spec in Ht as [Ha Hl];
    [|done|apply Hd|done|done]. rewrite Hp in *.
  split_and!; [done|done|]. rewrite portfolioTotals_spec by (done || apply Hd). unfold is_u64 in *.
  destruct (N.leb_spec (at_risk d) MaxUint64); [|lia].
  by destruct (N.leb_spec (position_lots d) MaxUint64); [|lia].
Qed.

(** What the live orders of one market still hold: collateral of its BUY
    orders, lots of one outcome of its SELL orders. *)
Definition live_buy (market : string) (r : PortfolioOrderReservation) : N :=
  if isPortfolioOrderTerminal (r_Status r) || negb (bool_decide (r_MarketID r = market)) then 0
  else if r_Action r =? ActionBuy then r_PendingCollateralAtomic r else 0.

Definition live_sell (market : string) (outcome : N) (r : PortfolioOrderReservation) : N :=
  if isPortfolioOrderTerminal (r_Status r) || negb (bool_decide (r_MarketID r = market)) then 0
  else if r_Action r =? ActionBuy then 0
  else if r_Outcome r =? outcome then r_PendingPositionLots r else 0.

Lemma capacity_loop_ok res markets buy sell l markets' buy' sell' :
  is_u64 buy -> is_u64 sell ->
  Forall (fun r => is_u64 (r_PendingCollateralAtomic r) /\ is_u64 (r_PendingPositionLots r)) l ->
  capacity_loop res markets buy sell l = Ok (markets', buy', sell') ->
  buy' = buy + sumN (live_buy (r_MarketID res) <$> l) /\
  sell' = sell + sumN (live_sell (r_MarketID res) (r_Outcome res) <$> l).
Proof.
  intros Hb Hs Hl. revert markets buy sell Hb Hs.
  induction Hl as [|r l [Hrc Hrp] Hl IH]; intros markets buy sell Hb Hs Hc; cbn [capacity_loop] in Hc.
  - injection Hc as <- <- <-. cbn. lia.
  - rewrite !fmap_cons. unfold sumN in *. cbn [foldr]. unfold live_buy at 1, live_sell at 1. cbv zeta in Hc.
    unfold is_u64 in *.
    destruct (isPortfolioOrderTerminal (r_Status r) || _) eqn:Et; [apply IH in Hc; [lia|done..]|].
    destruct (r_Action r =? ActionBuy).
    + rewrite sub64w_exact in Hc by lia. destruct (N.ltb_spec (MaxUint64 - r_PendingCollateralAtomic r) buy); [done|].
      rewrite add64w_exact in Hc by lia. apply IH in Hc; [lia|lia|done].
    + destruct (r_Outcome r =? r_Outcome res); [|apply IH in Hc; [lia|done..]].
      rewrite sub64w_exact in Hc by lia. destruct (N.ltb_spec (MaxUint64 - r_PendingPositionLots r) sell); [done|].
      rewrite add64w_exact in Hc by lia. apply IH in Hc; [lia|done|lia].
Qed.

(** A fresh reservation passed the funding checks of its market. *)
Lemma capacity_funded profile d positions res s :
  portfolio_ok profile d -> is_u64 (r_PendingCollateralAtomic res) -> is_u64 (r_PendingPositionLots res) ->
  checkPortfolioReservationCapacity (with_positions d positions) res s = Ok tt ->
  (r_Action res = ActionBuy ->
   r_PendingCollateralAtomic res + map_sum (live_buy (r_MarketID res)) (pd_Orders d) <= ps_FreeBalance s) /\
  (r_Action res = ActionSell ->
   r_PendingPositionLots res + map_sum (live_sell (r_MarketID res) (r_Outcome res)) (pd_Orders d)
     <= outcome_lots s (r_Outcome res)).
Proof.
  intros Hd Hc Hp Hcap. unfold checkPortfolioReservationCapacity in Hcap.
  head_case Hcap as [[[markets buy] sell]|] eqn E; [|done]. apply capacity_loop_ok in E as [-> ->]; [|done|done|].
  - head_case Hcap eqn E1; [done|]. head_case Hcap eqn E2; [done|]. cbv zeta in Hcap.
    head_case Hcap eqn E3; [done|]. unfold map_sum in *. simpl in *. split; intros Ha; rewrite Ha in *.
    + rewrite N.eqb_refl in E2. simpl in E2. by bprop.
    + rewrite N.eqb_refl in E3. simpl in E3. by bprop.
  - apply map_vals_Forall. simpl. intros k r Hk. destruct (live_order _ _ _ _ Hd Hk) as (Hv & Hi & _).
    destruct Hi as [Hq Hpc _ Hse _]. split; [done|].
    unfold validate_order in Hv. head_case Hv eqn E1; [done|]. head_case Hv eqn E2; [done|]. cbv zeta in Hv.
    bprop. unfold is_u64 in *. rewrite sub64w_exact in Hv by lia. head_case Hv as [[]|] eqn E3; [|done].
    destruct (r_Action r =? ActionBuy); [destruct (portfolioBuyRisk _ _ _)|];
      (head_case E3 eqn E4; [done|]); bprop; lia.
Qed.

(** Replacing one order and one position moves the aggregate exposure by the
    difference of what they carry. *)
Lemma at_risk_replace d k r r' kp p p' proceeds :
  pd_Orders d !! k = Some r -> pd_Positions d !! kp = Some p ->
  at_risk (next_document d (<[k := r']> (pd_Orders d)) (<[kp := p']> (pd_Positions d)) proceeds)
    + order_pending r + pe_AtRiskAtomic p
  = at_risk d + order_pending r' + pe_AtRiskAtomic p'.
Proof.
  intros Hk Hp. unfold at_risk. simpl.
  pose proof (map_sum_insert_existing order_pending _ k r' r Hk).
  pose proof (map_sum_insert_existing pe_AtRiskAtomic _ kp p' p Hp). lia.
Qed.

Lemma commit_portfolio_ok e l next l' :
  commit_portfolio e l next = (l', Ok tt) ->
  lg_doc l' = next /\ lg_file l' = FileDoc next /\ lg_lock l' = lg_lock l /\
  validatePortfolioDocument next (pd_Profile (lg_doc l)) = Ok tt.
Proof.
  intros Hc. pose proof (portfolio_persist_ok e (pd_Profile (lg_doc l))) as Hp.
  destruct (commit_cases _ _ _ _ _ Hp Hc) as [? [(_ & ? & ?)|[? _]]]; [|done]. split_and!; [done..|].
  unfold commit_portfolio, commit, persist in Hc.
  destruct (validatePortfolioDocument next (pd_Profile (lg_doc l))) as [[]|]; [done|]. done.
Qed.

Lemma reservation_proof_ok profile d res proof :
  profile_bounds profile -> portfolio_ok profile d -> portfolioReservationProof d res = Ok proof ->
  pp_Revision proof = pd_Revision d /\ pp_OrderDigest proof = r_OrderDigest res /\
  pp_AggregateAtRiskAtomic proof = at_risk d /\ pp_AggregatePositionLots proof = position_lots d.
Proof.
  intros Hb Hd Hp. unfold portfolioReservationProof in Hp. head_case Hp eqn E1; [|done].
  destruct (ok_totals _ _ Hb Hd) as (_ & _ & Ht). rewrite Ht in Hp. by injection Hp as <-.
Qed.

(** Any successful reservation leaves the order live, with the identity it
    was asked for, and returns the exact totals of the document. *)
Lemma ReserveOrder_live profile e l owner agent network market code order risk s l' res proof :
  profile_bounds profile -> order_typed order -> snapshot_typed s -> ledger_ok profile l ->
  ReserveOrder e l owner agent network market code order risk s = (l', Ok (res, proof)) ->
  pd_Orders (lg_doc l') !! wr_OrderDigest risk = Some res /\
  isPortfolioOrderTerminal (r_Status res) = false /\
  identity_of res = identity_of (reservationFromOrder agent market code order risk s) /\
  pp_Revision proof = pd_Revision (lg_doc l') /\ pp_AggregateAtRiskAtomic proof = at_risk (lg_doc l') /\
  pp_AggregatePositionLots proof = position_lots (lg_doc l').
Proof.
  intros Hb Hto Hts Hl Hop.
  pose proof (outcome_ok _ _ _ Hl (ReserveOrder_outcome _ _ _ _ _ _ _ _ _ _ _ _ _ Hb Hto Hts Hl Hop))
    as [[Hd' _] _].
  apply ReserveOrder_cases in Hop as [[-> [?|(prior & proof0 & Hk & Hid & Hlive & Hp & [= -> ->])]]
    |(p1 & p2 & proof0 & [[]|m] & _ & _ & _ & _ & _ & _ & _ & Hp & Hc & Heq)]; [done| | |done].
  - apply (reservation_proof_ok profile) in Hp as (? & _ & ? & ?); done.
  - injection Heq as -> <-. apply commit_portfolio_ok in Hc as (Hdoc & _). rewrite Hdoc in *.
    apply (reservation_proof_ok profile) in Hp as (? & _ & ? & ?); [|done|done].
    split_and!; [apply lookup_insert_eq|done..].
Qed.

(** ** Theorems *)

(** C1: in every reachable state the owner's aggregate exposure (the risk of
    all positions plus the pending collateral of all live orders of all
    agents), its position lots, its reservations and its markets stay within
    the profile, as exact integers; and [Summary] reports those exact
    totals. *)
Theorem portfolio_limits profile l :
  reachable profile l ->
  let d := lg_doc l in
  at_risk d <= op_MaximumAtRiskAtomic profile /\
  position_lots d <= op_MaximumPositionLots profile /\
  N.of_nat (size (pd_Orders d)) <= op_MaximumOrderReservations profile /\
  N.of_nat (size (document_markets d)) <= op_MaximumMarkets profile /\
  (lg_lock l = true ->
   Summary l = {| su_Revision := pd_Revision d; su_AggregateAtRiskAtomic := at_risk d;
                  su_AggregatePositionLots := position_lots d;
                  su_FinalizedProceedsAtomic := pd_FinalizedProceedsAtomic d |}).
Proof.
  intros Hr. apply reachable_ok in Hr as [Hb [Hd _]].
  destruct (ok_totals _ _ Hb Hd) as (Ha & Hl & Ht).
  split_and!; [done|done|apply Hd|apply Hd|]. intros Hlock. unfold Summary. by rewrite Ht, Hlock.
Qed.

(** no order ever costs more than the owner approved: what a BUY order has
    spent plus what it may still spend never exceeds its quantity at its limit
    price; a live order keeps exactly its unfilled remainder reserved; an
    ended order reserves nothing; and the finalized proceeds are exactly the
    sum of what the orders realized. *)
Theorem portfolio_spend_cap profile l k r :
  reachable profile l -> pd_Orders (lg_doc l) !! k = Some r ->
  (r_Action r = ActionBuy ->
   r_CumulativeSpentAtomic r + r_PendingCollateralAtomic r <= limit_cost r (r_QuantityLots r)) /\
  (isPortfolioOrderTerminal (r_Status r) = false ->
   if decide (r_Action r = ActionBuy)
   then r_PendingCollateralAtomic r = limit_cost r (r_QuantityLots r - r_FilledLots r)
   else r_PendingPositionLots r = r_QuantityLots r - r_FilledLots r) /\
  (isPortfolioOrderTerminal (r_Status r) = true ->
   r_PendingCollateralAtomic r = 0 /\ r_PendingPositionLots r = 0) /\
  pd_FinalizedProceedsAtomic (lg_doc l) =
    map_sum r_CumulativeProceedsAtomic (pd_Orders (lg_doc l)).
Proof.
  intros Hr Hk. apply reachable_ok in Hr as [_ [Hd _]].
  destruct (live_order _ _ _ _ Hd Hk) as (Hv & Hi & _).
  apply validate_order_facts in Hv as (_ & _ & _ & _ & _ & _ & Hterm).
  split_and!; [intros Hb; by apply Hi| |done|apply Hd].
  intros Hlive. case_decide; [by apply Hi|by apply Hi].
Qed.

(** histories only move forward, across operations, failed writes and
    restarts: an order keeps its identity, its finalized fills, spending,
    proceeds and checkpoint never go back, a terminal order never changes
    again, and a position keeps its market and its checkpoint never goes
    back. *)
Theorem portfolio_history_forward profile l l' :
  reachable profile l -> rtc (step profile) l l' -> portfolio_le (lg_doc l) (lg_doc l').
Proof. intros Hr Hs. apply reachable_ok in Hr as [Hb Hl]. by apply (portfolio_steps_ok profile). Qed.

(** a portfolio can always be reopened: what an interrupted or successful
    write left in the file passes every check of [validatePortfolioDocument],
    and is not behind what was in memory. *)
Theorem portfolio_restart_recovers profile l e dirs files root :
  reachable profile l -> files (portfolio_path root profile) = lg_file l ->
  validatePortfolioProfile profile = Ok tt ->
  (forall path, dirs path = dir_good) ->
  exists d,
    OpenOwnerPortfolioLedger e dirs files root profile = (lg_file l, Ok (reopened d)) /\
    lg_file l = FileDoc d /\ portfolio_le (lg_doc l) d.
Proof.
  intros Hr Hf Hv Hdirs. apply reachable_ok in Hr as [_ (_ & d & Hd & Hok & Hle)].
  exists d. split_and!; [|done|done]. unfold OpenOwnerPortfolioLedger. cbv zeta. rewrite join_path_app.
  cbn [app]. unfold portfolio_path in Hf. cbv zeta in Hf. rewrite Hf, Hd.
  cbn [fmap list_fmap]. rewrite !Hdirs. unfold is_err. rewrite Hv. simpl.
  unfold is_err. by rewrite (ok_valid _ _ Hok).
Qed.

(** a fresh reservation that succeeds is durable and worst case: the order
    is stored live with its whole quantity at its limit price (BUY) or its
    whole quantity in lots (SELL) pending; all live orders of that market
    together are covered by the free balance or lots the finalized snapshot
    showed; and the proof handed to the signer carries the revision and the
    exact totals of the stored document. *)
Theorem portfolio_reserve_exact `{!PredictionProtocolLaws} profile e l owner agent network market code order risk s l' res proof :
  reachable profile l -> order_typed order -> snapshot_typed s ->
  pd_Orders (lg_doc l) !! wr_OrderDigest risk = None ->
  ReserveOrder e l owner agent network market code order risk s = (l', Ok (res, proof)) ->
  let d := lg_doc l' in
  lg_file l' = FileDoc d /\ pd_Orders d = <[wr_OrderDigest risk := res]> (pd_Orders (lg_doc l)) /\
  order_pending res = (if o_Action order =? ActionBuy then limit_cost res (o_QuantityLots order) else 0) /\
  (o_Action order = ActionBuy ->
   map_sum (live_buy market) (pd_Orders d) <= ps_FreeBalance s) /\
  (o_Action order = ActionSell ->
   map_sum (live_sell market (o_Outcome order)) (pd_Orders d) <= outcome_lots s (o_Outcome order)) /\
  pp_Revision proof = pd_Revision d /\ pp_OrderDigest proof = wr_OrderDigest risk /\
  pp_AggregateAtRiskAtomic proof = at_risk d /\ pp_AggregatePositionLots proof = position_lots d.
Proof.
  intros Hr Hto Hts Hfresh Hop. apply reachable_ok in Hr as [Hb Hl].
  pose proof (outcome_ok _ _ _ Hl (ReserveOrder_outcome _ _ _ _ _ _ _ _ _ _ _ _ _ Hb Hto Hts Hl Hop))
    as [[Hd' _] _].
  pose proof (proj1 Hl) as Hd.
  apply ReserveOrder_cases in Hop as [[_ [?|(x & ? & Hx & _)]]
    |(p1 & p2 & proof0 & [[]|m] & _ & Hs & Hrisk & _ & H1 & H2 & Hcap & Hproof & Hc & Heq)];
    [done|congruence| |done].
  injection Heq as -> <-. apply commit_portfolio_ok in Hc as (Hdoc & Hfile & _ & _). rewrite Hdoc in *.
  set (res := reservationFromOrder _ _ _ _ _ _) in *.
  pose proof (ok_orders _ _ Hd' (wr_OrderDigest risk) res (lookup_insert_eq _ _ _)) as Hi.
  apply portfolioRisk_ok in Hrisk as (Hpd & Hbuy & Hsell).
  destruct (capacity_funded profile _ _ _ _ Hd (oi_pending _ _ Hi)
    ltac:(simpl; rewrite Hpd; case_match; [unfold is_u64; lia|apply Hto]) Hcap) as [Hfb Hfs].
  apply (reservation_proof_ok profile) in Hproof; [|done|done].
  split_and!; [done|done| | | |apply Hproof..].
  - unfold order_pending. simpl. destruct (N.eqb_spec (o_Action order) ActionBuy) as [Ha|Ha]; [|by apply Hsell].
    by apply Hbuy, portfolioBuyRisk_spec in Ha as (_ & _ & _ & _ & -> & _).
  - intros Ha. simpl. rewrite map_sum_insert_fresh by done. unfold live_buy at 1. simpl.
    rewrite bool_decide_true by done. simpl. rewrite Ha, N.eqb_refl. by apply Hfb.
  - intros Ha. simpl. rewrite map_sum_insert_fresh by done. unfold live_sell at 1. simpl.
    rewrite bool_decide_true by done. simpl. rewrite N.eqb_refl.
    destruct (N.eqb_spec (o_Action order) ActionBuy); [|by apply Hfs].
    destruct actions_distinct. congruence.
Qed.

(** a finalized fill never raises the owner's aggregate exposure when it
    respects the order's limit price (for a SELL, always): the collateral it
    moves into the position was already reserved. *)
Theorem portfolio_fill_risk profile e l ev l' r :
  reachable profile l -> fill_typed ev ->
  pd_Orders (lg_doc l) !! fe_OrderDigest ev = Some r ->
  (r_Action r = ActionBuy ->
   fe_CumulativeSpentAtomic ev - r_CumulativeSpentAtomic r
     <= limit_cost r (fe_CumulativeFilledLots ev - r_FilledLots r)) ->
  ApplyFinalizedFill e l ev = (l', Ok tt) ->
  at_risk (lg_doc l') <= at_risk (lg_doc l).
Proof.
  intros Hr Ht Hk Hprice Hop. apply reachable_ok in Hr as [_ [Hd _]].
  destruct (ApplyFinalizedFill_cases _ _ _ _ _ _ Hd Hop) as [->|(r' & p & lots & atRisk & pc & pp & proceeds
    & Hk' & Hp & Hlive & Hcum & Hsp & Hpr & _ & _ & Ha & Hc)]; [done|].
  rewrite Hk in Hk'. injection Hk' as <-. apply commit_portfolio_ok in Hc as (-> & _).
  destruct (live_order _ _ _ _ Hd Hk) as (Hv & Hi & p' & Hp' & Hpi & _).
  rewrite Hp in Hp'. injection Hp' as <-. apply validate_order_facts in Hv as (_ & _ & _ & _ & _ & Hsc & _).
  pose proof (at_risk_replace (lg_doc l) _ _ (filled_order r ev pc pp) _ _ (filled_position p ev lots atRisk)
    proceeds Hk Hp) as Hsum.
  assert (order_pending (filled_order r ev pc pp) <= pc) as Hpend.
  { unfold order_pending. case_match; simpl; lia. }
  assert (order_pending r = r_PendingCollateralAtomic r) as Hpr' by (unfold order_pending; by rewrite Hlive).
  rewrite Hpr' in Hsum. simpl in Hsum. destruct (decide (r_Action r = ActionBuy)) as [Hbuy|Hsell].
  - apply fill_amounts_buy in Ha as (_ & -> & -> & _); [|done|apply Hi|done..].
    destruct (oi_buy _ _ Hi Hbuy) as [_ Hpc]. rewrite (Hpc Hlive) in Hsum. specialize (Hprice Hbuy).
    assert (limit_cost r (r_QuantityLots r - r_FilledLots r) =
      limit_cost r (r_QuantityLots r - fe_CumulativeFilledLots ev)
      + limit_cost r (fe_CumulativeFilledLots ev - r_FilledLots r)) as Hsplit.
    { unfold limit_cost. rewrite <-N.mul_add_distr_l. f_equal. lia. }
    lia.
  - apply fill_amounts_sell in Ha as (_ & -> & -> & _); [|done|apply Hi|done|done|apply Hd|done..].
    destruct (Hsc Hsell) as [Hz _]. pose proof (remainingPositionRisk_le (pe_AtRiskAtomic p) (pe_Lots p)
      (fe_CumulativeFilledLots ev - r_FilledLots r) (pi_risk _ Hpi)). lia.
Qed.

(** an order's reservation is released only by quorum-final evidence: an
    expiry only once chain time reached the order's own deadline; the release
    frees exactly the pending collateral, and nothing else of the owner's
    exposure changes. *)
Theorem portfolio_inactive_releases profile e l ev l' r :
  reachable profile l -> pd_Orders (lg_doc l) !! ie_OrderDigest ev = Some r ->
  isPortfolioOrderTerminal (r_Status r) = false ->
  ConfirmOrderInactive e l ev = (l', Ok tt) ->
  ie_QuorumFinalized ev = true /\ r_LastMasterchainSeqno r <= ie_MasterchainSeqno ev /\
  (ie_Reason ev = PortfolioInactiveExpired -> r_ValidUntil r <= ie_ChainTime ev) /\
  (exists r', pd_Orders (lg_doc l') = <[ie_OrderDigest ev := r']> (pd_Orders (lg_doc l)) /\
     isPortfolioOrderTerminal (r_Status r') = true /\ r_FilledLots r' = r_FilledLots r /\
     inactiveStatus (ie_Reason ev) = Ok (r_Status r')) /\
  pd_Positions (lg_doc l') = pd_Positions (lg_doc l) /\
  at_risk (lg_doc l') + r_PendingCollateralAtomic r = at_risk (lg_doc l).
Proof.
  intros Hr Hk Hlive Hop. unfold ConfirmOrderInactive in Hop.
  head_case Hop eqn Ev; [congruence|]. cbv zeta in Hop. rewrite Hk in Hop.
  head_case Hop eqn El; [congruence|]. head_case Hop as [status|] eqn Es; [|congruence].
  head_case Hop eqn Ex; [congruence|]. rewrite Hlive in Hop. head_case Hop eqn Eseq; [congruence|].
  apply commit_portfolio_ok in Hop as (-> & _). pose proof (inactiveStatus_terminal _ _ Es) as Hterm. bprop.
  split_and!; [done|done| |eexists; split_and!; [reflexivity|done|done|done]|done|].
  - intros Hexp. destruct Ex as [Ex|Ex]; bprop; [done|done].
  - unfold at_risk. simpl.
    match goal with |- context [<[_ := ?r']> _] =>
      pose proof (map_sum_insert_existing order_pending _ _ r' r Hk) as Hsum;
      assert (order_pending r' = 0) as Hz by (unfold order_pending; simpl; by rewrite Hterm) end.
    assert (order_pending r = r_PendingCollateralAtomic r) as Hp by (unfold order_pending; by rewrite Hlive). lia.
Qed.

(** a position exit is conservative: the risk that stays is at least the
    remaining lots' pro-rata share of the old risk (rounding dust stays at
    risk), never more than before, and none once nothing remains;
    a claim always exits completely. *)
Theorem portfolio_exit_conservative profile e l ev l' p :
  reachable profile l ->
  let key := portfolioPositionKey (xe_MarketID ev) (xe_Outcome ev) in
  pd_Positions (lg_doc l) !! key = Some p -> pe_MasterchainSeqno p < xe_MasterchainSeqno ev ->
  ApplyFinalizedPositionExit e l ev = (l', Ok tt) ->
  exists p', pd_Positions (lg_doc l') = <[key := p']> (pd_Positions (lg_doc l)) /\
    pe_Lots p' = xe_RemainingLots ev /\ pe_Lots p' <= pe_Lots p /\
    pe_AtRiskAtomic p * pe_Lots p' <= pe_AtRiskAtomic p' * pe_Lots p /\
    pe_AtRiskAtomic p' <= pe_AtRiskAtomic p /\
    (pe_Lots p' = 0 -> pe_AtRiskAtomic p' = 0) /\
    (xe_Reason ev = PortfolioPositionExitClaim -> pe_Lots p' = 0).
Proof.
  intros Hr key Hp Hseq Hop. apply reachable_ok in Hr as [_ [Hd _]].
  unfold ApplyFinalizedPositionExit in Hop. head_case Hop eqn Ev; [congruence|]. cbv zeta in Hop.
  fold key in Hop. rewrite Hp in Hop. head_case Hop eqn Eg; [congruence|].
  head_case Hop eqn Es; [bprop; lia|]. apply commit_portfolio_ok in Hop as (-> & _). simpl.
  destruct (ok_positions _ _ Hd _ _ Hp) as [Hl Hrisk _]. bprop. unfold is_u64 in *.
  rewrite (sub64w_exact (pe_Lots p)) by done. eexists. split; [done|]. simpl.
  rewrite remainingPositionRisk_spec by done.
  destruct (N.leb_spec (pe_Lots p) (pe_Lots p - xe_RemainingLots ev)) as [Hall|Hsome].
  - assert (xe_RemainingLots ev = 0 \/ pe_Lots p = 0) as [Hz|Hz] by lia; repeat split; nia.
  - split_and!; [done|done| |apply N.le_sub_l|lia|].
    + pose proof (N.Div0.mul_div_le (pe_AtRiskAtomic p) (pe_Lots p)). nia.
    + intros Hclaim. match goal with H : _ \/ _ |- _ => destruct H as [H|H] end; bprop; done.
Qed.

End operations.

(** ** Witnesses *)
Import Fixtures.

Definition sample_profile : OwnerPortfolioProfile :=
  {| op_OwnerID := "owner"; op_OwnerAddress := addr 1; op_NetworkDomainHash := sha 2;
     op_SourceAgentAccount := addr 3; op_CollateralAssetID := sha 4;
     op_MaximumAtRiskAtomic := 8000000000; op_MaximumPositionLots := 100;
     op_MaximumOrderReservations := 4; op_MaximumMarkets := 2 |}.

Definition sample_snapshot (seqno yes : N) : PortfolioMarketSnapshot :=
  {| ps_OwnerAddress := addr 1; ps_MarketID := sha 7; ps_MarketAddress := addr 7;
     ps_MarketConfigHash := tvm 8; ps_ContractCodeHash := tvm 9; ps_LotPayout := 1000000000;
     ps_FreeBalance := 9000000000; ps_YesLots := yes; ps_NoLots := 0; ps_MasterchainSeqno := seqno;
     ps_ObservedAt := 1; ps_FinalityViewID := sha 10; ps_QuorumFinalized := true |}.

Definition sample_digest (_ : string) (r : PortfolioOrderReservation) : result string := Ok (r_OrderDigest r).

Definition sample_risk : WorstCaseOrderRiskV1 :=
  {| wr_SchemaVersion := 1; wr_OrderDigest := sha 20; wr_OwnerAddress := addr 1;
     wr_MarketAddress := addr 7; wr_Action := 1; wr_Outcome := 1; wr_QuantityLots := 10;
     wr_CollateralDebit := 4000000000; wr_PositionDebit := 0 |}.

Definition sample_files (_ : string) : file_state portfolioDocument := FileAbsent.
Definition sample_dirs (_ : string) : dir_env := dir_good.
Definition sample_opened : OwnerPortfolioLedger := reopened (emptyPortfolio sample_profile).

Definition sample_reserve (l : OwnerPortfolioLedger) :=
  ReserveOrder sample_digest io_good l "owner" "agent" (sha 2) (sha 7) (tvm 9) (sample_order 20 1)
    sample_risk (sample_snapshot 5 2).

Definition sample_fill (cumulative spent seqno : N) : PortfolioFillEvidence :=
  {| fe_OrderDigest := sha 20; fe_CumulativeFilledLots := cumulative; fe_CumulativeSpentAtomic := spent;
     fe_CumulativeProceedsAtomic := 0; fe_TransactionHash := sha 30; fe_FinalityViewID := sha 31;
     fe_MasterchainSeqno := seqno; fe_QuorumFinalized := true |}.

Definition sample_cancel : PortfolioInactiveEvidence :=
  {| ie_OrderDigest := sha 20; ie_Reason := PortfolioInactiveCanceled; ie_ChainTime := 100;
     ie_TransactionHash := sha 32; ie_FinalityViewID := sha 33; ie_MasterchainSeqno := 8;
     ie_QuorumFinalized := true |}.

Definition sample_exit : PortfolioPositionExitEvidence :=
  {| xe_MarketID := sha 7; xe_MarketAddress := addr 7; xe_MarketConfigHash := tvm 8;
     xe_ContractCodeHash := tvm 9; xe_Outcome := 1; xe_RemainingLots := 1;
     xe_Reason := PortfolioPositionExitMerge; xe_TransactionHash := sha 34; xe_FinalityViewID := sha 35;
     xe_MasterchainSeqno := 9; xe_QuorumFinalized := true |}.

Definition sample_reserved : OwnerPortfolioLedger := (sample_reserve sample_opened).1.
Definition sample_filled : OwnerPortfolioLedger :=
  (ApplyFinalizedFill io_good sample_reserved (sample_fill 4 1500000000 6)).1.
Definition sample_canceled : OwnerPortfolioLedger := (ConfirmOrderInactive io_good sample_filled sample_cancel).1.
Definition sample_exited : OwnerPortfolioLedger :=
  (ApplyFinalizedPositionExit io_good sample_canceled sample_exit).1.

(** Two imported lots at full payout and ten lots at their limit; then four
    fill below the limit, the rest is cancelled, and all but one lot exit. *)
Example sample_totals :
  (Summary sample_reserved).(su_AggregateAtRiskAtomic) = 6000000000 /\
  (Summary sample_filled).(su_AggregateAtRiskAtomic) = 5900000000 /\
  (Summary sample_canceled).(su_AggregateAtRiskAtomic) = 3500000000 /\
  (Summary sample_exited).(su_AggregatePositionLots) = 1.
Proof. vm_compute. done. Qed.

Lemma sample_portfolio_open :
  OpenOwnerPortfolioLedger io_good sample_dirs sample_files "/state" sample_profile =
    (FileDoc (emptyPortfolio sample_profile), Ok sample_opened).
Proof. vm_compute. reflexivity. Defined.

Lemma sample_profile_typed : profile_typed sample_profile.
Proof. split; unfold is_u64, MaxUint64; simpl; lia. Defined.

Lemma sample_step_reserve : step sample_digest sample_profile sample_opened sample_reserved.
Proof.
  apply (step_reserve _ _ _ _ io_good "owner" "agent" (sha 2) (sha 7) (tvm 9) (sample_order 20 1)
    sample_risk (sample_snapshot 5 2) (sample_reserve sample_opened).2).
  - repeat split; unfold is_u64, MaxUint64; simpl; lia.
  - repeat split; unfold is_u64, MaxUint64; simpl; lia.
  - unfold sample_reserved, sample_reserve. apply surjective_pairing.
Defined.

Lemma sample_step_fill : step sample_digest sample_profile sample_reserved sample_filled.
Proof.
  apply (step_fill _ _ _ _ io_good (sample_fill 4 1500000000 6) (Ok tt)).
  - split; unfold is_u64, MaxUint64; simpl; lia.
  - vm_compute. reflexivity.
Defined.

Lemma sample_step_cancel : step sample_digest sample_profile sample_filled sample_canceled.
Proof. apply (step_inactive _ _ _ _ io_good sample_cancel (Ok tt)). vm_compute. reflexivity. Defined.

Lemma sample_reach l : rtc (step sample_digest sample_profile) sample_opened l ->
  reachable sample_digest sample_profile l.
Proof.
  intros Hr. exists io_good, sample_dirs, sample_files, "/state"%string, (FileDoc (emptyPortfolio sample_profile)),
    sample_opened. split_and!; [exact sample_profile_typed|exact I|exact sample_portfolio_open|exact Hr].
Defined.

Lemma sample_reach_reserved : reachable sample_digest sample_profile sample_reserved.
Proof. apply sample_reach. eapply rtc_l; [exact sample_step_reserve|apply rtc_refl]. Defined.

Lemma sample_reach_filled : reachable sample_digest sample_profile sample_filled.
Proof.
  apply sample_reach. eapply rtc_l; [exact sample_step_reserve|].
  eapply rtc_l; [exact sample_step_fill|apply rtc_refl].
Defined.

Lemma sample_reach_canceled : reachable sample_digest sample_profile sample_canceled.
Proof.
  apply sample_reach. eapply rtc_l; [exact sample_step_reserve|].
  eapply rtc_l; [exact sample_step_fill|]. eapply rtc_l; [exact sample_step_cancel|apply rtc_refl].
Defined.

Lemma portfolio_limits_witness : at_risk (lg_doc sample_filled) <= 8000000000.
Proof. exact (proj1 (portfolio_limits sample_digest sample_profile sample_filled sample_reach_filled)). Defined.

(** The stored order after the partial fill. *)
Definition sample_partial : PortfolioOrderReservation :=
  filled_order (reservationFromOrder "agent" (sha 7) (tvm 9) (sample_order 20 1) sample_risk
    (sample_snapshot 5 2)) (sample_fill 4 1500000000 6) 2400000000 0.

Lemma sample_partial_stored : pd_Orders (lg_doc sample_filled) !! sha 20 = Some sample_partial.
Proof. vm_compute. reflexivity. Defined.

Lemma portfolio_spend_cap_witness :
  r_CumulativeSpentAtomic sample_partial + r_PendingCollateralAtomic sample_partial <=
    limit_cost sample_partial 10.
Proof.
  exact (proj1 (portfolio_spend_cap sample_digest sample_profile sample_filled (sha 20) sample_partial
    sample_reach_filled sample_partial_stored) eq_refl).
Defined.

Lemma portfolio_history_forward_witness : portfolio_le (lg_doc sample_reserved) (lg_doc sample_canceled).
Proof.
  apply (portfolio_history_forward sample_digest sample_profile); [exact sample_reach_reserved|].
  eapply rtc_l; [exact sample_step_fill|]. eapply rtc_l; [exact sample_step_cancel|apply rtc_refl].
Defined.

Lemma portfolio_restart_recovers_witness :
  exists d,
    OpenOwnerPortfolioLedger io_good sample_dirs (fun _ => lg_file sample_canceled) "/state" sample_profile =
      (lg_file sample_canceled, Ok (reopened d)) /\
    lg_file sample_canceled = FileDoc d /\ portfolio_le (lg_doc sample_canceled) d.
Proof.
  exact (portfolio_restart_recovers sample_digest sample_profile sample_canceled io_good sample_dirs
    (fun _ => lg_file sample_canceled) "/state" sample_reach_canceled eq_refl eq_refl (fun _ => eq_refl)).
Defined.

Lemma portfolio_reserve_exact_witness :
  exists l' res proof, sample_reserve sample_opened = (l', Ok (res, proof)) /\
    map_sum (live_buy (sha 7)) (pd_Orders (lg_doc l')) <= 9000000000 /\
    pp_AggregateAtRiskAtomic proof = at_risk (lg_doc l').
Proof.
  assert (is_ok (sample_reserve sample_opened).2 = true) as Hok by (vm_compute; reflexivity).
  destruct (sample_reserve sample_opened) as [l' [[res proof]|m]] eqn:E; [|discriminate Hok].
  exists l', res, proof. split; [reflexivity|].
  destruct (portfolio_reserve_exact sample_digest sample_profile io_good sample_opened "owner" "agent" (sha 2)
    (sha 7) (tvm 9) (sample_order 20 1) sample_risk (sample_snapshot 5 2) l' res proof
    (sample_reach _ (rtc_refl _ _)) ltac:(repeat split; unfold is_u64, MaxUint64; simpl; lia)
    ltac:(repeat split; unfold is_u64, MaxUint64; simpl; lia) eq_refl E)
    as (_ & _ & _ & Hbuy & _ & _ & _ & Hrisk & _).
  split; [exact (Hbuy eq_refl)|exact Hrisk].
Defined.

Lemma sample_order_stored :
  pd_Orders (lg_doc sample_reserved) !! sha 20 =
    Some (reservationFromOrder "agent" (sha 7) (tvm 9) (sample_order 20 1) sample_risk (sample_snapshot 5 2)).
Proof. vm_compute. reflexivity. Defined.

Lemma portfolio_fill_risk_witness : at_risk (lg_doc sample_filled) <= at_risk (lg_doc sample_reserved).
Proof.
  apply (portfolio_fill_risk sample_digest sample_profile io_good sample_reserved (sample_fill 4 1500000000 6)
    sample_filled _ sample_reach_reserved ltac:(split; unfold is_u64, MaxUint64; simpl; lia)
    sample_order_stored); [intros _; vm_compute; discriminate|vm_compute; reflexivity].
Defined.

Lemma portfolio_inactive_releases_witness :
  at_risk (lg_doc sample_canceled) + 2400000000 = at_risk (lg_doc sample_filled).
Proof.
  exact (proj2 (proj2 (proj2 (proj2 (proj2 (portfolio_inactive_releases sample_digest sample_profile io_good
    sample_filled sample_cancel sample_canceled sample_partial sample_reach_filled sample_partial_stored
    eq_refl ltac:(vm_compute; reflexivity))))))).
Defined.

Lemma portfolio_exit_conservative_witness :
  exists p', pd_Positions (lg_doc sample_exited) =
    <[portfolioPositionKey (sha 7) 1 := p']> (pd_Positions (lg_doc sample_canceled)) /\ pe_Lots p' = 1.
Proof.
  destruct (pd_Positions (lg_doc sample_canceled) !! portfolioPositionKey (sha 7) 1) as [p|] eqn:E;
    [|vm_compute in E; discriminate E].
  destruct (portfolio_exit_conservative sample_digest sample_profile io_good sample_canceled sample_exit
    sample_exited p sample_reach_canceled E ltac:(vm_compute in E; injection E as <-; vm_compute; reflexivity)
    ltac:(vm_compute; reflexivity)) as (p' & Hp' & Hl & _).
  exists p'. exact (conj Hp' Hl).
Defined.

End Portfolio.
