(* ===== verification/Book.v ===== *)
(** * The order book (src/pkg/prediction/book.go)

    A durable map of signed orders of one market, with a derived price index
    for searching it. *)

From S2P Require Import Prelude GoLib FileStore Ledger Protocol Fixtures.
#[local] Open Scope N_scope.

Module Book.

(** ** Data *)
Record MarketProfile := {
  mp_GlobalID : Z;
  mp_WorkchainID : Z;
  mp_NetworkDomainHash : string;
  mp_MarketID : string;
  mp_MarketAddress : string;
  mp_MarketConfigHash : string;
  mp_ContractCodeHash : string;
  mp_TradeClose : N;
  mp_LotPayout : N;
  mp_MarketMinFillLots : N;
  mp_MaxOrders : N;
  mp_MaxOrdersPerOwner : N;
  mp_MaxSnapshotAge : N
}.

Record ChainAccountSnapshot := {
  cs_OwnerAddress : string;
  cs_TradingPublicKey : string;
  cs_KeyEpoch : N;
  cs_NonceFloor : N;
  cs_FreeBalance : N;
  cs_YesLots : N;
  cs_NoLots : N;
  cs_ObservedAt : N;
  cs_MasterchainSeqno : N;
  cs_Finalized : bool;
  cs_MarketConfigHash : string;
  cs_FinalityViewID : string
}.

(** [ms_Accounts] is [None] for a nil map. *)
Record ChainMarketSnapshot := {
  ms_CompleteSets : N;
  ms_LockedCollateral : N;
  ms_Accounts : option (gmap string AccountBalance);
  ms_ObservedAt : N;
  ms_Finalized : bool;
  ms_MarketConfigHash : string;
  ms_ContractCodeHash : string;
  ms_FinalityViewID : string
}.

Definition OrderStatus : Type := string.
Definition OrderLive : OrderStatus := "live".
Definition OrderFilled : OrderStatus := "filled".
Definition OrderCanceled : OrderStatus := "canceled".

Record OrderRecord := {
  or_Digest : string;
  or_OrderCellHash : string;
  or_TradingPublicKey : string;
  or_SignedOrderBOC : string;
  or_Order : PredictionOrderV1;
  or_Status : OrderStatus;
  or_CumulativeFilled : N;
  or_LastFinalizedTxHash : string;
  or_FinalityViewID : string
}.

Record document := {
  bd_SchemaVersion : N;
  bd_Revision : N;
  bd_Profile : MarketProfile;
  bd_Orders : gmap string OrderRecord
}.

(** [map[orderSearchKey]map[uint16][]string], the key being (outcome, action). *)
Abbreviation search_index := (gmap (N * N) (gmap N (list string))).

Record Book := {
  bk_ledger : ledger document;
  bk_search : search_index
}.

Record OrderSearchQuery := {
  sq_MarketID : string;
  sq_Outcome : N;
  sq_Action : N;
  sq_MinimumPriceTick : N;
  sq_MaximumPriceTick : N;
  sq_MinimumRemainingLots : N;
  sq_ValidAt : N;
  sq_ExpiresAfter : N;
  sq_ExpiresAtOrBefore : N;
  sq_PriceDescending : bool;
  sq_Limit : N
}.

Record OrderSearchResult := {
  sr_Record : OrderRecord;
  sr_RemainingLots : N
}.

#[global] Instance MarketProfile_eq_dec : EqDecision MarketProfile.
Proof. solve_decision. Defined.

Definition bk_doc (b : Book) : document := lg_doc (bk_ledger b).
Definition bk_orders (b : Book) : gmap string OrderRecord := bd_Orders (bk_doc b).
Definition bk_profile (b : Book) : MarketProfile := bd_Profile (bk_doc b).

(** [int8(x)] of a 32-bit value. *)
Definition int8 (x : Z) : Z := ((x + 128) mod 256 - 128)%Z.

(** ** The search index *)
Definition index_key (record : OrderRecord) : N * N :=
  (o_Outcome (or_Order record), o_Action (or_Order record)).

Definition indexOrder (search : search_index) (record : OrderRecord) : search_index :=
  let key := index_key record in
  let byPrice := default ∅ (search !! key) in
  let price := o_LimitPriceTick (or_Order record) in
  let digests := default [] (byPrice !! price) in
  let position := SearchStrings digests (or_Digest record) in
  if (position <? length digests)%nat && bool_decide (digests !! position = Some (or_Digest record))
  then <[key := byPrice]> search
  else <[key := <[price := insert_at position (or_Digest record) digests]> byPrice]> search.

Definition removeIndexedOrder (search : search_index) (record : OrderRecord) : search_index :=
  let key := index_key record in
  match search !! key with
  | None => search
  | Some byPrice =>
      let price := o_LimitPriceTick (or_Order record) in
      let digests := default [] (byPrice !! price) in
      let position := SearchStrings digests (or_Digest record) in
      if (length digests <=? position)%nat
         || negb (bool_decide (digests !! position = Some (or_Digest record)))
      then search
      else
        let digests := remove_at position digests in
        let byPrice := if (length digests =? 0)%nat then delete price byPrice
                       else <[price := digests]> byPrice in
        if (size byPrice =? 0)%nat then delete key search else <[key := byPrice]> search
  end.

Definition rebuildSearchIndex (orders : gmap string OrderRecord) : search_index :=
  foldl (fun search record =>
           if bool_decide (or_Status record = OrderLive) then indexOrder search record else search)
    ∅ (map_vals orders).

(** ** The index as a set of entries

    An index represents a relation between digests, keys and prices when each
    of its lists is strictly sorted and holds exactly the related digests, and
    no empty list or map is kept. *)
Definition digests_at (search : search_index) (key : N * N) (price : N) : list string :=
  default [] (default ∅ (search !! key) !! price).

Record index_rep (search : search_index) (entry : string -> N * N -> N -> Prop) : Prop := {
  ir_sorted : forall key price, strict_sorted (digests_at search key price);
  ir_elem : forall digest key price, digest ∈ digests_at search key price <-> entry digest key price;
  ir_canonical : forall key byPrice, search !! key = Some byPrice ->
    byPrice <> ∅ /\ forall price digests, byPrice !! price = Some digests -> digests <> []
}.

(** The entry of one record. *)
Definition entry_of (record : OrderRecord) (digest : string) (key : N * N) (price : N) : Prop :=
  digest = or_Digest record /\ key = index_key record /\ price = o_LimitPriceTick (or_Order record).

Lemma digests_at_insert search key byPrice key' price' :
  digests_at (<[key := byPrice]> search) key' price' =
    if decide (key = key') then default [] (byPrice !! price') else digests_at search key' price'.
Proof.
  unfold digests_at. case_decide; [subst; by rewrite lookup_insert_eq|by rewrite lookup_insert_ne].
Qed.

Lemma digests_at_delete search key key' price' :
  digests_at (delete key search) key' price' =
    if decide (key = key') then [] else digests_at search key' price'.
Proof.
  unfold digests_at. case_decide; [subst; by rewrite lookup_delete_eq|by rewrite lookup_delete_ne].
Qed.

Lemma index_rep_proper search entry entry' :
  (forall d k p, entry d k p <-> entry' d k p) -> index_rep search entry -> index_rep search entry'.
Proof. intros He []. split; [done| |done]. intros d k p. by rewrite <-He. Qed.

Lemma index_rep_empty : index_rep ∅ (fun _ _ _ => False).
Proof.
  split; unfold digests_at; [constructor| |done]. intros d k p. rewrite lookup_empty. simpl.
  rewrite lookup_empty. simpl. split; [apply not_elem_of_nil|done].
Qed.

(** The position [SearchStrings] returns holds the digest exactly when the
    list contains it. *)
Lemma search_member digests digest :
  strict_sorted digests ->
  digests !! SearchStrings digests digest = Some digest <-> digest ∈ digests.
Proof.
  intros Hs. split; [apply list_elem_of_lookup_2|by apply SearchStrings_found].
Qed.

Lemma indexOrder_rep search entry record :
  index_rep search entry ->
  index_rep (indexOrder search record) (fun d k p => entry d k p \/ entry_of record d k p).
Proof.
  intros [Hsort Helem Hcan]. unfold indexOrder, entry_of.
  set (key := index_key record). set (price := o_LimitPriceTick (or_Order record)).
  set (byPrice := default ∅ (search !! key)).
  change (default [] (byPrice !! price)) with (digests_at search key price).
  set (digests := digests_at search key price). pose proof (Hsort key price : strict_sorted digests) as Hs.
  destruct (decide (or_Digest record ∈ digests)) as [Hin|Hin].
  - pose proof (proj2 (search_member _ _ Hs) Hin) as Hpos. rewrite bool_decide_true by done.
    rewrite (proj2 (Nat.ltb_lt _ _)) by (by eapply lookup_lt_Some). simpl.
    assert (is_Some (search !! key)) as [m Hm].
    { destruct (search !! key) eqn:E; [eauto|]. unfold digests, digests_at in Hin.
      rewrite E in Hin. by apply not_elem_of_nil in Hin. }
    rewrite insert_id by (unfold byPrice; by rewrite Hm). split; [done| |done].
    intros d k p. rewrite Helem. split; [auto|]. intros [?|(-> & -> & ->)]; [done|]. by apply Helem.
  - rewrite bool_decide_false by (by rewrite search_member). rewrite andb_false_r. split.
    + intros k p. rewrite digests_at_insert. case_decide as Hk; [|exact (Hsort k p)].
      destruct (decide (price = p)) as [<-|Hp].
      * rewrite lookup_insert_eq. by apply insert_at_sorted.
      * rewrite lookup_insert_ne by done. apply (Hsort key p).
    + intros d k p. rewrite digests_at_insert. case_decide as Hk.
      * destruct (decide (price = p)) as [<-|Hp].
        -- rewrite lookup_insert_eq. simpl. rewrite elem_of_insert_at. unfold digests. rewrite Helem, <-Hk.
           naive_solver.
        -- rewrite lookup_insert_ne by done. change (default [] (byPrice !! p)) with (digests_at search key p).
           rewrite Helem, Hk. naive_solver.
      * rewrite Helem. naive_solver.
    + intros k m Hm. apply lookup_insert_Some in Hm as [[<- <-]|[_ Hm]]; [|exact (Hcan k m Hm)].
      split; [apply insert_non_empty|]. intros p l Hl.
      apply lookup_insert_Some in Hl as [[<- <-]|[_ Hl]].
      * intros Hnil. pose proof (proj2 (elem_of_insert_at (SearchStrings digests (or_Digest record))
          (or_Digest record) (or_Digest record) digests) (or_introl eq_refl)) as Hel.
        rewrite Hnil in Hel. by apply not_elem_of_nil in Hel.
      * unfold byPrice in Hl. destruct (search !! key) eqn:E; simpl in Hl; [|by rewrite lookup_empty in Hl].
        by apply (proj2 (Hcan key _ E) p).
Qed.

Lemma removeIndexedOrder_rep search entry record :
  index_rep search entry ->
  index_rep (removeIndexedOrder search record) (fun d k p => entry d k p /\ ~ entry_of record d k p).
Proof.
  intros Hrep. pose proof Hrep as [Hsort Helem Hcan]. unfold removeIndexedOrder.
  set (key := index_key record). set (price := o_LimitPriceTick (or_Order record)).
  assert (~ entry (or_Digest record) key price ->
    index_rep search (fun d k p => entry d k p /\ ~ entry_of record d k p)) as Habsent.
  { intros Hno. eapply index_rep_proper; [|exact Hrep]. intros d k p. split; [|by intros [? _]].
    intros He. split; [done|]. intros (-> & -> & ->). done. }
  destruct (search !! key) as [byPrice|] eqn:E.
  2:{ apply Habsent. rewrite <-Helem. unfold digests_at. rewrite E. apply not_elem_of_nil. }
  assert (forall p, default [] (byPrice !! p) = digests_at search key p) as Hat
    by (intros p; unfold digests_at; by rewrite E).
  rewrite Hat. set (digests := digests_at search key price).
  pose proof (Hsort key price : strict_sorted digests) as Hs.
  destruct (decide (or_Digest record ∈ digests)) as [Hin|Hin].
  2:{ rewrite bool_decide_false by (by rewrite search_member). rewrite orb_true_r. apply Habsent. by rewrite <-Helem. }
  pose proof (proj2 (search_member _ _ Hs) Hin) as Hpos. rewrite bool_decide_true by done.
  rewrite (proj2 (Nat.leb_gt _ _)) by (by eapply lookup_lt_Some). simpl.
  set (rest := remove_at _ digests).
  assert (forall d, d ∈ rest <-> d ∈ digests /\ d <> or_Digest record) as Hrest.
  { intros d. apply elem_of_remove_at; [by apply strict_sorted_NoDup|done]. }
  set (byPrice' := if (length rest =? 0)%nat then delete price byPrice else <[price := rest]> byPrice).
  assert (forall p, default [] (byPrice' !! p) = if decide (price = p) then rest else digests_at search key p) as Hby.
  { intros p. unfold byPrice'. destruct (Nat.eqb_spec (length rest) 0) as [Hz|Hz]; case_decide as Hp.
    - subst p. rewrite lookup_delete_eq. symmetry. by apply nil_length_inv.
    - by rewrite lookup_delete_ne, Hat.
    - subst p. by rewrite lookup_insert_eq.
    - by rewrite lookup_insert_ne, Hat. }
  assert (forall k p, digests_at (if (size byPrice' =? 0)%nat then delete key search else <[key := byPrice']> search) k p =
    if decide (key = k) then if decide (price = p) then rest else digests_at search key p
    else digests_at search k p) as Hd.
  { intros k p. destruct (Nat.eqb_spec (size byPrice') 0) as [Hz|Hz].
    - rewrite digests_at_delete. case_decide; [|done]. rewrite <-Hby.
      apply map_size_empty_inv in Hz. by rewrite Hz, lookup_empty.
    - rewrite digests_at_insert. case_decide; [|done]. by rewrite Hby. }
  split.
  - intros k p. rewrite Hd. repeat case_decide; [by apply remove_at_sorted|exact (Hsort key p)|exact (Hsort k p)].
  - intros d k p. rewrite Hd. unfold entry_of. fold key price. repeat case_decide.
    + subst. rewrite Hrest. unfold digests. rewrite Helem. naive_solver.
    + subst. rewrite Helem. naive_solver.
    + rewrite Helem. naive_solver.
  - intros k m Hm.
    assert ((k = key /\ m = byPrice' /\ byPrice' <> ∅) \/ search !! k = Some m) as [(-> & -> & Hne)|Hold];
      [|split; [done|]|exact (Hcan k m Hold)].
    { destruct (Nat.eqb_spec (size byPrice') 0) as [Hz|Hz].
      - apply lookup_delete_Some in Hm as [_ Hm]. auto.
      - apply lookup_insert_Some in Hm as [[<- <-]|[_ Hm]]; [|auto]. left. split_and!; [done|done|].
        intros Hemp. by rewrite Hemp, map_size_empty in Hz. }
    intros p l Hl. unfold byPrice' in Hl. destruct (Nat.eqb_spec (length rest) 0) as [Hz|Hz].
    + apply lookup_delete_Some in Hl as [_ Hl]. by apply (proj2 (Hcan key _ E) p).
    + apply lookup_insert_Some in Hl as [[<- <-]|[_ Hl]]; [by intros ->|by apply (proj2 (Hcan key _ E) p)].
Qed.

(** A relation has one index. *)
Lemma index_rep_unique search1 search2 entry :
  index_rep search1 entry -> index_rep search2 entry -> search1 = search2.
Proof.
  intros [Hs1 He1 Hc1] [Hs2 He2 Hc2].
  assert (forall k p, digests_at search1 k p = digests_at search2 k p) as Hd.
  { intros k p. apply strict_sorted_unique; [done|done|]. intros x. by rewrite He1, He2. }
  assert (forall s1 s2 k m, (forall p, digests_at s1 k p = digests_at s2 k p) ->
    (forall k' m', s1 !! k' = Some m' -> m' <> ∅ /\ forall p l, m' !! p = Some l -> l <> []) ->
    (forall k' m', s2 !! k' = Some m' -> m' <> ∅ /\ forall p l, m' !! p = Some l -> l <> []) ->
    s1 !! k = Some m -> s2 !! k = Some m) as Hsub.
  { intros s1 s2 k m Hk Hcan1 Hcan2 Hm. unfold digests_at in Hk. rewrite Hm in Hk. simpl in Hk.
    destruct (Hcan1 k m Hm) as [Hne Hnil].
    assert (forall p l, m !! p = Some l <-> default ∅ (s2 !! k) !! p = Some l) as Hiff.
    { intros p l. specialize (Hk p). split; intros Hl.
      - pose proof (Hnil p l Hl). rewrite Hl in Hk. simpl in Hk.
        destruct (default ∅ (s2 !! k) !! p); simpl in Hk; congruence.
      - assert (l <> []) as Hl0.
        { destruct (s2 !! k) as [m2|] eqn:E; simpl in Hl; [|by rewrite lookup_empty in Hl].
          by apply (proj2 (Hcan2 k m2 E) p). }
        rewrite Hl in Hk. simpl in Hk. destruct (m !! p); simpl in Hk; congruence. }
    destruct (s2 !! k) as [m2|]; simpl in Hiff.
    - f_equal. symmetry. apply map_eq. intros p. apply option_eq. intros l. apply Hiff.
    - destruct Hne. apply map_eq. intros p. apply option_eq. intros l. rewrite Hiff. done. }
  apply map_eq. intros k. apply option_eq. intros m. split; apply Hsub; try done; intros p; by rewrite Hd.
Qed.

Section operations.
Context `{ADDR : TosAddress} `{PROT : PredictionProtocol}.

(** ** Validation *)
Definition validateProfile (profile : MarketProfile) : result unit :=
  if match ParseHash32 (mp_MarketConfigHash profile) with
     | Err _ => true
     | Ok config => Hash32_IsZero config
     end
     || negb (canonicalDigest (mp_NetworkDomainHash profile) "sha256:")
     || negb (canonicalDigest (mp_MarketID profile) "sha256:")
     || negb (canonicalDigest (mp_MarketConfigHash profile) "tvm-cell-sha256:")
     || negb (canonicalDigest (mp_ContractCodeHash profile) "tvm-cell-sha256:")
     || match ParseRawAddr (mp_MarketAddress profile) with
        | None => true
        | Some market =>
            negb (ra_std market) || negb (ra_bits market =? 256)
            || negb (bool_decide (ra_string market = mp_MarketAddress profile))
            || negb (bool_decide (int8 (ra_workchain market) = mp_WorkchainID profile))
        end
     || (mp_TradeClose profile =? 0) || (mp_LotPayout profile =? 0)
     || negb (mp_LotPayout profile mod PriceScale =? 0) || (mp_MarketMinFillLots profile =? 0)
     || (mp_MaxOrders profile =? 0) || (100000 <? mp_MaxOrders profile)
     || (mp_MaxOrdersPerOwner profile =? 0) || (mp_MaxOrders profile <? mp_MaxOrdersPerOwner profile)
     || (mp_MaxSnapshotAge profile =? 0) || (300 <? mp_MaxSnapshotAge profile)
  then Err "invalid prediction market profile"
  else Ok tt.

Definition buyReservation (lot price quantity : N) : N * bool :=
  let unit := lot / PriceScale in
  if negb (quantity =? 0) && (MaxUint64 / quantity <? unit) then (0, false)
  else
    let base := mul64w quantity unit in
    if negb (price =? 0) && (MaxUint64 / price <? base) then (0, false)
    else (mul64w base price, true).

Definition validateAuthority (profile : MarketProfile) (order : PredictionOrderV1)
    (snapshot : ChainAccountSnapshot) (now : N) : result unit :=
  if negb (bool_decide (cs_OwnerAddress snapshot = o_OwnerAddress order))
     || negb (cs_KeyEpoch snapshot =? o_KeyEpoch order) || (o_Nonce order <? cs_NonceFloor snapshot)
     || negb (cs_Finalized snapshot)
     || negb (bool_decide (cs_MarketConfigHash snapshot = mp_MarketConfigHash profile))
     || negb (canonicalDigest (cs_FinalityViewID snapshot) "sha256:")
     || (cs_ObservedAt snapshot =? 0) || (now <? cs_ObservedAt snapshot)
     || (mp_MaxSnapshotAge profile <? sub64w now (cs_ObservedAt snapshot))
  then Err "order is not executable under the finalized chain account snapshot"
  else Ok tt.

Definition validateMarketSnapshot (profile : MarketProfile) (snapshot : ChainMarketSnapshot) (now : N)
    : result unit :=
  if negb (ms_Finalized snapshot)
     || match ms_Accounts snapshot with
        | None => true
        | Some accounts => 4096 <? N.of_nat (size accounts)
        end
     || negb (bool_decide (ms_MarketConfigHash snapshot = mp_MarketConfigHash profile))
     || negb (bool_decide (ms_ContractCodeHash snapshot = mp_ContractCodeHash profile))
     || negb (canonicalDigest (ms_FinalityViewID snapshot) "sha256:")
     || (ms_ObservedAt snapshot =? 0) || (now <? ms_ObservedAt snapshot)
     || (mp_MaxSnapshotAge profile <? sub64w now (ms_ObservedAt snapshot))
  then Err "market execution snapshot is stale or outside the admitted code/config domain"
  else Ok tt.

(** The loop of [validateAdmission] over the stored orders: the owner's live
    orders, and the collateral, YES lots and NO lots they hold. *)
Record reserved := {
  rv_count : N;
  rv_free : N;
  rv_yes : N;
  rv_no : N
}.

Fixpoint reserved_loop (profile : MarketProfile) (owner : string) (acc : reserved)
    (orders : list OrderRecord) : result reserved :=
  match orders with
  | [] => Ok acc
  | prior :: rest =>
      if negb (bool_decide (o_OwnerAddress (or_Order prior) = owner))
         || negb (bool_decide (or_Status prior = OrderLive))
      then reserved_loop profile owner acc rest
      else
        let count := u32 (rv_count acc + 1) in
        let remaining := sub64w (o_QuantityLots (or_Order prior)) (or_CumulativeFilled prior) in
        if o_Action (or_Order prior) =? ActionBuy then
          let '(debit, ok) :=
            buyReservation (mp_LotPayout profile) (o_LimitPriceTick (or_Order prior)) remaining in
          if negb ok || (sub64w MaxUint64 debit <? rv_free acc) then Err "reserved collateral overflow"
          else reserved_loop profile owner
                 {| rv_count := count; rv_free := add64w (rv_free acc) debit;
                    rv_yes := rv_yes acc; rv_no := rv_no acc |} rest
        else if o_Outcome (or_Order prior) =? OutcomeYes then
          if sub64w MaxUint64 remaining <? rv_yes acc then Err "reserved YES overflow"
          else reserved_loop profile owner
                 {| rv_count := count; rv_free := rv_free acc;
                    rv_yes := add64w (rv_yes acc) remaining; rv_no := rv_no acc |} rest
        else
          if sub64w MaxUint64 remaining <? rv_no acc then Err "reserved NO overflow"
          else reserved_loop profile owner
                 {| rv_count := count; rv_free := rv_free acc; rv_yes := rv_yes acc;
                    rv_no := add64w (rv_no acc) remaining |} rest
  end.

Definition validateAdmission (doc : document) (order : SignedPredictionOrderV1)
    (snapshot : ChainAccountSnapshot) (now : N) : result unit :=
  let profile := bd_Profile doc in
  let o := so_Order order in
  if negb (bool_decide (o_GlobalID o = mp_GlobalID profile))
     || negb (bool_decide (o_WorkchainID o = mp_WorkchainID profile))
     || negb (bool_decide (o_MarketAddress o = mp_MarketAddress profile))
     || negb (bool_decide (CellHashString (o_MarketConfigHash o) = mp_MarketConfigHash profile))
     || (mp_TradeClose profile <? o_ValidUntil o) || (mp_TradeClose profile <=? now)
  then Err "order is outside the admitted immutable market domain"
  else
    let? _ := validateAuthority profile o snapshot now in
    if negb (bool_decide (so_PublicKey order = cs_TradingPublicKey snapshot))
    then Err "order signature key is not the current on-chain trading key"
    else if mp_MaxOrders profile <=? len32 (bd_Orders doc)
    then Err "prediction order-book capacity reached"
    else
      let? r := reserved_loop profile (o_OwnerAddress o)
                  {| rv_count := 0; rv_free := 0; rv_yes := 0; rv_no := 0 |}
                  (map_vals (bd_Orders doc)) in
      if mp_MaxOrdersPerOwner profile <=? rv_count r
      then Err "owner prediction-order capacity reached"
      else if o_Action o =? ActionBuy then
        let '(debit, ok) := buyReservation (mp_LotPayout profile) (o_LimitPriceTick o) (o_QuantityLots o) in
        if negb ok || (cs_FreeBalance snapshot <? rv_free r)
           || (sub64w (cs_FreeBalance snapshot) (rv_free r) <? debit)
        then Err "order exceeds unreserved on-chain free collateral"
        else Ok tt
      else if o_Outcome o =? OutcomeYes then
        if (cs_YesLots snapshot <? rv_yes r)
           || (sub64w (cs_YesLots snapshot) (rv_yes r) <? o_QuantityLots o)
        then Err "order exceeds unreserved YES position"
        else Ok tt
      else
        if (cs_NoLots snapshot <? rv_no r)
           || (sub64w (cs_NoLots snapshot) (rv_no r) <? o_QuantityLots o)
        then Err "order exceeds unreserved NO position"
        else Ok tt.

(** ** Persistence *)
Definition maximumBookBytes : N := 64 * 1048576.

Definition persist (e : io document) (file : file_state document) (next : document)
    : file_state document * result unit :=
  persist_bounded e maximumBookBytes "prediction order-book state exceeds its durable bound" next file.

(** The body of the loop of [loadOrInitialize] over the loaded orders. *)
Definition validate_record (digest : string) (record : OrderRecord) : result unit :=
  let live := bool_decide (or_Status record = OrderLive) in
  let filled := bool_decide (or_Status record = OrderFilled) in
  let quantity := o_QuantityLots (or_Order record) in
  if negb (bool_decide (digest = or_Digest record)) || negb (canonicalDigest digest "tvm-cell-sha256:")
     || (negb live && negb filled && negb (bool_decide (or_Status record = OrderCanceled)))
     || (quantity <? or_CumulativeFilled record)
     || (live && (or_CumulativeFilled record =? quantity))
     || (filled && negb (or_CumulativeFilled record =? quantity))
     || (live && (or_CumulativeFilled record =? 0)
         && (negb (bool_decide (or_LastFinalizedTxHash record = ""%string))
             || negb (bool_decide (or_FinalityViewID record = ""%string))))
     || ((negb live || (0 <? or_CumulativeFilled record))
         && (negb (canonicalDigest (or_LastFinalizedTxHash record) "sha256:")
             || negb (canonicalDigest (or_FinalityViewID record) "sha256:")))
  then Err "prediction order-book contains an invalid record"
  else if 12000 <? slen (or_SignedOrderBOC record)
  then Err "prediction order-book record has an oversized exact BOC"
  else
    match base64_DecodeString (or_SignedOrderBOC record) with
    | None => Err "prediction order-book record has an invalid exact BOC"
    | Some rawBOC =>
        match FromBOC rawBOC with
        | None => Err "prediction order-book record has an invalid exact BOC"
        | Some root =>
            if (8192 <? slen rawBOC) || negb (bool_decide (rawBOC = ToBOC root))
            then Err "prediction order-book record has an invalid exact BOC"
            else
              match DecodeAndVerifySignedPredictionOrder root with
              | Err _ => Err "prediction order-book record does not match its exact signed BOC"
              | Ok verified =>
                  if negb (bool_decide (CellHashString (so_OrderDigest verified) = or_Digest record))
                     || negb (bool_decide (CellHashString (so_OrderCellHash verified) = or_OrderCellHash record))
                     || negb (bool_decide (hex_EncodeToString (so_PublicKey verified) = or_TradingPublicKey record))
                     || negb (bool_decide (so_Order verified = or_Order record))
                  then Err "prediction order-book record does not match its exact signed BOC"
                  else Ok tt
              end
        end
    end.

Definition loadOrInitialize (e : io document) (file : file_state document) (doc : document)
    : file_state document * result (document * search_index) :=
  match file with
  | FileAbsent =>
      let '(file', r) := persist e file doc in
      (file', match r with Ok _ => Ok (doc, ∅) | Err m => Err m end)
  | FileUnreadable => (file, Err "prediction order-book state is unavailable")
  | FileUndecodable => (file, Err "prediction order-book state identity or shape is invalid")
  | FileDoc loaded =>
      if negb (bd_SchemaVersion loaded =? 1) || negb (bool_decide (bd_Profile loaded = bd_Profile doc))
         || (mp_MaxOrders (bd_Profile loaded) <? len32 (bd_Orders loaded))
      then (file, Err "prediction order-book state identity or shape is invalid")
      else
        (file,
         let? _ := range_check validate_record (bd_Orders loaded) in
         Ok (loaded, rebuildSearchIndex (bd_Orders loaded)))
  end.

Definition emptyBook (profile : MarketProfile) : document :=
  {| bd_SchemaVersion := 1; bd_Revision := 0; bd_Profile := profile; bd_Orders := ∅ |}.

Definition OpenBook (e : io document) (d : dir_env) (file : file_state document)
    (profile : MarketProfile) : file_state document * result Book :=
  if is_err (validateProfile profile)
  then (file, Err "prediction order-book configuration is invalid")
  else
    match openPrivateLockedDirectory d with
    | Err m => (file, Err m)
    | Ok _ =>
        let '(file', r) := loadOrInitialize e file (emptyBook profile) in
        (file',
         match r with
         | Err m => Err m
         | Ok (doc, search) =>
             Ok {| bk_ledger := {| lg_file := file'; lg_lock := true; lg_doc := doc |};
                   bk_search := search |}
         end)
    end.

Definition CloseBook (release : result unit) (b : Book) : Book * result unit :=
  let '(l, r) := Close release (bk_ledger b) in
  ({| bk_ledger := l; bk_search := bk_search b |}, r).

(** ** Operations *)

(** [cloneDocument], [Revision++], and the record installed. *)
Definition with_order (doc : document) (digest : string) (record : OrderRecord) : document :=
  {| bd_SchemaVersion := bd_SchemaVersion doc; bd_Revision := add64w (bd_Revision doc) 1;
     bd_Profile := bd_Profile doc; bd_Orders := <[digest := record]> (bd_Orders doc) |}.

(** Persist, publish, then update the index with [reindex]. *)
Definition commit_book (e : io document) (b : Book) (next : document)
    (reindex : search_index -> search_index) : Book * result unit :=
  let '(l, r) := commit (persist e) (bk_ledger b) next in
  match r with
  | Err m => ({| bk_ledger := l; bk_search := bk_search b |}, Err m)
  | Ok _ => ({| bk_ledger := l; bk_search := reindex (bk_search b) |}, Ok tt)
  end.

Definition record_of (signedBOC : string) (verified : SignedPredictionOrderV1) : OrderRecord :=
  {| or_Digest := CellHashString (so_OrderDigest verified);
     or_OrderCellHash := CellHashString (so_OrderCellHash verified);
     or_TradingPublicKey := hex_EncodeToString (so_PublicKey verified);
     or_SignedOrderBOC := base64_EncodeToString signedBOC; or_Order := so_Order verified;
     or_Status := OrderLive; or_CumulativeFilled := 0; or_LastFinalizedTxHash := "";
     or_FinalityViewID := "" |}.

Definition nonce_taken (record prior : OrderRecord) : bool :=
  bool_decide (o_OwnerAddress (or_Order prior) = o_OwnerAddress (or_Order record))
  && (o_KeyEpoch (or_Order prior) =? o_KeyEpoch (or_Order record))
  && (o_Nonce (or_Order prior) =? o_Nonce (or_Order record))
  && negb (bool_decide (or_Digest prior = or_Digest record)).

Definition admitVerifiedLocked (e : io document) (b : Book) (signedBOC : string)
    (verified : SignedPredictionOrderV1) (snapshot : ChainAccountSnapshot) (now : N)
    : Book * result OrderRecord :=
  let doc := bk_doc b in
  let record := record_of signedBOC verified in
  if negb (lg_lock (bk_ledger b)) then (b, Err "prediction order book is closed")
  else
    match bd_Orders doc !! or_Digest record with
    | Some prior =>
        if negb (bool_decide (or_SignedOrderBOC prior = or_SignedOrderBOC record))
           || negb (bool_decide (or_OrderCellHash prior = or_OrderCellHash record))
        then (b, Err "prediction order digest conflicts with durable bytes")
        else (b, Ok prior)
    | None =>
        match validateAdmission doc verified snapshot now with
        | Err m => (b, Err m)
        | Ok _ =>
            if map_any (fun _ prior => nonce_taken record prior) (bd_Orders doc)
            then (b, Err "owner epoch/nonce is already bound to another order digest")
            else
              let '(b', r) := commit_book e b (with_order doc (or_Digest record) record)
                                (fun search => indexOrder search record) in
              (b', let? _ := r in Ok record)
        end
    end.

Definition Admit (e : io document) (b : Book) (signedBOC : string) (snapshot : ChainAccountSnapshot)
    (now : N) : Book * result OrderRecord :=
  if (now =? 0) || (slen signedBOC =? 0) || (8192 <? slen signedBOC)
  then (b, Err "prediction order book is unavailable")
  else
    match FromBOC signedBOC with
    | None => (b, Err "signed prediction order BOC is not canonical")
    | Some root =>
        if negb (bool_decide (signedBOC = ToBOC root))
        then (b, Err "signed prediction order BOC is not canonical")
        else
          match DecodeAndVerifySignedPredictionOrder root with
          | Err m => (b, Err m)
          | Ok verified => admitVerifiedLocked e b signedBOC verified snapshot now
          end
    end.

(** Assignment of a record's mutable fields. *)
Definition set_record (record : OrderRecord) (status : OrderStatus) (cumulative : N) (tx view : string)
    : OrderRecord :=
  {| or_Digest := or_Digest record; or_OrderCellHash := or_OrderCellHash record;
     or_TradingPublicKey := or_TradingPublicKey record; or_SignedOrderBOC := or_SignedOrderBOC record;
     or_Order := or_Order record; or_Status := status; or_CumulativeFilled := cumulative;
     or_LastFinalizedTxHash := tx; or_FinalityViewID := view |}.

Definition ApplyFinalizedFill (e : io document) (b : Book) (digest : string) (cumulative : N)
    (txHash finalityViewID : string) : Book * result unit :=
  if negb (canonicalDigest digest "tvm-cell-sha256:") || negb (canonicalDigest txHash "sha256:")
     || negb (canonicalDigest finalityViewID "sha256:")
  then (b, Err "finalized fill evidence is invalid")
  else if negb (lg_lock (bk_ledger b)) then (b, Err "prediction order book is closed")
  else
    match bk_orders b !! digest with
    | None => (b, Err "finalized fill conflicts with the durable order state")
    | Some record =>
        if bool_decide (or_Status record = OrderCanceled) || (cumulative <? or_CumulativeFilled record)
           || (o_QuantityLots (or_Order record) <? cumulative)
        then (b, Err "finalized fill conflicts with the durable order state")
        else if cumulative =? or_CumulativeFilled record then
          if negb (bool_decide (or_LastFinalizedTxHash record = txHash))
             || negb (bool_decide (or_FinalityViewID record = finalityViewID))
          then (b, Err "same cumulative fill has conflicting finality evidence")
          else (b, Ok tt)
        else
          let record := set_record record
            (if cumulative =? o_QuantityLots (or_Order record) then OrderFilled else or_Status record)
            cumulative txHash finalityViewID in
          commit_book e b (with_order (bk_doc b) digest record)
            (fun search => if bool_decide (or_Status record = OrderFilled)
                           then removeIndexedOrder search record else search)
    end.

Definition SuppressFinalizedCancellation (e : io document) (b : Book)
    (digest txHash finalityViewID : string) : Book * result unit :=
  if negb (canonicalDigest digest "tvm-cell-sha256:") || negb (canonicalDigest txHash "sha256:")
     || negb (canonicalDigest finalityViewID "sha256:")
  then (b, Err "finalized cancellation evidence is invalid")
  else if negb (lg_lock (bk_ledger b)) then (b, Err "prediction order book is closed")
  else
    match bk_orders b !! digest with
    | None => (b, Err "finalized cancellation conflicts with the durable order state")
    | Some record =>
        if bool_decide (or_Status record = OrderFilled)
        then (b, Err "finalized cancellation conflicts with the durable order state")
        else if bool_decide (or_Status record = OrderCanceled) then
          if negb (bool_decide (or_LastFinalizedTxHash record = txHash))
             || negb (bool_decide (or_FinalityViewID record = finalityViewID))
          then (b, Err "cancellation has conflicting finality evidence")
          else (b, Ok tt)
        else
          let record := set_record record OrderCanceled (or_CumulativeFilled record) txHash finalityViewID in
          commit_book e b (with_order (bk_doc b) digest record)
            (fun search => removeIndexedOrder search record)
    end.

Record MatchPlan := {
  pl_LeftDigest : string;
  pl_RightDigest : string;
  pl_Quantity : N;
  pl_LeftBOC : string;
  pl_RightBOC : string;
  pl_Amounts : MatchAmounts
}.

(** One iteration of [PlanMatch]'s loop over the two sides. *)
Definition match_side (profile : MarketProfile) (record : OrderRecord) (snapshot : ChainAccountSnapshot)
    (quantity now : N) : result unit :=
  let? _ := validateAuthority profile (or_Order record) snapshot now in
  if negb (bool_decide (or_TradingPublicKey record = hex_EncodeToString (cs_TradingPublicKey snapshot)))
  then Err "durable order key is not the current on-chain trading key"
  else ValidateOrderFill (or_Order record) (or_CumulativeFilled record) quantity
         (mp_MarketMinFillLots profile) now (mp_TradeClose profile).

(** Whether the complete account view shows the snapshot's balances. *)
Definition account_agrees (accounts : gmap string AccountBalance) (snapshot : ChainAccountSnapshot)
    : bool :=
  match accounts !! cs_OwnerAddress snapshot with
  | None => false
  | Some balance =>
      bool_decide (balance = {| ab_Free := cs_FreeBalance snapshot; ab_YesLots := cs_YesLots snapshot;
                                ab_NoLots := cs_NoLots snapshot |})
  end.

(** [PlanMatch]; of the two sides' checks Go may run either first. *)
Definition PlanMatch (b : Book) (leftDigest rightDigest : string) (quantity now : N)
    (marketSnapshot : ChainMarketSnapshot) (leftAccount rightAccount : ChainAccountSnapshot)
    : result MatchPlan :=
  if negb (lg_lock (bk_ledger b)) then Err "prediction order book is closed"
  else
    match bk_orders b !! leftDigest, bk_orders b !! rightDigest with
    | Some l, Some r =>
        if negb (bool_decide (or_Status l = OrderLive)) || negb (bool_decide (or_Status r = OrderLive))
           || bool_decide (leftDigest = rightDigest)
        then Err "match references absent or non-live orders"
        else if negb (bool_decide (cs_FinalityViewID leftAccount = cs_FinalityViewID rightAccount))
                || negb (bool_decide (cs_FinalityViewID leftAccount = ms_FinalityViewID marketSnapshot))
        then Err "match account snapshots are not from one finalized chain view"
        else
          let profile := bk_profile b in
          let? _ := validateMarketSnapshot profile marketSnapshot now in
          let? _ := match_side profile l leftAccount quantity now in
          let? _ := match_side profile r rightAccount quantity now in
          let? model := NewReferenceModel (mp_LotPayout profile) in
          let model :=
            {| rm_private := rm_private model; rm_CompleteSets := ms_CompleteSets marketSnapshot;
               rm_LockedCollateral := ms_LockedCollateral marketSnapshot;
               rm_Accounts := default ∅ (ms_Accounts marketSnapshot) ∪ rm_Accounts model |} in
          if negb (account_agrees (rm_Accounts model) leftAccount)
             || negb (account_agrees (rm_Accounts model) rightAccount)
          then Err "owner snapshot conflicts with the complete market account view"
          else if is_err (CheckInvariants model)
          then Err "finalized market snapshot violates collateral invariants"
          else
            let? amounts := Match model (or_Order l) (or_Order r) quantity in
            Ok {| pl_LeftDigest := leftDigest; pl_RightDigest := rightDigest; pl_Quantity := quantity;
                  pl_LeftBOC := default "" (base64_DecodeString (or_SignedOrderBOC l));
                  pl_RightBOC := default "" (base64_DecodeString (or_SignedOrderBOC r));
                  pl_Amounts := amounts |}
    | _, _ => Err "match references absent or non-live orders"
    end.

Definition LiveOrders (b : Book) : list OrderRecord :=
  if negb (lg_lock (bk_ledger b)) then []
  else sort_by or_Digest (filter (fun r => or_Status r = OrderLive) (map_vals (bk_orders b))).

(** The condition under which [SearchOrders] keeps a record of its index. *)
Definition search_hit (orders : gmap string OrderRecord) (query : OrderSearchQuery) (digest : string)
    : option OrderSearchResult :=
  match orders !! digest with
  | None => None
  | Some record =>
      let o := or_Order record in
      if negb (bool_decide (or_Status record = OrderLive)) || (sq_ValidAt query <? o_ValidAfter o)
         || (o_ValidUntil o <=? sq_ValidAt query)
         || (negb (sq_ExpiresAfter query =? 0) && (o_ValidUntil o <=? sq_ExpiresAfter query))
         || (negb (sq_ExpiresAtOrBefore query =? 0) && (sq_ExpiresAtOrBefore query <? o_ValidUntil o))
      then None
      else
        let remaining := sub64w (o_QuantityLots o) (or_CumulativeFilled record) in
        if remaining <? sq_MinimumRemainingLots query then None
        else Some {| sr_Record := record; sr_RemainingLots := remaining |}
  end.

(** The nested loops: stop as soon as [limit] results are collected. *)
Fixpoint search_loop (orders : gmap string OrderRecord) (query : OrderSearchQuery)
    (results : list OrderSearchResult) (digests : list string) : list OrderSearchResult * bool :=
  match digests with
  | [] => (results, false)
  | digest :: rest =>
      match search_hit orders query digest with
      | None => search_loop orders query results rest
      | Some hit =>
          let results := results ++ [hit] in
          if u32 (llen results) =? sq_Limit query then (results, true)
          else search_loop orders query results rest
      end
  end.

Fixpoint search_prices (orders : gmap string OrderRecord) (query : OrderSearchQuery)
    (byPrice : gmap N (list string)) (results : list OrderSearchResult) (prices : list N)
    : list OrderSearchResult :=
  match prices with
  | [] => results
  | price :: rest =>
      let '(results, full) := search_loop orders query results (default [] (byPrice !! price)) in
      if full then results else search_prices orders query byPrice results rest
  end.

(** [sort.Slice] on distinct prices. *)
Definition price_le (descending : bool) (p q : N) : Prop := if descending then q <= p else p <= q.

#[global] Instance price_le_dec descending p q : Decision (price_le descending p q).
Proof. unfold price_le. destruct descending; apply _. Defined.

Definition SearchOrders (b : Book) (query : OrderSearchQuery) : result (list OrderSearchResult) :=
  if bool_decide (sq_MarketID query = ""%string) || (sq_ValidAt query =? 0)
     || (sq_MinimumRemainingLots query =? 0) || (sq_Limit query =? 0) || (1000 <? sq_Limit query)
     || (negb (sq_Outcome query =? OutcomeYes) && negb (sq_Outcome query =? OutcomeNo))
     || (negb (sq_Action query =? ActionBuy) && negb (sq_Action query =? ActionSell))
  then Err "prediction order search query is invalid"
  else if negb (lg_lock (bk_ledger b))
          || negb (bool_decide (sq_MarketID query = mp_MarketID (bk_profile b)))
          || (mp_TradeClose (bk_profile b) <=? sq_ValidAt query)
  then Err "prediction order search is outside the active market"
  else
    let minimumPrice := if sq_MinimumPriceTick query =? 0 then 1 else sq_MinimumPriceTick query in
    let maximumPrice := if sq_MaximumPriceTick query =? 0 then PriceScale - 1
                        else sq_MaximumPriceTick query in
    if (maximumPrice <? minimumPrice) || (PriceScale <=? maximumPrice)
       || (negb (sq_ExpiresAtOrBefore query =? 0)
           && (sq_ExpiresAtOrBefore query <=? sq_ExpiresAfter query))
    then Err "prediction order search range is invalid"
    else
      let byPrice := default ∅ (bk_search b !! (sq_Outcome query, sq_Action query)) in
      let prices := filter (fun price => minimumPrice <= price /\ price <= maximumPrice)
                      (map_to_list byPrice).*1 in
      Ok (search_prices (bk_orders b) query byPrice []
            (merge_sort (price_le (sq_PriceDescending query)) prices)).

(** ** Specification *)

(** The entries the index must hold: the live orders. *)
Definition live_entry (orders : gmap string OrderRecord) (digest : string) (key : N * N) (price : N)
    : Prop :=
  exists r, orders !! digest = Some r /\ or_Status r = OrderLive /\
    key = index_key r /\ price = o_LimitPriceTick (or_Order r).

(** One owner's key epoch and nonce name one order. *)
Definition nonce_unique (orders : gmap string OrderRecord) : Prop :=
  forall k1 k2 r1 r2, orders !! k1 = Some r1 -> orders !! k2 = Some r2 ->
  o_OwnerAddress (or_Order r1) = o_OwnerAddress (or_Order r2) ->
  o_KeyEpoch (or_Order r1) = o_KeyEpoch (or_Order r2) ->
  o_Nonce (or_Order r1) = o_Nonce (or_Order r2) -> k1 = k2.

Record book_ok (profile : MarketProfile) (d : document) : Prop := {
  ok_schema : bd_SchemaVersion d = 1;
  ok_profile : bd_Profile d = profile;
  ok_size : N.of_nat (size (bd_Orders d)) <= mp_MaxOrders profile;
  ok_records : map_Forall (fun k r => validate_record k r = Ok tt) (bd_Orders d);
  ok_quantity : map_Forall (fun _ r => is_u64 (o_QuantityLots (or_Order r))) (bd_Orders d);
  ok_nonce : nonce_unique (bd_Orders d)
}.

(** An order's bytes are fixed, its fills only grow, and once it is filled or
    cancelled it is frozen. *)
Definition record_le (r r' : OrderRecord) : Prop :=
  r' = set_record r (or_Status r') (or_CumulativeFilled r') (or_LastFinalizedTxHash r') (or_FinalityViewID r') /\
  or_CumulativeFilled r <= or_CumulativeFilled r' /\
  (or_Status r <> OrderLive -> r' = r).

#[global] Instance book_record_le_preorder : PreOrder record_le.
Proof.
  split.
  - intros r. repeat split; [by destruct r|lia].
  - intros r1 r2 r3 (H1 & H2 & H3) (H4 & H5 & H6). repeat split; [|lia|].
    + rewrite H4. unfold set_record at 1. rewrite H1. done.
    + intros Hs. pose proof (H3 Hs). subst r2. auto.
Qed.

Definition book_le (d d' : document) : Prop := map_le record_le (bd_Orders d) (bd_Orders d').

#[global] Instance book_le_preorder : PreOrder book_le.
Proof.
  split; [intros d|intros d1 d2 d3]; unfold book_le; [reflexivity|].
  apply (transitivity (R := map_le record_le)).
Qed.

#[global] Instance book_durable : Durable MarketProfile document :=
  {| doc_ok := book_ok; doc_le := book_le |}.

(** The whole object: its ledger is sound and its index lists exactly the
    live orders. *)
Definition book_inv (profile : MarketProfile) (b : Book) : Prop :=
  ledger_ok profile (bk_ledger b) /\ index_rep (bk_search b) (live_entry (bk_orders b)).

(** ** Lemmas *)
Lemma rebuild_fold search entry l :
  index_rep search entry ->
  index_rep
    (foldl (fun search record =>
       if bool_decide (or_Status record = OrderLive) then indexOrder search record else search) search l)
    (fun d k p => entry d k p \/ exists r, r ∈ l /\ or_Status r = OrderLive /\ entry_of r d k p).
Proof.
  revert search entry. induction l as [|r l IH]; intros search entry Hrep; simpl.
  - eapply index_rep_proper; [|exact Hrep]. intros d k p. split; [auto|].
    intros [?|(r & Hr & _)]; [done|by apply not_elem_of_nil in Hr].
  - case_bool_decide as Hl.
    + eapply index_rep_proper; [|apply IH, indexOrder_rep, Hrep]. intros d k p. simpl.
      setoid_rewrite elem_of_cons. naive_solver.
    + eapply index_rep_proper; [|apply IH, Hrep]. intros d k p. setoid_rewrite elem_of_cons. naive_solver.
Qed.

Lemma validate_record_digest k r : validate_record k r = Ok tt -> k = or_Digest r.
Proof. unfold validate_record. intros Hv. cbv zeta in Hv. head_case Hv eqn E; [done|]. by bprop. Qed.

(** Rebuilding from the documents gives the index of the live orders. *)
Lemma rebuild_rep orders :
  map_Forall (fun k r => or_Digest r = k) orders ->
  index_rep (rebuildSearchIndex orders) (live_entry orders).
Proof.
  intros Hk. unfold rebuildSearchIndex.
  eapply index_rep_proper; [|apply rebuild_fold, index_rep_empty]. intros d k p. unfold live_entry, entry_of.
  setoid_rewrite elem_of_map_vals. split.
  - intros [[]|(r & [k0 Hr] & Hl & -> & -> & ->)]. exists r. pose proof (Hk k0 r Hr) as Hk0. simpl in Hk0. by subst k0.
  - intros (r & Hr & Hl & -> & ->). right. exists r. pose proof (Hk d r Hr) as Hd. simpl in Hd. eauto 6.
Qed.

Lemma book_persist_ok e : persist_sound (persist e).
Proof. apply persist_bounded_sound. Qed.

Lemma commit_book_inv profile e b next reindex b' r :
  book_inv profile b -> book_ok profile next -> book_le (bk_doc b) next ->
  index_rep (reindex (bk_search b)) (live_entry (bd_Orders next)) ->
  commit_book e b next reindex = (b', r) ->
  book_inv profile b' /\ book_le (bk_doc b) (bk_doc b').
Proof.
  intros [Hl Hi] Hn Hle Hr Hc. unfold commit_book in Hc.
  destruct (commit (persist e) (bk_ledger b) next) as [l rc] eqn:Ec.
  assert (outcome profile (bk_ledger b) l) as Ho by (eapply outcome_commit; [apply book_persist_ok|done..]).
  destruct (outcome_ok _ _ _ Hl Ho) as [Hl' Hle'].
  destruct (commit_cases _ _ _ _ _ (book_persist_ok e) Ec) as [_ [(-> & Hdoc & _)|(Herr & Hdoc & _)]].
  - injection Hc as <- _. split; [|exact Hle']. split; [done|]. simpl. unfold bk_orders, bk_doc. simpl.
    by rewrite Hdoc.
  - destruct rc as [[]|]; [done|]. injection Hc as <- _. split; [|exact Hle']. split; [done|]. simpl.
    unfold bk_orders, bk_doc in *. simpl. by rewrite Hdoc.
Qed.

(** A record of the document and its bytes. *)
Lemma with_order_ok profile d k r :
  book_ok profile d -> validate_record k r = Ok tt -> is_u64 (o_QuantityLots (or_Order r)) ->
  N.of_nat (size (<[k := r]> (bd_Orders d))) <= mp_MaxOrders profile ->
  nonce_unique (<[k := r]> (bd_Orders d)) ->
  book_ok profile (with_order d k r).
Proof. intros [] ? ? ? ?. split; simpl; try done; by apply map_Forall_insert_2. Qed.

(** Replacing an order's mutable fields. *)
Lemma replace_order_ok profile d k r r' :
  book_ok profile d -> bd_Orders d !! k = Some r -> or_Status r = OrderLive -> record_le r r' ->
  validate_record k r' = Ok tt ->
  book_ok profile (with_order d k r') /\ book_le d (with_order d k r').
Proof.
  intros Hd Hk Hlive Hle Hv. pose proof Hle as (Heq & _ & _).
  assert (or_Order r' = or_Order r) as Ho by (by rewrite Heq).
  split.
  - apply with_order_ok; [done|done|rewrite Ho; exact (ok_quantity _ _ Hd k r Hk)| |].
    + rewrite map_size_insert_Some by eauto. apply Hd.
    + intros k1 k2 r1 r2 H1 H2.
      assert (forall k0 r0, <[k := r']> (bd_Orders d) !! k0 = Some r0 ->
        exists r0', bd_Orders d !! k0 = Some r0' /\ or_Order r0' = or_Order r0) as Hold.
      { intros k0 r0 H0. apply lookup_insert_Some in H0 as [[<- <-]|[_ H0]]; eauto. }
      apply Hold in H1 as (r1' & H1 & <-). apply Hold in H2 as (r2' & H2 & <-). by apply (ok_nonce _ _ Hd).
  - apply (map_le_insert record_le). intros r0 Hr0. rewrite Hk in Hr0. by injection Hr0 as <-.
Qed.

(** The part of [validate_record] that depends on the exact signed bytes only. *)
Definition bytes_ok (record : OrderRecord) : Prop :=
  exists raw root v,
    slen (or_SignedOrderBOC record) <= 12000 /\ base64_DecodeString (or_SignedOrderBOC record) = Some raw /\
    FromBOC raw = Some root /\ slen raw <= 8192 /\ raw = ToBOC root /\
    DecodeAndVerifySignedPredictionOrder root = Ok v /\
    CellHashString (so_OrderDigest v) = or_Digest record /\
    CellHashString (so_OrderCellHash v) = or_OrderCellHash record /\
    hex_EncodeToString (so_PublicKey v) = or_TradingPublicKey record /\ so_Order v = or_Order record.

(** The part that depends on the record's progress. *)
Definition progress_valid (digest : string) (r : OrderRecord) : Prop :=
  digest = or_Digest r /\ canonicalDigest digest "tvm-cell-sha256:" = true /\
  or_CumulativeFilled r <= o_QuantityLots (or_Order r) /\
  ((or_Status r = OrderLive /\ or_CumulativeFilled r < o_QuantityLots (or_Order r) /\
    ((or_CumulativeFilled r = 0 /\ or_LastFinalizedTxHash r = ""%string /\ or_FinalityViewID r = ""%string) \/
     (0 < or_CumulativeFilled r /\ canonicalDigest (or_LastFinalizedTxHash r) "sha256:" = true /\
      canonicalDigest (or_FinalityViewID r) "sha256:" = true))) \/
   (((or_Status r = OrderFilled /\ or_CumulativeFilled r = o_QuantityLots (or_Order r)) \/
     or_Status r = OrderCanceled) /\
    canonicalDigest (or_LastFinalizedTxHash r) "sha256:" = true /\
    canonicalDigest (or_FinalityViewID r) "sha256:" = true)).

(** The first guard of [validate_record]. *)
Definition progress_guard (digest : string) (record : OrderRecord) : bool :=
  let live := bool_decide (or_Status record = OrderLive) in
  let filled := bool_decide (or_Status record = OrderFilled) in
  let quantity := o_QuantityLots (or_Order record) in
  negb (bool_decide (digest = or_Digest record)) || negb (canonicalDigest digest "tvm-cell-sha256:")
  || (negb live && negb filled && negb (bool_decide (or_Status record = OrderCanceled)))
  || (quantity <? or_CumulativeFilled record)
  || (live && (or_CumulativeFilled record =? quantity))
  || (filled && negb (or_CumulativeFilled record =? quantity))
  || (live && (or_CumulativeFilled record =? 0)
      && (negb (bool_decide (or_LastFinalizedTxHash record = ""%string))
          || negb (bool_decide (or_FinalityViewID record = ""%string))))
  || ((negb live || (0 <? or_CumulativeFilled record))
      && (negb (canonicalDigest (or_LastFinalizedTxHash record) "sha256:")
          || negb (canonicalDigest (or_FinalityViewID record) "sha256:"))).

Lemma progress_guard_ok digest r : progress_guard digest r = false <-> progress_valid digest r.
Proof.
  unfold progress_guard, progress_valid.
  destruct (decide (or_Status r = OrderLive)) as [Hl|Hl];
    [|destruct (decide (or_Status r = OrderFilled)) as [Hf|Hf];
      [|destruct (decide (or_Status r = OrderCanceled)) as [Hc|Hc]]].
  - rewrite Hl. change (bool_decide (OrderLive = OrderLive)) with true.
    change (bool_decide (OrderLive = OrderFilled)) with false. cbn [negb andb orb].
    split.
    + intros Hg. bprop. split_and!; [done..|]. left. split_and!; [done|lia|].
      destruct (N.eqb_spec (or_CumulativeFilled r) 0) as [Hz|Hz]; [left|right; split_and!; [lia| |]];
        repeat match goal with H : _ \/ _ |- _ => destruct H; bprop; try done; try lia end.
    + intros (-> & -> & Hle & [(_ & Hlt & Hcase)|([[? _]|?] & _)]); [|done|done].
      rewrite bool_decide_true by done.
      rewrite (proj2 (N.ltb_ge _ _)) by lia. rewrite (proj2 (N.eqb_neq _ _)) by lia. simpl.
      destruct Hcase as [(-> & -> & ->)|(Hpos & -> & ->)]; [reflexivity|].
      rewrite (proj2 (N.eqb_neq _ _)) by lia. rewrite (proj2 (N.ltb_lt _ _)) by lia. reflexivity.
  - rewrite Hf. change (bool_decide (OrderFilled = OrderLive)) with false.
    change (bool_decide (OrderFilled = OrderFilled)) with true. cbn [negb andb orb].
    split.
    + intros Hg. bprop. split_and!; [done..|]. right. split_and!; [by left|done|done].
    + intros (-> & -> & Hle & [[? _]|([[_ Hq]|?] & -> & ->)]); [done| |done].
      rewrite bool_decide_true by done. rewrite (proj2 (N.ltb_ge _ _)) by lia.
      rewrite (proj2 (N.eqb_eq _ _)) by lia. reflexivity.
  - rewrite Hc. change (bool_decide (OrderCanceled = OrderLive)) with false.
    change (bool_decide (OrderCanceled = OrderFilled)) with false.
    change (bool_decide (OrderCanceled = OrderCanceled)) with true. cbn [negb andb orb].
    split.
    + intros Hg. bprop. split_and!; [done..|]. right. split_and!; [by right|done|done].
    + intros (-> & -> & Hle & [[? _]|([[? _]|_] & -> & ->)]); [done|done|].
      rewrite bool_decide_true by done. rewrite (proj2 (N.ltb_ge _ _)) by lia. reflexivity.
  - rewrite (bool_decide_false _ Hl), (bool_decide_false _ Hf), (bool_decide_false _ Hc).
    cbn [negb andb orb]. rewrite !orb_true_r. simpl. naive_solver.
Qed.

Lemma validate_record_ok digest r :
  validate_record digest r = Ok tt <-> progress_valid digest r /\ bytes_ok r.
Proof.
  rewrite <-progress_guard_ok. unfold validate_record. cbv zeta. fold (progress_guard digest r).
  destruct (progress_guard digest r); [naive_solver|]. unfold bytes_ok.
  destruct (N.ltb_spec 12000 (slen (or_SignedOrderBOC r))) as [Hs|Hs];
    [split; [done|intros (_ & raw & root & v & ? & _); lia]|].
  destruct (base64_DecodeString (or_SignedOrderBOC r)) as [raw|]; [|naive_solver].
  destruct (FromBOC raw) as [root|] eqn:Eroot; [|naive_solver].
  destruct (N.ltb_spec 8192 (slen raw)) as [Hr|Hr]; simpl;
    [split; [done|intros (_ & raw' & root' & v & _ & [= <-] & _ & ? & _); lia]|].
  case_bool_decide as Hb; simpl; [|naive_solver].
  destruct (DecodeAndVerifySignedPredictionOrder root) as [v|] eqn:Ev.
  2:{ split; [done|]. intros (_ & raw' & root' & v' & _ & [= <-] & Hroot & _ & _ & Hv & _).
      rewrite Eroot in Hroot. injection Hroot as <-. congruence. }
  split.
  - intros Hv. head_case Hv eqn Eg; [done|]. bprop. split; [done|]. exists raw, root, v. done.
  - intros (_ & raw' & root' & v' & _ & [= <-] & Hroot & _ & _ & Hv & H1 & H2 & H3 & H4).
    rewrite Eroot in Hroot. injection Hroot as <-. rewrite Ev in Hv. injection Hv as <-.
    by rewrite !bool_decide_true.
Qed.

(** How the set of live entries changes with one record. *)
Lemma live_entry_fresh orders k r d key price :
  orders !! k = None -> or_Digest r = k -> or_Status r = OrderLive ->
  live_entry orders d key price \/ entry_of r d key price <->
  live_entry (<[k := r]> orders) d key price.
Proof.
  intros Hf Hk Hl. unfold live_entry, entry_of. subst k. split.
  - intros [(r0 & Hr0 & ?)|(-> & -> & ->)].
    + exists r0. rewrite lookup_insert_ne by congruence. done.
    + exists r. by rewrite lookup_insert_eq.
  - intros (r0 & Hr0 & Hl0 & -> & ->). apply lookup_insert_Some in Hr0 as [[<- <-]|[_ Hr0]]; [by right|].
    left. by exists r0.
Qed.

Lemma live_entry_closed orders k r r' d key price :
  orders !! k = Some r -> or_Status r = OrderLive -> or_Digest r' = k -> or_Order r' = or_Order r ->
  or_Status r' <> OrderLive ->
  live_entry orders d key price /\ ~ entry_of r' d key price <->
  live_entry (<[k := r']> orders) d key price.
Proof.
  intros Hk Hl Hd Ho Hs. unfold live_entry, entry_of, index_key. rewrite Ho. split.
  - intros [(r0 & Hr0 & Hl0 & -> & ->) Hne]. exists r0. rewrite lookup_insert_ne; [done|].
    intros <-. rewrite Hk in Hr0. injection Hr0 as <-. apply Hne. done.
  - intros (r0 & Hr0 & Hl0 & -> & ->). apply lookup_insert_Some in Hr0 as [[_ <-]|[Hne Hr0]]; [done|].
    split; [by exists r0|]. intros (-> & _). congruence.
Qed.

Lemma live_entry_same orders k r r' d key price :
  orders !! k = Some r -> or_Status r = OrderLive -> or_Order r' = or_Order r -> or_Status r' = OrderLive ->
  live_entry orders d key price <-> live_entry (<[k := r']> orders) d key price.
Proof.
  intros Hk Hl Ho Hs. unfold live_entry, index_key. split.
  - intros (r0 & Hr0 & Hl0 & -> & ->). destruct (decide (k = d)) as [<-|Hne].
    + rewrite Hk in Hr0. injection Hr0 as <-. exists r'. rewrite lookup_insert_eq, Ho. done.
    + exists r0. by rewrite lookup_insert_ne.
  - intros (r0 & Hr0 & Hl0 & -> & ->). apply lookup_insert_Some in Hr0 as [[<- <-]|[_ Hr0]]; [|by exists r0].
    exists r. rewrite Ho. done.
Qed.

(** The bytes handed to [admitVerifiedLocked] are the canonical encoding of
    the order it verified. *)
Definition verified_bytes (signedBOC : string) (v : SignedPredictionOrderV1) : Prop :=
  slen signedBOC <= 8192 /\ exists root, FromBOC signedBOC = Some root /\ signedBOC = ToBOC root /\
    DecodeAndVerifySignedPredictionOrder root = Ok v.

Lemma admitVerifiedLocked_cases e b boc v s now b' r :
  admitVerifiedLocked e b boc v s now = (b', r) ->
  let record := record_of boc v in
  (b' = b /\ (is_err r = true \/ exists prior, bk_orders b !! or_Digest record = Some prior /\ r = Ok prior)) \/
  exists rc, lg_lock (bk_ledger b) = true /\ bk_orders b !! or_Digest record = None /\
    validateAdmission (bk_doc b) v s now = Ok tt /\
    map_any (fun _ prior => nonce_taken record prior) (bk_orders b) = false /\
    commit_book e b (with_order (bk_doc b) (or_Digest record) record)
      (fun search => indexOrder search record) = (b', rc) /\
    r = (let? _ := rc in Ok record).
Proof.
  intros Hop record. unfold admitVerifiedLocked in Hop. cbv zeta in Hop. fold record in Hop.
  fold (bk_orders b) in Hop.
  head_case Hop eqn E1; [left; simplify_eq; auto|]. head_case Hop eqn E2.
  { left. case_match; simplify_eq; eauto. }
  head_case Hop as [[]|] eqn E3; [|left; simplify_eq; auto].
  head_case Hop eqn E4; [left; simplify_eq; auto|].
  destruct (commit_book _ _ _ _) as [b2 rc] eqn:Ec in Hop. injection Hop as <- <-.
  right. exists rc. apply negb_false_iff in E1. done.
Qed.

Lemma nonce_fresh orders record :
  map_Forall (fun k r => or_Digest r = k) orders -> nonce_unique orders ->
  orders !! or_Digest record = None ->
  map_any (fun _ prior => nonce_taken record prior) orders = false ->
  nonce_unique (<[or_Digest record := record]> orders).
Proof.
  intros Hkey Hu Hf Hn. rewrite map_any_false in Hn.
  assert (forall k r, orders !! k = Some r -> o_OwnerAddress (or_Order r) = o_OwnerAddress (or_Order record) ->
    o_KeyEpoch (or_Order r) = o_KeyEpoch (or_Order record) ->
    o_Nonce (or_Order r) = o_Nonce (or_Order record) -> False) as Hno.
  { intros k r Hr H1 H2 H3. specialize (Hn k r Hr). unfold nonce_taken in Hn.
    rewrite (bool_decide_true _ H1), H2, H3, !N.eqb_refl in Hn. simpl in Hn. bprop.
    pose proof (Hkey k r Hr) as Hk. simpl in Hk. congruence. }
  intros k1 k2 r1 r2 H1 H2 Ho He Hn'.
  apply lookup_insert_Some in H1 as [[<- <-]|[_ H1]]; apply lookup_insert_Some in H2 as [[<- <-]|[_ H2]].
  - done.
  - destruct (Hno k2 r2 H2); congruence.
  - destruct (Hno k1 r1 H1); congruence.
  - by apply (Hu k1 k2 r1 r2).
Qed.

Lemma book_keyed profile d :
  book_ok profile d -> map_Forall (fun k r => or_Digest r = k) (bd_Orders d).
Proof. intros Hd k r Hr. symmetry. apply validate_record_digest. exact (ok_records _ _ Hd k r Hr). Qed.

Lemma record_of_valid `{!SignedOrderLaws} boc v :
  verified_bytes boc v ->
  validate_record (or_Digest (record_of boc v)) (record_of boc v) = Ok tt /\
  is_u64 (o_QuantityLots (so_Order v)).
Proof.
  intros (Hlen & root & Hroot & Hcan & Hv). destruct (verified_quantity _ _ Hv) as [Hq Hu].
  split; [|done]. apply validate_record_ok. split.
  - unfold progress_valid, record_of. simpl.
    split_and!; [done|apply CellHashString_canonical; by eapply verified_digest|lia|].
    left. split_and!; [done|done|by left].
  - exists boc, root, v. simpl. rewrite base64_decode_encode, slen_base64. unfold base64_EncodedLen.
    split_and!; try done. assert ((slen boc + 2) / 3 <= 8194 / 3); [|change (8194 / 3) with 2731 in *; lia].
    apply N.Div0.div_le_mono. lia.
Qed.

Lemma admit_inv `{!SignedOrderLaws} profile e b boc v s now b' r :
  mp_MaxOrders profile <= 100000 -> verified_bytes boc v -> book_inv profile b ->
  admitVerifiedLocked e b boc v s now = (b', r) ->
  book_inv profile b' /\ book_le (bk_doc b) (bk_doc b').
Proof.
  intros Hmax Hbytes Hb Hop.
  apply admitVerifiedLocked_cases in Hop as [[-> _]|(rc & _ & Hf & Hadm & Hn & Hc & _)]; [by split|].
  set (record := record_of boc v) in *. destruct (record_of_valid boc v Hbytes) as [Hv Hu].
  pose proof (proj1 (proj1 Hb) : book_ok profile (bk_doc b)) as Hd.
  eapply (commit_book_inv profile); [done| | | |exact Hc].
  - apply with_order_ok; [done|exact Hv|exact Hu| |].
    + rewrite map_size_insert_None by done.
      unfold validateAdmission in Hadm. cbv zeta in Hadm. head_case Hadm eqn E1; [done|].
      head_case Hadm eqn E2; [|done]. head_case Hadm eqn E3; [done|]. head_case Hadm eqn E4; [done|].
      bprop. rewrite (ok_profile _ _ Hd) in *.
      rewrite (len32_exact _ (mp_MaxOrders profile)) in * by (apply Hd || (unfold MaxUint32; lia)). lia.
    + apply nonce_fresh; [by eapply book_keyed|apply Hd|done|done].
  - apply (map_le_insert record_le). intros r0 Hr0. unfold bk_orders in Hf. congruence.
  - eapply index_rep_proper; [|apply indexOrder_rep, Hb]. intros d k p. by apply live_entry_fresh.
Qed.

Lemma Admit_inv `{!SignedOrderLaws} profile e b boc s now b' r :
  mp_MaxOrders profile <= 100000 -> book_inv profile b -> Admit e b boc s now = (b', r) ->
  book_inv profile b' /\ book_le (bk_doc b) (bk_doc b').
Proof.
  intros Hmax Hb Hop. unfold Admit in Hop. head_case Hop eqn E1; [simplify_eq; by split|].
  head_case Hop as [root|] eqn E2; [|simplify_eq; by split].
  head_case Hop eqn E3; [simplify_eq; by split|]. head_case Hop as [v|] eqn E4; [|simplify_eq; by split].
  bprop. eapply admit_inv; [done| |done|exact Hop]. split; [done|]. by exists root.
Qed.

Lemma fill_book_inv profile e b digest cumulative tx view b' r :
  book_inv profile b -> ApplyFinalizedFill e b digest cumulative tx view = (b', r) ->
  book_inv profile b' /\ book_le (bk_doc b) (bk_doc b').
Proof.
  intros Hb Hop. unfold ApplyFinalizedFill in Hop. head_case Hop eqn E1; [simplify_eq; by split|].
  head_case Hop eqn E2; [simplify_eq; by split|]. head_case Hop as [r0|] eqn E3; [|simplify_eq; by split].
  head_case Hop eqn E4; [simplify_eq; by split|].
  head_case Hop eqn E5; [case_match; simplify_eq; by split|]. cbv zeta in Hop. bprop.
  pose proof (proj1 (proj1 Hb) : book_ok profile (bk_doc b)) as Hd. pose proof (ok_records _ _ Hd _ _ E3) as Hv. simpl in Hv.
  apply validate_record_ok in Hv as [(Hkd & Hcan & Hle & Hprog) Hbytes].
  assert (or_Status r0 = OrderLive) as Hlive.
  { destruct Hprog as [[? _]|[[[_ ?]|?] _]]; [done|lia|done]. }
  rewrite Hlive in Hop. set (st := if cumulative =? o_QuantityLots (or_Order r0) then OrderFilled else OrderLive) in Hop.
  set (r' := set_record r0 st cumulative tx view) in *.
  destruct (replace_order_ok profile (bk_doc b) digest r0 r') as [Hok Hble]; [done|done|done| | |].
  - repeat split; simpl; [lia|congruence].
  - apply validate_record_ok. split; [|exact Hbytes]. split_and!; [done|done|done|]. simpl.
    unfold st. destruct (N.eqb_spec cumulative (o_QuantityLots (or_Order r0))) as [Hq|Hq].
    + right. split_and!; [by left|done|done].
    + left. split_and!; [done|lia|]. right. split_and!; [lia|done|done].
  - eapply (commit_book_inv profile); [done|done|done| |exact Hop]. simpl. unfold st in *.
    destruct (N.eqb_spec cumulative (o_QuantityLots (or_Order r0))) as [Hq|Hq].
    + rewrite bool_decide_true by done. eapply index_rep_proper; [|apply removeIndexedOrder_rep, Hb].
      intros d k p. by eapply live_entry_closed.
    + rewrite bool_decide_false by done. eapply index_rep_proper; [|apply Hb].
      intros d k p. by eapply live_entry_same.
Qed.

Lemma cancel_book_inv profile e b digest tx view b' r :
  book_inv profile b -> SuppressFinalizedCancellation e b digest tx view = (b', r) ->
  book_inv profile b' /\ book_le (bk_doc b) (bk_doc b').
Proof.
  intros Hb Hop. unfold SuppressFinalizedCancellation in Hop. head_case Hop eqn E1; [simplify_eq; by split|].
  head_case Hop eqn E2; [simplify_eq; by split|]. head_case Hop as [r0|] eqn E3; [|simplify_eq; by split].
  head_case Hop eqn E4; [simplify_eq; by split|].
  head_case Hop eqn E5; [case_match; simplify_eq; by split|]. cbv zeta in Hop. bprop.
  pose proof (proj1 (proj1 Hb) : book_ok profile (bk_doc b)) as Hd. pose proof (ok_records _ _ Hd _ _ E3) as Hv. simpl in Hv.
  apply validate_record_ok in Hv as [(Hkd & Hcan & Hle & Hprog) Hbytes].
  assert (or_Status r0 = OrderLive) as Hlive by (destruct Hprog as [[? _]|[[[? _]|?] _]]; done).
  set (r' := set_record r0 _ _ _ _) in *.
  destruct (replace_order_ok profile (bk_doc b) digest r0 r') as [Hok Hble]; [done|done|done| | |].
  - repeat split; simpl; [lia|congruence].
  - apply validate_record_ok. split; [|exact Hbytes]. split_and!; [done|done|done|]. simpl.
    right. split_and!; [by right|done|done].
  - eapply (commit_book_inv profile); [done|done|done| |exact Hop].
    eapply index_rep_proper; [|apply removeIndexedOrder_rep, Hb].
    intros d k p. by eapply live_entry_closed.
Qed.

(** ** Searching *)

(** The price range a query asks for, with its defaults. *)
Definition query_minimum (query : OrderSearchQuery) : N :=
  if sq_MinimumPriceTick query =? 0 then 1 else sq_MinimumPriceTick query.
Definition query_maximum (query : OrderSearchQuery) : N :=
  if sq_MaximumPriceTick query =? 0 then PriceScale - 1 else sq_MaximumPriceTick query.

(** What a query asks for: a stored live order of the asked side, price,
    validity and size, with its exact remainder. *)
Definition search_match (orders : gmap string OrderRecord) (query : OrderSearchQuery)
    (x : OrderSearchResult) : Prop :=
  let r := sr_Record x in
  let o := or_Order r in
  orders !! or_Digest r = Some r /\ or_Status r = OrderLive /\
  o_Outcome o = sq_Outcome query /\ o_Action o = sq_Action query /\
  query_minimum query <= o_LimitPriceTick o <= query_maximum query /\
  o_ValidAfter o <= sq_ValidAt query < o_ValidUntil o /\
  (sq_ExpiresAfter query <> 0 -> sq_ExpiresAfter query < o_ValidUntil o) /\
  (sq_ExpiresAtOrBefore query <> 0 -> o_ValidUntil o <= sq_ExpiresAtOrBefore query) /\
  sr_RemainingLots x = o_QuantityLots o - or_CumulativeFilled r /\
  sq_MinimumRemainingLots query <= sr_RemainingLots x.

(** Best price first, digests breaking ties. *)
Definition search_before (descending : bool) (x y : OrderSearchResult) : Prop :=
  let px := o_LimitPriceTick (or_Order (sr_Record x)) in
  let py := o_LimitPriceTick (or_Order (sr_Record y)) in
  (if descending then py < px else px < py) \/
  (px = py /\ str_lt (or_Digest (sr_Record x)) (or_Digest (sr_Record y)) = true).

Lemma search_loop_take orders query results digests :
  sq_Limit query <= 1000 -> llen results < sq_Limit query ->
  let all := results ++ omap (search_hit orders query) digests in
  search_loop orders query results digests =
    (take (N.to_nat (sq_Limit query)) all, sq_Limit query <=? llen all).
Proof.
  intros Hlim. revert results. induction digests as [|d digests IH]; intros results Hr; simpl.
  - rewrite app_nil_r. unfold llen in *. rewrite take_ge by lia.
    f_equal. symmetry. apply N.leb_gt. lia.
  - destruct (search_hit orders query d) as [hit|]; [|apply IH; done].
    assert (llen (results ++ [hit]) = llen results + 1) as Hlen by (unfold llen; rewrite length_app; simpl; lia).
    rewrite u32_small by (unfold MaxUint32; lia). rewrite Hlen.
    rewrite (cons_middle hit results (list_omap _ _ (search_hit orders query) digests)), app_assoc.
    destruct (N.eqb_spec (llen results + 1) (sq_Limit query)) as [He|He].
    + assert (length (results ++ [hit]) = N.to_nat (sq_Limit query)) as Hl by (unfold llen in *; lia).
      rewrite (take_app_le (results ++ [hit])) by lia. rewrite take_ge by lia.
      f_equal. symmetry. apply N.leb_le. unfold llen. rewrite (length_app (results ++ [hit])). lia.
    + apply IH. lia.
Qed.

Lemma search_prices_take orders query byPrice results prices :
  sq_Limit query <= 1000 -> llen results < sq_Limit query ->
  search_prices orders query byPrice results prices =
    take (N.to_nat (sq_Limit query))
      (results ++ (prices ≫= fun price => omap (search_hit orders query) (default [] (byPrice !! price)))).
Proof.
  intros Hlim. revert results. induction prices as [|price prices IH]; intros results Hr; simpl.
  - rewrite app_nil_r, take_ge; [done|]. unfold llen in *. lia.
  - rewrite search_loop_take by done. set (here := omap _ _).
    destruct (N.leb_spec (sq_Limit query) (llen (results ++ here))) as [Hfull|Hfull].
    + rewrite app_assoc. symmetry. apply take_app_le. unfold llen in *. lia.
    + rewrite (take_ge (results ++ here)) by (unfold llen in *; lia). rewrite IH by done. by rewrite app_assoc.
Qed.

Lemma search_hit_spec profile b query digest x :
  book_ok profile (bk_doc b) ->
  search_hit (bk_orders b) query digest = Some x <->
    exists r, bk_orders b !! digest = Some r /\ or_Digest r = digest /\
      x = {| sr_Record := r; sr_RemainingLots := o_QuantityLots (or_Order r) - or_CumulativeFilled r |} /\
      or_Status r = OrderLive /\
      o_ValidAfter (or_Order r) <= sq_ValidAt query < o_ValidUntil (or_Order r) /\
      (sq_ExpiresAfter query <> 0 -> sq_ExpiresAfter query < o_ValidUntil (or_Order r)) /\
      (sq_ExpiresAtOrBefore query <> 0 -> o_ValidUntil (or_Order r) <= sq_ExpiresAtOrBefore query) /\
      sq_MinimumRemainingLots query <= o_QuantityLots (or_Order r) - or_CumulativeFilled r.
Proof.
  intros Hd. unfold search_hit. destruct (bk_orders b !! digest) as [r|] eqn:E; [|naive_solver].
  pose proof (book_keyed _ _ Hd digest r E) as Hk. simpl in Hk.
  pose proof (ok_records _ _ Hd digest r E) as Hv. apply validate_record_ok in Hv as [(_ & _ & Hle & _) _].
  pose proof (ok_quantity _ _ Hd digest r E) as Hq. simpl in Hq. unfold is_u64 in Hq. cbv zeta.
  rewrite sub64w_exact by done. split.
  - intros Hh. head_case Hh eqn E1; [done|]. head_case Hh eqn E2; [done|]. injection Hh as <-. bprop.
    exists r. split_and!; try done.
    + intros Hne. match goal with H : _ \/ (o_ValidUntil _ <=? sq_ExpiresAfter _) = false |- _ =>
        destruct H; bprop; [done|lia] end.
    + intros Hne. match goal with H : _ \/ (sq_ExpiresAtOrBefore _ <? _) = false |- _ =>
        destruct H; bprop; [done|lia] end.
  - intros (r' & [= <-] & _ & -> & Hl & [Ha Hu] & He1 & He2 & Hrem). rewrite bool_decide_true by done.
    rewrite (proj2 (N.ltb_ge _ _) Ha), (proj2 (N.leb_gt _ _) Hu), (proj2 (N.ltb_ge _ _) Hrem). simpl.
    destruct (N.eqb_spec (sq_ExpiresAfter query) 0) as [H1|H1]; simpl;
      [|rewrite (proj2 (N.leb_gt _ _) (He1 H1))]; simpl;
      (destruct (N.eqb_spec (sq_ExpiresAtOrBefore query) 0) as [H2|H2]; simpl;
        [done|by rewrite (proj2 (N.ltb_ge _ _) (He2 H2))]).
Qed.

(** The results of one price are in digest order. *)
Lemma hits_sorted profile b query digests desc price :
  book_ok profile (bk_doc b) -> strict_sorted digests ->
  (forall d r, d ∈ digests -> bk_orders b !! d = Some r -> o_LimitPriceTick (or_Order r) = price) ->
  StronglySorted (search_before desc) (omap (search_hit (bk_orders b) query) digests) /\
  (forall x, x ∈ omap (search_hit (bk_orders b) query) digests ->
     o_LimitPriceTick (or_Order (sr_Record x)) = price).
Proof.
  intros Hd Hs Hp.
  assert (forall d x, d ∈ digests -> search_hit (bk_orders b) query d = Some x ->
    or_Digest (sr_Record x) = d /\ o_LimitPriceTick (or_Order (sr_Record x)) = price) as Hhit.
  { intros d x Hin Hx. apply (search_hit_spec profile) in Hx as (r & Hr & Hk & -> & _); [|done]. simpl.
    split; [done|]. by apply (Hp d). }
  split.
  - clear Hp. induction Hs as [|d digests Hs IH Hall]; simpl; [constructor|].
    assert (StronglySorted (search_before desc) (omap (search_hit (bk_orders b) query) digests)) as IH'.
    { apply IH. intros d' x Hin. apply Hhit. by right. }
    destruct (search_hit (bk_orders b) query d) as [x|] eqn:E; [|done]. constructor; [done|].
    apply Forall_forall. intros y Hy. apply list_elem_of_omap in Hy as (d' & Hd' & Hy).
    destruct (Hhit d x ltac:(by left) E) as [Hx1 Hx2]. destruct (Hhit d' y ltac:(by right) Hy) as [Hy1 Hy2].
    right. split; [congruence|]. rewrite Hx1, Hy1. rewrite Forall_forall in Hall. by apply Hall.
  - intros x Hx. apply list_elem_of_omap in Hx as (d & Hd' & Hx). by apply (Hhit d).
Qed.

(** Blocks of strictly sorted prices stay sorted when concatenated. *)
Lemma blocks_sorted desc prices (block : N -> list OrderSearchResult) :
  StronglySorted (price_le desc) prices -> NoDup prices ->
  (forall p, p ∈ prices -> StronglySorted (search_before desc) (block p) /\
     forall x, x ∈ block p -> o_LimitPriceTick (or_Order (sr_Record x)) = p) ->
  StronglySorted (search_before desc) (prices ≫= block).
Proof.
  intros Hs. induction Hs as [|p prices Hs IH Hall]; intros Hnd Hb; simpl; [constructor|].
  apply NoDup_cons in Hnd as [Hp Hnd]. apply StronglySorted_app. split_and!.
  - intros x y Hx Hy. apply list_elem_of_bind in Hy as (q & Hy & Hq).
    destruct (Hb p ltac:(by left)) as [_ Hpx]. destruct (Hb q ltac:(by right)) as [_ Hpy].
    rewrite Forall_forall in Hall. specialize (Hall q Hq). assert (p <> q) by congruence.
    left. rewrite (Hpx x Hx), (Hpy y Hy). unfold price_le in Hall. destruct desc; lia.
  - apply Hb. by left.
  - apply IH; [done|]. intros q Hq. apply Hb. by right.
Qed.

(** ** What admission reserves *)

(** The collateral [n] lots cost at a price, exactly. *)
Definition buy_cost (lot price n : N) : N := n * (lot / PriceScale) * price.

Lemma buyReservation_spec lot price quantity v :
  buyReservation lot price quantity = (v, true) <->
    quantity * (lot / PriceScale) <= MaxUint64 /\ v = buy_cost lot price quantity /\ v <= MaxUint64.
Proof.
  unfold buyReservation, buy_cost. cbv zeta. set (unit := lot / PriceScale).
  assert (forall a b, negb (b =? 0) && (MaxUint64 / b <? a) = negb (b * a <=? MaxUint64)) as Hg.
  { intros a b. destruct (N.eqb_spec b 0) as [->|Hb]; simpl; [reflexivity|].
    destruct (N.ltb_spec (MaxUint64 / b) a) as [Hlt|Hge].
    - destruct (N.leb_spec (b * a) MaxUint64) as [Hle|]; [|done]. exfalso.
      assert (a <= MaxUint64 / b); [|lia]. by apply N.div_le_lower_bound.
    - assert (b * a <= MaxUint64) as Hle by (pose proof (N.Div0.mul_div_le MaxUint64 b); nia).
      by rewrite (proj2 (N.leb_le _ _) Hle). }
  rewrite !Hg. destruct (N.leb_spec (quantity * unit) MaxUint64) as [H1|H1]; simpl; [|split; [done|lia]].
  rewrite (mul64w_exact quantity) by done. rewrite N.mul_comm.
  destruct (N.leb_spec (quantity * unit * price) MaxUint64) as [H2|H2]; simpl.
  - rewrite mul64w_exact by done. split; [intros [= <-]; lia|]. by intros (_ & -> & _).
  - split; [done|lia].
Qed.

(** What one stored order of [owner] holds of each resource. *)
Definition owned_live (owner : string) (r : OrderRecord) : bool :=
  bool_decide (o_OwnerAddress (or_Order r) = owner) && bool_decide (or_Status r = OrderLive).

Definition remaining (r : OrderRecord) : N := o_QuantityLots (or_Order r) - or_CumulativeFilled r.

Definition holds_count (owner : string) (r : OrderRecord) : N := if owned_live owner r then 1 else 0.

Definition holds_free (lot : N) (owner : string) (r : OrderRecord) : N :=
  if owned_live owner r && (o_Action (or_Order r) =? ActionBuy)
  then buy_cost lot (o_LimitPriceTick (or_Order r)) (remaining r) else 0.

Definition holds_lots (yes : bool) (owner : string) (r : OrderRecord) : N :=
  if owned_live owner r && negb (o_Action (or_Order r) =? ActionBuy)
     && eqb (o_Outcome (or_Order r) =? OutcomeYes) yes
  then remaining r else 0.

Lemma reserved_loop_ok profile owner acc l acc' :
  Forall (fun r => or_CumulativeFilled r <= o_QuantityLots (or_Order r) /\ is_u64 (o_QuantityLots (or_Order r))) l ->
  rv_count acc + llen l <= MaxUint32 -> is_u64 (rv_free acc) -> is_u64 (rv_yes acc) -> is_u64 (rv_no acc) ->
  reserved_loop profile owner acc l = Ok acc' ->
  rv_count acc' = rv_count acc + sumN (holds_count owner <$> l) /\
  rv_free acc' = rv_free acc + sumN (holds_free (mp_LotPayout profile) owner <$> l) /\
  rv_yes acc' = rv_yes acc + sumN (holds_lots true owner <$> l) /\
  rv_no acc' = rv_no acc + sumN (holds_lots false owner <$> l).
Proof.
  intros Hl. revert acc. induction Hl as [|r l [Hle Hq] Hl IH]; intros acc Hc Hf Hy Hn Hr;
    cbn [reserved_loop] in Hr.
  - injection Hr as <-. cbn. lia.
  - rewrite !fmap_cons. unfold sumN in *. cbn [foldr]. unfold llen in *. cbn [length] in Hc. unfold is_u64 in *.
    unfold holds_count at 1, holds_free at 1, holds_lots at 1 3, owned_live.
    destruct (bool_decide (o_OwnerAddress (or_Order r) = owner)); simpl in *; [|apply IH in Hr; [lia|lia|done..]].
    destruct (bool_decide (or_Status r = OrderLive)); simpl in *; [|apply IH in Hr; [lia|lia|done..]].
    rewrite u32_small in Hr by lia. rewrite sub64w_exact in Hr by done. fold (remaining r) in Hr.
    assert (remaining r <= MaxUint64) by (unfold remaining; lia).
    destruct (o_Action (or_Order r) =? ActionBuy); simpl in *.
    + destruct (buyReservation _ _ _) as [debit ok] eqn:Eb. head_case Hr eqn E1; [done|]. bprop. subst ok.
      apply buyReservation_spec in Eb as (_ & -> & Hb). rewrite sub64w_exact in * by done.
      rewrite add64w_exact in Hr by lia. apply IH in Hr; simpl in *; [lia|lia|lia|done|done].
    + destruct (o_Outcome (or_Order r) =? OutcomeYes); simpl; rewrite sub64w_exact in Hr by done;
        (head_case Hr eqn E1; [done|]); bprop; rewrite add64w_exact in Hr by lia;
        apply IH in Hr; simpl in *; [lia|lia|done|lia|done|lia|lia|done|done|lia].
Qed.

(** ** Runs *)
Inductive step (profile : MarketProfile) (b b' : Book) : Prop :=
| step_admit e boc s now r : Admit e b boc s now = (b', r) -> step profile b b'
| step_fill e digest cumulative tx view r :
    ApplyFinalizedFill e b digest cumulative tx view = (b', r) -> step profile b b'
| step_cancel e digest tx view r :
    SuppressFinalizedCancellation e b digest tx view = (b', r) -> step profile b b'
| step_close release r : CloseBook release b = (b', r) -> step profile b b'
| step_restart e d file' :
    OpenBook e d (lg_file (bk_ledger b)) profile = (file', Ok b') -> step profile b b'.

(** A file this book may be opened on: none yet, or one it wrote. *)
Definition file_ours (profile : MarketProfile) (file : file_state document) : Prop :=
  match file with FileDoc d => book_ok profile d | _ => True end.

Lemma validateProfile_bound profile : validateProfile profile = Ok tt -> mp_MaxOrders profile <= 100000.
Proof. unfold validateProfile. intros Hv. head_case Hv eqn E; [done|]. by bprop. Qed.

Lemma emptyBook_ok profile : book_ok profile (emptyBook profile).
Proof.
  split; simpl; [done|done|rewrite map_size_empty; simpl; lia|apply map_Forall_empty|apply map_Forall_empty|].
  intros k1 k2 r1 r2 H1. by rewrite lookup_empty in H1.
Qed.

(** Loading accepts every document the book writes, and rebuilds its index. *)
Lemma load_book profile e d :
  mp_MaxOrders profile <= 100000 -> book_ok profile d ->
  loadOrInitialize e (FileDoc d) (emptyBook profile) =
    (FileDoc d, Ok (d, rebuildSearchIndex (bd_Orders d))).
Proof.
  intros Hmax Hd. unfold loadOrInitialize. rewrite (ok_schema _ _ Hd), (ok_profile _ _ Hd). simpl.
  rewrite bool_decide_true by done. simpl.
  rewrite (len32_exact _ _ (ok_size _ _ Hd)) by (unfold MaxUint32; lia).
  rewrite (proj2 (N.ltb_ge _ _) (ok_size _ _ Hd)). by rewrite (proj2 (range_check_ok _ _) (ok_records _ _ Hd)).
Qed.

Lemma OpenBook_inv profile e d file file' b :
  file_ours profile file -> OpenBook e d file profile = (file', Ok b) ->
  mp_MaxOrders profile <= 100000 /\ book_inv profile b /\
  (forall doc, file = FileDoc doc ->
     b = {| bk_ledger := reopened doc; bk_search := rebuildSearchIndex (bd_Orders doc) |}).
Proof.
  intros Hf Hop. unfold OpenBook in Hop. head_case Hop eqn Ev; [done|].
  assert (mp_MaxOrders profile <= 100000) as Hmax.
  { apply validateProfile_bound. unfold is_err in Ev. by destruct (validateProfile profile) as [[]|]. }
  head_case Hop eqn Ed; [|done]. destruct (loadOrInitialize e file (emptyBook profile)) as [f [[doc search]|]] eqn:El;
    [|done]. injection Hop as <- <-. split; [done|]. destruct file as [| | |doc0]; [|done|done|].
  - simpl in El. destruct (persist e FileAbsent (emptyBook profile)) as [f' [[]|]] eqn:Ep; [|done].
    injection El as <- <- <-. pose proof (book_persist_ok e _ _ _ _ Ep) as [_ Hf']. rewrite Hf' by done.
    split; [|done]. split; [apply reopened_ok, emptyBook_ok|]. simpl.
    eapply index_rep_proper; [|apply index_rep_empty]. intros dg k p. unfold live_entry, bk_orders. simpl.
    split; [done|]. intros (r & Hr & _). by rewrite lookup_empty in Hr.
  - rewrite (load_book profile) in El by done. injection El as <- <- <-.
    split; [|by intros ? [= ->]]. split; [by apply reopened_ok|].
    apply rebuild_rep. by eapply book_keyed.
Qed.

Lemma step_inv `{!SignedOrderLaws} profile b b' :
  mp_MaxOrders profile <= 100000 -> book_inv profile b -> step profile b b' ->
  book_inv profile b' /\ book_le (bk_doc b) (bk_doc b').
Proof.
  intros Hmax Hb Hs. destruct Hs as [e boc s now r Hop|e dg c tx view r Hop|e dg tx view r Hop|release r Hop|e d file' Hop].
  - by eapply Admit_inv.
  - by eapply fill_book_inv.
  - by eapply cancel_book_inv.
  - unfold CloseBook in Hop. destruct (Close release (bk_ledger b)) as [l rl] eqn:Ec. injection Hop as <- <-.
    destruct Hb as [Hl Hi]. destruct (outcome_ok profile _ _ Hl (outcome_close _ _ _ _ _ Ec)) as [Hl' Hle].
    split; [|exact Hle]. split; [done|]. unfold Close in Ec. by case_match; injection Ec as <- <-.
  - destruct Hb as [(Hd & d0 & Hf & Hfd & Hle) Hi]. rewrite Hf in Hop.
    apply OpenBook_inv in Hop as (_ & Hinv & Hdoc); [|done]. split; [done|].
    rewrite (Hdoc d0 eq_refl). exact Hle.
Qed.

Definition reachable (profile : MarketProfile) (b : Book) : Prop :=
  exists e d file file' b0, file_ours profile file /\
    OpenBook e d file profile = (file', Ok b0) /\ rtc (step profile) b0 b.

Lemma book_steps_ok `{!SignedOrderLaws} profile b b' :
  mp_MaxOrders profile <= 100000 -> rtc (step profile) b b' -> book_inv profile b ->
  book_inv profile b' /\ book_le (bk_doc b) (bk_doc b').
Proof.
  intros Hmax Hr. induction Hr as [b|b1 b2 b3 Hs Hr IH]; intros Hb; [split; [done|reflexivity]|].
  destruct (step_inv _ _ _ Hmax Hb Hs) as [Hb2 Hle2]. destruct (IH Hb2) as [Hb3 Hle3].
  split; [done|]. by trans (bk_doc b2).
Qed.

Lemma book_reachable_ok `{!SignedOrderLaws} profile b :
  reachable profile b -> mp_MaxOrders profile <= 100000 /\ book_inv profile b.
Proof.
  intros (e & d & file & file' & b0 & Hf & Hop & Hr). apply OpenBook_inv in Hop as (Hmax & Hb & _); [|done].
  split; [done|]. by apply (book_steps_ok profile b0 b).
Qed.

Lemma commit_book_done e b next reindex b' :
  commit_book e b next reindex = (b', Ok tt) ->
  bk_doc b' = next /\ bk_search b' = reindex (bk_search b) /\ lg_file (bk_ledger b') = FileDoc next.
Proof.
  unfold commit_book. destruct (commit (persist e) (bk_ledger b) next) as [l rc] eqn:Ec. intros Hc.
  destruct (commit_cases _ _ _ _ _ (book_persist_ok e) Ec) as [_ [(-> & Hdoc & Hfile)|(Herr & _)]].
  - by injection Hc as <-.
  - by destruct rc as [[]|].
Qed.

Lemma reserved_totals profile d owner r :
  mp_MaxOrders profile <= 100000 -> book_ok profile d ->
  reserved_loop profile owner {| rv_count := 0; rv_free := 0; rv_yes := 0; rv_no := 0 |}
    (map_vals (bd_Orders d)) = Ok r ->
  rv_count r = map_sum (holds_count owner) (bd_Orders d) /\
  rv_free r = map_sum (holds_free (mp_LotPayout profile) owner) (bd_Orders d) /\
  rv_yes r = map_sum (holds_lots true owner) (bd_Orders d) /\
  rv_no r = map_sum (holds_lots false owner) (bd_Orders d).
Proof.
  intros Hmax Hd Hr. apply reserved_loop_ok in Hr; [exact Hr| | |unfold is_u64; simpl; lia..].
  - apply map_vals_Forall. intros k x Hx. split; [|exact (ok_quantity _ _ Hd k x Hx)].
    pose proof (ok_records _ _ Hd k x Hx) as Hv. by apply validate_record_ok in Hv as [(_ & _ & ? & _) _].
  - simpl. unfold llen, map_vals. rewrite length_fmap, length_map_to_list. pose proof (ok_size _ _ Hd).
    unfold MaxUint32. lia.
Qed.

(** What [validateAdmission] established of the owner's resources. *)
Lemma validateAdmission_ok `{!PredictionProtocolLaws} profile d v s now :
  mp_MaxOrders profile <= 100000 -> book_ok profile d -> now <= MaxUint64 ->
  is_u64 (cs_FreeBalance s) -> is_u64 (cs_YesLots s) -> is_u64 (cs_NoLots s) ->
  validateAdmission d v s now = Ok tt ->
  let o := so_Order v in
  validateAuthority profile o s now = Ok tt /\ so_PublicKey v = cs_TradingPublicKey s /\
  now < mp_TradeClose profile /\
  map_sum (holds_count (o_OwnerAddress o)) (bd_Orders d) < mp_MaxOrdersPerOwner profile /\
  (o_Action o = ActionBuy ->
   buy_cost (mp_LotPayout profile) (o_LimitPriceTick o) (o_QuantityLots o)
   + map_sum (holds_free (mp_LotPayout profile) (o_OwnerAddress o)) (bd_Orders d) <= cs_FreeBalance s) /\
  (o_Action o = ActionSell -> o_Outcome o = OutcomeYes ->
   o_QuantityLots o + map_sum (holds_lots true (o_OwnerAddress o)) (bd_Orders d) <= cs_YesLots s) /\
  (o_Action o = ActionSell -> o_Outcome o = OutcomeNo ->
   o_QuantityLots o + map_sum (holds_lots false (o_OwnerAddress o)) (bd_Orders d) <= cs_NoLots s).
Proof.
  intros Hmax Hd Hnow Hf Hy Hno Hadm o. unfold validateAdmission in Hadm. cbv zeta in Hadm. fold o in Hadm.
  rewrite (ok_profile _ _ Hd) in Hadm. head_case Hadm eqn E1; [done|]. head_case Hadm as [[]|] eqn E2; [|done].
  head_case Hadm eqn E3; [done|]. head_case Hadm eqn E4; [done|]. head_case Hadm as [r|] eqn E5; [|done].
  apply (reserved_totals profile) in E5 as (Hc & Hfree & Hyes & Hnor); [|done|done].
  rewrite Hc, Hfree, Hyes, Hnor in Hadm. head_case Hadm eqn E6; [done|]. bprop.
  pose proof actions_distinct as Hda. pose proof outcomes_distinct as Hdo. unfold is_u64 in *.
  split_and!; [done|done|lia|done|..].
  - intros Ha. rewrite Ha, N.eqb_refl in Hadm.
    destruct (buyReservation _ _ _) as [debit ok] eqn:Eb. head_case Hadm eqn E7; [done|]. bprop. subst ok.
    apply buyReservation_spec in Eb as (_ & -> & _). rewrite sub64w_exact in * by done. lia.
  - intros Ha Ho. rewrite Ha, Ho, N.eqb_refl in Hadm. rewrite (proj2 (N.eqb_neq _ _)) in Hadm by congruence.
    head_case Hadm eqn E7; [done|]. bprop. rewrite sub64w_exact in * by done. lia.
  - intros Ha Ho. rewrite Ha, Ho in Hadm. rewrite !(proj2 (N.eqb_neq _ _)) in Hadm by congruence.
    head_case Hadm eqn E7; [done|]. bprop. rewrite sub64w_exact in * by done. lia.
Qed.

(** The authority an admission was checked against. *)
Lemma validateAuthority_ok profile o s now :
  validateAuthority profile o s now = Ok tt -> now <= MaxUint64 ->
  cs_OwnerAddress s = o_OwnerAddress o /\ cs_KeyEpoch s = o_KeyEpoch o /\ cs_NonceFloor s <= o_Nonce o /\
  cs_Finalized s = true /\ cs_ObservedAt s <= now <= cs_ObservedAt s + mp_MaxSnapshotAge profile.
Proof.
  unfold validateAuthority. intros Hv Hn. head_case Hv eqn E; [done|]. bprop.
  rewrite sub64w_exact in * by done. split_and!; try done; lia.
Qed.

(** ** Theorems *)

(** in every reachable state the incrementally maintained index is exactly
    the one a rebuild from the stored orders gives, whatever order the orders
    are walked in: strictly sorted lists holding the live orders of each side
    and price and nothing else. *)
Theorem book_index_exact `{!SignedOrderLaws} profile b :
  reachable profile b ->
  bk_search b = rebuildSearchIndex (bk_orders b) /\
  forall key price,
    strict_sorted (digests_at (bk_search b) key price) /\
    forall digest, digest ∈ digests_at (bk_search b) key price <->
      live_entry (bk_orders b) digest key price.
Proof.
  intros Hr. apply book_reachable_ok in Hr as [_ [[Hd _] Hi]]. split.
  - eapply index_rep_unique; [exact Hi|]. apply rebuild_rep. by eapply book_keyed.
  - intros key price. split; [exact (ir_sorted _ _ Hi key price)|]. intros digest. apply (ir_elem _ _ Hi).
Qed.

(** C8: a search returns the first [Limit] of all matching orders, best price
    first and digests breaking ties: nothing that does not match, nothing
    twice, and nothing better left out. *)
Theorem book_search_complete `{!SignedOrderLaws} profile b query results :
  reachable profile b -> SearchOrders b query = Ok results ->
  exists all,
    results = take (N.to_nat (sq_Limit query)) all /\
    StronglySorted (search_before (sq_PriceDescending query)) all /\
    forall x, x ∈ all <-> search_match (bk_orders b) query x.
Proof.
  intros Hr Hs. apply book_reachable_ok in Hr as [_ [[Hd _] Hi]]. unfold SearchOrders in Hs.
  head_case Hs eqn E1; [done|]. head_case Hs eqn E2; [done|]. cbv zeta in Hs.
  fold (query_minimum query) (query_maximum query) in Hs. head_case Hs eqn E3; [done|].
  set (key := (sq_Outcome query, sq_Action query)) in *.
  set (byPrice := default ∅ (bk_search b !! key)) in *.
  set (prices := merge_sort _ _) in *.
  assert (sq_Limit query <= 1000 /\ sq_Limit query <> 0) as [Hlim Hpos] by (bprop; done).
  rewrite search_prices_take in Hs by (unfold llen; simpl; lia). injection Hs as <-.
  eexists. split; [reflexivity|]. simpl.
  assert (forall p, p ∈ prices <-> is_Some (byPrice !! p) /\ query_minimum query <= p <= query_maximum query) as Hprices.
  { intros p. unfold prices. rewrite merge_sort_Permutation, list_elem_of_filter, list_elem_of_fmap. split.
    - intros [Hrange ([p' l] & -> & Hin)]. apply elem_of_map_to_list in Hin. simpl. eauto.
    - intros [[l Hl] Hrange]. split; [done|]. exists (p, l). split; [done|]. by apply elem_of_map_to_list. }
  assert (forall p d, d ∈ default [] (byPrice !! p) <-> live_entry (bk_orders b) d key p) as Hentry.
  { intros p d. exact (ir_elem _ _ Hi d key p). }
  split.
  - apply blocks_sorted.
    + apply StronglySorted_merge_sort; intros p q; unfold price_le; destruct (sq_PriceDescending query); lia.
    + unfold prices. rewrite merge_sort_Permutation. apply NoDup_filter, NoDup_fst_map_to_list.
    + intros p _. eapply hits_sorted; [exact Hd|exact (ir_sorted _ _ Hi key p)|].
      intros d r Hin Hr. apply Hentry in Hin as (r' & Hr' & _ & _ & ->). congruence.
  - intros x. rewrite list_elem_of_bind. unfold search_match. split.
    + intros (p & Hx & Hp). apply list_elem_of_omap in Hx as (d & Hdin & Hx).
      apply (search_hit_spec profile) in Hx as (r & Hr & <- & -> & Hl & Hv & He1 & He2 & Hm); [|done]. simpl.
      apply Hentry in Hdin as (r' & Hr' & _ & Hkey & ->). rewrite Hr in Hr'. injection Hr' as <-.
      apply Hprices in Hp as [_ Hrange]. injection Hkey as ? ?. split_and!; done || lia.
    + intros (Hr & Hl & Ho & Ha & Hrange & Hv & He1 & He2 & Hrem & Hm).
      assert (live_entry (bk_orders b) (or_Digest (sr_Record x)) key (o_LimitPriceTick (or_Order (sr_Record x)))) as Hlive.
      { exists (sr_Record x). split_and!; [done|done| |done]. unfold key, index_key. congruence. }
      apply Hentry in Hlive. exists (o_LimitPriceTick (or_Order (sr_Record x))). split.
      * apply list_elem_of_omap. exists (or_Digest (sr_Record x)). split; [done|].
        apply (search_hit_spec profile); [done|]. exists (sr_Record x).
        split_and!; try done; [by destruct x; simpl in *; subst|lia|lia|congruence].
      * apply Hprices. split; [|done]. destruct (byPrice !! _) eqn:E; [eauto|].
        simpl in Hlive. by apply not_elem_of_nil in Hlive.
Qed.

(** C19: an order enters the book only when it is executable on the finalized
    chain: signed by the owner's current trading key, in its key epoch and
    above its nonce floor, as a fresh finalized snapshot shows; all of the
    owner's live orders together, the new one included, are covered by the
    snapshot's balance (BUY) or lots of the outcome (SELL), and stay within
    the per-owner capacity. The stored bytes are the signed bytes. *)
Theorem book_admission_funded `{!PredictionProtocolLaws} `{!SignedOrderLaws} profile e b boc s now b' record :
  reachable profile b -> now <= MaxUint64 -> is_u64 (cs_FreeBalance s) -> is_u64 (cs_YesLots s) -> is_u64 (cs_NoLots s) ->
  Admit e b boc s now = (b', Ok record) -> bk_orders b !! or_Digest record = None ->
  let o := or_Order record in
  let orders := bk_orders b' in
  orders = <[or_Digest record := record]> (bk_orders b) /\
  base64_DecodeString (or_SignedOrderBOC record) = Some boc /\
  or_TradingPublicKey record = hex_EncodeToString (cs_TradingPublicKey s) /\
  cs_OwnerAddress s = o_OwnerAddress o /\ cs_KeyEpoch s = o_KeyEpoch o /\ cs_NonceFloor s <= o_Nonce o /\
  cs_Finalized s = true /\ cs_ObservedAt s <= now <= cs_ObservedAt s + mp_MaxSnapshotAge profile /\
  now < mp_TradeClose profile /\
  map_sum (holds_count (o_OwnerAddress o)) orders <= mp_MaxOrdersPerOwner profile /\
  (o_Action o = ActionBuy ->
   map_sum (holds_free (mp_LotPayout profile) (o_OwnerAddress o)) orders <= cs_FreeBalance s) /\
  (o_Action o = ActionSell -> o_Outcome o = OutcomeYes ->
   map_sum (holds_lots true (o_OwnerAddress o)) orders <= cs_YesLots s) /\
  (o_Action o = ActionSell -> o_Outcome o = OutcomeNo ->
   map_sum (holds_lots false (o_OwnerAddress o)) orders <= cs_NoLots s).
Proof.
  intros Hr Hnow Hf Hy Hno Hop Hfresh o orders. apply book_reachable_ok in Hr as [Hmax [[Hd _] _]].
  fold (bk_doc b) in Hd. unfold Admit in Hop. head_case Hop eqn E1; [congruence|].
  head_case Hop as [root|] eqn E2; [|congruence]. head_case Hop eqn E3; [congruence|].
  head_case Hop as [v|] eqn E4; [|congruence].
  apply admitVerifiedLocked_cases in Hop as [[-> [?|(prior & Hp & [= ->])]]|([[]|m] & _ & _ & Hadm & _ & Hc & Heq)];
    [done| | |done].
  { pose proof (book_keyed _ _ Hd _ _ Hp) as Hk. cbv beta in Hk. congruence. }
  injection Heq as ->. apply commit_book_done in Hc as (Hdoc & _ & _).
  destruct (validateAdmission_ok profile _ _ _ _ Hmax Hd Hnow Hf Hy Hno Hadm)
    as (Hauth & Hkey & Hclose & Hcount & Hbuy & Hsy & Hsn).
  destruct (validateAuthority_ok _ _ _ _ Hauth Hnow) as (Ho & Hep & Hn & Hfin & Hage).
  assert (orders = <[or_Digest (record_of boc v) := record_of boc v]> (bk_orders b)) as Horders
    by (unfold orders, bk_orders; by rewrite Hdoc).
  assert (owned_live (o_OwnerAddress o) (record_of boc v) = true) as Hown.
  { unfold owned_live. by rewrite !bool_decide_true. }
  assert (remaining (record_of boc v) = o_QuantityLots o) as Hrem by (unfold remaining; simpl; apply N.sub_0_r).
  rewrite Horders. rewrite !map_sum_insert_fresh by done.
  split_and!; [done|apply base64_decode_encode|simpl; by rewrite Hkey|done|done|done|done|lia|lia|done|..].
  - unfold holds_count at 1. rewrite Hown. unfold o, bk_orders. simpl. simpl in Hcount. lia.
  - intros Ha. unfold holds_free at 1. fold o. rewrite Hown, Ha, N.eqb_refl, Hrem. simpl. by apply Hbuy.
  - intros Ha Hout. unfold holds_lots at 1. fold o. rewrite Hown, Ha, Hout, N.eqb_refl, Hrem.
    rewrite (proj2 (N.eqb_neq _ _)) by (apply not_eq_sym, actions_distinct). by apply Hsy.
  - intros Ha Hout. unfold holds_lots at 1. fold o. rewrite Hown, Ha, Hout, Hrem.
    rewrite (proj2 (N.eqb_neq ActionSell _)) by (apply not_eq_sym, actions_distinct).
    rewrite (proj2 (N.eqb_neq OutcomeNo _)) by (apply not_eq_sym, outcomes_distinct). by apply Hsn.
Qed.

(** in every reachable state every stored record is exactly what its
    signed bytes decode and verify to, its progress is consistent with its
    status and evidence, and one owner's key epoch and nonce are bound to at
    most one order. *)
Theorem book_records_authentic `{!SignedOrderLaws} profile b :
  reachable profile b ->
  map_Forall (fun k r => progress_valid k r /\ bytes_ok r) (bk_orders b) /\
  nonce_unique (bk_orders b) /\ N.of_nat (size (bk_orders b)) <= mp_MaxOrders profile.
Proof.
  intros Hr. apply book_reachable_ok in Hr as [_ [[Hd _] _]]. split_and!; [|apply Hd|apply Hd].
  intros k r Hk. apply validate_record_ok. exact (ok_records _ _ Hd k r Hk).
Qed.

(** histories only move forward, across operations, failed writes and
    restarts: an order's signed bytes never change, its finalized fills never
    go down, and once filled or cancelled it never changes again. *)
Theorem book_history_forward `{!SignedOrderLaws} profile b b' :
  reachable profile b -> rtc (step profile) b b' -> book_le (bk_doc b) (bk_doc b').
Proof. intros Hr Hs. apply book_reachable_ok in Hr as [Hmax Hb]. by apply (book_steps_ok profile). Qed.

(** a book can always be reopened from what a write left behind: every
    check of [loadOrInitialize] passes, the recovered orders are not behind
    memory, and the rebuilt index is that of the recovered orders. *)
Theorem book_restart_recovers `{!SignedOrderLaws} profile b e d :
  reachable profile b -> validateProfile profile = Ok tt -> openPrivateLockedDirectory d = Ok tt ->
  exists doc,
    OpenBook e d (lg_file (bk_ledger b)) profile =
      (lg_file (bk_ledger b),
       Ok {| bk_ledger := reopened doc; bk_search := rebuildSearchIndex (bd_Orders doc) |}) /\
    book_le (bk_doc b) doc.
Proof.
  intros Hr Hv Hdir. apply book_reachable_ok in Hr as [Hmax [(_ & doc & Hf & Hok & Hle) _]].
  exists doc. split; [|exact Hle]. unfold OpenBook, is_err. rewrite Hv, Hdir, Hf. simpl is_ok.
  cbv iota beta delta [negb]. by rewrite (load_book profile).
Qed.

(** a planned match pairs two distinct live orders whose owners' accounts
    and the market come from one finalized view; each side is executable under
    its current key and accepts the fill; both balances are those of the
    complete account view, which satisfies the collateral invariants; and the
    bytes handed on for each side are its exact signed bytes. *)
Theorem book_plan_sound `{!SignedOrderLaws} profile b ld rd quantity now ms la ra plan :
  reachable profile b -> PlanMatch b ld rd quantity now ms la ra = Ok plan ->
  ld <> rd /\ cs_FinalityViewID la = cs_FinalityViewID ra /\ cs_FinalityViewID la = ms_FinalityViewID ms /\
  validateMarketSnapshot profile ms now = Ok tt /\
  (exists model, account_agrees (rm_Accounts model) la = true /\ account_agrees (rm_Accounts model) ra = true /\
     is_ok (CheckInvariants model) = true /\ rm_CompleteSets model = ms_CompleteSets ms /\
     rm_LockedCollateral model = ms_LockedCollateral ms) /\
  forall digest account boc,
    (digest = ld /\ account = la /\ boc = pl_LeftBOC plan) \/
    (digest = rd /\ account = ra /\ boc = pl_RightBOC plan) ->
    exists r root v,
      bk_orders b !! digest = Some r /\ or_Status r = OrderLive /\
      validateAuthority profile (or_Order r) account now = Ok tt /\
      or_TradingPublicKey r = hex_EncodeToString (cs_TradingPublicKey account) /\
      ValidateOrderFill (or_Order r) (or_CumulativeFilled r) quantity (mp_MarketMinFillLots profile) now
        (mp_TradeClose profile) = Ok tt /\
      FromBOC boc = Some root /\ boc = ToBOC root /\
      DecodeAndVerifySignedPredictionOrder root = Ok v /\ so_Order v = or_Order r.
Proof.
  intros Hr Hop. apply book_reachable_ok in Hr as [_ [[Hd _] _]]. fold (bk_doc b) in Hd.
  unfold PlanMatch in Hop. head_case Hop eqn E1; [done|].
  destruct (bk_orders b !! ld) as [l|] eqn:El; [|done]. destruct (bk_orders b !! rd) as [r|] eqn:Er; [|done].
  head_case Hop eqn E2; [done|]. head_case Hop eqn E3; [done|]. cbv zeta in Hop.
  unfold bk_profile in Hop. rewrite (ok_profile _ _ Hd) in Hop.
  head_case Hop as [[]|] eqn E4; [|done]. head_case Hop as [[]|] eqn E5; [|done].
  head_case Hop as [[]|] eqn E6; [|done]. head_case Hop as [model|] eqn E7; [|done].
  head_case Hop eqn E8; [done|]. head_case Hop eqn E9; [done|]. head_case Hop as [amounts|] eqn E10; [|done].
  injection Hop as <-. simpl. bprop.
  assert (forall dg rec acc, bk_orders b !! dg = Some rec -> or_Status rec = OrderLive ->
    match_side profile rec acc quantity now = Ok tt ->
    exists r0 root v, bk_orders b !! dg = Some r0 /\ or_Status r0 = OrderLive /\
      validateAuthority profile (or_Order r0) acc now = Ok tt /\
      or_TradingPublicKey r0 = hex_EncodeToString (cs_TradingPublicKey acc) /\
      ValidateOrderFill (or_Order r0) (or_CumulativeFilled r0) quantity (mp_MarketMinFillLots profile) now
        (mp_TradeClose profile) = Ok tt /\
      FromBOC (default "" (base64_DecodeString (or_SignedOrderBOC rec))) = Some root /\
      default "" (base64_DecodeString (or_SignedOrderBOC rec)) = ToBOC root /\
      DecodeAndVerifySignedPredictionOrder root = Ok v /\ so_Order v = or_Order r0) as Hside.
  { intros dg rec acc Hrec Hlive Hm. unfold match_side in Hm. head_case Hm as [[]|] eqn F1; [|done].
    head_case Hm eqn F2; [done|]. bprop. pose proof (ok_records _ _ Hd _ _ Hrec) as Hv.
    apply validate_record_ok in Hv as [_ (raw & root & v & _ & Hraw & Hroot & _ & Hcan & Hver & _ & _ & _ & Ho)].
    exists rec, root, v. rewrite Hraw. simpl. done. }
  split_and!; [done|done|done|done|..].
  - eexists. split_and!; [done|done|unfold is_err in E9; by apply negb_false_iff|done|done].
  - intros digest account boc [(-> & -> & ->)|(-> & -> & ->)]; by apply Hside.
Qed.

End operations.

(** ** Witnesses *)
Import Fixtures.

Definition sample_profile : MarketProfile :=
  {| mp_GlobalID := 1; mp_WorkchainID := -1; mp_NetworkDomainHash := sha 2; mp_MarketID := sha 7;
     mp_MarketAddress := addr 7; mp_MarketConfigHash := tvm 8; mp_ContractCodeHash := tvm 9;
     mp_TradeClose := 20000; mp_LotPayout := 1000000000; mp_MarketMinFillLots := 1; mp_MaxOrders := 10;
     mp_MaxOrdersPerOwner := 3; mp_MaxSnapshotAge := 60 |}.

Definition sample_account : ChainAccountSnapshot :=
  {| cs_OwnerAddress := addr 1; cs_TradingPublicKey := hash 50; cs_KeyEpoch := 1; cs_NonceFloor := 0;
     cs_FreeBalance := 9000000000; cs_YesLots := 20; cs_NoLots := 0; cs_ObservedAt := 100;
     cs_MasterchainSeqno := 5; cs_Finalized := true; cs_MarketConfigHash := tvm 8;
     cs_FinalityViewID := sha 10 |}.

Definition sample_market : ChainMarketSnapshot :=
  {| ms_CompleteSets := 20; ms_LockedCollateral := 20000000000;
     ms_Accounts := Some {[ addr 1 := {| ab_Free := 9000000000; ab_YesLots := 20; ab_NoLots := 0 |} ]};
     ms_ObservedAt := 100; ms_Finalized := true; ms_MarketConfigHash := tvm 8;
     ms_ContractCodeHash := tvm 9; ms_FinalityViewID := sha 10 |}.

Definition sample_query : OrderSearchQuery :=
  {| sq_MarketID := sha 7; sq_Outcome := 1; sq_Action := 1; sq_MinimumPriceTick := 0;
     sq_MaximumPriceTick := 0; sq_MinimumRemainingLots := 1; sq_ValidAt := 110; sq_ExpiresAfter := 0;
     sq_ExpiresAtOrBefore := 0; sq_PriceDescending := true; sq_Limit := 10 |}.

Definition sample_empty : Book := {| bk_ledger := reopened (emptyBook sample_profile); bk_search := ∅ |}.
Definition sample_bought : Book := (Admit io_good sample_empty (sample_boc 20 1) sample_account 110).1.
Definition sample_both : Book := (Admit io_good sample_bought (sample_boc 21 2) sample_account 110).1.
Definition sample_filled : Book := (ApplyFinalizedFill io_good sample_both (tvm 20) 10 (sha 30) (sha 31)).1.

(** Two orders are live; filling the first removes it from the search. *)
Example sample_search :
  match SearchOrders sample_both sample_query, SearchOrders sample_filled sample_query with
  | Ok [x], Ok [] => sr_RemainingLots x = 10
  | _, _ => False
  end.
Proof. vm_compute. reflexivity. Qed.

Lemma sample_book_open :
  OpenBook io_good dir_good FileAbsent sample_profile = (FileDoc (emptyBook sample_profile), Ok sample_empty).
Proof. vm_compute. reflexivity. Defined.

Lemma sample_step_buy : step sample_profile sample_empty sample_bought.
Proof.
  apply (step_admit _ _ _ io_good (sample_boc 20 1) sample_account 110
    (Admit io_good sample_empty (sample_boc 20 1) sample_account 110).2). apply surjective_pairing.
Defined.

Lemma sample_step_sell : step sample_profile sample_bought sample_both.
Proof.
  apply (step_admit _ _ _ io_good (sample_boc 21 2) sample_account 110
    (Admit io_good sample_bought (sample_boc 21 2) sample_account 110).2). apply surjective_pairing.
Defined.

Lemma sample_step_filled : step sample_profile sample_both sample_filled.
Proof.
  apply (step_fill _ _ _ io_good (tvm 20) 10 (sha 30) (sha 31)
    (ApplyFinalizedFill io_good sample_both (tvm 20) 10 (sha 30) (sha 31)).2). apply surjective_pairing.
Defined.

Lemma sample_book_reach b : rtc (step sample_profile) sample_empty b -> reachable sample_profile b.
Proof.
  intros Hr. exists io_good, dir_good, FileAbsent, (FileDoc (emptyBook sample_profile)), sample_empty.
  exact (conj I (conj sample_book_open Hr)).
Defined.

Lemma sample_reach_both : reachable sample_profile sample_both.
Proof.
  apply sample_book_reach. eapply rtc_l; [exact sample_step_buy|].
  eapply rtc_l; [exact sample_step_sell|apply rtc_refl].
Defined.

Lemma book_index_exact_witness : bk_search sample_both = rebuildSearchIndex (bk_orders sample_both).
Proof. exact (proj1 (book_index_exact sample_profile sample_both sample_reach_both)). Defined.

Lemma book_search_complete_witness :
  exists results all, SearchOrders sample_both sample_query = Ok results /\ results = take 10 all /\
    forall x, x ∈ all <-> search_match (bk_orders sample_both) sample_query x.
Proof.
  assert (is_ok (SearchOrders sample_both sample_query) = true) as Hok by (vm_compute; reflexivity).
  destruct (SearchOrders sample_both sample_query) as [results|m] eqn:E; [|discriminate Hok].
  destruct (book_search_complete sample_profile sample_both sample_query results sample_reach_both E)
    as (all & H1 & _ & H2).
  exists results, all. exact (conj eq_refl (conj H1 H2)).
Defined.

Lemma book_admission_funded_witness :
  exists b' record, Admit io_good sample_bought (sample_boc 21 2) sample_account 110 = (b', Ok record) /\
    map_sum (holds_lots true (addr 1)) (bk_orders b') <= 20.
Proof.
  assert (is_ok (Admit io_good sample_bought (sample_boc 21 2) sample_account 110).2 = true) as Hok
    by (vm_compute; reflexivity).
  destruct (Admit io_good sample_bought (sample_boc 21 2) sample_account 110) as [b' [record|m]] eqn:E;
    [|discriminate Hok].
  exists b', record. split; [reflexivity|].
  assert (match (Admit io_good sample_bought (sample_boc 21 2) sample_account 110).2 with
          | Ok r => or_Digest r = tvm 21 /\ or_Order r = sample_order 21 2 | Err _ => False end) as Hr
    by (vm_compute; split; reflexivity).
  rewrite E in Hr. destruct Hr as [Hdig Ho].
  destruct (book_admission_funded sample_profile io_good sample_bought (sample_boc 21 2) sample_account 110 b' record
    (sample_book_reach _ (rtc_once _ _ sample_step_buy)) ltac:(vm_compute; discriminate)
    ltac:(vm_compute; discriminate) ltac:(vm_compute; discriminate) ltac:(vm_compute; discriminate) E)
    as (_ & _ & _ & _ & _ & _ & _ & _ & _ & _ & _ & Hyes & _).
  - rewrite Hdig. vm_compute. reflexivity.
  - rewrite Ho in Hyes. exact (Hyes eq_refl eq_refl).
Defined.

Lemma book_records_authentic_witness : nonce_unique (bk_orders sample_both).
Proof. exact (proj1 (proj2 (book_records_authentic sample_profile sample_both sample_reach_both))). Defined.

Lemma book_history_forward_witness : book_le (bk_doc sample_both) (bk_doc sample_filled).
Proof.
  exact (book_history_forward sample_profile sample_both sample_filled sample_reach_both
    (rtc_once _ _ sample_step_filled)).
Defined.

Lemma book_restart_recovers_witness :
  exists doc,
    OpenBook io_good dir_good (lg_file (bk_ledger sample_both)) sample_profile =
      (lg_file (bk_ledger sample_both),
       Ok {| bk_ledger := reopened doc; bk_search := rebuildSearchIndex (bd_Orders doc) |}) /\
    book_le (bk_doc sample_both) doc.
Proof.
  exact (book_restart_recovers sample_profile sample_both io_good dir_good sample_reach_both
    ltac:(vm_compute; reflexivity) eq_refl).
Defined.

Lemma book_plan_sound_witness :
  exists plan, PlanMatch sample_both (tvm 20) (tvm 21) 4 110 sample_market sample_account sample_account = Ok plan /\
    exists root, FromBOC (pl_LeftBOC plan) = Some root.
Proof.
  assert (is_ok (PlanMatch sample_both (tvm 20) (tvm 21) 4 110 sample_market sample_account sample_account) = true)
    as Hok by (vm_compute; reflexivity).
  destruct (PlanMatch sample_both (tvm 20) (tvm 21) 4 110 sample_market sample_account sample_account)
    as [plan|m] eqn:E; [|discriminate Hok].
  exists plan. split; [reflexivity|].
  destruct (book_plan_sound sample_profile sample_both _ _ _ _ _ _ _ plan sample_reach_both E)
    as (_ & _ & _ & _ & _ & Hside).
  destruct (Hside (tvm 20) sample_account (pl_LeftBOC plan) (or_introl (conj eq_refl (conj eq_refl eq_refl))))
    as (r & root & v & _ & _ & _ & _ & _ & Hroot & _).
  exists root. exact Hroot.
Defined.

End Book.
