(* ===== verification/Custody.v ===== *)
(** * Authorized order custody (src/pkg/prediction/custody.go)

    The coordinator that turns an owner-authorized order into a signed,
    admitted one: it verifies the authorization, reserves the worst-case risk
    in the owner's portfolio, asks the isolated signer, and admits the signed
    bytes to the book. It uses the portfolio and the book through their own
    operations. *)

From S2P Require Import Prelude GoLib FileStore Ledger Protocol Fixtures Portfolio Book.
#[local] Open Scope N_scope.

Module Custody.
Import Portfolio.Portfolio.
Module B := Book.Book.

(** The owner's approval, as far as the coordinator reads it; the rest is the
    commerce package's. *)
Record AuthorizedAction (rest : Type) := {
  aa_ActionKind : string;
  aa_OwnerID : string;
  aa_AgentID : string;
  aa_rest : rest
}.
Arguments aa_ActionKind {rest} _.
Arguments aa_OwnerID {rest} _.
Arguments aa_AgentID {rest} _.
Arguments aa_rest {rest} _.

(** [commerce.ID], [commerce.Digest32] and [commerce.U64]. *)
Inductive SemanticValue :=
| ID (v : string)
| Digest32 (v : string)
| U64 (v : N).

(** The services the coordinator calls, and what is private to them. *)
Class Commerce := {
  action_rest : Type;
  WriterFence : Type;
  wire_fields : Type;
  risk_Digest : string -> WorstCaseOrderRiskV1 -> result string;
  VerifyAuthorizedAction : AuthorizedAction action_rest -> gmap string SemanticValue -> string ->
    WriterFence -> N -> result unit;
  ConfirmCurrentWriterFence : WriterFence -> N -> result unit;
  ExportSemanticFields : string -> gmap string SemanticValue -> result wire_fields
}.

Section operations.
Context `{ADDR : TosAddress} `{PROT : PredictionProtocol} `{SHA : Sha256} `{COM : Commerce}.
Context (codec_Digest : string -> PortfolioOrderReservation -> result string).

Record PredictionOrderSigningRequestV1 := {
  rq_SchemaVersion : N;
  rq_OrderCellBOC : string;
  rq_OrderDigest : Hash32;
  rq_Risk : WorstCaseOrderRiskV1;
  rq_Authorization : AuthorizedAction action_rest;
  rq_WriterFence : WriterFence;
  rq_SemanticFields : wire_fields;
  rq_PortfolioProof : PortfolioReservationProofV1
}.

Record PredictionOrderSignatureV1 := {
  sg_PublicKey : string;
  sg_Signature : string
}.

(** The coordinator: its book and portfolio, and what its signer and context
    answer. *)
Record AuthorizedOrderCoordinator := {
  co_Book : B.Book;
  co_Portfolio : OwnerPortfolioLedger
}.

Record custody_env := {
  ce_signer : PredictionOrderSigningRequestV1 -> result PredictionOrderSignatureV1;
  ce_context : result unit;                      (* ctx.Err() before signing *)
  ce_book_io : io B.document;
  ce_portfolio_io : io portfolioDocument
}.

(** What a call did: the coordinator afterwards, the request that reached the
    signer, if any, and the returned record and bearer bytes. *)
Record custody_outcome := {
  cu_state : AuthorizedOrderCoordinator;
  cu_request : option PredictionOrderSigningRequestV1;
  cu_result : result (B.OrderRecord * string)
}.

Definition authorizeOrderAction : string := "prediction.order.authorize".

Definition portfolioSnapshot (profile : B.MarketProfile) (snapshot : B.ChainAccountSnapshot)
    : PortfolioMarketSnapshot :=
  {| ps_OwnerAddress := B.cs_OwnerAddress snapshot; ps_MarketID := B.mp_MarketID profile;
     ps_MarketAddress := B.mp_MarketAddress profile; ps_MarketConfigHash := B.mp_MarketConfigHash profile;
     ps_ContractCodeHash := B.mp_ContractCodeHash profile; ps_LotPayout := B.mp_LotPayout profile;
     ps_FreeBalance := B.cs_FreeBalance snapshot; ps_YesLots := B.cs_YesLots snapshot;
     ps_NoLots := B.cs_NoLots snapshot; ps_MasterchainSeqno := B.cs_MasterchainSeqno snapshot;
     ps_ObservedAt := B.cs_ObservedAt snapshot; ps_FinalityViewID := B.cs_FinalityViewID snapshot;
     ps_QuorumFinalized := B.cs_Finalized snapshot |}.

Definition validatePortfolioReservationProof (proof : PortfolioReservationProofV1) (orderDigest : string)
    : result unit :=
  if negb (pp_SchemaVersion proof =? 1) || (pp_Revision proof =? 0)
     || negb (bool_decide (pp_OrderDigest proof = orderDigest))
     || negb (canonicalDigest (pp_PortfolioKey proof) "sha256:")
     || negb (canonicalDigest (pp_ReservationDigest proof) "sha256:")
  then Err "invalid owner portfolio reservation proof"
  else Ok tt.

Definition worstCaseRisk (profile : B.MarketProfile) (order : PredictionOrderV1) (digest : Hash32)
    : result WorstCaseOrderRiskV1 :=
  if negb (bool_decide (o_GlobalID order = B.mp_GlobalID profile))
     || negb (bool_decide (o_WorkchainID order = B.mp_WorkchainID profile))
     || negb (bool_decide (o_MarketAddress order = B.mp_MarketAddress profile))
     || negb (bool_decide (CellHashString (o_MarketConfigHash order) = B.mp_MarketConfigHash profile))
  then Err "prediction order is outside the custody market domain"
  else
    let risk collateral position :=
      {| wr_SchemaVersion := 1; wr_OrderDigest := SHA256String digest;
         wr_OwnerAddress := o_OwnerAddress order; wr_MarketAddress := o_MarketAddress order;
         wr_Action := o_Action order; wr_Outcome := o_Outcome order;
         wr_QuantityLots := o_QuantityLots order; wr_CollateralDebit := collateral;
         wr_PositionDebit := position |} in
    if o_Action order =? ActionBuy then
      let '(debit, ok) :=
        B.buyReservation (B.mp_LotPayout profile) (o_LimitPriceTick order) (o_QuantityLots order) in
      if negb ok then Err "prediction order risk overflows" else Ok (risk debit 0)
    else Ok (risk 0 (o_QuantityLots order)).

(** The fields the owner's approval is checked against. *)
Definition semantic_fields (profile : B.MarketProfile) (authorization : AuthorizedAction action_rest)
    (order : PredictionOrderV1) (digest : Hash32) (riskDigest : string) : gmap string SemanticValue :=
  list_to_map
    [("owner_id"%string, ID (aa_OwnerID authorization));
     ("agent_id"%string, ID (aa_AgentID authorization));
     ("network_domain_digest"%string, Digest32 (B.mp_NetworkDomainHash profile));
     ("market_id"%string, Digest32 (B.mp_MarketID profile));
     ("order_digest"%string, Digest32 (SHA256String digest));
     ("valid_until"%string, U64 (o_ValidUntil order));
     ("worst_case_risk_digest"%string, Digest32 riskDigest)].

(** The call of [Portfolio.ReserveOrder] both branches make. *)
Definition reserve_risk (env : custody_env) (portfolio : OwnerPortfolioLedger) (profile : B.MarketProfile)
    (authorization : AuthorizedAction action_rest) (order : PredictionOrderV1) (risk : WorstCaseOrderRiskV1)
    (snapshot : B.ChainAccountSnapshot)
    : OwnerPortfolioLedger * result (PortfolioOrderReservation * PortfolioReservationProofV1) :=
  ReserveOrder codec_Digest (ce_portfolio_io env) portfolio (aa_OwnerID authorization)
    (aa_AgentID authorization) (B.mp_NetworkDomainHash profile) (B.mp_MarketID profile)
    (B.mp_ContractCodeHash profile) order risk (portfolioSnapshot profile snapshot).

(** The recovery branch: the order is already in the book. *)
Definition recover_durable (env : custody_env) (c : AuthorizedOrderCoordinator) (prior : B.OrderRecord)
    (order : PredictionOrderV1) (authorization : AuthorizedAction action_rest)
    (risk : WorstCaseOrderRiskV1) (snapshot : B.ChainAccountSnapshot) (now : N) : custody_outcome :=
  let profile := B.bk_profile (co_Book c) in
  let done c r := {| cu_state := c; cu_request := None; cu_result := r |} in
  if is_err (B.validateAuthority profile order snapshot now)
     || negb (bool_decide (B.or_TradingPublicKey prior = hex_EncodeToString (B.cs_TradingPublicKey snapshot)))
  then done c (Err "durable prediction order is no longer executable")
  else
    let '(portfolio, r) := reserve_risk env (co_Portfolio c) profile authorization order risk snapshot in
    let c := {| co_Book := co_Book c; co_Portfolio := portfolio |} in
    match r with
    | Err m => done c (Err ("durable prediction order lost its owner-wide risk reservation: " +:+ m))
    | Ok (_, proof) =>
        if is_err (validatePortfolioReservationProof proof (wr_OrderDigest risk))
        then done c (Err "durable prediction order has an invalid owner-wide risk proof")
        else
          match base64_DecodeString (B.or_SignedOrderBOC prior) with
          | None => done c (Err "durable prediction order bytes are unavailable")
          | Some recovered => done c (Ok (prior, recovered))
          end
    end.

(** The signing branch, from the reservation on. *)
Definition sign_and_admit (env : custody_env) (c : AuthorizedOrderCoordinator) (orderCell : cell)
    (digest : Hash32) (order : PredictionOrderV1) (authorization : AuthorizedAction action_rest)
    (fence : WriterFence) (fields : gmap string SemanticValue) (risk : WorstCaseOrderRiskV1)
    (snapshot : B.ChainAccountSnapshot) (now : N) : custody_outcome :=
  let profile := B.bk_profile (co_Book c) in
  let '(portfolio, r) := reserve_risk env (co_Portfolio c) profile authorization order risk snapshot in
  let c := {| co_Book := co_Book c; co_Portfolio := portfolio |} in
  let fail m := {| cu_state := c; cu_request := None; cu_result := Err m |} in
  match r with
  | Err m => fail ("prediction order exceeds the owner-wide portfolio boundary: " +:+ m)
  | Ok (_, proof) =>
      if is_err (validatePortfolioReservationProof proof (wr_OrderDigest risk))
      then fail "prediction order has an invalid owner-wide risk proof"
      else
        match ExportSemanticFields authorizeOrderAction fields with
        | Err m => fail m
        | Ok wireFields =>
        match ce_context env with
        | Err m => fail m
        | Ok _ =>
            let request :=
              {| rq_SchemaVersion := 1; rq_OrderCellBOC := ToBOC orderCell; rq_OrderDigest := digest;
                 rq_Risk := risk; rq_Authorization := authorization; rq_WriterFence := fence;
                 rq_SemanticFields := wireFields; rq_PortfolioProof := proof |} in
            let signed c r := {| cu_state := c; cu_request := Some request; cu_result := r |} in
            match ce_signer env request with
            | Err m => signed c (Err m)
            | Ok signature =>
                if negb (bool_decide (sg_PublicKey signature = B.cs_TradingPublicKey snapshot))
                then signed c (Err "custody signer is not the current on-chain trading key")
                else
                  match BuildSignedPredictionOrderCell orderCell (sg_PublicKey signature)
                          (sg_Signature signature) with
                  | Err m => signed c (Err m)
                  | Ok signedCell =>
                      match DecodeAndVerifySignedPredictionOrder signedCell with
                      | Err m => signed c (Err m)
                      | Ok verified =>
                          let '(book, r) :=
                            B.admitVerifiedLocked (ce_book_io env) (co_Book c) (ToBOC signedCell) verified
                              snapshot now in
                          let c := {| co_Book := book; co_Portfolio := portfolio |} in
                          match r with
                          | Err m => signed c (Err m)
                          | Ok record => signed c (Ok (record, ToBOC signedCell))
                          end
                      end
                  end
            end
        end end
  end.

Definition AuthorizeSignAndAdmit (env : custody_env) (c : AuthorizedOrderCoordinator)
    (order : PredictionOrderV1) (authorization : AuthorizedAction action_rest) (fence : WriterFence)
    (snapshot : B.ChainAccountSnapshot) (now : N) : custody_outcome :=
  let fail m := {| cu_state := c; cu_request := None; cu_result := Err m |} in
  let book := co_Book c in
  if (now =? 0) || (MaxInt64 <? now) then fail "prediction order custody is unavailable"
  else
    match BuildPredictionOrderCell order with
    | Err m => fail m
    | Ok orderCell =>
    match PredictionOrderDigest orderCell with
    | Err m => fail m
    | Ok digest =>
        if negb (lg_lock (B.bk_ledger book)) then fail "prediction order book is closed"
        else
          let profile := B.bk_profile book in
          match worstCaseRisk profile order digest with
          | Err m => fail m
          | Ok risk =>
          match risk_Digest "tos.prediction.worst-case-order-risk.v1" risk with
          | Err m => fail m
          | Ok riskDigest =>
              let fields := semantic_fields profile authorization order digest riskDigest in
              let canonicalRequest := ToBOC orderCell in
              if negb (bool_decide (aa_ActionKind authorization = authorizeOrderAction))
                 || is_err (VerifyAuthorizedAction authorization fields canonicalRequest fence now)
                 || is_err (ConfirmCurrentWriterFence fence now)
              then fail "prediction order lacks current exact owner authorization"
              else
                match B.bk_orders book !! CellHashString digest with
                | Some prior => recover_durable env c prior order authorization risk snapshot now
                | None =>
                    let preflight :=
                      {| so_Order := order; so_OrderDigest := digest; so_OrderCellHash := CellHash orderCell;
                         so_PublicKey := B.cs_TradingPublicKey snapshot |} in
                    match B.validateAdmission (B.bk_doc book) preflight snapshot now with
                    | Err m => fail m
                    | Ok _ =>
                        if map_any (fun _ prior =>
                             bool_decide (o_OwnerAddress (B.or_Order prior) = o_OwnerAddress order)
                             && (o_KeyEpoch (B.or_Order prior) =? o_KeyEpoch order)
                             && (o_Nonce (B.or_Order prior) =? o_Nonce order)
                             && negb (bool_decide (B.or_Digest prior = CellHashString digest)))
                             (B.bk_orders book)
                        then fail "owner epoch/nonce is already bound to another order digest"
                        else sign_and_admit env c orderCell digest order authorization fence fields risk
                               snapshot now
                    end
                end
          end end
    end end.

(** ** Lemmas *)

(** The two risk computations, written in different orders of
    multiplication, agree wherever the protocol allows an order. *)
Lemma buy_risk_agree lot price quantity v :
  0 < lot -> lot mod PriceScale = 0 -> 0 < price < PriceScale -> 0 < quantity ->
  B.buyReservation lot price quantity = (v, true) <-> portfolioBuyRisk lot price quantity = (v, true).
Proof.
  intros Hl Hm Hp Hq. rewrite B.buyReservation_spec, portfolioBuyRisk_spec. unfold B.buy_cost.
  set (u := lot / PriceScale). split.
  - intros (H1 & -> & H2). split_and!; [done|done|lia|lia|nia|lia|nia].
  - intros (_ & _ & _ & H1 & -> & H2). split_and!; [nia|lia|nia].
Qed.

(** The owner's authorization of one exact order, under the current writer. *)
Definition authorized (profile : B.MarketProfile) (authorization : AuthorizedAction action_rest)
    (fence : WriterFence) (order : PredictionOrderV1) (orderCell : cell) (digest : Hash32)
    (riskDigest : string) (now : N) : Prop :=
  aa_ActionKind authorization = authorizeOrderAction /\
  VerifyAuthorizedAction authorization (semantic_fields profile authorization order digest riskDigest)
    (ToBOC orderCell) fence now = Ok tt /\
  ConfirmCurrentWriterFence fence now = Ok tt.

Lemma is_err_unit (r : result unit) : is_err r = false -> r = Ok tt.
Proof. by destruct r as [[]|]. Qed.

(** What a call does: nothing, or, once authorized, one of its two branches. *)
Lemma Authorize_cases env c order authorization fence snapshot now :
  let out := AuthorizeSignAndAdmit env c order authorization fence snapshot now in
  let profile := B.bk_profile (co_Book c) in
  (cu_state out = c /\ cu_request out = None /\ is_err (cu_result out) = true) \/
  exists orderCell digest risk riskDigest,
    BuildPredictionOrderCell order = Ok orderCell /\ PredictionOrderDigest orderCell = Ok digest /\
    worstCaseRisk profile order digest = Ok risk /\
    risk_Digest "tos.prediction.worst-case-order-risk.v1" risk = Ok riskDigest /\
    authorized profile authorization fence order orderCell digest riskDigest now /\
    now <= MaxInt64 /\ lg_lock (B.bk_ledger (co_Book c)) = true /\
    ((exists prior, B.bk_orders (co_Book c) !! CellHashString digest = Some prior /\
        out = recover_durable env c prior order authorization risk snapshot now) \/
     (B.bk_orders (co_Book c) !! CellHashString digest = None /\
      out = sign_and_admit env c orderCell digest order authorization fence
              (semantic_fields profile authorization order digest riskDigest) risk snapshot now)).
Proof.
  cbv zeta. unfold AuthorizeSignAndAdmit.
  destruct ((now =? 0) || (MaxInt64 <? now)) eqn:E1; [left; done|].
  destruct (BuildPredictionOrderCell order) as [orderCell|] eqn:E2; [|left; done].
  destruct (PredictionOrderDigest orderCell) as [digest|] eqn:E3; [|left; done].
  destruct (negb (lg_lock (B.bk_ledger (co_Book c)))) eqn:E4; [left; done|]. cbv zeta.
  destruct (worstCaseRisk _ _ _) as [risk|] eqn:E5; [|left; done].
  destruct (risk_Digest _ _) as [riskDigest|] eqn:E6; [|left; done].
  match goal with |- context [if ?g then _ else _] => destruct g eqn:E7 end; [left; done|].
  bprop. repeat match goal with H : is_err _ = false |- _ => apply is_err_unit in H end.
  destruct (B.bk_orders (co_Book c) !! CellHashString digest) as [prior|] eqn:E8.
  - right. exists orderCell, digest, risk, riskDigest. split_and!; try done. left. by exists prior.
  - destruct (B.validateAdmission _ _ _ _) as [[]|]; [|left; done].
    match goal with |- context [if ?g then _ else _] => destruct g end; [left; done|].
    right. exists orderCell, digest, risk, riskDigest. split_and!; try done. by right.
Qed.

(** The account snapshot at Go's widths. *)
Definition account_typed (profile : B.MarketProfile) (s : B.ChainAccountSnapshot) : Prop :=
  is_u64 (B.mp_LotPayout profile) /\ is_u64 (B.cs_FreeBalance s) /\ is_u64 (B.cs_YesLots s) /\
  is_u64 (B.cs_NoLots s).

(** The signing branch in full: what it leaves behind in each case. *)
Lemma sign_and_admit_cases env c orderCell digest order authorization fence fields risk snapshot now :
  let out := sign_and_admit env c orderCell digest order authorization fence fields risk snapshot now in
  let '(portfolio, r) :=
    reserve_risk env (co_Portfolio c) (B.bk_profile (co_Book c)) authorization order risk snapshot in
  co_Portfolio (cu_state out) = portfolio /\
  (forall request, cu_request out = Some request ->
     rq_Risk request = risk /\ rq_OrderDigest request = digest /\ rq_OrderCellBOC request = ToBOC orderCell /\
     rq_Authorization request = authorization /\ exists res, r = Ok (res, rq_PortfolioProof request)) /\
  ((co_Book (cu_state out) = co_Book c /\ is_err (cu_result out) = true) \/
   exists signature signedCell verified rc,
     BuildSignedPredictionOrderCell orderCell (sg_PublicKey signature) (sg_Signature signature) = Ok signedCell /\
     DecodeAndVerifySignedPredictionOrder signedCell = Ok verified /\
     sg_PublicKey signature = B.cs_TradingPublicKey snapshot /\
     B.admitVerifiedLocked (ce_book_io env) (co_Book c) (ToBOC signedCell) verified snapshot now =
       (co_Book (cu_state out), rc) /\
     is_Some (cu_request out) /\
     cu_result out = (let? record := rc in Ok (record, ToBOC signedCell))).
Proof.
  cbv zeta. unfold sign_and_admit.
  destruct (reserve_risk _ _ _ _ _ _ _) as [portfolio r] eqn:Er. cbv zeta.
  destruct r as [[res proof]|m]; [|by split_and!; [|done|left]].
  destruct (is_err (validatePortfolioReservationProof _ _)); [by split_and!; [|done|left]|].
  destruct (ExportSemanticFields _ _) as [wire|]; [|by split_and!; [|done|left]].
  destruct (ce_context env); [|by split_and!; [|done|left]].
  set (request := Build_PredictionOrderSigningRequestV1 _ _ _ _ _ _ _ _).
  assert (forall rq, Some request = Some rq -> rq_Risk rq = risk /\ rq_OrderDigest rq = digest /\
    rq_OrderCellBOC rq = ToBOC orderCell /\ rq_Authorization rq = authorization /\
    exists res0, Ok (res, proof) = Ok (res0, rq_PortfolioProof rq)) as Hrq.
  { intros rq [= <-]. split_and!; [done..|]. by exists res. }
  destruct (ce_signer env request) as [signature|]; [|split_and!; [done|exact Hrq|by left]].
  destruct (negb _) eqn:Ek; [split_and!; [done|exact Hrq|by left]|].
  destruct (BuildSignedPredictionOrderCell _ _ _) as [signedCell|] eqn:Eb; [|split_and!; [done|exact Hrq|by left]].
  destruct (DecodeAndVerifySignedPredictionOrder signedCell) as [verified|] eqn:Ev;
    [|split_and!; [done|exact Hrq|by left]].
  simpl. destruct (B.admitVerifiedLocked _ _ _ _ _ _) as [book rc] eqn:Ea. bprop.
  destruct rc as [record|m]; (split_and!; [done|exact Hrq|]); right;
    eexists signature, signedCell, verified, _; split_and!; try done; by exists request.
Qed.

Lemma recover_durable_cases env c prior order authorization risk snapshot now :
  let out := recover_durable env c prior order authorization risk snapshot now in
  cu_request out = None /\ co_Book (cu_state out) = co_Book c /\
  ((co_Portfolio (cu_state out) = co_Portfolio c /\ is_err (cu_result out) = true) \/
   exists r,
     reserve_risk env (co_Portfolio c) (B.bk_profile (co_Book c)) authorization order risk snapshot =
       (co_Portfolio (cu_state out), r) /\
     (forall record bytes, cu_result out = Ok (record, bytes) ->
        record = prior /\ base64_DecodeString (B.or_SignedOrderBOC prior) = Some bytes /\
        is_ok r = true /\ B.or_TradingPublicKey prior = hex_EncodeToString (B.cs_TradingPublicKey snapshot) /\
        B.validateAuthority (B.bk_profile (co_Book c)) order snapshot now = Ok tt)).
Proof.
  cbv zeta. unfold recover_durable.
  match goal with |- context [if ?g then _ else _] => destruct g eqn:E1 end; [split_and!; [done|done|by left]|].
  destruct (reserve_risk _ _ _ _ _ _ _) as [portfolio r] eqn:Er. cbv zeta.
  destruct r as [[res proof]|m]; [|split_and!; [done|done|right; eexists; split; [done|done]]].
  destruct (is_err (validatePortfolioReservationProof _ _)); [split_and!; [done|done|right; eexists; split; [done|done]]|].
  bprop. match goal with H : is_err _ = false |- _ => apply is_err_unit in H end.
  destruct (base64_DecodeString _) as [raw|] eqn:Eb;
    [|split_and!; [done|done|right; eexists; split; [done|done]]].
  split_and!; [done|done|]. right. eexists. split; [done|]. intros record bytes [= <- <-]. done.
Qed.

(** The portfolio side of either branch. *)
Lemma reserve_risk_live profile env portfolio bp authorization order risk snapshot portfolio' r :
  profile_bounds profile -> order_typed order -> account_typed bp snapshot -> ledger_ok profile portfolio ->
  reserve_risk env portfolio bp authorization order risk snapshot = (portfolio', r) ->
  (ledger_ok profile portfolio' /\ portfolio_le (lg_doc portfolio) (lg_doc portfolio')) /\
  forall res proof, r = Ok (res, proof) ->
    pd_Orders (lg_doc portfolio') !! wr_OrderDigest risk = Some res /\
    isPortfolioOrderTerminal (r_Status res) = false /\
    identity_of res = identity_of (reservationFromOrder (aa_AgentID authorization) (B.mp_MarketID bp)
      (B.mp_ContractCodeHash bp) order risk (portfolioSnapshot bp snapshot)) /\
    pp_Revision proof = pd_Revision (lg_doc portfolio') /\
    pp_AggregateAtRiskAtomic proof = at_risk (lg_doc portfolio') /\
    at_risk (lg_doc portfolio') <= op_MaximumAtRiskAtomic profile.
Proof.
  intros Hb Hto Hta Hl Hop. unfold reserve_risk in Hop.
  assert (snapshot_typed (portfolioSnapshot bp snapshot)) as Hts by exact Hta.
  pose proof (outcome_ok _ _ _ Hl (ReserveOrder_outcome _ _ _ _ _ _ _ _ _ _ _ _ _ _ Hb Hto Hts Hl Hop)) as Hok.
  split; [exact Hok|]. intros res proof ->.
  destruct (ReserveOrder_live _ _ _ _ _ _ _ _ _ _ _ _ _ _ _ Hb Hto Hts Hl Hop) as (H1 & H2 & H3 & H4 & H5 & _).
  destruct Hok as [[Hd _] _]. destruct (ok_totals codec_Digest profile (lg_doc portfolio') Hb Hd) as [H6 _]. done.
Qed.

(** ** Theorems *)

(** the risk the coordinator commits the owner to is the risk the
    portfolio computes for the same order: the two multiply in different
    orders, yet they agree and overflow together, so a reservation is never
    refused for a mismatch of the coordinator's own making. *)
Theorem custody_risk_agrees profile order orderCell digest risk :
  B.validateProfile profile = Ok tt ->
  BuildPredictionOrderCell order = Ok orderCell -> PredictionOrderDigest orderCell = Ok digest ->
  0 < o_QuantityLots order -> (o_Action order = ActionBuy -> 0 < o_LimitPriceTick order < PriceScale) ->
  worstCaseRisk profile order digest = Ok risk ->
  portfolioRisk order (B.mp_LotPayout profile) = Ok risk.
Proof.
  intros Hv Hc Hd Hq Hp Hr. unfold B.validateProfile in Hv. head_case Hv eqn E1; [done|]. bprop.
  unfold worstCaseRisk in Hr. head_case Hr eqn E2; [done|]. cbv zeta in Hr.
  unfold portfolioRisk. rewrite Hc, Hd. cbv zeta. head_case Hr eqn E3; [|done]. apply N.eqb_eq in E3.
  destruct (B.buyReservation _ _ _) as [debit [|]] eqn:Eb; [|done].
  apply buy_risk_agree in Eb; [|lia|done|by apply Hp|done]. by rewrite Eb.
Qed.

(** whatever the signer, the context or the disk do, a call keeps both
    components sound: the book's and the portfolio's invariants hold
    afterwards and their histories have only moved forward. *)
Theorem custody_preserves `{!PredictionProtocolLaws} `{!SignedOrderLaws} `{!CellCodecLaws}
    bp pp env c order authorization fence snapshot now :
  B.book_inv bp (co_Book c) -> ledger_ok pp (co_Portfolio c) ->
  B.mp_MaxOrders bp <= 100000 -> profile_bounds pp -> order_typed order -> account_typed bp snapshot ->
  let c' := cu_state (AuthorizeSignAndAdmit env c order authorization fence snapshot now) in
  B.book_inv bp (co_Book c') /\ ledger_ok pp (co_Portfolio c') /\
  B.book_le (B.bk_doc (co_Book c)) (B.bk_doc (co_Book c')) /\
  portfolio_le (lg_doc (co_Portfolio c)) (lg_doc (co_Portfolio c')).
Proof.
  intros Hb Hl Hmax Hpb Hto Hta c'. assert (B.bk_profile (co_Book c) = bp) as Hbp by apply Hb.
  destruct (Authorize_cases env c order authorization fence snapshot now)
    as [(Hc & _)|(orderCell & digest & risk & riskDigest & _ & _ & _ & _ & _ & _ & _ &
      [(prior & _ & Hout)|(_ & Hout)])].
  - unfold c'. rewrite Hc. by split_and!.
  - unfold c'. rewrite Hout.
    destruct (recover_durable_cases env c prior order authorization risk snapshot now)
      as (_ & Hbook & [[Hp _]|(r & Hr & _)]); rewrite Hbook.
    + rewrite Hp. by split_and!.
    + rewrite Hbp in Hr. destruct (reserve_risk_live _ _ _ _ _ _ _ _ _ _ Hpb Hto Hta Hl Hr) as [[? ?] _].
      by split_and!.
  - unfold c'. rewrite Hout. pose proof (sign_and_admit_cases env c orderCell digest order authorization fence
      (semantic_fields (B.bk_profile (co_Book c)) authorization order digest riskDigest) risk snapshot now) as Hs.
    cbv zeta in Hs. destruct (reserve_risk _ _ _ _ _ _ _) as [portfolio r] eqn:Er. rewrite Hbp in Er.
    destruct (reserve_risk_live _ _ _ _ _ _ _ _ _ _ Hpb Hto Hta Hl Er) as [[Hl' Hle'] _].
    destruct Hs as (Hp & _ & [[Hbook _]|(sg & sc & v & rc & Hbuild & Hver & _ & Hadm & _)]); rewrite Hp.
    + rewrite Hbook. by split_and!.
    + assert (B.verified_bytes (ToBOC sc) v) as Hvb.
      { split; [by eapply signed_cell_size|]. exists sc. split_and!; [apply FromBOC_ToBOC|done|done]. }
      destruct (B.admit_inv bp _ _ _ _ _ _ _ _ Hmax Hvb Hb Hadm) as [? ?]. by split_and!.
Qed.

(** C2: the isolated signer is reached only with the owner's current
    authorization of that exact order and only after its worst-case risk is
    reserved: the request carries the risk and the order's own encoding and
    digest, the portfolio then holds the order live with that identity, and
    the proof in the request states its revision and exact exposure, within
    the owner's limit. *)
Theorem custody_signer_gated bp pp env c order authorization fence snapshot now request :
  B.book_inv bp (co_Book c) -> ledger_ok pp (co_Portfolio c) ->
  profile_bounds pp -> order_typed order -> account_typed bp snapshot ->
  let out := AuthorizeSignAndAdmit env c order authorization fence snapshot now in
  let d := lg_doc (co_Portfolio (cu_state out)) in
  cu_request out = Some request ->
  exists orderCell digest riskDigest res,
    authorized bp authorization fence order orderCell digest riskDigest now /\
    risk_Digest "tos.prediction.worst-case-order-risk.v1" (rq_Risk request) = Ok riskDigest /\
    worstCaseRisk bp order digest = Ok (rq_Risk request) /\
    rq_OrderDigest request = digest /\ rq_OrderCellBOC request = ToBOC orderCell /\
    pd_Orders d !! wr_OrderDigest (rq_Risk request) = Some res /\
    isPortfolioOrderTerminal (r_Status res) = false /\
    identity_of res = identity_of (reservationFromOrder (aa_AgentID authorization) (B.mp_MarketID bp)
      (B.mp_ContractCodeHash bp) order (rq_Risk request) (portfolioSnapshot bp snapshot)) /\
    pp_Revision (rq_PortfolioProof request) = pd_Revision d /\
    pp_AggregateAtRiskAtomic (rq_PortfolioProof request) = at_risk d /\
    at_risk d <= op_MaximumAtRiskAtomic pp.
Proof.
  intros Hb Hl Hpb Hto Hta out d Hrq. assert (B.bk_profile (co_Book c) = bp) as Hbp by apply Hb.
  destruct (Authorize_cases env c order authorization fence snapshot now)
    as [(_ & Hn & _)|(orderCell & digest & risk & riskDigest & _ & _ & Hrisk & Hrd & Hauth & _ & _ &
      [(prior & _ & Hout)|(_ & Hout)])]; fold out in Hn || fold out in Hout.
  - congruence.
  - destruct (recover_durable_cases env c prior order authorization risk snapshot now) as (Hn & _).
    rewrite <-Hout in Hn. congruence.
  - pose proof (sign_and_admit_cases env c orderCell digest order authorization fence
      (semantic_fields (B.bk_profile (co_Book c)) authorization order digest riskDigest) risk snapshot now) as Hs.
    cbv zeta in Hs. rewrite <-Hout in Hs. rewrite Hbp in *.
    destruct (reserve_risk _ _ _ _ _ _ _) as [portfolio r] eqn:Er.
    destruct Hs as (Hp & Hreq & _). destruct (Hreq request Hrq) as (<- & <- & Hboc & _ & res & ->).
    destruct (reserve_risk_live _ _ _ _ _ _ _ _ _ _ Hpb Hto Hta Hl Er) as [_ Hres].
    destruct (Hres _ _ eq_refl) as (H1 & H2 & H3 & H4 & H5 & H6).
    unfold d. rewrite Hp. exists orderCell, (rq_OrderDigest request), riskDigest, res. split_and!; done.
Qed.

(** bearer bytes leave the coordinator only for an authorized order that
    is in the book under its own digest, with exactly those bytes and the
    owner's current trading key, while its worst-case risk is reserved live
    in the owner's portfolio. *)
Theorem custody_success `{!PredictionProtocolLaws} `{!SignedOrderLaws} `{!SignedRoundTrip}
    bp pp env c order authorization fence snapshot now record bytes :
  B.book_inv bp (co_Book c) -> ledger_ok pp (co_Portfolio c) -> B.mp_MaxOrders bp <= 100000 ->
  profile_bounds pp -> order_typed order -> account_typed bp snapshot ->
  let out := AuthorizeSignAndAdmit env c order authorization fence snapshot now in
  cu_result out = Ok (record, bytes) ->
  exists orderCell digest riskDigest risk res,
    authorized bp authorization fence order orderCell digest riskDigest now /\
    worstCaseRisk bp order digest = Ok risk /\
    B.bk_orders (co_Book (cu_state out)) !! CellHashString digest = Some record /\
    base64_DecodeString (B.or_SignedOrderBOC record) = Some bytes /\
    B.or_TradingPublicKey record = hex_EncodeToString (B.cs_TradingPublicKey snapshot) /\
    pd_Orders (lg_doc (co_Portfolio (cu_state out))) !! wr_OrderDigest risk = Some res /\
    isPortfolioOrderTerminal (r_Status res) = false /\
    identity_of res = identity_of (reservationFromOrder (aa_AgentID authorization) (B.mp_MarketID bp)
      (B.mp_ContractCodeHash bp) order risk (portfolioSnapshot bp snapshot)).
Proof.
  intros Hb Hl Hmax Hpb Hto Hta out Hres. assert (B.bk_profile (co_Book c) = bp) as Hbp by apply Hb.
  destruct (Authorize_cases env c order authorization fence snapshot now)
    as [(_ & _ & Herr)|(orderCell & digest & risk & riskDigest & Hcell & Hdig & Hrisk & _ & Hauth & Hnow & _ &
      [(prior & Hprior & Hout)|(Hnone & Hout)])]; fold out in Herr || fold out in Hout.
  - by rewrite Hres in Herr.
  - destruct (recover_durable_cases env c prior order authorization risk snapshot now)
      as (_ & Hbook & [[_ Herr]|(r & Hr & Hok)]); rewrite <-Hout in *; [by rewrite Hres in Herr|].
    destruct (Hok _ _ Hres) as (-> & Hbytes & Hrok & Hkey & _). rewrite Hbp in *.
    destruct (reserve_risk_live _ _ _ _ _ _ _ _ _ _ Hpb Hto Hta Hl Hr) as [_ Hlive].
    destruct r as [[res proof]|]; [|done]. destruct (Hlive _ _ eq_refl) as (Hg1 & Hg2 & Hg3 & _).
    exists orderCell, digest, riskDigest, risk, res. rewrite Hbook. by split_and!.
  - pose proof (sign_and_admit_cases env c orderCell digest order authorization fence
      (semantic_fields (B.bk_profile (co_Book c)) authorization order digest riskDigest) risk snapshot now) as Hs.
    cbv zeta in Hs. rewrite <-Hout in Hs. rewrite Hbp in *.
    destruct (reserve_risk _ _ _ _ _ _ _) as [portfolio r] eqn:Er.
    destruct Hs as (Hp & Hreq & [[_ Herr]|(sg & sc & v & rc & Hbuild & Hver & _ & Hadm & [rq Hrq] & Hresult)]);
      [by rewrite Hres in Herr|].
    destruct (Hreq rq Hrq) as (_ & _ & _ & _ & res & ->). rewrite Hres in Hresult.
    destruct rc as [record0|]; [|done]. injection Hresult as -> ->.
    destruct (signed_round_trip _ _ _ _ _ _ Hcell Hbuild Hver) as [Ho Hd]. rewrite Hdig in Hd. injection Hd as ->.
    apply B.admitVerifiedLocked_cases in Hadm as [[_ [?|(prior & Hp' & _)]]|([[]|] & _ & _ & Hva & _ & Hc & Heq)];
      [done|simpl in Hp'; congruence| |done].
    injection Heq as ->. apply B.commit_book_done in Hc as (Hdoc & _).
    destruct (reserve_risk_live _ _ _ _ _ _ _ _ _ _ Hpb Hto Hta Hl Er) as [_ Hlive].
    destruct (Hlive _ _ eq_refl) as (Hg1 & Hg2 & Hg3 & _). rewrite <-Hp in Hg1.
    destruct Hb as [[Hbd _] _]. destruct Hta as (_ & ? & ? & ?).
    assert (now <= MaxUint64) as Hnow' by (unfold MaxInt64, MaxUint64 in *; lia).
    destruct (B.validateAdmission_ok bp _ v snapshot now Hmax Hbd Hnow') as (_ & Hkey & _); [done..|].
    exists orderCell, (so_OrderDigest v), riskDigest, risk, res. split_and!; try done.
    + unfold B.bk_orders. rewrite Hdoc. apply lookup_insert_eq.
    + apply base64_decode_encode.
    + simpl. by rewrite Hkey.
Qed.

End operations.

(** ** Witnesses *)
Import Fixtures.

(** An owner that approves the fields of order 20 under fence 1. *)
Definition sample_commerce : Commerce := {|
  action_rest := unit; WriterFence := N; wire_fields := unit;
  risk_Digest := fun _ r => Ok (wr_OrderDigest r);
  VerifyAuthorizedAction := fun _ fields _ _ _ =>
    check (bool_decide (is_Some (fields !! "order_digest"%string))) "fields";
  ConfirmCurrentWriterFence := fun fence _ => check (fence =? 1) "fence";
  ExportSemanticFields := fun _ _ => Ok tt
|}.
#[local] Existing Instance sample_commerce.

Definition sample_env : custody_env :=
  {| ce_signer := fun _ => Ok {| sg_PublicKey := hash 50; sg_Signature := "" |}; ce_context := Ok tt;
     ce_book_io := io_good; ce_portfolio_io := io_good |}.

Definition sample_account : B.ChainAccountSnapshot :=
  {| B.cs_OwnerAddress := addr 1; B.cs_TradingPublicKey := hash 50; B.cs_KeyEpoch := 1; B.cs_NonceFloor := 0;
     B.cs_FreeBalance := 9000000000; B.cs_YesLots := 0; B.cs_NoLots := 0; B.cs_ObservedAt := 100;
     B.cs_MasterchainSeqno := 5; B.cs_Finalized := true; B.cs_MarketConfigHash := tvm 8;
     B.cs_FinalityViewID := sha 10 |}.

Definition sample_authorization : AuthorizedAction unit :=
  {| aa_ActionKind := authorizeOrderAction; aa_OwnerID := "owner"; aa_AgentID := "agent"; aa_rest := tt |}.

Definition sample_coordinator : AuthorizedOrderCoordinator :=
  {| co_Book := B.sample_empty; co_Portfolio := sample_opened |}.

Definition sample_call : custody_outcome :=
  AuthorizeSignAndAdmit sample_digest sample_env sample_coordinator (sample_order 20 1) sample_authorization
    1 sample_account 110.

(** The call succeeds, and a call with a stale fence reaches neither the
    signer nor the ledgers. *)
Example sample_call_succeeds :
  is_ok (cu_result sample_call) = true /\ bool_decide (is_Some (cu_request sample_call)) = true /\
  cu_result (AuthorizeSignAndAdmit sample_digest sample_env sample_coordinator (sample_order 20 1)
    sample_authorization 2 sample_account 110) =
    Err "prediction order lacks current exact owner authorization".
Proof. vm_compute. done. Qed.

Lemma sample_book_inv : B.book_inv B.sample_profile (co_Book sample_coordinator).
Proof. exact (proj1 (proj2 (B.OpenBook_inv B.sample_profile io_good dir_good FileAbsent _ _ I B.sample_book_open))). Defined.

Lemma sample_portfolio_ok :
  profile_bounds sample_profile /\ ledger_ok sample_profile (co_Portfolio sample_coordinator).
Proof. exact (reachable_ok sample_digest sample_profile sample_opened (sample_reach _ (rtc_refl _ _))). Defined.

Lemma sample_order_typed : order_typed (sample_order 20 1).
Proof. repeat split; unfold is_u64, MaxUint64; simpl; lia. Defined.

Lemma sample_account_typed : account_typed B.sample_profile sample_account.
Proof. repeat split; unfold is_u64, MaxUint64; simpl; lia. Defined.

Lemma custody_risk_agrees_witness : portfolioRisk (sample_order 20 1) 1000000000 = Ok sample_risk.
Proof.
  apply (custody_risk_agrees B.sample_profile (sample_order 20 1) (sample_boc 20 1 : @cell test_protocol) (hash 20) sample_risk).
  - vm_compute. reflexivity.
  - vm_compute. reflexivity.
  - vm_compute. reflexivity.
  - vm_compute. reflexivity.
  - intros _. vm_compute. done.
  - vm_compute. reflexivity.
Defined.

Lemma custody_preserves_witness :
  B.book_inv B.sample_profile (co_Book (cu_state sample_call)) /\
  ledger_ok sample_profile (co_Portfolio (cu_state sample_call)).
Proof.
  destruct (custody_preserves sample_digest B.sample_profile sample_profile sample_env sample_coordinator
    (sample_order 20 1) sample_authorization 1 sample_account 110 sample_book_inv (proj2 sample_portfolio_ok)
    ltac:(vm_compute; discriminate) (proj1 sample_portfolio_ok) sample_order_typed sample_account_typed)
    as (H1 & H2 & _). exact (conj H1 H2).
Defined.

Lemma custody_signer_gated_witness :
  exists request, cu_request sample_call = Some request /\
    at_risk (lg_doc (co_Portfolio (cu_state sample_call))) <= 8000000000.
Proof.
  pose proof (proj1 (proj2 sample_call_succeeds)) as Hsome.
  destruct (cu_request sample_call) as [request|] eqn:E; [|discriminate Hsome].
  exists request. split; [reflexivity|].
  pose proof (custody_signer_gated sample_digest B.sample_profile sample_profile sample_env sample_coordinator
    (sample_order 20 1) sample_authorization 1 sample_account 110 request sample_book_inv (proj2 sample_portfolio_ok)
    (proj1 sample_portfolio_ok) sample_order_typed sample_account_typed E) as H. cbv zeta in H. fold sample_call in H.
  destruct H as (oc & dg & rd & res & H). repeat apply proj2 in H. exact H.
Defined.

Lemma custody_success_witness :
  exists record bytes digest, cu_result sample_call = Ok (record, bytes) /\
    B.bk_orders (co_Book (cu_state sample_call)) !! digest = Some record /\
    base64_DecodeString (B.or_SignedOrderBOC record) = Some bytes.
Proof.
  pose proof (proj1 sample_call_succeeds) as Hok.
  destruct (cu_result sample_call) as [[record bytes]|m] eqn:E; [|discriminate Hok].
  destruct (custody_success sample_digest B.sample_profile sample_profile sample_env sample_coordinator
    (sample_order 20 1) sample_authorization 1 sample_account 110 record bytes sample_book_inv
    (proj2 sample_portfolio_ok) ltac:(vm_compute; discriminate) (proj1 sample_portfolio_ok) sample_order_typed
    sample_account_typed E) as (oc & dg & rd & risk & res & _ & _ & Hstored & Hbytes & _).
  exists record, bytes, (CellHashString dg). exact (conj eq_refl (conj Hstored Hbytes)).
Defined.

End Custody.
