(* ===== verification/RelayEvidence.v ===== *)
(** * Relay records and chain evidence (src/pkg/prediction/relay.go)

    The data of the exact-message relay: the frozen trust profile, the expected
    contract call, the evidence a resolver presents, and the record that binds
    them; with every validation function of the source. The journal that moves
    records through their states is in Relay.v. *)

From S2P Require Import Prelude GoLib Protocol Fixtures.
#[local] Open Scope N_scope.

(** What the relay uses of [tvm/cell]: decoding a bag of cells ([None] is an
    error or a nil root), the canonical encoding, the representation hash, and
    [BeginParse] with the slice's [LoadUInt(32)]. *)
Class TvmCell := {
  tcell : Type;
  cell_FromBOC : string -> option tcell;
  ToBOCWithFlags : tcell -> bool -> string;
  cell_Hash : tcell -> string;
  cell_slice : Type;
  BeginParse : tcell -> option cell_slice;
  LoadUInt32 : cell_slice -> option N
}.

(** [LoadUInt(32)] returns 32 bits, and a representation hash has 32 bytes. *)
Class TvmCellLaws `{TvmCell} : Prop := {
  LoadUInt32_range : forall s n, LoadUInt32 s = Some n -> is_u32 n;
  cell_Hash_length : forall c, slen (cell_Hash c) = 32
}.

(** [commerce.IsPredictionCustodyEffectKind]. *)
Class EffectKinds := { IsPredictionCustodyEffectKind : string -> bool }.

Module Evidence.

Definition relaySchemaVersion : N := 1.
Definition maximumChainBOCBytes : N := 2097152.

(** [RelayState]; any other string decodes to [RelayOther]. *)
Inductive RelayState :=
| RelaySigned
| RelayBroadcasting
| RelaySourceFinalized
| RelaySourceActionSkipped
| RelayDestinationCommitted
| RelayDestinationFailedBounceCreated
| RelayBounceCreditedAtAgent
| RelayDestinationFailedNoBounce
| RelayOther (s : string).

#[global] Instance RelayState_eq_dec : EqDecision RelayState.
Proof. solve_decision. Defined.

Record PredictionRelayProfile := {
  pr_NetworkDomainHash : string;
  pr_SourceAgentAccount : string;
  pr_SourceAgentAccountCodeHash : string;
  pr_MarketAddress : string;
  pr_MarketID : string;
  pr_MarketCodeHash : string;
  pr_MarketConfigHash : string;
  pr_ObserverIDs : list string;
  pr_QuorumThreshold : N;
  pr_MaximumOutstanding : N;
  pr_MaximumSignedBOCBytes : N;
  pr_MinimumNoBounceMCBlocks : N
}.

#[global] Instance PredictionRelayProfile_eq_dec : EqDecision PredictionRelayProfile.
Proof. solve_decision. Defined.

Record AccountCursor := {
  ac_AccountAddress : string;
  ac_LastLogicalTime : N;
  ac_LastTransactionHash : string
}.

#[global] Instance AccountCursor_eq_dec : EqDecision AccountCursor.
Proof. solve_decision. Defined.

Record BlockIdentity := {
  bi_WorkchainID : Z;
  bi_Shard : Z;
  bi_SequenceNumber : N;
  bi_RootHash : string;
  bi_FileHash : string;
  bi_MasterchainSequence : N
}.

#[global] Instance BlockIdentity_eq_dec : EqDecision BlockIdentity.
Proof. solve_decision. Defined.

Record QuorumFinality := {
  qf_NetworkDomainHash : string;
  qf_FinalityViewID : string;
  qf_ObserverIDs : list string;
  qf_AgreeingIDs : list string;
  qf_Threshold : N;
  qf_MasterchainSeqno : N
}.

Record ExpectedContractCall := {
  ec_ActionKind : string;
  ec_StableActionID : string;
  ec_TargetAddress : string;
  ec_ValueNanoTOS : N;
  ec_BodyBOCBase64 : string;
  ec_BodyHash : string;
  ec_StateInitBOCBase64 : string;
  ec_StateInitHash : string;
  ec_Bounce : bool;
  ec_ExtraFlags : N;
  ec_Opcode : N;
  ec_SuccessPredicateDigest : string
}.

#[global] Instance ExpectedContractCall_eq_dec : EqDecision ExpectedContractCall.
Proof. solve_decision. Defined.

Record ChainObservedMessage := {
  cm_MessageHash : string;
  cm_ExactMessageBOC : string;
  cm_SourceAddress : string;
  cm_DestinationAddress : string;
  cm_ValueNanoTOS : N;
  cm_BodyBOCBase64 : string;
  cm_BodyHash : string;
  cm_StateInitBOCBase64 : string;
  cm_StateInitHash : string;
  cm_Bounce : bool;
  cm_Bounced : bool;
  cm_ExtraFlags : N
}.

#[global] Instance ChainObservedMessage_eq_dec : EqDecision ChainObservedMessage.
Proof. solve_decision. Defined.

Record SourceTransactionEvidence := {
  se_SubmittedExternalMessageHash : string;
  se_TransactionHash : string;
  se_TransactionBOCBase64 : string;
  se_Block : BlockIdentity;
  se_Finality : QuorumFinality;
  se_NextSourceCursor : AccountCursor;
  se_OutboundMessages : list ChainObservedMessage
}.

Record BoundedAbsenceEvidence := {
  ba_ScanStartMasterchainSeqno : N;
  ba_ScanEndMasterchainSeqno : N;
  ba_ObservationDigests : list string;
  ba_EvidenceSetDigest : string
}.

Record DestinationTransactionEvidence := {
  de_InboundMessageHash : string;
  de_TransactionHash : string;
  de_TransactionBOCBase64 : string;
  de_Block : BlockIdentity;
  de_Finality : QuorumFinality;
  de_NextDestinationCursor : AccountCursor;
  de_Ordinary : bool;
  de_Aborted : bool;
  de_ComputeSuccess : bool;
  de_ActionSuccess : bool;
  de_OpcodeSuccess : bool;
  de_MarketCodeHash : string;
  de_MarketConfigHash : string;
  de_SuccessPredicateDigest : string;
  de_BounceMessage : option ChainObservedMessage;
  de_RichBounceEnvelopeHash : string;
  de_RichBounceOriginalBodyHash : string;
  de_NoBounceProof : option BoundedAbsenceEvidence
}.

Record BounceCreditEvidence := {
  bc_InboundBounceMessageHash : string;
  bc_TransactionHash : string;
  bc_TransactionBOCBase64 : string;
  bc_Block : BlockIdentity;
  bc_Finality : QuorumFinality;
  bc_NextSourceCursor : AccountCursor;
  bc_CreditedValueNanoTOS : N
}.

Record PredictionRelayRecord := {
  rr_SchemaVersion : N;
  rr_Revision : N;
  rr_ActionID : string;
  rr_Profile : PredictionRelayProfile;
  rr_Expected : ExpectedContractCall;
  rr_ExactSignedBOCBase64 : string;
  rr_ExactSignedBOCDigest : string;
  rr_SubmittedExternalMessageHash : string;
  rr_PreBroadcastSourceCursor : AccountCursor;
  rr_PreBroadcastMasterchainCheckpoint : BlockIdentity;
  rr_State : RelayState;
  rr_BroadcastAttempts : N;
  rr_SourceEvidence : option SourceTransactionEvidence;
  rr_ActualOutbound : option ChainObservedMessage;
  rr_DestinationEvidence : option DestinationTransactionEvidence;
  rr_BounceCreditEvidence : option BounceCreditEvidence
}.

(** A record with its mutable part replaced, the assignments of the source's
    operations. *)
Definition set_state (r : PredictionRelayRecord) (revision : N) (state : RelayState) (attempts : N)
    (source : option SourceTransactionEvidence) (outbound : option ChainObservedMessage)
    (destination : option DestinationTransactionEvidence) (credit : option BounceCreditEvidence)
    : PredictionRelayRecord :=
  {| rr_SchemaVersion := rr_SchemaVersion r; rr_Revision := revision; rr_ActionID := rr_ActionID r;
     rr_Profile := rr_Profile r; rr_Expected := rr_Expected r;
     rr_ExactSignedBOCBase64 := rr_ExactSignedBOCBase64 r;
     rr_ExactSignedBOCDigest := rr_ExactSignedBOCDigest r;
     rr_SubmittedExternalMessageHash := rr_SubmittedExternalMessageHash r;
     rr_PreBroadcastSourceCursor := rr_PreBroadcastSourceCursor r;
     rr_PreBroadcastMasterchainCheckpoint := rr_PreBroadcastMasterchainCheckpoint r;
     rr_State := state; rr_BroadcastAttempts := attempts; rr_SourceEvidence := source;
     rr_ActualOutbound := outbound; rr_DestinationEvidence := destination;
     rr_BounceCreditEvidence := credit |}.

Definition recordWithoutEvidence (r : PredictionRelayRecord) : PredictionRelayRecord :=
  set_state r (rr_Revision r) RelayBroadcasting (rr_BroadcastAttempts r) None None None None.

Definition recordAtSourceFinal (r : PredictionRelayRecord) : PredictionRelayRecord :=
  set_state r (rr_Revision r) RelaySourceFinalized (rr_BroadcastAttempts r)
    (rr_SourceEvidence r) (rr_ActualOutbound r) None None.

Definition recordAtBounceCreated (r : PredictionRelayRecord) : PredictionRelayRecord :=
  set_state r (rr_Revision r) RelayDestinationFailedBounceCreated (rr_BroadcastAttempts r)
    (rr_SourceEvidence r) (rr_ActualOutbound r) (rr_DestinationEvidence r) None.

Record PredictionReservationDisposition := {
  rd_ReleaseMarketExposure : bool;
  rd_ReleaseSourceLiquidity : bool;
  rd_RealizeSourceLoss : bool
}.

Definition ReservationDisposition (r : PredictionRelayRecord) : PredictionReservationDisposition :=
  match rr_State r with
  | RelaySourceActionSkipped | RelayDestinationCommitted | RelayBounceCreditedAtAgent =>
      {| rd_ReleaseMarketExposure := true; rd_ReleaseSourceLiquidity := true; rd_RealizeSourceLoss := false |}
  | RelayDestinationFailedBounceCreated =>
      {| rd_ReleaseMarketExposure := true; rd_ReleaseSourceLiquidity := false; rd_RealizeSourceLoss := false |}
  | RelayDestinationFailedNoBounce =>
      {| rd_ReleaseMarketExposure := true; rd_ReleaseSourceLiquidity := false; rd_RealizeSourceLoss := true |}
  | _ =>
      {| rd_ReleaseMarketExposure := false; rd_ReleaseSourceLiquidity := false; rd_RealizeSourceLoss := false |}
  end.

(** [de_success]: the condition under which a destination transaction did
    what the call asked. *)
Definition de_success (e : DestinationTransactionEvidence) : bool :=
  negb (de_Aborted e) && de_ComputeSuccess e && de_ActionSuccess e && de_OpcodeSuccess e.

Definition is_some_b {A} (o : option A) : bool := match o with Some _ => true | None => false end.

Definition destinationState (e : DestinationTransactionEvidence) : RelayState :=
  if de_Ordinary e && de_success e then RelayDestinationCommitted
  else if is_some_b (de_BounceMessage e) then RelayDestinationFailedBounceCreated
  else RelayDestinationFailedNoBounce.

Section validation.
Context `{ADDR : TosAddress} `{CELL : TvmCell} `{KIND : EffectKinds} `{SHA : Sha256}.

Definition sha256Digest (raw : string) : string :=
  "sha256:" +:+ hex_EncodeToString (sha256_Sum256 raw).

Definition cellDigest (value : tcell) : string :=
  "tvm-cell-sha256:" +:+ hex_EncodeToString (cell_Hash value).

Definition canonicalCellDigest (raw : string) (maximum : N) : result string :=
  if (slen raw =? 0) || (maximum <? slen raw) then Err "cell BOC exceeds bound"
  else
    match cell_FromBOC raw with
    | None => Err "cell BOC is not canonical"
    | Some root =>
        if negb (bool_decide (raw = ToBOCWithFlags root false)) then Err "cell BOC is not canonical"
        else Ok (cellDigest root)
    end.

Definition decodeCanonicalCell (encoded : string) (maximum : N) : result tcell :=
  match decodeBase64Bounded encoded maximum with
  | Err m => Err m
  | Ok raw =>
      match cell_FromBOC raw with
      | None => Err "cell BOC is not canonical"
      | Some root =>
          if negb (bool_decide (raw = ToBOCWithFlags root false)) then Err "cell BOC is not canonical"
          else Ok root
      end
  end.

Definition validateRelayProfile (profile : PredictionRelayProfile) : result unit :=
  if negb (canonicalDigest (pr_NetworkDomainHash profile) "sha256:")
     || negb (validRawAddress (pr_SourceAgentAccount profile))
     || negb (canonicalDigest (pr_SourceAgentAccountCodeHash profile) "tvm-cell-sha256:")
     || negb (validRawAddress (pr_MarketAddress profile))
     || bool_decide (pr_SourceAgentAccount profile = pr_MarketAddress profile)
     || negb (canonicalDigest (pr_MarketID profile) "sha256:")
     || negb (canonicalDigest (pr_MarketCodeHash profile) "tvm-cell-sha256:")
     || negb (canonicalDigest (pr_MarketConfigHash profile) "tvm-cell-sha256:")
     || (llen (pr_ObserverIDs profile) <? 3) || (64 <? llen (pr_ObserverIDs profile))
     || (pr_QuorumThreshold profile <? 2)
     || (pr_QuorumThreshold profile <=? u32 (llen (pr_ObserverIDs profile) / 2))
     || (u32 (llen (pr_ObserverIDs profile)) <? pr_QuorumThreshold profile)
     || (pr_MaximumOutstanding profile =? 0) || (100000 <? pr_MaximumOutstanding profile)
     || (pr_MaximumSignedBOCBytes profile =? 0) || (1048576 <? pr_MaximumSignedBOCBytes profile)
     || (pr_MinimumNoBounceMCBlocks profile =? 0) || (1000000 <? pr_MinimumNoBounceMCBlocks profile)
  then Err "invalid prediction relay profile"
  else if negb (sortedUniqueCanonicalDigests (pr_ObserverIDs profile) "sha256:")
  then Err "prediction observer identities are not canonical"
  else Ok tt.

(** The NUL byte between the fields of the predicate's preimage. *)
Definition nul : string := String (of_byte 0) EmptyString.

Definition success_preimage (call : ExpectedContractCall) : string :=
  "TOS-PREDICTION-CALL-SUCCESS" +:+ nul +:+ ec_ActionKind call +:+ nul +:+ ec_StableActionID call
  +:+ nul +:+ ec_TargetAddress call +:+ nul +:+ FormatUint10 (ec_ValueNanoTOS call)
  +:+ nul +:+ ec_BodyHash call +:+ nul +:+ FormatUint10 (ec_ExtraFlags call)
  +:+ nul +:+ FormatUint10 (ec_Opcode call).

Definition contractCallSuccessPredicateDigest (call : ExpectedContractCall) : result string :=
  if negb (IsPredictionCustodyEffectKind (ec_ActionKind call))
     || negb (canonicalDigest (ec_StableActionID call) "sha256:")
     || negb (validRawAddress (ec_TargetAddress call)) || (ec_ValueNanoTOS call =? 0)
     || negb (canonicalDigest (ec_BodyHash call) "tvm-cell-sha256:") || (ec_Opcode call =? 0)
     || negb (ec_Bounce call) || negb (ec_ExtraFlags call =? 3)
     || negb (bool_decide (ec_StateInitBOCBase64 call = ""%string))
     || negb (bool_decide (ec_StateInitHash call = ""%string))
  then Err "prediction contract-call success predicate is invalid"
  else Ok (sha256Digest (success_preimage call)).

Definition validateExpectedCall (call : ExpectedContractCall) (profile : PredictionRelayProfile)
    (actionID : string) : result unit :=
  if negb (IsPredictionCustodyEffectKind (ec_ActionKind call))
     || negb (bool_decide (ec_StableActionID call = actionID))
     || negb (bool_decide (ec_TargetAddress call = pr_MarketAddress profile))
     || (ec_ValueNanoTOS call =? 0) || negb (ec_Bounce call) || negb (ec_ExtraFlags call =? 3)
     || (ec_Opcode call =? 0) || negb (canonicalDigest (ec_SuccessPredicateDigest call) "sha256:")
  then Err "prediction expected contract call is invalid"
  else
    match decodeCanonicalCell (ec_BodyBOCBase64 call) maximumChainBOCBytes with
    | Err _ => Err "prediction expected body is not canonical"
    | Ok body =>
        if negb (bool_decide (cellDigest body = ec_BodyHash call))
        then Err "prediction expected body is not canonical"
        else if negb (bool_decide (BeginParse body ≫= LoadUInt32 = Some (ec_Opcode call)))
        then Err "prediction expected opcode is not the body opcode"
        else if negb (bool_decide (contractCallSuccessPredicateDigest call =
                                   Ok (ec_SuccessPredicateDigest call)))
        then Err "prediction expected success predicate is not canonical"
        else if bool_decide (ec_StateInitBOCBase64 call = ""%string) then
          if negb (bool_decide (ec_StateInitHash call = ""%string))
          then Err "prediction expected StateInit hash has no bytes"
          else Ok tt
        else
          match decodeCanonicalCell (ec_StateInitBOCBase64 call) maximumChainBOCBytes with
          | Err _ => Err "prediction expected StateInit is not canonical"
          | Ok stateInit =>
              if negb (bool_decide (cellDigest stateInit = ec_StateInitHash call))
              then Err "prediction expected StateInit is not canonical"
              else Ok tt
          end
    end.

Definition NewExpectedContractCall (actionKind stableActionID target : string) (value : N)
    (bodyBOC : string) : result ExpectedContractCall :=
  match cell_FromBOC bodyBOC with
  | None => Err "prediction operation body is not one canonical cell"
  | Some root =>
      if (slen bodyBOC =? 0) || (maximumChainBOCBytes <? slen bodyBOC)
         || negb (bool_decide (bodyBOC = ToBOCWithFlags root false))
      then Err "prediction operation body is not one canonical cell"
      else
        match BeginParse root with
        | None => Err "prediction operation body cannot be parsed"
        | Some slice =>
            match LoadUInt32 slice with
            | None => Err "prediction operation body has no opcode"
            | Some opcode =>
                if opcode =? 0 then Err "prediction operation body has no opcode"
                else
                  let call digest :=
                    {| ec_ActionKind := actionKind; ec_StableActionID := stableActionID;
                       ec_TargetAddress := target; ec_ValueNanoTOS := value;
                       ec_BodyBOCBase64 := base64_EncodeToString bodyBOC; ec_BodyHash := cellDigest root;
                       ec_StateInitBOCBase64 := ""; ec_StateInitHash := ""; ec_Bounce := true;
                       ec_ExtraFlags := 3; ec_Opcode := u32 opcode; ec_SuccessPredicateDigest := digest |} in
                  match contractCallSuccessPredicateDigest (call ""%string) with
                  | Err m => Err m
                  | Ok digest => Ok (call digest)
                  end
            end
        end
  end.

Definition validateCheckpoint (block : BlockIdentity) : result unit :=
  if negb (canonicalDigest (bi_RootHash block) "sha256:")
     || negb (canonicalDigest (bi_FileHash block) "sha256:")
     || (bi_SequenceNumber block =? 0) || (bi_MasterchainSequence block =? 0)
  then Err "invalid chain block identity"
  else Ok tt.

Definition validateAccountCursor (cursor : AccountCursor) (account : string) : result unit :=
  if negb (bool_decide (ac_AccountAddress cursor = account))
     || negb (Bool.eqb (ac_LastLogicalTime cursor =? 0)
                       (bool_decide (ac_LastTransactionHash cursor = ""%string)))
     || (negb (bool_decide (ac_LastTransactionHash cursor = ""%string))
         && negb (canonicalDigest (ac_LastTransactionHash cursor) "sha256:"))
  then Err "invalid account transaction cursor"
  else Ok tt.

Definition validateOpaqueBOC (encoded digest : string) : result unit :=
  match decodeCanonicalCell encoded maximumChainBOCBytes with
  | Err _ => Err "invalid exact chain BOC"
  | Ok root =>
      if negb (canonicalDigest digest "sha256:")
         || negb (bool_decide ("sha256:" +:+ hex_EncodeToString (cell_Hash root) = digest))
      then Err "invalid exact chain BOC"
      else Ok tt
  end.

Definition validateQuorum (finality : QuorumFinality) (profile : PredictionRelayProfile) (minimumMC : N)
    : result unit :=
  if negb (bool_decide (qf_NetworkDomainHash finality = pr_NetworkDomainHash profile))
     || negb (canonicalDigest (qf_FinalityViewID finality) "sha256:")
     || negb (bool_decide (qf_ObserverIDs finality = pr_ObserverIDs profile))
     || negb (qf_Threshold finality =? pr_QuorumThreshold profile)
     || (qf_MasterchainSeqno finality <? minimumMC)
     || negb (sortedUniqueCanonicalDigests (qf_AgreeingIDs finality) "sha256:")
     || (llen (qf_AgreeingIDs finality) <? pr_QuorumThreshold profile)
  then Err "prediction evidence quorum is invalid"
  else
    let allowed : gset string := list_to_set (pr_ObserverIDs profile) in
    if forallb (fun id => bool_decide (id ∈ allowed)) (qf_AgreeingIDs finality)
    then Ok tt
    else Err "prediction evidence has an unadmitted observer".

Definition validateObservedMessage (message : ChainObservedMessage) : result unit :=
  match decodeCanonicalCell (cm_ExactMessageBOC message) maximumChainBOCBytes with
  | Err _ => Err "chain-observed message is invalid"
  | Ok root =>
      if negb (bool_decide (cellDigest root = cm_MessageHash message))
         || negb (validRawAddress (cm_SourceAddress message))
         || negb (validRawAddress (cm_DestinationAddress message)) || (cm_ValueNanoTOS message =? 0)
      then Err "chain-observed message is invalid"
      else
        match decodeCanonicalCell (cm_BodyBOCBase64 message) maximumChainBOCBytes with
        | Err _ => Err "chain-observed message body is invalid"
        | Ok body =>
            if negb (bool_decide (cellDigest body = cm_BodyHash message))
            then Err "chain-observed message body is invalid"
            else if bool_decide (cm_StateInitBOCBase64 message = ""%string) then
              if negb (bool_decide (cm_StateInitHash message = ""%string))
              then Err "chain-observed message StateInit hash has no bytes"
              else Ok tt
            else
              match decodeCanonicalCell (cm_StateInitBOCBase64 message) maximumChainBOCBytes with
              | Err _ => Err "chain-observed message StateInit is invalid"
              | Ok state =>
                  if negb (bool_decide (cellDigest state = cm_StateInitHash message))
                  then Err "chain-observed message StateInit is invalid"
                  else Ok tt
              end
        end
  end.

Definition validateObservedCall (message : ChainObservedMessage) (source : string)
    (expected : ExpectedContractCall) : result unit :=
  if is_err (validateObservedMessage message)
     || negb (bool_decide (cm_SourceAddress message = source))
     || negb (bool_decide (cm_DestinationAddress message = ec_TargetAddress expected))
     || negb (cm_ValueNanoTOS message =? ec_ValueNanoTOS expected)
     || negb (bool_decide (cm_BodyBOCBase64 message = ec_BodyBOCBase64 expected))
     || negb (bool_decide (cm_BodyHash message = ec_BodyHash expected))
     || negb (bool_decide (cm_StateInitBOCBase64 message = ec_StateInitBOCBase64 expected))
     || negb (bool_decide (cm_StateInitHash message = ec_StateInitHash expected))
     || negb (cm_Bounce message) || cm_Bounced message || negb (cm_ExtraFlags message =? 3)
  then Err "chain-observed outbound differs from the authorized call"
  else Ok tt.

Definition validateSourceEvidence (record : PredictionRelayRecord) (e : SourceTransactionEvidence)
    : result unit :=
  if negb (bool_decide (se_SubmittedExternalMessageHash e = rr_SubmittedExternalMessageHash record))
     || is_err (validateOpaqueBOC (se_TransactionBOCBase64 e) (se_TransactionHash e))
     || is_err (validateCheckpoint (se_Block e))
     || (bi_MasterchainSequence (se_Block e) <?
         bi_SequenceNumber (rr_PreBroadcastMasterchainCheckpoint record))
     || is_err (validateQuorum (se_Finality e) (rr_Profile record) (bi_MasterchainSequence (se_Block e)))
     || is_err (validateAccountCursor (se_NextSourceCursor e) (pr_SourceAgentAccount (rr_Profile record)))
     || (ac_LastLogicalTime (se_NextSourceCursor e) <?
         ac_LastLogicalTime (rr_PreBroadcastSourceCursor record))
     || (1 <? llen (se_OutboundMessages e))
  then Err "prediction source evidence is inconsistent"
  else
    match se_OutboundMessages e with
    | [message] =>
        if is_err (validateObservedCall message (pr_SourceAgentAccount (rr_Profile record)) (rr_Expected record))
        then Err "source transaction did not contain the exact checked-bounceable call"
        else Ok tt
    | _ => Ok tt
    end.

(** The bounded-absence branch of [validateDestinationEvidence]. *)
Definition validateNoBounce (record : PredictionRelayRecord) (e : DestinationTransactionEvidence)
    (absence : BoundedAbsenceEvidence) : result unit :=
  if (bi_MasterchainSequence (de_Block e) <? ba_ScanStartMasterchainSeqno absence)
     || (ba_ScanEndMasterchainSeqno absence <?
         add64w (bi_MasterchainSequence (de_Block e)) (pr_MinimumNoBounceMCBlocks (rr_Profile record)))
     || (qf_MasterchainSeqno (de_Finality e) <? ba_ScanEndMasterchainSeqno absence)
     || negb (sortedUniqueCanonicalDigests (ba_ObservationDigests absence) "sha256:")
     || (llen (ba_ObservationDigests absence) <? pr_QuorumThreshold (rr_Profile record))
     || negb (canonicalDigest (ba_EvidenceSetDigest absence) "sha256:")
  then Err "prediction no-bounce proof is not bounded and final"
  else Ok tt.

Definition validateDestinationEvidence (record : PredictionRelayRecord) (e : DestinationTransactionEvidence)
    : result unit :=
  match rr_ActualOutbound record with
  | None => Err "prediction destination evidence is inconsistent"
  | Some outbound =>
      if negb (bool_decide (de_InboundMessageHash e = cm_MessageHash outbound))
         || is_err (validateOpaqueBOC (de_TransactionBOCBase64 e) (de_TransactionHash e))
         || is_err (validateCheckpoint (de_Block e))
         || (bi_MasterchainSequence (de_Block e) <?
             bi_SequenceNumber (rr_PreBroadcastMasterchainCheckpoint record))
         || is_err (validateQuorum (de_Finality e) (rr_Profile record) (bi_MasterchainSequence (de_Block e)))
         || is_err (validateAccountCursor (de_NextDestinationCursor e) (pr_MarketAddress (rr_Profile record)))
         || negb (bool_decide (de_MarketCodeHash e = pr_MarketCodeHash (rr_Profile record)))
         || negb (bool_decide (de_MarketConfigHash e = pr_MarketConfigHash (rr_Profile record)))
         || negb (de_Ordinary e)
      then Err "prediction destination evidence is inconsistent"
      else if de_success e then
        if negb (bool_decide (de_SuccessPredicateDigest e = ec_SuccessPredicateDigest (rr_Expected record)))
           || is_some_b (de_BounceMessage e) || is_some_b (de_NoBounceProof e)
           || negb (bool_decide (de_RichBounceEnvelopeHash e = ""%string))
           || negb (bool_decide (de_RichBounceOriginalBodyHash e = ""%string))
        then Err "prediction success evidence contains conflicting failure material"
        else Ok tt
      else if negb (bool_decide (de_SuccessPredicateDigest e = ""%string))
      then Err "prediction failure claims a success predicate"
      else
        match de_BounceMessage e with
        | Some bounce =>
            if is_some_b (de_NoBounceProof e) || is_err (validateObservedMessage bounce)
               || negb (cm_Bounced bounce) || cm_Bounce bounce
               || negb (bool_decide (cm_SourceAddress bounce = pr_MarketAddress (rr_Profile record)))
               || negb (bool_decide (cm_DestinationAddress bounce = pr_SourceAgentAccount (rr_Profile record)))
               || (cm_ValueNanoTOS outbound <? cm_ValueNanoTOS bounce)
               || negb (canonicalDigest (de_RichBounceEnvelopeHash e) "tvm-cell-sha256:")
               || negb (bool_decide (de_RichBounceEnvelopeHash e = cm_BodyHash bounce))
               || negb (bool_decide (de_RichBounceOriginalBodyHash e = ec_BodyHash (rr_Expected record)))
            then Err "prediction failure has an invalid rich bounce"
            else Ok tt
        | None =>
            match de_NoBounceProof e with
            | None => Err "prediction failure has neither an exact bounce nor bounded absence proof"
            | Some absence =>
                if negb (bool_decide (de_RichBounceEnvelopeHash e = ""%string))
                   || negb (bool_decide (de_RichBounceOriginalBodyHash e = ""%string))
                then Err "prediction failure has neither an exact bounce nor bounded absence proof"
                else validateNoBounce record e absence
            end
        end
  end.

(** The source dereferences the destination evidence, its bounce message and
    the source evidence; each caller establishes that they are present, and
    [None] here is the nil dereference. *)
Definition validateBounceCreditEvidence (record : PredictionRelayRecord) (e : BounceCreditEvidence)
    : option (result unit) :=
  match rr_DestinationEvidence record, rr_SourceEvidence record with
  | Some destination, Some source =>
      match de_BounceMessage destination with
      | None => None
      | Some bounce =>
          Some (
          if negb (bool_decide (bc_InboundBounceMessageHash e = cm_MessageHash bounce))
             || negb (bc_CreditedValueNanoTOS e =? cm_ValueNanoTOS bounce)
             || is_err (validateOpaqueBOC (bc_TransactionBOCBase64 e) (bc_TransactionHash e))
             || is_err (validateCheckpoint (bc_Block e))
             || (bi_MasterchainSequence (bc_Block e) <? bi_MasterchainSequence (de_Block destination))
             || is_err (validateQuorum (bc_Finality e) (rr_Profile record) (bi_MasterchainSequence (bc_Block e)))
             || is_err (validateAccountCursor (bc_NextSourceCursor e) (pr_SourceAgentAccount (rr_Profile record)))
             || (ac_LastLogicalTime (bc_NextSourceCursor e) <?
                 ac_LastLogicalTime (se_NextSourceCursor source))
          then Err "prediction bounce credit evidence is inconsistent"
          else Ok tt)
      end
  | _, _ => None
  end.

Definition no_future_evidence (r : PredictionRelayRecord) : bool :=
  negb (is_some_b (rr_SourceEvidence r)) && negb (is_some_b (rr_ActualOutbound r))
  && negb (is_some_b (rr_DestinationEvidence r)) && negb (is_some_b (rr_BounceCreditEvidence r)).

(** The part of [validateRelayRecord] for the states after source finality. *)
Definition validateAfterSource (record : PredictionRelayRecord) : result unit :=
  match rr_DestinationEvidence record with
  | None => Err "destination-final relay record is invalid"
  | Some destination =>
      if is_err (validateDestinationEvidence (recordAtSourceFinal record) destination)
      then Err "destination-final relay record is invalid"
      else if negb (bool_decide (destinationState destination = rr_State record))
              && negb (bool_decide (rr_State record = RelayBounceCreditedAtAgent))
      then Err "destination evidence does not match relay state"
      else if bool_decide (rr_State record = RelayBounceCreditedAtAgent)
              && negb (bool_decide (destinationState destination = RelayDestinationFailedBounceCreated))
      then Err "credited relay record has no bounce-created predecessor"
      else if bool_decide (rr_State record = RelayBounceCreditedAtAgent) then
        match rr_BounceCreditEvidence record with
        | None => Err "bounce-credit relay record is invalid"
        | Some credit =>
            match validateBounceCreditEvidence (recordAtBounceCreated record) credit with
            | Some (Ok _) => Ok tt
            | _ => Err "bounce-credit relay record is invalid"
            end
        end
      else if is_some_b (rr_BounceCreditEvidence record)
      then Err "relay record has premature bounce credit"
      else Ok tt
  end.

Definition validateSourceFinal (record : PredictionRelayRecord) : result unit :=
  match rr_SourceEvidence record, rr_ActualOutbound record with
  | Some source, Some outbound =>
      if negb (bool_decide (se_OutboundMessages source = [outbound]))
         || is_err (validateSourceEvidence (recordWithoutEvidence record) source)
      then Err "source-final relay record is invalid"
      else if bool_decide (rr_State record = RelaySourceFinalized) then
        if is_some_b (rr_DestinationEvidence record) || is_some_b (rr_BounceCreditEvidence record)
        then Err "source-final relay record has future evidence"
        else Ok tt
      else validateAfterSource record
  | _, _ => Err "source-final relay record is invalid"
  end.

(** The identity part of [validateRelayRecord]: everything that never
    changes. *)
Definition validateIdentity (record : PredictionRelayRecord) (profile : PredictionRelayProfile)
    : result unit :=
  if negb (rr_SchemaVersion record =? relaySchemaVersion) || (rr_Revision record =? 0)
     || negb (canonicalDigest (rr_ActionID record) "sha256:")
     || negb (bool_decide (rr_Profile record = profile))
     || is_err (validateExpectedCall (rr_Expected record) profile (rr_ActionID record))
     || is_err (validateAccountCursor (rr_PreBroadcastSourceCursor record) (pr_SourceAgentAccount profile))
     || is_err (validateCheckpoint (rr_PreBroadcastMasterchainCheckpoint record))
     || negb (bool_decide (bi_WorkchainID (rr_PreBroadcastMasterchainCheckpoint record) = (-1)%Z))
     || negb (bi_SequenceNumber (rr_PreBroadcastMasterchainCheckpoint record) =?
              bi_MasterchainSequence (rr_PreBroadcastMasterchainCheckpoint record))
  then Err "invalid prediction relay record identity"
  else
    match decodeBase64Bounded (rr_ExactSignedBOCBase64 record) (pr_MaximumSignedBOCBytes profile) with
    | Err m => Err m
    | Ok raw =>
        match canonicalCellDigest raw (pr_MaximumSignedBOCBytes profile) with
        | Err _ => Err "prediction relay exact BOC changed"
        | Ok messageHash =>
            if negb (bool_decide (sha256Digest raw = rr_ExactSignedBOCDigest record))
               || negb (bool_decide (rr_SubmittedExternalMessageHash record = messageHash))
            then Err "prediction relay exact BOC changed"
            else Ok tt
        end
    end.

Definition validateRelayRecord (record : PredictionRelayRecord) (profile : PredictionRelayProfile)
    : result unit :=
  match validateIdentity record profile with
  | Err m => Err m
  | Ok _ =>
      match rr_State record with
      | RelaySigned =>
          if negb (rr_BroadcastAttempts record =? 0) || negb (no_future_evidence record)
          then Err "signed relay record has future evidence"
          else Ok tt
      | RelayBroadcasting =>
          if (rr_BroadcastAttempts record =? 0) || negb (no_future_evidence record)
          then Err "broadcasting relay record has invalid evidence"
          else Ok tt
      | RelaySourceActionSkipped =>
          match rr_SourceEvidence record with
          | None => Err "action-skipped relay record is invalid"
          | Some source =>
              if negb (llen (se_OutboundMessages source) =? 0) || is_some_b (rr_ActualOutbound record)
                 || is_some_b (rr_DestinationEvidence record) || is_some_b (rr_BounceCreditEvidence record)
                 || is_err (validateSourceEvidence (recordWithoutEvidence record) source)
              then Err "action-skipped relay record is invalid"
              else Ok tt
          end
      | RelayOther _ => Err "unknown prediction relay state"
      | _ => validateSourceFinal record
      end
  end.

(** ** What an accepted quorum and an accepted record mean *)

(** Two duplicate-free selections from one list that together are longer than
    it have an element in common. *)
Lemma evidence_pigeonhole (all xs ys : list string) :
  NoDup xs -> NoDup ys -> xs ⊆ all -> ys ⊆ all ->
  (length all < length xs + length ys)%nat -> exists x, x ∈ xs /\ x ∈ ys.
Proof.
  intros Hx Hy Hxa Hya Hlen.
  destruct (decide (Exists (fun x => x ∈ ys) xs)) as [He|Hn].
  - apply Exists_exists in He. done.
  - exfalso. rewrite <-Forall_Exists_neg in Hn. rewrite Forall_forall in Hn.
    assert (NoDup (xs ++ ys)) as Hnd by (apply NoDup_app; split_and!; [done|exact Hn|done]).
    assert (xs ++ ys ⊆+ all) as Hsub.
    { apply NoDup_submseteq; [done|]. intros x Hin. apply elem_of_app in Hin as [?|?]; auto. }
    apply submseteq_length in Hsub. rewrite length_app in Hsub. lia.
Qed.

Lemma validateRelayProfile_quorum profile :
  validateRelayProfile profile = Ok tt ->
  llen (pr_ObserverIDs profile) < 2 * pr_QuorumThreshold profile /\
  pr_QuorumThreshold profile <= llen (pr_ObserverIDs profile) /\
  pr_MaximumOutstanding profile <= 100000 /\ pr_MaximumSignedBOCBytes profile <= 1048576 /\
  pr_MinimumNoBounceMCBlocks profile <= 1000000.
Proof.
  unfold validateRelayProfile. destruct (_ || _) eqn:E; [done|]. intros _. bprop.
  set (n := llen (pr_ObserverIDs profile)) in *.
  assert (n / 2 <= 32) by (apply N.Div0.div_le_upper_bound; lia).
  rewrite u32_small in * by (unfold MaxUint32; lia).
  pose proof (N.div_mod n 2). pose proof (N.mod_upper_bound n 2).
  split_and!; lia.
Qed.

Lemma validateQuorum_ok finality profile minimum :
  validateQuorum finality profile minimum = Ok tt ->
  NoDup (qf_AgreeingIDs finality) /\ qf_AgreeingIDs finality ⊆ pr_ObserverIDs profile /\
  pr_QuorumThreshold profile <= llen (qf_AgreeingIDs finality) /\
  qf_NetworkDomainHash finality = pr_NetworkDomainHash profile /\
  minimum <= qf_MasterchainSeqno finality.
Proof.
  unfold validateQuorum. destruct (_ || _) eqn:E; [done|].
  destruct (forallb _ _) eqn:Ef; [|done]. intros _. bprop.
  match goal with H : sortedUniqueCanonicalDigests _ _ = true |- _ =>
    destruct (sortedUniqueCanonicalDigests_spec _ _ H) as (_ & Hnd & _) end.
  split_and!; [done| |done|done|done].
  intros x Hx. rewrite forallb_forall in Ef. specialize (Ef x).
  apply list_elem_of_In in Hx. specialize (Ef Hx). bprop. set_solver.
Qed.

(** two accepted finality claims always share an admitted observer.
    Under an accepted trust profile, any two quorum certificates that
    [validateQuorum] accepts, for whatever blocks and whatever records, have a
    common observer among the frozen identities, because the threshold is a
    majority and certificates hold distinct admitted observers; so two
    conflicting finality claims need one observer to sign both. *)
Theorem relay_quorums_intersect profile f1 f2 m1 m2 :
  validateRelayProfile profile = Ok tt ->
  validateQuorum f1 profile m1 = Ok tt -> validateQuorum f2 profile m2 = Ok tt ->
  exists observer, observer ∈ qf_AgreeingIDs f1 /\ observer ∈ qf_AgreeingIDs f2 /\
    observer ∈ pr_ObserverIDs profile.
Proof.
  intros Hp H1 H2. apply validateRelayProfile_quorum in Hp as (Hmaj & _).
  apply validateQuorum_ok in H1 as (Hnd1 & Hs1 & Hl1 & _).
  apply validateQuorum_ok in H2 as (Hnd2 & Hs2 & Hl2 & _).
  destruct (evidence_pigeonhole _ _ _ Hnd1 Hnd2 Hs1 Hs2) as (x & Hx1 & Hx2).
  - unfold llen in *. lia.
  - exists x. auto.
Qed.

(** ** Freezing the expected call *)

Lemma cellDigest_canonical `{!TvmCellLaws} c : canonicalDigest (cellDigest c) "tvm-cell-sha256:" = true.
Proof. apply canonicalDigest_spec; [reflexivity|]. exists (cell_Hash c). split; [apply cell_Hash_length|done]. Qed.

Lemma sha256Digest_canonical raw :
  slen (sha256_Sum256 raw) = 32 -> canonicalDigest (sha256Digest raw) "sha256:" = true.
Proof. intros H. apply canonicalDigest_spec; [reflexivity|]. by exists (sha256_Sum256 raw). Qed.

Lemma decodeCanonicalCell_encode raw root maximum :
  cell_FromBOC raw = Some root -> raw = ToBOCWithFlags root false -> 0 < slen raw -> slen raw <= maximum ->
  decodeCanonicalCell (base64_EncodeToString raw) maximum = Ok root.
Proof.
  intros Hr Hc H0 Hm. unfold decodeCanonicalCell.
  assert (decodeBase64Bounded (base64_EncodeToString raw) maximum = Ok raw) as ->
    by (by apply decodeBase64Bounded_spec).
  rewrite Hr. by rewrite bool_decide_true.
Qed.

(** The predicate digest does not depend on the digest field it fills. *)
Lemma success_predicate_stable kind id target value body hash opcode d1 d2 :
  let call d := {| ec_ActionKind := kind; ec_StableActionID := id; ec_TargetAddress := target;
    ec_ValueNanoTOS := value; ec_BodyBOCBase64 := body; ec_BodyHash := hash; ec_StateInitBOCBase64 := "";
    ec_StateInitHash := ""; ec_Bounce := true; ec_ExtraFlags := 3; ec_Opcode := opcode;
    ec_SuccessPredicateDigest := d |} in
  contractCallSuccessPredicateDigest (call d1) = contractCallSuccessPredicateDigest (call d2).
Proof. reflexivity. Qed.

(** the builder and the journal agree on what an expected call is.
    Every call [NewExpectedContractCall] returns for the profile's market is
    one [validateExpectedCall] accepts under the same action id: the body
    decodes back to the canonical cell it was given, its hash, opcode and
    derived success predicate match, and it is bounceable with the checked
    flags. *)
Theorem relay_new_call_valid `{!TvmCellLaws} profile kind id value body call :
  (forall raw, slen (sha256_Sum256 raw) = 32) ->
  NewExpectedContractCall kind id (pr_MarketAddress profile) value body = Ok call ->
  validateExpectedCall call profile id = Ok tt /\
  base64_DecodeString (ec_BodyBOCBase64 call) = Some body.
Proof.
  intros Hsha Hn. unfold NewExpectedContractCall in Hn.
  destruct (cell_FromBOC body) as [root|] eqn:Er; [|done].
  head_case Hn eqn E1; [done|]. bprop.
  destruct (BeginParse root) as [slice|] eqn:Es; [|done].
  destruct (LoadUInt32 slice) as [opcode|] eqn:Eo; [|done].
  head_case Hn eqn E2; [done|]. bprop. apply LoadUInt32_range in Eo as Hr.
  rewrite u32_small in Hn by done.
  head_case Hn as [digest|] eqn Ed; [|done]. injection Hn as <-.
  split; [|apply base64_decode_encode].
  pose proof Ed as Eg. unfold contractCallSuccessPredicateDigest in Eg. head_case Eg eqn Ec; [done|].
  injection Eg as Hd. bprop. simpl in *.
  unfold validateExpectedCall. cbv [ec_ActionKind ec_StableActionID ec_TargetAddress ec_ValueNanoTOS ec_Bounce
    ec_ExtraFlags ec_Opcode ec_SuccessPredicateDigest ec_BodyBOCBase64 ec_BodyHash].
  rewrite (decodeCanonicalCell_encode body root) by (done || lia).
  replace (canonicalDigest digest "sha256:") with true
    by (rewrite <-Hd; symmetry; apply sha256Digest_canonical, Hsha).
  match goal with H : IsPredictionCustodyEffectKind _ = true |- _ => rewrite H end.
  rewrite !bool_decide_true by done.
  destruct (N.eqb_spec value 0); [done|]. destruct (N.eqb_spec opcode 0); [done|]. simpl.
  rewrite Es. simpl. rewrite Eo, bool_decide_true by done. simpl.
  rewrite bool_decide_true; [done|].
  etrans; [|exact Ed]. apply success_predicate_stable.
Qed.

(** ** What the evidence in an accepted record establishes *)

(** The message on chain is the call that was authorized. *)
Definition exact_call (record : PredictionRelayRecord) (m : ChainObservedMessage) : Prop :=
  cm_SourceAddress m = pr_SourceAgentAccount (rr_Profile record) /\
  cm_DestinationAddress m = ec_TargetAddress (rr_Expected record) /\
  cm_ValueNanoTOS m = ec_ValueNanoTOS (rr_Expected record) /\
  cm_BodyBOCBase64 m = ec_BodyBOCBase64 (rr_Expected record) /\
  cm_BodyHash m = ec_BodyHash (rr_Expected record) /\
  cm_StateInitBOCBase64 m = ec_StateInitBOCBase64 (rr_Expected record) /\
  cm_StateInitHash m = ec_StateInitHash (rr_Expected record) /\
  cm_Bounce m = true /\ cm_Bounced m = false /\ cm_ExtraFlags m = 3.

(** A finality claim for a block, on the admitted network, by at least the
    threshold of distinct frozen observers. *)
Definition threshold_final (record : PredictionRelayRecord) (f : QuorumFinality) (block : BlockIdentity) : Prop :=
  NoDup (qf_AgreeingIDs f) /\ qf_AgreeingIDs f ⊆ pr_ObserverIDs (rr_Profile record) /\
  pr_QuorumThreshold (rr_Profile record) <= llen (qf_AgreeingIDs f) /\
  qf_NetworkDomainHash f = pr_NetworkDomainHash (rr_Profile record) /\
  bi_MasterchainSequence block <= qf_MasterchainSeqno f.

(** The same by more than half of the frozen observers. *)
Definition majority_final (record : PredictionRelayRecord) (f : QuorumFinality) (block : BlockIdentity) : Prop :=
  threshold_final record f block /\
  llen (pr_ObserverIDs (rr_Profile record)) < 2 * llen (qf_AgreeingIDs f).

Lemma threshold_majority record f block :
  validateRelayProfile (rr_Profile record) = Ok tt -> threshold_final record f block -> majority_final record f block.
Proof.
  intros Hp Hf. apply validateRelayProfile_quorum in Hp as (Hmaj & _).
  split; [done|]. destruct Hf as (_ & _ & Hle & _). lia.
Qed.

Ltac evidence_ok :=
  bprop; repeat match goal with H : is_err _ = false |- _ => apply is_err_false_ok in H end.

Lemma validateQuorum_final record f block :
  validateQuorum f (rr_Profile record) (bi_MasterchainSequence block) = Ok tt -> threshold_final record f block.
Proof. apply validateQuorum_ok. Qed.

Lemma validateSourceEvidence_ok record e :
  validateSourceEvidence record e = Ok tt ->
  se_SubmittedExternalMessageHash e = rr_SubmittedExternalMessageHash record /\
  threshold_final record (se_Finality e) (se_Block e) /\
  (forall m, se_OutboundMessages e = [m] -> exact_call record m).
Proof.
  unfold validateSourceEvidence. intros H. head_case H eqn E; [done|]. evidence_ok.
  split_and!; [done|by eapply validateQuorum_final|]. intros m Hm. rewrite Hm in H.
  head_case H eqn E'; [done|]. evidence_ok. unfold validateObservedCall in E'.
  head_case E' eqn E2; [done|]. evidence_ok. unfold exact_call. split_and!; done.
Qed.

Lemma validateDestinationEvidence_ok record e :
  validateDestinationEvidence record e = Ok tt ->
  exists outbound, rr_ActualOutbound record = Some outbound /\
  de_InboundMessageHash e = cm_MessageHash outbound /\ threshold_final record (de_Finality e) (de_Block e) /\
  de_Ordinary e = true /\
  de_MarketCodeHash e = pr_MarketCodeHash (rr_Profile record) /\
  de_MarketConfigHash e = pr_MarketConfigHash (rr_Profile record) /\
  (if de_success e
   then de_SuccessPredicateDigest e = ec_SuccessPredicateDigest (rr_Expected record) /\
        de_BounceMessage e = None /\ de_NoBounceProof e = None
   else match de_BounceMessage e with
        | Some bounce =>
            de_NoBounceProof e = None /\
            cm_SourceAddress bounce = pr_MarketAddress (rr_Profile record) /\
            cm_DestinationAddress bounce = pr_SourceAgentAccount (rr_Profile record) /\
            cm_Bounced bounce = true /\ cm_ValueNanoTOS bounce <= cm_ValueNanoTOS outbound /\
            de_RichBounceOriginalBodyHash e = ec_BodyHash (rr_Expected record)
        | None => exists absence, de_NoBounceProof e = Some absence /\
            validateNoBounce record e absence = Ok tt
        end).
Proof.
  unfold validateDestinationEvidence. intros H. head_case H as [outbound|] eqn Eo; [|done].
  head_case H eqn E; [done|]. evidence_ok. exists outbound.
  split_and!; [done|done|by eapply validateQuorum_final|done|done|done|].
  head_case H eqn Es.
  - head_case H eqn E2; [done|]. evidence_ok.
    destruct (de_BounceMessage e), (de_NoBounceProof e); done.
  - head_case H eqn E3; [done|]. destruct (de_BounceMessage e) as [bounce|].
    + head_case H eqn E4; [done|]. evidence_ok. destruct (de_NoBounceProof e); done.
    + destruct (de_NoBounceProof e) as [absence|]; [|done]. head_case H eqn E5; [done|]. by exists absence.
Qed.

Lemma validateRelayRecord_identity record profile :
  validateRelayRecord record profile = Ok tt -> validateIdentity record profile = Ok tt.
Proof. unfold validateRelayRecord. intros H. head_case H as [[]|] eqn E; done. Qed.

Lemma validateIdentity_ok record profile :
  validateIdentity record profile = Ok tt ->
  rr_Profile record = profile /\ canonicalDigest (rr_ActionID record) "sha256:" = true /\
  0 < rr_Revision record /\
  exists raw, rr_ExactSignedBOCBase64 record = base64_EncodeToString raw /\
    base64_DecodeString (rr_ExactSignedBOCBase64 record) = Some raw.
Proof.
  unfold validateIdentity. intros H. head_case H eqn E; [done|]. evidence_ok.
  head_case H as [raw|] eqn Er; [|done]. apply decodeBase64Bounded_spec in Er as (He & _ & _).
  split_and!; [done|done|lia|]. exists raw. rewrite He. split; [done|apply base64_decode_encode].
Qed.

Lemma validateSourceFinal_ok record :
  validateSourceFinal record = Ok tt ->
  exists source outbound, rr_SourceEvidence record = Some source /\
    rr_ActualOutbound record = Some outbound /\ se_OutboundMessages source = [outbound] /\
    validateSourceEvidence (recordWithoutEvidence record) source = Ok tt /\
    (rr_State record = RelaySourceFinalized \/ validateAfterSource record = Ok tt).
Proof.
  unfold validateSourceFinal. intros H. head_case H as [source|] eqn Es; [|done].
  head_case H as [outbound|] eqn Eo; [|done]. head_case H eqn E; [done|]. evidence_ok.
  exists source, outbound. split_and!; [done..|]. case_bool_decide; auto.
Qed.

Lemma validateAfterSource_ok record :
  validateAfterSource record = Ok tt ->
  exists destination, rr_DestinationEvidence record = Some destination /\
    validateDestinationEvidence (recordAtSourceFinal record) destination = Ok tt /\
    (rr_State record = destinationState destination \/
     (rr_State record = RelayBounceCreditedAtAgent /\
      destinationState destination = RelayDestinationFailedBounceCreated /\
      exists credit, rr_BounceCreditEvidence record = Some credit /\
        validateBounceCreditEvidence (recordAtBounceCreated record) credit = Some (Ok tt))).
Proof.
  unfold validateAfterSource. intros H. head_case H as [destination|] eqn Ed; [|done].
  head_case H eqn E1; [done|]. apply is_err_false_ok in E1. exists destination. split_and!; [done..|].
  head_case H eqn E2; [done|]. head_case H eqn E3; [done|]. head_case H eqn E4; bprop.
  - right. destruct E3; [done|]. bprop. split_and!; [done..|].
    head_case H as [credit|] eqn Ec; [|done]. exists credit. split; [done|].
    head_case H as [[[]|]|] eqn Ev; done.
  - destruct E2; bprop; [by left|done].
Qed.

(** C26: under an accepted trust profile a committed record proves that the
    market executed exactly the authorized call. The block of the source
    transaction is final by a strict majority of the frozen observers, and the
    transaction carried the external message that was submitted and one
    outbound message, equal to the expected call in source, destination,
    value, body, state init and flags; the destination transaction, in a block
    final by a strict majority too, took that very message in, ran the
    admitted code and configuration, met the call's success predicate, and
    bounced nothing. (A journal is opened only with an accepted profile.) *)
Theorem relay_committed_evidence record profile :
  validateRelayProfile profile = Ok tt ->
  validateRelayRecord record profile = Ok tt -> rr_State record = RelayDestinationCommitted ->
  exists source outbound destination,
    rr_SourceEvidence record = Some source /\ rr_DestinationEvidence record = Some destination /\
    se_SubmittedExternalMessageHash source = rr_SubmittedExternalMessageHash record /\
    se_OutboundMessages source = [outbound] /\ exact_call record outbound /\
    majority_final record (se_Finality source) (se_Block source) /\
    majority_final record (de_Finality destination) (de_Block destination) /\
    de_InboundMessageHash destination = cm_MessageHash outbound /\
    de_MarketCodeHash destination = pr_MarketCodeHash profile /\
    de_MarketConfigHash destination = pr_MarketConfigHash profile /\
    de_SuccessPredicateDigest destination = ec_SuccessPredicateDigest (rr_Expected record) /\
    de_success destination = true /\ de_BounceMessage destination = None.
Proof.
  intros Hprofile H Hs. pose proof (validateIdentity_ok _ _ (validateRelayRecord_identity _ _ H)) as (Hp & _).
  unfold validateRelayRecord in H. head_case H as [u|] eqn E; [|done]. rewrite Hs in H.
  apply validateSourceFinal_ok in H as (source & outbound & Hse & Hout & Hmsg & Hval & [Hbad|Hafter]);
    [congruence|].
  apply validateSourceEvidence_ok in Hval as (Hsub & Hmaj & Hcall).
  apply validateAfterSource_ok in Hafter as (destination & Hde & Hdval & Hst).
  apply validateDestinationEvidence_ok in Hdval as (out & Hout' & Hin & Hmaj' & Hord & Hcode & Hconf & Hcase).
  simpl in Hout'. rewrite Hout in Hout'. injection Hout' as <-.
  destruct Hst as [Hst|[Hst _]]; [|congruence]. rewrite Hs in Hst. unfold destinationState in Hst.
  rewrite Hord in Hst. simpl in Hst. destruct (de_success destination) eqn:Esuc.
  - destruct Hcase as (Hpred & Hb & _). simpl in Hcode, Hconf. rewrite Hp in Hcode, Hconf.
    rewrite <-Hp in Hprofile. exists source, outbound, destination.
    split_and!; first [by apply threshold_majority | apply (Hcall _ Hmsg) | by auto].
  - destruct (is_some_b _); done.
Qed.

(** a failed call returns at most what was sent. In a record whose bounce
    was credited, the credited value is the value of the bounce message, which
    came from the market to the agent account for the authorized body, and it
    does not exceed the value of the call; both blocks are final by a strict
    majority of the frozen observers, the profile being an accepted one. *)
Theorem relay_credit_bounded record profile :
  validateRelayProfile profile = Ok tt -> validateRelayRecord record profile = Ok tt -> rr_State record = RelayBounceCreditedAtAgent ->
  exists destination bounce credit,
    rr_DestinationEvidence record = Some destination /\ de_BounceMessage destination = Some bounce /\
    rr_BounceCreditEvidence record = Some credit /\
    bc_InboundBounceMessageHash credit = cm_MessageHash bounce /\
    bc_CreditedValueNanoTOS credit = cm_ValueNanoTOS bounce /\
    bc_CreditedValueNanoTOS credit <= ec_ValueNanoTOS (rr_Expected record) /\
    cm_SourceAddress bounce = pr_MarketAddress profile /\
    cm_DestinationAddress bounce = pr_SourceAgentAccount profile /\
    de_RichBounceOriginalBodyHash destination = ec_BodyHash (rr_Expected record) /\
    majority_final record (de_Finality destination) (de_Block destination) /\
    majority_final record (bc_Finality credit) (bc_Block credit).
Proof.
  intros Hprofile H Hs. pose proof (validateIdentity_ok _ _ (validateRelayRecord_identity _ _ H)) as (Hp & _).
  unfold validateRelayRecord in H. head_case H as [u|] eqn E; [|done]. rewrite Hs in H.
  apply validateSourceFinal_ok in H as (source & outbound & Hse & Hout & Hmsg & Hval & [Hbad|Hafter]);
    [congruence|].
  apply validateSourceEvidence_ok in Hval as (_ & _ & Hcall). destruct (Hcall _ Hmsg) as (_ & _ & Hvalue & _).
  apply validateAfterSource_ok in Hafter as (destination & Hde & Hdval & [Hst|(_ & Hst & credit & Hc & Hcv)]).
  { rewrite Hs in Hst. unfold destinationState in Hst. repeat case_match; done. }
  apply validateDestinationEvidence_ok in Hdval as (out & Hout' & _ & Hmaj & Hord & _ & _ & Hcase).
  simpl in Hout'. rewrite Hout in Hout'. injection Hout' as <-.
  unfold destinationState in Hst. rewrite Hord in Hst. simpl in Hst.
  destruct (de_success destination); [done|].
  unfold validateBounceCreditEvidence in Hcv. simpl in Hcv. rewrite Hde, Hse in Hcv.
  destruct (de_BounceMessage destination) as [bounce|] eqn:Eb; [|done].
  injection Hcv as Hcv. head_case Hcv eqn E2; [done|]. evidence_ok. simpl in *.
  destruct Hcase as (_ & Hsrc & Hdst & _ & Hle & Hbody).
  exists destination, bounce, credit. rewrite <-Hp in *.
  split_and!; first [done | congruence | lia
    | apply threshold_majority; [done|first [done|by eapply validateQuorum_final]]].
Qed.

End validation.

(** ** Witnesses *)

Module Samples.
Import Fixtures.

(** A cell is its encoding; its hash depends on the length, and every body
    starts with opcode 7. *)
#[global] Instance test_cell : TvmCell := {|
  tcell := string; cell_FromBOC := fun s => Some s; ToBOCWithFlags := fun c _ => c;
  cell_Hash := fun c => hash (slen c mod 256);
  cell_slice := string; BeginParse := fun c => Some c; LoadUInt32 := fun _ => Some 7
|}.

#[global] Instance test_cell_laws : TvmCellLaws.
Proof.
  split.
  - intros s n Hn. simpl in Hn. injection Hn as <-. unfold is_u32, MaxUint32. lia.
  - intros c. apply slen_bytes.
Qed.

#[global] Instance test_kinds : EffectKinds := {|
  IsPredictionCustodyEffectKind := fun k => bool_decide (k = "prediction.market.deposit"%string)
|}.

Lemma test_sha256_length raw : slen (sha256_Sum256 raw) = 32.
Proof. apply slen_bytes. Qed.

(** Three observers, majority two. *)
Definition profile : PredictionRelayProfile :=
  {| pr_NetworkDomainHash := sha 10; pr_SourceAgentAccount := addr 1;
     pr_SourceAgentAccountCodeHash := tvm 11; pr_MarketAddress := addr 7; pr_MarketID := sha 12;
     pr_MarketCodeHash := tvm 13; pr_MarketConfigHash := tvm 8;
     pr_ObserverIDs := [sha 1; sha 2; sha 3]; pr_QuorumThreshold := 2; pr_MaximumOutstanding := 2;
     pr_MaximumSignedBOCBytes := 1024; pr_MinimumNoBounceMCBlocks := 10 |}.

Definition body : string := "deposit".
Definition action : string := sha 20.

Definition call : ExpectedContractCall :=
  {| ec_ActionKind := "prediction.market.deposit"; ec_StableActionID := action;
     ec_TargetAddress := addr 7; ec_ValueNanoTOS := 500;
     ec_BodyBOCBase64 := base64_EncodeToString body; ec_BodyHash := cellDigest body;
     ec_StateInitBOCBase64 := ""; ec_StateInitHash := ""; ec_Bounce := true; ec_ExtraFlags := 3;
     ec_Opcode := 7;
     ec_SuccessPredicateDigest :=
       sha256Digest (success_preimage
         {| ec_ActionKind := "prediction.market.deposit"; ec_StableActionID := action;
            ec_TargetAddress := addr 7; ec_ValueNanoTOS := 500;
            ec_BodyBOCBase64 := base64_EncodeToString body; ec_BodyHash := cellDigest body;
            ec_StateInitBOCBase64 := ""; ec_StateInitHash := ""; ec_Bounce := true;
            ec_ExtraFlags := 3; ec_Opcode := 7; ec_SuccessPredicateDigest := "" |}) |}.

Definition cursor (account : string) (lt : N) : AccountCursor :=
  {| ac_AccountAddress := account; ac_LastLogicalTime := lt; ac_LastTransactionHash := sha 30 |}.

Definition block (seqno : N) : BlockIdentity :=
  {| bi_WorkchainID := -1; bi_Shard := 0; bi_SequenceNumber := seqno; bi_RootHash := sha 31;
     bi_FileHash := sha 32; bi_MasterchainSequence := seqno |}.

Definition finality (agreeing : list string) (seqno : N) : QuorumFinality :=
  {| qf_NetworkDomainHash := sha 10; qf_FinalityViewID := sha 33; qf_ObserverIDs := pr_ObserverIDs profile;
     qf_AgreeingIDs := agreeing; qf_Threshold := 2; qf_MasterchainSeqno := seqno |}.

Definition tx : string := "transaction".
Definition tx_hash : string := "sha256:" +:+ hex_EncodeToString (cell_Hash tx).

Definition message (src dst : string) (value : N) (bounced : bool) : ChainObservedMessage :=
  {| cm_MessageHash := cellDigest "message"; cm_ExactMessageBOC := base64_EncodeToString "message";
     cm_SourceAddress := src; cm_DestinationAddress := dst; cm_ValueNanoTOS := value;
     cm_BodyBOCBase64 := base64_EncodeToString body; cm_BodyHash := cellDigest body;
     cm_StateInitBOCBase64 := ""; cm_StateInitHash := ""; cm_Bounce := negb bounced;
     cm_Bounced := bounced; cm_ExtraFlags := 3 |}.

Definition external_message : string := "signed external message".

(** The exact signed message, prepared at masterchain block 100. *)
Definition signed : PredictionRelayRecord :=
  {| rr_SchemaVersion := 1; rr_Revision := 1; rr_ActionID := action; rr_Profile := profile;
     rr_Expected := call; rr_ExactSignedBOCBase64 := base64_EncodeToString external_message;
     rr_ExactSignedBOCDigest := sha256Digest external_message;
     rr_SubmittedExternalMessageHash := cellDigest external_message;
     rr_PreBroadcastSourceCursor := cursor (addr 1) 1000;
     rr_PreBroadcastMasterchainCheckpoint := block 100; rr_State := RelaySigned;
     rr_BroadcastAttempts := 0; rr_SourceEvidence := None; rr_ActualOutbound := None;
     rr_DestinationEvidence := None; rr_BounceCreditEvidence := None |}.

Definition source_evidence : SourceTransactionEvidence :=
  {| se_SubmittedExternalMessageHash := cellDigest external_message; se_TransactionHash := tx_hash;
     se_TransactionBOCBase64 := base64_EncodeToString tx; se_Block := block 101;
     se_Finality := finality [sha 1; sha 2] 101; se_NextSourceCursor := cursor (addr 1) 1001;
     se_OutboundMessages := [message (addr 1) (addr 7) 500 false] |}.

Definition destination_evidence (ok : bool) : DestinationTransactionEvidence :=
  {| de_InboundMessageHash := cellDigest "message"; de_TransactionHash := tx_hash;
     de_TransactionBOCBase64 := base64_EncodeToString tx; de_Block := block 102;
     de_Finality := finality [sha 2; sha 3] 102; de_NextDestinationCursor := cursor (addr 7) 2000;
     de_Ordinary := true; de_Aborted := negb ok; de_ComputeSuccess := ok; de_ActionSuccess := ok;
     de_OpcodeSuccess := ok; de_MarketCodeHash := tvm 13; de_MarketConfigHash := tvm 8;
     de_SuccessPredicateDigest := (if ok then ec_SuccessPredicateDigest call else "");
     de_BounceMessage := (if ok then None else Some (message (addr 7) (addr 1) 480 true));
     de_RichBounceEnvelopeHash := (if ok then "" else cellDigest body);
     de_RichBounceOriginalBodyHash := (if ok then "" else cellDigest body);
     de_NoBounceProof := None |}.

Definition credit_evidence : BounceCreditEvidence :=
  {| bc_InboundBounceMessageHash := cellDigest "message"; bc_TransactionHash := tx_hash;
     bc_TransactionBOCBase64 := base64_EncodeToString tx; bc_Block := block 103;
     bc_Finality := finality [sha 1; sha 3] 103; bc_NextSourceCursor := cursor (addr 1) 1002;
     bc_CreditedValueNanoTOS := 480 |}.

Definition committed : PredictionRelayRecord :=
  set_state signed 4 RelayDestinationCommitted 1 (Some source_evidence)
    (Some (message (addr 1) (addr 7) 500 false)) (Some (destination_evidence true)) None.

Definition credited : PredictionRelayRecord :=
  set_state signed 5 RelayBounceCreditedAtAgent 1 (Some source_evidence)
    (Some (message (addr 1) (addr 7) 500 false)) (Some (destination_evidence false))
    (Some credit_evidence).

End Samples.

Import Fixtures Samples.

Lemma relay_quorums_intersect_witness :
  exists observer, observer ∈ [sha 1; sha 2] /\ observer ∈ [sha 2; sha 3] /\
    observer ∈ [sha 1; sha 2; sha 3].
Proof.
  apply (relay_quorums_intersect Samples.profile (finality [sha 1; sha 2] 101) (finality [sha 2; sha 3] 102)
    101 102); vm_compute; reflexivity.
Defined.

Lemma relay_new_call_valid_witness :
  validateExpectedCall call Samples.profile action = Ok tt /\
  base64_DecodeString (ec_BodyBOCBase64 call) = Some body.
Proof.
  apply (relay_new_call_valid Samples.profile "prediction.market.deposit" action 500 body call).
  - exact test_sha256_length.
  - vm_compute. reflexivity.
Defined.

Lemma relay_committed_evidence_witness :
  exists source outbound destination,
    rr_SourceEvidence committed = Some source /\ rr_DestinationEvidence committed = Some destination /\
    se_SubmittedExternalMessageHash source = rr_SubmittedExternalMessageHash committed /\
    se_OutboundMessages source = [outbound] /\ exact_call committed outbound /\
    majority_final committed (se_Finality source) (se_Block source) /\
    majority_final committed (de_Finality destination) (de_Block destination) /\
    de_InboundMessageHash destination = cm_MessageHash outbound /\
    de_MarketCodeHash destination = pr_MarketCodeHash Samples.profile /\
    de_MarketConfigHash destination = pr_MarketConfigHash Samples.profile /\
    de_SuccessPredicateDigest destination = ec_SuccessPredicateDigest (rr_Expected committed) /\
    de_success destination = true /\ de_BounceMessage destination = None.
Proof. apply relay_committed_evidence; vm_compute; reflexivity. Defined.

Lemma relay_credit_bounded_witness :
  exists destination bounce credit,
    rr_DestinationEvidence credited = Some destination /\ de_BounceMessage destination = Some bounce /\
    rr_BounceCreditEvidence credited = Some credit /\
    bc_InboundBounceMessageHash credit = cm_MessageHash bounce /\
    bc_CreditedValueNanoTOS credit = cm_ValueNanoTOS bounce /\
    bc_CreditedValueNanoTOS credit <= ec_ValueNanoTOS (rr_Expected credited) /\
    cm_SourceAddress bounce = pr_MarketAddress Samples.profile /\
    cm_DestinationAddress bounce = pr_SourceAgentAccount Samples.profile /\
    de_RichBounceOriginalBodyHash destination = ec_BodyHash (rr_Expected credited) /\
    majority_final credited (de_Finality destination) (de_Block destination) /\
    majority_final credited (bc_Finality credit) (bc_Block credit).
Proof. apply relay_credit_bounded; vm_compute; reflexivity. Defined.

End Evidence.
