(* ===== verification/Relay.v ===== *)
(** * The exact-message relay journal (src/pkg/prediction/relay.go)

    [PredictionRelayJournal] holds one record per authorized action, each in a
    file of its own, and moves it from the signed bytes through broadcast,
    source finality and destination finality. The two halves of a broadcast,
    which the source runs around an unlocked network call, are separate steps,
    so that other operations interleave with it. Paths are relative to the
    journal's directory. *)

From S2P Require Import Prelude GoLib FileStore Ledger Protocol Fixtures RelayEvidence.
#[local] Open Scope N_scope.

Module Relay.
Import Evidence.

Definition maximumRelayRecordBytes : N := 4194304.

Abbreviation disk := (gmap string (file_state PredictionRelayRecord)).

(** The journal: the record files and the leftover temporary files under its
    directory, the lock, and the fields in memory. *)
Record PredictionRelayJournal := {
  rj_disk : disk;
  rj_temps : gset string;
  rj_lock : bool;
  rj_profile : PredictionRelayProfile;
  rj_records : gmap string PredictionRelayRecord;
  rj_inFlight : gset string
}.

(** [hexID[:2]], [hexID[2:4]] *)
Definition shardPath (actionID : string) : string :=
  let hexID := TrimPrefix actionID "sha256:" in
  "actions/" +:+ String.substring 0 2 hexID +:+ "/" +:+ String.substring 2 2 hexID.

Definition recordPath (actionID : string) : string :=
  let hexID := TrimPrefix actionID "sha256:" in
  if negb (slen hexID =? 64) then "invalid"
  else shardPath actionID +:+ "/" +:+ hexID +:+ ".json".

(** [filepath.Ext]: the suffix from the last dot of the last path element. *)
Fixpoint ext_from (candidate s : string) : string :=
  match s with
  | EmptyString => candidate
  | String c rest =>
      if Ascii.eqb c "/"%char then ext_from "" rest
      else if Ascii.eqb c "."%char then ext_from s rest
      else ext_from candidate rest
  end.

Definition Ext (path : string) : string := ext_from "" path.

(** What the operating system does about one [persist]: the encoding and the
    write's system calls, the shard directory, and the name of the temporary
    file. *)
Record persist_env := {
  pe_io : io PredictionRelayRecord;
  pe_mkdir : result unit;
  pe_lstat : bool;
  pe_is_dir : bool;
  pe_symlink : bool;
  pe_perm : N;
  pe_pid : N;
  pe_nanos : N
}.

Definition env_good : persist_env :=
  {| pe_io := io_good; pe_mkdir := Ok tt; pe_lstat := true; pe_is_dir := true; pe_symlink := false;
     pe_perm := 448; pe_pid := 1; pe_nanos := 1 |}.

(** The temporary file [WriteFileAtomic] creates beside the record. *)
Definition tempPath (e : persist_env) (actionID : string) : string :=
  shardPath actionID +:+ "/.tmp-" +:+ FormatUint10 (pe_pid e) +:+ "-" +:+ FormatUint10 (pe_nanos e).

Definition set_file (d : disk) (path : string) (f : file_state PredictionRelayRecord) : disk :=
  match f with FileAbsent => delete path d | _ => <[path := f]> d end.

(** One entry of [filepath.WalkDir] below the actions directory: an error, a
    directory with the elements of its relative path, or a file with what
    reading it gives. *)
Inductive walk_entry :=
| WalkError (msg : string)
| WalkUnsafe                                (* no Info, or a symbolic link *)
| WalkDirectory (parts : list string) (perm : N)
| WalkFile (path : string) (perm size : N) (content : file_state PredictionRelayRecord).

(** What [Open] finds: the journal directory, the actions directory, and the
    walk over it. *)
Record open_env := {
  oe_dir : dir_env;
  oe_actions_mkdir : result unit;
  oe_actions_lstat : bool;
  oe_actions_is_dir : bool;
  oe_actions_symlink : bool;
  oe_actions_perm : N;
  oe_entries : list walk_entry
}.

Section operations.
Context `{ADDR : TosAddress} `{CELL : TvmCell} `{KIND : EffectKinds} `{SHA : Sha256}.
Implicit Types (j : PredictionRelayJournal) (record : PredictionRelayRecord).

(** ** Durable writes *)

(** The files after [persist], and its error. *)
Definition persist (e : persist_env) j record : (disk * gset string) * result unit :=
  if is_err (validateRelayRecord record (rj_profile j))
  then ((rj_disk j, rj_temps j), Err "refuse to persist invalid prediction relay record")
  else
    match io_marshal (pe_io e) record with
    | None => ((rj_disk j, rj_temps j), Err "prediction relay record exceeds its durable bound")
    | Some size =>
        if maximumRelayRecordBytes <? size
        then ((rj_disk j, rj_temps j), Err "prediction relay record exceeds its durable bound")
        else
          match pe_mkdir e with
          | Err m => ((rj_disk j, rj_temps j), Err m)
          | Ok _ =>
              if negb (pe_lstat e) || negb (pe_is_dir e) || pe_symlink e || negb (pe_perm e =? 448)
              then ((rj_disk j, rj_temps j), Err "prediction relay shard is unsafe")
              else
                let path := recordPath (rr_ActionID record) in
                let out := WriteFileAtomic (io_fails (pe_io e)) record
                             (default FileAbsent (rj_disk j !! path)) in
                ((set_file (rj_disk j) path (wo_file out),
                  if wo_temp_left out then {[tempPath e (rr_ActionID record)]} ∪ rj_temps j
                  else rj_temps j), wo_result out)
          end
    end.

Definition with_files j (files : disk * gset string) : PredictionRelayJournal :=
  {| rj_disk := files.1; rj_temps := files.2; rj_lock := rj_lock j; rj_profile := rj_profile j;
     rj_records := rj_records j; rj_inFlight := rj_inFlight j |}.

(** [if err := journal.persist(record); err != nil { return err };
    journal.records[actionID] = record] *)
Definition publish (e : persist_env) j (actionID : string) record
    : PredictionRelayJournal * result PredictionRelayRecord :=
  let '(files, r) := persist e j record in
  match r with
  | Err m => (with_files j files, Err m)
  | Ok _ =>
      ({| rj_disk := files.1; rj_temps := files.2; rj_lock := rj_lock j; rj_profile := rj_profile j;
          rj_records := <[actionID := record]> (rj_records j); rj_inFlight := rj_inFlight j |},
       Ok record)
  end.

(** ** Opening *)

Definition load_entry (profile : PredictionRelayProfile) (records : gmap string PredictionRelayRecord)
    (entry : walk_entry) : result (gmap string PredictionRelayRecord) :=
  match entry with
  | WalkError m => Err m
  | WalkUnsafe => Err "prediction relay journal contains an unsafe entry"
  | WalkDirectory parts perm =>
      if (2 <? llen parts) || negb (lowerHex (List.last parts ""%string) 2) || negb (perm =? 448)
      then Err "prediction relay shard is not owner-private"
      else Ok records
  | WalkFile path perm size content =>
      if negb (bool_decide (Ext path = ".json"%string)) || negb (perm =? 384)
         || (maximumRelayRecordBytes <? size)
      then Err "prediction relay journal contains an invalid record file"
      else
        match content with
        | FileAbsent | FileUnreadable => Err "read"
        | FileUndecodable => Err "prediction relay journal record is corrupt"
        | FileDoc record =>
            if is_err (validateRelayRecord record profile)
               || negb (bool_decide (path = recordPath (rr_ActionID record)))
            then Err "prediction relay journal record is corrupt"
            else if bool_decide (is_Some (records !! rr_ActionID record))
            then Err "duplicate prediction relay record"
            else
              let records' := <[rr_ActionID record := record]> records in
              if pr_MaximumOutstanding profile <? len32 records'
              then Err "prediction relay journal exceeds its configured bound"
              else Ok records'
        end
  end.

Fixpoint load_entries (profile : PredictionRelayProfile) (records : gmap string PredictionRelayRecord)
    (entries : list walk_entry) : result (gmap string PredictionRelayRecord) :=
  match entries with
  | [] => Ok records
  | entry :: rest =>
      let? records' := load_entry profile records entry in load_entries profile records' rest
  end.

Definition load (profile : PredictionRelayProfile) (env : open_env)
    : result (gmap string PredictionRelayRecord) :=
  match oe_actions_mkdir env with
  | Err m => Err m
  | Ok _ =>
      if negb (oe_actions_lstat env) || negb (oe_actions_is_dir env) || oe_actions_symlink env
         || negb (oe_actions_perm env =? 448)
      then Err "prediction relay actions directory is not owner-private"
      else load_entries profile ∅ (oe_entries env)
  end.

Definition OpenPredictionRelayJournal (env : open_env) (files : disk * gset string)
    (profile : PredictionRelayProfile) : result PredictionRelayJournal :=
  let d := oe_dir env in
  if negb (de_abs_clean d) || is_err (validateRelayProfile profile)
  then Err "prediction relay journal configuration is invalid"
  else
    match de_mkdir d with
    | Err m => Err m
    | Ok _ =>
        if negb (de_lstat d) || negb (de_is_dir d) || de_symlink d || negb (de_perm d =? 448)
        then Err "prediction relay journal directory must be owner-private"
        else
          match de_lock d with
          | Err m => Err m
          | Ok _ =>
              let? records := load profile env in
              Ok {| rj_disk := files.1; rj_temps := files.2; rj_lock := true; rj_profile := profile;
                    rj_records := records; rj_inFlight := ∅ |}
          end
    end.

Definition Close (release : result unit) j : PredictionRelayJournal * result unit :=
  if negb (rj_lock j) then (j, Ok tt)
  else ({| rj_disk := rj_disk j; rj_temps := rj_temps j; rj_lock := false; rj_profile := rj_profile j;
           rj_records := rj_records j; rj_inFlight := rj_inFlight j |}, release).

Definition Profile j : option PredictionRelayProfile :=
  if negb (rj_lock j) then None else Some (rj_profile j).

Definition Get j (actionID : string) : option PredictionRelayRecord := rj_records j !! actionID.

(** ** Preparing *)

Definition Prepare (e : persist_env) j (actionID exactSignedBOC : string) (expected : ExpectedContractCall)
    (sourceCursor : AccountCursor) (checkpoint : BlockIdentity)
    : PredictionRelayJournal * result PredictionRelayRecord :=
  if negb (canonicalDigest actionID "sha256:") || (slen exactSignedBOC =? 0)
  then (j, Err "prediction relay preparation is invalid")
  else if negb (rj_lock j) then (j, Err "prediction relay journal is closed")
  else
    match canonicalCellDigest exactSignedBOC (pr_MaximumSignedBOCBytes (rj_profile j)) with
    | Err _ => (j, Err "prediction relay preparation material is invalid")
    | Ok messageHash =>
        let exactDigest := sha256Digest exactSignedBOC in
        if is_err (validateExpectedCall expected (rj_profile j) actionID)
           || is_err (validateAccountCursor sourceCursor (pr_SourceAgentAccount (rj_profile j)))
           || is_err (validateCheckpoint checkpoint)
           || negb (bool_decide (bi_WorkchainID checkpoint = (-1)%Z))
           || negb (bi_SequenceNumber checkpoint =? bi_MasterchainSequence checkpoint)
        then (j, Err "prediction relay preparation material is invalid")
        else
          match rj_records j !! actionID with
          | Some prior =>
              if negb (bool_decide (rr_ExactSignedBOCDigest prior = exactDigest))
                 || negb (bool_decide (rr_ExactSignedBOCBase64 prior = base64_EncodeToString exactSignedBOC))
                 || negb (bool_decide (rr_Expected prior = expected))
                 || negb (bool_decide (rr_PreBroadcastSourceCursor prior = sourceCursor))
                 || negb (bool_decide (rr_PreBroadcastMasterchainCheckpoint prior = checkpoint))
              then (j, Err "prediction action ID conflicts with durable exact material")
              else (j, Ok prior)
          | None =>
              if pr_MaximumOutstanding (rj_profile j) <=? len32 (rj_records j)
              then (j, Err "prediction relay journal capacity is exhausted before signing")
              else
                publish e j actionID
                  {| rr_SchemaVersion := relaySchemaVersion; rr_Revision := 1; rr_ActionID := actionID;
                     rr_Profile := rj_profile j; rr_Expected := expected;
                     rr_ExactSignedBOCBase64 := base64_EncodeToString exactSignedBOC;
                     rr_ExactSignedBOCDigest := exactDigest;
                     rr_SubmittedExternalMessageHash := messageHash;
                     rr_PreBroadcastSourceCursor := sourceCursor;
                     rr_PreBroadcastMasterchainCheckpoint := checkpoint; rr_State := RelaySigned;
                     rr_BroadcastAttempts := 0; rr_SourceEvidence := None; rr_ActualOutbound := None;
                     rr_DestinationEvidence := None; rr_BounceCreditEvidence := None |}
          end
    end.

(** ** Broadcasting *)

(** The first half of [BeginOrResumeExactBroadcast], up to the network call:
    the record as persisted and the bytes that go to the broadcaster. *)
Definition BeginBroadcast (e : persist_env) j (actionID : string)
    : PredictionRelayJournal * result (PredictionRelayRecord * string) :=
  match rj_records j !! actionID with
  | None => (j, Err "exact prediction BOC is no longer broadcastable")
  | Some record =>
      if negb (rj_lock j)
         || (negb (bool_decide (rr_State record = RelaySigned))
             && negb (bool_decide (rr_State record = RelayBroadcasting)))
      then (j, Err "exact prediction BOC is no longer broadcastable")
      else if bool_decide (actionID ∈ rj_inFlight j) || (rr_BroadcastAttempts record =? MaxUint32)
      then (j, Err "exact prediction BOC already has an in-flight broadcast")
      else
        match base64_DecodeString (rr_ExactSignedBOCBase64 record) with
        | None => (j, Err "durable exact prediction BOC is unavailable")
        | Some raw =>
            let next := set_state record (u64 (rr_Revision record + 1)) RelayBroadcasting
                          (u32 (rr_BroadcastAttempts record + 1)) (rr_SourceEvidence record)
                          (rr_ActualOutbound record) (rr_DestinationEvidence record)
                          (rr_BounceCreditEvidence record) in
            let '(j', r) := publish e j actionID next in
            match r with
            | Err m => (j', Err m)
            | Ok _ =>
                ({| rj_disk := rj_disk j'; rj_temps := rj_temps j'; rj_lock := rj_lock j';
                    rj_profile := rj_profile j'; rj_records := rj_records j';
                    rj_inFlight := {[actionID]} ∪ rj_inFlight j' |}, Ok (next, raw))
            end
        end
  end.

(** The second half: [delete(journal.inFlight, actionID)]. *)
Definition EndBroadcast j (actionID : string) : PredictionRelayJournal :=
  {| rj_disk := rj_disk j; rj_temps := rj_temps j; rj_lock := rj_lock j; rj_profile := rj_profile j;
     rj_records := rj_records j; rj_inFlight := rj_inFlight j ∖ {[actionID]} |}.

(** The whole call when nothing interleaves: the journal, the bytes the
    broadcaster received, and the returned record and error. *)
Definition BeginOrResumeExactBroadcast (e : persist_env) j (actionID : string)
    (broadcaster : string -> result unit)
    : PredictionRelayJournal * list string * (option PredictionRelayRecord * result unit) :=
  let '(j', r) := BeginBroadcast e j actionID in
  match r with
  | Err m => (j', [], (None, Err m))
  | Ok (record, raw) => (EndBroadcast j' actionID, [raw], (Some record, broadcaster raw))
  end.

(** ** Resolving *)

Definition ResolveSource (e : persist_env) j (actionID : string) (evidence : SourceTransactionEvidence)
    (VerifyPredictionSource : PredictionRelayRecord -> SourceTransactionEvidence -> result unit)
    : PredictionRelayJournal * result PredictionRelayRecord :=
  match rj_records j !! actionID with
  | None => (j, Err "prediction source is not awaiting finality")
  | Some record =>
      if negb (rj_lock j) || negb (bool_decide (rr_State record = RelayBroadcasting))
         || bool_decide (actionID ∈ rj_inFlight j)
      then (j, Err "prediction source is not awaiting finality")
      else
        match validateSourceEvidence record evidence with
        | Err m => (j, Err m)
        | Ok _ =>
            match VerifyPredictionSource record evidence with
            | Err m => (j, Err ("verify prediction source proof: " +:+ m))
            | Ok _ =>
                let revision := u64 (rr_Revision record + 1) in
                publish e j actionID
                  match se_OutboundMessages evidence with
                  | [] =>
                      set_state record revision RelaySourceActionSkipped (rr_BroadcastAttempts record)
                        (Some evidence) (rr_ActualOutbound record) (rr_DestinationEvidence record)
                        (rr_BounceCreditEvidence record)
                  | outbound :: _ =>
                      set_state record revision RelaySourceFinalized (rr_BroadcastAttempts record)
                        (Some evidence) (Some outbound) (rr_DestinationEvidence record)
                        (rr_BounceCreditEvidence record)
                  end
            end
        end
  end.

Definition ResolveDestination (e : persist_env) j (actionID : string)
    (evidence : DestinationTransactionEvidence)
    (VerifyPredictionDestination : PredictionRelayRecord -> DestinationTransactionEvidence -> result unit)
    : PredictionRelayJournal * result PredictionRelayRecord :=
  match rj_records j !! actionID with
  | None => (j, Err "prediction destination is not awaiting finality")
  | Some record =>
      if negb (rj_lock j) || negb (bool_decide (rr_State record = RelaySourceFinalized))
         || negb (is_some_b (rr_ActualOutbound record))
      then (j, Err "prediction destination is not awaiting finality")
      else
        match validateDestinationEvidence record evidence with
        | Err m => (j, Err m)
        | Ok _ =>
            match VerifyPredictionDestination record evidence with
            | Err m => (j, Err ("verify prediction destination proof: " +:+ m))
            | Ok _ =>
                let success := de_Ordinary evidence && de_success evidence in
                let state :=
                  if success then RelayDestinationCommitted
                  else if is_some_b (de_BounceMessage evidence) then RelayDestinationFailedBounceCreated
                  else RelayDestinationFailedNoBounce in
                publish e j actionID
                  (set_state record (u64 (rr_Revision record + 1)) state (rr_BroadcastAttempts record)
                     (rr_SourceEvidence record) (rr_ActualOutbound record) (Some evidence)
                     (rr_BounceCreditEvidence record))
            end
        end
  end.

(** [None] is a nil dereference inside [validateBounceCreditEvidence]. *)
Definition ResolveBounceCredit (e : persist_env) j (actionID : string) (evidence : BounceCreditEvidence)
    (VerifyPredictionBounceCredit : PredictionRelayRecord -> BounceCreditEvidence -> result unit)
    : option (PredictionRelayJournal * result PredictionRelayRecord) :=
  match rj_records j !! actionID with
  | None => Some (j, Err "prediction bounce is not awaiting credit")
  | Some record =>
      if negb (rj_lock j) || negb (bool_decide (rr_State record = RelayDestinationFailedBounceCreated))
         || negb (is_some_b (rr_DestinationEvidence record))
         || negb (is_some_b (rr_DestinationEvidence record ≫= de_BounceMessage))
      then Some (j, Err "prediction bounce is not awaiting credit")
      else
        match validateBounceCreditEvidence record evidence with
        | None => None
        | Some (Err m) => Some (j, Err m)
        | Some (Ok _) =>
            match VerifyPredictionBounceCredit record evidence with
            | Err m => Some (j, Err ("verify prediction bounce credit proof: " +:+ m))
            | Ok _ =>
                Some (publish e j actionID
                  (set_state record (u64 (rr_Revision record + 1)) RelayBounceCreditedAtAgent
                     (rr_BroadcastAttempts record) (rr_SourceEvidence record) (rr_ActualOutbound record)
                     (rr_DestinationEvidence record) (Some evidence)))
            end
        end
  end.

(** ** Histories *)

(** The transitions of the state machine. *)
Inductive relay_edge : RelayState -> RelayState -> Prop :=
| edge_broadcast : relay_edge RelaySigned RelayBroadcasting
| edge_resend : relay_edge RelayBroadcasting RelayBroadcasting
| edge_source : relay_edge RelayBroadcasting RelaySourceFinalized
| edge_skipped : relay_edge RelayBroadcasting RelaySourceActionSkipped
| edge_committed : relay_edge RelaySourceFinalized RelayDestinationCommitted
| edge_bounced : relay_edge RelaySourceFinalized RelayDestinationFailedBounceCreated
| edge_lost : relay_edge RelaySourceFinalized RelayDestinationFailedNoBounce
| edge_credited : relay_edge RelayDestinationFailedBounceCreated RelayBounceCreditedAtAgent.

(** What [Prepare] fixes for the life of the action. *)
Definition relay_identity record :=
  (rr_SchemaVersion record, rr_ActionID record, rr_Profile record, rr_Expected record,
   (rr_ExactSignedBOCBase64 record, rr_ExactSignedBOCDigest record,
    rr_SubmittedExternalMessageHash record),
   (rr_PreBroadcastSourceCursor record, rr_PreBroadcastMasterchainCheckpoint record)).

Definition opt_le {A} (a b : option A) : Prop := forall x, a = Some x -> b = Some x.

#[local] Instance opt_le_preorder {A} : PreOrder (@opt_le A).
Proof. split; [intros a x Hx; exact Hx|]. intros a b c H1 H2 x Hx. exact (H2 x (H1 x Hx)). Qed.

(** A later version of a record: same identity, later revision, a state
    reached along the transitions, and no evidence withdrawn or replaced. *)
Definition relay_le (r r' : PredictionRelayRecord) : Prop :=
  relay_identity r = relay_identity r' /\ rr_Revision r <= rr_Revision r' /\
  rr_BroadcastAttempts r <= rr_BroadcastAttempts r' /\
  rtc relay_edge (rr_State r) (rr_State r') /\
  opt_le (rr_SourceEvidence r) (rr_SourceEvidence r') /\
  opt_le (rr_ActualOutbound r) (rr_ActualOutbound r') /\
  opt_le (rr_DestinationEvidence r) (rr_DestinationEvidence r') /\
  opt_le (rr_BounceCreditEvidence r) (rr_BounceCreditEvidence r').

#[global] Instance relay_le_preorder : PreOrder relay_le.
Proof.
  split.
  - intros r. unfold relay_le. split_and!; reflexivity || lia.
  - intros r1 r2 r3 (I1 & R1 & A1 & S1 & E1 & O1 & D1 & B1) (I2 & R2 & A2 & S2 & E2 & O2 & D2 & B2).
    unfold relay_le. split_and!; try lia; etrans; eauto.
Qed.

(** The Go types of the counters. *)
Definition record_typed record : Prop := is_u64 (rr_Revision record) /\ is_u32 (rr_BroadcastAttempts record).

Definition record_ok (profile : PredictionRelayProfile) (actionID : string) record : Prop :=
  rr_ActionID record = actionID /\ validateRelayRecord record profile = Ok tt /\ record_typed record.

(** Every record in memory and on disk is valid and where it belongs, and no
    file is behind the record in memory. *)
Record journal_ok j : Prop := {
  jo_profile : validateRelayProfile (rj_profile j) = Ok tt;
  jo_records : forall k r, rj_records j !! k = Some r -> record_ok (rj_profile j) k r;
  jo_disk : forall p d, rj_disk j !! p = Some (FileDoc d) ->
    p = recordPath (rr_ActionID d) /\ record_ok (rj_profile j) (rr_ActionID d) d;
  jo_durable : forall k r, rj_records j !! k = Some r ->
    exists d, rj_disk j !! recordPath k = Some (FileDoc d) /\ relay_le r d;
  jo_inFlight : forall k, k ∈ rj_inFlight j ->
    exists r, rj_records j !! k = Some r /\ rr_State r = RelayBroadcasting;
  jo_size : N.of_nat (size (rj_records j)) <= pr_MaximumOutstanding (rj_profile j)
}.

(** *** Paths *)

Lemma substring_prefix a b : String.substring 0 (String.length a) (a +:+ b) = a.
Proof.
  induction a as [|c a IH]; [rewrite append_nil; by destruct b|].
  rewrite append_cons. simpl. by rewrite IH.
Qed.

(** The action id a record's path was made from. *)
Definition pathID (path : string) : string := "sha256:" +:+ String.substring 14 64 path.

Lemma recordPath_canonical actionID :
  canonicalDigest actionID "sha256:" = true ->
  exists c1 c2 c3 c4 rest, String.length rest = 60%nat /\
    actionID = "sha256:" +:+ String c1 (String c2 (String c3 (String c4 rest))) /\
    recordPath actionID = "actions/" +:+ String c1 (String c2 ("/" +:+ String c3 (String c4 ("/" +:+
      String c1 (String c2 (String c3 (String c4 (rest +:+ ".json")))))))).
Proof.
  intros H. apply canonicalDigest_spec in H as (d & Hd & ->); [|reflexivity].
  assert (String.length (hex_EncodeToString d) = 64%nat) as Hl.
  { rewrite length_hex. unfold slen in Hd. lia. }
  unfold recordPath, shardPath. rewrite TrimPrefix_app. unfold slen. rewrite Hl. simpl N.of_nat.
  generalize dependent (hex_EncodeToString d). intros h Hl.
  destruct h as [|c1 [|c2 [|c3 [|c4 rest]]]]; try discriminate Hl.
  exists c1, c2, c3, c4, rest. injection Hl as Hl. split_and!; [done|done|].
  simpl. destruct rest; done.
Qed.

Lemma pathID_recordPath actionID :
  canonicalDigest actionID "sha256:" = true -> pathID (recordPath actionID) = actionID.
Proof.
  intros H. destruct (recordPath_canonical _ H) as (c1 & c2 & c3 & c4 & rest & Hl & -> & ->).
  unfold pathID. rewrite ?append_cons. simpl.
  rewrite <-Hl, substring_prefix. done.
Qed.

Lemma recordPath_inj a b :
  canonicalDigest a "sha256:" = true -> canonicalDigest b "sha256:" = true ->
  recordPath a = recordPath b -> a = b.
Proof. intros Ha Hb E. by rewrite <-(pathID_recordPath a Ha), E, pathID_recordPath. Qed.

Lemma ext_from_json c a : ext_from c (a +:+ ".json") = ".json"%string.
Proof.
  revert c. induction a as [|x a IH]; intros c; [done|]. rewrite append_cons. simpl.
  repeat case_match; auto.
Qed.

Lemma Ext_recordPath actionID :
  canonicalDigest actionID "sha256:" = true -> Ext (recordPath actionID) = ".json"%string.
Proof.
  intros H. unfold recordPath. rewrite (proj2 (N.eqb_eq _ _)).
  - simpl. unfold Ext. rewrite <-!append_assoc. apply ext_from_json.
  - apply canonicalDigest_spec in H as (d & Hd & ->); [|reflexivity].
    rewrite TrimPrefix_app. unfold slen in *. rewrite length_hex. lia.
Qed.

(** *** Durable writes *)

Lemma validateRelayRecord_id record profile :
  validateRelayRecord record profile = Ok tt -> canonicalDigest (rr_ActionID record) "sha256:" = true.
Proof. intros H. by apply validateRelayRecord_identity, validateIdentity_ok in H as (_ & ? & _). Qed.

Ltac persist_refused H :=
  injection H as <- <-; simpl; split_and!; [intros ???; by left|intros ???; by left|done].

(** A write leaves every other file alone; its own file is the old one or the
    new record, valid, and the latter on success. *)
Lemma persist_cases e j record files r :
  persist e j record = (files, r) ->
  (forall p d, files.1 !! p = Some (FileDoc d) ->
    rj_disk j !! p = Some (FileDoc d) \/
    (p = recordPath (rr_ActionID record) /\ d = record /\ validateRelayRecord record (rj_profile j) = Ok tt)) /\
  (forall p d, rj_disk j !! p = Some (FileDoc d) ->
    files.1 !! p = Some (FileDoc d) \/
    (p = recordPath (rr_ActionID record) /\ files.1 !! p = Some (FileDoc record) /\
     validateRelayRecord record (rj_profile j) = Ok tt)) /\
  (r = Ok tt -> validateRelayRecord record (rj_profile j) = Ok tt /\ files.2 = rj_temps j /\
    files.1 = <[recordPath (rr_ActionID record) := FileDoc record]> (rj_disk j)).
Proof.
  unfold persist. intros H.
  head_case H eqn Ev; [persist_refused H|]. apply is_err_false_ok in Ev.
  head_case H as [size|] eqn Em; [|persist_refused H].
  head_case H eqn Es; [persist_refused H|].
  head_case H as [u|m] eqn Ed; [|persist_refused H].
  head_case H eqn Eh; [persist_refused H|].
  set (path := recordPath (rr_ActionID record)) in *.
  destruct (WriteFileAtomic_atomic (io_fails (pe_io e)) record (default FileAbsent (rj_disk j !! path)))
    as [Hf Hok].
  injection H as <- <-. simpl. split_and!.
  - intros p d Hp. destruct (decide (p = path)) as [->|Hne].
    + destruct Hf as [Hf|Hf]; rewrite Hf in Hp.
      * left. clear Hf Hok. destruct (rj_disk j !! path) as [[| | |d']|] eqn:Ep; simpl in *;
          rewrite ?lookup_delete_eq, ?lookup_insert_eq in Hp; done.
      * right. simpl in Hp. rewrite lookup_insert_eq in Hp. by injection Hp as <-.
    + left. destruct (wo_file _); simpl in Hp;
        rewrite ?lookup_delete_ne, ?lookup_insert_ne in Hp by done; done.
  - intros p d Hp. destruct (decide (p = path)) as [->|Hne].
    + destruct Hf as [Hf|Hf]; rewrite Hf.
      * left. rewrite Hp. simpl. by rewrite lookup_insert_eq.
      * right. simpl. by rewrite lookup_insert_eq.
    + left. destruct (wo_file _); simpl; rewrite ?lookup_delete_ne, ?lookup_insert_ne by done; done.
  - intros Hr. destruct (Hok Hr) as [Hfile Htemp]. rewrite Hfile, Htemp. done.
Qed.

(** What an operation on the journal guarantees. *)
Definition journal_step_ok j j' : Prop :=
  journal_ok j' /\ map_le relay_le (rj_records j) (rj_records j').

Lemma journal_step_same j : journal_ok j -> journal_step_ok j j.
Proof. intros H. split; [done|]. reflexivity. Qed.

Lemma size_insert_le {V} (m : gmap string V) k v :
  (size (<[k := v]> m) <= S (size m))%nat /\
  (is_Some (m !! k) -> size (<[k := v]> m) = size m).
Proof. rewrite map_size_insert. destruct (m !! k) eqn:E; simpl; (split; [lia|]); intros [??]; congruence || done. Qed.

(** Publishing a later, typed version of a record keeps the journal's
    invariant whether or not the write succeeds. *)
Lemma publish_ok e j id record j' r :
  journal_ok j -> publish e j id record = (j', r) -> rr_ActionID record = id -> record_typed record ->
  (forall r0, rj_records j !! id = Some r0 -> validateRelayRecord record (rj_profile j) = Ok tt ->
     relay_le r0 record) ->
  (id ∈ rj_inFlight j -> rr_State record = RelayBroadcasting) ->
  (rj_records j !! id = None ->
     N.of_nat (size (rj_records j)) < pr_MaximumOutstanding (rj_profile j)) ->
  journal_step_ok j j' /\ rj_inFlight j' = rj_inFlight j /\ rj_lock j' = rj_lock j /\
  rj_profile j' = rj_profile j /\
  match r with
  | Ok r' => r' = record /\ rj_records j' = <[id := record]> (rj_records j) /\
      rj_temps j' = rj_temps j /\ rj_disk j' = <[recordPath id := FileDoc record]> (rj_disk j)
  | Err _ => rj_records j' = rj_records j
  end.
Proof.
  intros [Jp Jr Jd Jdur Jf Js] H Hid Hty Hle Hfl Hsz. unfold publish in H.
  destruct (persist e j record) as [files rp] eqn:E.
  apply persist_cases in E as (Hback & Hfwd & Hok).
  assert (forall p d, files.1 !! p = Some (FileDoc d) ->
    p = recordPath (rr_ActionID d) /\ record_ok (rj_profile j) (rr_ActionID d) d) as Hdisk.
  { intros p d Hp. destruct (Hback p d Hp) as [Hold|(-> & -> & Hv)]; [by apply Jd|].
    split; [done|]. by split_and!. }
  assert (forall k r0, rj_records j !! k = Some r0 -> k <> id \/ rp <> Ok tt ->
    exists d, files.1 !! recordPath k = Some (FileDoc d) /\ relay_le r0 d) as Hdur.
  { intros k r0 Hk _. destruct (Jdur k r0 Hk) as (d & Hd & Hled).
    destruct (Hfwd _ _ Hd) as [Hd'|(Hpath & Hnew & Hv)]; [by exists d|].
    destruct (Jr k r0 Hk) as (<- & Hv0 & _).
    apply recordPath_inj in Hpath; [|by eapply validateRelayRecord_id..].
    exists record. split; [done|]. apply Hle; [|done]. by rewrite <-Hid, <-Hpath. }
  destruct rp as [[]|m]; injection H as <- <-; simpl.
  - destruct (Hok eq_refl) as (Hv & Ht & Hf). split; [|split_and!; auto; congruence].
    assert (map_le relay_le (rj_records j) (<[id := record]> (rj_records j))) as Hm
      by (apply (map_le_insert relay_le); auto).
    split; [|done]. split; simpl; [done| |done| | |].
    + intros k r0 Hk. apply lookup_insert_Some in Hk as [[<- <-]|[_ Hk]]; [|by apply Jr]. by split_and!.
    + intros k r0 Hk. apply lookup_insert_Some in Hk as [[<- <-]|[Hne Hk]].
      * exists record. rewrite Hf, <-Hid, lookup_insert_eq. split; reflexivity.
      * apply Hdur; auto.
    + intros k Hk. destruct (decide (k = id)) as [->|Hne].
      * exists record. rewrite lookup_insert_eq. auto.
      * destruct (Jf k Hk) as (r0 & Hr0 & Hs0). exists r0. by rewrite lookup_insert_ne.
    + destruct (size_insert_le (rj_records j) id record) as [Hs1 Hs2].
      destruct (rj_records j !! id) eqn:El; [rewrite Hs2 by eauto; done|specialize (Hsz eq_refl); lia].
  - split; [|split_and!; auto]. split; [|reflexivity]. split; simpl; auto.
Qed.

(** *** Each operation moves a record along the state machine *)

Lemma set_state_le record (profile : PredictionRelayProfile) next state attempts source outbound destination credit :
  next = set_state record (u64 (rr_Revision record + 1)) state attempts source outbound destination credit ->
  record_typed record -> validateRelayRecord next profile = Ok tt ->
  rtc relay_edge (rr_State record) state -> rr_BroadcastAttempts record <= attempts ->
  opt_le (rr_SourceEvidence record) source -> opt_le (rr_ActualOutbound record) outbound ->
  opt_le (rr_DestinationEvidence record) destination -> opt_le (rr_BounceCreditEvidence record) credit ->
  relay_le record next.
Proof.
  intros -> [Hrev _] Hv He Ha Hs Ho Hd Hc.
  apply validateRelayRecord_identity, validateIdentity_ok in Hv as (_ & _ & Hpos & _).
  simpl in Hpos. unfold relay_le. simpl. split_and!; auto.
  unfold is_u64, MaxUint64, u64 in *.
  destruct (decide (rr_Revision record = 18446744073709551615)) as [Hmax|Hmax].
  - rewrite Hmax in Hpos. vm_compute in Hpos. done.
  - rewrite N.mod_small; lia.
Qed.

Lemma no_future_evidence_None record :
  no_future_evidence record = true ->
  rr_SourceEvidence record = None /\ rr_ActualOutbound record = None /\
  rr_DestinationEvidence record = None /\ rr_BounceCreditEvidence record = None.
Proof.
  unfold no_future_evidence. intros H.
  destruct (rr_SourceEvidence record), (rr_ActualOutbound record), (rr_DestinationEvidence record),
    (rr_BounceCreditEvidence record); done.
Qed.

(** Before source finality there is no evidence. *)
Lemma unresolved_no_evidence record profile :
  validateRelayRecord record profile = Ok tt ->
  rr_State record = RelaySigned \/ rr_State record = RelayBroadcasting ->
  rr_SourceEvidence record = None /\ rr_ActualOutbound record = None /\
  rr_DestinationEvidence record = None /\ rr_BounceCreditEvidence record = None.
Proof.
  unfold validateRelayRecord. intros H Hs. head_case H as [u|] eqn E; [|done].
  destruct Hs as [Hs|Hs]; rewrite Hs in H; head_case H eqn E2; try done; bprop;
    by apply no_future_evidence_None.
Qed.

Lemma source_final_evidence record profile :
  validateRelayRecord record profile = Ok tt -> rr_State record = RelaySourceFinalized ->
  rr_DestinationEvidence record = None /\ rr_BounceCreditEvidence record = None.
Proof.
  unfold validateRelayRecord. intros H Hs. head_case H as [u|] eqn E; [|done]. rewrite Hs in H.
  unfold validateSourceFinal in H. rewrite Hs in H.
  head_case H as [source|] eqn E1; [|done]. head_case H as [outbound|] eqn E2; [|done].
  head_case H eqn E3; [done|]. rewrite bool_decide_true in H by done. head_case H eqn E4; [done|]. bprop.
  destruct (rr_DestinationEvidence record), (rr_BounceCreditEvidence record); done.
Qed.

Lemma bounce_created_evidence record profile :
  validateRelayRecord record profile = Ok tt -> rr_State record = RelayDestinationFailedBounceCreated ->
  is_Some (rr_SourceEvidence record) /\ rr_BounceCreditEvidence record = None.
Proof.
  unfold validateRelayRecord. intros H Hs. head_case H as [u|] eqn E; [|done]. rewrite Hs in H.
  pose proof H as H2.
  apply validateSourceFinal_ok in H as (source & outbound & Hse & _ & _ & _ & [Hbad|Hafter]); [congruence|].
  split; [by eexists|]. unfold validateAfterSource in Hafter. rewrite Hs in Hafter.
  head_case Hafter as [destination|] eqn Ed; [|done].
  head_case Hafter eqn E1; [done|]. head_case Hafter eqn E2; [done|].
  rewrite !bool_decide_false in Hafter by done. simpl in Hafter.
  head_case Hafter eqn E3; [done|]. by destruct (rr_BounceCreditEvidence record).
Qed.

(** *** The operations *)

Lemma len32_records j : journal_ok j -> len32 (rj_records j) = N.of_nat (size (rj_records j)).
Proof.
  intros [Jp _ _ _ _ Js]. apply validateRelayProfile_quorum in Jp as (_ & _ & Hm & _).
  apply (len32_exact _ 100000); [lia|]. unfold MaxUint32. lia.
Qed.

Ltac journal_refused H := injection H as <- <-; by apply journal_step_same.

Lemma Prepare_ok e j id boc expected cursor checkpoint j' r :
  journal_ok j -> Prepare e j id boc expected cursor checkpoint = (j', r) -> journal_step_ok j j'.
Proof.
  intros Hj H. unfold Prepare in H. head_case H eqn E1; [journal_refused H|].
  head_case H eqn E2; [journal_refused H|].
  head_case H as [messageHash|] eqn E3; [|journal_refused H].
  head_case H eqn E4; [journal_refused H|].
  head_case H as [prior|] eqn E5; [head_case H eqn E6; journal_refused H|].
  head_case H eqn E7; [journal_refused H|]. bprop. rewrite len32_records in E7 by done.
  eapply publish_ok in H as [H _]; [exact H|done|done| | | |].
  - unfold record_typed, is_u64, is_u32, MaxUint64, MaxUint32. simpl. lia.
  - intros r0 Hr0. congruence.
  - intros Hin. destruct (jo_inFlight j Hj id Hin) as (r0 & Hr0 & _). congruence.
  - done.
Qed.

(** [next_typed]: the counters stay at their widths. *)
Lemma set_state_typed record state attempts source outbound destination credit :
  is_u32 attempts ->
  record_typed (set_state record (u64 (rr_Revision record + 1)) state attempts source outbound destination credit).
Proof. intros H. split; [apply u64_range|done]. Qed.

Lemma BeginBroadcast_ok e j id j' r :
  journal_ok j -> BeginBroadcast e j id = (j', r) ->
  journal_step_ok j j' /\
  (forall record raw, r = Ok (record, raw) ->
     rj_records j' !! id = Some record /\ rj_disk j' !! recordPath id = Some (FileDoc record) /\
     rr_State record = RelayBroadcasting /\ base64_DecodeString (rr_ExactSignedBOCBase64 record) = Some raw).
Proof.
  intros Hj H. unfold BeginBroadcast in H.
  head_case H as [record|] eqn E1; [|injection H as <- <-; split; [by apply journal_step_same|done]].
  head_case H eqn E2; [injection H as <- <-; split; [by apply journal_step_same|done]|].
  head_case H eqn E3; [injection H as <- <-; split; [by apply journal_step_same|done]|].
  head_case H as [raw|] eqn E4; [|injection H as <- <-; split; [by apply journal_step_same|done]].
  destruct (jo_records j Hj id record E1) as (Hid & Hv & Hrev & Hatt). bprop.
  set (next := set_state record _ _ _ _ _ _ _) in H.
  assert (rr_BroadcastAttempts record + 1 <= MaxUint32) as Hmax by (unfold is_u32 in *; lia).
  destruct (publish e j id next) as [j1 r1] eqn:Ep.
  destruct (publish_ok e j id next j1 r1 Hj Ep) as ([Hj1 Hle1] & Hfl & Hlk & Hpr & Hr1).
  - done.
  - apply set_state_typed. rewrite u32_small by done. done.
  - intros r0 Hr0 Hvn. rewrite E1 in Hr0. injection Hr0 as <-.
    eapply (set_state_le record _ next); [reflexivity|done|exact Hvn| |rewrite u32_small by done; lia|done..].
    match goal with H : _ \/ _ |- _ => destruct H end; bprop;
      match goal with H : rr_State record = _ |- _ => rewrite H end; apply rtc_once; constructor.
  - done.
  - intros Hn. congruence.
  - destruct r1 as [r1|m]; injection H as <- <-; [|by split].
    destruct Hr1 as (-> & Hrec & _ & Hdisk). split.
    + split; [|done]. destruct Hj1 as [J1 J2 J3 J4 J5 J6]. split; simpl; try done.
      intros k Hk. apply elem_of_union in Hk as [Hk|Hk]; [|by apply J5].
      apply elem_of_singleton in Hk as ->. exists next. split; [|done]. rewrite Hrec. apply lookup_insert_eq.
    + intros record' raw' [= <- <-]. simpl. rewrite Hrec, Hdisk, !lookup_insert_eq. done.
Qed.

Lemma EndBroadcast_ok j id : journal_ok j -> journal_step_ok j (EndBroadcast j id).
Proof.
  intros [J1 J2 J3 J4 J5 J6]. split; [|reflexivity]. split; simpl; try done.
  intros k Hk. apply J5. set_solver.
Qed.

Lemma ResolveSource_ok e j id evidence verify j' r :
  journal_ok j -> ResolveSource e j id evidence verify = (j', r) -> journal_step_ok j j'.
Proof.
  intros Hj H. unfold ResolveSource in H. head_case H as [record|] eqn E1; [|journal_refused H].
  head_case H eqn E2; [journal_refused H|]. head_case H as [u|] eqn E3; [|journal_refused H].
  head_case H as [u'|] eqn E4; [|journal_refused H].
  destruct (jo_records j Hj id record E1) as (Hid & Hv & Hty). bprop.
  destruct (unresolved_no_evidence record _ Hv) as (Hs & Ho & Hd & Hc); [by right|].
  eapply publish_ok in H as [H _]; [exact H|done| | | | |].
  - by destruct (se_OutboundMessages evidence).
  - destruct (se_OutboundMessages evidence); apply set_state_typed, Hty.
  - intros r0 Hr0 Hvn. rewrite E1 in Hr0. injection Hr0 as <-.
    destruct (se_OutboundMessages evidence);
      (eapply set_state_le; [reflexivity|done|exact Hvn| |lia|..]);
      rewrite ?Hs, ?Ho; try done;
      match goal with H : rr_State record = _ |- _ => rewrite H end; apply rtc_once; constructor.
  - done.
  - intros Hn. congruence.
Qed.

Lemma ResolveDestination_ok e j id evidence verify j' r :
  journal_ok j -> ResolveDestination e j id evidence verify = (j', r) -> journal_step_ok j j'.
Proof.
  intros Hj H. unfold ResolveDestination in H. head_case H as [record|] eqn E1; [|journal_refused H].
  head_case H eqn E2; [journal_refused H|]. head_case H as [u|] eqn E3; [|journal_refused H].
  head_case H as [u'|] eqn E4; [|journal_refused H].
  destruct (jo_records j Hj id record E1) as (Hid & Hv & Hty). bprop.
  match goal with H : rr_State record = _ |- _ => rename H into Hst end.
  destruct (source_final_evidence record _ Hv Hst) as (Hd & Hc).
  eapply publish_ok in H as [H _]; [exact H|done|done|apply set_state_typed, Hty| | |].
  - intros r0 Hr0 Hvn. rewrite E1 in Hr0. injection Hr0 as <-.
    eapply set_state_le; [reflexivity|done|exact Hvn| |lia|..]; rewrite ?Hd; try done.
    rewrite Hst. apply rtc_once.
    destruct (_ && _); [apply edge_committed|].
    destruct (is_some_b (de_BounceMessage _)); [apply edge_bounced|apply edge_lost].
  - intros Hin. destruct (jo_inFlight j Hj id Hin) as (r0 & Hr0 & Hs0). congruence.
  - intros Hn. congruence.
Qed.

(** [ResolveBounceCredit] never dereferences nil, and keeps the journal. *)
Lemma ResolveBounceCredit_ok e j id evidence verify :
  journal_ok j ->
  exists j' r, ResolveBounceCredit e j id evidence verify = Some (j', r) /\ journal_step_ok j j'.
Proof.
  intros Hj. unfold ResolveBounceCredit.
  destruct (rj_records j !! id) as [record|] eqn:E1; [|eexists _, _; split; [done|by apply journal_step_same]].
  destruct (_ || _) eqn:E2; [eexists _, _; split; [done|by apply journal_step_same]|]. bprop.
  destruct (jo_records j Hj id record E1) as (Hid & Hv & Hty).
  match goal with H : rr_State record = _ |- _ => rename H into Hst end.
  destruct (bounce_created_evidence record _ Hv Hst) as ([source Hse] & Hc).
  destruct (validateBounceCreditEvidence record evidence) as [[u|m]|] eqn:E3.
  - destruct (verify record evidence) as [u'|m]; [|eexists _, _; split; [done|by apply journal_step_same]].
    destruct (publish e j id _) as [j' r] eqn:Ep. exists j', r. split; [done|].
    eapply publish_ok in Ep as [H' _]; [exact H'|done|done|apply set_state_typed, Hty| | |].
    + intros r0 Hr0 Hvn. rewrite E1 in Hr0. injection Hr0 as <-.
      eapply set_state_le; [reflexivity|done|exact Hvn| |lia|..]; rewrite ?Hc; try done.
      rewrite Hst. apply rtc_once. constructor.
    + intros Hin. destruct (jo_inFlight j Hj id Hin) as (r0 & Hr0 & Hs0). congruence.
    + intros Hn. congruence.
  - eexists _, _. split; [done|by apply journal_step_same].
  - exfalso. unfold validateBounceCreditEvidence in E3. rewrite Hse in E3.
    destruct (rr_DestinationEvidence record) as [destination|]; [|done]. simpl in *.
    by destruct (de_BounceMessage destination).
Qed.

Lemma Close_ok release j j' r : journal_ok j -> Close release j = (j', r) -> journal_step_ok j j'.
Proof.
  intros Hj H. unfold Close in H. head_case H eqn E; [journal_refused H|]. injection H as <- <-.
  destruct Hj as [J1 J2 J3 J4 J5 J6]. split; [by split|reflexivity].
Qed.

(** *** Restarting *)

Definition walk_file (entry : walk_entry) : option (string * file_state PredictionRelayRecord) :=
  match entry with WalkFile path _ _ content => Some (path, content) | _ => None end.

(** The walk visits exactly the files that are there, in some order. *)
Definition walk_sees (files : disk * gset string) (entries : list walk_entry) : Prop :=
  omap walk_file entries ≡ₚ map_to_list files.1 ++ ((fun p => (p, FileUndecodable)) <$> elements files.2).

Lemma load_entry_file profile records path perm size content records' :
  load_entry profile records (WalkFile path perm size content) = Ok records' ->
  exists record, content = FileDoc record /\ path = recordPath (rr_ActionID record) /\
    validateRelayRecord record profile = Ok tt /\ records !! rr_ActionID record = None /\
    records' = <[rr_ActionID record := record]> records /\
    len32 records' <= pr_MaximumOutstanding profile /\ Ext path = ".json"%string.
Proof.
  intros H. simpl in H. head_case H eqn E1; [done|]. destruct content as [| | |record]; try done.
  head_case H eqn E2; [done|]. head_case H eqn E3; [done|]. head_case H eqn E4; [done|].
  injection H as <-. bprop.
  match goal with H : is_err _ = false |- _ => apply is_err_false_ok in H end. exists record. split_and!; try done.
  by apply eq_None_not_Some.
Qed.

Lemma load_entry_other profile records entry records' :
  walk_file entry = None -> load_entry profile records entry = Ok records' -> records' = records.
Proof.
  intros Hw H. destruct entry as [m| |parts perm|path perm size content]; try done.
  simpl in H. head_case H eqn E; [done|]. by injection H as <-.
Qed.

(** Loading returns exactly the records of the files, each valid, in its
    place, and within the configured bound. *)
Lemma load_entries_ok profile entries records records' :
  validateRelayProfile profile = Ok tt -> N.of_nat (size records) <= pr_MaximumOutstanding profile ->
  load_entries profile records entries = Ok records' ->
  records ⊆ records' /\ N.of_nat (size records') <= pr_MaximumOutstanding profile /\
  (forall p c, (p, c) ∈ omap walk_file entries ->
     exists record, c = FileDoc record /\ p = recordPath (rr_ActionID record) /\
       records' !! rr_ActionID record = Some record) /\
  (forall k r, records' !! k = Some r -> records !! k = Some r \/
     (rr_ActionID r = k /\ validateRelayRecord r profile = Ok tt /\
      (recordPath k, FileDoc r) ∈ omap walk_file entries)).
Proof.
  intros Hp. revert records. induction entries as [|entry entries IH]; intros records Hsize H.
  { injection H as <-. split_and!; [done|done|intros p c Hin; by apply elem_of_nil in Hin|auto]. }
  simpl in H. head_case H as [records1|] eqn E; [|done]. simpl.
  destruct (walk_file entry) as [[p c]|] eqn:Ew.
  - destruct entry as [| | |path perm sz content]; try done. simpl in Ew. injection Ew as -> ->.
    apply load_entry_file in E as (record & -> & -> & Hv & Hnone & -> & Hlen & _).
    assert (N.of_nat (size (<[rr_ActionID record := record]> records)) <= pr_MaximumOutstanding profile) as Hs1.
    { apply validateRelayProfile_quorum in Hp as (_ & _ & Hmax & _).
      rewrite (len32_exact _ 100001) in Hlen; [done| |unfold MaxUint32; lia].
      destruct (size_insert_le records (rr_ActionID record) record). lia. }
    destruct (IH _ Hs1 H) as (Hsub & Hs' & Hfiles & Hrec). split_and!; [|done| |].
    + etrans; [by apply insert_subseteq|done].
    + intros p c Hin. apply elem_of_cons in Hin as [[= -> ->]|Hin]; [|by apply Hfiles].
      exists record. split_and!; [done..|]. eapply lookup_weaken; [|exact Hsub]. apply lookup_insert_eq.
    + intros k r Hk. destruct (Hrec k r Hk) as [Hold|(? & ? & Hin)].
      * apply lookup_insert_Some in Hold as [[<- <-]|[_ Hold]]; [|by left].
        right. split_and!; [done..|]. apply elem_of_cons. by left.
      * right. split_and!; [done..|]. apply elem_of_cons. by right.
  - apply load_entry_other in E as ->; [|done]. by apply IH.
Qed.

Lemma Open_records env files profile j :
  OpenPredictionRelayJournal env files profile = Ok j ->
  validateRelayProfile profile = Ok tt /\ load_entries profile ∅ (oe_entries env) = Ok (rj_records j) /\
  j = {| rj_disk := files.1; rj_temps := files.2; rj_lock := true; rj_profile := profile;
         rj_records := rj_records j; rj_inFlight := ∅ |}.
Proof.
  unfold OpenPredictionRelayJournal. intros H. head_case H eqn E1; [done|].
  head_case H as [u|] eqn E2; [|done]. head_case H eqn E3; [done|]. head_case H as [u'|] eqn E4; [|done].
  head_case H as [records|] eqn E5; [|done]. injection H as <-. unfold load in E5.
  head_case E5 as [u''|] eqn E6; [|done]. head_case E5 eqn E7; [done|]. bprop.
  split_and!; [by apply is_err_false_ok|done|done].
Qed.

(** A restart resumes from records at least as far as those in memory. *)
Lemma relay_Open_ok env profile j j' :
  journal_ok j -> walk_sees (rj_disk j, rj_temps j) (oe_entries env) ->
  OpenPredictionRelayJournal env (rj_disk j, rj_temps j) profile = Ok j' -> journal_step_ok j j'.
Proof.
  intros Hj Hw H. apply Open_records in H as (Hp & Hl & Hj').
  apply load_entries_ok in Hl as (_ & Hsize & Hfiles & Hrec); [|done|rewrite map_size_empty; lia].
  assert (forall p d, rj_disk j !! p = Some (FileDoc d) ->
    p = recordPath (rr_ActionID d) /\ rj_records j' !! rr_ActionID d = Some d) as Hload.
  { intros p d Hd. destruct (Hfiles p (FileDoc d)) as (record & [= <-] & Hpath & Hin); [|done].
    rewrite Hw. simpl. apply elem_of_app. left. by apply elem_of_map_to_list. }
  assert (forall k r, rj_records j' !! k = Some r ->
    rj_disk j !! recordPath k = Some (FileDoc r) /\ record_ok profile k r) as Hback.
  { intros k r Hk. destruct (Hrec k r Hk) as [Hbad|(Hid & Hv & Hin)]; [by rewrite lookup_empty in Hbad|].
    rewrite Hw in Hin. simpl in Hin. apply elem_of_app in Hin as [Hin|Hin].
    - apply elem_of_map_to_list in Hin. split; [done|].
      destruct (jo_disk j Hj _ _ Hin) as (_ & _ & _ & Hty). by split_and!.
    - apply list_elem_of_fmap in Hin as (q & Hq & _). done. }
  split.
  - rewrite Hj'. split; simpl.
    + done.
    + intros k r Hk. by apply Hback.
    + intros p d Hd. destruct (Hload p d Hd) as [Hpath Hin]. split; [done|]. by apply Hback.
    + intros k r Hk. exists r. split; [by apply Hback|reflexivity].
    + intros k Hk. set_solver.
    + done.
  - intros k r Hk. destruct (jo_durable j Hj k r Hk) as (d & Hd & Hle).
    destruct (Hload _ _ Hd) as [Hpath Hin]. exists d. split; [|done].
    destruct (jo_records j Hj k r Hk) as (Hid & _ & _). destruct Hle as (Hident & _).
    unfold relay_identity in Hident. simplify_eq. congruence.
Qed.

(** ** Runs

    A step is one call, or one half of a broadcast, under an environment that
    satisfies [P]; its label is what reached the broadcaster. *)
Inductive relay_step (P : persist_env -> Prop) j : option (string * string) -> PredictionRelayJournal -> Prop :=
| step_prepare e id boc expected cursor checkpoint j' r :
    P e -> Prepare e j id boc expected cursor checkpoint = (j', r) -> relay_step P j None j'
| step_begin e id j' record raw :
    P e -> BeginBroadcast e j id = (j', Ok (record, raw)) -> relay_step P j (Some (id, raw)) j'
| step_begin_error e id j' m :
    P e -> BeginBroadcast e j id = (j', Err m) -> relay_step P j None j'
| step_end id : id ∈ rj_inFlight j -> relay_step P j None (EndBroadcast j id)
| step_source e id evidence verify j' r :
    P e -> ResolveSource e j id evidence verify = (j', r) -> relay_step P j None j'
| step_destination e id evidence verify j' r :
    P e -> ResolveDestination e j id evidence verify = (j', r) -> relay_step P j None j'
| step_credit e id evidence verify j' r :
    P e -> ResolveBounceCredit e j id evidence verify = Some (j', r) -> relay_step P j None j'
| step_close release j' r : Close release j = (j', r) -> relay_step P j None j'
| step_restart env profile j' :
    walk_sees (rj_disk j, rj_temps j) (oe_entries env) ->
    OpenPredictionRelayJournal env (rj_disk j, rj_temps j) profile = Ok j' -> relay_step P j None j'.

Inductive relay_run (P : persist_env -> Prop) : PredictionRelayJournal -> list (string * string) ->
    PredictionRelayJournal -> Prop :=
| run_done j : relay_run P j [] j
| run_step j label j1 trace j2 :
    relay_step P j label j1 -> relay_run P j1 trace j2 ->
    relay_run P j (option_list label ++ trace) j2.

Lemma relay_run_app P j trace1 j1 trace2 j2 :
  relay_run P j trace1 j1 -> relay_run P j1 trace2 j2 -> relay_run P j (trace1 ++ trace2) j2.
Proof.
  induction 1 as [|j label j' trace j1 Hs _ IH]; intros Hr; [done|].
  rewrite <-app_assoc. eapply run_step; [exact Hs|by apply IH].
Qed.

Definition any_env (e : persist_env) : Prop := True.

Lemma relay_step_ok P j label j' : journal_ok j -> relay_step P j label j' -> journal_step_ok j j'.
Proof.
  intros Hj Hs. destruct Hs as [e id boc expected cursor checkpoint j' r _ H|e id j' record raw _ H|
    e id j' m _ H|id _|e id evidence verify j' r _ H|e id evidence verify j' r _ H|
    e id evidence verify j' r _ H|release j' r H|env profile j' Hw H].
  - by eapply Prepare_ok.
  - by eapply BeginBroadcast_ok in H as [? _].
  - by eapply BeginBroadcast_ok in H as [? _].
  - by apply EndBroadcast_ok.
  - by eapply ResolveSource_ok.
  - by eapply ResolveDestination_ok.
  - destruct (ResolveBounceCredit_ok e j id evidence verify Hj) as (j1 & r1 & H1 & Hok).
    rewrite H in H1. by injection H1 as -> ->.
  - by eapply Close_ok.
  - by eapply relay_Open_ok.
Qed.

Lemma relay_run_ok P j trace j' : relay_run P j trace j' -> journal_ok j -> journal_step_ok j j'.
Proof.
  induction 1 as [j|j label j1 trace j2 Hs Hr IH]; intros Hj; [by apply journal_step_same|].
  destruct (relay_step_ok _ _ _ _ Hj Hs) as [Hj1 Hle1]. destruct (IH Hj1) as [Hj2 Hle2].
  split; [done|]. by trans (rj_records j1).
Qed.

(** C6: the journal is a crash-safe, forward-only state machine. Along every
    run, with interleaved broadcasts, failing disk writes, closings and
    restarts, every record in memory and on disk passes the full validation,
    no file is behind memory, the configured bound holds, and every action
    keeps its record: the identity and the exact signed bytes never change,
    the state moves only along the eight legal transitions, the revision and
    attempt counters never go back, and no evidence is withdrawn or
    replaced. *)
Theorem relay_history j trace j' :
  journal_ok j -> relay_run any_env j trace j' ->
  journal_ok j' /\ map_le relay_le (rj_records j) (rj_records j').
Proof. intros Hj Hr. by apply (relay_run_ok any_env j trace). Qed.

(** *** Broadcasts *)

Definition early (s : RelayState) : bool :=
  match s with RelaySigned | RelayBroadcasting => true | _ => false end.

Lemma late_rtc s s' : rtc relay_edge s s' -> early s = false -> early s' = false.
Proof. induction 1 as [s|s1 s2 s3 He _ IH]; [done|]. intros Hs. apply IH. by destruct He. Qed.

Lemma step_label P j id raw j' :
  journal_ok j -> relay_step P j (Some (id, raw)) j' ->
  (exists r, rj_records j !! id = Some r /\ early (rr_State r) = true) /\ ~ (id ∈ rj_inFlight j) /\
  exists r', rj_records j' !! id = Some r' /\ rj_disk j' !! recordPath id = Some (FileDoc r') /\
    rr_State r' = RelayBroadcasting /\ base64_DecodeString (rr_ExactSignedBOCBase64 r') = Some raw.
Proof.
  intros Hj Hs. inversion Hs as [|e id' j1 record raw' _ H| | | | | | |]; subst.
  pose proof H as Hb. apply BeginBroadcast_ok in Hb as [_ Hrec]; [|done].
  destruct (Hrec _ _ eq_refl) as (Hr' & Hd & Hst & Hraw).
  unfold BeginBroadcast in H. head_case H as [r|] eqn E1; [|done]. head_case H eqn E2; [done|].
  head_case H eqn E3; [done|]. bprop. split_and!; [|done|by exists record].
  exists r. split; [done|]. match goal with H : _ \/ _ |- _ => destruct H end; bprop;
    match goal with H : rr_State r = _ |- _ => by rewrite H end.
Qed.

Lemma relay_le_bytes r r' : relay_le r r' -> rr_ExactSignedBOCBase64 r = rr_ExactSignedBOCBase64 r'.
Proof. intros (Hident & _). unfold relay_identity in Hident. congruence. Qed.

(** Nothing returns to the signed state. *)
Lemma broadcast_not_signed s s' : rtc relay_edge s s' -> s <> RelaySigned -> s' <> RelaySigned.
Proof. induction 1 as [s|s1 s2 s3 He _ IH]; [done|]. intros Hs. apply IH. by destruct He. Qed.

(** The record at the end of a run that broadcast it holds the bytes sent. *)
Lemma relay_run_bytes P j trace j' id raw :
  relay_run P j trace j' -> journal_ok j -> (id, raw) ∈ trace ->
  exists r', rj_records j' !! id = Some r' /\
    base64_DecodeString (rr_ExactSignedBOCBase64 r') = Some raw /\ rr_State r' <> RelaySigned.
Proof.
  induction 1 as [j|j label j1 trace j2 Hs Hr IH]; intros Hj Hin; [by apply elem_of_nil in Hin|].
  destruct (relay_step_ok _ _ _ _ Hj Hs) as [Hj1 _].
  apply elem_of_app in Hin as [Hin|Hin]; [|by apply IH].
  destruct label as [[id' raw']|]; [|by apply elem_of_nil in Hin].
  apply list_elem_of_singleton in Hin as [= -> ->].
  destruct (step_label _ _ _ _ _ Hj Hs) as (_ & _ & r1 & Hr1 & _ & Hst & Hraw).
  destruct (relay_run_ok _ _ _ _ Hr Hj1) as [_ Hle].
  destruct (Hle id' r1 Hr1) as (r2 & Hr2 & Hle2). exists r2.
  pose proof (relay_le_bytes _ _ Hle2) as Hb. destruct Hle2 as (_ & _ & _ & Hrtc & _).
  split_and!; [done|by rewrite <-Hb|]. eapply broadcast_not_signed; [exact Hrtc|]. by rewrite Hst.
Qed.

(** only the exact signed bytes are ever broadcast. Whatever else runs
    in between, every broadcast of an action in a run sends the bytes that
    decode from the action's record, the same bytes each time, and the record
    at the end of the run still holds them and shows that a broadcast was
    durably begun. *)
Theorem relay_broadcast_exact j trace j' id raw :
  journal_ok j -> relay_run any_env j trace j' -> (id, raw) ∈ trace ->
  (exists r', rj_records j' !! id = Some r' /\
     base64_DecodeString (rr_ExactSignedBOCBase64 r') = Some raw /\ rr_State r' <> RelaySigned) /\
  (forall r, rj_records j !! id = Some r ->
     base64_DecodeString (rr_ExactSignedBOCBase64 r) = Some raw) /\
  (forall raw2, (id, raw2) ∈ trace -> raw2 = raw).
Proof.
  intros Hj Hr Hin. destruct (relay_run_bytes _ _ _ _ _ _ Hr Hj Hin) as (r' & Hr' & Hraw & Hs).
  split_and!.
  - by exists r'.
  - intros r Hk. destruct (relay_run_ok _ _ _ _ Hr Hj) as [_ Hle].
    destruct (Hle id r Hk) as (r2 & Hr2 & Hle2). rewrite (relay_le_bytes _ _ Hle2). congruence.
  - intros raw2 Hin2. destruct (relay_run_bytes _ _ _ _ _ _ Hr Hj Hin2) as (r2 & Hr2 & Hraw2 & _).
    congruence.
Qed.

(** C15: source finality is a hard no-broadcast boundary. Once an action's
    record has left the signed and broadcasting states, no later step of any
    run, through restarts included, hands its bytes to the broadcaster. *)
Theorem relay_final_silence j trace j' id r raw :
  journal_ok j -> rj_records j !! id = Some r ->
  rr_State r <> RelaySigned -> rr_State r <> RelayBroadcasting ->
  relay_run any_env j trace j' -> ~ ((id, raw) ∈ trace).
Proof.
  intros Hj Hr Hs Hb Hrun. assert (early (rr_State r) = false) as He by (by destruct (rr_State r)).
  clear Hs Hb. revert r Hr He. induction Hrun as [j|j label j1 trace j2 Hs Hrun IH]; intros r Hr He Hin.
  { by apply elem_of_nil in Hin. }
  destruct (relay_step_ok _ _ _ _ Hj Hs) as [Hj1 Hle].
  apply elem_of_app in Hin as [Hin|Hin].
  - destruct label as [[id' raw']|]; [|by apply elem_of_nil in Hin].
    apply list_elem_of_singleton in Hin as [= -> ->].
    destruct (step_label _ _ _ _ _ Hj Hs) as ((r0 & Hr0 & He0) & _). congruence.
  - destruct (Hle id r Hr) as (r1 & Hr1 & _ & _ & _ & Hrtc & _).
    eapply IH; [done|exact Hr1| |exact Hin]. by eapply late_rtc.
Qed.

(** *** In-flight isolation *)

Lemma publish_other e j id record j' r k :
  publish e j id record = (j', r) -> k <> id ->
  rj_records j' !! k = rj_records j !! k /\ rj_inFlight j' = rj_inFlight j.
Proof.
  unfold publish. destruct (persist e j record) as [files rp]. intros H Hk.
  destruct rp; injection H as <- <-; simpl; [|done]. by rewrite lookup_insert_ne.
Qed.

(** nothing touches an action while its bytes are on the wire. During
    the unlocked network call no step can start a second broadcast of the
    action or change its record; it ends only with the call's return or the
    end of the process. *)
Theorem relay_inflight_isolated j label j' id :
  journal_ok j -> id ∈ rj_inFlight j -> relay_step any_env j label j' ->
  (rj_records j' !! id = rj_records j !! id /\ id ∈ rj_inFlight j' /\
   forall raw, label <> Some (id, raw)) \/
  (label = None /\ ~ (id ∈ rj_inFlight j')).
Proof.
  intros Hj Hid Hs. destruct (jo_inFlight j Hj id Hid) as (r0 & Hr0 & Hst0).
  destruct Hs as [e k boc expected cursor checkpoint j' r _ H|e k j' record raw _ H|
    e k j' m _ H|k _|e k evidence verify j' r _ H|e k evidence verify j' r _ H|
    e k evidence verify j' r _ H|release j' r H|env profile j' Hw H].
  - left. destruct (decide (k = id)) as [->|Hne].
    + unfold Prepare in H. rewrite Hr0 in H. repeat case_match; simplify_eq; done.
    + unfold Prepare in H. repeat case_match; simplify_eq; try done.
      apply (publish_other _ _ _ _ _ _ id) in H as [-> ->]; done.
  - left. unfold BeginBroadcast in H. head_case H as [rec|] eqn E1; [|done]. head_case H eqn E2; [done|].
    head_case H eqn E3; [done|]. head_case H as [bytes|] eqn E4; [|done]. bprop.
    assert (k <> id) as Hne by (intros ->; done).
    destruct (publish _ _ _ _) as [j1 r1] eqn:Ep. destruct r1; [|done]. injection H as <- <- <-. simpl.
    apply (publish_other _ _ _ _ _ _ id) in Ep as [-> ->]; [|done].
    split_and!; [done|set_solver|congruence].
  - left. unfold BeginBroadcast in H. head_case H as [rec|] eqn E1; [|by injection H as <- <-].
    repeat (head_case H eqn E; [by injection H as <- <-|]; clear E).
    head_case H as [bytes|] eqn E4; [|by injection H as <- <-].
    destruct (decide (k = id)) as [->|Hne].
    + destruct (publish _ _ _ _) as [j1 r1] eqn:Ep. destruct r1; [done|]. injection H as <- <-.
      unfold publish in Ep. destruct (persist _ _ _) as [files rp]. destruct rp; [done|].
      injection Ep as <- <-. done.
    + destruct (publish _ _ _ _) as [j1 r1] eqn:Ep. destruct r1; [done|]. injection H as <- <-.
      apply (publish_other _ _ _ _ _ _ id) in Ep as [-> ->]; done.
  - destruct (decide (k = id)) as [->|Hne]; simpl; [right|left]; set_solver.
  - left. unfold ResolveSource in H. destruct (decide (k = id)) as [->|Hne].
    + rewrite Hr0, (bool_decide_true (id ∈ _)), orb_true_r in H by done. by injection H as <- <-.
    + repeat case_match; simplify_eq; try done;
      apply (publish_other _ _ _ _ _ _ id) in H as [-> ->]; done.
  - left. unfold ResolveDestination in H. destruct (decide (k = id)) as [->|Hne].
    + rewrite Hr0, Hst0 in H. rewrite bool_decide_false, orb_true_r in H by done. by injection H as <- <-.
    + repeat case_match; simplify_eq; try done;
      apply (publish_other _ _ _ _ _ _ id) in H as [-> ->]; done.
  - left. unfold ResolveBounceCredit in H. destruct (decide (k = id)) as [->|Hne].
    + rewrite Hr0, Hst0 in H. rewrite bool_decide_false, orb_true_r in H by done. by injection H as <- <-.
    + repeat case_match; simplify_eq; try done;
      apply (publish_other _ _ _ _ _ _ id) in H as [-> ->]; done.
  - left. unfold Close in H. case_match; by injection H as <- <-.
  - right. apply Open_records in H as (_ & _ & ->). simpl. set_solver.
Qed.

(** *** What a reservation may do with the outcome *)

Lemma disposition_rtc r r' :
  rtc relay_edge (rr_State r) (rr_State r') ->
  (rd_ReleaseMarketExposure (ReservationDisposition r) = true ->
     rd_ReleaseMarketExposure (ReservationDisposition r') = true) /\
  (rd_ReleaseSourceLiquidity (ReservationDisposition r) = true \/
   rd_RealizeSourceLoss (ReservationDisposition r) = true -> rr_State r' = rr_State r).
Proof.
  unfold ReservationDisposition. generalize (rr_State r) (rr_State r'). clear r r'. intros s s' H.
  induction H as [s|s1 s2 s3 He _ IH]; [done|]. destruct IH as [IH1 IH2].
  destruct He; simpl in *; split; intros Hd; try done; try (destruct Hd; done); by apply IH1.
Qed.

(** what a resolved action does to its reservation is decided once.
    Along every run, an action that released its market exposure never takes
    it back; one that released its source liquidity, or realized the loss,
    stays in that final state forever; and no record ever asks for both. *)
Theorem relay_disposition_final j trace j' id r :
  journal_ok j -> relay_run any_env j trace j' -> rj_records j !! id = Some r ->
  exists r', rj_records j' !! id = Some r' /\
    (rd_ReleaseMarketExposure (ReservationDisposition r) = true ->
       rd_ReleaseMarketExposure (ReservationDisposition r') = true) /\
    (rd_ReleaseSourceLiquidity (ReservationDisposition r) = true \/
     rd_RealizeSourceLoss (ReservationDisposition r) = true ->
       ReservationDisposition r' = ReservationDisposition r) /\
    ~ (rd_ReleaseSourceLiquidity (ReservationDisposition r') = true /\
       rd_RealizeSourceLoss (ReservationDisposition r') = true).
Proof.
  intros Hj Hr Hk. destruct (relay_run_ok _ _ _ _ Hr Hj) as [_ Hle].
  destruct (Hle id r Hk) as (r' & Hr' & _ & _ & _ & Hrtc & _). exists r'.
  apply disposition_rtc in Hrtc as [H1 H2]. split_and!; [done|done| |].
  - intros H. unfold ReservationDisposition. by rewrite H2.
  - unfold ReservationDisposition. intros [? ?]. destruct (rr_State r'); done.
Qed.

(** *** Reopening *)

(** No system call of a write fails. *)
Definition quiet (e : persist_env) : Prop := forall s, io_fails (pe_io e) s = false.

(** The files are exactly the records in memory. *)
Definition synced j : Prop :=
  rj_temps j = ∅ /\
  (forall k r, rj_records j !! k = Some r -> rj_disk j !! recordPath k = Some (FileDoc r)) /\
  (forall p f, rj_disk j !! p = Some f ->
     exists k r, rj_records j !! k = Some r /\ p = recordPath k /\ f = FileDoc r).

Lemma persist_quiet e j record files r :
  quiet e -> persist e j record = (files, r) ->
  (is_err r = true /\ files = (rj_disk j, rj_temps j)) \/
  (r = Ok tt /\ validateRelayRecord record (rj_profile j) = Ok tt /\
   files = (<[recordPath (rr_ActionID record) := FileDoc record]> (rj_disk j), rj_temps j)).
Proof.
  intros Hq H. unfold persist in H. head_case H eqn E1; [injection H as <- <-; by left|].
  head_case H as [n|] eqn E2; [|injection H as <- <-; by left].
  head_case H eqn E3; [injection H as <- <-; by left|].
  head_case H as [u|] eqn E4; [|injection H as <- <-; by left].
  head_case H eqn E5; [injection H as <- <-; by left|].
  unfold WriteFileAtomic in H. rewrite !Hq in H. simpl in H. injection H as <- <-. right.
  split_and!; [done|by apply is_err_false_ok|done].
Qed.

Lemma publish_synced e j id record j' r :
  quiet e -> journal_ok j -> rr_ActionID record = id -> synced j -> publish e j id record = (j', r) -> synced j'.
Proof.
  intros Hq Hj Hid (Ht & Hmem & Hdisk) H. unfold publish in H.
  destruct (persist e j record) as [files rp] eqn:E.
  destruct (persist_quiet _ _ _ _ _ Hq E) as [[Hr ->]|(-> & Hv & ->)].
  - destruct rp; [done|]. injection H as <- <-. done.
  - injection H as <- <-. split_and!; simpl; [done| |].
    + intros k r Hk. apply lookup_insert_Some in Hk as [[<- <-]|[Hne Hk]].
      * by rewrite Hid, lookup_insert_eq.
      * rewrite lookup_insert_ne; [by apply Hmem|]. intros Hp.
        destruct (jo_records j Hj k r Hk) as (Hkid & Hkv & _).
        apply recordPath_inj in Hp; [congruence|by eapply validateRelayRecord_id|].
        rewrite <-Hkid. by eapply validateRelayRecord_id.
    + intros p f Hp. apply lookup_insert_Some in Hp as [[<- <-]|[Hne Hp]].
      * exists id, record. by rewrite lookup_insert_eq, Hid.
      * destruct (Hdisk p f Hp) as (k & r & Hk & -> & ->). exists k, r.
        rewrite lookup_insert_ne by (intros ->; by rewrite Hid in Hne). done.
Qed.

(** A journal directory in order: a walk over owner-private shards and record
    files. *)
Definition entry_in_order (entry : walk_entry) : Prop :=
  match entry with
  | WalkError _ | WalkUnsafe => False
  | WalkDirectory parts perm => llen parts <= 2 /\ lowerHex (List.last parts ""%string) 2 = true /\ perm = 448
  | WalkFile path perm size content => perm = 384 /\ size <= maximumRelayRecordBytes
  end.

Definition env_in_order (env : open_env) : Prop :=
  oe_dir env = dir_good /\ oe_actions_mkdir env = Ok tt /\ oe_actions_lstat env = true /\
  oe_actions_is_dir env = true /\ oe_actions_symlink env = false /\ oe_actions_perm env = 448 /\
  Forall entry_in_order (oe_entries env).

(** Loading a list of valid record files with distinct actions, within the
    bound, succeeds. *)
Lemma load_entries_total profile (target : gmap string PredictionRelayRecord) entries records :
  validateRelayProfile profile = Ok tt -> N.of_nat (size target) <= pr_MaximumOutstanding profile ->
  Forall entry_in_order entries -> records ⊆ target -> NoDup (omap walk_file entries) ->
  (forall p c, (p, c) ∈ omap walk_file entries -> exists k r, target !! k = Some r /\ records !! k = None /\
     rr_ActionID r = k /\ validateRelayRecord r profile = Ok tt /\ p = recordPath k /\ c = FileDoc r) ->
  exists records', load_entries profile records entries = Ok records' /\ records' ⊆ target.
Proof.
  intros Hp Hsize Ho. revert records. induction Ho as [|entry entries He Ho IH]; intros records Hsub Hnd Hf.
  { by exists records. }
  destruct entry as [m| |parts perm|path perm sz content]; [done|done| |].
  - destruct He as (H1 & H2 & ->). simpl. rewrite H2. destruct (N.ltb_spec 2 (llen parts)); [lia|]. simpl.
    by apply IH.
  - destruct He as [-> Hsz]. simpl in Hnd, Hf. apply NoDup_cons in Hnd as [Hnin Hnd].
    destruct (Hf path content) as (k & r & Hk & Hnone & Hid & Hv & -> & ->); [apply elem_of_cons; by left|].
    assert (<[k := r]> records ⊆ target) as Hsub' by (by apply insert_subseteq_l).
    assert (len32 (<[k := r]> records) <= pr_MaximumOutstanding profile) as Hlen.
    { apply validateRelayProfile_quorum in Hp as (_ & _ & Hmax & _).
      apply map_subseteq_size in Hsub'. rewrite (len32_exact _ 100000); unfold MaxUint32; lia. }
    assert (canonicalDigest k "sha256:" = true) as Hcan by (rewrite <-Hid; by eapply validateRelayRecord_id).
    simpl load_entries. rewrite (Ext_recordPath k Hcan), bool_decide_true by done. simpl.
    destruct (N.ltb_spec maximumRelayRecordBytes sz); [lia|].
    rewrite Hv, Hid, bool_decide_true by done. simpl. rewrite bool_decide_false by (by rewrite Hnone; intros [??]).
    destruct (N.ltb_spec (pr_MaximumOutstanding profile) (len32 (<[k := r]> records))); [lia|].
    apply IH; [done|done|]. intros p c Hin.
    destruct (Hf p c) as (k2 & r2 & Hk2 & Hn2 & Hid2 & Hv2 & -> & ->); [apply elem_of_cons; by right|].
    exists k2, r2. split_and!; try done. destruct (decide (k2 = k)) as [->|Hne]; [|by rewrite lookup_insert_ne].
    exfalso. assert (r2 = r) as -> by congruence. by apply Hnin.
Qed.

Lemma synced_reopen env j :
  journal_ok j -> synced j -> env_in_order env -> walk_sees (rj_disk j, rj_temps j) (oe_entries env) ->
  OpenPredictionRelayJournal env (rj_disk j, rj_temps j) (rj_profile j) =
    Ok {| rj_disk := rj_disk j; rj_temps := rj_temps j; rj_lock := true; rj_profile := rj_profile j;
          rj_records := rj_records j; rj_inFlight := ∅ |}.
Proof.
  intros Hj (Ht & Hmem & Hdisk) (Hd & Hm & Hl & Hi & Hsy & Hpm & Ho) Hw.
  rewrite Ht in *. unfold walk_sees in Hw. simpl in Hw. rewrite elements_empty, app_nil_r in Hw.
  assert (forall p c, (p, c) ∈ omap walk_file (oe_entries env) <-> rj_disk j !! p = Some c) as Hel.
  { intros p c. rewrite Hw. apply elem_of_map_to_list. }
  destruct (load_entries_total (rj_profile j) (rj_records j) (oe_entries env) ∅) as (records & Hload & Hsub).
  - apply Hj.
  - apply Hj.
  - done.
  - apply map_empty_subseteq.
  - rewrite Hw. apply NoDup_map_to_list.
  - intros p c Hin. apply Hel in Hin. destruct (Hdisk p c Hin) as (k & r & Hk & -> & ->).
    destruct (jo_records j Hj k r Hk) as (Hid & Hv & _). exists k, r. split_and!; try done.
  - assert (records = rj_records j) as ->.
    { apply load_entries_ok in Hload as (_ & _ & Hfiles & _); [|apply Hj|rewrite map_size_empty; lia].
      apply (anti_symm (⊆)); [done|]. apply map_subseteq_spec. intros k r Hk.
      destruct (Hfiles (recordPath k) (FileDoc r)) as (r' & [= <-] & _ & Hr'); [by apply Hel, Hmem|].
      destruct (jo_records j Hj k r Hk) as (<- & _ & _). done. }
    unfold OpenPredictionRelayJournal, load. rewrite Hd, Hm, Hl, Hi, Hsy, Hpm, (jo_profile j Hj), Hload. done.
Qed.

Ltac sync_publish Hq Hj Hsy :=
  match goal with H : publish _ _ _ _ = _ |- _ =>
    eapply publish_synced in H as Hp; [exact Hp|exact Hq|exact Hj| |exact Hsy] end;
  match goal with H : rj_records _ !! _ = Some _ |- _ =>
    destruct (jo_records _ Hj _ _ H) as (Hid & _); exact Hid end.

Lemma relay_step_synced j label j' :
  journal_ok j -> synced j -> relay_step quiet j label j' -> synced j'.
Proof.
  intros Hj Hsy Hs.
  destruct Hs as [e k boc expected cursor checkpoint j' r Hq H|e k j' record raw Hq H|
    e k j' m Hq H|k _|e k evidence verify j' r Hq H|e k evidence verify j' r Hq H|
    e k evidence verify j' r Hq H|release j' r H|env profile j' Hw H].
  - unfold Prepare in H. repeat case_match; simplify_eq; try done. by eapply publish_synced in H.
  - unfold BeginBroadcast in H. repeat case_match; simplify_eq. sync_publish Hq Hj Hsy.
  - unfold BeginBroadcast in H. repeat case_match; simplify_eq; try done. sync_publish Hq Hj Hsy.
  - done.
  - unfold ResolveSource in H. repeat case_match; simplify_eq; try done; sync_publish Hq Hj Hsy.
  - unfold ResolveDestination in H. repeat case_match; simplify_eq; try done; sync_publish Hq Hj Hsy.
  - unfold ResolveBounceCredit in H. repeat case_match; simplify_eq; try done; sync_publish Hq Hj Hsy.
  - unfold Close in H. case_match; simplify_eq; done.
  - pose proof (relay_Open_ok _ _ _ _ Hj Hw H) as [Hj' Hle].
    apply Open_records in H as (Hp & Hload & Hj''). destruct Hsy as (Ht & Hmem & Hdisk).
    apply load_entries_ok in Hload as (_ & _ & Hfiles & _); [|done|rewrite map_size_empty; lia].
    split_and!.
    + rewrite Hj''. done.
    + intros k r Hk. rewrite Hj'' in *. simpl in *. destruct (jo_durable _ Hj' k r Hk) as (d & Hd & Hled).
      simpl in Hd. destruct (jo_records _ Hj' k r Hk) as (Hid & _).
      destruct (Hfiles (recordPath k) (FileDoc d)) as (r' & [= <-] & _ & Hin).
      { rewrite Hw. simpl. apply elem_of_app. left. by apply elem_of_map_to_list. }
      destruct Hled as (Hident & _). unfold relay_identity in Hident.
      assert (rr_ActionID d = k) as Hdk by congruence. rewrite Hdk in Hin. congruence.
    + intros p f Hf. rewrite Hj'' in Hf. simpl in Hf. destruct (Hdisk p f Hf) as (k & r & Hk & -> & ->).
      destruct (Hfiles (recordPath k) (FileDoc r)) as (r' & [= <-] & _ & Hin).
      { rewrite Hw. simpl. apply elem_of_app. left. by apply elem_of_map_to_list. }
      destruct (jo_records j Hj k r Hk) as (Hid & _). rewrite Hid in Hin. eauto.
Qed.

(** nothing is lost at a restart. After any run in which no system call
    of a write failed, starting from a journal whose files are its records,
    opening the directory again, in whatever order the walk visits it,
    succeeds and gives back exactly the records in memory, with no broadcast
    in flight. *)
Theorem relay_reopen j trace j' env :
  journal_ok j -> synced j -> relay_run quiet j trace j' ->
  env_in_order env -> walk_sees (rj_disk j', rj_temps j') (oe_entries env) ->
  OpenPredictionRelayJournal env (rj_disk j', rj_temps j') (rj_profile j') =
    Ok {| rj_disk := rj_disk j'; rj_temps := rj_temps j'; rj_lock := true; rj_profile := rj_profile j';
          rj_records := rj_records j'; rj_inFlight := ∅ |}.
Proof.
  intros Hj Hsy Hr Ho Hw. assert (journal_ok j' /\ synced j') as [Hj' Hsy'].
  { clear Hw. induction Hr as [j|j label j1 trace j2 Hs Hr IH]; [done|].
    apply IH; [by eapply relay_step_ok|by eapply relay_step_synced]. }
  by apply synced_reopen.
Qed.

(** a leftover temporary file makes the journal unopenable. When the
    write of a valid record fails after its temporary file was created and
    the clean-up fails too, as when the process dies in between, the file
    stays in the shard and from then on no walk over the directory is
    accepted, under any profile, although every record in it is intact. *)
Theorem relay_leftover_blocks_open e j record n files r env profile :
  validateRelayRecord record (rj_profile j) = Ok tt ->
  io_marshal (pe_io e) record = Some n -> n <= maximumRelayRecordBytes ->
  pe_mkdir e = Ok tt -> pe_lstat e = true -> pe_is_dir e = true -> pe_symlink e = false -> pe_perm e = 448 ->
  io_fails (pe_io e) MkdirAll = false -> io_fails (pe_io e) CreateTemp = false ->
  io_fails (pe_io e) WriteTemp = true -> io_fails (pe_io e) RemoveTemp = true ->
  persist e j record = (files, r) ->
  walk_sees files (oe_entries env) ->
  is_err (OpenPredictionRelayJournal env files profile) = true.
Proof.
  intros Hv Hm Hn He1 He2 He3 He4 He5 Hf1 Hf2 Hf3 Hf4 H Hw.
  unfold persist in H. rewrite Hv, Hm, He1, He2, He3, He4, He5 in H. simpl in H.
  destruct (N.ltb_spec maximumRelayRecordBytes n); [lia|].
  unfold WriteFileAtomic, failed in H. rewrite Hf1, Hf2, Hf3, Hf4 in H. simpl in H. injection H as <- <-.
  destruct (OpenPredictionRelayJournal _ _ _) as [j'|] eqn:E; [exfalso|done].
  apply Open_records in E as (Hp & Hl & _).
  apply load_entries_ok in Hl as (_ & _ & Hfiles & _); [|done|rewrite map_size_empty; lia].
  destruct (Hfiles (tempPath e (rr_ActionID record)) FileUndecodable) as (r & Hr & _); [|done].
  rewrite Hw. simpl. apply elem_of_app. right. apply list_elem_of_fmap.
  exists (tempPath e (rr_ActionID record)). split; [done|]. apply elem_of_elements. set_solver.
Qed.

End operations.

(** ** Witnesses *)

Module Runs.
Import Fixtures Evidence.Samples.

(** A journal opened on an empty directory, then one action prepared, sent,
    and resolved up to the committed call. *)
Definition j0 : PredictionRelayJournal :=
  {| rj_disk := ∅; rj_temps := ∅; rj_lock := true; rj_profile := profile; rj_records := ∅;
     rj_inFlight := ∅ |}.

Definition accept {R E} (r : R) (e : E) : result unit := Ok tt.

Definition broadcasting : PredictionRelayRecord :=
  set_state signed 2 RelayBroadcasting 1 None None None None.

Definition source_final : PredictionRelayRecord :=
  set_state signed 3 RelaySourceFinalized 1 (Some source_evidence)
    (Some (message (addr 1) (addr 7) 500 false)) None None.

Definition j1 := Eval vm_compute in
  (Prepare env_good j0 action external_message call (cursor (addr 1) 1000) (block 100)).1.
Definition j2 := Eval vm_compute in (BeginBroadcast env_good j1 action).1.
Definition j3 := Eval vm_compute in (EndBroadcast j2 action).
Definition j4 := Eval vm_compute in (ResolveSource env_good j3 action source_evidence accept).1.
Definition j5 := Eval vm_compute in
  (ResolveDestination env_good j4 action (destination_evidence true) accept).1.

Lemma j0_ok : journal_ok j0.
Proof.
  split; [vm_compute; reflexivity|intros ?? H..| |]; simpl in *.
  - by rewrite lookup_empty in H.
  - by rewrite lookup_empty in H.
  - by rewrite lookup_empty in H.
  - intros k Hk. set_solver.
  - vm_compute. done.
Qed.

Lemma j0_synced : synced j0.
Proof. split_and!; [done|intros ?? H..]; simpl in H; by rewrite lookup_empty in H. Qed.

Lemma env_good_quiet : quiet env_good.
Proof. intros s. reflexivity. Qed.

Lemma run_j2 P : P env_good -> relay_run P j0 [(action, external_message)] j2.
Proof.
  intros HP. eapply (run_step P j0 None j1).
  - apply (step_prepare P j0 env_good action external_message call (cursor (addr 1) 1000) (block 100) j1
      (Ok signed)); [exact HP|]. vm_compute. reflexivity.
  - eapply (run_step P j1 (Some _) j2 []); [|constructor].
    apply (step_begin P j1 env_good action j2 broadcasting external_message); [exact HP|].
    vm_compute. reflexivity.
Qed.

Lemma run_j4 P : P env_good -> relay_run P j2 [] j4.
Proof.
  intros HP. eapply (run_step P j2 None j3).
  { assert (j3 = EndBroadcast j2 action) as -> by (vm_compute; reflexivity).
    apply step_end. apply (bool_decide_unpack _). vm_compute. exact I. }
  eapply (run_step P j3 None j4 []); [|constructor].
  apply (step_source P j3 env_good action source_evidence accept j4 (Ok source_final)); [exact HP|].
  vm_compute. reflexivity.
Qed.

Lemma run_j5 P : P env_good -> relay_run P j2 [] j5.
Proof.
  intros HP. apply (relay_run_app P j2 [] j4 [] j5 (run_j4 P HP)).
  eapply (run_step P j4 None j5 []); [|constructor].
  apply (step_destination P j4 env_good action (destination_evidence true) accept j5 (Ok committed));
    [exact HP|].
  vm_compute. reflexivity.
Qed.

Lemma j2_ok : journal_ok j2.
Proof. by apply (relay_run_ok any_env j0 _ j2 (run_j2 any_env I) j0_ok). Qed.

Lemma j5_ok : journal_ok j5.
Proof. by apply (relay_run_ok any_env j2 _ j5 (run_j5 any_env I) j2_ok). Qed.

(** A walk over the two shard directories and the record file. *)
Definition walk (files : disk) : open_env :=
  {| oe_dir := dir_good; oe_actions_mkdir := Ok tt; oe_actions_lstat := true; oe_actions_is_dir := true;
     oe_actions_symlink := false; oe_actions_perm := 448;
     oe_entries :=
       [WalkDirectory ["14"%string] 448; WalkDirectory ["14"%string; "14"%string] 448]
       ++ ((fun f => WalkFile f.1 384 100 f.2) <$> map_to_list files) |}.

Lemma walk_sees_files files : walk_sees (files, ∅) (oe_entries (walk files)).
Proof.
  unfold walk_sees. simpl. rewrite elements_empty, app_nil_r.
  induction (map_to_list files) as [|[p c] l IH]; simpl; [done|by rewrite IH].
Qed.

Lemma walk_in_order files : env_in_order (walk files).
Proof.
  unfold env_in_order. split_and!; try reflexivity. apply Forall_app. split.
  - apply Forall_cons. split; [|apply Forall_singleton];
      (split_and!; [vm_compute; discriminate|vm_compute; reflexivity|reflexivity]).
  - apply Forall_fmap, Forall_true. intros f. split; [reflexivity|vm_compute; discriminate].
Qed.

(** An environment whose write and clean-up fail after the temporary file was
    created. *)
Definition env_torn : persist_env :=
  {| pe_io := {| io_marshal := fun _ => Some 100;
                 io_fails := fun s => bool_decide (s = WriteTemp) || bool_decide (s = RemoveTemp) |};
     pe_mkdir := Ok tt; pe_lstat := true; pe_is_dir := true; pe_symlink := false; pe_perm := 448;
     pe_pid := 17; pe_nanos := 99 |}.

Definition torn_temp : string := tempPath env_torn action.

Definition walk_torn : open_env :=
  {| oe_dir := dir_good; oe_actions_mkdir := Ok tt; oe_actions_lstat := true; oe_actions_is_dir := true;
     oe_actions_symlink := false; oe_actions_perm := 448;
     oe_entries := [WalkFile torn_temp 384 0 FileUndecodable] |}.

End Runs.

Import Runs Fixtures Evidence.Samples.

Lemma relay_history_witness :
  journal_ok j2 /\ map_le relay_le (rj_records j0) (rj_records j2).
Proof. exact (relay_history j0 [(action, external_message)] j2 j0_ok (run_j2 any_env I)). Defined.

Lemma relay_broadcast_exact_witness :
  (exists r', rj_records j2 !! action = Some r' /\
     base64_DecodeString (rr_ExactSignedBOCBase64 r') = Some external_message /\
     rr_State r' <> RelaySigned) /\
  (forall r, rj_records j0 !! action = Some r ->
     base64_DecodeString (rr_ExactSignedBOCBase64 r) = Some external_message) /\
  (forall raw2, (action, raw2) ∈ [(action, external_message)] -> raw2 = external_message).
Proof.
  apply (relay_broadcast_exact j0 [(action, external_message)] j2 action external_message j0_ok
    (run_j2 any_env I)). apply list_elem_of_here.
Defined.

Lemma j5_committed : rj_records j5 !! action = Some committed.
Proof. vm_compute. reflexivity. Qed.

(** A second action, prepared and broadcast once the first is final, and a
    restart after which it is broadcast again. *)
Definition action2 : string := "sha256:" +:+ hex_EncodeToString (bytes 31 20 +:+ bytes 1 21).
Definition call2 : ExpectedContractCall :=
  match NewExpectedContractCall "prediction.market.deposit" action2 (addr 7) 500 body with Ok c => c | Err _ => call end.
Definition j6 := Eval vm_compute in
  (Prepare env_good j4 action2 external_message call2 (cursor (addr 1) 1001) (block 101)).1.
Definition j7 := Eval vm_compute in (BeginBroadcast env_good j6 action2).1.
Definition j8 := Eval vm_compute in
  match OpenPredictionRelayJournal (walk (rj_disk j7)) (rj_disk j7, rj_temps j7) profile with Ok j => j | Err _ => j0 end.
Definition j9 := Eval vm_compute in (BeginBroadcast env_good j8 action2).1.
Definition later_trace : list (string * string) := [(action2, external_message); (action2, external_message)].

Lemma j4_ok : journal_ok j4.
Proof. by apply (relay_run_ok any_env j2 _ j4 (run_j4 any_env I) j2_ok). Qed.

Lemma run_j9 P : P env_good -> relay_run P j4 later_trace j9.
Proof.
  intros HP. eapply (run_step P j4 None j4).
  { apply (step_begin_error P j4 env_good action j4 "exact prediction BOC is no longer broadcastable"); [exact HP|].
    vm_compute. reflexivity. }
  eapply (run_step P j4 None j6).
  { eapply (step_prepare P j4 env_good action2 external_message call2 (cursor (addr 1) 1001) (block 101) j6);
      [exact HP|]. vm_compute. reflexivity. }
  eapply (run_step P j6 (Some _) j7).
  { eapply (step_begin P j6 env_good action2 j7 _ external_message); [exact HP|]. vm_compute. reflexivity. }
  eapply (run_step P j7 None j8).
  { apply (step_restart P j7 (walk (rj_disk j7)) profile j8); [|vm_compute; reflexivity].
    exact (walk_sees_files (rj_disk j7)). }
  eapply (run_step P j8 (Some _) j9 []); [|constructor].
  eapply (step_begin P j8 env_good action2 j9 _ external_message); [exact HP|]. vm_compute. reflexivity.
Qed.

(** The first action's record is final at the source; a run then tries to
    broadcast it, prepares and broadcasts another action, restarts and
    broadcasts that one again: both broadcasts are of the other action, and the
    first is refused before and after the restart. *)
Lemma relay_final_silence_witness :
  rj_records j4 !! action = Some source_final /\ relay_run any_env j4 later_trace j9 /\
  ~ ((action, external_message) ∈ later_trace) /\
  (BeginBroadcast env_good j4 action).2 = Err "exact prediction BOC is no longer broadcastable" /\
  (BeginBroadcast env_good j9 action).2 = Err "exact prediction BOC is no longer broadcastable".
Proof.
  split; [vm_compute; reflexivity|]. split; [exact (run_j9 any_env I)|]. split.
  - apply (relay_final_silence j4 later_trace j9 action source_final external_message j4_ok).
    + vm_compute. reflexivity.
    + discriminate.
    + discriminate.
    + exact (run_j9 any_env I).
  - split; vm_compute; reflexivity.
Defined.

Lemma j2_inFlight : action ∈ rj_inFlight j2.
Proof. apply (bool_decide_unpack _). vm_compute. exact I. Qed.

Lemma relay_inflight_isolated_witness :
  (rj_records j2 !! action = rj_records j2 !! action /\ action ∈ rj_inFlight j2 /\
   forall raw : string, None <> Some (action, raw)) \/
  (@None (string * string) = None /\ ~ (action ∈ rj_inFlight j2)).
Proof.
  apply (relay_inflight_isolated j2 None j2 action j2_ok j2_inFlight).
  apply (step_begin_error any_env j2 env_good action j2
    "exact prediction BOC already has an in-flight broadcast"); [exact I|vm_compute; reflexivity].
Defined.

Lemma relay_disposition_final_witness :
  exists r', rj_records j5 !! action = Some r' /\
    (rd_ReleaseMarketExposure (ReservationDisposition committed) = true ->
       rd_ReleaseMarketExposure (ReservationDisposition r') = true) /\
    (rd_ReleaseSourceLiquidity (ReservationDisposition committed) = true \/
     rd_RealizeSourceLoss (ReservationDisposition committed) = true ->
       ReservationDisposition r' = ReservationDisposition committed) /\
    ~ (rd_ReleaseSourceLiquidity (ReservationDisposition r') = true /\
       rd_RealizeSourceLoss (ReservationDisposition r') = true).
Proof. apply (relay_disposition_final j5 [] j5 action committed j5_ok (run_done any_env j5) j5_committed). Defined.

Lemma relay_reopen_witness :
  OpenPredictionRelayJournal (walk (rj_disk j2)) (rj_disk j2, rj_temps j2) profile =
    Ok {| rj_disk := rj_disk j2; rj_temps := rj_temps j2; rj_lock := true; rj_profile := profile;
          rj_records := rj_records j2; rj_inFlight := ∅ |}.
Proof.
  apply (relay_reopen j0 [(action, external_message)] j2 (walk (rj_disk j2)) j0_ok j0_synced
    (run_j2 quiet env_good_quiet) (walk_in_order _)).
  apply (walk_sees_files (rj_disk j2)).
Defined.

Lemma relay_leftover_blocks_open_witness :
  is_err (OpenPredictionRelayJournal walk_torn (∅, {[torn_temp]} ∪ ∅) profile) = true.
Proof.
  apply (relay_leftover_blocks_open env_torn j0 signed 100 (∅, {[torn_temp]} ∪ ∅)
    (Err "failed to write temp file") walk_torn profile);
    try (vm_compute; reflexivity).
  vm_compute. discriminate.
Defined.

End Relay.
