(* ===== verification/Oracle.v ===== *)
(** * The oracle vote journal and the challenge watcher
    (src/pkg/prediction/oracle.go, archive.go, watcher.go)

    [OracleJournal] commits a reporter to at most one statement per round
    context and a watcher to at most one challenge, both backed by evidence
    with receipts of independent archive operators. *)

From S2P Require Import Prelude GoLib FileStore Ledger Protocol Fixtures.
#[local] Open Scope N_scope.

(** [predictionmarket.EvidenceEntryV1]. *)
Record EvidenceEntryV1 := {
  en_SourceKind : N;
  en_CanonicalSourceID : string;
  en_ContentDigest : Hash32;
  en_ArchiveLocator : string;
  en_PublicationTimeSeconds : N;
  en_EventTimeSeconds : N;
  en_ParserProfileVersion : string
}.

(** The manifests and the statement of the protocol package. *)
Record PredictionEvidenceManifestV1 := {
  mf_MarketID : Hash32;
  mf_RulesHash : Hash32;
  mf_RoundContextHash : Hash32;
  mf_Outcome : N;
  mf_Entries : list EvidenceEntryV1
}.

Record PredictionChallengeEvidenceManifestV1 := {
  cf_MarketID : Hash32;
  cf_RulesHash : Hash32;
  cf_ProposedStatementHash : Hash32;
  cf_CounterOutcome : N;
  cf_Entries : list EvidenceEntryV1
}.

Record PredictionResolutionStatementV1 := {
  st_GlobalID : Z;
  st_MarketAddress : string;
  st_MarketID : Hash32;
  st_RulesHash : Hash32;
  st_RoundPolicyHash : Hash32;
  st_RoundContextHash : Hash32;
  st_Round : N;
  st_Outcome : N;
  st_EvidenceRoot : Hash32;
  st_StatementCreatedAt : N;
  st_StatementExpiry : N
}.

(** What the journal reads of the decoded round contexts. *)
Record NormalContext := {
  nc_MarketID : Hash32;
  nc_RulesHash : Hash32;
  nc_ResolveNotBefore : N;
  nc_NormalRoundOpenedAt : N;
  nc_OracleVoteDeadline : N
}.

Record ReviewVoteContext := {
  vc_ReviewBaseContextHash : Hash32;
  vc_ReviewRoundOpenedAt : N
}.

Record ReviewBaseContext := {
  rb_MarketID : Hash32;
  rb_RulesHash : Hash32;
  rb_ReviewVoteNotBefore : N;
  rb_AppealDeadline : N
}.

(** The oracle's part of the protocol package; [cell_Hash32] is the cell's
    representation hash. *)
Class OracleProtocol `{PredictionProtocol} := {
  RoundNormal : N;
  RoundAppeal : N;
  OutcomeInvalid : N;
  SourceHTTPS : N;
  MaxEvidenceEntries : N;
  cell_Hash32 : cell -> Hash32;
  ValidateTradingPublicKey : string -> result unit;
  DecodePredictionNormalContextV1 : cell -> result NormalContext;
  DecodePredictionReviewVoteContextV1 : cell -> result ReviewVoteContext;
  DecodePredictionReviewBaseContextV1 : cell -> result ReviewBaseContext;
  BuildPredictionEvidenceManifestCell : PredictionEvidenceManifestV1 -> result cell;
  DecodePredictionEvidenceManifestV1 : cell -> result PredictionEvidenceManifestV1;
  BuildPredictionChallengeEvidenceManifestCell : PredictionChallengeEvidenceManifestV1 -> result cell;
  DecodePredictionChallengeEvidenceManifestV1 : cell -> result PredictionChallengeEvidenceManifestV1;
  BuildPredictionResolutionStatementCell : PredictionResolutionStatementV1 -> result cell;
  DecodePredictionResolutionStatementV1 : cell -> result PredictionResolutionStatementV1
}.

(** [crypto/ed25519]: a private key's public key, signing and verifying. *)
Class Ed25519 := {
  ed_Public : string -> string;
  ed_Sign : string -> string -> string;
  ed_Verify : string -> string -> string -> bool
}.

Module Oracle.

Record ArchiveAuthority := {
  au_OperatorID : string;
  au_PublicKey : string
}.

#[global] Instance ArchiveAuthority_eq_dec : EqDecision ArchiveAuthority.
Proof. solve_decision. Defined.

Record OracleProfile := {
  op_GlobalID : Z;
  op_MarketAddress : string;
  op_MarketID : string;
  op_RulesHash : string;
  op_RoundPolicyHash : string;
  op_ReporterAddress : string;
  op_Round : N;
  op_ClaimDeadline : N;
  op_AuditRetention : N;
  op_ArchiveAuthorities : list ArchiveAuthority
}.

#[global] Instance OracleProfile_eq_dec : EqDecision OracleProfile.
Proof. solve_decision. Defined.

Record ArchiveReceipt := {
  ar_OperatorID : string;
  ar_ContentDigest : Hash32;
  ar_ArchiveLocator : string;
  ar_StoredAt : N;
  ar_RetainUntil : N;
  ar_Signature : string
}.

Record ArchivedEvidence := {
  ae_Entry : EvidenceEntryV1;
  ae_Content : string;
  ae_Receipts : list ArchiveReceipt
}.

Record OracleVotePlan := {
  vp_Round : N;
  vp_Outcome : N;
  vp_RoundContextHash : string;
  vp_EvidenceRoot : string;
  vp_StatementHash : string;
  vp_EvidenceManifestBOC : string;
  vp_StatementBOC : string;
  vp_StatementCreatedAt : N;
  vp_StatementExpiry : N;
  vp_ArchiveReceiptDigests : list string
}.

Record oracleVoteRecord := {
  ov_Round : N;
  ov_Outcome : N;
  ov_RoundContextHash : string;
  ov_EvidenceRoot : string;
  ov_StatementHash : string;
  ov_EvidenceManifestBOC : string;
  ov_StatementBOC : string;
  ov_StatementCreatedAt : N;
  ov_StatementExpiry : N;
  ov_ArchiveReceiptDigests : list string
}.

Record oracleChallengeRecord := {
  oc_ProposedStatementHash : string;
  oc_ProposedOutcome : N;
  oc_CounterOutcome : N;
  oc_CounterEvidenceRoot : string;
  oc_EvidenceManifestBOC : string;
  oc_ChallengeDeadline : N;
  oc_FinalityViewID : string;
  oc_WatcherProfileDigest : string;
  oc_RequiredMessageValue : N;
  oc_ArchiveReceiptDigests : list string
}.

#[global] Instance oracleChallengeRecord_eq_dec : EqDecision oracleChallengeRecord.
Proof. solve_decision. Defined.

Record oracleDocument := {
  od_SchemaVersion : N;
  od_Revision : N;
  od_Profile : OracleProfile;
  od_Votes : gmap string oracleVoteRecord;
  od_Challenges : gmap string oracleChallengeRecord
}.

Definition OracleJournal : Type := ledger oracleDocument.

(** watcher.go *)
Definition proposedMarketStatus : N := 2.

Record ChallengeWatcherProfile := {
  cw_NetworkDomainHash : string;
  cw_MarketConfigHash : string;
  cw_ContractCodeHash : string;
  cw_ChallengeBond : N;
  cw_ChallengeProcessingFee : N;
  cw_OperationBudget : N;
  cw_MaximumSnapshotAge : N
}.

Record ProposedMarketObservation := {
  po_Status : N;
  po_NetworkDomainHash : string;
  po_MarketID : string;
  po_MarketAddress : string;
  po_RulesHash : string;
  po_MarketConfigHash : string;
  po_ContractCodeHash : string;
  po_ProposedStatementHash : string;
  po_ProposedOutcome : N;
  po_ChallengeDeadline : N;
  po_ObservedAt : N;
  po_FinalityViewID : string;
  po_QuorumFinalized : bool
}.

Record ChallengePlan := {
  cp_ProposedStatementHash : string;
  cp_ProposedOutcome : N;
  cp_CounterOutcome : N;
  cp_CounterEvidenceRoot : string;
  cp_EvidenceManifestBOC : string;
  cp_RequiredMessageValue : N;
  cp_ChallengeDeadline : N;
  cp_FinalityViewID : string;
  cp_ArchiveReceiptDigests : list string
}.

(** archive.go *)
Record EvidenceMetadataV1 := {
  em_PublicationTimeSeconds : N;
  em_EventTimeSeconds : N;
  em_ParserProfileVersion : string
}.

Record ArchiveObjectV1 := {
  ao_CanonicalSourceID : string;
  ao_ContentType : string;
  ao_ContentDigest : Hash32;
  ao_ArchiveLocator : string;
  ao_Content : string;
  ao_RetainUntil : N
}.

(** What [HTTPSOracleSource.Fetch] returns. *)
Record source_snapshot := {
  ss_CanonicalSourceID : string;
  ss_ContentType : string;
  ss_ContentDigest : Hash32;
  ss_Content : string
}.

Definition add64 (left right : N) : N * bool :=
  if sub64w MaxUint64 right <? left then (0, false) else (add64w left right, true).

(** [hash32]: the first 32 bytes, zero-padded. *)
Fixpoint hash32_from (n : nat) (value : string) : string :=
  match n with
  | O => EmptyString
  | S n =>
      match value with
      | EmptyString => String (of_byte 0) (hash32_from n EmptyString)
      | String c rest => String c (hash32_from n rest)
      end
  end.

Definition hash32 (value : string) : Hash32 := hash32_from 32 value.

Definition nul : string := String (of_byte 0) EmptyString.

Section operations.
Context `{ADDR : TosAddress} `{PROT : PredictionProtocol} `{ORACLE : !OracleProtocol}
  `{SHA : Sha256} `{ED : Ed25519}.
Implicit Types (l : OracleJournal) (profile : OracleProfile).

Definition canonicalCell (raw : string) (maximum : N) : result cell :=
  if (slen raw =? 0) || (maximum <? slen raw) then Err "canonical cell BOC exceeds its bound"
  else
    match FromBOC raw with
    | None => Err "cell BOC is not canonical"
    | Some root =>
        if negb (bool_decide (raw = ToBOC root)) then Err "cell BOC is not canonical" else Ok root
    end.

(** ** Archive receipts *)

Definition ArchiveOperatorID (publicKey : string) : result string :=
  if negb (slen publicKey =? 32) || is_err (ValidateTradingPublicKey publicKey)
  then Err "archive operator key is invalid"
  else Ok ("sha256:" +:+ hex_EncodeToString (sha256_Sum256 publicKey)).

Definition receipt_preimage (receipt : ArchiveReceipt) : string :=
  "TOS_OPENFOX_PREDICTION_ARCHIVE_RECEIPT_V1" +:+ nul +:+ ar_OperatorID receipt +:+ nul
  +:+ ar_ContentDigest receipt +:+ nul +:+ ar_ArchiveLocator receipt
  +:+ big_endian 8 (ar_StoredAt receipt) +:+ big_endian 8 (ar_RetainUntil receipt).

Definition archiveReceiptDigest (receipt : ArchiveReceipt) : result Hash32 :=
  if negb (canonicalDigest (ar_OperatorID receipt) "sha256:")
     || Hash32_IsZero (ar_ContentDigest receipt)
     || negb (bool_decide (ar_ArchiveLocator receipt =
                           "tos-cas-sha256:" +:+ hex_EncodeToString (ar_ContentDigest receipt)))
     || (ar_StoredAt receipt =? 0) || (ar_RetainUntil receipt <? ar_StoredAt receipt)
  then Err "invalid archive receipt fields"
  else Ok (sha256_Sum256 (receipt_preimage receipt)).

Definition unsigned_receipt (operator : string) (contentDigest : Hash32) (locator : string)
    (storedAt retainUntil : N) (signature : string) : ArchiveReceipt :=
  {| ar_OperatorID := operator; ar_ContentDigest := contentDigest; ar_ArchiveLocator := locator;
     ar_StoredAt := storedAt; ar_RetainUntil := retainUntil; ar_Signature := signature |}.

Definition SignArchiveReceipt (privateKey : string) (contentDigest : Hash32) (locator : string)
    (storedAt retainUntil : N) : result ArchiveReceipt :=
  if negb (slen privateKey =? 64) then Err "archive receipt key is invalid"
  else
    let? operator := ArchiveOperatorID (ed_Public privateKey) in
    let? digest := archiveReceiptDigest
      (unsigned_receipt operator contentDigest locator storedAt retainUntil "") in
    Ok (unsigned_receipt operator contentDigest locator storedAt retainUntil (ed_Sign privateKey digest)).

(** [signArchiveReceipt] through an [ArchiveReceiptSigner]: what its two calls
    answer. *)
Definition signArchiveReceipt (ArchiveReceiptPublicKey : result string)
    (SignArchiveReceiptDigest : Hash32 -> result string) (receipt : ArchiveReceipt)
    : result ArchiveReceipt :=
  let? publicKey := ArchiveReceiptPublicKey in
  match ArchiveOperatorID publicKey with
  | Err _ => Err "archive receipt signer identity is invalid"
  | Ok operator =>
      if negb (bool_decide (operator = ar_OperatorID receipt))
      then Err "archive receipt signer identity is invalid"
      else
        let? digest := archiveReceiptDigest receipt in
        let? signature := SignArchiveReceiptDigest digest in
        Ok (unsigned_receipt (ar_OperatorID receipt) (ar_ContentDigest receipt)
              (ar_ArchiveLocator receipt) (ar_StoredAt receipt) (ar_RetainUntil receipt) signature)
  end.

(** [Ed25519ArchiveReceiptSigner], the local adapter. *)
Definition ed_ArchiveReceiptPublicKey (privateKey : string) : result string :=
  if negb (slen privateKey =? 64) then Err "archive receipt key is invalid" else Ok (ed_Public privateKey).

Definition ed_SignArchiveReceiptDigest (privateKey : string) (digest : Hash32) : result string :=
  if negb (slen privateKey =? 64) then Err "archive receipt key is invalid"
  else Ok (ed_Sign privateKey digest).

Definition authority_map (authorities : list ArchiveAuthority) : gmap string string :=
  foldl (fun m a => <[au_OperatorID a := au_PublicKey a]> m) ∅ authorities.

Definition receiptID (digest : Hash32) (signature : string) : string :=
  "sha256:" +:+ hex_EncodeToString
    (sha256_Sum256 ("TOS_OPENFOX_PREDICTION_ARCHIVE_RECEIPT_ID_V1" +:+ nul +:+ digest +:+ signature)).

(** The inner loop of [verifyArchivedEvidence] over one snapshot's receipts:
    the operators seen and the receipt ids appended. *)
Fixpoint verify_receipts (authorities : gmap string string) (minimumRetention now : N)
    (entry : EvidenceEntryV1) (validOperators : gset string) (receiptDigests : list string)
    (receipts : list ArchiveReceipt) : result (gset string * list string) :=
  match receipts with
  | [] => Ok (validOperators, receiptDigests)
  | receipt :: rest =>
      if bool_decide (ar_OperatorID receipt ∈ validOperators)
      then Err "evidence repeats an archive operator receipt"
      else
        match authorities !! ar_OperatorID receipt, archiveReceiptDigest receipt with
        | Some key, Ok digest =>
            if negb (bool_decide (ar_ContentDigest receipt = en_ContentDigest entry))
               || negb (bool_decide (ar_ArchiveLocator receipt = en_ArchiveLocator entry))
               || (ar_StoredAt receipt <? en_PublicationTimeSeconds entry)
               || (now <? ar_StoredAt receipt) || (ar_RetainUntil receipt <? minimumRetention)
               || negb (ed_Verify key digest (ar_Signature receipt))
            then Err "oracle archive receipt is invalid or insufficiently retained"
            else
              verify_receipts authorities minimumRetention now entry
                ({[ar_OperatorID receipt]} ∪ validOperators)
                (receiptDigests ++ [receiptID digest (ar_Signature receipt)]) rest
        | _, _ => Err "oracle archive receipt is invalid or insufficiently retained"
        end
  end.

Fixpoint verify_snapshots (authorities : gmap string string) (minimumRetention now totalBytes : N)
    (entries : list EvidenceEntryV1) (receiptDigests : list string) (values : list ArchivedEvidence)
    : result (list EvidenceEntryV1 * list string) :=
  match values with
  | [] => Ok (entries, sort_Strings receiptDigests)
  | value :: rest =>
      let totalBytes := totalBytes + slen (ae_Content value) in
      if (slen (ae_Content value) =? 0) || (2097152 <? slen (ae_Content value))
         || (16777216 <? totalBytes)
         || negb (bool_decide (sha256_Sum256 (ae_Content value) = en_ContentDigest (ae_Entry value)))
      then Err "oracle evidence content does not match its bounded digest"
      else if N.of_nat (size authorities) <? llen (ae_Receipts value)
      then Err "evidence contains duplicate or excessive archive receipts"
      else
        let? out := verify_receipts authorities minimumRetention now (ae_Entry value) ∅
                      receiptDigests (ae_Receipts value) in
        if N.of_nat (size out.1) <? 2
        then Err "each evidence snapshot requires two independent archive operators"
        else
          verify_snapshots authorities minimumRetention now totalBytes (entries ++ [ae_Entry value])
            out.2 rest
  end.

Definition verifyArchivedEvidence (profile : OracleProfile) (values : list ArchivedEvidence) (now : N)
    : result (list EvidenceEntryV1 * list string) :=
  if MaxEvidenceEntries <? llen values then Err "oracle evidence entry capacity exceeded"
  else
    let '(minimumRetention, carry) := add64 (op_ClaimDeadline profile) (op_AuditRetention profile) in
    if negb carry then Err "oracle archive retention overflows"
    else
      verify_snapshots (authority_map (op_ArchiveAuthorities profile)) minimumRetention now 0 [] [] values.

(** ** The journal *)

Fixpoint validate_authorities (seen : gset string) (previous : string)
    (authorities : list ArchiveAuthority) : result unit :=
  match authorities with
  | [] => Ok tt
  | authority :: rest =>
      if negb (bool_decide (ArchiveOperatorID (au_PublicKey authority) = Ok (au_OperatorID authority)))
      then Err "archive authority id does not bind its key"
      else if bool_decide (au_OperatorID authority ∈ seen)
      then Err "archive authorities must be independent unique keys"
      else if negb (bool_decide (previous = ""%string)) && str_le (au_OperatorID authority) previous
      then Err "archive authorities must be canonically sorted"
      else validate_authorities ({[au_OperatorID authority]} ∪ seen) (au_OperatorID authority) rest
  end.

Definition valid_std_address (value : string) : bool :=
  match ParseRawAddr value with
  | None => false
  | Some parsed => ra_std parsed && bool_decide (ra_string parsed = value)
  end.

Definition valid_hash (value : string) : bool :=
  match ParseHash32 value with Err _ => false | Ok h => negb (Hash32_IsZero h) end.

Definition validateOracleProfile profile : result unit :=
  if negb (valid_std_address (op_MarketAddress profile))
     || negb (valid_std_address (op_ReporterAddress profile))
     || negb (valid_hash (op_MarketID profile)) || negb (valid_hash (op_RulesHash profile))
     || negb (valid_hash (op_RoundPolicyHash profile))
     || negb (canonicalDigest (op_MarketID profile) "tvm-cell-sha256:")
     || negb (canonicalDigest (op_RulesHash profile) "sha256:")
     || negb (canonicalDigest (op_RoundPolicyHash profile) "tvm-cell-sha256:")
     || (negb (op_Round profile =? RoundNormal) && negb (op_Round profile =? RoundAppeal))
     || (op_ClaimDeadline profile =? 0) || (op_AuditRetention profile =? 0)
     || (31536000 <? op_AuditRetention profile)
     || (llen (op_ArchiveAuthorities profile) <? 2) || (16 <? llen (op_ArchiveAuthorities profile))
  then Err "invalid immutable oracle profile"
  else validate_authorities ∅ "" (op_ArchiveAuthorities profile).

Definition persist (e : io oracleDocument) (file : file_state oracleDocument) (next : oracleDocument)
    : file_state oracleDocument * result unit :=
  persist_bounded e 8388608 "prediction oracle journal exceeds its durable bound" next file.

(** [protocol.ParseHash32] with its error dropped: the zero hash then. *)
Definition parse_hash (value : string) : Hash32 :=
  match ParseHash32 value with Ok h => h | Err _ => hash32 "" end.

Fixpoint sorted_digests (previous : string) (digests : list string) : bool :=
  match digests with
  | [] => true
  | digest :: rest =>
      canonicalDigest digest "sha256:"
      && (bool_decide (previous = ""%string) || negb (str_le digest previous))
      && sorted_digests digest rest
  end.

(** The digest loop of a vote reports which of the two checks failed. *)
Fixpoint vote_digests (previous : string) (digests : list string) : result unit :=
  match digests with
  | [] => Ok tt
  | digest :: rest =>
      if negb (canonicalDigest digest "sha256:") then Err "prediction oracle receipt digest is invalid"
      else if negb (bool_decide (previous = ""%string)) && str_le digest previous
      then Err "prediction oracle receipt digests are not unique and sorted"
      else vote_digests digest rest
  end.

(** A stored cell: its base64, then the canonical encoding within a bound. *)
Definition stored_cell (encoded : string) (maximum : N) : option cell :=
  match base64_DecodeString encoded with
  | None => None
  | Some raw => match canonicalCell raw maximum with Ok c => Some c | Err _ => None end
  end.

Definition load_vote profile (key : string) (record : oracleVoteRecord) : result unit :=
  match stored_cell (ov_EvidenceManifestBOC record) 65536, stored_cell (ov_StatementBOC record) 8192 with
  | Some manifest, Some statement =>
      match DecodePredictionEvidenceManifestV1 manifest, DecodePredictionResolutionStatementV1 statement with
      | Ok dm, Ok ds =>
          if negb (bool_decide (key = ov_RoundContextHash record))
             || negb (canonicalDigest key "tvm-cell-sha256:")
             || negb (bool_decide (CellHashString (cell_Hash32 manifest) = ov_EvidenceRoot record))
             || negb (bool_decide (CellHashString (cell_Hash32 statement) = ov_StatementHash record))
             || negb (bool_decide (CellHashString (mf_RoundContextHash dm) = ov_RoundContextHash record))
             || negb (bool_decide (mf_MarketID dm = parse_hash (op_MarketID profile)))
             || negb (bool_decide (mf_RulesHash dm = parse_hash (op_RulesHash profile)))
             || negb (mf_Outcome dm =? ov_Outcome record)
             || negb (bool_decide (st_GlobalID ds = op_GlobalID profile))
             || negb (bool_decide (st_MarketAddress ds = op_MarketAddress profile))
             || negb (bool_decide (st_MarketID ds = parse_hash (op_MarketID profile)))
             || negb (bool_decide (st_RulesHash ds = parse_hash (op_RulesHash profile)))
             || negb (bool_decide (st_RoundPolicyHash ds = parse_hash (op_RoundPolicyHash profile)))
             || negb (bool_decide (CellHashString (st_RoundContextHash ds) = ov_RoundContextHash record))
             || negb (st_Round ds =? ov_Round record) || negb (ov_Round record =? op_Round profile)
             || negb (st_Outcome ds =? ov_Outcome record)
             || negb (bool_decide (st_EvidenceRoot ds = cell_Hash32 manifest))
             || negb (st_StatementCreatedAt ds =? ov_StatementCreatedAt record)
             || negb (st_StatementExpiry ds =? ov_StatementExpiry record)
          then Err "prediction oracle journal contains a corrupted vote"
          else if llen (ov_ArchiveReceiptDigests record) <? 2 * llen (mf_Entries dm)
          then Err "prediction oracle journal lacks independent archive receipts"
          else vote_digests "" (ov_ArchiveReceiptDigests record)
      | _, _ => Err "prediction oracle journal contains a corrupted vote"
      end
  | _, _ => Err "prediction oracle journal contains a corrupted vote"
  end.

Definition load_challenge profile (key : string) (record : oracleChallengeRecord) : result unit :=
  match stored_cell (oc_EvidenceManifestBOC record) 65536 with
  | None => Err "prediction oracle journal contains a corrupted challenge"
  | Some manifest =>
      match DecodePredictionChallengeEvidenceManifestV1 manifest with
      | Err _ => Err "prediction oracle journal contains a corrupted challenge"
      | Ok d =>
          if negb (bool_decide (key = oc_ProposedStatementHash record))
             || negb (canonicalDigest key "tvm-cell-sha256:")
             || negb (bool_decide (cf_MarketID d = parse_hash (op_MarketID profile)))
             || negb (bool_decide (cf_RulesHash d = parse_hash (op_RulesHash profile)))
             || negb (bool_decide (CellHashString (cf_ProposedStatementHash d) =
                                   oc_ProposedStatementHash record))
             || negb (cf_CounterOutcome d =? oc_CounterOutcome record)
             || negb (bool_decide (CellHashString (cell_Hash32 manifest) = oc_CounterEvidenceRoot record))
             || (OutcomeInvalid <? oc_ProposedOutcome record)
             || (OutcomeInvalid <? oc_CounterOutcome record)
             || (oc_ProposedOutcome record =? oc_CounterOutcome record)
             || (oc_ChallengeDeadline record =? 0) || (oc_RequiredMessageValue record =? 0)
             || negb (canonicalDigest (oc_WatcherProfileDigest record) "sha256:")
             || negb (canonicalDigest (oc_FinalityViewID record) "sha256:")
             || (llen (oc_ArchiveReceiptDigests record) <? 2 * llen (cf_Entries d))
          then Err "prediction oracle journal contains a corrupted challenge"
          else if negb (sorted_digests "" (oc_ArchiveReceiptDigests record))
          then Err "prediction oracle challenge receipt digests are invalid"
          else Ok tt
      end
  end.

Definition loadOrInitialize (e : io oracleDocument) (file : file_state oracleDocument)
    (doc : oracleDocument) : file_state oracleDocument * result oracleDocument :=
  match file with
  | FileAbsent =>
      let '(file', r) := persist e file doc in
      (file', match r with Ok _ => Ok doc | Err m => Err m end)
  | FileUnreadable => (file, Err "prediction oracle journal is unavailable")
  | FileUndecodable => (file, Err "prediction oracle journal identity or shape is invalid")
  | FileDoc loaded =>
      (file,
       if negb (od_SchemaVersion loaded =? 1) || (1 <? N.of_nat (size (od_Votes loaded)))
          || (1 <? N.of_nat (size (od_Challenges loaded)))
          || negb (bool_decide (od_Profile loaded = od_Profile doc))
       then Err "prediction oracle journal identity or shape is invalid"
       else
         let? _ := range_check (load_vote (od_Profile loaded)) (od_Votes loaded) in
         let? _ := range_check (load_challenge (od_Profile loaded)) (od_Challenges loaded) in
         Ok loaded)
  end.

Definition emptyDocument profile : oracleDocument :=
  {| od_SchemaVersion := 1; od_Revision := 0; od_Profile := profile; od_Votes := ∅; od_Challenges := ∅ |}.

Definition OpenOracleJournal (e : io oracleDocument) (d : dir_env) (file : file_state oracleDocument)
    profile : file_state oracleDocument * result OracleJournal :=
  if is_err (validateOracleProfile profile)
  then (file, Err "prediction oracle journal configuration is invalid")
  else
    match openPrivateLockedDirectory d with
    | Err m => (file, Err m)
    | Ok _ =>
        let '(file', r) := loadOrInitialize e file (emptyDocument profile) in
        (file', let? doc := r in Ok {| lg_file := file'; lg_lock := true; lg_doc := doc |})
    end.

Definition votePlan (record : oracleVoteRecord) : OracleVotePlan :=
  {| vp_Round := ov_Round record; vp_Outcome := ov_Outcome record;
     vp_RoundContextHash := ov_RoundContextHash record; vp_EvidenceRoot := ov_EvidenceRoot record;
     vp_StatementHash := ov_StatementHash record;
     vp_EvidenceManifestBOC := default "" (base64_DecodeString (ov_EvidenceManifestBOC record));
     vp_StatementBOC := default "" (base64_DecodeString (ov_StatementBOC record));
     vp_StatementCreatedAt := ov_StatementCreatedAt record;
     vp_StatementExpiry := ov_StatementExpiry record;
     vp_ArchiveReceiptDigests := ov_ArchiveReceiptDigests record |}.

(** The time window of the round's context: the statement's expiry. *)
Definition vote_window profile (context : cell) (reviewBaseBOC : string) (now : N) : result N :=
  let marketID := parse_hash (op_MarketID profile) in
  let rulesHash := parse_hash (op_RulesHash profile) in
  if op_Round profile =? RoundNormal then
    if negb (slen reviewBaseBOC =? 0) then Err "normal oracle vote must not carry a review base"
    else
      match DecodePredictionNormalContextV1 context with
      | Err _ => Err "normal oracle context is stale or outside the admitted market"
      | Ok decoded =>
          if negb (bool_decide (nc_MarketID decoded = marketID))
             || negb (bool_decide (nc_RulesHash decoded = rulesHash))
             || (now <? nc_ResolveNotBefore decoded) || (now <? nc_NormalRoundOpenedAt decoded)
             || (nc_OracleVoteDeadline decoded <=? now)
          then Err "normal oracle context is stale or outside the admitted market"
          else Ok (nc_OracleVoteDeadline decoded)
      end
  else if (slen reviewBaseBOC =? 0) || (8192 <? slen reviewBaseBOC)
  then Err "appellate vote requires the exact review base context"
  else
    match canonicalCell reviewBaseBOC 8192 with
    | Err _ => Err "appellate oracle context is stale or outside the admitted review"
    | Ok base =>
        match DecodePredictionReviewVoteContextV1 context, DecodePredictionReviewBaseContextV1 base with
        | Ok vote, Ok decodedBase =>
            if negb (bool_decide (rb_MarketID decodedBase = marketID))
               || negb (bool_decide (rb_RulesHash decodedBase = rulesHash))
               || negb (bool_decide (vc_ReviewBaseContextHash vote = cell_Hash32 base))
               || (now <? rb_ReviewVoteNotBefore decodedBase) || (now <? vc_ReviewRoundOpenedAt vote)
               || (rb_AppealDeadline decodedBase <=? now)
            then Err "appellate oracle context is stale or outside the admitted review"
            else Ok (rb_AppealDeadline decodedBase)
        | _, _ => Err "appellate oracle context is stale or outside the admitted review"
        end
    end.

Definition with_vote (doc : oracleDocument) (key : string) (record : oracleVoteRecord) : oracleDocument :=
  {| od_SchemaVersion := od_SchemaVersion doc; od_Revision := add64w (od_Revision doc) 1;
     od_Profile := od_Profile doc; od_Votes := <[key := record]> (od_Votes doc);
     od_Challenges := od_Challenges doc |}.

Definition with_challenge (doc : oracleDocument) (key : string) (record : oracleChallengeRecord)
    : oracleDocument :=
  {| od_SchemaVersion := od_SchemaVersion doc; od_Revision := add64w (od_Revision doc) 1;
     od_Profile := od_Profile doc; od_Votes := od_Votes doc;
     od_Challenges := <[key := record]> (od_Challenges doc) |}.

Definition PrepareVote (e : io oracleDocument) l (roundContextBOC reviewBaseBOC : string) (outcome : N)
    (evidence : list ArchivedEvidence) (now : N) : OracleJournal * result OracleVotePlan :=
  if (now =? 0) || (slen roundContextBOC =? 0) || (8192 <? slen roundContextBOC) || (llen evidence =? 0)
  then (l, Err "prediction oracle vote input is invalid")
  else if negb (lg_lock l) then (l, Err "prediction oracle journal is closed")
  else
    match canonicalCell roundContextBOC 8192 with
    | Err m => (l, Err m)
    | Ok context =>
        let doc := lg_doc l in
        let profile := od_Profile doc in
        let marketID := parse_hash (op_MarketID profile) in
        let rulesHash := parse_hash (op_RulesHash profile) in
        let policyHash := parse_hash (op_RoundPolicyHash profile) in
        let contextHash := cell_Hash32 context in
        match vote_window profile context reviewBaseBOC now with
        | Err m => (l, Err m)
        | Ok expiry =>
            match verifyArchivedEvidence profile evidence now with
            | Err m => (l, Err m)
            | Ok (entries, receiptDigests) =>
                match BuildPredictionEvidenceManifestCell
                        {| mf_MarketID := marketID; mf_RulesHash := rulesHash;
                           mf_RoundContextHash := contextHash; mf_Outcome := outcome;
                           mf_Entries := entries |} with
                | Err m => (l, Err m)
                | Ok manifest =>
                    let evidenceRoot := cell_Hash32 manifest in
                    let key := CellHashString contextHash in
                    match od_Votes doc !! key with
                    | Some prior =>
                        if negb (ov_Round prior =? op_Round profile) || negb (ov_Outcome prior =? outcome)
                           || negb (bool_decide (ov_EvidenceRoot prior = CellHashString evidenceRoot))
                        then (l, Err "oracle equivocation: round context already committed to another statement")
                        else (l, Ok (votePlan prior))
                    | None =>
                        match BuildPredictionResolutionStatementCell
                                {| st_GlobalID := op_GlobalID profile;
                                   st_MarketAddress := op_MarketAddress profile; st_MarketID := marketID;
                                   st_RulesHash := rulesHash; st_RoundPolicyHash := policyHash;
                                   st_RoundContextHash := contextHash; st_Round := op_Round profile;
                                   st_Outcome := outcome; st_EvidenceRoot := evidenceRoot;
                                   st_StatementCreatedAt := now; st_StatementExpiry := expiry |} with
                        | Err m => (l, Err m)
                        | Ok statement =>
                            let record :=
                              {| ov_Round := op_Round profile; ov_Outcome := outcome;
                                 ov_RoundContextHash := CellHashString contextHash;
                                 ov_EvidenceRoot := CellHashString evidenceRoot;
                                 ov_StatementHash := CellHashString (cell_Hash32 statement);
                                 ov_EvidenceManifestBOC := base64_EncodeToString (ToBOC manifest);
                                 ov_StatementBOC := base64_EncodeToString (ToBOC statement);
                                 ov_StatementCreatedAt := now; ov_StatementExpiry := expiry;
                                 ov_ArchiveReceiptDigests := receiptDigests |} in
                            let '(l', r) := commit (persist e) l (with_vote doc key record) in
                            (l', let? _ := r in Ok (votePlan record))
                        end
                    end
                end
            end
        end
    end.

(** ** Acquiring evidence (archive.go) *)

(** The replica loop; [None] is a nil replica. *)
Fixpoint store_replicas (object : ArchiveObjectV1) (receipts : list ArchiveReceipt)
    (replicas : list (option (ArchiveObjectV1 -> result ArchiveReceipt))) : result (list ArchiveReceipt) :=
  match replicas with
  | [] => Ok receipts
  | None :: _ => Err "prediction evidence archive replica is unavailable"
  | Some store :: rest =>
      let? receipt := store object in store_replicas object (receipts ++ [receipt]) rest
  end.

(** [FetchAndArchiveEvidence] between its two critical sections reads only the
    immutable profile; [open_before] and [open_after] say whether the journal
    held its lock at each. *)
Definition FetchAndArchiveEvidence profile (open_before open_after : bool)
    (Fetch : result source_snapshot) (metadata : EvidenceMetadataV1)
    (replicas : list (option (ArchiveObjectV1 -> result ArchiveReceipt))) (now : N)
    : result ArchivedEvidence :=
  if (now =? 0) || (MaxInt64 <? now) || (llen replicas <? 2) || (16 <? llen replicas)
     || (em_PublicationTimeSeconds metadata =? 0) || (em_EventTimeSeconds metadata =? 0)
     || (em_PublicationTimeSeconds metadata <? em_EventTimeSeconds metadata)
     || (now <? em_PublicationTimeSeconds metadata)
     || (slen (em_ParserProfileVersion metadata) =? 0) || (128 <? slen (em_ParserProfileVersion metadata))
  then Err "prediction evidence acquisition input is invalid"
  else if negb open_before then Err "prediction oracle journal is closed"
  else if llen (op_ArchiveAuthorities profile) <? llen replicas
  then Err "prediction evidence has more replicas than admitted authorities"
  else
    let '(retainUntil, ok) := add64 (op_ClaimDeadline profile) (op_AuditRetention profile) in
    if negb ok then Err "prediction evidence retention overflows"
    else
      let? snapshot := Fetch in
      let digest := ss_ContentDigest snapshot in
      let locator := "tos-cas-sha256:" +:+ hex_EncodeToString digest in
      let object :=
        {| ao_CanonicalSourceID := ss_CanonicalSourceID snapshot;
           ao_ContentType := ss_ContentType snapshot; ao_ContentDigest := digest;
           ao_ArchiveLocator := locator; ao_Content := ss_Content snapshot;
           ao_RetainUntil := retainUntil |} in
      let? receipts := store_replicas object [] replicas in
      let evidence :=
        {| ae_Entry :=
             {| en_SourceKind := SourceHTTPS; en_CanonicalSourceID := ss_CanonicalSourceID snapshot;
                en_ContentDigest := digest; en_ArchiveLocator := locator;
                en_PublicationTimeSeconds := em_PublicationTimeSeconds metadata;
                en_EventTimeSeconds := em_EventTimeSeconds metadata;
                en_ParserProfileVersion := em_ParserProfileVersion metadata |};
           ae_Content := ss_Content snapshot; ae_Receipts := receipts |} in
      match ParseHash32 (op_MarketID profile), ParseHash32 (op_RulesHash profile) with
      | Ok marketID, Ok rulesHash =>
          let? _ := BuildPredictionEvidenceManifestCell
            {| mf_MarketID := marketID; mf_RulesHash := rulesHash;
               mf_RoundContextHash := hash32 (String (of_byte 1) EmptyString);
               mf_Outcome := OutcomeYes; mf_Entries := [ae_Entry evidence] |} in
          if negb open_after then Err "prediction oracle journal closed during evidence acquisition"
          else
            let? _ := verifyArchivedEvidence profile [evidence] now in
            Ok evidence
      | _, _ => Err "prediction oracle profile hashes are unavailable"
      end.

(** ** Challenging a proposal (watcher.go) *)

Definition validateChallengeWatcherProfile (profile : ChallengeWatcherProfile) : result unit :=
  if negb (canonicalDigest (cw_NetworkDomainHash profile) "sha256:")
     || negb (canonicalDigest (cw_MarketConfigHash profile) "tvm-cell-sha256:")
     || negb (canonicalDigest (cw_ContractCodeHash profile) "tvm-cell-sha256:")
     || (cw_ChallengeBond profile =? 0) || (cw_ChallengeProcessingFee profile =? 0)
     || (cw_OperationBudget profile =? 0) || (cw_MaximumSnapshotAge profile =? 0)
     || (300 <? cw_MaximumSnapshotAge profile)
  then Err "invalid prediction challenge watcher profile"
  else Ok tt.

Definition validateProposedObservation (observation : ProposedMarketObservation)
    (profile : ChallengeWatcherProfile) (oracle : OracleProfile) (now : N) : result unit :=
  if negb (po_QuorumFinalized observation) || negb (po_Status observation =? proposedMarketStatus)
     || negb (bool_decide (po_NetworkDomainHash observation = cw_NetworkDomainHash profile))
     || negb (bool_decide (po_MarketID observation = op_MarketID oracle))
     || negb (bool_decide (po_MarketAddress observation = op_MarketAddress oracle))
     || negb (bool_decide (po_RulesHash observation = op_RulesHash oracle))
     || negb (bool_decide (po_MarketConfigHash observation = cw_MarketConfigHash profile))
     || negb (bool_decide (po_ContractCodeHash observation = cw_ContractCodeHash profile))
     || (OutcomeInvalid <? po_ProposedOutcome observation)
     || negb (canonicalDigest (po_ProposedStatementHash observation) "tvm-cell-sha256:")
     || negb (canonicalDigest (po_FinalityViewID observation) "sha256:")
     || (po_ChallengeDeadline observation <=? now) || (po_ObservedAt observation =? 0)
     || (now <? po_ObservedAt observation)
     || (cw_MaximumSnapshotAge profile <? sub64w now (po_ObservedAt observation))
  then Err "prediction proposal observation is stale or outside the admitted market"
  else Ok tt.

Definition challengePlan (record : oracleChallengeRecord) : ChallengePlan :=
  {| cp_ProposedStatementHash := oc_ProposedStatementHash record;
     cp_ProposedOutcome := oc_ProposedOutcome record; cp_CounterOutcome := oc_CounterOutcome record;
     cp_CounterEvidenceRoot := oc_CounterEvidenceRoot record;
     cp_EvidenceManifestBOC := default "" (base64_DecodeString (oc_EvidenceManifestBOC record));
     cp_RequiredMessageValue := oc_RequiredMessageValue record;
     cp_ChallengeDeadline := oc_ChallengeDeadline record;
     cp_FinalityViewID := oc_FinalityViewID record;
     cp_ArchiveReceiptDigests := oc_ArchiveReceiptDigests record |}.

(** What a watcher's collaborators answer: [codec.Digest] of its profile, the
    context's error, and the resolution evaluator. *)
Record watcher_env := {
  we_digest : string -> ChallengeWatcherProfile -> result string;
  we_context : result unit;
  we_evaluate : string -> string -> list ArchivedEvidence -> result N
}.

(** The body of [PrepareChallenge] up to its last critical section: the
    record to commit, or [None] when the evaluator agrees with the proposal.
    It reads only the journal's immutable profile, and whether it is open. *)
Definition challenge_record (w : watcher_env) (watcher : ChallengeWatcherProfile) (is_open : bool)
    (oracle : OracleProfile) (observation : ProposedMarketObservation) (evidence : list ArchivedEvidence)
    (now : N) : result (option oracleChallengeRecord) :=
  if (llen evidence =? 0) || (now =? 0) || (MaxInt64 <? now) || is_err (validateChallengeWatcherProfile watcher)
  then Err "prediction challenge watcher is unavailable"
  else if negb is_open then Err "prediction oracle journal is closed"
  else
    let? _ := validateProposedObservation observation watcher oracle now in
    let? verified := verifyArchivedEvidence oracle evidence now in
    let? _ := we_context w in
    let? counterOutcome := we_evaluate w (po_MarketID observation) (po_RulesHash observation) evidence in
    if OutcomeInvalid <? counterOutcome
    then Err "prediction resolution evaluator returned an invalid outcome"
    else if counterOutcome =? po_ProposedOutcome observation then Ok None
    else
      match ParseHash32 (po_MarketID observation), ParseHash32 (po_RulesHash observation),
            ParseHash32 (po_ProposedStatementHash observation) with
      | Ok marketID, Ok rulesHash, Ok proposalHash =>
          let? manifest := BuildPredictionChallengeEvidenceManifestCell
            {| cf_MarketID := marketID; cf_RulesHash := rulesHash;
               cf_ProposedStatementHash := proposalHash; cf_CounterOutcome := counterOutcome;
               cf_Entries := ae_Entry <$> evidence |} in
          let '(required, ok) := add64 (cw_ChallengeBond watcher) (cw_ChallengeProcessingFee watcher) in
          if negb ok then Err "prediction challenge value overflows"
          else
            let '(required, ok) := add64 required (cw_OperationBudget watcher) in
            if negb ok then Err "prediction challenge value overflows"
            else
              let? profileDigest := we_digest w "tos.prediction.challenge-watcher-profile.v1" watcher in
              Ok (Some
                {| oc_ProposedStatementHash := po_ProposedStatementHash observation;
                   oc_ProposedOutcome := po_ProposedOutcome observation;
                   oc_CounterOutcome := counterOutcome;
                   oc_CounterEvidenceRoot := CellHashString (cell_Hash32 manifest);
                   oc_EvidenceManifestBOC := base64_EncodeToString (ToBOC manifest);
                   oc_ChallengeDeadline := po_ChallengeDeadline observation;
                   oc_FinalityViewID := po_FinalityViewID observation;
                   oc_WatcherProfileDigest := profileDigest; oc_RequiredMessageValue := required;
                   oc_ArchiveReceiptDigests := verified.2 |})
      | _, _, _ => Err "prediction challenge binding hash is invalid"
      end.

(** The last critical section. *)
Definition commit_challenge (e : io oracleDocument) l (record : oracleChallengeRecord)
    : OracleJournal * result ChallengePlan :=
  if negb (lg_lock l) then (l, Err "prediction oracle journal closed while preparing challenge")
  else
    match od_Challenges (lg_doc l) !! oc_ProposedStatementHash record with
    | Some prior =>
        if negb (bool_decide (prior = record))
        then (l, Err "prediction challenge conflicts with the durable counter statement")
        else (l, Ok (challengePlan prior))
    | None =>
        if negb (N.of_nat (size (od_Challenges (lg_doc l))) =? 0)
        then (l, Err "prediction oracle journal already tracks another challenge")
        else
          let '(l', r) := commit (persist e) l
            (with_challenge (lg_doc l) (oc_ProposedStatementHash record) record) in
          (l', let? _ := r in Ok (challengePlan record))
    end.

(** [PrepareChallenge] when nothing runs between its critical sections. *)
Definition PrepareChallenge (e : io oracleDocument) (w : watcher_env) (watcher : ChallengeWatcherProfile) l
    (observation : ProposedMarketObservation) (evidence : list ArchivedEvidence) (now : N)
    : OracleJournal * result (option ChallengePlan) :=
  match challenge_record w watcher (lg_lock l) (od_Profile (lg_doc l)) observation evidence now with
  | Err m => (l, Err m)
  | Ok None => (l, Ok None)
  | Ok (Some record) =>
      let '(l', r) := commit_challenge e l record in (l', let? plan := r in Ok (Some plan))
  end.

(** ** Specification *)

Definition vote_ok profile (key : string) (r : oracleVoteRecord) : Prop :=
  key = ov_RoundContextHash r /\ ov_Round r = op_Round profile.

Definition challenge_ok (key : string) (r : oracleChallengeRecord) : Prop :=
  key = oc_ProposedStatementHash r /\ oc_ProposedOutcome r <> oc_CounterOutcome r /\
  oc_ProposedOutcome r <= OutcomeInvalid /\ oc_CounterOutcome r <= OutcomeInvalid /\
  0 < oc_ChallengeDeadline r /\ 0 < oc_RequiredMessageValue r.

(** A journal's document: its votes and its at most one challenge, keyed by
    what they are about. *)
Definition oracle_ok profile (d : oracleDocument) : Prop :=
  od_SchemaVersion d = 1 /\ od_Profile d = profile /\ map_Forall (vote_ok profile) (od_Votes d) /\
  map_Forall challenge_ok (od_Challenges d) /\ (size (od_Challenges d) <= 1)%nat.

(** No vote and no challenge is ever changed or forgotten. *)
Definition oracle_le (d d' : oracleDocument) : Prop :=
  od_Profile d = od_Profile d' /\ map_le eq (od_Votes d) (od_Votes d') /\
  map_le eq (od_Challenges d) (od_Challenges d').

#[local] Instance oracle_le_preorder : PreOrder oracle_le.
Proof.
  split.
  - intros d. split_and!; reflexivity.
  - intros d1 d2 d3 (P1 & V1 & C1) (P2 & V2 & C2). split_and!; etrans; eauto.
Qed.

#[global] Instance oracle_durable : Durable OracleProfile oracleDocument :=
  {| doc_ok := oracle_ok; doc_le := oracle_le |}.

(** The Go types of the values a challenge adds up. *)
Definition watcher_typed (watcher : ChallengeWatcherProfile) : Prop :=
  is_u64 (cw_ChallengeProcessingFee watcher) /\ is_u64 (cw_OperationBudget watcher).

(** The calls that change the journal, and restarts. *)
Inductive step (l l' : OracleJournal) : Prop :=
| step_vote e context base outcome evidence now r :
    PrepareVote e l context base outcome evidence now = (l', r) -> step l l'
| step_challenge e w watcher observation evidence now record r :
    watcher_typed watcher ->
    challenge_record w watcher true (od_Profile (lg_doc l)) observation evidence now = Ok (Some record) ->
    commit_challenge e l record = (l', r) -> step l l'
| step_close release r : Ledger.Close release l = (l', r) -> step l l'
| step_restart e d profile file' :
    OpenOracleJournal e d (lg_file l) profile = (file', Ok l') -> step l l'.

Definition reachable profile l : Prop :=
  exists e d file file' l0, OpenOracleJournal e d file profile = (file', Ok l0) /\ rtc step l0 l.

(** *** Arithmetic and digests *)

Lemma add64_exact a b n ok : is_u64 b -> add64 a b = (n, ok) -> ok = true -> n = a + b /\ a + b <= MaxUint64.
Proof.
  unfold add64, is_u64. intros Hb H ->. rewrite sub64w_exact in H by lia.
  destruct (N.ltb_spec (MaxUint64 - b) a); [done|]. injection H as <-.
  rewrite add64w_exact by lia. lia.
Qed.

Lemma authority_map_lookup authorities (m : gmap string string) op key :
  foldl (fun m a => <[au_OperatorID a := au_PublicKey a]> m) m authorities !! op = Some key ->
  m !! op = Some key \/ exists a, a ∈ authorities /\ au_OperatorID a = op /\ au_PublicKey a = key.
Proof.
  revert m. induction authorities as [|a authorities IH]; intros m H; simpl in H; [by left|].
  destruct (IH _ H) as [Hm|(b & Hb & ? & ?)].
  - apply lookup_insert_Some in Hm as [[<- <-]|[_ Hm]]; [|by left].
    right. exists a. split; [apply list_elem_of_here|done].
  - right. exists b. split; [by apply list_elem_of_further|done].
Qed.

(** A receipt an admitted operator signed for this snapshot, stored between
    its publication and now, and retained long enough. *)
Definition receipt_valid profile (retention now : N) (entry : EvidenceEntryV1) (r : ArchiveReceipt) : Prop :=
  exists a digest, a ∈ op_ArchiveAuthorities profile /\ au_OperatorID a = ar_OperatorID r /\
    archiveReceiptDigest r = Ok digest /\ ed_Verify (au_PublicKey a) digest (ar_Signature r) = true /\
    ar_ContentDigest r = en_ContentDigest entry /\ ar_ArchiveLocator r = en_ArchiveLocator entry /\
    en_PublicationTimeSeconds entry <= ar_StoredAt r <= now /\ retention <= ar_RetainUntil r.

Definition evidence_valid profile (now : N) (value : ArchivedEvidence) : Prop :=
  sha256_Sum256 (ae_Content value) = en_ContentDigest (ae_Entry value) /\
  NoDup (ar_OperatorID <$> ae_Receipts value) /\ 2 <= llen (ae_Receipts value) /\
  Forall (receipt_valid profile (op_ClaimDeadline profile + op_AuditRetention profile) now (ae_Entry value))
    (ae_Receipts value).

Lemma verify_receipts_ok profile retention now entry seen digests receipts seen' digests' :
  verify_receipts (authority_map (op_ArchiveAuthorities profile)) retention now entry seen digests receipts =
    Ok (seen', digests') ->
  Forall (receipt_valid profile retention now entry) receipts /\
  NoDup (ar_OperatorID <$> receipts) /\
  Forall (fun r => ~ (ar_OperatorID r ∈ seen)) receipts /\
  size seen' = (size seen + length receipts)%nat.
Proof.
  revert seen digests. induction receipts as [|r receipts IH]; intros seen digests H; simpl in H.
  { injection H as <- <-. split_and!; [constructor..|simpl; lia]. }
  head_case H eqn E1; [done|]. head_case H as [key|] eqn E2; [|done].
  head_case H as [digest|] eqn E3; [|done]. head_case H eqn E4; [done|]. bprop.
  destruct (IH _ _ H) as (Hv & Hnd & Hns & Hsz). simpl. split_and!.
  - constructor; [|done]. unfold authority_map in E2.
    destruct (authority_map_lookup _ _ _ _ E2) as [Hbad|(a & Ha & Hid & Hkey)]; [by rewrite lookup_empty in Hbad|].
    exists a, digest. rewrite Hkey. split_and!; done.
  - apply NoDup_cons. split; [|done]. intros Hin. apply list_elem_of_fmap in Hin as (r2 & Hr2 & Hin).
    rewrite Forall_forall in Hns. apply (Hns r2 Hin). rewrite <-Hr2. set_solver.
  - constructor; [done|]. eapply Forall_impl; [exact Hns|]. simpl. set_solver.
  - rewrite Hsz, size_union, size_singleton by set_solver. lia.
Qed.

Lemma verify_snapshots_ok profile retention now total entries digests values out :
  retention = op_ClaimDeadline profile + op_AuditRetention profile ->
  verify_snapshots (authority_map (op_ArchiveAuthorities profile)) retention now total entries digests values =
    Ok out -> Forall (evidence_valid profile now) values.
Proof.
  intros Hret. revert total entries digests. induction values as [|v values IH]; intros total entries digests H.
  { constructor. }
  simpl in H. head_case H eqn E1; [done|]. head_case H eqn E2; [done|].
  head_case H as [[seen ids]|] eqn E3; [|done]. head_case H eqn E4; [done|]. bprop.
  constructor; [|by eapply IH].
  apply verify_receipts_ok in E3 as (Hv & Hnd & _ & Hsz). rewrite size_empty in Hsz. simpl in *.
  split_and!; [done|done|unfold llen; lia|]. by rewrite <-Hret.
Qed.

Lemma verifyArchivedEvidence_ok profile values now out :
  is_u64 (op_AuditRetention profile) -> verifyArchivedEvidence profile values now = Ok out ->
  Forall (evidence_valid profile now) values /\ llen values <= MaxEvidenceEntries.
Proof.
  intros Hu H. unfold verifyArchivedEvidence in H. head_case H eqn E1; [done|].
  destruct (add64 _ _) as [retention ok] eqn:Ea. head_case H eqn E2; [done|]. bprop.
  destruct (add64_exact _ _ _ _ Hu Ea E2) as [-> _]. split; [|done]. by eapply verify_snapshots_ok.
Qed.

(** The evidence [FetchAndArchiveEvidence] hands out is what a vote will
    accept at the same time. *)
Lemma fetched_evidence_valid profile before after fetch metadata replicas now evidence :
  is_u64 (op_AuditRetention profile) ->
  FetchAndArchiveEvidence profile before after fetch metadata replicas now = Ok evidence ->
  evidence_valid profile now evidence.
Proof.
  intros Hu H. unfold FetchAndArchiveEvidence in H. head_case H eqn E1; [done|]. head_case H eqn E2; [done|].
  head_case H eqn E3; [done|]. destruct (add64 _ _) as [retain ok]. head_case H eqn E4; [done|].
  head_case H as [snapshot|] eqn E5; [|done]. head_case H as [receipts|] eqn E6; [|done].
  head_case H as [marketID|] eqn E7; [|done]. head_case H as [rulesHash|] eqn E8; [|done].
  head_case H as [manifest|] eqn E9; [|done]. head_case H eqn E10; [done|].
  head_case H as [out|] eqn E11; [|done]. injection H as <-.
  apply verifyArchivedEvidence_ok in E11 as [Hv _]; [|done]. apply Forall_cons in Hv as [Hv _]. exact Hv.
Qed.

(** A receipt [SignArchiveReceipt] issues verifies under the signer's key, for
    the digest the verifier recomputes. *)
Lemma signed_receipt_verifies privateKey content locator storedAt retainUntil receipt :
  (forall k d, ed_Verify (ed_Public k) d (ed_Sign k d) = true) ->
  SignArchiveReceipt privateKey content locator storedAt retainUntil = Ok receipt ->
  exists digest, archiveReceiptDigest receipt = Ok digest /\
    ed_Verify (ed_Public privateKey) digest (ar_Signature receipt) = true /\
    ArchiveOperatorID (ed_Public privateKey) = Ok (ar_OperatorID receipt).
Proof.
  intros Hed H. unfold SignArchiveReceipt in H. head_case H eqn E1; [done|].
  head_case H as [operator|] eqn E2; [|done]. head_case H as [digest|] eqn E3; [|done]. injection H as <-.
  exists digest. split_and!; [exact E3|apply Hed|reflexivity].
Qed.

(** *** The document *)

Lemma oracle_persist_ok e : persist_sound (persist e).
Proof. apply persist_bounded_sound. Qed.

Lemma load_vote_ok profile key record : load_vote profile key record = Ok tt -> vote_ok profile key record.
Proof.
  unfold load_vote. intros H. head_case H as [manifest|] eqn E1; [|done].
  head_case H as [statement|] eqn E2; [|done]. head_case H as [dm|] eqn E3; [|done].
  head_case H as [ds|] eqn E4; [|done]. head_case H eqn E5; [done|]. bprop. done.
Qed.

Lemma load_challenge_ok profile key record :
  load_challenge profile key record = Ok tt -> challenge_ok key record.
Proof.
  unfold load_challenge. intros H. head_case H as [manifest|] eqn E1; [|done].
  head_case H as [d|] eqn E2; [|done]. head_case H eqn E3; [done|]. bprop.
  unfold challenge_ok. split_and!; first [done|lia].
Qed.

Lemma loaded_ok e file doc file' loaded :
  loadOrInitialize e file doc = (file', Ok loaded) -> oracle_ok (od_Profile doc) doc ->
  oracle_ok (od_Profile doc) loaded /\ file' = FileDoc loaded.
Proof.
  unfold loadOrInitialize. intros H Hdoc. destruct file as [| | |d]; try done.
  - destruct (persist e FileAbsent doc) as [f r] eqn:E. injection H as <- Hr. destruct r as [[]|]; [|done].
    injection Hr as <-. apply oracle_persist_ok in E as [_ E]. auto.
  - injection H as <- H. head_case H eqn E1; [done|]. head_case H as [[]|] eqn E2; [|done].
    head_case H as [[]|] eqn E3; [|done]. injection H as <-. bprop. split; [|done].
    apply range_check_ok in E2. apply range_check_ok in E3. unfold oracle_ok.
    match goal with H : od_Profile d = _ |- _ => rename H into Hp end. rewrite Hp in *.
    split_and!; [done|done| | |lia].
    + eapply map_Forall_impl; [exact E2|]. intros k r. apply load_vote_ok.
    + eapply map_Forall_impl; [exact E3|]. intros k r. apply load_challenge_ok.
Qed.

Lemma oracle_empty_ok profile : oracle_ok profile (emptyDocument profile).
Proof. split_and!; [done|done|apply map_Forall_empty..|]. simpl. rewrite map_size_empty. lia. Qed.

Lemma oracle_Open_ok e d file profile file' l :
  OpenOracleJournal e d file profile = (file', Ok l) ->
  ledger_ok profile l /\ lg_file l = file' /\ lg_lock l = true.
Proof.
  unfold OpenOracleJournal. intros H. head_case H eqn E1; [done|]. head_case H as [u|] eqn E2; [|done].
  destruct (loadOrInitialize _ _ _) as [f r] eqn:E. injection H as <- H. destruct r as [doc|]; [|done].
  injection H as <-. destruct (loaded_ok _ _ _ _ _ E (oracle_empty_ok profile)) as [Hok Hf]. simpl in *.
  split_and!; [|done|done]. split; [done|]. exists doc. split_and!; [done|done|reflexivity].
Qed.

(** *** The operations *)

Lemma vote_window_ok profile context base now expiry :
  vote_window profile context base now = Ok expiry -> now < expiry.
Proof.
  unfold vote_window. intros H. head_case H eqn E1.
  - head_case H eqn E2; [done|]. head_case H as [decoded|] eqn E3; [|done]. head_case H eqn E4; [done|].
    injection H as <-. bprop. lia.
  - head_case H eqn E2; [done|]. head_case H as [b|] eqn E3; [|done]. head_case H as [vote|] eqn E4; [|done].
    head_case H as [decoded|] eqn E5; [|done]. head_case H eqn E6; [done|]. injection H as <-. bprop. lia.
Qed.

(** What the preparation of a vote does: nothing, or commit a fresh record;
    a returned plan is always the plan of a record then held. *)
Lemma PrepareVote_cases e l boc base outcome evidence now l' r :
  PrepareVote e l boc base outcome evidence now = (l', r) ->
  (l' = l /\
   forall plan, r = Ok plan -> exists key prior, od_Votes (lg_doc l) !! key = Some prior /\
     plan = votePlan prior /\ ov_Outcome prior = outcome) \/
  (exists record r0, od_Votes (lg_doc l) !! ov_RoundContextHash record = None /\
     vote_ok (od_Profile (lg_doc l)) (ov_RoundContextHash record) record /\
     commit (persist e) l (with_vote (lg_doc l) (ov_RoundContextHash record) record) = (l', r0) /\
     forall plan, r = Ok plan -> r0 = Ok tt /\ plan = votePlan record /\ ov_Outcome record = outcome).
Proof.
  unfold PrepareVote. intros H.
  head_case H eqn E1; [injection H as <- <-; left; done|].
  head_case H eqn E2; [injection H as <- <-; left; done|].
  head_case H as [context|] eqn E3; [|injection H as <- <-; left; done].
  head_case H as [expiry|] eqn E4; [|injection H as <- <-; left; done].
  head_case H as [[entries ids]|] eqn E5; [|injection H as <- <-; left; done].
  head_case H as [manifest|] eqn E6; [|injection H as <- <-; left; done].
  head_case H as [prior|] eqn E7.
  { left. head_case H eqn E8; [injection H as <- <-; done|]. injection H as <- <-. split; [done|].
    intros plan [= <-]. bprop. eauto. }
  head_case H as [statement|] eqn E8; [|injection H as <- <-; left; done].
  destruct (commit _ _ _) as [l1 r0] eqn:Ec. injection H as <- <-. right.
  eexists _, r0. split_and!; [| | exact Ec|]; simpl; [done|done|].
  intros plan Hp. destruct r0 as [[]|]; [|done]. by injection Hp as <-.
Qed.

Lemma with_vote_ok profile d key record :
  oracle_ok profile d -> od_Votes d !! key = None -> vote_ok profile key record ->
  oracle_ok profile (with_vote d key record) /\ oracle_le d (with_vote d key record).
Proof.
  intros (Hs & Hp & Hv & Hc & Hn) Hk Hr. split.
  - split_and!; simpl; try done. by apply map_Forall_insert_2.
  - split_and!; simpl; [done| |reflexivity]. apply (map_le_insert eq). intros v0 Hv0. congruence.
Qed.

Lemma with_challenge_ok profile d key record :
  oracle_ok profile d -> size (od_Challenges d) = 0%nat -> challenge_ok key record ->
  oracle_ok profile (with_challenge d key record) /\ oracle_le d (with_challenge d key record).
Proof.
  intros (Hs & Hp & Hv & Hc & Hn) Hk Hr. apply map_size_empty_inv in Hk. split.
  - split_and!; simpl; try done; rewrite Hk; [by apply map_Forall_insert_2; [|apply map_Forall_empty]|].
    rewrite map_size_insert, lookup_empty, map_size_empty. simpl. lia.
  - split_and!; simpl; [done|reflexivity|]. rewrite Hk. intros k v Hkv. by rewrite lookup_empty in Hkv.
Qed.

(** The record of a challenge: a disagreement, for exactly the configured
    value, on evidence that verified. *)
Lemma challenge_record_ok w watcher is_open oracle observation evidence now record :
  watcher_typed watcher ->
  challenge_record w watcher is_open oracle observation evidence now = Ok (Some record) ->
  challenge_ok (oc_ProposedStatementHash record) record /\
  oc_ProposedOutcome record = po_ProposedOutcome observation /\
  oc_ProposedStatementHash record = po_ProposedStatementHash observation /\
  we_evaluate w (op_MarketID oracle) (op_RulesHash oracle) evidence = Ok (oc_CounterOutcome record) /\
  oc_RequiredMessageValue record =
    cw_ChallengeBond watcher + cw_ChallengeProcessingFee watcher + cw_OperationBudget watcher /\
  oc_RequiredMessageValue record <= MaxUint64 /\ now < oc_ChallengeDeadline record /\
  (is_u64 (op_AuditRetention oracle) -> Forall (evidence_valid oracle now) evidence).
Proof.
  intros [Hf Hb] H. unfold challenge_record in H. head_case H eqn E1; [done|]. head_case H eqn E2; [done|].
  head_case H as [[]|] eqn E3; [|done]. head_case H as [verified|] eqn E4; [|done].
  head_case H as [u|] eqn E5; [|done]. head_case H as [counter|] eqn E6; [|done].
  head_case H eqn E7; [done|]. head_case H eqn E8; [done|].
  head_case H as [marketID|] eqn E9; [|done]. head_case H as [rulesHash|] eqn E10; [|done].
  head_case H as [proposalHash|] eqn E11; [|done]. head_case H as [manifest|] eqn E12; [|done].
  destruct (add64 (cw_ChallengeBond watcher) _) as [req1 ok1] eqn:Ea1. head_case H eqn E13; [done|].
  destruct (add64 req1 _) as [req2 ok2] eqn:Ea2. head_case H eqn E14; [done|].
  head_case H as [digest|] eqn E15; [|done]. injection H as <-. simpl.
  assert (is_u64 (op_AuditRetention oracle) -> Forall (evidence_valid oracle now) evidence) as Hev
    by (intros Hu; by apply (verifyArchivedEvidence_ok _ _ _ verified Hu)).
  unfold validateProposedObservation in E3. head_case E3 eqn Eo; [done|]. bprop.
  destruct (add64_exact _ _ _ _ Hf Ea1) as [-> _]; [done|]. destruct (add64_exact _ _ _ _ Hb Ea2) as [-> Hmax]; [done|].
  match goal with H : is_err (validateChallengeWatcherProfile _) = false |- _ =>
    apply is_err_false_ok in H; unfold validateChallengeWatcherProfile in H; head_case H eqn Ew; [done|] end.
  bprop. unfold challenge_ok. simpl.
  split_and!; first [done|lia|congruence].
Qed.

Lemma commit_challenge_cases e l record l' r :
  commit_challenge e l record = (l', r) ->
  (l' = l /\ forall plan, r = Ok plan ->
     od_Challenges (lg_doc l) !! oc_ProposedStatementHash record = Some record /\ plan = challengePlan record) \/
  (exists r0, size (od_Challenges (lg_doc l)) = 0%nat /\
     commit (persist e) l (with_challenge (lg_doc l) (oc_ProposedStatementHash record) record) = (l', r0) /\
     forall plan, r = Ok plan -> r0 = Ok tt /\ plan = challengePlan record).
Proof.
  unfold commit_challenge. intros H. head_case H eqn E1; [injection H as <- <-; by left|].
  head_case H as [prior|] eqn E2.
  - head_case H eqn E3; injection H as <- <-; left; [done|]. bprop. subst prior. split; [done|].
    by intros plan [= <-].
  - head_case H eqn E3; [injection H as <- <-; by left|]. bprop.
    destruct (commit _ _ _) as [l1 r0] eqn:Ec. injection H as <- <-. right. exists r0.
    split_and!; [lia|done|]. intros plan Hp. destruct r0 as [[]|]; [|done]. by injection Hp as <-.
Qed.

(** *** Runs *)

Lemma oracle_step_outcome profile l l' : ledger_ok profile l -> step l l' -> outcome profile l l'.
Proof.
  intros Hl Hs. pose proof Hl as [Hd (df & Hf & Hdf & Hle)]. pose proof Hd as (_ & Hprof & _).
  destruct Hs as [e boc base outc evidence now r H|e w watcher observation evidence now record r Hty Hrec H|
    release r H|e d p file' H].
  - apply PrepareVote_cases in H as [[-> _]|(record & r0 & Hk & Hv & Hc & _)]; [constructor|].
    destruct (with_vote_ok profile (lg_doc l) _ record Hd Hk) as [Hok Hle2]; [by rewrite <-Hprof|].
    eapply outcome_commit; [apply (oracle_persist_ok e)|exact Hok|exact Hle2|exact Hc].
  - apply commit_challenge_cases in H as [[-> _]|(r0 & Hk & Hc & _)]; [constructor|].
    apply challenge_record_ok in Hrec as [Hch _]; [|done].
    destruct (with_challenge_ok profile (lg_doc l) _ record Hd Hk Hch) as [Hok Hle2].
    eapply outcome_commit; [apply (oracle_persist_ok e)|exact Hok|exact Hle2|exact Hc].
  - by eapply outcome_close.
  - rewrite Hf in H. unfold OpenOracleJournal in H. head_case H eqn E1; [done|].
    head_case H as [u|] eqn E2; [|done]. unfold loadOrInitialize in H. injection H as <- H.
    head_case H as [doc|] eqn E3; [|done]. injection H as <-.
    head_case E3 eqn E4; [done|]. head_case E3 as [u1|] eqn E5; [|done]. head_case E3 as [u2|] eqn E6; [|done].
    injection E3 as <-. apply (outcome_restart profile l df Hf).
Qed.

Lemma oracle_steps_ok profile l l' :
  ledger_ok profile l -> rtc step l l' -> ledger_ok profile l' /\ oracle_le (lg_doc l) (lg_doc l').
Proof.
  intros Hl Hr. change (ledger_ok profile l' /\ doc_le (lg_doc l) (lg_doc l')).
  refine (outcomes_ok profile step l l' _ Hr Hl).
  intros l1 l2 H1 H2. by apply oracle_step_outcome.
Qed.

Lemma oracle_reachable_ok profile l : reachable profile l -> ledger_ok profile l.
Proof.
  intros (e & d & file & file' & l0 & Ho & Hr). apply oracle_Open_ok in Ho as [Hl0 _].
  by eapply oracle_steps_ok.
Qed.

Lemma reachable_steps profile l l' : reachable profile l -> rtc step l l' -> reachable profile l'.
Proof. intros (e & d & file & file' & l0 & Ho & Hr) Hs. exists e, d, file, file', l0. split; [done|by etrans]. Qed.

(** After a successful vote the plan's record is in memory under its round
    context. *)
Lemma vote_recorded profile e l boc base outcome evidence now l' plan :
  ledger_ok profile l -> PrepareVote e l boc base outcome evidence now = (l', Ok plan) ->
  exists record, od_Votes (lg_doc l') !! vp_RoundContextHash plan = Some record /\ plan = votePlan record /\
    ov_Outcome record = outcome.
Proof.
  intros [(_ & _ & Hv & _) _] H. apply PrepareVote_cases in H as [[-> Hp]|(record & r0 & Hk & _ & Hc & Hp)].
  - destruct (Hp plan eq_refl) as (key & prior & Hkey & -> & Ho). exists prior.
    destruct (Hv key prior Hkey) as [Heq _]. split_and!; [|done|done]. simpl. by rewrite <-Heq.
  - destruct (Hp plan eq_refl) as (-> & -> & Ho). exists record.
    apply commit_cases in Hc as [_ [(_ & Hd & _)|(Hbad & _)]]; [|done|apply oracle_persist_ok].
    rewrite Hd. simpl. rewrite lookup_insert_eq. done.
Qed.

(** C9: the reporter never equivocates. Along every run from an opened
    journal, through failed writes, closings and restarts, two vote plans
    returned for the same round context are the same plan: same outcome,
    evidence root, statement bytes and times. *)
Theorem oracle_no_equivocation profile l e1 boc1 base1 outcome1 evidence1 now1 l1 plan1
    l2 e2 boc2 base2 outcome2 evidence2 now2 l3 plan2 :
  reachable profile l ->
  PrepareVote e1 l boc1 base1 outcome1 evidence1 now1 = (l1, Ok plan1) ->
  rtc step l1 l2 ->
  PrepareVote e2 l2 boc2 base2 outcome2 evidence2 now2 = (l3, Ok plan2) ->
  vp_RoundContextHash plan1 = vp_RoundContextHash plan2 ->
  plan1 = plan2 /\ outcome1 = outcome2.
Proof.
  intros Hl H1 Hr H2 Hctx. apply oracle_reachable_ok in Hl.
  assert (ledger_ok profile l1) as Hl1.
  { eapply (oracle_steps_ok profile l); [done|]. eapply rtc_once, step_vote. exact H1. }
  destruct (oracle_steps_ok profile l1 l2 Hl1 Hr) as [Hl2 (_ & Hle & _)].
  destruct (oracle_steps_ok profile l2 l3 Hl2) as [_ (_ & Hle3 & _)].
  { eapply rtc_once, step_vote. exact H2. }
  destruct (vote_recorded _ _ _ _ _ _ _ _ _ _ Hl H1) as (r1 & Hr1 & -> & <-).
  destruct (vote_recorded _ _ _ _ _ _ _ _ _ _ Hl2 H2) as (r2 & Hr2 & -> & <-).
  destruct (Hle _ _ Hr1) as (r1' & Hr1' & <-). destruct (Hle3 _ _ Hr1') as (r1'' & Hr1'' & <-).
  rewrite Hctx in Hr1''. rewrite Hr2 in Hr1''. by injection Hr1'' as ->.
Qed.

(** a vote rests on independently archived evidence. When a plan is
    returned, the journal is open, now lies before the deadline of the decoded
    round context, and every snapshot's content has its declared digest and
    carries at least two receipts of distinct admitted operators, each with a
    valid signature of that operator over this content and locator, stored
    between publication and now and retained until the claim deadline plus the
    audit period, an exact sum. *)
Theorem oracle_vote_evidence e l boc base outcome evidence now l' plan :
  is_u64 (op_AuditRetention (od_Profile (lg_doc l))) ->
  PrepareVote e l boc base outcome evidence now = (l', Ok plan) ->
  lg_lock l = true /\ evidence <> [] /\
  Forall (evidence_valid (od_Profile (lg_doc l)) now) evidence /\
  exists context expiry, canonicalCell boc 8192 = Ok context /\
    vote_window (od_Profile (lg_doc l)) context base now = Ok expiry /\ now < expiry.
Proof.
  unfold PrepareVote. intros Hu H. head_case H eqn E1; [done|]. head_case H eqn E2; [done|].
  head_case H as [context|] eqn E3; [|done]. head_case H as [expiry|] eqn E4; [|done].
  head_case H as [[entries ids]|] eqn E5; [|done]. bprop.
  apply verifyArchivedEvidence_ok in E5 as [Hev _]; [|done].
  split_and!; [done|intros ->; done|done|]. exists context, expiry.
  split_and!; [done|done|by eapply vote_window_ok].
Qed.

Lemma map_size_one {V} (m : gmap string V) k1 k2 v1 v2 :
  (size m <= 1)%nat -> m !! k1 = Some v1 -> m !! k2 = Some v2 -> k1 = k2.
Proof.
  intros Hs H1 H2. destruct (decide (k1 = k2)) as [|Hne]; [done|exfalso].
  assert (delete k1 m !! k2 = Some v2) as H3 by (by rewrite lookup_delete_ne).
  pose proof (map_size_delete k1 m) as Hd. rewrite H1 in Hd. simpl in Hd.
  assert (size (delete k1 m) = 0%nat) as H0 by lia. apply map_size_empty_inv in H0.
  by rewrite H0, lookup_empty in H3.
Qed.

Lemma challenge_step e w watcher l observation evidence now l' plan :
  watcher_typed watcher -> PrepareChallenge e w watcher l observation evidence now = (l', Ok (Some plan)) ->
  step l l' /\ exists record,
    challenge_record w watcher true (od_Profile (lg_doc l)) observation evidence now = Ok (Some record) /\
    od_Challenges (lg_doc l') !! oc_ProposedStatementHash record = Some record /\ plan = challengePlan record.
Proof.
  intros Hty H. unfold PrepareChallenge in H. head_case H as [[record|]|] eqn E1; [|done|done].
  assert (lg_lock l = true) as Hlock.
  { destruct (lg_lock l) eqn:El; [done|]. unfold challenge_record in E1. head_case E1 eqn E2; done. }
  rewrite Hlock in E1. destruct (commit_challenge e l record) as [l1 r] eqn:E2.
  injection H as <- H. destruct r as [plan1|]; [|done]. injection H as <-. split; [by eapply step_challenge|].
  exists record. split; [done|].
  apply commit_challenge_cases in E2 as [[-> Hp]|(r0 & _ & Hc & Hp)]; [by apply Hp|].
  destruct (Hp plan1 eq_refl) as [-> ->]. split; [|done].
  apply commit_cases in Hc as [_ [(_ & Hd & _)|(Hbad & _)]]; [|done|apply oracle_persist_ok].
  rewrite Hd. apply lookup_insert_eq.
Qed.

(** one challenge, for a real disagreement, at the exact price. A
    returned challenge plan is already in the journal and on disk; the
    evaluator's outcome on verified evidence differs from the proposed one,
    the deadline is ahead, and the value to send is the exact sum of bond, fee
    and budget; every plan returned later in the run is this same plan. *)
Theorem oracle_challenge_once profile e w watcher l observation evidence now l' plan :
  reachable profile l -> watcher_typed watcher -> is_u64 (op_AuditRetention profile) ->
  PrepareChallenge e w watcher l observation evidence now = (l', Ok (Some plan)) ->
  (exists record d, plan = challengePlan record /\
     od_Challenges (lg_doc l') = {[cp_ProposedStatementHash plan := record]} /\
     lg_file l' = FileDoc d /\ od_Challenges d !! cp_ProposedStatementHash plan = Some record) /\
  we_evaluate w (op_MarketID profile) (op_RulesHash profile) evidence = Ok (cp_CounterOutcome plan) /\
  cp_CounterOutcome plan <> po_ProposedOutcome observation /\
  cp_RequiredMessageValue plan =
    cw_ChallengeBond watcher + cw_ChallengeProcessingFee watcher + cw_OperationBudget watcher /\
  cp_RequiredMessageValue plan <= MaxUint64 /\ now < cp_ChallengeDeadline plan /\
  Forall (evidence_valid profile now) evidence /\
  (forall l2 e2 w2 watcher2 observation2 evidence2 now2 l3 plan2,
     rtc step l' l2 -> watcher_typed watcher2 ->
     PrepareChallenge e2 w2 watcher2 l2 observation2 evidence2 now2 = (l3, Ok (Some plan2)) ->
     plan2 = plan).
Proof.
  intros Hl Hty Hu H. apply oracle_reachable_ok in Hl. pose proof Hl as [(_ & Hprof & _) _].
  destruct (challenge_step _ _ _ _ _ _ _ _ _ Hty H) as (Hs & record & Hrec & Hk & ->).
  destruct (oracle_steps_ok profile l l' Hl (rtc_once _ _ Hs)) as [Hl' _].
  apply challenge_record_ok in Hrec as (Hch & Hpo & Hst & Hev & Hval & Hmax & Hdl & Hevi); [|done].
  rewrite Hprof in *. pose proof Hl' as [(_ & _ & _ & _ & Hn) (d & Hf & _ & (_ & _ & Hle))].
  destruct Hch as (_ & Hne & _). simpl. split_and!; [|done|congruence|done|done|done|auto|].
  - exists record, d. destruct (Hle _ _ Hk) as (r & Hr & <-). split_and!; [done| |done|done].
    apply map_eq. intros k. destruct (decide (k = oc_ProposedStatementHash record)) as [->|Hdiff].
    + by rewrite lookup_singleton_eq.
    + rewrite lookup_singleton_ne by done. destruct (od_Challenges (lg_doc l') !! k) eqn:E; [|done].
      exfalso. apply Hdiff. by eapply map_size_one.
  - intros l2 e2 w2 watcher2 observation2 evidence2 now2 l3 plan2 Hr Hty2 H2.
    destruct (oracle_steps_ok profile l' l2 Hl' Hr) as [Hl2 _].
    destruct (challenge_step _ _ _ _ _ _ _ _ _ Hty2 H2) as (Hs2 & record2 & _ & Hk2 & ->).
    destruct (oracle_steps_ok profile l' l3 Hl') as [[(_ & _ & _ & _ & Hn3) _] (_ & _ & Hle3)].
    { etrans; [exact Hr|by apply rtc_once]. }
    destruct (Hle3 _ _ Hk) as (r & Hr3 & <-). f_equal.
    assert (oc_ProposedStatementHash record = oc_ProposedStatementHash record2) as Heq by (by eapply map_size_one).
    rewrite Heq in Hr3. congruence.
Qed.

(** a second vote locks the journal out. [PrepareVote] does not limit
    the number of round contexts, but [loadOrInitialize] accepts at most one
    vote; when a vote succeeds in a journal that already holds one for another
    context, the file it leaves cannot be opened again, under any profile. *)
Theorem oracle_second_vote_unopenable profile e l boc base outcome evidence now l' plan key prior
    e' d profile' :
  reachable profile l ->
  od_Votes (lg_doc l) !! key = Some prior -> key <> vp_RoundContextHash plan ->
  PrepareVote e l boc base outcome evidence now = (l', Ok plan) ->
  is_err (OpenOracleJournal e' d (lg_file l') profile').2 = true.
Proof.
  intros Hl Hk Hne H. apply oracle_reachable_ok in Hl.
  destruct (oracle_steps_ok profile l l' Hl) as [Hl' (_ & Hle & _)]; [by eapply rtc_once, step_vote|].
  destruct (vote_recorded _ _ _ _ _ _ _ _ _ _ Hl H) as (record & Hr & _ & _).
  destruct (Hle _ _ Hk) as (prior' & Hk' & <-).
  destruct Hl' as [_ (df & Hf & _ & (_ & Hlf & _))].
  destruct (Hlf _ _ Hk') as (p2 & Hp2 & _). destruct (Hlf _ _ Hr) as (r2 & Hr2 & _).
  assert (1 < size (od_Votes df))%nat as Hsz.
  { destruct (decide (size (od_Votes df) <= 1)%nat) as [Hs|]; [|lia]. exfalso. apply Hne. by eapply map_size_one. }
  unfold OpenOracleJournal. rewrite Hf. destruct (is_err (validateOracleProfile profile')); [done|].
  destruct (openPrivateLockedDirectory d); [|done]. unfold loadOrInitialize.
  rewrite (proj2 (N.ltb_lt 1 (N.of_nat (size (od_Votes df))))) by lia. by rewrite orb_true_r.
Qed.

End operations.

(** ** Witnesses *)

Module Samples.
Import Fixtures.

Definition first_byte (s : string) : N := match s with String c _ => byte_of c | EmptyString => 0 end.

Fixpoint byte_sum (s : string) : N :=
  match s with EmptyString => 0 | String c rest => byte_of c + byte_sum rest end.

(** A hash that tells the sample keys and contents apart. *)
#[local] Instance sample_sha : Sha256 := {| sha256_Sum256 := fun s => hash (byte_sum s mod 256) |}.

(** The public key of a private key, and a signature that names both the
    digest and the key. *)
#[global] Instance sample_ed : Ed25519 := {|
  ed_Public := fun k => hash (first_byte k);
  ed_Sign := fun k d => d +:+ hash (first_byte k);
  ed_Verify := fun pk d s => bool_decide (s = d +:+ pk)
|}.

(** Contexts of the sample market, open from 100 to 1000. The encoding of a
    manifest or statement tells the outcome, the context, and for a statement
    the evidence root and the time; the rest is that of the sample market. *)
Definition entry : EvidenceEntryV1 :=
  {| en_SourceKind := 1; en_CanonicalSourceID := "https://weather"; en_ContentDigest := sha256_Sum256 "rain";
     en_ArchiveLocator := "tos-cas-sha256:" +:+ hex_EncodeToString (sha256_Sum256 "rain");
     en_PublicationTimeSeconds := 120; en_EventTimeSeconds := 110; en_ParserProfileVersion := "1" |}.

Fixpoint cell_of (bytes : list N) : string :=
  match bytes with [] => EmptyString | b :: bytes => String (of_byte b) (cell_of bytes) end.

Definition decode_manifest (c : string) : result PredictionEvidenceManifestV1 :=
  match c with
  | String outcome (String context EmptyString) =>
      Ok {| mf_MarketID := hash 12; mf_RulesHash := hash 13; mf_RoundContextHash := hash (byte_of context);
            mf_Outcome := byte_of outcome - 100; mf_Entries := [entry] |}
  | _ => Err "not a sample manifest"
  end.

Definition decode_statement (c : string) : result PredictionResolutionStatementV1 :=
  match c with
  | String outcome (String context (String root (String created EmptyString))) =>
      Ok {| st_GlobalID := 1; st_MarketAddress := addr 7; st_MarketID := hash 12; st_RulesHash := hash 13;
            st_RoundPolicyHash := hash 14; st_RoundContextHash := hash (byte_of context); st_Round := 1;
            st_Outcome := byte_of outcome - 200; st_EvidenceRoot := hash (byte_of root);
            st_StatementCreatedAt := byte_of created; st_StatementExpiry := 1000 |}
  | _ => Err "not a sample statement"
  end.

#[global] Instance sample_oracle : OracleProtocol := {|
  RoundNormal := 1; RoundAppeal := 2; OutcomeInvalid := 3; SourceHTTPS := 1; MaxEvidenceEntries := 8;
  cell_Hash32 := fun c => hash (first_byte c);
  ValidateTradingPublicKey := fun _ => Ok tt;
  DecodePredictionNormalContextV1 := fun _ =>
    Ok {| nc_MarketID := hash 12; nc_RulesHash := hash 13; nc_ResolveNotBefore := 100;
          nc_NormalRoundOpenedAt := 100; nc_OracleVoteDeadline := 1000 |};
  DecodePredictionReviewVoteContextV1 := fun _ => Err "not a review";
  DecodePredictionReviewBaseContextV1 := fun _ => Err "not a review";
  BuildPredictionEvidenceManifestCell := fun m =>
    Ok (cell_of [100 + mf_Outcome m; first_byte (mf_RoundContextHash m)]);
  DecodePredictionEvidenceManifestV1 := decode_manifest;
  BuildPredictionChallengeEvidenceManifestCell := fun m =>
    Ok (String (of_byte (150 + cf_CounterOutcome m)) EmptyString);
  DecodePredictionChallengeEvidenceManifestV1 := fun _ => Err "not decoded here";
  BuildPredictionResolutionStatementCell := fun st =>
    Ok (cell_of [200 + st_Outcome st; first_byte (st_RoundContextHash st); first_byte (st_EvidenceRoot st);
                 st_StatementCreatedAt st]);
  DecodePredictionResolutionStatementV1 := decode_statement
|}.

Definition operator (b : N) : ArchiveAuthority :=
  {| au_OperatorID := "sha256:" +:+ hex_EncodeToString (sha256_Sum256 (hash b)); au_PublicKey := hash b |}.

Definition profile : OracleProfile :=
  {| op_GlobalID := 1; op_MarketAddress := addr 7; op_MarketID := tvm 12; op_RulesHash := sha 13;
     op_RoundPolicyHash := tvm 14; op_ReporterAddress := addr 9; op_Round := 1; op_ClaimDeadline := 5000;
     op_AuditRetention := 86400; op_ArchiveAuthorities := [operator 1; operator 2] |}.

Definition content : string := "rain".
Definition content_digest : Hash32 := sha256_Sum256 content.
Definition locator : string := "tos-cas-sha256:" +:+ hex_EncodeToString content_digest.

Definition receipt (b : N) : ArchiveReceipt :=
  match SignArchiveReceipt (bytes 64 b) content_digest locator 150 91400 with
  | Ok r => r
  | Err _ => unsigned_receipt "" "" "" 0 0 ""
  end.

Definition evidence : list ArchivedEvidence :=
  [{| ae_Entry := entry; ae_Content := content; ae_Receipts := [receipt 1; receipt 2] |}].

Definition context (b : N) : string := String (of_byte b) EmptyString.

Definition journal0 : OracleJournal :=
  {| lg_file := FileDoc (emptyDocument profile); lg_lock := true; lg_doc := emptyDocument profile |}.

Definition vote (b outcome : N) (l : OracleJournal) : OracleJournal * result OracleVotePlan :=
  PrepareVote io_good l (context b) "" outcome evidence 200.

Definition watcher : ChallengeWatcherProfile :=
  {| cw_NetworkDomainHash := sha 21; cw_MarketConfigHash := tvm 22; cw_ContractCodeHash := tvm 23;
     cw_ChallengeBond := 1000; cw_ChallengeProcessingFee := 20; cw_OperationBudget := 3;
     cw_MaximumSnapshotAge := 60 |}.

Definition observation : ProposedMarketObservation :=
  {| po_Status := 2; po_NetworkDomainHash := sha 21; po_MarketID := tvm 12; po_MarketAddress := addr 7;
     po_RulesHash := sha 13; po_MarketConfigHash := tvm 22; po_ContractCodeHash := tvm 23;
     po_ProposedStatementHash := tvm 30; po_ProposedOutcome := 2; po_ChallengeDeadline := 900;
     po_ObservedAt := 190; po_FinalityViewID := sha 31; po_QuorumFinalized := true |}.

(** An evaluator that says yes. *)
Definition evaluator : watcher_env :=
  {| we_digest := fun _ _ => Ok (sha 40); we_context := Ok tt; we_evaluate := fun _ _ _ => Ok 1 |}.

Definition challenge (l : OracleJournal) : OracleJournal * result (option ChallengePlan) :=
  PrepareChallenge io_good evaluator watcher l observation evidence 200.

Definition vote1 := Eval vm_compute in vote 65 1 journal0.
Definition vote2 := Eval vm_compute in vote 66 1 vote1.1.
Definition challenge1 := Eval vm_compute in challenge journal0.
Definition plan1 : OracleVotePlan := Eval vm_compute in
  match vote1.2 with Ok p => p | Err _ => votePlan {| ov_Round := 0; ov_Outcome := 0; ov_RoundContextHash := "";
    ov_EvidenceRoot := ""; ov_StatementHash := ""; ov_EvidenceManifestBOC := ""; ov_StatementBOC := "";
    ov_StatementCreatedAt := 0; ov_StatementExpiry := 0; ov_ArchiveReceiptDigests := [] |} end.

Lemma vote1_eq : vote 65 1 journal0 = vote1.
Proof. vm_compute. reflexivity. Qed.

Lemma vote2_eq : vote 66 1 vote1.1 = vote2.
Proof. vm_compute. reflexivity. Qed.

Lemma vote1_again : vote 65 1 vote1.1 = vote1.
Proof. vm_compute. reflexivity. Qed.

Lemma journal0_reachable : reachable profile journal0.
Proof.
  exists io_good, dir_good, FileAbsent, (FileDoc (emptyDocument profile)), journal0.
  split; [vm_compute; reflexivity|constructor].
Qed.

Lemma vote1_reachable : reachable profile vote1.1.
Proof.
  eapply reachable_steps; [exact journal0_reachable|]. apply rtc_once.
  apply (step_vote journal0 vote1.1 io_good (context 65) "" 1 evidence 200 vote1.2). exact vote1_eq.
Qed.

Lemma retention_u64 : is_u64 (op_AuditRetention profile).
Proof. unfold is_u64, MaxUint64. simpl. lia. Qed.

(** A vote on another context whose write fails, a restart from the file, and
    the first vote asked for again, later. *)
Definition io_torn : io oracleDocument :=
  {| io_marshal := fun _ => Some 100; io_fails := fun s => bool_decide (s = RenameTemp) |}.
Definition torn := Eval vm_compute in PrepareVote io_torn vote1.1 (context 66) "" 1 evidence 210.
Definition reopened : OracleJournal := Eval vm_compute in
  match (OpenOracleJournal io_good dir_good (lg_file torn.1) profile).2 with Ok l => l | Err _ => journal0 end.
Definition vote_again := Eval vm_compute in PrepareVote io_good reopened (context 65) "" 1 evidence 300.
Definition plan_again : OracleVotePlan := Eval vm_compute in match vote_again.2 with Ok p => p | Err _ => plan1 end.

Lemma torn_run : rtc step vote1.1 reopened.
Proof.
  eapply rtc_l; [apply (step_vote vote1.1 torn.1 io_torn (context 66) "" 1 evidence 210 torn.2); vm_compute; reflexivity|].
  apply rtc_once. apply (step_restart torn.1 reopened io_good dir_good profile (lg_file torn.1)).
  vm_compute. reflexivity.
Qed.

(** The second call, after the failed vote and the restart, returns the plan of
    the first; a different outcome is refused. *)
Lemma oracle_no_equivocation_witness :
  PrepareVote io_good journal0 (context 65) "" 1 evidence 200 = (vote1.1, Ok plan1) /\
  is_err torn.2 = true /\ rtc step vote1.1 reopened /\
  PrepareVote io_good reopened (context 65) "" 1 evidence 300 = (vote_again.1, Ok plan_again) /\
  vp_Outcome plan1 = 1 /\ plan1 = plan_again /\
  (PrepareVote io_good reopened (context 65) "" 2 evidence 300).2
    = Err "oracle equivocation: round context already committed to another statement".
Proof.
  assert (PrepareVote io_good reopened (context 65) "" 1 evidence 300 = (vote_again.1, Ok plan_again)) as Hagain
    by (vm_compute; reflexivity).
  split; [exact vote1_eq|]. split; [vm_compute; reflexivity|]. split; [exact torn_run|]. split; [exact Hagain|].
  split; [reflexivity|]. split; [|vm_compute; reflexivity].
  exact (proj1 (oracle_no_equivocation profile journal0 io_good (context 65) "" 1 evidence 200 vote1.1 plan1
    reopened io_good (context 65) "" 1 evidence 300 vote_again.1 plan_again journal0_reachable vote1_eq
    torn_run Hagain eq_refl)).
Defined.

Lemma oracle_vote_evidence_witness :
  lg_lock journal0 = true /\ evidence <> [] /\ Forall (evidence_valid profile 200) evidence /\
  exists cell expiry, canonicalCell (context 65) 8192 = Ok cell /\
    vote_window profile cell "" 200 = Ok expiry /\ 200 < expiry.
Proof.
  exact (oracle_vote_evidence io_good journal0 (context 65) "" 1 evidence 200 vote1.1 plan1
    retention_u64 vote1_eq).
Defined.

Definition challenge_plan1 : ChallengePlan :=
  {| cp_ProposedStatementHash := tvm 30; cp_ProposedOutcome := 2; cp_CounterOutcome := 1;
     cp_CounterEvidenceRoot := tvm 151; cp_EvidenceManifestBOC := String (of_byte 151) EmptyString;
     cp_RequiredMessageValue := 1023; cp_ChallengeDeadline := 900; cp_FinalityViewID := sha 31;
     cp_ArchiveReceiptDigests := [sha 66; sha 98] |}.

Lemma challenge1_eq : challenge journal0 = (challenge1.1, Ok (Some challenge_plan1)).
Proof. vm_compute. reflexivity. Qed.

Lemma watcher_is_typed : watcher_typed watcher.
Proof. split; unfold is_u64, MaxUint64; simpl; lia. Qed.

Lemma oracle_challenge_once_witness :
  cp_RequiredMessageValue challenge_plan1 = 1000 + 20 + 3 /\
  cp_CounterOutcome challenge_plan1 <> po_ProposedOutcome observation.
Proof.
  destruct (oracle_challenge_once profile io_good evaluator watcher journal0 observation evidence 200
    challenge1.1 challenge_plan1 journal0_reachable watcher_is_typed retention_u64 challenge1_eq)
    as (_ & _ & Hne & Hv & _).
  exact (conj Hv Hne).
Defined.

Lemma oracle_second_vote_unopenable_witness :
  is_err (OpenOracleJournal io_good dir_good (lg_file vote2.1) profile).2 = true.
Proof.
  apply (oracle_second_vote_unopenable profile io_good vote1.1 (context 66) "" 1 evidence 200 vote2.1
    {| vp_Round := 1; vp_Outcome := 1; vp_RoundContextHash := tvm 66; vp_EvidenceRoot := tvm 101;
       vp_StatementHash := tvm 201; vp_EvidenceManifestBOC := cell_of [101; 66];
       vp_StatementBOC := cell_of [201; 66; 101; 200]; vp_StatementCreatedAt := 200;
       vp_StatementExpiry := 1000; vp_ArchiveReceiptDigests := [sha 66; sha 98] |}
    (tvm 65)
    {| ov_Round := 1; ov_Outcome := 1; ov_RoundContextHash := tvm 65; ov_EvidenceRoot := tvm 101;
       ov_StatementHash := tvm 201; ov_EvidenceManifestBOC := base64_EncodeToString (cell_of [101; 65]);
       ov_StatementBOC := base64_EncodeToString (cell_of [201; 65; 101; 200]);
       ov_StatementCreatedAt := 200; ov_StatementExpiry := 1000;
       ov_ArchiveReceiptDigests := [sha 66; sha 98] |} io_good dir_good profile vote1_reachable).
  - vm_compute. reflexivity.
  - vm_compute. discriminate.
  - vm_compute. reflexivity.
Defined.

End Samples.

End Oracle.
