(* ===== verification/Opportunity.v ===== *)
(** * The opportunity journal (src/pkg/opportunity/types.go, journal.go)

    OpenFox keeps a bounded projection of the capabilities it could buy: one
    record per candidate, from discovery through finalized verification and
    local assessment to the mirrored progress of a purchase that another
    process owns. This file models the data with its validators and the
    durable journal; the scheduler and the wire protocol are in OppService.v
    and OppWire.v. *)

From S2P Require Import Prelude GoLib GoText FileStore Ledger Protocol Fixtures.
#[local] Open Scope N_scope.

Module Opportunity.

(** ** types.go *)

(** [Mode] and [Phase] are strings in the source; the last constructor is any
    other string. *)
Inductive Mode := ModeOff | ModeObserve | ModePolicyGated | ModeOther (value : string).

#[global] Instance Mode_eq_dec : EqDecision Mode.
Proof. solve_decision. Defined.

Inductive Phase :=
| PhaseDiscovered | PhaseVerified | PhaseAssessed | PhaseQuoteRequested | PhaseQuoteVerified
| PhasePolicyAuthorized | PhasePurchaseReferenced | PhasePurchaseResolved | PhaseFailed
| PhaseOther (value : string).

#[global] Instance Phase_eq_dec : EqDecision Phase.
Proof. solve_decision. Defined.

Record Network := {
  nw_ID : string;
  nw_GenesisRootHash : string;
  nw_GenesisFileHash : string
}.

#[global] Instance Network_eq_dec : EqDecision Network.
Proof. solve_decision. Defined.

Record CandidateKey := {
  ck_Network : Network;
  ck_CapabilityID : string;
  ck_Version : string;
  ck_ManifestDigest : string;
  ck_ProviderAgentID : string
}.

#[global] Instance CandidateKey_eq_dec : EqDecision CandidateKey.
Proof. solve_decision. Defined.

Record CandidateHint := {
  ch_Key : CandidateKey;
  ch_GatewayIDs : list string;
  ch_GatewayMatchScore : N;
  ch_HintCheckpoint : N;
  ch_DisplayName : string;
  ch_DisplayDescription : string;
  ch_OperationHint : string
}.

Record VerifiedCandidate := {
  vf_Key : CandidateKey;
  vf_FinalizedCheckpoint : N;
  vf_TVMStateHash : string;
  vf_Operation : string;
  vf_ManifestName : string;
  vf_VerifiedAtUnix : Z
}.

Record Assessment := {
  as_Eligible : bool;
  as_Score : N;
  as_Reason : string;
  as_AssessedAtUnix : Z
}.

Record SearchRequest := {
  sr_RequestID : string;
  sr_Query : string;
  sr_PageSize : N;
  sr_MaxCandidates : N;
  sr_DeadlineUnixMS : Z
}.

Record PurchaseKey := {
  pk_QuoteCommitment : string;
  pk_EscrowAddress : string
}.

#[global] Instance PurchaseKey_eq_dec : EqDecision PurchaseKey.
Proof. solve_decision. Defined.

Record PurchaseRequest := {
  pr_IntentID : string;
  pr_Current : Phase;
  pr_Candidate : VerifiedCandidate;
  pr_Key : option PurchaseKey
}.

Record PurchaseProgress := {
  pp_IntentID : string;
  pp_CandidateKey : CandidateKey;
  pp_Phase : Phase;
  pp_Key : option PurchaseKey;
  pp_AuthoritativePhase : string;
  pp_AssetMaster : string;
  pp_AtomicAmount : string;
  pp_QuoteExpiryUnix : Z;
  pp_FinalizedCheckpoint : N;
  pp_Released : bool;
  pp_Refunded : bool
}.

(** Durations are nanoseconds. *)
Record Config := {
  cf_Mode : Mode;
  cf_Queries : list string;
  cf_Interval : Z;
  cf_Jitter : Z;
  cf_RequestTimeout : Z;
  cf_PageSize : N;
  cf_MaxCandidates : N;
  cf_AllowedOperations : list string;
  cf_AllowedProviders : list string;
  cf_DeniedProviders : list string
}.

Definition agentPattern (s : string) : bool := hex64_pattern "agent_" s.
Definition capabilityPattern (s : string) : bool := hex64_pattern "cap_" s.
Definition digestPattern (s : string) : bool :=
  hex64_pattern "sha256:" s || hex64_pattern "tvm-cell-sha256:" s.
Definition requestPattern (s : string) : bool := hex64_pattern "opp-request_" s.

(** [^[A-Za-z0-9][A-Za-z0-9._-]{0,63}$] *)
Definition versionPattern (s : string) : bool :=
  match s with
  | EmptyString => false
  | String c rest =>
      is_alnum (byte_of c) && (slen rest <=? 63)
      && all_bytes (fun b => is_alnum b || (b =? 46) || (b =? 95) || (b =? 45)) rest
  end.

(** A rune outside ASCII, or an invalid byte, is in neither of these classes,
    so ranging over runes and ranging over bytes agree. *)
Definition positiveDecimal (value : string) : bool :=
  match value with
  | EmptyString => false
  | String c _ =>
      if (78 <? slen value) || (byte_of c =? 48) then false else all_bytes is_digit value
  end.

Definition boundedText (value : string) (min max : N) : bool :=
  (min <=? slen value) && (slen value <=? max) && bool_decide (TrimSpace value = value)
  && negb (ContainsByte value 0 || ContainsByte value 13).

(** Letters, digits and [._:-]. *)
Definition token_byte (b : N) : bool :=
  is_lower b || is_upper b || is_digit b || (b =? 46) || (b =? 95) || (b =? 58) || (b =? 45).

Definition boundedToken (value : string) (max : N) : bool :=
  if bool_decide (value = ""%string) || (max <? slen value)
     || negb (bool_decide (TrimSpace value = value))
  then false
  else all_bytes token_byte value.

Fixpoint sorted_values (valid : string -> bool) (previous : option string) (values : list string)
    : result unit :=
  match values with
  | [] => Ok tt
  | value :: rest =>
      if negb (valid value)
         || match previous with Some p => str_le value p | None => false end
      then Err "values must be valid, sorted, and unique"
      else sorted_values valid (Some value) rest
  end.

Definition validateSorted (values : list string) (max : N) (valid : string -> bool) : result unit :=
  if max <? llen values then Err "too many values" else sorted_values valid None values.

(** The last loop of [Config.Validate]: a provider both allowed and denied. *)
Definition both_allowed_and_denied (c : Config) : bool :=
  existsb (fun provider =>
             bool_decide (cf_DeniedProviders c !! SearchStrings (cf_DeniedProviders c) provider
                          = Some provider))
    (cf_AllowedProviders c).

Definition Config_Validate (c : Config) : result unit :=
  match cf_Mode c with
  | ModeOther _ => Err "opportunity mode must be off, observe, or policy-gated"
  | ModeOff =>
      if negb (llen (cf_Queries c) =? 0) || negb (cf_Interval c =? 0)%Z || negb (cf_Jitter c =? 0)%Z
         || negb (cf_RequestTimeout c =? 0)%Z || negb (cf_PageSize c =? 0)
         || negb (cf_MaxCandidates c =? 0) || negb (llen (cf_AllowedOperations c) =? 0)
         || negb (llen (cf_AllowedProviders c) =? 0) || negb (llen (cf_DeniedProviders c) =? 0)
      then Err "disabled opportunity mode carries unused settings"
      else Ok tt
  | _ =>
      if (llen (cf_Queries c) =? 0) || (16 <? llen (cf_Queries c))
         || (cf_Interval c <? 5 * Minute)%Z || (24 * Hour <? cf_Interval c)%Z
         || (cf_Jitter c <? 0)%Z || (Z.quot (cf_Interval c) 2 <? cf_Jitter c)%Z
         || (cf_RequestTimeout c <? Second)%Z || (Minute <? cf_RequestTimeout c)%Z
         || (cf_PageSize c =? 0) || (100 <? cf_PageSize c)
         || (cf_MaxCandidates c =? 0) || (1000 <? cf_MaxCandidates c)
      then Err "opportunity scheduler bounds are invalid"
      else if negb (forallb (fun query => boundedText query 1 256) (cf_Queries c))
      then Err "opportunity query is invalid"
      else if is_err (validateSorted (cf_AllowedOperations c) 32 (fun v => boundedToken v 64))
      then Err "allowed opportunity operations are invalid"
      else if is_err (validateSorted (cf_AllowedProviders c) 256 agentPattern)
      then Err "allowed opportunity providers are invalid"
      else if is_err (validateSorted (cf_DeniedProviders c) 256 agentPattern)
      then Err "denied opportunity providers are invalid"
      else if both_allowed_and_denied c then Err "opportunity provider is both allowed and denied"
      else Ok tt
  end.

Definition validateKey (key : CandidateKey) : bool :=
  boundedToken (nw_ID (ck_Network key)) 128
  && digestPattern ("sha256:" +:+ nw_GenesisRootHash (ck_Network key))
  && digestPattern ("sha256:" +:+ nw_GenesisFileHash (ck_Network key))
  && capabilityPattern (ck_CapabilityID key) && versionPattern (ck_Version key)
  && HasPrefix (ck_ManifestDigest key) "sha256:" && digestPattern (ck_ManifestDigest key)
  && agentPattern (ck_ProviderAgentID key).

Definition validateHint (h : CandidateHint) : bool :=
  if negb (validateKey (ch_Key h)) || (ch_HintCheckpoint h =? 0)
     || (llen (ch_GatewayIDs h) =? 0) || (32 <? llen (ch_GatewayIDs h))
     || negb (boundedText (ch_DisplayName h) 0 128)
     || negb (boundedText (ch_DisplayDescription h) 0 2048)
     || negb (boundedText (ch_OperationHint h) 0 64)
  then false
  else is_ok (validateSorted (ch_GatewayIDs h) 32 (fun v => boundedToken v 128)).

Definition validateVerified (v : VerifiedCandidate) : bool :=
  validateKey (vf_Key v) && (0 <? vf_FinalizedCheckpoint v)
  && HasPrefix (vf_TVMStateHash v) "tvm-cell-sha256:" && digestPattern (vf_TVMStateHash v)
  && boundedToken (vf_Operation v) 64 && boundedText (vf_ManifestName v) 1 128
  && (0 <? vf_VerifiedAtUnix v)%Z.

Definition validatePurchaseKey (key : PurchaseKey) : bool :=
  HasPrefix (pk_QuoteCommitment key) "tvm-cell-sha256:" && digestPattern (pk_QuoteCommitment key)
  && boundedToken (pk_EscrowAddress key) 96.

(** ** journal.go: validation *)

Definition journalSchema : string := "tos.openfox.opportunity-journal.v1".
Definition maxJournalBytes : N := 16777216.

Definition regexpIntent (value : string) : bool :=
  (slen value =? 68) && HasPrefix value "opp_" && digestPattern ("sha256:" +:+ skip 4 value).

Definition terms_ok (progress : PurchaseProgress) : bool :=
  boundedToken (pp_AssetMaster progress) 96 && positiveDecimal (pp_AtomicAmount progress)
  && (0 <? pp_QuoteExpiryUnix progress)%Z.

Definition validatePurchaseProgress (progress : PurchaseProgress) : bool :=
  if negb (regexpIntent (pp_IntentID progress)) || negb (validateKey (pp_CandidateKey progress))
  then false
  else
    match pp_Phase progress with
    | PhaseQuoteVerified | PhasePolicyAuthorized =>
        bool_decide (pp_Key progress = None) && terms_ok progress
        && bool_decide (pp_AuthoritativePhase progress = ""%string)
        && (pp_FinalizedCheckpoint progress =? 0)
        && negb (pp_Released progress) && negb (pp_Refunded progress)
    | PhasePurchaseReferenced =>
        match pp_Key progress with Some key => validatePurchaseKey key | None => false end
        && boundedToken (pp_AuthoritativePhase progress) 64 && terms_ok progress
        && negb (pp_Released progress) && negb (pp_Refunded progress)
    | PhasePurchaseResolved =>
        match pp_Key progress with Some key => validatePurchaseKey key | None => false end
        && bool_decide (pp_AuthoritativePhase progress = "resolved"%string) && terms_ok progress
        && (0 <? pp_FinalizedCheckpoint progress)
        && xorb (pp_Released progress) (pp_Refunded progress)
    | _ => false
    end.

(** [Record] of journal.go. *)
Record JournalRecord := {
  rc_IntentID : string;
  rc_Phase : Phase;
  rc_Hint : CandidateHint;
  rc_Verified : option VerifiedCandidate;
  rc_Assessment : option Assessment;
  rc_Purchase : option PurchaseProgress;
  rc_Failure : string;
  rc_DiscoveredUnix : Z;
  rc_UpdatedUnix : Z
}.

Record journalDocument := {
  jd_Schema : string;
  jd_Records : list JournalRecord
}.

Record Journal := {
  jn_file : file_state journalDocument;
  jn_records : gmap string JournalRecord;
  jn_byKey : gmap string string
}.

(** The record carries a valid verification of its own candidate. *)
Definition verified_ok (record : JournalRecord) : bool :=
  match rc_Verified record with
  | Some v => validateVerified v && bool_decide (vf_Key v = ch_Key (rc_Hint record))
  | None => false
  end.

Definition assessment_ok (record : JournalRecord) : bool :=
  match rc_Assessment record with
  | Some a => (0 <? as_AssessedAtUnix a)%Z && boundedText (as_Reason a) 1 512
  | None => false
  end.

Definition eligible (record : JournalRecord) : bool :=
  match rc_Assessment record with Some a => as_Eligible a | None => false end.

Definition validAssessedPurchaseBase (record : JournalRecord) : bool :=
  verified_ok record && eligible record && assessment_ok record
  && bool_decide (rc_Failure record = ""%string).

Definition validFailedRecord (record : JournalRecord) : bool :=
  if negb (boundedText (rc_Failure record) 1 512) then false
  else
    match rc_Purchase record with
    | None => true
    | Some p =>
        bool_decide (pp_Key p = None) && validatePurchaseProgress p
        && (bool_decide (pp_Phase p = PhaseQuoteVerified)
            || bool_decide (pp_Phase p = PhasePolicyAuthorized))
    end.

Definition is_none {A} (o : option A) : bool := match o with None => true | Some _ => false end.

Definition validRecord (record : JournalRecord) : bool :=
  if negb (regexpIntent (rc_IntentID record)) || negb (validateHint (rc_Hint record))
     || (rc_DiscoveredUnix record <=? 0)%Z
     || (rc_UpdatedUnix record <? rc_DiscoveredUnix record)%Z
  then false
  else
    match rc_Phase record with
    | PhaseDiscovered =>
        is_none (rc_Verified record) && is_none (rc_Assessment record) && is_none (rc_Purchase record)
        && bool_decide (rc_Failure record = ""%string)
    | PhaseVerified =>
        verified_ok record && is_none (rc_Assessment record) && is_none (rc_Purchase record)
        && bool_decide (rc_Failure record = ""%string)
    | PhaseAssessed =>
        verified_ok record && assessment_ok record && is_none (rc_Purchase record)
        && bool_decide (rc_Failure record = ""%string)
    | PhaseQuoteRequested => validAssessedPurchaseBase record && is_none (rc_Purchase record)
    | PhaseQuoteVerified | PhasePolicyAuthorized | PhasePurchaseReferenced | PhasePurchaseResolved =>
        validAssessedPurchaseBase record
        && match rc_Purchase record, rc_Verified record with
           | Some p, Some v =>
               validatePurchaseProgress p && bool_decide (pp_IntentID p = rc_IntentID record)
               && bool_decide (pp_CandidateKey p = vf_Key v)
               && bool_decide (pp_Phase p = rc_Phase record)
           | _, _ => false
           end
    | PhaseFailed => validFailedRecord record
    | PhaseOther _ => false
    end.

Definition validPurchaseTransition (from to : Phase) : bool :=
  match from with
  | PhaseQuoteRequested => bool_decide (to = PhaseQuoteVerified)
  | PhaseQuoteVerified => bool_decide (to = PhasePolicyAuthorized)
  | PhasePolicyAuthorized => bool_decide (to = PhasePurchaseReferenced)
  | PhasePurchaseReferenced =>
      bool_decide (to = PhasePurchaseReferenced) || bool_decide (to = PhasePurchaseResolved)
  | _ => false
  end.

(** wire.go *)
Definition validatePurchaseRequest (request : PurchaseRequest) : bool :=
  if negb (regexpIntent (pr_IntentID request)) || negb (validateVerified (pr_Candidate request)) then false
  else
    match pr_Current request with
    | PhaseQuoteRequested | PhaseQuoteVerified | PhasePolicyAuthorized => is_none (pr_Key request)
    | PhasePurchaseReferenced =>
        match pr_Key request with Some key => validatePurchaseKey key | None => false end
    | _ => false
    end.

Definition keyString (key : CandidateKey) : string :=
  nw_ID (ck_Network key) +:+ sep 0 +:+ nw_GenesisRootHash (ck_Network key)
  +:+ sep 0 +:+ nw_GenesisFileHash (ck_Network key) +:+ sep 0 +:+ ck_CapabilityID key
  +:+ sep 0 +:+ ck_Version key +:+ sep 0 +:+ ck_ManifestDigest key
  +:+ sep 0 +:+ ck_ProviderAgentID key.

(** ** journal.go: the journal *)

Definition document (records : gmap string JournalRecord) : journalDocument :=
  {| jd_Schema := journalSchema; jd_Records := sort_by rc_IntentID (map_vals records) |}.

Definition persist (e : io journalDocument) (file : file_state journalDocument)
    (records : gmap string JournalRecord) : file_state journalDocument * result unit :=
  persist_bounded e maxJournalBytes "encode opportunity journal" (document records) file.

(** The loop of [load] over the decoded records. *)
Fixpoint load_records (records : gmap string JournalRecord) (byKey : gmap string string)
    (listed : list JournalRecord) : result (gmap string JournalRecord * gmap string string) :=
  match listed with
  | [] => Ok (records, byKey)
  | record :: rest =>
      if negb (validRecord record) then Err "invalid opportunity journal record"
      else
        let key := keyString (ch_Key (rc_Hint record)) in
        if bool_decide (is_Some (records !! rc_IntentID record))
           || negb (bool_decide (default "" (byKey !! key) = ""%string))
        then Err "duplicate opportunity journal record"
        else
          load_records (<[rc_IntentID record := record]> records)
            (<[key := rc_IntentID record]> byKey) rest
  end.

Definition load (e : io journalDocument) (file : file_state journalDocument)
    : file_state journalDocument * result Journal :=
  match file with
  | FileAbsent =>
      let '(file', r) := persist e file ∅ in
      (file', let? _ := r in Ok {| jn_file := file'; jn_records := ∅; jn_byKey := ∅ |})
  | FileUnreadable =>
      (file, Err "opportunity journal file is not a bounded owner-only regular file")
  | FileUndecodable => (file, Err "invalid opportunity journal")
  | FileDoc d =>
      (file,
       if negb (bool_decide (jd_Schema d = journalSchema)) then Err "invalid opportunity journal"
       else
         let? loaded := load_records ∅ ∅ (jd_Records d) in
         Ok {| jn_file := file; jn_records := loaded.1; jn_byKey := loaded.2 |})
  end.

Definition OpenJournal (e : io journalDocument) (d : dir_env) (file : file_state journalDocument)
    : file_state journalDocument * result Journal :=
  if negb (de_abs_clean d)
  then (file, Err "opportunity journal directory must be clean and absolute")
  else if negb (de_lstat d) || negb (de_is_dir d) || de_symlink d || negb (de_perm d =? 448)
  then (file, Err "opportunity journal directory must be owner-private")
  else load e file.

Definition discovered_record (intent : string) (hint : CandidateHint) (now : Z) : JournalRecord :=
  {| rc_IntentID := intent; rc_Phase := PhaseDiscovered; rc_Hint := hint; rc_Verified := None;
     rc_Assessment := None; rc_Purchase := None; rc_Failure := "";
     rc_DiscoveredUnix := Unix now; rc_UpdatedUnix := Unix now |}.

(** The zero value a missing map entry yields. *)
Definition zeroRecord : JournalRecord :=
  {| rc_IntentID := ""; rc_Phase := PhaseOther "";
     rc_Hint := {| ch_Key := {| ck_Network := {| nw_ID := ""; nw_GenesisRootHash := "";
                                                 nw_GenesisFileHash := "" |};
                                ck_CapabilityID := ""; ck_Version := ""; ck_ManifestDigest := "";
                                ck_ProviderAgentID := "" |};
                   ch_GatewayIDs := []; ch_GatewayMatchScore := 0; ch_HintCheckpoint := 0;
                   ch_DisplayName := ""; ch_DisplayDescription := ""; ch_OperationHint := "" |};
     rc_Verified := None; rc_Assessment := None; rc_Purchase := None; rc_Failure := "";
     rc_DiscoveredUnix := 0; rc_UpdatedUnix := 0 |}.

(** [Observe]; [material] is what [io.ReadFull(j.random, ...)] delivers. *)
Definition Observe (e : io journalDocument) (material : option string) (j : Journal)
    (hint : CandidateHint) (now : Z) : Journal * result (JournalRecord * bool) :=
  if negb (validateHint hint) || IsZero now || (Unix now <=? 0)%Z
  then (j, Err "invalid discovered opportunity")
  else
    let key := keyString (ch_Key hint) in
    let intent := default "" (jn_byKey j !! key) in
    if negb (bool_decide (intent = ""%string))
    then (j, Ok (default zeroRecord (jn_records j !! intent), false))
    else
      match material with
      | None => (j, Err "generate opportunity intent")
      | Some material =>
          let record := discovered_record ("opp_" +:+ hex_EncodeToString material) hint now in
          let updated := <[rc_IntentID record := record]> (jn_records j) in
          let '(file', r) := persist e (jn_file j) updated in
          match r with
          | Err m => ({| jn_file := file'; jn_records := jn_records j; jn_byKey := jn_byKey j |}, Err m)
          | Ok _ =>
              ({| jn_file := file'; jn_records := updated;
                  jn_byKey := <[key := rc_IntentID record]> (jn_byKey j) |}, Ok (record, true))
          end
      end.

(** The tail of [transition] after [apply]: stamp, persist, publish. *)
Definition with_updated (record : JournalRecord) (now : Z) : JournalRecord :=
  {| rc_IntentID := rc_IntentID record; rc_Phase := rc_Phase record; rc_Hint := rc_Hint record;
     rc_Verified := rc_Verified record; rc_Assessment := rc_Assessment record;
     rc_Purchase := rc_Purchase record; rc_Failure := rc_Failure record;
     rc_DiscoveredUnix := rc_DiscoveredUnix record; rc_UpdatedUnix := Unix now |}.

Definition transition (e : io journalDocument) (j : Journal) (intent : string) (now : Z)
    (apply : JournalRecord -> result JournalRecord) : Journal * result JournalRecord :=
  if negb (regexpIntent intent) || IsZero now || (Unix now <=? 0)%Z
  then (j, Err "invalid opportunity transition")
  else
    match jn_records j !! intent with
    | None => (j, Err "opportunity intent does not exist")
    | Some record =>
        match apply record with
        | Err m => (j, Err m)
        | Ok applied =>
            let record := with_updated applied now in
            let updated := <[intent := record]> (jn_records j) in
            let '(file', r) := persist e (jn_file j) updated in
            match r with
            | Err m => ({| jn_file := file'; jn_records := jn_records j; jn_byKey := jn_byKey j |}, Err m)
            | Ok _ =>
                ({| jn_file := file'; jn_records := updated; jn_byKey := jn_byKey j |}, Ok record)
            end
        end
    end.

Definition apply_verified (verified : VerifiedCandidate) (record : JournalRecord)
    : result JournalRecord :=
  if negb (bool_decide (rc_Phase record = PhaseDiscovered)) || negb (validateVerified verified)
     || negb (bool_decide (vf_Key verified = ch_Key (rc_Hint record)))
  then Err "verified opportunity conflicts with discovered candidate"
  else
    Ok {| rc_IntentID := rc_IntentID record; rc_Phase := PhaseVerified; rc_Hint := rc_Hint record;
          rc_Verified := Some verified; rc_Assessment := rc_Assessment record;
          rc_Purchase := rc_Purchase record; rc_Failure := rc_Failure record;
          rc_DiscoveredUnix := rc_DiscoveredUnix record; rc_UpdatedUnix := rc_UpdatedUnix record |}.

Definition apply_assessed (assessment : Assessment) (record : JournalRecord) : result JournalRecord :=
  if negb (bool_decide (rc_Phase record = PhaseVerified)) || (as_AssessedAtUnix assessment <=? 0)%Z
     || negb (boundedText (as_Reason assessment) 1 512)
  then Err "invalid opportunity assessment transition"
  else
    Ok {| rc_IntentID := rc_IntentID record; rc_Phase := PhaseAssessed; rc_Hint := rc_Hint record;
          rc_Verified := rc_Verified record; rc_Assessment := Some assessment;
          rc_Purchase := rc_Purchase record; rc_Failure := rc_Failure record;
          rc_DiscoveredUnix := rc_DiscoveredUnix record; rc_UpdatedUnix := rc_UpdatedUnix record |}.

(** [record.Purchase != nil && record.Purchase.Key != nil] *)
Definition purchase_key (record : JournalRecord) : option PurchaseKey :=
  match rc_Purchase record with Some p => pp_Key p | None => None end.

Definition apply_failed (reason : string) (record : JournalRecord) : result JournalRecord :=
  if (negb (bool_decide (rc_Phase record = PhaseDiscovered))
      && negb (bool_decide (rc_Phase record = PhaseAssessed))
      && negb (bool_decide (rc_Phase record = PhaseQuoteRequested))
      && negb (bool_decide (rc_Phase record = PhaseQuoteVerified))
      && negb (bool_decide (rc_Phase record = PhasePolicyAuthorized)))
     || negb (is_none (purchase_key record)) || negb (boundedText reason 1 512)
  then Err "invalid opportunity failure transition"
  else
    Ok {| rc_IntentID := rc_IntentID record; rc_Phase := PhaseFailed; rc_Hint := rc_Hint record;
          rc_Verified := rc_Verified record; rc_Assessment := rc_Assessment record;
          rc_Purchase := rc_Purchase record; rc_Failure := reason;
          rc_DiscoveredUnix := rc_DiscoveredUnix record; rc_UpdatedUnix := rc_UpdatedUnix record |}.

Definition apply_quote_requested (record : JournalRecord) : result JournalRecord :=
  if negb (bool_decide (rc_Phase record = PhaseAssessed)) || negb (eligible record)
     || negb (is_none (rc_Purchase record))
  then Err "only an eligible assessed opportunity may request a Quote"
  else
    Ok {| rc_IntentID := rc_IntentID record; rc_Phase := PhaseQuoteRequested; rc_Hint := rc_Hint record;
          rc_Verified := rc_Verified record; rc_Assessment := rc_Assessment record;
          rc_Purchase := rc_Purchase record; rc_Failure := rc_Failure record;
          rc_DiscoveredUnix := rc_DiscoveredUnix record; rc_UpdatedUnix := rc_UpdatedUnix record |}.

Definition apply_progress (intent : string) (progress : PurchaseProgress) (record : JournalRecord)
    : result JournalRecord :=
  if negb (validatePurchaseProgress progress) || negb (bool_decide (pp_IntentID progress = intent))
     || match rc_Verified record with
        | None => true
        | Some v => negb (bool_decide (pp_CandidateKey progress = vf_Key v))
        end
     || negb (validPurchaseTransition (rc_Phase record) (pp_Phase progress))
  then Err "invalid opportunity purchase projection"
  else if match purchase_key record with
          | Some key => negb (bool_decide (pp_Key progress = Some key))
          | None => false
          end
  then Err "opportunity purchase identity changed"
  else
    Ok {| rc_IntentID := rc_IntentID record; rc_Phase := pp_Phase progress; rc_Hint := rc_Hint record;
          rc_Verified := rc_Verified record; rc_Assessment := rc_Assessment record;
          rc_Purchase := Some progress; rc_Failure := rc_Failure record;
          rc_DiscoveredUnix := rc_DiscoveredUnix record; rc_UpdatedUnix := rc_UpdatedUnix record |}.

Definition MarkVerified e j intent verified now := transition e j intent now (apply_verified verified).
Definition MarkAssessed e j intent assessment now := transition e j intent now (apply_assessed assessment).
Definition MarkFailed e j intent reason now := transition e j intent now (apply_failed reason).
Definition MarkQuoteRequested e j intent now := transition e j intent now apply_quote_requested.
Definition MarkPurchaseProgress e j intent progress now :=
  transition e j intent now (apply_progress intent progress).

(** [List]: by discovery time, then by intent. *)
Definition list_le (a b : JournalRecord) : Prop :=
  (rc_DiscoveredUnix a < rc_DiscoveredUnix b)%Z \/
  (rc_DiscoveredUnix a = rc_DiscoveredUnix b /\ String.le (rc_IntentID a) (rc_IntentID b)).

#[global] Instance list_le_dec : RelDecision list_le.
Proof. intros a b. unfold list_le. apply _. Defined.

Definition List (j : Journal) : list JournalRecord := merge_sort list_le (map_vals (jn_records j)).

(** ** Keys and identities *)

Lemma boundedToken_bytes value max : boundedToken value max = true -> all_bytes token_byte value = true.
Proof. unfold boundedToken. by destruct (_ || _ || _). Qed.

Lemma boundedToken_nonempty value max : boundedToken value max = true -> value <> ""%string.
Proof. unfold boundedToken. destruct (_ || _ || _) eqn:E; [done|]. by bprop. Qed.

Definition not_nul (b : N) : bool := negb (b =? 0).

Lemma hex64_no_nul prefix s :
  all_bytes not_nul prefix = true -> hex64_pattern prefix s = true -> ContainsByte s 0 = false.
Proof.
  intros Hp H. apply (all_bytes_ContainsByte not_nul); [done|].
  eapply hex64_pattern_bytes; [exact Hp| |exact H].
  intros b Hb. unfold not_nul. destruct (N.eqb_spec b 0) as [->|]; [done|done].
Qed.

Lemma digest_no_nul s : digestPattern s = true -> ContainsByte s 0 = false.
Proof.
  unfold digestPattern. intros H. bprop. destruct H as [H|H].
  - by apply (hex64_no_nul "sha256:").
  - by apply (hex64_no_nul "tvm-cell-sha256:").
Qed.

Lemma ContainsByte_app a b c : ContainsByte (a +:+ b) c = ContainsByte a c || ContainsByte b c.
Proof. unfold ContainsByte. rewrite all_bytes_app. by rewrite negb_andb. Qed.

Lemma version_no_nul s : versionPattern s = true -> ContainsByte s 0 = false.
Proof.
  unfold versionPattern. destruct s as [|c s]; [done|]. intros H. bprop.
  apply (all_bytes_ContainsByte (fun b => is_alnum b || (b =? 46) || (b =? 95) || (b =? 45))); [done|].
  cbn [all_bytes]. apply andb_true_iff. split; [|done].
  match goal with H : is_alnum _ = true |- _ => rewrite H end. done.
Qed.

(** Distinct candidates have distinct map keys: no field of a valid key holds
    the separator. *)
Lemma keyString_inj a b :
  validateKey a = true -> validateKey b = true -> keyString a = keyString b -> a = b.
Proof.
  unfold validateKey. intros Ha Hb. bprop. unfold keyString. intros E.
  repeat match goal with
  | H : boundedToken _ _ = true |- _ =>
      apply boundedToken_bytes, (all_bytes_ContainsByte token_byte _ 0 eq_refl) in H
  | H : digestPattern _ = true |- _ => apply digest_no_nul in H
  | H : ContainsByte (_ +:+ _) _ = false |- _ => rewrite ContainsByte_app in H; apply orb_false_iff in H as [_ H]
  | H : capabilityPattern _ = true |- _ => apply (hex64_no_nul "cap_" _ eq_refl) in H
  | H : versionPattern _ = true |- _ => apply version_no_nul in H
  end.
  do 6 (apply sep_split in E as [? E]; [|done..]).
  destruct a as [[? ? ?] ? ? ? ?], b as [[? ? ?] ? ? ? ?]. simpl in *. congruence.
Qed.

Lemma validateHint_key h : validateHint h = true -> validateKey (ch_Key h) = true.
Proof. unfold validateHint. destruct (_ || _) eqn:E; [done|]. by bprop. Qed.

Lemma regexpIntent_nonempty s : regexpIntent s = true -> s <> ""%string.
Proof. intros H ->. by vm_compute in H. Qed.

(** The identities [Observe] draws are well-formed. *)
Lemma regexpIntent_fresh m : slen m = 32 -> regexpIntent ("opp_" +:+ hex_EncodeToString m) = true.
Proof.
  intros Hm. unfold regexpIntent, digestPattern.
  change (skip 4 ("opp_" +:+ hex_EncodeToString m)) with
    (skip (String.length "opp_") ("opp_" +:+ hex_EncodeToString m)).
  rewrite skip_app, HasPrefix_app, (hex64_pattern_encode "sha256:") by done.
  rewrite slen_app. unfold slen in *. rewrite length_hex. simpl. rewrite !andb_true_r.
  apply N.eqb_eq. lia.
Qed.

(** ** Records: validity and history *)

Definition terminal (phase : Phase) : bool :=
  match phase with PhaseFailed | PhasePurchaseResolved => true | _ => false end.

(** The order in which a record moves through its phases. *)
Definition rank (phase : Phase) : nat :=
  match phase with
  | PhaseDiscovered => 0
  | PhaseVerified => 1
  | PhaseAssessed => 2
  | PhaseQuoteRequested => 3
  | PhaseQuoteVerified => 4
  | PhasePolicyAuthorized => 5
  | PhasePurchaseReferenced => 6
  | PhasePurchaseResolved | PhaseFailed => 7
  | PhaseOther _ => 8
  end.

(** [Some x] is never replaced or withdrawn. *)
Definition opt_le {A} (a b : option A) : Prop := forall x, a = Some x -> b = Some x.

#[global] Instance opt_le_preorder {A} : PreOrder (@opt_le A).
Proof. split; [by intros x y|]. intros a b c H1 H2 x Hx. auto. Qed.

(** What a record keeps and how it moves. *)
Record record_le (r r' : JournalRecord) : Prop := {
  le_intent : rc_IntentID r' = rc_IntentID r;
  le_hint : rc_Hint r' = rc_Hint r;
  le_discovered : rc_DiscoveredUnix r' = rc_DiscoveredUnix r;
  le_rank : (rank (rc_Phase r) <= rank (rc_Phase r'))%nat;
  le_verified : opt_le (rc_Verified r) (rc_Verified r');
  le_assessment : opt_le (rc_Assessment r) (rc_Assessment r');
  le_key : opt_le (purchase_key r) (purchase_key r');
  le_terminal : terminal (rc_Phase r) = true -> r' = r
}.

#[global] Instance record_le_preorder : PreOrder record_le.
Proof.
  split.
  - intros r. by constructor.
  - intros r1 r2 r3 [] []. constructor; try (etrans; done); try congruence; try lia.
    intros Ht. assert (r2 = r1) as -> by auto. auto.
Qed.

(** [apply] moves a valid record forward and leaves it valid once stamped. *)
Definition apply_sound (intent : string) (apply : JournalRecord -> result JournalRecord) : Prop :=
  forall r r' now, validRecord r = true -> rc_IntentID r = intent -> (rc_DiscoveredUnix r <= Unix now)%Z -> apply r = Ok r' ->
  validRecord (with_updated r' now) = true /\ record_le r (with_updated r' now).

(** The fields a record's phase requires, apart from identity and times. *)
Definition phase_shape (r : JournalRecord) : bool :=
  match rc_Phase r with
  | PhaseDiscovered =>
      is_none (rc_Verified r) && is_none (rc_Assessment r) && is_none (rc_Purchase r)
      && bool_decide (rc_Failure r = ""%string)
  | PhaseVerified =>
      verified_ok r && is_none (rc_Assessment r) && is_none (rc_Purchase r)
      && bool_decide (rc_Failure r = ""%string)
  | PhaseAssessed =>
      verified_ok r && assessment_ok r && is_none (rc_Purchase r)
      && bool_decide (rc_Failure r = ""%string)
  | PhaseQuoteRequested => validAssessedPurchaseBase r && is_none (rc_Purchase r)
  | PhaseQuoteVerified | PhasePolicyAuthorized | PhasePurchaseReferenced | PhasePurchaseResolved =>
      validAssessedPurchaseBase r
      && match rc_Purchase r, rc_Verified r with
         | Some p, Some v =>
             validatePurchaseProgress p && bool_decide (pp_IntentID p = rc_IntentID r)
             && bool_decide (pp_CandidateKey p = vf_Key v) && bool_decide (pp_Phase p = rc_Phase r)
         | _, _ => false
         end
  | PhaseFailed => validFailedRecord r
  | PhaseOther _ => false
  end.

Lemma validRecord_split r :
  validRecord r = true <->
  regexpIntent (rc_IntentID r) = true /\ validateHint (rc_Hint r) = true /\
  (0 < rc_DiscoveredUnix r <= rc_UpdatedUnix r)%Z /\ phase_shape r = true.
Proof.
  unfold validRecord. split.
  - destruct (_ || _ || _ || _) eqn:E; [done|]. zprop. intros Hshape. split_and!; [done|done|lia|lia|done].
  - intros (Hi & Hh & Hd & Hs). rewrite Hi, Hh. cbn [negb orb].
    destruct (Z.leb_spec (rc_DiscoveredUnix r) 0); [lia|].
    destruct (Z.ltb_spec (rc_UpdatedUnix r) (rc_DiscoveredUnix r)); [lia|]. exact Hs.
Qed.

(** A step that keeps identity, hint and discovery time, and yields a record of
    the right shape, is sound. *)
Lemma apply_sound_intro intent apply :
  (forall r r', rc_IntentID r = intent -> phase_shape r = true -> apply r = Ok r' ->
     rc_UpdatedUnix r' = rc_UpdatedUnix r /\ phase_shape r' = true /\ record_le r r' /\
     terminal (rc_Phase r) = false) ->
  apply_sound intent apply.
Proof.
  intros H r r' now Hv Hid Hn Ha. apply validRecord_split in Hv as (Hi & Hh & Hd & Hs).
  destruct (H r r' Hid Hs Ha) as (_ & Hs' & [] & Ht). split.
  - apply validRecord_split. cbn. rewrite le_intent0, le_hint0, le_discovered0.
    split_and!; [done|done|lia|lia|exact Hs'].
  - constructor; cbn; try done. by rewrite Ht.
Qed.

Ltac apply_cases H :=
  match type of H with (if ?b then Err _ else _) = _ => destruct b eqn:?; [discriminate H|] end.

Ltac shape_unfold :=
  unfold phase_shape, validAssessedPurchaseBase, validFailedRecord, verified_ok, assessment_ok, eligible,
    purchase_key in *; cbn in *.

(** Close the goals [apply_sound_intro] leaves for one transition. *)
Ltac shape_solve :=
  zprop;
  repeat match goal with
  | o : option _ |- _ => destruct o; cbn in *; try done
  end;
  zprop;
  split_and!;
  [done
  |repeat match goal with
   | H : ?b = true |- _ => rewrite H; clear H
   | |- context [bool_decide ?P] => rewrite (bool_decide_true P) by done
   | |- context [(0 <? ?z)%Z] => rewrite (proj2 (Z.ltb_lt 0 z)) by lia
   end; done
  |constructor; cbn; first [done | lia | by intros ? | idtac]
  |done].

Lemma apply_verified_sound intent verified : apply_sound intent (apply_verified verified).
Proof.
  apply apply_sound_intro. intros r r' _ Hs H. unfold apply_verified in H. apply_cases H. injection H as <-.
  destruct r as [i ph h v a p f d u]. cbn in *. zprop. subst. shape_unfold. shape_solve.
Qed.

Lemma apply_assessed_sound intent assessment : apply_sound intent (apply_assessed assessment).
Proof.
  apply apply_sound_intro. intros r r' _ Hs H. unfold apply_assessed in H. apply_cases H. injection H as <-.
  destruct r as [i ph h v a p f d u]. cbn in *. zprop. subst. shape_unfold. shape_solve.
Qed.

Lemma apply_quote_requested_sound intent : apply_sound intent apply_quote_requested.
Proof.
  apply apply_sound_intro. intros r r' _ Hs H. unfold apply_quote_requested in H. apply_cases H. injection H as <-.
  destruct r as [i ph h v a p f d u]. cbn in *. zprop. subst. shape_unfold. shape_solve.
Qed.

Lemma apply_failed_sound intent reason : apply_sound intent (apply_failed reason).
Proof.
  apply apply_sound_intro. intros r r' _ Hs H. unfold apply_failed in H. apply_cases H. injection H as <-.
  destruct r as [i ph h v a p f d u]. cbn in *.
  match goal with E : (_ || _ || _) = false |- _ =>
    apply orb_false_iff in E as [E Hr]; apply orb_false_iff in E as [Hph Hk] end.
  apply negb_false_iff in Hr, Hk. unfold purchase_key in Hk. cbn in Hk.
  destruct ph; try (exfalso; vm_compute in Hph; discriminate);
    (split_and!; [done| |constructor; cbn; first [done | lia | by intros ?]|done]);
    unfold phase_shape, validFailedRecord in *; cbn in *; rewrite Hr; cbn;
    (destruct p as [p|]; [|done]); (destruct (pp_Key p) eqn:Ek; [done|]);
    rewrite ?andb_false_r in Hs; try done;
    destruct v; rewrite ?andb_false_r in Hs; try done; bprop;
    match goal with H : validatePurchaseProgress _ = true, Hp : pp_Phase _ = _ |- _ => by rewrite H, Hp end.
Qed.

Lemma apply_progress_sound intent progress : apply_sound intent (apply_progress intent progress).
Proof.
  apply apply_sound_intro. intros r r' Hi Hs H. unfold apply_progress in H. do 2 apply_cases H. injection H as <-.
  destruct r as [i ph h v a p f d u]. cbn in *. subst i. bprop. unfold purchase_key in *. cbn in *.
  destruct v as [v|]; [|done]. bprop.
  assert (pp_Phase progress <> PhaseFailed /\ rank ph <= rank (pp_Phase progress) /\
          terminal ph = false /\
          validAssessedPurchaseBase {| rc_IntentID := intent; rc_Phase := pp_Phase progress; rc_Hint := h;
            rc_Verified := Some v; rc_Assessment := a; rc_Purchase := Some progress; rc_Failure := f;
            rc_DiscoveredUnix := d; rc_UpdatedUnix := u |} = true)%nat as Hpp.
  { destruct ph; try done; cbn in *; bprop; (try match goal with H : _ \/ _ |- _ => destruct H; bprop end);
      match goal with H : pp_Phase progress = _ |- _ => rewrite H end;
      by (split_and!; [done|cbn; lia|done|]). }
  destruct Hpp as (_ & Hrank & Hterm & Hbase).
  split_and!; [done| | |done].
  - unfold phase_shape. cbn.
    destruct (pp_Phase progress) eqn:Ep;
      try (exfalso; unfold validatePurchaseProgress in *; rewrite Ep in *; by destruct (_ || _));
      rewrite Hbase; cbn; rewrite !bool_decide_true by done; rewrite !andb_true_r; done.
  - constructor; cbn; try done; try lia.
    + intros k Hk. unfold purchase_key in Hk. cbn in Hk. rewrite Hk in *. by bprop.
    + by rewrite Hterm.
Qed.

(** ** The journal's invariant *)

Definition record_key (r : JournalRecord) : string := keyString (ch_Key (rc_Hint r)).

(** The records: each under its own intent, valid, discovered no later than
    [clock], and at most one per candidate. *)
Record records_ok (clock : Z) (records : gmap string JournalRecord) : Prop := {
  ro_intent : forall i r, records !! i = Some r -> rc_IntentID r = i;
  ro_valid : forall i r, records !! i = Some r -> validRecord r = true;
  ro_clock : forall i r, records !! i = Some r -> (rc_DiscoveredUnix r <= Unix clock)%Z;
  ro_unique : forall i i' r r', records !! i = Some r -> records !! i' = Some r' ->
    record_key r = record_key r' -> i = i'
}.

(** The index agrees with the records. *)
Definition index_ok (records : gmap string JournalRecord) (byKey : gmap string string) : Prop :=
  forall k i, byKey !! k = Some i <-> exists r, records !! i = Some r /\ record_key r = k.

Record journal_ok (clock : Z) (j : Journal) : Prop := {
  jo_records : records_ok clock (jn_records j);
  jo_index : index_ok (jn_records j) (jn_byKey j);
  jo_file : exists stored, jn_file j = FileDoc (document stored) /\ records_ok clock stored /\
    map_le record_le (jn_records j) stored
}.

Lemma records_ok_mono clock clock' records :
  (Unix clock <= Unix clock')%Z -> records_ok clock records -> records_ok clock' records.
Proof. intros Hc []. constructor; eauto. intros i r Hr. specialize (ro_clock0 i r Hr). lia. Qed.

Lemma Unix_mono a b : (a <= b)%Z -> (Unix a <= Unix b)%Z.
Proof. intros. unfold Unix. apply Z.div_le_mono; lia. Qed.

Lemma valid_intent_nonempty r : validRecord r = true -> rc_IntentID r <> ""%string.
Proof. intros H. apply validRecord_split in H as (H & _). by apply regexpIntent_nonempty. Qed.

Lemma map_vals_lookup clock records r :
  records_ok clock records -> r ∈ map_vals records <-> records !! rc_IntentID r = Some r.
Proof.
  intros Hok. rewrite elem_of_map_vals. split; [|eauto].
  intros [k Hk]. by rewrite (ro_intent _ _ Hok k r Hk).
Qed.

(** ** Reloading *)

(** Loading a list of valid records of distinct intents and candidates yields
    exactly these records and their index. *)
Lemma load_records_ok listed : forall records byKey,
  Forall (fun r => validRecord r = true) listed ->
  NoDup (rc_IntentID <$> listed) -> NoDup (record_key <$> listed) ->
  (forall r, r ∈ listed -> records !! rc_IntentID r = None /\ byKey !! record_key r = None) ->
  exists records' byKey', load_records records byKey listed = Ok (records', byKey') /\
    (forall i r, records' !! i = Some r <-> records !! i = Some r \/ (r ∈ listed /\ rc_IntentID r = i)) /\
    (forall k i, byKey' !! k = Some i <->
       byKey !! k = Some i \/ exists r, r ∈ listed /\ record_key r = k /\ rc_IntentID r = i).
Proof.
  induction listed as [|r listed IH]; intros records byKey Hv Hi Hk Hfresh.
  { exists records, byKey. split_and!; [done|..]; set_solver. }
  apply Forall_cons in Hv as [Hvr Hv]. cbn in Hi, Hk.
  apply NoDup_cons in Hi as [Hir Hi]. apply NoDup_cons in Hk as [Hkr Hk].
  destruct (Hfresh r) as [Hr1 Hr2]; [by left|].
  destruct (IH (<[rc_IntentID r := r]> records) (<[record_key r := rc_IntentID r]> byKey))
    as (R' & B' & HL & HR & HB); [done..| |].
  { intros r' Hr'. destruct (Hfresh r') as [H1 H2]; [by right|].
    rewrite !lookup_insert_ne; [done|intros E; apply Hkr|intros E; apply Hir];
      rewrite E; apply list_elem_of_fmap; eauto. }
  exists R', B'. split_and!.
  - cbn [load_records]. rewrite Hvr. cbv zeta. fold (record_key r). rewrite Hr1, Hr2.
    rewrite bool_decide_false by (by intros [? [=]]). rewrite bool_decide_true by done. exact HL.
  - intros i r'. rewrite HR, lookup_insert_Some, elem_of_cons.
    split; [|intros [H|[[->|H] <-]]]; [naive_solver| |naive_solver|naive_solver].
    left. right. split; [|done]. intros <-. congruence.
  - intros k i. rewrite HB, lookup_insert_Some. setoid_rewrite elem_of_cons.
    split; [naive_solver|]. intros [H|(r' & [->|H] & <- & <-)]; [|naive_solver|naive_solver].
    left. right. split; [|done]. intros <-. congruence.
Qed.

(** Whatever list it is given, a successful load is well-formed. *)
Lemma load_records_sound listed : forall records byKey records' byKey',
  load_records records byKey listed = Ok (records', byKey') ->
  (forall i r, records !! i = Some r -> rc_IntentID r = i /\ validRecord r = true) ->
  index_ok records byKey ->
  (forall i r, records' !! i = Some r -> rc_IntentID r = i /\ validRecord r = true) /\
  index_ok records' byKey'.
Proof.
  induction listed as [|r listed IH]; intros records byKey records' byKey' H Hr Hix.
  { cbn in H. by simplify_eq. }
  cbn [load_records] in H. head_case H eqn E1; [done|]. cbv zeta in H. head_case H eqn E2; [done|].
  bprop. fold (record_key r) in *.
  assert (records !! rc_IntentID r = None) as Hfr by (by apply eq_None_not_Some).
  assert (byKey !! record_key r = None) as Hfk.
  { destruct (byKey !! record_key r) as [i|] eqn:Ek; [|done]. cbn in *. exfalso. subst i.
    apply Hix in Ek as (r' & Hr' & _). apply Hr in Hr' as [Hid Hv].
    by apply (valid_intent_nonempty r'). }
  eapply IH; [exact H| |].
  - intros i r' Hr'. apply lookup_insert_Some in Hr' as [[<- <-]|[_ Hr']]; [done|by apply Hr].
  - intros k i. rewrite lookup_insert_Some. split.
    + intros [[<- <-]|[Hne Hki]]; [exists r; by rewrite lookup_insert_eq|].
      apply Hix in Hki as (r' & Hr' & <-). exists r'. split; [|done].
      rewrite lookup_insert_ne; [done|]. intros <-. congruence.
    + intros (r' & Hr' & <-). apply lookup_insert_Some in Hr' as [[<- <-]|[Hne Hr']]; [by left|].
      right. split; [|apply Hix; eauto]. intros Hk.
      assert (byKey !! record_key r' = Some i) as Hb by (apply Hix; eauto). congruence.
Qed.

Lemma elem_of_document clock records r :
  records_ok clock records -> r ∈ jd_Records (document records) <-> records !! rc_IntentID r = Some r.
Proof. intros Hok. cbn. rewrite sort_by_Permutation. by eapply map_vals_lookup. Qed.

Lemma document_NoDup clock records (f : JournalRecord -> string) :
  records_ok clock records ->
  (forall r r', records !! rc_IntentID r = Some r -> records !! rc_IntentID r' = Some r' ->
     f r = f r' -> r = r') ->
  NoDup (f <$> jd_Records (document records)).
Proof.
  intros Hok Hf. cbn. rewrite sort_by_Permutation. apply NoDup_fmap_2_strong.
  - intros r r' Hr Hr'. eapply map_vals_lookup in Hr, Hr'; [|done..]. auto.
  - apply (NoDup_fmap_1 rc_IntentID). unfold map_vals. rewrite <-list_fmap_compose.
    rewrite (list_fmap_ext _ fst); [apply NoDup_fst_map_to_list|].
    intros k [i r] Hk. cbn. apply (ro_intent _ _ Hok). apply elem_of_map_to_list.
    by eapply list_elem_of_lookup_2.
Qed.

(** What [persist] writes, [load] reads back: the same records, and an index
    that agrees with them. *)
Lemma load_document clock records e :
  records_ok clock records ->
  exists byKey, index_ok records byKey /\
    load e (FileDoc (document records)) =
      (FileDoc (document records),
       Ok {| jn_file := FileDoc (document records); jn_records := records; jn_byKey := byKey |}).
Proof.
  intros Hok.
  destruct (load_records_ok (jd_Records (document records)) ∅ ∅) as (R & B & HL & HR & HB).
  - apply Forall_forall. intros r Hr. eapply elem_of_document in Hr; [|done]. by eapply ro_valid.
  - eapply document_NoDup; [done|]. intros r r' Hr Hr' E. rewrite E in Hr. congruence.
  - eapply document_NoDup; [done|]. intros r r' Hr Hr' E.
    pose proof (ro_unique _ _ Hok _ _ r r' Hr Hr' E) as Ei. rewrite Ei in Hr. congruence.
  - intros r _. by rewrite !lookup_empty.
  - assert (R = records) as ->.
    { apply map_eq. intros i. apply option_eq. intros r. rewrite HR, lookup_empty.
      rewrite elem_of_document by done. split; [|right].
      - by intros [[=]|[H <-]].
      - by rewrite (ro_intent _ _ Hok i r). }
    exists B. split.
    + intros k i. rewrite HB, lookup_empty. setoid_rewrite elem_of_document; [|done]. split.
      * intros [[=]|(r & Hr & <- & <-)]. eauto.
      * intros (r & Hr & <-). right. exists r. by rewrite (ro_intent _ _ Hok i r Hr).
    + unfold load. cbn [jd_Schema document]. rewrite bool_decide_true by done. cbn [negb].
      cbn [jd_Records document] in HL |- *. by rewrite HL.
Qed.

(** ** Steps *)

(** A draw of 32 bytes that is not yet an intent. *)
Definition fresh_material (j : Journal) (material : option string) : Prop :=
  forall m, material = Some m ->
  slen m = 32 /\ jn_records j !! ("opp_" +:+ hex_EncodeToString m) = None.

(** What can happen to the journal, with the clock: its operations at times
    that do not go back, and a restart on the file. *)
Inductive step : Z * Journal -> Z * Journal -> Prop :=
| step_observe clock j e material hint now j' r :
    (clock <= now)%Z -> fresh_material j material ->
    Observe e material j hint now = (j', r) -> step (clock, j) (now, j')
| step_verified clock j e intent verified now j' r :
    (clock <= now)%Z -> MarkVerified e j intent verified now = (j', r) -> step (clock, j) (now, j')
| step_assessed clock j e intent assessment now j' r :
    (clock <= now)%Z -> MarkAssessed e j intent assessment now = (j', r) -> step (clock, j) (now, j')
| step_failed clock j e intent reason now j' r :
    (clock <= now)%Z -> MarkFailed e j intent reason now = (j', r) -> step (clock, j) (now, j')
| step_quote_requested clock j e intent now j' r :
    (clock <= now)%Z -> MarkQuoteRequested e j intent now = (j', r) -> step (clock, j) (now, j')
| step_progress clock j e intent progress now j' r :
    (clock <= now)%Z -> MarkPurchaseProgress e j intent progress now = (j', r) ->
    step (clock, j) (now, j')
| step_restart clock j e d file' j' :
    OpenJournal e d (jn_file j) = (file', Ok j') -> step (clock, j) (clock, j').

Lemma opp_persist_cases e file records file' r :
  persist e file records = (file', r) ->
  (file' = file \/ file' = FileDoc (document records)) /\ (r = Ok tt -> file' = FileDoc (document records)).
Proof. apply persist_bounded_cases. Qed.

(** A successful transition replaces the record; a failed one none. *)
Lemma transition_result e j intent now apply j' r :
  transition e j intent now apply = (j', r) ->
  match r with
  | Ok record' =>
      exists record applied, jn_records j !! intent = Some record /\ apply record = Ok applied /\
        record' = with_updated applied now /\ jn_records j' = <[intent := record']> (jn_records j)
  | Err _ => jn_records j' = jn_records j
  end.
Proof.
  unfold transition. intros H. head_case H eqn Eg; [by simplify_eq|].
  head_case H as [record|] eqn Er; [|by simplify_eq].
  head_case H as [applied|m] eqn Ea; [|by simplify_eq]. cbv zeta in H.
  destruct (persist _ _ _) as [file' [[]|m]]; simplify_eq; [|done].
  exists record, applied. done.
Qed.

(** Publishing [updated]: the common end of [Observe] and [transition]. *)
Lemma opp_publish_ok clock j updated byKey' e file' r :
  journal_ok clock j -> records_ok clock updated -> map_le record_le (jn_records j) updated ->
  index_ok updated byKey' -> persist e (jn_file j) updated = (file', r) ->
  (is_err r = true -> journal_ok clock {| jn_file := file'; jn_records := jn_records j; jn_byKey := jn_byKey j |}) /\
  (is_ok r = true -> journal_ok clock {| jn_file := file'; jn_records := updated; jn_byKey := byKey' |}).
Proof.
  intros [Hr Hi (stored & Hf & Hs & Hle)] Hu Hmap Hix Hp. apply opp_persist_cases in Hp as [Hf' Hok]. split.
  - intros _. constructor; cbn; [done|done|]. destruct Hf' as [->| ->]; [by exists stored|by exists updated].
  - intros Ho. destruct r as [[]|]; [|done]. rewrite Hok by done. constructor; cbn; [done|done|].
    exists updated. split_and!; [done|done|reflexivity].
Qed.

Lemma journal_ok_mono clock clock' j : (clock <= clock')%Z -> journal_ok clock j -> journal_ok clock' j.
Proof.
  intros Hc [Hr Hi (stored & Hf & Hs & Hle)]. pose proof (Unix_mono _ _ Hc).
  constructor; [by eapply records_ok_mono|done|]. exists stored. split_and!; [done|by eapply records_ok_mono|done].
Qed.

Lemma record_le_key r r' : record_le r r' -> record_key r' = record_key r.
Proof. intros []. unfold record_key. by rewrite le_hint0. Qed.

Lemma records_ok_update clock records i r r' :
  records_ok clock records -> records !! i = Some r -> record_le r r' -> validRecord r' = true ->
  records_ok clock (<[i := r']> records).
Proof.
  intros Hok Hr Hle Hv. pose proof (record_le_key _ _ Hle) as Hk. destruct Hle, Hok.
  constructor.
  - intros i' r0 H. apply lookup_insert_Some in H as [[<- <-]|[_ H]]; [rewrite le_intent0|]; eauto.
  - intros i' r0 H. apply lookup_insert_Some in H as [[<- <-]|[_ H]]; eauto.
  - intros i' r0 H. apply lookup_insert_Some in H as [[<- <-]|[_ H]]; [rewrite le_discovered0|]; eauto.
  - intros i1 i2 r1 r2 H1 H2 E.
    apply lookup_insert_Some in H1 as [[<- <-]|[_ H1]], H2 as [[<- <-]|[_ H2]];
      rewrite ?Hk in E; eauto.
Qed.

Lemma index_ok_update records byKey i r r' :
  index_ok records byKey -> records !! i = Some r -> record_key r' = record_key r ->
  index_ok (<[i := r']> records) byKey.
Proof.
  intros Hix Hr Hk k i'. rewrite (Hix k i'). split; intros (r0 & H & <-).
  - destruct (decide (i = i')) as [<-|Hne].
    + exists r'. rewrite lookup_insert_eq. simplify_eq. done.
    + exists r0. by rewrite lookup_insert_ne.
  - apply lookup_insert_Some in H as [[<- <-]|[_ H]]; [|eauto]. exists r. by rewrite Hk.
Qed.

Lemma transition_ok clock e j intent now apply j' r :
  journal_ok clock j -> (clock <= now)%Z -> apply_sound intent apply ->
  transition e j intent now apply = (j', r) ->
  journal_ok now j' /\ map_le record_le (jn_records j) (jn_records j').
Proof.
  intros Hj Hc Ha H. apply (journal_ok_mono _ _ _ Hc) in Hj. unfold transition in H.
  head_case H eqn Eg; [by simplify_eq|].
  head_case H as [record|] eqn Er; [|by simplify_eq].
  head_case H as [applied|m] eqn Ea; [|by simplify_eq].
  destruct (Ha record applied now) as [Hv Hle];
    [by eapply ro_valid, Er; apply Hj|by eapply ro_intent, Er; apply Hj|by eapply ro_clock, Er; apply Hj|done|].
  cbv zeta in H. set (record' := with_updated applied now) in *.
  destruct (persist e (jn_file j) _) as [file' rp] eqn:Ep.
  assert (map_le record_le (jn_records j) (<[intent := record']> (jn_records j))) as Hmap.
  { apply map_le_insert; [apply _|]. intros r0 Hr0. by simplify_eq. }
  destruct (opp_publish_ok now j (<[intent := record']> (jn_records j)) (jn_byKey j) e file' rp Hj) as [Hf Hs].
  - by eapply records_ok_update; [apply Hj|..].
  - done.
  - eapply index_ok_update; [apply Hj|done|by apply record_le_key].
  - done.
  - destruct rp; simplify_eq; split; auto; cbn; reflexivity.
Qed.

(** [Observe]: the known candidate's record, or a new one. *)
Lemma Observe_cases clock e material j hint now j' r :
  journal_ok clock j -> fresh_material j material -> Observe e material j hint now = (j', r) ->
  (exists m, j' = j /\ r = Err m) \/
  (exists i record, j' = j /\ r = Ok (record, false) /\ jn_records j !! i = Some record /\
     record_key record = keyString (ch_Key hint)) \/
  (exists m i file' rp, material = Some m /\ i = "opp_" +:+ hex_EncodeToString m /\
     validateHint hint = true /\ (0 < Unix now)%Z /\
     jn_byKey j !! keyString (ch_Key hint) = None /\ jn_records j !! i = None /\
     persist e (jn_file j) (<[i := discovered_record i hint now]> (jn_records j)) = (file', rp) /\
     match rp with
     | Err msg => j' = {| jn_file := file'; jn_records := jn_records j; jn_byKey := jn_byKey j |} /\ r = Err msg
     | Ok _ => j' = {| jn_file := file'; jn_records := <[i := discovered_record i hint now]> (jn_records j);
                       jn_byKey := <[keyString (ch_Key hint) := i]> (jn_byKey j) |} /\
               r = Ok (discovered_record i hint now, true)
     end).
Proof.
  intros Hj Hm H. unfold Observe in H. head_case H eqn Eg; [left; simplify_eq; eauto|].
  cbv zeta in H. set (key := keyString (ch_Key hint)) in *. zprop.
  destruct (jn_byKey j !! key) as [i|] eqn:Ei; cbn [default] in H.
  - apply (jo_index _ _ Hj) in Ei as (record & Hr & Hk).
    assert (i <> ""%string) as Hi.
    { rewrite <-(ro_intent _ _ (jo_records _ _ Hj) i record Hr).
      apply valid_intent_nonempty. eapply ro_valid, Hr. apply Hj. }
    cbn in H. rewrite bool_decide_false in H by done. cbn [negb] in H. rewrite Hr in H.
    right. left. simplify_eq. exists i, record. done.
  - cbn in H. rewrite bool_decide_true in H by done. cbn in H. head_case H as [m|] eqn Em; [|left; simplify_eq; eauto].
    destruct (Hm m eq_refl) as [_ Hfresh].
    right. right. destruct (persist _ _ _) as [file' rp] eqn:Ep.
    exists m, ("opp_" +:+ hex_EncodeToString m), file', rp.
    split_and!; [done|done|done|lia|done|done|done|].
    destruct rp; simplify_eq; done.
Qed.

Lemma Unix_IsZero now : (0 < Unix now)%Z -> IsZero now = false.
Proof.
  intros H. apply Z.eqb_neq. intros ->. vm_compute in H. discriminate.
Qed.


(** A known candidate is found, whatever the disk and the random source do. *)
Lemma Observe_known clock e material j hint now i r :
  journal_ok clock j -> validateHint hint = true -> (0 < Unix now)%Z ->
  jn_records j !! i = Some r -> ch_Key (rc_Hint r) = ch_Key hint ->
  Observe e material j hint now = (j, Ok (r, false)).
Proof.
  intros Hj Hh Hn Hir Hkr.
  assert (jn_byKey j !! keyString (ch_Key hint) = Some i) as Hb
    by (apply (jo_index _ _ Hj); exists r; split; [done|by unfold record_key; rewrite Hkr]).
  assert (i <> ""%string) as Hi.
  { rewrite <-(ro_intent _ _ (jo_records _ _ Hj) i r Hir). apply valid_intent_nonempty.
    by apply (ro_valid _ _ (jo_records _ _ Hj) _ _ Hir). }
  unfold Observe. rewrite Hh, Unix_IsZero by done. destruct (Z.leb_spec (Unix now) 0); [lia|].
  cbn [negb orb]. cbv zeta. rewrite Hb. cbn. rewrite bool_decide_false by done. cbn. by rewrite Hir.
Qed.

Lemma discovered_valid i hint now :
  regexpIntent i = true -> validateHint hint = true -> (0 < Unix now)%Z ->
  validRecord (discovered_record i hint now) = true.
Proof. intros. apply validRecord_split. cbn. split_and!; [done|done|lia|lia|done]. Qed.

Lemma Observe_ok clock e material j hint now j' r :
  journal_ok clock j -> (clock <= now)%Z -> fresh_material j material ->
  Observe e material j hint now = (j', r) ->
  journal_ok now j' /\ map_le record_le (jn_records j) (jn_records j').
Proof.
  intros Hj Hc Hm H. apply (journal_ok_mono _ _ _ Hc) in Hj.
  destruct (Observe_cases _ _ _ _ _ _ _ _ Hj Hm H)
    as [(m & -> & _)|[(i & record & -> & _)|(m & i & file' & rp & -> & Hi & Hh & Hn & Hk & Hf & Hp & Hres)]];
    [by split|by split|].
  destruct (Hm m eq_refl) as [Hlen _].
  assert (map_le record_le (jn_records j) (<[i := discovered_record i hint now]> (jn_records j))) as Hmap.
  { apply map_le_insert; [apply _|]. intros v0 Hv0. congruence. }
  assert (forall i' r0, jn_records j !! i' = Some r0 -> record_key r0 <> keyString (ch_Key hint)) as Hnew.
  { intros i' r0 H0 E. assert (jn_byKey j !! keyString (ch_Key hint) = Some i') as Hb
      by (apply (jo_index _ _ Hj); eauto). congruence. }
  destruct (opp_publish_ok now j (<[i := discovered_record i hint now]> (jn_records j))
    (<[keyString (ch_Key hint) := i]> (jn_byKey j)) e file' rp Hj) as [He Ho];
    [| |..|exact Hp|].
  - destruct (jo_records _ _ Hj). constructor.
    + intros i' r0 H0. apply lookup_insert_Some in H0 as [[<- <-]|[_ H0]]; eauto.
    + intros i' r0 H0. apply lookup_insert_Some in H0 as [[<- <-]|[_ H0]]; [|eauto].
      apply discovered_valid; [|done|done]. rewrite Hi. by apply regexpIntent_fresh.
    + intros i' r0 H0. apply lookup_insert_Some in H0 as [[<- <-]|[_ H0]]; [cbn; lia|eauto].
    + intros i1 i2 r1 r2 H1 H2 E.
      apply lookup_insert_Some in H1 as [[<- <-]|[_ H1]], H2 as [[<- <-]|[_ H2]];
        [done|by apply Hnew in H2; rewrite <-E in H2|by apply Hnew in H1; rewrite E in H1|eauto].
  - done.
  - intros k i'. rewrite lookup_insert_Some. split.
    + intros [[<- <-]|[Hne Hki]]; [exists (discovered_record i hint now); by rewrite lookup_insert_eq|].
      apply (jo_index _ _ Hj) in Hki as (r0 & H0 & <-). exists r0. split; [|done].
      rewrite lookup_insert_ne; [done|]. intros <-. congruence.
    + intros (r0 & H0 & <-). apply lookup_insert_Some in H0 as [[<- <-]|[Hne H0]]; [by left|].
      right. split; [by apply not_eq_sym, (Hnew i')|]. apply (jo_index _ _ Hj). eauto.
  - destruct rp as [[]|msg]; destruct Hres as [-> _]; split; auto. cbn. reflexivity.
Qed.

Lemma OpenJournal_load e d file :
  OpenJournal e d file = load e file \/ exists m, OpenJournal e d file = (file, Err m).
Proof. unfold OpenJournal. repeat case_match; eauto. Qed.

Lemma OpenJournal_private e file : OpenJournal e dir_good file = load e file.
Proof. reflexivity. Qed.

Lemma step_ok s s' :
  step s s' -> journal_ok s.1 s.2 -> journal_ok s'.1 s'.2 /\ map_le record_le (jn_records s.2) (jn_records s'.2).
Proof.
  intros Hs Hj. destruct Hs; cbn in *; try (eapply transition_ok; [done|done| |done]).
  - by eapply Observe_ok.
  - apply apply_verified_sound.
  - apply apply_assessed_sound.
  - apply apply_failed_sound.
  - apply apply_quote_requested_sound.
  - apply apply_progress_sound.
  - destruct (jo_file _ _ Hj) as (stored & Hf & Hst & Hle).
    destruct (OpenJournal_load e d (jn_file j)) as [E|[m E]]; [|congruence].
    destruct (load_document clock stored e Hst) as (byKey & Hix & Hl).
    rewrite E, Hf, Hl in H. simplify_eq. split; [|done]. constructor; cbn; [done|done|].
    exists stored. split_and!; [done|done|reflexivity].
Qed.

Lemma opp_steps_ok s s' :
  rtc step s s' -> journal_ok s.1 s.2 ->
  journal_ok s'.1 s'.2 /\ map_le record_le (jn_records s.2) (jn_records s'.2).
Proof.
  induction 1 as [s|s1 s2 s3 Hs _ IH]; intros Hj; [by split|].
  destruct (step_ok _ _ Hs Hj) as [Hj2 Hle2]. destruct (IH Hj2) as [Hj3 Hle3].
  split; [done|]. by etrans.
Qed.

Lemma records_ok_empty clock : records_ok clock ∅.
Proof. constructor; intros *; by rewrite lookup_empty. Qed.

(** A journal opened where there was none. *)
Lemma opened_ok e d file' j clock : OpenJournal e d FileAbsent = (file', Ok j) -> journal_ok clock j.
Proof.
  intros H. destruct (OpenJournal_load e d FileAbsent) as [E|[m E]]; [|congruence].
  rewrite E in H. unfold load in H. destruct (persist e FileAbsent ∅) as [f r] eqn:Ep.
  destruct r as [[]|]; [|done]. apply opp_persist_cases in Ep as [_ Hf]. rewrite Hf in H by done.
  injection H as <- <-. constructor; cbn.
  - apply records_ok_empty.
  - intros k i. rewrite lookup_empty. split; [done|]. intros (r & Hr & _). by rewrite lookup_empty in Hr.
  - exists ∅. split_and!; [done|apply records_ok_empty|reflexivity].
Qed.

Lemma load_records_valid listed : forall records byKey out,
  load_records records byKey listed = Ok out -> Forall (fun r => validRecord r = true) listed.
Proof.
  induction listed as [|r listed IH]; intros records byKey out H; [constructor|].
  cbn [load_records] in H. head_case H eqn E1; [done|]. cbv zeta in H. head_case H eqn E2; [done|].
  bprop. constructor; [done|by eapply IH].
Qed.

(** ** Theorems *)

(** A journal that has been opened where there was none, and any run of it. *)
Definition reachable (clock : Z) (j : Journal) : Prop :=
  exists e d file' clock0 j0,
    OpenJournal e d FileAbsent = (file', Ok j0) /\ rtc step (clock0, j0) (clock, j).

Lemma reachable_journal_ok clock j : reachable clock j -> journal_ok clock j.
Proof.
  intros (e & d & file' & clock0 & j0 & Ho & Hr).
  destruct (opp_steps_ok _ _ Hr) as [H _]; [by eapply opened_ok|exact H].
Qed.

(** C38: As long as the clock never goes back, in every reachable journal,
    whatever writes fail and wherever it restarts, each record is valid and stored under its own intent, the
    candidate index agrees exactly with the records, and two records never
    share a candidate key; the file holds such records too. (With a clock that goes back
    a successful transition can write an invalid record: [opp_clock_step_back].) *)
Theorem opp_reachable_ok clock j :
  reachable clock j ->
  (forall i r, jn_records j !! i = Some r -> rc_IntentID r = i /\ validRecord r = true) /\
  (forall k i, jn_byKey j !! k = Some i <->
     exists r, jn_records j !! i = Some r /\ keyString (ch_Key (rc_Hint r)) = k) /\
  (forall i i' r r', jn_records j !! i = Some r -> jn_records j !! i' = Some r' ->
     ch_Key (rc_Hint r) = ch_Key (rc_Hint r') -> i = i') /\
  (exists stored, jn_file j = FileDoc (document stored) /\
     map_Forall (fun _ r => validRecord r = true) stored).
Proof.
  intros H. apply reachable_journal_ok in H as [Hr Hix (stored & Hf & Hs & _)]. split_and!.
  - intros i r Hi. split; [by apply (ro_intent _ _ Hr)|by apply (ro_valid _ _ Hr i)].
  - exact Hix.
  - intros i i' r r' H1 H2 E. eapply (ro_unique _ _ Hr); [done..|]. unfold record_key. by rewrite E.
  - exists stored. split; [done|]. intros i r Hi. by apply (ro_valid _ _ Hs i).
Qed.

(** Along every run a record keeps its identity, candidate and discovery
    time, never loses or changes a verification, an assessment or a purchase
    key, never moves to an earlier phase, and is frozen once it is resolved or
    failed; a record with a purchase key never becomes failed. *)
Theorem opp_history clock j clock' j' i r :
  reachable clock j -> rtc step (clock, j) (clock', j') -> jn_records j !! i = Some r ->
  exists r', jn_records j' !! i = Some r' /\ record_le r r' /\
    (purchase_key r <> None -> rc_Phase r' <> PhaseFailed).
Proof.
  intros Hj Hr Hi. apply reachable_journal_ok in Hj.
  destruct (opp_steps_ok _ _ Hr Hj) as [Hj' Hle]. destruct (Hle i r Hi) as (r' & Hi' & Hrr).
  exists r'. split_and!; [done|done|]. intros Hk Hf.
  apply (ro_valid _ _ (jo_records _ _ Hj')), validRecord_split in Hi' as (_ & _ & _ & Hs).
  unfold phase_shape in Hs. rewrite Hf in Hs. unfold validFailedRecord in Hs.
  destruct (purchase_key r) as [k|] eqn:Ek; [|done].
  pose proof (le_key _ _ Hrr k Ek) as Hk'. unfold purchase_key in Hk'.
  destruct (negb _); [done|]. destruct (rc_Purchase r') as [p|]; [|done]. bprop. congruence.
Qed.

(** A restart recovers a reachable journal: in an owner-private directory
    the open succeeds, every record is there, unchanged or moved forward by a
    write whose error was reported, and when memory was saved the records and
    their index are exactly those of before. *)
Theorem opp_restart_recovers clock j e :
  reachable clock j ->
  exists j', OpenJournal e dir_good (jn_file j) = (jn_file j, Ok j') /\
    map_le record_le (jn_records j) (jn_records j') /\
    (jn_file j = FileDoc (document (jn_records j)) ->
       jn_records j' = jn_records j /\ jn_byKey j' = jn_byKey j).
Proof.
  intros H. apply reachable_journal_ok in H as [Hr Hix (stored & Hf & Hs & Hle)].
  rewrite OpenJournal_private, Hf.
  destruct (load_document clock stored e Hs) as (byKey & Hix' & Hl).
  eexists. split_and!; [exact Hl|exact Hle|].
  intros Hd. destruct (load_document clock (jn_records j) e Hr) as (byKey2 & Hix2 & Hl2).
  rewrite Hd, Hl2 in Hl. cbn. injection Hl as <- <-. split; [done|].
  apply map_eq. intros k. apply option_eq. intros i. rewrite (Hix2 k i). symmetry. apply Hix.
Qed.

(** Whatever document lies on disk, an accepted one gives a well-formed
    journal: valid records, each under its intent, and an index of exactly
    their candidates. *)
Theorem opp_load_sound e d file file' j :
  OpenJournal e d file = (file', Ok j) ->
  (forall i r, jn_records j !! i = Some r -> rc_IntentID r = i /\ validRecord r = true) /\
  (forall k i, jn_byKey j !! k = Some i <->
     exists r, jn_records j !! i = Some r /\ keyString (ch_Key (rc_Hint r)) = k).
Proof.
  intros H. destruct file as [| | |doc].
  - apply (opened_ok _ _ _ _ 0%Z) in H as [Hr Hix _]. split; [|exact Hix].
    intros i r Hi. split; [by apply (ro_intent _ _ Hr)|by apply (ro_valid _ _ Hr i)].
  - destruct (OpenJournal_load e d FileUnreadable) as [E|[m E]]; rewrite E in H; done.
  - destruct (OpenJournal_load e d FileUndecodable) as [E|[m E]]; rewrite E in H; done.
  - destruct (OpenJournal_load e d (FileDoc doc)) as [E|[m E]]; rewrite E in H; [|done].
    cbn in H. destruct (negb _); [done|].
    destruct (load_records ∅ ∅ (jd_Records doc)) as [[R B]|m] eqn:El; [|done].
    injection H as <- <-. cbn. eapply load_records_sound; [exact El|..].
    + intros i r. by rewrite lookup_empty.
    + intros k i. rewrite lookup_empty. split; [done|]. intros (r & Hr & _). by rewrite lookup_empty in Hr.
Qed.

(** A transition stamped before the record's discovery (the clock was set
    back) reports success and then the journal cannot be opened any more: the
    stamp it wrote is one [validRecord] refuses. *)
Theorem opp_clock_step_back clock j e intent now apply j' r e' :
  reachable clock j ->
  transition e j intent now apply = (j', Ok r) -> (Unix now < rc_DiscoveredUnix r)%Z ->
  is_err (OpenJournal e' dir_good (jn_file j')).2 = true.
Proof.
  intros Hj H Hlt. apply reachable_journal_ok in Hj as [Hr _ _]. unfold transition in H.
  head_case H eqn Eg; [done|]. head_case H as [record|] eqn Er; [|done].
  head_case H as [applied|] eqn Ea; [|done]. cbv zeta in H.
  set (updated := <[intent := with_updated applied now]> (jn_records j)) in *.
  destruct (persist e (jn_file j) updated) as [file' [[]|]] eqn:Ep; [|done]. injection H as <- <-.
  apply opp_persist_cases in Ep as [_ Hf]. cbn [jn_file]. rewrite Hf by done.
  rewrite OpenJournal_private. unfold load. cbn [jd_Schema document]. rewrite bool_decide_true by done.
  cbn [negb snd]. destruct (load_records ∅ ∅ _) as [out|m] eqn:El; [|done]. exfalso.
  apply load_records_valid in El. rewrite Forall_forall in El.
  assert (validRecord (with_updated applied now) = true) as Hv.
  { apply El. cbn [jd_Records document]. rewrite sort_by_Permutation. apply elem_of_map_vals.
    exists intent. apply lookup_insert_eq. }
  apply validRecord_split in Hv as (_ & _ & Hd & _). cbn in *. lia.
Qed.

(** [Observe] identifies candidates exactly: it returns the record of this
    very candidate and no other, creates one only when there is none, changes
    nothing when there is one, and leaves exactly one record per candidate. *)
Theorem opp_observe_exact clock e material j hint now j' record created :
  reachable clock j -> fresh_material j material -> (clock <= now)%Z ->
  Observe e material j hint now = (j', Ok (record, created)) ->
  ch_Key (rc_Hint record) = ch_Key hint /\
  jn_records j' !! rc_IntentID record = Some record /\
  (forall i r, jn_records j' !! i = Some r -> ch_Key (rc_Hint r) = ch_Key hint -> r = record) /\
  (created = false -> j' = j) /\
  (created = true ->
     (forall i r, jn_records j !! i = Some r -> ch_Key (rc_Hint r) <> ch_Key hint) /\
     record = discovered_record (rc_IntentID record) hint now /\
     jn_records j' = <[rc_IntentID record := record]> (jn_records j)).
Proof.
  intros Hj Hm Hc H. apply reachable_journal_ok in Hj.
  assert (validateHint hint = true) as Hh.
  { unfold Observe in H. destruct (_ || _ || _) eqn:E in H; [done|]. by bprop. }
  destruct (Observe_ok _ _ _ _ _ _ _ _ Hj Hc Hm H) as [Hj' _].
  assert (ch_Key (rc_Hint record) = ch_Key hint /\ jn_records j' !! rc_IntentID record = Some record /\
    (created = false -> j' = j) /\
    (created = true -> jn_byKey j !! keyString (ch_Key hint) = None /\
       record = discovered_record (rc_IntentID record) hint now /\
       jn_records j' = <[rc_IntentID record := record]> (jn_records j))) as (H1 & H2 & H3 & H4).
  { destruct (Observe_cases _ _ _ _ _ _ _ _ Hj Hm H)
      as [(m & _ & [=])|[(i & record0 & -> & [= -> ->] & Hr & Hk)|
          (m & i & file' & rp & _ & _ & _ & _ & Hnk & _ & _ & Hres)]].
    - pose proof (ro_intent _ _ (jo_records _ _ Hj) i record0 Hr) as Hid. rewrite Hid.
      split_and!; [|done..]. apply (ro_valid _ _ (jo_records _ _ Hj)), validRecord_split in Hr as (_ & Hv & _).
      apply keyString_inj; [by apply validateHint_key..|done].
    - destruct rp as [[]|]; destruct Hres as [-> Hres]; [|done]. injection Hres as -> ->.
      cbn. rewrite lookup_insert_eq. done. }
  split_and!; [done|done| |done|].
  - intros i r Hi E. pose proof (ro_unique _ _ (jo_records _ _ Hj') _ _ _ _ Hi H2) as Hu.
    rewrite Hu in Hi by (unfold record_key; congruence). congruence.
  - intros Hcr. destruct (H4 Hcr) as (Hnk & Hd & Hrec). split_and!; [|done|done].
    intros i r Hi E. assert (jn_byKey j !! keyString (ch_Key hint) = Some i) as Hb; [|congruence].
    apply (jo_index _ _ Hj). exists r. split; [done|]. unfold record_key. by rewrite E.
Qed.

(** ** Concrete runs *)

(** The candidate of the repository's own tests. *)
Definition sample_key : CandidateKey :=
  {| ck_Network := {| nw_ID := "tos-test"; nw_GenesisRootHash := hex_EncodeToString (Fixtures.hash 170);
                      nw_GenesisFileHash := hex_EncodeToString (Fixtures.hash 187) |};
     ck_CapabilityID := "cap_" +:+ hex_EncodeToString (Fixtures.hash 204); ck_Version := "1.0.0";
     ck_ManifestDigest := Fixtures.sha 221;
     ck_ProviderAgentID := "agent_" +:+ hex_EncodeToString (Fixtures.hash 238) |}.

Definition sample_hint : CandidateHint :=
  {| ch_Key := sample_key; ch_GatewayIDs := ["gateway-a"; "gateway-b"]; ch_GatewayMatchScore := 77;
     ch_HintCheckpoint := 40; ch_DisplayName := "Bounded test";
     ch_DisplayDescription := "Gateway-local display only"; ch_OperationHint := "test" |}.

Definition sample_verified : VerifiedCandidate :=
  {| vf_Key := sample_key; vf_FinalizedCheckpoint := 42; vf_TVMStateHash := Fixtures.tvm 255;
     vf_Operation := "test"; vf_ManifestName := "Bounded test"; vf_VerifiedAtUnix := 1900000000 |}.

Definition sample_now : Z := 1900000000000000000.
Definition sample_material : option string := Some (Fixtures.hash 17).

(** A fresh journal, and the same after one observation. *)
Definition fresh_journal : Journal :=
  {| jn_file := FileDoc (document ∅); jn_records := ∅; jn_byKey := ∅ |}.
Definition observed_journal : Journal :=
  (Observe io_good sample_material fresh_journal sample_hint sample_now).1.
Definition sample_intent : string := "opp_" +:+ hex_EncodeToString (Fixtures.hash 17).

Lemma fresh_journal_reachable clock : reachable clock fresh_journal.
Proof. exists io_good, dir_good, (FileDoc (document ∅)), clock, fresh_journal. by split. Qed.

Lemma sample_material_fresh : fresh_material fresh_journal sample_material.
Proof. intros m [= <-]. by split. Qed.

Lemma observed_step : step (0%Z, fresh_journal) (sample_now, observed_journal).
Proof.
  eapply (step_observe 0 fresh_journal io_good sample_material sample_hint);
    [done|apply sample_material_fresh|apply surjective_pairing].
Qed.

Lemma observed_journal_reachable : reachable sample_now observed_journal.
Proof.
  exists io_good, dir_good, (FileDoc (document ∅)), 0%Z, fresh_journal. split; [done|].
  apply rtc_once, observed_step.
Qed.

Lemma opp_reachable_ok_witness :
  exists r, jn_records observed_journal !! sample_intent = Some r /\ validRecord r = true.
Proof.
  destruct (opp_reachable_ok sample_now observed_journal observed_journal_reachable) as (H & _).
  destruct (jn_records observed_journal !! sample_intent) as [r|] eqn:E; [|vm_compute in E; discriminate].
  exists r. split; [done|]. by apply (H sample_intent).
Defined.

(** From discovery to the terminal failure. *)
Definition failed_journal : Journal :=
  (MarkFailed io_good observed_journal sample_intent "gone" sample_now).1.

Lemma opp_history_witness :
  exists r r', jn_records observed_journal !! sample_intent = Some r /\
    jn_records failed_journal !! sample_intent = Some r' /\ rc_Phase r' = PhaseFailed /\ record_le r r'.
Proof.
  destruct (jn_records observed_journal !! sample_intent) as [r|] eqn:E; [|vm_compute in E; discriminate].
  destruct (opp_history sample_now observed_journal sample_now failed_journal sample_intent r)
    as (r' & Hr' & Hle & _).
  - apply observed_journal_reachable.
  - apply rtc_once. eapply step_failed; [reflexivity|apply surjective_pairing].
  - exact E.
  - exists r, r'. split_and!; [done|done| |done].
    assert (rc_Phase <$> (jn_records failed_journal !! sample_intent) = Some PhaseFailed) as Hp
      by (vm_compute; reflexivity).
    rewrite Hr' in Hp. by injection Hp.
Defined.

Lemma opp_restart_recovers_witness :
  exists j', OpenJournal io_good dir_good (jn_file observed_journal) = (jn_file observed_journal, Ok j') /\
    jn_records j' = jn_records observed_journal.
Proof.
  destruct (opp_restart_recovers sample_now observed_journal io_good observed_journal_reachable)
    as (j' & Ho & _ & Hsame).
  exists j'. split; [exact Ho|]. apply Hsame. vm_compute. reflexivity.
Defined.

Lemma opp_load_sound_witness :
  exists f j, OpenJournal io_good dir_good (jn_file observed_journal) = (f, Ok j) /\
    map_Forall (fun i r => rc_IntentID r = i) (jn_records j).
Proof.
  assert (is_ok (OpenJournal io_good dir_good (jn_file observed_journal)).2 = true) as Ho
    by (vm_compute; reflexivity).
  destruct (OpenJournal io_good dir_good (jn_file observed_journal)) as [f [j|m]] eqn:E; [|discriminate Ho].
  exists f, j. split; [reflexivity|].
  destruct (opp_load_sound io_good dir_good (jn_file observed_journal) f j E) as [H _].
  intros i r Hi. by apply H.
Defined.

Lemma opp_clock_step_back_witness :
  let out := MarkFailed io_good observed_journal sample_intent "gone" 1000000000 in
  is_ok out.2 = true /\ is_err (OpenJournal io_good dir_good (jn_file out.1)).2 = true.
Proof.
  cbv zeta.
  assert (match (MarkFailed io_good observed_journal sample_intent "gone" 1000000000).2 with
          | Ok r => rc_DiscoveredUnix r | Err _ => 0%Z end = 1900000000%Z) as Hd by (vm_compute; reflexivity).
  destruct (MarkFailed io_good observed_journal sample_intent "gone" 1000000000) as [j' [r|m]] eqn:E;
    cbn [fst snd] in *; [|discriminate]. split; [reflexivity|].
  apply (opp_clock_step_back sample_now observed_journal io_good sample_intent 1000000000
           (apply_failed "gone") j' r); [apply observed_journal_reachable|exact E|].
  rewrite Hd. reflexivity.
Defined.

Lemma opp_observe_exact_witness :
  exists j' record, Observe io_good sample_material fresh_journal sample_hint sample_now =
      (j', Ok (record, true)) /\ ch_Key (rc_Hint record) = sample_key.
Proof.
  assert (match (Observe io_good sample_material fresh_journal sample_hint sample_now).2 with
          | Ok (_, c) => c | Err _ => false end = true) as Hc by (vm_compute; reflexivity).
  destruct (Observe io_good sample_material fresh_journal sample_hint sample_now) as [j' [[record c]|m]] eqn:E;
    cbn [snd] in Hc; [|discriminate Hc]. subst c.
  exists j', record. split; [reflexivity|].
  destruct (opp_observe_exact 0 io_good sample_material fresh_journal sample_hint sample_now j' record true)
    as (H & _); [apply fresh_journal_reachable|apply sample_material_fresh|done|exact E|exact H].
Defined.

End Opportunity.
