(* ===== verification/OppService.v ===== *)
(** * The opportunity scheduler (src/pkg/opportunity/service.go)

    One cycle searches for candidates, has each verified against finalized
    state, assesses it under the local policy and, in policy-gated mode,
    resumes its purchase in the coordinator that owns it. The coordinator, the
    purchase runner, the reporter, the random source and the disk are an
    environment that answers as any function of what happened before; the log
    of calls is part of the state, so that theorems speak about the calls. *)

From S2P Require Import Prelude GoLib GoText FileStore Ledger Protocol Fixtures Opportunity.
#[local] Open Scope N_scope.

Module OppService.
Import Opportunity.

#[local] Set Warnings "-register-all".

(** ** Errors *)

(** The error values of the package and the trees [fmt.Errorf("%w")] and
    [errors.Join] build from them. *)
Inductive error :=
| ErrorString (text : string)
| ErrCoordinatorRejected
| ErrPolicyRunnerRequired
| ErrPurchaseRejected
| Rejection (reason : string)
| PurchaseRejection (reason : string)
| Wrapped (text : string) (inner : error)
| Joined (inner : list error).

(** [errors.Is(err, ErrCoordinatorRejected)]; a [Rejection] unwraps to it. *)
Fixpoint is_rejected (e : error) : bool :=
  match e with
  | ErrCoordinatorRejected | Rejection _ => true
  | Wrapped _ inner => is_rejected inner
  | Joined inner => existsb is_rejected inner
  | _ => false
  end.

Fixpoint is_purchase_rejected (e : error) : bool :=
  match e with
  | ErrPurchaseRejected | PurchaseRejection _ => true
  | Wrapped _ inner => is_purchase_rejected inner
  | Joined inner => existsb is_purchase_rejected inner
  | _ => false
  end.

(** [errors.As]: the first match, depth first. *)
Fixpoint as_rejection (e : error) : option string :=
  match e with
  | Rejection reason => Some reason
  | Wrapped _ inner => as_rejection inner
  | Joined inner =>
      (fix first (l : list error) : option string :=
         match l with
         | [] => None
         | x :: rest => match as_rejection x with Some r => Some r | None => first rest end
         end) inner
  | _ => None
  end.

Fixpoint as_purchase_rejection (e : error) : option string :=
  match e with
  | PurchaseRejection reason => Some reason
  | Wrapped _ inner => as_purchase_rejection inner
  | Joined inner =>
      (fix first (l : list error) : option string :=
         match l with
         | [] => None
         | x :: rest => match as_purchase_rejection x with Some r => Some r | None => first rest end
         end) inner
  | _ => None
  end.

(** A value and an error, as a Go call returns them. *)
Inductive answer (A : Type) := Ret (a : A) | Fail (e : error).
Arguments Ret {A} a.
Arguments Fail {A} e.

(** ** The environment and the state *)

(** Calls that leave the service, in the order made, newest first. *)
Inductive event :=
| EvRandom
| EvJournal
| EvSearch (request : SearchRequest)
| EvVerify (hint : CandidateHint)
| EvAdvance (request : PurchaseRequest)
| EvAssessed (record : JournalRecord).

Class Environment := {
  env_search : list event -> SearchRequest -> answer (list CandidateHint);
  env_verify : list event -> CandidateHint -> answer VerifiedCandidate;
  env_advance : list event -> PurchaseRequest -> answer PurchaseProgress;
  env_random : list event -> Journal -> option string;
  env_io : list event -> io journalDocument
}.

(** [s.coordinator == nil || s.journal == nil] is [negb sv_ready]. *)
Record Service := {
  sv_config : Config;
  sv_ready : bool;
  sv_purchases : bool;
  sv_reporter : bool
}.

Record world := {
  w_journal : Journal;
  w_log : list event
}.

Definition NewServiceWithPurchaseRunner (config : Config) (coordinator purchases journal reporter : bool)
    : answer Service :=
  match Config_Validate config with
  | Err m => Fail (ErrorString m)
  | Ok _ =>
      if bool_decide (cf_Mode config = ModeOff)
      then Ret {| sv_config := config; sv_ready := false; sv_purchases := false; sv_reporter := false |}
      else if bool_decide (cf_Mode config = ModePolicyGated) && negb purchases
      then Fail ErrPolicyRunnerRequired
      else if negb coordinator || negb journal
      then Fail (ErrorString "observe opportunity service needs a coordinator and durable journal")
      else Ret {| sv_config := config; sv_ready := true; sv_purchases := purchases; sv_reporter := reporter |}
  end.

Definition NewService (config : Config) (coordinator journal reporter : bool) : answer Service :=
  NewServiceWithPurchaseRunner config coordinator false journal reporter.

(** [Start] and [Stop]: whether a loop runs, and how many were ever started. *)
Record lifecycle := { lc_running : bool; lc_started : N }.

Definition Start (s : Service) (l : lifecycle) : lifecycle :=
  if bool_decide (cf_Mode (sv_config s) = ModeOff) then l
  else if lc_running l then l
  else {| lc_running := true; lc_started := lc_started l + 1 |}.

Definition Stop (l : lifecycle) : lifecycle := {| lc_running := false; lc_started := lc_started l |}.

(** [value = value<<8 | uint64(b)] over the bytes drawn. *)
Fixpoint jitter_value (value : N) (material : string) : N :=
  match material with
  | EmptyString => value
  | String b rest => jitter_value (N.lor (u64 (N.shiftl value 8)) (byte_of b)) rest
  end.

(** [None] is a failed draw. *)
Definition secureJitter (material : option string) (max : Z) : Z :=
  if (max <=? 0)%Z then 0%Z
  else
    match material with
    | None => 0%Z
    | Some material =>
        Z.of_N (jitter_value 0 material mod u64 (Z.to_N (max + 1)))
    end.

(** The delay [loop] waits between cycles. *)
Definition loop_delay (s : Service) (material : option string) : Z :=
  (cf_Interval (sv_config s) + secureJitter material (cf_Jitter (sv_config s)))%Z.

Section operations.
Context `{ENV : Environment}.

Definition logged (w : world) (ev : event) : world :=
  {| w_journal := w_journal w; w_log := ev :: w_log w |}.

(** A journal operation under the environment's disk. *)
Definition journal_call {A} (op : io journalDocument -> Journal -> Journal * result A) (w : world)
    : world * answer A :=
  let '(j', r) := op (env_io (w_log w)) (w_journal w) in
  ({| w_journal := j'; w_log := EvJournal :: w_log w |},
   match r with Ok a => Ret a | Err m => Fail (ErrorString m) end).

Definition newRequestID (w : world) : world * answer string :=
  (logged w EvRandom,
   match env_random (w_log w) (w_journal w) with
   | None => Fail (ErrorString "generate opportunity request identity")
   | Some material => Ret ("opp-request_" +:+ hex_EncodeToString material)
   end).

Definition assess (s : Service) (record : JournalRecord) (verified : VerifiedCandidate) (now : Z)
    : Assessment :=
  let c := sv_config s in
  let provider := ck_ProviderAgentID (vf_Key verified) in
  let '(eligible, reason) :=
    if bool_decide (provider ∈ cf_DeniedProviders c)
    then (false, "provider is denied by local policy"%string)
    else if (0 <? llen (cf_AllowedProviders c)) && negb (bool_decide (provider ∈ cf_AllowedProviders c))
    then (false, "provider is not locally allowed"%string)
    else if (0 <? llen (cf_AllowedOperations c))
            && negb (bool_decide (vf_Operation verified ∈ cf_AllowedOperations c))
    then (false, "operation is not locally allowed"%string)
    else (true, "verified candidate is eligible for operator review"%string) in
  {| as_Eligible := eligible; as_Score := ch_GatewayMatchScore (rc_Hint record);
     as_Reason := reason; as_AssessedAtUnix := Unix now |}.

(** A reason with the rejection's own, when that is presentable. *)
Definition with_reason (base : string) (rejection : option string) : string :=
  match rejection with
  | Some reason => if boundedText reason 1 400 then base +:+ ": " +:+ reason else base
  | None => base
  end.

(** [errors.Join(err, markErr)], which leaves out a nil error. *)
Definition join_mark {A} (e : error) (marked : answer A) : error :=
  match marked with Ret _ => Joined [e] | Fail m => Joined [e; m] end.

(** The loop of [advancePurchase]. *)
Fixpoint advance_loop (steps : nat) (record : JournalRecord) (now : Z) (w : world) : world * answer unit :=
  match steps with
  | O => (w, Ret tt)
  | S steps =>
      if bool_decide (rc_Phase record = PhasePurchaseResolved) then (w, Ret tt)
      else
        match rc_Verified record with
        | None => (w, Fail (ErrorString "nil pointer dereference"))
        | Some verified =>
            let request := {| pr_IntentID := rc_IntentID record; pr_Current := rc_Phase record;
                              pr_Candidate := verified; pr_Key := purchase_key record |} in
            let w1 := logged w (EvAdvance request) in
            match env_advance (w_log w) request with
            | Fail runErr =>
                if is_purchase_rejected runErr
                   && negb (bool_decide (rc_Phase record = PhasePurchaseReferenced))
                then
                  let reason := with_reason "purchase rejected by exact signed policy"
                                  (as_purchase_rejection runErr) in
                  let '(w2, marked) :=
                    journal_call (fun e j => MarkFailed e j (rc_IntentID record) reason now) w1 in
                  (w2, Fail (join_mark runErr marked))
                else (w1, Fail runErr)
            | Ret progress =>
                let '(w2, r) :=
                  journal_call (fun e j => MarkPurchaseProgress e j (rc_IntentID record) progress now) w1 in
                match r with
                | Fail e => (w2, Fail e)
                | Ret record =>
                    if bool_decide (rc_Phase record = PhasePurchaseReferenced) then (w2, Ret tt)
                    else advance_loop steps record now w2
                end
            end
        end
  end.

Definition advancePurchase (s : Service) (record : JournalRecord) (now : Z) (w : world)
    : world * answer unit :=
  if negb (sv_purchases s) || is_none (rc_Verified record) || negb (eligible record)
  then (w, Fail ErrPolicyRunnerRequired)
  else if bool_decide (rc_Phase record = PhaseAssessed) then
    let '(w1, r) := journal_call (fun e j => MarkQuoteRequested e j (rc_IntentID record) now) w in
    match r with
    | Fail e => (w1, Fail e)
    | Ret record => advance_loop 4 record now w1
    end
  else advance_loop 4 record now w.

(** [process] from the assessment on. *)
Definition process_assess (s : Service) (record : JournalRecord) (now : Z) (w : world)
    : world * answer unit :=
  match rc_Phase record, rc_Verified record with
  | PhaseVerified, Some verified =>
      let assessment := assess s record verified now in
      let '(w1, r) := journal_call (fun e j => MarkAssessed e j (rc_IntentID record) assessment now) w in
      match r with
      | Fail e => (w1, Fail e)
      | Ret record =>
          let w2 := if sv_reporter s then logged w1 (EvAssessed record) else w1 in
          if bool_decide (cf_Mode (sv_config s) = ModeObserve) || negb (as_Eligible assessment)
          then (w2, Ret tt)
          else if negb (bool_decide (cf_Mode (sv_config s) = ModePolicyGated)) then (w2, Ret tt)
          else advancePurchase s record now w2
      end
  | PhaseVerified, None => (w, Fail (ErrorString "nil pointer dereference"))
  | _, _ =>
      if negb (bool_decide (cf_Mode (sv_config s) = ModePolicyGated)) then (w, Ret tt)
      else advancePurchase s record now w
  end.

Definition process (s : Service) (hint : CandidateHint) (now : Z) (w : world) : world * answer unit :=
  let '(w1, r) :=
    journal_call (fun e j => Observe e (env_random (w_log w) (w_journal w)) j hint now) w in
  match r with
  | Fail e => (w1, Fail e)
  | Ret (record, _) =>
      if bool_decide (rc_Phase record = PhaseFailed) || bool_decide (rc_Phase record = PhasePurchaseResolved)
      then (w1, Ret tt)
      else if bool_decide (rc_Phase record = PhaseDiscovered) then
        let w2 := logged w1 (EvVerify hint) in
        match env_verify (w_log w1) hint with
        | Fail verifyErr =>
            if is_rejected verifyErr then
              let reason := with_reason "candidate failed independent finalized verification"
                              (as_rejection verifyErr) in
              let '(w3, marked) :=
                journal_call (fun e j => MarkFailed e j (rc_IntentID record) reason now) w2 in
              (w3, Fail (join_mark verifyErr marked))
            else (w2, Fail verifyErr)
        | Ret verified =>
            let '(w3, r) :=
              journal_call (fun e j => MarkVerified e j (rc_IntentID record) verified now) w2 in
            match r with
            | Fail e => (w3, Fail e)
            | Ret record => process_assess s record now w3
            end
        end
      else process_assess s record now w1
  end.

(** The inner loop of [Cycle]: every hint is processed, failures collect. *)
Fixpoint process_all (s : Service) (hints : list CandidateHint) (now : Z) (failures : list error) (w : world)
    : world * list error :=
  match hints with
  | [] => (w, failures)
  | hint :: rest =>
      let '(w1, r) := process s hint now w in
      process_all s rest now (failures ++ match r with Fail e => [e] | Ret _ => [] end) w1
  end.

Fixpoint cycle_queries (s : Service) (queries : list string) (now : Z) (remaining : N)
    (failures : list error) (w : world) : world * answer unit :=
  match queries with
  | [] => (w, match failures with [] => Ret tt | _ => Fail (Joined failures) end)
  | query :: rest =>
      if remaining =? 0 then (w, match failures with [] => Ret tt | _ => Fail (Joined failures) end)
      else
        let '(w1, id) := newRequestID w in
        match id with
        | Fail e => (w1, Fail e)
        | Ret requestID =>
            let pageSize := if u32 remaining <? cf_PageSize (sv_config s) then u32 remaining
                            else cf_PageSize (sv_config s) in
            let request :=
              {| sr_RequestID := requestID; sr_Query := query; sr_PageSize := pageSize;
                 sr_MaxCandidates := u32 remaining;
                 sr_DeadlineUnixMS := UnixMilli (time_Add now (cf_RequestTimeout (sv_config s))) |} in
            let w2 := logged w1 (EvSearch request) in
            match env_search (w_log w1) request with
            | Fail e => cycle_queries s rest now remaining (failures ++ [Wrapped query e]) w2
            | Ret hints =>
                if (remaining <? llen hints) || (cf_PageSize (sv_config s) <? llen hints)
                then
                  cycle_queries s rest now remaining
                    (failures ++ [ErrorString "search exceeded candidate bounds"]) w2
                else
                  let '(w3, failures) := process_all s hints now failures w2 in
                  cycle_queries s rest now (remaining - llen hints) failures w3
            end
        end
  end.

Definition Cycle (s : Service) (now : Z) (w : world) : world * answer unit :=
  if bool_decide (cf_Mode (sv_config s) = ModeOff) then (w, Ret tt)
  else if negb (sv_ready s) then (w, Fail (ErrorString "invalid opportunity cycle"))
  else if (Unix now <=? 0)%Z then (w, Fail (ErrorString "opportunity clock is invalid"))
  else cycle_queries s (cf_Queries (sv_config s)) now (cf_MaxCandidates (sv_config s)) [] w.

(** ** What a cycle may do: the policy gate *)

(** The local policy on a verified candidate. *)
Definition policy_ok (c : Config) (v : VerifiedCandidate) : Prop :=
  (ck_ProviderAgentID (vf_Key v) ∉ cf_DeniedProviders c) /\
  (cf_AllowedProviders c = [] \/ ck_ProviderAgentID (vf_Key v) ∈ cf_AllowedProviders c) /\
  (cf_AllowedOperations c = [] \/ vf_Operation v ∈ cf_AllowedOperations c).

Section gate.
(** The candidates that an earlier policy has granted: intents whose record was
    already assessed as eligible, with the verification they were assessed on. *)
Variable granted : string -> VerifiedCandidate -> Prop.

Definition admitted (c : Config) (intent : string) (v : VerifiedCandidate) : Prop :=
  policy_ok c v \/ granted intent v.

(** An eligible record is one that the policy or an earlier one admits. *)
Definition policy_record (c : Config) (r : JournalRecord) : Prop :=
  eligible r = true -> forall v, rc_Verified r = Some v -> admitted c (rc_IntentID r) v.

(** The calls a gated service may make to the purchase runner. *)
Definition event_ok (s : Service) (ev : event) : Prop :=
  match ev with
  | EvAdvance request =>
      cf_Mode (sv_config s) = ModePolicyGated /\ sv_purchases s = true /\
      validatePurchaseRequest request = true /\ admitted (sv_config s) (pr_IntentID request) (pr_Candidate request)
  | _ => True
  end.

Record world_ok (s : Service) (now : Z) (w : world) : Prop := {
  wo_journal : journal_ok now (w_journal w);
  wo_policy : map_Forall (fun _ r => policy_record (sv_config s) r) (jn_records (w_journal w));
  wo_calls : Forall (event_ok s) (w_log w)
}.

(** The record is the journal's. *)
Definition in_journal (w : world) (r : JournalRecord) : Prop :=
  jn_records (w_journal w) !! rc_IntentID r = Some r.

Lemma llen_zero {A} (l : list A) : (0 <? llen l) = false -> l = [].
Proof. destruct l; [done|]. unfold llen. simpl. intros H. bprop. lia. Qed.

Lemma assess_policy s record verified now :
  as_Eligible (assess s record verified now) = true -> policy_ok (sv_config s) verified.
Proof.
  unfold assess, policy_ok. case_bool_decide; [done|].
  destruct (_ && _) eqn:E1; [done|]. destruct (_ && _) eqn:E2 at 1; [done|]. intros _. split_and!; [done|..].
  - apply andb_false_iff in E1 as [E1|E1]; [left; by apply llen_zero|]. right. by bprop.
  - apply andb_false_iff in E2 as [E2|E2]; [left; by apply llen_zero|]. right. by bprop.
Qed.

Lemma world_ok_logged s now w ev : world_ok s now w -> event_ok s ev -> world_ok s now (logged w ev).
Proof. intros [] He. constructor; cbn; [done|done|by constructor]. Qed.

(** A transition that keeps the policy keeps the world; the record it returns
    is the journal's. *)
Lemma transition_call s now w intent apply w' r :
  world_ok s now w -> apply_sound intent apply ->
  (forall record applied, jn_records (w_journal w) !! intent = Some record -> validRecord record = true ->
     policy_record (sv_config s) record -> apply record = Ok applied ->
     policy_record (sv_config s) applied) ->
  journal_call (fun e j => transition e j intent now apply) w = (w', r) ->
  world_ok s now w' /\ w_log w' = EvJournal :: w_log w /\
  forall record', r = Ret record' -> in_journal w' record' /\
    exists record applied, jn_records (w_journal w) !! intent = Some record /\ apply record = Ok applied /\
      record' = with_updated applied now.
Proof.
  intros [Hj Hp Hc] Ha Hpol H. unfold journal_call in H.
  destruct (transition _ _ _ _ _) as [j' rj] eqn:E. injection H as <- <-.
  destruct (transition_ok now _ _ _ _ _ _ _ Hj ltac:(done) Ha E) as [Hj' _].
  pose proof (transition_result _ _ _ _ _ _ _ E) as Hr. destruct rj as [record'|m].
  - destruct Hr as (record & applied & Hl & Happ & Hrec & Hmap).
    assert (rc_IntentID record' = intent) as Hid.
    { eapply (ro_intent _ _ (jo_records _ _ Hj')). rewrite Hmap. apply lookup_insert_eq. }
    split_and!; [|done|].
    + constructor; cbn; [done| |by constructor]. rewrite Hmap. apply map_Forall_insert_2; [|done].
      assert (policy_record (sv_config s) applied) as Hpa.
      { eapply Hpol; [exact Hl|by eapply ro_valid, Hl; apply Hj|by apply (Hp intent)|done]. }
      rewrite Hrec. exact Hpa.
    + intros ? [= <-]. split; [|by exists record, applied].
      unfold in_journal. cbn. rewrite Hid, Hmap. apply lookup_insert_eq.
  - split_and!; [|done|done]. constructor; cbn; [done|by rewrite Hr|by constructor].
Qed.

(** Steps that leave the verification and the assessment alone. *)
Lemma policy_record_same c r r' :
  policy_record c r -> rc_IntentID r' = rc_IntentID r -> rc_Verified r' = rc_Verified r ->
  rc_Assessment r' = rc_Assessment r -> policy_record c r'.
Proof. unfold policy_record, eligible. intros H -> -> ->. done. Qed.

Ltac same_policy :=
  intros record applied _ _ Hpol Ha;
  match type of Ha with ?f _ = _ => unfold f in Ha | ?f _ _ = _ => unfold f in Ha | ?f _ _ _ = _ => unfold f in Ha end;
  repeat case_match; simplify_eq; by eapply policy_record_same.

Lemma failed_policy c (records : gmap string JournalRecord) intent reason record applied :
  records !! intent = Some record -> validRecord record = true -> policy_record c record ->
  apply_failed reason record = Ok applied -> policy_record c applied.
Proof. revert record applied. same_policy. Qed.

Lemma progress_policy c (records : gmap string JournalRecord) intent progress record applied :
  records !! intent = Some record -> validRecord record = true -> policy_record c record ->
  apply_progress intent progress record = Ok applied -> policy_record c applied.
Proof. revert record applied. same_policy. Qed.

Lemma quote_policy c (records : gmap string JournalRecord) intent record applied :
  records !! intent = Some record -> validRecord record = true -> policy_record c record ->
  apply_quote_requested record = Ok applied -> policy_record c applied.
Proof. revert record applied. same_policy. Qed.

(** The phases in which [advance_loop] finds its record. *)
Definition purchasing (phase : Phase) : bool :=
  match phase with
  | PhaseQuoteRequested | PhaseQuoteVerified | PhasePolicyAuthorized | PhasePurchaseReferenced
  | PhasePurchaseResolved => true
  | _ => false
  end.

Lemma in_journal_valid s now w r : world_ok s now w -> in_journal w r -> validRecord r = true.
Proof. intros Hw Hr. eapply ro_valid; [apply (wo_journal _ _ _ Hw)|exact Hr]. Qed.

(** The request the loop builds from a purchasing record is well-formed. *)
Lemma request_valid r v :
  validRecord r = true -> purchasing (rc_Phase r) = true -> rc_Phase r <> PhasePurchaseResolved ->
  rc_Verified r = Some v ->
  validatePurchaseRequest {| pr_IntentID := rc_IntentID r; pr_Current := rc_Phase r;
                             pr_Candidate := v; pr_Key := purchase_key r |} = true.
Proof.
  intros Hv Hp Hn Hver. apply validRecord_split in Hv as (Hi & _ & _ & Hs).
  unfold phase_shape, validAssessedPurchaseBase, verified_ok in Hs. rewrite Hver in Hs.
  unfold validatePurchaseRequest, purchase_key. cbn [pr_IntentID pr_Candidate pr_Current pr_Key].
  rewrite Hi. cbn [negb orb].
  destruct (rc_Phase r) eqn:Eph; try done; bprop;
    match goal with H : validateVerified v = true |- _ => rewrite H end; cbn;
    destruct (rc_Purchase r) as [p|]; try done; bprop;
    match goal with H : validatePurchaseProgress p = true, H' : pp_Phase p = _ |- _ =>
      unfold validatePurchaseProgress in H; rewrite H' in H end;
    match goal with H : (if ?b then false else _) = true |- _ => destruct b; [discriminate H|] end; bprop;
    destruct (pp_Key p); done.
Qed.

(** [apply_progress] leaves the record purchasing, eligibility unchanged. *)
Lemma apply_progress_purchasing intent progress r r' :
  apply_progress intent progress r = Ok r' ->
  purchasing (rc_Phase r') = true /\ eligible r' = eligible r.
Proof.
  unfold apply_progress. intros H. head_case H eqn E1; [done|]. head_case H eqn E2; [done|]. injection H as <-.
  split; [|done]. cbn. bprop.
  destruct (rc_Phase r); cbn in *; try done; bprop;
    repeat match goal with H : _ \/ _ |- _ => destruct H; bprop
           | H : pp_Phase progress = _ |- _ => rewrite H end; done.
Qed.

Lemma advance_loop_ok s steps : forall record now w w' r,
  world_ok s now w -> in_journal w record -> purchasing (rc_Phase record) = true -> eligible record = true ->
  cf_Mode (sv_config s) = ModePolicyGated -> sv_purchases s = true ->
  advance_loop steps record now w = (w', r) -> world_ok s now w'.
Proof.
  induction steps as [|steps IH]; intros record now w w' r Hw Hin Hph Hel Hmode Hpur H; cbn [advance_loop] in H.
  { by simplify_eq. }
  case_bool_decide as Hres; [by simplify_eq|].
  head_case H as [v|] eqn Ev; [|by simplify_eq]. cbv zeta in H.
  pose proof (in_journal_valid _ _ _ _ Hw Hin) as Hval.
  set (request := {| pr_IntentID := _ |}) in *.
  assert (world_ok s now (logged w (EvAdvance request))) as Hw1.
  { apply world_ok_logged; [done|]. pose proof (wo_policy _ _ _ Hw _ _ Hin Hel v Ev) as Hpol. split_and!; [done|done| |exact Hpol].
    by apply request_valid. }
  destruct (env_advance (w_log w) request) as [progress|runErr].
  - destruct (journal_call _ _) as [w2 r2] eqn:E2.
    destruct (transition_call s now _ _ _ _ _ Hw1 (apply_progress_sound _ _) (progress_policy _ _ _ _) E2)
      as (Hw2 & _ & Hrec).
    destruct r2 as [record2|e]; [|by simplify_eq].
    destruct (Hrec record2 eq_refl) as (Hin2 & rec0 & applied & Hl & Happ & ->).
    unfold in_journal in Hin. cbn in Hl. rewrite Hin in Hl. injection Hl as <-.
    destruct (apply_progress_purchasing _ _ _ _ Happ) as [Hp2 He2].
    case_bool_decide; [by simplify_eq|].
    eapply IH; [exact Hw2|exact Hin2|exact Hp2| |done|done|exact H].
    unfold eligible in *. cbn. by rewrite He2.
  - destruct (_ && _); [|by simplify_eq].
    destruct (journal_call _ _) as [w2 r2] eqn:E2. simplify_eq.
    by destruct (transition_call s now _ _ _ _ _ Hw1 (apply_failed_sound _ _) (failed_policy _ _ _ _) E2).
Qed.

Lemma advancePurchase_ok s record now w w' r :
  world_ok s now w -> in_journal w record -> rc_Phase record = PhaseAssessed \/ purchasing (rc_Phase record) = true ->
  cf_Mode (sv_config s) = ModePolicyGated ->
  advancePurchase s record now w = (w', r) -> world_ok s now w'.
Proof.
  intros Hw Hin Hph Hmode H. unfold advancePurchase in H.
  head_case H eqn Eg; [by simplify_eq|]. bprop. case_bool_decide as Ha.
  - destruct (journal_call _ _) as [w1 r1] eqn:E1.
    destruct (transition_call s now _ _ _ _ _ Hw (apply_quote_requested_sound _) (quote_policy _ _ _) E1)
      as (Hw1 & _ & Hrec).
    destruct r1 as [record1|e]; [|by simplify_eq].
    destruct (Hrec record1 eq_refl) as (Hin1 & rec0 & applied & Hl & Happ & ->).
    unfold in_journal in Hin. rewrite Hin in Hl. injection Hl as <-.
    unfold apply_quote_requested in Happ. head_case Happ eqn E; [done|]. injection Happ as <-.
    eapply advance_loop_ok; [exact Hw1|exact Hin1|done|done|done|done|exact H].
  - destruct Hph as [?|Hph]; [done|]. by eapply advance_loop_ok.
Qed.

(** The random source never repeats an intent of the journal. *)
Definition fresh_draws : Prop := forall log j, fresh_material j (env_random log j).

Lemma observe_call s now w hint w' r :
  world_ok s now w -> fresh_draws ->
  journal_call (fun e j => Observe e (env_random (w_log w) (w_journal w)) j hint now) w = (w', r) ->
  world_ok s now w' /\ w_log w' = EvJournal :: w_log w /\
  forall record created, r = Ret (record, created) -> in_journal w' record.
Proof.
  intros [Hj Hp Hc] Hd H. unfold journal_call in H.
  destruct (Observe _ _ _ _ _) as [j' rj] eqn:E. injection H as <- <-.
  assert (fresh_material (w_journal w) (env_random (w_log w) (w_journal w))) as Hf by apply Hd.
  destruct (Observe_ok now _ _ _ _ _ _ _ Hj ltac:(done) Hf E) as [Hj' _].
  destruct (Observe_cases _ _ _ _ _ _ _ _ Hj Hf E)
    as [(m & -> & ->)|[(i & record & -> & -> & Hr & Hk)|(m & i & file' & rp & _ & _ & _ & _ & _ & _ & _ & Hres)]].
  - split_and!; [|done|done]. constructor; cbn; [done|done|by constructor].
  - split_and!; [constructor; cbn; [done|done|by constructor]|done|].
    intros ? ? [= <- <-]. unfold in_journal. cbn.
    by rewrite (ro_intent _ _ (jo_records _ _ Hj) i record Hr).
  - destruct rp as [[]|m']; destruct Hres as [-> ->].
    + split_and!; [constructor; cbn; [done| |by constructor]|done|].
      * apply map_Forall_insert_2; [done|done].
      * intros ? ? [= <- <-]. unfold in_journal. cbn. apply lookup_insert_eq.
    + split_and!; [|done|done]. constructor; cbn; [done|done|by constructor].
Qed.

(** The phases a valid record can be in. *)
Lemma valid_phase r :
  validRecord r = true ->
  rc_Phase r = PhaseDiscovered \/ rc_Phase r = PhaseVerified \/ rc_Phase r = PhaseAssessed \/
  rc_Phase r = PhaseFailed \/ purchasing (rc_Phase r) = true.
Proof.
  intros H. apply validRecord_split in H as (_ & _ & _ & Hs). unfold phase_shape in Hs.
  destruct (rc_Phase r); auto 6.
Qed.

Lemma process_assess_ok s record now w w' r :
  world_ok s now w -> in_journal w record -> rc_Phase record <> PhaseDiscovered ->
  rc_Phase record <> PhaseFailed ->
  process_assess s record now w = (w', r) -> world_ok s now w'.
Proof.
  intros Hw Hin Hnd Hnf H. unfold process_assess in H.
  assert (rc_Phase record <> PhaseVerified ->
    (if negb (bool_decide (cf_Mode (sv_config s) = ModePolicyGated)) then (w, Ret tt)
     else advancePurchase s record now w) = (w', r) -> world_ok s now w') as Hlater.
  { intros Hnv H'. case_bool_decide as Hm; cbn in H'; [|by simplify_eq].
    eapply advancePurchase_ok; [exact Hw|exact Hin| |exact Hm|exact H'].
    destruct (valid_phase record (in_journal_valid _ _ _ _ Hw Hin)) as [?|[?|[?|[?|?]]]]; auto; done. }
  destruct (rc_Phase record) eqn:Eph; try (by apply Hlater).
  destruct (rc_Verified record) as [v|] eqn:Ev; [|by simplify_eq]. cbv zeta in H.
  destruct (journal_call _ _) as [w1 r1] eqn:E1.
  eapply (transition_call s now w) in E1 as (Hw1 & _ & Hrec); [|done|apply apply_assessed_sound|].
  2:{ intros rec applied Hl _ _ Happ. unfold in_journal in Hin. rewrite Hin in Hl. injection Hl as <-.
      unfold apply_assessed in Happ. head_case Happ eqn E; [done|]. injection Happ as <-.
      intros He v' Hv'. cbn in Hv'. rewrite Ev in Hv'. injection Hv' as <-. left. by apply assess_policy in He. }
  destruct r1 as [record1|e]; [|by simplify_eq].
  destruct (Hrec record1 eq_refl) as (Hin1 & rec0 & applied & Hl & Happ & Hr1).
  assert (rc_Phase record1 = PhaseAssessed) as Hp1.
  { subst record1. unfold apply_assessed in Happ. head_case Happ eqn E; [done|]. by injection Happ as <-. }
  set (w2 := if sv_reporter s then logged w1 (EvAssessed record1) else w1) in *.
  assert (world_ok s now w2 /\ in_journal w2 record1) as [Hw2 Hin2].
  { subst w2. destruct (sv_reporter s); [|done]. split; [by apply world_ok_logged|done]. }
  destruct (_ || _); [by simplify_eq|]. case_bool_decide as Hm; cbn in H; [|by simplify_eq].
  eapply advancePurchase_ok; [exact Hw2|exact Hin2|by left|exact Hm|exact H].
Qed.

Lemma process_ok s hint now w w' r :
  world_ok s now w -> fresh_draws -> process s hint now w = (w', r) -> world_ok s now w'.
Proof.
  intros Hw Hd H. unfold process in H. destruct (journal_call _ _) as [w1 r1] eqn:E1.
  apply (observe_call s now w hint) in E1 as (Hw1 & _ & Hrec); [|done|done].
  destruct r1 as [[record created]|e]; [|by simplify_eq].
  specialize (Hrec _ _ eq_refl). head_case H eqn Et; [by simplify_eq|]. bprop.
  case_bool_decide as Hdisc; [|by eapply process_assess_ok]. cbv zeta in H.
  assert (world_ok s now (logged w1 (EvVerify hint))) as Hw2 by (by apply world_ok_logged).
  destruct (env_verify (w_log w1) hint) as [verified|verifyErr].
  - destruct (journal_call _ _) as [w3 r3] eqn:E3.
    eapply (transition_call s now _) in E3 as (Hw3 & _ & Hrec3); [|done|apply apply_verified_sound|].
    2:{ intros rec applied Hl Hv _ Happ. apply validRecord_split in Hv as (_ & _ & _ & Hs).
        unfold apply_verified in Happ. head_case Happ eqn E; [done|]. injection Happ as <-. bprop.
        unfold phase_shape in Hs. match goal with H : rc_Phase rec = _ |- _ => rewrite H in Hs end.
        intros He. unfold eligible in He. cbn in He. destruct (rc_Assessment rec); [|done].
        by rewrite andb_false_r in Hs. }
    destruct r3 as [record3|e]; [|by simplify_eq].
    destruct (Hrec3 record3 eq_refl) as (Hin3 & rec0 & applied & Hl & Happ & Hr3).
    assert (rc_Phase record3 = PhaseVerified) as Hp3.
    { subst record3. unfold apply_verified in Happ. head_case Happ eqn E; [done|]. by injection Happ as <-. }
    eapply process_assess_ok; [exact Hw3|exact Hin3|by rewrite Hp3|by rewrite Hp3|exact H].
  - destruct (is_rejected verifyErr); [|by simplify_eq].
    destruct (journal_call _ _) as [w3 r3] eqn:E3. simplify_eq.
    by destruct (transition_call s now _ _ _ _ _ Hw2 (apply_failed_sound _ _) (failed_policy _ _ _ _) E3).
Qed.

Lemma process_all_ok s hints now : forall failures w w' out,
  world_ok s now w -> fresh_draws -> process_all s hints now failures w = (w', out) -> world_ok s now w'.
Proof.
  induction hints as [|hint hints IH]; intros failures w w' out Hw Hd H; cbn in H; [by simplify_eq|].
  destruct (process s hint now w) as [w1 r1] eqn:E1. apply process_ok in E1; [|done|done]. by eapply IH.
Qed.

Lemma cycle_queries_ok s queries now : forall remaining failures w w' r,
  world_ok s now w -> fresh_draws ->
  cycle_queries s queries now remaining failures w = (w', r) -> world_ok s now w'.
Proof.
  induction queries as [|q queries IH]; intros remaining failures w w' r Hw Hd H; cbn in H; [by simplify_eq|].
  head_case H eqn E0; [by simplify_eq|].
  destruct (env_random (w_log w) (w_journal w)); [|simplify_eq; by apply world_ok_logged].
  cbv zeta in H. set (request := {| sr_RequestID := _ |}) in *.
  assert (world_ok s now (logged (logged w EvRandom) (EvSearch request))) as Hw2
    by (by do 2 (apply world_ok_logged; [|done])).
  cbn [logged w_log w_journal] in *.
  destruct (env_search _ _) as [hints|e]; [|by eapply IH].
  destruct (_ || _); [by eapply IH|].
  destruct (process_all _ _ _ _ _) as [w3 f3] eqn:E3. apply process_all_ok in E3; [|done|done].
  eapply IH; [exact E3|done|exact H].
Qed.

Lemma Cycle_ok s now w w' r :
  world_ok s now w -> fresh_draws -> Cycle s now w = (w', r) -> world_ok s now w'.
Proof.
  unfold Cycle. intros Hw Hd H. head_case H eqn E1; [by simplify_eq|]. head_case H eqn E2; [by simplify_eq|].
  head_case H eqn E3; [by simplify_eq|]. by eapply cycle_queries_ok.
Qed.

(** Cycles one after the other. *)
Definition cycles (s : Service) (times : list Z) (w : world) : world :=
  foldl (fun w now => (Cycle s now w).1) w times.

Lemma world_ok_mono s clock now w : (clock <= now)%Z -> world_ok s clock w -> world_ok s now w.
Proof. intros Hc []. constructor; [by eapply journal_ok_mono|done|done]. Qed.

Lemma cycles_ok s times : forall clock w,
  fresh_draws -> StronglySorted Z.le (clock :: times) -> world_ok s clock w ->
  exists now, world_ok s now (cycles s times w).
Proof.
  induction times as [|now times IH]; intros clock w Hd Hs Hw; cbn; [eauto|].
  inversion Hs as [|? ? Hs' Hf]; subst. apply Forall_cons in Hf as [Hle _].
  apply (IH now); [done|done|]. destruct (Cycle s now w) as [w' r] eqn:E.
  eapply Cycle_ok; [|done|exact E]. by eapply world_ok_mono.
Qed.

(** ** How much a cycle may do: counting calls *)

Definition is_search (ev : event) : bool := match ev with EvSearch _ => true | _ => false end.
Definition is_verify (ev : event) : bool := match ev with EvVerify _ => true | _ => false end.
Definition is_advance (ev : event) : bool := match ev with EvAdvance _ => true | _ => false end.

Definition calls (p : event -> bool) (w : world) : nat := length (List.filter p (w_log w)).

(** [w'] comes after [w] with at most this many searches, verifications and
    purchase calls in between. *)
Definition within (searches verifies advances : nat) (w w' : world) : Prop :=
  (calls is_search w' <= calls is_search w + searches /\
   calls is_verify w' <= calls is_verify w + verifies /\
   calls is_advance w' <= calls is_advance w + advances)%nat.

Lemma within_trans a b c a' b' c' w1 w2 w3 :
  within a b c w1 w2 -> within a' b' c' w2 w3 -> within (a + a') (b + b') (c + c') w1 w3.
Proof. unfold within. lia. Qed.

Lemma within_weaken a b c a' b' c' w1 w2 :
  within a b c w1 w2 -> (a <= a')%nat -> (b <= b')%nat -> (c <= c')%nat -> within a' b' c' w1 w2.
Proof. unfold within. lia. Qed.

Lemma within_refl w : within 0 0 0 w w.
Proof. unfold within. lia. Qed.

Lemma within_logged w ev :
  within (if is_search ev then 1 else 0) (if is_verify ev then 1 else 0) (if is_advance ev then 1 else 0)
    w (logged w ev).
Proof. unfold within, calls, logged. destruct ev; cbn; lia. Qed.

Lemma within_journal {A} (op : io journalDocument -> Journal -> Journal * result A) w w' r :
  journal_call op w = (w', r) -> within 0 0 0 w w'.
Proof.
  unfold journal_call. destruct (op _ _). intros [= <- <-]. unfold within, calls. cbn. lia.
Qed.

Lemma advance_loop_within steps : forall record now w w' r,
  advance_loop steps record now w = (w', r) -> within 0 0 steps w w'.
Proof.
  induction steps as [|steps IH]; intros record now w w' r H; cbn [advance_loop] in H.
  { simplify_eq. apply within_refl. }
  case_bool_decide; [simplify_eq; eapply within_weaken; [apply within_refl|lia..]|].
  head_case H as [v|] eqn Ev; [|simplify_eq; eapply within_weaken; [apply within_refl|lia..]].
  cbv zeta in H. set (request := {| pr_IntentID := _ |}) in *.
  pose proof (within_logged w (EvAdvance request)) as Hw1. cbn in Hw1.
  destruct (env_advance (w_log w) request) as [progress|runErr].
  - destruct (journal_call _ _) as [w2 r2] eqn:E2. apply within_journal in E2.
    pose proof (within_trans _ _ _ _ _ _ _ _ _ Hw1 E2) as Hw2.
    destruct r2 as [record2|e]; [|simplify_eq; eapply within_weaken; [exact Hw2|lia..]].
    case_bool_decide; [simplify_eq; eapply within_weaken; [exact Hw2|lia..]|].
    apply IH in H. eapply within_weaken; [eapply within_trans; [exact Hw2|exact H]|lia..].
  - destruct (_ && _); [|simplify_eq; eapply within_weaken; [exact Hw1|lia..]].
    destruct (journal_call _ _) as [w2 r2] eqn:E2. apply within_journal in E2. simplify_eq.
    eapply within_weaken; [eapply within_trans; [exact Hw1|exact E2]|lia..].
Qed.

Lemma advancePurchase_within s record now w w' r :
  advancePurchase s record now w = (w', r) -> within 0 0 4 w w'.
Proof.
  unfold advancePurchase. intros H.
  head_case H eqn Eg; [simplify_eq; eapply within_weaken; [apply within_refl|lia..]|].
  case_bool_decide; [|by eapply advance_loop_within].
  destruct (journal_call _ _) as [w1 r1] eqn:E1. apply within_journal in E1.
  destruct r1 as [record1|e]; [|simplify_eq; eapply within_weaken; [exact E1|lia..]].
  apply advance_loop_within in H. by apply (within_trans _ _ _ _ _ _ _ _ _ E1) in H.
Qed.

Lemma process_assess_within s record now w w' r :
  process_assess s record now w = (w', r) -> within 0 0 4 w w'.
Proof.
  unfold process_assess. intros H.
  assert ((if negb (bool_decide (cf_Mode (sv_config s) = ModePolicyGated)) then (w, Ret tt)
     else advancePurchase s record now w) = (w', r) -> within 0 0 4 w w') as Hlater.
  { intros H'. destruct (negb _); [simplify_eq; eapply within_weaken; [apply within_refl|lia..]|].
    by eapply advancePurchase_within. }
  destruct (rc_Phase record); auto. destruct (rc_Verified record) as [v|];
    [|simplify_eq; eapply within_weaken; [apply within_refl|lia..]].
  cbv zeta in H. destruct (journal_call _ _) as [w1 r1] eqn:E1. apply within_journal in E1.
  destruct r1 as [record1|e]; [|simplify_eq; eapply within_weaken; [exact E1|lia..]].
  set (w2 := if sv_reporter s then logged w1 (EvAssessed record1) else w1) in *.
  assert (within 0 0 0 w w2) as Hw2.
  { subst w2. destruct (sv_reporter s); [|done].
    pose proof (within_logged w1 (EvAssessed record1)) as Hl. by apply (within_trans _ _ _ _ _ _ _ _ _ E1) in Hl. }
  destruct (_ || _); [simplify_eq; eapply within_weaken; [exact Hw2|lia..]|].
  destruct (negb _); [simplify_eq; eapply within_weaken; [exact Hw2|lia..]|].
  apply advancePurchase_within in H. by apply (within_trans _ _ _ _ _ _ _ _ _ Hw2) in H.
Qed.

Lemma process_within s hint now w w' r : process s hint now w = (w', r) -> within 0 1 4 w w'.
Proof.
  unfold process. intros H. destruct (journal_call _ _) as [w1 r1] eqn:E1. apply within_journal in E1.
  destruct r1 as [[record created]|e]; [|simplify_eq; eapply within_weaken; [exact E1|lia..]].
  head_case H eqn Et; [simplify_eq; eapply within_weaken; [exact E1|lia..]|].
  case_bool_decide.
  2:{ apply process_assess_within in H. eapply within_weaken; [eapply within_trans; [exact E1|exact H]|lia..]. }
  cbv zeta in H. pose proof (within_trans _ _ _ _ _ _ _ _ _ E1 (within_logged w1 (EvVerify hint))) as Hw2.
  cbn in Hw2. destruct (env_verify (w_log w1) hint) as [verified|verifyErr].
  - destruct (journal_call _ _) as [w3 r3] eqn:E3. apply within_journal in E3.
    pose proof (within_trans _ _ _ _ _ _ _ _ _ Hw2 E3) as Hw3.
    destruct r3 as [record3|e]; [|simplify_eq; eapply within_weaken; [exact Hw3|lia..]].
    apply process_assess_within in H. by apply (within_trans _ _ _ _ _ _ _ _ _ Hw3) in H.
  - destruct (is_rejected verifyErr); [|simplify_eq; eapply within_weaken; [exact Hw2|lia..]].
    destruct (journal_call _ _) as [w3 r3] eqn:E3. apply within_journal in E3. simplify_eq.
    eapply within_weaken; [eapply within_trans; [exact Hw2|exact E3]|lia..].
Qed.

Lemma process_all_within s hints now : forall failures w w' out,
  process_all s hints now failures w = (w', out) ->
  within 0 (length hints) (4 * length hints) w w'.
Proof.
  induction hints as [|hint hints IH]; intros failures w w' out H; cbn [process_all] in H.
  { simplify_eq. apply within_refl. }
  destruct (process s hint now w) as [w1 r1] eqn:E1. apply process_within in E1. apply IH in H.
  eapply within_weaken; [eapply within_trans; [exact E1|exact H]|cbn; lia..].
Qed.

Lemma cycle_queries_within s queries now : forall remaining failures w w' r,
  cycle_queries s queries now remaining failures w = (w', r) ->
  within (length queries) (N.to_nat remaining) (4 * N.to_nat remaining) w w'.
Proof.
  induction queries as [|q queries IH]; intros remaining failures w w' r H; cbn [cycle_queries] in H.
  { simplify_eq. eapply within_weaken; [apply within_refl|cbn; lia..]. }
  head_case H eqn E0; [simplify_eq; eapply within_weaken; [apply within_refl|cbn; lia..]|].
  unfold newRequestID in H. pose proof (within_logged w EvRandom) as Hw1. cbn [is_search is_verify is_advance] in Hw1.
  destruct (env_random _ _); [|simplify_eq; eapply within_weaken; [exact Hw1|cbn; lia..]].
  cbv zeta in H. set (request := {| sr_RequestID := _ |}) in *.
  pose proof (within_trans _ _ _ _ _ _ _ _ _ Hw1 (within_logged _ (EvSearch request))) as Hw2.
  cbn [is_search is_verify is_advance] in Hw2.
  destruct (env_search _ _) as [hints|e].
  2:{ apply IH in H. eapply within_weaken; [eapply within_trans; [exact Hw2|exact H]|cbn; lia..]. }
  head_case H eqn Eb.
  { apply IH in H. eapply within_weaken; [eapply within_trans; [exact Hw2|exact H]|cbn; lia..]. }
  bprop. destruct (process_all _ _ _ _ _) as [w3 f3] eqn:E3. apply process_all_within in E3. apply IH in H.
  pose proof (within_trans _ _ _ _ _ _ _ _ _ Hw2 (within_trans _ _ _ _ _ _ _ _ _ E3 H)) as Hall.
  eapply within_weaken; [exact Hall|cbn; unfold llen in *; lia..].
Qed.

(** ** Presentable reasons *)

(** A prefix of [a ++ c ++ b] is a prefix of [a] or holds [c]. *)
Lemma HasPrefix_straddle a c b q :
  HasPrefix (a +:+ String c b) q = true -> HasPrefix a q = true \/ exists q2, q = a +:+ String c q2.
Proof.
  unfold HasPrefix. revert q. induction a as [|x a IH]; intros [|y q].
  - by left.
  - rewrite append_nil. cbn. destruct (ascii_dec y c) as [->|]; [|intros; discriminate].
    intros _. right. by exists q.
  - by left.
  - rewrite append_cons. cbn. destruct (ascii_dec y x) as [->|]; [|intros; discriminate]. intros H.
    destruct (IH q H) as [H'|[q2 ->]]; [by left|]. right. by exists q2.
Qed.

(** Text followed by a colon, a blank and trimmed text is trimmed at its end. *)
Lemma trimmed_suffix base reason :
  reason <> ""%string -> trimmed reason = true ->
  forallb (fun p => negb (HasPrefix (str_rev (base +:+ ": " +:+ reason)) p)) (str_rev <$> space_encodings) = true.
Proof.
  intros Hne Ht. unfold trimmed in Ht. apply andb_true_iff in Ht as [_ Ht].
  apply forallb_forall. intros q Hq. rewrite forallb_forall in Ht. specialize (Ht q Hq).
  apply negb_true_iff. apply negb_true_iff in Ht. apply not_true_iff_false. intros H.
  rewrite <-append_assoc, !str_rev_append in H.
  change (str_rev ": ") with (String (of_byte 32) (String (of_byte 58) "")) in H.
  rewrite !append_cons, append_nil in H.
  apply HasPrefix_straddle in H as [H|[q2 ->]]; [congruence|].
  destruct (str_rev reason) as [|x a] eqn:E.
  { apply Hne. rewrite <-(str_rev_involutive reason), E. done. }
  assert (forallb (fun q => match q with EmptyString => true | String _ rest => negb (ContainsByte rest 32) end)
            (str_rev <$> space_encodings) = true) as Hall by (vm_compute; reflexivity).
  rewrite forallb_forall in Hall. specialize (Hall _ Hq). rewrite append_cons in Hall. cbn beta iota in Hall.
  unfold ContainsByte in Hall. rewrite all_bytes_app in Hall. cbn [all_bytes] in Hall.
  rewrite byte_of_of in Hall by lia. change (negb (32 =? 32)) with false in Hall.
  by rewrite andb_false_l, andb_false_r in Hall.
Qed.

(** Both failure reasons are recordable whatever reason the peer gives. *)
Lemma with_reason_bounded base rejection :
  (forall reason, forallb (fun p => negb (HasPrefix (base +:+ ": " +:+ reason) p)) space_encodings = true) ->
  boundedText base 1 100 = true ->
  boundedText (with_reason base rejection) 1 512 = true.
Proof.
  intros Hpre Hb.
  assert (boundedText base 1 512 = true) as Hb'.
  { unfold boundedText in *. bprop. rewrite !andb_true_iff. split_and!; try apply N.leb_le; try lia; try done.
    - by apply bool_decide_eq_true.
    - apply negb_true_iff, orb_false_iff. done. }
  destruct rejection as [reason|]; [|done]. cbn. destruct (boundedText reason 1 400) eqn:Er; [|done].
  unfold boundedText in *. bprop.
  rewrite !andb_true_iff. rewrite !slen_app. change (slen ": ") with 2. split_and!; try apply N.leb_le; try lia.
  - apply bool_decide_eq_true, TrimSpace_id. unfold trimmed. rewrite Hpre. cbn [andb].
    apply trimmed_suffix; [|by apply TrimSpace_id].
    intros ->. unfold slen in *. cbn in *. lia.
  - apply negb_true_iff, orb_false_iff. rewrite !ContainsByte_app.
    repeat match goal with H : ContainsByte _ _ = false |- _ => rewrite H; clear H end. done.
Qed.

Lemma candidate_reason_bounded rejection :
  boundedText (with_reason "candidate failed independent finalized verification" rejection) 1 512 = true.
Proof. apply with_reason_bounded; [done|vm_compute; reflexivity]. Qed.

Lemma purchase_reason_bounded rejection :
  boundedText (with_reason "purchase rejected by exact signed policy" rejection) 1 512 = true.
Proof. apply with_reason_bounded; [done|vm_compute; reflexivity]. Qed.

(** ** Progress in a cooperative environment *)

(** The next phase of a purchase. *)
Definition next_phase (phase : Phase) : Phase :=
  match phase with
  | PhaseQuoteRequested => PhaseQuoteVerified
  | PhaseQuoteVerified => PhasePolicyAuthorized
  | PhasePolicyAuthorized => PhasePurchaseReferenced
  | _ => PhasePurchaseResolved
  end.

(** The disk accepts writes, the coordinator verifies [hint] to a candidate
    the policy admits, and the runner answers each well-formed request with
    valid progress to the next phase. *)
Record cooperative (s : Service) (hint : CandidateHint) : Prop := {
  co_io : forall log, env_io log = io_good;
  co_verify : forall log, exists v, env_verify log hint = Ret v /\ validateVerified v = true /\
    vf_Key v = ch_Key hint /\ policy_ok (sv_config s) v;
  co_advance : forall log request, validatePurchaseRequest request = true ->
    exists p, env_advance log request = Ret p /\ validatePurchaseProgress p = true /\
      pp_IntentID p = pr_IntentID request /\ pp_CandidateKey p = vf_Key (pr_Candidate request) /\
      pp_Phase p = next_phase (pr_Current request) /\
      (pr_Key request <> None -> pp_Key p = pr_Key request)
}.

Lemma opp_persist_good file records : persist io_good file records = (FileDoc (document records), Ok tt).
Proof. apply persist_bounded_good. Qed.

(** With a good disk a transition that applies succeeds. *)
Lemma transition_good (s : Service) now w record apply applied :
  world_ok s now w -> (0 < Unix now)%Z -> (forall log, env_io log = io_good) -> in_journal w record ->
  apply record = Ok applied ->
  exists w', journal_call (fun e j => transition e j (rc_IntentID record) now apply) w =
    (w', Ret (with_updated applied now)).
Proof.
  intros Hw Hn Hio Hin Ha. unfold journal_call. rewrite Hio. unfold transition.
  assert (regexpIntent (rc_IntentID record) = true) as Hi
    by (by apply (in_journal_valid _ _ _ _ Hw), validRecord_split in Hin as (? & _)).
  rewrite Hi, Unix_IsZero by done. destruct (Z.leb_spec (Unix now) 0); [lia|]. cbn [negb orb].
  unfold in_journal in Hin. rewrite Hin, Ha, opp_persist_good. eauto.
Qed.

(** What a record needs to be bought. *)
Definition admissible (r : JournalRecord) : Prop :=
  rc_Phase r <> PhaseFailed /\ (rc_Phase r = PhaseAssessed -> eligible r = true).

Lemma purchasing_eligible r :
  validRecord r = true -> purchasing (rc_Phase r) = true ->
  eligible r = true /\ exists v, rc_Verified r = Some v.
Proof.
  intros H Hp. apply validRecord_split in H as (_ & _ & _ & Hs). unfold phase_shape in Hs.
  assert (validAssessedPurchaseBase r = true) as Hb by (destruct (rc_Phase r); try done; by bprop).
  unfold validAssessedPurchaseBase, verified_ok in Hb. bprop. split; [done|].
  destruct (rc_Verified r); [eauto|done].
Qed.

(** One round of the loop. *)
Lemma advance_once s hint steps record now w :
  cooperative s hint -> world_ok s now w -> (0 < Unix now)%Z -> in_journal w record ->
  purchasing (rc_Phase record) = true -> rc_Phase record <> PhasePurchaseResolved ->
  cf_Mode (sv_config s) = ModePolicyGated -> sv_purchases s = true ->
  exists w1 record1, world_ok s now w1 /\ in_journal w1 record1 /\ rc_Hint record1 = rc_Hint record /\
    rc_Phase record1 = next_phase (rc_Phase record) /\
    advance_loop (S steps) record now w =
      (if bool_decide (rc_Phase record1 = PhasePurchaseReferenced) then (w1, Ret tt)
       else advance_loop steps record1 now w1).
Proof.
  intros Hco Hw Hn Hin Hp Hnr Hmode Hpur.
  pose proof (in_journal_valid _ _ _ _ Hw Hin) as Hval.
  destruct (purchasing_eligible record Hval Hp) as (He & v & Hv).
  set (request := {| pr_IntentID := rc_IntentID record; pr_Current := rc_Phase record;
                     pr_Candidate := v; pr_Key := purchase_key record |}).
  assert (validatePurchaseRequest request = true) as Hreq by (by apply request_valid).
  destruct (co_advance _ _ Hco (w_log w) request Hreq) as (p & Ha & Hpv & Hpi & Hpk & Hpp & Hkey).
  cbn in Hpi, Hpk, Hpp, Hkey.
  assert (world_ok s now (logged w (EvAdvance request))) as Hw1.
  { apply world_ok_logged; [done|]. pose proof (wo_policy _ _ _ Hw _ _ Hin He v Hv) as Hpol. done. }
  assert (exists applied, apply_progress (rc_IntentID record) p record = Ok applied /\
            rc_Phase applied = next_phase (rc_Phase record) /\ rc_Hint applied = rc_Hint record)
    as (applied & Happ & Hph & Hh).
  { unfold apply_progress. rewrite Hpv, Hv, Hpi, Hpk, Hpp. rewrite !bool_decide_true by done. cbn [negb orb].
    replace (validPurchaseTransition (rc_Phase record) (next_phase (rc_Phase record))) with true
      by (destruct (rc_Phase record); done). cbn [negb].
    destruct (purchase_key record) as [k|] eqn:Ek.
    - rewrite Hkey by done. rewrite bool_decide_true by done. cbn. eauto.
    - cbn. eauto. }
  destruct (transition_good s now _ record _ applied Hw1 Hn (co_io _ _ Hco) Hin Happ) as (w2 & E2).
  destruct (transition_call s now _ _ _ _ _ Hw1 (apply_progress_sound _ _) (progress_policy _ _ _ _) E2)
    as (Hw2 & _ & Hrec).
  destruct (Hrec _ eq_refl) as (Hin2 & _).
  exists w2, (with_updated applied now). split_and!; [done|done|done|done|].
  cbn [advance_loop]. rewrite bool_decide_false by done. rewrite Hv. cbv zeta. fold request. rewrite Ha.
  unfold MarkPurchaseProgress. rewrite E2. done.
Qed.

(** How many rounds until the loop stops, and where. *)
Definition rounds (phase : Phase) : nat :=
  match phase with PhaseQuoteRequested => 3 | PhaseQuoteVerified => 2 | PhasePurchaseResolved => 0 | _ => 1 end.
Definition target (phase : Phase) : Phase :=
  match phase with PhasePurchaseReferenced | PhasePurchaseResolved => PhasePurchaseResolved
  | _ => PhasePurchaseReferenced end.

Lemma advance_loop_settles s hint steps : forall record now w,
  cooperative s hint -> world_ok s now w -> (0 < Unix now)%Z -> in_journal w record ->
  purchasing (rc_Phase record) = true ->
  cf_Mode (sv_config s) = ModePolicyGated -> sv_purchases s = true ->
  (rounds (rc_Phase record) <= steps)%nat ->
  exists w' record', advance_loop steps record now w = (w', Ret tt) /\ world_ok s now w' /\
    in_journal w' record' /\ rc_Hint record' = rc_Hint record /\ rc_Phase record' = target (rc_Phase record).
Proof.
  induction steps as [|steps IH]; intros record now w Hco Hw Hn Hin Hp Hmode Hpur Hsteps.
  { exists w, record. split_and!; try done. destruct (rc_Phase record); cbn in *; done || lia. }
  destruct (decide (rc_Phase record = PhasePurchaseResolved)) as [Hr|Hnr].
  { exists w, record. cbn [advance_loop]. rewrite bool_decide_true, Hr by done. done. }
  destruct (advance_once s hint steps record now w) as (w1 & record1 & Hw1 & Hin1 & Hh1 & Hph1 & ->); [done..|].
  case_bool_decide as Href.
  - exists w1, record1. split_and!; [done|done|done|done|]. rewrite Href.
    rewrite Hph1 in Href. by destruct (rc_Phase record).
  - destruct (IH record1 now w1) as (w' & record' & E & Hw' & Hin' & Hh' & Hph'); try done.
    + rewrite Hph1. by destruct (rc_Phase record).
    + rewrite Hph1 in *. destruct (rc_Phase record); cbn in *; done || lia.
    + exists w', record'. split_and!; [done|done|done|congruence|]. rewrite Hph', Hph1.
      rewrite Hph1 in Href. by destruct (rc_Phase record).
Qed.

(** An eligible assessed record is taken to its purchase key. *)
Lemma advancePurchase_settles s hint record now w :
  cooperative s hint -> world_ok s now w -> (0 < Unix now)%Z -> in_journal w record ->
  rc_Phase record = PhaseAssessed -> eligible record = true ->
  cf_Mode (sv_config s) = ModePolicyGated -> sv_purchases s = true ->
  exists w' record', advancePurchase s record now w = (w', Ret tt) /\ world_ok s now w' /\
    in_journal w' record' /\ rc_Hint record' = rc_Hint record /\ rc_Phase record' = PhasePurchaseReferenced.
Proof.
  intros Hco Hw Hn Hin Hph He Hmode Hpur. pose proof (in_journal_valid _ _ _ _ Hw Hin) as Hval.
  apply validRecord_split in Hval as (_ & _ & _ & Hs). unfold phase_shape, verified_ok in Hs. rewrite Hph in Hs.
  destruct (rc_Verified record) as [v|] eqn:Ev; [|done]. bprop.
  assert (exists applied, apply_quote_requested record = Ok applied /\ rc_Phase applied = PhaseQuoteRequested /\
            rc_Hint applied = rc_Hint record) as (applied & Happ & Hp1 & Hh1).
  { unfold apply_quote_requested. rewrite Hph, He, bool_decide_true by done. cbn [negb orb].
    destruct (rc_Purchase record); [done|]. cbn. eauto. }
  destruct (transition_good s now w record _ applied Hw Hn (co_io _ _ Hco) Hin Happ) as (w1 & E1).
  destruct (transition_call s now _ _ _ _ _ Hw (apply_quote_requested_sound _) (quote_policy _ _ _) E1)
    as (Hw1 & _ & Hrec). destruct (Hrec _ eq_refl) as (Hin1 & _).
  destruct (advance_loop_settles s hint 4 (with_updated applied now) now w1)
    as (w' & record' & E & Hw' & Hin' & Hh' & Hph'); try done; try (cbn; rewrite Hp1; cbn; lia || done).
  exists w', record'. unfold advancePurchase. rewrite Hpur, Ev, He, Hph. cbn [negb orb is_none].
  rewrite bool_decide_true by done. unfold MarkQuoteRequested. rewrite E1.
  split_and!; [done|done|done|by rewrite Hh'|]. rewrite Hph'. cbn. by rewrite Hp1.
Qed.

(** The policy admits exactly what [assess] finds eligible. *)
Lemma assess_admitted s record v now :
  policy_ok (sv_config s) v -> as_Eligible (assess s record v now) = true.
Proof.
  intros (H1 & H2 & H3). unfold assess. rewrite bool_decide_false by done.
  replace ((0 <? llen (cf_AllowedProviders (sv_config s)))
    && negb (bool_decide (ck_ProviderAgentID (vf_Key v) ∈ cf_AllowedProviders (sv_config s)))) with false.
  2:{ symmetry. destruct H2 as [->|H2]; [done|]. rewrite bool_decide_true by done. by rewrite andb_false_r. }
  replace ((0 <? llen (cf_AllowedOperations (sv_config s)))
    && negb (bool_decide (vf_Operation v ∈ cf_AllowedOperations (sv_config s)))) with false; [done|].
  symmetry. destruct H3 as [->|H3]; [done|]. rewrite bool_decide_true by done. by rewrite andb_false_r.
Qed.

(** The assessment the service makes is one the journal accepts. *)
Lemma assess_applies s record v now :
  rc_Phase record = PhaseVerified -> (0 < Unix now)%Z ->
  exists applied, apply_assessed (assess s record v now) record = Ok applied /\
    rc_Phase applied = PhaseAssessed /\ rc_Hint applied = rc_Hint record /\
    rc_Verified applied = rc_Verified record /\ eligible applied = as_Eligible (assess s record v now).
Proof.
  intros Hph Hn. unfold apply_assessed. rewrite Hph, bool_decide_true by done.
  assert (as_AssessedAtUnix (assess s record v now) = Unix now) as ->
    by (unfold assess; repeat case_match; done).
  assert (boundedText (as_Reason (assess s record v now)) 1 512 = true) as ->
    by (unfold assess; repeat case_match; simplify_eq/=; vm_compute; reflexivity).
  destruct (Z.leb_spec (Unix now) 0); [lia|]. cbn. eauto 6.
Qed.

Lemma process_assess_settles s hint record now w :
  cooperative s hint -> world_ok s now w -> (0 < Unix now)%Z -> in_journal w record ->
  rc_Phase record <> PhaseDiscovered -> admissible record ->
  (rc_Phase record = PhaseVerified -> exists v, rc_Verified record = Some v /\ policy_ok (sv_config s) v) ->
  cf_Mode (sv_config s) = ModePolicyGated -> sv_purchases s = true ->
  exists w' record', process_assess s record now w = (w', Ret tt) /\ world_ok s now w' /\
    in_journal w' record' /\ rc_Hint record' = rc_Hint record /\ rc_Phase record' = target (rc_Phase record).
Proof.
  intros Hco Hw Hn Hin Hnd [Hnf Hel] Hpol Hmode Hpur.
  pose proof (in_journal_valid _ _ _ _ Hw Hin) as Hval.
  unfold process_assess. rewrite Hmode, bool_decide_true by done. cbn [negb].
  destruct (valid_phase record Hval) as [Hph|[Hph|[Hph|[Hph|Hpp]]]]; [done| | |done|].
  - destruct (Hpol Hph) as (v & Hv & Hpv). rewrite Hph, Hv. cbv zeta.
    pose proof (assess_admitted s record v now Hpv) as Hae.
    destruct (assess_applies s record v now Hph Hn) as (applied & Happ & Hp1 & Hh1 & Hv1 & He1).
    destruct (transition_good s now w record _ applied Hw Hn (co_io _ _ Hco) Hin Happ) as (w1 & E1).
    unfold MarkAssessed. rewrite E1.
    eapply (transition_call s now w) in E1 as (Hw1 & _ & Hrec); [|done|apply apply_assessed_sound|].
    2:{ intros rec app Hl _ _ Ha. unfold in_journal in Hin. rewrite Hin in Hl. injection Hl as <-.
        rewrite Happ in Ha. injection Ha as <-. intros _ v' Hv'. assert (v' = v) as -> by congruence. by left. }
    destruct (Hrec _ eq_refl) as (Hin1 & _). rewrite Hae in *.
    rewrite (bool_decide_false (ModePolicyGated = ModeObserve)) by done. cbn [negb orb].
    set (w2 := if sv_reporter s then logged w1 (EvAssessed (with_updated applied now)) else w1).
    assert (world_ok s now w2 /\ in_journal w2 (with_updated applied now)) as [Hw2 Hin2].
    { subst w2. destruct (sv_reporter s); [|done]. split; [by apply world_ok_logged|done]. }
    destruct (advancePurchase_settles s hint (with_updated applied now) now w2)
      as (w' & record' & E & Hw' & Hin' & Hh' & Hph'); [done..|].
    exists w', record'. split_and!; [done|done|done|by rewrite Hh'|done].
  - destruct (advancePurchase_settles s hint record now w) as (w' & record' & E & Hrest); [by auto..|].
    exists w', record'. rewrite Hph. done.
  - destruct (purchasing_eligible record Hval Hpp) as (He & v & Hv).
    assert (exists w' record', advancePurchase s record now w = (w', Ret tt) /\ world_ok s now w' /\
      in_journal w' record' /\ rc_Hint record' = rc_Hint record /\
      rc_Phase record' = target (rc_Phase record)) as Hgoal.
    { unfold advancePurchase. rewrite Hpur, Hv, He. cbn [negb orb is_none].
      rewrite bool_decide_false by (intros Hc; rewrite Hc in Hpp; done).
      eapply advance_loop_settles; try done. destruct (rc_Phase record); cbn; done || lia. }
    destruct (rc_Phase record) eqn:Eph; done.
Qed.

(** [Observe] on a good disk finds the candidate's record or makes one. *)
Lemma observe_good s hint now w :
  world_ok s now w -> fresh_draws -> (0 < Unix now)%Z -> validateHint hint = true ->
  (forall log, env_io log = io_good) ->
  (env_random (w_log w) (w_journal w) = None ->
     exists i r, jn_records (w_journal w) !! i = Some r /\ ch_Key (rc_Hint r) = ch_Key hint) ->
  exists w1 record created,
    journal_call (fun e j => Observe e (env_random (w_log w) (w_journal w)) j hint now) w =
      (w1, Ret (record, created)) /\
    world_ok s now w1 /\ in_journal w1 record /\ ch_Key (rc_Hint record) = ch_Key hint /\
    w_log w1 = EvJournal :: w_log w /\
    (if created then record = discovered_record (rc_IntentID record) hint now /\
       (forall i r, jn_records (w_journal w) !! i = Some r -> ch_Key (rc_Hint r) <> ch_Key hint)
     else in_journal w record /\ w_journal w1 = w_journal w).
Proof.
  intros Hw Hd Hn Hh Hio Hr. pose proof (wo_journal _ _ _ Hw) as Hj.
  destruct (journal_call _ _) as [w1 r1] eqn:E1.
  destruct (observe_call s now w hint w1 r1 Hw Hd E1) as (Hw1 & Hlog & Hrec).
  unfold journal_call in E1. rewrite Hio in E1. destruct (Observe _ _ _ _ _) as [j' rj] eqn:E.
  injection E1 as <- <-.
  assert (fresh_material (w_journal w) (env_random (w_log w) (w_journal w))) as Hf by apply Hd.
  destruct (Observe_cases _ _ _ _ _ _ _ _ Hj Hf E)
    as [(m & -> & ->)|[(i & record & -> & -> & Hl & Hk)|
        (m & i & file' & rp & Hm & Hi & _ & _ & Hnone & Hfresh & Hp & Hres)]].
  - exfalso. unfold Observe in E. rewrite Hh, Unix_IsZero in E by done.
    destruct (Z.leb_spec (Unix now) 0); [lia|]. cbn [negb orb] in E. cbv zeta in E.
    destruct (negb _) eqn:En; [done|].
    destruct (env_random _ _) as [mm|] eqn:Em; [rewrite opp_persist_good in E; done|].
    destruct (Hr eq_refl) as (i & r & Hir & Hkr).
    assert (jn_byKey (w_journal w) !! keyString (ch_Key hint) = Some i) as Hb
      by (apply (jo_index _ _ Hj); exists r; split; [done|by unfold record_key; rewrite Hkr]).
    rewrite Hb in En. cbn in En. bprop. subst i.
    apply (valid_intent_nonempty r); [by apply (ro_valid _ _ (jo_records _ _ Hj) _ _ Hir)|].
    by apply (ro_intent _ _ (jo_records _ _ Hj)).
  - pose proof (ro_intent _ _ (jo_records _ _ Hj) i record Hl) as Hid.
    exists {| w_journal := w_journal w; w_log := EvJournal :: w_log w |}, record, false.
    split_and!; [done|done|by eapply Hrec| |done|unfold in_journal; by rewrite Hid|done].
    apply (ro_valid _ _ (jo_records _ _ Hj)), validRecord_split in Hl as (_ & Hv & _).
    apply keyString_inj; [by apply validateHint_key..|done].
  - rewrite opp_persist_good in Hp. injection Hp as <- <-. destruct Hres as [-> ->].
    eexists _, _, true. split_and!; [done|done|by eapply Hrec|done|done|done|].
    intros i' r Hir Hkr.
    assert (jn_byKey (w_journal w) !! keyString (ch_Key hint) = Some i') as Hb; [|congruence].
    apply (jo_index _ _ Hj). exists r. split; [done|]. unfold record_key. by rewrite Hkr.
Qed.

(** The policy does not stand in the record's way. *)
Definition buyable (s : Service) (r : JournalRecord) : Prop :=
  admissible r /\
  (rc_Phase r = PhaseVerified -> exists v, rc_Verified r = Some v /\ policy_ok (sv_config s) v).

(** In a cooperative environment one round takes the candidate to its purchase
    key, or a candidate that has one to its settlement. *)
Lemma process_settles s hint now w :
  cooperative s hint -> world_ok s now w -> fresh_draws -> (0 < Unix now)%Z -> validateHint hint = true ->
  cf_Mode (sv_config s) = ModePolicyGated -> sv_purchases s = true ->
  (env_random (w_log w) (w_journal w) = None ->
     exists i r, jn_records (w_journal w) !! i = Some r /\ ch_Key (rc_Hint r) = ch_Key hint) ->
  (forall i r, jn_records (w_journal w) !! i = Some r -> ch_Key (rc_Hint r) = ch_Key hint -> buyable s r) ->
  exists w' record', process s hint now w = (w', Ret tt) /\ world_ok s now w' /\ in_journal w' record' /\
    ch_Key (rc_Hint record') = ch_Key hint /\
    (rc_Phase record' = PhasePurchaseReferenced \/ rc_Phase record' = PhasePurchaseResolved) /\
    (forall i r, jn_records (w_journal w) !! i = Some r -> ch_Key (rc_Hint r) = ch_Key hint ->
       (6 <= rank (rc_Phase r))%nat -> rc_Phase record' = PhasePurchaseResolved).
Proof.
  intros Hco Hw Hd Hn Hh Hmode Hpur Hrand Hadm. pose proof (co_io _ _ Hco) as Hio.
  destruct (observe_good s hint now w Hw Hd Hn Hh Hio Hrand)
    as (w1 & record & created & E1 & Hw1 & Hin1 & Hk1 & Hlog1 & Hcr).
  assert (buyable s record) as [Hadm1 Hpol1].
  { destruct created; [destruct Hcr as [-> _]; by repeat split|]. destruct Hcr as [Hin _]. by apply (Hadm _ _ Hin). }
  assert (forall i r, jn_records (w_journal w) !! i = Some r -> ch_Key (rc_Hint r) = ch_Key hint -> r = record) as Huniq.
  { intros i r Hir Hkr. destruct created; [by destruct Hcr as [_ Hno]; destruct (Hno i r Hir)|].
    destruct Hcr as [Hin _].
    assert (i = rc_IntentID record) as ->.
    { eapply (ro_unique _ _ (jo_records _ _ (wo_journal _ _ _ Hw))); [exact Hir|exact Hin|].
      unfold record_key. congruence. }
    unfold in_journal in Hin. congruence. }
  unfold process. rewrite E1. destruct Hadm1 as [Hnf Hel]. rewrite (bool_decide_false _ Hnf). cbn [orb].
  case_bool_decide as Hres.
  { exists w1, record. split_and!; [done|done|done|done|by right|]. intros i r Hir Hkr _. done. }
  case_bool_decide as Hdisc.
  - cbv zeta. destruct (co_verify _ _ Hco (w_log w1)) as (v & -> & Hvv & Hvk & Hvp).
    assert (world_ok s now (logged w1 (EvVerify hint))) as Hw2 by (by apply world_ok_logged).
    set (applied := {| rc_IntentID := rc_IntentID record; rc_Phase := PhaseVerified; rc_Hint := rc_Hint record;
      rc_Verified := Some v; rc_Assessment := rc_Assessment record; rc_Purchase := rc_Purchase record;
      rc_Failure := rc_Failure record; rc_DiscoveredUnix := rc_DiscoveredUnix record;
      rc_UpdatedUnix := rc_UpdatedUnix record |}).
    assert (apply_verified v record = Ok applied) as Happ.
    { unfold apply_verified. rewrite Hvv, Hdisc, !bool_decide_true by congruence. done. }
    destruct (transition_good s now (logged w1 (EvVerify hint)) record _ applied Hw2 Hn Hio Hin1 Happ) as (w3 & E3).
    unfold MarkVerified. rewrite E3.
    eapply (transition_call s now _) in E3 as (Hw3 & _ & Hrec3); [|done|apply apply_verified_sound|].
    2:{ intros rec app Hl _ _ Ha. unfold in_journal in Hin1. cbn in Hl. rewrite Hin1 in Hl. injection Hl as <-.
        rewrite Happ in Ha. injection Ha as <-. intros _ v' Hv'. injection Hv' as <-. by left. }
    destruct (Hrec3 _ eq_refl) as (Hin3 & _).
    destruct (process_assess_settles s hint (with_updated applied now) now w3)
      as (w' & record' & E & Hw' & Hin' & Hh' & Hph'); [by eauto..|].
    exists w', record'. split_and!; [done|done|done|by rewrite Hh'|left; by rewrite Hph'|].
    intros i r Hir Hkr Hrk. rewrite (Huniq i r Hir Hkr), Hdisc in Hrk. cbn in Hrk. lia.
  - destruct (process_assess_settles s hint record now w1)
      as (w' & record' & E & Hw' & Hin' & Hh' & Hph'); [done..|].
    exists w', record'. split_and!; [done|done|done|congruence| |].
    + rewrite Hph'. destruct (rc_Phase record); cbn; auto.
    + intros i r Hir Hkr Hrk. rewrite (Huniq i r Hir Hkr) in Hrk. rewrite Hph'.
      destruct (valid_phase record (in_journal_valid _ _ _ _ Hw1 Hin1)) as [Hp|[Hp|[Hp|[Hp|Hp]]]];
        try (rewrite Hp in Hrk; cbn in Hrk; lia || done).
      destruct (rc_Phase record); cbn in *; try done; lia.
Qed.

(** ** Theorems *)

(** A cycle is bounded whatever the environment answers: at most one search
    per query, one verification and four purchase calls per candidate slot. *)
Theorem opp_cycle_bounded s now w w' r :
  Cycle s now w = (w', r) ->
  (calls is_search w' <= calls is_search w + length (cf_Queries (sv_config s)) /\
   calls is_verify w' <= calls is_verify w + N.to_nat (cf_MaxCandidates (sv_config s)) /\
   calls is_advance w' <= calls is_advance w + 4 * N.to_nat (cf_MaxCandidates (sv_config s)))%nat.
Proof.
  unfold Cycle. intros H. head_case H eqn E1; [simplify_eq; lia|]. head_case H eqn E2; [simplify_eq; lia|].
  head_case H eqn E3; [simplify_eq; lia|]. by apply cycle_queries_within in H.
Qed.

(** Purchases go through. With a coordinator that verifies the candidate
    and a runner that answers every well-formed request with valid progress,
    processing a hint twice succeeds twice and leaves the candidate's record
    resolved, from any phase the policy does not block. *)
Theorem opp_purchase_liveness s hint now w :
  cooperative s hint -> world_ok s now w -> fresh_draws -> (0 < Unix now)%Z -> validateHint hint = true ->
  cf_Mode (sv_config s) = ModePolicyGated -> sv_purchases s = true ->
  env_random (w_log w) (w_journal w) <> None ->
  (forall i r, jn_records (w_journal w) !! i = Some r -> ch_Key (rc_Hint r) = ch_Key hint -> buyable s r) ->
  exists w1 w2 record, process s hint now w = (w1, Ret tt) /\ process s hint now w1 = (w2, Ret tt) /\
    in_journal w2 record /\ ch_Key (rc_Hint record) = ch_Key hint /\ rc_Phase record = PhasePurchaseResolved.
Proof.
  intros Hco Hw Hd Hn Hh Hmode Hpur Hrand Hbuy.
  destruct (process_settles s hint now w) as (w1 & r1 & E1 & Hw1 & Hin1 & Hk1 & Hph1 & _); [done..|].
  assert (forall i r, jn_records (w_journal w1) !! i = Some r -> ch_Key (rc_Hint r) = ch_Key hint -> r = r1) as Huniq.
  { intros i r Hir Hkr. assert (i = rc_IntentID r1) as ->.
    { eapply (ro_unique _ _ (jo_records _ _ (wo_journal _ _ _ Hw1))); [exact Hir|exact Hin1|].
      unfold record_key. congruence. }
    unfold in_journal in Hin1. congruence. }
  destruct (process_settles s hint now w1) as (w2 & r2 & E2 & Hw2 & Hin2 & Hk2 & Hph2 & Hres); try done.
  - intros _. eauto.
  - intros i r Hir Hkr. rewrite (Huniq i r Hir Hkr). unfold buyable, admissible.
    destruct Hph1 as [->| ->]; done.
  - exists w1, w2, r2. split_and!; [done|done|done|done|].
    apply (Hres _ _ Hin1 Hk1). destruct Hph1 as [->| ->]; cbn; lia.
Qed.

(** A rejection is never lost. When the coordinator rejects a candidate that
    is new or still only discovered, whatever text it gives, the record becomes
    terminally failed, the error reported is still a rejection, and nothing but
    that verification was asked of anybody. *)
Theorem opp_rejection_recorded s hint now w verifyErr :
  world_ok s now w -> fresh_draws -> (0 < Unix now)%Z -> validateHint hint = true ->
  (forall log, env_io log = io_good) ->
  env_random (w_log w) (w_journal w) <> None ->
  (forall i r, jn_records (w_journal w) !! i = Some r -> ch_Key (rc_Hint r) = ch_Key hint ->
     rc_Phase r = PhaseDiscovered) ->
  (forall log, env_verify log hint = Fail verifyErr) -> is_rejected verifyErr = true ->
  exists w' e record, process s hint now w = (w', Fail e) /\ is_rejected e = true /\
    in_journal w' record /\ ch_Key (rc_Hint record) = ch_Key hint /\ rc_Phase record = PhaseFailed /\
    w_log w' = EvJournal :: EvVerify hint :: EvJournal :: w_log w.
Proof.
  intros Hw Hd Hn Hh Hio Hrand Hdisc Hver Hrej.
  destruct (observe_good s hint now w Hw Hd Hn Hh Hio) as (w1 & record & created & E1 & Hw1 & Hin1 & Hk1 & Hlog1 & Hcr);
    [done|].
  assert (rc_Phase record = PhaseDiscovered) as Hph.
  { destruct created; [by destruct Hcr as [-> _]|]. destruct Hcr as [Hin _]. by apply (Hdisc _ _ Hin). }
  assert (is_none (purchase_key record) = true) as Hpk.
  { pose proof (in_journal_valid _ _ _ _ Hw1 Hin1) as Hv. apply validRecord_split in Hv as (_ & _ & _ & Hs).
    unfold phase_shape in Hs. rewrite Hph in Hs. bprop. unfold purchase_key. by destruct (rc_Purchase record). }
  assert (world_ok s now (logged w1 (EvVerify hint))) as Hw2 by (by apply world_ok_logged).
  set (reason := with_reason "candidate failed independent finalized verification" (as_rejection verifyErr)).
  assert (exists applied, apply_failed reason record = Ok applied /\ rc_Phase applied = PhaseFailed /\
            rc_Hint applied = rc_Hint record) as (applied & Happ & Hp1 & Hh1).
  { unfold apply_failed. rewrite Hph, Hpk. unfold reason at 1. rewrite candidate_reason_bounded. cbn. eauto. }
  destruct (transition_good s now (logged w1 (EvVerify hint)) record _ applied Hw2 Hn Hio Hin1 Happ) as (w3 & E3).
  destruct (transition_call s now _ _ _ _ _ Hw2 (apply_failed_sound _ _) (failed_policy _ _ _ _) E3)
    as (Hw3 & Hlog3 & Hrec). destruct (Hrec _ eq_refl) as (Hin3 & _).
  exists w3, (Joined [verifyErr]), (with_updated applied now). unfold process. rewrite E1, Hph.
  rewrite !bool_decide_false, bool_decide_true by done. cbn [orb]. cbv zeta. rewrite Hver, Hrej.
  unfold MarkFailed. fold reason. rewrite E3. split_and!; [done|cbn; by rewrite Hrej|done|cbn; congruence|done|].
  rewrite Hlog3. cbn. by rewrite Hlog1.
Qed.

(** In policy-gated mode with a purchase runner configured, a candidate that
    was assessed as ineligible is reported, every time it is seen again, as if
    the runner were missing; nothing is bought and the journal is unchanged. *)
Theorem opp_ineligible_misreported s hint now w i r :
  world_ok s now w -> fresh_draws -> (0 < Unix now)%Z -> validateHint hint = true ->
  cf_Mode (sv_config s) = ModePolicyGated -> sv_purchases s = true ->
  jn_records (w_journal w) !! i = Some r -> ch_Key (rc_Hint r) = ch_Key hint ->
  rc_Phase r = PhaseAssessed -> eligible r = false ->
  exists w', process s hint now w = (w', Fail ErrPolicyRunnerRequired) /\
    w_journal w' = w_journal w /\ w_log w' = EvJournal :: w_log w.
Proof.
  intros Hw Hd Hn Hh Hmode Hpur Hir Hkr Hph Hel. pose proof (wo_journal _ _ _ Hw) as Hj.
  exists {| w_journal := w_journal w; w_log := EvJournal :: w_log w |}. split; [|done].
  unfold process, journal_call. rewrite (Observe_known now _ _ _ hint now i r) by done. rewrite Hph.
  rewrite !bool_decide_false by done. cbn [orb]. unfold process_assess. rewrite Hph, Hmode, bool_decide_true by done.
  cbn [negb]. unfold advancePurchase. by rewrite Hpur, Hel, orb_true_r.
Qed.

End gate.

(** C13: The policy gate. Starting from a sound journal, with no purchase call
    made yet and a clock that does not run backwards, every call any sequence of
    cycles makes to the purchase runner, against any coordinator, runner and
    disk, is made in policy-gated mode with a runner and is a well-formed
    request. It names a verified candidate whose provider is not denied and,
    where allow lists are set, is allowed with its operation; or else the
    journal the cycles started from already held the intent's record, assessed as
    eligible on that very candidate. The second case is real: a purchase is
    resumed without a new assessment, so a policy that was tightened since does
    not stop it ([opp_tightened_resumed]). *)
Theorem opp_policy_gate s clock times w request :
  fresh_draws -> journal_ok clock (w_journal w) -> w_log w = [] -> StronglySorted Z.le (clock :: times) ->
  EvAdvance request ∈ w_log (cycles s times w) ->
  cf_Mode (sv_config s) = ModePolicyGated /\ sv_purchases s = true /\
  validatePurchaseRequest request = true /\
  (policy_ok (sv_config s) (pr_Candidate request) \/
   exists r, jn_records (w_journal w) !! pr_IntentID request = Some r /\ eligible r = true /\
     rc_Verified r = Some (pr_Candidate request)).
Proof.
  intros Hd Hj Hlog Hs Hin.
  set (granted := fun intent v => exists r, jn_records (w_journal w) !! intent = Some r /\ eligible r = true /\
    rc_Verified r = Some v).
  destruct (cycles_ok granted s times clock w Hd Hs) as [now Hw].
  - constructor; [done| |by rewrite Hlog]. intros i r Hr He v Hv.
    right. exists r. by rewrite (ro_intent _ _ (jo_records _ _ Hj) i r Hr).
  - pose proof (wo_calls _ _ _ _ Hw) as Hc. rewrite Forall_forall in Hc. exact (Hc _ Hin).
Qed.

End operations.

(** The jitter is uniform material folded into [0, max]: never negative,
    never more than configured, for every maximum a duration can hold. *)
Theorem opp_jitter_bounds material max :
  (max <= Z.of_N MaxInt64)%Z ->
  (0 <= secureJitter material max)%Z /\ (secureJitter material max <= Z.max 0 max)%Z.
Proof.
  intros Hmax. unfold secureJitter. destruct (Z.leb_spec max 0); [lia|].
  destruct material as [material|]; [|lia].
  rewrite u64_small by (unfold MaxUint64, MaxInt64 in *; lia).
  assert (jitter_value 0 material mod Z.to_N (max + 1) < Z.to_N (max + 1)) as Hb by (apply N.mod_upper_bound; lia).
  revert Hb. generalize (jitter_value 0 material mod Z.to_N (max + 1)). lia.
Qed.

(** ** Concrete runs *)

(** The purchase runner of the repository's tests. *)
Definition sample_progress (request : PurchaseRequest) : PurchaseProgress :=
  {| pp_IntentID := pr_IntentID request; pp_CandidateKey := vf_Key (pr_Candidate request);
     pp_Phase := next_phase (pr_Current request);
     pp_Key := match pr_Current request with
               | PhasePolicyAuthorized =>
                   Some {| pk_QuoteCommitment := Fixtures.tvm 34; pk_EscrowAddress := "0:33" |}
               | PhasePurchaseReferenced => pr_Key request
               | _ => None
               end;
     pp_AuthoritativePhase := match pr_Current request with
                              | PhasePolicyAuthorized => "prepared"
                              | PhasePurchaseReferenced => "resolved"
                              | _ => ""
                              end;
     pp_AssetMaster := "0:11"; pp_AtomicAmount := "25000000"; pp_QuoteExpiryUnix := 1900003600;
     pp_FinalizedCheckpoint := match pr_Current request with PhasePurchaseReferenced => 99 | _ => 0 end;
     pp_Released := match pr_Current request with PhasePurchaseReferenced => true | _ => false end;
     pp_Refunded := false |}.

(** A coordinator that finds one candidate and answers [verify] about it. *)
Definition sample_env (verify : answer VerifiedCandidate) : Environment :=
  {| env_search := fun _ _ => Ret [sample_hint];
     env_verify := fun _ _ => verify;
     env_advance := fun _ request => Ret (sample_progress request);
     env_random := fun _ j => if decide (jn_records j !! sample_intent = None) then sample_material else None;
     env_io := fun _ => io_good |}.

Definition sample_service (denied : list string) : Service :=
  {| sv_config :=
       {| cf_Mode := ModePolicyGated; cf_Queries := ["go test work"]; cf_Interval := 5 * Minute;
          cf_Jitter := 0; cf_RequestTimeout := 5 * Second; cf_PageSize := 10; cf_MaxCandidates := 20;
          cf_AllowedOperations := ["test"]; cf_AllowedProviders := []; cf_DeniedProviders := denied |};
     sv_ready := true; sv_purchases := true; sv_reporter := true |}.

Definition sample_world : world := {| w_journal := fresh_journal; w_log := [] |}.

Lemma sample_draws verify : fresh_draws (ENV := sample_env verify).
Proof.
  intros log j m. cbn. case_decide as H; [|done]. intros [= <-]. by split.
Qed.

(** Nothing was granted before. *)
Definition none_granted (intent : string) (v : VerifiedCandidate) : Prop := False.

Lemma sample_world_ok s now : world_ok none_granted s now sample_world.
Proof.
  constructor; [apply reachable_journal_ok, fresh_journal_reachable|intros i r; cbn; by rewrite lookup_empty|constructor].
Qed.

Lemma sample_cooperative : cooperative (ENV := sample_env (Ret sample_verified)) (sample_service []) sample_hint.
Proof.
  constructor; [done| |].
  - intros log. exists sample_verified. split_and!; [done|vm_compute; reflexivity|done|].
    split_and!; [set_solver|by left|right; set_solver].
  - intros log request Hr. exists (sample_progress request).
    assert (pr_Key request <> None -> pp_Key (sample_progress request) = pr_Key request) as Hkey.
    { unfold validatePurchaseRequest in Hr. destruct (_ || _) in Hr; [done|].
      cbn. by destruct (pr_Current request), (pr_Key request). }
    split_and!; [done| |done|done|done|exact Hkey].
    unfold validatePurchaseRequest in Hr. destruct (_ || _) eqn:E in Hr; [done|]. bprop.
    match goal with H : validateVerified _ = true |- _ => unfold validateVerified in H; bprop end.
    unfold validatePurchaseProgress. cbn [sample_progress pp_IntentID pp_CandidateKey pp_Phase pp_Key
      pp_AuthoritativePhase pp_FinalizedCheckpoint pp_Released pp_Refunded].
    repeat match goal with H : regexpIntent _ = true |- _ => rewrite H; clear H
           | H : validateKey _ = true |- _ => rewrite H; clear H end. cbn [negb orb].
    destruct (pr_Current request) eqn:Ec; try done; cbn [next_phase];
      try (by vm_compute); destruct (pr_Key request) as [k|]; try done.
    cbn [andb]. rewrite Hr. by vm_compute.
Qed.

Lemma opp_policy_gate_witness :
  exists request,
    EvAdvance request ∈ w_log (cycles (ENV := sample_env (Ret sample_verified)) (sample_service []) [sample_now] sample_world) /\
    policy_ok (sv_config (sample_service [])) (pr_Candidate request).
Proof.
  assert (existsb is_advance (w_log (cycles (ENV := sample_env (Ret sample_verified)) (sample_service [])
            [sample_now] sample_world)) = true) as Hex by (vm_compute; reflexivity).
  apply existsb_exists in Hex as ([| | | |request|] & Hin & Ha); try discriminate Ha.
  exists request. apply list_elem_of_In in Hin. split; [exact Hin|].
  destruct (opp_policy_gate (ENV := sample_env (Ret sample_verified)) (sample_service []) 0 [sample_now] sample_world request)
    as (_ & _ & _ & [Hpol|(r & Hr & _)]).
  - apply sample_draws.
  - apply reachable_journal_ok, fresh_journal_reachable.
  - reflexivity.
  - repeat constructor; done.
  - exact Hin.
  - exact Hpol.
  - exfalso. cbn in Hr. by rewrite lookup_empty in Hr.
Defined.

(** The provider is denied after its candidate was assessed and its purchase
    begun; the next cycle goes on with the purchase all the same. *)
Definition tightened_world : world :=
  {| w_journal := w_journal (cycles (ENV := sample_env (Ret sample_verified)) (sample_service []) [sample_now] sample_world);
     w_log := [] |}.

Definition resumed_env : Environment :=
  {| env_search := fun _ _ => Ret [sample_hint]; env_verify := fun _ _ => Ret sample_verified;
     env_advance := fun _ request => Ret (sample_progress request); env_random := fun _ _ => sample_material;
     env_io := fun _ => io_good |}.

Definition denied (request : PurchaseRequest) : bool :=
  bool_decide (ck_ProviderAgentID (vf_Key (pr_Candidate request)) = ck_ProviderAgentID sample_key).

Theorem opp_tightened_resumed :
  exists request,
    EvAdvance request ∈ w_log (cycles (ENV := resumed_env) (sample_service [ck_ProviderAgentID sample_key])
      [sample_now] tightened_world) /\
    ck_ProviderAgentID (vf_Key (pr_Candidate request))
      ∈ cf_DeniedProviders (sv_config (sample_service [ck_ProviderAgentID sample_key])).
Proof.
  assert (existsb (fun ev => match ev with EvAdvance request => denied request | _ => false end)
            (w_log (cycles (ENV := resumed_env) (sample_service [ck_ProviderAgentID sample_key])
      [sample_now] tightened_world)) = true) as Hex by (vm_compute; reflexivity).
  apply existsb_exists in Hex as ([| | | |request|] & Hin & Ha); try discriminate Ha.
  apply bool_decide_eq_true in Ha. exists request. split; [by apply list_elem_of_In|]. rewrite Ha. apply list_elem_of_here.
Qed.

Lemma opp_cycle_bounded_witness :
  let w' := (Cycle (ENV := sample_env (Ret sample_verified)) (sample_service []) sample_now sample_world).1 in
  calls is_advance w' = 3%nat /\ (calls is_advance w' <= 80)%nat.
Proof.
  cbv zeta. split; [vm_compute; reflexivity|].
  destruct (opp_cycle_bounded (ENV := sample_env (Ret sample_verified)) (sample_service []) sample_now sample_world _ _
              (surjective_pairing _)) as (_ & _ & H).
  exact H.
Defined.

Lemma opp_purchase_liveness_witness :
  exists w1 w2 record,
    process (ENV := sample_env (Ret sample_verified)) (sample_service []) sample_hint sample_now sample_world = (w1, Ret tt) /\
    process (ENV := sample_env (Ret sample_verified)) (sample_service []) sample_hint sample_now w1 = (w2, Ret tt) /\
    in_journal w2 record /\ ch_Key (rc_Hint record) = ch_Key sample_hint /\
    rc_Phase record = PhasePurchaseResolved.
Proof.
  apply (opp_purchase_liveness (ENV := sample_env (Ret sample_verified)) none_granted (sample_service []) sample_hint sample_now sample_world).
  - apply sample_cooperative.
  - apply sample_world_ok.
  - apply sample_draws.
  - reflexivity.
  - vm_compute; reflexivity.
  - reflexivity.
  - reflexivity.
  - discriminate.
  - intros i r. cbn. by rewrite lookup_empty.
Defined.

Definition tombstoned : answer VerifiedCandidate := Fail (Rejection "Capability tombstoned").

Lemma opp_rejection_recorded_witness :
  exists w' e record,
    process (ENV := sample_env tombstoned) (sample_service []) sample_hint sample_now sample_world = (w', Fail e) /\
    in_journal w' record /\ rc_Phase record = PhaseFailed.
Proof.
  destruct (opp_rejection_recorded (ENV := sample_env tombstoned) none_granted (sample_service []) sample_hint sample_now sample_world
              (Rejection "Capability tombstoned")) as (w' & e & record & E & _ & Hin & _ & Hph & _).
  - apply sample_world_ok.
  - apply sample_draws.
  - reflexivity.
  - vm_compute; reflexivity.
  - reflexivity.
  - discriminate.
  - intros i r. cbn. by rewrite lookup_empty.
  - reflexivity.
  - reflexivity.
  - exists w', e, record. split; [exact E|]. split; [exact Hin|exact Hph].
Defined.

(** The same candidate under a policy that denies its provider. *)
Definition denied_service : Service := sample_service [ck_ProviderAgentID sample_key].
Definition denied_world : world :=
  (process (ENV := sample_env (Ret sample_verified)) denied_service sample_hint sample_now sample_world).1.

Lemma denied_world_ok : world_ok none_granted denied_service sample_now denied_world.
Proof.
  eapply (process_ok (ENV := sample_env (Ret sample_verified))); [apply sample_world_ok|apply sample_draws|
    apply surjective_pairing].
Qed.

Lemma opp_ineligible_misreported_witness :
  exists w', process (ENV := sample_env (Ret sample_verified)) denied_service sample_hint sample_now denied_world =
    (w', Fail ErrPolicyRunnerRequired).
Proof.
  assert ((fun r => (ch_Key (rc_Hint r), rc_Phase r, eligible r)) <$> jn_records (w_journal denied_world) !! sample_intent
          = Some (ch_Key sample_hint, PhaseAssessed, false)) as Hr by (vm_compute; reflexivity).
  destruct (jn_records (w_journal denied_world) !! sample_intent) as [r|] eqn:E; [|discriminate Hr].
  injection Hr as Hk Hp He.
  destruct (opp_ineligible_misreported (ENV := sample_env (Ret sample_verified)) none_granted denied_service sample_hint sample_now
              denied_world sample_intent r) as (w' & Hw' & _).
  - apply denied_world_ok.
  - apply sample_draws.
  - reflexivity.
  - vm_compute; reflexivity.
  - reflexivity.
  - reflexivity.
  - exact E.
  - exact Hk.
  - exact Hp.
  - exact He.
  - exists w'. exact Hw'.
Defined.

Lemma opp_jitter_bounds_witness :
  secureJitter (Some (Fixtures.bytes 8 255)) Minute = 33402105881%Z /\
  (secureJitter (Some (Fixtures.bytes 8 255)) Minute <= Minute)%Z.
Proof.
  split; [vm_compute; reflexivity|].
  destruct (opp_jitter_bounds (Some (Fixtures.bytes 8 255)) Minute) as [_ H]; [vm_compute; discriminate|exact H].
Defined.

End OppService.
