(* ===== verification/OppWire.v ===== *)
(** * The opportunity coordinator's wire protocol (src/pkg/opportunity/wire.go)

    OpenFox reaches the coordinator, which holds the keys and the money,
    through JSON over a Unix socket. Both ends are here: the client's checks on
    every answer, and the handler's on every question. A request or response
    carries a decoded body or the reason it has none; the transport between
    them is a parameter of the client. *)

From S2P Require Import Prelude GoLib GoText FileStore Ledger Protocol Fixtures Opportunity OppService.
#[local] Open Scope N_scope.

Module OppWire.
Import Opportunity OppService.

Definition wireSchema : string := "tos.openfox.opportunity-coordinator.v1".
Definition searchPath : string := "/v1/opportunities/search".
Definition verifyPath : string := "/v1/opportunities/verify".
Definition purchasePath : string := "/v1/opportunities/purchase/advance".
Definition maxRequestBytes : N := 1048576.

Record wireRequest := {
  wq_Schema : string;
  wq_Search : option SearchRequest;
  wq_Hint : option CandidateHint;
  wq_Purchase : option PurchaseRequest
}.

Record wireResponse := {
  wr_Schema : string;
  wr_OK : bool;
  wr_Code : string;
  wr_Detail : string;
  wr_Hints : list CandidateHint;
  wr_Verified : option VerifiedCandidate;
  wr_Progress : option PurchaseProgress
}.

(** A body that cannot be read within its bound, one that [decodeStrict]
    refuses, or the value it decodes to. *)
Inductive http_body (A : Type) := BodyUnreadable | BodyUndecodable | BodyValue (a : A).
Arguments BodyUnreadable {A}.
Arguments BodyUndecodable {A}.
Arguments BodyValue {A} a.

Record http_request := {
  hq_Method : string;
  hq_Path : string;
  hq_RawQuery : string;
  hq_ContentType : string;
  hq_Body : http_body wireRequest
}.

Record http_response := {
  hs_Status : N;
  hs_ContentType : string;
  hs_Body : http_body wireResponse
}.

Definition failure (code detail : string) : wireResponse :=
  {| wr_Schema := wireSchema; wr_OK := false; wr_Code := code; wr_Detail := detail; wr_Hints := [];
     wr_Verified := None; wr_Progress := None |}.

Definition validSearchRequest (request : SearchRequest) (now : Z) : bool :=
  requestPattern (sr_RequestID request) && boundedText (sr_Query request) 1 256
  && (0 <? sr_PageSize request) && (sr_PageSize request <=? 100) && (0 <? sr_MaxCandidates request)
  && (sr_MaxCandidates request <=? 1000) && (sr_PageSize request <=? sr_MaxCandidates request)
  && (UnixMilli now <? sr_DeadlineUnixMS request)%Z
  && (sr_DeadlineUnixMS request <=? UnixMilli (time_Add now Minute))%Z.

(** ** The handler *)

(** [wireFailure]; [None] is a nil error. *)
Definition wireFailure (err : option error) : wireResponse :=
  match err with
  | None => failure "temporarily-unavailable" "coordinator unavailable"
  | Some err =>
      if is_purchase_rejected err then
        failure "purchase-rejected"
          match as_purchase_rejection err with
          | Some reason => if boundedText reason 1 400 then reason else "purchase rejected before funding"
          | None => "purchase rejected before funding"
          end
      else if is_rejected err then
        failure "candidate-rejected"
          match as_rejection err with
          | Some reason => if boundedText reason 1 400 then reason else "candidate failed finalized verification"
          | None => "candidate failed finalized verification"
          end
      else failure "temporarily-unavailable" "coordinator unavailable"
  end.

Definition writeWire (status : N) (response : wireResponse) : http_response :=
  {| hs_Status := status; hs_ContentType := "application/json";
     hs_Body := BodyValue {| wr_Schema := wr_Schema response; wr_OK := status =? 200;
                             wr_Code := wr_Code response; wr_Detail := wr_Detail response;
                             wr_Hints := wr_Hints response; wr_Verified := wr_Verified response;
                             wr_Progress := wr_Progress response |} |}.

Definition bad_envelope (request : http_request) : bool :=
  negb (bool_decide (hq_Method request = "POST"%string))
  || negb (bool_decide (hq_RawQuery request = ""%string))
  || negb (bool_decide (hq_ContentType request = "application/json"%string)).

Section handler.
Context (Search : SearchRequest -> answer (list CandidateHint))
        (Verify : CandidateHint -> answer VerifiedCandidate)
        (AdvancePurchase : PurchaseRequest -> answer PurchaseProgress)
        (purchases : bool) (now : Z).

Definition serve_search (value : SearchRequest) : http_response :=
  match Search value with
  | Fail err => writeWire 503 (wireFailure (Some err))
  | Ret hints =>
      if (sr_MaxCandidates value <? llen hints) || (sr_PageSize value <? llen hints)
      then writeWire 503 (wireFailure None)
      else if negb (forallb validateHint hints)
      then writeWire 503 (wireFailure (Some (ErrorString "coordinator produced invalid hint")))
      else writeWire 200 {| wr_Schema := wireSchema; wr_OK := true; wr_Code := ""; wr_Detail := "";
                            wr_Hints := hints; wr_Verified := None; wr_Progress := None |}
  end.

Definition serve_verify (hint : CandidateHint) : http_response :=
  match Verify hint with
  | Fail err => writeWire (if is_rejected err then 422 else 503) (wireFailure (Some err))
  | Ret verified =>
      if negb (validateVerified verified) || negb (bool_decide (vf_Key verified = ch_Key hint))
      then writeWire 503 (wireFailure (Some (ErrorString "coordinator produced invalid verified candidate")))
      else writeWire 200 {| wr_Schema := wireSchema; wr_OK := true; wr_Code := ""; wr_Detail := "";
                            wr_Hints := []; wr_Verified := Some verified; wr_Progress := None |}
  end.

Definition serveCoordinator (search : bool) (request : http_request) : http_response :=
  if bad_envelope request then writeWire 400 (failure "invalid-request" "invalid request envelope")
  else
    match hq_Body request with
    | BodyUnreadable | BodyUndecodable => writeWire 400 (failure "invalid-request" "invalid request body")
    | BodyValue value =>
        if negb (bool_decide (wq_Schema value = wireSchema)) || negb (is_none (wq_Purchase value))
           || eqb (is_none (wq_Search value)) (is_none (wq_Hint value))
        then writeWire 400 (failure "invalid-request" "invalid request body")
        else if search then
          match wq_Search value with
          | Some s =>
              if negb (is_none (wq_Hint value)) || negb (validSearchRequest s now)
              then writeWire 400 (failure "invalid-request" "invalid search")
              else serve_search s
          | None => writeWire 400 (failure "invalid-request" "invalid search")
          end
        else
          match wq_Hint value with
          | Some hint =>
              if negb (is_none (wq_Search value)) || negb (validateHint hint)
              then writeWire 400 (failure "invalid-request" "invalid candidate")
              else serve_verify hint
          | None => writeWire 400 (failure "invalid-request" "invalid candidate")
          end
    end.

(** [progress] answers [request]: the check both ends make. *)
Definition progress_answers (request : PurchaseRequest) (progress : PurchaseProgress) : bool :=
  validatePurchaseProgress progress && bool_decide (pp_IntentID progress = pr_IntentID request)
  && bool_decide (pp_CandidateKey progress = vf_Key (pr_Candidate request))
  && validPurchaseTransition (pr_Current request) (pp_Phase progress).

Definition same_purchase_key (request : PurchaseRequest) (progress : PurchaseProgress) : bool :=
  match pr_Key request with
  | Some key => bool_decide (pp_Key progress = Some key)
  | None => true
  end.

Definition servePurchase (request : http_request) : http_response :=
  if bad_envelope request then writeWire 400 (failure "invalid-request" "invalid request envelope")
  else
    match hq_Body request with
    | BodyUnreadable => writeWire 400 (failure "invalid-request" "invalid request body")
    | BodyUndecodable => writeWire 400 (failure "invalid-request" "invalid purchase")
    | BodyValue value =>
        match wq_Purchase value with
        | Some purchase =>
            if negb (bool_decide (wq_Schema value = wireSchema)) || negb (is_none (wq_Search value))
               || negb (is_none (wq_Hint value)) || negb (validatePurchaseRequest purchase)
            then writeWire 400 (failure "invalid-request" "invalid purchase")
            else
              match AdvancePurchase purchase with
              | Fail err => writeWire (if is_purchase_rejected err then 422 else 503) (wireFailure (Some err))
              | Ret progress =>
                  if negb (progress_answers purchase progress) || negb (same_purchase_key purchase progress)
                  then writeWire 503 (wireFailure (Some (ErrorString "purchase runner produced invalid progress")))
                  else writeWire 200 {| wr_Schema := wireSchema; wr_OK := true; wr_Code := ""; wr_Detail := "";
                                        wr_Hints := []; wr_Verified := None; wr_Progress := Some progress |}
              end
        | None => writeWire 400 (failure "invalid-request" "invalid purchase")
        end
    end.

(** The request multiplexer; what it does not route is answered as plain text. *)
Definition NewHandlerWithPurchaseRunner (request : http_request) : http_response :=
  if bool_decide (hq_Path request = searchPath) then serveCoordinator true request
  else if bool_decide (hq_Path request = verifyPath) then serveCoordinator false request
  else if purchases && bool_decide (hq_Path request = purchasePath) then servePurchase request
  else {| hs_Status := 404; hs_ContentType := "text/plain; charset=utf-8"; hs_Body := BodyUndecodable |}.

End handler.

(** ** The client *)

(** [filepath.IsAbs(socket) && filepath.Clean(socket) == socket] is an
    argument. *)
Definition NewUnixClient (abs_clean : bool) (timeout : Z) : result unit :=
  if negb abs_clean || (timeout <? Second)%Z || (Minute <? timeout)%Z
  then Err "invalid opportunity coordinator client configuration"
  else Ok tt.

Section client.
Context (marshal : wireRequest -> option N) (Do : http_request -> answer http_response).

Definition call (path : string) (value : wireRequest) : answer wireResponse :=
  match marshal value with
  | None => Fail (ErrorString "encode opportunity coordinator request")
  | Some size =>
      if (size =? 0) || (maxRequestBytes <? size)
      then Fail (ErrorString "encode opportunity coordinator request")
      else
        match Do {| hq_Method := "POST"; hq_Path := path; hq_RawQuery := "";
                    hq_ContentType := "application/json"; hq_Body := BodyValue value |} with
        | Fail err => Fail err
        | Ret response =>
            match hs_Body response with
            | BodyUnreadable => Fail (ErrorString "invalid opportunity coordinator HTTP response")
            | body =>
                if negb (bool_decide (hs_ContentType response = "application/json"%string))
                then Fail (ErrorString "invalid opportunity coordinator HTTP response")
                else
                  match body with
                  | BodyValue decoded =>
                      if negb (bool_decide (wr_Schema decoded = wireSchema))
                      then Fail (ErrorString "invalid opportunity coordinator response")
                      else if negb (hs_Status response =? 200) || negb (wr_OK decoded) then
                        if bool_decide (wr_Code decoded = "candidate-rejected"%string)
                           && boundedText (wr_Detail decoded) 1 400
                        then Fail (Rejection (wr_Detail decoded))
                        else if bool_decide (wr_Code decoded = "purchase-rejected"%string)
                                && boundedText (wr_Detail decoded) 1 400
                        then Fail (PurchaseRejection (wr_Detail decoded))
                        else Fail (ErrorString ("opportunity coordinator failed: " +:+ wr_Code decoded))
                      else if negb (bool_decide (wr_Code decoded = ""%string))
                              || negb (bool_decide (wr_Detail decoded = ""%string))
                      then Fail (ErrorString "successful opportunity response carries failure fields")
                      else Ret decoded
                  | _ => Fail (ErrorString "invalid opportunity coordinator response")
                  end
            end
        end
  end.

Definition Search (request : SearchRequest) (now : Z) : answer (list CandidateHint) :=
  if negb (validSearchRequest request now) then Fail (ErrorString "invalid opportunity search request")
  else
    match call searchPath {| wq_Schema := wireSchema; wq_Search := Some request; wq_Hint := None;
                             wq_Purchase := None |} with
    | Fail err => Fail err
    | Ret response =>
        if negb (is_none (wr_Verified response)) || negb (is_none (wr_Progress response))
           || (sr_MaxCandidates request <? llen (wr_Hints response))
           || (sr_PageSize request <? llen (wr_Hints response))
        then Fail (ErrorString "invalid opportunity search response")
        else if negb (forallb validateHint (wr_Hints response))
        then Fail (ErrorString "invalid opportunity hint from coordinator")
        else Ret (wr_Hints response)
    end.

Definition Verify (hint : CandidateHint) : answer VerifiedCandidate :=
  if negb (validateHint hint) then Fail (ErrorString "invalid opportunity verification request")
  else
    match call verifyPath {| wq_Schema := wireSchema; wq_Search := None; wq_Hint := Some hint;
                             wq_Purchase := None |} with
    | Fail err => Fail err
    | Ret response =>
        match wr_Verified response with
        | Some verified =>
            if negb (is_none (wr_Progress response)) || negb (llen (wr_Hints response) =? 0)
               || negb (validateVerified verified) || negb (bool_decide (vf_Key verified = ch_Key hint))
            then Fail (ErrorString "invalid verified opportunity response")
            else Ret verified
        | None => Fail (ErrorString "invalid verified opportunity response")
        end
    end.

Definition AdvancePurchase (request : PurchaseRequest) : answer PurchaseProgress :=
  if negb (validatePurchaseRequest request) then Fail (ErrorString "invalid opportunity purchase request")
  else
    match call purchasePath {| wq_Schema := wireSchema; wq_Search := None; wq_Hint := None;
                               wq_Purchase := Some request |} with
    | Fail err => Fail err
    | Ret response =>
        match wr_Progress response with
        | Some progress =>
            if negb (is_none (wr_Verified response)) || negb (llen (wr_Hints response) =? 0)
               || negb (progress_answers request progress)
            then Fail (ErrorString "invalid opportunity purchase response")
            else if negb (same_purchase_key request progress)
            then Fail (ErrorString "opportunity purchase identity changed")
            else Ret progress
        | None => Fail (ErrorString "invalid opportunity purchase response")
        end
    end.

(** ** Whatever answers, the client returns only checked values *)

Lemma Search_checked request now hints :
  Search request now = Ret hints ->
  Forall (fun h => validateHint h = true) hints /\
  llen hints <= sr_MaxCandidates request /\ llen hints <= sr_PageSize request.
Proof.
  unfold Search. intros H. head_case H eqn E1; [done|]. head_case H as [response|] eqn E2; [|done].
  head_case H eqn E3; [done|]. head_case H eqn E4; [done|]. injection H as <-. bprop.
  split; [|lia]. apply Forall_forall. intros h Hh.
  match goal with H : forallb _ _ = true |- _ => rewrite forallb_forall in H; apply H end.
  by apply list_elem_of_In.
Qed.

Lemma Verify_checked hint verified :
  Verify hint = Ret verified -> validateVerified verified = true /\ vf_Key verified = ch_Key hint.
Proof.
  unfold Verify. intros H. head_case H eqn E1; [done|]. head_case H as [response|] eqn E2; [|done].
  head_case H as [v|] eqn E3; [|done]. head_case H eqn E4; [done|]. injection H as <-. by bprop.
Qed.

Lemma AdvancePurchase_checked request progress :
  AdvancePurchase request = Ret progress ->
  validatePurchaseRequest request = true /\ progress_answers request progress = true /\
  same_purchase_key request progress = true.
Proof.
  unfold AdvancePurchase. intros H. head_case H eqn E1; [done|]. head_case H as [response|] eqn E2; [|done].
  head_case H as [p|] eqn E3; [|done]. head_case H eqn E4; [done|]. head_case H eqn E5; [done|].
  injection H as <-. by bprop.
Qed.

(** What the client returns, the journal accepts: against any transport and
    any peer, a verification of a hint the client returned applies to its
    discovered record, and progress it returned for the request the scheduler
    builds from a record applies to that record. *)
Theorem wire_answers_accepted record :
  (forall verified, rc_Phase record = PhaseDiscovered -> Verify (rc_Hint record) = Ret verified ->
     is_ok (apply_verified verified record) = true) /\
  (forall verified progress, rc_Verified record = Some verified ->
     AdvancePurchase {| pr_IntentID := rc_IntentID record; pr_Current := rc_Phase record;
                        pr_Candidate := verified; pr_Key := purchase_key record |} = Ret progress ->
     is_ok (apply_progress (rc_IntentID record) progress record) = true).
Proof.
  split.
  - intros verified Hph H. apply Verify_checked in H as [Hv Hk].
    unfold apply_verified. rewrite Hph, Hv, !bool_decide_true by done. done.
  - intros verified progress Hv H. apply AdvancePurchase_checked in H as (_ & Ha & Hk).
    unfold progress_answers, same_purchase_key in *. cbn in *. bprop. unfold apply_progress. rewrite Hv.
    repeat match goal with H : _ = true |- _ => rewrite H; clear H end.
    rewrite !bool_decide_true by done. cbn [negb orb].
    destruct (purchase_key record); [|done]. bprop. by rewrite bool_decide_true.
Qed.

End client.

(** ** The remote call is the local call *)

(** How an error of the coordinator looks from the client's side: its class
    survives, and so does a presentable reason. *)
Definition remote_error (err : error) : error :=
  if is_purchase_rejected err then
    PurchaseRejection match as_purchase_rejection err with
                      | Some reason => if boundedText reason 1 400 then reason else "purchase rejected before funding"
                      | None => "purchase rejected before funding"
                      end
  else if is_rejected err then
    Rejection match as_rejection err with
              | Some reason => if boundedText reason 1 400 then reason else "candidate failed finalized verification"
              | None => "candidate failed finalized verification"
              end
  else ErrorString "opportunity coordinator failed: temporarily-unavailable".

Definition unavailable {A} : answer A :=
  Fail (ErrorString "opportunity coordinator failed: temporarily-unavailable").

Section remote.
Context (S : SearchRequest -> answer (list CandidateHint)) (V : CandidateHint -> answer VerifiedCandidate)
        (A : PurchaseRequest -> answer PurchaseProgress) (now : Z) (marshal : wireRequest -> option N).

(** The socket connects the client to this handler. *)
Definition over_socket (request : http_request) : answer http_response :=
  Ret (NewHandlerWithPurchaseRunner S V A true now request).

Definition fits (value : wireRequest) : Prop :=
  exists size, marshal value = Some size /\ 0 < size <= maxRequestBytes.

Lemma call_writeWire path value status response :
  fits value ->
  over_socket {| hq_Method := "POST"; hq_Path := path; hq_RawQuery := ""; hq_ContentType := "application/json";
                 hq_Body := BodyValue value |} = Ret (writeWire status response) ->
  wr_Schema response = wireSchema ->
  call marshal over_socket path value =
    if negb (status =? 200) then
      if bool_decide (wr_Code response = "candidate-rejected"%string) && boundedText (wr_Detail response) 1 400
      then Fail (Rejection (wr_Detail response))
      else if bool_decide (wr_Code response = "purchase-rejected"%string) && boundedText (wr_Detail response) 1 400
      then Fail (PurchaseRejection (wr_Detail response))
      else Fail (ErrorString ("opportunity coordinator failed: " +:+ wr_Code response))
    else if negb (bool_decide (wr_Code response = ""%string)) || negb (bool_decide (wr_Detail response = ""%string))
    then Fail (ErrorString "successful opportunity response carries failure fields")
    else Ret {| wr_Schema := wr_Schema response; wr_OK := true; wr_Code := wr_Code response;
                wr_Detail := wr_Detail response; wr_Hints := wr_Hints response;
                wr_Verified := wr_Verified response; wr_Progress := wr_Progress response |}.
Proof.
  intros (size & Hm & H0 & H1) Hd Hs. unfold call. rewrite Hm, Hd.
  destruct (N.eqb_spec size 0); [lia|]. destruct (N.ltb_spec maxRequestBytes size); [lia|]. cbn [orb].
  cbn [writeWire hs_Body hs_ContentType hs_Status wr_Schema wr_OK wr_Code wr_Detail].
  rewrite Hs, !bool_decide_true by done. cbn [negb]. destruct (status =? 200); done.
Qed.

(** A failure the handler writes arrives as its remote form. *)
Lemma remote_failure path value status err :
  fits value ->
  over_socket {| hq_Method := "POST"; hq_Path := path; hq_RawQuery := ""; hq_ContentType := "application/json";
                 hq_Body := BodyValue value |} = Ret (writeWire status (wireFailure (Some err))) ->
  negb (status =? 200) = true ->
  call marshal over_socket path value = Fail (remote_error err).
Proof.
  intros Hf Hd Hst. unfold wireFailure, remote_error in *.
  assert (forall r d, boundedText d 1 400 = true ->
    boundedText match r with Some reason => if boundedText reason 1 400 then reason else d | None => d end 1 400 = true) as Hb.
  { intros [r|] d Hdd; [|done]. by destruct (boundedText r 1 400) eqn:E. }
  destruct (is_purchase_rejected err); [|destruct (is_rejected err)];
    rewrite (call_writeWire path value status _ Hf Hd eq_refl), Hst;
    cbn [failure wr_Code wr_Detail]; rewrite ?Hb by (vm_compute; reflexivity); done.
Qed.

(** Verifying through the socket is verifying in the coordinator: for a
    valid hint the client returns exactly the coordinator's answer when that is
    a valid verification of this candidate, its rejection with its reason when
    it rejects, and unavailability in every other case. *)
Theorem wire_verify_transparent hint :
  validateHint hint = true ->
  fits {| wq_Schema := wireSchema; wq_Search := None; wq_Hint := Some hint; wq_Purchase := None |} ->
  Verify marshal over_socket hint =
    match V hint with
    | Ret verified =>
        if validateVerified verified && bool_decide (vf_Key verified = ch_Key hint) then Ret verified else unavailable
    | Fail err => Fail (remote_error err)
    end.
Proof.
  intros Hh Hf. unfold Verify. rewrite Hh. cbn [negb].
  set (value := {| wq_Schema := _ |}) in *.
  assert (over_socket {| hq_Method := "POST"; hq_Path := verifyPath; hq_RawQuery := "";
            hq_ContentType := "application/json"; hq_Body := BodyValue value |} = Ret (serve_verify V hint)) as Hs.
  { unfold over_socket, NewHandlerWithPurchaseRunner, serveCoordinator. subst value.
    cbn -[validateHint serve_verify]. by rewrite Hh. }
  unfold serve_verify in Hs. destruct (V hint) as [verified|err].
  - destruct (validateVerified verified && bool_decide (vf_Key verified = ch_Key hint)) eqn:Ev.
    + bprop. rewrite (bool_decide_true (vf_Key verified = _)) in * by done.
      match goal with H : validateVerified _ = true |- _ => rewrite H in *; pose proof H as Hvv end.
      cbn [negb orb] in Hs. rewrite (call_writeWire _ _ _ _ Hf Hs eq_refl). cbn -[validateVerified].
      rewrite !bool_decide_true by done. cbn -[validateVerified]. by rewrite Hvv, bool_decide_true.
    + rewrite <-negb_andb, Ev in Hs. cbn [negb] in Hs.
      by rewrite (remote_failure _ _ _ _ Hf Hs eq_refl).
  - destruct (is_rejected err) eqn:Er;
      rewrite (remote_failure _ _ _ _ Hf Hs eq_refl); done.
Qed.

(** Advancing a purchase through the socket is advancing it in the runner:
    a valid request returns exactly the runner's progress when it answers this
    request with a legal transition and the same purchase key, its rejection
    with its reason when it rejects, and unavailability otherwise. *)
Theorem wire_purchase_transparent request :
  validatePurchaseRequest request = true ->
  fits {| wq_Schema := wireSchema; wq_Search := None; wq_Hint := None; wq_Purchase := Some request |} ->
  AdvancePurchase marshal over_socket request =
    match A request with
    | Ret progress =>
        if progress_answers request progress && same_purchase_key request progress then Ret progress else unavailable
    | Fail err => Fail (remote_error err)
    end.
Proof.
  intros Hr Hf. unfold AdvancePurchase. rewrite Hr. cbn [negb].
  set (value := {| wq_Schema := _ |}) in *.
  assert (over_socket {| hq_Method := "POST"; hq_Path := purchasePath; hq_RawQuery := "";
            hq_ContentType := "application/json"; hq_Body := BodyValue value |} =
    Ret match A request with
        | Fail err => writeWire (if is_purchase_rejected err then 422 else 503) (wireFailure (Some err))
        | Ret progress =>
            if negb (progress_answers request progress) || negb (same_purchase_key request progress)
            then writeWire 503 (wireFailure (Some (ErrorString "purchase runner produced invalid progress")))
            else writeWire 200 {| wr_Schema := wireSchema; wr_OK := true; wr_Code := ""; wr_Detail := "";
                                  wr_Hints := []; wr_Verified := None; wr_Progress := Some progress |}
        end) as Hs.
  { unfold over_socket, NewHandlerWithPurchaseRunner, servePurchase. subst value.
    cbn -[validatePurchaseRequest progress_answers same_purchase_key wireFailure writeWire]. by rewrite Hr. }
  destruct (A request) as [progress|err].
  - rewrite <-negb_andb in Hs. destruct (progress_answers request progress && same_purchase_key request progress) eqn:Ep;
      cbn [negb] in Hs.
    + rewrite (call_writeWire _ _ _ _ Hf Hs eq_refl). apply andb_true_iff in Ep as [E1 E2].
      cbn -[progress_answers same_purchase_key]. rewrite !bool_decide_true by done.
      cbn -[progress_answers same_purchase_key]. by rewrite E1, E2.
    + by rewrite (remote_failure _ _ _ _ Hf Hs eq_refl).
  - destruct (is_purchase_rejected err) eqn:Er;
      rewrite (remote_failure _ _ _ _ Hf Hs eq_refl); done.
Qed.

(** Searching through the socket is searching in the coordinator. *)
Lemma search_transparent request :
  validSearchRequest request now = true ->
  fits {| wq_Schema := wireSchema; wq_Search := Some request; wq_Hint := None; wq_Purchase := None |} ->
  Search marshal over_socket request now =
    match S request with
    | Ret hints =>
        if (llen hints <=? sr_MaxCandidates request) && (llen hints <=? sr_PageSize request)
           && forallb validateHint hints
        then Ret hints else unavailable
    | Fail err => Fail (remote_error err)
    end.
Proof.
  intros Hr Hf. unfold Search. rewrite Hr. cbn [negb].
  set (value := {| wq_Schema := _ |}) in *.
  assert (over_socket {| hq_Method := "POST"; hq_Path := searchPath; hq_RawQuery := "";
            hq_ContentType := "application/json"; hq_Body := BodyValue value |} = Ret (serve_search S request)) as Hs.
  { unfold over_socket, NewHandlerWithPurchaseRunner, serveCoordinator. subst value.
    cbn -[validSearchRequest serve_search]. by rewrite Hr. }
  unfold serve_search in Hs. destruct (S request) as [hints|err];
    [|by rewrite (remote_failure _ _ _ _ Hf Hs eq_refl)].
  rewrite !N.ltb_antisym in Hs. rewrite <-negb_andb in Hs.
  destruct ((llen hints <=? sr_MaxCandidates request) && (llen hints <=? sr_PageSize request)) eqn:El;
    cbn [negb andb] in *.
  - destruct (forallb validateHint hints) eqn:Ev; cbn [negb] in Hs;
      [|by rewrite (remote_failure _ _ _ _ Hf Hs eq_refl)].
    rewrite (call_writeWire _ _ _ _ Hf Hs eq_refl). apply andb_true_iff in El as [E1 E2].
    cbn -[validateHint forallb]. rewrite !bool_decide_true by done. cbn -[validateHint forallb].
    rewrite !N.ltb_antisym, E1, E2, Ev. done.
  - by rewrite (call_writeWire _ _ _ _ Hf Hs eq_refl).
Qed.

End remote.

(** ** Concrete calls *)

Definition sample_marshal (_ : wireRequest) : option N := Some 512.

Definition sample_socket (verify : answer VerifiedCandidate) : http_request -> answer http_response :=
  over_socket (fun _ => Ret [sample_hint]) (fun _ => verify) (fun request => Ret (sample_progress request)) sample_now.

Lemma sample_fits value : fits sample_marshal value.
Proof. exists 512. by split. Qed.

Definition sample_record : JournalRecord := discovered_record sample_intent sample_hint sample_now.

Lemma wire_answers_accepted_witness :
  is_ok (apply_verified sample_verified sample_record) = true.
Proof.
  destruct (wire_answers_accepted sample_marshal (sample_socket (Ret sample_verified)) sample_record) as [H _].
  apply H; vm_compute; reflexivity.
Defined.

Lemma wire_verify_transparent_witness :
  Verify sample_marshal (sample_socket tombstoned) sample_hint = Fail (Rejection "Capability tombstoned").
Proof.
  unfold sample_socket. rewrite wire_verify_transparent; [|vm_compute; reflexivity|apply sample_fits].
  vm_compute. reflexivity.
Defined.

Definition sample_purchase : PurchaseRequest :=
  {| pr_IntentID := sample_intent; pr_Current := PhaseQuoteRequested; pr_Candidate := sample_verified; pr_Key := None |}.

Lemma wire_purchase_transparent_witness :
  AdvancePurchase sample_marshal (sample_socket tombstoned) sample_purchase = Ret (sample_progress sample_purchase).
Proof.
  unfold sample_socket. rewrite wire_purchase_transparent; [|vm_compute; reflexivity|apply sample_fits].
  vm_compute. reflexivity.
Defined.

End OppWire.
