(* ===== verification/Gift.v ===== *)
(** * The Agent Gift journal (src/pkg/agentgift/types.go, journal.go)

    An Agent Gift is a private payment between two agents: the recipient tells
    the sender an address, the owner authorizes, custody signs one exact
    transfer, the recipient broadcasts it. Each side keeps one record per
    intent in a durable journal. This file models the data and the journal;
    the operations are in GiftService.v. *)

From S2P Require Import Prelude GoLib GoText FileStore Ledger Protocol Fixtures.
#[local] Open Scope N_scope.

Module Gift.

(** ** types.go *)

(** Strings in the source; the last constructor is any other string. *)
Inductive Role := RoleSender | RoleRecipient | RoleOther (value : string).

#[global] Instance Role_eq_dec : EqDecision Role.
Proof. solve_decision. Defined.

Inductive State :=
| StateDraft | StateRecipientResolved | StateAddressRequested | StateAddressReceived
| StateOwnerAuthorizationRequired | StateOwnerAuthorized | StateBOCSigned | StateOfferDelivered
| StateAddressRequestObserved | StateAddressResponseSent | StateSignedOfferObserved | StateVerified
| StateBroadcastSubmitted | StateCurrentlyExecutable | StateCurrentlyUnexecutable
| StateInsufficientFunds | StateFinalizedPaid | StateExpiredUnpaid | StateInvalidatedUnpaid
| StateFinalityUnknown | StateOther (value : string).

#[global] Instance State_eq_dec : EqDecision State.
Proof. solve_decision. Defined.

Inductive PendingEffect :=
| EffectNone | EffectSendAddressRequest | EffectSendAddressResponse | EffectSignBOC | EffectSendOffer
| EffectBroadcast | EffectPrepareCancel | EffectCancel | EffectOther (value : string).

#[global] Instance PendingEffect_eq_dec : EqDecision PendingEffect.
Proof. solve_decision. Defined.

Record ModelProposal := {
  mp_Recipient : string;
  mp_AmountAtomic : string;
  mp_RequestedValidUntil : N;
  mp_Greeting : string
}.

Record RequestIntent := {
  ri_Network : string;
  ri_GlobalID : Z;
  ri_IntentID : string;
  ri_SenderAgentID : string;
  ri_RecipientAgentID : string;
  ri_SenderAgentAccount : string;
  ri_AmountAtomic : string;
  ri_RequestedValidUntil : N
}.

#[global] Instance RequestIntent_eq_dec : EqDecision RequestIntent.
Proof. solve_decision. Defined.

Record ResponseTerms := {
  rt_DestinationAddress : string;
  rt_ResponseNotAfter : N;
  rt_RequestDigest : string;
  rt_ResponseDigest : string
}.

Record SignedTerms := {
  st_SignedGiftID : string;
  st_ExactBOCDigest : string;
  st_SenderAgentAccount : string;
  st_DestinationAddress : string;
  st_AmountAtomic : string;
  st_DeploymentID : string;
  st_FeeReserveAtomic : string;
  st_Seqno : N;
  st_ValidUntil : N;
  st_ControllerEpoch : N;
  st_ExactSignedBOC : string
}.

Record SignRequest := {
  sq_IntentID : string;
  sq_CanonicalRequest : string;
  sq_CanonicalResponse : string;
  sq_OwnerAuthorizationDigest : string;
  sq_UnsignedTransferDigest : string
}.

Record CancelRequest := {
  cq_IntentID : string;
  cq_SignedGiftID : string;
  cq_OwnerAuthorizationDigest : string;
  cq_SenderAgentAccount : string;
  cq_GlobalID : Z;
  cq_Seqno : N;
  cq_ValidUntil : N
}.

Record ResolveRequest := {
  rq_IntentID : string;
  rq_SignedGiftID : string;
  rq_SenderAgentAccount : string;
  rq_DestinationAddress : string;
  rq_AmountAtomic : string;
  rq_ExactBOCDigest : string;
  rq_GlobalID : Z;
  rq_ControllerEpoch : N;
  rq_Seqno : N;
  rq_ValidUntil : N;
  rq_ExactSignedBOC : string
}.

Record CustodyReview := {
  cr_Network : string;
  cr_RecipientAgentID : string;
  cr_SenderAgentAccount : string;
  cr_OwnerWallet : string;
  cr_ControllerKeyID : string;
  cr_DeploymentID : string;
  cr_DestinationAddress : string;
  cr_AmountAtomic : string;
  cr_FeeReserveAtomic : string;
  cr_RequestDigest : string;
  cr_ResponseDigest : string;
  cr_UnsignedTransferDigest : string;
  cr_GlobalID : Z;
  cr_ControllerEpoch : N;
  cr_Seqno : N;
  cr_ValidUntil : N
}.

Record OwnerReview := {
  or_Action : string;
  or_IntentID : string;
  or_SignedGiftID : string;
  or_RecipientAgentID : string;
  or_Network : string;
  or_AmountAtomic : string;
  or_DestinationAddress : string;
  or_SenderAgentAccount : string;
  or_OwnerWallet : string;
  or_ControllerKeyID : string;
  or_DeploymentID : string;
  or_FeeReserveAtomic : string;
  or_RequestDigest : string;
  or_ResponseDigest : string;
  or_UnsignedTransferDigest : string;
  or_GlobalID : Z;
  or_ControllerEpoch : N;
  or_Seqno : N;
  or_ValidUntil : N;
  or_RequestedValidUntil : N;
  or_ResponseNotAfter : N;
  or_FundsLocked : bool
}.

(** A rune outside ASCII is no digit, so runes and bytes agree here. *)
Definition validCanonicalAmount (value : string) : bool :=
  match value with
  | EmptyString => false
  | String c _ => if 20 <? slen value then false else negb (byte_of c =? 48) && all_bytes is_digit value
  end.

(** [uint32] of a signed integer. *)
Definition to_u32 (z : Z) : N := Z.to_N (z mod 4294967296).

Definition ModelProposal_Validate (v : ModelProposal) (now : Z) : result unit :=
  if bool_decide (mp_Recipient v = ""%string) || (255 <? slen (mp_Recipient v))
     || negb (validCanonicalAmount (mp_AmountAtomic v))
     || (mp_RequestedValidUntil v <=? to_u32 (Unix now)) || (512 <? slen (mp_Greeting v))
  then Err "invalid bounded model Gift proposal"
  else Ok tt.

(** ** journal.go *)

Definition journalSchema : string := "tos.openfox.agent-gift-journal.v1".
Definition maxJournalBytes : N := 33554432.
Definition maxGiftRecords : N := 4096.

(** [Record] of journal.go. *)
Record GiftRecord := {
  g_IntentID : string;
  g_Role : Role;
  g_State : State;
  g_PendingEffect : PendingEffect;
  g_Network : string;
  g_GlobalID : Z;
  g_SenderAgentID : string;
  g_RecipientAgentID : string;
  g_SenderAgentAccount : string;
  g_AmountAtomic : string;
  g_RequestedValidUntil : N;
  g_ResponseNotAfter : N;
  g_DestinationAddress : string;
  g_RequestDigest : string;
  g_ResponseDigest : string;
  g_OwnerAuthorizationDigest : string;
  g_UnsignedTransferDigest : string;
  g_OwnerWallet : string;
  g_ControllerKeyID : string;
  g_DeploymentID : string;
  g_ControllerEpoch : N;
  g_FeeReserveAtomic : string;
  g_CancellationAuthorizationDigest : string;
  g_SignedGiftID : string;
  g_ExactBOCDigest : string;
  g_Seqno : N;
  g_ValidUntil : N;
  g_CanonicalRequest : string;
  g_CanonicalResponse : string;
  g_ExactSignedBOC : string;
  g_ExactCancellationBOC : string;
  g_CanonicalOffer : string;
  g_CanonicalOfferDigest : string;
  g_RequestEventID : string;
  g_ResponseEventID : string;
  g_OfferEventID : string;
  g_BroadcastAttempts : N;
  g_CancellationAttempts : N;
  g_RetryNotBeforeUnix : Z;
  g_DisplayMessage : string;
  g_CreatedAtUnix : Z;
  g_UpdatedAtUnix : Z
}.

(** Assignments [v.Field = x] to a record. *)
Definition eta (r : GiftRecord) : GiftRecord :=
  {| g_IntentID := g_IntentID r; g_Role := g_Role r; g_State := g_State r; g_PendingEffect := g_PendingEffect r;
     g_Network := g_Network r; g_GlobalID := g_GlobalID r; g_SenderAgentID := g_SenderAgentID r;
     g_RecipientAgentID := g_RecipientAgentID r; g_SenderAgentAccount := g_SenderAgentAccount r;
     g_AmountAtomic := g_AmountAtomic r; g_RequestedValidUntil := g_RequestedValidUntil r; g_ResponseNotAfter
     := g_ResponseNotAfter r; g_DestinationAddress := g_DestinationAddress r; g_RequestDigest :=
     g_RequestDigest r; g_ResponseDigest := g_ResponseDigest r; g_OwnerAuthorizationDigest :=
     g_OwnerAuthorizationDigest r; g_UnsignedTransferDigest := g_UnsignedTransferDigest r; g_OwnerWallet :=
     g_OwnerWallet r; g_ControllerKeyID := g_ControllerKeyID r; g_DeploymentID := g_DeploymentID r;
     g_ControllerEpoch := g_ControllerEpoch r; g_FeeReserveAtomic := g_FeeReserveAtomic r;
     g_CancellationAuthorizationDigest := g_CancellationAuthorizationDigest r; g_SignedGiftID :=
     g_SignedGiftID r; g_ExactBOCDigest := g_ExactBOCDigest r; g_Seqno := g_Seqno r; g_ValidUntil :=
     g_ValidUntil r; g_CanonicalRequest := g_CanonicalRequest r; g_CanonicalResponse := g_CanonicalResponse r;
     g_ExactSignedBOC := g_ExactSignedBOC r; g_ExactCancellationBOC := g_ExactCancellationBOC r;
     g_CanonicalOffer := g_CanonicalOffer r; g_CanonicalOfferDigest := g_CanonicalOfferDigest r;
     g_RequestEventID := g_RequestEventID r; g_ResponseEventID := g_ResponseEventID r; g_OfferEventID :=
     g_OfferEventID r; g_BroadcastAttempts := g_BroadcastAttempts r; g_CancellationAttempts :=
     g_CancellationAttempts r; g_RetryNotBeforeUnix := g_RetryNotBeforeUnix r; g_DisplayMessage :=
     g_DisplayMessage r; g_CreatedAtUnix := g_CreatedAtUnix r; g_UpdatedAtUnix := g_UpdatedAtUnix r |}.

Ltac set_field proj v r :=
  let b := eval cbv beta delta [eta] in (eta r) in
  let b' := eval pattern proj in b in
  match b' with ?f _ => let t := eval cbv beta in (f v) in exact t end.

Definition set_State (v : State) (r : GiftRecord) : GiftRecord := ltac:(set_field (g_State r) v r).
Definition set_PendingEffect (v : PendingEffect) (r : GiftRecord) : GiftRecord := ltac:(set_field (g_PendingEffect r) v r).
Definition set_SenderAgentAccount (v : string) (r : GiftRecord) : GiftRecord := ltac:(set_field (g_SenderAgentAccount r) v r).
Definition set_AmountAtomic (v : string) (r : GiftRecord) : GiftRecord := ltac:(set_field (g_AmountAtomic r) v r).
Definition set_ResponseNotAfter (v : N) (r : GiftRecord) : GiftRecord := ltac:(set_field (g_ResponseNotAfter r) v r).
Definition set_DestinationAddress (v : string) (r : GiftRecord) : GiftRecord := ltac:(set_field (g_DestinationAddress r) v r).
Definition set_ResponseDigest (v : string) (r : GiftRecord) : GiftRecord := ltac:(set_field (g_ResponseDigest r) v r).
Definition set_OwnerAuthorizationDigest (v : string) (r : GiftRecord) : GiftRecord := ltac:(set_field (g_OwnerAuthorizationDigest r) v r).
Definition set_UnsignedTransferDigest (v : string) (r : GiftRecord) : GiftRecord := ltac:(set_field (g_UnsignedTransferDigest r) v r).
Definition set_OwnerWallet (v : string) (r : GiftRecord) : GiftRecord := ltac:(set_field (g_OwnerWallet r) v r).
Definition set_ControllerKeyID (v : string) (r : GiftRecord) : GiftRecord := ltac:(set_field (g_ControllerKeyID r) v r).
Definition set_DeploymentID (v : string) (r : GiftRecord) : GiftRecord := ltac:(set_field (g_DeploymentID r) v r).
Definition set_ControllerEpoch (v : N) (r : GiftRecord) : GiftRecord := ltac:(set_field (g_ControllerEpoch r) v r).
Definition set_FeeReserveAtomic (v : string) (r : GiftRecord) : GiftRecord := ltac:(set_field (g_FeeReserveAtomic r) v r).
Definition set_CancellationAuthorizationDigest (v : string) (r : GiftRecord) : GiftRecord := ltac:(set_field (g_CancellationAuthorizationDigest r) v r).
Definition set_SignedGiftID (v : string) (r : GiftRecord) : GiftRecord := ltac:(set_field (g_SignedGiftID r) v r).
Definition set_ExactBOCDigest (v : string) (r : GiftRecord) : GiftRecord := ltac:(set_field (g_ExactBOCDigest r) v r).
Definition set_Seqno (v : N) (r : GiftRecord) : GiftRecord := ltac:(set_field (g_Seqno r) v r).
Definition set_ValidUntil (v : N) (r : GiftRecord) : GiftRecord := ltac:(set_field (g_ValidUntil r) v r).
Definition set_CanonicalResponse (v : string) (r : GiftRecord) : GiftRecord := ltac:(set_field (g_CanonicalResponse r) v r).
Definition set_ExactSignedBOC (v : string) (r : GiftRecord) : GiftRecord := ltac:(set_field (g_ExactSignedBOC r) v r).
Definition set_ExactCancellationBOC (v : string) (r : GiftRecord) : GiftRecord := ltac:(set_field (g_ExactCancellationBOC r) v r).
Definition set_CanonicalOffer (v : string) (r : GiftRecord) : GiftRecord := ltac:(set_field (g_CanonicalOffer r) v r).
Definition set_CanonicalOfferDigest (v : string) (r : GiftRecord) : GiftRecord := ltac:(set_field (g_CanonicalOfferDigest r) v r).
Definition set_RequestEventID (v : string) (r : GiftRecord) : GiftRecord := ltac:(set_field (g_RequestEventID r) v r).
Definition set_ResponseEventID (v : string) (r : GiftRecord) : GiftRecord := ltac:(set_field (g_ResponseEventID r) v r).
Definition set_OfferEventID (v : string) (r : GiftRecord) : GiftRecord := ltac:(set_field (g_OfferEventID r) v r).
Definition set_BroadcastAttempts (v : N) (r : GiftRecord) : GiftRecord := ltac:(set_field (g_BroadcastAttempts r) v r).
Definition set_CancellationAttempts (v : N) (r : GiftRecord) : GiftRecord := ltac:(set_field (g_CancellationAttempts r) v r).
Definition set_RetryNotBeforeUnix (v : Z) (r : GiftRecord) : GiftRecord := ltac:(set_field (g_RetryNotBeforeUnix r) v r).
Definition set_DisplayMessage (v : string) (r : GiftRecord) : GiftRecord := ltac:(set_field (g_DisplayMessage r) v r).
Definition set_UpdatedAtUnix (v : Z) (r : GiftRecord) : GiftRecord := ltac:(set_field (g_UpdatedAtUnix r) v r).

Record document := {
  dc_Schema : string;
  dc_Records : list GiftRecord
}.

Record Journal := {
  gj_file : file_state document;
  gj_lock : bool;
  gj_records : gmap string GiftRecord
}.

Definition terminalState (state : State) : bool :=
  bool_decide (state = StateFinalizedPaid) || bool_decide (state = StateExpiredUnpaid)
  || bool_decide (state = StateInvalidatedUnpaid).

Definition validRoleState (role : Role) (state : State) : bool :=
  let common := match state with
    | StateFinalizedPaid | StateExpiredUnpaid | StateInvalidatedUnpaid | StateFinalityUnknown
    | StateCurrentlyExecutable | StateCurrentlyUnexecutable | StateInsufficientFunds => true
    | _ => false
    end in
  if bool_decide (role = RoleSender) then
    common || match state with
      | StateDraft | StateRecipientResolved | StateAddressRequested | StateAddressReceived
      | StateOwnerAuthorizationRequired | StateOwnerAuthorized | StateBOCSigned | StateOfferDelivered => true
      | _ => false
      end
  else
    common || match state with
      | StateAddressRequestObserved | StateAddressResponseSent | StateSignedOfferObserved
      | StateVerified | StateBroadcastSubmitted => true
      | _ => false
      end.

Definition validSHA256Digest (value : string) : bool := hex64_pattern "sha256:" value.

Definition validateRecord (v : GiftRecord) : result unit :=
  if negb (slen (g_IntentID v) =? 64) || (g_CreatedAtUnix v <=? 0)%Z
     || (g_UpdatedAtUnix v <? g_CreatedAtUnix v)%Z
     || (negb (bool_decide (g_Role v = RoleSender)) && negb (bool_decide (g_Role v = RoleRecipient)))
     || bool_decide (g_State v = StateOther "") || bool_decide (g_Network v = ""%string)
     || (g_GlobalID v =? 0)%Z || bool_decide (g_SenderAgentID v = ""%string)
     || bool_decide (g_RecipientAgentID v = ""%string)
     || bool_decide (g_SenderAgentID v = g_RecipientAgentID v)
     || negb (validCanonicalAmount (g_AmountAtomic v)) || (g_RequestedValidUntil v =? 0)
     || (65536 <? slen (g_CanonicalRequest v)) || (65536 <? slen (g_CanonicalResponse v))
     || (65536 <? slen (g_ExactSignedBOC v)) || (65536 <? slen (g_ExactCancellationBOC v))
     || (65536 <? slen (g_CanonicalOffer v))
     || (negb (terminalState (g_State v)) && (slen (g_CanonicalRequest v) =? 0))
  then Err "invalid Agent Gift journal record"
  else if negb (all_bytes is_lower_hex (g_IntentID v)) then Err "invalid Agent Gift intent ID"
  else if (512 <? slen (g_DisplayMessage v)) || negb (validRoleState (g_Role v) (g_State v))
  then Err "invalid Agent Gift role state"
  else if negb (bool_decide (g_CanonicalOfferDigest v = ""%string))
          && negb (validSHA256Digest (g_CanonicalOfferDigest v))
  then Err "invalid canonical Gift offer digest"
  else Ok tt.

Definition to_document (records : gmap string GiftRecord) : document :=
  {| dc_Schema := journalSchema; dc_Records := sort_by g_IntentID (map_vals records) |}.

Definition persist (e : io document) (file : file_state document) (records : gmap string GiftRecord)
    : file_state document * result unit :=
  persist_bounded e maxJournalBytes "encode Agent Gift journal" (to_document records) file.

Fixpoint load_records (records : gmap string GiftRecord) (listed : list GiftRecord)
    : result (gmap string GiftRecord) :=
  match listed with
  | [] => Ok records
  | record :: rest =>
      match validateRecord record with
      | Err m => Err m
      | Ok _ =>
          if bool_decide (is_Some (records !! g_IntentID record)) then Err "duplicate Agent Gift intent"
          else load_records (<[g_IntentID record := record]> records) rest
      end
  end.

Definition load (e : io document) (file : file_state document)
    : file_state document * result (gmap string GiftRecord) :=
  match file with
  | FileAbsent =>
      let '(file', r) := persist e file ∅ in (file', match r with Ok _ => Ok ∅ | Err m => Err m end)
  | FileUnreadable => (file, Err "Agent Gift journal is not a bounded owner-only file")
  | FileUndecodable => (file, Err "invalid Agent Gift journal")
  | FileDoc doc =>
      (file,
       if negb (bool_decide (dc_Schema doc = journalSchema)) then Err "invalid Agent Gift journal"
       else if maxGiftRecords <? llen (dc_Records doc) then Err "Agent Gift journal exceeds record capacity"
       else load_records ∅ (dc_Records doc))
  end.

(** When [load] fails the lock is released and no journal is returned. *)
Definition OpenJournal (e : io document) (d : dir_env) (file : file_state document)
    : file_state document * result Journal :=
  if negb (de_abs_clean d) then (file, Err "Agent Gift journal directory must be clean and absolute")
  else if negb (de_lstat d) || negb (de_is_dir d) || de_symlink d || negb (de_perm d =? 448)
  then (file, Err "Agent Gift journal directory must be owner-private")
  else
    match de_lock d with
    | Err m => (file, Err m)
    | Ok _ =>
        let '(file', r) := load e file in
        (file', let? records := r in Ok {| gj_file := file'; gj_lock := true; gj_records := records |})
    end.

(** The body of the loop over the map, on entries in some order. *)
Fixpoint oldest_terminal (oldest : option (string * Z)) (entries : list (string * GiftRecord))
    : option (string * Z) :=
  match entries with
  | [] => oldest
  | (id, record) :: rest =>
      oldest_terminal
        (if negb (terminalState (g_State record)) then oldest
         else
           match oldest with
           | None => Some (id, g_UpdatedAtUnix record)
           | Some (oldestID, oldestUpdated) =>
               if (g_UpdatedAtUnix record <? oldestUpdated)%Z
                  || ((g_UpdatedAtUnix record =? oldestUpdated)%Z && str_lt id oldestID)
               then Some (id, g_UpdatedAtUnix record)
               else oldest
           end) rest
  end.

Definition evictOldestTerminal (records : gmap string GiftRecord) : option (gmap string GiftRecord) :=
  match oldest_terminal None (map_to_list records) with
  | None => None
  | Some (oldestID, _) => Some (delete oldestID records)
  end.

(** The end of [Create] and [Update]: persist, then publish. *)
Definition publish (e : io document) (j : Journal) (updated : gmap string GiftRecord) (record : GiftRecord)
    : Journal * result GiftRecord :=
  let '(file', r) := persist e (gj_file j) updated in
  match r with
  | Err m => ({| gj_file := file'; gj_lock := gj_lock j; gj_records := gj_records j |}, Err m)
  | Ok _ => ({| gj_file := file'; gj_lock := gj_lock j; gj_records := updated |}, Ok record)
  end.

Definition Create (e : io document) (j : Journal) (record : GiftRecord) : Journal * result GiftRecord :=
  if negb (gj_lock j) then (j, Err "Agent Gift journal is closed")
  else if bool_decide (is_Some (gj_records j !! g_IntentID record))
  then (j, Err "Agent Gift intent already exists")
  else
    match validateRecord record with
    | Err m => (j, Err m)
    | Ok _ =>
        match (if maxGiftRecords <=? N.of_nat (size (gj_records j)) then evictOldestTerminal (gj_records j)
               else Some (gj_records j)) with
        | None => (j, Err "Agent Gift journal capacity reached with no terminal record to evict")
        | Some kept => publish e j (<[g_IntentID record := record]> kept) record
        end
    end.

Definition Close (release : result unit) (j : Journal) : Journal * result unit :=
  if negb (gj_lock j) then (j, Ok tt)
  else ({| gj_file := gj_file j; gj_lock := false; gj_records := gj_records j |}, release).

Definition Update (e : io document) (j : Journal) (intent : string)
    (apply : GiftRecord -> result GiftRecord) : Journal * result GiftRecord :=
  if negb (gj_lock j) then (j, Err "Agent Gift journal is closed")
  else
    match gj_records j !! intent with
    | None => (j, Err "Agent Gift intent not found")
    | Some before =>
        match apply before with
        | Err m => (j, Err m)
        | Ok record =>
            if negb (bool_decide (g_IntentID record = g_IntentID before))
               || negb (bool_decide (g_Role record = g_Role before))
               || negb (g_CreatedAtUnix record =? g_CreatedAtUnix before)%Z
               || (g_UpdatedAtUnix record <? g_UpdatedAtUnix before)%Z
            then (j, Err "immutable Agent Gift journal identity changed")
            else
              match validateRecord record with
              | Err m => (j, Err m)
              | Ok _ => publish e j (<[intent := record]> (gj_records j)) record
              end
        end
    end.

Definition Get (j : Journal) (intent : string) : option GiftRecord :=
  if negb (gj_lock j) then None else gj_records j !! intent.

Definition List (j : Journal) : list GiftRecord :=
  if negb (gj_lock j) then [] else sort_by g_IntentID (map_vals (gj_records j)).

(** ** Lemmas *)

Lemma validateRecord_intent r : validateRecord r = Ok tt -> g_IntentID r <> ""%string.
Proof.
  unfold validateRecord. destruct (_ || _) eqn:E; [done|]. bprop. intros _ Hi.
  rewrite Hi in *. done.
Qed.

(** Each record under its own intent. *)
Definition keyed (records : gmap string GiftRecord) : Prop :=
  map_Forall (fun i r => g_IntentID r = i) records.

Lemma keyed_vals records r :
  keyed records -> r ∈ map_vals records <-> records !! g_IntentID r = Some r.
Proof.
  intros Hk. rewrite elem_of_map_vals. split; [|eauto]. intros [k Hr]. by rewrite (Hk k r Hr).
Qed.

Lemma elem_of_to_document records r :
  keyed records -> r ∈ dc_Records (to_document records) <-> records !! g_IntentID r = Some r.
Proof. intros Hk. cbn. rewrite sort_by_Permutation. by apply keyed_vals. Qed.

Lemma to_document_NoDup records :
  keyed records -> NoDup (g_IntentID <$> dc_Records (to_document records)).
Proof.
  intros Hk. cbn. rewrite sort_by_Permutation. unfold map_vals. rewrite <-list_fmap_compose.
  rewrite (list_fmap_ext _ fst); [apply NoDup_fst_map_to_list|].
  intros k [i r] Hl. cbn. apply (Hk i r). apply elem_of_map_to_list. by eapply list_elem_of_lookup_2.
Qed.

Lemma gift_load_records_ok listed : forall records,
  Forall (fun r => validateRecord r = Ok tt) listed -> NoDup (g_IntentID <$> listed) ->
  (forall r, r ∈ listed -> records !! g_IntentID r = None) ->
  exists records', load_records records listed = Ok records' /\
    (forall i r, records' !! i = Some r <-> records !! i = Some r \/ (r ∈ listed /\ g_IntentID r = i)).
Proof.
  induction listed as [|r listed IH]; intros records Hv Hi Hfresh.
  { exists records. split; [done|]. set_solver. }
  apply Forall_cons in Hv as [Hvr Hv]. cbn in Hi. apply NoDup_cons in Hi as [Hir Hi].
  pose proof (Hfresh r ltac:(by left)) as Hr1.
  destruct (IH (<[g_IntentID r := r]> records)) as (R' & HL & HR); [done..| |].
  { intros r' Hr'. rewrite lookup_insert_ne; [apply Hfresh; by right|].
    intros E. apply Hir. rewrite E. apply list_elem_of_fmap. eauto. }
  exists R'. split.
  - cbn [load_records]. rewrite Hvr, Hr1. rewrite bool_decide_false by (by intros [? [=]]). exact HL.
  - intros i r'. rewrite HR, lookup_insert_Some, elem_of_cons.
    split; [|intros [H|[[->|H] <-]]]; [naive_solver| |naive_solver|naive_solver].
    left. right. split; [|done]. intros <-. congruence.
Qed.

(** What [persist] writes, [load] reads back. *)
Lemma load_to_document e records :
  keyed records -> map_Forall (fun _ r => validateRecord r = Ok tt) records ->
  N.of_nat (size records) <= maxGiftRecords ->
  load e (FileDoc (to_document records)) = (FileDoc (to_document records), Ok records).
Proof.
  intros Hk Hv Hsize.
  destruct (gift_load_records_ok (dc_Records (to_document records)) ∅) as (R & HL & HR).
  - apply Forall_forall. intros r Hr. apply elem_of_to_document in Hr; [|done]. by apply (Hv _ _ Hr).
  - by apply to_document_NoDup.
  - intros r _. apply lookup_empty.
  - assert (R = records) as ->.
    { apply map_eq. intros i. apply option_eq. intros r. rewrite HR, lookup_empty.
      rewrite elem_of_to_document by done. split; [by intros [[=]|[H <-]]|].
      intros H. right. by rewrite (Hk i r H). }
    unfold load. cbn [dc_Schema to_document]. rewrite bool_decide_true by done. cbn [negb].
    assert (llen (dc_Records (to_document records)) = N.of_nat (size records)) as Hl.
    { unfold llen. cbn. rewrite sort_by_Permutation. unfold map_vals. rewrite length_fmap, length_map_to_list. done. }
    cbn [dc_Records to_document] in *. rewrite Hl. destruct (N.ltb_spec maxGiftRecords (N.of_nat (size records))); [lia|].
    by rewrite HL.
Qed.

Lemma gift_persist_cases e file records file' r :
  persist e file records = (file', r) ->
  (file' = file \/ file' = FileDoc (to_document records)) /\
  (r = Ok tt -> file' = FileDoc (to_document records)).
Proof. apply persist_bounded_cases. Qed.

(** Publishing changes memory only on success, and then the file as well. *)
Lemma publish_cases e j updated record j' r :
  publish e j updated record = (j', r) ->
  gj_lock j' = gj_lock j /\
  ((r = Ok record /\ gj_records j' = updated /\ gj_file j' = FileDoc (to_document updated)) \/
   (is_err r = true /\ gj_records j' = gj_records j /\
    (gj_file j' = gj_file j \/ gj_file j' = FileDoc (to_document updated)))).
Proof.
  unfold publish. destruct (persist e (gj_file j) updated) as [file' rp] eqn:E.
  apply gift_persist_cases in E as [Hf Hok].
  destruct rp as [[]|m]; intros [= <- <-]; cbn; split; auto.
Qed.

(** What an update can do. *)
Lemma Update_cases e j intent apply j' r :
  Update e j intent apply = (j', r) ->
  (j' = j /\ is_err r = true) \/
  exists before record, gj_records j !! intent = Some before /\ apply before = Ok record /\
    g_IntentID record = g_IntentID before /\ g_Role record = g_Role before /\
    g_CreatedAtUnix record = g_CreatedAtUnix before /\ (g_UpdatedAtUnix before <= g_UpdatedAtUnix record)%Z /\
    validateRecord record = Ok tt /\
    publish e j (<[intent := record]> (gj_records j)) record = (j', r).
Proof.
  unfold Update. intros H. head_case H eqn E0; [left; by simplify_eq|].
  head_case H as [before|] eqn E1; [|left; by simplify_eq].
  head_case H as [record|m] eqn E2; [|left; by simplify_eq].
  head_case H eqn E3; [left; by simplify_eq|].
  head_case H as [[]|m] eqn E4; [|left; by simplify_eq].
  zprop. right. exists before, record. split_and!; try done.
Qed.

(** ** Eviction *)

(** At most as recently updated, by identifier among equals. *)
Definition older (p q : string * Z) : Prop := (p.2 < q.2)%Z \/ (p.2 = q.2 /\ String.le p.1 q.1).

#[global] Instance older_preorder : PreOrder older.
Proof.
  split.
  - intros p. right. split; [done|]. reflexivity.
  - intros p q r [H|[H H']] [H1|[H1 H1']]; unfold older; [lia..|].
    right. split; [lia|by etransitivity].
Qed.

(** The loop finds the oldest terminal record, in whatever order it visits. *)
Lemma oldest_terminal_spec entries : forall o,
  match oldest_terminal o entries with
  | None => o = None /\ forall id r, (id, r) ∈ entries -> terminalState (g_State r) = false
  | Some p =>
      (o = Some p \/ exists r, (p.1, r) ∈ entries /\ terminalState (g_State r) = true /\ p.2 = g_UpdatedAtUnix r) /\
      (forall q, o = Some q -> older p q) /\
      forall id r, (id, r) ∈ entries -> terminalState (g_State r) = true -> older p (id, g_UpdatedAtUnix r)
  end.
Proof.
  induction entries as [|[id r] rest IH]; intros o; cbn [oldest_terminal].
  { destruct o as [p|]; [|by split; [|intros ?? ?%elem_of_nil]].
    split_and!; [by left|by intros q [= <-]|by intros ?? ?%elem_of_nil]. }
  set (o' := if negb _ then _ else _). specialize (IH o').
  assert (terminalState (g_State r) = false -> o' = o) as Hskip by (by unfold o'; intros ->).
  assert (terminalState (g_State r) = true -> exists p', o' = Some p' /\ older p' (id, g_UpdatedAtUnix r) /\
    (forall q, o = Some q -> older p' q) /\ (o = Some p' \/ p' = (id, g_UpdatedAtUnix r))) as Htake.
  { unfold o'. intros ->. cbn [negb]. destruct o as [[oid ou]|]; [|eexists; split_and!; by eauto].
    destruct ((g_UpdatedAtUnix r <? ou)%Z || _) eqn:E.
    - eexists. split_and!; [done|done| |by right]. intros q [= <-]. unfold older. cbn.
      apply orb_true_iff in E as [E|[E E']%andb_true_iff]; [left; by apply Z.ltb_lt|right].
      split; [by apply Z.eqb_eq|by apply str_lt_le].
    - eexists. split_and!; [done| |by intros q [= <-]|by left]. unfold older. cbn.
      apply orb_false_iff in E as [E1 E2]. apply Z.ltb_ge in E1.
      destruct (Z.eq_dec (g_UpdatedAtUnix r) ou) as [Heq|]; [|left; lia]. right. split; [done|].
      rewrite Heq, Z.eqb_refl in E2. cbn in E2. unfold str_lt in E2. apply negb_false_iff in E2. by apply str_le_true. }
  destruct (terminalState (g_State r)) eqn:Et.
  - destruct (Htake eq_refl) as (p' & -> & Hold & Hq & Hsrc).
    destruct (oldest_terminal (Some p') rest) as [p|]; [|by destruct IH].
    destruct IH as (Hp & Hq' & Hall). pose proof (Hq' p' eq_refl) as Hpp. split_and!.
    + destruct Hp as [[= <-]|(r' & Hr' & ?)]; [|right; exists r'; split; [by right|done]].
      destruct Hsrc as [->| ->]; [by left|]. right. exists r. split_and!; [by left|done|done].
    + intros q Hoq. etransitivity; [done|by apply Hq].
    + intros id' r' [[= -> ->]|Hr']%elem_of_cons; [by etransitivity|by apply Hall].
  - rewrite (Hskip eq_refl) in *. destruct (oldest_terminal o rest) as [p|].
    + destruct IH as (Hp & Hq' & Hall). split_and!; [|done|].
      * destruct Hp as [->|(r' & Hr' & ?)]; [by left|right; exists r'; split; [by right|done]].
      * intros id' r' [[= -> ->]|Hr']%elem_of_cons; [congruence|by apply Hall].
    + destruct IH as [-> Hall]. split; [done|].
      intros id' r' [[= -> ->]|Hr']%elem_of_cons; [done|by eapply Hall].
Qed.

(** Eviction removes the oldest terminal record and nothing else; it fails
    only when there is none. *)
Lemma evictOldestTerminal_spec records :
  match evictOldestTerminal records with
  | None => map_Forall (fun _ r => terminalState (g_State r) = false) records
  | Some kept => exists id r, records !! id = Some r /\ terminalState (g_State r) = true /\
      kept = delete id records /\
      forall id' r', records !! id' = Some r' -> terminalState (g_State r') = true ->
        older (id, g_UpdatedAtUnix r) (id', g_UpdatedAtUnix r')
  end.
Proof.
  unfold evictOldestTerminal. pose proof (oldest_terminal_spec (map_to_list records) None) as H.
  destruct (oldest_terminal None _) as [[id u]|].
  - destruct H as ([[=]|(r & Hr & Ht & Hu)] & _ & Hall). cbn in *. subst u. apply elem_of_map_to_list in Hr.
    exists id, r. split_and!; try done. intros id' r' Hr'. apply Hall. by apply elem_of_map_to_list.
  - destruct H as [_ H]. intros id r Hr. eapply H. by apply elem_of_map_to_list.
Qed.

(** What creating a record can do. *)
Lemma Create_cases e j record j' r :
  Create e j record = (j', r) ->
  (j' = j /\ is_err r = true) \/
  (gj_lock j = true /\ gj_records j !! g_IntentID record = None /\ validateRecord record = Ok tt /\
   exists kept, publish e j (<[g_IntentID record := record]> kept) record = (j', r) /\
     ((kept = gj_records j /\ N.of_nat (size (gj_records j)) < maxGiftRecords) \/
      evictOldestTerminal (gj_records j) = Some kept)).
Proof.
  unfold Create. intros H. head_case H eqn E0; [left; by simplify_eq|].
  head_case H eqn E1; [left; by simplify_eq|].
  head_case H as [[]|m] eqn E2; [|left; by simplify_eq].
  head_case H as [kept|] eqn E3; [|left; by simplify_eq].
  right. apply negb_false_iff in E0. bprop. split_and!; [done| |done|].
  - destruct (gj_records j !! g_IntentID record) eqn:E; [|done]. exfalso. eauto.
  - exists kept. split; [done|].
    destruct (N.leb_spec maxGiftRecords (N.of_nat (size (gj_records j)))); [by right|]. left. by simplify_eq.
Qed.

End Gift.
