(* ===== verification/GiftService.v ===== *)
(** * Agent Gift operations (src/pkg/agentgift/service.go)

    The sender's and the recipient's operations on the journal of Gift.v. What
    they call (the protocol codec, the resolver, the messenger, custody, the
    broadcaster, the address and owner authorities, clock, random source and
    disk) is an environment that answers as any function of what happened
    before. The log of calls is part of the state; an effect is logged with
    what the journal file held when it was made. Operations on one intent are
    serialized by the source's striped mutex, and touch no other intent's
    record, so each is one step here. *)

From S2P Require Import Prelude GoLib GoText FileStore Ledger Protocol Fixtures Gift.
#[local] Open Scope N_scope.

Module GiftService.
Import Gift.

Definition maxActiveGiftRecords : N := 128.
Definition maxActiveGiftsPerPeer : N := 16.
Definition initialBroadcastRetryDelay : Z := 30 * Second.
Definition maxBroadcastRetryDelay : Z := 5 * Minute.

(** The calls that act on the world outside, each announced in the record. *)
Inductive effect :=
| SendAddressRequest | SendAddressResponse | SignGift | SendOffer | BroadcastGift
| PrepareCancellation | BroadcastCancellation.

#[global] Instance effect_eq_dec : EqDecision effect.
Proof. solve_decision. Defined.

(** The call an effect consists of, with its arguments. *)
Inductive call :=
| SendDirect (peer subject payload correlation : string)
| SignNative (request : SignRequest)
| BroadcastBOC (boc : string)
| CancelNative (request : CancelRequest).

(** [EvEffect stored intent kind c]: an effect, with the journal file at the
    time of the call. *)
Inductive event :=
| EvQuery
| EvJournal
| EvAuthorize (review : OwnerReview) (answer : result string)
| EvFinality (intent : string) (answer : result State)
| EvEffect (stored : file_state document) (intent : string) (kind : effect) (c : call).

Class Environment := {
  CreateAddressRequest : list event -> RequestIntent -> result (string * string);
  InspectAddressRequest : list event -> string -> result (RequestIntent * string);
  CreateAddressResponse : list event -> string -> string -> N -> result (string * ResponseTerms);
  ValidateAddressResponse : list event -> string -> string -> result ResponseTerms;
  CreateSignedOffer : list event -> string -> string -> string -> string -> result (string * string);
  VerifySignedOffer : list event -> string -> string -> string -> result SignedTerms;
  ResolveRecipient : list event -> string -> result string;
  ResolveFinality : list event -> GiftRecord -> result State;
  SendEstablishedDirect : list event -> string -> string -> string -> string -> result string;
  SenderAccount : list event -> result string;
  PrepareNativeGift : list event -> SignRequest -> result CustodyReview;
  SignNativeGift : list event -> SignRequest -> result string;
  ResolveNativeGift : list event -> ResolveRequest -> result unit;
  CancelSeqno : list event -> CancelRequest -> result string;
  BroadcastExactBOC : list event -> string -> result unit;
  SelectDestination : list event -> string -> result string;
  OwnerAuthorize : list event -> OwnerReview -> result string;
  env_random : list event -> Journal -> result string;
  env_now : list event -> nat -> Z;
  env_io : list event -> io document
}.

Record world := {
  w_journal : Journal;
  w_log : list event
}.

(** ** Pure helpers *)

Definition activeGiftCount (records : list GiftRecord) (peer : string) : N :=
  N.of_nat (length (List.filter
    (fun record => negb (terminalState (g_State record)
       || (negb (bool_decide (peer = ""%string)) && negb (bool_decide (g_SenderAgentID record = peer))))) records)).

Definition refreshableRecordState (record : GiftRecord) : bool :=
  if bool_decide (g_Role record = RoleSender) then
    match g_State record with
    | StateBOCSigned | StateOfferDelivered | StateCurrentlyExecutable | StateCurrentlyUnexecutable
    | StateInsufficientFunds | StateFinalityUnknown => true
    | _ => false
    end
  else
    match g_State record with
    | StateVerified | StateBroadcastSubmitted | StateCurrentlyExecutable | StateCurrentlyUnexecutable
    | StateInsufficientFunds | StateFinalityUnknown => true
    | _ => false
    end.

Definition compactTerminalRecord (record : GiftRecord) : GiftRecord :=
  set_ExactCancellationBOC "" (set_ExactSignedBOC "" (set_CanonicalOffer "" record)).

(** The loop of [broadcastRetryDelay]; [None] when the fuel runs out. *)
Fixpoint retry_loop (fuel : nat) (index attempts : N) (delay : Z) : option Z :=
  if (index <? attempts) && (delay <? maxBroadcastRetryDelay)%Z then
    match fuel with
    | O => None
    | S fuel =>
        let delay := (delay * 2)%Z in
        retry_loop fuel (index + 1) attempts
          (if (maxBroadcastRetryDelay <? delay)%Z then maxBroadcastRetryDelay else delay)
    end
  else Some delay.

Definition broadcastRetryDelay (attempts : N) : Z :=
  default 0%Z (retry_loop 4 1 attempts initialBroadcastRetryDelay).

(** C40: The retry delay doubles from thirty seconds up to five minutes, and
    its loop ends within four rounds for every number of attempts. *)
Theorem gift_retry_delay attempts :
  retry_loop 4 1 attempts initialBroadcastRetryDelay = Some (broadcastRetryDelay attempts) /\
  broadcastRetryDelay attempts =
    Z.min (initialBroadcastRetryDelay * 2 ^ Z.of_N (N.pred attempts)) maxBroadcastRetryDelay.
Proof.
  destruct (N.lt_ge_cases attempts 5) as [H|H].
  - assert (attempts = 0 \/ attempts = 1 \/ attempts = 2 \/ attempts = 3 \/ attempts = 4) as Hc by lia.
    destruct Hc as [->|[->|[->|[->| ->]]]]; by vm_compute.
  - assert (retry_loop 4 1 attempts initialBroadcastRetryDelay = Some maxBroadcastRetryDelay) as E.
    { cbn -[N.ltb]. repeat (rewrite (proj2 (N.ltb_lt _ attempts)) by lia; cbn -[N.ltb]). by rewrite andb_false_r. }
    unfold broadcastRetryDelay. rewrite E. split; [done|]. cbn [default]. unfold id. symmetry. apply Z.min_r.
    assert (2 ^ 4 <= 2 ^ Z.of_N (N.pred attempts))%Z by (apply Z.pow_le_mono_r; lia).
    change maxBroadcastRetryDelay with 300000000000%Z. change initialBroadcastRetryDelay with 30000000000%Z.
    change (2 ^ 4)%Z with 16%Z in *. lia.
Qed.

(** ** A state and error monad over the world *)

Definition M (A : Type) : Type := world -> world * result A.

Definition ret {A} (a : A) : M A := fun w => (w, Ok a).
Definition raise {A} (msg : string) : M A := fun w => (w, Err msg).
Definition bind {A B} (c : M A) (k : A -> M B) : M B :=
  fun w => let '(w1, r) := c w in match r with Ok a => k a w1 | Err m => (w1, Err m) end.

Notation "'do' x <- c ; k" := (bind c (fun x => k))
  (at level 10, x pattern, c at level 100, k at level 200) : go_scope.
Notation "'guard' b 'else' msg ; k" := (if b then k else raise msg)
  (at level 10, b at level 100, msg at level 100, k at level 200) : go_scope.

Section operations.
Context `{SHA : Sha256} `{ENV : Environment}.

Definition logged (w : world) (ev : event) : world :=
  {| w_journal := w_journal w; w_log := ev :: w_log w |}.

(** A call that only asks. *)
Definition query {A} (ask : list event -> result A) : M A :=
  fun w => (logged w EvQuery, ask (w_log w)).

Definition clock : M Z := fun w => (logged w EvQuery, Ok (env_now (w_log w) 0)).

Definition get (intent : string) : M (option GiftRecord) := fun w => (w, Ok (Get (w_journal w) intent)).

(** [s.journal.Update]; the closure may read the clock. *)
Definition update (intent : string) (apply : (nat -> Z) -> GiftRecord -> result GiftRecord) : M GiftRecord :=
  fun w =>
    let '(j', r) := Update (env_io (w_log w)) (w_journal w) intent (apply (env_now (w_log w))) in
    ({| w_journal := j'; w_log := EvJournal :: w_log w |}, r).

Definition create (record : GiftRecord) : M GiftRecord :=
  fun w =>
    let '(j', r) := Create (env_io (w_log w)) (w_journal w) record in
    ({| w_journal := j'; w_log := EvJournal :: w_log w |}, r).

(** A call with an effect, answered by the environment. *)
Definition perform (intent : string) (kind : effect) (c : call) : M string :=
  fun w =>
    (logged w (EvEffect (gj_file (w_journal w)) intent kind c),
     match c with
     | SendDirect peer subject payload correlation =>
         SendEstablishedDirect (w_log w) peer subject payload correlation
     | SignNative request => SignNativeGift (w_log w) request
     | BroadcastBOC boc => let? _ := BroadcastExactBOC (w_log w) boc in Ok ""%string
     | CancelNative request => CancelSeqno (w_log w) request
     end).

Definition authorize (review : OwnerReview) : M string :=
  fun w => let answer := OwnerAuthorize (w_log w) review in (logged w (EvAuthorize review answer), answer).

(** The result of [ResolveFinality] is inspected even when it is an error. *)
Definition finality (record : GiftRecord) : M (result State) :=
  fun w =>
    let answer := ResolveFinality (w_log w) record in
    (logged w (EvFinality (g_IntentID record) answer), Ok answer).

Definition canonicalBytesDigest (value : string) : string :=
  "sha256:" +:+ hex_EncodeToString (sha256_Sum256 value).

Definition stamp (now : Z) (v : GiftRecord) : GiftRecord := set_UpdatedAtUnix (Unix now) v.

(** ** The sender *)

Definition newIntentID : M string :=
  fun w => (logged w EvQuery, let? raw := env_random (w_log w) (w_journal w) in Ok (hex_EncodeToString raw)).

Definition draft_record (intentID network : string) (globalID : Z) (senderAgentID recipient account : string)
    (proposal : ModelProposal) (digest canonical : string) (now : Z) : GiftRecord :=
  {| g_IntentID := intentID; g_Role := RoleSender; g_State := StateDraft; g_PendingEffect := EffectNone;
     g_Network := network; g_GlobalID := globalID; g_SenderAgentID := senderAgentID;
     g_RecipientAgentID := recipient; g_SenderAgentAccount := account;
     g_AmountAtomic := mp_AmountAtomic proposal; g_RequestedValidUntil := mp_RequestedValidUntil proposal;
     g_ResponseNotAfter := 0; g_DestinationAddress := ""; g_RequestDigest := digest; g_ResponseDigest := "";
     g_OwnerAuthorizationDigest := ""; g_UnsignedTransferDigest := ""; g_OwnerWallet := "";
     g_ControllerKeyID := ""; g_DeploymentID := ""; g_ControllerEpoch := 0; g_FeeReserveAtomic := "";
     g_CancellationAuthorizationDigest := ""; g_SignedGiftID := ""; g_ExactBOCDigest := ""; g_Seqno := 0;
     g_ValidUntil := 0; g_CanonicalRequest := canonical; g_CanonicalResponse := ""; g_ExactSignedBOC := "";
     g_ExactCancellationBOC := ""; g_CanonicalOffer := ""; g_CanonicalOfferDigest := "";
     g_RequestEventID := ""; g_ResponseEventID := ""; g_OfferEventID := ""; g_BroadcastAttempts := 0;
     g_CancellationAttempts := 0; g_RetryNotBeforeUnix := 0; g_DisplayMessage := mp_Greeting proposal;
     g_CreatedAtUnix := Unix now; g_UpdatedAtUnix := Unix now |}.

Definition list_records : M (list GiftRecord) := fun w => (w, Ok (List (w_journal w))).

Definition StartSender (proposal : ModelProposal) (network : string) (globalID : Z) (senderAgentID : string)
    : M GiftRecord :=
  do now <- clock;
  guard is_ok (ModelProposal_Validate proposal now) && negb (bool_decide (network = ""%string))
        && negb (globalID =? 0)%Z && negb (bool_decide (senderAgentID = ""%string))
  else "invalid sender Gift start";
  do recipient <- query (fun log => ResolveRecipient log (mp_Recipient proposal));
  do account <- query SenderAccount;
  do intentID <- newIntentID;
  let intent := {| ri_Network := network; ri_GlobalID := globalID; ri_IntentID := intentID;
                   ri_SenderAgentID := senderAgentID; ri_RecipientAgentID := recipient;
                   ri_SenderAgentAccount := account; ri_AmountAtomic := mp_AmountAtomic proposal;
                   ri_RequestedValidUntil := mp_RequestedValidUntil proposal |} in
  do (canonical, digest) <- query (fun log => CreateAddressRequest log intent);
  let record := draft_record intentID network globalID senderAgentID recipient account proposal digest
                  canonical now in
  do records <- list_records;
  guard activeGiftCount records "" <? maxActiveGiftRecords else "Agent Gift journal capacity reached";
  do _ <- create record;
  update intentID (fun _ v => Ok (stamp now (set_State StateRecipientResolved v))).

(** The request agrees with the record it was made for. *)
Definition request_of (record : GiftRecord) : RequestIntent :=
  {| ri_Network := g_Network record; ri_GlobalID := g_GlobalID record; ri_IntentID := g_IntentID record;
     ri_SenderAgentID := g_SenderAgentID record; ri_RecipientAgentID := g_RecipientAgentID record;
     ri_SenderAgentAccount := g_SenderAgentAccount record; ri_AmountAtomic := g_AmountAtomic record;
     ri_RequestedValidUntil := g_RequestedValidUntil record |}.

(** [s.protocol.InspectAddressRequest] with its error inspected later. *)
Definition inspect (canonical : string) : M (result (RequestIntent * string)) :=
  fun w => (logged w EvQuery, Ok (InspectAddressRequest (w_log w) canonical)).

Definition ResumeSenderDraft (intent : string) : M GiftRecord :=
  guard negb (bool_decide (intent = ""%string)) else "invalid sender Gift draft recovery";
  do found <- get intent;
  match found with
  | None => raise "Gift is not a recoverable sender draft"
  | Some record =>
      guard bool_decide (g_Role record = RoleSender)
            && (bool_decide (g_State record = StateDraft) || bool_decide (g_State record = StateRecipientResolved))
      else "Gift is not a recoverable sender draft";
      guard bool_decide (g_PendingEffect record = EffectNone)
      else "sender Gift draft has an unexpected side effect";
      do inspected <- inspect (g_CanonicalRequest record);
      guard bool_decide (inspected = Ok (request_of record, g_RequestDigest record))
      else "sender Gift draft canonical request conflicts with its journal identity";
      if bool_decide (g_State record = StateRecipientResolved) then ret record
      else
        do now <- clock;
        guard negb (g_RequestedValidUntil record <=? to_u32 (Unix now)) else "sender Gift draft is expired";
        update intent (fun now v =>
          if negb (bool_decide (g_State v = StateDraft)) || negb (bool_decide (g_PendingEffect v = EffectNone))
          then Err "sender Gift draft changed during recovery"
          else Ok (stamp (now 0%nat) (set_State StateRecipientResolved v)))
  end.

Definition RequestAddress (intent : string) : M GiftRecord :=
  do found <- get intent;
  match found with
  | None => raise "Gift is not ready for an address request"
  | Some record =>
      guard bool_decide (g_Role record = RoleSender)
            && (bool_decide (g_State record = StateRecipientResolved)
                || (bool_decide (g_State record = StateAddressRequested)
                    && bool_decide (g_PendingEffect record = EffectSendAddressRequest)))
      else "Gift is not ready for an address request";
      do now <- clock;
      guard negb (g_RequestedValidUntil record <=? to_u32 (Unix now))
      else "Gift address request validity expired";
      do record <- update intent (fun _ v =>
        Ok (stamp now (set_PendingEffect EffectSendAddressRequest (set_State StateAddressRequested v))));
      do eventID <- perform intent SendAddressRequest
        (SendDirect (g_RecipientAgentID record) "agent.gift.address-request" (g_CanonicalRequest record) intent);
      update intent (fun now v =>
        Ok (stamp (now 0%nat) (set_RequestEventID eventID (set_PendingEffect EffectNone v))))
  end.

Definition with_response (canonical : string) (terms : ResponseTerms) (v : GiftRecord) : GiftRecord :=
  set_ResponseDigest (rt_ResponseDigest terms)
    (set_ResponseNotAfter (rt_ResponseNotAfter terms)
      (set_DestinationAddress (rt_DestinationAddress terms) (set_CanonicalResponse canonical v))).

Definition ObserveAddressResponse (intent canonical : string) : M GiftRecord :=
  do found <- get intent;
  match found with
  | None => raise "unexpected Gift address response"
  | Some record =>
      if bool_decide (g_Role record = RoleSender) && negb (slen (g_CanonicalResponse record) =? 0) then
        guard bool_decide (g_CanonicalResponse record = canonical)
        else "changed Gift address response conflicts with durable response";
        ret record
      else
        guard bool_decide (g_Role record = RoleSender) && bool_decide (g_State record = StateAddressRequested)
              && bool_decide (g_PendingEffect record = EffectNone)
        else "unexpected Gift address response";
        do terms <- query (fun log => ValidateAddressResponse log (g_CanonicalRequest record) canonical);
        update intent (fun now v =>
          Ok (stamp (now 0%nat) (with_response canonical terms (set_State StateAddressReceived v))))
  end.

(** What the owner is shown before a transfer is signed. *)
Definition send_review (intent : string) (record : GiftRecord) : OwnerReview :=
  {| or_Action := "send"; or_IntentID := intent; or_SignedGiftID := "";
     or_RecipientAgentID := g_RecipientAgentID record; or_Network := g_Network record;
     or_AmountAtomic := g_AmountAtomic record; or_DestinationAddress := g_DestinationAddress record;
     or_SenderAgentAccount := g_SenderAgentAccount record; or_OwnerWallet := g_OwnerWallet record;
     or_ControllerKeyID := g_ControllerKeyID record; or_DeploymentID := g_DeploymentID record;
     or_FeeReserveAtomic := g_FeeReserveAtomic record; or_RequestDigest := g_RequestDigest record;
     or_ResponseDigest := g_ResponseDigest record; or_UnsignedTransferDigest := g_UnsignedTransferDigest record;
     or_GlobalID := g_GlobalID record; or_ControllerEpoch := g_ControllerEpoch record;
     or_Seqno := g_Seqno record; or_ValidUntil := g_ValidUntil record;
     or_RequestedValidUntil := g_RequestedValidUntil record;
     or_ResponseNotAfter := g_ResponseNotAfter record; or_FundsLocked := false |}.

(** The custody review binds the complete Gift. *)
Definition review_binds (prepared : CustodyReview) (record : GiftRecord) : bool :=
  bool_decide (cr_Network prepared = g_Network record) && (cr_GlobalID prepared =? g_GlobalID record)%Z
  && bool_decide (cr_RecipientAgentID prepared = g_RecipientAgentID record)
  && bool_decide (cr_SenderAgentAccount prepared = g_SenderAgentAccount record)
  && bool_decide (cr_DestinationAddress prepared = g_DestinationAddress record)
  && bool_decide (cr_AmountAtomic prepared = g_AmountAtomic record)
  && bool_decide (cr_RequestDigest prepared = g_RequestDigest record)
  && bool_decide (cr_ResponseDigest prepared = g_ResponseDigest record)
  && negb (cr_Seqno prepared =? MaxUint32) && negb (cr_ValidUntil prepared =? 0)
  && (cr_ValidUntil prepared <=? g_RequestedValidUntil record)
  && (cr_ValidUntil prepared <=? g_ResponseNotAfter record)
  && negb (bool_decide (cr_FeeReserveAtomic prepared = ""%string))
  && negb (bool_decide (cr_OwnerWallet prepared = ""%string))
  && negb (bool_decide (cr_ControllerKeyID prepared = ""%string))
  && negb (bool_decide (cr_DeploymentID prepared = ""%string))
  && negb (bool_decide (cr_UnsignedTransferDigest prepared = ""%string)).

Definition with_review (prepared : CustodyReview) (v : GiftRecord) : GiftRecord :=
  set_ValidUntil (cr_ValidUntil prepared) (set_Seqno (cr_Seqno prepared)
    (set_UnsignedTransferDigest (cr_UnsignedTransferDigest prepared)
      (set_FeeReserveAtomic (cr_FeeReserveAtomic prepared)
        (set_ControllerEpoch (cr_ControllerEpoch prepared)
          (set_DeploymentID (cr_DeploymentID prepared)
            (set_ControllerKeyID (cr_ControllerKeyID prepared)
              (set_OwnerWallet (cr_OwnerWallet prepared)
                (set_State StateOwnerAuthorizationRequired v)))))))).

(** [Authorize] up to the owner: the reviewed record. *)
Definition prepare_review (intent : string) (record : GiftRecord) : M GiftRecord :=
  if bool_decide (g_State record = StateAddressReceived) then
    do prepared <- query (fun log =>
      PrepareNativeGift log {| sq_IntentID := intent; sq_CanonicalRequest := g_CanonicalRequest record;
                               sq_CanonicalResponse := g_CanonicalResponse record;
                               sq_OwnerAuthorizationDigest := ""; sq_UnsignedTransferDigest := "" |});
    guard review_binds prepared record else "custody review does not bind the complete Gift";
    update intent (fun now v => Ok (stamp (now 0%nat) (with_review prepared v)))
  else ret record.

Definition Authorize (intent : string) : M GiftRecord :=
  do found <- get intent;
  match found with
  | None => raise "Gift is not ready for owner authorization"
  | Some record =>
      if bool_decide (g_Role record = RoleSender) && bool_decide (g_State record = StateOwnerAuthorized)
      then ret record
      else
        guard bool_decide (g_Role record = RoleSender)
              && (bool_decide (g_State record = StateAddressReceived)
                  || bool_decide (g_State record = StateOwnerAuthorizationRequired))
        else "Gift is not ready for owner authorization";
        do record <- prepare_review intent record;
        do digest <- authorize (send_review intent record);
        guard negb (bool_decide (digest = ""%string)) else "owner authorization returned no digest";
        update intent (fun now v =>
          Ok (stamp (now 0%nat) (set_OwnerAuthorizationDigest digest (set_State StateOwnerAuthorized v))))
  end.

(** The signed offer carries exactly the authorized terms. *)
Definition terms_match (terms : SignedTerms) (signedID : string) (record : GiftRecord) : bool :=
  bool_decide (st_SignedGiftID terms = signedID) && (st_ControllerEpoch terms =? g_ControllerEpoch record)
  && (st_Seqno terms =? g_Seqno record) && (st_ValidUntil terms =? g_ValidUntil record)
  && bool_decide (st_DeploymentID terms = g_DeploymentID record)
  && bool_decide (st_SenderAgentAccount terms = g_SenderAgentAccount record)
  && bool_decide (st_DestinationAddress terms = g_DestinationAddress record)
  && bool_decide (st_AmountAtomic terms = g_AmountAtomic record)
  && bool_decide (st_FeeReserveAtomic terms = g_FeeReserveAtomic record).

Definition with_signature (boc offer greeting : string) (terms : SignedTerms) (v : GiftRecord) : GiftRecord :=
  set_DisplayMessage greeting (set_ValidUntil (st_ValidUntil terms) (set_Seqno (st_Seqno terms)
    (set_ControllerEpoch (st_ControllerEpoch terms) (set_ExactBOCDigest (st_ExactBOCDigest terms)
      (set_SignedGiftID (st_SignedGiftID terms) (set_CanonicalOffer offer (set_ExactSignedBOC boc
        (set_PendingEffect EffectNone (set_State StateBOCSigned v))))))))).

(** [VerifySignedOffer] with its error inspected together with the terms. *)
Definition verify_offer (request response offer : string) : M (result SignedTerms) :=
  fun w => (logged w EvQuery, Ok (VerifySignedOffer (w_log w) request response offer)).

Definition Sign (intent greeting : string) : M GiftRecord :=
  do found <- get intent;
  match found with
  | None => raise "Gift is not ready for custody signing"
  | Some record =>
      if bool_decide (g_Role record = RoleSender) && bool_decide (g_State record = StateBOCSigned) then
        guard bool_decide (g_DisplayMessage record = greeting)
        else "changed Gift greeting conflicts with the durable signed offer";
        ret record
      else
        guard bool_decide (g_Role record = RoleSender) && bool_decide (g_State record = StateOwnerAuthorized)
        else "Gift is not ready for custody signing";
        guard slen greeting <=? 512 else "Gift greeting exceeds limit";
        do record <- update intent (fun now v => Ok (stamp (now 0%nat) (set_PendingEffect EffectSignBOC v)));
        do boc <- perform intent SignGift (SignNative
             {| sq_IntentID := intent; sq_CanonicalRequest := g_CanonicalRequest record;
                sq_CanonicalResponse := g_CanonicalResponse record;
                sq_OwnerAuthorizationDigest := g_OwnerAuthorizationDigest record;
                sq_UnsignedTransferDigest := g_UnsignedTransferDigest record |});
        do (offer, signedID) <- query (fun log =>
          CreateSignedOffer log (g_CanonicalRequest record) (g_CanonicalResponse record) boc greeting);
        do verified <- verify_offer (g_CanonicalRequest record) (g_CanonicalResponse record) offer;
        match verified with
        | Err _ => raise "custody BOC failed independent Gift verification"
        | Ok terms =>
            guard terms_match terms signedID record else "custody BOC failed independent Gift verification";
            update intent (fun now v => Ok (stamp (now 0%nat) (with_signature boc offer greeting terms v)))
        end
  end.

Definition DeliverOffer (intent : string) : M GiftRecord :=
  do found <- get intent;
  match found with
  | None => raise "Gift offer is not ready"
  | Some record =>
      if bool_decide (g_Role record = RoleSender) && bool_decide (g_State record = StateOfferDelivered)
      then ret record
      else
        guard bool_decide (g_Role record = RoleSender) && bool_decide (g_State record = StateBOCSigned)
              && (bool_decide (g_PendingEffect record = EffectNone)
                  || bool_decide (g_PendingEffect record = EffectSendOffer))
        else "Gift offer is not ready";
        do record <- update intent (fun now v => Ok (stamp (now 0%nat) (set_PendingEffect EffectSendOffer v)));
        do eventID <- perform intent SendOffer
          (SendDirect (g_RecipientAgentID record) "agent.gift.signed-boc-offer" (g_CanonicalOffer record)
             (g_SignedGiftID record));
        update intent (fun now v =>
          Ok (stamp (now 0%nat) (set_OfferEventID eventID
                (set_PendingEffect EffectNone (set_State StateOfferDelivered v)))))
  end.

(** ** The recipient *)

Definition observed_record (intent : RequestIntent) (digest canonical : string) (now : Z) : GiftRecord :=
  {| g_IntentID := ri_IntentID intent; g_Role := RoleRecipient; g_State := StateAddressRequestObserved;
     g_PendingEffect := EffectNone; g_Network := ri_Network intent; g_GlobalID := ri_GlobalID intent;
     g_SenderAgentID := ri_SenderAgentID intent; g_RecipientAgentID := ri_RecipientAgentID intent;
     g_SenderAgentAccount := ri_SenderAgentAccount intent; g_AmountAtomic := ri_AmountAtomic intent;
     g_RequestedValidUntil := ri_RequestedValidUntil intent; g_ResponseNotAfter := 0;
     g_DestinationAddress := ""; g_RequestDigest := digest; g_ResponseDigest := "";
     g_OwnerAuthorizationDigest := ""; g_UnsignedTransferDigest := ""; g_OwnerWallet := "";
     g_ControllerKeyID := ""; g_DeploymentID := ""; g_ControllerEpoch := 0; g_FeeReserveAtomic := "";
     g_CancellationAuthorizationDigest := ""; g_SignedGiftID := ""; g_ExactBOCDigest := ""; g_Seqno := 0;
     g_ValidUntil := 0; g_CanonicalRequest := canonical; g_CanonicalResponse := ""; g_ExactSignedBOC := "";
     g_ExactCancellationBOC := ""; g_CanonicalOffer := ""; g_CanonicalOfferDigest := "";
     g_RequestEventID := ""; g_ResponseEventID := ""; g_OfferEventID := ""; g_BroadcastAttempts := 0;
     g_CancellationAttempts := 0; g_RetryNotBeforeUnix := 0; g_DisplayMessage := "";
     g_CreatedAtUnix := Unix now; g_UpdatedAtUnix := Unix now |}.

Definition ObserveRecipientRequest (canonical localAgentID authenticatedSender : string) : M GiftRecord :=
  do (intent, digest) <- query (fun log => InspectAddressRequest log canonical);
  guard bool_decide (ri_RecipientAgentID intent = localAgentID)
        && bool_decide (ri_SenderAgentID intent = authenticatedSender)
  else "Gift request E2EE participants mismatch";
  do now <- clock;
  do found <- get (ri_IntentID intent);
  match found with
  | Some existing =>
      guard bool_decide (g_RequestDigest existing = digest) && bool_decide (g_CanonicalRequest existing = canonical)
      else "Gift intent conflict";
      ret existing
  | None =>
      do records <- list_records;
      guard (activeGiftCount records "" <? maxActiveGiftRecords)
            && (activeGiftCount records authenticatedSender <? maxActiveGiftsPerPeer)
      else "active inbound Agent Gift limit reached";
      create (observed_record intent digest canonical now)
  end.

(** The response to send: a fresh one, made durable first, or the durable one. *)
Definition prepare_response (intent : string) (record : GiftRecord) (responseNotAfter : N) : M GiftRecord :=
  if bool_decide (g_PendingEffect record = EffectNone) then
    do destination <- query (fun log => SelectDestination log intent);
    do (canonical, terms) <- query (fun log =>
      CreateAddressResponse log (g_CanonicalRequest record) destination responseNotAfter);
    update intent (fun now v =>
      Ok (stamp (now 0%nat) (with_response canonical terms (set_PendingEffect EffectSendAddressResponse v))))
  else
    guard responseNotAfter =? g_ResponseNotAfter record
    else "changed response validity conflicts with durable response";
    ret record.

Definition RespondAddress (intent : string) (responseNotAfter : N) : M GiftRecord :=
  do found <- get intent;
  match found with
  | None => raise "Gift request is not ready for response"
  | Some record =>
      guard bool_decide (g_Role record = RoleRecipient)
            && bool_decide (g_State record = StateAddressRequestObserved)
            && (bool_decide (g_PendingEffect record = EffectNone)
                || bool_decide (g_PendingEffect record = EffectSendAddressResponse))
      else "Gift request is not ready for response";
      do record <- prepare_response intent record responseNotAfter;
      do eventID <- perform intent SendAddressResponse
        (SendDirect (g_SenderAgentID record) "agent.gift.address-response" (g_CanonicalResponse record) intent);
      update intent (fun now v =>
        Ok (stamp (now 0%nat) (set_ResponseEventID eventID
              (set_PendingEffect EffectNone (set_State StateAddressResponseSent v)))))
  end.

Definition offer_state (state : State) : bool :=
  bool_decide (state = StateSignedOfferObserved) || bool_decide (state = StateVerified)
  || bool_decide (state = StateCurrentlyExecutable).

Definition with_terms (terms : SignedTerms) (v : GiftRecord) : GiftRecord :=
  set_ExactSignedBOC "" (set_FeeReserveAtomic (st_FeeReserveAtomic terms)
    (set_ControllerEpoch (st_ControllerEpoch terms) (set_DeploymentID (st_DeploymentID terms)
      (set_ValidUntil (st_ValidUntil terms) (set_Seqno (st_Seqno terms)
        (set_AmountAtomic (st_AmountAtomic terms) (set_DestinationAddress (st_DestinationAddress terms)
          (set_SenderAgentAccount (st_SenderAgentAccount terms) (set_ExactBOCDigest (st_ExactBOCDigest terms)
            (set_SignedGiftID (st_SignedGiftID terms) (set_State StateVerified v))))))))))).

(** The roll-back of an observation whose offer does not verify. *)
Definition roll_back (intent offerDigest : string) (record : GiftRecord) (err : string) : M GiftRecord :=
  if bool_decide (g_State record = StateSignedOfferObserved) then
    do _ <- update intent (fun now v =>
      if bool_decide (g_State v = StateSignedOfferObserved) && bool_decide (g_CanonicalOfferDigest v = offerDigest)
      then Ok (stamp (now 0%nat) (set_CanonicalOfferDigest "" (set_CanonicalOffer ""
                (set_State StateAddressResponseSent v))))
      else Ok v);
    raise err
  else raise err.

(** [ObserveAndBroadcastOffer] once the offer verifies. *)
Definition broadcast_verified (intent : string) (record : GiftRecord) (terms : SignedTerms) : M GiftRecord :=
  do record <- (if bool_decide (g_State record = StateSignedOfferObserved)
                then update intent (fun now v => Ok (stamp (now 0%nat) (with_terms terms v)))
                else ret record);
  guard negb (slen (st_ExactSignedBOC terms) =? 0)
  else "protocol boundary did not expose exact BOC for broadcast";
  do _ <- update intent (fun now v => Ok (stamp (now 0%nat) (set_ExactSignedBOC (st_ExactSignedBOC terms) v)));
  do record <- update intent (fun now v =>
    Ok (stamp (now 0%nat) (set_RetryNotBeforeUnix 0
          (set_BroadcastAttempts (u32 (g_BroadcastAttempts v + 1)) (set_PendingEffect EffectBroadcast v)))));
  do _ <- perform intent BroadcastGift (BroadcastBOC (g_ExactSignedBOC record));
  update intent (fun now v =>
    Ok (stamp (now 1%nat) (set_RetryNotBeforeUnix
          (Unix (time_Add (now 0%nat) (broadcastRetryDelay (g_BroadcastAttempts v))))
          (set_PendingEffect EffectNone (set_State StateBroadcastSubmitted v))))).

(** The offer as first observed is made durable before it is verified. *)
Definition observe_offer (intent offer offerDigest : string) (record : GiftRecord) : M GiftRecord :=
  if bool_decide (g_State record = StateAddressResponseSent) then
    update intent (fun now v =>
      Ok (stamp (now 0%nat) (set_CanonicalOfferDigest offerDigest (set_CanonicalOffer offer
            (set_State StateSignedOfferObserved v)))))
  else ret record.

Definition ObserveAndBroadcastOffer (intent offer : string) : M GiftRecord :=
  do found <- get intent;
  let offerDigest := canonicalBytesDigest offer in
  match found with
  | None => raise "unexpected signed Gift offer"
  | Some record =>
      let known := bool_decide (g_Role record = RoleRecipient)
                   && negb (bool_decide (g_CanonicalOfferDigest record = ""%string)) in
      guard negb (known && negb (bool_decide (g_CanonicalOfferDigest record = offerDigest)))
      else "changed signed Gift offer conflicts with durable offer";
      if known && negb (offer_state (g_State record)) then ret record
      else
        guard negb (bool_decide (g_PendingEffect record = EffectBroadcast))
        else "ambiguous Gift broadcast requires finalized refresh before resubmission";
        do now <- clock;
        guard (g_RetryNotBeforeUnix record <=? Unix now)%Z else "exact Gift broadcast retry is rate limited";
        guard bool_decide (g_Role record = RoleRecipient)
              && (bool_decide (g_State record = StateAddressResponseSent) || offer_state (g_State record))
        else "unexpected signed Gift offer";
        guard bool_decide (g_State record = StateAddressResponseSent)
              || bool_decide (g_CanonicalOffer record = offer)
        else "changed signed Gift offer conflicts with durable observation";
        do record <- observe_offer intent offer offerDigest record;
        do verified <- verify_offer (g_CanonicalRequest record) (g_CanonicalResponse record) offer;
        match verified with
        | Err err => roll_back intent offerDigest record err
        | Ok terms => broadcast_verified intent record terms
        end
  end.

(** ** Both sides *)

Definition to_unknown (intent : string) : M GiftRecord :=
  update intent (fun now v => Ok (stamp (now 0%nat) (set_State StateFinalityUnknown v))).

Definition resolve_request (record : GiftRecord) : ResolveRequest :=
  {| rq_IntentID := g_IntentID record; rq_SignedGiftID := g_SignedGiftID record;
     rq_SenderAgentAccount := g_SenderAgentAccount record; rq_DestinationAddress := g_DestinationAddress record;
     rq_AmountAtomic := g_AmountAtomic record; rq_ExactBOCDigest := g_ExactBOCDigest record;
     rq_GlobalID := g_GlobalID record; rq_ControllerEpoch := g_ControllerEpoch record;
     rq_Seqno := g_Seqno record; rq_ValidUntil := g_ValidUntil record;
     rq_ExactSignedBOC := g_ExactSignedBOC record |}.

(** [s.custody.ResolveNativeGift] with its error inspected. *)
Definition resolve_native (record : GiftRecord) : M (result unit) :=
  fun w => (logged w EvQuery, Ok (ResolveNativeGift (w_log w) (resolve_request record))).

Definition unconsumed (state : State) : bool :=
  bool_decide (state = StateCurrentlyExecutable) || bool_decide (state = StateCurrentlyUnexecutable)
  || bool_decide (state = StateInsufficientFunds).

(** The states a finalized observation may report. *)
Definition reported (state : State) : bool :=
  terminalState state || bool_decide (state = StateFinalityUnknown) || unconsumed state.

Definition refreshed (state : State) (now : nat -> Z) (v : GiftRecord) : GiftRecord :=
  let v := set_State state v in
  let v :=
    if terminalState state then
      compactTerminalRecord (set_RetryNotBeforeUnix 0 (set_PendingEffect EffectNone v))
    else if unconsumed state
            && (bool_decide (g_PendingEffect v = EffectBroadcast) || bool_decide (g_PendingEffect v = EffectCancel))
    then
      let attempts := if bool_decide (g_PendingEffect v = EffectCancel) then g_CancellationAttempts v
                      else g_BroadcastAttempts v in
      set_RetryNotBeforeUnix (Unix (time_Add (now 0%nat) (broadcastRetryDelay attempts)))
        (set_PendingEffect EffectNone v)
    else v in
  stamp (now 1%nat) v.

Definition Refresh (intent : string) : M GiftRecord :=
  do found <- get intent;
  match found with
  | None => raise "Gift not found"
  | Some record =>
      guard negb (slen (g_ExactSignedBOC record) =? 0) && refreshableRecordState record
      else "Gift is not ready for finalized refresh";
      do answer <- finality record;
      match answer with
      | Err _ => to_unknown intent
      | Ok state =>
          if negb (reported state) then ret record
          else if bool_decide (state = StateFinalizedPaid) && bool_decide (g_Role record = RoleSender) then
            do resolved <- resolve_native record;
            match resolved with
            | Err err => do _ <- to_unknown intent; raise err
            | Ok _ => update intent (fun now v => Ok (refreshed state now v))
            end
          else update intent (fun now v => Ok (refreshed state now v))
      end
  end.

(** What the owner is shown before a cancellation. *)
Definition cancel_review (intent : string) (record : GiftRecord) : OwnerReview :=
  {| or_Action := "cancel"; or_IntentID := intent; or_SignedGiftID := g_SignedGiftID record;
     or_RecipientAgentID := g_RecipientAgentID record; or_Network := g_Network record;
     or_AmountAtomic := g_AmountAtomic record; or_DestinationAddress := g_DestinationAddress record;
     or_SenderAgentAccount := g_SenderAgentAccount record; or_OwnerWallet := ""; or_ControllerKeyID := "";
     or_DeploymentID := g_DeploymentID record; or_FeeReserveAtomic := "";
     or_RequestDigest := g_RequestDigest record; or_ResponseDigest := g_ResponseDigest record;
     or_UnsignedTransferDigest := ""; or_GlobalID := g_GlobalID record;
     or_ControllerEpoch := g_ControllerEpoch record; or_Seqno := g_Seqno record;
     or_ValidUntil := g_ValidUntil record; or_RequestedValidUntil := g_RequestedValidUntil record;
     or_ResponseNotAfter := g_ResponseNotAfter record; or_FundsLocked := false |}.

Definition cancellable (state : State) : bool :=
  match state with
  | StateBOCSigned | StateOfferDelivered | StateCurrentlyExecutable | StateCurrentlyUnexecutable
  | StateInsufficientFunds | StateFinalityUnknown => true
  | _ => false
  end.

(** [s.owner.Authorize] with its error replaced. *)
Definition authorize_cancel (review : OwnerReview) : M string :=
  fun w =>
    let answer := OwnerAuthorize (w_log w) review in
    (logged w (EvAuthorize review answer),
     match answer with
     | Ok digest => if bool_decide (digest = ""%string) then Err "owner cancellation authorization failed" else Ok digest
     | Err _ => Err "owner cancellation authorization failed"
     end).

Definition prepare_cancel (intent : string) (record : GiftRecord) : M GiftRecord :=
  if bool_decide (g_PendingEffect record = EffectNone) && (slen (g_ExactCancellationBOC record) =? 0) then
    do digest <- authorize_cancel (cancel_review intent record);
    update intent (fun now v =>
      Ok (stamp (now 0%nat) (set_CancellationAuthorizationDigest digest (set_PendingEffect EffectPrepareCancel v))))
  else ret record.

Definition sign_cancel (intent : string) (record : GiftRecord) : M GiftRecord :=
  if slen (g_ExactCancellationBOC record) =? 0 then
    do boc <- perform intent PrepareCancellation (CancelNative
         {| cq_IntentID := intent; cq_SignedGiftID := g_SignedGiftID record;
            cq_OwnerAuthorizationDigest := g_CancellationAuthorizationDigest record;
            cq_SenderAgentAccount := g_SenderAgentAccount record; cq_GlobalID := g_GlobalID record;
            cq_Seqno := g_Seqno record; cq_ValidUntil := g_ValidUntil record |});
    guard negb (slen boc =? 0) else "custody returned no exact cancellation BOC";
    update intent (fun now v => Ok (stamp (now 0%nat) (set_ExactCancellationBOC boc v)))
  else ret record.

Definition Cancel (intent : string) : M GiftRecord :=
  do found <- get intent;
  match found with
  | None => raise "Gift is not cancellable"
  | Some record =>
      guard bool_decide (g_Role record = RoleSender) && cancellable (g_State record)
      else "Gift is not cancellable";
      guard negb (bool_decide (g_PendingEffect record = EffectCancel))
      else "ambiguous cancellation requires finalized refresh";
      do now <- clock;
      guard (g_RetryNotBeforeUnix record <=? Unix now)%Z else "exact cancellation retry is rate limited";
      guard bool_decide (g_PendingEffect record = EffectNone)
            || bool_decide (g_PendingEffect record = EffectPrepareCancel)
      else "Gift has another unresolved side effect";
      do record <- prepare_cancel intent record;
      do record <- sign_cancel intent record;
      do record <- update intent (fun now v =>
        Ok (stamp (now 0%nat) (set_RetryNotBeforeUnix 0
              (set_CancellationAttempts (u32 (g_CancellationAttempts v + 1)) (set_PendingEffect EffectCancel v)))));
      do _ <- perform intent BroadcastCancellation (BroadcastBOC (g_ExactCancellationBOC record));
      ret record
  end.

End operations.
End GiftService.
