(* ===== verification/GiftSafety.v ===== *)
(** * What the Agent Gift operations guarantee

    The invariant of the journal and of the log of calls that every operation
    of GiftService.v keeps, with a small logic of triples over its monad, and
    the guarantees that follow: no effect before its announcement is on disk,
    nothing signed or cancelled without the owner's approval of exactly those
    terms, no second broadcast while the first is unresolved, and records that
    only move forward. *)

From S2P Require Import Prelude GoLib GoText FileStore Ledger Protocol Fixtures Gift GiftService.
#[local] Open Scope N_scope.

Create HintDb gift.

Module GiftSafety.
Import Gift GiftService.

(** ** Events *)

(** The call that a record announces. *)
Definition announced (i : string) (r : GiftRecord) (kind : effect) : call :=
  match kind with
  | SendAddressRequest =>
      SendDirect (g_RecipientAgentID r) "agent.gift.address-request" (g_CanonicalRequest r) i
  | SendAddressResponse =>
      SendDirect (g_SenderAgentID r) "agent.gift.address-response" (g_CanonicalResponse r) i
  | SignGift =>
      SignNative {| sq_IntentID := i; sq_CanonicalRequest := g_CanonicalRequest r;
                    sq_CanonicalResponse := g_CanonicalResponse r;
                    sq_OwnerAuthorizationDigest := g_OwnerAuthorizationDigest r;
                    sq_UnsignedTransferDigest := g_UnsignedTransferDigest r |}
  | SendOffer =>
      SendDirect (g_RecipientAgentID r) "agent.gift.signed-boc-offer" (g_CanonicalOffer r) (g_SignedGiftID r)
  | BroadcastGift => BroadcastBOC (g_ExactSignedBOC r)
  | PrepareCancellation =>
      CancelNative {| cq_IntentID := i; cq_SignedGiftID := g_SignedGiftID r;
                      cq_OwnerAuthorizationDigest := g_CancellationAuthorizationDigest r;
                      cq_SenderAgentAccount := g_SenderAgentAccount r; cq_GlobalID := g_GlobalID r;
                      cq_Seqno := g_Seqno r; cq_ValidUntil := g_ValidUntil r |}
  | BroadcastCancellation => BroadcastBOC (g_ExactCancellationBOC r)
  end.

(** The pending effect that stands for it; two kinds are also retried from
    memory after a write of the next state that reached the disk but failed. *)
Definition pending_of (kind : effect) : option PendingEffect :=
  match kind with
  | SendAddressRequest => Some EffectSendAddressRequest
  | SignGift => Some EffectSignBOC
  | SendOffer => Some EffectSendOffer
  | BroadcastGift => Some EffectBroadcast
  | BroadcastCancellation => Some EffectCancel
  | SendAddressResponse | PrepareCancellation => None
  end.

Definition broadcasts (kind : effect) : bool :=
  match kind with BroadcastGift | BroadcastCancellation => true | _ => false end.

(** A finality answer that settles what became of a broadcast. *)
Definition settles (s : State) : bool := terminalState s || unconsumed s.

(** A broadcast of this kind has been made for the intent, and no finalized
    observation has settled it since. The newest event is first. *)
Fixpoint unresolved (kind : effect) (i : string) (log : list event) : bool :=
  match log with
  | [] => false
  | EvEffect _ i' k' _ :: rest => if bool_decide (i' = i) && bool_decide (k' = kind) then true else unresolved kind i rest
  | EvFinality i' (Ok s) :: rest => if bool_decide (i' = i) && settles s then false else unresolved kind i rest
  | _ :: rest => unresolved kind i rest
  end.

(** The conditions under which each kind of effect may be made. *)
Definition gate (log : list event) (i : string) (r : GiftRecord) (kind : effect) : Prop :=
  match kind with
  | SignGift =>
      g_OwnerAuthorizationDigest r <> ""%string /\
      EvAuthorize (send_review i r) (Ok (g_OwnerAuthorizationDigest r)) ∈ log /\
      0 < g_ValidUntil r <= g_RequestedValidUntil r /\ g_ValidUntil r <= g_ResponseNotAfter r
  | PrepareCancellation =>
      g_CancellationAuthorizationDigest r <> ""%string /\
      EvAuthorize (cancel_review i r) (Ok (g_CancellationAuthorizationDigest r)) ∈ log
  | BroadcastGift => g_ExactSignedBOC r <> ""%string /\ unresolved kind i log = false
  | BroadcastCancellation => g_ExactCancellationBOC r <> ""%string /\ unresolved kind i log = false
  | _ => True
  end.

Definition event_ok (log : list event) (ev : event) : Prop :=
  match ev with
  | EvEffect stored i kind c =>
      exists records r, (forall e, load e stored = (stored, Ok records)) /\ records !! i = Some r /\
        validateRecord r = Ok tt /\ c = announced i r kind /\
        (forall p, pending_of kind = Some p -> g_PendingEffect r = p) /\ gate log i r kind
  | _ => True
  end.

Fixpoint log_ok (log : list event) : Prop :=
  match log with [] => True | ev :: rest => event_ok rest ev /\ log_ok rest end.

Definition is_effect (ev : event) : bool := match ev with EvEffect _ _ _ _ => true | _ => false end.

Lemma unresolved_quiet kind i ev log :
  is_effect ev = false -> unresolved kind i (ev :: log) = true -> unresolved kind i log = true.
Proof. destruct ev as [| | |i' [s|m]|]; cbn; try done. intros _. by destruct (_ && _). Qed.

Lemma unresolved_effect kind i stored i' k' c log :
  unresolved kind i (EvEffect stored i' k' c :: log) = true ->
  (i' = i /\ k' = kind) \/ unresolved kind i log = true.
Proof. cbn. destruct (bool_decide (i' = i) && _) eqn:E; [|auto]. bprop. auto. Qed.

Lemma unresolved_settled kind i s log :
  settles s = true -> unresolved kind i (EvFinality i (Ok s) :: log) = false.
Proof. intros H. cbn. by rewrite bool_decide_true, H by done. Qed.

(** ** Records *)

(** The signed transfer is fixed. *)
Definition committed (s : State) : bool :=
  match s with
  | StateBOCSigned | StateOfferDelivered | StateVerified | StateBroadcastSubmitted
  | StateCurrentlyExecutable | StateCurrentlyUnexecutable | StateInsufficientFunds
  | StateFinalizedPaid | StateExpiredUnpaid | StateInvalidatedUnpaid | StateFinalityUnknown => true
  | _ => false
  end.

Definition terms_of (r : GiftRecord) :=
  (g_SignedGiftID r, g_ExactBOCDigest r, g_SenderAgentAccount r, g_DestinationAddress r, g_AmountAtomic r,
   (g_Seqno r, g_ValidUntil r, g_ControllerEpoch r, g_DeploymentID r, g_FeeReserveAtomic r)).

(** What the gift is about, from the first record on. *)
Definition identity_of (r : GiftRecord) :=
  (g_Network r, g_GlobalID r, g_SenderAgentID r, g_RecipientAgentID r, g_RequestedValidUntil r,
   (g_RequestDigest r, g_CanonicalRequest r)).

(** What a change of a record keeps. *)
Record change (r r' : GiftRecord) : Prop := {
  ch_identity : identity_of r' = identity_of r;
  ch_terminal : terminalState (g_State r) = true -> r' = r;
  ch_committed : committed (g_State r) = true -> committed (g_State r') = true /\ terms_of r' = terms_of r
}.

(** A record and a later version of it. *)
Record lifecycle (r r' : GiftRecord) : Prop := {
  lc_change : change r r';
  lc_role : g_Role r' = g_Role r;
  lc_created : g_CreatedAtUnix r' = g_CreatedAtUnix r;
  lc_updated : (g_UpdatedAtUnix r <= g_UpdatedAtUnix r')%Z
}.

#[global] Instance lifecycle_preorder : PreOrder lifecycle.
Proof.
  split.
  - intros r. split; [split|..]; (done || lia).
  - intros r1 r2 r3 [[Hi Ht Hc] Hr Ha Hu] [[Hi' Ht' Hc'] Hr' Ha' Hu']. split; [split|..]; try congruence; try lia.
    + intros H. rewrite (Ht H) in *. by apply Ht'.
    + intros H. destruct (Hc H) as [H1 H2]. destruct (Hc' H1). split; [done|congruence].
Qed.

(** A pending announcement that may be acted on without a fresh write keeps
    the terms it announces. *)
Definition keeps (i : string) (r r' : GiftRecord) : Prop :=
  (g_PendingEffect r = EffectSendAddressResponse ->
     announced i r' SendAddressResponse = announced i r SendAddressResponse) /\
  (g_PendingEffect r = EffectPrepareCancel ->
     announced i r' PrepareCancellation = announced i r PrepareCancellation /\
     cancel_review i r' = cancel_review i r).

Lemma keeps_refl i r : keeps i r r.
Proof. done. Qed.

Record core_ok (log : list event) (i : string) (r : GiftRecord) : Prop := {
  co_authorized : g_State r = StateOwnerAuthorized ->
    g_OwnerAuthorizationDigest r <> ""%string /\
    EvAuthorize (send_review i r) (Ok (g_OwnerAuthorizationDigest r)) ∈ log;
  co_terms : g_State r = StateOwnerAuthorizationRequired \/ g_State r = StateOwnerAuthorized ->
    0 < g_ValidUntil r <= g_RequestedValidUntil r /\ g_ValidUntil r <= g_ResponseNotAfter r;
  co_cancel : g_PendingEffect r = EffectPrepareCancel ->
    g_CancellationAuthorizationDigest r <> ""%string /\
    EvAuthorize (cancel_review i r) (Ok (g_CancellationAuthorizationDigest r)) ∈ log;
  co_cancel_state : g_PendingEffect r = EffectPrepareCancel \/ g_PendingEffect r = EffectCancel ->
    g_Role r = RoleSender /\ cancellable (g_State r) = true;
  co_broadcast_state : g_PendingEffect r = EffectBroadcast ->
    g_State r = StateVerified \/ g_State r = StateCurrentlyExecutable \/ g_State r = StateFinalityUnknown;
  co_terminal : terminalState (g_State r) = true -> g_PendingEffect r = EffectNone;
  co_broadcast : unresolved BroadcastGift i log = true ->
    g_PendingEffect r = EffectBroadcast \/ g_State r = StateBroadcastSubmitted \/ g_State r = StateFinalityUnknown;
  co_cancelled : unresolved BroadcastCancellation i log = true -> g_PendingEffect r = EffectCancel
}.

Lemma core_ok_quiet ev log i r : is_effect ev = false -> core_ok log i r -> core_ok (ev :: log) i r.
Proof.
  intros He [H1 H2 H3 H4 H5 H6 H7 H8]. split; try done.
  - intros H. destruct (H1 H). split; [done|by right].
  - intros H. destruct (H3 H). split; [done|by right].
  - intros H. apply H7. eauto using unresolved_quiet.
  - intros H. apply H8. eauto using unresolved_quiet.
Qed.

Lemma core_ok_effect stored i' k c log i r :
  core_ok log i r -> (broadcasts k = true -> i' = i -> Some (g_PendingEffect r) = pending_of k) ->
  core_ok (EvEffect stored i' k c :: log) i r.
Proof.
  intros [H1 H2 H3 H4 H5 H6 H7 H8] Hk. split; try done.
  - intros H. destruct (H1 H). split; [done|by right].
  - intros H. destruct (H3 H). split; [done|by right].
  - intros [[-> ->]|H]%unresolved_effect; [|by apply H7]. left. by injection (Hk eq_refl eq_refl).
  - intros [[-> ->]|H]%unresolved_effect; [|by apply H8]. by injection (Hk eq_refl eq_refl).
Qed.

(** ** Journals *)

Definition count (P : GiftRecord -> bool) (m : gmap string GiftRecord) : N :=
  N.of_nat (size (filter (fun kv => P kv.2 = true) m)).

Definition live (r : GiftRecord) : bool := negb (terminalState (g_State r)).

(** Live gifts received from a peer. *)
Definition inbound (peer : string) (r : GiftRecord) : bool :=
  live r && bool_decide (g_Role r = RoleRecipient) && bool_decide (g_SenderAgentID r = peer).

Lemma size_le_dom (m1 m2 : gmap string GiftRecord) : dom m1 ⊆ dom m2 -> (size m1 <= size m2)%nat.
Proof. intros H. rewrite <-!size_dom. by apply subseteq_size. Qed.

Lemma elem_of_dom_filter (P : GiftRecord -> bool) (m : gmap string GiftRecord) i :
  i ∈ dom (filter (fun kv => P kv.2 = true) m) <-> exists r, m !! i = Some r /\ P r = true.
Proof.
  rewrite elem_of_dom. split.
  - intros [r Hr]. apply map_lookup_filter_Some in Hr. eauto.
  - intros (r & Hr & HP). exists r. by apply map_lookup_filter_Some.
Qed.

Lemma count_insert_le P m i r r' :
  m !! i = Some r -> (P r' = true -> P r = true) -> count P (<[i := r']> m) <= count P m.
Proof.
  intros Hi HP. unfold count. assert (size (filter (fun kv => P kv.2 = true) (<[i := r']> m))
            <= size (filter (fun kv => P kv.2 = true) m))%nat; [|lia].
  apply size_le_dom. intros k. rewrite !elem_of_dom_filter. intros (x & Hx & Px).
  apply lookup_insert_Some in Hx as [[-> ->]|[_ Hx]]; eauto.
Qed.

Lemma count_insert_fresh P m i r : count P (<[i := r]> m) <= count P m + (if P r then 1 else 0).
Proof.
  unfold count. destruct (P r) eqn:Pr.
  - assert (size (filter (fun kv => P kv.2 = true) (<[i := r]> m))
            <= S (size (filter (fun kv => P kv.2 = true) m)))%nat; [|lia].
    rewrite <-!size_dom. etransitivity.
    + apply (subseteq_size _ ({[i]} ∪ dom (filter (fun kv => P kv.2 = true) m))). intros k.
      rewrite elem_of_union, elem_of_singleton, !elem_of_dom_filter. intros (x & Hx & Px).
      apply lookup_insert_Some in Hx as [[-> ->]|[_ Hx]]; eauto.
    + rewrite size_union_alt, size_singleton. pose proof (subseteq_size (dom (filter (fun kv => P kv.2 = true) m) ∖ {[i]})
        (dom (filter (fun kv => P kv.2 = true) m)) ltac:(set_solver)). lia.
  - assert (size (filter (fun kv => P kv.2 = true) (<[i := r]> m))
            <= size (filter (fun kv => P kv.2 = true) m))%nat; [|lia].
    apply size_le_dom. intros k. rewrite !elem_of_dom_filter. intros (x & Hx & Px).
    apply lookup_insert_Some in Hx as [[-> ->]|[_ Hx]]; [congruence|eauto].
Qed.

Lemma count_delete_le P m i : count P (delete i m) <= count P m.
Proof.
  unfold count. assert (size (filter (fun kv => P kv.2 = true) (delete i m))
            <= size (filter (fun kv => P kv.2 = true) m))%nat; [|lia].
  apply size_le_dom. intros k. rewrite !elem_of_dom_filter. intros (x & Hx & Px).
  apply lookup_delete_Some in Hx as [_ Hx]. eauto.
Qed.

Lemma filter_length_Permutation {A} (f : A -> bool) l l' :
  l ≡ₚ l' -> length (List.filter f l) = length (List.filter f l').
Proof.
  induction 1 as [|x l l' _ IH|x y l|]; cbn; [done| |by repeat destruct (f _)|congruence].
  destruct (f x); cbn; congruence.
Qed.

(** The count over the listed records is the count over the journal. *)
Lemma activeGiftCount_count j peer :
  gj_lock j = true ->
  activeGiftCount (List j) peer =
  count (fun r => negb (terminalState (g_State r)
     || (negb (bool_decide (peer = ""%string)) && negb (bool_decide (g_SenderAgentID r = peer))))) (gj_records j).
Proof.
  intros Hl. unfold activeGiftCount, List, count. rewrite Hl. cbn [negb]. f_equal.
  erewrite filter_length_Permutation by apply sort_by_Permutation. unfold map_vals.
  induction (gj_records j) as [|i r m Hm IH] using map_ind.
  { by rewrite map_to_list_empty, map_filter_empty. }
  erewrite filter_length_Permutation by (apply fmap_Permutation, map_to_list_insert; done). cbn [fmap list_fmap List.filter snd].
  destruct (negb (terminalState (g_State r) || _)) eqn:E.
  - rewrite map_filter_insert_True by done. rewrite map_size_insert_None; [cbn [length]; by rewrite <-IH|].
    apply map_lookup_filter_None. by left.
  - rewrite map_filter_insert_False by (cbn; congruence). by rewrite (delete_id m i Hm).
Qed.

Record limits (m : gmap string GiftRecord) : Prop := {
  li_size : N.of_nat (size m) <= maxGiftRecords;
  li_live : count live m <= maxActiveGiftRecords;
  li_inbound : forall peer, count (inbound peer) m <= maxActiveGiftsPerPeer
}.

Record map_ok (log : list event) (m : gmap string GiftRecord) : Prop := {
  mo_valid : map_Forall (fun _ r => validateRecord r = Ok tt) m;
  mo_keyed : keyed m;
  mo_core : map_Forall (fun i r => core_ok log i r) m;
  mo_absent : forall i kind, m !! i = None -> broadcasts kind = true -> unresolved kind i log = false;
  mo_limits : limits m
}.

(** Each record of the first is in the second at a later stage, or was
    terminal, when it may have been evicted. *)
Definition evolved (m m' : gmap string GiftRecord) : Prop :=
  forall i r, m !! i = Some r ->
    exists r', lifecycle r r' /\ (m' !! i = Some r' \/ terminalState (g_State r') = true).

#[global] Instance evolved_preorder : PreOrder evolved.
Proof.
  split.
  - intros m i r Hr. exists r. split; [reflexivity|auto].
  - intros m1 m2 m3 H1 H2 i r Hr. destruct (H1 i r Hr) as (r' & Hl & [Hr'|Ht]); [|eauto].
    destruct (H2 i r' Hr') as (r'' & Hl' & Hr''). exists r''. split; [by etransitivity|done].
Qed.

(** The records in memory and those in the file, which may be one write ahead. *)
Definition linked (m fm : gmap string GiftRecord) : Prop :=
  evolved m fm /\
  forall i r, m !! i = Some r -> live r = true -> exists r', fm !! i = Some r' /\ keeps i r r' /\ lifecycle r r'.

Lemma linked_refl m : linked m m.
Proof. split; [done|]. intros i r Hr _. exists r. split_and!; [done|done|reflexivity]. Qed.

Definition mem (w : world) : gmap string GiftRecord := gj_records (w_journal w).

Definition in_sync (w : world) : Prop := gj_file (w_journal w) = FileDoc (to_document (mem w)).

Record world_ok (w : world) : Prop := {
  wo_mem : map_ok (w_log w) (mem w);
  wo_file : exists fm, gj_file (w_journal w) = FileDoc (to_document fm) /\ map_ok (w_log w) fm /\ linked (mem w) fm;
  wo_log : log_ok (w_log w)
}.

Lemma map_ok_quiet ev log m : is_effect ev = false -> map_ok log m -> map_ok (ev :: log) m.
Proof.
  intros He [H1 H2 H3 H4 H5]. split; try done.
  - intros i r Hr. apply core_ok_quiet; [done|]. by apply H3.
  - intros i kind Hi Hk. destruct (unresolved kind i (ev :: log)) eqn:E; [|done].
    apply unresolved_quiet in E; [|done]. by rewrite H4 in E.
Qed.

(** A journal of such records is read back as it is. *)
Lemma map_ok_load log m e : map_ok log m -> load e (FileDoc (to_document m)) = (FileDoc (to_document m), Ok m).
Proof. intros [H1 H2 _ _ [H5 _ _]]. by apply load_to_document. Qed.

Lemma world_ok_quiet ev w : is_effect ev = false -> world_ok w -> world_ok (logged w ev).
Proof.
  intros He [H1 (fm & H2 & H3 & H4) H5]. split; cbn.
  - by apply map_ok_quiet.
  - exists fm. split_and!; [done| |done]. by apply map_ok_quiet.
  - split; [|done]. by destruct ev.
Qed.

Lemma lifecycle_live r r' : lifecycle r r' -> live r' = true -> live r = true.
Proof.
  intros [[_ Ht _] _ _ _]. unfold live. destruct (terminalState (g_State r)) eqn:E; [|done].
  by rewrite (Ht eq_refl), E.
Qed.

Lemma lifecycle_inbound peer r r' : lifecycle r r' -> inbound peer r' = true -> inbound peer r = true.
Proof.
  intros Hl. unfold inbound. rewrite !andb_true_iff. intros [[H1 H2] H3].
  destruct (Hl) as [[Hi _ _] Hr _ _]. rewrite Hr in H2. split_and!; [by eapply lifecycle_live|done|].
  unfold identity_of in Hi. injection Hi as _ _ Hs _ _ _ _. by rewrite <-Hs.
Qed.

Lemma map_ok_insert log m i r r' :
  map_ok log m -> m !! i = Some r -> validateRecord r' = Ok tt -> g_IntentID r' = i ->
  core_ok log i r' -> lifecycle r r' -> map_ok log (<[i := r']> m).
Proof.
  intros [H1 H2 H3 H4 [H5 H6 H7]] Hi Hv Hk Hc Hl. split; [by apply map_Forall_insert_2..| |split].
  - intros j kind Hj. apply H4. by apply lookup_insert_None in Hj as [? _].
  - by rewrite map_size_insert_Some by eauto.
  - etransitivity; [eapply count_insert_le; eauto using lifecycle_live|done].
  - intros peer. etransitivity; [eapply count_insert_le; eauto using lifecycle_inbound|done].
Qed.

Lemma linked_insert m i r r' :
  m !! i = Some r -> lifecycle r r' -> keeps i r r' -> linked m (<[i := r']> m).
Proof.
  intros Hi Hl Hk. split.
  - intros j x Hx. destruct (decide (i = j)) as [<-|Hne].
    + rewrite Hi in Hx. injection Hx as <-. exists r'. rewrite lookup_insert_eq. auto.
    + exists x. rewrite lookup_insert_ne by done. split; [reflexivity|auto].
  - intros j x Hx _. destruct (decide (i = j)) as [<-|Hne].
    + rewrite Hi in Hx. injection Hx as <-. exists r'. by rewrite lookup_insert_eq.
    + exists x. rewrite lookup_insert_ne by done. split_and!; [done|done|reflexivity].
Qed.

(** Publishing a journal that is as it should be. *)
Lemma gift_publish_ok e w updated record j' r :
  world_ok w -> map_ok (w_log w) updated -> linked (mem w) updated ->
  publish e (w_journal w) updated record = (j', r) ->
  let w' := {| w_journal := j'; w_log := EvJournal :: w_log w |} in
  world_ok w' /\ evolved (mem w) (mem w') /\ (forall r', r = Ok r' -> r' = record /\ mem w' = updated /\ in_sync w').
Proof.
  intros Hw Hu Hl H. destruct (publish_cases _ _ _ _ _ _ H) as [_ [(-> & Hr & Hf)|(He & Hr & Hf)]].
  - split_and!.
    + split; unfold mem; cbn; rewrite ?Hr, ?Hf; [by apply map_ok_quiet| |].
      * exists updated. split_and!; [done|by apply map_ok_quiet|apply linked_refl].
      * split; [done|apply (wo_log _ Hw)].
    + unfold mem at 2. cbn. rewrite Hr. by apply Hl.
    + intros r' [= <-]. unfold in_sync, mem. cbn. by rewrite Hr, Hf.
  - split_and!.
    + destruct Hw as [Hm (fm & Hfm & Hfo & Hfl) Hlog]. split; unfold mem; cbn; rewrite ?Hr.
      * by apply map_ok_quiet.
      * destruct Hf as [->| ->]; [exists fm|exists updated]; split_and!; try done; by apply map_ok_quiet.
      * by split.
    + unfold mem at 2. cbn. by rewrite Hr.
    + intros r' ->. done.
Qed.

(** A record as it is created. *)
Definition fresh (r : GiftRecord) : bool :=
  bool_decide (g_PendingEffect r = EffectNone)
  && (bool_decide (g_State r = StateDraft) || bool_decide (g_State r = StateAddressRequestObserved)).

Lemma fresh_core log i r :
  fresh r = true -> (forall kind, broadcasts kind = true -> unresolved kind i log = false) -> core_ok log i r.
Proof.
  unfold fresh. rewrite andb_true_iff, orb_true_iff, !bool_decide_eq_true. intros [Hp Hs] Hu.
  pose proof (Hu BroadcastGift eq_refl) as U1. pose proof (Hu BroadcastCancellation eq_refl) as U2.
  destruct Hs as [Hs|Hs]; split; rewrite ?Hs, ?Hp, ?U1, ?U2; try done; by intros [|].
Qed.

Lemma terminal_settled log i r kind :
  core_ok log i r -> terminalState (g_State r) = true -> broadcasts kind = true -> unresolved kind i log = false.
Proof.
  intros Hc Ht Hk. pose proof (co_terminal _ _ _ Hc Ht) as Hp.
  destruct (unresolved kind i log) eqn:E; [|done]. destruct kind; try done.
  - destruct (co_broadcast _ _ _ Hc E) as [H|[H|H]]; [congruence|by rewrite H in Ht..].
  - pose proof (co_cancelled _ _ _ Hc E). congruence.
Qed.

Lemma map_ok_evict log m i r :
  map_ok log m -> m !! i = Some r -> terminalState (g_State r) = true -> map_ok log (delete i m).
Proof.
  intros [H1 H2 H3 H4 [H5 H6 H7]] Hi Ht. split; [by apply map_Forall_delete..| |split].
  - intros j kind Hj Hk. apply lookup_delete_None in Hj as [<-|Hj]; [|by apply H4].
    eapply terminal_settled; [by apply H3|done|done].
  - rewrite map_size_delete_Some by eauto. lia.
  - etransitivity; [apply count_delete_le|done].
  - intros peer. etransitivity; [apply count_delete_le|done].
Qed.

(** There is room for one more. *)
Definition room (record : GiftRecord) (m : gmap string GiftRecord) : Prop :=
  count live m < maxActiveGiftRecords /\
  (g_Role record = RoleRecipient -> count (inbound (g_SenderAgentID record)) m < maxActiveGiftsPerPeer).

Lemma map_ok_add log m record :
  map_ok log m -> m !! g_IntentID record = None -> N.of_nat (size m) < maxGiftRecords ->
  validateRecord record = Ok tt -> fresh record = true -> room record m ->
  map_ok log (<[g_IntentID record := record]> m).
Proof.
  intros [H1 H2 H3 H4 [H5 H6 H7]] Hi Hsz Hv Hf [Hl Hr]. split; [by apply map_Forall_insert_2..| | |split].
  - apply map_Forall_insert_2; [|done]. apply fresh_core; [done|]. intros kind. by apply H4.
  - intros j kind Hj. apply H4. by apply lookup_insert_None in Hj as [? _].
  - rewrite map_size_insert_None by done. lia.
  - etransitivity; [apply count_insert_fresh|]. destruct (live record); lia.
  - intros peer. etransitivity; [apply count_insert_fresh|]. specialize (H7 peer).
    destruct (inbound peer record) eqn:E; [|lia]. unfold inbound in E.
    rewrite !andb_true_iff, !bool_decide_eq_true in E. destruct E as [[_ E] <-]. specialize (Hr E). lia.
Qed.

Lemma linked_add m i record : m !! i = None -> linked m (<[i := record]> m).
Proof.
  intros Hi. split.
  - intros j x Hx. exists x. split; [reflexivity|]. left. rewrite lookup_insert_ne; [done|congruence].
  - intros j x Hx _. exists x. split; [|by split; [|reflexivity]]. rewrite lookup_insert_ne; [done|congruence].
Qed.

Lemma linked_evict m i r record id :
  m !! id = Some r -> terminalState (g_State r) = true -> m !! i = None -> linked m (<[i := record]> (delete id m)).
Proof.
  intros Hid Ht Hi. split.
  - intros j x Hx. exists x. split; [reflexivity|]. destruct (decide (j = id)) as [->|Hne].
    + right. congruence.
    + left. rewrite lookup_insert_ne, lookup_delete_ne; congruence.
  - intros j x Hx Hlive. exists x. split; [|by split; [|reflexivity]].
    assert (j <> id). { intros ->. unfold live in Hlive. rewrite Hid in Hx. injection Hx as <-. by rewrite Ht in Hlive. }
    rewrite lookup_insert_ne, lookup_delete_ne; congruence.
Qed.

(** Room in the journal is room after an eviction, which frees a place. *)
Lemma create_ok log m record kept :
  map_ok log m -> m !! g_IntentID record = None -> validateRecord record = Ok tt -> fresh record = true ->
  room record m -> (kept = m /\ N.of_nat (size m) < maxGiftRecords) \/ evictOldestTerminal m = Some kept ->
  map_ok log (<[g_IntentID record := record]> kept) /\ linked m (<[g_IntentID record := record]> kept).
Proof.
  intros Hm Hi Hv Hf Hroom [[-> Hsz]|He].
  { split; [by apply map_ok_add|by apply linked_add]. }
  pose proof (evictOldestTerminal_spec m) as Hspec. rewrite He in Hspec.
  destruct Hspec as (id & r & Hr & Ht & -> & _). split; [|by eapply linked_evict].
  apply map_ok_add; [by eapply map_ok_evict|rewrite lookup_delete_None; auto| |done|done|].
  - rewrite map_size_delete_Some by eauto. pose proof (li_size _ (mo_limits _ _ Hm)) as Hs.
    assert (size m <> O). { intros H%map_size_empty_inv. by rewrite H in Hr. } lia.
  - destruct Hroom as [Hl Hr']. split; [eapply N.le_lt_trans; [apply count_delete_le|done]|].
    intros Hrole. eapply N.le_lt_trans; [apply count_delete_le|]. by apply Hr'.
Qed.

(** What every update of a record must show. *)
Record good_update (log : list event) (i : string) (r r' : GiftRecord) : Prop := {
  gu_core : core_ok log i r';
  gu_change : change r r';
  gu_keeps : keeps i r r'
}.


Definition mild (p : PendingEffect) : bool :=
  match p with EffectBroadcast | EffectPrepareCancel | EffectCancel => false | _ => true end.

Lemma uncommitted_mild log i r : core_ok log i r -> committed (g_State r) = false -> mild (g_PendingEffect r) = true.
Proof.
  intros Hc Hs. destruct (g_PendingEffect r) eqn:E; try done; exfalso.
  - destruct (co_broadcast_state _ _ _ Hc E) as [H|[H|H]]; by rewrite H in Hs.
  - destruct (co_cancel_state _ _ _ Hc (or_introl E)) as [_ H]. by destruct (g_State r).
  - destruct (co_cancel_state _ _ _ Hc (or_intror E)) as [_ H]. by destruct (g_State r).
Qed.

(** Nothing is outstanding for a record that waits for nothing. *)
Definition waits (r : GiftRecord) : bool :=
  negb (mild (g_PendingEffect r) || bool_decide (g_PendingEffect r = EffectPrepareCancel))
  || bool_decide (g_State r = StateBroadcastSubmitted) || bool_decide (g_State r = StateFinalityUnknown).

Lemma idle_settled log i r kind :
  core_ok log i r -> waits r = false -> broadcasts kind = true -> unresolved kind i log = false.
Proof.
  unfold waits. rewrite !orb_false_iff, !bool_decide_eq_false. intros Hc [[Hp Hs1] Hs2] Hk.
  destruct (unresolved kind i log) eqn:E; [|done]. destruct kind; try done.
  - destruct (co_broadcast _ _ _ Hc E) as [H|[H|H]]; [by rewrite H in Hp|done..].
  - by rewrite (co_cancelled _ _ _ Hc E) in Hp.
Qed.

Lemma uncommitted_idle log i r : core_ok log i r -> committed (g_State r) = false -> waits r = false.
Proof.
  intros Hc Hs. unfold waits. rewrite (uncommitted_mild _ _ _ Hc Hs). cbn. by destruct (g_State r).
Qed.

(** An update of a record that waits for nothing to one that does neither. *)
Lemma good_idle log i r r' :
  core_ok log i r -> waits r = false -> change r r' -> keeps i r r' ->
  mild (g_PendingEffect r') = true -> terminalState (g_State r') = false ->
  (g_State r' = StateOwnerAuthorized -> g_OwnerAuthorizationDigest r' <> ""%string /\
    EvAuthorize (send_review i r') (Ok (g_OwnerAuthorizationDigest r')) ∈ log) ->
  (g_State r' = StateOwnerAuthorizationRequired \/ g_State r' = StateOwnerAuthorized ->
    0 < g_ValidUntil r' <= g_RequestedValidUntil r' /\ g_ValidUntil r' <= g_ResponseNotAfter r') ->
  good_update log i r r'.
Proof.
  intros Hc Hw Hch Hk Hm Ht H1 H2. split; [|done|done]. split; try done.
  - intros H. by rewrite H in Hm.
  - intros [H|H]; by rewrite H in Hm.
  - intros H. by rewrite H in Hm.
  - intros H. congruence.
  - intros H. by rewrite (idle_settled _ _ _ _ Hc Hw) in H.
  - intros H. by rewrite (idle_settled _ _ _ _ Hc Hw) in H.
Qed.

(** An update before the transfer is signed. *)
Lemma good_uncommitted log i r r' :
  core_ok log i r -> committed (g_State r) = false -> identity_of r' = identity_of r ->
  (g_PendingEffect r = EffectSendAddressResponse ->
     announced i r' SendAddressResponse = announced i r SendAddressResponse) ->
  mild (g_PendingEffect r') = true -> terminalState (g_State r') = false ->
  (g_State r' = StateOwnerAuthorized -> g_OwnerAuthorizationDigest r' <> ""%string /\
    EvAuthorize (send_review i r') (Ok (g_OwnerAuthorizationDigest r')) ∈ log) ->
  (g_State r' = StateOwnerAuthorizationRequired \/ g_State r' = StateOwnerAuthorized ->
    0 < g_ValidUntil r' <= g_RequestedValidUntil r' /\ g_ValidUntil r' <= g_ResponseNotAfter r') ->
  good_update log i r r'.
Proof.
  intros Hc Hs Hid Hk Hm Ht H1 H2. eapply good_idle; try done.
  - by eapply uncommitted_idle.
  - split; [done| |congruence]. intros H. by destruct (g_State r).
  - split; [done|]. intros H. pose proof (uncommitted_mild _ _ _ Hc Hs) as Hm'. by rewrite H in Hm'.
Qed.


(** ** Triples *)

Section triples.
Context `{SHA : Sha256} `{ENV : Environment} (m0 : gmap string GiftRecord).

(** The invariant, and the journal has evolved from [m0]. *)
Definition inv (w : world) : Prop := world_ok w /\ evolved m0 (mem w).

Definition triple {A} (P : world -> Prop) (c : M A) (Q : A -> world -> Prop) : Prop :=
  forall w, P w -> match (c w).2 with Ok a => Q a (c w).1 | Err _ => inv (c w).1 end.

Lemma triple_bind {A B} P (c : M A) (k : A -> M B) Q R :
  triple P c Q -> (forall a, triple (Q a) (k a) R) -> triple P (bind c k) R.
Proof.
  intros Hc Hk w Hw. specialize (Hc w Hw). unfold bind. destruct (c w) as [w1 [a|m]]; cbn in *; [|done].
  exact (Hk a w1 Hc).
Qed.

Lemma triple_ret {A} (P : world -> Prop) (a : A) Q : (forall w, P w -> Q a w) -> triple P (ret a) Q.
Proof. intros H w Hw. cbn. auto. Qed.

Lemma triple_raise {A} (P : world -> Prop) m (Q : A -> world -> Prop) :
  (forall w, P w -> inv w) -> triple P (raise m) Q.
Proof. intros H w Hw. cbn. auto. Qed.

Lemma triple_guard {A} (P : world -> Prop) (b : bool) m (k : M A) Q :
  (forall w, P w -> inv w) -> (b = true -> triple P k Q) -> triple P (guard b else m; k) Q.
Proof. intros Hi Hk. destruct b; [by apply Hk|by apply triple_raise]. Qed.

Lemma triple_pure {A} (phi : Prop) P (c : M A) Q :
  (phi -> triple P c Q) -> triple (fun w => phi /\ P w) c Q.
Proof. intros H w [Hphi Hw]. by apply H. Qed.

Lemma triple_weaken {A} (P P' : world -> Prop) (c : M A) (Q Q' : A -> world -> Prop) :
  (forall w, P w -> P' w) -> (forall a w, Q' a w -> Q a w) -> triple P' c Q' -> triple P c Q.
Proof. intros HP HQ H w Hw. specialize (H w (HP w Hw)). destruct (c w) as [w1 [a|m]]; cbn in *; auto. Qed.

(** Facts about the log that later quiet events keep. *)
Definition stable (L : list event -> Prop) : Prop :=
  forall ev log, is_effect ev = false -> L log -> L (ev :: log).

(** At [r] for intent [i], with [L] of the log; the file agrees with memory if [s]. *)
Definition St (i : string) (r : GiftRecord) (L : list event -> Prop) (s : bool) (w : world) : Prop :=
  inv w /\ mem w !! i = Some r /\ L (w_log w) /\ (s = true -> in_sync w).

Definition Any (log : list event) : Prop := True.

Lemma stable_Any : stable Any.
Proof. done. Qed.

Lemma inv_quiet ev w : is_effect ev = false -> inv w -> inv (logged w ev).
Proof. intros He [H1 H2]. split; [by apply world_ok_quiet|done]. Qed.

Lemma St_quiet ev i r (L L' : list event -> Prop) s w :
  is_effect ev = false -> (L (w_log w) -> L' (ev :: w_log w)) -> St i r L s w -> St i r L' s (logged w ev).
Proof.
  intros He HL (H1 & H2 & H3 & H4). split_and!; [by apply inv_quiet|done|by apply HL|done].
Qed.

Lemma St_inv i r L s w : St i r L s w -> inv w.
Proof. by intros (H & _). Qed.

Lemma inv_core i r w : inv w -> mem w !! i = Some r -> core_ok (w_log w) i r.
Proof. intros [[H1 _ _] _] Hr. by apply (mo_core _ _ H1). Qed.

Lemma inv_intent i r w : inv w -> mem w !! i = Some r -> g_IntentID r = i.
Proof. intros [[H1 _ _] _] Hr. by apply (mo_keyed _ _ H1). Qed.

Lemma triple_query {A} (ask : list event -> result A) i r L s :
  stable L -> triple (St i r L s) (query ask) (fun _ => St i r L s).
Proof.
  intros HL w Hw. unfold query. cbn. destruct (ask (w_log w)).
  - apply (St_quiet _ _ _ L); auto.
  - apply inv_quiet; [done|]. eauto using St_inv.
Qed.

Lemma triple_query_inv {A} (ask : list event -> result A) : triple inv (query ask) (fun _ => inv).
Proof. intros w Hw. unfold query. cbn. destruct (ask (w_log w)); by apply inv_quiet. Qed.

(** Calls whose answer is inspected, and the clock. *)
Definition only_asks {A} (c : M A) : Prop := forall w, exists a, c w = (logged w EvQuery, Ok a).

Lemma triple_asks {A} (c : M A) i r L s :
  only_asks c -> stable L -> triple (St i r L s) c (fun _ => St i r L s).
Proof.
  intros Hc HL w Hw. destruct (Hc w) as [a ->]. cbn. apply (St_quiet _ _ _ L); auto.
Qed.

Lemma triple_asks_inv {A} (c : M A) : only_asks c -> triple inv c (fun _ => inv).
Proof. intros Hc w Hw. destruct (Hc w) as [a ->]. by apply inv_quiet. Qed.

Lemma clock_asks : only_asks clock.
Proof. intros w. unfold clock. eauto. Qed.

Lemma inspect_asks canonical : only_asks (inspect canonical).
Proof. intros w. unfold inspect. eauto. Qed.

Lemma verify_asks request response offer : only_asks (verify_offer request response offer).
Proof. intros w. unfold verify_offer. eauto. Qed.

Lemma resolve_asks record : only_asks (resolve_native record).
Proof. intros w. unfold resolve_native. eauto. Qed.

Lemma triple_get i :
  triple inv (get i) (fun found w => match found with Some r => St i r Any false w | None => inv w end).
Proof.
  intros w Hw. unfold get, Get. cbn. destruct (negb _); cbn; [done|].
  destruct (gj_records (w_journal w) !! i) as [r|] eqn:E; [|done]. by split_and!.
Qed.

(** The owner's answer is on record. *)
Lemma triple_authorize review i r L s :
  stable L -> triple (St i r L s) (authorize review)
    (fun digest => St i r (fun log => L log /\ EvAuthorize review (Ok digest) ∈ log) s).
Proof.
  intros HL w Hw. unfold authorize. cbn. destruct (OwnerAuthorize (w_log w) review) eqn:E.
  - apply (St_quiet _ _ _ L); [done| |done]. intros H. split; [by apply HL|by left].
  - apply inv_quiet; [done|]. eauto using St_inv.
Qed.

Lemma triple_authorize_cancel review i r L s :
  stable L -> triple (St i r L s) (authorize_cancel review)
    (fun digest w => digest <> ""%string /\ St i r (fun log => L log /\ EvAuthorize review (Ok digest) ∈ log) s w).
Proof.
  intros HL w Hw. unfold authorize_cancel. cbn. destruct (OwnerAuthorize (w_log w) review) as [d|m] eqn:E.
  - case_bool_decide; [apply inv_quiet; eauto using St_inv|]. split; [done|].
    apply (St_quiet _ _ _ L); [done| |done]. intros H1. split; [by apply HL|by left].
  - apply inv_quiet; [done|]. eauto using St_inv.
Qed.

(** A finalized observation settles the broadcasts of its intent. *)
Definition settled_by (i : string) (answer : result State) (log : list event) : Prop :=
  forall st kind, answer = Ok st -> settles st = true -> unresolved kind i log = false.

Lemma triple_finality i r L s :
  stable L -> triple (St i r L s) (finality r)
    (fun answer => St i r (fun log => L log /\ settled_by i answer log) s).
Proof.
  intros HL w Hw. unfold finality. cbn.
  apply (St_quiet _ _ _ L); [done| |done]. intros H1. split; [by apply HL|].
  destruct Hw as (Hi & Hr & _). rewrite (inv_intent i r w Hi Hr).
  intros st kind -> Hs. by apply unresolved_settled.
Qed.

Lemma stable_and L L' : stable L -> stable L' -> stable (fun log => L log /\ L' log).
Proof. intros H H' ev log He [H1 H2]. split; auto. Qed.

Lemma stable_elem ev : stable (fun log => ev ∈ log).
Proof. intros ev' log _ H. by right. Qed.

Lemma stable_settled i answer : stable (settled_by i answer).
Proof.
  intros ev log He H st kind Ha Hs. destruct (unresolved kind i (ev :: log)) eqn:E; [|done].
  apply unresolved_quiet in E; [|done]. by rewrite (H st kind Ha Hs) in E.
Qed.

(** The update of a record: what is returned is in memory and on disk. *)
Lemma triple_update i f r L s :
  stable L ->
  (forall now r' log, L log -> core_ok log i r -> f now r = Ok r' -> good_update log i r r') ->
  triple (St i r L s) (update i f) (fun r' w => (exists now, f now r = Ok r') /\ St i r' L true w).
Proof.
  intros HL Hf w (Hinv & Hr & HLw & _). unfold update.
  destruct (Update _ _ _ _) as [j' res] eqn:E. cbn.
  pose proof (inv_core _ _ _ Hinv Hr) as Hc. pose proof (inv_intent _ _ _ Hinv Hr) as Hid.
  destruct Hinv as [Hw Hev].
  destruct (Update_cases _ _ _ _ _ _ E) as [[-> He]|(r1 & r' & Hr1 & Ha & Hi & Hro & Hcr & Hup & Hv & Hp)].
  - destruct res; [done|]. apply (inv_quiet EvJournal w); [done|by split].
  - unfold mem in Hr. rewrite Hr in Hr1. injection Hr1 as <-.
    destruct (Hf _ _ _ HLw Hc Ha) as [Hc' Hch Hke].
    assert (lifecycle r r') as Hlc by by split.
    destruct (gift_publish_ok _ _ _ _ _ _ Hw (map_ok_insert _ _ _ _ _ (wo_mem _ Hw) Hr Hv ltac:(congruence) Hc' Hlc)
      (linked_insert _ _ _ _ Hr Hlc Hke) Hp) as (Hw' & Hev' & Hok).
    assert (inv {| w_journal := j'; w_log := EvJournal :: w_log w |}) as Hinv'
      by (split; [done|by etransitivity]).
    destruct res as [x|]; [|done]. destruct (Hok x eq_refl) as (-> & Hm & Hs).
    split; [eauto|]. split_and!; [done| |by apply HL|done]. rewrite Hm. unfold mem. by rewrite lookup_insert_eq.
Qed.

(** An effect whose announcement is on disk. *)
Lemma inv_effect w i k c :
  inv w -> event_ok (w_log w) (EvEffect (gj_file (w_journal w)) i k c) ->
  (broadcasts k = true -> in_sync w /\ exists r, mem w !! i = Some r /\ Some (g_PendingEffect r) = pending_of k) ->
  inv (logged w (EvEffect (gj_file (w_journal w)) i k c)).
Proof.
  intros [[Hm (fm & Hf & Hfm & Hl) Hlog] Hev] He Hb. split; [|done].
  assert (forall m, map_ok (w_log w) m ->
    (broadcasts k = true -> exists r, m !! i = Some r /\ Some (g_PendingEffect r) = pending_of k) ->
    map_ok (EvEffect (gj_file (w_journal w)) i k c :: w_log w) m) as Hmap.
  { intros m [H1 H2 H3 H4 H5] Hbm. split; try done.
    - intros j x Hx. apply core_ok_effect; [by apply H3|]. intros Hk <-.
      destruct (Hbm Hk) as (x' & Hx' & Hp). congruence.
    - intros j kind Hj Hk. destruct (unresolved kind j _) eqn:E; [|done].
      apply unresolved_effect in E as [[-> ->]|E]; [|by rewrite H4 in E].
      destruct (Hbm Hk) as (x' & Hx' & _). congruence. }
  split; cbn.
  - apply Hmap; [done|]. intros Hk. by destruct (Hb Hk) as [_ ?].
  - destruct (broadcasts k) eqn:Ek.
    + destruct (Hb eq_refl) as [Hs Hr]. exists (mem w). split_and!; [exact Hs|by apply Hmap|apply linked_refl].
    + exists fm. split_and!; [done|by apply Hmap|done].
  - by split.
Qed.

Lemma triple_perform_sync i k r (L : list event -> Prop) :
  (forall p, pending_of k = Some p -> g_PendingEffect r = p) ->
  (broadcasts k = true -> Some (g_PendingEffect r) = pending_of k) ->
  (forall log, L log -> core_ok log i r -> gate log i r k) ->
  triple (St i r L true) (perform i k (announced i r k)) (fun _ => St i r Any true).
Proof.
  intros Hp Hb Hg w (Hinv & Hr & HLw & Hs). specialize (Hs eq_refl).
  assert (inv (logged w (EvEffect (gj_file (w_journal w)) i k (announced i r k)))) as Hinv'.
  { apply inv_effect; [done| |eauto]. cbn. destruct (Hinv) as [[Hm _ _] _].
    exists (mem w), r. split_and!; [rewrite Hs; intros e; by eapply map_ok_load|done|by apply (mo_valid _ _ Hm i r)|done|done|].
    apply Hg; [done|]. by apply inv_core. }
  unfold perform. cbn. destruct (match announced i r k with SendDirect _ _ _ _ => _ | _ => _ end); [|done].
  split_and!; done.
Qed.

(** The two kinds that are also retried without a fresh write. *)
Lemma triple_perform_linked i k r L s :
  (k = SendAddressResponse /\ g_PendingEffect r = EffectSendAddressResponse) \/
  (k = PrepareCancellation /\ g_PendingEffect r = EffectPrepareCancel) ->
  triple (St i r L s) (perform i k (announced i r k)) (fun _ => St i r Any s).
Proof.
  intros Hk w (Hinv & Hr & HLw & Hs).
  assert (inv (logged w (EvEffect (gj_file (w_journal w)) i k (announced i r k)))) as Hinv'.
  { apply inv_effect; [done| |by destruct Hk as [[-> _]|[-> _]]].
    pose proof (inv_core _ _ _ Hinv Hr) as Hc. destruct (Hinv) as [[Hm (fm & Hf & Hfm & _ & Hl) _] _].
    assert (live r = true) as Hlive.
    { unfold live. destruct (terminalState (g_State r)) eqn:E; [|done].
      apply (co_terminal _ _ _ Hc) in E. rewrite E in Hk. by destruct Hk as [[_ ?]|[_ ?]]. }
    destruct (Hl i r Hr Hlive) as (r' & Hr' & [Hk1 Hk2] & _).
    exists fm, r'. split_and!; [rewrite Hf; intros e; by eapply map_ok_load|done|by apply (mo_valid _ _ Hfm i r')| | |].
    - destruct Hk as [[-> Hp]|[-> Hp]]; symmetry; [by apply Hk1|by apply Hk2].
    - by destruct Hk as [[-> Hp]|[-> Hp]].
    - destruct Hk as [[-> Hp]|[-> Hp]]; [done|]. cbn. destruct (Hk2 Hp) as [Ha ->].
      cbn in Ha. injection Ha as _ -> _ _ _ _. by apply (co_cancel _ _ _ Hc). }
  unfold perform. cbn. destruct (match announced i r k with SendDirect _ _ _ _ => _ | _ => _ end); [|done].
  split_and!; done.
Qed.

(** Admission: what is created is in memory and on disk. *)
Lemma triple_create record :
  fresh record = true ->
  triple (fun w => inv w /\ (gj_lock (w_journal w) = true -> room record (mem w)))
    (create record) (fun r w => r = record /\ St (g_IntentID record) record Any true w).
Proof.
  intros Hf w [[Hw Hev] Hroom]. unfold create.
  destruct (Create _ _ _) as [j' res] eqn:E. cbn.
  destruct (Create_cases _ _ _ _ _ E) as [[-> He]|(Hlock & Hi & Hv & kept & Hp & Hk)].
  - destruct res; [done|]. apply (inv_quiet EvJournal w); [done|by split].
  - destruct (create_ok (w_log w) _ _ _ (wo_mem _ Hw) Hi Hv Hf (Hroom Hlock) Hk) as [Hu Hl].
    destruct (gift_publish_ok _ _ _ _ _ _ Hw Hu Hl Hp) as (Hw' & Hev' & Hok).
    assert (inv {| w_journal := j'; w_log := EvJournal :: w_log w |}) as Hinv'
      by (split; [done|by etransitivity]).
    destruct res as [x|]; [|done]. destruct (Hok x eq_refl) as (-> & Hm & Hs).
    split; [done|]. split_and!; [done| |done|done]. rewrite Hm. by rewrite lookup_insert_eq.
Qed.

Lemma triple_list_records :
  triple inv list_records (fun records w => inv w /\ records = List (w_journal w)).
Proof. by intros w Hw. Qed.

End triples.

#[export] Hint Resolve stable_Any stable_and stable_elem stable_settled clock_asks inspect_asks verify_asks
  resolve_asks : gift.

(** ** The operations keep the invariant *)

Ltac step := eapply triple_bind.
Ltac easy_side := first [done | by intros [|] | idtac].

(** Updates before the transfer is signed. *)
Ltac early Hs :=
  intros ? ? ? ? Hc [= <-]; eapply good_uncommitted; [exact Hc|by rewrite Hs|easy_side..].

Section operations.
Context `{SHA : Sha256} `{ENV : Environment} (m0 : gmap string GiftRecord).

(** The end of an operation. *)
Lemma triple_update_last i f r L s :
  stable L ->
  (forall now r' log, L log -> core_ok log i r -> f now r = Ok r' -> good_update log i r r') ->
  triple m0 (St m0 i r L s) (update i f) (fun _ => inv m0).
Proof.
  intros HL Hf. eapply triple_weaken; [done| |by apply triple_update].
  intros r' w [_ H]. by eapply St_inv.
Qed.

Lemma triple_done i r L s (a : GiftRecord) : triple m0 (St m0 i r L s) (ret a) (fun _ => inv m0).
Proof. apply triple_ret. intros w. apply St_inv. Qed.

(** What the record shows of the log may be carried along. *)
Lemma triple_fact {A} i r (L L' : list event -> Prop) s (c : M A) Q :
  (forall log, core_ok log i r -> L log -> L' log) ->
  triple m0 (St m0 i r L' s) c Q -> triple m0 (St m0 i r L s) c Q.
Proof.
  intros HL Hc w (H1 & H2 & H3 & H4). apply Hc. split_and!; [done|done| |done].
  apply HL; [|done]. by eapply inv_core.
Qed.

Lemma triple_unsync {A} i r L s (c : M A) Q :
  triple m0 (St m0 i r L false) c Q -> triple m0 (St m0 i r L s) c Q.
Proof. intros Hc w (H1 & H2 & H3 & H4). apply Hc. by split_and!. Qed.

(** *** The sender *)

Lemma RequestAddress_ok i : triple m0 (inv m0) (RequestAddress i) (fun _ => inv m0).
Proof.
  unfold RequestAddress. step; [apply triple_get|]. intros [r|]; [|by apply triple_raise].
  apply triple_guard; [apply St_inv|]. intros Hg.
  assert (committed (g_State r) = false) as Hs by (destruct (g_State r); bprop; naive_solver).
  step; [apply triple_asks; eauto with gift|]. intros now. cbn beta.
  apply triple_guard; [apply St_inv|]. intros _.
  step; [apply triple_update; [eauto with gift|early Hs]|].
  intros r1. apply triple_pure. intros [now1 [= <-]].
  step; [apply (triple_perform_sync m0 i SendAddressRequest); [by intros p [= <-]|done|done]|].
  intros ev. apply triple_update_last; [eauto with gift|].
  intros ? ? ? ? ? [= <-]. apply good_uncommitted; easy_side.
Qed.

Lemma ResumeSenderDraft_ok i : triple m0 (inv m0) (ResumeSenderDraft i) (fun _ => inv m0).
Proof.
  unfold ResumeSenderDraft. apply triple_guard; [done|]. intros _.
  step; [apply triple_get|]. intros [r|]; [|by apply triple_raise].
  apply triple_guard; [apply St_inv|]. intros Hg.
  assert (committed (g_State r) = false) as Hs by (destruct (g_State r); bprop; naive_solver).
  apply triple_guard; [apply St_inv|]. intros _.
  step; [apply triple_asks; eauto with gift|]. intros answer. cbn beta.
  apply triple_guard; [apply St_inv|]. intros _.
  clear Hg. destruct (bool_decide (g_State r = _)); [apply triple_done|].
  step; [apply triple_asks; eauto with gift|]. intros now. cbn beta.
  apply triple_guard; [apply St_inv|]. intros _.
  apply triple_update_last; [eauto with gift|]. intros now' r' log HL Hc. destruct (_ || _); [done|].
  revert now' r' log HL Hc. early Hs. exact (uncommitted_mild _ _ _ Hc Hs).
Qed.

Lemma ObserveAddressResponse_ok i canonical :
  triple m0 (inv m0) (ObserveAddressResponse i canonical) (fun _ => inv m0).
Proof.
  unfold ObserveAddressResponse. step; [apply triple_get|]. intros [r|]; [|by apply triple_raise].
  destruct (_ && _); [apply triple_guard; [apply St_inv|]; intros _; apply triple_done|].
  apply triple_guard; [apply St_inv|]. intros Hg.
  rewrite !andb_true_iff, !bool_decide_eq_true in Hg. destruct Hg as [[_ Hs] Hp].
  step; [apply triple_query; eauto with gift|]. intros terms. cbn beta.
  apply triple_update_last; [eauto with gift|]. early Hs; cbn; by rewrite Hp.
Qed.

Lemma prepare_review_ok i r :
  g_State r = StateAddressReceived \/ g_State r = StateOwnerAuthorizationRequired ->
  triple m0 (St m0 i r Any false) (prepare_review i r)
    (fun r' w => g_State r' = StateOwnerAuthorizationRequired /\ St m0 i r' Any false w).
Proof.
  intros Hs. unfold prepare_review. case_bool_decide as Ha.
  - step; [apply triple_query; eauto with gift|]. intros prepared. cbn beta.
    apply triple_guard; [apply St_inv|]. intros Hg.
    eapply triple_weaken; [done| |apply triple_update; [eauto with gift|]].
    + cbn. intros r' w [[now [= <-]] (H1 & H2 & H3 & H4)]. by split_and!.
    + early Ha; [by apply (uncommitted_mild _ _ _ Hc); rewrite Ha|]. intros _. cbn.
      unfold review_binds in Hg. rewrite !andb_true_iff, !negb_true_iff in Hg.
      destruct Hg as [[[[[[[[_ H1] H2] H3] _] _] _] _] _]. apply N.eqb_neq in H1. apply N.leb_le in H2, H3. lia.
  - apply triple_ret. intros w Hw. destruct Hs; [done|by split].
Qed.

Lemma Authorize_ok i : triple m0 (inv m0) (Authorize i) (fun _ => inv m0).
Proof.
  unfold Authorize. step; [apply triple_get|]. intros [r|]; [|by apply triple_raise].
  destruct (_ && _); [apply triple_done|].
  apply triple_guard; [apply St_inv|]. intros Hg. rewrite andb_true_iff, orb_true_iff, !bool_decide_eq_true in Hg.
  step; [apply prepare_review_ok, Hg|]. intros r1. apply triple_pure. intros Hs.
  step; [apply triple_authorize; eauto with gift|]. intros digest. cbn beta.
  apply triple_guard; [apply St_inv|]. intros Hd. apply negb_true_iff, bool_decide_eq_false in Hd.
  apply triple_update_last; [eauto with gift|]. intros now r' log [_ HL] Hc.
  revert now r'. intros now r' [= <-]. apply good_uncommitted; easy_side; try by rewrite Hs.
  - by apply (uncommitted_mild _ _ _ Hc); rewrite Hs.
  - intros _. apply (co_terms _ _ _ Hc). by left.
Qed.

Lemma Sign_ok i greeting : triple m0 (inv m0) (Sign i greeting) (fun _ => inv m0).
Proof.
  unfold Sign. step; [apply triple_get|]. intros [r|]; [|by apply triple_raise].
  destruct (_ && _); [apply triple_guard; [apply St_inv|]; intros _; apply triple_done|].
  apply triple_guard; [apply St_inv|]. intros Hg. apply andb_true_iff in Hg as [_ Hs%bool_decide_eq_true].
  apply triple_guard; [apply St_inv|]. intros _.
  step; [apply triple_update; [eauto with gift|early Hs]|].
  - cbn. by rewrite Hs.
  - intros _. by apply (co_authorized _ _ _ Hc).
  - intros _. apply (co_terms _ _ _ Hc). by right.
  - intros r1. apply triple_pure. intros [now1 [= <-]].
    step; [apply (triple_perform_sync m0 i SignGift); [by intros p [= <-]|done|]|].
    + intros log _ Hc. destruct (co_authorized _ _ _ Hc Hs). split_and!; [done|done|..];
        apply (co_terms _ _ _ Hc); by right.
    + intros boc. cbn beta. step; [apply triple_query; eauto with gift|]. intros [offer signedID]. cbn beta.
      step; [apply triple_asks; eauto with gift|]. intros [terms|m]; [|apply triple_raise, St_inv]. cbn beta.
      apply triple_guard; [apply St_inv|]. intros _.
      apply triple_update_last; [eauto with gift|].
      intros ? ? ? ? ? [= <-]. apply good_uncommitted; easy_side. by cbn; rewrite Hs.
Qed.

Lemma DeliverOffer_ok i : triple m0 (inv m0) (DeliverOffer i) (fun _ => inv m0).
Proof.
  unfold DeliverOffer. step; [apply triple_get|]. intros [r|]; [|by apply triple_raise].
  destruct (_ && _); [apply triple_done|].
  apply triple_guard; [apply St_inv|]. intros Hg.
  rewrite !andb_true_iff, orb_true_iff, !bool_decide_eq_true in Hg. destruct Hg as [[_ Hs] Hp].
  step; [apply triple_update; [eauto with gift|]|].
  - intros ? ? ? ? ? [= <-]. apply good_idle; easy_side; try (cbn; rewrite Hs); try done.
    + unfold waits. rewrite Hs. by destruct Hp as [->| ->].
    + split; [done|by rewrite Hs|by cbn; rewrite Hs].
    + by intros [|].
  - intros r1. apply triple_pure. intros [now1 [= <-]].
    step; [apply (triple_perform_sync m0 i SendOffer); [by intros p [= <-]|done|done]|].
    intros ev. apply triple_update_last; [eauto with gift|].
    intros ? ? ? ? ? [= <-]. apply good_idle; easy_side.
    + unfold waits. cbn. by rewrite Hs.
    + split; [done|by cbn; rewrite Hs|by cbn; rewrite Hs].
Qed.

Lemma count_ext P Q m : (forall r, P r = Q r) -> count P m = count Q m.
Proof. intros H. unfold count. do 2 f_equal. apply map_filter_ext. intros i r _. cbn. by rewrite H. Qed.

Lemma count_mono P Q m : (forall r, P r = true -> Q r = true) -> count P m <= count Q m.
Proof.
  intros H. unfold count.
  assert (size (filter (fun kv => P kv.2 = true) m) <= size (filter (fun kv => Q kv.2 = true) m))%nat; [|lia].
  apply size_le_dom. intros k. rewrite !elem_of_dom_filter. naive_solver.
Qed.

(** The admission checks leave room. *)
Lemma room_live w record :
  activeGiftCount (List (w_journal w)) "" < maxActiveGiftRecords ->
  (g_Role record = RoleRecipient ->
     activeGiftCount (List (w_journal w)) (g_SenderAgentID record) < maxActiveGiftsPerPeer) ->
  gj_lock (w_journal w) = true -> room record (mem w).
Proof.
  intros H1 H2 Hl. rewrite activeGiftCount_count in H1 by done. split.
  - rewrite (count_ext live (fun r => negb (terminalState (g_State r)
      || (negb (bool_decide (""%string = ""%string)) && negb (bool_decide (g_SenderAgentID r = ""%string)))))); [done|].
    intros r. rewrite bool_decide_true by done. cbn. by rewrite orb_false_r.
  - intros Hr. specialize (H2 Hr). rewrite activeGiftCount_count in H2 by done.
    eapply N.le_lt_trans; [|exact H2]. apply count_mono. intros r. unfold inbound, live.
    rewrite !andb_true_iff, !negb_true_iff, !bool_decide_eq_true. intros [[-> _] ->].
    rewrite (bool_decide_true (g_SenderAgentID record = g_SenderAgentID record)) by done. by rewrite andb_false_r.
Qed.

Lemma newIntentID_ok : triple m0 (inv m0) newIntentID (fun _ => inv m0).
Proof. intros w Hw. unfold newIntentID. cbn. destruct (env_random _ _); by apply inv_quiet. Qed.

Lemma StartSender_ok proposal network globalID senderAgentID :
  triple m0 (inv m0) (StartSender proposal network globalID senderAgentID) (fun _ => inv m0).
Proof.
  unfold StartSender. step; [apply triple_asks_inv; eauto with gift|]. intros now. cbn beta.
  apply triple_guard; [done|]. intros _.
  step; [apply triple_query_inv|]. intros recipient. cbn beta.
  step; [apply triple_query_inv|]. intros account. cbn beta.
  step; [apply newIntentID_ok|]. intros intentID. cbn beta zeta.
  step; [apply triple_query_inv|]. intros [canonical digest]. cbn beta.
  step; [apply triple_list_records|]. intros records. cbn beta.
  apply triple_guard; [by intros w [? _]|]. intros Hg. apply N.ltb_lt in Hg.
  step; [eapply triple_weaken; [|done|apply triple_create; done]|].
  - intros w [Hw ->]. split; [done|]. by apply room_live.
  - intros r. apply triple_pure. intros _.
    apply triple_update_last; [eauto with gift|].
    intros ? ? ? ? Hc [= <-]. apply good_uncommitted; easy_side.
Qed.

(** *** The recipient *)

Lemma ObserveRecipientRequest_ok canonical localAgentID sender :
  triple m0 (inv m0) (ObserveRecipientRequest canonical localAgentID sender) (fun _ => inv m0).
Proof.
  unfold ObserveRecipientRequest. step; [apply triple_query_inv|]. intros [intent digest]. cbn beta.
  apply triple_guard; [done|]. intros Hg. apply andb_true_iff in Hg as [_ Hg%bool_decide_eq_true].
  step; [apply triple_asks_inv; eauto with gift|]. intros now. cbn beta.
  step; [apply triple_get|]. intros [r|]; cbn beta.
  { apply triple_guard; [apply St_inv|]. intros _. apply triple_done. }
  step; [apply triple_list_records|]. intros records. cbn beta.
  apply triple_guard; [by intros w [? _]|]. intros Hc. apply andb_true_iff in Hc as [H1%N.ltb_lt H2%N.ltb_lt].
  eapply triple_weaken; [| |apply triple_create; done].
  - intros w [Hw ->]. split; [done|]. apply room_live; [done|]. intros _. cbn. by rewrite Hg.
  - intros r w [_ H]. by eapply St_inv.
Qed.

Lemma prepare_response_ok i r notAfter :
  g_State r = StateAddressRequestObserved ->
  g_PendingEffect r = EffectNone \/ g_PendingEffect r = EffectSendAddressResponse ->
  triple m0 (St m0 i r Any false) (prepare_response i r notAfter)
    (fun r' w => (g_State r' = StateAddressRequestObserved /\ g_PendingEffect r' = EffectSendAddressResponse) /\
                 St m0 i r' Any false w).
Proof.
  intros Hs Hp. unfold prepare_response. case_bool_decide as Hn.
  - step; [apply triple_query; eauto with gift|]. intros destination. cbn beta.
    step; [apply triple_query; eauto with gift|]. intros [canonical terms]. cbn beta.
    eapply triple_weaken; [done| |apply triple_update; [eauto with gift|]].
    + cbn. intros r' w [[now [= <-]] (H1 & H2 & H3 & H4)]. by split_and!.
    + early Hs; cbn; rewrite ?Hn, ?Hs; easy_side.
  - apply triple_guard; [apply St_inv|]. intros _.
    apply triple_ret. intros w Hw. destruct Hp; [done|by split].
Qed.

Lemma RespondAddress_ok i notAfter : triple m0 (inv m0) (RespondAddress i notAfter) (fun _ => inv m0).
Proof.
  unfold RespondAddress. step; [apply triple_get|]. intros [r|]; [|by apply triple_raise].
  apply triple_guard; [apply St_inv|]. intros Hg.
  rewrite !andb_true_iff, orb_true_iff, !bool_decide_eq_true in Hg. destruct Hg as [[_ Hs] Hp].
  step; [by apply prepare_response_ok|]. intros r1. apply triple_pure. intros [Hs1 Hp1].
  step; [apply (triple_perform_linked m0 i SendAddressResponse); by left|]. intros ev. cbn beta.
  apply triple_update_last; [eauto with gift|]. early Hs1.
Qed.

Lemma slen_nonempty v : negb (slen v =? 0) = true -> v <> ""%string.
Proof. by intros H ->. Qed.

(** The states in which an offer may be broadcast, with nothing outstanding. *)
Definition ready (r : GiftRecord) : Prop :=
  g_Role r = RoleRecipient /\ offer_state (g_State r) = true /\ g_PendingEffect r <> EffectBroadcast.

Lemma ready_idle log i r : core_ok log i r -> ready r -> waits r = false /\ mild (g_PendingEffect r) = true.
Proof.
  intros Hc (Hr & Hs & Hp).
  assert (mild (g_PendingEffect r) = true) as Hm.
  { destruct (g_PendingEffect r) eqn:E; try done.
    - destruct (co_cancel_state _ _ _ Hc (or_introl E)); congruence.
    - destruct (co_cancel_state _ _ _ Hc (or_intror E)); congruence. }
  split; [|done]. unfold waits. rewrite Hm. cbn. by destruct (g_State r).
Qed.

Lemma stable_unresolved kind i : stable (fun log => unresolved kind i log = false).
Proof.
  intros ev log He H. destruct (unresolved kind i (ev :: log)) eqn:E; [|done].
  apply unresolved_quiet in E; [congruence|done].
Qed.

(** An update of a record ready for broadcast that leaves state and effect alone. *)
Lemma good_ready log i r r' :
  core_ok log i r -> ready r -> g_State r' = g_State r -> g_PendingEffect r' = g_PendingEffect r ->
  identity_of r' = identity_of r -> terms_of r' = terms_of r ->
  announced i r' SendAddressResponse = announced i r SendAddressResponse -> good_update log i r r'.
Proof.
  intros Hc Hr Hs Hp Hid Ht Ha. destruct (ready_idle _ _ _ Hc Hr) as [Hw Hm]. destruct Hr as (_ & Ho & _).
  apply good_idle; try done; rewrite ?Hp, ?Hs; try done.
  - split; [done| |by rewrite Hs]. intros H. by destruct (g_State r).
  - split; [done|]. intros H. by rewrite H in Hm.
  - by destruct (g_State r).
  - intros H. by rewrite H in Ho.
  - intros [H|H]; by rewrite H in Ho.
Qed.

Lemma roll_back_ok i digest r err :
  ready r -> triple m0 (St m0 i r Any false) (roll_back i digest r err) (fun _ => inv m0).
Proof.
  intros Hr. unfold roll_back. case_bool_decide as Hs; [|apply triple_raise, St_inv].
  step; [apply triple_update; [eauto with gift|]|].
  - intros now r' log _ Hc. destruct (_ && _); intros [= <-]; [|by apply good_ready].
    apply good_uncommitted; easy_side; [by rewrite Hs|]. exact (proj2 (ready_idle _ _ _ Hc Hr)).
  - intros r'. apply triple_pure. intros _. apply triple_raise, St_inv.
Qed.

Lemma set_broadcast_good log i r now :
  core_ok log i r -> ready r -> g_State r = StateVerified \/ g_State r = StateCurrentlyExecutable ->
  good_update log i r (stamp now (set_RetryNotBeforeUnix 0
    (set_BroadcastAttempts (u32 (g_BroadcastAttempts r + 1)) (set_PendingEffect EffectBroadcast r)))).
Proof.
  intros Hc Hr Hs. destruct (ready_idle _ _ _ Hc Hr) as [Hw Hm]. split.
  - split; cbn; try done; [by destruct Hs as [->| ->]|by destruct Hs as [->| ->]; intros [|]|by intros [|]| | |by auto|].
    + destruct Hs; auto.
    + by destruct Hs as [->| ->].
    + intros H. by rewrite (idle_settled _ _ _ _ Hc Hw) in H.
  - split; [done|by destruct Hs as [->| ->]|by cbn; destruct Hs as [->| ->]].
  - split; [done|]. intros H. by rewrite H in Hm.
Qed.

Lemma submitted_good log i r now now' :
  core_ok log i r -> g_PendingEffect r = EffectBroadcast -> g_State r = StateVerified \/ g_State r = StateCurrentlyExecutable ->
  good_update log i r (stamp now (set_RetryNotBeforeUnix now' (set_PendingEffect EffectNone (set_State StateBroadcastSubmitted r)))).
Proof.
  intros Hc Hp Hs. split.
  - split; cbn; try done; [by intros [|]|by intros [|]|by auto|].
    intros H. pose proof (co_cancelled _ _ _ Hc H). congruence.
  - split; [done|by destruct Hs as [->| ->]|by cbn; destruct Hs as [->| ->]].
  - split; [done|]. congruence.
Qed.

(** From a verified offer on. *)
Lemma submit_ok i r boc :
  ready r -> g_State r = StateVerified \/ g_State r = StateCurrentlyExecutable ->
  negb (slen boc =? 0) = true ->
  triple m0 (St m0 i r Any false)
    (do _ <- update i (fun now v => Ok (stamp (now 0%nat) (set_ExactSignedBOC boc v)));
     do record <- update i (fun now v =>
       Ok (stamp (now 0%nat) (set_RetryNotBeforeUnix 0
          (set_BroadcastAttempts (u32 (g_BroadcastAttempts v + 1)) (set_PendingEffect EffectBroadcast v)))));
     do _ <- perform i BroadcastGift (BroadcastBOC (g_ExactSignedBOC record));
     update i (fun now v =>
       Ok (stamp (now 1%nat) (set_RetryNotBeforeUnix
          (Unix (time_Add (now 0%nat) (broadcastRetryDelay (g_BroadcastAttempts v))))
          (set_PendingEffect EffectNone (set_State StateBroadcastSubmitted v))))))
    (fun _ => inv m0).
Proof.
  intros Hr Hs Hb.
  step; [apply triple_update; [eauto with gift|]|].
  { intros ? ? ? ? Hc [= <-]. by apply good_ready. }
  intros r1. apply triple_pure. intros [now1 [= <-]].
  set (r1 := stamp _ _). assert (ready r1) as Hr1 by done.
  eapply triple_fact with (L' := fun log => unresolved BroadcastGift i log = false).
  { intros log Hc _. eapply idle_settled; [exact Hc|by apply (ready_idle log i)|done]. }
  step; [apply triple_update; [apply stable_unresolved|]|].
  { intros ? ? ? ? Hc [= <-]. exact (set_broadcast_good _ _ r1 _ Hc Hr1 Hs). }
  intros r2. apply triple_pure. intros [now2 [= <-]].
  step; [apply (triple_perform_sync m0 i BroadcastGift); [by intros p [= <-]|done|]|].
  { intros log HL Hc. split; [by apply slen_nonempty|done]. }
  intros ev. cbn beta. apply triple_update_last; [eauto with gift|].
  intros ? ? ? ? Hc [= <-]. by apply submitted_good.
Qed.

Lemma broadcast_verified_ok i r terms :
  ready r -> triple m0 (St m0 i r Any false) (broadcast_verified i r terms) (fun _ => inv m0).
Proof.
  intros Hr. unfold broadcast_verified.
  step; [instantiate (1 := fun r' w => (ready r' /\ (g_State r' = StateVerified \/ g_State r' = StateCurrentlyExecutable)) /\
                                       St m0 i r' Any false w)|].
  - case_bool_decide as Hs.
    + eapply triple_weaken; [done| |apply triple_update; [eauto with gift|]].
      * cbn. intros r' w [[now [= <-]] (H1 & H2 & H3 & H4)]. split_and!; try done; [|by left|..].
        destruct Hr as (? & _ & ?). split_and!; done.
      * intros ? ? ? ? Hc [= <-]. apply good_uncommitted; easy_side; [by rewrite Hs|].
        exact (proj2 (ready_idle _ _ _ Hc Hr)).
    + apply triple_ret. intros w Hw. split_and!; [done| |done..].
      destruct Hr as (_ & Ho & _). unfold offer_state in Ho. rewrite !orb_true_iff, !bool_decide_eq_true in Ho. naive_solver.
  - intros r1. apply triple_pure. intros [Hr1 Hs1].
    apply triple_guard; [apply St_inv|]. intros Hb. by apply submit_ok.
Qed.

Lemma observe_offer_ok i offer digest r :
  g_Role r = RoleRecipient -> g_State r = StateAddressResponseSent \/ offer_state (g_State r) = true ->
  g_PendingEffect r <> EffectBroadcast ->
  triple m0 (St m0 i r Any false) (observe_offer i offer digest r) (fun r' w => ready r' /\ St m0 i r' Any false w).
Proof.
  intros Hr Hs Hp. unfold observe_offer. case_bool_decide as Ha.
  - eapply triple_weaken; [done| |apply triple_update; [eauto with gift|]].
    + cbn. intros r' w [[now [= <-]] (H1 & H2 & H3 & H4)]. by split_and!.
    + early Ha. apply (uncommitted_mild _ _ _ Hc). by rewrite Ha.
  - apply triple_ret. intros w Hw. destruct Hs; [done|]. by split_and!.
Qed.

Lemma ObserveAndBroadcastOffer_ok i offer : triple m0 (inv m0) (ObserveAndBroadcastOffer i offer) (fun _ => inv m0).
Proof.
  unfold ObserveAndBroadcastOffer. step; [apply triple_get|]. intros [r|]; [|by apply triple_raise].
  cbn zeta. apply triple_guard; [apply St_inv|]. intros _.
  destruct (_ && _ && _); [apply triple_done|].
  apply triple_guard; [apply St_inv|]. intros Hp. apply negb_true_iff, bool_decide_eq_false in Hp.
  step; [apply triple_asks; eauto with gift|]. intros now. cbn beta.
  apply triple_guard; [apply St_inv|]. intros _.
  apply triple_guard; [apply St_inv|]. intros Hg.
  rewrite andb_true_iff, orb_true_iff, !bool_decide_eq_true in Hg. destruct Hg as [Hr Hs].
  apply triple_guard; [apply St_inv|]. intros _.
  step; [by apply observe_offer_ok|]. intros r1. apply triple_pure. intros Hr1.
  step; [apply triple_asks; eauto with gift|]. intros [terms|err]; cbn beta.
  - by apply broadcast_verified_ok.
  - by apply roll_back_ok.
Qed.

(** *** Both sides *)

Lemma refreshable_committed r :
  refreshableRecordState r = true -> committed (g_State r) = true /\ terminalState (g_State r) = false.
Proof. unfold refreshableRecordState. case_bool_decide; by destruct (g_State r). Qed.

Lemma unknown_good log i r now :
  core_ok log i r -> refreshableRecordState r = true ->
  good_update log i r (stamp now (set_State StateFinalityUnknown r)).
Proof.
  intros Hc [Hcm Ht]%refreshable_committed. split.
  - split; cbn; try done; [by intros [|]|apply Hc| |by auto|by auto|apply Hc].
    intros H. split; [|done]. by apply (co_cancel_state _ _ _ Hc).
  - split; [done|congruence|done].
  - done.
Qed.

Lemma unconsumed_cancellable st : unconsumed st = true -> cancellable st = true /\ committed st = true /\ terminalState st = false.
Proof. by destruct st. Qed.

Lemma refreshed_good log i r st now :
  core_ok log i r -> refreshableRecordState r = true -> reported st = true -> settled_by i (Ok st) log ->
  good_update log i r (refreshed st now r).
Proof.
  intros Hc Hr Hst Hset. pose proof (refreshable_committed r Hr) as [Hcm Ht].
  unfold refreshed. destruct (terminalState st) eqn:Est.
  { assert (forall kind, unresolved kind i log = false) as Hu by (intros k; apply (Hset st); [done|]; unfold settles; by rewrite Est).
    split; [split|split|]; cbn; rewrite ?Hu; try done; try congruence; try by intros [|].
    - intros ->. done.
    - intros [-> | ->]; done.
    - intros _. by destruct st. }
  destruct (unconsumed st) eqn:Eu.
  - destruct (unconsumed_cancellable _ Eu) as (Hca & Hco & _).
    assert (forall kind, unresolved kind i log = false) as Hu
      by (intros k; apply (Hset st); [done|]; unfold settles; by rewrite Est, Eu).
    assert (st <> StateOwnerAuthorized /\ st <> StateOwnerAuthorizationRequired) as [Hn1 Hn2] by by destruct st.
    cbn [andb]. destruct (bool_decide _ || bool_decide _) eqn:Ep.
    + split; [split|split|]; cbn; rewrite ?Hu; try done; try congruence; try by intros [|].
    + cbn in Ep. rewrite orb_false_iff, !bool_decide_eq_false in Ep. destruct Ep as [Ep1 Ep2].
      split; [split|split|]; cbn; rewrite ?Hu; try done; try congruence; try apply Hc; [by intros [|]|].
      intros [H|H]; [|done]. split; [|done]. apply (co_cancel_state _ _ _ Hc). by left.
  - cbn [andb]. assert (st = StateFinalityUnknown) as ->; [|by apply unknown_good].
    unfold reported in Hst. rewrite Est, Eu, orb_false_r in Hst. cbn in Hst. by apply bool_decide_eq_true in Hst.
Qed.

Lemma to_unknown_ok i r L s :
  stable L -> refreshableRecordState r = true ->
  triple m0 (St m0 i r L s) (to_unknown i) (fun _ => inv m0).
Proof.
  intros HL Hr. apply triple_update_last; [done|]. intros ? ? ? ? Hc [= <-]. by apply unknown_good.
Qed.

Lemma Refresh_ok i : triple m0 (inv m0) (Refresh i) (fun _ => inv m0).
Proof.
  unfold Refresh. step; [apply triple_get|]. intros [r|]; [|by apply triple_raise].
  apply triple_guard; [apply St_inv|]. intros Hg. apply andb_true_iff in Hg as [_ Hr].
  step; [apply triple_finality; eauto with gift|]. intros [st|m]; cbn beta; [|apply to_unknown_ok; eauto with gift].
  destruct (negb (reported st)) eqn:Hst; [apply triple_done|]. apply negb_false_iff in Hst.
  assert (triple m0 (St m0 i r (fun log => Any log /\ settled_by i (Ok st) log) false)
            (update i (fun now v => Ok (refreshed st now v))) (fun _ => inv m0)) as Hupd.
  { apply triple_update_last; [eauto with gift|]. intros ? ? ? [_ HL] Hc [= <-]. by apply refreshed_good. }
  destruct (_ && _); [|done].
  step; [apply triple_asks; eauto with gift|]. intros [u|m]; cbn beta; [done|].
  step; [apply to_unknown_ok; eauto with gift|]. intros r'. by apply triple_raise.
Qed.

(** A record that may be cancelled, with nothing outstanding. *)
Definition cancelling (r : GiftRecord) : Prop :=
  g_Role r = RoleSender /\ cancellable (g_State r) = true /\
  (g_PendingEffect r = EffectNone \/ g_PendingEffect r = EffectPrepareCancel).

Lemma cancelling_state r : cancelling r -> committed (g_State r) = true /\ terminalState (g_State r) = false.
Proof. intros (_ & Hs & _). by destruct (g_State r). Qed.

(** Updates on the way to a cancellation: only the effect, the approval, the
    cancellation and the counters change. *)
Lemma cancelling_good log i r r' :
  core_ok log i r -> cancelling r -> g_Role r' = g_Role r -> g_State r' = g_State r ->
  identity_of r' = identity_of r -> terms_of r' = terms_of r -> keeps i r r' ->
  g_PendingEffect r' = EffectPrepareCancel \/ g_PendingEffect r' = EffectCancel ->
  (g_PendingEffect r' = EffectPrepareCancel ->
     g_CancellationAuthorizationDigest r' <> ""%string /\
     EvAuthorize (cancel_review i r') (Ok (g_CancellationAuthorizationDigest r')) ∈ log) ->
  good_update log i r r'.
Proof.
  intros Hc Hcan Hro Hs Hid Ht Hk Hp Ha. pose proof (cancelling_state _ Hcan) as [Hcm Hte].
  destruct Hcan as (Hr & Hca & Hp0). split; [|split; [done|congruence|by rewrite Hs]|done].
  split; rewrite ?Hs; try done.
  - intros H. by rewrite H in Hca.
  - intros [H|H]; by rewrite H in Hca.
  - intros _. by rewrite Hro.
  - intros H. rewrite H in Hp. by destruct Hp.
  - congruence.
  - intros H. destruct (co_broadcast _ _ _ Hc H) as [H1|H1]; [|by right]. rewrite H1 in Hp0. by destruct Hp0.
  - intros H. rewrite (co_cancelled _ _ _ Hc H) in Hp0. by destruct Hp0.
Qed.

Lemma prepare_cancel_ok i r :
  cancelling r ->
  triple m0 (St m0 i r Any false) (prepare_cancel i r)
    (fun r' w => (cancelling r' /\ (g_ExactCancellationBOC r' = ""%string -> g_PendingEffect r' = EffectPrepareCancel)) /\
                 St m0 i r' Any false w).
Proof.
  intros Hcan. unfold prepare_cancel. destruct (bool_decide _ && _) eqn:E.
  - apply andb_true_iff in E as [Hp%bool_decide_eq_true _].
    step; [apply triple_authorize_cancel; eauto with gift|]. intros digest. apply triple_pure. intros Hd.
    eapply triple_weaken; [done| |apply triple_update; [eauto with gift|]].
    + cbn. intros r' w [[now [= <-]] (H1 & H2 & H3 & H4)]. destruct Hcan as (? & ? & _).
      split; [split; [|done]|by split_and!]. split_and!; [done|done|by right].
    + intros ? ? ? [_ HL] Hc [= <-]. apply cancelling_good; try done; [|by left]. split; intros H; congruence.
  - apply triple_ret. intros w Hw. split_and!; [done| |done]. intros Hb. rewrite Hb in E. cbn in E.
    rewrite andb_true_r, bool_decide_eq_false in E. by destruct Hcan as (_ & _ & [?|?]).
Qed.

Lemma sign_cancel_ok i r :
  cancelling r -> (g_ExactCancellationBOC r = ""%string -> g_PendingEffect r = EffectPrepareCancel) ->
  triple m0 (St m0 i r Any false) (sign_cancel i r)
    (fun r' w => (cancelling r' /\ g_ExactCancellationBOC r' <> ""%string) /\ St m0 i r' Any false w).
Proof.
  intros Hcan Hp. unfold sign_cancel. destruct (slen (g_ExactCancellationBOC r) =? 0) eqn:E.
  - assert (g_PendingEffect r = EffectPrepareCancel) as Hp1
      by (apply Hp; by destruct (g_ExactCancellationBOC r)).
    step; [apply (triple_perform_linked m0 i PrepareCancellation); by right|]. intros boc. cbn beta.
    apply triple_guard; [apply St_inv|]. intros Hb%slen_nonempty.
    eapply triple_weaken; [done| |apply triple_update; [eauto with gift|]].
    + cbn. intros r' w [[now [= <-]] (H1 & H2 & H3 & H4)]. by split_and!.
    + intros ? ? ? _ Hc [= <-]. apply cancelling_good; try done; [by left|]. intros _. by apply (co_cancel _ _ _ Hc).
  - apply triple_ret. intros w Hw. split_and!; try done. intros H. by rewrite H in E.
Qed.

Lemma Cancel_ok i : triple m0 (inv m0) (Cancel i) (fun _ => inv m0).
Proof.
  unfold Cancel. step; [apply triple_get|]. intros [r|]; [|by apply triple_raise].
  apply triple_guard; [apply St_inv|]. intros Hg. apply andb_true_iff in Hg as [Hro%bool_decide_eq_true Hs].
  apply triple_guard; [apply St_inv|]. intros _.
  step; [apply triple_asks; eauto with gift|]. intros now. cbn beta.
  apply triple_guard; [apply St_inv|]. intros _.
  apply triple_guard; [apply St_inv|]. intros Hp. rewrite orb_true_iff, !bool_decide_eq_true in Hp.
  step; [by apply prepare_cancel_ok|]. intros r1. apply triple_pure. intros [Hc1 Hp1].
  step; [by apply sign_cancel_ok|]. intros r2. apply triple_pure. intros [Hc2 Hb2].
  eapply triple_fact with (L' := fun log => unresolved BroadcastCancellation i log = false).
  { intros log Hc _. destruct (unresolved _ i log) eqn:E; [|done]. pose proof (co_cancelled _ _ _ Hc E) as H.
    destruct Hc2 as (_ & _ & [?|?]); congruence. }
  step; [apply triple_update; [apply stable_unresolved|]|].
  { intros ? ? ? _ Hc [= <-]. apply cancelling_good; try done. by right. }
  intros r3. apply triple_pure. intros [now3 [= <-]].
  step; [apply (triple_perform_sync m0 i BroadcastCancellation); [by intros p [= <-]|done|done]|].
  intros ev. cbn beta. apply triple_done.
Qed.

End operations.
(** ** Runs *)

Inductive op :=
| OpStartSender (proposal : ModelProposal) (network : string) (globalID : Z) (senderAgentID : string)
| OpResumeSenderDraft (intent : string)
| OpRequestAddress (intent : string)
| OpObserveAddressResponse (intent canonical : string)
| OpAuthorize (intent : string)
| OpSign (intent greeting : string)
| OpDeliverOffer (intent : string)
| OpObserveRecipientRequest (canonical localAgentID authenticatedSender : string)
| OpRespondAddress (intent : string) (responseNotAfter : N)
| OpObserveAndBroadcastOffer (intent offer : string)
| OpRefresh (intent : string)
| OpCancel (intent : string).

Section runs.
Context `{SHA : Sha256} `{ENV : Environment}.

Definition run (o : op) : M GiftRecord :=
  match o with
  | OpStartSender proposal network globalID sender => StartSender proposal network globalID sender
  | OpResumeSenderDraft i => ResumeSenderDraft i
  | OpRequestAddress i => RequestAddress i
  | OpObserveAddressResponse i canonical => ObserveAddressResponse i canonical
  | OpAuthorize i => Authorize i
  | OpSign i greeting => Sign i greeting
  | OpDeliverOffer i => DeliverOffer i
  | OpObserveRecipientRequest canonical local sender => ObserveRecipientRequest canonical local sender
  | OpRespondAddress i notAfter => RespondAddress i notAfter
  | OpObserveAndBroadcastOffer i offer => ObserveAndBroadcastOffer i offer
  | OpRefresh i => Refresh i
  | OpCancel i => Cancel i
  end.

(** A failed call or write ends an operation early, so a crash in its middle
    is such a failure followed by a restart. *)
Inductive step_world : world -> world -> Prop :=
| step_op o w : step_world w (run o w).1
| step_ask w : step_world w (logged w EvQuery)
| step_close release w :
    step_world w {| w_journal := (Close release (w_journal w)).1; w_log := w_log w |}
| step_restart e d w file j :
    OpenJournal e d (gj_file (w_journal w)) = (file, Ok j) ->
    step_world w {| w_journal := j; w_log := EvJournal :: w_log w |}.

(** A journal opened where there was none. *)
Definition started (w : world) : Prop :=
  w_log w = [] /\ exists e d file, OpenJournal e d FileAbsent = (file, Ok (w_journal w)).

Definition reachable (w : world) : Prop := exists w1, started w1 /\ rtc step_world w1 w.

Lemma OpenJournal_ok e d file file' j :
  OpenJournal e d file = (file', Ok j) ->
  gj_lock j = true /\ gj_file j = file' /\ load e file = (file', Ok (gj_records j)).
Proof.
  unfold OpenJournal. intros H. head_case H eqn E0; [by simplify_eq|]. head_case H eqn E1; [by simplify_eq|].
  head_case H as [u|m] eqn E2; [|by simplify_eq].
  destruct (load e file) as [f r] eqn:E3. destruct r as [records|m]; cbn in H; [|by simplify_eq].
  by injection H as <- <-.
Qed.

Lemma run_ok o w : world_ok w -> inv (mem w) (run o w).1.
Proof.
  intros Hw. assert (inv (mem w) w) as Hi by (split; [done|reflexivity]).
  assert (triple (mem w) (inv (mem w)) (run o) (fun _ => inv (mem w))) as Ht.
  { destruct o; cbn [run]; first [apply StartSender_ok|apply ResumeSenderDraft_ok|apply RequestAddress_ok
      |apply ObserveAddressResponse_ok|apply Authorize_ok|apply Sign_ok|apply DeliverOffer_ok
      |apply ObserveRecipientRequest_ok|apply RespondAddress_ok|apply ObserveAndBroadcastOffer_ok
      |apply Refresh_ok|apply Cancel_ok]. }
  specialize (Ht w Hi). destruct (run o w) as [w' [r|m]]; done.
Qed.

Lemma step_world_ok w w' : world_ok w -> step_world w w' -> world_ok w' /\ evolved (mem w) (mem w').
Proof.
  intros Hw Hs. destruct Hs as [o w|w|release w|e d w file j Ho].
  - by apply run_ok.
  - split; [by apply world_ok_quiet|done].
  - assert (forall j, gj_file j = gj_file (w_journal w) -> gj_records j = gj_records (w_journal w) ->
      world_ok {| w_journal := j; w_log := w_log w |} /\ evolved (mem w) (gj_records j)) as H.
    { intros j Hf Hr. rewrite Hr. split; [|done]. destruct Hw as [H1 H2 H3].
      split; unfold mem in *; cbn; rewrite ?Hr, ?Hf; done. }
    unfold Close. destruct (negb _); by apply H.
  - destruct (OpenJournal_ok _ _ _ _ _ Ho) as (_ & Hf & Hl).
    destruct Hw as [H1 (fm & Hfm & H2 & H3) H4]. rewrite Hfm, (map_ok_load _ _ _ H2) in Hl.
    injection Hl as Hfile Hrec. split; [|unfold mem; cbn; rewrite <-Hrec; apply H3].
    split; unfold mem; cbn; rewrite <-?Hrec.
    + by apply map_ok_quiet.
    + exists fm. split_and!; [congruence|by apply map_ok_quiet|apply linked_refl].
    + by split.
Qed.

Lemma map_ok_empty : map_ok [] ∅.
Proof.
  split; [apply map_Forall_empty..|done|]. split; unfold count; rewrite ?map_filter_empty, ?map_size_empty; try done.
Qed.

Lemma started_ok w : started w -> world_ok w.
Proof.
  intros [Hlog (e & d & file & Ho)]. destruct (OpenJournal_ok _ _ _ _ _ Ho) as (_ & Hf & Hl).
  cbn in Hl. destruct (persist e FileAbsent ∅) as [f r] eqn:Ep. apply gift_persist_cases in Ep as [_ Hok].
  destruct r as [[]|m]; [|done]. injection Hl as <- Hr. specialize (Hok eq_refl).
  split; unfold mem; rewrite ?Hlog, <-?Hr; [apply map_ok_empty| |done].
  exists ∅. split_and!; [congruence|apply map_ok_empty|apply linked_refl].
Qed.

Lemma run_world_ok w w' : world_ok w -> rtc step_world w w' -> world_ok w' /\ evolved (mem w) (mem w').
Proof.
  intros Hw H. induction H as [w|w1 w2 w3 H12 _ IH]; [by split|].
  destruct (step_world_ok _ _ Hw H12) as [H2 E12]. destruct (IH H2) as [H3 E23]. split; [done|by etransitivity].
Qed.

Lemma gift_reachable_ok w : reachable w -> world_ok w.
Proof. intros (w1 & H1 & H). by apply (run_world_ok w1); [apply started_ok|]. Qed.

Lemma log_ok_app after ev before : log_ok (after ++ ev :: before) -> event_ok before ev.
Proof. induction after as [|x after IH]; cbn; [by intros [? _]|intros [_ ?]; by apply IH]. Qed.

Lemma unresolved_between kind i between stored c before :
  unresolved kind i (between ++ EvEffect stored i kind c :: before) = false ->
  exists st, EvFinality i (Ok st) ∈ between /\ settles st = true.
Proof.
  induction between as [|ev between IH]; cbn.
  { rewrite !bool_decide_true by done. done. }
  destruct ev as [| | |i' [st|m]|]; try (intros H; destruct (IH H) as (x & ? & ?); exists x; split; [by right|done]).
  - destruct (bool_decide (i' = i) && settles st) eqn:E.
    + intros _. bprop. subst i'. exists st. split; [by left|done].
    + intros H. destruct (IH H) as (x & ? & ?). exists x. split; [by right|done].
  - destruct (_ && _); [done|]. intros H. destruct (IH H) as (x & ? & ?). exists x. split; [by right|done].
Qed.

Lemma lookup_log_ok log n ev : log_ok log -> log !! n = Some ev -> event_ok (drop (S n) log) ev.
Proof. intros H Hn. apply (log_ok_app (take n log)). by rewrite take_drop_middle. Qed.

(** ** Theorems *)

(** C3: Write-ahead: when a message is sent, a transfer or a cancellation is
    signed, or a transaction is broadcast, the journal file already holds a
    valid record that announces exactly that call, with exactly those bytes and
    addressee, and reading the file at that moment gives it; for five of the
    seven kinds the record's pending effect says so as well. This holds over
    all runs, with any failures of calls and writes, and restarts. *)
Theorem gift_effects_durable w n stored i kind c :
  reachable w -> w_log w !! n = Some (EvEffect stored i kind c) ->
  exists records r, (forall e, load e stored = (stored, Ok records)) /\ records !! i = Some r /\
    validateRecord r = Ok tt /\ c = announced i r kind /\
    (forall p, pending_of kind = Some p -> g_PendingEffect r = p).
Proof.
  intros Hw Hn. pose proof (lookup_log_ok _ _ _ (wo_log _ (gift_reachable_ok _ Hw)) Hn) as (R & r & H). exists R, r. naive_solver.
Qed.

(** C18: The owner approves what custody does: a transfer is signed only after
    the owner answered a review of that intent, its unsigned transfer digest
    and validity, with the digest that custody is given; the validity is within
    the requested one and the response's. A cancellation is signed only after
    the owner approved cancelling that signed gift, account, sequence number
    and validity. *)
Theorem gift_approved_terms w n stored i c :
  reachable w ->
  (w_log w !! n = Some (EvEffect stored i SignGift c) ->
   exists q review m, c = SignNative q /\ (n < m)%nat /\
     w_log w !! m = Some (EvAuthorize review (Ok (sq_OwnerAuthorizationDigest q))) /\
     sq_OwnerAuthorizationDigest q <> ""%string /\ or_Action review = "send"%string /\
     or_IntentID review = sq_IntentID q /\ or_UnsignedTransferDigest review = sq_UnsignedTransferDigest q /\
     0 < or_ValidUntil review <= or_RequestedValidUntil review /\
     or_ValidUntil review <= or_ResponseNotAfter review) /\
  (w_log w !! n = Some (EvEffect stored i PrepareCancellation c) ->
   exists q review m, c = CancelNative q /\ (n < m)%nat /\
     w_log w !! m = Some (EvAuthorize review (Ok (cq_OwnerAuthorizationDigest q))) /\
     cq_OwnerAuthorizationDigest q <> ""%string /\ or_Action review = "cancel"%string /\
     or_IntentID review = cq_IntentID q /\ or_SignedGiftID review = cq_SignedGiftID q /\
     or_SenderAgentAccount review = cq_SenderAgentAccount q /\ or_GlobalID review = cq_GlobalID q /\
     or_Seqno review = cq_Seqno q /\ or_ValidUntil review = cq_ValidUntil q).
Proof.
  intros Hw. split; intros Hn;
    pose proof (lookup_log_ok _ _ _ (wo_log _ (gift_reachable_ok _ Hw)) Hn) as (R & r & _ & _ & _ & -> & _ & Hg).
  - destruct Hg as (Hd & [m Hm]%list_elem_of_lookup_1 & Hv). rewrite lookup_drop in Hm.
    eexists _, (send_review i r), (S n + m)%nat. split; [reflexivity|]. split; [lia|]. destruct Hv as [[? ?] ?]. by split_and!.
  - destruct Hg as (Hd & [m Hm]%list_elem_of_lookup_1). rewrite lookup_drop in Hm.
    eexists _, (cancel_review i r), (S n + m)%nat. split; [reflexivity|]. split; [lia|]. by split_and!.
Qed.

(** C11: No blind resubmission: between two broadcasts of the same intent (of
    the gift by its recipient, or of the cancellation by its sender) a
    finalized observation has settled the earlier one, by a terminal state or
    by showing the sequence number unused; restarts included. *)
Theorem gift_no_blind_rebroadcast w a b i kind stored c stored' c' :
  reachable w -> broadcasts kind = true -> (a < b)%nat ->
  w_log w !! a = Some (EvEffect stored i kind c) ->
  w_log w !! b = Some (EvEffect stored' i kind c') ->
  exists n st, (a < n < b)%nat /\ w_log w !! n = Some (EvFinality i (Ok st)) /\ settles st = true.
Proof.
  intros Hw Hk Hab Ha Hb.
  pose proof (lookup_log_ok _ _ _ (wo_log _ (gift_reachable_ok _ Hw)) Ha) as (R & r & _ & _ & _ & _ & _ & Hg).
  assert (unresolved kind i (drop (S a) (w_log w)) = false) as Hu by (destruct kind; try done; by destruct Hg).
  assert (drop (S a) (w_log w) = take (b - S a) (drop (S a) (w_log w)) ++ EvEffect stored' i kind c' :: drop (S b) (w_log w)) as E.
  { rewrite <-(take_drop_middle (drop (S a) (w_log w)) (b - S a) (EvEffect stored' i kind c')) at 1.
    - rewrite drop_drop. do 3 f_equal. lia.
    - rewrite lookup_drop. replace (S a + (b - S a))%nat with b by lia. done. }
  rewrite E in Hu. apply unresolved_between in Hu as (st & Hst & Hs).
  apply list_elem_of_lookup_1 in Hst as [m Hm]. apply lookup_take_Some in Hm as [Hm Hlt].
  rewrite lookup_drop in Hm. exists (S a + m)%nat, st. split_and!; [lia..|done|done].
Qed.

(** Records move forward only: in the course of any run each record is
    succeeded by later versions of itself, with the same parties, request and
    role and no earlier time stamp; once a transfer is signed or verified its
    terms never change, and a terminal record never changes until it is
    evicted. *)
Theorem gift_history w w' i r :
  reachable w -> rtc step_world w w' -> mem w !! i = Some r ->
  exists r', lifecycle r r' /\ (mem w' !! i = Some r' \/ terminalState (g_State r') = true).
Proof. intros Hw H Hr. destruct (run_world_ok _ _ (gift_reachable_ok _ Hw) H) as [_ He]. by apply He. Qed.

(** Admission control: at most 4096 records, 128 live ones and 16 live
    ones received from any one peer; and when the journal is full there is
    always a terminal record to evict, so creating a record never fails for
    lack of room. *)
Theorem gift_admission_bounds w :
  reachable w ->
  N.of_nat (size (mem w)) <= 4096 /\ count live (mem w) <= 128 /\
  (forall peer, count (inbound peer) (mem w) <= 16) /\
  (N.of_nat (size (mem w)) = 4096 -> exists kept, evictOldestTerminal (mem w) = Some kept).
Proof.
  intros Hw. destruct (mo_limits _ _ (wo_mem _ (gift_reachable_ok _ Hw))) as [H1 H2 H3]. split_and!; [done..|].
  intros Hs. pose proof (evictOldestTerminal_spec (mem w)) as He.
  destruct (evictOldestTerminal (mem w)) as [kept|]; [eauto|]. exfalso.
  assert (count live (mem w) = N.of_nat (size (mem w))) as Hc; [|unfold maxActiveGiftRecords in H2; lia].
  unfold count. do 2 f_equal. apply map_filter_id. intros i r Hr. cbn. unfold live. by rewrite (He i r Hr).
Qed.

(** Restart: a journal left by any run, also by one that stopped in the
    middle of a write, is opened again without error, and every record that is
    not terminal is there, as it was or one update further. *)
Theorem gift_restart_recovers w e d :
  reachable w -> de_abs_clean d && de_lstat d && de_is_dir d && negb (de_symlink d) && (de_perm d =? 448) = true ->
  de_lock d = Ok tt ->
  exists j, OpenJournal e d (gj_file (w_journal w)) = (gj_file (w_journal w), Ok j) /\ gj_lock j = true /\
    forall i r, mem w !! i = Some r -> live r = true ->
      exists r', gj_records j !! i = Some r' /\ lifecycle r r'.
Proof.
  intros Hw Hd Hl. destruct (gift_reachable_ok _ Hw) as [_ (fm & Hf & Hfm & _ & Hlk) _].
  exists {| gj_file := gj_file (w_journal w); gj_lock := true; gj_records := fm |}. split_and!; [|done|].
  - rewrite !andb_true_iff in Hd. destruct Hd as [[[[H1 H2] H3] H4] H5]. apply negb_true_iff in H4.
    unfold OpenJournal. rewrite H1, H2, H3, H4, H5, Hl, Hf, (map_ok_load _ _ _ Hfm). done.
  - intros i r Hr Hlive. destruct (Hlk i r Hr Hlive) as (x & Hx & _ & Hlc). eauto.
Qed.

(** *** A delivery that failed *)

(** An offer whose delivery failed, and whose record was then refreshed. *)
Definition stranded (r : GiftRecord) : bool :=
  bool_decide (g_Role r = RoleSender) && bool_decide (g_PendingEffect r = EffectSendOffer)
  && match g_State r with
     | StateCurrentlyExecutable | StateCurrentlyUnexecutable | StateInsufficientFunds | StateFinalityUnknown => true
     | _ => false
     end.

Definition dead (r : GiftRecord) : bool :=
  bool_decide (g_Role r = RoleSender) && (stranded r || terminalState (g_State r)).

(** The operations of an existing intent. *)
Definition concerns (i : string) (o : op) : bool :=
  match o with
  | OpStartSender _ _ _ _ | OpObserveRecipientRequest _ _ _ => false
  | OpResumeSenderDraft i' | OpRequestAddress i' | OpObserveAddressResponse i' _ | OpAuthorize i' | OpSign i' _
  | OpDeliverOffer i' | OpRespondAddress i' _ | OpObserveAndBroadcastOffer i' _ | OpRefresh i' | OpCancel i' =>
      bool_decide (i' = i)
  end.

Definition effects (log : list event) : list event := List.filter is_effect log.

Definition run_all (ops : list op) (w : world) : world := fold_left (fun w o => (run o w).1) ops w.

(** Nothing is done, and the record stays as dead. *)
Definition calm (i : string) (w w' : world) : Prop :=
  effects (w_log w') = effects (w_log w) /\ exists r, mem w' !! i = Some r /\ dead r = true.

Lemma update_calm w i r f :
  mem w !! i = Some r -> dead r = true -> (forall now r', f now r = Ok r' -> dead r' = true) ->
  calm i w (update i f w).1.
Proof.
  intros Hr Hd Hf. unfold update. destruct (Update _ _ _ _) as [j' res] eqn:E. cbn. split; [done|].
  destruct (Update_cases _ _ _ _ _ _ E) as [[-> _]|(r1 & r' & Hr1 & Ha & _ & _ & _ & _ & _ & Hp)]; [by exists r|].
  unfold mem in *. rewrite Hr in Hr1. injection Hr1 as <-. cbn.
  destruct (publish_cases _ _ _ _ _ _ Hp) as [_ [(_ & -> & _)|(_ & -> & _)]]; [|by exists r].
  exists r'. rewrite lookup_insert_eq. eauto.
Qed.

Lemma refreshed_dead st now r : reported st = true -> stranded r = true -> dead (refreshed st now r) = true.
Proof.
  unfold stranded. rewrite !andb_true_iff, !bool_decide_eq_true. intros Hst [[Hr Hp] _].
  unfold refreshed. destruct (terminalState st) eqn:Et.
  - unfold dead. cbn. by rewrite Hr, Et, orb_true_r.
  - destruct (unconsumed st && _) eqn:E.
    { rewrite andb_true_iff, orb_true_iff, !bool_decide_eq_true in E. cbn in E. rewrite Hp in E. by destruct E as [_ [?|?]]. }
    unfold dead, stranded. cbn. rewrite Hr, Hp. cbn. by destruct st.
Qed.

Lemma Refresh_calm i w r : mem w !! i = Some r -> dead r = true -> calm i w (Refresh i w).1.
Proof.
  intros Hr Hd. assert (calm i w w) as Hc by (by split; [|exists r]).
  unfold Refresh, bind, get, Get. destruct (negb (gj_lock (w_journal w))); [done|].
  unfold mem in Hr. rewrite Hr. destruct (negb _ && refreshableRecordState r) eqn:Eg; [|done].
  apply andb_true_iff in Eg as [_ [_ Ht]%refreshable_committed].
  assert (stranded r = true) as Hs.
  { unfold dead in Hd. rewrite Ht, orb_false_r, andb_true_iff in Hd. by destruct Hd. }
  assert (forall w2, mem w2 = mem w -> effects (w_log w2) = effects (w_log w) ->
    forall f, (forall now r', f now r = Ok r' -> dead r' = true) -> calm i w (update i f w2).1) as Hup.
  { intros w2 Hm He f Hf. destruct (update_calm w2 i r f) as [H1 H2]; [by rewrite Hm|done|done|].
    split; [congruence|done]. }
  assert (forall w2, mem w2 = mem w -> effects (w_log w2) = effects (w_log w) -> calm i w (to_unknown i w2).1) as Hun.
  { intros w2 Hm He. apply Hup; [done..|]. intros now r' [= <-]. unfold dead, stranded in *. cbn.
    rewrite !andb_true_iff in Hs. destruct Hs as [[-> ->] _]. done. }
  cbn -[to_unknown update]. destruct (ResolveFinality (w_log w) r) as [st|m]; [|by apply Hun].
  destruct (negb (reported st)) eqn:Er; [done|]. apply negb_false_iff in Er.
  assert (forall now r', Ok (refreshed st now r) = Ok r' -> dead r' = true) as Hf
    by (intros now r' [= <-]; by apply refreshed_dead).
  destruct (_ && _); [|by apply Hup].
  cbn -[to_unknown update]. destruct (ResolveNativeGift _ _); [by apply Hup|].
  unfold bind. match goal with |- context [to_unknown i ?x] => pose proof (Hun x eq_refl eq_refl) as Hx;
    destruct (to_unknown i x) as [w3 [?|?]] end; exact Hx.
Qed.

Lemma op_calm i o w r :
  concerns i o = true -> mem w !! i = Some r -> dead r = true -> calm i w (run o w).1.
Proof.
  intros Ho Hr Hd. assert (calm i w w) as Hc by (by split; [|exists r]).
  assert (forall ev, is_effect ev = false -> calm i w (logged w ev)) as Hq.
  { intros ev Hev. split; [|exists r; by split]. cbn. by rewrite Hev. }
  destruct o; cbn in Ho; try done; apply bool_decide_eq_true in Ho as ->; cbn [run]; [..|by eapply Refresh_calm|].
  all: unfold ResumeSenderDraft, RequestAddress, ObserveAddressResponse, Authorize, Sign, DeliverOffer, RespondAddress,
    ObserveAndBroadcastOffer, Cancel, bind, get, Get.
  all: try (destruct (negb (bool_decide (i = _))); [|done]).
  all: destruct (negb (gj_lock (w_journal w))); [done|]; unfold mem in Hr; rewrite Hr; clear Hr.
  all: unfold dead, stranded in Hd; rewrite andb_true_iff, orb_true_iff, !andb_true_iff, !bool_decide_eq_true in Hd;
    destruct Hd as [Hrole Hd].
  all: cbn zeta; rewrite ?Hrole; cbn.
  all: destruct (g_State r); try (by destruct Hd as [[? ?]|?]); destruct Hd as [[[_ Hp] _]|Hd]; try done.
  all: repeat match goal with
    | |- calm _ _ ((if ?b then _ else _) _).1 =>
        let E := fresh "E" in destruct b eqn:E; try done; try (by apply Hq)
    | |- _ => progress cbn
    end.
  all: match goal with
    H1 : bool_decide (g_PendingEffect _ = EffectNone) || _ = true, H2 : g_PendingEffect _ = EffectSendOffer |- _ =>
      by rewrite H2 in H1 end.
Qed.

Lemma run_all_calm i ops w r :
  Forall (fun o => concerns i o = true) ops -> mem w !! i = Some r -> dead r = true -> calm i w (run_all ops w).
Proof.
  intros Ho. revert w r. induction Ho as [|o ops Ho _ IH]; intros w r Hr Hd; cbn.
  { by split; [|exists r]. }
  destruct (op_calm i o w r Ho Hr Hd) as (He & r1 & Hr1 & Hd1).
  destruct (IH _ r1 Hr1 Hd1) as (He2 & H2). split; [|done]. etransitivity; [exact He2|done].
Qed.

(** A failed delivery that is refreshed before it is retried is never
    delivered: once the record has left boc-signed with the delivery still
    pending, no operation on the intent sends, cancels or signs anything, and
    the record stays so until a terminal state is observed. *)
Theorem gift_delivery_stranded i ops w r :
  mem w !! i = Some r -> stranded r = true -> Forall (fun o => concerns i o = true) ops ->
  effects (w_log (run_all ops w)) = effects (w_log w) /\
  exists r', mem (run_all ops w) !! i = Some r' /\ (stranded r' = true \/ terminalState (g_State r') = true).
Proof.
  intros Hr Hs Ho. assert (dead r = true) as Hd.
  { unfold dead. rewrite Hs. unfold stranded in Hs. by rewrite !andb_true_iff in Hs; destruct Hs as [[-> _] _]. }
  destruct (run_all_calm i ops w r Ho Hr Hd) as (He & r' & Hr' & Hd'). split; [done|]. exists r'. split; [done|].
  unfold dead in Hd'. rewrite andb_true_iff, orb_true_iff in Hd'. by destruct Hd'.
Qed.

End runs.

(** ** Witnesses *)

Section witness.

Definition w_request : string := "request".
Definition w_intent : string := hex_EncodeToString (Fixtures.hash 171).

Definition w_terms : SignedTerms :=
  {| st_SignedGiftID := "gift-1"; st_ExactBOCDigest := "boc-digest"; st_SenderAgentAccount := "account";
     st_DestinationAddress := "destination"; st_AmountAtomic := "25"; st_DeploymentID := "deployment";
     st_FeeReserveAtomic := "1"; st_Seqno := 7; st_ValidUntil := 90000; st_ControllerEpoch := 3;
     st_ExactSignedBOC := "boc" |}.

(** An environment in which every call succeeds, except the delivery of offers
    when [lossy]; the clock advances with every call. *)
Definition w_env (lossy : bool) : Environment := {|
  CreateAddressRequest := fun _ _ => Ok (w_request, "request-digest"%string);
  InspectAddressRequest := fun _ _ => Err "not a request";
  CreateAddressResponse := fun _ _ _ _ => Err "not a recipient";
  ValidateAddressResponse := fun _ _ _ =>
    Ok {| rt_DestinationAddress := "destination"; rt_ResponseNotAfter := 95000;
          rt_RequestDigest := "request-digest"; rt_ResponseDigest := "response-digest" |};
  CreateSignedOffer := fun _ _ _ _ _ => Ok ("offer", "gift-1")%string;
  VerifySignedOffer := fun _ _ _ _ => Ok w_terms;
  ResolveRecipient := fun _ _ => Ok "bob"%string;
  ResolveFinality := fun _ _ => Ok StateCurrentlyExecutable;
  SendEstablishedDirect := fun _ _ subject _ _ =>
    if lossy && bool_decide (subject = "agent.gift.signed-boc-offer"%string) then Err "offline" else Ok "event"%string;
  SenderAccount := fun _ => Ok "account"%string;
  PrepareNativeGift := fun _ _ =>
    Ok {| cr_Network := "mainnet"; cr_RecipientAgentID := "bob"; cr_SenderAgentAccount := "account";
          cr_OwnerWallet := "wallet"; cr_ControllerKeyID := "key"; cr_DeploymentID := "deployment";
          cr_DestinationAddress := "destination"; cr_AmountAtomic := "25"; cr_FeeReserveAtomic := "1";
          cr_RequestDigest := "request-digest"; cr_ResponseDigest := "response-digest";
          cr_UnsignedTransferDigest := "unsigned"; cr_GlobalID := 1; cr_ControllerEpoch := 3; cr_Seqno := 7;
          cr_ValidUntil := 90000 |};
  SignNativeGift := fun _ _ => Ok "boc"%string;
  ResolveNativeGift := fun _ _ => Ok tt;
  CancelSeqno := fun _ _ => Ok "cancel-boc"%string;
  BroadcastExactBOC := fun _ _ => Ok tt;
  SelectDestination := fun _ _ => Err "not a recipient";
  OwnerAuthorize := fun _ _ => Ok "approved"%string;
  env_random := fun _ _ => Ok (Fixtures.hash 171);
  env_now := fun log _ => ((1000 + 100 * Z.of_nat (length log)) * Second)%Z;
  env_io := fun _ => io_good
|}.

Definition w_dir : dir_env :=
  {| de_abs_clean := true; de_mkdir := Ok tt; de_lstat := true; de_is_dir := true; de_symlink := false;
     de_perm := 448; de_lock := Ok tt |}.

Definition w_start : world :=
  {| w_journal := {| gj_file := FileDoc (to_document ∅); gj_lock := true; gj_records := ∅ |}; w_log := [] |}.

(** A gift that is started, approved, signed and delivered; then cancelled,
    found unresolved, and cancelled again. *)
Definition w_ops : list op :=
  [OpStartSender {| mp_Recipient := "bob"; mp_AmountAtomic := "25"; mp_RequestedValidUntil := 99000;
                    mp_Greeting := "hello" |} "mainnet" 1 "alice";
   OpRequestAddress w_intent; OpObserveAddressResponse w_intent "response"; OpAuthorize w_intent;
   OpSign w_intent "hello"; OpDeliverOffer w_intent; OpCancel w_intent; OpRefresh w_intent; OpCancel w_intent].

Definition w_run (lossy : bool) : world := @run_all Fixtures.test_sha256 (w_env lossy) w_ops w_start.

Lemma run_all_rtc `{SHA : Sha256} `{ENV : Environment} ops w : rtc step_world w (run_all ops w).
Proof.
  revert w. induction ops as [|o ops IH]; intros w; cbn; [done|].
  eapply rtc_l; [apply step_op|apply IH].
Qed.

Lemma w_reachable lossy : @reachable Fixtures.test_sha256 (w_env lossy) (w_run lossy).
Proof.
  exists w_start. split; [|exact (@run_all_rtc Fixtures.test_sha256 (w_env lossy) w_ops w_start)].
  split; [done|]. by exists io_good, w_dir, (FileDoc (to_document ∅)).
Qed.

Definition effect_kind (log : list event) (n : nat) : option (string * effect) :=
  match log !! n with Some (EvEffect _ i k _) => Some (i, k) | _ => None end.

Lemma effect_kind_lookup log n i k :
  effect_kind log n = Some (i, k) -> exists stored c, log !! n = Some (EvEffect stored i k c).
Proof.
  unfold effect_kind. destruct (log !! n) as [[| | | |stored i' k' c]|]; try done. intros [= -> ->]. eauto.
Qed.


Lemma gift_effects_durable_witness : exists records r stored c,
  (w_log (w_run false)) !! 18%nat = Some (EvEffect stored w_intent SignGift c) /\ (forall e, load e stored = (stored, Ok records)) /\
  records !! w_intent = Some r /\ g_PendingEffect r = EffectSignBOC.
Proof.
  destruct (effect_kind_lookup (w_log (w_run false)) 18 w_intent SignGift) as (stored & c & E); [vm_compute; reflexivity|].
  destruct (@gift_effects_durable Fixtures.test_sha256 (w_env false) (w_run false) 18 stored w_intent SignGift c
    (w_reachable false) E) as (records & r & H1 & H2 & _ & _ & H3).
  exists records, r, stored, c. split; [exact E|]. split; [exact H1|]. split; [exact H2|]. exact (H3 _ eq_refl).
Defined.

Lemma gift_approved_terms_witness : exists stored c q review m,
  (w_log (w_run false)) !! 18%nat = Some (EvEffect stored w_intent SignGift c) /\ c = SignNative q /\
  (w_log (w_run false)) !! m = Some (EvAuthorize review (Ok (sq_OwnerAuthorizationDigest q))) /\ or_Action review = "send"%string.
Proof.
  destruct (effect_kind_lookup (w_log (w_run false)) 18 w_intent SignGift) as (stored & c & E); [vm_compute; reflexivity|].
  destruct (proj1 (@gift_approved_terms Fixtures.test_sha256 (w_env false) (w_run false) 18 stored w_intent c
    (w_reachable false)) E) as (q & review & m & H1 & _ & H2 & _ & H3 & _).
  exists stored, c, q, review, m. split; [exact E|]. split; [exact H1|]. split; [exact H2|exact H3].
Defined.

Lemma gift_no_blind_rebroadcast_witness : exists n st,
  effect_kind (w_log (w_run false)) 0 = Some (w_intent, BroadcastCancellation) /\
  effect_kind (w_log (w_run false)) 5 = Some (w_intent, BroadcastCancellation) /\
  (w_log (w_run false)) !! n = Some (EvFinality w_intent (Ok st)) /\ settles st = true.
Proof.
  assert (effect_kind (w_log (w_run false)) 0 = Some (w_intent, BroadcastCancellation)) as Ha by (vm_compute; reflexivity).
  assert (effect_kind (w_log (w_run false)) 5 = Some (w_intent, BroadcastCancellation)) as Hb by (vm_compute; reflexivity).
  destruct (effect_kind_lookup _ _ _ _ Ha) as (s1 & c1 & E1). destruct (effect_kind_lookup _ _ _ _ Hb) as (s2 & c2 & E2).
  destruct (@gift_no_blind_rebroadcast Fixtures.test_sha256 (w_env false) (w_run false) 0 5 w_intent
    BroadcastCancellation s1 c1 s2 c2 (w_reachable false) eq_refl ltac:(lia) E1 E2) as (n & st & _ & H1 & H2).
  exists n, st. split; [exact Ha|]. split; [exact Hb|]. split; [exact H1|exact H2].
Defined.

Lemma gift_history_witness : exists r r',
  mem (w_run false) !! w_intent = Some r /\ g_State r = StateCurrentlyExecutable /\ lifecycle r r'.
Proof.
  assert (g_State <$> (mem (w_run false) !! w_intent) = Some StateCurrentlyExecutable) as Hs by (vm_compute; reflexivity).
  destruct (mem (w_run false) !! w_intent) as [r|] eqn:E; [|discriminate Hs].
  destruct (@gift_history Fixtures.test_sha256 (w_env false) (w_run false)
    (@run_all Fixtures.test_sha256 (w_env false) [OpRefresh w_intent] (w_run false)) w_intent r
    (w_reachable false) (@run_all_rtc Fixtures.test_sha256 (w_env false) [OpRefresh w_intent] (w_run false)) E) as (r' & H & _).
  exists r, r'. split; [reflexivity|]. split; [by injection Hs|exact H].
Defined.

Lemma gift_admission_bounds_witness :
  size (mem (w_run false)) = 1%nat /\ count live (mem (w_run false)) <= 128.
Proof.
  split; [vm_compute; reflexivity|].
  exact (proj1 (proj2 (@gift_admission_bounds Fixtures.test_sha256 (w_env false) (w_run false) (w_reachable false)))).
Defined.

Lemma gift_restart_recovers_witness : exists j r',
  (OpenJournal io_good w_dir (gj_file (w_journal (w_run false)))).2 = Ok j /\ gj_records j !! w_intent = Some r'.
Proof.
  assert ((fun r => live r) <$> (mem (w_run false) !! w_intent) = Some true) as Hs by (vm_compute; reflexivity).
  destruct (mem (w_run false) !! w_intent) as [r|] eqn:E; [|discriminate Hs]. injection Hs as Hs.
  destruct (@gift_restart_recovers Fixtures.test_sha256 (w_env false) (w_run false) io_good w_dir (w_reachable false)
    eq_refl eq_refl) as (j & H1 & _ & H2).
  destruct (H2 _ _ E Hs) as (r' & H3 & _). exists j, r'. rewrite H1. split; [reflexivity|exact H3].
Defined.

(** The offer of the same gift, delivered into a lossy network. *)
Lemma gift_delivery_stranded_witness :
  @reachable Fixtures.test_sha256 (w_env true) (w_run true) /\
  exists r', mem (@run_all Fixtures.test_sha256 (w_env true) [OpDeliverOffer w_intent; OpCancel w_intent; OpRefresh w_intent]
      (w_run true)) !! w_intent = Some r' /\ (stranded r' = true \/ terminalState (g_State r') = true).
Proof.
  split; [apply w_reachable|].
  assert (stranded <$> (mem (w_run true) !! w_intent) = Some true) as Hs by (vm_compute; reflexivity).
  destruct (mem (w_run true) !! w_intent) as [r|] eqn:E; [|discriminate Hs]. injection Hs as Hs.
  apply (@gift_delivery_stranded Fixtures.test_sha256 (w_env true) w_intent
    [OpDeliverOffer w_intent; OpCancel w_intent; OpRefresh w_intent] (w_run true) r E Hs).
  repeat constructor.
Defined.

End witness.

End GiftSafety.
