(* ===== verification/GiftLocal.v ===== *)
(** * The Agent Gift local API (src/pkg/agentgift/localapi.go)

    Owner-private sockets over which the model and the owner's runtime call
    the operations of GiftService.v: the request, its checks, the gate on the
    principal, the framing, and the two ends of a call. The JSON encoding is a
    parameter; a socket delivers what is written to it until it fails. *)

From S2P Require Import Prelude GoLib GoText FileStore Ledger Protocol Fixtures Gift GiftService GiftSafety.
#[local] Open Scope N_scope.

Module GiftLocal.
Import Gift GiftService GiftSafety.

Definition LocalRequestSchema : string := "tos.openfox.agent-gift.local-request.v1".
Definition LocalResponseSchema : string := "tos.openfox.agent-gift.local-response.v1".
Definition maxLocalFrameBytes : N := 262144.

Inductive LocalOperation :=
| LocalStartSender | LocalRequestAddress | LocalObserveAddressResponse | LocalAuthorize | LocalSign
| LocalDeliver | LocalObserveRecipientRequest | LocalRespondAddress | LocalObserveAndBroadcast
| LocalRefresh | LocalCancel | LocalGet | LocalList | LocalOther (value : string).

#[global] Instance LocalOperation_eq_dec : EqDecision LocalOperation.
Proof. solve_decision. Defined.

Record LocalRequest := {
  lr_Schema : string;
  lr_Operation : LocalOperation;
  lr_IntentID : string;
  lr_Proposal : option ModelProposal;
  lr_AuthenticatedSender : string;
  lr_Canonical : string;
  lr_ResponseNotAfter : N;
  lr_Greeting : string
}.

Record LocalRecordView := {
  lv_IntentID : string;
  lv_Role : Role;
  lv_State : State;
  lv_AmountAtomic : string;
  lv_DisplayMessage : string;
  lv_RequestedValidUntil : N;
  lv_ValidUntil : N;
  lv_FundsLocked : bool
}.

Record LocalResponse := {
  lp_Schema : string;
  lp_OK : bool;
  lp_Error : string;
  lp_Record : option LocalRecordView;
  lp_Records : list LocalRecordView
}.

Inductive LocalPrincipal := LocalPrincipalModel | LocalPrincipalRuntime | PrincipalOther (value : string).

#[global] Instance LocalPrincipal_eq_dec : EqDecision LocalPrincipal.
Proof. solve_decision. Defined.

Record LocalServer := {
  ls_principal : LocalPrincipal;
  ls_network : string;
  ls_localAgentID : string;
  ls_globalID : Z
}.

Definition NewLocalServer (principal : LocalPrincipal) (network : string) (globalID : Z) (localAgentID : string)
    : result LocalServer :=
  if (negb (bool_decide (principal = LocalPrincipalModel)) && negb (bool_decide (principal = LocalPrincipalRuntime)))
     || bool_decide (network = ""%string) || (globalID =? 0)%Z || bool_decide (localAgentID = ""%string)
  then Err "Agent Gift local server requires complete fixed authority"
  else Ok {| ls_principal := principal; ls_network := network; ls_localAgentID := localAgentID;
             ls_globalID := globalID |}.

(** ** Requests *)

Definition canonical_intent (v : string) : bool :=
  match hex_DecodeString v with
  | Some decoded => (slen decoded =? 32) && bool_decide (hex_EncodeToString decoded = v)
  | None => false
  end.

Definition is_op (v : LocalRequest) (o : LocalOperation) : bool := bool_decide (lr_Operation v = o).

Definition validateLocalRequest (v : LocalRequest) : result unit :=
  if negb (bool_decide (lr_Schema v = LocalRequestSchema)) then Err "invalid Agent Gift local request schema"
  else
    let hasIntent := slen (lr_IntentID v) =? 64 in
    if hasIntent && negb (canonical_intent (lr_IntentID v))
    then Err "Gift intent ID must be canonical lowercase hex"
    else if negb (is_op v LocalStartSender) && bool_decide (is_Some (lr_Proposal v))
    then Err "only sender start carries a model proposal"
    else if negb (is_op v LocalObserveRecipientRequest) && negb (bool_decide (lr_AuthenticatedSender v = ""%string))
    then Err "only recipient observation carries authenticated sender context"
    else if negb (is_op v LocalObserveRecipientRequest) && negb (is_op v LocalObserveAddressResponse)
            && negb (is_op v LocalObserveAndBroadcast) && negb (slen (lr_Canonical v) =? 0)
    then Err "only Gift observations carry canonical private bytes"
    else if negb (is_op v LocalRespondAddress) && negb (lr_ResponseNotAfter v =? 0)
    then Err "only address response carries response validity"
    else if negb (is_op v LocalSign) && negb (bool_decide (lr_Greeting v = ""%string))
    then Err "only Gift signing carries display text"
    else
      let? _ :=
        match lr_Operation v with
        | LocalStartSender =>
            if negb (bool_decide (is_Some (lr_Proposal v))) || hasIntent || negb (slen (lr_Canonical v) =? 0)
            then Err "invalid sender start request" else Ok tt
        | LocalObserveRecipientRequest =>
            if bool_decide (is_Some (lr_Proposal v)) || (slen (lr_Canonical v) =? 0)
               || bool_decide (lr_AuthenticatedSender v = ""%string) || hasIntent
            then Err "invalid recipient observation request" else Ok tt
        | LocalObserveAddressResponse | LocalObserveAndBroadcast =>
            if negb hasIntent || (slen (lr_Canonical v) =? 0) || bool_decide (is_Some (lr_Proposal v))
            then Err "invalid canonical Gift observation request" else Ok tt
        | LocalRespondAddress =>
            if negb hasIntent || (lr_ResponseNotAfter v =? 0) then Err "invalid address response request" else Ok tt
        | LocalSign =>
            if negb hasIntent || (512 <? slen (lr_Greeting v)) then Err "invalid Gift signing request" else Ok tt
        | LocalRequestAddress | LocalAuthorize | LocalDeliver | LocalRefresh | LocalCancel | LocalGet =>
            if negb hasIntent then Err "Gift intent ID is required" else Ok tt
        | LocalList =>
            if hasIntent || bool_decide (is_Some (lr_Proposal v)) || negb (slen (lr_Canonical v) =? 0)
            then Err "Gift list has no parameters" else Ok tt
        | LocalOther _ => Err "unknown Agent Gift local operation"
        end in
      if 65536 <? slen (lr_Canonical v) then Err "Agent Gift canonical object exceeds local bound" else Ok tt.

Definition localRecordView (record : GiftRecord) : LocalRecordView :=
  {| lv_IntentID := g_IntentID record; lv_Role := g_Role record; lv_State := g_State record;
     lv_AmountAtomic := g_AmountAtomic record; lv_DisplayMessage := g_DisplayMessage record;
     lv_RequestedValidUntil := g_RequestedValidUntil record; lv_ValidUntil := g_ValidUntil record;
     lv_FundsLocked := false |}.

(** ** Frames *)

(** The first [n] bytes; [None] when there are fewer ([io.ReadFull]). *)
Fixpoint ReadFull (n : nat) (s : string) : option (string * string) :=
  match n with
  | O => Some (EmptyString, s)
  | S n =>
      match s with
      | EmptyString => None
      | String c s => match ReadFull n s with Some (a, rest) => Some (String c a, rest) | None => None end
      end
  end.

Definition frameLocal (raw : string) : string := big_endian 4 (u32 (slen raw)) +:+ raw.

(** Reads one frame off what the connection delivers before it ends. *)
Definition readLocalFrame (input : string) : result string :=
  match ReadFull 4 input with
  | None => Err "unexpected EOF"
  | Some (size, rest) =>
      let length := from_big_endian 0 size in
      if (length =? 0) || (maxLocalFrameBytes <? length) then Err "Agent Gift local frame exceeds bound"
      else match ReadFull (N.to_nat length) rest with Some (raw, _) => Ok raw | None => Err "unexpected EOF" end
  end.

(** [writer.Write] for the [k]-th call on what is left: how many bytes it
    says it wrote, or an error. *)
Definition writer : Type := nat -> string -> result Z.

(** The loop of [writeLocalFrame]: what went out, and the result; [None] when
    the fuel runs out. *)
Fixpoint write_loop (fuel : nat) (write : writer) (k : nat) (sent framed : string) : option (string * result unit) :=
  match framed with
  | EmptyString => Some (sent, Ok tt)
  | _ =>
      match fuel with
      | O => None
      | S fuel =>
          match write k framed with
          | Err m => Some (sent, Err m)
          | Ok written =>
              if (written <=? 0)%Z || (Z.of_N (slen framed) <? written)%Z
              then Some (sent, Err "short Agent Gift local write")
              else
                match ReadFull (Z.to_nat written) framed with
                | Some (out, rest) => write_loop fuel write (S k) (sent +:+ out) rest
                | None => Some (sent, Err "short Agent Gift local write")
                end
          end
      end
  end.

Definition writeLocalFrame (write : writer) (raw : string) : option (string * result unit) :=
  write_loop (String.length (frameLocal raw)) write 0 EmptyString (frameLocal raw).

(** ** The server *)

Section server.
Context `{SHA : Sha256} `{ENV : Environment}.

Definition found_record (intent : string) : M GiftRecord :=
  do found <- get intent;
  match found with Some record => ret record | None => raise "Gift not found" end.

(** The operation a request asks for; [None] is the nil dereference of a
    missing proposal. *)
Definition dispatch (s : LocalServer) (request : LocalRequest) : option (M GiftRecord) :=
  match lr_Operation request with
  | LocalStartSender =>
      match lr_Proposal request with
      | Some proposal => Some (StartSender proposal (ls_network s) (ls_globalID s) (ls_localAgentID s))
      | None => None
      end
  | LocalRequestAddress => Some (RequestAddress (lr_IntentID request))
  | LocalObserveAddressResponse => Some (ObserveAddressResponse (lr_IntentID request) (lr_Canonical request))
  | LocalAuthorize => Some (Authorize (lr_IntentID request))
  | LocalSign => Some (Sign (lr_IntentID request) (lr_Greeting request))
  | LocalDeliver => Some (DeliverOffer (lr_IntentID request))
  | LocalObserveRecipientRequest =>
      Some (ObserveRecipientRequest (lr_Canonical request) (ls_localAgentID s) (lr_AuthenticatedSender request))
  | LocalRespondAddress => Some (RespondAddress (lr_IntentID request) (lr_ResponseNotAfter request))
  | LocalObserveAndBroadcast => Some (ObserveAndBroadcastOffer (lr_IntentID request) (lr_Canonical request))
  | LocalRefresh => Some (Refresh (lr_IntentID request))
  | LocalCancel => Some (Cancel (lr_IntentID request))
  | LocalGet => Some (found_record (lr_IntentID request))
  | LocalList | LocalOther _ => Some (raise "unknown Agent Gift operation")
  end.

Definition call (s : LocalServer) (request : LocalRequest) : option (M LocalResponse) :=
  if bool_decide (ls_principal s = LocalPrincipalModel) && negb (is_op request LocalStartSender)
     && negb (is_op request LocalGet) && negb (is_op request LocalList)
  then Some (raise "model principal cannot invoke Gift authority operations")
  else if is_op request LocalList then
    Some (do values <- list_records;
          ret {| lp_Schema := LocalResponseSchema; lp_OK := false; lp_Error := ""; lp_Record := None;
                 lp_Records := localRecordView <$> values |})
  else
    match dispatch s request with
    | None => None
    | Some operation =>
        Some (do record <- operation;
              ret {| lp_Schema := LocalResponseSchema; lp_OK := false; lp_Error := "";
                     lp_Record := Some (localRecordView record); lp_Records := [] |})
    end.

Definition refused : LocalResponse :=
  {| lp_Schema := LocalResponseSchema; lp_OK := false; lp_Error := "request refused"; lp_Record := None;
     lp_Records := [] |}.

Definition with_OK (r : LocalResponse) : LocalResponse :=
  {| lp_Schema := lp_Schema r; lp_OK := true; lp_Error := lp_Error r; lp_Record := lp_Record r;
     lp_Records := lp_Records r |}.

(** What the connection sees: nothing, a response, or the end of the process. *)
Inductive reply := NoReply | Reply (framed : string) | Panic.

(** [decode] is the strict JSON decoder, [encode] is [json.Marshal]. *)
Definition handle (decode : string -> option LocalRequest) (encode : LocalResponse -> string) (s : LocalServer)
    (input : string) (w : world) : world * reply :=
  match readLocalFrame input with
  | Err _ => (w, NoReply)
  | Ok raw =>
      let answer r := Reply (frameLocal (encode r)) in
      match decode raw with
      | None => (w, answer refused)
      | Some request =>
          match validateLocalRequest request with
          | Err _ => (w, answer refused)
          | Ok _ =>
              match call s request with
              | None => (w, Panic)
              | Some operation =>
                  let '(w', r) := operation w in
                  (w', answer (match r with Ok response => with_OK response | Err _ => refused end))
              end
          end
      end
  end.

End server.

(** ** The client *)

(** [exchange] sends the framed request and returns what comes back. *)
Definition client_call (encode : LocalRequest -> string) (decode : string -> option LocalResponse)
    (exchange : string -> result string) (request : LocalRequest) : result LocalResponse :=
  let request := {| lr_Schema := LocalRequestSchema; lr_Operation := lr_Operation request;
                    lr_IntentID := lr_IntentID request; lr_Proposal := lr_Proposal request;
                    lr_AuthenticatedSender := lr_AuthenticatedSender request; lr_Canonical := lr_Canonical request;
                    lr_ResponseNotAfter := lr_ResponseNotAfter request; lr_Greeting := lr_Greeting request |} in
  let? _ := validateLocalRequest request in
  let? input := exchange (frameLocal (encode request)) in
  let? raw := readLocalFrame input in
  match decode raw with
  | None => Err "invalid Agent Gift local response"
  | Some response =>
      if negb (bool_decide (lp_Schema response = LocalResponseSchema)) then Err "invalid Agent Gift local response"
      else if negb (lp_OK response) then Err (lp_Error response)
      else Ok response
  end.

(** ** Lemmas *)

Lemma ReadFull_app a rest : ReadFull (String.length a) (a +:+ rest) = Some (a, rest).
Proof. induction a as [|c a IH]; [done|]. rewrite append_cons. simpl. by rewrite IH. Qed.

Lemma ReadFull_split n s a rest : ReadFull n s = Some (a, rest) -> s = a +:+ rest /\ String.length a = n.
Proof.
  revert s a rest. induction n as [|n IH]; intros s a rest; cbn; [by intros [= <- <-]|].
  destruct s as [|c s]; [done|]. destruct (ReadFull n s) as [[x y]|] eqn:E; [|done]. intros [= <- <-].
  destruct (IH _ _ _ E) as [-> <-]. done.
Qed.

Lemma ReadFull_enough n s : (n <= String.length s)%nat -> is_Some (ReadFull n s).
Proof.
  revert s. induction n as [|n IH]; intros s H; cbn; [eauto|]. destruct s as [|c s]; cbn in H; [lia|].
  destruct (IH s ltac:(lia)) as [[a rest] ->]. eauto.
Qed.

Lemma slen_length s : N.to_nat (slen s) = String.length s.
Proof. unfold slen. lia. Qed.

Lemma append_nil_r a : a +:+ ""%string = a.
Proof. induction a as [|c a IH]; [done|]. by rewrite append_cons, IH. Qed.

(** A frame is read back, whatever follows it on the connection. *)
Lemma frame_read raw rest :
  0 < slen raw <= maxLocalFrameBytes -> readLocalFrame (frameLocal raw +:+ rest) = Ok raw.
Proof.
  intros Hr. unfold readLocalFrame, frameLocal. rewrite append_assoc.
  assert (String.length (big_endian 4 (u32 (slen raw))) = 4%nat) as H4
    by (rewrite <-slen_length, slen_big_endian; done).
  rewrite <-H4 at 1. rewrite ReadFull_app. unfold maxLocalFrameBytes in *.
  assert (u32 (slen raw) = slen raw) as ->. { unfold u32. apply N.mod_small. lia. }
  rewrite big_endian_round by (cbn; lia).
  destruct (N.eqb_spec (slen raw) 0); [lia|]. destruct (N.ltb_spec 262144 (slen raw)); [lia|]. cbn [orb].
  by rewrite slen_length, ReadFull_app.
Qed.

(** What goes out is the frame up to where writing stopped; all of it on success. *)
Lemma write_loop_spec write fuel : forall k sent framed, (String.length framed <= fuel)%nat ->
  exists out rest r, write_loop fuel write k sent framed = Some (sent +:+ out, r) /\ framed = out +:+ rest /\
    (r = Ok tt -> rest = ""%string).
Proof.
  induction fuel as [|fuel IH]; intros k sent framed Hf.
  { destruct framed; [|cbn in Hf; lia]. exists ""%string, ""%string, (Ok tt). by rewrite append_nil_r. }
  destruct framed as [|c framed]; [exists ""%string, ""%string, (Ok tt); by rewrite append_nil_r|].
  cbn [write_loop]. destruct (write k (String c framed)) as [written|m].
  2:{ exists ""%string, (String c framed), (Err m). by rewrite append_nil_r. }
  destruct (_ || _) eqn:E.
  { exists ""%string, (String c framed), (Err "short Agent Gift local write"). by rewrite append_nil_r. }
  apply orb_false_iff in E as [E1%Z.leb_gt E2%Z.ltb_ge].
  destruct (ReadFull_enough (Z.to_nat written) (String c framed)) as [[out rest] Hrd].
  { unfold slen in E2. lia. }
  rewrite Hrd. destruct (ReadFull_split _ _ _ _ Hrd) as [Heq Hlen].
  assert (String.length rest <= fuel)%nat as Hlt.
  { apply (f_equal slen) in Heq. rewrite slen_app in Heq. unfold slen in Heq. cbn in Heq, Hf. lia. }
  destruct (IH (S k) (sent +:+ out) rest Hlt) as (out' & rest' & r & -> & -> & Hok).
  exists (out +:+ out'), rest', r. rewrite !append_assoc. split_and!; [done| |done]. by rewrite Heq.
Qed.

(** A checked request is one the server can carry out. *)
Lemma validated_call `{SHA : Sha256} `{ENV : Environment} s request :
  validateLocalRequest request = Ok tt -> is_Some (call s request).
Proof.
  intros H. unfold call. destruct (_ && _); [eauto|]. destruct (is_op request LocalList); [eauto|].
  unfold dispatch. destruct (lr_Operation request) eqn:Eo; eauto.
  destruct (lr_Proposal request) eqn:Ep; [eauto|]. exfalso. unfold validateLocalRequest in H.
  rewrite Eo, Ep in H. cbn in H.
  by repeat match type of H with (if ?b then _ else _) = _ => destruct b; [done|] end.
Qed.

(** Events that neither act nor ask the owner. *)
Definition plain (ev : event) : bool := match ev with EvQuery | EvJournal => true | _ => false end.

(** Nothing was done; old records are as they were, or were evicted; new ones
    are drafts. *)
Definition confined (w w' : world) : Prop :=
  (exists new, w_log w' = new ++ w_log w /\ Forall (fun ev => plain ev = true) new) /\
  (forall i r, mem w !! i = Some r -> mem w' !! i = Some r \/ terminalState (g_State r) = true) /\
  (forall i r', mem w !! i = None -> mem w' !! i = Some r' ->
     g_Role r' = RoleSender /\ g_PendingEffect r' = EffectNone /\
     (g_State r' = StateDraft \/ g_State r' = StateRecipientResolved)).

Lemma confined_log w w' new :
  mem w' = mem w -> w_log w' = new ++ w_log w -> Forall (fun ev => plain ev = true) new -> confined w w'.
Proof. intros Hm Hl Hn. split_and!; [eauto| |]; rewrite Hm; [auto|congruence]. Qed.

Lemma bind_cases {A B} (c : M A) (k : A -> M B) w :
  (exists m w1, c w = (w1, Err m) /\ bind c k w = (w1, Err m)) \/
  (exists a w1, c w = (w1, Ok a) /\ bind c k w = k a w1).
Proof. unfold bind. destruct (c w) as [w1 [a|m]]; [right|left]; eauto. Qed.

Section confinement.
Context `{SHA : Sha256} `{ENV : Environment}.

(** Creating a record touches no other, but may evict a terminal one. *)
Lemma create_frame record w :
  let w1 := (create record w).1 in
  w_log w1 = EvJournal :: w_log w /\
  ((mem w1 = mem w /\ is_err (create record w).2 = true) \/
   (mem w !! g_IntentID record = None /\ mem w1 !! g_IntentID record = Some record /\
    forall i, i <> g_IntentID record -> mem w1 !! i = mem w !! i \/
      (mem w1 !! i = None /\ exists r, mem w !! i = Some r /\ terminalState (g_State r) = true))).
Proof.
  unfold create. destruct (Create _ _ _) as [j' res] eqn:E. cbn. split; [done|]. unfold mem. cbn.
  destruct (Create_cases _ _ _ _ _ E) as [[-> He]|(_ & Hi & _ & kept & Hpub & Hk)]; [by left|].
  destruct (publish_cases _ _ _ _ _ _ Hpub) as [_ [(_ & Hm & _)|(He & Hm & _)]]; rewrite Hm; [|by left].
  right. rewrite lookup_insert_eq. split_and!; [done|done|]. intros i Hne. rewrite lookup_insert_ne by done.
  destruct Hk as [[-> _]|He]; [by left|]. pose proof (evictOldestTerminal_spec (gj_records (w_journal w))) as Hev.
  rewrite He in Hev. destruct Hev as (id & x & Hx & Hxt & -> & _).
  destruct (decide (i = id)) as [->|]; [right|left; by rewrite lookup_delete_ne].
  rewrite lookup_delete_eq. eauto.
Qed.

Lemma update_frame i f w :
  let w1 := (update i f w).1 in
  w_log w1 = EvJournal :: w_log w /\
  (mem w1 = mem w \/
   exists r r', mem w !! i = Some r /\ f (env_now (w_log w)) r = Ok r' /\ mem w1 = <[i := r']> (mem w)).
Proof.
  unfold update. destruct (Update _ _ _ _) as [j' res] eqn:E. cbn. split; [done|]. unfold mem. cbn.
  destruct (Update_cases _ _ _ _ _ _ E) as [[-> _]|(r & r' & Hr & Ha & _ & _ & _ & _ & _ & Hp)]; [by left|].
  destruct (publish_cases _ _ _ _ _ _ Hp) as [_ [(_ & Hm & _)|(_ & Hm & _)]]; rewrite Hm; [right|by left].
  exists r, r'. auto.
Qed.

(** Creating a draft and resolving it. *)
Lemma draft_confined w record now :
  g_Role record = RoleSender -> g_PendingEffect record = EffectNone -> g_State record = StateDraft ->
  confined w (bind (create record) (fun _ => update (g_IntentID record)
    (fun _ v => Ok (stamp now (set_State StateRecipientResolved v)))) w).1.
Proof.
  intros Hr Hp Hs. pose proof (create_frame record w) as [Hl1 H1].
  assert (confined w (create record w).1) as Hc1.
  { destruct H1 as [[Hm _]|(Hn & Hi & Hf)]; [by apply (confined_log _ _ [EvJournal]); [| |repeat constructor]|].
    split_and!; [exists [EvJournal]; by split; [|repeat constructor]| |].
    - intros i r Hir. destruct (Hf i ltac:(congruence)) as [->|(_ & x & Hx & Ht)]; [auto|right; congruence].
    - intros i r' Hin Hir. destruct (decide (i = g_IntentID record)) as [->|Hne].
      + rewrite Hi in Hir. injection Hir as <-. auto.
      + destruct (Hf i Hne) as [?|[? _]]; congruence. }
  destruct (bind_cases (create record) (fun _ => update (g_IntentID record)
    (fun _ v => Ok (stamp now (set_State StateRecipientResolved v)))) w) as [(m & w1 & E & ->)|(x & w1 & E & ->)].
  { by rewrite E in Hc1. }
  rewrite E in *. cbn in *. clear E.
  match goal with |- context [update ?i ?f w1] => pose proof (update_frame i f w1) as [Hl2 H2] end.
  destruct Hc1 as [(new & Hnew & Hpl) [Hold Hfresh]]. destruct H2 as [Hm2|(r & r' & Hir & [= <-] & Hm2)].
  { split_and!; [exists (EvJournal :: new); rewrite Hl2, Hnew; by split; [|constructor]| |]; rewrite Hm2; auto. }
  split_and!; [exists (EvJournal :: new); rewrite Hl2, Hnew; by split; [|constructor]| |]; rewrite Hm2.
  - intros i y Hy. destruct (decide (i = g_IntentID record)) as [->|Hne]; [|rewrite lookup_insert_ne by done; auto].
    destruct H1 as [[_ ?]|(Hn & _)]; [done|congruence].
  - intros i y Hn Hy. apply lookup_insert_Some in Hy as [[<- <-]|[_ Hy]]; [|by apply (Hfresh i)].
    cbn. destruct (Hfresh _ _ Hn Hir) as (? & ? & _). auto.
Qed.

Lemma confined_quiet w w1 w' : w_log w1 = EvQuery :: w_log w -> mem w1 = mem w -> confined w1 w' -> confined w w'.
Proof.
  intros Hl Hm [(new & Hnew & Hp) H]. split; [|by rewrite <-Hm].
  exists (new ++ [EvQuery]). rewrite Hnew, Hl, <-app_assoc. split; [done|]. by apply Forall_app; split; [|repeat constructor].
Qed.

Lemma confined_refl w : confined w w.
Proof. by apply (confined_log _ _ []). Qed.

(** A question first. *)
Lemma ask_confined {A B} (c : M A) (k : A -> M B) w :
  (forall w, (c w).1 = logged w EvQuery) -> (forall a w, confined w (k a w).1) -> confined w (bind c k w).1.
Proof.
  intros Hc Hk. specialize (Hc w). destruct (bind_cases c k w) as [(m & w1 & E & ->)|(a & w1 & E & ->)];
    rewrite E in Hc; cbn in *; subst w1.
  - by apply (confined_log _ _ [EvQuery]); [| |repeat constructor].
  - by apply (confined_quiet w (logged w EvQuery)).
Qed.

Lemma StartSender_confined proposal network globalID sender w :
  confined w (StartSender proposal network globalID sender w).1.
Proof.
  unfold StartSender. apply ask_confined; [done|]. clear w. intros now w. destruct (_ && _); [|apply confined_refl].
  apply ask_confined; [done|]. clear w. intros recipient w.
  apply ask_confined; [done|]. clear w. intros account w.
  apply ask_confined; [done|]. clear w. intros intentID w. cbn zeta.
  apply ask_confined; [done|]. clear w. intros [canonical digest] w.
  unfold bind at 1, list_records. destruct (_ <? _); [|apply confined_refl].
  by apply draft_confined.
Qed.

(** The model's socket confers no authority: whatever request arrives
    there, nothing is sent, signed, broadcast or cancelled, the owner is not
    asked, no record of the journal changes (a terminal one may be evicted),
    and what is added are drafts that wait for the owner's runtime. *)
Theorem gift_model_confined s request operation w :
  ls_principal s = LocalPrincipalModel -> call s request = Some operation -> confined w (operation w).1.
Proof.
  intros Hp. unfold call. rewrite Hp. cbn [bool_decide].
  destruct (is_op request LocalStartSender) eqn:E1; [|destruct (is_op request LocalGet) eqn:E2; [|destruct (is_op request LocalList) eqn:E3]].
  - unfold is_op in *. apply bool_decide_eq_true in E1. rewrite E1. cbn. unfold dispatch. rewrite E1.
    destruct (lr_Proposal request) as [proposal|]; [|done]. intros [= <-].
    destruct (bind_cases (StartSender proposal (ls_network s) (ls_globalID s) (ls_localAgentID s))
      (fun record => ret {| lp_Schema := LocalResponseSchema; lp_OK := false; lp_Error := "";
                     lp_Record := Some (localRecordView record); lp_Records := [] |}) w) as [(m & w1 & E & ->)|(a & w1 & E & ->)];
      pose proof (StartSender_confined proposal (ls_network s) (ls_globalID s) (ls_localAgentID s) w) as H;
      rewrite E in H; exact H.
  - unfold is_op in *. apply bool_decide_eq_true in E2. rewrite E2. cbn. unfold dispatch. rewrite E2.
    intros [= <-]. unfold bind, found_record, get, bind. destruct (Get _ _); apply confined_refl.
  - cbn. intros [= <-]. apply confined_refl.
  - cbn. intros [= <-]. apply confined_refl.
Qed.

(** No input kills the daemon: on every byte sequence a client may send,
    with any JSON decoder, the handler answers or closes, and never
    dereferences a missing proposal. *)
Theorem gift_local_no_panic decode encode s input w : (handle decode encode s input w).2 <> Panic.
Proof.
  unfold handle. destruct (readLocalFrame input) as [raw|]; [|done]. destruct (decode raw) as [request|]; [|done].
  destruct (validateLocalRequest request) as [[]|] eqn:E; [|done].
  destruct (validated_call s request E) as [operation ->]. by destruct (operation w).
Qed.

Lemma call_schema s request operation w r :
  call s request = Some operation -> (operation w).2 = Ok r -> lp_Schema r = LocalResponseSchema.
Proof.
  assert (forall {A} (c : M A) (f : A -> LocalResponse), (forall a, lp_Schema (f a) = LocalResponseSchema) ->
    (bind c (fun a => ret (f a)) w).2 = Ok r -> lp_Schema r = LocalResponseSchema) as Hb.
  { intros A c f Hf. unfold bind. destruct (c w) as [w1 [a|m]]; cbn; [|done]. intros [= <-]. apply Hf. }
  unfold call. destruct (_ && _); [by intros [= <-]|]. destruct (is_op request LocalList).
  { intros [= <-]. by apply Hb. }
  destruct (dispatch s request); [|done]. intros [= <-]. by apply Hb.
Qed.

(** The two ends of the local API agree: over a connection that delivers
    what is written, a checked request is carried out by the server exactly
    once as the operation it names, and the client returns that operation's
    response, or the uniform refusal when it failed. *)
Theorem gift_local_roundtrip encodeReq decodeReq encodeResp decodeResp s request w :
  lr_Schema request = LocalRequestSchema -> validateLocalRequest request = Ok tt ->
  0 < slen (encodeReq request) <= maxLocalFrameBytes -> decodeReq (encodeReq request) = Some request ->
  exists operation, call s request = Some operation /\
    let response := match (operation w).2 with Ok r => with_OK r | Err _ => refused end in
    (0 < slen (encodeResp response) <= maxLocalFrameBytes -> decodeResp (encodeResp response) = Some response ->
     (handle decodeReq encodeResp s (frameLocal (encodeReq request)) w).1 = (operation w).1 /\
     client_call encodeReq decodeResp
       (fun framed => match (handle decodeReq encodeResp s framed w).2 with Reply out => Ok out | _ => Err "closed" end)
       request
     = match (operation w).2 with Ok r => Ok (with_OK r) | Err _ => Err "request refused" end).
Proof.
  intros Hs Hv Hl Hd. destruct (validated_call s request Hv) as [operation Hop]. exists operation. split; [done|].
  intros response Hr Hdr.
  assert (handle decodeReq encodeResp s (frameLocal (encodeReq request)) w
          = ((operation w).1, Reply (frameLocal (encodeResp response)))) as Hh.
  { unfold handle. rewrite <-(append_nil_r (frameLocal _)) at 1. rewrite frame_read, Hd, Hv, Hop by done.
    unfold response. by destruct (operation w). }
  split; [by rewrite Hh|]. unfold client_call.
  replace {| lr_Schema := LocalRequestSchema; lr_Operation := _; lr_IntentID := _; lr_Proposal := _;
             lr_AuthenticatedSender := _; lr_Canonical := _; lr_ResponseNotAfter := _; lr_Greeting := _ |} with request
    by (destruct request; cbn in *; by subst).
  rewrite Hv, Hh. cbn [snd]. rewrite <-(append_nil_r (frameLocal (encodeResp _))), frame_read, Hdr by done.
  unfold response. destruct ((operation w).2) as [r|m] eqn:E; cbn.
  - by rewrite (call_schema _ _ _ _ _ Hop E).
  - done.
Qed.

(** Writing a frame always ends, after at most one call per byte, and
    sends a prefix of the frame; all of it exactly when it reports success. *)
Theorem gift_write_complete write raw : exists out rest r,
  writeLocalFrame write raw = Some (out, r) /\ frameLocal raw = out +:+ rest /\ (r = Ok tt -> out = frameLocal raw).
Proof.
  destruct (write_loop_spec write _ 0 ""%string (frameLocal raw) (le_n _)) as (out & rest & r & H & Hf & Hok).
  exists out, rest, r. split_and!; [exact H|done|]. intros Hr. rewrite Hf, (Hok Hr). by rewrite append_nil_r.
Qed.

End confinement.

(** ** Witnesses *)

Section witness.

Definition w_server (principal : LocalPrincipal) : LocalServer :=
  {| ls_principal := principal; ls_network := "mainnet"; ls_localAgentID := "alice"; ls_globalID := 1 |}.

Definition w_local (o : LocalOperation) (proposal : option ModelProposal) (intent : string) : LocalRequest :=
  {| lr_Schema := LocalRequestSchema; lr_Operation := o; lr_IntentID := intent; lr_Proposal := proposal;
     lr_AuthenticatedSender := ""; lr_Canonical := ""; lr_ResponseNotAfter := 0; lr_Greeting := "" |}.

Definition w_proposal : ModelProposal :=
  {| mp_Recipient := "bob"; mp_AmountAtomic := "25"; mp_RequestedValidUntil := 99000; mp_Greeting := "hello" |}.

(** The model starts a gift: a draft, and nothing else. *)
Lemma gift_model_confined_witness : exists operation,
  @call Fixtures.test_sha256 (w_env false) (w_server LocalPrincipalModel) (w_local LocalStartSender (Some w_proposal) "")
    = Some operation /\ size (mem (operation w_start).1) = 1%nat /\ confined w_start (operation w_start).1.
Proof.
  eexists. split; [reflexivity|]. split; [vm_compute; reflexivity|].
  apply (@gift_model_confined Fixtures.test_sha256 (w_env false) (w_server LocalPrincipalModel)
    (w_local LocalStartSender (Some w_proposal) "")); reflexivity.
Defined.

(** The runtime lists the records of the sample run, in a toy encoding. *)
Definition w_listed (w : world) : LocalResponse :=
  {| lp_Schema := LocalResponseSchema; lp_OK := true; lp_Error := ""; lp_Record := None;
     lp_Records := localRecordView <$> List (w_journal w) |}.

Lemma gift_local_roundtrip_witness :
  length (lp_Records (w_listed (w_run false))) = 1%nat /\
  client_call (fun _ => "request"%string) (fun _ => Some (w_listed (w_run false)))
    (fun framed => match (@handle Fixtures.test_sha256 (w_env false) (fun _ => Some (w_local LocalList None ""))
        (fun _ => "response"%string) (w_server LocalPrincipalRuntime) framed (w_run false)).2 with
       Reply out => Ok out | _ => Err "closed" end)
    (w_local LocalList None "") = Ok (w_listed (w_run false)).
Proof.
  split; [vm_compute; reflexivity|]. generalize (w_run false). intros w.
  destruct (@gift_local_roundtrip Fixtures.test_sha256 (w_env false) (fun _ => "request"%string)
    (fun _ => Some (w_local LocalList None "")) (fun _ => "response"%string) (fun _ => Some (w_listed w))
    (w_server LocalPrincipalRuntime) (w_local LocalList None "") w) as (operation & Hop & H);
    [reflexivity|vm_compute; reflexivity|vm_compute; split; [reflexivity|discriminate]|reflexivity|].
  change (Some (bind list_records (fun values => ret {| lp_Schema := LocalResponseSchema; lp_OK := false;
    lp_Error := ""; lp_Record := None; lp_Records := localRecordView <$> values |})) = Some operation) in Hop.
  injection Hop as <-.
  exact (proj2 (H ltac:(vm_compute; split; [reflexivity|discriminate]) eq_refl)).
Defined.

End witness.

End GiftLocal.
