(* ===== verification/GiftRuntime.v ===== *)
(** * The Agent Gift reconciliation loop
    (src/pkg/servicebridge/nativeimpl/agent_gift_runtime.go, agent_gift.go)

    The daemon's loop: it takes each journal record one operation further and
    applies what the messenger delivers. The messenger and the gift protocol's
    decoders are code of other repositories and appear as an interface. *)

From S2P Require Import Prelude GoLib GoText FileStore Ledger Protocol Fixtures Gift GiftService GiftSafety.
#[local] Open Scope N_scope.

Module GiftRuntime.
Import Gift GiftService GiftSafety.

(** ** Configuration *)

Record AgentGiftRuntimeConfig := {
  gc_LocalAgentID : string;
  gc_Network : string;
  gc_GlobalID : Z;
  gc_ResponseLifetime : Z;
  gc_PollInterval : Z;
  gc_ApplicationLease : Z;
  gc_FinalityPollInterval : Z
}.

Definition canonicalGiftAgentID (value : string) : bool :=
  if negb (slen value =? 70) || negb (HasPrefix value "agent_") then false
  else match hex_DecodeString (skip 6 value) with Some _ => true | None => false end.

Definition or_default (value default : Z) : Z := if (value =? 0)%Z then default else value.

Definition NewAgentGiftRuntime (config : AgentGiftRuntimeConfig) : result AgentGiftRuntimeConfig :=
  if negb (canonicalGiftAgentID (gc_LocalAgentID config)) || bool_decide (gc_Network config = ""%string)
     || (gc_GlobalID config =? 0)%Z
  then Err "nativeimpl: incomplete Agent Gift runtime"
  else
    let lifetime := or_default (gc_ResponseLifetime config) Hour in
    let poll := or_default (gc_PollInterval config) Second in
    let lease := or_default (gc_ApplicationLease config) Minute in
    let finality := or_default (gc_FinalityPollInterval config) (15 * Second) in
    if (lifetime <? Minute)%Z || (24 * Hour <? lifetime)%Z || (poll <? 100000000)%Z || (Minute <? poll)%Z
       || (lease <? 30 * Second)%Z || (10 * Minute <? lease)%Z || (finality <? Second)%Z || (10 * Minute <? finality)%Z
    then Err "nativeimpl: invalid bounded Agent Gift runtime policy"
    else Ok {| gc_LocalAgentID := gc_LocalAgentID config; gc_Network := gc_Network config;
               gc_GlobalID := gc_GlobalID config; gc_ResponseLifetime := lifetime; gc_PollInterval := poll;
               gc_ApplicationLease := lease; gc_FinalityPollInterval := finality |}.

(** ** One record *)

Definition refreshableGiftState (state : State) : bool :=
  match state with
  | StateOfferDelivered | StateBroadcastSubmitted | StateCurrentlyExecutable | StateCurrentlyUnexecutable
  | StateInsufficientFunds | StateFinalityUnknown => true
  | _ => false
  end.

Section choice.
Context (config : AgentGiftRuntimeConfig) (now : nat -> Z).

Definition shouldRefresh (k : nat) (record : GiftRecord) : bool :=
  (gc_FinalityPollInterval config / Second <=? Unix (now k) - g_UpdatedAtUnix record)%Z.

Definition retryReady (k : nat) (record : GiftRecord) : bool :=
  (g_RetryNotBeforeUnix record =? 0)%Z || (g_RetryNotBeforeUnix record <=? Unix (now k))%Z.

(** Until when the recipient's response is valid. *)
Definition response_deadline (record : GiftRecord) : result N :=
  if negb (g_ResponseNotAfter record =? 0) then Ok (g_ResponseNotAfter record)
  else
    let deadline := Unix (time_Add (now 0%nat) (gc_ResponseLifetime config)) in
    let deadline :=
      if (deadline <=? Unix (now 0%nat))%Z || (Z.of_N (g_RequestedValidUntil record) <? deadline)%Z
      then Z.of_N (g_RequestedValidUntil record) else deadline in
    if (deadline <=? Unix (now 0%nat))%Z then Err "nativeimpl: Gift address request expired before response"
    else Ok (to_u32 deadline).

(** The operation [advance] calls for a record, if any: its switch, with the
    clock readings in order. *)
Definition choose (record : GiftRecord) : result (option op) :=
  let i := g_IntentID record in
  match g_Role record with
  | RoleSender =>
      Ok (if bool_decide (g_PendingEffect record = EffectCancel) && shouldRefresh 0 record then Some (OpRefresh i)
          else if bool_decide (g_PendingEffect record = EffectPrepareCancel) then Some (OpCancel i)
          else if bool_decide (g_State record = StateRecipientResolved)
                  || (bool_decide (g_State record = StateAddressRequested)
                      && bool_decide (g_PendingEffect record = EffectSendAddressRequest))
          then Some (OpRequestAddress i)
          else if bool_decide (g_State record = StateOwnerAuthorized) then Some (OpSign i (g_DisplayMessage record))
          else if bool_decide (g_State record = StateBOCSigned) then Some (OpDeliverOffer i)
          else if negb (slen (g_ExactCancellationBOC record) =? 0)
                  && bool_decide (g_PendingEffect record = EffectNone) && unconsumed (g_State record)
                  && retryReady 1 record
          then Some (OpCancel i)
          else if refreshableGiftState (g_State record) && shouldRefresh 2 record then Some (OpRefresh i)
          else None)
  | RoleRecipient =>
      if bool_decide (g_State record = StateAddressRequestObserved) then
        match response_deadline record with
        | Ok notAfter => Ok (Some (OpRespondAddress i notAfter))
        | Err m => Err m
        end
      else
        Ok (if bool_decide (g_PendingEffect record = EffectBroadcast) && shouldRefresh 0 record then Some (OpRefresh i)
            else if (bool_decide (g_State record = StateSignedOfferObserved)
                     || bool_decide (g_State record = StateVerified))
                    && negb (slen (g_CanonicalOffer record) =? 0)
            then Some (OpObserveAndBroadcastOffer i (g_CanonicalOffer record))
            else if bool_decide (g_State record = StateCurrentlyExecutable)
                    && negb (slen (g_CanonicalOffer record) =? 0) && retryReady 1 record
            then Some (OpObserveAndBroadcastOffer i (g_CanonicalOffer record))
            else if refreshableGiftState (g_State record) && shouldRefresh 2 record then Some (OpRefresh i)
            else None)
  | RoleOther _ => Err "nativeimpl: invalid Agent Gift runtime role"
  end.

End choice.

(** ** What the messenger delivers *)

Definition giftApplicationKind (kind : string) : bool :=
  bool_decide (kind = "agent.gift.address-request"%string) || bool_decide (kind = "agent.gift.address-response"%string)
  || bool_decide (kind = "agent.gift.signed-boc-offer"%string).

(** [envelope.Event], as far as the loop reads it. *)
Record Event := {
  ev_EventID : string;
  ev_RoomID : string;
  ev_SenderAgentID : string;
  ev_Kind : string;
  ev_Content : string
}.

(** [localapi.PendingEvent] *)
Record PendingEvent := {
  pe_EventID : string;
  pe_Event : string
}.

(** What [payload.Decode] returns. *)
Inductive GiftPayload :=
| GiftAddressRequest (canonical : string)
| GiftAddressResponse (canonical : string)
| GiftSignedBOCOffer (canonical : string)
| OtherPayload.

Record AgentGiftInbound := {
  in_EventID : string;
  in_SenderAgentID : string;
  in_Kind : string;
  in_Canonical : string
}.

Class Messenger := {
  DecodeEventJSON : string -> result Event;
  RequiresEstablishedDirect : string -> bool;
  payload_Decode : string -> string -> result GiftPayload;
  DecodeAddressRequest : string -> result (string * Z);      (* network, global ID *)
  DecodeAddressResponse : string -> result string;            (* gift intent ID *)
  DecodeSignedBOCOffer : string -> result string;
  OpPendingAgentGifts : list event -> result (list PendingEvent);
  OpClaimAgentGift : list event -> string -> result (option PendingEvent);
  OpReject : list event -> string -> result unit;
  OpComplete : list event -> string -> result unit;
  newGiftLeaseID : list event -> result string
}.

Definition fault : Type := string.
Definition AgentGiftFaultRecordReconcile : fault := "record-reconcile".
Definition AgentGiftFaultPendingCorrupt : fault := "pending-event-corrupt".
Definition AgentGiftFaultInboundRejected : fault := "inbound-event-rejected".
Definition AgentGiftFaultInfrastructure : fault := "messenger-infrastructure".

(** The loop's state: the service's world and the faults in order. *)
Record runtime := {
  rt_world : world;
  rt_faults : list fault
}.

Definition FaultCounts (r : runtime) (code : fault) : N :=
  N.of_nat (length (List.filter (fun f => bool_decide (f = code)) (rt_faults r))).

Definition recordFault (code : fault) (r : runtime) : runtime :=
  {| rt_world := rt_world r; rt_faults := code :: rt_faults r |}.

Section loop.
Context `{SHA : Sha256} `{ENV : Environment} `{MSG : Messenger}.
Implicit Type config : AgentGiftRuntimeConfig.

Definition DecodeClaimedAgentGift (claim : PendingEvent) : result AgentGiftInbound :=
  if bool_decide (pe_EventID claim = ""%string) || (slen (pe_Event claim) =? 0)
  then Err "nativeimpl: incomplete claimed Messenger Event"
  else
    match DecodeEventJSON (pe_Event claim) with
    | Err _ => Err "nativeimpl: claimed Event is not an established-direct Gift"
    | Ok event =>
        if negb (bool_decide (ev_EventID event = pe_EventID claim)) || negb (bool_decide (ev_RoomID event = ""%string))
           || negb (RequiresEstablishedDirect (ev_Kind event))
        then Err "nativeimpl: claimed Event is not an established-direct Gift"
        else
          let inbound canonical :=
            {| in_EventID := ev_EventID event; in_SenderAgentID := ev_SenderAgentID event; in_Kind := ev_Kind event;
               in_Canonical := canonical |} in
          match payload_Decode (ev_Kind event) (ev_Content event) with
          | Err m => Err m
          | Ok (GiftAddressRequest canonical) => Ok (inbound canonical)
          | Ok (GiftAddressResponse canonical) => Ok (inbound canonical)
          | Ok (GiftSignedBOCOffer canonical) => Ok (inbound canonical)
          | Ok OtherPayload => Err "nativeimpl: claimed Event is not an Agent Gift payload"
          end
    end.

(** Readings of the clock. *)
Definition clocks : M (nat -> Z) := fun w => (logged w EvQuery, Ok (env_now (w_log w))).

Definition advance config (record : GiftRecord) : M unit :=
  do now <- clocks;
  match choose config now record with
  | Err m => raise m
  | Ok None => ret tt
  | Ok (Some o) => do _ <- run o; ret tt
  end.

Definition findRecord (w : world) (intent : string) : option GiftRecord :=
  List.find (fun record => bool_decide (g_IntentID record = intent)) (List (w_journal w)).

Definition offerDurable (w : world) (intent canonical : string) : bool :=
  existsb (fun record =>
    bool_decide (g_IntentID record = intent) && bool_decide (g_Role record = RoleRecipient)
    && negb (bool_decide (g_State record = StateSignedOfferObserved))
    && (bool_decide (g_CanonicalOffer record = canonical)
        || bool_decide (g_CanonicalOfferDigest record = canonicalBytesDigest canonical))) (List (w_journal w)).

(** [applyInbound]: whether the message is durable, and the error. *)
Definition applyInbound config (inbound : AgentGiftInbound) (w : world) : world * (bool * result unit) :=
  let canonical := in_Canonical inbound in
  let then_advance o :=
    match run o w with
    | (w1, Err m) => (w1, (false, Err m))
    | (w1, Ok record) => let '(w2, r) := advance config record w1 in (w2, (true, r))
    end in
  if bool_decide (in_Kind inbound = "agent.gift.address-request"%string) then
    match DecodeAddressRequest canonical with
    | Err m => (w, (false, Err m))
    | Ok (network, globalID) =>
        if negb (bool_decide (network = gc_Network config)) || negb (globalID =? gc_GlobalID config)%Z
        then (w, (false, Err "nativeimpl: Gift request conflicts with fixed runtime network"))
        else then_advance (OpObserveRecipientRequest canonical (gc_LocalAgentID config) (in_SenderAgentID inbound))
    end
  else if bool_decide (in_Kind inbound = "agent.gift.address-response"%string) then
    match DecodeAddressResponse canonical with
    | Err m => (w, (false, Err m))
    | Ok intent =>
        match findRecord w intent with
        | None => (w, (false, Err "nativeimpl: Gift response sender conflicts with durable intent"))
        | Some existing =>
            if negb (bool_decide (g_Role existing = RoleSender))
               || negb (bool_decide (g_RecipientAgentID existing = in_SenderAgentID inbound))
            then (w, (false, Err "nativeimpl: Gift response sender conflicts with durable intent"))
            else then_advance (OpObserveAddressResponse intent canonical)
        end
    end
  else if bool_decide (in_Kind inbound = "agent.gift.signed-boc-offer"%string) then
    match DecodeSignedBOCOffer canonical with
    | Err m => (w, (false, Err m))
    | Ok intent =>
        match findRecord w intent with
        | None => (w, (false, Err "nativeimpl: Gift offer sender conflicts with durable intent"))
        | Some existing =>
            if negb (bool_decide (g_Role existing = RoleRecipient))
               || negb (bool_decide (g_SenderAgentID existing = in_SenderAgentID inbound))
            then (w, (false, Err "nativeimpl: Gift offer sender conflicts with durable intent"))
            else
              let '(w1, r) := run (OpObserveAndBroadcastOffer intent canonical) w in
              (w1, (offerDurable w1 intent canonical, match r with Ok _ => Ok tt | Err m => Err m end))
        end
    end
  else (w, (false, Err "nativeimpl: unsupported Agent Gift application kind")).

(** A call to the messenger. *)
Definition ask {A} (question : list event -> result A) (r : runtime) : runtime * result A :=
  ({| rt_world := logged (rt_world r) EvQuery; rt_faults := rt_faults r |}, question (w_log (rt_world r))).

Definition advance_one config (r : runtime) (record : GiftRecord) : runtime :=
  let '(w1, res) := advance config record (rt_world r) in
  let r1 := {| rt_world := w1; rt_faults := rt_faults r |} in
  match res with Ok _ => r1 | Err _ => recordFault AgentGiftFaultRecordReconcile r1 end.

(** Rejects a claimed event; the loop goes on if the messenger agrees. *)
Definition reject (event_id : string) (r : runtime) : runtime * result unit :=
  ask (fun log => OpReject log event_id) (recordFault AgentGiftFaultInboundRejected r).

(** The body of the loop over pending events. *)
Definition handle_candidate config (candidate : PendingEvent) (r : runtime) : runtime * result unit :=
  match DecodeEventJSON (pe_Event candidate) with
  | Err _ => (recordFault AgentGiftFaultPendingCorrupt r, Ok tt)
  | Ok event =>
      if negb (giftApplicationKind (ev_Kind event)) then (r, Ok tt)
      else
        let '(r1, lease) := ask newGiftLeaseID r in
        match lease with
        | Err m => (r1, Err m)
        | Ok _ =>
            let '(r2, claimed) := ask (fun log => OpClaimAgentGift log (pe_EventID candidate)) r1 in
            match claimed with
            | Err m => (r2, Err m)
            | Ok None => reject (pe_EventID candidate) r2
            | Ok (Some claim) =>
                match DecodeClaimedAgentGift claim with
                | Err _ => reject (pe_EventID candidate) r2
                | Ok inbound =>
                    let '(w3, (durable, applied)) := applyInbound config inbound (rt_world r2) in
                    let r3 := {| rt_world := w3; rt_faults := rt_faults r2 |} in
                    match applied with
                    | Err _ =>
                        if negb durable then reject (in_EventID inbound) r3
                        else ask (fun log => OpComplete log (in_EventID inbound))
                               (recordFault AgentGiftFaultInboundRejected r3)
                    | Ok _ => ask (fun log => OpComplete log (in_EventID inbound)) r3
                    end
                end
            end
        end
  end.

Fixpoint handle_candidates config (pending : list PendingEvent) (r : runtime) : runtime * result unit :=
  match pending with
  | [] => (r, Ok tt)
  | candidate :: rest =>
      let '(r1, res) := handle_candidate config candidate r in
      match res with Err m => (r1, Err m) | Ok _ => handle_candidates config rest r1 end
  end.

Definition RunOnce config (r : runtime) : runtime * result unit :=
  let r1 := fold_left (advance_one config) (List (w_journal (rt_world r))) r in
  let '(r2, pending) := ask OpPendingAgentGifts r1 in
  match pending with
  | Err m => (r2, Err m)
  | Ok candidates => handle_candidates config candidates r2
  end.

(** One turn of [Run]. *)
Definition run_turn config (r : runtime) : runtime :=
  let '(r1, res) := RunOnce config r in
  match res with Ok _ => r1 | Err _ => recordFault AgentGiftFaultInfrastructure r1 end.

(** ** Lemmas *)

(** [r] leads to [r'] by steps of the service. *)
Definition leads (r r' : runtime) : Prop := rtc step_world (rt_world r) (rt_world r').

Lemma steps_ask w : rtc step_world w (logged w EvQuery).
Proof. apply rtc_once, step_ask. Qed.

Lemma steps_op o w : rtc step_world w (run o w).1.
Proof. apply rtc_once, step_op. Qed.

Lemma ask_leads {A} (question : list event -> result A) r : leads r (ask question r).1.
Proof. apply steps_ask. Qed.

Lemma advance_steps config record w : rtc step_world w (advance config record w).1.
Proof.
  unfold advance, bind, clocks. cbn [fst snd]. etransitivity; [apply steps_ask|].
  destruct (choose config _ record) as [[o|]|m]; [|done|done].
  pose proof (steps_op o (logged w EvQuery)) as H. by destruct (run o (logged w EvQuery)) as [w1 [x|m]].
Qed.

Lemma advance_one_leads config r record : leads r (advance_one config r record).
Proof.
  unfold leads, advance_one. pose proof (advance_steps config record (rt_world r)) as H.
  destruct (advance config record (rt_world r)) as [w1 [x|m]]; exact H.
Qed.

Lemma applyInbound_steps config inbound w : rtc step_world w (applyInbound config inbound w).1.
Proof.
  assert (forall o, rtc step_world w
    (match run o w with
     | (w1, Err m) => (w1, (false, Err m))
     | (w1, Ok record) => let '(w2, r) := advance config record w1 in (w2, (true, r))
     end).1) as Hthen.
  { intros o. pose proof (steps_op o w) as H. destruct (run o w) as [w1 [record|m]]; [|done].
    etransitivity; [exact H|]. pose proof (advance_steps config record w1) as H1.
    by destruct (advance config record w1). }
  assert (forall o intent, rtc step_world w
    (let '(w1, r) := run o w in
     (w1, (offerDurable w1 intent (in_Canonical inbound), match r with Ok _ => Ok tt | Err m => Err m end))).1) as Hoffer.
  { intros o intent. pose proof (steps_op o w) as H. by destruct (run o w). }
  unfold applyInbound. cbn zeta. destruct (bool_decide _).
  { destruct (DecodeAddressRequest _) as [[network globalID]|]; [|done]. destruct (_ || _); [done|apply Hthen]. }
  destruct (bool_decide _).
  { destruct (DecodeAddressResponse _) as [intent|]; [|done]. destruct (findRecord w intent); [|done].
    destruct (_ || _); [done|apply Hthen]. }
  destruct (bool_decide _); [|done]. destruct (DecodeSignedBOCOffer _) as [intent|]; [|done].
  destruct (findRecord w intent); [|done]. destruct (_ || _); [done|apply Hoffer].
Qed.

Lemma reject_leads id r : leads r (reject id r).1.
Proof. exact (steps_ask (rt_world r)). Qed.

Lemma leads_trans r1 r2 r3 : leads r1 r2 -> leads r2 r3 -> leads r1 r3.
Proof. unfold leads. intros H1 H2. by etransitivity. Qed.

Lemma handle_candidate_leads config candidate r : leads r (handle_candidate config candidate r).1.
Proof.
  unfold handle_candidate. destruct (DecodeEventJSON _) as [event|]; [|apply rtc_refl].
  destruct (negb _); [apply rtc_refl|].
  pose proof (ask_leads newGiftLeaseID r) as H1. destruct (ask newGiftLeaseID r) as [r1 [lease|]]; [|exact H1].
  pose proof (ask_leads (fun log => OpClaimAgentGift log (pe_EventID candidate)) r1) as H2.
  destruct (ask _ r1) as [r2 [[claim|]|]]; eapply leads_trans; try exact H1.
  3:{ exact H2. }
  2:{ eapply leads_trans; [exact H2|apply reject_leads]. }
  eapply leads_trans; [exact H2|]. destruct (DecodeClaimedAgentGift claim) as [inbound|]; [|apply reject_leads].
  pose proof (applyInbound_steps config inbound (rt_world r2)) as H3.
  destruct (applyInbound config inbound (rt_world r2)) as [w3 [durable [u|m]]].
  - exact (rtc_r _ _ _ H3 (step_ask w3)).
  - destruct (negb durable); exact (rtc_r _ _ _ H3 (step_ask w3)).
Qed.

Lemma handle_candidates_leads config pending r : leads r (handle_candidates config pending r).1.
Proof.
  revert r. induction pending as [|candidate pending IH]; intros r; cbn; [apply rtc_refl|].
  pose proof (handle_candidate_leads config candidate r) as H.
  destruct (handle_candidate config candidate r) as [r1 [u|m]]; [|exact H]. eapply leads_trans; [exact H|apply IH].
Qed.

(** The daemon's loop is a client of the operations: whatever the
    messenger answers, one turn of the loop is a sequence of steps of the gift
    service, so that all that holds of its runs holds of the daemon. *)
Theorem gift_runtime_refines config r : rtc step_world (rt_world r) (rt_world (run_turn config r)).
Proof.
  assert (leads r (RunOnce config r).1) as H.
  { unfold RunOnce. set (records := List (w_journal (rt_world r))). clearbody records.
    assert (leads r (fold_left (advance_one config) records r)) as H1.
    { revert r. induction records as [|x records IH]; intros r; cbn; [apply rtc_refl|].
      eapply leads_trans; [apply advance_one_leads|apply IH]. }
    eapply leads_trans; [exact H1|]. generalize (fold_left (advance_one config) records r) as r1. intros r1.
    pose proof (ask_leads OpPendingAgentGifts r1) as H2. destruct (ask OpPendingAgentGifts r1) as [r2 [pending|]]; [|exact H2].
    eapply leads_trans; [exact H2|apply handle_candidates_leads]. }
  unfold run_turn. destruct (RunOnce config r) as [r1 [u|m]]; exact H.
Qed.

End loop.

(** The recipient's response expires in time: the validity the daemon
    puts into a fresh address response lies after the present and not after
    the validity the sender asked for, at its 32-bit width. *)
Theorem gift_response_deadline config now record n :
  g_ResponseNotAfter record = 0 -> g_RequestedValidUntil record <= MaxUint32 -> (0 <= now 0%nat)%Z ->
  response_deadline config now record = Ok n ->
  (Unix (now 0%nat) < Z.of_N n)%Z /\ n <= g_RequestedValidUntil record.
Proof.
  intros H0 Hm Hn. unfold response_deadline. rewrite H0. cbn [negb N.eqb].
  set (d := Unix (time_Add _ _)). set (d' := if _ || _ then _ else _).
  destruct (d' <=? Unix (now 0%nat))%Z eqn:E; [done|]. apply Z.leb_gt in E. intros [= <-].
  assert (0 <= Unix (now 0%nat))%Z by (apply Z.div_pos; lia).
  assert (d' <= Z.of_N (g_RequestedValidUntil record))%Z as Hd.
  { unfold d'. destruct (_ || _) eqn:Eo; [lia|]. apply orb_false_iff in Eo as [_ Eo]. apply Z.ltb_ge in Eo. lia. }
  unfold to_u32. unfold MaxUint32 in Hm. rewrite Z.mod_small by lia. split; lia.
Qed.

Section witness.

Definition w_config : AgentGiftRuntimeConfig :=
  {| gc_LocalAgentID := "agent_"; gc_Network := "mainnet"; gc_GlobalID := 1; gc_ResponseLifetime := Hour;
     gc_PollInterval := Second; gc_ApplicationLease := Minute; gc_FinalityPollInterval := 15 * Second |}.

Definition w_observed : GiftRecord :=
  observed_record {| ri_Network := "mainnet"; ri_GlobalID := 1; ri_IntentID := w_intent; ri_SenderAgentID := "bob";
    ri_RecipientAgentID := "alice"; ri_SenderAgentAccount := "account"; ri_AmountAtomic := "25";
    ri_RequestedValidUntil := 9000 |} "digest" "request" (1000 * Second)%Z.

(** At second 1000, an hour ahead is second 4600. *)
Lemma gift_response_deadline_witness :
  response_deadline w_config (fun _ => (1000 * Second)%Z) w_observed = Ok 4600 /\
  (Unix (1000 * Second) < Z.of_N 4600)%Z /\ 4600 <= 9000.
Proof.
  split; [vm_compute; reflexivity|].
  apply (gift_response_deadline w_config (fun _ => (1000 * Second)%Z) w_observed 4600);
    vm_compute; first [reflexivity | discriminate].
Defined.

End witness.

End GiftRuntime.
