(* ===== verification/GoProg.v ===== *)
(** * Programs that call their collaborators

    Code whose collaborators are interfaces, and which other code may run
    beside it, is a tree of calls: an action (a method with its arguments) and,
    for each answer, what the code does next. A history lists the calls made so
    far with their answers, the newest first. What holds of every call of a
    program, given the calls before it, is checked by the predicate [always];
    [run] executes a program against a handler. *)

From S2P Require Import Prelude.

Section prog.
Context {action : Type} {answer : action -> Type}.

Inductive prog (A : Type) : Type :=
| Ret (a : A)
| Call (a : action) (k : answer a -> prog A).
Arguments Ret {A} a.
Arguments Call {A} a k.

(** A call that was made and its answer. *)
Inductive event : Type :=
| Ev (a : action) (r : answer a).

(** Every call satisfies [P], every result [Q], given the history. *)
Fixpoint always {A} (P : list event -> event -> Prop) (Q : list event -> A -> Prop) (h : list event)
    (p : prog A) : Prop :=
  match p with
  | Ret a => Q h a
  | Call a k => forall r, P h (Ev a r) /\ always P Q (Ev a r :: h) (k r)
  end.

(** Every event of a history satisfies [P] given the events before it. *)
Fixpoint history_ok (P : list event -> event -> Prop) (h : list event) : Prop :=
  match h with
  | [] => True
  | ev :: rest => P rest ev /\ history_ok P rest
  end.

Lemma history_ok_elem P h ev : history_ok P h -> ev ∈ h -> exists h1 h2, h = h1 ++ ev :: h2 /\ P h2 ev.
Proof.
  induction h as [|x h IH]; cbn; [by intros _ ?%not_elem_of_nil|]. intros [Hx Hh] [->|Hin]%elem_of_cons.
  - by exists [], h.
  - destruct (IH Hh Hin) as (h1 & h2 & -> & HP). by exists (x :: h1), h2.
Qed.

Section run.
Context {S : Type} (handle : S -> forall a, S * answer a).

(** Run to the end, alone. *)
Fixpoint run {A} (p : prog A) (s : S) (h : list event) : S * list event * A :=
  match p with
  | Ret a => (s, h, a)
  | Call a k => let '(s', r) := handle s a in run (k r) s' (Ev a r :: h)
  end.

Lemma run_always {A} P Q (p : prog A) : forall s h s' h' x,
  always P Q h p -> history_ok P h -> run p s h = (s', h', x) -> history_ok P h' /\ Q h' x.
Proof.
  induction p as [a|a k IH]; intros s h s' h' x Hp Hh; cbn.
  - by intros [= <- <- <-].
  - destruct (handle s a) as [s1 r]. destruct (Hp r) as [HP Hk]. by apply IH.
Qed.
End run.

End prog.

Arguments prog {action} answer A.
Arguments Ret {action answer A} a.
Arguments Call {action answer A} a k.
Arguments event {action} answer.
Arguments Ev {action answer} a r.

(** [x := f(...)]; [x, err := f(...); if err != nil { return ..., err }] *)
Notation "'call' x <- c ; k" := (Call c (fun x => k))
  (at level 10, x pattern, c at level 100, k at level 200) : go_scope.
Notation "'attempt' x <- c ; k" := (Call c (fun y => match y with Ok x => k | Err m => Ret (Err m) end))
  (at level 10, x pattern, c at level 100, k at level 200) : go_scope.
