(* ===== verification/Bridge.v ===== *)
(** * The service bridge: types, owner policy and purchase journals

    src/pkg/servicebridge: the data of a purchase (types.go), the owner's
    spending policy (policy.go), the phase machine and the two journals
    (journal.go, file_journal.go). A journal is a class of operations; what the
    buyer relies on is the class [JournalContract], which says that every
    operation acts on the slots atomically or fails with the slots in memory
    unchanged, and that a reopened journal holds what was stored. *)

From S2P Require Import Prelude GoLib GoText FileStore Ledger.
#[local] Open Scope N_scope.

Module Bridge.

(** ** Types *)

Record Network := {
  n_ID : string;
  n_GenesisRootHash : string;
  n_GenesisFileHash : string
}.

Record AssetIdentity := {
  a_Master : string;
  a_WalletCodeHash : string;
  a_Network : Network;
  a_Workchain : Z;
  a_MasterCodeHash : string;
  a_Decimals : N
}.

Record CapabilityRef := {
  c_AgentID : string;
  c_CapabilityID : string;
  c_Version : string;
  c_ManifestDigest : string;
  c_RegistryCodeHash : string;
  c_Network : Network;
  c_CapabilityClass : string
}.

Record QuoteProposal := {
  q_Capability : CapabilityRef;
  q_Asset : AssetIdentity;
  q_MaxAtomicAmount : N;
  q_Expiry : Z;
  q_ExecutionSigner : string;
  q_EndpointCommit : string;
  q_DisputeTerms : string;
  q_TransportBindingDigest : string;
  q_EscrowTermsDigest : string;
  q_AtomicAmount : string
}.

Record AcceptedQuote := {
  aq_Proposal : QuoteProposal;
  aq_QuoteCommitment : string;
  aq_EscrowAddress : string;
  aq_EscrowStateInit : string;
  aq_FundingQueryID : N
}.

Record Task := {
  t_EscrowAddress : string;
  t_QuoteCommitment : string;
  t_ExecutionID : string;
  t_InputDigest : string;
  t_SourceDigest : string;
  t_SourceArchive : string
}.

Record EscrowState := {
  es_Address : string;
  es_Found : bool;
  es_FundedAtomic : N;
  es_SettledAtomic : N;
  es_ReceiptCommit : string;
  es_AwaitingFunding : bool;
  es_Checkpoint : N
}.

Record Outcome := {
  o_ExecutionID : string;
  o_QuoteCommitment : string;
  o_ArtifactDigest : string;
  o_ReportDigest : string;
  o_ExitCode : Z;
  o_CompletedUnix : Z
}.

Record Receipt := {
  r_Commitment : string;
  r_QuoteCommitment : string;
  r_ExecutionID : string;
  r_ChargedAtomic : N;
  r_ReleaseQueryID : N
}.

Record Settlement := {
  s_Released : bool;
  s_Refunded : bool;
  s_ProviderCreditAtomic : N;
  s_BuyerBalanceAtomic : N;
  s_Checkpoint : N
}.

(** [Transport] is a string type with three named values. *)
Definition Transport := string.
Definition TransportA2A : Transport := "a2a".
Definition TransportMCP : Transport := "mcp".
Definition TransportAgentPacket : Transport := "agent_packet".

#[global] Instance Network_eq_dec : EqDecision Network.
Proof. solve_decision. Defined.
#[global] Instance AssetIdentity_eq_dec : EqDecision AssetIdentity.
Proof. solve_decision. Defined.

Definition Equal (a other : AssetIdentity) : bool :=
  bool_decide (a_Master a = a_Master other) && bool_decide (a_WalletCodeHash a = a_WalletCodeHash other)
  && bool_decide (a_Network a = a_Network other) && (a_Workchain a =? a_Workchain other)%Z
  && bool_decide (a_MasterCodeHash a = a_MasterCodeHash other) && (a_Decimals a =? a_Decimals other).

(** ** The owner's spending policy *)

Inductive ConfirmationMode :=
| ConfirmAuto
| ConfirmManual
| ConfirmOther (value : string).

#[global] Instance ConfirmationMode_eq_dec : EqDecision ConfirmationMode.
Proof. solve_decision. Defined.

Record SpendingPolicy := {
  p_Asset : AssetIdentity;
  p_MaxAtomicPurchase : N;
  p_DailyBudgetAtomic : N;
  p_Window : Z;
  p_Expiry : Z;
  p_CapabilityAllow : gmap string bool;
  p_ConfirmationMode : ConfirmationMode;
  p_OwnerSignature : string
}.

Definition policy_valid (p : SpendingPolicy) : bool :=
  negb (bool_decide (a_Master (p_Asset p) = ""%string))
  && negb (bool_decide (a_WalletCodeHash (p_Asset p) = ""%string))
  && (0 <? p_MaxAtomicPurchase p) && (p_MaxAtomicPurchase p <=? p_DailyBudgetAtomic p)
  && (Minute <=? p_Window p)%Z && negb (IsZero (p_Expiry p))
  && (0 <? N.of_nat (size (p_CapabilityAllow p))) && (0 <? slen (p_OwnerSignature p))
  && (bool_decide (p_ConfirmationMode p = ConfirmAuto) || bool_decide (p_ConfirmationMode p = ConfirmManual)).

Definition ErrPolicyInvalid : string := "servicebridge: owner spending policy is invalid or unsigned".
Definition ErrPolicyExpired : string := "servicebridge: owner spending policy has expired".
Definition ErrAssetNotAllowed : string := "servicebridge: quote asset does not match the policy asset identity".
Definition ErrCapabilityNotAllowed : string := "servicebridge: capability is not on the owner allow-list".
Definition ErrOverPurchaseLimit : string := "servicebridge: quote amount exceeds the per-purchase limit".
Definition ErrOverDailyBudget : string := "servicebridge: quote amount exceeds the remaining windowed budget".
Definition ErrManualConfirmation : string := "servicebridge: policy requires manual owner confirmation".

Definition Authorize (policy : SpendingPolicy) (proposal : QuoteProposal) (spentInWindowAtomic : N) (now : Z)
    : result unit :=
  if negb (policy_valid policy) then Err ErrPolicyInvalid
  else if negb (now <? p_Expiry policy)%Z then Err ErrPolicyExpired
  else if negb (Equal (q_Asset proposal) (p_Asset policy)) then Err ErrAssetNotAllowed
  else if negb (default false (p_CapabilityAllow policy !! c_CapabilityID (q_Capability proposal)))
    then Err ErrCapabilityNotAllowed
  else
    let amount := q_MaxAtomicAmount proposal in
    if (amount =? 0) || (p_MaxAtomicPurchase policy <? amount) then Err ErrOverPurchaseLimit
    else if (p_DailyBudgetAtomic policy <? spentInWindowAtomic)
            || (sub64w (p_DailyBudgetAtomic policy) spentInWindowAtomic <? amount)
      then Err ErrOverDailyBudget
    else if bool_decide (p_ConfirmationMode policy = ConfirmManual) then Err ErrManualConfirmation
    else Ok tt.

(** ** Phases *)

Inductive Phase :=
| PhaseIntent
| PhasePrepared
| PhaseFundingLease
| PhaseFunded
| PhaseExecution
| PhaseReceipt
| PhaseRelease
| PhaseResolved
| PhaseOther (value : string).

#[global] Instance Phase_eq_dec : EqDecision Phase.
Proof. solve_decision. Defined.

Definition phase_valid (p : Phase) : bool :=
  match p with PhaseOther _ => false | _ => true end.

Definition Order (p : Phase) : Z :=
  match p with
  | PhaseIntent => 0
  | PhasePrepared => 1
  | PhaseFundingLease => 2
  | PhaseFunded => 3
  | PhaseExecution => 4
  | PhaseReceipt => 5
  | PhaseRelease => 6
  | PhaseResolved => 7
  | PhaseOther _ => -1
  end.

Definition CanAdvance (from to : Phase) : bool :=
  phase_valid from && phase_valid to && (Order from <? Order to)%Z.

Definition CanAcquireFundingLease (p : Phase) : bool := bool_decide (p = PhasePrepared).

Inductive ResumeAction :=
| ResumeInvalid
| ResumeMayFund
| ResumeReconcileNeverRefund
| ResumeComplete.

Definition ResumeActionFor (p : Phase) : ResumeAction :=
  if negb (phase_valid p) then ResumeInvalid
  else if (Order p <? Order PhaseFundingLease)%Z then ResumeMayFund
  else if bool_decide (p = PhaseResolved) then ResumeComplete
  else ResumeReconcileNeverRefund.

(** ** Slots *)

Record PurchaseKey := {
  k_QuoteCommitment : string;
  k_EscrowAddress : string
}.

#[global] Instance PurchaseKey_eq_dec : EqDecision PurchaseKey.
Proof. solve_decision. Defined.
#[global] Instance PurchaseKey_countable : Countable PurchaseKey.
Proof.
  refine (inj_countable' (fun k => (k_QuoteCommitment k, k_EscrowAddress k))
    (fun p => {| k_QuoteCommitment := p.1; k_EscrowAddress := p.2 |}) _).
  by intros [].
Defined.

Record PurchaseRecord := {
  pr_Key : PurchaseKey;
  pr_Phase : Phase;
  pr_AssetMaster : string;
  pr_AtomicAmount : N;
  pr_ClaimedUnix : Z
}.

#[global] Instance PurchaseRecord_eq_dec : EqDecision PurchaseRecord.
Proof. solve_decision. Defined.

Definition set_Phase (p : Phase) (r : PurchaseRecord) : PurchaseRecord :=
  {| pr_Key := pr_Key r; pr_Phase := p; pr_AssetMaster := pr_AssetMaster r;
     pr_AtomicAmount := pr_AtomicAmount r; pr_ClaimedUnix := pr_ClaimedUnix r |}.

Definition claimed (r : PurchaseRecord) (now : Z) : PurchaseRecord :=
  {| pr_Key := pr_Key r; pr_Phase := PhasePrepared; pr_AssetMaster := pr_AssetMaster r;
     pr_AtomicAmount := pr_AtomicAmount r; pr_ClaimedUnix := Unix now |}.

Abbreviation slots := (gmap PurchaseKey PurchaseRecord).

Definition ErrJournalConflict : string := "servicebridge: purchase slot already claimed by a different intent".
Definition ErrJournalMissing : string := "servicebridge: purchase slot not found".
Definition ErrJournalPhase : string := "servicebridge: invalid purchase phase transition".

(** The JSON document of the file journal. *)
Record document := {
  d_Schema : string;
  d_Records : list PurchaseRecord
}.

Definition filePurchaseJournalSchema : string := "tos.openfox.purchase-journal.v1".

(** The journal file: a document with the length of its encoding. *)
Definition journal_file := file_state (document * N).

(** What the operating system answers about an existing journal file. *)
Record file_env := {
  fe_lstat : bool;
  fe_regular : bool;
  fe_symlink : bool;
  fe_perm : N
}.

Definition file_good : file_env :=
  {| fe_lstat := true; fe_regular := true; fe_symlink := false; fe_perm := 384 |}.

(** [PurchaseJournal]: the operations. The first argument of an operation that
    writes says how the disk behaves. *)
Class PurchaseJournal (J : Type) := {
  Begin : io document -> J -> PurchaseRecord -> Z -> J * result PurchaseRecord;
  AcquireFundingLease : io document -> J -> PurchaseKey -> J * result (bool * PurchaseRecord);
  Advance : io document -> J -> PurchaseKey -> Phase -> J * result unit;
  Get : J -> PurchaseKey -> option PurchaseRecord;
  SpentInWindow : J -> Z -> Z -> N
}.

(** [-window] on an [int64]. *)
Definition neg_i64 (d : Z) : Z := if (d =? -9223372036854775808)%Z then d else (- d)%Z.

Definition cutoff (now window : Z) : Z := Unix (time_Add now (neg_i64 window)).

(** ** The in-memory journal *)

Record InMemoryJournal := { mj_records : slots }.

Definition NewInMemoryJournal : InMemoryJournal := {| mj_records := ∅ |}.

Definition mem_Begin (j : InMemoryJournal) (rec : PurchaseRecord) (now : Z)
    : InMemoryJournal * result PurchaseRecord :=
  if bool_decide (k_QuoteCommitment (pr_Key rec) = ""%string)
     || bool_decide (k_EscrowAddress (pr_Key rec) = ""%string) || (pr_AtomicAmount rec =? 0)
  then (j, Err ErrJournalPhase)
  else
    match mj_records j !! pr_Key rec with
    | Some existing =>
        if negb (bool_decide (pr_AssetMaster existing = pr_AssetMaster rec))
           || negb (pr_AtomicAmount existing =? pr_AtomicAmount rec)
        then (j, Err ErrJournalConflict)
        else (j, Ok existing)
    | None =>
        let rec := claimed rec now in
        ({| mj_records := <[pr_Key rec := rec]> (mj_records j) |}, Ok rec)
    end.

Definition mem_AcquireFundingLease (j : InMemoryJournal) (key : PurchaseKey)
    : InMemoryJournal * result (bool * PurchaseRecord) :=
  match mj_records j !! key with
  | None => (j, Err ErrJournalMissing)
  | Some rec =>
      if negb (CanAcquireFundingLease (pr_Phase rec)) then (j, Ok (false, rec))
      else
        let rec := set_Phase PhaseFundingLease rec in
        ({| mj_records := <[key := rec]> (mj_records j) |}, Ok (true, rec))
  end.

Definition mem_Advance (j : InMemoryJournal) (key : PurchaseKey) (next : Phase)
    : InMemoryJournal * result unit :=
  if negb (phase_valid next) then (j, Err ErrJournalPhase)
  else
    match mj_records j !! key with
    | None => (j, Err ErrJournalMissing)
    | Some rec =>
        if negb (CanAdvance (pr_Phase rec) next) then (j, Err ErrJournalPhase)
        else ({| mj_records := <[key := set_Phase next rec]> (mj_records j) |}, Ok tt)
    end.

Definition mem_Get (j : InMemoryJournal) (key : PurchaseKey) : option PurchaseRecord := mj_records j !! key.

(** The sum of the in-memory journal wraps around. *)
Fixpoint mem_spent_loop (since : Z) (total : N) (records : list PurchaseRecord) : N :=
  match records with
  | [] => total
  | rec :: rest =>
      if (pr_ClaimedUnix rec <? since)%Z then mem_spent_loop since total rest
      else mem_spent_loop since (add64w total (pr_AtomicAmount rec)) rest
  end.

Definition mem_SpentInWindow (j : InMemoryJournal) (now window : Z) : N :=
  mem_spent_loop (cutoff now window) 0 (map_vals (mj_records j)).

#[global] Instance InMemoryJournal_operations : PurchaseJournal InMemoryJournal := {|
  Begin := fun _ => mem_Begin;
  AcquireFundingLease := fun _ => mem_AcquireFundingLease;
  Advance := fun _ => mem_Advance;
  Get := mem_Get;
  SpentInWindow := mem_SpentInWindow
|}.

(** ** The file journal *)

Record FilePurchaseJournal := {
  fj_file : journal_file;
  fj_records : slots
}.

(** The order of [sort.Slice] in [persist]; keys are distinct. *)
Definition record_le (left right : PurchaseRecord) : Prop :=
  if bool_decide (k_QuoteCommitment (pr_Key left) = k_QuoteCommitment (pr_Key right))
  then String.le (k_EscrowAddress (pr_Key left)) (k_EscrowAddress (pr_Key right))
  else String.le (k_QuoteCommitment (pr_Key left)) (k_QuoteCommitment (pr_Key right)).

#[global] Instance record_le_dec : RelDecision record_le.
Proof. intros x y. unfold record_le. case_bool_decide; apply _. Defined.

Definition to_document (records : slots) : document :=
  {| d_Schema := filePurchaseJournalSchema; d_Records := merge_sort record_le (map_vals records) |}.

(** [persist] has its own replacement of the file, in its own order; there is
    no bound on the encoded length here. *)
Definition persist (e : io document) (records : slots) (file : journal_file) : journal_file * result unit :=
  let next := to_document records in
  match io_marshal e next with
  | None => (file, Err "json: unsupported value")
  | Some size =>
      if io_fails e CreateTemp then (file, Err "create temporary file")
      else if io_fails e ChmodTemp then (file, Err "chmod temporary file")
      else if io_fails e WriteTemp then (file, Err "write temporary file")
      else if io_fails e SyncTemp then (file, Err "sync temporary file")
      else if io_fails e CloseTemp then (file, Err "close temporary file")
      else if io_fails e RenameTemp then (file, Err "rename temporary file")
      else if io_fails e OpenDir then (FileDoc (next, size), Err "open directory")
      else if io_fails e SyncDir then (FileDoc (next, size), Err "sync directory")
      else (FileDoc (next, size), Ok tt)
  end.

Definition validPurchaseRecord (r : PurchaseRecord) : bool :=
  negb (bool_decide (k_QuoteCommitment (pr_Key r) = ""%string))
  && negb (bool_decide (k_EscrowAddress (pr_Key r) = ""%string))
  && negb (bool_decide (pr_AssetMaster r = ""%string))
  && negb (pr_AtomicAmount r =? 0) && (0 <? pr_ClaimedUnix r)%Z && phase_valid (pr_Phase r).

Definition load_records : slots -> list PurchaseRecord -> result slots :=
  load_list validPurchaseRecord pr_Key "servicebridge: invalid purchase journal record"
    "servicebridge: duplicate purchase journal record".

Definition maxJournalBytes : N := 16777216.

Definition load (f : file_env) (e : io document) (file : journal_file) : journal_file * result (slots) :=
  match file with
  | FileAbsent =>
      let '(file', r) := persist e ∅ file in
      (file', let? _ := r in Ok ∅)
  | _ =>
      if negb (fe_lstat f) || negb (fe_regular f) || fe_symlink f || negb (fe_perm f =? 384)
      then (file, Err "servicebridge: purchase journal file must be owner-only")
      else
        match file with
        | FileDoc (d, size) =>
            if (size =? 0) || (maxJournalBytes <? size) then (file, Err "servicebridge: read purchase journal")
            else if negb (bool_decide (d_Schema d = filePurchaseJournalSchema))
              then (file, Err "servicebridge: invalid purchase journal")
            else (file, load_records ∅ (d_Records d))
        | FileUndecodable => (file, Err "servicebridge: invalid purchase journal")
        | _ => (file, Err "servicebridge: read purchase journal")
        end
  end.

Definition NewFilePurchaseJournal (d : dir_env) (f : file_env) (e : io document) (file : journal_file)
    : journal_file * result FilePurchaseJournal :=
  if negb (de_abs_clean d)
  then (file, Err "servicebridge: purchase journal directory must be clean and absolute")
  else if negb (de_lstat d) || negb (de_is_dir d) || de_symlink d || negb (de_perm d =? 448)
  then (file, Err "servicebridge: purchase journal directory must be owner-private")
  else
    let '(file', r) := load f e file in
    (file', let? records := r in Ok {| fj_file := file'; fj_records := records |}).

(** Clone, change one slot, persist, publish. *)
Definition file_put {A} (e : io document) (j : FilePurchaseJournal) (key : PurchaseKey) (r : PurchaseRecord)
    (answer : A) : FilePurchaseJournal * result A :=
  let updated := <[key := r]> (fj_records j) in
  let '(file', w) := persist e updated (fj_file j) in
  match w with
  | Err m => ({| fj_file := file'; fj_records := fj_records j |}, Err m)
  | Ok _ => ({| fj_file := file'; fj_records := updated |}, Ok answer)
  end.

Definition file_Begin (e : io document) (j : FilePurchaseJournal) (rec : PurchaseRecord) (now : Z)
    : FilePurchaseJournal * result PurchaseRecord :=
  if bool_decide (k_QuoteCommitment (pr_Key rec) = ""%string)
     || bool_decide (k_EscrowAddress (pr_Key rec) = ""%string)
     || bool_decide (pr_AssetMaster rec = ""%string) || (pr_AtomicAmount rec =? 0)
     || IsZero now || (Unix now <=? 0)%Z
  then (j, Err ErrJournalPhase)
  else
    match fj_records j !! pr_Key rec with
    | Some existing =>
        if negb (bool_decide (pr_AssetMaster existing = pr_AssetMaster rec))
           || negb (pr_AtomicAmount existing =? pr_AtomicAmount rec)
        then (j, Err ErrJournalConflict)
        else (j, Ok existing)
    | None =>
        let rec := claimed rec now in
        file_put e j (pr_Key rec) rec rec
    end.

Definition file_AcquireFundingLease (e : io document) (j : FilePurchaseJournal) (key : PurchaseKey)
    : FilePurchaseJournal * result (bool * PurchaseRecord) :=
  match fj_records j !! key with
  | None => (j, Err ErrJournalMissing)
  | Some record =>
      if negb (CanAcquireFundingLease (pr_Phase record)) then (j, Ok (false, record))
      else
        let record := set_Phase PhaseFundingLease record in
        file_put e j key record (true, record)
  end.

Definition file_Advance (e : io document) (j : FilePurchaseJournal) (key : PurchaseKey) (next : Phase)
    : FilePurchaseJournal * result unit :=
  if negb (phase_valid next) then (j, Err ErrJournalPhase)
  else
    match fj_records j !! key with
    | None => (j, Err ErrJournalMissing)
    | Some record =>
        if negb (CanAdvance (pr_Phase record) next) then (j, Err ErrJournalPhase)
        else file_put e j key (set_Phase next record) tt
    end.

Definition file_Get (j : FilePurchaseJournal) (key : PurchaseKey) : option PurchaseRecord := fj_records j !! key.

(** The sum of the file journal stops at the largest [uint64]. *)
Fixpoint spent_loop (since : Z) (total : N) (records : list PurchaseRecord) : N :=
  match records with
  | [] => total
  | record :: rest =>
      if (pr_ClaimedUnix record <? since)%Z then spent_loop since total rest
      else if sub64w MaxUint64 total <? pr_AtomicAmount record then MaxUint64
      else spent_loop since (add64w total (pr_AtomicAmount record)) rest
  end.

Definition file_SpentInWindow (j : FilePurchaseJournal) (now window : Z) : N :=
  spent_loop (cutoff now window) 0 (map_vals (fj_records j)).

#[global] Instance FilePurchaseJournal_operations : PurchaseJournal FilePurchaseJournal := {|
  Begin := file_Begin;
  AcquireFundingLease := file_AcquireFundingLease;
  Advance := file_Advance;
  Get := file_Get;
  SpentInWindow := file_SpentInWindow
|}.

(** ** What a journal promises

    The slots as an atomic store: what each operation does to them. *)

Definition same_intent (existing rec : PurchaseRecord) : bool :=
  bool_decide (pr_AssetMaster existing = pr_AssetMaster rec) && (pr_AtomicAmount existing =? pr_AtomicAmount rec).

Definition spec_Begin (accepts : PurchaseRecord -> Z -> bool) (m : slots) (rec : PurchaseRecord) (now : Z)
    : result (slots * PurchaseRecord) :=
  if negb (accepts rec now) then Err ErrJournalPhase
  else
    match m !! pr_Key rec with
    | Some existing => if same_intent existing rec then Ok (m, existing) else Err ErrJournalConflict
    | None => Ok (<[pr_Key rec := claimed rec now]> m, claimed rec now)
    end.

Definition spec_Acquire (m : slots) (key : PurchaseKey) : result (slots * (bool * PurchaseRecord)) :=
  match m !! key with
  | None => Err ErrJournalMissing
  | Some r =>
      if CanAcquireFundingLease (pr_Phase r)
      then Ok (<[key := set_Phase PhaseFundingLease r]> m, (true, set_Phase PhaseFundingLease r))
      else Ok (m, (false, r))
  end.

Definition spec_Advance (m : slots) (key : PurchaseKey) (next : Phase) : result (slots * unit) :=
  match m !! key with
  | None => Err (if phase_valid next then ErrJournalMissing else ErrJournalPhase)
  | Some r => if CanAdvance (pr_Phase r) next then Ok (<[key := set_Phase next r]> m, tt) else Err ErrJournalPhase
  end.

(** The amounts claimed at or after a second. *)
Definition claimed_since (since : Z) (m : slots) : N :=
  map_sum (fun r => if (pr_ClaimedUnix r <? since)%Z then 0 else pr_AtomicAmount r) m.

(** An operation takes effect in memory and in the store, or fails: then the
    memory is as before, and the store is as before or one change ahead. *)
Definition transaction {A} (m d : slots) (spec : result (slots * A)) (m' d' : slots) (r : result A) : Prop :=
  match spec with
  | Err msg => m' = m /\ d' = d /\ r = Err msg
  | Ok (next, a) =>
      (r = Ok a /\ m' = next /\ (d' = next \/ (next = m /\ d' = d))) \/
      (is_err r = true /\ m' = m /\ (d' = d \/ d' = next))
  end.

(** [memory]: the slots the process sees; [durable]: the slots the next
    process will see. *)
Class JournalContract (J : Type) `{PurchaseJournal J} := {
  journal_ok : J -> Prop;
  memory : J -> slots;
  durable : J -> slots;
  accepts : PurchaseRecord -> Z -> bool;
  reopens : J -> J -> Prop;
  get_law j key : Get j key = memory j !! key;
  spent_law j now window :
    SpentInWindow j now window = N.min MaxUint64 (claimed_since (cutoff now window) (memory j));
  begin_law e j rec now j' r :
    journal_ok j -> Begin e j rec now = (j', r) ->
    journal_ok j' /\
    transaction (memory j) (durable j) (spec_Begin accepts (memory j) rec now) (memory j') (durable j') r;
  acquire_law e j key j' r :
    journal_ok j -> AcquireFundingLease e j key = (j', r) ->
    journal_ok j' /\ transaction (memory j) (durable j) (spec_Acquire (memory j) key) (memory j') (durable j') r;
  advance_law e j key next j' r :
    journal_ok j -> Advance e j key next = (j', r) ->
    journal_ok j' /\ transaction (memory j) (durable j) (spec_Advance (memory j) key next) (memory j') (durable j') r;
  reopen_law j j' :
    journal_ok j -> reopens j j' -> journal_ok j' /\ memory j' = durable j /\ durable j' = durable j
}.

(** ** Lemmas on the slots *)

Lemma Equal_true a b : Equal a b = true <-> a = b.
Proof.
  unfold Equal. destruct a, b; cbn. rewrite !andb_true_iff, !bool_decide_eq_true, Z.eqb_eq, N.eqb_eq. naive_solver.
Qed.

Lemma same_intent_true r rec :
  same_intent r rec = true <-> pr_AssetMaster r = pr_AssetMaster rec /\ pr_AtomicAmount r = pr_AtomicAmount rec.
Proof. unfold same_intent. by rewrite andb_true_iff, bool_decide_eq_true, N.eqb_eq. Qed.

(** Well-formed slots: what [load] accepts. *)
Definition slot_ok (k : PurchaseKey) (r : PurchaseRecord) : Prop :=
  pr_Key r = k /\ validPurchaseRecord r = true.
Definition slots_ok : slots -> Prop := map_wf validPurchaseRecord pr_Key.

(** A slot and a later version of it. *)
Record slot_le (r r' : PurchaseRecord) : Prop := {
  sl_key : pr_Key r' = pr_Key r;
  sl_asset : pr_AssetMaster r' = pr_AssetMaster r;
  sl_amount : pr_AtomicAmount r' = pr_AtomicAmount r;
  sl_claimed : pr_ClaimedUnix r' = pr_ClaimedUnix r;
  sl_order : (Order (pr_Phase r) <= Order (pr_Phase r'))%Z
}.

#[global] Instance slot_le_preorder : PreOrder slot_le.
Proof. split; [intros r; split; done || lia|]. intros r1 r2 r3 [] []. split; congruence || lia. Qed.

Lemma slot_le_set_Phase r next : (Order (pr_Phase r) <= Order next)%Z -> slot_le r (set_Phase next r).
Proof. by split. Qed.

Lemma CanAdvance_true from to :
  CanAdvance from to = true <-> phase_valid from = true /\ phase_valid to = true /\ (Order from < Order to)%Z.
Proof. unfold CanAdvance. rewrite !andb_true_iff, Z.ltb_lt. naive_solver. Qed.

Lemma CanAcquire_true p : CanAcquireFundingLease p = true <-> p = PhasePrepared.
Proof. apply bool_decide_eq_true. Qed.

Lemma spec_Begin_le accepts m rec now m' r :
  spec_Begin accepts m rec now = Ok (m', r) -> map_le slot_le m m'.
Proof.
  unfold spec_Begin. intros H. op_cases H; [reflexivity|].
  apply map_le_insert; [apply _|]. intros r0 Hr0. congruence.
Qed.

Lemma spec_Acquire_le m key m' r : spec_Acquire m key = Ok (m', r) -> map_le slot_le m m'.
Proof.
  unfold spec_Acquire. intros H. op_cases H; [|reflexivity].
  apply map_le_insert; [apply _|]. intros r0 Hr0. simplify_eq. apply slot_le_set_Phase.
  apply CanAcquire_true in Heqb. rewrite Heqb. cbn. lia.
Qed.

Lemma spec_Advance_le m key next m' r : spec_Advance m key next = Ok (m', r) -> map_le slot_le m m'.
Proof.
  unfold spec_Advance. intros H. op_cases H.
  apply map_le_insert; [apply _|]. intros r0 Hr0. simplify_eq. apply slot_le_set_Phase.
  apply CanAdvance_true in Heqb. lia.
Qed.

(** A transaction that only moves slots forward keeps the store ahead. *)
Lemma transaction_le {A} m d (spec : result (slots * A)) m' d' r :
  (forall next a, spec = Ok (next, a) -> map_le slot_le m next) ->
  transaction m d spec m' d' r -> map_le slot_le m d -> map_le slot_le m m' /\ map_le slot_le m' d'.
Proof.
  intros Hle. unfold transaction. destruct spec as [[next a]|msg].
  - specialize (Hle next a eq_refl).
    intros [(_ & -> & [->|[-> ->]])|(_ & -> & [-> | ->])] Hd; split; done || reflexivity.
  - intros (-> & -> & _) Hd. split; [reflexivity|done].
Qed.

(** ** Sums over the slots *)

Lemma spent_loop_spec since l : forall total,
  total <= MaxUint64 ->
  spent_loop since total l =
  N.min MaxUint64 (total + sumN ((fun r => if (pr_ClaimedUnix r <? since)%Z then 0 else pr_AtomicAmount r) <$> l)).
Proof.
  induction l as [|r l IH]; intros total Ht; cbn [spent_loop fmap list_fmap].
  - change (sumN []) with 0. lia.
  - change (sumN (?x :: ?l)) with (x + sumN l). destruct (_ <? since)%Z; [by rewrite IH by done|].
    rewrite sub64w_exact by lia. destruct (N.ltb_spec (MaxUint64 - total) (pr_AtomicAmount r)); [lia|].
    rewrite add64w_exact by lia. rewrite IH by lia. f_equal. lia.
Qed.

(** The saturating loop computes the exact sum, up to the largest [uint64]. *)
Lemma file_SpentInWindow_spec j now window :
  file_SpentInWindow j now window = N.min MaxUint64 (claimed_since (cutoff now window) (fj_records j)).
Proof. unfold file_SpentInWindow. by rewrite spent_loop_spec by (unfold MaxUint64; lia). Qed.

Lemma mem_spent_loop_spec since l : forall total,
  total + sumN ((fun r => if (pr_ClaimedUnix r <? since)%Z then 0 else pr_AtomicAmount r) <$> l) <= MaxUint64 ->
  mem_spent_loop since total l =
  total + sumN ((fun r => if (pr_ClaimedUnix r <? since)%Z then 0 else pr_AtomicAmount r) <$> l).
Proof.
  induction l as [|r l IH]; intros total; cbn [mem_spent_loop fmap list_fmap].
  - change (sumN []) with 0. lia.
  - change (sumN (?x :: ?l)) with (x + sumN l). intros Ht. destruct (_ <? since)%Z; [by rewrite IH|].
    rewrite add64w_exact by lia. rewrite IH by lia. lia.
Qed.

(** ** The file journal keeps the contract *)

Lemma slots_persist_cases e records file file' r :
  persist e records file = (file', r) ->
  (exists m, r = Err m /\ file' = file) \/
  (exists size, file' = FileDoc (to_document records, size) /\ (r = Ok tt \/ is_err r = true)).
Proof.
  unfold persist. destruct (io_marshal e _) as [size|]; [|intros [= <- <-]; eauto].
  repeat (destruct (io_fails e _); [intros [= <- <-]; eauto|]). intros [= <- <-]. eauto.
Qed.

Lemma load_slots_document m : slots_ok m -> load_records ∅ (d_Records (to_document m)) = Ok m.
Proof. intros Hm. apply load_list_vals; [done|]. apply merge_sort_Permutation. Qed.

(** What a file holds for the next process. *)
Definition file_slots (file : journal_file) : slots :=
  match file with
  | FileDoc (d, _) => match load_records ∅ (d_Records d) with Ok m => m | Err _ => ∅ end
  | _ => ∅
  end.

Definition file_ok (file : journal_file) : Prop :=
  exists d size, file = FileDoc (d, size) /\ d_Schema d = filePurchaseJournalSchema /\
    load_records ∅ (d_Records d) = Ok (file_slots file).

Definition file_journal_ok (j : FilePurchaseJournal) : Prop := slots_ok (fj_records j) /\ file_ok (fj_file j).

Lemma file_ok_document m size : slots_ok m -> file_ok (FileDoc (to_document m, size)).
Proof. intros Hm. eexists _, _. split_and!; [done|done|]. cbn [file_slots]. by rewrite load_slots_document. Qed.

Lemma file_slots_document m size : slots_ok m -> file_slots (FileDoc (to_document m, size)) = m.
Proof. intros Hm. cbn [file_slots]. by rewrite load_slots_document. Qed.

Lemma file_ok_slots file : file_ok file -> slots_ok (file_slots file).
Proof. intros (d & size & -> & _ & E). eapply load_list_wf; [|exact E]. apply map_Forall_empty. Qed.

(** [file_put] is the transaction that replaces one slot. *)
Lemma file_put_transaction {A} e j key r (a : A) j' w :
  file_journal_ok j -> slot_ok key r -> file_put e j key r a = (j', w) ->
  file_journal_ok j' /\
  transaction (fj_records j) (file_slots (fj_file j)) (Ok (<[key := r]> (fj_records j), a))
    (fj_records j') (file_slots (fj_file j')) w.
Proof.
  intros [Hm Hf] Hr. unfold file_put. destruct (persist _ _ _) as [file' w'] eqn:E.
  assert (slots_ok (<[key := r]> (fj_records j))) as Hn by by apply map_Forall_insert_2.
  apply slots_persist_cases in E as [(m & -> & ->)|(size & -> & Hw)].
  - intros [= <- <-]. split; [done|]. right. cbn. auto.
  - destruct w' as [[]|m]; intros [= <- <-]; cbn [fj_records fj_file].
    + split; [split; [done|by apply file_ok_document]|]. left. cbn [fj_records fj_file].
      rewrite file_slots_document by done. auto.
    + split; [split; [done|by apply file_ok_document]|]. right. cbn [fj_records fj_file].
      rewrite file_slots_document by done. auto.
Qed.

(** The guards of [Begin] on its arguments. *)
Definition file_accepts (rec : PurchaseRecord) (now : Z) : bool :=
  negb (bool_decide (k_QuoteCommitment (pr_Key rec) = ""%string)
     || bool_decide (k_EscrowAddress (pr_Key rec) = ""%string)
     || bool_decide (pr_AssetMaster rec = ""%string) || (pr_AtomicAmount rec =? 0)
     || IsZero now || (Unix now <=? 0)%Z).

Lemma file_accepts_slot rec now : file_accepts rec now = true -> slot_ok (pr_Key rec) (claimed rec now).
Proof.
  unfold file_accepts, slot_ok, validPurchaseRecord. intros H. split; [done|]. cbn. zprop.
  rewrite !bool_decide_eq_false_2, andb_true_r by done. cbn [negb andb].
  rewrite (proj2 (N.eqb_neq _ _)) by done. by apply Z.ltb_lt.
Qed.

Lemma same_intent_false r rec :
  negb (bool_decide (pr_AssetMaster r = pr_AssetMaster rec)) || negb (pr_AtomicAmount r =? pr_AtomicAmount rec)
  = negb (same_intent r rec).
Proof. unfold same_intent. by rewrite negb_andb. Qed.

Lemma file_Begin_law e j rec now j' r :
  file_journal_ok j -> file_Begin e j rec now = (j', r) ->
  file_journal_ok j' /\
  transaction (fj_records j) (file_slots (fj_file j)) (spec_Begin file_accepts (fj_records j) rec now)
    (fj_records j') (file_slots (fj_file j')) r.
Proof.
  intros Hj. unfold file_Begin, spec_Begin.
  replace (_ || (Unix now <=? 0)%Z) with (negb (file_accepts rec now)) by (unfold file_accepts; apply negb_involutive).
  destruct (file_accepts rec now) eqn:Ha; cbn [negb]; [|by intros [= <- <-]].
  destruct (fj_records j !! pr_Key rec) as [existing|] eqn:Hk.
  - rewrite same_intent_false. destruct (same_intent existing rec); intros [= <- <-]; (split; [done|]); [|done].
    left. auto.
  - intros H. by apply (file_put_transaction e j (pr_Key rec)) in H; [|done|apply file_accepts_slot].
Qed.

Lemma slot_ok_set_Phase key r next : slot_ok key r -> phase_valid next = true -> slot_ok key (set_Phase next r).
Proof.
  unfold slot_ok, validPurchaseRecord. cbn. intros [-> [Hv _]%andb_true_iff] ->. split; [done|].
  by rewrite andb_true_r.
Qed.

Lemma file_Acquire_law e j key j' r :
  file_journal_ok j -> file_AcquireFundingLease e j key = (j', r) ->
  file_journal_ok j' /\
  transaction (fj_records j) (file_slots (fj_file j)) (spec_Acquire (fj_records j) key)
    (fj_records j') (file_slots (fj_file j')) r.
Proof.
  intros Hj. unfold file_AcquireFundingLease, spec_Acquire.
  destruct (fj_records j !! key) as [record|] eqn:Hk; [|by intros [= <- <-]].
  destruct (CanAcquireFundingLease _); cbn [negb].
  - intros H. apply file_put_transaction in H; [done|done|].
    apply slot_ok_set_Phase; [by apply (proj1 Hj)|done].
  - intros [= <- <-]. split; [done|]. left. auto.
Qed.

Lemma file_Advance_law e j key next j' r :
  file_journal_ok j -> file_Advance e j key next = (j', r) ->
  file_journal_ok j' /\
  transaction (fj_records j) (file_slots (fj_file j)) (spec_Advance (fj_records j) key next)
    (fj_records j') (file_slots (fj_file j')) r.
Proof.
  intros Hj. unfold file_Advance, spec_Advance.
  destruct (phase_valid next) eqn:Hn; cbn [negb].
  - destruct (fj_records j !! key) as [record|] eqn:Hk; [|by intros [= <- <-]].
    destruct (CanAdvance _ _); cbn [negb]; [|by intros [= <- <-]].
    intros H. apply file_put_transaction in H; [done|done|].
    apply slot_ok_set_Phase; [by apply (proj1 Hj)|done].
  - intros [= <- <-]. split; [done|]. destruct (fj_records j !! key) as [record|]; [|done].
    unfold CanAdvance. by rewrite Hn, andb_false_r.
Qed.

(** A new process opens the file a journal left. *)
Definition file_reopens (j j' : FilePurchaseJournal) : Prop :=
  exists d f e, NewFilePurchaseJournal d f e (fj_file j) = (fj_file j', Ok j').

Lemma open_ok d f e file file' j :
  NewFilePurchaseJournal d f e file = (file', Ok j) ->
  fj_file j = file' /\ file_journal_ok j /\ file_slots file' = fj_records j /\
  (file_ok file -> file' = file).
Proof.
  unfold NewFilePurchaseJournal. intros H. head_case H eqn E1; [done|]. head_case H eqn E2; [done|].
  destruct (load f e file) as [file1 r] eqn:E. destruct r as [records|]; [|done]. injection H as <- <-.
  cbn [fj_file fj_records]. split; [done|]. unfold load in E.
  destruct file as [| | |[d' size]]; cbn in E.
  - destruct (persist e ∅ FileAbsent) as [file2 w] eqn:Ep. injection E as <- Ew.
    apply slots_persist_cases in Ep as [(m & -> & ->)|(size & -> & _)]; [done|].
    destruct w as [[]|]; [|done]. injection Ew as <-.
    assert (slots_ok ∅) as He by apply map_Forall_empty.
    split_and!; [split; [done|by apply file_ok_document]|by apply file_slots_document|].
    by intros (? & ? & ? & _).
  - by head_case E eqn E3.
  - by head_case E eqn E3.
  - head_case E eqn E3; [done|]. head_case E eqn E4; [done|].
    destruct (bool_decide (d_Schema d' = _)) eqn:Es; cbn [negb] in E; [|done]. injection E as <- El. bprop.
    assert (file_slots (FileDoc (d', size)) = records) as Hs by (cbn; by rewrite El).
    split_and!; [split|done|done].
    + eapply load_list_wf; [|exact El]. apply map_Forall_empty.
    + exists d', size. split_and!; [done|done|]. by rewrite <-Hs in El.
Qed.

#[global] Instance FilePurchaseJournal_contract : JournalContract FilePurchaseJournal.
Proof.
  refine {|
    journal_ok := file_journal_ok;
    memory := fj_records;
    durable := fun j => file_slots (fj_file j);
    accepts := file_accepts;
    reopens := file_reopens;
    get_law := fun _ _ => eq_refl;
    spent_law := file_SpentInWindow_spec;
    begin_law := file_Begin_law;
    acquire_law := file_Acquire_law;
    advance_law := file_Advance_law
  |}.
  intros j j' [_ Hf] (d & f & e & H). apply open_ok in H as (_ & Hok & Hs & Hsame).
  rewrite (Hsame Hf) in Hs |- *. done.
Defined.

(** ** Runs of a journal *)

Section journal.
Context {J : Type} {PJ : PurchaseJournal J} {JC : JournalContract J}.
Implicit Types (j : J).

(** Any operation, with any behaviour of the disk, or a restart. *)
Inductive journal_step j : J -> Prop :=
| js_begin e rec now j' r : Begin e j rec now = (j', r) -> journal_step j j'
| js_acquire e key j' r : AcquireFundingLease e j key = (j', r) -> journal_step j j'
| js_advance e key next j' r : Advance e j key next = (j', r) -> journal_step j j'
| js_reopen j' : reopens j j' -> journal_step j j'.

(** The store is never behind the memory. *)
Definition journal_inv j : Prop := journal_ok j /\ map_le slot_le (memory j) (durable j).

Lemma begin_inv e j rec now j' r :
  journal_inv j -> Begin e j rec now = (j', r) -> journal_inv j' /\ map_le slot_le (memory j) (memory j').
Proof.
  intros [Hj Hd] E. destruct (begin_law _ _ _ _ _ _ Hj E) as [Hj' Ht].
  eapply transaction_le in Ht as [Hm Hd']; [|by intros ?? ?%spec_Begin_le|done]. by split_and!.
Qed.

Lemma acquire_inv e j key j' r :
  journal_inv j -> AcquireFundingLease e j key = (j', r) -> journal_inv j' /\ map_le slot_le (memory j) (memory j').
Proof.
  intros [Hj Hd] E. destruct (acquire_law _ _ _ _ _ Hj E) as [Hj' Ht].
  eapply transaction_le in Ht as [Hm Hd']; [|by intros ?? ?%spec_Acquire_le|done]. by split_and!.
Qed.

Lemma advance_inv e j key next j' r :
  journal_inv j -> Advance e j key next = (j', r) -> journal_inv j' /\ map_le slot_le (memory j) (memory j').
Proof.
  intros [Hj Hd] E. destruct (advance_law _ _ _ _ _ _ Hj E) as [Hj' Ht].
  eapply transaction_le in Ht as [Hm Hd']; [|by intros ?? ?%spec_Advance_le|done]. by split_and!.
Qed.

Lemma reopen_inv j j' :
  journal_inv j -> reopens j j' -> journal_inv j' /\ map_le slot_le (memory j) (memory j').
Proof.
  intros [Hj Hd] E. destruct (reopen_law _ _ Hj E) as (Hj' & Hm & Hd').
  unfold journal_inv. rewrite Hm, Hd'. split_and!; [done|reflexivity|done].
Qed.

#[local] Hint Resolve begin_inv acquire_inv advance_inv reopen_inv : core.

Lemma journal_step_inv j j' :
  journal_inv j -> journal_step j j' -> journal_inv j' /\ map_le slot_le (memory j) (memory j').
Proof. intros Hj []; eauto. Qed.

Lemma journal_steps_inv j j' :
  rtc journal_step j j' -> journal_inv j -> journal_inv j' /\ map_le slot_le (memory j) (memory j').
Proof.
  induction 1 as [j|j1 j2 j3 Hs _ IH]; intros Hj; [split; [done|reflexivity]|].
  destruct (journal_step_inv _ _ Hj Hs) as [Hj2 Hle]. destruct (IH Hj2) as [Hj3 Hle']. split; [done|].
  by etransitivity.
Qed.

End journal.

Lemma open_inv d f e file file' j :
  NewFilePurchaseJournal d f e file = (file', Ok j) -> journal_inv j.
Proof.
  intros H. apply open_ok in H as (Hf & Hj & Hs & _). split; [done|]. cbn. rewrite Hf, Hs. reflexivity.
Qed.

(** ** Theorems *)

(** What the owner's policy allows, with unbounded arithmetic. *)
Record within_policy (policy : SpendingPolicy) (proposal : QuoteProposal) (spent : N) (now : Z) : Prop := {
  wp_valid : policy_valid policy = true;
  wp_live : (now < p_Expiry policy)%Z;
  wp_asset : q_Asset proposal = p_Asset policy;
  wp_capability : p_CapabilityAllow policy !! c_CapabilityID (q_Capability proposal) = Some true;
  wp_amount : 0 < q_MaxAtomicAmount proposal <= p_MaxAtomicPurchase policy;
  wp_budget : spent + q_MaxAtomicAmount proposal <= p_DailyBudgetAtomic policy
}.

Lemma sub64w_le a b : b <= a -> sub64w a b <= a - b.
Proof.
  intros H. unfold sub64w, u64. replace (a + 18446744073709551616 - b) with (a - b + 1 * 18446744073709551616) by lia.
  rewrite N.Div0.mod_add. apply N.Div0.mod_le.
Qed.

(** Whatever is allowed, or left to the owner, is within the policy. *)
Lemma Authorize_within policy proposal spent now r :
  Authorize policy proposal spent now = r -> r = Ok tt \/ r = Err ErrManualConfirmation ->
  within_policy policy proposal spent now /\
  r = (if bool_decide (p_ConfirmationMode policy = ConfirmManual) then Err ErrManualConfirmation else Ok tt).
Proof.
  unfold Authorize. intros H Hr.
  destruct (policy_valid policy) eqn:E1; cbn [negb] in H; [|subst r; destruct Hr; done].
  destruct (now <? p_Expiry policy)%Z eqn:E2; cbn [negb] in H; [|subst r; destruct Hr; done].
  destruct (Equal _ _) eqn:E3; cbn [negb] in H; [|subst r; destruct Hr; done].
  destruct (p_CapabilityAllow policy !! _) as [[]|] eqn:E4; cbn in H; try (subst r; destruct Hr; done).
  head_case H eqn E5; [subst r; destruct Hr; done|]. head_case H eqn E6; [subst r; destruct Hr; done|].
  apply Equal_true in E3. zprop. split; [|by destruct (bool_decide _)].
  pose proof (sub64w_le (p_DailyBudgetAtomic policy) spent ltac:(done)).
  split; try done; lia.
Qed.

(** The policy engine allows a proposal, or asks for the owner's
    confirmation when the policy is manual, exactly when the signed policy is
    valid and unexpired, asset and capability are the owner's, the amount is
    positive and within the limit per purchase, and with what is already
    reserved stays within the budget: no 64-bit wrap-around lets more pass. *)
Theorem bridge_policy_exact policy proposal spent now :
  p_DailyBudgetAtomic policy <= MaxUint64 ->
  Authorize policy proposal spent now =
    (if bool_decide (p_ConfirmationMode policy = ConfirmManual) then Err ErrManualConfirmation else Ok tt) <->
  within_policy policy proposal spent now.
Proof.
  intros Hb. split.
  - intros H. eapply Authorize_within; [exact H|]. destruct (bool_decide _); auto.
  - intros [Hv Hl Ha Hc [Hm1 Hm2] Hs]. unfold Authorize.
    rewrite Hv, Hc, (proj2 (Z.ltb_lt _ _) Hl), (proj2 (Equal_true _ _) Ha). cbn [negb default].
    unfold id. cbn [negb].
    rewrite (proj2 (N.eqb_neq _ 0)), (proj2 (N.ltb_ge _ _) Hm2) by lia. cbn [orb].
    rewrite sub64w_exact, (proj2 (N.ltb_ge _ spent)), (proj2 (N.ltb_ge _ (q_MaxAtomicAmount proposal))) by lia.
    cbn [orb]. by destruct (bool_decide _).
Qed.

(** Whatever happens to the file journal after it was opened (claims,
    leases, advances, failing writes, restarts), no slot is lost, the asset,
    amount and claim time of a slot never change, its phase never goes back,
    and the file is never behind the memory. *)
Theorem bridge_journal_forward d f e file file' (j j' : FilePurchaseJournal) :
  NewFilePurchaseJournal d f e file = (file', Ok j) -> rtc journal_step j j' ->
  slots_ok (fj_records j') /\ map_le slot_le (fj_records j) (fj_records j') /\
  map_le slot_le (fj_records j') (file_slots (fj_file j')).
Proof.
  intros Ho Hr. apply open_inv in Ho. destruct (journal_steps_inv _ _ Hr Ho) as [[[Hs _] Hd] Hle]. done.
Qed.

(** A good disk and documents of one size. *)
Definition io_sized (size : N) : io document :=
  {| io_marshal := fun _ => Some size; io_fails := fun _ => false |}.

Lemma persist_sized size records file :
  persist (io_sized size) records file = (FileDoc (to_document records, size), Ok tt).
Proof. done. Qed.

(** Opening a document of the journal's own making. *)
Lemma open_document m size e :
  slots_ok m -> 0 < size <= maxJournalBytes ->
  NewFilePurchaseJournal dir_good file_good e (FileDoc (to_document m, size)) =
  (FileDoc (to_document m, size), Ok {| fj_file := FileDoc (to_document m, size); fj_records := m |}).
Proof.
  intros Hm Hs. unfold NewFilePurchaseJournal, load. cbn -[to_document load_records maxJournalBytes N.eqb N.ltb].
  rewrite (proj2 (N.eqb_neq size 0)), (proj2 (N.ltb_ge maxJournalBytes size)) by lia. cbn [orb].
  rewrite bool_decide_eq_true_2 by done. cbn [negb]. by rewrite load_slots_document.
Qed.

(** Writing a slot and opening the result. *)
Lemma file_put_document {A} e j key r (a : A) j' :
  file_put e j key r a = (j', Ok a) ->
  exists size, io_marshal e (to_document (<[key := r]> (fj_records j))) = Some size /\
    j' = {| fj_file := FileDoc (to_document (<[key := r]> (fj_records j)), size);
            fj_records := <[key := r]> (fj_records j) |}.
Proof.
  unfold file_put, persist. destruct (io_marshal e _) as [size|]; [|done].
  repeat (destruct (io_fails e _); [done|]). intros [= <-]. eauto.
Qed.

(** A claim that was accepted is found again, with all other slots, by the
    next process, provided the file is within the size the journal reads. *)
Theorem bridge_restart_recovers e j rec now j' r size :
  journal_inv j -> fj_records j !! pr_Key rec = None -> file_Begin e j rec now = (j', Ok r) ->
  io_marshal e (to_document (fj_records j')) = Some size -> 0 < size <= maxJournalBytes ->
  NewFilePurchaseJournal dir_good file_good e (fj_file j') = (fj_file j', Ok j') /\
  fj_records j' = <[pr_Key rec := claimed rec now]> (fj_records j).
Proof.
  intros [[Hm Hf] Hd] Hk H Hs Hsize. destruct (file_Begin_law _ _ _ _ _ _ (conj Hm Hf) H) as [[Hm' _] _].
  unfold file_Begin in H. head_case H eqn E; [done|]. rewrite Hk in H.
  assert (r = claimed rec now) as ->.
  { unfold file_put in H. destruct (persist _ _ _) as [? [[]|]]; by simplify_eq. }
  apply file_put_document in H as (size' & Hs' & ->). cbn [fj_records fj_file] in *. rewrite Hs' in Hs.
  injection Hs as ->. split; [|done]. by apply open_document.
Qed.

(** Nothing bounds what the journal writes, but it reads at most 16 MiB: a
    claim whose document is larger is acknowledged, the purchase goes on, and
    no later process can open the journal. *)
Theorem bridge_journal_outgrows e j rec now j' r size :
  fj_records j !! pr_Key rec = None -> file_Begin e j rec now = (j', Ok r) ->
  io_marshal e (to_document (fj_records j')) = Some size -> maxJournalBytes < size ->
  forall d f e', is_err (snd (NewFilePurchaseJournal d f e' (fj_file j'))) = true.
Proof.
  intros Hk H Hs Hsize d f e'. unfold file_Begin in H. head_case H eqn E; [done|]. rewrite Hk in H.
  assert (r = claimed rec now) as ->.
  { unfold file_put in H. destruct (persist _ _ _) as [? [[]|]]; by simplify_eq. }
  apply file_put_document in H as (size' & Hs' & ->). cbn [fj_records fj_file] in *. rewrite Hs' in Hs.
  injection Hs as ->. unfold NewFilePurchaseJournal, load. destruct (negb (de_abs_clean d)); [done|].
  destruct (_ || negb (de_perm d =? 448)); [done|]. destruct (_ || negb (fe_perm f =? 384)); [done|]. rewrite (proj2 (N.ltb_lt _ _) Hsize), orb_true_r. done.
Qed.

(** A call of a journal, whatever its implementation, and its answer. *)
Inductive journal_call :=
| JBegin (rec : PurchaseRecord) (now : Z)
| JAcquire (key : PurchaseKey)
| JAdvance (key : PurchaseKey) (next : Phase)
| JGet (key : PurchaseKey)
| JSpent (now window : Z).

Inductive journal_answer :=
| JRecord (r : result PurchaseRecord)
| JLease (r : result (bool * PurchaseRecord))
| JDone (r : result unit)
| JFound (r : option PurchaseRecord)
| JSum (total : N).

Definition journal_run1 `{PurchaseJournal J} (e : io document) (j : J) (c : journal_call) : J * journal_answer :=
  match c with
  | JBegin rec now => let '(j, r) := Begin e j rec now in (j, JRecord r)
  | JAcquire key => let '(j, r) := AcquireFundingLease e j key in (j, JLease r)
  | JAdvance key next => let '(j, r) := Advance e j key next in (j, JDone r)
  | JGet key => (j, JFound (Get j key))
  | JSpent now window => (j, JSum (SpentInWindow j now window))
  end.

Fixpoint journal_run `{PurchaseJournal J} (e : io document) (j : J) (calls : list journal_call) : J * list journal_answer :=
  match calls with
  | [] => (j, [])
  | c :: calls =>
      let '(j, answer) := journal_run1 e j c in
      let '(j, answers) := journal_run e j calls in (j, answer :: answers)
  end.

(** The calls the two journals are meant for: a claim names its asset and is made
    after 1970, and the amounts in a window fit in 64 bits. *)
Definition ordinary (records : slots) (c : journal_call) : Prop :=
  match c with
  | JBegin rec now => pr_AssetMaster rec <> ""%string /\ (0 < Unix now)%Z
  | JSpent now window => claimed_since (cutoff now window) records <= MaxUint64
  | _ => True
  end.
Fixpoint all_ordinary (e : io document) (m : InMemoryJournal) (calls : list journal_call) : Prop :=
  match calls with
  | [] => True
  | c :: calls => ordinary (mj_records m) c /\ all_ordinary e (journal_run1 e m c).1 calls
  end.

Lemma journals_agree_call e e' size (m : InMemoryJournal) (j : FilePurchaseJournal) c :
  (forall d, io_marshal e' d = Some size) -> (forall step, io_fails e' step = false) ->
  mj_records m = fj_records j -> ordinary (mj_records m) c ->
  (journal_run1 e m c).2 = (journal_run1 e' j c).2 /\
  mj_records (journal_run1 e m c).1 = fj_records (journal_run1 e' j c).1.
Proof.
  intros Hsize Hio Hm Hc.
  assert (forall A key r (a : A), exists f, file_put e' j key r a = ({| fj_file := f; fj_records := <[key := r]> (fj_records j) |}, Ok a))
    as Hput by (intros A key r a; unfold file_put, persist; rewrite Hsize, !Hio; by eexists).
  destruct c as [rec now|key|key next|key|now window]; cbn in Hc |- *.
  - destruct Hc as [Ha Hn]. unfold mem_Begin, file_Begin. rewrite (bool_decide_eq_false_2 (pr_AssetMaster rec = _)) by done.
    assert (IsZero now = false) as ->.
    { unfold IsZero, Unix in *. apply Z.eqb_neq. intros ->. vm_compute in Hn. done. }
    rewrite (proj2 (Z.leb_gt _ _) Hn), !orb_false_r. destruct (_ || (pr_AtomicAmount rec =? 0)); [done|].
    rewrite Hm. destruct (fj_records j !! pr_Key rec) as [r|]; [by destruct (_ || _)|].
    edestruct Hput as [f ->]. cbn. by rewrite ?Hm.
  - unfold mem_AcquireFundingLease, file_AcquireFundingLease. rewrite Hm.
    destruct (fj_records j !! key) as [r|]; [|done]. destruct (negb (CanAcquireFundingLease _)); [done|].
    edestruct Hput as [f ->]. cbn. by rewrite ?Hm.
  - unfold mem_Advance, file_Advance. destruct (negb (phase_valid next)); [done|]. rewrite Hm.
    destruct (fj_records j !! key) as [r|]; [|done]. destruct (negb (CanAdvance _ _)); [done|].
    edestruct Hput as [f ->]. cbn. by rewrite ?Hm.
  - unfold mem_Get, file_Get. by rewrite Hm.
  - unfold mem_SpentInWindow. split; [|done]. rewrite file_SpentInWindow_spec, <- Hm, mem_spent_loop_spec; [|done].
    rewrite N.add_0_l. f_equal. symmetry. by apply N.min_l || by apply N.min_r.
Qed.

(** C39: The file journal and the in-memory journal cannot be told apart by any
    sequence of calls, as long as the file journal's writes succeed, each claim
    names its asset and is made after 1970, and the amounts a sum is asked for
    fit in 64 bits: started with the same slots, they give the same answers,
    refusals included, and end with the same slots. *)
Theorem bridge_journals_agree e e' size calls (m : InMemoryJournal) (j : FilePurchaseJournal) :
  (forall d, io_marshal e' d = Some size) -> (forall step, io_fails e' step = false) ->
  mj_records m = fj_records j -> all_ordinary e m calls ->
  (journal_run e m calls).2 = (journal_run e' j calls).2 /\
  mj_records (journal_run e m calls).1 = fj_records (journal_run e' j calls).1.
Proof.
  intros Hsize Hio. revert m j. induction calls as [|c calls IH]; intros m j Hm Ho; [done|]. destruct Ho as [Hc Ho].
  destruct (journals_agree_call e e' size m j c Hsize Hio Hm Hc) as [Ha Hm1]. cbn.
  destruct (journal_run1 e m c) as [m1 a1], (journal_run1 e' j c) as [j1 a2]. cbn in *. subst a2.
  destruct (IH m1 j1 Hm1 Ho) as [Hb Hm2].
  destruct (journal_run e m1 calls), (journal_run e' j1 calls). cbn in *. by subst.
Qed.

(** ** Examples *)

Definition bex_asset : AssetIdentity :=
  {| a_Master := "master"; a_WalletCodeHash := "wallet";
     a_Network := {| n_ID := "tos"; n_GenesisRootHash := "root"; n_GenesisFileHash := "file" |};
     a_Workchain := 0; a_MasterCodeHash := "code"; a_Decimals := 6 |}.

Definition bex_policy : SpendingPolicy :=
  {| p_Asset := bex_asset; p_MaxAtomicPurchase := 60; p_DailyBudgetAtomic := 100; p_Window := (24 * Hour)%Z;
     p_Expiry := 1900000000000000000; p_CapabilityAllow := {["cap" := true]};
     p_ConfirmationMode := ConfirmAuto; p_OwnerSignature := "signature" |}.

Definition bex_proposal : QuoteProposal :=
  {| q_Capability := {| c_AgentID := "agent"; c_CapabilityID := "cap"; c_Version := "1"; c_ManifestDigest := "m";
                        c_RegistryCodeHash := "r"; c_Network := a_Network bex_asset; c_CapabilityClass := "c" |};
     q_Asset := bex_asset; q_MaxAtomicAmount := 60; q_Expiry := 2000000000000000000; q_ExecutionSigner := "s";
     q_EndpointCommit := "e"; q_DisputeTerms := "d"; q_TransportBindingDigest := "t"; q_EscrowTermsDigest := "x";
     q_AtomicAmount := "" |}.

Definition bex_now : Z := 1700000000000000000.

Lemma bridge_policy_exact_witness :
  within_policy bex_policy bex_proposal 40 bex_now /\ ~ within_policy bex_policy bex_proposal 41 bex_now.
Proof.
  split.
  - apply (bridge_policy_exact bex_policy bex_proposal 40 bex_now); [vm_compute; discriminate|].
    vm_compute. reflexivity.
  - intros H. apply (bridge_policy_exact bex_policy bex_proposal 41 bex_now) in H; [|vm_compute; discriminate].
    vm_compute in H. discriminate H.
Defined.

Definition bex_record : PurchaseRecord :=
  {| pr_Key := {| k_QuoteCommitment := "quote"; k_EscrowAddress := "escrow" |}; pr_Phase := PhaseOther "";
     pr_AssetMaster := "master"; pr_AtomicAmount := 60; pr_ClaimedUnix := 0 |}.

Definition bex_journal : FilePurchaseJournal :=
  {| fj_file := FileDoc (to_document ∅, 1000); fj_records := ∅ |}.
Definition bex_claimed : FilePurchaseJournal := fst (file_Begin (io_sized 1000) bex_journal bex_record bex_now).

Lemma bex_open : NewFilePurchaseJournal dir_good file_good (io_sized 1000) FileAbsent = (fj_file bex_journal, Ok bex_journal).
Proof. by vm_compute. Qed.

Lemma bridge_journal_forward_witness :
  journal_step bex_journal bex_claimed /\ map_le slot_le (fj_records bex_journal) (fj_records bex_claimed).
Proof.
  assert (journal_step bex_journal bex_claimed) as Hs.
  { eapply (js_begin _ (io_sized 1000) bex_record bex_now). apply surjective_pairing. }
  split; [exact Hs|].
  apply (bridge_journal_forward dir_good file_good (io_sized 1000) FileAbsent (fj_file bex_journal) bex_journal bex_claimed).
  - exact bex_open.
  - apply rtc_once. exact Hs.
Defined.

Lemma bridge_restart_recovers_witness :
  NewFilePurchaseJournal dir_good file_good (io_sized 1000) (fj_file bex_claimed) = (fj_file bex_claimed, Ok bex_claimed).
Proof.
  eapply (bridge_restart_recovers (io_sized 1000) bex_journal bex_record bex_now bex_claimed _ 1000).
  - eapply open_inv. exact bex_open.
  - reflexivity.
  - vm_compute. reflexivity.
  - reflexivity.
  - vm_compute. split; [reflexivity|discriminate].
Defined.

Definition bex_outgrown : FilePurchaseJournal := fst (file_Begin (io_sized 20000000) bex_journal bex_record bex_now).

Lemma bridge_journal_outgrows_witness :
  is_err (snd (NewFilePurchaseJournal dir_good file_good (io_sized 1000) (fj_file bex_outgrown))) = true.
Proof.
  eapply (bridge_journal_outgrows (io_sized 20000000) bex_journal bex_record bex_now bex_outgrown _ 20000000).
  - reflexivity.
  - vm_compute. reflexivity.
  - reflexivity.
  - reflexivity.
Defined.

(** A purchase with a lease, a refused second claim, an advance and the sums. *)
Definition bex_calls : list journal_call :=
  [JSpent bex_now (24 * Hour)%Z; JBegin bex_record bex_now; JBegin bex_record (bex_now + Second)%Z;
   JAcquire (pr_Key bex_record); JAcquire (pr_Key bex_record); JAdvance (pr_Key bex_record) PhaseFunded;
   JAdvance (pr_Key bex_record) PhasePrepared; JGet (pr_Key bex_record); JSpent (bex_now + Second)%Z (24 * Hour)%Z].

Lemma bridge_journals_agree_witness :
  (journal_run (io_sized 1000) bex_journal bex_calls).2 =
    [JSum 0; JRecord (Ok (claimed bex_record bex_now)); JRecord (Ok (claimed bex_record bex_now));
     JLease (Ok (true, set_Phase PhaseFundingLease (claimed bex_record bex_now)));
     JLease (Ok (false, set_Phase PhaseFundingLease (claimed bex_record bex_now))); JDone (Ok tt);
     JDone (Err ErrJournalPhase); JFound (Some (set_Phase PhaseFunded (claimed bex_record bex_now))); JSum 60] /\
  (journal_run (io_sized 1000) {| mj_records := ∅ |} bex_calls).2 = (journal_run (io_sized 1000) bex_journal bex_calls).2.
Proof.
  split; [vm_compute; reflexivity|].
  apply (bridge_journals_agree (io_sized 1000) (io_sized 1000) 1000 bex_calls {| mj_records := ∅ |} bex_journal).
  - reflexivity.
  - reflexivity.
  - reflexivity.
  - vm_compute. repeat split; discriminate.
Defined.

End Bridge.
