(* ===== verification/Buyer.v ===== *)
(** * The buyer of the service bridge

    src/pkg/servicebridge: [Buyer.Purchase] (buyer.go) as a program over its
    collaborators, the purchase terms and the authorized signer
    (authorized_signer.go) and the provider (provider.go). Purchases run beside
    each other and the process may die at any call: the states are pools of
    running purchases over one journal, with the log of all calls. *)

From S2P Require Import Prelude GoLib GoText FileStore Ledger GoProg Bridge.
#[local] Open Scope N_scope.

Create HintDb buyer.

Module Buyer.
Import Bridge.

(** ** Purchase terms *)

(** [actionauth.AssetIdentity] and [actionauth.PurchaseTerms] *)
Record TermsAsset := {
  ta_NetworkID : string;
  ta_GenesisRootHash : string;
  ta_GenesisFileHash : string;
  ta_Workchain : Z;
  ta_AccountID : string;
  ta_MasterCodeHash : string;
  ta_WalletCodeHash : string;
  ta_Decimals : N
}.

Record PurchaseTerms := {
  pt_CapabilityID : string;
  pt_CapabilityVersion : string;
  pt_CapabilityClass : string;
  pt_ProviderAgentID : string;
  pt_ManifestDigest : string;
  pt_TransportBindingDigest : string;
  pt_Asset : TermsAsset;
  pt_PriceAtomic : string;
  pt_EscrowTermsDigest : string;
  pt_DisputePolicyDigest : string;
  pt_NotAfterUnix : N
}.

Definition ErrIncompletePurchaseAuthority : string :=
  "servicebridge: purchase lacks exact Messenger authority terms".

(** [uint64(x)] of an [int64] *)
Definition to_u64 (x : Z) : N := Z.to_N (x mod 18446744073709551616)%Z.

Definition is_empty (s : string) : bool := bool_decide (s = ""%string).

Definition PurchaseTermsForProposal (proposal : QuoteProposal) : result PurchaseTerms :=
  let trimmed := TrimSpace (q_AtomicAmount proposal) in
  let atomic := if is_empty trimmed && (0 <? q_MaxAtomicAmount proposal)
                then FormatUint10 (q_MaxAtomicAmount proposal) else trimmed in
  let cap := q_Capability proposal in
  let asset := q_Asset proposal in
  let terms := {|
    pt_CapabilityID := c_CapabilityID cap; pt_CapabilityVersion := c_Version cap;
    pt_CapabilityClass := c_CapabilityClass cap; pt_ProviderAgentID := c_AgentID cap;
    pt_ManifestDigest := c_ManifestDigest cap; pt_TransportBindingDigest := q_TransportBindingDigest proposal;
    pt_Asset := {| ta_NetworkID := n_ID (a_Network asset); ta_GenesisRootHash := n_GenesisRootHash (a_Network asset);
                   ta_GenesisFileHash := n_GenesisFileHash (a_Network asset); ta_Workchain := a_Workchain asset;
                   ta_AccountID := a_Master asset; ta_MasterCodeHash := a_MasterCodeHash asset;
                   ta_WalletCodeHash := a_WalletCodeHash asset; ta_Decimals := a_Decimals asset |};
    pt_PriceAtomic := atomic; pt_EscrowTermsDigest := q_EscrowTermsDigest proposal;
    pt_DisputePolicyDigest := q_DisputeTerms proposal;
    pt_NotAfterUnix := to_u64 (Unix (q_Expiry proposal)) |} in
  if is_empty (pt_CapabilityID terms) || is_empty (pt_CapabilityVersion terms)
     || is_empty (pt_CapabilityClass terms) || is_empty (pt_ProviderAgentID terms)
     || is_empty (pt_ManifestDigest terms) || is_empty (pt_TransportBindingDigest terms)
     || is_empty (ta_NetworkID (pt_Asset terms)) || is_empty (ta_GenesisRootHash (pt_Asset terms))
     || is_empty (ta_GenesisFileHash (pt_Asset terms)) || is_empty (ta_AccountID (pt_Asset terms))
     || is_empty (ta_MasterCodeHash (pt_Asset terms)) || is_empty (ta_WalletCodeHash (pt_Asset terms))
     || is_empty (pt_PriceAtomic terms) || is_empty (pt_EscrowTermsDigest terms)
     || is_empty (pt_DisputePolicyDigest terms)
     || IsZero (q_Expiry proposal) || (Unix (q_Expiry proposal) <=? 0)%Z
  then Err ErrIncompletePurchaseAuthority
  else Ok terms.

(** ** The buyer's collaborators *)

Inductive action :=
| ResolveCapability (ref : CapabilityRef)
| RequestQuote (ref : CapabilityRef)
| BuildAcceptedQuote (proposal : QuoteProposal)
| Clock
| JournalSpent (now window : Z)
| JournalGet (key : PurchaseKey)
| Confirm (proposal : QuoteProposal)
| JournalBegin (rec : PurchaseRecord) (now : Z)
| JournalAcquire (key : PurchaseKey)
| SignAndFundEscrow (aq : AcceptedQuote)
| ResolveEscrow (address : string)
| VerifyAcceptedQuote (commitment escrowAddress : string) (expected : PurchaseTerms)
| JournalAdvance (key : PurchaseKey) (next : Phase)
| BuildTask (aq : AcceptedQuote)
| Dispatch (transport : Transport) (task : Task)
| VerifySettlement (aq : AcceptedQuote).

Definition answer (a : action) : Type :=
  match a with
  | ResolveCapability _ | Confirm _ | SignAndFundEscrow _ | VerifyAcceptedQuote _ _ _
  | JournalAdvance _ _ | Dispatch _ _ => result unit
  | RequestQuote _ => result QuoteProposal
  | BuildAcceptedQuote _ => result AcceptedQuote
  | Clock => Z
  | JournalSpent _ _ => N
  | JournalGet _ => option PurchaseRecord
  | JournalBegin _ _ => result PurchaseRecord
  | JournalAcquire _ => result (bool * PurchaseRecord)
  | ResolveEscrow _ => result EscrowState
  | BuildTask _ => result Task
  | VerifySettlement _ => result Settlement
  end.

(** The buyer: its policy, and whether a confirmer is configured. *)
Record Buyer := {
  b_Policy : SpendingPolicy;
  b_HasConfirmer : bool
}.

Definition ErrFundingAmbiguous : string :=
  "servicebridge: escrow funding did not reach the exact quoted amount in finalized state".
Definition ErrManualNoConfirmer : string := "servicebridge: manual policy has no confirmer".
Definition ErrSettlementPending : string := "servicebridge: finalized settlement is not terminal yet".

Definition key_of (aq : AcceptedQuote) : PurchaseKey :=
  {| k_QuoteCommitment := aq_QuoteCommitment aq; k_EscrowAddress := aq_EscrowAddress aq |}.

(** ** [Purchase], from its last step to its first *)

(** Step 8: the settlement. *)
Definition purchase_settle (aq : AcceptedQuote) : prog answer (result Settlement) :=
  attempt settlement <- VerifySettlement aq;
  if Bool.eqb (s_Released settlement) (s_Refunded settlement) then Ret (Err ErrSettlementPending)
  else
    call advanced <- JournalAdvance (key_of aq) PhaseResolved;
    match advanced with
    | Err m => if bool_decide (m = ErrJournalPhase) then Ret (Ok settlement) else Ret (Err m)
    | Ok _ => Ret (Ok settlement)
    end.

(** Step 7: dispatch, unless it was recorded. *)
Definition purchase_dispatch (transport : Transport) (aq : AcceptedQuote) (phase : Phase)
    : prog answer (result Settlement) :=
  if (Order phase <? Order PhaseExecution)%Z then
    attempt task <- BuildTask aq;
    if negb (bool_decide (t_QuoteCommitment task = aq_QuoteCommitment aq))
       || negb (bool_decide (t_EscrowAddress task = aq_EscrowAddress aq))
    then Ret (Err "servicebridge: built task does not bind the accepted quote")
    else
      attempt _ <- Dispatch transport task;
      attempt _ <- JournalAdvance (key_of aq) PhaseExecution;
      purchase_settle aq
  else purchase_settle aq.

(** The zero value of a record, whose phase is the empty string. *)
Definition zero_record : PurchaseRecord :=
  {| pr_Key := {| k_QuoteCommitment := ""; k_EscrowAddress := "" |}; pr_Phase := PhaseOther "";
     pr_AssetMaster := ""; pr_AtomicAmount := 0; pr_ClaimedUnix := 0 |}.

(** Finalized funding of exactly the quoted amount, the finalized quote. *)
Definition purchase_verify (transport : Transport) (proposal : QuoteProposal) (aq : AcceptedQuote)
    : prog answer (result Settlement) :=
  attempt escrow <- ResolveEscrow (aq_EscrowAddress aq);
  if negb (es_Found escrow) || negb (es_FundedAtomic escrow =? q_MaxAtomicAmount proposal)
  then Ret (Err ErrFundingAmbiguous)
  else
    match PurchaseTermsForProposal (aq_Proposal aq) with
    | Err m => Ret (Err m)
    | Ok expectedTerms =>
        attempt _ <- VerifyAcceptedQuote (aq_QuoteCommitment aq) (aq_EscrowAddress aq) expectedTerms;
        call current <- JournalGet (key_of aq);
        match current with
        | None => Ret (Err ErrJournalMissing)
        | Some current =>
            if (Order (pr_Phase current) <? Order PhaseFunded)%Z then
              attempt _ <- JournalAdvance (key_of aq) PhaseFunded;
              call current <- JournalGet (key_of aq);
              purchase_dispatch transport aq (pr_Phase (default zero_record current))
            else purchase_dispatch transport aq (pr_Phase current)
        end
    end.

(** The record given to [Begin]; its phase and time are zero values. *)
Definition intent (aq : AcceptedQuote) (proposal : QuoteProposal) : PurchaseRecord :=
  {| pr_Key := key_of aq; pr_Phase := PhaseOther ""; pr_AssetMaster := a_Master (q_Asset proposal);
     pr_AtomicAmount := q_MaxAtomicAmount proposal; pr_ClaimedUnix := 0 |}.

(** Step 6: claim, lease, fund. *)
Definition purchase_fund (transport : Transport) (proposal : QuoteProposal) (aq : AcceptedQuote) (now : Z)
    : prog answer (result Settlement) :=
  attempt _ <- JournalBegin (intent aq proposal) now;
  attempt (acquired, _) <- JournalAcquire (key_of aq);
  if acquired : bool then
    attempt _ <- SignAndFundEscrow aq;
    purchase_verify transport proposal aq
  else purchase_verify transport proposal aq.

(** What is reserved in the window, less the slot of the same purchase. *)
Definition discounted (window now : Z) (spent : N) (existing : option PurchaseRecord) : N :=
  match existing with
  | Some r =>
      if (cutoff now window <=? pr_ClaimedUnix r)%Z && (pr_AtomicAmount r <=? spent)
      then sub64w spent (pr_AtomicAmount r) else spent
  | None => spent
  end.

Definition Purchase (b : Buyer) (ref : CapabilityRef) (transport : Transport) : prog answer (result Settlement) :=
  attempt _ <- ResolveCapability ref;
  attempt proposal <- RequestQuote ref;
  if negb (bool_decide (c_CapabilityID (q_Capability proposal) = c_CapabilityID ref))
  then Ret (Err "servicebridge: quote proposal does not match the requested capability")
  else
    attempt aq <- BuildAcceptedQuote proposal;
    if is_empty (aq_QuoteCommitment aq) || is_empty (aq_EscrowAddress aq)
    then Ret (Err "servicebridge: accepted quote is missing its commitment or escrow address")
    else
      call now <- Clock;
      call spent <- JournalSpent now (p_Window (b_Policy b));
      call existing <- JournalGet (key_of aq);
      match Authorize (b_Policy b) proposal (discounted (p_Window (b_Policy b)) now spent existing) now with
      | Ok _ => purchase_fund transport proposal aq now
      | Err m =>
          if bool_decide (m = ErrManualConfirmation) then
            if negb (b_HasConfirmer b) then Ret (Err ErrManualNoConfirmer)
            else
              attempt _ <- Confirm proposal;
              purchase_fund transport proposal aq now
          else Ret (Err m)
      end.

(** ** What every call of a purchase is preceded by *)

Abbreviation history := (list (event answer)).

(** The calls up to the policy decision: the capability was resolved, the
    proposal quoted and accepted, the journal consulted, and the policy allowed
    the proposal or left it to the owner, who confirmed. *)
Definition policy_calls (b : Buyer) (ref : CapabilityRef) (proposal : QuoteProposal) (aq : AcceptedQuote)
    (now : Z) (spent : N) (existing : option PurchaseRecord) : history :=
  [Ev (JournalGet (key_of aq)) existing; Ev (JournalSpent now (p_Window (b_Policy b))) spent; Ev Clock now;
   Ev (BuildAcceptedQuote proposal) (Ok aq); Ev (RequestQuote ref) (Ok proposal);
   Ev (ResolveCapability ref) (Ok tt)].

Definition decided (b : Buyer) (ref : CapabilityRef) (proposal : QuoteProposal) (aq : AcceptedQuote)
    (now : Z) (h : history) : Prop :=
  exists spent existing,
    let verdict := Authorize (b_Policy b) proposal (discounted (p_Window (b_Policy b)) now spent existing) now in
    (verdict = Ok tt /\ h = policy_calls b ref proposal aq now spent existing) \/
    (verdict = Err ErrManualConfirmation /\
     h = Ev (Confirm proposal) (Ok tt) :: policy_calls b ref proposal aq now spent existing).

(** The finalized checks that a dispatch and a settlement rest on. *)
Record verified (aq : AcceptedQuote) (proposal : QuoteProposal) (h : history) : Prop := {
  vf_escrow : exists escrow, Ev (ResolveEscrow (aq_EscrowAddress aq)) (Ok escrow) ∈ h /\
    es_Found escrow = true /\ es_FundedAtomic escrow = q_MaxAtomicAmount proposal;
  vf_quote : exists terms, PurchaseTermsForProposal (aq_Proposal aq) = Ok terms /\
    Ev (VerifyAcceptedQuote (aq_QuoteCommitment aq) (aq_EscrowAddress aq) terms) (Ok tt) ∈ h
}.

(** The record of the purchase was claimed in this attempt, under the policy. *)
Definition claimed_here (b : Buyer) (ref : CapabilityRef) (aq : AcceptedQuote) (proposal : QuoteProposal)
    (h : history) : Prop :=
  exists now r h1 h2, h = h1 ++ Ev (JournalBegin (intent aq proposal) now) (Ok r) :: h2 /\
    decided b ref proposal aq now h2.

Definition call_ok (b : Buyer) (ref : CapabilityRef) (transport : Transport) (h : history) (ev : event answer)
    : Prop :=
  match ev with
  | Ev (JournalBegin rec now) _ =>
      exists proposal aq, rec = intent aq proposal /\ decided b ref proposal aq now h
  | Ev (SignAndFundEscrow aq) _ =>
      exists proposal now r r' h', decided b ref proposal aq now h' /\
        h = Ev (JournalAcquire (key_of aq)) (Ok (true, r)) ::
            Ev (JournalBegin (intent aq proposal) now) (Ok r') :: h'
  | Ev (Dispatch transport' task) _ =>
      transport' = transport /\
      exists proposal aq, claimed_here b ref aq proposal h /\ verified aq proposal h /\
        Ev (BuildTask aq) (Ok task) ∈ h /\
        t_QuoteCommitment task = aq_QuoteCommitment aq /\ t_EscrowAddress task = aq_EscrowAddress aq /\
        exists current, Ev (JournalGet (key_of aq)) current ∈ h /\
          (Order (pr_Phase (default zero_record current)) < Order PhaseExecution)%Z
  | Ev (JournalAdvance key next) _ =>
      exists proposal aq, key = key_of aq /\ claimed_here b ref aq proposal h /\ verified aq proposal h
  | _ => True
  end.

(** A purchase that reports success saw a terminal settlement of a purchase
    funded to the quoted amount. *)
Definition result_ok (b : Buyer) (ref : CapabilityRef) (h : history) (x : result Settlement) : Prop :=
  match x with
  | Ok settlement =>
      exists proposal aq, claimed_here b ref aq proposal h /\ verified aq proposal h /\
        Ev (VerifySettlement aq) (Ok settlement) ∈ h /\ s_Released settlement <> s_Refunded settlement
  | Err _ => True
  end.

Lemma claimed_here_cons b ref aq proposal ev h :
  claimed_here b ref aq proposal h -> claimed_here b ref aq proposal (ev :: h).
Proof. intros (now & r & h1 & h2 & -> & Hd). by exists now, r, (ev :: h1), h2. Qed.

Lemma verified_cons aq proposal ev h : verified aq proposal h -> verified aq proposal (ev :: h).
Proof.
  intros [(escrow & H1 & H2 & H3) (terms & H4 & H5)]. split.
  - exists escrow. split_and!; [by right|done|done].
  - exists terms. split; [done|by right].
Qed.

#[local] Hint Resolve claimed_here_cons verified_cons : buyer.
#[local] Hint Extern 1 (_ ∈ _ :: _) => (left || right) : buyer.

Section traces.
Context (b : Buyer) (ref : CapabilityRef) (transport : Transport).
Abbreviation follows := (always (call_ok b ref transport) (result_ok b ref)).

Lemma purchase_settle_follows aq proposal h :
  claimed_here b ref aq proposal h -> verified aq proposal h -> follows h (purchase_settle aq).
Proof.
  intros Hc Hv. unfold purchase_settle. cbn -[claimed_here]. intros [settlement|m]; split; try done.
  destruct (Bool.eqb _ _) eqn:E; [done|]. apply eqb_false_iff in E.
  intros r. split; [exists proposal, aq; eauto with buyer|].
  assert (result_ok b ref (Ev (JournalAdvance (key_of aq) PhaseResolved) r ::
            Ev (VerifySettlement aq) (Ok settlement) :: h) (Ok settlement)) as Hok.
  { exists proposal, aq. eauto 10 with buyer. }
  destruct r as [|m]; [done|]. by destruct (bool_decide _).
Qed.

Lemma purchase_dispatch_follows aq proposal current h :
  claimed_here b ref aq proposal h -> verified aq proposal h -> Ev (JournalGet (key_of aq)) current ∈ h ->
  follows h (purchase_dispatch transport aq (pr_Phase (default zero_record current))).
Proof.
  intros Hc Hv Hg. unfold purchase_dispatch. destruct (_ <? _)%Z eqn:E; [|by eapply purchase_settle_follows].
  apply Z.ltb_lt in E. cbn -[claimed_here purchase_settle]. intros [task|m]; split; try done.
  destruct (_ || _) eqn:Eb; [done|]. bprop. intros r. split.
  { split; [done|]. exists proposal, aq. split_and!; eauto with buyer. }
  destruct r as [[]|]; [|done]. intros r. split; [exists proposal, aq; eauto 10 with buyer|].
  destruct r as [[]|]; [|done]. apply (purchase_settle_follows aq proposal); eauto 10 with buyer.
Qed.

Lemma purchase_verify_follows aq proposal h :
  claimed_here b ref aq proposal h -> follows h (purchase_verify transport proposal aq).
Proof.
  intros Hc. unfold purchase_verify. cbn -[claimed_here purchase_dispatch PurchaseTermsForProposal].
  intros [escrow|m]; split; try done.
  destruct (_ || _) eqn:Eb; [done|]. bprop.
  destruct (PurchaseTermsForProposal _) as [terms|] eqn:Et; [|done].
  intros [[]|m]; split; try done. intros current. split; [done|].
  set (h1 := Ev (JournalGet (key_of aq)) current :: _).
  assert (verified aq proposal h1) as Hv.
  { split; [exists escrow|exists terms]; split_and!; try done; subst h1; [by do 2 right; left|by right; left]. }
  assert (claimed_here b ref aq proposal h1) as Hc1 by (subst h1; eauto 10 with buyer).
  destruct current as [current|]; [|done]. destruct (_ <? _)%Z.
  - intros r. split; [exists proposal, aq; eauto with buyer|].
    destruct r as [[]|]; [|done]. intros current'. split; [done|].
    apply (purchase_dispatch_follows aq proposal); eauto with buyer.
  - apply (purchase_dispatch_follows aq proposal (Some current)); [done|done|by left].
Qed.

Lemma purchase_fund_follows aq proposal now h :
  decided b ref proposal aq now h -> follows h (purchase_fund transport proposal aq now).
Proof.
  intros Hd. unfold purchase_fund. cbn -[decided purchase_verify]. intros r. split; [by exists proposal, aq|].
  destruct r as [r|]; [|done].
  assert (forall h', claimed_here b ref aq proposal
    (h' ++ Ev (JournalBegin (intent aq proposal) now) (Ok r) :: h)) as Hc by (intros h'; by exists now, r, h', h).
  intros [[[] r']|m]; split; try done.
  - intros [[]|m]; split; try done; try by exists proposal, now, r', r, h.
    by apply purchase_verify_follows, (Hc [_; _]).
  - by apply purchase_verify_follows, (Hc [_]).
Qed.

(** Every call of a purchase is preceded by what it depends on. *)
Lemma Purchase_follows : follows [] (Purchase b ref transport).
Proof.
  unfold Purchase. cbn -[purchase_fund Authorize discounted]. intros [[]|m]; split; try done.
  intros [proposal|m]; split; try done. destruct (negb _); [done|].
  intros [aq|m]; split; try done. destruct (_ || _); [done|].
  intros now. split; [done|]. intros spent. split; [done|]. intros existing. split; [done|].
  destruct (Authorize _ _ _ _) as [[]|m] eqn:E.
  - apply purchase_fund_follows. exists spent, existing. by left.
  - destruct (bool_decide _) eqn:Em; [|done]. bprop. subst m. destruct (negb _); [done|].
    intros [[]|m]; split; try done. apply purchase_fund_follows. exists spent, existing. by right.
Qed.

End traces.

End Buyer.
