(* ===== verification/BuyerSafety.v ===== *)
(** * Purchases beside each other, and after a crash

    Pools of running purchases of one buyer over one journal: any purchase may
    make its next call, a new one may start, and the process may die and reopen
    the journal. For every journal that keeps the contract of Bridge.v: at most
    one funding call per slot, ever; every call preceded by what it depends on;
    and, when purchases do not overlap, claims within the owner's budget in
    every window. Two runs show where the budget does not bind the money. *)

From S2P Require Import Prelude GoLib GoText FileStore Ledger GoProg Bridge Buyer.
#[local] Open Scope N_scope.

Module BuyerSafety.
Import Bridge Buyer.

(** ** Pools *)

Section pool.
Context {J : Type} `{PurchaseJournal J}.

(** One call: the journal's own operations, everything else answered by [env]. *)
Definition exec_call (e : io document) (env : forall a, answer a) (j : J) (a : action) : J * answer a :=
  match a with
  | JournalSpent now window => (j, SpentInWindow j now window)
  | JournalGet key => (j, Get j key)
  | JournalBegin rec now => Begin e j rec now
  | JournalAcquire key => AcquireFundingLease e j key
  | JournalAdvance key next => Advance e j key next
  | a => (j, env a)
  end.

(** [None] is a purchase that died with its process. *)
Record pool := {
  pl_journal : J;
  pl_threads : list (option (prog answer (result Settlement)));
  pl_log : list (nat * event answer)
}.

Definition fresh_pool (j : J) : pool := {| pl_journal := j; pl_threads := []; pl_log := [] |}.

(** The calls of one purchase. *)
Fixpoint hist (i : nat) (log : list (nat * event answer)) : history :=
  match log with
  | [] => []
  | (n, ev) :: rest => if (n =? i)%nat then ev :: hist i rest else hist i rest
  end.

Definition finished (t : option (prog answer (result Settlement))) : bool :=
  match t with Some (Call _ _) => false | _ => true end.

Definition idle (p : pool) : bool := forallb finished (pl_threads p).

Definition started (b : Buyer) (ref : CapabilityRef) (transport : Transport) (p : pool) : pool :=
  {| pl_journal := pl_journal p; pl_threads := pl_threads p ++ [Some (Purchase b ref transport)];
     pl_log := pl_log p |}.

Definition called (p : pool) (i : nat) (a : action) (k : answer a -> prog answer (result Settlement))
    (x : J * answer a) : pool :=
  {| pl_journal := x.1; pl_threads := <[i := Some (k x.2)]> (pl_threads p);
     pl_log := (i, Ev a x.2) :: pl_log p |}.

Definition crashed (p : pool) (j' : J) : pool :=
  {| pl_journal := j'; pl_threads := (fun _ => None) <$> pl_threads p; pl_log := pl_log p |}.

End pool.
Arguments pool : clear implicits.

Section safety.
Context {J : Type} {PJ : PurchaseJournal J} {JC : JournalContract J}.
Context (b : Buyer).
Implicit Types (p : pool J) (j : J).

(** [overlap] says whether a purchase may start while others run. *)
Inductive step (overlap : bool) p : pool J -> Prop :=
| step_start ref transport :
    overlap || idle p = true -> step overlap p (started b ref transport p)
| step_call i a k e env :
    pl_threads p !! i = Some (Some (Call a k)) ->
    step overlap p (called p i a k (exec_call e env (pl_journal p) a))
| step_crash j' :
    reopens (pl_journal p) j' -> step overlap p (crashed p j').

Lemma step_overlap overlap p p' : step overlap p p' -> step true p p'.
Proof. destruct 1; econstructor; done. Qed.

(** ** The journal under a pool *)

Lemma exec_call_inv e env j a j' r :
  journal_inv j -> exec_call e env j a = (j', r) ->
  journal_inv j' /\ map_le slot_le (memory j) (memory j').
Proof.
  intros Hj. destruct a; cbn; try (intros [= <- _]; split; [done|reflexivity]);
    intros E; [by eapply begin_inv|by eapply acquire_inv|by eapply advance_inv].
Qed.

(** The lease is held, or was. *)
Definition leased (m : slots) (key : PurchaseKey) : bool :=
  match m !! key with Some r => (Order PhaseFundingLease <=? Order (pr_Phase r))%Z | None => false end.

Lemma leased_le m m' key : map_le slot_le m m' -> leased m key = true -> leased m' key = true.
Proof.
  unfold leased. intros Hle. destruct (m !! key) as [r|] eqn:E; [|done].
  destruct (Hle key r E) as (r' & -> & [_ _ _ _ Ho]). rewrite !Z.leb_le. lia.
Qed.

Definition acquires (key : PurchaseKey) (ev : event answer) : bool :=
  match ev with Ev (JournalAcquire k) (Ok (true, _)) => bool_decide (k = key) | _ => false end.

Definition funds (key : PurchaseKey) (ev : event answer) : bool :=
  match ev with Ev (SignAndFundEscrow aq) _ => bool_decide (key_of aq = key) | _ => false end.

Definition count {A} (f : A -> bool) (l : list A) : N := N.of_nat (length (List.filter f l)).

Lemma count_cons {A} (f : A -> bool) x l : count f (x :: l) = (if f x then 1 else 0) + count f l.
Proof. unfold count. cbn. destruct (f x); cbn [length]; lia. Qed.

(** A lease is given once: it is held afterwards and was not before. *)
Lemma exec_call_acquires e env j a j' r key :
  journal_inv j -> exec_call e env j a = (j', r) -> acquires key (Ev a r) = true ->
  leased (memory j) key = false /\ leased (memory j') key = true.
Proof.
  intros [Hj _]. destruct a; try done. cbn. intros E Ha. destruct r as [[[] r]|]; try done. bprop. subst key0.
  destruct (acquire_law _ _ _ _ _ Hj E) as [_ Ht]. unfold spec_Acquire in Ht. unfold leased.
  destruct (memory j !! key) as [r0|] eqn:Hk; [|by destruct Ht as (_ & _ & ?)].
  destruct (CanAcquireFundingLease (pr_Phase r0)) eqn:Hc.
  - apply CanAcquire_true in Hc. rewrite Hc. split; [done|].
    destruct Ht as [(_ & -> & _)|(? & _)]; [|done]. by rewrite lookup_insert_eq.
  - destruct Ht as [(? & _)|(? & _)]; done.
Qed.

(** ** The invariant of a pool *)

Record pool_ok (m0 : slots) p : Prop := {
  po_journal : journal_inv (pl_journal p);
  po_memory : map_le slot_le m0 (memory (pl_journal p));
  po_range : forall i, (length (pl_threads p) <= i)%nat -> hist i (pl_log p) = [];
  po_history : forall i, exists ref transport,
    history_ok (call_ok b ref transport) (hist i (pl_log p)) /\
    forall t, pl_threads p !! i = Some (Some t) ->
      always (call_ok b ref transport) (result_ok b ref) (hist i (pl_log p)) t;
  po_acquired : forall key,
    count (fun x => acquires key x.2) (pl_log p) + N.b2n (leased m0 key)
    <= N.b2n (leased (memory (pl_journal p)) key)
}.

Lemma pool_fresh_ok j : journal_inv j -> pool_ok (memory j) (fresh_pool j).
Proof.
  intros Hj. split; cbn; [done|reflexivity|done| |by intros key].
  intros i. exists {| c_AgentID := ""; c_CapabilityID := ""; c_Version := ""; c_ManifestDigest := "";
                      c_RegistryCodeHash := "";
                      c_Network := {| n_ID := ""; n_GenesisRootHash := ""; n_GenesisFileHash := "" |};
                      c_CapabilityClass := "" |}, ""%string. done.
Qed.

Lemma hist_same i ev log : hist i ((i, ev) :: log) = ev :: hist i log.
Proof. cbn. by rewrite Nat.eqb_refl. Qed.

Lemma hist_other i i' ev log : i' <> i -> hist i ((i', ev) :: log) = hist i log.
Proof. intros Hne. cbn. by rewrite (proj2 (Nat.eqb_neq _ _) Hne). Qed.

Lemma pool_started_ok m0 p ref transport : pool_ok m0 p -> pool_ok m0 (started b ref transport p).
Proof.
  intros [Hj Hm Hr Hh Ha]. split; cbn [started pl_journal pl_threads pl_log]; try done.
  - intros i Hi. rewrite length_app in Hi. apply Hr. lia.
  - intros i. destruct (Nat.lt_trichotomy i (length (pl_threads p))) as [Hlt|[->|Hgt]].
    + rewrite lookup_app_l by done. apply Hh.
    + rewrite Hr, list_lookup_middle by done. exists ref, transport. split; [done|].
      intros t [= <-]. apply Purchase_follows.
    + rewrite Hr by lia. exists ref, transport. split; [done|]. intros t Ht%lookup_lt_Some.
      rewrite length_app in Ht. cbn in Ht. lia.
Qed.

Lemma pool_called_ok m0 p i a k e env :
  pool_ok m0 p -> pl_threads p !! i = Some (Some (Call a k)) ->
  pool_ok m0 (called p i a k (exec_call e env (pl_journal p) a)).
Proof.
  intros [Hj Hm Hr Hh Ha] Hi. destruct (exec_call e env (pl_journal p) a) as [j' r] eqn:E.
  destruct (exec_call_inv _ _ _ _ _ _ Hj E) as [Hj' Hle]. pose proof (lookup_lt_Some _ _ _ Hi) as Hlt.
  split; cbn [called pl_journal pl_threads pl_log fst snd]; [done|by etransitivity|..].
  - intros i' Hi'. rewrite length_insert in Hi'. rewrite hist_other by lia. by apply Hr.
  - intros i'. destruct (decide (i' = i)) as [->|Hne].
    + destruct (Hh i) as (ref & transport & Hok & Hlive). destruct (Hlive _ Hi r) as [Hc Hk].
      exists ref, transport. rewrite hist_same, list_lookup_insert_eq by done. split; [done|]. by intros t [= <-].
    + rewrite hist_other, list_lookup_insert_ne by done. apply Hh.
  - intros key. rewrite count_cons. cbn [snd]. specialize (Ha key).
    destruct (acquires key (Ev a r)) eqn:Eq.
    + destruct (exec_call_acquires _ _ _ _ _ _ _ Hj E Eq) as [H1 H2]. rewrite H1 in Ha. rewrite H2. cbn in *. lia.
    + destruct (leased (memory (pl_journal p)) key) eqn:El; [rewrite (leased_le _ _ _ Hle El)|]; cbn in *; lia.
Qed.

Lemma pool_crashed_ok m0 p j' : pool_ok m0 p -> reopens (pl_journal p) j' -> pool_ok m0 (crashed p j').
Proof.
  intros [Hj Hm Hr Hh Ha] E. destruct (reopen_inv _ _ Hj E) as [Hj' Hle].
  split; cbn [crashed pl_journal pl_threads pl_log]; [done|by etransitivity|..].
  - intros i Hi. rewrite length_fmap in Hi. by apply Hr.
  - intros i. destruct (Hh i) as (ref & transport & Hok & _). exists ref, transport. split; [done|].
    intros t. rewrite list_lookup_fmap. by destruct (pl_threads p !! i).
  - intros key. specialize (Ha key).
    destruct (leased (memory (pl_journal p)) key) eqn:El; [rewrite (leased_le _ _ _ Hle El)|]; cbn in *; lia.
Qed.

Lemma pool_step_ok overlap m0 p p' : pool_ok m0 p -> step overlap p p' -> pool_ok m0 p'.
Proof. intros Hp []; eauto using pool_started_ok, pool_called_ok, pool_crashed_ok. Qed.

Lemma pool_steps_ok overlap m0 p p' : rtc (step overlap) p p' -> pool_ok m0 p -> pool_ok m0 p'.
Proof. induction 1; eauto using pool_step_ok. Qed.

(** ** Counting over the purchases *)

Definition others (i : nat) (log : list (nat * event answer)) : list (nat * event answer) :=
  List.filter (fun x => negb (x.1 =? i)%nat) log.

Lemma count_split (f : event answer -> bool) i log :
  count (fun x => f x.2) log = count f (hist i log) + count (fun x => f x.2) (others i log).
Proof.
  induction log as [|[n ev] log IH]; [done|]. unfold others in *. cbn [hist List.filter fst].
  rewrite count_cons. cbn [snd]. destruct (n =? i)%nat; cbn [negb]; rewrite count_cons; cbn [snd]; lia.
Qed.

Lemma hist_others i i' log : i' <> i -> hist i' (others i log) = hist i' log.
Proof.
  intros Hne. induction log as [|[n ev] log IH]; [done|]. unfold others in *. cbn [hist List.filter fst].
  destruct (n =? i)%nat eqn:E; cbn [negb hist].
  - apply Nat.eqb_eq in E as ->. rewrite IH. by rewrite (proj2 (Nat.eqb_neq i i')) by done.
  - by rewrite IH.
Qed.

Lemma hist_others_same i log : hist i (others i log) = [].
Proof.
  induction log as [|[n ev] log IH]; [done|]. unfold others in *. cbn [List.filter fst].
  destruct (n =? i)%nat eqn:E; cbn [negb hist]; [done|]. by rewrite E.
Qed.

(** What holds of the counts of every purchase holds of the log. *)
Lemma count_threads (f g : event answer -> bool) : forall log,
  (forall i, count f (hist i log) <= count g (hist i log)) ->
  count (fun x => f x.2) log <= count (fun x => g x.2) log.
Proof.
  intros log. remember (length log) as n eqn:Hn. revert log Hn.
  induction (lt_wf n) as [n _ IH]. intros [|[i ev] log] Hn Hall; [done|].
  rewrite (count_split f i), (count_split g i). specialize (Hall i) as Hi.
  assert (count (fun x => f x.2) (others i ((i, ev) :: log)) <= count (fun x => g x.2) (others i ((i, ev) :: log)));
    [|lia].
  eapply IH; [|done|].
  - subst n. unfold others. cbn [List.filter fst]. rewrite Nat.eqb_refl. cbn [negb length].
    pose proof (List.filter_length_le (fun x => negb (x.1 =? i)%nat) log). lia.
  - intros i'. destruct (decide (i' = i)) as [->|Hne]; [by rewrite hist_others_same|].
    rewrite hist_others by done. apply Hall.
Qed.

(** In one purchase every funding call follows a lease of its own. *)
Lemma history_funds ref transport key h :
  history_ok (call_ok b ref transport) h ->
  count (funds key) h + (match h with ev :: _ => if acquires key ev then 1 else 0 | [] => 0 end)
  <= count (acquires key) h.
Proof.
  induction h as [|ev h IH]; [done|]. intros [Hev Hh]. specialize (IH Hh). rewrite !count_cons.
  destruct (funds key ev) eqn:Ef; [|destruct (acquires key ev), h as [|ev' h]; try destruct (acquires key ev'); lia].
  destruct ev as [[] r]; try done. cbn in Ef. bprop. subst key.
  destruct Hev as (proposal & now & r1 & r2 & h' & _ & ->). cbn [acquires] in *.
  rewrite bool_decide_eq_true_2 in IH by done. lia.
Qed.

Lemma pool_funds m0 p key :
  pool_ok m0 p -> count (fun x => funds key x.2) (pl_log p) <= count (fun x => acquires key x.2) (pl_log p).
Proof.
  intros Hp. apply count_threads. intros i. destruct (po_history _ _ Hp i) as (ref & transport & Hh & _).
  pose proof (history_funds ref transport key _ Hh). lia.
Qed.

Lemma elem_of_hist i ev log : (i, ev) ∈ log -> ev ∈ hist i log.
Proof.
  induction log as [|[n x] log IH]; [by intros ?%not_elem_of_nil|]. intros [[= <- <-]|Hin]%elem_of_cons.
  - rewrite hist_same. by left.
  - cbn. destruct (n =? i)%nat; [right|]; auto.
Qed.

(** Every logged call is preceded, in its own purchase, by what it depends on. *)
Lemma logged_call j0 p i ev :
  journal_inv j0 -> rtc (step true) (fresh_pool j0) p -> (i, ev) ∈ pl_log p ->
  exists ref transport h1 h2, hist i (pl_log p) = h1 ++ ev :: h2 /\ call_ok b ref transport h2 ev.
Proof.
  intros Hj Hs Hin. pose proof (pool_steps_ok _ _ _ _ Hs (pool_fresh_ok _ Hj)) as Hp.
  destruct (po_history _ _ Hp i) as (ref & transport & Hh & _).
  apply elem_of_hist in Hin. destruct (history_ok_elem _ _ _ Hh Hin) as (h1 & h2 & E & Hc).
  by exists ref, transport, h1, h2.
Qed.

Lemma decided_calls ref proposal aq now h :
  decided b ref proposal aq now h ->
  exists spent existing confirmed,
    h = confirmed ++ policy_calls b ref proposal aq now spent existing /\
    within_policy (b_Policy b) proposal (discounted (p_Window (b_Policy b)) now spent existing) now /\
    (confirmed = [] /\ p_ConfirmationMode (b_Policy b) <> ConfirmManual \/ confirmed = [Ev (Confirm proposal) (Ok tt)]).
Proof.
  intros (spent & existing & [[Hv ->]|[Hv ->]]); exists spent, existing;
    destruct (Authorize_within _ _ _ _ _ Hv ltac:(auto)) as [Hw Hm].
  - exists []. split_and!; [done|done|left]. split; [done|]. intros Hc. by rewrite bool_decide_eq_true_2 in Hm.
  - exists [Ev (Confirm proposal) (Ok tt)]. split_and!; [done|done|by right].
Qed.

(** ** Theorems for every interleaving and every crash *)

(** C4: However purchases overlap and whenever the process dies and reopens
    its journal, custody is asked to fund a slot at most once, and never when
    the journal already held the lease at the start. *)
Theorem bridge_single_funding j0 p key :
  journal_inv j0 -> rtc (step true) (fresh_pool j0) p ->
  count (fun x => funds key x.2) (pl_log p) + N.b2n (leased (memory j0) key) <= 1.
Proof.
  intros Hj Hs. pose proof (pool_steps_ok _ _ _ _ Hs (pool_fresh_ok _ Hj)) as Hp.
  pose proof (pool_funds _ _ key Hp). pose proof (po_acquired _ _ Hp key).
  destruct (leased (memory (pl_journal p)) key); cbn in *; lia.
Qed.

(** C14: Custody is asked to fund a quote only as the end of this exact chain of
    calls of one attempt, with nothing left out and nothing between: the
    capability was resolved, the quote obtained for it and accepted, the clock
    and the journal read, where the policy is manual the owner confirmed the
    proposal, the slot was claimed with exactly the proposal's asset and amount,
    and its single lease was granted; and the signed policy allows the proposal
    at that time given what the journal said was reserved. *)
Theorem bridge_funding_gated j0 p i aq r :
  journal_inv j0 -> rtc (step true) (fresh_pool j0) p -> (i, Ev (SignAndFundEscrow aq) r) ∈ pl_log p ->
  exists ref proposal now spent existing rec rec' confirmed later,
    hist i (pl_log p) = later ++ Ev (SignAndFundEscrow aq) r ::
      Ev (JournalAcquire (key_of aq)) (Ok (true, rec)) :: Ev (JournalBegin (intent aq proposal) now) (Ok rec') ::
      confirmed ++
      [Ev (JournalGet (key_of aq)) existing; Ev (JournalSpent now (p_Window (b_Policy b))) spent; Ev Clock now;
       Ev (BuildAcceptedQuote proposal) (Ok aq); Ev (RequestQuote ref) (Ok proposal);
       Ev (ResolveCapability ref) (Ok tt)] /\
    within_policy (b_Policy b) proposal (discounted (p_Window (b_Policy b)) now spent existing) now /\
    (confirmed = [] /\ p_ConfirmationMode (b_Policy b) <> ConfirmManual \/ confirmed = [Ev (Confirm proposal) (Ok tt)]).
Proof.
  intros Hj Hs Hin. destruct (logged_call _ _ _ _ Hj Hs Hin) as (ref & transport & h1 & h2 & E & Hc).
  destruct Hc as (proposal & now & rec & rec' & h' & Hd & ->).
  destruct (decided_calls _ _ _ _ _ Hd) as (spent & existing & confirmed & -> & Hw & Hm).
  by exists ref, proposal, now, spent, existing, rec, rec', confirmed, h1.
Qed.

(** A task is dispatched only for a purchase claimed in the same attempt,
    after finalized state showed its escrow funded with exactly the quoted
    amount and the accepted quote on exactly the terms of the proposal; the task
    carries the quote's commitment and escrow, and the journal had not recorded
    the execution. *)
Theorem bridge_dispatch_gated j0 p i transport task r :
  journal_inv j0 -> rtc (step true) (fresh_pool j0) p -> (i, Ev (Dispatch transport task) r) ∈ pl_log p ->
  exists ref proposal aq h1 h2, hist i (pl_log p) = h1 ++ Ev (Dispatch transport task) r :: h2 /\
    claimed_here b ref aq proposal h2 /\ verified aq proposal h2 /\ Ev (BuildTask aq) (Ok task) ∈ h2 /\
    t_QuoteCommitment task = aq_QuoteCommitment aq /\ t_EscrowAddress task = aq_EscrowAddress aq /\
    exists current, Ev (JournalGet (key_of aq)) current ∈ h2 /\
      (Order (pr_Phase (default zero_record current)) < Order PhaseExecution)%Z.
Proof.
  intros Hj Hs Hin. destruct (logged_call _ _ _ _ Hj Hs Hin) as (ref & tr & h1 & h2 & E & -> & Hc).
  destruct Hc as (proposal & aq & Hc). by exists ref, proposal, aq, h1, h2.
Qed.

(** A purchase that returns a settlement claimed its slot under the policy,
    saw its escrow funded with exactly the quoted amount, and returns the
    finalized settlement of that quote, either released or refunded. *)
Theorem bridge_settlement_final j0 p i settlement :
  journal_inv j0 -> rtc (step true) (fresh_pool j0) p ->
  pl_threads p !! i = Some (Some (Ret (Ok settlement))) ->
  exists ref proposal aq, claimed_here b ref aq proposal (hist i (pl_log p)) /\
    verified aq proposal (hist i (pl_log p)) /\
    Ev (VerifySettlement aq) (Ok settlement) ∈ hist i (pl_log p) /\ s_Released settlement <> s_Refunded settlement.
Proof.
  intros Hj Hs Hi. pose proof (pool_steps_ok _ _ _ _ Hs (pool_fresh_ok _ Hj)) as Hp.
  destruct (po_history _ _ Hp i) as (ref & transport & _ & Hlive).
  destruct (Hlive _ Hi) as (proposal & aq & H). by exists ref, proposal, aq.
Qed.

(** ** The budget, when purchases do not overlap *)

Definition Wsec : Z := Unix (p_Window (b_Policy b)).

(** The amounts claimed from second [lo] to second [hi]. *)
Definition claimed_between (lo hi : Z) (m : slots) : N :=
  map_sum (fun r => if (lo <=? pr_ClaimedUnix r)%Z && (pr_ClaimedUnix r <=? hi)%Z then pr_AtomicAmount r else 0) m.

(** In every window, the claims are within the budget. *)
Definition windowed (m : slots) : Prop :=
  forall a, claimed_between a (a + Wsec)%Z m <= p_DailyBudgetAtomic (b_Policy b).

(** The cutoff of [SpentInWindow] reaches at least a whole window back. *)
Lemma cutoff_window now window : (0 <= window)%Z -> (cutoff now window <= Unix now - Unix window)%Z.
Proof.
  intros Hw. unfold cutoff, time_Add, neg_i64, Unix. rewrite (proj2 (Z.eqb_neq _ _)) by lia.
  pose proof (Z.div_mod (now + - window) 1000000000 ltac:(lia)). pose proof (Z.div_mod now 1000000000 ltac:(lia)).
  pose proof (Z.div_mod window 1000000000 ltac:(lia)).
  pose proof (Z.mod_pos_bound (now + - window) 1000000000 ltac:(lia)).
  pose proof (Z.mod_pos_bound now 1000000000 ltac:(lia)). pose proof (Z.mod_pos_bound window 1000000000 ltac:(lia)).
  lia.
Qed.

Lemma windowed_claim m rec now :
  (0 <= p_Window (b_Policy b))%Z -> m !! pr_Key rec = None ->
  claimed_since (cutoff now (p_Window (b_Policy b))) m + pr_AtomicAmount rec <= p_DailyBudgetAtomic (b_Policy b) ->
  windowed m -> windowed (<[pr_Key rec := claimed rec now]> m).
Proof.
  intros Hw Hk Hs Hm a. specialize (Hm a). unfold claimed_between in *. rewrite map_sum_insert_fresh by done.
  cbn [claimed pr_ClaimedUnix pr_AtomicAmount]. destruct (_ && _) eqn:E; [|lia]. zprop.
  pose proof (cutoff_window now (p_Window (b_Policy b)) Hw) as Hc. fold Wsec in Hc.
  unfold claimed_since in Hs. etrans; [|exact Hs]. rewrite N.add_comm. apply N.add_le_mono_r.
  apply map_sum_le. intros id r _. cbn beta. destruct ((_ <=? _)%Z && _) eqn:Er; [|lia]. zprop.
  by rewrite (proj2 (Z.ltb_ge _ _)) by lia.
Qed.

Lemma windowed_phase m key r next : m !! key = Some r -> windowed m -> windowed (<[key := set_Phase next r]> m).
Proof.
  intros Hk Hm a. specialize (Hm a). unfold claimed_between in *. by erewrite map_sum_insert_same.
Qed.

(** Nothing between the look at the journal and now changed the slots. *)
Fixpoint observed (h : history) (m : slots) : Prop :=
  match h with
  | [] => True
  | Ev (JournalBegin _ _) _ :: _ | Ev (JournalAcquire _) _ :: _ | Ev (JournalAdvance _ _) _ :: _ => True
  | Ev (JournalGet key) r :: rest => r = m !! key /\ observed rest m
  | Ev (JournalSpent now window) n :: rest =>
      n = N.min MaxUint64 (claimed_since (cutoff now window) m) /\ observed rest m
  | _ :: rest => observed rest m
  end.

Lemma exec_call_observed e env j a j' r h :
  exec_call e env j a = (j', r) -> observed h (memory j) -> observed (Ev a r :: h) (memory j').
Proof.
  destruct a; cbn; intros E Hh; try done; injection E as <- <-; try done; (split; [|done]);
    [by rewrite spent_law|by rewrite get_law].
Qed.

(** A transaction keeps what its result has. *)
Lemma transaction_keeps {A} (P : slots -> Prop) m d (spec : result (slots * A)) m' d' r :
  (forall next a, spec = Ok (next, a) -> P next) ->
  transaction m d spec m' d' r -> P m -> P d -> P m' /\ P d'.
Proof.
  intros Hn. unfold transaction. destruct spec as [[next a]|msg].
  - specialize (Hn next a eq_refl). intros [(_ & -> & [->|[-> ->]])|(_ & -> & [-> | ->])]; auto.
  - intros (-> & -> & _). auto.
Qed.

(** What a purchase knew when it claims is enough for the budget. *)
Lemma observed_budget ref transport rec now r h m :
  p_DailyBudgetAtomic (b_Policy b) <= MaxUint64 ->
  call_ok b ref transport h (Ev (JournalBegin rec now) r) -> observed h m -> m !! pr_Key rec = None ->
  (0 <= p_Window (b_Policy b))%Z /\
  claimed_since (cutoff now (p_Window (b_Policy b))) m + pr_AtomicAmount rec <= p_DailyBudgetAtomic (b_Policy b).
Proof.
  intros Hb (proposal & aq & -> & spent & existing & Hd) Ho Hk.
  set (verdict := Authorize _ _ _ _) in Hd.
  assert (within_policy (b_Policy b) proposal (discounted (p_Window (b_Policy b)) now spent existing) now /\
          observed (policy_calls b ref proposal aq now spent existing) m) as [Hw Ho'].
  { destruct Hd as [[Hv ->]|[Hv ->]];
      (split; [eapply Authorize_within; [exact Hv|auto]|exact Ho]). }
  cbn in Ho', Hk. destruct Ho' as (-> & -> & _). rewrite Hk in Hw. destruct Hw as [Hv _ _ _ Ha Hs].
  cbn [discounted] in Hs. unfold policy_valid in Hv. zprop. unfold Minute in *. split; [lia|].
  cbn [intent pr_AtomicAmount]. lia.
Qed.

Record budget_ok p : Prop := {
  bu_memory : windowed (memory (pl_journal p));
  bu_durable : windowed (durable (pl_journal p));
  bu_single : forall i i' t t', pl_threads p !! i = Some t -> pl_threads p !! i' = Some t' ->
    finished t = false -> finished t' = false -> i = i';
  bu_observed : forall i t, pl_threads p !! i = Some t -> finished t = false ->
    observed (hist i (pl_log p)) (memory (pl_journal p))
}.

Lemma fresh_budget j : windowed (memory j) -> windowed (durable j) -> budget_ok (fresh_pool j).
Proof. by split. Qed.

Lemma exec_call_budget e env j a j' r ref transport h :
  p_DailyBudgetAtomic (b_Policy b) <= MaxUint64 ->
  journal_inv j -> exec_call e env j a = (j', r) -> call_ok b ref transport h (Ev a r) -> observed h (memory j) ->
  windowed (memory j) -> windowed (durable j) -> windowed (memory j') /\ windowed (durable j').
Proof.
  intros Hb [Hj _] E Hc Ho Hm Hd. destruct a; cbn in E; try (by injection E as <- _).
  - destruct (begin_law _ _ _ _ _ _ Hj E) as [_ Ht].
    eapply transaction_keeps; [|exact Ht|done|done]. intros next a Hs. unfold spec_Begin in Hs. op_cases Hs; [done|].
    destruct (observed_budget ref transport rec now r h _ Hb Hc Ho ltac:(done)) as [Hw Hs]. by apply windowed_claim.
  - destruct (acquire_law _ _ _ _ _ Hj E) as [_ Ht].
    eapply transaction_keeps; [|exact Ht|done|done]. intros next a Hs. unfold spec_Acquire in Hs. op_cases Hs; [|done].
    by apply windowed_phase.
  - destruct (advance_law _ _ _ _ _ _ Hj E) as [_ Ht].
    eapply transaction_keeps; [|exact Ht|done|done]. intros next' a Hs. unfold spec_Advance in Hs. op_cases Hs.
    by apply windowed_phase.
Qed.

Lemma idle_finished p i t : idle p = true -> pl_threads p !! i = Some t -> finished t = true.
Proof.
  unfold idle. rewrite forallb_forall. intros H Hi. apply H. apply list_elem_of_In. by eapply list_elem_of_lookup_2.
Qed.

Lemma step_budget m0 p p' :
  p_DailyBudgetAtomic (b_Policy b) <= MaxUint64 ->
  pool_ok m0 p -> budget_ok p -> step false p p' -> budget_ok p'.
Proof.
  intros Hb Hp [Hm Hd Hone Ho] Hs. destruct Hs as [ref transport Hidle|i a k e env Hi|j' Hr].
  - cbn [orb] in Hidle. split; cbn [started pl_journal pl_threads pl_log]; try done.
    + intros i i' t t' Ht Ht' Hf Hf'.
      apply lookup_snoc_Some in Ht as [[_ Ht]|[-> _]]; [by rewrite (idle_finished _ _ _ Hidle Ht) in Hf|].
      apply lookup_snoc_Some in Ht' as [[_ Ht']|[-> _]]; [by rewrite (idle_finished _ _ _ Hidle Ht') in Hf'|done].
    + intros i t Ht Hf.
      apply lookup_snoc_Some in Ht as [[_ Ht]|[-> _]]; [by rewrite (idle_finished _ _ _ Hidle Ht) in Hf|].
      by rewrite (po_range _ _ Hp).
  - destruct (exec_call e env (pl_journal p) a) as [j' r] eqn:E.
    destruct (po_history _ _ Hp i) as (ref & transport & _ & Hlive). destruct (Hlive _ Hi r) as [Hc _].
    specialize (Ho i _ Hi eq_refl) as Hoi.
    destruct (exec_call_budget _ _ _ _ _ _ _ _ _ Hb (po_journal _ _ Hp) E Hc Hoi Hm Hd) as [Hm' Hd'].
    pose proof (lookup_lt_Some _ _ _ Hi) as Hlt.
    assert (forall i' t, <[i := Some (k r)]> (pl_threads p) !! i' = Some t -> finished t = false -> i' = i) as Hsame.
    { intros i' t Ht Hf. destruct (decide (i' = i)) as [|Hne]; [done|].
      rewrite list_lookup_insert_ne in Ht by done. by eapply Hone. }
    split; cbn [called pl_journal pl_threads pl_log fst snd]; [done|done|..].
    + intros i1 i2 t1 t2 H1 H2 F1 F2. by rewrite (Hsame _ _ H1 F1), (Hsame _ _ H2 F2).
    + intros i' t Ht Hf. rewrite (Hsame _ _ Ht Hf), hist_same. by eapply exec_call_observed.
  - destruct (reopen_law _ _ (proj1 (po_journal _ _ Hp)) Hr) as (_ & Hm' & Hd').
    split; cbn [crashed pl_journal pl_threads pl_log]; rewrite ?Hm', ?Hd'; try done.
    + intros i i' t t'. rewrite list_lookup_fmap. by destruct (pl_threads p !! i) as [?|]; intros [= <-].
    + intros i t. rewrite list_lookup_fmap. by destruct (pl_threads p !! i) as [?|]; intros [= <-].
Qed.

Lemma steps_budget m0 p p' :
  p_DailyBudgetAtomic (b_Policy b) <= MaxUint64 ->
  rtc (step false) p p' -> pool_ok m0 p -> budget_ok p -> budget_ok p'.
Proof. intros Hb. induction 1; eauto using pool_step_ok, step_budget. Qed.

(** When purchases do not overlap, the amounts claimed within any window of
    the policy's length never exceed the budget, in memory and in the file,
    whatever the clock, the collaborators and the disk do, and across restarts. *)
Theorem bridge_claim_budget j0 p :
  p_DailyBudgetAtomic (b_Policy b) <= MaxUint64 -> journal_inv j0 ->
  windowed (memory j0) -> windowed (durable j0) -> rtc (step false) (fresh_pool j0) p ->
  forall a, claimed_between a (a + Wsec)%Z (memory (pl_journal p)) <= p_DailyBudgetAtomic (b_Policy b) /\
            claimed_between a (a + Wsec)%Z (durable (pl_journal p)) <= p_DailyBudgetAtomic (b_Policy b).
Proof.
  intros Hb Hj Hm Hd Hs a.
  destruct (steps_budget _ _ _ Hb Hs (pool_fresh_ok _ Hj) (fresh_budget _ Hm Hd)) as [Hm' Hd' _ _]. auto.
Qed.

End safety.

(** ** Runs of the file journal that can be computed *)

Inductive choice :=
| Start (ref : CapabilityRef) (transport : Transport)
| Turn (i : nat) (e : io document) (env : forall a, answer a)
| Restart (d : dir_env) (f : file_env) (e : io document).

Definition choose (b : Buyer) (overlap : bool) (c : choice) (p : pool FilePurchaseJournal)
    : option (pool FilePurchaseJournal) :=
  match c with
  | Start ref transport => if overlap || idle p then Some (started b ref transport p) else None
  | Turn i e env =>
      match pl_threads p !! i with
      | Some (Some (Call a k)) => Some (called p i a k (exec_call e env (pl_journal p) a))
      | _ => None
      end
  | Restart d f e =>
      match NewFilePurchaseJournal d f e (fj_file (pl_journal p)) with
      | (_, Ok j') => Some (crashed p j')
      | _ => None
      end
  end.

Fixpoint schedule (b : Buyer) (overlap : bool) (cs : list choice) (p : pool FilePurchaseJournal)
    : option (pool FilePurchaseJournal) :=
  match cs with
  | [] => Some p
  | c :: cs => match choose b overlap c p with Some p' => schedule b overlap cs p' | None => None end
  end.

Lemma choose_step b overlap c p p' : choose b overlap c p = Some p' -> step b overlap p p'.
Proof.
  destruct c as [ref transport|i e env|d f e]; cbn.
  - destruct (overlap || idle p) eqn:E; [|done]. intros [= <-]. by constructor.
  - destruct (pl_threads p !! i) as [[[|a k]|]|] eqn:E; try done. intros [= <-]. by constructor.
  - destruct (NewFilePurchaseJournal _ _ _ _) as [file [j'|]] eqn:E; [|done]. intros [= <-].
    apply step_crash. exists d, f, e. destruct (open_ok _ _ _ _ _ _ E) as (Hf & _). by rewrite Hf.
Qed.

Lemma schedule_steps b overlap cs : forall p p', schedule b overlap cs p = Some p' -> rtc (step b overlap) p p'.
Proof.
  induction cs as [|c cs IH]; intros p p'; cbn; [by intros [= <-]|].
  destruct (choose b overlap c p) as [p1|] eqn:E; [|done]. intros H. eapply rtc_l; [by eapply choose_step|auto].
Qed.

(** ** What was paid, and when *)

(** The clock reading of a purchase. *)
Fixpoint clock_of (h : history) : Z :=
  match h with
  | [] => 0
  | Ev Clock t :: _ => t
  | _ :: rest => clock_of rest
  end.

(** The funding calls: the second at which the purchase was decided, and the amount. *)
Fixpoint spends (log : list (nat * event answer)) : list (Z * N) :=
  match log with
  | [] => []
  | (i, Ev (SignAndFundEscrow aq) _) :: rest =>
      (Unix (clock_of (hist i rest)), q_MaxAtomicAmount (aq_Proposal aq)) :: spends rest
  | _ :: rest => spends rest
  end.

Definition spent_between (lo hi : Z) (log : list (nat * event answer)) : N :=
  sumN ((fun x : Z * N => if (lo <=? x.1)%Z && (x.1 <=? hi)%Z then x.2 else 0) <$> spends log).

(** ** An example market *)

Definition ex_network : Network :=
  {| n_ID := "tos"; n_GenesisRootHash := "root"; n_GenesisFileHash := "file" |}.
Definition ex_asset : AssetIdentity :=
  {| a_Master := "master"; a_WalletCodeHash := "wallet"; a_Network := ex_network; a_Workchain := 0;
     a_MasterCodeHash := "code"; a_Decimals := 6 |}.
Definition ex_ref (id : string) : CapabilityRef :=
  {| c_AgentID := "agent"; c_CapabilityID := id; c_Version := "1"; c_ManifestDigest := "manifest";
     c_RegistryCodeHash := "registry"; c_Network := ex_network; c_CapabilityClass := "compute" |}.
Definition ex_day : Z := (24 * Hour)%Z.
Definition ex_now : Z := 1700000000000000000.
Definition ex_proposal (id : string) : QuoteProposal :=
  {| q_Capability := ex_ref id; q_Asset := ex_asset; q_MaxAtomicAmount := 100;
     q_Expiry := 2000000000000000000; q_ExecutionSigner := "signer"; q_EndpointCommit := "endpoint";
     q_DisputeTerms := "dispute"; q_TransportBindingDigest := "transport"; q_EscrowTermsDigest := "escrow";
     q_AtomicAmount := "" |}.
Definition ex_quote (id : string) : AcceptedQuote :=
  {| aq_Proposal := ex_proposal id; aq_QuoteCommitment := "quote-" +:+ id; aq_EscrowAddress := "escrow-" +:+ id;
     aq_EscrowStateInit := ""; aq_FundingQueryID := 1 |}.
Definition ex_task (aq : AcceptedQuote) : Task :=
  {| t_EscrowAddress := aq_EscrowAddress aq; t_QuoteCommitment := aq_QuoteCommitment aq; t_ExecutionID := "exec";
     t_InputDigest := ""; t_SourceDigest := ""; t_SourceArchive := "" |}.
Definition ex_escrow (address : string) : EscrowState :=
  {| es_Address := address; es_Found := true; es_FundedAtomic := 100; es_SettledAtomic := 0;
     es_ReceiptCommit := ""; es_AwaitingFunding := false; es_Checkpoint := 1 |}.
Definition ex_settlement : Settlement :=
  {| s_Released := true; s_Refunded := false; s_ProviderCreditAtomic := 100; s_BuyerBalanceAtomic := 0;
     s_Checkpoint := 2 |}.

(** The owner allows a hundred units a day. *)
Definition ex_policy : SpendingPolicy :=
  {| p_Asset := ex_asset; p_MaxAtomicPurchase := 100; p_DailyBudgetAtomic := 100; p_Window := ex_day;
     p_Expiry := 1900000000000000000; p_CapabilityAllow := <["a" := true]> {["b" := true]};
     p_ConfirmationMode := ConfirmAuto; p_OwnerSignature := "signature" |}.
Definition ex_buyer : Buyer := {| b_Policy := ex_policy; b_HasConfirmer := false |}.

(** Everybody cooperates; the escrow reads as [escrow] says. *)
Definition ex_env (now : Z) (escrow : result EscrowState) (a : action) : answer a :=
  match a with
  | ResolveCapability _ | Confirm _ | SignAndFundEscrow _ | VerifyAcceptedQuote _ _ _
  | JournalAdvance _ _ | Dispatch _ _ => Ok tt
  | RequestQuote ref => Ok (ex_proposal (c_CapabilityID ref))
  | BuildAcceptedQuote proposal => Ok (ex_quote (c_CapabilityID (q_Capability proposal)))
  | Clock => now
  | JournalSpent _ _ => 0
  | JournalGet _ => None
  | JournalBegin rec _ => Ok rec
  | JournalAcquire _ => Err "unused"
  | ResolveEscrow _ => escrow
  | BuildTask aq => Ok (ex_task aq)
  | VerifySettlement _ => Ok ex_settlement
  end.

Definition ex_io : io document := io_sized 1000.
Definition ex_journal : FilePurchaseJournal :=
  {| fj_file := FileDoc (to_document ∅, 1000); fj_records := ∅ |}.

(** [n] calls of purchase [i]; finalized state does not show the escrow yet. *)
Definition turns (n i : nat) (now : Z) : list choice :=
  repeat (Turn i ex_io (ex_env now (Err "not finalized"))) n.

Lemma ex_journal_open :
  NewFilePurchaseJournal dir_good file_good ex_io FileAbsent = (fj_file ex_journal, Ok ex_journal).
Proof. by vm_compute. Qed.

Lemma ex_journal_inv : journal_inv ex_journal.
Proof. eapply open_inv, ex_journal_open. Qed.

(** Both purchases look at the journal before either claims. *)
Definition overlap_run : list choice :=
  [Start (ex_ref "a") TransportA2A; Start (ex_ref "b") TransportA2A]
  ++ turns 6 0 ex_now ++ turns 6 1 ex_now ++ turns 4 0 ex_now ++ turns 4 1 ex_now.

(** A process dies between claim and lease; two days later the purchase is
    retried, then another one follows. *)
Definition stale_run : list choice :=
  [Start (ex_ref "a") TransportA2A] ++ turns 7 0 ex_now ++ [Restart dir_good file_good ex_io]
  ++ [Start (ex_ref "a") TransportA2A] ++ turns 10 1 (ex_now + 2 * ex_day)%Z
  ++ [Start (ex_ref "b") TransportA2A] ++ turns 10 2 (ex_now + 2 * ex_day)%Z.

Lemma schedule_witness b overlap cs p0 (Q : pool FilePurchaseJournal -> bool) :
  match schedule b overlap cs p0 with Some p => Q p | None => false end = true ->
  exists p, rtc (step b overlap) p0 p /\ Q p = true.
Proof. destruct (schedule b overlap cs p0) as [p|] eqn:E; [|done]. eauto using schedule_steps. Qed.

(** The look at the journal and the claim are two calls: of two purchases
    that run beside each other under one policy, each may find the budget
    untouched, and both are funded in the same second, for twice the budget. *)
Theorem bridge_overlap_overspends :
  exists p, rtc (step ex_buyer true) (fresh_pool ex_journal) p /\
    (p_DailyBudgetAtomic ex_policy <? spent_between (Unix ex_now) (Unix ex_now) (pl_log p)) = true.
Proof. apply (schedule_witness _ _ overlap_run). by vm_compute. Qed.

(** A claim keeps its first time. When a process dies between the claim and
    the lease and the purchase is retried after the window, it is funded without
    counting in the current window, and the next purchase is funded as well: one
    purchase after the other, the owner's budget is exceeded in a second. *)
Theorem bridge_stale_claim_overspends :
  exists p, rtc (step ex_buyer false) (fresh_pool ex_journal) p /\
    (p_DailyBudgetAtomic ex_policy <?
       spent_between (Unix (ex_now + 2 * ex_day)) (Unix (ex_now + 2 * ex_day)) (pl_log p)) = true.
Proof. apply (schedule_witness _ _ stale_run). by vm_compute. Qed.

(** ** The theorems at a complete run *)

(** One purchase from start to settlement. *)
Definition full_run : list choice :=
  Start (ex_ref "a") TransportA2A :: repeat (Turn 0 ex_io (ex_env ex_now (Ok (ex_escrow "escrow-a")))) 19.

Definition ex_key : PurchaseKey := key_of (ex_quote "a").

Definition is_fund (x : nat * event answer) : bool := funds ex_key x.2.
Definition is_dispatch (x : nat * event answer) : bool :=
  match x.2 with Ev (Dispatch _ _) _ => true | _ => false end.

Lemma full_run_event (f : nat * event answer -> bool) overlap :
  match schedule ex_buyer overlap full_run (fresh_pool ex_journal) with
  | Some p => existsb f (pl_log p) | None => false end = true ->
  exists p x, rtc (step ex_buyer overlap) (fresh_pool ex_journal) p /\ x ∈ pl_log p /\ f x = true.
Proof.
  intros H. destruct (schedule_witness _ _ _ _ _ H) as (p & Hp & Hx).
  apply existsb_exists in Hx as (x & Hin & Hf). exists p, x. by rewrite list_elem_of_In.
Qed.

Lemma bridge_single_funding_witness :
  exists p, rtc (step ex_buyer true) (fresh_pool ex_journal) p /\
    count (fun x => funds ex_key x.2) (pl_log p) = 1 /\
    count (fun x => funds ex_key x.2) (pl_log p) + N.b2n (leased (memory ex_journal) ex_key) <= 1.
Proof.
  destruct (schedule_witness ex_buyer true overlap_run (fresh_pool ex_journal)
    (fun p => count (fun x => funds ex_key x.2) (pl_log p) =? 1)) as (p & Hp & Hc); [vm_compute; reflexivity|].
  exists p. split_and!; [exact Hp|by apply N.eqb_eq|].
  exact (bridge_single_funding ex_buyer ex_journal p ex_key ex_journal_inv Hp).
Defined.

Lemma bridge_funding_gated_witness :
  exists (p : pool FilePurchaseJournal) i aq r, (i, Ev (SignAndFundEscrow aq) r) ∈ pl_log p /\ key_of aq = ex_key /\
    exists ref proposal now spent existing, Ev (ResolveCapability ref) (Ok tt) ∈ hist i (pl_log p) /\
      within_policy ex_policy proposal (discounted ex_day now spent existing) now.
Proof.
  destruct (full_run_event is_fund true) as (p & [i ev] & Hp & Hin & Hf); [vm_compute; reflexivity|].
  destruct ev as [[] r]; try discriminate Hf. apply bool_decide_eq_true in Hf. exists p, i, aq, r.
  split; [exact Hin|]. split; [exact Hf|].
  destruct (bridge_funding_gated ex_buyer ex_journal p i aq r ex_journal_inv Hp Hin)
    as (ref & proposal & now & spent & existing & rec & rec' & confirmed & later & Hh & Hw & _).
  exists ref, proposal, now, spent, existing. split; [|exact Hw]. rewrite Hh. set_solver.
Defined.

Lemma bridge_dispatch_gated_witness :
  exists (p : pool FilePurchaseJournal) i transport task r, (i, Ev (Dispatch transport task) r) ∈ pl_log p /\
    exists proposal aq h1 h2, hist i (pl_log p) = h1 ++ Ev (Dispatch transport task) r :: h2 /\
      verified aq proposal h2.
Proof.
  destruct (full_run_event is_dispatch true) as (p & [i ev] & Hp & Hin & Hf); [vm_compute; reflexivity|].
  destruct ev as [[] r]; try discriminate Hf. exists p, i, transport, task, r. split; [exact Hin|].
  destruct (bridge_dispatch_gated ex_buyer ex_journal p i transport task r ex_journal_inv Hp Hin)
    as (ref & proposal & aq & h1 & h2 & Hh & _ & Hv & _).
  exists proposal, aq, h1, h2. split; [exact Hh|exact Hv].
Defined.

Lemma bridge_settlement_final_witness :
  exists (p : pool FilePurchaseJournal) settlement, pl_threads p !! 0%nat = Some (Some (Ret (Ok settlement))) /\
    exists proposal aq, verified aq proposal (hist 0 (pl_log p)).
Proof.
  destruct (schedule_witness ex_buyer true full_run (fresh_pool ex_journal)
    (fun p => match pl_threads p !! 0%nat with Some (Some (Ret (Ok _))) => true | _ => false end))
    as (p & Hp & Hc); [vm_compute; reflexivity|].
  destruct (pl_threads p !! 0%nat) as [[[[settlement|]|]|]|] eqn:E; try discriminate Hc.
  exists p, settlement. split; [exact E|].
  destruct (bridge_settlement_final ex_buyer ex_journal p 0 settlement ex_journal_inv Hp E)
    as (ref & proposal & aq & _ & Hv & _).
  exists proposal, aq. exact Hv.
Defined.

Lemma ex_windowed : windowed ex_buyer ∅.
Proof. intros a. unfold claimed_between. rewrite map_sum_empty. lia. Qed.

Lemma bridge_claim_budget_witness :
  exists p, rtc (step ex_buyer false) (fresh_pool ex_journal) p /\
    claimed_between (Unix ex_now) (Unix ex_now + Wsec ex_buyer) (memory (pl_journal p)) = 100 /\
    claimed_between (Unix ex_now) (Unix ex_now + Wsec ex_buyer) (memory (pl_journal p)) <= 100.
Proof.
  destruct (schedule_witness ex_buyer false full_run (fresh_pool ex_journal)
    (fun p => claimed_between (Unix ex_now) (Unix ex_now + Wsec ex_buyer) (memory (pl_journal p)) =? 100))
    as (p & Hp & Hc); [vm_compute; reflexivity|].
  exists p. split; [exact Hp|]. split; [by apply N.eqb_eq|].
  apply (bridge_claim_budget ex_buyer ex_journal p); [vm_compute; discriminate|apply ex_journal_inv|..|exact Hp].
  - apply ex_windowed.
  - assert (durable ex_journal = ∅) as -> by (vm_compute; reflexivity). apply ex_windowed.
Defined.

End BuyerSafety.
