(* ===== verification/BuyerProgress.v ===== *)
(** * Purchases complete

    With collaborators that answer and a disk that works, a purchase runs to
    its end from every state a crash can have left its slot in: it is funded
    only when the lease was still free, and its slot ends resolved. *)

From S2P Require Import Prelude GoLib GoText FileStore Ledger GoProg Bridge Buyer BuyerSafety.
#[local] Open Scope N_scope.

Module BuyerProgress.
Import Bridge Buyer BuyerSafety.

Section progress.
Context (b : Buyer) (ref : CapabilityRef) (transport : Transport) (size : N) (env : forall a, answer a).
Context (proposal : QuoteProposal) (aq : AcceptedQuote) (settlement : Settlement).

(** Collaborators that answer, for one quote. *)
Record cooperative : Prop := {
  cp_capability : env (ResolveCapability ref) = Ok tt;
  cp_quote : env (RequestQuote ref) = Ok proposal;
  cp_matches : c_CapabilityID (q_Capability proposal) = c_CapabilityID ref;
  cp_accepted : env (BuildAcceptedQuote proposal) = Ok aq;
  cp_identity : aq_QuoteCommitment aq <> ""%string /\ aq_EscrowAddress aq <> ""%string;
  cp_confirmed : p_ConfirmationMode (b_Policy b) = ConfirmManual ->
    b_HasConfirmer b = true /\ env (Confirm proposal) = Ok tt;
  cp_funded : env (SignAndFundEscrow aq) = Ok tt;
  cp_escrow : exists escrow, env (ResolveEscrow (aq_EscrowAddress aq)) = Ok escrow /\
    es_Found escrow = true /\ es_FundedAtomic escrow = q_MaxAtomicAmount proposal;
  cp_terms : exists terms, PurchaseTermsForProposal (aq_Proposal aq) = Ok terms /\
    env (VerifyAcceptedQuote (aq_QuoteCommitment aq) (aq_EscrowAddress aq) terms) = Ok tt;
  cp_task : exists task, env (BuildTask aq) = Ok task /\ t_QuoteCommitment task = aq_QuoteCommitment aq /\
    t_EscrowAddress task = aq_EscrowAddress aq /\ env (Dispatch transport task) = Ok tt;
  cp_settled : env (VerifySettlement aq) = Ok settlement /\ s_Released settlement <> s_Refunded settlement
}.

Abbreviation handle := (fun (j : FilePurchaseJournal) a => exec_call (io_sized size) env j a).

(** The outcome of a run: the slot ends resolved, and [n] funding calls were
    made since the history [h]. *)
Definition completes (p : prog answer (result Settlement)) (j : FilePurchaseJournal) (h : history) (n : N) : Prop :=
  exists j' h', run handle p j h = (j', h', Ok settlement) /\
    pr_Phase <$> (fj_records j' !! key_of aq) = Some PhaseResolved /\
    count (funds (key_of aq)) h' = count (funds (key_of aq)) h + n.

Context (Hco : cooperative).

(** A call with a given answer. *)
Lemma completes_call a k j h n j1 r :
  exec_call (io_sized size) env j a = (j1, r) ->
  completes (k r) j1 (Ev a r :: h) (n - (if funds (key_of aq) (Ev a r) then 1 else 0)) ->
  (if funds (key_of aq) (Ev a r) then 1 else 0) <= n -> completes (Call a k) j h n.
Proof.
  intros E (j' & h' & Hr & Hp & Hc) Hn. exists j', h'. cbn [run]. rewrite E. split_and!; [done|done|].
  rewrite Hc, count_cons. lia.
Qed.

(** The same for a call that funds nothing. *)
Lemma completes_quiet a k j h n j1 r :
  exec_call (io_sized size) env j a = (j1, r) -> funds (key_of aq) (Ev a r) = false ->
  (forall h', completes (k r) j1 h' n) -> completes (Call a k) j h n.
Proof. intros E Hf Hk. eapply completes_call; [exact E|rewrite Hf, N.sub_0_r; apply Hk|rewrite Hf; lia]. Qed.

Lemma completes_get key k j h n :
  (forall h', completes (k (fj_records j !! key)) j h' n) -> completes (Call (JournalGet key) k) j h n.
Proof. intros Hk. by eapply completes_quiet. Qed.

(** Replacing a slot on a disk that works. *)
Lemma file_put_sized {A} j key r (a : A) :
  file_put (io_sized size) j key r a =
  ({| fj_file := FileDoc (to_document (<[key := r]> (fj_records j)), size);
      fj_records := <[key := r]> (fj_records j) |}, Ok a).
Proof. done. Qed.

Lemma advance_sized j key r next :
  fj_records j !! key = Some r -> CanAdvance (pr_Phase r) next = true ->
  exists j', file_Advance (io_sized size) j key next = (j', Ok tt) /\
    fj_records j' !! key = Some (set_Phase next r).
Proof.
  intros Hk Ha. unfold file_Advance. destruct (proj1 (CanAdvance_true _ _) Ha) as (_ & -> & _). cbn [negb].
  rewrite Hk, Ha. cbn [negb]. eexists. split; [apply file_put_sized|]. cbn. by rewrite lookup_insert_eq.
Qed.

Lemma settle_completes j r h :
  fj_records j !! key_of aq = Some r -> phase_valid (pr_Phase r) = true -> completes (purchase_settle aq) j h 0.
Proof.
  intros Hk Hv. destruct (cp_settled Hco) as [Hs Hne]. unfold purchase_settle.
  eapply completes_quiet; [cbn; by rewrite Hs|done|]. clear h. intros h. cbn beta iota.
  rewrite (proj2 (eqb_false_iff _ _)) by done.
  destruct (CanAdvance (pr_Phase r) PhaseResolved) eqn:Ha.
  - destruct (advance_sized _ _ _ _ Hk Ha) as (j' & E & Hk').
    eapply completes_quiet; [exact E|done|]. intros h'. exists j', h'. split_and!; [done|by rewrite Hk'|lia].
  - assert (pr_Phase r = PhaseResolved) as Hr by (by destruct (pr_Phase r)).
    eapply completes_quiet.
    + cbn. unfold file_Advance. cbn [phase_valid negb]. rewrite Hk, Ha. done.
    + done.
    + intros h'. cbn beta iota. rewrite bool_decide_eq_true_2 by done. exists j, h'.
      split_and!; [done|by rewrite Hk; cbn; rewrite Hr|lia].
Qed.

Lemma dispatch_completes j r h :
  fj_records j !! key_of aq = Some r -> phase_valid (pr_Phase r) = true ->
  completes (purchase_dispatch transport aq (pr_Phase r)) j h 0.
Proof.
  intros Hk Hv. unfold purchase_dispatch. destruct (_ <? _)%Z eqn:Eo; [|by eapply settle_completes].
  destruct (cp_task Hco) as (task & Ht & Hq & He & Hd). apply Z.ltb_lt in Eo.
  eapply completes_quiet; [cbn; by rewrite Ht|done|]. clear h. intros h. cbn beta iota.
  rewrite !bool_decide_eq_true_2 by done. cbn [negb orb].
  eapply completes_quiet; [cbn; by rewrite Hd|done|]. clear h. intros h. cbn beta iota.
  destruct (advance_sized j (key_of aq) r PhaseExecution Hk) as (j' & E & Hk').
  { apply CanAdvance_true. auto. }
  eapply completes_quiet; [exact E|done|]. clear h. intros h. cbn beta iota. by eapply settle_completes.
Qed.

Lemma verify_completes j r h :
  fj_records j !! key_of aq = Some r -> phase_valid (pr_Phase r) = true ->
  completes (purchase_verify transport proposal aq) j h 0.
Proof.
  intros Hk Hv. unfold purchase_verify. destruct (cp_escrow Hco) as (escrow & He & Hf & Ha).
  destruct (cp_terms Hco) as (terms & Ht & Hq).
  eapply completes_quiet; [cbn; by rewrite He|done|]. clear h. intros h. cbn beta iota.
  rewrite Hf, (proj2 (N.eqb_eq _ _) Ha). cbn [negb orb]. rewrite Ht.
  eapply completes_quiet; [cbn; by rewrite Hq|done|]. clear h. intros h. cbn beta iota.
  apply completes_get. clear h. intros h. rewrite Hk.
  destruct (_ <? _)%Z eqn:Eo; [|by eapply dispatch_completes]. apply Z.ltb_lt in Eo.
  destruct (advance_sized j (key_of aq) r PhaseFunded Hk) as (j' & E & Hk').
  { apply CanAdvance_true. auto. }
  eapply completes_quiet; [exact E|done|]. clear h. intros h. cbn beta iota.
  apply completes_get. clear h. intros h. rewrite Hk'.
  by apply (dispatch_completes j' (set_Phase PhaseFunded r)).
Qed.

(** The slot is free, or claimed for the same asset and amount. *)
Definition claimable (j : FilePurchaseJournal) (now : Z) : Prop :=
  match fj_records j !! key_of aq with
  | Some r => same_intent r (intent aq proposal) = true /\ phase_valid (pr_Phase r) = true
  | None => True
  end /\ file_accepts (intent aq proposal) now = true.

Definition may_fund (j : FilePurchaseJournal) : bool :=
  match fj_records j !! key_of aq with Some r => bool_decide (pr_Phase r = PhasePrepared) | None => true end.

Lemma begin_sized j now :
  claimable j now ->
  exists j' r, file_Begin (io_sized size) j (intent aq proposal) now = (j', Ok r) /\
    fj_records j' !! key_of aq = Some r /\ phase_valid (pr_Phase r) = true /\
    may_fund j = bool_decide (pr_Phase r = PhasePrepared).
Proof.
  intros [Hk Ha]. unfold file_Begin. unfold file_accepts in Ha. apply negb_true_iff in Ha. rewrite Ha.
  unfold may_fund. cbn [intent pr_Key] in *. destruct (fj_records j !! key_of aq) as [r|] eqn:E.
  - destruct Hk as [Hs Hv]. rewrite same_intent_false, Hs. cbn [negb]. by exists j, r.
  - eexists _, _. split; [apply file_put_sized|]. cbn. rewrite lookup_insert_eq. done.
Qed.

Lemma acquire_sized j key r :
  fj_records j !! key = Some r ->
  exists j' r', file_AcquireFundingLease (io_sized size) j key =
      (j', Ok (bool_decide (pr_Phase r = PhasePrepared), r')) /\
    fj_records j' !! key = Some r' /\ (phase_valid (pr_Phase r) = true -> phase_valid (pr_Phase r') = true).
Proof.
  intros Hk. unfold file_AcquireFundingLease. rewrite Hk. unfold CanAcquireFundingLease.
  destruct (bool_decide _) eqn:E; cbn [negb].
  - eexists _, _. split; [apply file_put_sized|]. cbn. by rewrite lookup_insert_eq.
  - eauto.
Qed.

Lemma fund_completes j now h :
  claimable j now -> completes (purchase_fund transport proposal aq now) j h (if may_fund j then 1 else 0).
Proof.
  intros Hj. destruct (begin_sized _ _ Hj) as (j1 & r & E & Hk & Hv & ->). unfold purchase_fund.
  eapply completes_quiet; [exact E|done|]. clear h. intros h. cbn beta iota.
  destruct (acquire_sized _ _ _ Hk) as (j2 & r2 & E2 & Hk2 & Hv2).
  eapply completes_quiet; [exact E2|done|]. clear h. intros h. cbn beta iota.
  destruct (bool_decide _); [|by apply (verify_completes j2 r2); auto].
  eapply completes_call; [cbn; by rewrite (cp_funded Hco)| |].
  - cbn [funds]. rewrite bool_decide_eq_true_2 by done. cbn beta iota. change (1 - 1) with 0.
    apply (verify_completes j2 r2); auto.
  - cbn [funds]. rewrite bool_decide_eq_true_2; done.
Qed.

(** C33: With collaborators that answer and a disk that works, a purchase that
    the policy allows completes, from every phase a crash can have left its slot
    in: it returns the settlement, its slot ends resolved, and custody is called
    exactly when the lease was still free, once. *)
Theorem bridge_purchase_completes (j : FilePurchaseJournal) :
  let now := env Clock in
  let verdict := Authorize (b_Policy b) proposal (discounted (p_Window (b_Policy b)) now
    (file_SpentInWindow j now (p_Window (b_Policy b))) (file_Get j (key_of aq))) now in
  claimable j now -> verdict = Ok tt \/ verdict = Err ErrManualConfirmation ->
  completes (Purchase b ref transport) j [] (if may_fund j then 1 else 0).
Proof.
  intros now verdict Hj Hv. unfold Purchase.
  eapply completes_quiet; [cbn; by rewrite (cp_capability Hco)|done|]. intros h. cbn beta iota.
  eapply completes_quiet; [cbn; by rewrite (cp_quote Hco)|done|]. clear h. intros h. cbn beta iota.
  rewrite bool_decide_eq_true_2 by apply (cp_matches Hco). cbn [negb].
  eapply completes_quiet; [cbn; by rewrite (cp_accepted Hco)|done|]. clear h. intros h. cbn beta iota.
  unfold is_empty. destruct (cp_identity Hco) as [Hq He]. rewrite !bool_decide_eq_false_2 by done. cbn [orb].
  eapply completes_quiet; [done|done|]. clear h. intros h.
  eapply completes_quiet; [done|done|]. clear h. intros h.
  eapply completes_quiet; [done|done|]. clear h. intros h.
  match goal with |- context [Authorize ?p ?q ?s ?n] => change (Authorize p q s n) with verdict end.
  destruct Hv as [Hv|Hv].
  - rewrite Hv. by apply fund_completes.
  - destruct (Authorize_within _ _ _ _ _ Hv ltac:(auto)) as [_ Hm]. rewrite Hv. cbn beta iota.
    rewrite bool_decide_eq_true_2 by done.
    destruct (cp_confirmed Hco) as [Hc Hok]; [by destruct (bool_decide _) eqn:Ec in Hm; bprop|].
    rewrite Hc. cbn [negb]. eapply completes_quiet; [cbn; by rewrite Hok|done|]. clear h. intros h. cbn beta iota.
    by apply fund_completes.
Qed.

End progress.

Lemma ex_cooperative :
  cooperative ex_buyer (ex_ref "a") TransportA2A (ex_env ex_now (Ok (ex_escrow "escrow-a")))
    (ex_proposal "a") (ex_quote "a") ex_settlement.
Proof.
  split; try done.
  - by eexists.
  - eexists. split; [vm_compute; reflexivity|done].
  - by exists (ex_task (ex_quote "a")).
Qed.

(** The slot as a process that died right after the claim left it. *)
Definition ex_claimed : FilePurchaseJournal :=
  fst (file_Begin ex_io ex_journal (intent (ex_quote "a") (ex_proposal "a")) ex_now).

Lemma bridge_purchase_completes_witness :
  may_fund (ex_quote "a") ex_claimed = true /\
  completes 1000 (ex_env ex_now (Ok (ex_escrow "escrow-a"))) (ex_quote "a") ex_settlement
    (Purchase ex_buyer (ex_ref "a") TransportA2A) ex_claimed [] 1.
Proof.
  split; [vm_compute; reflexivity|].
  change 1 with (if may_fund (ex_quote "a") ex_claimed then 1 else 0).
  apply (bridge_purchase_completes ex_buyer (ex_ref "a") TransportA2A 1000
    (ex_env ex_now (Ok (ex_escrow "escrow-a"))) (ex_proposal "a") (ex_quote "a") ex_settlement
    ex_cooperative ex_claimed).
  - split; vm_compute; auto.
  - left. vm_compute. reflexivity.
Defined.

End BuyerProgress.
