(* ===== verification/Provider.v ===== *)
(** * The provider and the authorized signer of the service bridge

    src/pkg/servicebridge: [Provider.HandleAdmittedTask] (provider.go) and
    [AuthorizedCustodySigner] (authorized_signer.go) with the actions it
    submits (src/pkg/actionauth/actionauth.go), as programs over their
    collaborators. *)

From S2P Require Import Prelude GoLib GoText GoProg Bridge Buyer.
#[local] Open Scope N_scope.

Module Provider.
Import Bridge.

Inductive action :=
| ResolveEscrow (address : string)
| Execute (task : Task)
| BuildReceipt (aq : AcceptedQuote) (outcome : Outcome)
| SignSettlementIntent (settlementIntentHash : string)
| VerifySettlement (aq : AcceptedQuote).

Definition answer (a : action) : Type :=
  match a with
  | ResolveEscrow _ => result EscrowState
  | Execute _ => result Outcome
  | BuildReceipt _ _ => result Receipt
  | SignSettlementIntent _ => result string
  | VerifySettlement _ => result Settlement
  end.

Definition ErrEscrowNotFunded : string := "servicebridge: admitted task escrow is not funded to the accepted quote".
Definition ErrOutcomeMismatch : string := "servicebridge: execution outcome does not bind the admitted task".

Definition zero_Receipt : Receipt :=
  {| r_Commitment := ""; r_QuoteCommitment := ""; r_ExecutionID := ""; r_ChargedAtomic := 0; r_ReleaseQueryID := 0 |}.
Definition zero_Settlement : Settlement :=
  {| s_Released := false; s_Refunded := false; s_ProviderCreditAtomic := 0; s_BuyerBalanceAtomic := 0;
     s_Checkpoint := 0 |}.

(** The method returns a receipt, a settlement and an error. *)
Definition returned : Type := Receipt * Settlement * result unit.
Definition refuse (msg : string) : prog answer returned := Ret (zero_Receipt, zero_Settlement, Err msg).

Definition HandleAdmittedTask (aq : AcceptedQuote) (task : Task) : prog answer returned :=
  if negb (bool_decide (t_QuoteCommitment task = aq_QuoteCommitment aq))
     || negb (bool_decide (t_EscrowAddress task = aq_EscrowAddress aq))
  then refuse ErrOutcomeMismatch
  else
    call escrow <- ResolveEscrow (aq_EscrowAddress aq);
    match escrow with
    | Err m => refuse m
    | Ok escrow =>
        if negb (es_Found escrow) || negb (es_FundedAtomic escrow =? q_MaxAtomicAmount (aq_Proposal aq))
        then refuse ErrEscrowNotFunded
        else
          call outcome <- Execute task;
          match outcome with
          | Err m => refuse m
          | Ok outcome =>
              if negb (bool_decide (o_QuoteCommitment outcome = aq_QuoteCommitment aq))
                 || negb (bool_decide (o_ExecutionID outcome = t_ExecutionID task))
              then refuse ErrOutcomeMismatch
              else
                call receipt <- BuildReceipt aq outcome;
                match receipt with
                | Err m => refuse m
                | Ok receipt =>
                    if bool_decide (r_Commitment receipt = ""%string)
                       || negb (bool_decide (r_QuoteCommitment receipt = aq_QuoteCommitment aq))
                    then refuse "servicebridge: built receipt does not bind the accepted quote"
                    else
                      call signed <- SignSettlementIntent (r_Commitment receipt);
                      match signed with
                      | Err m => refuse m
                      | Ok _ =>
                          call settlement <- VerifySettlement aq;
                          match settlement with
                          | Err m => Ret (receipt, zero_Settlement, Err m)
                          | Ok settlement => Ret (receipt, settlement, Ok tt)
                          end
                      end
                end
          end
    end.

(** What the provider did before it signs, newest first. *)
Record earned (aq : AcceptedQuote) (task : Task) (escrow : EscrowState) (outcome : Outcome) (receipt : Receipt)
    : Prop := {
  ea_task : t_QuoteCommitment task = aq_QuoteCommitment aq /\ t_EscrowAddress task = aq_EscrowAddress aq;
  ea_escrow : es_Found escrow = true /\ es_FundedAtomic escrow = q_MaxAtomicAmount (aq_Proposal aq);
  ea_outcome : o_QuoteCommitment outcome = aq_QuoteCommitment aq /\ o_ExecutionID outcome = t_ExecutionID task;
  ea_receipt : r_Commitment receipt <> ""%string /\ r_QuoteCommitment receipt = aq_QuoteCommitment aq
}.

Definition before_signing (aq : AcceptedQuote) (task : Task) (escrow : EscrowState) (outcome : Outcome)
    (receipt : Receipt) : list (event answer) :=
  [Ev (BuildReceipt aq outcome) (Ok receipt); Ev (Execute task) (Ok outcome);
   Ev (ResolveEscrow (aq_EscrowAddress aq)) (Ok escrow)].

Definition call_ok (aq : AcceptedQuote) (task : Task) (h : list (event answer)) (ev : event answer) : Prop :=
  match ev with
  | Ev (SignSettlementIntent hash) _ =>
      exists escrow outcome receipt, h = before_signing aq task escrow outcome receipt /\
        earned aq task escrow outcome receipt /\ hash = r_Commitment receipt
  | Ev (Execute task') _ =>
      task' = task /\ exists escrow, h = [Ev (ResolveEscrow (aq_EscrowAddress aq)) (Ok escrow)] /\
        es_Found escrow = true /\ es_FundedAtomic escrow = q_MaxAtomicAmount (aq_Proposal aq)
  | _ => True
  end.

Definition result_ok (aq : AcceptedQuote) (task : Task) (h : list (event answer)) (x : returned) : Prop :=
  match x with
  | (receipt, settlement, Ok _) =>
      exists escrow outcome signature, earned aq task escrow outcome receipt /\
        h = Ev (VerifySettlement aq) (Ok settlement) :: Ev (SignSettlementIntent (r_Commitment receipt)) (Ok signature)
            :: before_signing aq task escrow outcome receipt
  | (receipt, settlement, Err _) => settlement = zero_Settlement
  end.

Lemma HandleAdmittedTask_follows aq task :
  always (call_ok aq task) (result_ok aq task) [] (HandleAdmittedTask aq task).
Proof.
  unfold HandleAdmittedTask. destruct (_ || _) eqn:E1; [done|]. bprop.
  cbn. intros [escrow|m]; split; try done. destruct (_ || _) eqn:E2; [done|]. bprop.
  intros r. split; [split; [done|]; by exists escrow|]. destruct r as [outcome|m]; [|done].
  destruct (_ || _) eqn:E3; [done|]. bprop.
  intros [receipt|m]; split; try done. destruct (_ || _) eqn:E4; [done|]. bprop.
  assert (earned aq task escrow outcome receipt) as Hearned by by split.
  intros r. split; [by exists escrow, outcome, receipt|]. destruct r as [signature|m]; [|done].
  intros [settlement|m]; split; try done. by exists escrow, outcome, signature.
Qed.

Section provider.
Context {S : Type} (handle : S -> forall a, S * answer a).

(** The provider executes a task only after finalized state showed its
    escrow funded with exactly the quoted amount, signs only the commitment of a
    receipt built from the outcome of that very task for that very quote, and
    reports success only with the settlement it read after signing. *)
Theorem provider_signs_earned aq task s s' h receipt settlement r :
  run handle (HandleAdmittedTask aq task) s [] = (s', h, (receipt, settlement, r)) ->
  (forall hash sig, Ev (SignSettlementIntent hash) sig ∈ h ->
     exists escrow outcome built h1, h = h1 ++ Ev (SignSettlementIntent hash) sig ::
         before_signing aq task escrow outcome built /\
       earned aq task escrow outcome built /\ hash = r_Commitment built) /\
  (r = Ok tt -> exists escrow outcome signature, earned aq task escrow outcome receipt /\
     h = Ev (VerifySettlement aq) (Ok settlement) :: Ev (SignSettlementIntent (r_Commitment receipt)) (Ok signature)
         :: before_signing aq task escrow outcome receipt).
Proof.
  intros Hr. destruct (run_always handle _ _ _ _ _ _ _ _ (HandleAdmittedTask_follows aq task) I Hr) as [Hh Hx].
  split.
  - intros hash sig Hin. destruct (history_ok_elem _ _ _ Hh Hin) as (h1 & h2 & -> & Hc).
    destruct Hc as (escrow & outcome & built & -> & He & Hhash). by exists escrow, outcome, built, h1.
  - intros ->. exact Hx.
Qed.
End provider.

(** *** Example: a task that is executed and settled *)

Definition ex_quote : AcceptedQuote :=
  {| aq_Proposal := bex_proposal; aq_QuoteCommitment := "quote"; aq_EscrowAddress := "escrow";
     aq_EscrowStateInit := ""; aq_FundingQueryID := 1 |}.
Definition ex_task : Task :=
  {| t_EscrowAddress := "escrow"; t_QuoteCommitment := "quote"; t_ExecutionID := "exec"; t_InputDigest := "";
     t_SourceDigest := ""; t_SourceArchive := "" |}.

Definition ex_handle (_ : unit) (a : action) : unit * answer a :=
  (tt, match a return answer a with
       | ResolveEscrow address =>
           Ok {| es_Address := address; es_Found := true; es_FundedAtomic := 60; es_SettledAtomic := 0;
                 es_ReceiptCommit := ""; es_AwaitingFunding := false; es_Checkpoint := 1 |}
       | Execute task =>
           Ok {| o_ExecutionID := t_ExecutionID task; o_QuoteCommitment := t_QuoteCommitment task;
                 o_ArtifactDigest := "artifact"; o_ReportDigest := ""; o_ExitCode := 0; o_CompletedUnix := 1 |}
       | BuildReceipt aq outcome =>
           Ok {| r_Commitment := "receipt"; r_QuoteCommitment := aq_QuoteCommitment aq;
                 r_ExecutionID := o_ExecutionID outcome; r_ChargedAtomic := 60; r_ReleaseQueryID := 1 |}
       | SignSettlementIntent _ => Ok "signature"%string
       | VerifySettlement _ =>
           Ok {| s_Released := true; s_Refunded := false; s_ProviderCreditAtomic := 60; s_BuyerBalanceAtomic := 0;
                 s_Checkpoint := 2 |}
       end).

Lemma provider_signs_earned_witness :
  exists h x, run ex_handle (HandleAdmittedTask ex_quote ex_task) tt [] = (tt, h, x) /\
    exists escrow outcome, earned ex_quote ex_task escrow outcome x.1.1.
Proof.
  destruct (run ex_handle (HandleAdmittedTask ex_quote ex_task) tt []) as [[[] h] [[receipt settlement] r]] eqn:E.
  exists h, (receipt, settlement, r). split; [reflexivity|].
  destruct (provider_signs_earned ex_handle ex_quote ex_task tt tt h receipt settlement r E) as [_ H].
  destruct H as (escrow & outcome & signature & He & _).
  - vm_compute in E. by injection E as _ _ _ <-.
  - exists escrow, outcome. exact He.
Defined.

End Provider.

(** ** The authorized signer *)

Module AuthorizedSigner.
Import Bridge Buyer.

Inductive Effect :=
| EffectNone | EffectLocalRead | EffectLocalWrite | EffectMessage | EffectToolCall | EffectPhysicalIO
| EffectSpend | EffectKeyUse | EffectConfiguration.

Record Origin := {
  or_AgentID : string;
  or_EndpointID : string;
  or_DeviceID : string;
  or_EventID : string;
  or_ConversationID : string;
  or_Kind : string;
  or_ReceivedAtUnix : N
}.

(** [actionauth.Action], whose physical operation is never set here. *)
Record Action := {
  ac_Effect : Effect;
  ac_Summary : string;
  ac_IdempotencyKey : string;
  ac_DerivedFrom : list Origin;
  ac_MandateID : string;
  ac_Terms : option PurchaseTerms
}.

Record Invocation := {
  iv_IdempotencyKey : string;
  iv_Summary : string;
  iv_DerivedFrom : list Origin;
  iv_LineageComplete : bool
}.

Inductive action :=
| Authorize (a : Action)
| InnerFund (quote : AcceptedQuote)
| InnerSign (intentHash : string).

Definition answer (a : action) : Type :=
  match a with
  | Authorize _ | InnerFund _ => result unit
  | InnerSign _ => result string
  end.

(** [invocation] is what the context carries. *)
Definition SignAndFundEscrow (mandateID : string) (invocation : option Invocation) (quote : AcceptedQuote)
    : prog answer (result unit) :=
  if is_empty (TrimSpace mandateID) then Ret (Err ErrIncompletePurchaseAuthority)
  else
    match invocation with
    | None => Ret (Err ErrIncompletePurchaseAuthority)
    | Some invocation =>
        if negb (iv_LineageComplete invocation) then Ret (Err ErrIncompletePurchaseAuthority)
        else
          match PurchaseTermsForProposal (aq_Proposal quote) with
          | Err m => Ret (Err m)
          | Ok terms =>
              attempt _ <- Authorize {| ac_Effect := EffectSpend;
                                        ac_Summary := "fund accepted quote " +:+ aq_QuoteCommitment quote;
                                        ac_IdempotencyKey := ""; ac_DerivedFrom := iv_DerivedFrom invocation;
                                        ac_MandateID := mandateID; ac_Terms := Some terms |};
              call r <- InnerFund quote;
              Ret r
          end
    end.

Definition SignSettlementIntent (invocation : option Invocation) (intentHash : string)
    : prog answer (result string) :=
  match invocation with
  | None => Ret (Err ErrIncompletePurchaseAuthority)
  | Some invocation =>
      if negb (iv_LineageComplete invocation) then Ret (Err ErrIncompletePurchaseAuthority)
      else
        attempt _ <- Authorize {| ac_Effect := EffectKeyUse;
                                  ac_Summary := "sign TOS settlement intent " +:+ intentHash;
                                  ac_IdempotencyKey := ""; ac_DerivedFrom := iv_DerivedFrom invocation;
                                  ac_MandateID := ""; ac_Terms := None |};
        call r <- InnerSign intentHash;
        Ret r
  end.

(** The signer behind the firewall is asked only right after the authorizer
    allowed this very action, of an invocation with complete lineage. *)
Definition call_ok (mandateID : string) (invocation : option Invocation) (h : list (event answer))
    (ev : event answer) : Prop :=
  match ev with
  | Ev (InnerFund quote) _ =>
      exists iv terms, invocation = Some iv /\ iv_LineageComplete iv = true /\
        PurchaseTermsForProposal (aq_Proposal quote) = Ok terms /\
        h = [Ev (Authorize {| ac_Effect := EffectSpend;
                              ac_Summary := "fund accepted quote " +:+ aq_QuoteCommitment quote;
                              ac_IdempotencyKey := ""; ac_DerivedFrom := iv_DerivedFrom iv;
                              ac_MandateID := mandateID; ac_Terms := Some terms |}) (Ok tt)]
  | Ev (InnerSign hash) _ =>
      exists iv, invocation = Some iv /\ iv_LineageComplete iv = true /\
        h = [Ev (Authorize {| ac_Effect := EffectKeyUse; ac_Summary := "sign TOS settlement intent " +:+ hash;
                              ac_IdempotencyKey := ""; ac_DerivedFrom := iv_DerivedFrom iv;
                              ac_MandateID := ""; ac_Terms := None |}) (Ok tt)]
  | Ev (Authorize _) _ => h = []
  end.

Lemma signer_fund_follows mandateID invocation quote :
  always (call_ok mandateID invocation)
    (fun h r => r = Ok tt -> exists h', h = Ev (InnerFund quote) (Ok tt) :: h') []
    (SignAndFundEscrow mandateID invocation quote).
Proof.
  unfold SignAndFundEscrow. destruct (is_empty _); [done|]. destruct invocation as [iv|]; [|done].
  destruct (iv_LineageComplete iv) eqn:E; cbn [negb]; [|done].
  destruct (PurchaseTermsForProposal _) as [terms|] eqn:Et; [|done]. cbn.
  intros r. split; [done|]. destruct r as [[]|]; [|done]. intros r. split; [by exists iv, terms|].
  intros ->. eauto.
Qed.

Lemma signer_sign_follows mandateID invocation hash :
  always (call_ok mandateID invocation)
    (fun h r => forall sig, r = Ok sig -> exists h', h = Ev (InnerSign hash) (Ok sig) :: h') []
    (SignSettlementIntent invocation hash).
Proof.
  unfold SignSettlementIntent. destruct invocation as [iv|]; [|done].
  destruct (iv_LineageComplete iv) eqn:E; cbn [negb]; [|done]. cbn.
  intros r. split; [done|]. destruct r as [[]|]; [|done]. intros r. split; [by exists iv|].
  intros sig ->. eauto.
Qed.

Section signer.
Context {S : Type} (handle : S -> forall a, S * answer a).

(** Custody behind the firewall funds a quote only right after the
    authorizer allowed a spend of exactly that quote's terms under the mandate,
    with the invocation's complete lineage, and success is custody's own. *)
Theorem signer_spends_authorized mandateID invocation quote s s' h r quote' sig :
  run handle (SignAndFundEscrow mandateID invocation quote) s [] = (s', h, r) ->
  Ev (InnerFund quote') sig ∈ h ->
  (exists iv terms h1, invocation = Some iv /\ iv_LineageComplete iv = true /\
     PurchaseTermsForProposal (aq_Proposal quote') = Ok terms /\
     h = h1 ++ [Ev (InnerFund quote') sig;
                Ev (Authorize {| ac_Effect := EffectSpend;
                                 ac_Summary := "fund accepted quote " +:+ aq_QuoteCommitment quote';
                                 ac_IdempotencyKey := ""; ac_DerivedFrom := iv_DerivedFrom iv;
                                 ac_MandateID := mandateID; ac_Terms := Some terms |}) (Ok tt)]) /\
  (r = Ok tt -> exists h', h = Ev (InnerFund quote) (Ok tt) :: h').
Proof.
  intros Hr Hin. destruct (run_always handle _ _ _ _ _ _ _ _ (signer_fund_follows mandateID invocation quote) I Hr) as [Hh Hx].
  split; [|exact Hx]. destruct (history_ok_elem _ _ _ Hh Hin) as (h1 & h2 & -> & Hc).
  destruct Hc as (iv & terms & H1 & H2 & H3 & ->). by exists iv, terms, h1.
Qed.
End signer.

Definition ex_invocation : Invocation :=
  {| iv_IdempotencyKey := ""; iv_Summary := ""; iv_DerivedFrom := []; iv_LineageComplete := true |}.

Definition ex_quote : AcceptedQuote :=
  {| aq_Proposal := bex_proposal; aq_QuoteCommitment := "quote"; aq_EscrowAddress := "escrow";
     aq_EscrowStateInit := ""; aq_FundingQueryID := 1 |}.

Definition allow (_ : unit) (a : action) : unit * answer a :=
  (tt, match a return answer a with Authorize _ => Ok tt | InnerFund _ => Ok tt | InnerSign _ => Ok "signature"%string end).

Lemma signer_spends_authorized_witness :
  exists h r, run allow (SignAndFundEscrow "mandate" (Some ex_invocation) ex_quote) tt [] = (tt, h, r) /\
    Ev (InnerFund ex_quote) (Ok tt) ∈ h /\ exists terms, PurchaseTermsForProposal bex_proposal = Ok terms.
Proof.
  destruct (run allow (SignAndFundEscrow "mandate" (Some ex_invocation) ex_quote) tt []) as [[[] h] r] eqn:E.
  exists h, r. split; [reflexivity|].
  assert (Ev (InnerFund ex_quote) (Ok tt) ∈ h) as Hin.
  { vm_compute in E. injection E as <- _. left. }
  split; [exact Hin|].
  destruct (signer_spends_authorized allow "mandate" (Some ex_invocation) ex_quote tt tt h r ex_quote (Ok tt) E Hin)
    as [(iv & terms & h1 & _ & _ & Ht & _) _].
  exists terms. exact Ht.
Defined.

End AuthorizedSigner.
