(* ===== verification/Coordinator.v ===== *)
(** * The purchase coordinator

    src/pkg/servicebridge/nativeimpl/purchase_coordinator.go: the isolated
    process that owns the purchases the opportunity scheduler mirrors. It keeps
    one record per intent, calls the backend that holds custody, and answers
    [AdvancePurchase], the runner interface of OppService.v and OppWire.v. The
    backend's answers are an argument of each call. *)

From S2P Require Import Prelude GoLib GoText FileStore Ledger Protocol Fixtures Opportunity OppService OppWire.
#[local] Open Scope N_scope.

Module Coordinator.
Import Opportunity OppService.

(** ** Data *)

Record PreparedOpportunityQuote := {
  pq_Candidate : CandidateKey;
  pq_ArtifactDigest : string;
  pq_AssetMaster : string;
  pq_AtomicAmount : string;
  pq_QuoteExpiryUnix : Z
}.

Record PurchaseSettlement := {
  ps_AuthoritativePhase : string;
  ps_FinalizedCheckpoint : N;
  ps_Released : bool;
  ps_Refunded : bool
}.

Record purchaseCoordinatorRecord := {
  cr_IntentID : string;
  cr_Phase : Phase;
  cr_Prepared : option PreparedOpportunityQuote;
  cr_Key : option PurchaseKey;
  cr_AuthoritativePhase : string
}.

Record purchaseCoordinatorDocument := {
  cd_Schema : string;
  cd_Records : list purchaseCoordinatorRecord
}.

Record PurchaseCoordinator := {
  pc_file : file_state purchaseCoordinatorDocument;
  pc_records : gmap string purchaseCoordinatorRecord
}.

(** What a backend call returns; [PolicyRejected] is an error that wraps
    [ErrPurchasePolicyRejected]. *)
Inductive reply (A : Type) :=
| Returned (a : A)
| PolicyRejected
| BackendFailed (e : error).
Arguments Returned {A} a.
Arguments PolicyRejected {A}.
Arguments BackendFailed {A} e.

(** [OpportunityPurchaseBackend], during one call of the coordinator. *)
Record backend := {
  Prepare : string -> VerifiedCandidate -> reply PreparedOpportunityQuote;
  AuthorizeQuote : string -> PreparedOpportunityQuote -> reply unit;
  Reference : string -> PreparedOpportunityQuote -> reply (PurchaseKey * string);
  Reconcile : string -> PreparedOpportunityQuote -> PurchaseKey -> reply PurchaseSettlement
}.

Definition purchaseCoordinatorSchema : string := "tos.openfox.purchase-coordinator-journal.v1".
Definition maxCoordinatorBytes : N := 16777216.

Section coordinator.
Context `{TA : TosAddress}.

(** ** Validation *)

Definition isRawWorkchainZero (value : string) : bool :=
  match ParseRawAddr value with
  | Some parsed => (ra_workchain parsed =? 0)%Z && bool_decide (ra_string parsed = value)
  | None => false
  end.

(** [hexDigest]: the prefix, then 64 lower-case hexadecimal digits. *)
Definition hexDigest (value prefix : string) : bool := hex64_pattern prefix value.

Definition validPositiveDecimal (value : string) : bool :=
  match value with
  | EmptyString => false
  | String c _ =>
      if (78 <? slen value) || (byte_of c =? 48) then false else all_bytes is_digit value
  end.

Definition validPreparedQuote (value : PreparedOpportunityQuote) : bool :=
  HasPrefix (ck_CapabilityID (pq_Candidate value)) "cap_" && hexDigest (pq_ArtifactDigest value) "sha256:"
  && isRawWorkchainZero (pq_AssetMaster value) && validPositiveDecimal (pq_AtomicAmount value)
  && (0 <? pq_QuoteExpiryUnix value)%Z.

Definition validNativePurchaseKey (key : PurchaseKey) : bool :=
  hexDigest (pk_QuoteCommitment key) "tvm-cell-sha256:" && isRawWorkchainZero (pk_EscrowAddress key).

Definition validPurchaseCoordinatorRecord (record : purchaseCoordinatorRecord) : bool :=
  if bool_decide (cr_IntentID record = ""%string)
     || match cr_Prepared record with Some p => negb (validPreparedQuote p) | None => true end
  then false
  else
    match cr_Phase record with
    | PhaseQuoteVerified | PhasePolicyAuthorized =>
        is_none (cr_Key record) && bool_decide (cr_AuthoritativePhase record = ""%string)
    | PhasePurchaseReferenced | PhasePurchaseResolved =>
        match cr_Key record with
        | Some key => validNativePurchaseKey key && negb (bool_decide (cr_AuthoritativePhase record = ""%string))
        | None => false
        end
    | _ => false
    end.

Definition samePurchaseKey (left right : option PurchaseKey) : bool :=
  match left, right with
  | Some l, Some r => bool_decide (l = r)
  | None, None => true
  | _, _ => false
  end.

(** ** The journal *)

Definition to_document (records : gmap string purchaseCoordinatorRecord) : purchaseCoordinatorDocument :=
  {| cd_Schema := purchaseCoordinatorSchema; cd_Records := sort_by cr_IntentID (map_vals records) |}.

Definition persist (e : io purchaseCoordinatorDocument) (records : gmap string purchaseCoordinatorRecord)
    (file : file_state purchaseCoordinatorDocument) : file_state purchaseCoordinatorDocument * result unit :=
  persist_bounded e maxCoordinatorBytes "nativeimpl: encode purchase coordinator journal" (to_document records) file.

Definition persistRecord (e : io purchaseCoordinatorDocument) (c : PurchaseCoordinator)
    (record : purchaseCoordinatorRecord) : PurchaseCoordinator * result unit :=
  let updated := <[cr_IntentID record := record]> (pc_records c) in
  let '(file', r) := persist e updated (pc_file c) in
  match r with
  | Err m => ({| pc_file := file'; pc_records := pc_records c |}, Err m)
  | Ok _ => ({| pc_file := file'; pc_records := updated |}, Ok tt)
  end.

(** An invalid record and a repeated one are the same error; a file that is not
    an owner-only regular file within its bound is [FileUnreadable]. *)
Definition load (e : io purchaseCoordinatorDocument) (file : file_state purchaseCoordinatorDocument)
    : file_state purchaseCoordinatorDocument * result (gmap string purchaseCoordinatorRecord) :=
  match file with
  | FileAbsent =>
      let '(file', r) := persist e ∅ file in
      (file', let? _ := r in Ok ∅)
  | FileUnreadable => (file, Err "nativeimpl: invalid purchase coordinator journal file")
  | FileUndecodable => (file, Err "nativeimpl: invalid purchase coordinator journal")
  | FileDoc d =>
      if negb (bool_decide (cd_Schema d = purchaseCoordinatorSchema))
      then (file, Err "nativeimpl: invalid purchase coordinator journal")
      else (file, load_list validPurchaseCoordinatorRecord cr_IntentID
                    "nativeimpl: invalid or duplicate purchase coordinator record"
                    "nativeimpl: invalid or duplicate purchase coordinator record" ∅ (cd_Records d))
  end.

(** [ownerDirectory] *)
Definition ownerDirectory (d : dir_env) : bool :=
  de_abs_clean d && de_lstat d && de_is_dir d && negb (de_symlink d) && (de_perm d =? 448).

Definition OpenPurchaseCoordinator (d : dir_env) (e : io purchaseCoordinatorDocument)
    (file : file_state purchaseCoordinatorDocument)
    : file_state purchaseCoordinatorDocument * result PurchaseCoordinator :=
  if negb (ownerDirectory d)
  then (file, Err "nativeimpl: purchase coordinator needs an owner-private state directory and backend")
  else
    let '(file', r) := load e file in
    (file', let? records := r in Ok {| pc_file := file'; pc_records := records |}).

(** ** [AdvancePurchase] *)

Definition classifyPreFunding {A B} (r : reply A) (k : A -> B) (fail : error -> B) : B :=
  match r with
  | Returned a => k a
  | PolicyRejected => fail (PurchaseRejection "Quote or exact signed owner policy rejected the purchase")
  | BackendFailed e => fail e
  end.

Definition zero_settlement : PurchaseSettlement :=
  {| ps_AuthoritativePhase := ""; ps_FinalizedCheckpoint := 0; ps_Released := false; ps_Refunded := false |}.

Definition progressForRecord (record : purchaseCoordinatorRecord) (prepared : PreparedOpportunityQuote)
    (settlement : PurchaseSettlement) : PurchaseProgress :=
  {| pp_IntentID := cr_IntentID record; pp_CandidateKey := pq_Candidate prepared; pp_Phase := cr_Phase record;
     pp_Key := cr_Key record; pp_AuthoritativePhase := cr_AuthoritativePhase record;
     pp_AssetMaster := pq_AssetMaster prepared; pp_AtomicAmount := pq_AtomicAmount prepared;
     pp_QuoteExpiryUnix := pq_QuoteExpiryUnix prepared; pp_FinalizedCheckpoint := ps_FinalizedCheckpoint settlement;
     pp_Released := ps_Released settlement; pp_Refunded := ps_Refunded settlement |}.

(** The end of every phase: persist the record, project it. *)
Definition store (e : io purchaseCoordinatorDocument) (c : PurchaseCoordinator) (record : purchaseCoordinatorRecord)
    (prepared : PreparedOpportunityQuote) (settlement : PurchaseSettlement)
    : PurchaseCoordinator * answer PurchaseProgress :=
  let '(c', r) := persistRecord e c record in
  match r with
  | Err m => (c', Fail (ErrorString m))
  | Ok _ => (c', Ret (progressForRecord record prepared settlement))
  end.

Definition conflict : error := ErrorString "nativeimpl: purchase resume identity conflicts with durable state".
Definition nil_pointer : error := ErrorString "nil pointer dereference".

(** The durable record is the one the request resumes. *)
Definition resumes (request : PurchaseRequest) (record : purchaseCoordinatorRecord) : bool :=
  bool_decide (cr_IntentID record = pr_IntentID request) && bool_decide (cr_Phase record = pr_Current request)
  && match cr_Prepared record with
     | Some p => bool_decide (pq_Candidate p = vf_Key (pr_Candidate request))
     | None => false
     end
  && samePurchaseKey (cr_Key record) (pr_Key request).

(** The first step of a purchase. *)
Definition prepare_step (b : backend) (e : io purchaseCoordinatorDocument) (c : PurchaseCoordinator)
    (request : PurchaseRequest) : PurchaseCoordinator * answer PurchaseProgress :=
  classifyPreFunding (Prepare b (pr_IntentID request) (pr_Candidate request))
    (fun prepared =>
       if negb (validPreparedQuote prepared)
          || negb (bool_decide (pq_Candidate prepared = vf_Key (pr_Candidate request)))
       then (c, Fail (ErrorString "nativeimpl: purchase backend returned an invalid Quote projection"))
       else store e c {| cr_IntentID := pr_IntentID request; cr_Phase := PhaseQuoteVerified;
                         cr_Prepared := Some prepared; cr_Key := None; cr_AuthoritativePhase := "" |}
              prepared zero_settlement)
    (fun err => (c, Fail err)).

(** The later steps, on a durable record. *)
Definition resume_step (b : backend) (e : io purchaseCoordinatorDocument) (c : PurchaseCoordinator)
    (request : PurchaseRequest) (record : purchaseCoordinatorRecord) (prepared : PreparedOpportunityQuote)
    : PurchaseCoordinator * answer PurchaseProgress :=
  match pr_Current request with
  | PhaseQuoteVerified =>
      classifyPreFunding (AuthorizeQuote b (pr_IntentID request) prepared)
        (fun _ => store e c {| cr_IntentID := cr_IntentID record; cr_Phase := PhasePolicyAuthorized;
                               cr_Prepared := Some prepared; cr_Key := cr_Key record;
                               cr_AuthoritativePhase := cr_AuthoritativePhase record |} prepared zero_settlement)
        (fun err => (c, Fail err))
  | PhasePolicyAuthorized =>
      classifyPreFunding (Reference b (pr_IntentID request) prepared)
        (fun '(key, phase) =>
           if negb (validNativePurchaseKey key) || bool_decide (phase = ""%string)
           then (c, Fail (ErrorString "nativeimpl: purchase backend returned an invalid payment identity"))
           else store e c {| cr_IntentID := cr_IntentID record; cr_Phase := PhasePurchaseReferenced;
                             cr_Prepared := Some prepared; cr_Key := Some key; cr_AuthoritativePhase := phase |}
                  prepared zero_settlement)
        (fun err => (c, Fail err))
  | PhasePurchaseReferenced =>
      match cr_Key record with
      | None => (c, Fail nil_pointer)
      | Some key =>
          match Reconcile b (pr_IntentID request) prepared key with
          | PolicyRejected => (c, Fail (ErrorString "nativeimpl: purchase rejected before custody"))
          | BackendFailed err => (c, Fail err)
          | Returned settlement =>
              if bool_decide (ps_AuthoritativePhase settlement = ""%string)
              then (c, Fail (ErrorString "nativeimpl: purchase backend returned no authoritative phase"))
              else if ps_Released settlement || ps_Refunded settlement then
                if Bool.eqb (ps_Released settlement) (ps_Refunded settlement)
                   || (ps_FinalizedCheckpoint settlement =? 0)
                   || negb (bool_decide (ps_AuthoritativePhase settlement = "resolved"%string))
                then (c, Fail (ErrorString "nativeimpl: purchase backend returned invalid terminal settlement"))
                else store e c {| cr_IntentID := cr_IntentID record; cr_Phase := PhasePurchaseResolved;
                                  cr_Prepared := Some prepared; cr_Key := Some key;
                                  cr_AuthoritativePhase := ps_AuthoritativePhase settlement |} prepared settlement
              else store e c {| cr_IntentID := cr_IntentID record; cr_Phase := cr_Phase record;
                                cr_Prepared := Some prepared; cr_Key := Some key;
                                cr_AuthoritativePhase := ps_AuthoritativePhase settlement |} prepared settlement
          end
      end
  | _ => (c, Fail (ErrorString "nativeimpl: purchase phase cannot advance"))
  end.

Definition AdvancePurchase (b : backend) (e : io purchaseCoordinatorDocument) (c : PurchaseCoordinator)
    (request : PurchaseRequest) : PurchaseCoordinator * answer PurchaseProgress :=
  match pc_records c !! pr_IntentID request with
  | Some record =>
      if negb (resumes request record) then (c, Fail conflict)
      else if bool_decide (pr_Current request = PhaseQuoteRequested) then prepare_step b e c request
      else
        match cr_Prepared record with
        | Some prepared => resume_step b e c request record prepared
        | None => (c, Fail nil_pointer)
        end
  | None =>
      if negb (bool_decide (pr_Current request = PhaseQuoteRequested))
      then (c, Fail (ErrorString "nativeimpl: purchase intent has no durable Quote request"))
      else prepare_step b e c request
  end.

(** ** The invariant and the history of the records *)

Abbreviation records_wf := (map_wf validPurchaseCoordinatorRecord cr_IntentID).

(** A record and a later version of it: the quote and the payment identity are
    fixed, a resolved purchase is frozen. *)
Record stage_le (r r' : purchaseCoordinatorRecord) : Prop := {
  st_intent : cr_IntentID r' = cr_IntentID r;
  st_prepared : cr_Prepared r' = cr_Prepared r;
  st_key : opt_le (cr_Key r) (cr_Key r');
  st_rank : (rank (cr_Phase r) <= rank (cr_Phase r'))%nat;
  st_resolved : cr_Phase r = PhasePurchaseResolved -> r' = r
}.

#[global] Instance stage_le_preorder : PreOrder stage_le.
Proof.
  split; [intros r; split; done|]. intros r1 r2 r3 [? ? Hk ? Hf] [? ? Hk' ? Hf']. split; try congruence; try lia.
  - intros k Hx. auto.
  - intros H. rewrite (Hf H) in *. auto.
Qed.

(** The file holds the memory, or one change more. *)
Definition coordinator_ok (c : PurchaseCoordinator) : Prop :=
  records_wf (pc_records c) /\
  exists d m, pc_file c = FileDoc d /\ (forall e, load e (pc_file c) = (pc_file c, Ok m)) /\ records_wf m /\
    map_le stage_le (pc_records c) m.

Lemma load_coordinator_document m e :
  records_wf m -> load e (FileDoc (to_document m)) = (FileDoc (to_document m), Ok m).
Proof.
  intros Hm. unfold load. rewrite bool_decide_eq_true_2 by done. cbn [negb]. do 2 f_equal.
  apply load_list_vals; [done|]. apply sort_by_Permutation.
Qed.

Lemma persistRecord_ok e c record c' r :
  coordinator_ok c -> validPurchaseCoordinatorRecord record = true ->
  (forall r0, pc_records c !! cr_IntentID record = Some r0 -> stage_le r0 record) ->
  persistRecord e c record = (c', r) ->
  coordinator_ok c' /\ map_le stage_le (pc_records c) (pc_records c') /\
  (r = Ok tt -> pc_records c' = <[cr_IntentID record := record]> (pc_records c)).
Proof.
  intros (Hm & d & m & Hf & Hl & Hwf & Hle) Hv Hst. unfold persistRecord.
  set (next := <[cr_IntentID record := record]> (pc_records c)).
  assert (records_wf next) as Hn by by apply map_Forall_insert_2.
  assert (map_le stage_le (pc_records c) next) as Hle' by (apply map_le_insert; [apply _|done]).
  destruct (persist e next (pc_file c)) as [file' w] eqn:E.
  apply persist_bounded_cases in E as [Hfile Hok].
  destruct w as [[]|msg]; intros [= <- <-]; cbn [pc_records pc_file].
  - rewrite (Hok eq_refl). split_and!; [|done|done]. split; [done|]. exists (to_document next), next.
    split_and!; [done|intros; by apply load_coordinator_document|done|reflexivity].
  - split_and!; [|reflexivity|done]. split; [done|]. cbn [pc_records pc_file]. destruct Hfile as [->| ->].
    + by exists d, m.
    + exists (to_document next), next. split_and!; [done|intros; by apply load_coordinator_document|done|done].
Qed.

Lemma OpenPurchaseCoordinator_ok d e file file' c :
  OpenPurchaseCoordinator d e file = (file', Ok c) ->
  pc_file c = file' /\ coordinator_ok c /\ (forall e', load e' file' = (file', Ok (pc_records c))).
Proof.
  unfold OpenPurchaseCoordinator. destruct (negb _); [done|].
  destruct (load e file) as [file1 [m|]] eqn:E; [|done]. intros [= <- <-]. cbn [pc_file pc_records].
  assert (records_wf m /\ exists d', file1 = FileDoc d' /\ forall e', load e' file1 = (file1, Ok m)) as (Hwf & d' & -> & Hl).
  { unfold load in E. destruct file as [| | |d'].
    - destruct (persist e ∅ FileAbsent) as [file2 w] eqn:Ep. apply persist_bounded_cases in Ep as [_ Hok].
      destruct w as [[]|]; [|done]. injection E as <- <-.
      assert (records_wf ∅) as He by apply map_Forall_empty. rewrite (Hok eq_refl).
      split; [done|]. eexists. split; [done|]. intros e'. by apply load_coordinator_document.
    - done.
    - done.
    - destruct (bool_decide _) eqn:Es; cbn [negb] in E; [|done]. injection E as <- El. split.
      + eapply load_list_wf; [|exact El]. apply map_Forall_empty.
      + exists d'. split; [done|]. intros e'. unfold load. rewrite Es. cbn [negb]. by rewrite El. }
  split_and!; [done| |done]. split; [done|]. exists d', m. split_and!; [done|done|done|reflexivity].
Qed.

(** What a successful step stored, and that it may be stored. *)
Record advances (b : backend) (request : PurchaseRequest) (c : PurchaseCoordinator)
    (record : purchaseCoordinatorRecord) (prepared : PreparedOpportunityQuote) (settlement : PurchaseSettlement)
    : Prop := {
  ad_intent : cr_IntentID record = pr_IntentID request;
  ad_valid : validPurchaseCoordinatorRecord record = true;
  ad_stage : forall r0, pc_records c !! pr_IntentID request = Some r0 -> stage_le r0 record;
  ad_prepared : cr_Prepared record = Some prepared;
  ad_candidate : pq_Candidate prepared = vf_Key (pr_Candidate request);
  ad_transition : validPurchaseTransition (pr_Current request) (cr_Phase record) = true;
  ad_key : forall key, pr_Key request = Some key -> cr_Key record = Some key;
  ad_settlement : (settlement = zero_settlement /\ cr_Phase record <> PhasePurchaseResolved) \/
    (cr_AuthoritativePhase record = ps_AuthoritativePhase settlement /\
     ps_AuthoritativePhase settlement <> ""%string /\
     if bool_decide (cr_Phase record = PhasePurchaseResolved)
     then ps_Released settlement <> ps_Refunded settlement /\ ps_FinalizedCheckpoint settlement <> 0 /\
          ps_AuthoritativePhase settlement = "resolved"%string
     else ps_Released settlement = false /\ ps_Refunded settlement = false);
  ad_phase : cr_AuthoritativePhase record = ""%string \/
    (exists prepared key, Reference b (pr_IntentID request) prepared = Returned (key, cr_AuthoritativePhase record)) \/
    (exists prepared key settlement, Reconcile b (pr_IntentID request) prepared key = Returned settlement /\
       cr_AuthoritativePhase record = ps_AuthoritativePhase settlement)
}.

Definition outcome (b : backend) (e : io purchaseCoordinatorDocument) (c : PurchaseCoordinator)
    (request : PurchaseRequest) (x : PurchaseCoordinator * answer PurchaseProgress) : Prop :=
  (exists err, x = (c, Fail err)) \/
  exists record prepared settlement, advances b request c record prepared settlement /\
    x = store e c record prepared settlement.

Lemma refused b e c request err : outcome b e c request (c, Fail err).
Proof. left. eauto. Qed.

Lemma validatePurchaseRequest_intent request :
  validatePurchaseRequest request = true -> pr_IntentID request <> ""%string.
Proof.
  unfold validatePurchaseRequest. destruct (_ || _) eqn:E; [done|]. intros _. bprop.
  by apply regexpIntent_nonempty.
Qed.

Lemma prepare_step_outcome b e c request :
  validatePurchaseRequest request = true -> pr_Current request = PhaseQuoteRequested ->
  pc_records c !! pr_IntentID request = None -> outcome b e c request (prepare_step b e c request).
Proof.
  intros Hv Hc Hn. unfold prepare_step, classifyPreFunding.
  destruct (Prepare b _ _) as [prepared| |err]; [|apply refused..].
  destruct (_ || _) eqn:Eb; [apply refused|]. bprop. right. eexists _, _, _. split; [|reflexivity].
  pose proof (validatePurchaseRequest_intent _ Hv) as Hne.
  split; cbn; try done; auto.
  - unfold validPurchaseCoordinatorRecord. cbn. rewrite bool_decide_eq_false_2 by done.
    match goal with H : validPreparedQuote _ = true |- _ => by rewrite H end.
  - intros r0. by rewrite Hn.
  - by rewrite Hc.
  - intros key Hk. unfold validatePurchaseRequest in Hv. rewrite Hc, Hk in Hv. by destruct (_ || _).
Qed.

Lemma validRecord_prepared record :
  validPurchaseCoordinatorRecord record = true ->
  cr_IntentID record <> ""%string /\ exists prepared, cr_Prepared record = Some prepared /\ validPreparedQuote prepared = true.
Proof.
  unfold validPurchaseCoordinatorRecord. destruct (_ || _) eqn:E; [done|]. intros _. bprop.
  split; [done|]. destruct (cr_Prepared record) as [p|]; [|done]. bprop. eauto.
Qed.

(** A record with the same quote at another phase is valid when its fields fit
    the phase. *)
Lemma validRecord_intro intent phase prepared key authoritative :
  intent <> ""%string -> validPreparedQuote prepared = true ->
  match phase with
  | PhaseQuoteVerified | PhasePolicyAuthorized => key = None /\ authoritative = ""%string
  | PhasePurchaseReferenced | PhasePurchaseResolved =>
      authoritative <> ""%string /\ exists k, key = Some k /\ validNativePurchaseKey k = true
  | _ => False
  end ->
  validPurchaseCoordinatorRecord {| cr_IntentID := intent; cr_Phase := phase; cr_Prepared := Some prepared;
    cr_Key := key; cr_AuthoritativePhase := authoritative |} = true.
Proof.
  intros Hi Hp Hk. unfold validPurchaseCoordinatorRecord. cbn. rewrite bool_decide_eq_false_2, Hp by done. cbn.
  destruct phase; try done;
    (destruct Hk as [-> ->] || (destruct Hk as (Ha & k & -> & ->); by rewrite bool_decide_eq_false_2)); done.
Qed.

(** The record of the request moves on with the same quote. *)
Lemma stage_next c i record phase prepared key authoritative :
  pc_records c !! i = Some record -> cr_Prepared record = Some prepared -> opt_le (cr_Key record) key ->
  (rank (cr_Phase record) <= rank phase)%nat -> cr_Phase record <> PhasePurchaseResolved ->
  forall r0, pc_records c !! i = Some r0 ->
    stage_le r0 {| cr_IntentID := cr_IntentID record; cr_Phase := phase; cr_Prepared := Some prepared;
                   cr_Key := key; cr_AuthoritativePhase := authoritative |}.
Proof. intros Hr Hp Hk Hrank Hne r0 Hr0. rewrite Hr in Hr0. injection Hr0 as <-. by split. Qed.

Lemma resume_step_outcome b e c request record prepared :
  validatePurchaseRequest request = true -> pc_records c !! pr_IntentID request = Some record ->
  validPurchaseCoordinatorRecord record = true -> resumes request record = true ->
  cr_Prepared record = Some prepared -> outcome b e c request (resume_step b e c request record prepared).
Proof.
  intros Hreq Hr Hv Hs Hp. unfold resumes in Hs. rewrite Hp in Hs. bprop.
  destruct (validRecord_prepared _ Hv) as (Hne & p' & Hp' & Hvp). rewrite Hp in Hp'. injection Hp' as <-.
  assert (cr_Key record = pr_Key request) as Hkey
    by (destruct (cr_Key record), (pr_Key request); cbn in *; bprop; congruence).
  assert (cr_Phase record = pr_Current request) as Hphase by done.
  unfold validPurchaseCoordinatorRecord in Hv. destruct (_ || _) in Hv; [done|].
  unfold resume_step. destruct (pr_Current request) eqn:Ec; try apply refused; rewrite Hphase in Hv; bprop.
  - unfold classifyPreFunding. destruct (AuthorizeQuote b _ _) as [[]| |err]; [|apply refused..].
    right. eexists _, _, _. split; [|reflexivity]. destruct (cr_Key record) as [k|] eqn:Ek; [done|].
    split; cbn; try done; auto.
    + by apply validRecord_intro.
    + eapply stage_next; rewrite ?Hphase, ?Ek; done || (cbn; lia).
    + by rewrite Ec.
    + by rewrite <-Hkey.
  - unfold classifyPreFunding. destruct (Reference b _ _) as [[key phase]| |err] eqn:Er; [|apply refused..].
    destruct (_ || _) eqn:Eb; [apply refused|]. bprop.
    right. eexists _, _, _. split; [|reflexivity]. destruct (cr_Key record) as [k|] eqn:Ek; [done|].
    split; cbn; try done; auto.
    + apply validRecord_intro; eauto.
    + eapply stage_next; rewrite ?Hphase, ?Ek; done || (cbn; lia).
    + by rewrite Ec.
    + by rewrite <-Hkey.
    + right. left. by exists prepared, key.
  - destruct (cr_Key record) as [key|] eqn:Ek; [|done]. bprop.
    destruct (Reconcile b _ _ _) as [settlement| |err] eqn:Er; [|apply refused..].
    destruct (bool_decide (ps_AuthoritativePhase settlement = _)) eqn:Ea; [apply refused|]. bprop.
    destruct (ps_Released settlement || ps_Refunded settlement) eqn:Et.
    + destruct (_ || negb (bool_decide (_ = "resolved"%string))) eqn:Eb; [apply refused|]. bprop.
      right. eexists _, _, _. split; [|reflexivity]. split; cbn; try done; auto.
      * apply validRecord_intro; eauto.
      * eapply stage_next; rewrite ?Hphase, ?Ek; done || (cbn; lia).
      * by rewrite Ec.
      * by rewrite <-Hkey.
      * right. split; [done|]. split; [done|]. rewrite bool_decide_eq_true_2 by done.
        split_and!; try done. by apply eqb_false_iff.
      * right. right. by exists prepared, key, settlement.
    + bprop. right. eexists _, _, _. split; [|reflexivity]. rewrite Hphase. split; cbn; try done; auto.
      * apply validRecord_intro; eauto.
      * eapply stage_next; rewrite ?Hphase, ?Ek; done || (cbn; lia).
      * by rewrite Ec.
      * by rewrite <-Hkey.
      * right. split; [done|]. split; [done|]. by rewrite bool_decide_eq_false_2.
      * right. right. by exists prepared, key, settlement.
Qed.

(** No record waits for its quote: that phase is only the scheduler's. *)
Lemma resumes_quote_requested request record :
  validPurchaseCoordinatorRecord record = true -> resumes request record = true ->
  pr_Current request <> PhaseQuoteRequested.
Proof.
  intros Hv Hs E. unfold resumes in Hs. rewrite E in Hs. bprop.
  unfold validPurchaseCoordinatorRecord in Hv.
  match goal with H : cr_Phase record = _ |- _ => rewrite H in Hv end. by destruct (_ || _).
Qed.

Lemma AdvancePurchase_outcome b e c request :
  coordinator_ok c -> validatePurchaseRequest request = true ->
  outcome b e c request (AdvancePurchase b e c request).
Proof.
  intros [Hm _] Hreq. unfold AdvancePurchase.
  destruct (pc_records c !! pr_IntentID request) as [record|] eqn:Hr.
  - destruct (resumes request record) eqn:Hs; cbn [negb]; [|apply refused].
    destruct (Hm _ _ Hr) as [_ Hv].
    rewrite bool_decide_eq_false_2 by (by eapply resumes_quote_requested).
    destruct (cr_Prepared record) as [prepared|] eqn:Hp; [|apply refused]. by apply resume_step_outcome.
  - destruct (bool_decide _) eqn:Ec; cbn [negb]; [|apply refused]. bprop. by apply prepare_step_outcome.
Qed.

Lemma step_outcome_ok b e c request c' r :
  coordinator_ok c -> outcome b e c request (c', r) ->
  coordinator_ok c' /\ map_le stage_le (pc_records c) (pc_records c').
Proof.
  intros Hc [(err & [= -> ->])|(record & prepared & settlement & Ha & E)]; [split; [done|reflexivity]|].
  unfold store in E. destruct (persistRecord e c record) as [c1 w] eqn:Ep. destruct Ha.
  destruct (persistRecord_ok _ _ _ _ _ Hc ad_valid0 ltac:(by rewrite ad_intent0) Ep) as (H1 & H2 & _).
  by destruct w; injection E as <- _.
Qed.

(** ** Runs of the coordinator *)

Inductive coordinator_step (c : PurchaseCoordinator) : PurchaseCoordinator -> Prop :=
| coordinator_call b e request c' r :
    validatePurchaseRequest request = true -> AdvancePurchase b e c request = (c', r) -> coordinator_step c c'
| coordinator_reopen d e c' :
    OpenPurchaseCoordinator d e (pc_file c) = (pc_file c', Ok c') -> coordinator_step c c'.

Lemma coordinator_step_ok c c' :
  coordinator_ok c -> coordinator_step c c' -> coordinator_ok c' /\ map_le stage_le (pc_records c) (pc_records c').
Proof.
  intros Hc [b e request c1 r Hreq E|d e c1 E].
  - eapply step_outcome_ok; [done|]. rewrite <-E. by apply AdvancePurchase_outcome.
  - destruct (OpenPurchaseCoordinator_ok _ _ _ _ _ E) as (_ & Hok & Hl). split; [done|].
    destruct Hc as (_ & d' & m & Hf & Hlm & _ & Hle).
    unfold OpenPurchaseCoordinator in E. destruct (negb _); [done|]. rewrite Hlm in E. injection E as _ <-. done.
Qed.

(** Whatever the backend answers and whichever writes fail, across
    restarts: every record of the coordinator is valid, none is lost, its quote
    and its payment identity never change, its phase never goes back and a
    resolved purchase is frozen. *)
Theorem coordinator_history d e file file' c c' :
  OpenPurchaseCoordinator d e file = (file', Ok c) -> rtc coordinator_step c c' ->
  map_Forall (fun intent r => cr_IntentID r = intent /\ validPurchaseCoordinatorRecord r = true) (pc_records c') /\
  map_le stage_le (pc_records c) (pc_records c').
Proof.
  intros Ho Hr. destruct (OpenPurchaseCoordinator_ok _ _ _ _ _ Ho) as (_ & Hc & _).
  assert (coordinator_ok c' /\ map_le stage_le (pc_records c) (pc_records c')) as [[Hwf _] Hle]; [|done].
  clear Ho. induction Hr as [c|c1 c2 c3 Hs _ IH]; [split; [done|reflexivity]|].
  destruct (coordinator_step_ok _ _ Hc Hs) as [H2 Hle]. destruct (IH H2) as [H3 Hle']. split; [done|].
  by etransitivity.
Qed.

(** What the coordinator stores is what the next process finds. *)
Lemma store_published e c record prepared settlement c' progress :
  store e c record prepared settlement = (c', Ret progress) ->
  progress = progressForRecord record prepared settlement /\
  pc_records c' = <[cr_IntentID record := record]> (pc_records c).
Proof.
  unfold store, persistRecord. destruct (persist _ _ _) as [f [[]|]]; [|done]. by intros [= <- <-].
Qed.

(** A step that succeeded cannot be repeated: the coordinator stores the
    next phase before it answers, and refuses a request for the phase before as
    a conflict. A reply that is lost on its way leaves the two journals a phase
    apart for good: each later attempt of the scheduler fails, and changes
    neither journal. *)
Theorem coordinator_lost_reply b e c request c' progress :
  coordinator_ok c -> validatePurchaseRequest request = true ->
  AdvancePurchase b e c request = (c', Ret progress) -> pp_Phase progress <> pr_Current request ->
  (forall b' e', AdvancePurchase b' e' c' request = (c', Fail conflict)) /\
  forall (ENV : Environment) s record now w,
    (forall log, env_advance log request = snd (AdvancePurchase b e c' request)) ->
    sv_purchases s = true -> eligible record = true -> rc_Verified record = Some (pr_Candidate request) ->
    rc_IntentID record = pr_IntentID request -> rc_Phase record = pr_Current request ->
    purchase_key record = pr_Key request ->
    advancePurchase s record now w = (logged w (EvAdvance request), Fail conflict).
Proof.
  intros Hc Hreq E Hne.
  assert (forall b' e', AdvancePurchase b' e' c' request = (c', Fail conflict)) as Hstuck.
  { intros b' e'. pose proof (AdvancePurchase_outcome b e c request Hc Hreq) as Ho. rewrite E in Ho.
    destruct Ho as [(err & [=])|(record & prepared & settlement & Ha & Es)]. symmetry in Es.
    apply store_published in Es as [-> Hr]. unfold AdvancePurchase.
    rewrite Hr, <-(ad_intent _ _ _ _ _ _ Ha), lookup_insert_eq.
    destruct (resumes request record) eqn:Hs; [|done]. unfold resumes in Hs. bprop. done. }
  split; [done|]. intros ENV s record now w Henv Hp He Hv Hi Hph Hk.
  unfold advancePurchase. rewrite Hp, Hv, He. cbn [negb orb is_none].
  unfold validatePurchaseRequest in Hreq. destruct (_ || _) in Hreq; [done|].
  rewrite bool_decide_eq_false_2 by (rewrite Hph; by destruct (pr_Current request)).
  cbn [advance_loop]. rewrite bool_decide_eq_false_2 by (rewrite Hph; by destruct (pr_Current request)).
  rewrite Hv. cbn beta iota.
  replace {| pr_IntentID := rc_IntentID record; pr_Current := rc_Phase record; pr_Candidate := pr_Candidate request;
             pr_Key := purchase_key record |} with request
    by (destruct request; cbn in *; congruence).
  rewrite Henv, Hstuck. done.
Qed.

(** ** What the scheduler's side accepts *)

(** The raw form of a basechain address is its workchain and 64 hex digits. *)
Class RawAddressForm : Prop :=
  raw_form s p : ParseRawAddr s = Some p -> ra_workchain p = 0%Z -> hex64_pattern "0:" (ra_string p) = true.

(** The backend names its phases with tokens. *)
Definition names_phases (b : backend) (intent : string) : Prop :=
  (forall prepared key phase, Reference b intent prepared = Returned (key, phase) -> boundedToken phase 64 = true) /\
  (forall prepared key settlement, Reconcile b intent prepared key = Returned settlement ->
     boundedToken (ps_AuthoritativePhase settlement) 64 = true).

Lemma boundedToken_intro value max :
  all_bytes token_byte value = true -> value <> ""%string -> slen value <= max -> boundedToken value max = true.
Proof.
  intros Hb Hne Hl. unfold boundedToken. rewrite bool_decide_eq_false_2, (proj2 (N.ltb_ge _ _) Hl) by done.
  rewrite (TrimSpace_bytes token_byte) by (done || by vm_compute). by rewrite bool_decide_eq_true_2.
Qed.

Context {RAF : RawAddressForm}.

Lemma isRawWorkchainZero_token value : isRawWorkchainZero value = true -> boundedToken value 96 = true.
Proof.
  unfold isRawWorkchainZero. destruct (ParseRawAddr value) as [p|] eqn:E; [|done]. intros H. zprop.
  assert (hex64_pattern "0:" value = true) as Hh by (subst value; by eapply raw_form).
  assert (slen value = 66) as Hl by (unfold hex64_pattern in Hh; by bprop).
  apply boundedToken_intro; [|by intros ->|lia].
  eapply hex64_pattern_bytes; [..|exact Hh]; [done|]. intros c Hc.
  assert (c < 256) as Hr by (unfold is_lower_hex, is_digit in Hc; bprop; destruct Hc; bprop; lia).
  pose proof (below_forall 256 (fun c => implb (is_lower_hex c) (token_byte c)) eq_refl c Hr) as Hi.
  cbn beta in Hi. by rewrite Hc in Hi.
Qed.

Lemma validPreparedQuote_terms record prepared settlement :
  validPreparedQuote prepared = true -> terms_ok (progressForRecord record prepared settlement) = true.
Proof.
  unfold validPreparedQuote, terms_ok. cbn. intros H. bprop.
  rewrite isRawWorkchainZero_token by done.
  change (positiveDecimal (pq_AtomicAmount prepared)) with (validPositiveDecimal (pq_AtomicAmount prepared)).
  repeat match goal with H : ?x = true |- context [?x] => rewrite H end. done.
Qed.

Lemma validNativePurchaseKey_accepted key : validNativePurchaseKey key = true -> validatePurchaseKey key = true.
Proof.
  unfold validNativePurchaseKey, validatePurchaseKey, digestPattern, hexDigest. intros H. bprop.
  rewrite isRawWorkchainZero_token by done.
  match goal with H : hex64_pattern _ _ = true |- _ => rewrite H; unfold hex64_pattern in H; bprop end.
  match goal with H : HasPrefix _ _ = true |- _ => rewrite H end. by rewrite orb_true_r.
Qed.

(** The projection of what was stored is valid for its phase. *)
Lemma advances_progress b request c record prepared settlement :
  validatePurchaseRequest request = true -> names_phases b (pr_IntentID request) ->
  advances b request c record prepared settlement ->
  validatePurchaseProgress (progressForRecord record prepared settlement) = true.
Proof.
  intros Hreq [Hb1 Hb2] [Hi Hv _ Hp Hcand _ _ Hs Hph].
  destruct (validRecord_prepared _ Hv) as (Hne & p' & Hp' & Hvp). rewrite Hp in Hp'. injection Hp' as <-.
  assert (cr_AuthoritativePhase record = ""%string \/ boundedToken (cr_AuthoritativePhase record) 64 = true) as Hauth.
  { destruct Hph as [?|[(q & k & Hq)|(q & k & st & Hq & ->)]]; [by left|right; by eapply Hb1|right; by eapply Hb2]. }
  assert (validateKey (pq_Candidate prepared) = true /\ regexpIntent (cr_IntentID record) = true) as [Hkey Hint].
  { rewrite Hcand, Hi. unfold validatePurchaseRequest in Hreq. destruct (_ || _) eqn:Eb in Hreq; [done|]. bprop.
    match goal with H : validateVerified _ = true |- _ => unfold validateVerified in H end. by bprop. }
  unfold validatePurchaseProgress. rewrite (validPreparedQuote_terms record prepared settlement Hvp).
  cbn [progressForRecord pp_IntentID pp_CandidateKey pp_Phase pp_Key pp_AuthoritativePhase pp_FinalizedCheckpoint
       pp_Released pp_Refunded]. rewrite Hint, Hkey. cbn [negb orb].
  unfold validPurchaseCoordinatorRecord in Hv. destruct (_ || _) in Hv; [done|].
  destruct (cr_Phase record) eqn:Ep; try done; destruct (cr_Key record) as [k|] eqn:Ek; try done; bprop.
  - destruct Hs as [[-> _]|(Ha & Hne' & _)]; [by rewrite !bool_decide_eq_true_2|congruence].
  - destruct Hs as [[-> _]|(Ha & Hne' & _)]; [by rewrite !bool_decide_eq_true_2|congruence].
  - rewrite validNativePurchaseKey_accepted by done. destruct Hauth as [?| ->]; [done|].
    destruct Hs as [[-> _]|(_ & _ & Hs)]; [done|]. rewrite bool_decide_eq_false_2 in Hs by done.
    by destruct Hs as [-> ->].
  - rewrite validNativePurchaseKey_accepted by done. destruct Hs as [[_ ?]|(Ha & _ & Hs)]; [done|].
    rewrite bool_decide_eq_true_2 in Hs by done. destruct Hs as (Hx & Hf & Hr).
    rewrite bool_decide_eq_true_2 by congruence. rewrite (proj2 (N.ltb_lt _ _)) by lia.
    by destruct (ps_Released settlement), (ps_Refunded settlement).
Qed.

(** Whatever the coordinator answers to a valid request is progress that
    the wire handler, its client and the scheduler's journal accept: it is valid
    for its phase, belongs to the requested intent and candidate, is the next
    legal phase, and repeats the payment identity of the request. *)
Theorem coordinator_answers_accepted b e c request c' progress :
  coordinator_ok c -> validatePurchaseRequest request = true -> names_phases b (pr_IntentID request) ->
  AdvancePurchase b e c request = (c', Ret progress) ->
  OppWire.progress_answers request progress = true /\ OppWire.same_purchase_key request progress = true.
Proof.
  intros Hc Hreq Hb E. pose proof (AdvancePurchase_outcome b e c request Hc Hreq) as Ho. rewrite E in Ho.
  destruct Ho as [(err & [=])|(record & prepared & settlement & Ha & Es)]. symmetry in Es.
  apply store_published in Es as [-> _]. pose proof (advances_progress _ _ _ _ _ _ Hreq Hb Ha) as Hp.
  destruct Ha as [Hi _ _ _ Hcand Ht Hk _ _]. unfold OppWire.progress_answers, OppWire.same_purchase_key. split.
  - rewrite Hp. cbn [progressForRecord pp_IntentID pp_CandidateKey pp_Phase].
    by rewrite Ht, !bool_decide_eq_true_2.
  - cbn [progressForRecord pp_Key]. destruct (pr_Key request) as [key|]; [|done]. apply bool_decide_eq_true. auto.
Qed.

End coordinator.

(** ** Concrete runs *)

Definition basechain (b : N) : string := "0:" +:+ hex_EncodeToString (Fixtures.hash b).

(** Basechain addresses "0:" followed by 64 lower-case hex digits. *)
Definition basechain_address : TosAddress := {|
  ParseRawAddr := fun s =>
    if hex64_pattern "0:" s
    then Some {| ra_std := true; ra_bits := 256; ra_workchain := 0; ra_string := s |}
    else None
|}.

Lemma basechain_raw_form : RawAddressForm (TA := basechain_address).
Proof. intros s p. cbn. destruct (hex64_pattern "0:" s) eqn:E; [|done]. by intros [= <-]. Qed.

Definition sample_prepared : PreparedOpportunityQuote :=
  {| pq_Candidate := sample_key; pq_ArtifactDigest := Fixtures.sha 18; pq_AssetMaster := basechain 11;
     pq_AtomicAmount := "25000000"; pq_QuoteExpiryUnix := 1900003600 |}.
Definition sample_payment : PurchaseKey :=
  {| pk_QuoteCommitment := Fixtures.tvm 34; pk_EscrowAddress := basechain 33 |}.

(** A backend whose payments settle at once. *)
Definition sample_backend : backend := {|
  Prepare := fun _ _ => Returned sample_prepared;
  AuthorizeQuote := fun _ _ => Returned tt;
  Reference := fun _ _ => Returned (sample_payment, "prepared"%string);
  Reconcile := fun _ _ _ => Returned {| ps_AuthoritativePhase := "resolved"; ps_FinalizedCheckpoint := 99;
                                        ps_Released := true; ps_Refunded := false |}
|}.

Definition fresh_coordinator : PurchaseCoordinator := {| pc_file := FileDoc (to_document ∅); pc_records := ∅ |}.
Definition later_request (phase : Phase) (key : option PurchaseKey) : PurchaseRequest :=
  {| pr_IntentID := sample_intent; pr_Current := phase; pr_Candidate := sample_verified; pr_Key := key |}.

Abbreviation serve := (AdvancePurchase (TA := basechain_address) sample_backend io_good).

(** The purchase up to its last step. *)
Definition quoted : PurchaseCoordinator := (serve fresh_coordinator OppWire.sample_purchase).1.
Definition authorized : PurchaseCoordinator := (serve quoted (later_request PhaseQuoteVerified None)).1.
Definition referenced : PurchaseCoordinator := (serve authorized (later_request PhasePolicyAuthorized None)).1.

Lemma fresh_coordinator_ok : coordinator_ok (TA := basechain_address) fresh_coordinator.
Proof.
  eapply (OpenPurchaseCoordinator_ok (TA := basechain_address) dir_good io_good FileAbsent).
  vm_compute. reflexivity.
Qed.

Lemma served c request : validatePurchaseRequest request = true ->
  coordinator_step (TA := basechain_address) c (serve c request).1.
Proof. intros H. eapply (coordinator_call _ sample_backend io_good); [done|]. apply surjective_pairing. Qed.

Lemma referenced_ok : coordinator_ok (TA := basechain_address) referenced.
Proof.
  assert (rtc (coordinator_step (TA := basechain_address)) fresh_coordinator referenced) as Hr.
  { eapply rtc_l; [|eapply rtc_l; [|eapply rtc_once]]; apply served; vm_compute; reflexivity. }
  pose proof fresh_coordinator_ok as Hc. induction Hr as [c|c1 c2 c3 Hs _ IH]; [done|].
  apply IH. by eapply coordinator_step_ok.
Qed.

Lemma coordinator_history_witness :
  validPurchaseCoordinatorRecord (TA := basechain_address)
    (default {| cr_IntentID := ""; cr_Phase := PhaseOther ""; cr_Prepared := None; cr_Key := None;
                cr_AuthoritativePhase := "" |} (pc_records referenced !! sample_intent)) = true.
Proof.
  destruct (coordinator_history (TA := basechain_address) dir_good io_good FileAbsent (FileDoc (to_document ∅))
              fresh_coordinator referenced) as [Hv _].
  - vm_compute. reflexivity.
  - eapply rtc_l; [|eapply rtc_l; [|eapply rtc_once]]; apply served; vm_compute; reflexivity.
  - assert (exists r, pc_records referenced !! sample_intent = Some r) as [r Hr] by (eexists; vm_compute; reflexivity).
    rewrite Hr. apply (Hv _ _ Hr).
Defined.

Definition requested_record : JournalRecord :=
  {| rc_IntentID := sample_intent; rc_Phase := PhaseQuoteRequested; rc_Hint := sample_hint;
     rc_Verified := Some sample_verified;
     rc_Assessment := Some {| as_Eligible := true; as_Score := 100; as_Reason := "eligible"; as_AssessedAtUnix := 1900000000 |};
     rc_Purchase := None; rc_Failure := ""; rc_DiscoveredUnix := 1900000000; rc_UpdatedUnix := 1900000000 |}.

(** The scheduler's client of the coordinator whose reply was lost. *)
Definition quoted_env : Environment :=
  {| env_search := fun _ _ => Ret [sample_hint]; env_verify := fun _ _ => Ret sample_verified;
     env_advance := fun _ request => (serve quoted request).2;
     env_random := fun _ _ => sample_material; env_io := fun _ => io_good |}.

Lemma coordinator_lost_reply_witness :
  OppService.advancePurchase (ENV := quoted_env) (sample_service []) requested_record sample_now sample_world =
  (logged sample_world (EvAdvance OppWire.sample_purchase), Fail conflict).
Proof.
  apply (coordinator_lost_reply (TA := basechain_address) sample_backend io_good fresh_coordinator
           OppWire.sample_purchase quoted (progressForRecord
             {| cr_IntentID := sample_intent; cr_Phase := PhaseQuoteVerified; cr_Prepared := Some sample_prepared;
                cr_Key := None; cr_AuthoritativePhase := "" |} sample_prepared zero_settlement)
           fresh_coordinator_ok); try done; vm_compute; reflexivity.
Defined.

Lemma coordinator_answers_accepted_witness :
  OppWire.progress_answers (later_request PhasePurchaseReferenced (Some sample_payment))
    (progressForRecord
       {| cr_IntentID := sample_intent; cr_Phase := PhasePurchaseResolved; cr_Prepared := Some sample_prepared;
          cr_Key := Some sample_payment; cr_AuthoritativePhase := "resolved" |} sample_prepared
       {| ps_AuthoritativePhase := "resolved"; ps_FinalizedCheckpoint := 99; ps_Released := true;
          ps_Refunded := false |}) = true.
Proof.
  eapply (coordinator_answers_accepted (TA := basechain_address) (RAF := basechain_raw_form) sample_backend io_good
            referenced _ (serve referenced (later_request PhasePurchaseReferenced (Some sample_payment))).1);
    [apply referenced_ok|vm_compute; reflexivity| |vm_compute; reflexivity].
  split; [by intros ? ? ? [= <- <-]|by intros ? ? ? [= <-]].
Defined.

End Coordinator.
