(* ===== verification/CapTypes.v ===== *)
(** * Capability control: data

    src/pkg/capabilitycontrol keeps the owner's decisions about the code an
    agent may run: which artifacts were quarantined, verified, admitted,
    promoted, installed and activated, and which executions were started. This
    file holds its data (types.go) and what it uses of the protocol package
    [trustedcapability], which lies outside the repository: its objects and
    bodies with the fields the source reads, and its functions as a class. *)

From S2P Require Import Prelude GoLib GoText FileStore Protocol.
#[local] Open Scope N_scope.

Module CapTypes.

(** A field update, from the expansion of a record. *)
Ltac set_field expanded eta proj v :=
  let b := eval cbv beta delta [eta] in expanded in
  let b' := eval pattern proj in b in
  match b' with ?f _ => let t := eval cbv beta in (f v) in exact t end.

(** ** Objects of the protocol package

    What the source does not read of an object or an envelope is one opaque
    field. *)

Record ProfileObjectV1 := {
  ob_DomainKind : N;
  ob_DomainID : string;
  ob_ObjectKind : string;
  ob_rest : string
}.

Record Subject := {
  su_Kind : string;
  su_Namespace : string;
  su_Identifier : string
}.

#[global] Instance Subject_eq_dec : EqDecision Subject.
Proof. solve_decision. Defined.

Record EnvelopeBody := {
  eb_DomainKind : N;
  eb_DomainID : string;
  eb_AuthorityKind : string;
  eb_AuthorityID : string;
  eb_AuthorityRevision : N;
  eb_PredecessorEnvelopeDigest : option string;
  eb_AuthorityEpoch : N;
  eb_PolicyRevision : N;
  eb_PolicyDigest : string;
  eb_OwnerID : string;
  eb_AgentID : option string;
  eb_IssuerSubject : Subject
}.

Record Envelope := {
  en_Body : EnvelopeBody;
  en_rest : string
}.

Record OwnerBootstrapCeremonyV1 := {
  oc_SchemaVersion : N;
  oc_DomainKind : N;
  oc_DomainID : string;
  oc_OwnerID : string;
  oc_CeremonyNonce : string;
  oc_OwnerConfirmationDigest : string;
  oc_PossessionChallengeDigest : string;
  oc_Generation : N;
  oc_State : string;
  oc_NotBeforeUnix : N;
  oc_ExpiresAtUnix : N;
  oc_GenesisPolicyObjectDigest : string;
  oc_AuthoritySubjectSetDigest : string;
  oc_RootSubject : Subject;
  oc_RecoverySubjects : list Subject
}.

Record OwnerPolicyBodyV1 := {
  po_OwnerID : string;
  po_Revision : N;
  po_PredecessorPolicyDigest : option string;
  po_AuthorityEpoch : N;
  po_NotBeforeUnix : N;
  po_ExpiresAtUnix : N;
  po_AuthorityProfileSetDigest : string;
  po_PromotionSeparationPolicyDigest : string;
  po_CapabilityPolicyDigest : string
}.

Record OwnerDeviceSessionV1 := {
  se_SessionID : string;
  se_OwnerID : string;
  se_DevicePublicKey : string;
  se_AllowedCommandClassesDigest : string;
  se_Audience : string;
  se_ChannelBindingDigest : string;
  se_SessionGeneration : N;
  se_SessionRevocationGeneration : N;
  se_AuthorityEpoch : N;
  se_PolicyRevision : N;
  se_PolicyDigest : string;
  se_NotBeforeUnix : N;
  se_ExpiresAtUnix : N;
  se_RevocationObjectReference : string
}.

Record ArtifactBody := {
  ar_ContentManifestDigest : string;
  ar_EntrypointDescriptorDigest : string;
  ar_PermissionManifestDigest : option string;
  ar_DependencyManifestDigest : option string;
  ar_PublisherSubject : Subject;
  ar_ArtifactKind : string;
  ar_ArtifactNamespace : string;
  ar_ArtifactName : string;
  ar_ArtifactVersion : string
}.

Record ContentManifest := {
  cm_ClosureRoot : string;
  cm_rest : string
}.

Record PermissionManifest := {
  pm_ArtifactPreManifestDigest : string;
  pm_ToolCapabilities : list string;
  pm_ProcessCapabilities : list string;
  pm_FilesystemCapabilities : list string;
  pm_NetworkCapabilities : list string;
  pm_CredentialCapabilities : list string;
  pm_DataClassesRead : list string;
  pm_DataClassesWrite : list string;
  pm_DisclosureCapabilities : list string;
  pm_UploadCapabilities : list string;
  pm_DestructiveCapabilities : list string;
  pm_DirectCostCeiling : string
}.

Record PublisherBody := {
  pb_ExpiresAtUnix : N;
  pb_RevocationGeneration : N;
  pb_rest : string
}.

Record RevocationObservation := {
  ro_SourceID : string;
  ro_SourceGeneration : N;
  ro_ObservedGeneration : N;
  ro_CheckpointRoot : string;
  ro_Revoked : bool;
  ro_rest : string
}.

Record AdmissionBody := {
  ab_OwnerID : string;
  ab_AgentID : string;
  ab_ArtifactVersionDigest : string;
  ab_PermissionManifestDigest : string;
  ab_PolicyRevision : N;
  ab_PolicyDigest : string;
  ab_RevocationGeneration : N;
  ab_rest : string
}.

Record PromotionBody := {
  pr_NotBeforeUnix : N;
  pr_ExpiresAtUnix : N;
  pr_PromotionID : string;
  pr_RevocationGeneration : N;
  pr_OwnerID : string;
  pr_AgentID : string;
  pr_CandidateArtifactVersionDigest : string;
  pr_CandidatePermissionManifestDigest : string;
  pr_PolicyRevision : N;
  pr_PolicyDigest : string;
  pr_GeneratorIdentityDigest : string;
  pr_IndependentVerifierSubject : Subject;
  pr_ApproverSubject : Subject;
  pr_EvaluationManifestDigest : string;
  pr_RetainedControlArtifactDigest : string;
  pr_RetainedControlResultDigest : string;
  pr_PrimaryMetricResultDigest : string;
  pr_HarmMetricResultDigest : string;
  pr_AllowedRegressionBoundsDigest : string;
  pr_ApproverPolicyDigest : string;
  pr_EvaluationResultReference : string;
  pr_VerifierAuthorizationEnvelopeReference : string;
  pr_AuthorityRevision : N;
  pr_PredecessorEnvelopeDigest : option string;
  pr_SourcingDecisionDigest : string;
  pr_CandidateOriginDigest : string;
  pr_UnseenTaskCommitment : string;
  pr_RollbackArtifactDigest : string;
  pr_RollbackPlanDigest : string
}.

Record EvaluationResult := {
  er_SchemaVersion : N;
  er_CandidateArtifactDigest : string;
  er_PermissionManifestDigest : string;
  er_PolicyDigest : string;
  er_PolicyRevision : N;
  er_ExpiresAtUnix : N;
  er_RetainedControlResultDigest : string;
  er_RuntimeSandboxDigest : string;
  er_CorpusCommitment : string;
  er_CompleteResultSetDigest : string
}.

Record EvaluationManifest := {
  em_RuntimeSandboxDigest : string;
  em_CorpusCommitment : string;
  em_CompleteResultSetDigest : string;
  em_RetainedControlResultDigest : string;
  em_EvidenceObjectDigests : list string;
  em_rest : string
}.

(** Each source attempt names a snapshot: the object digest of its reference, and the reference. *)
Record SourcingDecision := {
  sd_SourceSnapshots : list (string * string);
  sd_rest : string
}.

Record InstallationTransaction := {
  tx_SchemaVersion : N;
  tx_InstallationID : string;
  tx_State : string;
  tx_ExpectedInventoryRevision : N;
  tx_PolicyRevision : N;
  tx_ArtifactVersionDigest : string;
  tx_AdmissionEnvelopeDigest : string;
  tx_QuarantineObjectDigest : string;
  tx_TargetStoreDigest : string;
  tx_DependencyClosureDigest : string;
  tx_InstallPlanDigest : string;
  tx_RollbackPlanDigest : string;
  tx_WriterFenceDigest : string;
  tx_StableActionID : string;
  tx_ExactRequestDigest : string;
  tx_SourceObjectReference : string
}.

Record UseLease := {
  le_AgentID : string;
  le_AdmissionEnvelopeDigest : string;
  le_PermissionSubsetDigest : string;
  le_rest : string
}.

Record UseBinding := {
  bi_ExecutionID : string;
  bi_ActionID : string;
  bi_UseLeaseDigest : string;
  bi_ArtifactVersionDigest : string;
  bi_AdmissionEnvelopeDigest : string;
  bi_PromotionEnvelopeDigest : option string;
  bi_PermissionSubsetDigest : string;
  bi_AdmissionRevision : N;
  bi_AdmissionRevocationGeneration : N;
  bi_PromotionRevision : option N;
  bi_PromotionRevocationGeneration : option N;
  bi_AuthorityEpoch : N;
  bi_PolicyRevision : N;
  bi_PolicyDigest : string;
  bi_ControlScopeGeneration : N;
  bi_InventoryRevision : N;
  bi_InstallationRevision : N;
  bi_LoadedObjectDigest : string;
  bi_RuntimeAndSandboxDigest : string;
  bi_EffectiveEnvironmentDigest : string;
  bi_CredentialCapabilityReferenceSetDigest : string;
  bi_FilesystemHandleSetDigest : string;
  bi_NetworkBrokerPolicyDigest : string;
  bi_RemoteSessionHandshakeDigest : option string;
  bi_rest : string
}.

Record OutcomeEvidence := {
  ev_OwnerID : string;
  ev_AgentID : string;
  ev_SinkAuthorityID : string;
  ev_SinkEpoch : N;
  ev_ActionKind : string;
  ev_ActionID : string;
  ev_ExactRequestDigest : string;
  ev_ExecutionID : option string;
  ev_Disposition : string;
  ev_ResultDigest : string;
  ev_rest : string
}.

Record OwnerExitPlanV1 := {
  xp_ExitID : string;
  xp_OwnerID : string;
  xp_PredecessorPolicyDigest : string;
  xp_StageEvidenceRoot : string;
  xp_AmbiguousActionSetRoot : string;
  xp_CustodyDispositionDigest : string;
  xp_ExportDigest : string;
  xp_TombstoneDigest : option string;
  xp_Stage : string;
  xp_Revision : N
}.

(** ** types.go *)

Inductive State :=
| StateUnverifiedLegacy | StateQuarantined | StateVerified | StateAdmitted | StateActive
| StateSuspended | StateRevoked | StateExpired | StateRejected.

#[global] Instance State_eq_dec : EqDecision State.
Proof. solve_decision. Defined.

Record PublisherSourceHead := {
  ph_SourceGeneration : N;
  ph_ObservedGeneration : N;
  ph_CheckpointRoot : string
}.

Record AuthorityHead := {
  ah_Revision : N;
  ah_Epoch : N;
  ah_EnvelopeDigest : string
}.

Record Entry := {
  e_ArtifactDigest : string;
  e_ObservedContentDigest : string;
  e_ArtifactKind : string;
  e_Namespace : string;
  e_Name : string;
  e_Version : string;
  e_State : State;
  e_InstalledPath : string;
  e_QuarantinePath : string;
  e_PermissionManifestDigest : string;
  e_PermissionObject : option ProfileObjectV1;
  e_ContentManifestObject : option ProfileObjectV1;
  e_EntrypointObject : option ProfileObjectV1;
  e_ArtifactObject : option ProfileObjectV1;
  e_PublisherObject : option ProfileObjectV1;
  e_PublisherEnvelope : option Envelope;
  e_PublisherEnvelopeExpiresAt : N;
  e_PublisherRevocationGeneration : N;
  e_PublisherSourceHeads : gmap string PublisherSourceHead;
  e_AdmissionObject : option ProfileObjectV1;
  e_AdmissionEnvelope : option Envelope;
  e_AdmissionRevision : N;
  e_AdmissionRevocationGeneration : N;
  e_PromotionObject : option ProfileObjectV1;
  e_PromotionEnvelope : option Envelope;
  e_PromotionRevision : N;
  e_PromotionRevocationGeneration : N;
  e_PromotionRequired : bool;
  e_InstallationRevision : N;
  e_UpdatedAtUnix : N
}.

Definition eta_Entry (x : Entry) : Entry :=
  {| e_ArtifactDigest := e_ArtifactDigest x; e_ObservedContentDigest := e_ObservedContentDigest x;
     e_ArtifactKind := e_ArtifactKind x; e_Namespace := e_Namespace x; e_Name := e_Name x; e_Version :=
     e_Version x; e_State := e_State x; e_InstalledPath := e_InstalledPath x; e_QuarantinePath :=
     e_QuarantinePath x; e_PermissionManifestDigest := e_PermissionManifestDigest x; e_PermissionObject
     := e_PermissionObject x; e_ContentManifestObject := e_ContentManifestObject x; e_EntrypointObject :=
     e_EntrypointObject x; e_ArtifactObject := e_ArtifactObject x; e_PublisherObject := e_PublisherObject
     x; e_PublisherEnvelope := e_PublisherEnvelope x; e_PublisherEnvelopeExpiresAt :=
     e_PublisherEnvelopeExpiresAt x; e_PublisherRevocationGeneration := e_PublisherRevocationGeneration
     x; e_PublisherSourceHeads := e_PublisherSourceHeads x; e_AdmissionObject := e_AdmissionObject x;
     e_AdmissionEnvelope := e_AdmissionEnvelope x; e_AdmissionRevision := e_AdmissionRevision x;
     e_AdmissionRevocationGeneration := e_AdmissionRevocationGeneration x; e_PromotionObject :=
     e_PromotionObject x; e_PromotionEnvelope := e_PromotionEnvelope x; e_PromotionRevision :=
     e_PromotionRevision x; e_PromotionRevocationGeneration := e_PromotionRevocationGeneration x;
     e_PromotionRequired := e_PromotionRequired x; e_InstallationRevision := e_InstallationRevision x;
     e_UpdatedAtUnix := e_UpdatedAtUnix x |}.
Definition set_e_ArtifactDigest (v : string) (x : Entry) : Entry := ltac:(set_field (eta_Entry x) eta_Entry (e_ArtifactDigest x) v).
Definition set_e_ObservedContentDigest (v : string) (x : Entry) : Entry := ltac:(set_field (eta_Entry x) eta_Entry (e_ObservedContentDigest x) v).
Definition set_e_ArtifactKind (v : string) (x : Entry) : Entry := ltac:(set_field (eta_Entry x) eta_Entry (e_ArtifactKind x) v).
Definition set_e_Namespace (v : string) (x : Entry) : Entry := ltac:(set_field (eta_Entry x) eta_Entry (e_Namespace x) v).
Definition set_e_Name (v : string) (x : Entry) : Entry := ltac:(set_field (eta_Entry x) eta_Entry (e_Name x) v).
Definition set_e_Version (v : string) (x : Entry) : Entry := ltac:(set_field (eta_Entry x) eta_Entry (e_Version x) v).
Definition set_e_State (v : State) (x : Entry) : Entry := ltac:(set_field (eta_Entry x) eta_Entry (e_State x) v).
Definition set_e_InstalledPath (v : string) (x : Entry) : Entry := ltac:(set_field (eta_Entry x) eta_Entry (e_InstalledPath x) v).
Definition set_e_QuarantinePath (v : string) (x : Entry) : Entry := ltac:(set_field (eta_Entry x) eta_Entry (e_QuarantinePath x) v).
Definition set_e_PermissionManifestDigest (v : string) (x : Entry) : Entry := ltac:(set_field (eta_Entry x) eta_Entry (e_PermissionManifestDigest x) v).
Definition set_e_PermissionObject (v : option ProfileObjectV1) (x : Entry) : Entry := ltac:(set_field (eta_Entry x) eta_Entry (e_PermissionObject x) v).
Definition set_e_ContentManifestObject (v : option ProfileObjectV1) (x : Entry) : Entry := ltac:(set_field (eta_Entry x) eta_Entry (e_ContentManifestObject x) v).
Definition set_e_EntrypointObject (v : option ProfileObjectV1) (x : Entry) : Entry := ltac:(set_field (eta_Entry x) eta_Entry (e_EntrypointObject x) v).
Definition set_e_ArtifactObject (v : option ProfileObjectV1) (x : Entry) : Entry := ltac:(set_field (eta_Entry x) eta_Entry (e_ArtifactObject x) v).
Definition set_e_PublisherObject (v : option ProfileObjectV1) (x : Entry) : Entry := ltac:(set_field (eta_Entry x) eta_Entry (e_PublisherObject x) v).
Definition set_e_PublisherEnvelope (v : option Envelope) (x : Entry) : Entry := ltac:(set_field (eta_Entry x) eta_Entry (e_PublisherEnvelope x) v).
Definition set_e_PublisherEnvelopeExpiresAt (v : N) (x : Entry) : Entry := ltac:(set_field (eta_Entry x) eta_Entry (e_PublisherEnvelopeExpiresAt x) v).
Definition set_e_PublisherRevocationGeneration (v : N) (x : Entry) : Entry := ltac:(set_field (eta_Entry x) eta_Entry (e_PublisherRevocationGeneration x) v).
Definition set_e_PublisherSourceHeads (v : gmap string PublisherSourceHead) (x : Entry) : Entry := ltac:(set_field (eta_Entry x) eta_Entry (e_PublisherSourceHeads x) v).
Definition set_e_AdmissionObject (v : option ProfileObjectV1) (x : Entry) : Entry := ltac:(set_field (eta_Entry x) eta_Entry (e_AdmissionObject x) v).
Definition set_e_AdmissionEnvelope (v : option Envelope) (x : Entry) : Entry := ltac:(set_field (eta_Entry x) eta_Entry (e_AdmissionEnvelope x) v).
Definition set_e_AdmissionRevision (v : N) (x : Entry) : Entry := ltac:(set_field (eta_Entry x) eta_Entry (e_AdmissionRevision x) v).
Definition set_e_AdmissionRevocationGeneration (v : N) (x : Entry) : Entry := ltac:(set_field (eta_Entry x) eta_Entry (e_AdmissionRevocationGeneration x) v).
Definition set_e_PromotionObject (v : option ProfileObjectV1) (x : Entry) : Entry := ltac:(set_field (eta_Entry x) eta_Entry (e_PromotionObject x) v).
Definition set_e_PromotionEnvelope (v : option Envelope) (x : Entry) : Entry := ltac:(set_field (eta_Entry x) eta_Entry (e_PromotionEnvelope x) v).
Definition set_e_PromotionRevision (v : N) (x : Entry) : Entry := ltac:(set_field (eta_Entry x) eta_Entry (e_PromotionRevision x) v).
Definition set_e_PromotionRevocationGeneration (v : N) (x : Entry) : Entry := ltac:(set_field (eta_Entry x) eta_Entry (e_PromotionRevocationGeneration x) v).
Definition set_e_PromotionRequired (v : bool) (x : Entry) : Entry := ltac:(set_field (eta_Entry x) eta_Entry (e_PromotionRequired x) v).
Definition set_e_InstallationRevision (v : N) (x : Entry) : Entry := ltac:(set_field (eta_Entry x) eta_Entry (e_InstallationRevision x) v).
Definition set_e_UpdatedAtUnix (v : N) (x : Entry) : Entry := ltac:(set_field (eta_Entry x) eta_Entry (e_UpdatedAtUnix x) v).

Record UseSlot := {
  us_ExecutionID : string;
  us_ActionID : string;
  us_ExactRequestDigest : string;
  us_ArtifactDigest : string;
  us_State : string;
  us_LeaseDigest : string;
  us_ControlScopeGeneration : N;
  us_AdmissionRevision : N;
  us_AdmissionRevocationGeneration : N;
  us_PromotionRevision : N;
  us_PromotionRevocationGeneration : N;
  us_StartedAtUnix : N;
  us_ResolvedAtUnix : N;
  us_TerminalDisposition : string;
  us_ResolutionTokenDigest : string;
  us_ResultDigest : string;
  us_OutcomeEvidenceDigest : string;
  us_OutcomeAuthorityID : string;
  us_OutcomeAuthorityEpoch : N
}.

Definition eta_UseSlot (x : UseSlot) : UseSlot :=
  {| us_ExecutionID := us_ExecutionID x; us_ActionID := us_ActionID x; us_ExactRequestDigest :=
     us_ExactRequestDigest x; us_ArtifactDigest := us_ArtifactDigest x; us_State := us_State x;
     us_LeaseDigest := us_LeaseDigest x; us_ControlScopeGeneration := us_ControlScopeGeneration x;
     us_AdmissionRevision := us_AdmissionRevision x; us_AdmissionRevocationGeneration :=
     us_AdmissionRevocationGeneration x; us_PromotionRevision := us_PromotionRevision x;
     us_PromotionRevocationGeneration := us_PromotionRevocationGeneration x; us_StartedAtUnix :=
     us_StartedAtUnix x; us_ResolvedAtUnix := us_ResolvedAtUnix x; us_TerminalDisposition :=
     us_TerminalDisposition x; us_ResolutionTokenDigest := us_ResolutionTokenDigest x; us_ResultDigest :=
     us_ResultDigest x; us_OutcomeEvidenceDigest := us_OutcomeEvidenceDigest x; us_OutcomeAuthorityID :=
     us_OutcomeAuthorityID x; us_OutcomeAuthorityEpoch := us_OutcomeAuthorityEpoch x |}.
Definition set_us_State (v : string) (x : UseSlot) : UseSlot := ltac:(set_field (eta_UseSlot x) eta_UseSlot (us_State x) v).
Definition set_us_ResolvedAtUnix (v : N) (x : UseSlot) : UseSlot := ltac:(set_field (eta_UseSlot x) eta_UseSlot (us_ResolvedAtUnix x) v).
Definition set_us_TerminalDisposition (v : string) (x : UseSlot) : UseSlot := ltac:(set_field (eta_UseSlot x) eta_UseSlot (us_TerminalDisposition x) v).
Definition set_us_ResultDigest (v : string) (x : UseSlot) : UseSlot := ltac:(set_field (eta_UseSlot x) eta_UseSlot (us_ResultDigest x) v).
Definition set_us_OutcomeEvidenceDigest (v : string) (x : UseSlot) : UseSlot := ltac:(set_field (eta_UseSlot x) eta_UseSlot (us_OutcomeEvidenceDigest x) v).

Record MCPToolAction := {
  ma_ActionID : string;
  ma_ExactRequestDigest : string;
  ma_ResolutionTokenDigest : string;
  ma_State : string;
  ma_PreparedAtUnix : N;
  ma_ResolvedAtUnix : N;
  ma_TerminalDisposition : string;
  ma_ResultDigest : string;
  ma_OutcomeEvidenceDigest : string;
  ma_OutcomeAuthorityID : string;
  ma_OutcomeAuthorityEpoch : N
}.

Definition eta_MCPToolAction (x : MCPToolAction) : MCPToolAction :=
  {| ma_ActionID := ma_ActionID x; ma_ExactRequestDigest := ma_ExactRequestDigest x;
     ma_ResolutionTokenDigest := ma_ResolutionTokenDigest x; ma_State := ma_State x; ma_PreparedAtUnix :=
     ma_PreparedAtUnix x; ma_ResolvedAtUnix := ma_ResolvedAtUnix x; ma_TerminalDisposition :=
     ma_TerminalDisposition x; ma_ResultDigest := ma_ResultDigest x; ma_OutcomeEvidenceDigest :=
     ma_OutcomeEvidenceDigest x; ma_OutcomeAuthorityID := ma_OutcomeAuthorityID x;
     ma_OutcomeAuthorityEpoch := ma_OutcomeAuthorityEpoch x |}.
Definition set_ma_State (v : string) (x : MCPToolAction) : MCPToolAction := ltac:(set_field (eta_MCPToolAction x) eta_MCPToolAction (ma_State x) v).
Definition set_ma_ResolvedAtUnix (v : N) (x : MCPToolAction) : MCPToolAction := ltac:(set_field (eta_MCPToolAction x) eta_MCPToolAction (ma_ResolvedAtUnix x) v).
Definition set_ma_TerminalDisposition (v : string) (x : MCPToolAction) : MCPToolAction := ltac:(set_field (eta_MCPToolAction x) eta_MCPToolAction (ma_TerminalDisposition x) v).
Definition set_ma_ResultDigest (v : string) (x : MCPToolAction) : MCPToolAction := ltac:(set_field (eta_MCPToolAction x) eta_MCPToolAction (ma_ResultDigest x) v).
Definition set_ma_OutcomeEvidenceDigest (v : string) (x : MCPToolAction) : MCPToolAction := ltac:(set_field (eta_MCPToolAction x) eta_MCPToolAction (ma_OutcomeEvidenceDigest x) v).

Record InstallationSlot := {
  is_ActionID : string;
  is_ExactRequestDigest : string;
  is_ArtifactDigest : string;
  is_State : string;
  is_TargetPath : string
}.

Definition eta_InstallationSlot (x : InstallationSlot) : InstallationSlot :=
  {| is_ActionID := is_ActionID x; is_ExactRequestDigest := is_ExactRequestDigest x; is_ArtifactDigest :=
     is_ArtifactDigest x; is_State := is_State x; is_TargetPath := is_TargetPath x |}.
Definition set_is_State (v : string) (x : InstallationSlot) : InstallationSlot := ltac:(set_field (eta_InstallationSlot x) eta_InstallationSlot (is_State x) v).

Record DeviceSessionRecord := {
  dr_Object : ProfileObjectV1;
  dr_Envelope : Envelope;
  dr_SessionGeneration : N;
  dr_RevocationGeneration : N;
  dr_Revoked : bool
}.

Definition eta_DeviceSessionRecord (x : DeviceSessionRecord) : DeviceSessionRecord :=
  {| dr_Object := dr_Object x; dr_Envelope := dr_Envelope x; dr_SessionGeneration := dr_SessionGeneration
     x; dr_RevocationGeneration := dr_RevocationGeneration x; dr_Revoked := dr_Revoked x |}.
Definition set_dr_RevocationGeneration (v : N) (x : DeviceSessionRecord) : DeviceSessionRecord := ltac:(set_field (eta_DeviceSessionRecord x) eta_DeviceSessionRecord (dr_RevocationGeneration x) v).
Definition set_dr_Revoked (v : bool) (x : DeviceSessionRecord) : DeviceSessionRecord := ltac:(set_field (eta_DeviceSessionRecord x) eta_DeviceSessionRecord (dr_Revoked x) v).

Record OwnerCommandAction := {
  oa_ExactRequestDigest : string;
  oa_FencingToken : string;
  oa_State : string;
  oa_ResultRevision : N
}.

Record Tombstone := {
  tb_ArtifactDigest : string;
  tb_PredecessorInventoryRevision : N;
  tb_InventoryRevision : N;
  tb_DeletionGeneration : N;
  tb_RemovedAtUnix : N;
  tb_RemovalActionID : string;
  tb_ExactRequestDigest : string;
  tb_PolicyDigest : string;
  tb_ControlScopeGeneration : N
}.

Record DurableState := {
  ds_SchemaVersion : N;
  ds_Initialized : bool;
  ds_DomainKind : N;
  ds_DomainID : string;
  ds_InstallationID : string;
  ds_DeploymentFormatEpoch : N;
  ds_OwnerID : string;
  ds_AgentID : string;
  ds_AuthorityEpoch : N;
  ds_PolicyRevision : N;
  ds_PolicyDigest : string;
  ds_CapabilityPolicyDigest : string;
  ds_PromotionSeparationPolicyDigest : string;
  ds_AuthorizedSubjects : gmap string (list string);
  ds_AuthorityControllers : gmap string string;
  ds_AuthorityHeads : gmap string AuthorityHead;
  ds_InventoryRevision : N;
  ds_SourceGeneration : N;
  ds_ControlScopeGeneration : N;
  ds_OwnerPaused : bool;
  ds_DeletionGeneration : N;
  ds_MonotonicRevision : N;
  ds_TrustedTimeHighWater : N;
  ds_TrustedTimeEpochHighWater : N;
  ds_GenesisCeremonyDigest : string;
  ds_BootstrapNonce : string;
  ds_Entries : gmap string Entry;
  ds_UseSlots : gmap string UseSlot;
  ds_Tombstones : gmap string Tombstone;
  ds_InstallationSlots : gmap string InstallationSlot;
  ds_PortfolioRevision : N;
  ds_DeviceSessions : gmap string DeviceSessionRecord;
  ds_OwnerExit : option OwnerExitPlanV1;
  ds_OwnerCommandActions : gmap string OwnerCommandAction;
  ds_MCPToolActions : gmap string MCPToolAction
}.

Definition eta_DurableState (x : DurableState) : DurableState :=
  {| ds_SchemaVersion := ds_SchemaVersion x; ds_Initialized := ds_Initialized x; ds_DomainKind :=
     ds_DomainKind x; ds_DomainID := ds_DomainID x; ds_InstallationID := ds_InstallationID x;
     ds_DeploymentFormatEpoch := ds_DeploymentFormatEpoch x; ds_OwnerID := ds_OwnerID x; ds_AgentID :=
     ds_AgentID x; ds_AuthorityEpoch := ds_AuthorityEpoch x; ds_PolicyRevision := ds_PolicyRevision x;
     ds_PolicyDigest := ds_PolicyDigest x; ds_CapabilityPolicyDigest := ds_CapabilityPolicyDigest x;
     ds_PromotionSeparationPolicyDigest := ds_PromotionSeparationPolicyDigest x; ds_AuthorizedSubjects :=
     ds_AuthorizedSubjects x; ds_AuthorityControllers := ds_AuthorityControllers x; ds_AuthorityHeads :=
     ds_AuthorityHeads x; ds_InventoryRevision := ds_InventoryRevision x; ds_SourceGeneration :=
     ds_SourceGeneration x; ds_ControlScopeGeneration := ds_ControlScopeGeneration x; ds_OwnerPaused :=
     ds_OwnerPaused x; ds_DeletionGeneration := ds_DeletionGeneration x; ds_MonotonicRevision :=
     ds_MonotonicRevision x; ds_TrustedTimeHighWater := ds_TrustedTimeHighWater x;
     ds_TrustedTimeEpochHighWater := ds_TrustedTimeEpochHighWater x; ds_GenesisCeremonyDigest :=
     ds_GenesisCeremonyDigest x; ds_BootstrapNonce := ds_BootstrapNonce x; ds_Entries := ds_Entries x;
     ds_UseSlots := ds_UseSlots x; ds_Tombstones := ds_Tombstones x; ds_InstallationSlots :=
     ds_InstallationSlots x; ds_PortfolioRevision := ds_PortfolioRevision x; ds_DeviceSessions :=
     ds_DeviceSessions x; ds_OwnerExit := ds_OwnerExit x; ds_OwnerCommandActions :=
     ds_OwnerCommandActions x; ds_MCPToolActions := ds_MCPToolActions x |}.
Definition set_ds_Initialized (v : bool) (x : DurableState) : DurableState := ltac:(set_field (eta_DurableState x) eta_DurableState (ds_Initialized x) v).
Definition set_ds_AuthorityEpoch (v : N) (x : DurableState) : DurableState := ltac:(set_field (eta_DurableState x) eta_DurableState (ds_AuthorityEpoch x) v).
Definition set_ds_PolicyRevision (v : N) (x : DurableState) : DurableState := ltac:(set_field (eta_DurableState x) eta_DurableState (ds_PolicyRevision x) v).
Definition set_ds_PolicyDigest (v : string) (x : DurableState) : DurableState := ltac:(set_field (eta_DurableState x) eta_DurableState (ds_PolicyDigest x) v).
Definition set_ds_CapabilityPolicyDigest (v : string) (x : DurableState) : DurableState := ltac:(set_field (eta_DurableState x) eta_DurableState (ds_CapabilityPolicyDigest x) v).
Definition set_ds_PromotionSeparationPolicyDigest (v : string) (x : DurableState) : DurableState := ltac:(set_field (eta_DurableState x) eta_DurableState (ds_PromotionSeparationPolicyDigest x) v).
Definition set_ds_AuthorizedSubjects (v : gmap string (list string)) (x : DurableState) : DurableState := ltac:(set_field (eta_DurableState x) eta_DurableState (ds_AuthorizedSubjects x) v).
Definition set_ds_AuthorityControllers (v : gmap string string) (x : DurableState) : DurableState := ltac:(set_field (eta_DurableState x) eta_DurableState (ds_AuthorityControllers x) v).
Definition set_ds_AuthorityHeads (v : gmap string AuthorityHead) (x : DurableState) : DurableState := ltac:(set_field (eta_DurableState x) eta_DurableState (ds_AuthorityHeads x) v).
Definition set_ds_InventoryRevision (v : N) (x : DurableState) : DurableState := ltac:(set_field (eta_DurableState x) eta_DurableState (ds_InventoryRevision x) v).
Definition set_ds_SourceGeneration (v : N) (x : DurableState) : DurableState := ltac:(set_field (eta_DurableState x) eta_DurableState (ds_SourceGeneration x) v).
Definition set_ds_ControlScopeGeneration (v : N) (x : DurableState) : DurableState := ltac:(set_field (eta_DurableState x) eta_DurableState (ds_ControlScopeGeneration x) v).
Definition set_ds_OwnerPaused (v : bool) (x : DurableState) : DurableState := ltac:(set_field (eta_DurableState x) eta_DurableState (ds_OwnerPaused x) v).
Definition set_ds_DeletionGeneration (v : N) (x : DurableState) : DurableState := ltac:(set_field (eta_DurableState x) eta_DurableState (ds_DeletionGeneration x) v).
Definition set_ds_MonotonicRevision (v : N) (x : DurableState) : DurableState := ltac:(set_field (eta_DurableState x) eta_DurableState (ds_MonotonicRevision x) v).
Definition set_ds_TrustedTimeHighWater (v : N) (x : DurableState) : DurableState := ltac:(set_field (eta_DurableState x) eta_DurableState (ds_TrustedTimeHighWater x) v).
Definition set_ds_TrustedTimeEpochHighWater (v : N) (x : DurableState) : DurableState := ltac:(set_field (eta_DurableState x) eta_DurableState (ds_TrustedTimeEpochHighWater x) v).
Definition set_ds_GenesisCeremonyDigest (v : string) (x : DurableState) : DurableState := ltac:(set_field (eta_DurableState x) eta_DurableState (ds_GenesisCeremonyDigest x) v).
Definition set_ds_BootstrapNonce (v : string) (x : DurableState) : DurableState := ltac:(set_field (eta_DurableState x) eta_DurableState (ds_BootstrapNonce x) v).
Definition set_ds_Entries (v : gmap string Entry) (x : DurableState) : DurableState := ltac:(set_field (eta_DurableState x) eta_DurableState (ds_Entries x) v).
Definition set_ds_UseSlots (v : gmap string UseSlot) (x : DurableState) : DurableState := ltac:(set_field (eta_DurableState x) eta_DurableState (ds_UseSlots x) v).
Definition set_ds_Tombstones (v : gmap string Tombstone) (x : DurableState) : DurableState := ltac:(set_field (eta_DurableState x) eta_DurableState (ds_Tombstones x) v).
Definition set_ds_InstallationSlots (v : gmap string InstallationSlot) (x : DurableState) : DurableState := ltac:(set_field (eta_DurableState x) eta_DurableState (ds_InstallationSlots x) v).
Definition set_ds_DeviceSessions (v : gmap string DeviceSessionRecord) (x : DurableState) : DurableState := ltac:(set_field (eta_DurableState x) eta_DurableState (ds_DeviceSessions x) v).
Definition set_ds_OwnerExit (v : option OwnerExitPlanV1) (x : DurableState) : DurableState := ltac:(set_field (eta_DurableState x) eta_DurableState (ds_OwnerExit x) v).
Definition set_ds_OwnerCommandActions (v : gmap string OwnerCommandAction) (x : DurableState) : DurableState := ltac:(set_field (eta_DurableState x) eta_DurableState (ds_OwnerCommandActions x) v).
Definition set_ds_MCPToolActions (v : gmap string MCPToolAction) (x : DurableState) : DurableState := ltac:(set_field (eta_DurableState x) eta_DurableState (ds_MCPToolActions x) v).

Record pendingAuthorityCommit := {
  pa_SchemaVersion : N;
  pa_PriorRevision : N;
  pa_NextRevision : N;
  pa_Commitment : string;
  pa_NextState : DurableState;
  pa_AcquisitionAccepting : option bool
}.

Record PublisherObservation := {
  pu_Object : ProfileObjectV1;
  pu_Envelope : Envelope
}.

Record TrustedTimeEvidenceObservation := {
  to_UnixSeconds : N;
  to_Epoch : N;
  to_EvidenceDigest : string
}.

(** *** Requests *)

Record BootstrapRequest := {
  br_CeremonyObject : ProfileObjectV1;
  br_RootCeremonyAuthorization : Envelope;
  br_RecoveryCeremonyAuthorizations : list Envelope;
  br_PolicyObject : ProfileObjectV1;
  br_Envelope : Envelope;
  br_AuthorizedSubjects : gmap string (list string);
  br_AuthorityControllers : gmap string string
}.

Record PolicyRotationRequest := {
  rr_PolicyObject : ProfileObjectV1;
  rr_Envelope : Envelope;
  rr_AuthorizedSubjects : gmap string (list string);
  rr_AuthorityControllers : gmap string string
}.

Record DeviceSessionRequest := {
  dq_Object : ProfileObjectV1;
  dq_Envelope : Envelope
}.

Record AdmissionRequest := {
  aq_ArtifactDigest : string;
  aq_Object : ProfileObjectV1;
  aq_Envelope : Envelope
}.

Record VerificationRequest := {
  vq_QuarantineDigest : string;
  vq_ArtifactObject : ProfileObjectV1;
  vq_ContentManifestObject : ProfileObjectV1;
  vq_EntrypointObject : ProfileObjectV1;
  vq_PermissionObject : option ProfileObjectV1;
  vq_DependencyObject : option ProfileObjectV1;
  vq_PublisherObject : ProfileObjectV1;
  vq_PublisherAuthorization : Envelope
}.

Record PromotionRequest := {
  pq_ArtifactDigest : string;
  pq_Object : ProfileObjectV1;
  pq_Envelope : Envelope;
  pq_GeneratorAuthorization : Envelope;
  pq_EvaluationObject : ProfileObjectV1;
  pq_VerifierEnvelopeObject : ProfileObjectV1;
  pq_SourcingDecisionObject : ProfileObjectV1;
  pq_EvaluationManifestObject : ProfileObjectV1;
  pq_EvidenceObjects : list ProfileObjectV1
}.

Record InstallationRequest := {
  iq_Object : ProfileObjectV1;
  iq_Envelope : Envelope
}.

Record ObservedUseContext := {
  ou_LoadedObjectDigest : string;
  ou_InstallationRevision : N;
  ou_RuntimeAndSandboxDigest : string;
  ou_EffectiveEnvironmentDigest : string;
  ou_CredentialCapabilityReferenceSetDigest : string;
  ou_FilesystemHandleSetDigest : string;
  ou_NetworkBrokerPolicyDigest : string;
  ou_RemoteSessionHandshakeDigest : option string
}.

Record StartRequest := {
  sq_Binding : UseBinding;
  sq_LeaseObject : ProfileObjectV1;
  sq_LeaseEnvelope : Envelope;
  sq_PermissionSubsetObject : ProfileObjectV1;
  sq_Remote : bool;
  sq_Observed : ObservedUseContext
}.

Record ActionOutcomeRecoveryRequest := {
  oq_Object : ProfileObjectV1;
  oq_Envelope : Envelope
}.

(** *** Errors *)

Definition ErrUnverifiedLegacy : string := "unverified legacy capability cannot perform consequential work".
Definition ErrNotAdmitted : string := "capability is not admitted and active".
Definition ErrPromotionRequired : string := "current promotion authority is required".
Definition ErrStaleAuthority : string := "capability authority, policy, or control generation is stale".
Definition ErrAmbiguousStart : string := "execution start is already prepared or ambiguous".

(** ** The protocol package and the standard library's encoder *)

(** [commerce.SemanticValue] *)
Inductive SemanticValue :=
| ID (v : string)
| Digest32 (v : string)
| U64 (v : N).

(** store.go: [subjectBinding] *)
Record subjectBinding := {
  sb_Kind : string;
  sb_Identifiers : list string;
  sb_Controllers : list string
}.

(** The functions of [trustedcapability] and [agentcommerce] that the source
    calls. [DecodeBody object kind] is one function for each kind; the bodies the
    source only hands back (entry points, dependencies, evidence) stay opaque. *)
Class TrustedCapability := {
  SchemaVersion : N;
  ObjectDigest : ProfileObjectV1 -> result string;
  NewEnvelopeObject : N -> string -> Envelope -> result ProfileObjectV1;
  NewBindingObject : N -> string -> UseBinding -> result ProfileObjectV1;
  VerifyAuthorization : Envelope -> ProfileObjectV1 -> N -> N -> result unit;
  ValidateLinearSuccessor : string -> N -> N -> EnvelopeBody -> result unit;
  ValidateReference : string -> result unit;
  ReferenceMatchesObject : string -> ProfileObjectV1 -> result unit;
  MarshalSubjects : list subjectBinding -> result string;
  DecodeCeremony : ProfileObjectV1 -> result OwnerBootstrapCeremonyV1;
  DecodePolicy : ProfileObjectV1 -> result OwnerPolicyBodyV1;
  DecodeSession : ProfileObjectV1 -> result OwnerDeviceSessionV1;
  DecodeArtifact : ProfileObjectV1 -> result ArtifactBody;
  ValidateExecutableArtifact : ArtifactBody -> result unit;
  ArtifactPreManifestDigest : ArtifactBody -> result string;
  DecodeContentManifest : ProfileObjectV1 -> result ContentManifest;
  ValidateContentManifest : ContentManifest -> result unit;
  DecodeEntrypoint : ProfileObjectV1 -> result string;
  ValidateEntrypointDescriptor : string -> result unit;
  DecodePermission : ProfileObjectV1 -> result PermissionManifest;
  ValidatePermissionManifest : PermissionManifest -> result unit;
  PermissionSubsetOf : PermissionManifest -> PermissionManifest -> result unit;
  DecodeDependencies : ProfileObjectV1 -> result string;
  ValidateDependencyManifest : string -> string -> result unit;
  DecodePublisher : ProfileObjectV1 -> result PublisherBody;
  ValidatePublisherEnvelope : PublisherBody -> ArtifactBody -> N -> result unit;
  DecodeObservation : ProfileObjectV1 -> result RevocationObservation;
  ValidatePublisherRevocationObservation :
    RevocationObservation -> Subject -> string -> string -> N -> result unit;
  DecodeAdmission : ProfileObjectV1 -> result AdmissionBody;
  ValidateAdmission : AdmissionBody -> N -> result unit;
  DecodePromotion : ProfileObjectV1 -> result PromotionBody;
  DecodeEvaluation : ProfileObjectV1 -> result EvaluationResult;
  DecodeEnvelope : ProfileObjectV1 -> result Envelope;
  DecodeSourcing : ProfileObjectV1 -> result SourcingDecision;
  ValidateSourcingDecision : SourcingDecision -> string -> string -> string -> string -> N -> N -> result unit;
  DecodeEvaluationManifest : ProfileObjectV1 -> result EvaluationManifest;
  ValidateEvaluationManifest : EvaluationManifest -> PromotionBody -> string -> N -> N -> result unit;
  DecodeEvidence : ProfileObjectV1 -> result string;
  ValidateEvaluationEvidence : string -> string -> string -> string -> string -> N -> result unit;
  DecodeTransaction : ProfileObjectV1 -> result InstallationTransaction;
  MarshalTransaction : InstallationTransaction -> result string;
  DeriveStableActionID : string -> gmap string SemanticValue -> result string;
  CommerceRequestDigest : string -> result string;
  ValidateUseBindingShape : UseBinding -> bool -> result unit;
  DecodeLease : ProfileObjectV1 -> result UseLease;
  ValidateUseLease : UseLease -> N -> N -> N -> N -> result unit;
  ValidateLeaseBinding : UseLease -> UseBinding -> string -> result unit;
  DecodeOutcome : ProfileObjectV1 -> result OutcomeEvidence;
  ValidateActionOutcomeEvidence : OutcomeEvidence -> N -> result unit
}.

(** [json.Marshal] of a state. *)
Class StateJSON := { json_state : DurableState -> string }.

(** The rollback-resistant linearization service ([MonotonicAuthorityStore] and
    [CapabilityAcquisitionControl]): its state, what the network does to a call,
    and its three calls. The last argument of an advance is the acquisition
    state it sets, if any. *)
Class MonotonicAuthority := {
  authority : Type;
  reply : Type;
  Read : reply -> authority -> string -> result (N * string);
  Check : reply -> authority -> string -> N -> string -> authority * result unit;
  CompareAndAdvance :
    reply -> authority -> string -> N -> N -> string -> option bool -> authority * result unit
}.

(** What it promises: it holds one revision and commitment for each scope; a
    check and an advance that are acknowledged hold of it; a call that fails
    may have taken effect, but only the effect it asked for. *)
Class MonotonicLaws `{MonotonicAuthority} := {
  held : authority -> string -> option (N * string);
  read_exact r a scope revision commitment :
    Read r a scope = Ok (revision, commitment) ->
    default (0, ""%string) (held a scope) = (revision, commitment);
  check_exact r a scope revision commitment a' res :
    Check r a scope revision commitment = (a', res) ->
    (held a' scope = held a scope \/
     (held a scope = None /\ revision = 0 /\ held a' scope = Some (0, commitment))) /\
    (res = Ok tt -> held a' scope = Some (revision, commitment));
  advance_exact r a scope prior next commitment accepting a' res :
    CompareAndAdvance r a scope prior next commitment accepting = (a', res) ->
    (held a' scope = held a scope \/
     ((default (0, ""%string) (held a scope)).1 = prior /\ held a' scope = Some (next, commitment))) /\
    (res = Ok tt ->
     (default (0, ""%string) (held a scope)).1 = prior /\ held a' scope = Some (next, commitment))
}.

End CapTypes.
