(* ===== verification/CapStore.v ===== *)
(** * Capability control: the durable store

    src/pkg/capabilitycontrol/store.go: the state file, the pending file and the
    external authority that numbers and fixes every state, the commit that moves
    all three, and the reconciliation that finishes an interrupted one. A crash
    is a call that fails without effect, followed by a reopening. *)

From S2P Require Import Prelude GoLib GoText FileStore Ledger Protocol CapTypes.
#[local] Open Scope N_scope.

Module CapStore.
Import CapTypes.

Section store.
Context {SHA : Sha256} {SJ : StateJSON} {MA : MonotonicAuthority}.

(** What survives the process. *)
Record disk := {
  dk_file : file_state DurableState;               (* control-state.json *)
  dk_pending : file_state pendingAuthorityCommit;  (* control-state.pending.json *)
  dk_authority : authority
}.

(** [Store] of a production deployment: every collaborator is configured. *)
Record Store := {
  cs_state : DurableState;
  cs_lock : bool;
  cs_disk : disk
}.

(** What happens to the calls of one commit. *)
Record commit_env := {
  ce_stat_fails : bool;                 (* os.Stat fails otherwise than by absence *)
  ce_pending_io : write_step -> bool;   (* WriteFileAtomic of the pending file *)
  ce_advance : reply;
  ce_state_io : write_step -> bool;     (* WriteFileAtomic of the state file *)
  ce_remove_fails : bool;               (* os.Remove of the pending file *)
  ce_sync_fails : bool;                 (* opening or syncing the directory *)
  ce_reload_fails : bool                (* os.ReadFile of the state file *)
}.

(** ** Commitments *)

(** [sha256Bytes]: each field followed by a zero byte. *)
Definition sha256Bytes (fields : list string) : string :=
  sha256_Sum256 (foldr (fun f acc => f +:+ sep 0 +:+ acc) ""%string fields).

Definition monotonicScopeLocked (state : DurableState) : string :=
  sha256Bytes ["trusted-capability-control"%string; sep (ds_DomainKind state); ds_DomainID state; ds_OwnerID state;
               ds_AgentID state; ds_InstallationID state].

Definition stateCommitment (state : DurableState) : string := sha256_Sum256 (json_state state).

Definition stateCommitmentLocked (state : DurableState) (revision : N) : string :=
  stateCommitment (set_ds_MonotonicRevision revision state).

(** ** Files *)

Definition with_state (state : DurableState) (s : Store) : Store :=
  {| cs_state := state; cs_lock := cs_lock s; cs_disk := cs_disk s |}.
Definition with_disk (d : disk) (s : Store) : Store :=
  {| cs_state := cs_state s; cs_lock := cs_lock s; cs_disk := d |}.
Definition with_file (file : file_state DurableState) (d : disk) : disk :=
  {| dk_file := file; dk_pending := dk_pending d; dk_authority := dk_authority d |}.
Definition with_pending (file : file_state pendingAuthorityCommit) (d : disk) : disk :=
  {| dk_file := dk_file d; dk_pending := file; dk_authority := dk_authority d |}.
Definition with_authority (a : authority) (d : disk) : disk :=
  {| dk_file := dk_file d; dk_pending := dk_pending d; dk_authority := a |}.

(** The source ignores the error of a reload: memory then stays as it is. *)
Definition reloadLocked (fails : bool) (s : Store) : Store :=
  if fails then s
  else match dk_file (cs_disk s) with FileDoc d => with_state d s | _ => s end.

Definition persistLocked (ce : commit_env) (s : Store) : Store * result unit :=
  if negb (cs_lock s)
  then (reloadLocked (ce_reload_fails ce) s, Err "capability control store is closed or unfenced")
  else
    let out := WriteFileAtomic (ce_state_io ce) (cs_state s) (dk_file (cs_disk s)) in
    let s := with_disk (with_file (wo_file out) (cs_disk s)) s in
    match wo_result out with
    | Err m => (reloadLocked (ce_reload_fails ce) s, Err m)
    | Ok _ => (s, Ok tt)
    end.

Definition persistPendingLocked (ce : commit_env) (pending : pendingAuthorityCommit) (d : disk) : disk * result unit :=
  let out := WriteFileAtomic (ce_pending_io ce) pending (dk_pending d) in
  (with_pending (wo_file out) d, wo_result out).

Definition clearPendingLocked (ce : commit_env) (s : Store) : Store * result unit :=
  if ce_remove_fails ce then (s, Err "remove pending")
  else
    let s := with_disk (with_pending FileAbsent (cs_disk s)) s in
    if ce_sync_fails ce then (s, Err "sync directory") else (s, Ok tt).

Definition advancePendingAuthorityLocked (ce : commit_env) (pending : pendingAuthorityCommit) (s : Store)
    : Store * result unit :=
  let '(a, r) := CompareAndAdvance (ce_advance ce) (dk_authority (cs_disk s)) (monotonicScopeLocked (cs_state s))
                   (pa_PriorRevision pending) (pa_NextRevision pending) (pa_Commitment pending)
                   (pa_AcquisitionAccepting pending) in
  (with_disk (with_authority a (cs_disk s)) s, r).

(** ** The commit *)

Definition pending_exists (d : disk) : bool :=
  match dk_pending d with FileAbsent => false | _ => true end.

(** The state a commit writes: the same with the next revision. *)
Definition next_state (state : DurableState) : DurableState :=
  set_ds_MonotonicRevision (add64w (ds_MonotonicRevision state) 1) state.

Definition pending_of (state : DurableState) (accepting : option bool) : pendingAuthorityCommit :=
  {| pa_SchemaVersion := 1; pa_PriorRevision := ds_MonotonicRevision state;
     pa_NextRevision := add64w (ds_MonotonicRevision state) 1; pa_Commitment := stateCommitment (next_state state);
     pa_NextState := next_state state; pa_AcquisitionAccepting := accepting |}.

Definition commitAuthorityWithAcquisitionLocked (ce : commit_env) (accepting : option bool) (s : Store)
    : Store * result unit :=
  let reload := reloadLocked (ce_reload_fails ce) in
  if ce_stat_fails ce then (s, Err "stat pending")
  else if pending_exists (cs_disk s)
  then (reload s, Err "prior capability authority commit is ambiguous; reopen to reconcile")
  else
    let pending := pending_of (cs_state s) accepting in
    let '(d, r) := persistPendingLocked ce pending (cs_disk s) in
    let s := with_disk d s in
    match r with
    | Err m => (reload s, Err m)
    | Ok _ =>
        let '(s, r) := advancePendingAuthorityLocked ce pending s in
        match r with
        | Err m => (reload s, Err m)
        | Ok _ =>
            let s := with_state (next_state (cs_state s)) s in
            let '(s, r) := persistLocked ce s in
            match r with
            | Err m => (s, Err m)
            | Ok _ => clearPendingLocked ce s
            end
        end
    end.

Definition commitAuthorityLocked (ce : commit_env) : Store -> Store * result unit :=
  commitAuthorityWithAcquisitionLocked ce None.

(** A production store always has its authority. *)
Definition commitProjectionLocked (ce : commit_env) : Store -> Store * result unit := commitAuthorityLocked ce.

(** ** Opening *)

Record open_env := {
  op_prepare : result unit;      (* MkdirAll, prepareObjectStore, acquireStateLock *)
  op_genesis : commit_env;       (* the first persist *)
  op_check : reply;
  op_read : reply;
  op_commit : commit_env         (* the calls of the reconciliation *)
}.

Definition checkMonotonicLocked (r : reply) (s : Store) : Store * result unit :=
  let '(a, res) := Check r (dk_authority (cs_disk s)) (monotonicScopeLocked (cs_state s))
                     (ds_MonotonicRevision (cs_state s))
                     (stateCommitmentLocked (cs_state s) (ds_MonotonicRevision (cs_state s))) in
  (with_disk (with_authority a (cs_disk s)) s, res).

Definition pending_consistent (pending : pendingAuthorityCommit) (state : DurableState) : bool :=
  (pa_SchemaVersion pending =? 1) && (pa_NextRevision pending =? add64w (pa_PriorRevision pending) 1)
  && (ds_MonotonicRevision (pa_NextState pending) =? pa_NextRevision pending)
  && negb (ds_MonotonicRevision state <? pa_PriorRevision pending)
  && negb (pa_NextRevision pending <? ds_MonotonicRevision state).

(** The end of a reconciliation: adopt the pending state. *)
Definition adopt (ce : commit_env) (pending : pendingAuthorityCommit) (s : Store) : Store * result unit :=
  let s := with_state (pa_NextState pending) s in
  let '(s, r) := persistLocked ce s in
  match r with
  | Err m => (s, Err m)
  | Ok _ => clearPendingLocked ce s
  end.

Definition reconcileMonotonicLocked (e : open_env) (s : Store) : Store * result unit :=
  match dk_pending (cs_disk s) with
  | FileAbsent => checkMonotonicLocked (op_check e) s
  | FileUnreadable => (s, Err "read pending")
  | FileUndecodable => (s, Err "pending capability authority transition is corrupt or inconsistent")
  | FileDoc pending =>
      if negb (pending_consistent pending (cs_state s))
      then (s, Err "pending capability authority transition is corrupt or inconsistent")
      else if negb (bool_decide (stateCommitment (pa_NextState pending) = pa_Commitment pending))
      then (s, Err "pending capability authority commitment mismatch")
      else
        match Read (op_read e) (dk_authority (cs_disk s)) (monotonicScopeLocked (cs_state s)) with
        | Err m => (s, Err m)
        | Ok (revision, commitment) =>
            if (revision =? pa_PriorRevision pending)
               && (ds_MonotonicRevision (cs_state s) =? pa_PriorRevision pending)
            then
              let '(s, r) := advancePendingAuthorityLocked (op_commit e) pending s in
              match r with
              | Err m => (s, Err m)
              | Ok _ => adopt (op_commit e) pending s
              end
            else if (revision =? pa_NextRevision pending) && bool_decide (commitment = pa_Commitment pending)
            then adopt (op_commit e) pending s
            else (s, Err "pending capability authority transition conflicts with external high-water")
        end
  end.

(** The deployment a store is opened for. *)
Record deployment := {
  dp_DomainKind : N;
  dp_DomainID : string;
  dp_OwnerID : string;
  dp_AgentID : string
}.

Definition initial_state (dp : deployment) (installation : string) : DurableState :=
  {| ds_SchemaVersion := 1; ds_Initialized := false; ds_DomainKind := dp_DomainKind dp; ds_DomainID := dp_DomainID dp;
     ds_InstallationID := installation; ds_DeploymentFormatEpoch := 1; ds_OwnerID := dp_OwnerID dp;
     ds_AgentID := dp_AgentID dp; ds_AuthorityEpoch := 0; ds_PolicyRevision := 0; ds_PolicyDigest := "";
     ds_CapabilityPolicyDigest := ""; ds_PromotionSeparationPolicyDigest := ""; ds_AuthorizedSubjects := ∅;
     ds_AuthorityControllers := ∅; ds_AuthorityHeads := ∅; ds_InventoryRevision := 1; ds_SourceGeneration := 1;
     ds_ControlScopeGeneration := 1; ds_OwnerPaused := false; ds_DeletionGeneration := 0; ds_MonotonicRevision := 0;
     ds_TrustedTimeHighWater := 0; ds_TrustedTimeEpochHighWater := 0; ds_GenesisCeremonyDigest := "";
     ds_BootstrapNonce := ""; ds_Entries := ∅; ds_UseSlots := ∅; ds_Tombstones := ∅; ds_InstallationSlots := ∅;
     ds_PortfolioRevision := 1; ds_DeviceSessions := ∅; ds_OwnerExit := None; ds_OwnerCommandActions := ∅;
     ds_MCPToolActions := ∅ |}.

Definition state_identifies (dp : deployment) (state : DurableState) : bool :=
  (ds_SchemaVersion state =? 1) && (ds_DomainKind state =? dp_DomainKind dp)
  && bool_decide (ds_DomainID state = dp_DomainID dp) && bool_decide (ds_OwnerID state = dp_OwnerID dp)
  && bool_decide (ds_AgentID state = dp_AgentID dp) && (slen (ds_InstallationID state) =? 16)
  && negb (ds_DeploymentFormatEpoch state <? 1) && negb (ds_InventoryRevision state =? 0)
  && negb (ds_SourceGeneration state =? 0) && negb (ds_ControlScopeGeneration state =? 0)
  && negb (ds_PortfolioRevision state =? 0).

(** [openInDomainWithInstallation] with the identity the authority assigned. *)
Definition openInDomainWithInstallation (dp : deployment) (e : open_env) (installation : string) (d : disk)
    : disk * result Store :=
  if bool_decide (dp_OwnerID dp = ""%string) || bool_decide (dp_AgentID dp = ""%string)
  then (d, Err "capability control root, owner, and Agent are required")
  else
    match op_prepare e with
    | Err m => (d, Err m)
    | Ok _ =>
        let reconciled (s : Store) :=
          let '(s, r) := reconcileMonotonicLocked e s in
          (cs_disk s, let? _ := r in Ok s) in
        match dk_file d with
        | FileAbsent =>
            let s := {| cs_state := initial_state dp installation; cs_lock := true; cs_disk := d |} in
            let '(s, r) := persistLocked (op_genesis e) s in
            match r with
            | Err m => (cs_disk s, Err m)
            | Ok _ => reconciled s
            end
        | FileUnreadable => (d, Err "read capability control state")
        | FileUndecodable => (d, Err "decode capability control state")
        | FileDoc state =>
            if negb (state_identifies dp state)
            then (d, Err "capability control state identity or epoch mismatch")
            else if negb (bool_decide (ds_InstallationID state = installation))
            then (d, Err "local projection belongs to a different external installation identity")
            else reconciled {| cs_state := state; cs_lock := true; cs_disk := d |}
        end
    end.

(** [resolved] is the authority's answer about the installation identity. *)
Definition OpenProductionInDomain (dp : deployment) (e : open_env) (resolved : result string) (d : disk)
    : disk * result Store :=
  match resolved with
  | Ok installation =>
      if slen installation =? 16 then openInDomainWithInstallation dp e installation d
      else (d, Err "stable external installation identity is unavailable")
  | Err _ => (d, Err "stable external installation identity is unavailable")
  end.

Definition Close (s : Store) : Store :=
  {| cs_state := cs_state s; cs_lock := false; cs_disk := cs_disk s |}.

End store.

(** ** The history interface

    What an operation may do to the state is the components' business; the
    commit only needs an order it moves along, which fixes the scope and does
    not look at the revision. *)
Class StateHistory `{SHA : Sha256} := {
  st_le : DurableState -> DurableState -> Prop;
  st_le_preorder :: PreOrder st_le;
  st_le_scope x y : st_le x y -> monotonicScopeLocked y = monotonicScopeLocked x;
  st_le_revision x revision : st_le x (set_ds_MonotonicRevision revision x)
}.

Section invariant.
Context {SHA : Sha256} {SJ : StateJSON} {MA : MonotonicAuthority} {ML : MonotonicLaws} {SH : StateHistory}.
Implicit Types (d : disk) (s : Store) (x y : DurableState).

(** The authority holds the commitment of a state, or has never seen the scope
    of one that was never committed. *)
Definition anchored (a : authority) x : Prop :=
  held a (monotonicScopeLocked x) = Some (ds_MonotonicRevision x, stateCommitment x) \/
  (held a (monotonicScopeLocked x) = None /\ ds_MonotonicRevision x = 0).

Definition anchored_at (a : authority) x (p : pendingAuthorityCommit) : Prop :=
  held a (monotonicScopeLocked x) = Some (pa_NextRevision p, pa_Commitment p).

(** A pending file as a commit writes it. *)
Record pending_wf (p : pendingAuthorityCommit) : Prop := {
  pw_schema : pa_SchemaVersion p = 1;
  pw_next : pa_NextRevision p = add64w (pa_PriorRevision p) 1;
  pw_revision : ds_MonotonicRevision (pa_NextState p) = pa_NextRevision p;
  pw_commitment : stateCommitment (pa_NextState p) = pa_Commitment p
}.

(** The disk holds [x]: nothing is pending; or a successor is prepared, which
    the authority may have accepted; or the accepted successor is in place and
    only the pending file is left. *)
Inductive disk_ok d x : Prop :=
| disk_settled : dk_file d = FileDoc x -> dk_pending d = FileAbsent -> anchored (dk_authority d) x -> disk_ok d x
| disk_prepared p :
    dk_file d = FileDoc x -> dk_pending d = FileDoc p -> pending_wf p ->
    pa_PriorRevision p = ds_MonotonicRevision x -> st_le x (pa_NextState p) ->
    anchored (dk_authority d) x \/ anchored_at (dk_authority d) x p -> disk_ok d x
| disk_adopted p :
    dk_file d = FileDoc x -> dk_pending d = FileDoc p -> pending_wf p ->
    pa_NextState p = x -> anchored_at (dk_authority d) x p -> disk_ok d x.

(** Memory is the stored state or ahead of it. *)
Record store_ok s x : Prop := {
  so_disk : disk_ok (cs_disk s) x;
  so_memory : st_le x (cs_state s);
  so_revision : dk_pending (cs_disk s) = FileAbsent -> ds_MonotonicRevision (cs_state s) = ds_MonotonicRevision x
}.

Lemma disk_ok_file d x : disk_ok d x -> dk_file d = FileDoc x.
Proof. by intros []. Qed.

Lemma set_revision_same x : set_ds_MonotonicRevision (ds_MonotonicRevision x) x = x.
Proof. by destruct x. Qed.

Lemma add64w_succ_neq n : is_u64 n -> add64w n 1 <> n.
Proof.
  unfold is_u64, add64w, u64, MaxUint64. intros H E. destruct (N.eq_dec n 18446744073709551615) as [->|Hne].
  - by vm_compute in E.
  - rewrite N.mod_small in E by lia. lia.
Qed.

Lemma pending_of_wf x accepting : pending_wf (pending_of x accepting).
Proof. by split. Qed.

Lemma reload_ok fails s x : disk_ok (cs_disk s) x -> st_le x (cs_state s) ->
  (dk_pending (cs_disk s) = FileAbsent -> ds_MonotonicRevision (cs_state s) = ds_MonotonicRevision x) ->
  store_ok (reloadLocked fails s) x.
Proof.
  intros Hd Hle Hr. unfold reloadLocked. destruct fails; [by split|]. rewrite (disk_ok_file _ _ Hd).
  by split; cbn; [done|reflexivity|].
Qed.

(** Writing memory over the stored state of which it is the adopted successor. *)
Lemma persist_adopts ce s x p s' r :
  dk_file (cs_disk s) = FileDoc x -> dk_pending (cs_disk s) = FileDoc p -> pending_wf p ->
  cs_state s = pa_NextState p -> st_le x (cs_state s) -> anchored_at (dk_authority (cs_disk s)) x p ->
  pa_PriorRevision p = ds_MonotonicRevision x \/ pa_NextState p = x ->
  persistLocked ce s = (s', r) ->
  exists y, store_ok s' y /\ st_le x y /\
    (r = Ok tt -> y = pa_NextState p /\ cs_state s' = y /\ dk_pending (cs_disk s') = FileDoc p /\
                  anchored_at (dk_authority (cs_disk s')) y p).
Proof.
  intros Hf Hp Hwf Hs Hle Ha Hx.
  assert (disk_ok (cs_disk s) x) as Hd by (destruct Hx; [eapply disk_prepared; eauto; congruence|by eapply disk_adopted]).
  assert (dk_pending (cs_disk s) = FileAbsent -> ds_MonotonicRevision (cs_state s) = ds_MonotonicRevision x) as Hr
    by (rewrite Hp; done).
  unfold persistLocked. destruct (cs_lock s); cbn [negb].
  - destruct (WriteFileAtomic_atomic (ce_state_io ce) (cs_state s) (dk_file (cs_disk s))) as [Hw Hok].
    set (out := WriteFileAtomic _ _ _) in *.
    assert (anchored_at (dk_authority (cs_disk s)) (cs_state s) p) as Ha'
      by (unfold anchored_at; by rewrite (st_le_scope _ _ Hle)).
    assert (disk_ok (with_file (FileDoc (cs_state s)) (cs_disk s)) (cs_state s)) as Hadopted
      by by eapply (disk_adopted _ _ p).
    destruct (wo_result out) as [[]|m] eqn:Er; intros [= <- <-].
    + destruct (Hok eq_refl) as [Hfile _]. rewrite Hfile. exists (cs_state s). split_and!.
      * split; cbn; [done|reflexivity|done].
      * done.
      * intros _. by split_and!.
    + destruct Hw as [Hw|Hw]; rewrite Hw.
      * exists x. split_and!; [|reflexivity|done].
        replace (with_file (dk_file (cs_disk s)) (cs_disk s)) with (cs_disk s) by by destruct (cs_disk s).
        by apply reload_ok.
      * exists (cs_state s). split_and!; [|done|done]. apply reload_ok; cbn; [done|reflexivity|done].
  - intros [= <- <-]. exists x. split_and!; [by apply reload_ok|reflexivity|done].
Qed.

(** Removing the pending file of an adopted state. *)
Lemma clear_settles ce s y p s' r :
  disk_ok (cs_disk s) y -> cs_state s = y -> dk_pending (cs_disk s) = FileDoc p -> pa_NextState p = y ->
  pending_wf p -> anchored_at (dk_authority (cs_disk s)) y p ->
  clearPendingLocked ce s = (s', r) ->
  store_ok s' y /\ cs_state s' = y /\ (r = Ok tt -> dk_pending (cs_disk s') = FileAbsent).
Proof.
  intros Hd Hs Hp Hy Hwf Ha. unfold clearPendingLocked.
  destruct (ce_remove_fails ce); [intros [= <- <-]; split_and!; [|done|done]; split; [done|by rewrite Hs|by rewrite Hp]|].
  intros Hc. assert (s' = with_disk (with_pending FileAbsent (cs_disk s)) s) as -> by (by destruct (ce_sync_fails ce); injection Hc as <-).
  split_and!; [|done|done]. split; cbn.
  - apply disk_settled; cbn; [by apply disk_ok_file|done|]. left. unfold anchored_at in Ha. rewrite Ha. f_equal.
    destruct Hwf. congruence.
  - by rewrite Hs.
  - by rewrite Hs.
Qed.

(** Writing the adopted state and clearing the pending file. *)
Lemma adopt_ok ce s x p s' r :
  dk_file (cs_disk s) = FileDoc x -> dk_pending (cs_disk s) = FileDoc p -> pending_wf p ->
  st_le x (pa_NextState p) -> anchored_at (dk_authority (cs_disk s)) x p ->
  pa_PriorRevision p = ds_MonotonicRevision x \/ pa_NextState p = x ->
  adopt ce p s = (s', r) ->
  exists y, store_ok s' y /\ st_le x y /\
    (r = Ok tt -> y = pa_NextState p /\ cs_state s' = y /\ dk_pending (cs_disk s') = FileAbsent).
Proof.
  intros Hf Hp Hwf Hle Ha Hx. unfold adopt.
  destruct (persistLocked ce (with_state (pa_NextState p) s)) as [s1 r1] eqn:E.
  apply (persist_adopts ce _ x p) in E; try done. destruct E as (y & Hok & Hxy & Hr).
  destruct r1 as [[]|m]; [|intros [= <- <-]; by exists y].
  destruct (Hr eq_refl) as (Hy & Hs1 & Hp1 & Ha1). intros Hc.
  apply (clear_settles ce s1 y p) in Hc; try done; [|apply (so_disk _ _ Hok)].
  destruct Hc as (Hok' & Hs' & Hpend). exists y. split_and!; [done|done|]. intros Hr'. split_and!; auto.
Qed.

(** ** The commit is atomic

    Whatever fails in it, the store keeps its invariant and the stored state
    moves along the order; when it reports success, the stored state and memory
    are the state it was asked to store, with the next revision. *)
Lemma commit_ok ce accepting s x s' r :
  store_ok s x -> commitAuthorityWithAcquisitionLocked ce accepting s = (s', r) ->
  exists y, store_ok s' y /\ st_le x y /\
    (r = Ok tt -> y = next_state (cs_state s) /\ cs_state s' = y /\ dk_pending (cs_disk s') = FileAbsent).
Proof.
  intros Hs. pose proof Hs as [Hd Hle Hrev]. unfold commitAuthorityWithAcquisitionLocked.
  destruct (ce_stat_fails ce); [intros [= <- <-]; exists x; by split_and!|].
  destruct (pending_exists (cs_disk s)) eqn:Hpe.
  { intros [= <- <-]. exists x. split_and!; [by apply reload_ok|reflexivity|done]. }
  assert (dk_pending (cs_disk s) = FileAbsent) as Hpa by (unfold pending_exists in Hpe; by destruct (dk_pending _)).
  assert (anchored (dk_authority (cs_disk s)) x) as Hanch by (destruct Hd; congruence).
  pose proof (disk_ok_file _ _ Hd) as Hfile. specialize (Hrev Hpa).
  set (p := pending_of (cs_state s) accepting). unfold persistPendingLocked.
  destruct (WriteFileAtomic_atomic (ce_pending_io ce) p (dk_pending (cs_disk s))) as [Hw Hok].
  set (out := WriteFileAtomic _ _ _) in *.
  assert (pending_wf p) as Hwf by apply pending_of_wf.
  assert (st_le x (pa_NextState p)) as Hlep by (etransitivity; [exact Hle|apply st_le_revision]).
  assert (forall a, anchored a x \/ anchored_at a x p ->
            disk_ok (with_authority a (with_pending (FileDoc p) (cs_disk s))) x) as Hprep
    by (intros a Ha; by eapply (disk_prepared _ _ p)).
  destruct (wo_result out) as [[]|m] eqn:Er; cycle 1.
  { intros [= <- <-]. exists x. split_and!; [|reflexivity|done]. apply reload_ok; [|done|].
    - cbn. destruct Hw as [-> | ->].
      + by apply disk_settled.
      + apply (Hprep (dk_authority (cs_disk s))). by left.
    - done. }
  destruct (Hok eq_refl) as [Hpend _]. rewrite Hpend. unfold advancePendingAuthorityLocked. cbn [cs_disk with_disk dk_authority with_pending cs_state].
  destruct (CompareAndAdvance _ _ _ _ _ _ _) as [a ra] eqn:Ea. apply advance_exact in Ea as [Heff Hack].
  rewrite (st_le_scope _ _ Hle) in Heff, Hack.
  assert (anchored a x \/ anchored_at a x p) as Ha'.
  { destruct Heff as [Heff|[_ Heff]]; [left|by right]. unfold anchored. by rewrite Heff. }
  destruct ra as [[]|m]; cycle 1.
  { intros [= <- <-]. exists x. split_and!; [|reflexivity|done]. apply reload_ok; [by apply Hprep|done|done]. }
  destruct (Hack eq_refl) as [_ Hheld]. intros Hc.
  apply (adopt_ok ce (with_disk (with_authority a (with_pending (FileDoc p) (cs_disk s))) s) x p) in Hc; try done.
  left. cbn. by rewrite Hrev.
Qed.

(** ** Reconciliation *)

Lemma store_reconcile_ok e s x s' r :
  disk_ok (cs_disk s) x -> cs_state s = x -> reconcileMonotonicLocked e s = (s', r) ->
  exists y, disk_ok (cs_disk s') y /\ st_le x y /\
    (r = Ok tt -> store_ok s' y /\ cs_state s' = y /\ dk_pending (cs_disk s') = FileAbsent).
Proof.
  intros Hd Hs. pose proof (disk_ok_file _ _ Hd) as Hf. unfold reconcileMonotonicLocked.
  assert (forall m, (s, Err m : result unit) = (s', r) ->
    exists y, disk_ok (cs_disk s') y /\ st_le x y /\
      (r = Ok tt -> store_ok s' y /\ cs_state s' = y /\ dk_pending (cs_disk s') = FileAbsent)) as Hfail
    by (intros m [= <- <-]; exists x; split_and!; done || reflexivity).
  destruct (dk_pending (cs_disk s)) as [| | |p] eqn:Hp; [|by apply Hfail..|].
  - unfold checkMonotonicLocked, stateCommitmentLocked. rewrite set_revision_same, Hs.
    destruct (Check _ _ _ _ _) as [a res] eqn:Ec. apply check_exact in Ec as [Heff Hok].
    intros [= <- <-]. exists x.
    assert (disk_ok (with_authority a (cs_disk s)) x) as Hd'.
    { apply disk_settled; [done|done|]. cbn. unfold anchored.
      destruct Heff as [-> |(_ & Hz & Heff)]; [destruct Hd; congruence || done|]. left. rewrite Heff. by rewrite Hz. }
    split_and!; [done|reflexivity|]. intros _. split_and!; [|done|done]. by split; cbn; [|rewrite Hs|rewrite Hs].
  - destruct (negb (pending_consistent p (cs_state s))) eqn:Hc; [by apply Hfail|].
    destruct (negb (bool_decide _)) eqn:Hcom; [by apply Hfail|]. bprop.
    destruct (Read _ _ _) as [[revision commitment]|m] eqn:Er; [|by apply Hfail].
    apply read_exact in Er. rewrite Hs in Er. unfold pending_consistent in Hc. bprop.
    assert (pending_wf p) as Hwf by by split.
    assert (forall s0, dk_file (cs_disk s0) = FileDoc x -> dk_pending (cs_disk s0) = FileDoc p ->
      anchored_at (dk_authority (cs_disk s0)) x p -> adopt (op_commit e) p s0 = (s', r) ->
      exists y, disk_ok (cs_disk s') y /\ st_le x y /\
        (r = Ok tt -> store_ok s' y /\ cs_state s' = y /\ dk_pending (cs_disk s') = FileAbsent)) as Hadopt.
    { intros s0 Hf0 Hp0 Ha0 E.
      assert (st_le x (pa_NextState p) /\ (pa_PriorRevision p = ds_MonotonicRevision x \/ pa_NextState p = x)) as [Hle Hx].
      { destruct Hd as [|p' _ Hp' _ Hprior Hle _|p' _ Hp' _ Hx _]; [congruence|..]; rewrite Hp in Hp'; injection Hp' as <-.
        - split; [done|by left].
        - split; [by rewrite Hx|by right]. }
      apply (adopt_ok _ _ x p) in E; try done. destruct E as (y & Hok & Hxy & Hr). exists y. split_and!; [by apply so_disk|done|].
      intros Hr'. destruct (Hr Hr') as (-> & ? & ?). done. }
    destruct (_ && (ds_MonotonicRevision (cs_state s) =? _)) eqn:Eb; bprop.
    + unfold advancePendingAuthorityLocked. destruct (CompareAndAdvance _ _ _ _ _ _ _) as [a ra] eqn:Ea.
      apply advance_exact in Ea as [Heff Hack]. rewrite Hs in Heff, Hack.
      destruct ra as [[]|m]; cycle 1.
      { intros [= <- <-]. exists x. split_and!; [|reflexivity|done]. cbn.
        destruct Hd as [|p' _ Hp' Hwf' Hprior Hle Ha|p' _ Hp' _ Hx Ha]; [congruence|..]; rewrite Hp in Hp'; injection Hp' as <-.
        - eapply (disk_prepared _ _ p); cbn; try done. unfold anchored, anchored_at in *.
          destruct Heff as [-> |[_ Heff]]; [done|by right].
        - eapply (disk_adopted _ _ p); cbn; try done. unfold anchored_at in *. destruct Heff as [-> |[_ Heff]]; done. }
      destruct (Hack eq_refl) as [_ Hheld]. by apply Hadopt.
    + destruct (_ && bool_decide _) eqn:Eb2; [|by apply Hfail]. bprop. apply Hadopt; [done|done|].
      unfold anchored_at. destruct (held _ _) as [[r0 c0]|] eqn:Eh; cbn in Er; [congruence|]. exfalso.
      destruct Hd as [|p' _ Hp' _ Hprior _ [[Ha|[_ Ha]]|Ha]|p' _ Hp' _ _ Ha]; try congruence; try (unfold anchored_at in Ha; congruence).
      rewrite Hp in Hp'. injection Hp' as <-. injection Er as <- <-.
      match goal with H : pa_NextRevision p = _, H' : 0 = pa_NextRevision p |- _ => rewrite H, Hprior, Ha in H'; done end.
Qed.

Lemma store_open_ok dp e resolved d x d' r :
  disk_ok d x -> OpenProductionInDomain dp e resolved d = (d', r) ->
  exists y, disk_ok d' y /\ st_le x y /\
    (forall s, r = Ok s -> store_ok s y /\ cs_state s = y /\ cs_disk s = d' /\ dk_pending d' = FileAbsent).
Proof.
  intros Hd E. pose proof (disk_ok_file _ _ Hd) as Hf.
  assert (forall m, (d, Err m : result Store) = (d', r) -> exists y, disk_ok d' y /\ st_le x y /\
    (forall s, r = Ok s -> store_ok s y /\ cs_state s = y /\ cs_disk s = d' /\ dk_pending d' = FileAbsent)) as Hfail
    by (intros m [= <- <-]; exists x; split_and!; done || reflexivity).
  unfold OpenProductionInDomain, openInDomainWithInstallation in E. destruct resolved as [inst|m]; [|by eapply Hfail].
  destruct (slen inst =? 16); [|by eapply Hfail]. destruct (_ || _); [by eapply Hfail|].
  destruct (op_prepare e); [|by eapply Hfail]. rewrite Hf in E.
  destruct (negb (state_identifies _ _)); [by eapply Hfail|]. destruct (negb (bool_decide _)); [by eapply Hfail|].
  destruct (reconcileMonotonicLocked e _) as [s1 r1] eqn:Er. injection E as <- <-.
  apply (store_reconcile_ok e _ x) in Er as (y & Hy & Hxy & Hok); [|done|done].
  exists y. split_and!; [done|done|]. intros s2 Hs2. destruct r1 as [[]|]; [|done]. injection Hs2 as <-.
  destruct (Hok eq_refl) as (? & ? & ?). by split_and!.
Qed.

(** The scope of a deployment. *)
Definition deployment_scope (dp : deployment) (installation : string) : string :=
  monotonicScopeLocked (initial_state dp installation).

Lemma identifies_scope dp state :
  state_identifies dp state = true -> monotonicScopeLocked state = deployment_scope dp (ds_InstallationID state).
Proof. unfold state_identifies. intros H. bprop. unfold deployment_scope, monotonicScopeLocked. cbn. congruence. Qed.

(** A reconciliation that succeeds, whatever the files held. *)
Lemma reconcile_anchored e s s' :
  dk_file (cs_disk s) = FileDoc (cs_state s) ->
  reconcileMonotonicLocked e s = (s', Ok tt) ->
  let scope := monotonicScopeLocked (cs_state s) in
  let revision := (default (0, ""%string) (held (dk_authority (cs_disk s)) scope)).1 in
  dk_file (cs_disk s') = FileDoc (cs_state s') /\ dk_pending (cs_disk s') = FileAbsent /\
  default (0, ""%string) (held (dk_authority (cs_disk s')) scope) =
    (ds_MonotonicRevision (cs_state s'), stateCommitment (cs_state s')) /\
  (ds_MonotonicRevision (cs_state s') = revision \/ ds_MonotonicRevision (cs_state s') = add64w revision 1).
Proof.
  intros Hf E scope revision. unfold reconcileMonotonicLocked in E.
  destruct (dk_pending (cs_disk s)) as [| | |p] eqn:Hp; [|done|done|].
  - unfold checkMonotonicLocked, stateCommitmentLocked in E. rewrite set_revision_same in E.
    destruct (Check _ _ _ _ _) as [a res] eqn:Ec. apply check_exact in Ec as [Heff Hok]. injection E as <- ->.
    specialize (Hok eq_refl). fold scope in Heff, Hok. cbn. rewrite Hok. split_and!; [done|done|done|]. left.
    subst revision. destruct Heff as [Heff|(-> & Hz & _)]; [|done]. by rewrite <-Heff, Hok.
  - destruct (negb (pending_consistent p (cs_state s))) eqn:Hc; [done|].
    destruct (negb (bool_decide _)) eqn:Hcom; [done|]. bprop. unfold pending_consistent in Hc. bprop.
    assert (forall s0 s1, adopt (op_commit e) p s0 = (s1, Ok tt) ->
      dk_file (cs_disk s1) = FileDoc (pa_NextState p) /\ dk_pending (cs_disk s1) = FileAbsent /\
      cs_state s1 = pa_NextState p /\ dk_authority (cs_disk s1) = dk_authority (cs_disk s0)) as Hadopt.
    { intros s0 s1. unfold adopt, persistLocked. destruct (cs_lock _); cbn [negb]; [|done].
      destruct (WriteFileAtomic_atomic (ce_state_io (op_commit e)) (pa_NextState p) (dk_file (cs_disk s0))) as [_ Hok].
      cbn [cs_state with_state cs_disk]. set (out := WriteFileAtomic _ _ _) in *.
      destruct (wo_result out) as [[]|]; [|done]. destruct (Hok eq_refl) as [Hfile _].
      unfold clearPendingLocked. destruct (ce_remove_fails _); [done|]. destruct (ce_sync_fails _); [done|].
      intros [= <-]. cbn. by rewrite Hfile. }
    destruct (Read _ _ _) as [[rev com]|] eqn:Er; [|done]. apply read_exact in Er. fold scope in Er.
    destruct (_ && (ds_MonotonicRevision (cs_state s) =? _)) eqn:Eb; bprop.
    + unfold advancePendingAuthorityLocked in E. destruct (CompareAndAdvance _ _ _ _ _ _ _) as [a ra] eqn:Ea.
      apply advance_exact in Ea as [_ Hack]. destruct ra as [[]|]; [|done]. destruct (Hack eq_refl) as [Hprior Hheld].
      apply Hadopt in E as (-> & -> & -> & ->). cbn. fold scope in Hheld. rewrite Hheld. cbn. split_and!; [done|done|congruence|].
      right. subst revision. unfold scope. congruence.
    + destruct (_ && bool_decide _) eqn:Eb2; [|done]. bprop. apply Hadopt in E as (-> & -> & -> & ->).
      split_and!; [done|done|congruence|]. left. subst revision. rewrite Er. cbn. congruence.
Qed.

(** C16: A store opens only in a state that the external authority vouches
    for, whatever was done to its files: when an opening succeeds, the opened
    state is on disk, nothing is pending, and the authority holds its revision
    and its commitment; that revision is the one the authority held before or
    the next. A copy of an older state never opens. *)
Theorem cap_no_rollback dp e installation d d' s :
  OpenProductionInDomain dp e (Ok installation) d = (d', Ok s) ->
  let scope := deployment_scope dp installation in
  let revision := (default (0, ""%string) (held (dk_authority d) scope)).1 in
  dk_file d' = FileDoc (cs_state s) /\ dk_pending d' = FileAbsent /\
  default (0, ""%string) (held (dk_authority d') scope) =
    (ds_MonotonicRevision (cs_state s), stateCommitment (cs_state s)) /\
  (ds_MonotonicRevision (cs_state s) = revision \/ ds_MonotonicRevision (cs_state s) = add64w revision 1).
Proof.
  intros E scope revision. unfold OpenProductionInDomain, openInDomainWithInstallation in E.
  destruct (slen installation =? 16); [|done]. destruct (_ || _); [done|]. destruct (op_prepare e); [|done].
  assert (forall s0, dk_authority (cs_disk s0) = dk_authority d -> dk_file (cs_disk s0) = FileDoc (cs_state s0) ->
    monotonicScopeLocked (cs_state s0) = scope ->
    (let '(s, r) := reconcileMonotonicLocked e s0 in (cs_disk s, let? _ := r in Ok s)) = (d', Ok s) ->
    dk_file d' = FileDoc (cs_state s) /\ dk_pending d' = FileAbsent /\
    default (0, ""%string) (held (dk_authority d') scope) =
      (ds_MonotonicRevision (cs_state s), stateCommitment (cs_state s)) /\
    (ds_MonotonicRevision (cs_state s) = revision \/ ds_MonotonicRevision (cs_state s) = add64w revision 1)) as Hmain.
  { intros s0 Ha Hf Hsc H. destruct (reconcileMonotonicLocked e s0) as [s1 r1] eqn:Er.
    destruct r1 as [[]|]; [|done]. injection H as <- <-. apply reconcile_anchored in Er; [|done].
    cbv zeta in Er. rewrite Hsc, Ha in Er. exact Er. }
  destruct (dk_file d) as [| | |state] eqn:Hf; [|done|done|].
  - unfold persistLocked in E. cbn [cs_lock negb cs_state cs_disk] in E.
    destruct (WriteFileAtomic_atomic (ce_state_io (op_genesis e)) (initial_state dp installation) (dk_file d)) as [_ Hok].
    set (out := WriteFileAtomic _ _ _) in *. destruct (wo_result out) as [[]|]; [|done].
    destruct (Hok eq_refl) as [Hfile _]. by apply Hmain in E.
  - destruct (negb (state_identifies _ _)) eqn:Hi; [done|]. destruct (negb (bool_decide _)) eqn:Hin; [done|]. bprop.
    apply Hmain in E; [done|done|done|]. cbn. rewrite (identifies_scope dp) by done. by rewrite Hin.
Qed.

(** ** Recovery *)

(** A network and a service without failures. *)
Class MonotonicReliable := {
  reliable : reply;
  read_reliable a scope : Read reliable a scope = Ok (default (0, ""%string) (held a scope));
  check_reliable a scope revision commitment :
    held a scope = Some (revision, commitment) \/ (held a scope = None /\ revision = 0) ->
    is_ok (Check reliable a scope revision commitment).2 = true;
  advance_reliable a scope prior next commitment accepting :
    (default (0, ""%string) (held a scope)).1 = prior -> next = add64w prior 1 ->
    is_ok (CompareAndAdvance reliable a scope prior next commitment accepting).2 = true
}.

Context {MR : MonotonicReliable}.

Definition commit_good : commit_env :=
  {| ce_stat_fails := false; ce_pending_io := fun _ => false; ce_advance := reliable; ce_state_io := fun _ => false;
     ce_remove_fails := false; ce_sync_fails := false; ce_reload_fails := false |}.

Definition open_good : open_env :=
  {| op_prepare := Ok tt; op_genesis := commit_good; op_check := reliable; op_read := reliable;
     op_commit := commit_good |}.

Lemma adopt_good p s : cs_lock s = true ->
  exists s', adopt commit_good p s = (s', Ok tt) /\ cs_state s' = pa_NextState p.
Proof.
  intros Hl. unfold adopt, persistLocked. cbn [cs_lock with_state]. rewrite Hl. cbn. eexists. by split.
Qed.

Lemma pending_consistent_ok p x :
  pending_wf p -> pa_PriorRevision p < MaxUint64 ->
  pa_PriorRevision p = ds_MonotonicRevision x \/ pa_NextState p = x -> pending_consistent p x = true.
Proof.
  intros [Hs Hn Hr _] Hy Hx. unfold pending_consistent. rewrite Hs, Hn, <-Hn, Hr, !N.eqb_refl. cbn [andb].
  rewrite add64w_exact in Hn by (unfold MaxUint64 in *; lia).
  rewrite !(proj2 (N.ltb_ge _ _)); [done|..]; destruct Hx as [Hx|<-]; lia.
Qed.

(** C34: An interrupted commit never strands the store: from every disk a run
    can leave, once the disk and the authority work again, the store opens. It
    opens in the stored state, or in the successor that was prepared for it and
    that the authority has accepted or accepts now. *)
Theorem cap_recovers dp d x :
  disk_ok d x -> state_identifies dp x = true -> dp_OwnerID dp <> ""%string -> dp_AgentID dp <> ""%string ->
  (forall p, dk_pending d = FileDoc p -> pa_PriorRevision p < MaxUint64) ->
  exists d' s, OpenProductionInDomain dp open_good (Ok (ds_InstallationID x)) d = (d', Ok s) /\
    match dk_pending d with FileDoc p => cs_state s = pa_NextState p | _ => cs_state s = x end.
Proof.
  intros Hd Hi Ho Ha Hy. assert (slen (ds_InstallationID x) = 16) as Hl by (unfold state_identifies in Hi; by bprop).
  unfold OpenProductionInDomain, openInDomainWithInstallation. rewrite Hl, N.eqb_refl, !bool_decide_eq_false_2 by done.
  cbn [orb op_prepare open_good]. rewrite (disk_ok_file _ _ Hd), Hi, bool_decide_eq_true_2 by done. cbn [negb].
  set (s := {| cs_state := x; cs_lock := true; cs_disk := d |}).
  assert (exists s', reconcileMonotonicLocked open_good s = (s', Ok tt) /\
    match dk_pending d with FileDoc p => cs_state s' = pa_NextState p | _ => cs_state s' = x end) as (s' & -> & Hs');
    [|by eexists _, _].
  unfold reconcileMonotonicLocked. cbn [cs_disk cs_state s].
  assert (forall p, dk_pending d = FileDoc p -> pending_wf p ->
    pa_PriorRevision p = ds_MonotonicRevision x \/ pa_NextState p = x ->
    negb (pending_consistent p x) = false /\
    negb (bool_decide (stateCommitment (pa_NextState p) = pa_Commitment p)) = false) as Hc.
  { intros p Hp Hwf Hx. rewrite (pending_consistent_ok p x Hwf (Hy _ Hp) Hx), bool_decide_eq_true_2 by by destruct Hwf.
    done. }
  destruct Hd as [_ Hp Hanch|p _ Hp Hwf Hprior _ Hanch|p _ Hp Hwf Hx Hanch]; rewrite Hp.
  - unfold checkMonotonicLocked, stateCommitmentLocked. cbn [cs_disk cs_state s]. rewrite set_revision_same.
    pose proof (check_reliable (dk_authority d) _ _ _ Hanch) as Hok. cbn [op_check open_good].
    destruct (Check _ _ _ _ _) as [a [[]|]]; [|done]. by eexists.
  - destruct (Hc p Hp Hwf) as [-> ->]; [by left|]. cbn [op_read open_good]. rewrite read_reliable.
    destruct (default (0, ""%string) (held (dk_authority d) (monotonicScopeLocked x))) as [rev com] eqn:Eh.
    destruct Hanch as [Hanch|Hanch].
    + assert (rev = ds_MonotonicRevision x) as -> by (destruct Hanch as [Hanch|[Hanch Hz]]; rewrite Hanch in Eh; cbn in Eh; congruence).
      rewrite Hprior, N.eqb_refl. cbn [andb]. unfold advancePendingAuthorityLocked. cbn [cs_disk cs_state s].
      pose proof (advance_reliable (dk_authority d) (monotonicScopeLocked x) (pa_PriorRevision p) (pa_NextRevision p)
                    (pa_Commitment p) (pa_AcquisitionAccepting p)) as Hok.
      rewrite Eh, Hprior in Hok. specialize (Hok eq_refl ltac:(destruct Hwf; congruence)).
      cbn [ce_advance op_commit open_good commit_good]. rewrite Hprior.
      destruct (CompareAndAdvance _ _ _ _ _ _ _) as [a [[]|]]; [|done]. by apply adopt_good.
    + unfold anchored_at in Hanch. rewrite Hanch in Eh. injection Eh as <- <-.
      assert (pa_NextRevision p <> pa_PriorRevision p) as Hne.
      { destruct Hwf as [_ -> _ _]. apply add64w_succ_neq. unfold is_u64. specialize (Hy _ Hp). lia. }
      rewrite (proj2 (N.eqb_neq _ _) Hne), N.eqb_refl, bool_decide_eq_true_2 by done. cbn [andb]. by apply adopt_good.
  - destruct (Hc p Hp Hwf) as [-> ->]; [by right|]. cbn [op_read open_good]. rewrite read_reliable.
    unfold anchored_at in Hanch. rewrite Hanch. cbn [default].
    assert (pa_NextRevision p <> pa_PriorRevision p) as Hne.
    { destruct Hwf as [_ -> _ _]. apply add64w_succ_neq. unfold is_u64. specialize (Hy _ Hp). lia. }
    unfold id. rewrite (proj2 (N.eqb_neq _ _) Hne), N.eqb_refl, bool_decide_eq_true_2 by done. cbn [andb]. by apply adopt_good.
Qed.

End invariant.

End CapStore.
