(* ===== verification/CapOps.v ===== *)
(** * Capability control: lifecycle operations

    The operations of store.go, publisher.go, gate.go, mcp_action.go and
    action_outcome.go (src/pkg/capabilitycontrol) on the store of CapStore.v:
    the owner's trust root, quarantine, verification, admission, promotion,
    installation, the gate in front of every execution and its resolution. Each
    runs under the store's mutex; its calls to the clock, the publisher
    authority, the file tree and the random source are one environment. The
    commits of one operation are numbered: 0 is that of the trusted clock. *)

From S2P Require Import Prelude GoLib GoText FileStore Ledger Protocol CapTypes CapStore.
#[local] Open Scope N_scope.

Module CapOps.
Import CapTypes CapStore.

Definition is_none {A} (o : option A) : bool := match o with None => true | Some _ => false end.

(** [bytes.Equal] and its negation. *)
Definition same (a b : string) : bool := bool_decide (a = b).
Definition differ (a b : string) : bool := negb (same a b).
(** [len(x) != sha256.Size] *)
Definition no_digest (x : string) : bool := negb (slen x =? 32).

Fixpoint traverse {A B} (f : A -> result B) (l : list A) : result (list B) :=
  match l with
  | [] => Ok []
  | x :: rest => let? y := f x in let? ys := traverse f rest in Ok (y :: ys)
  end.

Section operations.
Context {TC : TrustedCapability} {SHA : Sha256} {SJ : StateJSON} {MA : MonotonicAuthority}.

Record op_env := {
  ev_now : option Z;                                        (* clock.Now, in nanoseconds *)
  ev_commit : nat -> commit_env;
  ev_observations : result (list PublisherObservation);     (* CurrentPublisherObservations *)
  ev_sources : result (list string);                        (* RequiredPublisherSources *)
  ev_manifest : string -> result string;                    (* BuildContentManifest: the closure root *)
  ev_clean : string -> string;                              (* filepath.Clean *)
  ev_install : InstallationTransaction -> result unit;      (* VerifyCapabilityInstallation *)
  ev_target : string -> string;                             (* filepath.Join(root, "objects", key) *)
  ev_copy : result unit;                                    (* copyTreeNoFollow *)
  ev_seal : result unit;                                    (* sealTreeReadOnly *)
  ev_random : option string;
  ev_time : result TrustedTimeEvidenceObservation           (* ObserveTrustedTime of the clock *)
}.

(** ** A state and error monad over the store *)

Definition M (A : Type) : Type := Store -> Store * result A.
Definition ret {A} (a : A) : M A := fun s => (s, Ok a).
Definition raise {A} (msg : string) : M A := fun s => (s, Err msg).
Definition bind {A B} (c : M A) (k : A -> M B) : M B :=
  fun s => let '(s1, r) := c s in match r with Ok a => k a s1 | Err m => (s1, Err m) end.
(** The state in memory, a change of it, a pure call, a commit. *)
Definition reading {A} (k : DurableState -> M A) : M A := fun s => k (cs_state s) s.
Definition modify (f : DurableState -> DurableState) : M unit :=
  fun s => (with_state (f (cs_state s)) s, Ok tt).
Definition pure {A} (r : result A) : M A := fun s => (s, r).
Definition commit (ce : commit_env) : M unit := commitAuthorityLocked ce.

End operations.

Notation "'do' x <- c ; k" := (bind c (fun x => k))
  (at level 10, x pattern, c at level 100, k at level 200) : go_scope.
Notation "'with' x ; k" := (reading (fun x => k))
  (at level 10, x name, k at level 200) : go_scope.
Notation "'refuse' b 'saying' msg ; k" := (if b then raise msg else k)
  (at level 10, b at level 100, msg at level 100, k at level 200) : go_scope.

Section operations.
Context {TC : TrustedCapability} {SHA : Sha256} {SJ : StateJSON} {MA : MonotonicAuthority}.

(** ** Shared pieces *)

Definition bump_inventory (st : DurableState) : DurableState :=
  set_ds_InventoryRevision (add64w (ds_InventoryRevision st) 1) st.

Definition requireNewCapabilityWorkLocked (st : DurableState) : result unit :=
  if ds_OwnerPaused st then Err "owner pause fences new capability work"
  else if negb (is_none (ds_OwnerExit st)) then Err "owner exit fences new capability work"
  else Ok tt.

Definition trustedNowLocked (e : op_env) : M N :=
  match ev_now e with
  | None => raise "trusted time is unavailable"
  | Some t =>
      if IsZero t || (Unix t <? 0)%Z then raise "trusted time is unavailable"
      else
        let value := Z.to_N (Unix t) in
        with st;
        if value <? ds_TrustedTimeHighWater st then raise "trusted time rollback detected"
        else if ds_TrustedTimeHighWater st <? value then
          do _ <- modify (set_ds_TrustedTimeHighWater value);
          do _ <- commit (ev_commit e 0);
          ret value
        else ret value
  end.

Definition subjectAllowed (subjects : gmap string (list string)) (kind identifier : string) : bool :=
  bool_decide (identifier ∈ default [] (subjects !! kind)).

(** [cloneSubjects] leaves out the kinds without identifiers. *)
Definition cloneSubjects (input : gmap string (list string)) : gmap string (list string) :=
  filter (fun kv => kv.2 <> []) input.

Definition canonicalSubjects (input : gmap string (list string)) (controllers : gmap string string)
    : result (list subjectBinding) :=
  traverse (fun kind =>
    let ids := sort_Strings (default [] (input !! kind)) in
    let? owners := traverse (fun id =>
      let controller := default ""%string (controllers !! hex_EncodeToString id) in
      if same controller "" || differ (TrimSpace controller) controller
      then Err "every authority subject must bind a non-empty controlling principal"
      else Ok controller) ids in
    Ok {| sb_Kind := kind; sb_Identifiers := ids; sb_Controllers := owners |})
    (sort_Strings (map_to_list input).*1).

Definition sameAuthoritySubject (left right : Subject) : bool := bool_decide (left = right).

(** [compareAuthoritySubject(left, right) < 0] *)
Definition subject_lt (left right : Subject) : bool :=
  if differ (su_Kind left) (su_Kind right) then str_lt (su_Kind left) (su_Kind right)
  else if differ (su_Namespace left) (su_Namespace right) then str_lt (su_Namespace left) (su_Namespace right)
  else str_lt (su_Identifier left) (su_Identifier right).

Definition optionalBytesEqual (left right : option string) : bool := bool_decide (left = right).

Definition v1PromotionSeparationPolicyDigest : string :=
  sha256_Sum256 ("tos.openfox.promotion-separation.v1" +:+ sep 0 +:+ "capability-generator" +:+ sep 0 +:+
    "evaluation-verifier" +:+ sep 0 +:+ "promotion-authority" +:+ sep 0 +:+ "minimum-distinct-controllers=3").

Definition authorizationEnvelopeDigest (envelope : Envelope) : result string :=
  let? object := NewEnvelopeObject (eb_DomainKind (en_Body envelope)) (eb_DomainID (en_Body envelope)) envelope in
  ObjectDigest object.

Definition verifyPolicyAuthorizationLocked (st : DurableState) (envelope : Envelope) (authorityKind agentID : string)
    : result unit :=
  let body := en_Body envelope in
  if differ (eb_AuthorityKind body) authorityKind || negb (eb_AuthorityEpoch body =? ds_AuthorityEpoch st)
     || negb (eb_PolicyRevision body =? ds_PolicyRevision st) || differ (eb_PolicyDigest body) (ds_PolicyDigest st)
     || differ (eb_OwnerID body) (ds_OwnerID st)
     || match eb_AgentID body with Some a => differ a agentID | None => true end
     || negb (subjectAllowed (ds_AuthorizedSubjects st) authorityKind (su_Identifier (eb_IssuerSubject body)))
  then Err "authorization issuer or current policy scope mismatch"
  else Ok tt.

Definition head_key (body : EnvelopeBody) : string :=
  eb_AuthorityKind body +:+ sep 0 +:+ hex_EncodeToString (eb_AuthorityID body).

Definition acceptAuthorityHeadLocked (envelope : Envelope) : M unit :=
  let body := en_Body envelope in
  let key := head_key body in
  with st;
  do _ <- pure match ds_AuthorityHeads st !! key with
               | Some prior =>
                   ValidateLinearSuccessor (ah_EnvelopeDigest prior) (ah_Revision prior) (ah_Epoch prior) body
               | None =>
                   if negb (eb_AuthorityRevision body =? 0) || negb (is_none (eb_PredecessorEnvelopeDigest body))
                      || negb (eb_AuthorityEpoch body =? ds_AuthorityEpoch st)
                   then Err "authority genesis is invalid" else Ok tt
               end;
  do digest <- pure (authorizationEnvelopeDigest envelope);
  modify (fun st => set_ds_AuthorityHeads
    (<[key := {| ah_Revision := eb_AuthorityRevision body; ah_Epoch := eb_AuthorityEpoch body;
                 ah_EnvelopeDigest := digest |}]> (ds_AuthorityHeads st)) st).

(** ** The publisher's authority (publisher.go) *)

Definition required_sources (sources : list string) : result (gset string) :=
  foldl (fun acc source =>
    let? set := acc in
    if no_digest source then Err "policy-bound publisher revocation source identity is invalid"
    else Ok ({[hex_EncodeToString source]} ∪ set)) (Ok ∅) sources.

Definition head_rejects (heads : gmap string PublisherSourceHead) (source : string) (o : RevocationObservation)
    : result unit :=
  match heads !! source with
  | Some prior =>
      if (ro_SourceGeneration o <? ph_SourceGeneration prior) || (ro_ObservedGeneration o <? ph_ObservedGeneration prior)
      then Err "publisher revocation observation rollback"
      else if (ro_SourceGeneration o =? ph_SourceGeneration prior)
              && differ (ro_CheckpointRoot o) (ph_CheckpointRoot prior)
      then Err "publisher revocation checkpoint equivocation"
      else Ok tt
  | None => Ok tt
  end.

(** One observation: its source, and the head it becomes. *)
Definition check_observation (now : N) (artifact : ArtifactBody) (publisher : PublisherBody)
    (artifactDigest envelopeDigest : string) (required seen : gset string)
    (heads : gmap string PublisherSourceHead) (supplied : PublisherObservation)
    : result (string * PublisherSourceHead) :=
  let? observation := DecodeObservation (pu_Object supplied) in
  let? _ := ValidatePublisherRevocationObservation observation (ar_PublisherSubject artifact) artifactDigest
              envelopeDigest now in
  if is_err (VerifyAuthorization (pu_Envelope supplied) (pu_Object supplied) now 0)
     || differ (eb_AuthorityKind (en_Body (pu_Envelope supplied))) "publisher-revocation-observation"
     || differ (su_Identifier (eb_IssuerSubject (en_Body (pu_Envelope supplied)))) (ro_SourceID observation)
  then Err "publisher revocation observation authorization is invalid"
  else
    let source := hex_EncodeToString (ro_SourceID observation) in
    if negb (bool_decide (source ∈ required))
    then Err "publisher revocation observation came from an untrusted source"
    else if bool_decide (source ∈ seen) then Err "duplicate publisher revocation source"
    else
      let? _ := head_rejects heads source observation in
      if ro_Revoked observation || (pb_RevocationGeneration publisher <? ro_ObservedGeneration observation)
      then Err "publisher or artifact has been revoked"
      else Ok (source, {| ph_SourceGeneration := ro_SourceGeneration observation;
                          ph_ObservedGeneration := ro_ObservedGeneration observation;
                          ph_CheckpointRoot := ro_CheckpointRoot observation |}).

(** The loop over the observations; it writes each head as it goes, and what it
    has written stays when a later observation is refused. *)
Fixpoint observe_sources (now : N) (artifact : ArtifactBody) (publisher : PublisherBody)
    (artifactDigest envelopeDigest : string) (required seen : gset string)
    (heads : gmap string PublisherSourceHead) (observations : list PublisherObservation)
    : gmap string PublisherSourceHead * result (gset string) :=
  match observations with
  | [] => (heads, Ok seen)
  | supplied :: rest =>
      match check_observation now artifact publisher artifactDigest envelopeDigest required seen heads supplied with
      | Err m => (heads, Err m)
      | Ok (source, head) =>
          observe_sources now artifact publisher artifactDigest envelopeDigest required ({[source]} ∪ seen)
            (<[source := head]> heads) rest
      end
  end.

(** What the loop is run with. *)
Definition publisher_context (e : op_env) (entry : Entry) (now : N)
    : result (ArtifactBody * PublisherBody * string * string * list PublisherObservation * gset string) :=
  match e_ArtifactObject entry, e_PublisherObject entry, e_PublisherEnvelope entry with
  | Some artifactObject, Some publisherObject, Some publisherEnvelope =>
      let? artifact := DecodeArtifact artifactObject in
      let? publisher := DecodePublisher publisherObject in
      let? _ := ValidatePublisherEnvelope publisher artifact now in
      let? _ := VerifyAuthorization publisherEnvelope publisherObject now 0 in
      match ObjectDigest artifactObject with
      | Err _ => Err "stored publisher artifact identity changed"
      | Ok artifactDigest =>
          if differ artifactDigest (e_ArtifactDigest entry) then Err "stored publisher artifact identity changed"
          else
            let? envelopeDigest := authorizationEnvelopeDigest publisherEnvelope in
            match ev_observations e with
            | Err _ | Ok [] => Err "fresh publisher revocation coverage is unavailable"
            | Ok observations =>
                match ev_sources e with
                | Err _ | Ok [] => Err "policy-bound publisher revocation source set is unavailable"
                | Ok sources =>
                    let? required := required_sources sources in
                    Ok (artifact, publisher, artifactDigest, envelopeDigest, observations, required)
                end
            end
      end
  | _, _, _ => Err "current publisher authority is unavailable"
  end.

(** [revalidatePublisherLocked]: the heads in the entry's map afterwards, and
    the entry when it succeeds. *)
Definition revalidatePublisherLocked (e : op_env) (entry : Entry) (now : N)
    : gmap string PublisherSourceHead * result Entry :=
  match publisher_context e entry now with
  | Err m => (e_PublisherSourceHeads entry, Err m)
  | Ok (artifact, publisher, artifactDigest, envelopeDigest, observations, required) =>
      let '(heads, r) := observe_sources now artifact publisher artifactDigest envelopeDigest required ∅
                           (e_PublisherSourceHeads entry) observations in
      (heads,
       let? seen := r in
       if negb (N.of_nat (size seen) =? N.of_nat (size required))
       then Err "publisher revocation observations do not cover every policy-required source"
       else Ok (set_e_PublisherRevocationGeneration (pb_RevocationGeneration publisher)
                 (set_e_PublisherEnvelopeExpiresAt (pb_ExpiresAtUnix publisher)
                   (set_e_PublisherSourceHeads heads entry))))
  end.

(** An entry read from the state shares its map of heads with it (a nil map is
    replaced by a fresh one first). *)
Definition revalidate_stored (e : op_env) (key : string) (entry : Entry) (now : N) : M Entry :=
  let '(heads, r) := revalidatePublisherLocked e entry now in
  do _ <- modify (fun st =>
    if decide (e_PublisherSourceHeads entry = ∅) then st
    else set_ds_Entries (alter (set_e_PublisherSourceHeads heads) key (ds_Entries st)) st);
  pure r.

(** ** The owner's trust root *)

Fixpoint recovery_proofs (st : DurableState) (ceremony : OwnerBootstrapCeremonyV1) (object : ProfileObjectV1) (now : N)
    (previous : option Subject) (subjects : list Subject) (authorizations : list Envelope) : result unit :=
  match subjects, authorizations with
  | subject :: subjects, authorization :: authorizations =>
      if match previous with Some p => negb (subject_lt p subject) | None => false end
      then Err "recovery subjects are not canonical"
      else if is_err (VerifyAuthorization authorization object now (oc_Generation ceremony))
              || differ (eb_AuthorityKind (en_Body authorization)) "owner-bootstrap-recovery"
              || negb (sameAuthoritySubject (eb_IssuerSubject (en_Body authorization)) subject)
              || differ (eb_OwnerID (en_Body authorization)) (ds_OwnerID st)
              || negb (is_none (eb_AgentID (en_Body authorization)))
      then Err "recovery possession proof failed"
      else recovery_proofs st ceremony object now (Some subject) subjects authorizations
  | _, _ => Ok tt
  end.

(** The conditions on ceremony, policy and envelope, in the order of the source. *)
Definition bootstrap_consistent (st : DurableState) (request : BootstrapRequest) (ceremony : OwnerBootstrapCeremonyV1)
    (policy : OwnerPolicyBodyV1) (digest subjectDigest : string) (now : N) : bool :=
  let env := en_Body (br_Envelope request) in
  (oc_SchemaVersion ceremony =? SchemaVersion) && (oc_DomainKind ceremony =? ds_DomainKind st)
  && same (oc_DomainID ceremony) (ds_DomainID st) && same (oc_OwnerID ceremony) (ds_OwnerID st)
  && (slen (oc_CeremonyNonce ceremony) =? 32) && (slen (oc_OwnerConfirmationDigest ceremony) =? 32)
  && (slen (oc_PossessionChallengeDigest ceremony) =? 32) && (oc_Generation ceremony =? 0)
  && same (oc_State ceremony) "owner-confirmed" && (oc_NotBeforeUnix ceremony <=? now) && (now <? oc_ExpiresAtUnix ceremony)
  && same (oc_GenesisPolicyObjectDigest ceremony) digest && same (oc_AuthoritySubjectSetDigest ceremony) subjectDigest
  && same (po_PromotionSeparationPolicyDigest policy) v1PromotionSeparationPolicyDigest
  && subjectAllowed (br_AuthorizedSubjects request) "owner-bootstrap" (su_Identifier (oc_RootSubject ceremony))
  && same (po_AuthorityProfileSetDigest policy) subjectDigest
  && (ob_DomainKind (br_PolicyObject request) =? ds_DomainKind st)
  && same (ob_DomainID (br_PolicyObject request)) (ds_DomainID st) && same (po_OwnerID policy) (ds_OwnerID st)
  && (po_Revision policy =? 1) && is_none (po_PredecessorPolicyDigest policy) && negb (po_AuthorityEpoch policy =? 0)
  && (po_NotBeforeUnix policy <=? now) && (now <? po_ExpiresAtUnix policy)
  && (eb_PolicyRevision env =? po_Revision policy) && same (eb_PolicyDigest env) digest
  && same (eb_AuthorityKind env) "owner-bootstrap-policy" && (eb_AuthorityRevision env =? 0)
  && is_none (eb_PredecessorEnvelopeDigest env) && (eb_AuthorityEpoch env =? po_AuthorityEpoch policy)
  && same (eb_OwnerID env) (ds_OwnerID st) && is_none (eb_AgentID env).

(** The policy becomes the governing one. *)
Definition govern (policy : OwnerPolicyBodyV1) (digest : string) (subjects : gmap string (list string))
    (controllers : gmap string string) (st : DurableState) : DurableState :=
  bump_inventory (set_ds_AuthorityControllers controllers (set_ds_AuthorizedSubjects (cloneSubjects subjects)
    (set_ds_PromotionSeparationPolicyDigest (po_PromotionSeparationPolicyDigest policy)
      (set_ds_CapabilityPolicyDigest (po_CapabilityPolicyDigest policy) (set_ds_PolicyDigest digest
        (set_ds_PolicyRevision (po_Revision policy) (set_ds_AuthorityEpoch (po_AuthorityEpoch policy) st))))))).

Definition Bootstrap (e : op_env) (request : BootstrapRequest) : M unit :=
  do ceremony <- pure (DecodeCeremony (br_CeremonyObject request));
  do ceremonyDigest <- pure (ObjectDigest (br_CeremonyObject request));
  with st;
  if ds_Initialized st then
    if same (ds_GenesisCeremonyDigest st) ceremonyDigest && same (ds_BootstrapNonce st) (oc_CeremonyNonce ceremony)
    then ret tt else raise "conflicting owner trust genesis"
  else
  do policy <- pure (DecodePolicy (br_PolicyObject request));
  do digest <- pure (ObjectDigest (br_PolicyObject request));
  do now <- trustedNowLocked e;
  do bindings <- pure (canonicalSubjects (br_AuthorizedSubjects request) (br_AuthorityControllers request));
  do subjectBytes <- pure (MarshalSubjects bindings);
  let subjectDigest := sha256_Sum256 subjectBytes in
  with st;
  refuse negb (bootstrap_consistent st request ceremony policy digest subjectDigest now)
    saying "invalid owner bootstrap policy";
  let root := br_RootCeremonyAuthorization request in
  refuse is_err (VerifyAuthorization root (br_CeremonyObject request) now (oc_Generation ceremony))
         || differ (eb_AuthorityKind (en_Body root)) "owner-bootstrap"
         || negb (sameAuthoritySubject (eb_IssuerSubject (en_Body root)) (oc_RootSubject ceremony))
         || differ (eb_OwnerID (en_Body root)) (ds_OwnerID st) || negb (is_none (eb_AgentID (en_Body root)))
    saying "root possession or ceremony authorization failed";
  refuse bool_decide (oc_RecoverySubjects ceremony = [])
         || negb (llen (br_RecoveryCeremonyAuthorizations request) =? llen (oc_RecoverySubjects ceremony))
    saying "recovery possession proofs are incomplete";
  do _ <- pure (recovery_proofs st ceremony (br_CeremonyObject request) now None (oc_RecoverySubjects ceremony)
                  (br_RecoveryCeremonyAuthorizations request));
  do _ <- pure (VerifyAuthorization (br_Envelope request) (br_PolicyObject request) now (po_AuthorityEpoch policy));
  refuse negb (sameAuthoritySubject (eb_IssuerSubject (en_Body (br_Envelope request))) (oc_RootSubject ceremony))
    saying "genesis policy is not authorized by the confirmed root";
  do _ <- modify (fun st =>
    govern policy digest (br_AuthorizedSubjects request) (br_AuthorityControllers request)
      (set_ds_BootstrapNonce (oc_CeremonyNonce ceremony) (set_ds_GenesisCeremonyDigest ceremonyDigest
        (set_ds_Initialized true st))));
  commit (ev_commit e 1).

Definition successor_policy (st : DurableState) (request : PolicyRotationRequest) (policy : OwnerPolicyBodyV1)
    (subjectDigest : string) (now : N) : bool :=
  (ob_DomainKind (rr_PolicyObject request) =? ds_DomainKind st)
  && same (ob_DomainID (rr_PolicyObject request)) (ds_DomainID st) && same (po_OwnerID policy) (ds_OwnerID st)
  && (po_Revision policy =? add64w (ds_PolicyRevision st) 1)
  && match po_PredecessorPolicyDigest policy with Some p => same p (ds_PolicyDigest st) | None => false end
  && negb (po_AuthorityEpoch policy <? ds_AuthorityEpoch st) && same (po_AuthorityProfileSetDigest policy) subjectDigest
  && same (po_PromotionSeparationPolicyDigest policy) v1PromotionSeparationPolicyDigest
  && (po_NotBeforeUnix policy <=? now) && (now <? po_ExpiresAtUnix policy).

Definition RotatePolicy (e : op_env) (request : PolicyRotationRequest) : M unit :=
  with st;
  refuse negb (ds_Initialized st) saying "owner trust root is not initialized";
  do _ <- pure (requireNewCapabilityWorkLocked st);
  do policy <- pure (DecodePolicy (rr_PolicyObject request));
  do now <- trustedNowLocked e;
  do newDigest <- pure (ObjectDigest (rr_PolicyObject request));
  do bindings <- pure (canonicalSubjects (rr_AuthorizedSubjects request) (rr_AuthorityControllers request));
  do subjectBytes <- pure (MarshalSubjects bindings);
  let subjectDigest := sha256_Sum256 subjectBytes in
  with st;
  refuse negb (successor_policy st request policy subjectDigest now)
    saying "owner policy successor is stale, forked, or incomplete";
  do _ <- pure (VerifyAuthorization (rr_Envelope request) (rr_PolicyObject request) now (ds_AuthorityEpoch st));
  let governing := en_Body (rr_Envelope request) in
  refuse differ (eb_AuthorityKind governing) "owner-policy" || negb (is_none (eb_AgentID governing))
         || negb (eb_AuthorityEpoch governing =? ds_AuthorityEpoch st)
         || negb (eb_PolicyRevision governing =? ds_PolicyRevision st)
         || differ (eb_PolicyDigest governing) (ds_PolicyDigest st) || differ (eb_OwnerID governing) (ds_OwnerID st)
         || negb (subjectAllowed (ds_AuthorizedSubjects st) "owner-policy"
                    (su_Identifier (eb_IssuerSubject governing)))
    saying "owner policy successor is not authorized by the prior policy";
  do _ <- acceptAuthorityHeadLocked (rr_Envelope request);
  do _ <- modify (fun st =>
    govern policy newDigest (rr_AuthorizedSubjects request) (rr_AuthorityControllers request)
      (if ds_AuthorityEpoch st <? po_AuthorityEpoch policy
       then set_ds_ControlScopeGeneration (add64w (ds_ControlScopeGeneration st) 1) (set_ds_AuthorityHeads ∅ st)
       else st));
  commit (ev_commit e 1).

Definition session_current (st : DurableState) (session : OwnerDeviceSessionV1) (now : N) : bool :=
  (slen (se_SessionID session) =? 16) && negb (same (se_OwnerID session) "") && same (se_OwnerID session) (ds_OwnerID st)
  && (slen (se_DevicePublicKey session) =? 32) && (slen (se_AllowedCommandClassesDigest session) =? 32)
  && negb (same (se_Audience session) "") && (slen (se_ChannelBindingDigest session) =? 32)
  && negb (se_SessionGeneration session =? 0) && negb (se_SessionRevocationGeneration session =? 0)
  && (se_AuthorityEpoch session =? ds_AuthorityEpoch st) && (se_PolicyRevision session =? ds_PolicyRevision st)
  && same (se_PolicyDigest session) (ds_PolicyDigest st) && (se_NotBeforeUnix session <=? now)
  && (now <? se_ExpiresAtUnix session) && is_ok (ValidateReference (se_RevocationObjectReference session)).

Definition IssueDeviceSession (e : op_env) (request : DeviceSessionRequest) : M unit :=
  with st;
  refuse negb (ds_Initialized st) || negb (is_none (ds_OwnerExit st)) saying "owner authority is unavailable";
  do _ <- pure (requireNewCapabilityWorkLocked st);
  do session <- pure (DecodeSession (dq_Object request));
  do now <- trustedNowLocked e;
  do digest <- pure (ObjectDigest (dq_Object request));
  let key := hex_EncodeToString digest in
  with st;
  refuse negb (session_current st session now) saying "device session is incomplete, stale, or cross-owner";
  do _ <- pure (VerifyAuthorization (dq_Envelope request) (dq_Object request) now (ds_AuthorityEpoch st));
  let body := en_Body (dq_Envelope request) in
  refuse differ (eb_AuthorityKind body) "device-session" || negb (is_none (eb_AgentID body))
         || negb (eb_PolicyRevision body =? ds_PolicyRevision st) || differ (eb_PolicyDigest body) (ds_PolicyDigest st)
         || differ (eb_OwnerID body) (ds_OwnerID st)
         || negb (subjectAllowed (ds_AuthorizedSubjects st) "device-session"
                    (su_Identifier (eb_IssuerSubject body)))
    saying "device session issuer is not authorized by current policy";
  match ds_DeviceSessions st !! key with
  | Some prior =>
      if (dr_SessionGeneration prior =? se_SessionGeneration session) && negb (dr_Revoked prior) then ret tt
      else raise "device session identity conflict"
  | None =>
      do _ <- acceptAuthorityHeadLocked (dq_Envelope request);
      do _ <- modify (fun st => set_ds_DeviceSessions
        (<[key := {| dr_Object := dq_Object request; dr_Envelope := dq_Envelope request;
                     dr_SessionGeneration := se_SessionGeneration session;
                     dr_RevocationGeneration := se_SessionRevocationGeneration session; dr_Revoked := false |}]>
           (ds_DeviceSessions st)) st);
      commit (ev_commit e 1)
  end.

Definition ObserveTrustedTime (e : op_env) : M TrustedTimeEvidenceObservation :=
  with st;
  match ev_time e with
  | Err _ => raise "signed external trusted-time evidence is stale or invalid"
  | Ok o =>
      refuse (to_UnixSeconds o =? 0) || (to_Epoch o =? 0) || no_digest (to_EvidenceDigest o)
             || (to_UnixSeconds o <? ds_TrustedTimeHighWater st) || (to_Epoch o <? ds_TrustedTimeEpochHighWater st)
        saying "signed external trusted-time evidence is stale or invalid";
      if (ds_TrustedTimeHighWater st <? to_UnixSeconds o) || (ds_TrustedTimeEpochHighWater st <? to_Epoch o) then
        do _ <- modify (fun st => set_ds_TrustedTimeEpochHighWater (to_Epoch o)
                                    (set_ds_TrustedTimeHighWater (to_UnixSeconds o) st));
        do _ <- commit (ev_commit e 0);
        ret o
      else ret o
  end.

(** ** Into quarantine *)

(** What [os.ReadDir] and [hashRegularFile] find. *)
Inductive legacy_hash := HashAbsent | HashFailed (msg : string) | HashOf (digest : string).
Record legacy_child := { lc_Name : string; lc_IsDir : bool; lc_Path : string; lc_Hash : legacy_hash }.
Inductive legacy_root := RootAbsent | RootFailed (msg : string) | RootChildren (children : list legacy_child).

Definition zero_Entry : Entry :=
  {| e_ArtifactDigest := ""; e_ObservedContentDigest := ""; e_ArtifactKind := ""; e_Namespace := ""; e_Name := "";
     e_Version := ""; e_State := StateRejected; e_InstalledPath := ""; e_QuarantinePath := "";
     e_PermissionManifestDigest := ""; e_PermissionObject := None; e_ContentManifestObject := None;
     e_EntrypointObject := None; e_ArtifactObject := None; e_PublisherObject := None; e_PublisherEnvelope := None;
     e_PublisherEnvelopeExpiresAt := 0; e_PublisherRevocationGeneration := 0; e_PublisherSourceHeads := ∅;
     e_AdmissionObject := None; e_AdmissionEnvelope := None; e_AdmissionRevision := 0;
     e_AdmissionRevocationGeneration := 0; e_PromotionObject := None; e_PromotionEnvelope := None;
     e_PromotionRevision := 0; e_PromotionRevocationGeneration := 0; e_PromotionRequired := false;
     e_InstallationRevision := 0; e_UpdatedAtUnix := 0 |}.

Definition legacy_entry (child : legacy_child) (digest : string) (now : Z) : Entry :=
  set_e_UpdatedAtUnix (unix_u64 now) (set_e_PromotionRequired true (set_e_InstalledPath (lc_Path child)
    (set_e_State StateUnverifiedLegacy (set_e_Version "legacy" (set_e_Name (lc_Name child)
      (set_e_Namespace "openfox.legacy" (set_e_ArtifactKind "skill" (set_e_ArtifactDigest digest zero_Entry)))))))).

(** One child; whether the inventory changed. *)
Definition import_child (now : Z) (child : legacy_child) (changed : bool) : M bool :=
  if negb (lc_IsDir child) then ret changed
  else
    match lc_Hash child with
    | HashAbsent => ret changed
    | HashFailed m => raise m
    | HashOf digest =>
        let key := hex_EncodeToString digest in
        with st;
        if negb (is_none (ds_Tombstones st !! key)) || negb (is_none (ds_Entries st !! key)) then ret changed
        else
          do _ <- modify (fun st => set_ds_Entries (<[key := legacy_entry child digest now]> (ds_Entries st)) st);
          ret true
    end.

Fixpoint import_children (now : Z) (children : list legacy_child) (changed : bool) : M bool :=
  match children with
  | [] => ret changed
  | child :: rest => do changed <- import_child now child changed; import_children now rest changed
  end.

Fixpoint import_roots (now : Z) (roots : list legacy_root) (changed : bool) : M bool :=
  match roots with
  | [] => ret changed
  | RootAbsent :: rest => import_roots now rest changed
  | RootFailed m :: _ => raise m
  | RootChildren children :: rest =>
      do changed <- import_children now children changed; import_roots now rest changed
  end.

Definition ImportLegacySkillRoots (e : op_env) (roots : list legacy_root) (now : Z) : M unit :=
  with st;
  do _ <- pure (requireNewCapabilityWorkLocked st);
  do changed <- import_roots now roots false;
  if changed : bool then
    do _ <- modify (fun st => set_ds_SourceGeneration (add64w (ds_SourceGeneration st) 1) (bump_inventory st));
    commit (ev_commit e 0)
  else ret tt.

Definition registerQuarantined (e : op_env) (entry : Entry) (path : string) (now : Z) : M unit :=
  with st;
  do _ <- pure (requireNewCapabilityWorkLocked st);
  let observed := if same (e_ObservedContentDigest entry) "" then e_ArtifactDigest entry
                  else e_ObservedContentDigest entry in
  refuse no_digest observed || same path "" saying "quarantined entry is incomplete";
  refuse match ev_manifest e path with Ok root => differ root observed | Err _ => true end
    saying "quarantined bytes do not match observed content digest";
  let key := hex_EncodeToString observed in
  refuse negb (is_none (ds_Tombstones st !! key)) saying "artifact is tombstoned";
  refuse match ds_Entries st !! key with
         | Some current => negb (bool_decide (e_State current = StateQuarantined))
         | None => false
         end
    saying "artifact already exists outside quarantine";
  let entry := set_e_UpdatedAtUnix (unix_u64 now) (set_e_InstalledPath "" (set_e_QuarantinePath (ev_clean e path)
                 (set_e_ObservedContentDigest observed (set_e_ArtifactDigest "" (set_e_State StateQuarantined entry))))) in
  do _ <- modify (fun st => bump_inventory (set_ds_Entries (<[key := entry]> (ds_Entries st)) st));
  commit (ev_commit e 0).

(** The receipt of a finished acquisition, as far as the registration reads it;
    [validated] is the path [ValidateQuarantineCommitReceipt] returns. *)
Record QuarantineReceipt := {
  qr_OwnerID : string;
  qr_AgentID : string;
  qr_ContentDigest : string
}.

Definition RegisterQuarantined (e : op_env) (entry : Entry) (receipt : QuarantineReceipt) (validated : result string)
    (now : Z) : M unit :=
  with st;
  refuse differ (qr_OwnerID receipt) (ds_OwnerID st) || differ (qr_AgentID receipt) (ds_AgentID st)
    saying "quarantine receipt is cross-owner or cross-Agent";
  do path <- pure validated;
  refuse negb (same (e_ObservedContentDigest entry) "") && differ (e_ObservedContentDigest entry) (qr_ContentDigest receipt)
    saying "quarantine entry conflicts with the authoritative receipt";
  registerQuarantined e (set_e_ArtifactDigest "" (set_e_ObservedContentDigest (qr_ContentDigest receipt) entry)) path now.

End operations.

End CapOps.
