(* ===== verification/CapGate.v ===== *)
(** * Capability control: from quarantine to execution

    store.go ([VerifyCandidate], [Admit]), gate.go ([Promote], [Install],
    [PrepareUse], [RevalidateUse], [ResolveUse]), mcp_action.go and
    action_outcome.go (src/pkg/capabilitycontrol): how a quarantined artifact
    becomes an installed one, what every start of an execution must show, and
    how executions are resolved. *)

From S2P Require Import Prelude GoLib GoText FileStore Ledger Protocol CapTypes CapStore CapOps.
#[local] Open Scope N_scope.

Module CapGate.
Import CapTypes CapStore CapOps.

Section gate.
Context {TC : TrustedCapability} {SHA : Sha256} {SJ : StateJSON} {MA : MonotonicAuthority}.

Definition put_entry (key : string) (entry : Entry) (st : DurableState) : DurableState :=
  set_ds_Entries (<[key := entry]> (ds_Entries st)) st.

(** ** Verification *)

(** A digest computed now must be the referenced one. *)
Definition matches (digest : result string) (want : string) : bool :=
  match digest with Ok d => same d want | Err _ => false end.

(** The permission manifest, its digest. *)
Definition verify_permission (request : VerificationRequest) (artifact : ArtifactBody) (preManifest : string)
    : result (PermissionManifest * string) :=
  match ar_PermissionManifestDigest artifact, vq_PermissionObject request with
  | Some want, Some object =>
      let? permission := DecodePermission object in
      match ObjectDigest object with
      | Err _ => Err "permission manifest reference mismatch"
      | Ok digest =>
          if differ digest want || differ (pm_ArtifactPreManifestDigest permission) preManifest
          then Err "permission manifest reference mismatch"
          else let? _ := ValidatePermissionManifest permission in Ok (permission, digest)
      end
  | _, _ => Err "executable artifact requires an exact permission manifest"
  end.

Definition verify_dependencies (request : VerificationRequest) (artifact : ArtifactBody) (preManifest : string)
    : result unit :=
  match ar_DependencyManifestDigest artifact with
  | Some want =>
      match vq_DependencyObject request with
      | None => Err "dependency manifest is missing"
      | Some object =>
          let? dependencies := DecodeDependencies object in
          if negb (matches (ObjectDigest object) want) then Err "dependency manifest reference mismatch"
          else ValidateDependencyManifest dependencies preManifest
      end
  | None =>
      match vq_DependencyObject request with
      | Some _ => Err "unexpected dependency manifest"
      | None => Ok tt
      end
  end.

(** The closure of objects an artifact names, up to the publisher's proof. *)
Definition verify_closure (st : DurableState) (request : VerificationRequest) (closureRoot : string)
    : result (ArtifactBody * PermissionManifest * string) :=
  let? artifact := DecodeArtifact (vq_ArtifactObject request) in
  let? _ := ValidateExecutableArtifact artifact in
  if negb (ob_DomainKind (vq_ArtifactObject request) =? ds_DomainKind st)
     || differ (ob_DomainID (vq_ArtifactObject request)) (ds_DomainID st)
  then Err "artifact domain mismatch"
  else
    let? declared := DecodeContentManifest (vq_ContentManifestObject request) in
    if is_err (ValidateContentManifest declared) || differ (cm_ClosureRoot declared) closureRoot
    then Err "content manifest does not match quarantined closure"
    else if negb (matches (ObjectDigest (vq_ContentManifestObject request)) (ar_ContentManifestDigest artifact))
    then Err "artifact content manifest reference mismatch"
    else
      let? entrypoint := DecodeEntrypoint (vq_EntrypointObject request) in
      let? _ := ValidateEntrypointDescriptor entrypoint in
      if negb (matches (ObjectDigest (vq_EntrypointObject request)) (ar_EntrypointDescriptorDigest artifact))
      then Err "artifact entrypoint reference mismatch"
      else
        let? preManifest := ArtifactPreManifestDigest artifact in
        let? (permission, permissionDigest) := verify_permission request artifact preManifest in
        let? _ := verify_dependencies request artifact preManifest in
        Ok (artifact, permission, permissionDigest).

Definition permissionRequiresPromotion (permission : PermissionManifest) : bool :=
  negb (bool_decide (pm_ToolCapabilities permission = [])) || negb (bool_decide (pm_ProcessCapabilities permission = []))
  || negb (bool_decide (pm_FilesystemCapabilities permission = []))
  || negb (bool_decide (pm_NetworkCapabilities permission = []))
  || negb (bool_decide (pm_CredentialCapabilities permission = []))
  || negb (bool_decide (pm_DataClassesWrite permission = []))
  || negb (bool_decide (pm_DisclosureCapabilities permission = []))
  || negb (bool_decide (pm_DataClassesRead permission = [])) || negb (bool_decide (pm_UploadCapabilities permission = []))
  || negb (bool_decide (pm_DestructiveCapabilities permission = []))
  || differ (pm_DirectCostCeiling permission) "0".

(** The quarantined entry with its verified identity. *)
Definition verified_entry (request : VerificationRequest) (artifact : ArtifactBody) (permission : PermissionManifest)
    (permissionDigest : string) (publisher : PublisherBody) (artifactDigest : string) (now : N) (entry : Entry) : Entry :=
  set_e_UpdatedAtUnix now (set_e_PromotionRequired (permissionRequiresPromotion permission)
  (set_e_Version (ar_ArtifactVersion artifact) (set_e_Name (ar_ArtifactName artifact)
  (set_e_Namespace (ar_ArtifactNamespace artifact) (set_e_ArtifactKind (ar_ArtifactKind artifact)
  (set_e_EntrypointObject (Some (vq_EntrypointObject request))
  (set_e_ContentManifestObject (Some (vq_ContentManifestObject request))
  (set_e_PermissionObject (vq_PermissionObject request) (set_e_PermissionManifestDigest permissionDigest
  (set_e_PublisherSourceHeads ∅ (set_e_PublisherRevocationGeneration (pb_RevocationGeneration publisher)
  (set_e_PublisherEnvelopeExpiresAt (pb_ExpiresAtUnix publisher)
  (set_e_PublisherEnvelope (Some (vq_PublisherAuthorization request))
  (set_e_PublisherObject (Some (vq_PublisherObject request)) (set_e_ArtifactObject (Some (vq_ArtifactObject request))
  (set_e_ArtifactDigest artifactDigest (set_e_State StateVerified entry))))))))))))))))).

Definition VerifyCandidate (e : op_env) (request : VerificationRequest) : M unit :=
  with st;
  do _ <- pure (requireNewCapabilityWorkLocked st);
  let key := hex_EncodeToString (vq_QuarantineDigest request) in
  match ds_Entries st !! key with
  | None => raise "only an exact quarantined artifact can be verified"
  | Some entry =>
      refuse negb (bool_decide (e_State entry = StateQuarantined))
             || differ (e_ObservedContentDigest entry) (vq_QuarantineDigest request)
        saying "only an exact quarantined artifact can be verified";
      refuse negb (matches (ev_manifest e (e_QuarantinePath entry)) (vq_QuarantineDigest request))
        saying "quarantine content changed before verification";
      do (artifact, permission, permissionDigest) <- pure (verify_closure st request (vq_QuarantineDigest request));
      do publisher <- pure (DecodePublisher (vq_PublisherObject request));
      do now <- trustedNowLocked e;
      do _ <- pure (ValidatePublisherEnvelope publisher artifact now);
      do _ <- pure (VerifyAuthorization (vq_PublisherAuthorization request) (vq_PublisherObject request) now 0);
      refuse negb (sameAuthoritySubject (eb_IssuerSubject (en_Body (vq_PublisherAuthorization request)))
                     (ar_PublisherSubject artifact))
             || differ (eb_AuthorityKind (en_Body (vq_PublisherAuthorization request))) "artifact-publisher"
        saying "publisher proof subject mismatch";
      do artifactDigest <- pure (ObjectDigest (vq_ArtifactObject request));
      let newKey := hex_EncodeToString artifactDigest in
      with st;
      refuse negb (is_none (ds_Tombstones st !! newKey))
        saying "verified artifact is tombstoned and cannot be resurrected";
      refuse match ds_Entries st !! newKey with
             | Some existing => differ (e_ObservedContentDigest existing) (e_ObservedContentDigest entry)
             | None => false
             end
        saying "artifact version digest equivocation";
      let entry := verified_entry request artifact permission permissionDigest publisher artifactDigest now entry in
      do entry <- pure (revalidatePublisherLocked e entry now).2;
      do _ <- modify (fun st => bump_inventory
        (set_ds_Entries (<[newKey := entry]> (delete key (ds_Entries st))) st));
      commit (ev_commit e 1)
  end.

(** ** Admission *)

Definition Admit (e : op_env) (request : AdmissionRequest) : M unit :=
  with st;
  refuse negb (ds_Initialized st) saying "owner trust root is not initialized";
  do _ <- pure (requireNewCapabilityWorkLocked st);
  let key := hex_EncodeToString (aq_ArtifactDigest request) in
  match ds_Entries st !! key with
  | None => raise "artifact is not verified"
  | Some entry =>
      refuse negb (bool_decide (e_State entry = StateVerified)) saying "artifact is not verified";
      do body <- pure (DecodeAdmission (aq_Object request));
      do now <- trustedNowLocked e;
      do entry <- revalidate_stored e key entry now;
      do _ <- pure (ValidateAdmission body now);
      with st;
      refuse differ (ab_OwnerID body) (ds_OwnerID st) || differ (ab_AgentID body) (ds_AgentID st)
             || differ (ab_ArtifactVersionDigest body) (aq_ArtifactDigest request)
             || negb (ob_DomainKind (aq_Object request) =? ds_DomainKind st)
             || differ (ob_DomainID (aq_Object request)) (ds_DomainID st)
             || differ (ab_PermissionManifestDigest body) (e_PermissionManifestDigest entry)
             || negb (ab_PolicyRevision body =? ds_PolicyRevision st) || differ (ab_PolicyDigest body) (ds_PolicyDigest st)
        saying "admission does not match current artifact or owner policy";
      do _ <- pure (VerifyAuthorization (aq_Envelope request) (aq_Object request) now (ds_AuthorityEpoch st));
      do _ <- pure (verifyPolicyAuthorizationLocked st (aq_Envelope request) "capability-admission" (ab_AgentID body));
      do _ <- acceptAuthorityHeadLocked (aq_Envelope request);
      let entry := set_e_UpdatedAtUnix now (set_e_AdmissionRevocationGeneration (ab_RevocationGeneration body)
        (set_e_AdmissionRevision (add64w (eb_AuthorityRevision (en_Body (aq_Envelope request))) 1)
        (set_e_AdmissionEnvelope (Some (aq_Envelope request)) (set_e_AdmissionObject (Some (aq_Object request))
        (set_e_State StateAdmitted entry))))) in
      do _ <- modify (fun st => bump_inventory (put_entry key entry st));
      commit (ev_commit e 1)
  end.

(** ** Promotion *)

Definition promotion_scope (st : DurableState) (request : PromotionRequest) (body : PromotionBody) (entry : Entry) : bool :=
  same (pr_OwnerID body) (ds_OwnerID st) && same (pr_AgentID body) (ds_AgentID st)
  && same (pr_CandidateArtifactVersionDigest body) (pq_ArtifactDigest request)
  && (ob_DomainKind (pq_Object request) =? ds_DomainKind st) && same (ob_DomainID (pq_Object request)) (ds_DomainID st)
  && same (pr_CandidatePermissionManifestDigest body) (e_PermissionManifestDigest entry)
  && (pr_PolicyRevision body =? ds_PolicyRevision st) && same (pr_PolicyDigest body) (ds_PolicyDigest st)
  && (slen (pr_GeneratorIdentityDigest body) =? 32)
  && (slen (su_Identifier (pr_IndependentVerifierSubject body)) =? 32)
  && (slen (su_Identifier (pr_ApproverSubject body)) =? 32) && (slen (pr_EvaluationManifestDigest body) =? 32)
  && (slen (pr_RetainedControlArtifactDigest body) =? 32) && (slen (pr_RetainedControlResultDigest body) =? 32)
  && (slen (pr_PrimaryMetricResultDigest body) =? 32) && (slen (pr_HarmMetricResultDigest body) =? 32)
  && (slen (pr_AllowedRegressionBoundsDigest body) =? 32) && (slen (pr_ApproverPolicyDigest body) =? 32)
  && same (pr_ApproverPolicyDigest body) (ds_PolicyDigest st)
  && is_ok (ValidateReference (pr_EvaluationResultReference body))
  && is_ok (ValidateReference (pr_VerifierAuthorizationEnvelopeReference body))
  && differ (pr_GeneratorIdentityDigest body) (su_Identifier (pr_ApproverSubject body))
  && negb (sameAuthoritySubject (pr_IndependentVerifierSubject body) (pr_ApproverSubject body))
  && differ (pr_GeneratorIdentityDigest body) (su_Identifier (pr_IndependentVerifierSubject body)).

Definition verifyPromotionGeneratorLocked (st : DurableState) (envelope : Envelope) (object : ProfileObjectV1)
    (body : PromotionBody) (now : N) : result unit :=
  let? _ := VerifyAuthorization envelope object now (ds_AuthorityEpoch st) in
  let? _ := verifyPolicyAuthorizationLocked st envelope "capability-generator" (pr_AgentID body) in
  if differ (su_Identifier (eb_IssuerSubject (en_Body envelope))) (pr_GeneratorIdentityDigest body)
  then Err "generator authorization subject mismatch"
  else Ok tt.

(** The controller the policy binds an identifier to, empty when none. *)
Definition controller (st : DurableState) (identifier : string) : string :=
  default ""%string (ds_AuthorityControllers st !! hex_EncodeToString identifier).

Definition separated (generator verifier approver : string) : bool :=
  negb (same generator "") && negb (same verifier "") && negb (same approver "") && differ generator verifier
  && differ generator approver && differ verifier approver.

(** The evidence objects by digest; they must be strictly sorted. *)
Fixpoint evidence_objects (prior : option string) (objects : list ProfileObjectV1) (acc : gmap string ProfileObjectV1)
    : result (gmap string ProfileObjectV1) :=
  match objects with
  | [] => Ok acc
  | object :: rest =>
      match ObjectDigest object with
      | Err _ => Err "promotion evidence objects are invalid, duplicated, or unsorted"
      | Ok digest =>
          if match prior with Some p => negb (str_lt p digest) | None => false end
          then Err "promotion evidence objects are invalid, duplicated, or unsorted"
          else evidence_objects (Some digest) rest (<[hex_EncodeToString digest := object]> acc)
      end
  end.

Definition required_evidence (body : PromotionBody) : list (string * string) :=
  [("candidate-origin", pr_CandidateOriginDigest body);
   ("retained-control-artifact", pr_RetainedControlArtifactDigest body);
   ("retained-control-result", pr_RetainedControlResultDigest body);
   ("unseen-task-commitment", pr_UnseenTaskCommitment body);
   ("primary-metric-result", pr_PrimaryMetricResultDigest body);
   ("harm-metric-result", pr_HarmMetricResultDigest body);
   ("regression-bounds", pr_AllowedRegressionBoundsDigest body);
   ("rollback-artifact", pr_RollbackArtifactDigest body);
   ("rollback-plan", pr_RollbackPlanDigest body)]%string.

Definition validatePromotionEvidence (request : PromotionRequest) (promotion : PromotionBody) (res : EvaluationResult)
    (ownerID agentID policyDigest : string) (policyRevision now : N) : result unit :=
  if negb (matches (ObjectDigest (pq_SourcingDecisionObject request)) (pr_SourcingDecisionDigest promotion))
  then Err "exact sourcing decision is unavailable"
  else
    let? sourcing := DecodeSourcing (pq_SourcingDecisionObject request) in
    let? _ := ValidateSourcingDecision sourcing (pr_CandidateArtifactVersionDigest promotion) ownerID agentID
                policyDigest policyRevision now in
    if negb (matches (ObjectDigest (pq_EvaluationManifestObject request)) (pr_EvaluationManifestDigest promotion))
    then Err "exact evaluation manifest is unavailable"
    else
      let? manifest := DecodeEvaluationManifest (pq_EvaluationManifestObject request) in
      let? _ := ValidateEvaluationManifest manifest promotion policyDigest policyRevision now in
      if differ (er_RuntimeSandboxDigest res) (em_RuntimeSandboxDigest manifest)
         || differ (er_CorpusCommitment res) (em_CorpusCommitment manifest)
         || differ (er_CompleteResultSetDigest res) (em_CompleteResultSetDigest manifest)
         || differ (er_RetainedControlResultDigest res) (em_RetainedControlResultDigest manifest)
      then Err "evaluation result and manifest diverge"
      else
        let? objects := evidence_objects None (pq_EvidenceObjects request) ∅ in
        let? _ := first_err ((fun '(digest, reference) =>
                    match objects !! hex_EncodeToString digest with
                    | Some object =>
                        check (is_ok (ReferenceMatchesObject reference object)) "source snapshot evidence is unavailable"
                    | None => Err "source snapshot evidence is unavailable"
                    end) <$> sd_SourceSnapshots sourcing) in
        let? _ := first_err ((fun '(kind, digest) =>
                    match objects !! hex_EncodeToString digest with
                    | None => Err ("required promotion evidence object is unavailable: " +:+ kind)
                    | Some object =>
                        let? evidence := DecodeEvidence object in
                        ValidateEvaluationEvidence evidence kind (pr_CandidateArtifactVersionDigest promotion)
                          (pr_CandidatePermissionManifestDigest promotion) policyDigest now
                    end) <$> required_evidence promotion) in
        first_err ((fun digest =>
          check (negb (is_none (objects !! hex_EncodeToString digest))) "evaluation manifest evidence closure is incomplete")
          <$> em_EvidenceObjectDigests manifest).

(** The independent verifier's evidence. *)
Definition verifier_evidence (st : DurableState) (request : PromotionRequest) (body : PromotionBody) (entry : Entry)
    (now : N) : result EvaluationResult :=
  let? _ := ReferenceMatchesObject (pr_EvaluationResultReference body) (pq_EvaluationObject request) in
  let? _ := ReferenceMatchesObject (pr_VerifierAuthorizationEnvelopeReference body) (pq_VerifierEnvelopeObject request) in
  let? evaluation := DecodeEvaluation (pq_EvaluationObject request) in
  let? envelope := DecodeEnvelope (pq_VerifierEnvelopeObject request) in
  let? _ := VerifyAuthorization envelope (pq_EvaluationObject request) now (ds_AuthorityEpoch st) in
  let v := en_Body envelope in
  if differ (eb_AuthorityKind v) "evaluation-verifier"
     || negb (sameAuthoritySubject (eb_IssuerSubject v) (pr_IndependentVerifierSubject body))
     || differ (eb_OwnerID v) (ds_OwnerID st)
     || match eb_AgentID v with Some a => differ a (ds_AgentID st) | None => true end
     || negb (eb_PolicyRevision v =? ds_PolicyRevision st) || differ (eb_PolicyDigest v) (ds_PolicyDigest st)
     || negb (er_SchemaVersion evaluation =? SchemaVersion)
     || differ (er_CandidateArtifactDigest evaluation) (pq_ArtifactDigest request)
     || differ (er_PermissionManifestDigest evaluation) (e_PermissionManifestDigest entry)
     || differ (er_PolicyDigest evaluation) (ds_PolicyDigest st)
     || negb (er_PolicyRevision evaluation =? ds_PolicyRevision st) || (er_ExpiresAtUnix evaluation <=? now)
     || differ (er_RetainedControlResultDigest evaluation) (pr_RetainedControlResultDigest body)
  then Err "promotion evaluation or independent verifier evidence is not exact and current"
  else Ok evaluation.

Definition Promote (e : op_env) (request : PromotionRequest) : M unit :=
  with st;
  refuse negb (ds_Initialized st) saying "owner trust root is not initialized";
  do _ <- pure (requireNewCapabilityWorkLocked st);
  let key := hex_EncodeToString (pq_ArtifactDigest request) in
  match ds_Entries st !! key with
  | None => raise ErrNotAdmitted
  | Some entry =>
      refuse negb (bool_decide (e_State entry = StateAdmitted)) || is_none (e_AdmissionEnvelope entry)
        saying ErrNotAdmitted;
      do body <- pure (DecodePromotion (pq_Object request));
      do now <- trustedNowLocked e;
      do entry <- revalidate_stored e key entry now;
      refuse (now <? pr_NotBeforeUnix body) || (pr_ExpiresAtUnix body <=? now) || negb (slen (pr_PromotionID body) =? 16)
             || (pr_RevocationGeneration body =? 0)
        saying "promotion authority is invalid or expired";
      with st;
      refuse negb (promotion_scope st request body entry)
        saying "promotion scope or separation-of-duty predicate failed";
      do _ <- pure (VerifyAuthorization (pq_Envelope request) (pq_Object request) now (ds_AuthorityEpoch st));
      do _ <- pure (verifyPolicyAuthorizationLocked st (pq_Envelope request) "promotion-authority" (pr_AgentID body));
      refuse negb (sameAuthoritySubject (pr_ApproverSubject body) (eb_IssuerSubject (en_Body (pq_Envelope request))))
        saying "promotion approver is not the verified envelope issuer";
      refuse negb (subjectAllowed (ds_AuthorizedSubjects st) "evaluation-verifier"
                     (su_Identifier (pr_IndependentVerifierSubject body)))
        saying "promotion verifier is not pinned by the active owner policy";
      refuse negb (subjectAllowed (ds_AuthorizedSubjects st) "capability-generator" (pr_GeneratorIdentityDigest body))
             || differ (ds_PromotionSeparationPolicyDigest st) v1PromotionSeparationPolicyDigest
        saying "promotion generator or separation policy is not pinned by the active owner policy";
      refuse is_err (verifyPromotionGeneratorLocked st (pq_GeneratorAuthorization request) (pq_Object request) body now)
        saying "promotion generator did not authorize the exact candidate promotion";
      refuse negb (separated (controller st (pr_GeneratorIdentityDigest body))
                     (controller st (su_Identifier (pr_IndependentVerifierSubject body)))
                     (controller st (su_Identifier (pr_ApproverSubject body))))
        saying "promotion generator, verifier, and approver lack policy-bound controller separation";
      let env := en_Body (pq_Envelope request) in
      refuse differ (pr_PromotionID body) (eb_AuthorityID env)
             || negb (pr_AuthorityRevision body =? eb_AuthorityRevision env)
             || negb (optionalBytesEqual (pr_PredecessorEnvelopeDigest body) (eb_PredecessorEnvelopeDigest env))
        saying "promotion body and authorization chain identity diverge";
      do evaluation <- pure (verifier_evidence st request body entry now);
      do _ <- pure (validatePromotionEvidence request body evaluation (ds_OwnerID st) (ds_AgentID st)
                      (ds_PolicyDigest st) (ds_PolicyRevision st) now);
      do _ <- acceptAuthorityHeadLocked (pq_Envelope request);
      let entry := set_e_UpdatedAtUnix now (set_e_State StateAdmitted
        (set_e_PromotionRevocationGeneration (pr_RevocationGeneration body)
        (set_e_PromotionRevision (add64w (pr_AuthorityRevision body) 1)
        (set_e_PromotionEnvelope (Some (pq_Envelope request)) (set_e_PromotionObject (Some (pq_Object request)) entry))))) in
      do _ <- modify (fun st => bump_inventory (put_entry key entry st));
      commit (ev_commit e 1)
  end.

(** ** Installation *)

Definition put_slot (key : string) (slot : InstallationSlot) (st : DurableState) : DurableState :=
  set_ds_InstallationSlots (<[key := slot]> (ds_InstallationSlots st)) st.

(** [deriveInstallationIdentity]: the Action and the request digest an
    installation transaction must carry. *)
Definition deriveInstallationIdentity (ownerID agentID : string) (tx : InstallationTransaction) : result (string * string) :=
  let stripped := {| tx_SchemaVersion := tx_SchemaVersion tx; tx_InstallationID := tx_InstallationID tx;
    tx_State := tx_State tx; tx_ExpectedInventoryRevision := tx_ExpectedInventoryRevision tx;
    tx_PolicyRevision := tx_PolicyRevision tx; tx_ArtifactVersionDigest := tx_ArtifactVersionDigest tx;
    tx_AdmissionEnvelopeDigest := tx_AdmissionEnvelopeDigest tx; tx_QuarantineObjectDigest := tx_QuarantineObjectDigest tx;
    tx_TargetStoreDigest := tx_TargetStoreDigest tx; tx_DependencyClosureDigest := tx_DependencyClosureDigest tx;
    tx_InstallPlanDigest := tx_InstallPlanDigest tx; tx_RollbackPlanDigest := tx_RollbackPlanDigest tx;
    tx_WriterFenceDigest := tx_WriterFenceDigest tx; tx_StableActionID := ""; tx_ExactRequestDigest := "";
    tx_SourceObjectReference := tx_SourceObjectReference tx |} in
  let? canonical := MarshalTransaction stripped in
  let? action := DeriveStableActionID "capability.install"
    (list_to_map [("owner_id", ID (hex_EncodeToString ownerID)); ("agent_id", ID (hex_EncodeToString agentID));
      ("artifact_version_digest", Digest32 ("sha256:" +:+ hex_EncodeToString (tx_ArtifactVersionDigest tx)));
      ("installation_id", ID (hex_EncodeToString (tx_InstallationID tx)));
      ("target_store_digest", Digest32 ("sha256:" +:+ hex_EncodeToString (tx_TargetStoreDigest tx)));
      ("expected_inventory_revision", U64 (tx_ExpectedInventoryRevision tx))]%string) in
  match hex_DecodeString (skip 7 action) with
  | None => Err "decode action"
  | Some actionRaw =>
      let? requestDigest := CommerceRequestDigest canonical in
      match hex_DecodeString (skip 7 requestDigest) with
      | None => Err "decode request digest"
      | Some requestRaw => Ok (actionRaw, requestRaw)
      end
  end.

Definition transaction_current (st : DurableState) (object : ProfileObjectV1) (tx : InstallationTransaction) : bool :=
  (ob_DomainKind object =? ds_DomainKind st) && same (ob_DomainID object) (ds_DomainID st)
  && (tx_SchemaVersion tx =? SchemaVersion) && (slen (tx_InstallationID tx) =? 16)
  && same (tx_InstallationID tx) (ds_InstallationID st) && same (tx_State tx) "prepared"
  && (tx_ExpectedInventoryRevision tx =? ds_InventoryRevision st) && (tx_PolicyRevision tx =? ds_PolicyRevision st)
  && (slen (tx_QuarantineObjectDigest tx) =? 32) && (slen (tx_TargetStoreDigest tx) =? 32)
  && (slen (tx_DependencyClosureDigest tx) =? 32) && (slen (tx_InstallPlanDigest tx) =? 32)
  && (slen (tx_RollbackPlanDigest tx) =? 32) && (slen (tx_WriterFenceDigest tx) =? 32)
  && (slen (tx_StableActionID tx) =? 32) && (slen (tx_ExactRequestDigest tx) =? 32)
  && is_ok (ValidateReference (tx_SourceObjectReference tx)).

(** The second half: materialize the bytes, then record the installation. *)
Definition materialize (e : op_env) (key slotKey target : string) (entry : Entry) (now : N) : M string :=
  do _ <- pure (ev_copy e);
  refuse negb (matches (ev_manifest e target) (e_ObservedContentDigest entry))
    saying "materialized artifact verification failed";
  do _ <- pure (ev_seal e);
  let entry := set_e_UpdatedAtUnix now (set_e_InstallationRevision (add64w (e_InstallationRevision entry) 1)
                 (set_e_InstalledPath target entry)) in
  do _ <- modify (fun st =>
    set_ds_InstallationSlots (alter (set_is_State "installed") slotKey (ds_InstallationSlots st))
      (bump_inventory (put_entry key entry st)));
  do _ <- commit (ev_commit e 2);
  ret target.

Definition Install (e : op_env) (request : InstallationRequest) : M string :=
  with st;
  refuse negb (ds_Initialized st) saying "authorized installation broker is unavailable";
  do _ <- pure (requireNewCapabilityWorkLocked st);
  do tx <- pure (DecodeTransaction (iq_Object request));
  do now <- trustedNowLocked e;
  with st;
  refuse negb (transaction_current st (iq_Object request) tx) saying "installation transaction is incomplete or stale";
  do _ <- pure (VerifyAuthorization (iq_Envelope request) (iq_Object request) now (ds_AuthorityEpoch st));
  do _ <- pure (verifyPolicyAuthorizationLocked st (iq_Envelope request) "capability-installation" (ds_AgentID st));
  do _ <- pure (ev_install e tx);
  refuse match deriveInstallationIdentity (ds_OwnerID st) (ds_AgentID st) tx with
         | Ok (action, digest) => differ action (tx_StableActionID tx) || differ digest (tx_ExactRequestDigest tx)
         | Err _ => true
         end
    saying "installation semantic Action identity mismatch";
  refuse differ (tx_TargetStoreDigest tx)
           (sha256_Sum256 ("tos.capability-target-store.v1" +:+ sep 0 +:+ ds_InstallationID st))
    saying "installation target store mismatch";
  let key := hex_EncodeToString (tx_ArtifactVersionDigest tx) in
  match ds_Entries st !! key with
  | None => raise ErrNotAdmitted
  | Some entry =>
      match e_AdmissionEnvelope entry with
      | None => raise ErrNotAdmitted
      | Some admissionEnvelope =>
          refuse negb (bool_decide (e_State entry = StateAdmitted)) && negb (bool_decide (e_State entry = StateActive))
            saying ErrNotAdmitted;
          do entry <- revalidate_stored e key entry now;
          refuse same (e_QuarantinePath entry) "" || differ (tx_QuarantineObjectDigest tx) (e_ObservedContentDigest entry)
            saying ErrStaleAuthority;
          refuse negb (matches (authorizationEnvelopeDigest admissionEnvelope) (tx_AdmissionEnvelopeDigest tx))
            saying ErrStaleAuthority;
          let slotKey := hex_EncodeToString (tx_StableActionID tx) in
          let target := ev_target e key in
          with st;
          match ds_InstallationSlots st !! slotKey with
          | Some prior =>
              refuse differ (is_ExactRequestDigest prior) (tx_ExactRequestDigest tx)
                     || differ (is_ArtifactDigest prior) (tx_ArtifactVersionDigest tx)
                saying "installation Action identity conflict";
              if same (is_State prior) "installed" then ret (is_TargetPath prior)
              else
              refuse differ (is_State prior) "activating" saying ErrAmbiguousStart;
              do actual <- pure (ev_manifest e (e_QuarantinePath entry));
              refuse differ actual (e_ObservedContentDigest entry)
                saying "quarantine bytes do not match artifact digest";
              materialize e key slotKey target entry now
          | None =>
              do _ <- acceptAuthorityHeadLocked (iq_Envelope request);
              do actual <- pure (ev_manifest e (e_QuarantinePath entry));
              refuse differ actual (e_ObservedContentDigest entry)
                saying "quarantine bytes do not match artifact digest";
              do _ <- modify (put_slot slotKey
                {| is_ActionID := tx_StableActionID tx; is_ExactRequestDigest := tx_ExactRequestDigest tx;
                   is_ArtifactDigest := tx_ArtifactVersionDigest tx; is_State := "activating"; is_TargetPath := target |});
              do _ <- commit (ev_commit e 1);
              materialize e key slotKey target entry now
          end
      end
  end.

(** ** The gate of executions *)

Definition valueOrZero (value : option N) : N := default 0 value.

Definition capabilityUseRequestDigest (domainKind : N) (domainID : string) (binding : UseBinding) : result string :=
  let? object := NewBindingObject domainKind domainID binding in ObjectDigest object.

Definition singleOutcomeAuthorityLocked (st : DurableState) : result string :=
  match default [] (ds_AuthorizedSubjects st !! "action-outcome"%string) with
  | [value] => if no_digest value then Err "exactly one policy-bound outcome authority is required at action admission"
               else Ok value
  | _ => Err "exactly one policy-bound outcome authority is required at action admission"
  end.

Definition useSlotMatchesExactRequest (current : UseSlot) (actionID exactRequestDigest : string) : bool :=
  same (us_State current) "started" && same (us_ActionID current) actionID
  && same (us_ExactRequestDigest current) exactRequestDigest.

(** The lease: decoded, current, authorized, and bound to the request. *)
Definition use_lease (st : DurableState) (request : StartRequest) (now : N) : result (UseLease * string) :=
  let binding := sq_Binding request in
  let? _ := ValidateUseBindingShape binding (sq_Remote request) in
  let? lease := DecodeLease (sq_LeaseObject request) in
  let? _ := ValidateUseLease lease now (ds_AuthorityEpoch st) (bi_AdmissionRevocationGeneration binding)
              (valueOrZero (bi_PromotionRevocationGeneration binding)) in
  let? _ := VerifyAuthorization (sq_LeaseEnvelope request) (sq_LeaseObject request) now (ds_AuthorityEpoch st) in
  if same (ob_ObjectKind (sq_PermissionSubsetObject request)) ""
  then Err "exact selected permission subset is required"
  else
    let? _ := verifyPolicyAuthorizationLocked st (sq_LeaseEnvelope request) "use-lease" (le_AgentID lease) in
    if negb (ob_DomainKind (sq_LeaseObject request) =? ds_DomainKind st)
       || differ (ob_DomainID (sq_LeaseObject request)) (ds_DomainID st)
    then Err ErrStaleAuthority
    else
      let? leaseDigest := ObjectDigest (sq_LeaseObject request) in
      if differ (bi_UseLeaseDigest binding) leaseDigest
         || is_err (ValidateLeaseBinding lease binding (ds_InstallationID st))
      then Err ErrStaleAuthority
      else Ok (lease, leaseDigest).

(** The stored admission is still valid, and the one the request binds. *)
Definition use_admission (st : DurableState) (request : StartRequest) (lease : UseLease) (entry : Entry) (now : N)
    : result unit :=
  match e_AdmissionObject entry, e_AdmissionEnvelope entry with
  | Some object, Some envelope =>
      match DecodeAdmission object with
      | Err _ => Err "stored admission authority is invalid or expired"
      | Ok body =>
          if is_err (ValidateAdmission body now) || is_err (VerifyAuthorization envelope object now (ds_AuthorityEpoch st))
          then Err "stored admission authority is invalid or expired"
          else
            match authorizationEnvelopeDigest envelope with
            | Err _ => Err ErrStaleAuthority
            | Ok digest =>
                if differ digest (bi_AdmissionEnvelopeDigest (sq_Binding request))
                   || differ digest (le_AdmissionEnvelopeDigest lease)
                then Err ErrStaleAuthority else Ok tt
            end
      end
  | _, _ => Err "stored admission authority is invalid or expired"
  end.

(** The stored promotion, when the artifact needs one. *)
Definition use_promotion (st : DurableState) (request : StartRequest) (entry : Entry) (now : N) : result unit :=
  if e_PromotionRequired entry then
    match e_PromotionObject entry, e_PromotionEnvelope entry with
    | Some object, Some envelope =>
        match DecodePromotion object with
        | Err _ => Err "stored promotion authority is invalid or expired"
        | Ok body =>
            if (now <? pr_NotBeforeUnix body) || (pr_ExpiresAtUnix body <=? now)
               || is_err (VerifyAuthorization envelope object now (ds_AuthorityEpoch st))
            then Err "stored promotion authority is invalid or expired"
            else
              match authorizationEnvelopeDigest envelope, bi_PromotionEnvelopeDigest (sq_Binding request) with
              | Ok digest, Some bound => if differ bound digest then Err ErrStaleAuthority else Ok tt
              | _, _ => Err ErrStaleAuthority
              end
        end
    | _, _ => Err ErrPromotionRequired
    end
  else if is_none (bi_PromotionEnvelopeDigest (sq_Binding request)) then Ok tt else Err ErrStaleAuthority.

(** The selected permissions are among the admitted ones. *)
Definition use_permissions (request : StartRequest) (entry : Entry) : result unit :=
  match e_PermissionObject entry with
  | None => Err "admitted permission manifest is unavailable"
  | Some object =>
      let? admitted := DecodePermission object in
      let? selected := DecodePermission (sq_PermissionSubsetObject request) in
      if negb (matches (ObjectDigest (sq_PermissionSubsetObject request)) (bi_PermissionSubsetDigest (sq_Binding request)))
         || is_err (PermissionSubsetOf selected admitted)
      then Err "selected permission subset exceeds admitted authority"
      else Ok tt
  end.

(** The binding names the current generations. *)
Definition use_generations (st : DurableState) (binding : UseBinding) (lease : UseLease) (entry : Entry) : bool :=
  (e_AdmissionRevision entry =? bi_AdmissionRevision binding)
  && (e_AdmissionRevocationGeneration entry =? bi_AdmissionRevocationGeneration binding)
  && (e_PromotionRevision entry =? valueOrZero (bi_PromotionRevision binding))
  && (e_PromotionRevocationGeneration entry =? valueOrZero (bi_PromotionRevocationGeneration binding))
  && (bi_AuthorityEpoch binding =? ds_AuthorityEpoch st) && (bi_PolicyRevision binding =? ds_PolicyRevision st)
  && same (bi_PolicyDigest binding) (ds_PolicyDigest st)
  && (bi_ControlScopeGeneration binding =? ds_ControlScopeGeneration st)
  && (bi_InventoryRevision binding =? ds_InventoryRevision st)
  && (bi_InstallationRevision binding =? e_InstallationRevision entry)
  && same (bi_LoadedObjectDigest binding) (bi_ArtifactVersionDigest binding)
  && same (bi_PermissionSubsetDigest binding) (le_PermissionSubsetDigest lease).

Definition use_observed (observed : ObservedUseContext) (binding : UseBinding) : bool :=
  same (ou_LoadedObjectDigest observed) (bi_LoadedObjectDigest binding)
  && (ou_InstallationRevision observed =? bi_InstallationRevision binding)
  && same (ou_RuntimeAndSandboxDigest observed) (bi_RuntimeAndSandboxDigest binding)
  && same (ou_EffectiveEnvironmentDigest observed) (bi_EffectiveEnvironmentDigest binding)
  && same (ou_CredentialCapabilityReferenceSetDigest observed) (bi_CredentialCapabilityReferenceSetDigest binding)
  && same (ou_FilesystemHandleSetDigest observed) (bi_FilesystemHandleSetDigest binding)
  && same (ou_NetworkBrokerPolicyDigest observed) (bi_NetworkBrokerPolicyDigest binding)
  && optionalBytesEqual (ou_RemoteSessionHandshakeDigest observed) (bi_RemoteSessionHandshakeDigest binding).

Definition started_slot (st : DurableState) (binding : UseBinding) (requestDigest leaseDigest tokenDigest outcome : string)
    (entry : Entry) (now : N) : UseSlot :=
  {| us_ExecutionID := bi_ExecutionID binding; us_ActionID := bi_ActionID binding;
     us_ExactRequestDigest := requestDigest; us_ArtifactDigest := bi_ArtifactVersionDigest binding;
     us_State := "started"; us_LeaseDigest := leaseDigest; us_ControlScopeGeneration := ds_ControlScopeGeneration st;
     us_AdmissionRevision := e_AdmissionRevision entry;
     us_AdmissionRevocationGeneration := e_AdmissionRevocationGeneration entry;
     us_PromotionRevision := e_PromotionRevision entry;
     us_PromotionRevocationGeneration := e_PromotionRevocationGeneration entry; us_StartedAtUnix := now;
     us_ResolvedAtUnix := 0; us_TerminalDisposition := ""; us_ResolutionTokenDigest := tokenDigest;
     us_ResultDigest := ""; us_OutcomeEvidenceDigest := ""; us_OutcomeAuthorityID := outcome;
     us_OutcomeAuthorityEpoch := ds_AuthorityEpoch st |}.

(** [create] carries the digest of the resolution token of a start. *)
Definition validateUse (e : op_env) (request : StartRequest) (create : option string) : M unit :=
  let binding := sq_Binding request in
  with st;
  refuse ds_OwnerPaused st saying "owner control scope is paused";
  do now <- trustedNowLocked e;
  with st;
  refuse negb (ds_Initialized st) saying "owner trust root is not initialized";
  refuse negb (is_none create) && negb (is_none (ds_OwnerExit st)) saying "owner exit fences new capability work";
  do (lease, leaseDigest) <- pure (use_lease st request now);
  let key := hex_EncodeToString (bi_ArtifactVersionDigest binding) in
  match ds_Entries st !! key with
  | None => raise ErrUnverifiedLegacy
  | Some entry =>
      refuse bool_decide (e_State entry = StateUnverifiedLegacy) saying ErrUnverifiedLegacy;
      refuse negb (bool_decide (e_State entry = StateActive)) || is_none (e_AdmissionEnvelope entry)
             || same (e_InstalledPath entry) ""
        saying ErrNotAdmitted;
      do entry <- revalidate_stored e key entry now;
      refuse is_none (e_PermissionObject entry) saying "admitted permission manifest is unavailable";
      do _ <- pure (use_admission st request lease entry now);
      do _ <- pure (use_promotion st request entry now);
      do _ <- pure (use_permissions request entry);
      refuse negb (matches (ev_manifest e (e_InstalledPath entry)) (e_ObservedContentDigest entry))
        saying "installed capability bytes changed after verification";
      refuse negb (use_generations st binding lease entry) saying ErrStaleAuthority;
      refuse negb (use_observed (sq_Observed request) binding)
        saying "capability start rejected caller-selected runtime resources";
      do requestDigest <- pure (capabilityUseRequestDigest (ds_DomainKind st) (ds_DomainID st) binding);
      let slotKey := hex_EncodeToString (bi_ExecutionID binding) in
      with st;
      match ds_UseSlots st !! slotKey with
      | Some current =>
          if useSlotMatchesExactRequest current (bi_ActionID binding) requestDigest && is_none create
          then ret tt else raise ErrAmbiguousStart
      | None =>
          match create with
          | None => raise "execution slot is not durably started"
          | Some tokenDigest =>
              refuse no_digest tokenDigest saying "execution slot is not durably started";
              do outcome <- pure (singleOutcomeAuthorityLocked st);
              do _ <- modify (fun st => set_ds_UseSlots
                (<[slotKey := started_slot st binding requestDigest leaseDigest tokenDigest outcome entry now]>
                   (ds_UseSlots st)) (put_entry key entry st));
              commit (ev_commit e 1)
          end
      end
  end.

Definition use_token_digest (token : string) : string :=
  sha256_Sum256 ("openfox.capability-use-resolution.v1" +:+ sep 0 +:+ token).

Definition PrepareUse (e : op_env) (request : StartRequest) : M string :=
  match ev_random e with
  | None => raise "generate execution resolution capability"
  | Some token =>
      do _ <- validateUse e request (Some (use_token_digest token));
      ret token
  end.

Definition RevalidateUse (e : op_env) (request : StartRequest) : M unit := validateUse e request None.

(** ** Resolution *)

Definition use_disposition (disposition : string) : bool :=
  bool_decide (disposition ∈ ["succeeded"; "failed"; "killed"; "rejected"; "ambiguous"]%string).

(** The authority a success was started under still stands. *)
Definition still_authorized (st : DurableState) (slot : UseSlot) : bool :=
  match ds_Entries st !! hex_EncodeToString (us_ArtifactDigest slot) with
  | None => false
  | Some entry =>
      bool_decide (e_State entry = StateActive) && (us_ControlScopeGeneration slot =? ds_ControlScopeGeneration st)
      && (e_AdmissionRevision entry =? us_AdmissionRevision slot)
      && (e_AdmissionRevocationGeneration entry =? us_AdmissionRevocationGeneration slot)
      && (e_PromotionRevision entry =? us_PromotionRevision slot)
      && (e_PromotionRevocationGeneration entry =? us_PromotionRevocationGeneration slot)
  end.

Definition put_use (key : string) (slot : UseSlot) (st : DurableState) : DurableState :=
  set_ds_UseSlots (<[key := slot]> (ds_UseSlots st)) st.

Definition ResolveUse (e : op_env) (executionID token disposition : string) : M unit :=
  refuse negb (use_disposition disposition) saying "execution disposition is invalid";
  let key := hex_EncodeToString executionID in
  with st;
  match ds_UseSlots st !! key with
  | None => raise "execution slot is unknown"
  | Some slot =>
      refuse negb (slen token =? 32) || differ (use_token_digest token) (us_ResolutionTokenDigest slot)
        saying "execution resolution capability is invalid";
      if same (us_State slot) "terminal" then
        if same (us_TerminalDisposition slot) disposition then ret tt
        else raise "execution slot terminal disposition conflicts"
      else if same (us_State slot) "ambiguous" then
        if same disposition "ambiguous" then ret tt
        else raise "ambiguous execution requires authoritative outcome evidence"
      else
      refuse same disposition "succeeded" && negb (still_authorized st slot) saying ErrStaleAuthority;
      do now <- trustedNowLocked e;
      let slot := set_us_TerminalDisposition disposition (set_us_ResolvedAtUnix now
        (set_us_State (if same disposition "ambiguous" then "ambiguous" else "terminal") slot)) in
      do _ <- modify (put_use key slot);
      commit (ev_commit e 1)
  end.

(** ** MCP actions (mcp_action.go) *)

Definition ErrAmbiguousMCPAction : string := "MCP action is prepared or ambiguous and cannot be replayed".

Definition mcpResolutionTokenDigest (actionID requestDigest token : string) : string :=
  sha256_Sum256 ("openfox.mcp-resolution-capability.v1" +:+ sep 0 +:+ actionID +:+ requestDigest +:+ token).

Definition put_action (key : string) (action : MCPToolAction) (st : DurableState) : DurableState :=
  bump_inventory (set_ds_MCPToolActions (<[key := action]> (ds_MCPToolActions st)) st).

Definition mcp_open (state : string) : bool := same state "prepared" || same state "ambiguous".

Definition PrepareMCPAction (e : op_env) (actionID exactRequestDigest : string) : M string :=
  refuse no_digest actionID || no_digest exactRequestDigest saying "MCP action identity is invalid";
  match ev_random e with
  | None => raise "MCP resolution capability generation failed"
  | Some token =>
      let tokenDigest := mcpResolutionTokenDigest actionID exactRequestDigest token in
      with st;
      do _ <- pure (requireNewCapabilityWorkLocked st);
      do outcome <- pure (singleOutcomeAuthorityLocked st);
      let key := hex_EncodeToString actionID in
      match ds_MCPToolActions st !! key with
      | Some prior =>
          refuse differ (ma_ExactRequestDigest prior) exactRequestDigest
            saying "MCP Action ID conflicts with another exact request";
          raise ErrAmbiguousMCPAction
      | None =>
          refuse map_any (fun _ prior => same (ma_ExactRequestDigest prior) exactRequestDigest && mcp_open (ma_State prior))
                   (ds_MCPToolActions st)
            saying ErrAmbiguousMCPAction;
          do now <- trustedNowLocked e;
          do _ <- modify (fun st => put_action key
            {| ma_ActionID := actionID; ma_ExactRequestDigest := exactRequestDigest;
               ma_ResolutionTokenDigest := tokenDigest; ma_State := "prepared"; ma_PreparedAtUnix := now;
               ma_ResolvedAtUnix := 0; ma_TerminalDisposition := ""; ma_ResultDigest := "";
               ma_OutcomeEvidenceDigest := ""; ma_OutcomeAuthorityID := outcome;
               ma_OutcomeAuthorityEpoch := ds_AuthorityEpoch st |} st);
          do _ <- commit (ev_commit e 1);
          ret token
      end
  end.

Definition ResolveMCPAction (e : op_env) (actionID exactRequestDigest token disposition : string) : M unit :=
  refuse negb (bool_decide (disposition ∈ ["succeeded"; "failed"; "ambiguous"]%string))
    saying "MCP action disposition is invalid";
  refuse no_digest token saying "MCP resolution capability is invalid";
  let key := hex_EncodeToString actionID in
  with st;
  match ds_MCPToolActions st !! key with
  | None => raise "MCP action is absent, conflicting, or already terminal"
  | Some record =>
      refuse differ (ma_ExactRequestDigest record) exactRequestDigest
             || differ (ma_ResolutionTokenDigest record) (mcpResolutionTokenDigest actionID exactRequestDigest token)
             || negb (mcp_open (ma_State record))
        saying "MCP action is absent, conflicting, or already terminal";
      if same (ma_State record) "ambiguous" then
        if same disposition "ambiguous" then ret tt
        else raise "ambiguous MCP action requires authoritative sink evidence"
      else
      do now <- trustedNowLocked e;
      do _ <- modify (put_action key (set_ma_ResolvedAtUnix now (set_ma_State disposition record)));
      commit (ev_commit e 1)
  end.

(** ** Recovery from authoritative evidence (action_outcome.go) *)

(** The record the evidence binds, with what replaces it. *)
Definition recovered (st : DurableState) (evidence : OutcomeEvidence) (evidenceDigest : string) (now : N)
    : result (DurableState -> DurableState) :=
  if same (ev_ActionKind evidence) "mcp-tool" then
    let key := hex_EncodeToString (ev_ActionID evidence) in
    match ds_MCPToolActions st !! key with
    | None => Err "outcome does not bind the exact ambiguous MCP action"
    | Some record =>
        if differ (ma_State record) "ambiguous" || differ (ma_ExactRequestDigest record) (ev_ExactRequestDigest evidence)
           || differ (ma_OutcomeAuthorityID record) (ev_SinkAuthorityID evidence)
           || negb (ma_OutcomeAuthorityEpoch record =? ev_SinkEpoch evidence)
        then Err "outcome does not bind the exact ambiguous MCP action"
        else Ok (fun st => set_ds_MCPToolActions (<[key :=
          set_ma_OutcomeEvidenceDigest evidenceDigest (set_ma_ResultDigest (ev_ResultDigest evidence)
            (set_ma_ResolvedAtUnix now (set_ma_TerminalDisposition (ev_Disposition evidence)
              (set_ma_State "terminal" record))))]> (ds_MCPToolActions st)) st)
    end
  else if same (ev_ActionKind evidence) "capability-use" then
    match ev_ExecutionID evidence with
    | None => Err "nil pointer dereference"
    | Some executionID =>
        let key := hex_EncodeToString executionID in
        match ds_UseSlots st !! key with
        | None => Err "outcome does not bind the exact ambiguous capability execution"
        | Some slot =>
            if differ (us_State slot) "ambiguous" || differ (us_ExecutionID slot) executionID
               || differ (us_ActionID slot) (ev_ActionID evidence)
               || differ (us_ExactRequestDigest slot) (ev_ExactRequestDigest evidence)
               || differ (us_OutcomeAuthorityID slot) (ev_SinkAuthorityID evidence)
               || negb (us_OutcomeAuthorityEpoch slot =? ev_SinkEpoch evidence)
            then Err "outcome does not bind the exact ambiguous capability execution"
            else Ok (put_use key
              (set_us_OutcomeEvidenceDigest evidenceDigest (set_us_ResultDigest (ev_ResultDigest evidence)
                (set_us_ResolvedAtUnix now (set_us_TerminalDisposition (ev_Disposition evidence)
                  (set_us_State "terminal" slot))))))
        end
    end
  else Err "unsupported ambiguous action kind".

Definition RecoverAmbiguousAction (e : op_env) (request : ActionOutcomeRecoveryRequest) : M unit :=
  with st;
  refuse negb (ds_Initialized st) saying "owner trust root is not initialized";
  do now <- trustedNowLocked e;
  match DecodeOutcome (oq_Object request) with
  | Err _ => raise "action outcome evidence is invalid"
  | Ok evidence =>
      refuse is_err (ValidateActionOutcomeEvidence evidence now) saying "action outcome evidence is invalid";
      with st;
      refuse negb (ob_DomainKind (oq_Object request) =? ds_DomainKind st)
             || differ (ob_DomainID (oq_Object request)) (ds_DomainID st)
             || differ (ev_OwnerID evidence) (ds_OwnerID st) || differ (ev_AgentID evidence) (ds_AgentID st)
             || differ (ev_SinkAuthorityID evidence) (su_Identifier (eb_IssuerSubject (en_Body (oq_Envelope request))))
        saying "action outcome domain, owner, Agent, or sink authority mismatch";
      do _ <- pure (VerifyAuthorization (oq_Envelope request) (oq_Object request) now (ds_AuthorityEpoch st));
      do _ <- pure (verifyPolicyAuthorizationLocked st (oq_Envelope request) "action-outcome" (ev_AgentID evidence));
      do evidenceDigest <- pure (ObjectDigest (oq_Object request));
      do change <- pure (recovered st evidence evidenceDigest now);
      do _ <- acceptAuthorityHeadLocked (oq_Envelope request);
      do _ <- modify (fun st => bump_inventory (change st));
      commit (ev_commit e 1)
  end.

End gate.

End CapGate.
