(* ===== verification/CapOwner.v ===== *)
(** * Capability control: owner commands

    src/pkg/capabilitycontrol/owner_command.go: pausing and resuming the agent,
    the staged exit of an owner, activation, suspension, revocation and removal
    of capabilities, revocation of device sessions. A command is verified
    against the owner's policy, then applied; the two steps take the store's
    mutex separately. *)

From S2P Require Import Prelude GoLib GoText FileStore Ledger Protocol CapTypes CapStore CapOps CapGate.
#[local] Open Scope N_scope.

Module CapOwner.
Import CapTypes CapStore CapOps CapGate.

(** ** Data of the protocol and messenger packages *)

Record OwnerCommandEffectV1 := {
  ef_DomainKind : N;
  ef_DomainID : string;
  ef_OwnerID : string;
  ef_AgentID : option string;
  ef_PolicyRevision : N;
  ef_PolicyDigest : string;
  ef_ControlScopeGeneration : N;
  ef_CommandKind : string;
  ef_TargetObjectKind : string;
  ef_TargetObjectID : string;
  ef_ExpectedTargetRevision : N;
  ef_SinkAuthorityID : string;
  ef_SinkClusterEpoch : N;
  ef_AuthorityPredicateSetDigest : string;
  ef_SemanticConfirmationDigest : string;
  ef_ExactParameterDigest : string;
  ef_CreatedAtUnix : N;
  ef_ExpiresAtUnix : N;
  ef_rest : string
}.

(** [OwnerCommandAuthorizationAttemptV1] *)
Record Attempt := {
  at_ActionID : string;
  at_ExactRequestDigest : string;
  at_DeviceSessionDigest : string;
  at_SessionGeneration : N;
  at_SessionRevocationGeneration : N;
  at_AuthorityEpoch : N;
  at_AttemptedAtUnix : N;
  at_ExpiresAtUnix : N;
  at_AuthorizationEnvelopes : list Envelope
}.

(** [ownercontrol.AuthenticatedPrincipal] *)
Record Principal := {
  pn_Audience : string;
  pn_ChannelBindingDigest : string;
  pn_DomainKind : N;
  pn_DomainID : string;
  pn_OwnerID : string;
  pn_SessionDigest : string
}.

(** [OwnerCommandLeaseV1] *)
Record CommandLease := {
  cl_SchemaVersion : N;
  cl_DomainKind : N;
  cl_DomainID : string;
  cl_OwnerID : string;
  cl_DeviceSessionDigest : string;
  cl_AllowedCommandClassesDigest : string;
  cl_Audience : string;
  cl_SinkAuthorityID : string;
  cl_SinkClusterEpoch : N;
  cl_ControlScopeGeneration : N;
  cl_PolicyRevision : N;
  cl_PolicyDigest : string;
  cl_AuthorityEpoch : N;
  cl_NotBeforeUnix : N;
  cl_ExpiresAtUnix : N
}.

(** [OwnerCommandAuthorizationPredicateSetV1] *)
Record Predicate := {
  pd_RequiredAuthorityKinds : list string;
  pd_MinimumDistinctPrincipals : N;
  pd_RequireIndependentApprover : bool
}.

(** [SemanticConfirmationV1] *)
Record Confirmation := {
  cf_DisplayProfileURI : string;
  cf_DisplayProfileVersion : N;
  cf_RiskClass : string;
  cf_DomainID : string;
  cf_OwnerID : string;
  cf_ActionID : string;
  cf_CommandKind : string;
  cf_Target : string;
  cf_RecipientOrDestination : option string;
  cf_AmountAndAssetOrCostCeiling : option string;
  cf_PermissionDelta : string;
  cf_PolicyDelta : string;
  cf_CriticalParameters : list string;
  cf_ExpiresAtUnix : N
}.

Record SubmissionEvidence := {
  sv_AllowedCommandKinds : list string;
  sv_CommandLeaseObject : ProfileObjectV1;
  sv_CommandLeaseAuthorization : Envelope;
  sv_SemanticConfirmation : Confirmation;
  sv_Parameters : string
}.

Record OwnerCommandParametersV1 := {
  in_SchemaVersion : N;
  in_ArtifactDigest : string;
  in_SessionDigest : string;
  in_ExpectedGeneration : N;
  in_NewGeneration : N;
  in_OwnerExitPlan : option OwnerExitPlanV1
}.

Class OwnerControl := {
  OwnerCommandClassSetDigest : list string -> result string;
  DecodeCommandLease : ProfileObjectV1 -> result CommandLease;
  PredicateSet : OwnerCommandEffectV1 -> result Predicate;
  PredicateSetDigest : OwnerCommandEffectV1 -> result string;
  SemanticConfirmationDigest : Confirmation -> result string;
  ValidateSemanticConfirmation : Confirmation -> OwnerCommandEffectV1 -> string -> N -> result unit;
  UnmarshalParameters : string -> result OwnerCommandParametersV1;
  MarshalParameters : OwnerCommandParametersV1 -> result string;
  NewEffectObject : N -> string -> OwnerCommandEffectV1 -> ProfileObjectV1;
  Ed25519KeyReference : string -> string;
  OwnerCommandConfirmationProfileV1 : string
}.

Section owner.
Context {TC : TrustedCapability} {SHA : Sha256} {SJ : StateJSON} {MA : MonotonicAuthority} {OC : OwnerControl}.

(** ** The commands *)

Inductive command :=
| OwnerPause | OwnerResume | OwnerExit
| Activate | Suspend | Resume | Revoke | PromotionRevoke | Remove
| SessionRevoke.

Definition command_of (kind : string) : option command :=
  if same kind "owner.pause" then Some OwnerPause
  else if same kind "owner.resume" then Some OwnerResume
  else if same kind "owner.exit" then Some OwnerExit
  else if same kind "capability.promotion.activate" then Some Activate
  else if same kind "capability.suspend" then Some Suspend
  else if same kind "capability.resume" then Some Resume
  else if same kind "capability.revoke" then Some Revoke
  else if same kind "capability.promotion.revoke" then Some PromotionRevoke
  else if same kind "capability.remove" then Some Remove
  else if same kind "device-session.revoke" || same kind "session.revoke" then Some SessionRevoke
  else None.

Definition ownerCommandAllowedWhilePaused (kind : string) : bool :=
  match command_of kind with
  | Some OwnerPause | Some Activate | Some Resume | None => false
  | Some _ => true
  end.

Definition validateOwnerExitPlan (plan : OwnerExitPlanV1) (ownerID policyDigest : string) : result unit :=
  if negb (slen (xp_ExitID plan) =? 16) || differ (xp_OwnerID plan) ownerID
     || differ (xp_PredecessorPolicyDigest plan) policyDigest || no_digest (xp_StageEvidenceRoot plan)
     || no_digest (xp_AmbiguousActionSetRoot plan) || no_digest (xp_CustodyDispositionDigest plan)
     || no_digest (xp_ExportDigest plan)
     || match xp_TombstoneDigest plan with Some t => no_digest t | None => false end
  then Err "owner exit plan fields are incomplete"
  else if same (xp_Stage plan) "tombstone" && is_none (xp_TombstoneDigest plan)
  then Err "terminal owner exit lacks its irreversible tombstone"
  else Ok tt.

Definition validOwnerExitTransition (from to : string) : bool :=
  if same from "" then same to "fence-new-work"
  else if same from "fence-new-work" then same to "revoke-authorities" || same to "abort"
  else if same from "revoke-authorities" then same to "resolve-actions"
  else if same from "resolve-actions" then same to "custody-disposition"
  else if same from "custody-disposition" then same to "export-evidence"
  else if same from "export-evidence" then same to "tombstone"
  else false.

Definition ambiguousActionSetRootLocked (st : DurableState) : string :=
  let actions := (fun '(key, action) => "mcp:" +:+ key +:+ ":" +:+ hex_EncodeToString (ma_ExactRequestDigest action))
                   <$> List.filter (fun '(_, action) => mcp_open (ma_State action)) (map_to_list (ds_MCPToolActions st)) in
  let uses := (fun '(key, slot) => "use:" +:+ key +:+ ":" +:+ hex_EncodeToString (us_ExactRequestDigest slot))
                <$> List.filter (fun '(_, slot) => differ (us_State slot) "terminal") (map_to_list (ds_UseSlots st)) in
  sha256_Sum256 ("tos.owner-exit-ambiguous-action-set.v1" +:+ sep 0 +:+
    foldr (fun item acc => item +:+ sep 0 +:+ acc) ""%string (sort_Strings (actions ++ uses))).

(** [ownerCommandTarget]: the target kind and identifier the parameters name. *)
Definition ownerCommandTarget (effect : OwnerCommandEffectV1) (input : OwnerCommandParametersV1) : result (string * string) :=
  let no_artifact := same (in_ArtifactDigest input) "" in
  let no_session := same (in_SessionDigest input) "" in
  let no_generations := (in_ExpectedGeneration input =? 0) && (in_NewGeneration input =? 0) in
  let? (kind, identifier) :=
    match command_of (ef_CommandKind effect) with
    | Some OwnerPause | Some OwnerResume =>
        match ef_AgentID effect with
        | Some agent =>
            if same agent "" || negb no_artifact || negb no_session || negb no_generations
               || negb (is_none (in_OwnerExitPlan input))
            then Err "owner command parameters do not identify the current Agent"
            else Ok ("agent"%string, agent)
        | None => Err "owner command parameters do not identify the current Agent"
        end
    | Some OwnerExit =>
        if is_none (in_OwnerExitPlan input) || negb no_artifact || negb no_session || negb no_generations
        then Err "owner exit parameters do not identify exactly one plan"
        else Ok ("owner"%string, ef_OwnerID effect)
    | Some SessionRevoke =>
        if no_digest (in_SessionDigest input) || negb no_artifact || negb (is_none (in_OwnerExitPlan input))
        then Err "session command parameters do not identify one session"
        else Ok ("device-session"%string, in_SessionDigest input)
    | Some _ =>
        if no_digest (in_ArtifactDigest input) || negb no_session || negb (is_none (in_OwnerExitPlan input))
        then Err "capability command parameters do not identify one artifact"
        else Ok ("capability"%string, in_ArtifactDigest input)
    | None => Err "owner command has no released target projection"
    end in
  if differ (ef_TargetObjectKind effect) kind || differ (ef_TargetObjectID effect) identifier
  then Err "owner command effect target differs from its canonical parameter target"
  else Ok (kind, identifier).

Definition validateOwnerCommandScopeLocked (st : DurableState) (effect : OwnerCommandEffectV1) : result unit :=
  if negb (ds_Initialized st) || negb (ef_DomainKind effect =? ds_DomainKind st)
     || differ (ef_DomainID effect) (ds_DomainID st) || differ (ef_OwnerID effect) (ds_OwnerID st)
     || match ef_AgentID effect with Some a => differ a (ds_AgentID st) | None => true end
  then Err "owner command effect is outside the current owner-scoped Agent domain"
  else Ok tt.

(** ** What the owner is shown *)

Definition generations (label digest : string) (input : OwnerCommandParametersV1) : string :=
  label +:+ "=sha256:" +:+ hex_EncodeToString digest +:+ ";expected_generation=" +:+
  FormatUint10 (in_ExpectedGeneration input) +:+ ";new_generation=" +:+ FormatUint10 (in_NewGeneration input).

Definition permission_delta (effect : OwnerCommandEffectV1) (input : OwnerCommandParametersV1) : result string :=
  match command_of (ef_CommandKind effect) with
  | Some OwnerPause | Some OwnerResume => Ok ""%string
  | Some OwnerExit =>
      match in_OwnerExitPlan input with
      | Some plan => Ok ("exit_stage=" +:+ xp_Stage plan +:+ ";exit_revision=" +:+ FormatUint10 (xp_Revision plan))
      | None => Err "owner exit parameters do not contain exactly one exit plan"
      end
  | Some SessionRevoke => Ok (generations "session" (in_SessionDigest input) input)
  | Some _ => Ok (generations "artifact" (in_ArtifactDigest input) input)
  | None => Err "owner command has no released confirmation renderer"
  end.

(** [RenderOwnerCommandConfirmation]: the parameter checks of its switch are
    those of [ownerCommandTarget], which it calls first. *)
Definition RenderOwnerCommandConfirmation (effect : OwnerCommandEffectV1) (input : OwnerCommandParametersV1)
    (actionID : string) (expiresAtUnix : N) : result Confirmation :=
  let? (targetKind, targetID) := ownerCommandTarget effect input in
  let? permission := permission_delta effect input in
  let policy := "revision=" +:+ FormatUint10 (ef_PolicyRevision effect) +:+ ";digest=sha256:" +:+
                hex_EncodeToString (ef_PolicyDigest effect) in
  let? predicate := PredicateSet effect in
  Ok {| cf_DisplayProfileURI := OwnerCommandConfirmationProfileV1; cf_DisplayProfileVersion := 1;
        cf_RiskClass := if pd_RequireIndependentApprover predicate then "high" else "bounded";
        cf_DomainID := ef_DomainID effect; cf_OwnerID := ef_OwnerID effect; cf_ActionID := actionID;
        cf_CommandKind := ef_CommandKind effect; cf_Target := targetKind +:+ ":" +:+ hex_EncodeToString targetID;
        cf_RecipientOrDestination := None; cf_AmountAndAssetOrCostCeiling := None;
        cf_PermissionDelta := permission; cf_PolicyDelta := policy;
        cf_CriticalParameters := [ef_ExactParameterDigest effect; ef_PolicyDigest effect; ef_TargetObjectID effect];
        cf_ExpiresAtUnix := expiresAtUnix |}.

Definition validateConfirmationProjection (c : Confirmation) (effect : OwnerCommandEffectV1)
    (input : OwnerCommandParametersV1) : result unit :=
  let? expected := RenderOwnerCommandConfirmation effect input (cf_ActionID c) (cf_ExpiresAtUnix c) in
  if differ (cf_DisplayProfileURI c) (cf_DisplayProfileURI expected)
     || negb (cf_DisplayProfileVersion c =? cf_DisplayProfileVersion expected)
     || differ (cf_RiskClass c) (cf_RiskClass expected) || differ (cf_DomainID c) (cf_DomainID expected)
     || differ (cf_OwnerID c) (cf_OwnerID expected) || differ (cf_CommandKind c) (cf_CommandKind expected)
     || differ (cf_Target c) (cf_Target expected) || negb (is_none (cf_RecipientOrDestination c))
     || negb (is_none (cf_AmountAndAssetOrCostCeiling c))
     || differ (cf_PermissionDelta c) (cf_PermissionDelta expected) || differ (cf_PolicyDelta c) (cf_PolicyDelta expected)
  then Err "semantic confirmation display fields are not the canonical command projection"
  else Ok tt.

(** ** Who signed *)

Definition role_of (deviceKeyRef identifier : string) : string :=
  if same identifier deviceKeyRef then "authenticated-device" else "independent-owner-authority".

(** The loop over the signers: issuers, controllers and covered roles. *)
Fixpoint cover_roles (deviceKeyRef : string) (subjects : gmap string (list string)) (controllers : gmap string string)
    (ids : list string) (issuers owners : list string) (roles : gset string)
    : result (list string * list string * gset string) :=
  match ids with
  | [] => Ok (issuers, owners, roles)
  | identifier :: rest =>
      let issuer := hex_EncodeToString identifier in
      let owner := default ""%string (controllers !! issuer) in
      if same owner "" then Err "owner command signer lacks a policy-bound controlling principal"
      else
        let role := role_of deviceKeyRef identifier in
        if negb (subjectAllowed subjects role identifier)
        then Err "owner command signer does not hold the required authority role"
        else cover_roles deviceKeyRef subjects controllers rest (issuers ++ [issuer]) (owners ++ [owner]) ({[role]} ∪ roles)
  end.

Fixpoint adjacent_equal (l : list string) : bool :=
  match l with
  | x :: (y :: _) as rest => same y x || adjacent_equal rest
  | _ => false
  end.

Definition validateOwnerCommandRoleCoverage (predicate : Predicate) (deviceKeyRef : string) (issuerIDs : list string)
    (subjects : gmap string (list string)) (authorityControllers : gmap string string) : result unit :=
  let? (issuers, owners, covered) := cover_roles deviceKeyRef subjects authorityControllers issuerIDs [] [] ∅ in
  let issuers := sort_Strings issuers in
  let owners := sort_Strings owners in
  if adjacent_equal issuers then Err "owner command authorization principals are not disjoint"
  else if adjacent_equal owners then Err "owner command signers are controlled by the same principal"
  else
    let wanted := hex_EncodeToString deviceKeyRef in
    if negb (bool_decide (issuers !! SearchStrings issuers wanted = Some wanted))
    then Err "owner command lacks authorization by the authenticated device"
    else if negb (forallb (fun role => bool_decide (role ∈ covered)) (pd_RequiredAuthorityKinds predicate))
    then Err "owner command authorization role coverage is incomplete"
    else if (llen owners <? pd_MinimumDistinctPrincipals predicate)
            || (pd_RequireIndependentApprover predicate && (llen owners <? 2))
    then Err "owner command authorization quorum is incomplete"
    else Ok tt.

Definition ownerCommandRecoveryEpochAdmits (effectEpoch leaseEpoch : N) (recovery : bool) : bool :=
  if recovery then negb (leaseEpoch <? effectEpoch) else leaseEpoch =? effectEpoch.

(** ** Verification *)

(** The device session of the attempt, live and bound to the channel. *)
Definition command_session (st : DurableState) (principal : Principal) (attempt : Attempt) (now : N)
    : result OwnerDeviceSessionV1 :=
  match ds_DeviceSessions st !! hex_EncodeToString (at_DeviceSessionDigest attempt) with
  | None => Err "owner command device session is unknown, stale, or revoked"
  | Some record =>
      if dr_Revoked record || negb (dr_SessionGeneration record =? at_SessionGeneration attempt)
         || negb (dr_RevocationGeneration record =? at_SessionRevocationGeneration attempt)
      then Err "owner command device session is unknown, stale, or revoked"
      else
        match DecodeSession (dr_Object record) with
        | Err _ => Err "owner command device session scope is invalid"
        | Ok session =>
            if differ (se_Audience session) (pn_Audience principal)
               || differ (se_ChannelBindingDigest session) (pn_ChannelBindingDigest principal)
               || (now <? se_NotBeforeUnix session) || (se_ExpiresAtUnix session <=? now)
            then Err "owner command device session scope is invalid"
            else Ok session
        end
  end.

Definition command_lease (st : DurableState) (principal : Principal) (effect : OwnerCommandEffectV1) (attempt : Attempt)
    (evidence : SubmissionEvidence) (classesDigest : string) (now : N) (recovery : bool) : result unit :=
  match DecodeCommandLease (sv_CommandLeaseObject evidence) with
  | Err _ => Err "owner command lease is incomplete, stale, or cross-scope"
  | Ok lease =>
      if negb (cl_SchemaVersion lease =? 1) || negb (cl_DomainKind lease =? ds_DomainKind st)
         || differ (cl_DomainID lease) (ds_DomainID st) || differ (cl_OwnerID lease) (ds_OwnerID st)
         || differ (cl_DeviceSessionDigest lease) (at_DeviceSessionDigest attempt)
         || differ (cl_AllowedCommandClassesDigest lease) classesDigest
         || differ (cl_Audience lease) (pn_Audience principal)
         || differ (cl_SinkAuthorityID lease) (ef_SinkAuthorityID effect)
         || negb (ownerCommandRecoveryEpochAdmits (ef_SinkClusterEpoch effect) (cl_SinkClusterEpoch lease) recovery)
         || negb (cl_ControlScopeGeneration lease =? ds_ControlScopeGeneration st)
         || negb (cl_PolicyRevision lease =? ds_PolicyRevision st) || differ (cl_PolicyDigest lease) (ds_PolicyDigest st)
         || negb (cl_AuthorityEpoch lease =? ds_AuthorityEpoch st) || (now <? cl_NotBeforeUnix lease)
         || (cl_ExpiresAtUnix lease <=? now)
      then Err "owner command lease is incomplete, stale, or cross-scope"
      else if is_err (VerifyAuthorization (sv_CommandLeaseAuthorization evidence) (sv_CommandLeaseObject evidence) now
                        (ds_AuthorityEpoch st))
              || is_err (verifyPolicyAuthorizationLocked st (sv_CommandLeaseAuthorization evidence)
                           "owner-command-lease" (ds_AgentID st))
      then Err "owner command lease authorization is invalid"
      else Ok tt
  end.

(** What was confirmed is what the parameters say. *)
Definition command_confirmation (effect : OwnerCommandEffectV1) (attempt : Attempt) (evidence : SubmissionEvidence)
    (now : N) : result unit :=
  let confirmation := sv_SemanticConfirmation evidence in
  let confirmationTime := if ef_ExpiresAtUnix effect <=? now then ef_CreatedAtUnix effect else now in
  if negb (matches (SemanticConfirmationDigest confirmation) (ef_SemanticConfirmationDigest effect))
     || is_err (ValidateSemanticConfirmation confirmation effect (at_ActionID attempt) confirmationTime)
  then Err "owner command semantic confirmation is invalid"
  else
    match UnmarshalParameters (sv_Parameters evidence) with
    | Err _ => Err "owner command parameters are not canonical V1"
    | Ok parameters =>
        if negb (in_SchemaVersion parameters =? 1) then Err "owner command parameters are not canonical V1"
        else if negb (matches (MarshalParameters parameters) (sv_Parameters evidence))
        then Err "owner command parameters are not exact canonical bytes"
        else if differ (sha256_Sum256 (sv_Parameters evidence)) (ef_ExactParameterDigest effect)
                || is_err (validateConfirmationProjection confirmation effect parameters)
        then Err "owner command confirmation does not render the exact parameters"
        else Ok tt
    end.

Definition command_envelope (st : DurableState) (effectObject : ProfileObjectV1) (now : N) (envelope : Envelope)
    : result string :=
  if is_err (VerifyAuthorization envelope effectObject now (ds_AuthorityEpoch st))
     || differ (eb_AuthorityKind (en_Body envelope)) "owner-command"
     || negb (eb_PolicyRevision (en_Body envelope) =? ds_PolicyRevision st)
     || differ (eb_PolicyDigest (en_Body envelope)) (ds_PolicyDigest st)
     || differ (eb_OwnerID (en_Body envelope)) (ds_OwnerID st)
  then Err "owner command authorization envelope is invalid"
  else Ok (su_Identifier (eb_IssuerSubject (en_Body envelope))).

Definition exit_blocks (st : DurableState) (effect : OwnerCommandEffectV1) : bool :=
  match ds_OwnerExit st with
  | Some plan => differ (ef_CommandKind effect) "owner.exit" || same (xp_Stage plan) "tombstone"
  | None => false
  end.

Definition verifyOwnerCommand (st : DurableState) (principal : Principal) (effect : OwnerCommandEffectV1)
    (attempt : Attempt) (evidence : SubmissionEvidence) (now : N) (recovery : bool) : result unit :=
  let? _ := validateOwnerCommandScopeLocked st effect in
  if (negb recovery && exit_blocks st effect) || same (pn_Audience principal) ""
     || (negb recovery && (negb (ef_PolicyRevision effect =? ds_PolicyRevision st)
                           || differ (ef_PolicyDigest effect) (ds_PolicyDigest st)
                           || negb (ef_ControlScopeGeneration effect =? ds_ControlScopeGeneration st)))
     || negb (at_AuthorityEpoch attempt =? ds_AuthorityEpoch st) || (now <? at_AttemptedAtUnix attempt)
     || (at_ExpiresAtUnix attempt <=? now)
  then Err "owner command authority is stale or unavailable"
  else
    let? session := command_session st principal attempt now in
    match OwnerCommandClassSetDigest (sv_AllowedCommandKinds evidence) with
    | Err _ => Err "owner command class set is not authorized by the device session"
    | Ok classesDigest =>
        if differ classesDigest (se_AllowedCommandClassesDigest session)
        then Err "owner command class set is not authorized by the device session"
        else
          let? _ := command_lease st principal effect attempt evidence classesDigest now recovery in
          if bool_decide (at_AuthorizationEnvelopes attempt = []) || (8 <? llen (at_AuthorizationEnvelopes attempt))
          then Err "owner command authorization predicate is incomplete"
          else
            let? predicate := PredicateSet effect in
            if negb (matches (PredicateSetDigest effect) (ef_AuthorityPredicateSetDigest effect))
            then Err "owner command selected an unauthorized predicate set"
            else
              let? _ := command_confirmation effect attempt evidence now in
              let effectObject := NewEffectObject (ef_DomainKind effect) (ef_DomainID effect) effect in
              let? issuerIDs := traverse (command_envelope st effectObject now) (at_AuthorizationEnvelopes attempt) in
              validateOwnerCommandRoleCoverage predicate (Ed25519KeyReference (se_DevicePublicKey session)) issuerIDs
                (ds_AuthorizedSubjects st) (ds_AuthorityControllers st)
    end.

(** ** Sessions of a channel *)

Definition VerifyOwnerCommandQuery (principal : Principal) (now : N) (st : DurableState) : result unit :=
  if negb (ds_Initialized st) || negb (pn_DomainKind principal =? ds_DomainKind st)
     || differ (pn_DomainID principal) (ds_DomainID st) || differ (pn_OwnerID principal) (ds_OwnerID st)
  then Err "owner command query scope is invalid"
  else
    match ds_DeviceSessions st !! hex_EncodeToString (pn_SessionDigest principal) with
    | None => Err "owner command query device session is unavailable"
    | Some record =>
        if dr_Revoked record then Err "owner command query device session is unavailable"
        else
          match DecodeSession (dr_Object record) with
          | Err _ => Err "owner command query device session is stale"
          | Ok session =>
              if differ (se_Audience session) (pn_Audience principal)
                 || differ (se_ChannelBindingDigest session) (pn_ChannelBindingDigest principal)
                 || (now <? se_NotBeforeUnix session) || (se_ExpiresAtUnix session <=? now)
              then Err "owner command query device session is stale"
              else Ok tt
          end
    end.

(** A session that is live on the channel. *)
Definition live_session (audience channelBindingDigest : string) (now : N) (record : DeviceSessionRecord) : bool :=
  negb (dr_Revoked record)
  && match DecodeSession (dr_Object record) with
     | Ok session => same (se_Audience session) audience && same (se_ChannelBindingDigest session) channelBindingDigest
                     && (se_NotBeforeUnix session <=? now) && (now <? se_ExpiresAtUnix session)
     | Err _ => false
     end.

(** The loop over the sessions, in the order the runtime picks. *)
Fixpoint select_session (live : DeviceSessionRecord -> bool) (sessions : list (string * DeviceSessionRecord))
    (selected : option string) : result (option string) :=
  match sessions with
  | [] => Ok selected
  | (encoded, record) :: rest =>
      if negb (live record) then select_session live rest selected
      else
        match hex_DecodeString encoded with
        | Some digest =>
            if no_digest digest || negb (is_none selected)
            then Err "authenticated owner channel does not select exactly one device session"
            else select_session live rest (Some digest)
        | None => Err "authenticated owner channel does not select exactly one device session"
        end
  end.

Definition DeviceSessionForAuthenticatedChannel (order : list (string * DeviceSessionRecord))
    (audience channelBindingDigest : string) (now : N) (st : DurableState) : result string :=
  if negb (ds_Initialized st) || same audience "" || no_digest channelBindingDigest
  then Err "authenticated owner channel is unavailable"
  else
    let? selected := select_session (live_session audience channelBindingDigest now) order None in
    match selected with
    | None => Err "authenticated owner channel has no live device session"
    | Some digest => Ok digest
    end.

(** ** Application *)

(** The staged exit: the change of the state and of the acquisition fence. *)
Definition revoke_session (r : DeviceSessionRecord) : DeviceSessionRecord :=
  set_dr_RevocationGeneration (add64w (dr_RevocationGeneration r) 1) (set_dr_Revoked true r).

Definition revoke_entry (entry : Entry) : Entry :=
  set_e_PromotionRevocationGeneration (add64w (e_PromotionRevocationGeneration entry) 1)
    (set_e_AdmissionRevocationGeneration (add64w (e_AdmissionRevocationGeneration entry) 1)
      (set_e_State StateRevoked entry)).

Definition revoke_authorities (deviceSession : string) (st : DurableState) : DurableState :=
  set_ds_Entries (revoke_entry <$> ds_Entries st)
    (set_ds_DeviceSessions (map_imap (fun key r =>
      Some (if differ (default ""%string (hex_DecodeString key)) deviceSession then revoke_session r else r))
      (ds_DeviceSessions st)) st).

Definition exit_change (st : DurableState) (effect : OwnerCommandEffectV1) (attempt : Attempt) (plan : OwnerExitPlanV1)
    : result (DurableState * option bool) :=
  if negb (ef_ExpectedTargetRevision effect =? ds_InventoryRevision st)
     || is_err (validateOwnerExitPlan plan (ds_OwnerID st) (ds_PolicyDigest st))
  then Err "owner exit plan is incomplete or stale"
  else
    let? (priorStage, priorRevision) :=
      match ds_OwnerExit st with
      | Some prior =>
          if differ (xp_ExitID plan) (xp_ExitID prior)
             || differ (xp_PredecessorPolicyDigest plan) (xp_PredecessorPolicyDigest prior)
          then Err "owner exit successor changed immutable plan identity"
          else Ok (xp_Stage prior, xp_Revision prior)
      | None => Ok (""%string, 0)
      end in
    if negb (xp_Revision plan =? add64w priorRevision 1) || negb (validOwnerExitTransition priorStage (xp_Stage plan))
    then Err "owner exit stage is not the exact predecessor-bound successor"
    else if same (xp_Stage plan) "resolve-actions"
            && differ (xp_AmbiguousActionSetRoot plan) (ambiguousActionSetRootLocked st)
    then Err "owner exit ambiguous Action set is not the current complete set"
    else
      let st := if same (xp_Stage plan) "revoke-authorities"
                then revoke_authorities (at_DeviceSessionDigest attempt) st else st in
      if same (xp_Stage plan) "abort"
      then Ok (set_ds_OwnerPaused false (set_ds_OwnerExit None st), Some true)
      else
        let st := set_ds_OwnerPaused true (set_ds_OwnerExit (Some plan) st) in
        let st := if same (xp_Stage plan) "tombstone"
                  then set_ds_DeviceSessions (revoke_session <$> ds_DeviceSessions st) st else st in
        Ok (st, if same priorStage "" then Some false else None).

(** The new state of an admitted capability. *)
Definition capability_change (cmd : command) (entry : Entry) : result State :=
  match cmd with
  | Activate =>
      if negb (bool_decide (e_State entry = StateAdmitted)) || same (e_InstalledPath entry) ""
         || (e_PromotionRequired entry && is_none (e_PromotionEnvelope entry))
      then Err "capability is not installed with all required promotion evidence" else Ok StateActive
  | Suspend => if bool_decide (e_State entry = StateActive) then Ok StateSuspended else Err ErrStaleAuthority
  | Resume => if bool_decide (e_State entry = StateSuspended) then Ok StateActive else Err ErrStaleAuthority
  | _ => if bool_decide (e_State entry = StateAdmitted) || bool_decide (e_State entry = StateActive)
            || bool_decide (e_State entry = StateSuspended)
         then Ok StateRevoked else Err ErrStaleAuthority
  end.

Definition terminal_state (state : State) : bool :=
  match state with StateRevoked | StateRejected | StateExpired => true | _ => false end.

Definition tombstone_of (st : DurableState) (effect : OwnerCommandEffectV1) (attempt : Attempt)
    (input : OwnerCommandParametersV1) (now : N) : Tombstone :=
  {| tb_ArtifactDigest := in_ArtifactDigest input; tb_PredecessorInventoryRevision := ef_ExpectedTargetRevision effect;
     tb_InventoryRevision := add64w (ds_InventoryRevision st) 1; tb_DeletionGeneration := in_NewGeneration input;
     tb_RemovedAtUnix := now; tb_RemovalActionID := at_ActionID attempt; tb_ExactRequestDigest := at_ExactRequestDigest attempt;
     tb_PolicyDigest := ef_PolicyDigest effect; tb_ControlScopeGeneration := ef_ControlScopeGeneration effect |}.

(** The switch over the command; the acquisition state it asks for. *)
Definition apply_switch (e : op_env) (effect : OwnerCommandEffectV1) (attempt : Attempt) (input : OwnerCommandParametersV1)
    : M (option bool) :=
  let key := hex_EncodeToString (in_ArtifactDigest input) in
  with st;
  match command_of (ef_CommandKind effect) with
  | None => raise "owner command is not implemented by the capability-control sink"
  | Some (OwnerPause as cmd) | Some (OwnerResume as cmd) =>
      refuse negb (ef_ExpectedTargetRevision effect =? ds_InventoryRevision st)
             || negb (same (in_ArtifactDigest input) "") || negb (same (in_SessionDigest input) "")
             || negb (is_none (in_OwnerExitPlan input))
        saying ErrStaleAuthority;
      let pause := match cmd with OwnerPause => true | _ => false end in
      do _ <- modify (set_ds_OwnerPaused pause);
      ret (Some (negb pause))
  | Some OwnerExit =>
      match in_OwnerExitPlan input with
      | None => raise "owner exit plan is incomplete or stale"
      | Some plan =>
          do (changed, accepting) <- pure (exit_change st effect attempt plan);
          do _ <- modify (fun _ => changed);
          ret accepting
      end
  | Some PromotionRevoke =>
      match ds_Entries st !! key with
      | None => raise ErrStaleAuthority
      | Some entry =>
          refuse is_none (e_PromotionEnvelope entry)
                 || negb (ef_ExpectedTargetRevision effect =? e_PromotionRevision entry)
                 || negb (in_ExpectedGeneration input =? e_PromotionRevocationGeneration entry)
                 || (in_NewGeneration input <=? in_ExpectedGeneration input)
            saying ErrStaleAuthority;
          do _ <- modify (put_entry key (set_e_PromotionRevision (add64w (e_PromotionRevision entry) 1)
            (set_e_PromotionRevocationGeneration (in_NewGeneration input) (set_e_State StateAdmitted entry))));
          ret None
      end
  | Some Remove =>
      match ds_Entries st !! key with
      | None => raise ErrStaleAuthority
      | Some entry =>
          refuse negb (ef_ExpectedTargetRevision effect =? ds_InventoryRevision st)
                 || negb (in_ExpectedGeneration input =? ds_DeletionGeneration st)
                 || (in_NewGeneration input <=? in_ExpectedGeneration input)
            saying ErrStaleAuthority;
          refuse negb (terminal_state (e_State entry)) saying "capability must be terminal before removal";
          refuse map_any (fun _ slot => differ (us_State slot) "terminal"
                                        && same (us_ArtifactDigest slot) (in_ArtifactDigest input)) (ds_UseSlots st)
            saying "artifact has unresolved execution references";
          do now <- trustedNowLocked e;
          do _ <- modify (fun st => set_ds_Tombstones
            (<[key := tombstone_of st effect attempt input now]> (ds_Tombstones st))
            (set_ds_DeletionGeneration (in_NewGeneration input) (set_ds_Entries (delete key (ds_Entries st)) st)));
          ret None
      end
  | Some SessionRevoke =>
      refuse no_digest (in_SessionDigest input) || negb (same (in_ArtifactDigest input) "")
        saying "session command target is invalid";
      let sessionKey := hex_EncodeToString (in_SessionDigest input) in
      match ds_DeviceSessions st !! sessionKey with
      | None => raise ErrStaleAuthority
      | Some record =>
          refuse dr_Revoked record || negb (dr_SessionGeneration record =? ef_ExpectedTargetRevision effect)
                 || negb (dr_RevocationGeneration record =? in_ExpectedGeneration input)
                 || (in_NewGeneration input <=? in_ExpectedGeneration input)
            saying ErrStaleAuthority;
          do _ <- modify (fun st => set_ds_DeviceSessions
            (<[sessionKey := set_dr_RevocationGeneration (in_NewGeneration input) (set_dr_Revoked true record)]>
               (ds_DeviceSessions st)) st);
          ret None
      end
  | Some cmd =>
      refuse no_digest (in_ArtifactDigest input) || negb (same (in_SessionDigest input) "")
        saying "capability command target is invalid";
      match ds_Entries st !! key with
      | None => raise ErrStaleAuthority
      | Some entry =>
          refuse negb (ef_ExpectedTargetRevision effect =? e_AdmissionRevision entry)
                 || negb (in_ExpectedGeneration input =? e_AdmissionRevocationGeneration entry)
                 || (in_NewGeneration input <=? in_ExpectedGeneration input)
            saying ErrStaleAuthority;
          do state <- pure (capability_change cmd entry);
          do _ <- modify (put_entry key (set_e_AdmissionRevision (add64w (e_AdmissionRevision entry) 1)
            (set_e_AdmissionRevocationGeneration (in_NewGeneration input) (set_e_State state entry))));
          ret None
      end
  end.

Definition applyOwnerCommand (e : op_env) (effect : OwnerCommandEffectV1) (attempt : Attempt)
    (parameters fencingToken : string) : M N :=
  match UnmarshalParameters parameters with
  | Err _ => raise "owner command parameters are not canonical V1"
  | Ok input =>
      refuse negb (in_SchemaVersion input =? 1) saying "owner command parameters are not canonical V1";
      with st;
      do _ <- pure (validateOwnerCommandScopeLocked st effect);
      do _ <- pure (ownerCommandTarget effect input);
      let actionKey := hex_EncodeToString (at_ActionID attempt) in
      match ds_OwnerCommandActions st !! actionKey with
      | Some prior =>
          refuse differ (oa_ExactRequestDigest prior) (at_ExactRequestDigest attempt)
                 || differ (oa_FencingToken prior) fencingToken
            saying "owner command action identity or fence conflict";
          if same (oa_State prior) "applied" then ret (oa_ResultRevision prior)
          else raise "owner command action is indeterminate"
      | None =>
          refuse negb (ef_ControlScopeGeneration effect =? ds_ControlScopeGeneration st)
                 || negb (ef_PolicyRevision effect =? ds_PolicyRevision st)
                 || differ (ef_PolicyDigest effect) (ds_PolicyDigest st)
            saying ErrStaleAuthority;
          refuse ds_OwnerPaused st && negb (ownerCommandAllowedWhilePaused (ef_CommandKind effect))
            saying "owner pause permits only resume, restriction, revocation, removal, exit, or exact Action resolution";
          do accepting <- apply_switch e effect attempt input;
          do _ <- modify (fun st =>
            let st := bump_inventory (set_ds_ControlScopeGeneration (add64w (ds_ControlScopeGeneration st) 1) st) in
            set_ds_OwnerCommandActions (<[actionKey :=
              {| oa_ExactRequestDigest := at_ExactRequestDigest attempt; oa_FencingToken := fencingToken;
                 oa_State := "applied"; oa_ResultRevision := ds_InventoryRevision st |}]> (ds_OwnerCommandActions st)) st);
          do _ <- commitAuthorityWithAcquisitionLocked (ev_commit e 1) accepting;
          with st;
          ret (ds_InventoryRevision st)
      end
  end.

(** [VerifyOwnerCommand], under the mutex. *)
Definition VerifyOwnerCommand (principal : Principal) (effect : OwnerCommandEffectV1) (attempt : Attempt)
    (evidence : SubmissionEvidence) (now : N) : M unit :=
  with st;
  pure (verifyOwnerCommand st principal effect attempt evidence now false).

(** [VerifyOwnerCommandRecovery]: two critical sections. *)
Definition VerifyOwnerCommandRecovery (e : op_env) (gap : Store -> Store) (principal : Principal)
    (effect : OwnerCommandEffectV1) (attempt : Attempt) (evidence : SubmissionEvidence) : M unit :=
  do now <- trustedNowLocked e;
  do _ <- (fun s => (gap s, Ok tt));
  with st;
  pure (verifyOwnerCommand st principal effect attempt evidence now true).

(** [ApplySignedOwnerCommand]: three critical sections; [between] is what other
    callers do to the store in the gaps. *)
Definition ApplySignedOwnerCommand (e1 e2 : op_env) (gap1 gap2 : Store -> Store) (principal : Principal)
    (effect : OwnerCommandEffectV1) (attempt : Attempt) (evidence : SubmissionEvidence) (fencingToken : string) : M N :=
  do now <- trustedNowLocked e1;
  do _ <- (fun s => (gap1 s, Ok tt));
  do _ <- VerifyOwnerCommand principal effect attempt evidence now;
  do _ <- (fun s => (gap2 s, Ok tt));
  applyOwnerCommand e2 effect attempt (sv_Parameters evidence) fencingToken.

Definition ResolveOwnerCommand (st : DurableState) (attempt : Attempt) (fencingToken : string) : string * N :=
  match ds_OwnerCommandActions st !! hex_EncodeToString (at_ActionID attempt) with
  | None => ("unknown"%string, 0)
  | Some prior =>
      if differ (oa_ExactRequestDigest prior) (at_ExactRequestDigest attempt) || differ (oa_FencingToken prior) fencingToken
      then ("conflict"%string, 0)
      else (oa_State prior, oa_ResultRevision prior)
  end.

End owner.

End CapOwner.
