(* ===== verification/CapSafety.v ===== *)
(** * Capability control: histories and safety

    The order along which every operation moves the durable state of the
    capability store: executions, tool actions, owner commands and tombstones
    are never forgotten, only advanced. Every operation is shown to follow it
    through every failing call and every restart, by weakest preconditions over
    the monad of CapOps.v; the theorems about executions, tool actions, owner
    commands and removal are read off it. *)

From S2P Require Import Prelude GoLib GoText FileStore Ledger Protocol CapTypes CapStore CapOps CapGate CapOwner.
#[local] Open Scope N_scope.

Module CapSafety.
Import CapTypes CapStore CapOps CapGate CapOwner.

(** ** The order *)

(** An execution or a tool action: what its start fixed, and how far it is. *)
Definition us_origin (slot : UseSlot) : UseSlot :=
  set_us_State "" (set_us_ResolvedAtUnix 0 (set_us_TerminalDisposition "" (set_us_ResultDigest ""
    (set_us_OutcomeEvidenceDigest "" slot)))).

Definition ma_origin (action : MCPToolAction) : MCPToolAction :=
  set_ma_State "" (set_ma_ResolvedAtUnix 0 (set_ma_TerminalDisposition "" (set_ma_ResultDigest ""
    (set_ma_OutcomeEvidenceDigest "" action)))).

Definition use_phase (state : string) : N :=
  if same state "terminal" then 2 else if same state "ambiguous" then 1 else 0.
Definition mcp_phase (state : string) : N :=
  if same state "prepared" then 0 else if same state "ambiguous" then 1 else 2.

(** It stays as it is, or moves to a later phase. *)
Definition use_le (a b : UseSlot) : Prop :=
  b = a \/ (us_origin b = us_origin a /\ use_phase (us_State a) < use_phase (us_State b)).
Definition mcp_le (a b : MCPToolAction) : Prop :=
  b = a \/ (ma_origin b = ma_origin a /\ mcp_phase (ma_State a) < mcp_phase (ma_State b)).
Definition installation_le (a b : InstallationSlot) : Prop := b = a \/ b = set_is_State "installed" a.

(** A device session: its authorization is fixed, its revocation is final. *)
Record session_le (a b : DeviceSessionRecord) : Prop := {
  sn_object : dr_Object b = dr_Object a;
  sn_envelope : dr_Envelope b = dr_Envelope a;
  sn_generation : dr_SessionGeneration b = dr_SessionGeneration a;
  sn_revoked : dr_Revoked a = true -> dr_Revoked b = true
}.

(** A removed artifact is gone. *)
Definition buried (x : DurableState) : Prop :=
  forall key, ds_Tombstones x !! key <> None -> ds_Entries x !! key = None.

Definition identity (x : DurableState) : N * string * string * string * string :=
  (ds_DomainKind x, ds_DomainID x, ds_OwnerID x, ds_AgentID x, ds_InstallationID x).

(** The owner has left. *)
Definition exited (x : DurableState) : Prop :=
  exists plan, ds_OwnerExit x = Some plan /\ xp_Stage plan = "tombstone"%string.

(** The order of the durable records. The entries of artifacts are not ordered,
    but for removal: their states do go back ([CapExample.cap_revoked_returns]). *)
Record state_le (x y : DurableState) : Prop := {
  sl_identity : identity y = identity x;
  sl_genesis : ds_Initialized x = true ->
    ds_Initialized y = true /\ ds_GenesisCeremonyDigest y = ds_GenesisCeremonyDigest x /\
    ds_AuthorityEpoch x <= ds_AuthorityEpoch y;
  sl_time : ds_TrustedTimeHighWater x <= ds_TrustedTimeHighWater y;
  sl_time_epoch : ds_TrustedTimeEpochHighWater x <= ds_TrustedTimeEpochHighWater y;
  sl_tombstones : buried x -> buried y /\ ds_Tombstones x ⊆ ds_Tombstones y;
  sl_uses : map_le use_le (ds_UseSlots x) (ds_UseSlots y);
  sl_actions : map_le mcp_le (ds_MCPToolActions x) (ds_MCPToolActions y);
  sl_installations : map_le installation_le (ds_InstallationSlots x) (ds_InstallationSlots y);
  sl_sessions : map_le session_le (ds_DeviceSessions x) (ds_DeviceSessions y);
  sl_commands : ds_OwnerCommandActions x ⊆ ds_OwnerCommandActions y;
  sl_exit : exited x -> ds_OwnerExit y = ds_OwnerExit x
}.

#[global] Instance use_le_preorder : PreOrder use_le.
Proof.
  split; [by left|]. intros a b c [-> |[Ho Hp]] [-> |[Ho' Hp']]; [by left|by right..|].
  right. split; [congruence|lia].
Qed.

#[global] Instance mcp_le_preorder : PreOrder mcp_le.
Proof.
  split; [by left|]. intros a b c [-> |[Ho Hp]] [-> |[Ho' Hp']]; [by left|by right..|].
  right. split; [congruence|lia].
Qed.

#[global] Instance installation_le_preorder : PreOrder installation_le.
Proof. split; [by left|]. intros a b c [-> | ->] [-> | ->]; [by left|by right..]. Qed.

#[global] Instance session_le_preorder : PreOrder session_le.
Proof. split; [done|]. intros a b c [] []. split; [congruence..|auto]. Qed.

Lemma exited_le x y : state_le x y -> exited x -> exited y.
Proof. intros H Hx. pose proof (sl_exit _ _ H Hx) as He. destruct Hx as (p & Hp & Hs). exists p. split; congruence. Qed.

#[global] Instance state_le_preorder : PreOrder state_le.
Proof.
  split.
  - intros x. split; try reflexivity; done.
  - intros x y z Hxy Hyz. pose proof (exited_le _ _ Hxy) as He. destruct Hxy, Hyz. split.
    + congruence.
    + intros Hi. destruct (sl_genesis0 Hi) as (Hy & ? & ?). destruct (sl_genesis1 Hy) as (? & ? & ?).
      split_and!; [done|congruence|lia].
    + lia.
    + lia.
    + intros Hx. destruct (sl_tombstones0 Hx) as [Hy ?]. destruct (sl_tombstones1 Hy) as [? ?]. split; [done|by etrans].
    + by etrans.
    + by etrans.
    + by etrans.
    + by etrans.
    + by etrans.
    + intros Hx. rewrite sl_exit1 by auto. auto.
Qed.

#[global] Instance capability_history {SHA : Sha256} : StateHistory.
Proof.
  refine {| st_le := state_le |}.
  - intros x y [Hi]. injection Hi as H1 H2 H3 H4 H5. unfold monotonicScopeLocked. by rewrite H1, H2, H3, H4, H5.
  - intros x revision. split; cbn; try reflexivity; done.
Defined.

(** ** Weakest preconditions

    [wp c Q st x]: run with [st] in memory and [x] stored, whatever fails, [c]
    keeps the store's invariant and moves what is stored forward; when it
    succeeds, its value, memory and what is stored satisfy [Q]. *)
Section wp.
Context {TC : TrustedCapability} {SHA : Sha256} {SJ : StateJSON} {MA : MonotonicAuthority} {ML : MonotonicLaws}.
Implicit Types (st x y : DurableState).

Definition wp {A} (c : M A) (Q : A -> DurableState -> DurableState -> Prop) st x : Prop :=
  forall s, store_ok s x -> cs_state s = st ->
  exists y, store_ok (c s).1 y /\ state_le x y /\ forall a, (c s).2 = Ok a -> Q a (cs_state (c s).1) y.

Lemma wp_ret {A} (a : A) Q st x : Q a st x -> wp (ret a) Q st x.
Proof. intros HQ s Hs <-. exists x. split_and!; [done|reflexivity|]. by intros a' [= <-]. Qed.

Lemma wp_raise {A} m (Q : A -> _) st x : wp (raise m) Q st x.
Proof. intros s Hs <-. exists x. by split_and!. Qed.

Lemma wp_pure {A} (r : result A) Q st x : (forall a, r = Ok a -> Q a st x) -> wp (pure r) Q st x.
Proof. intros HQ s Hs <-. exists x. split_and!; [done|reflexivity|exact HQ]. Qed.

Lemma wp_reading {A} (k : DurableState -> M A) Q st x : wp (k st) Q st x -> wp (reading k) Q st x.
Proof. intros H s Hs <-. by apply H. Qed.

Lemma wp_mono {A} (c : M A) (Q Q' : A -> _) st x :
  (forall a st' y, Q a st' y -> Q' a st' y) -> wp c Q st x -> wp c Q' st x.
Proof. intros HQ H s Hs Hst. destruct (H s Hs Hst) as (y & ? & ? & ?). exists y. split_and!; auto. Qed.

Lemma wp_bind {A B} (c : M A) (k : A -> M B) Q st x :
  wp c (fun a => wp (k a) Q) st x -> wp (bind c k) Q st x.
Proof.
  intros H s Hs Hst. destruct (H s Hs Hst) as (y & Hy & Hxy & HQ). unfold bind.
  destruct (c s) as [s1 [a|m]]; cbn in *; [|by exists y].
  destruct (HQ a eq_refl s1 Hy eq_refl) as (z & Hz & Hyz & HQ'). exists z. split_and!; [done|by etrans|done].
Qed.

Lemma wp_modify f (Q : unit -> _) st x :
  state_le st (f st) -> ds_MonotonicRevision (f st) = ds_MonotonicRevision st -> Q tt (f st) x -> wp (modify f) Q st x.
Proof.
  intros Hf Hr HQ s Hs <-. exists x. split_and!; [|reflexivity|by intros []].
  destruct Hs as [Hd Hle Hrev]. split; cbn; [done|by etrans|]. intros Hp. rewrite Hr. auto.
Qed.

Lemma wp_commit_with ce accepting (Q : unit -> _) st x :
  Q tt (next_state st) (next_state st) -> wp (commitAuthorityWithAcquisitionLocked ce accepting) Q st x.
Proof.
  intros HQ s Hs <-. destruct (commitAuthorityWithAcquisitionLocked ce accepting s) as [s' r] eqn:E.
  destruct (commit_ok _ _ _ _ _ _ Hs E) as (y & Hy & Hxy & Hr). exists y. split_and!; [done|done|].
  cbn. intros [] ->. destruct (Hr eq_refl) as (-> & -> & _). done.
Qed.

Lemma wp_commit ce (Q : unit -> _) st x : Q tt (next_state st) (next_state st) -> wp (commit ce) Q st x.
Proof. apply wp_commit_with. Qed.

Lemma wp_refuse {A} b m (k : M A) Q st x :
  (b = false -> wp k Q st x) -> wp (if b then raise m else k) Q st x.
Proof. destruct b; [intros _; apply wp_raise|auto]. Qed.

(** The trusted clock: time does not run backwards. *)
Lemma wp_trustedNow e (Q : N -> _) st x :
  (forall now revision y, ds_TrustedTimeHighWater st <= now ->
     Q now (set_ds_MonotonicRevision revision (set_ds_TrustedTimeHighWater now st)) y) ->
  wp (trustedNowLocked e) Q st x.
Proof.
  intros HQ. unfold trustedNowLocked. destruct (ev_now e) as [t|]; [|apply wp_raise].
  destruct (_ || _); [apply wp_raise|]. apply wp_reading.
  destruct (_ <? _) eqn:E1; [apply wp_raise|]. bprop.
  destruct (_ <? Z.to_N (Unix t)) eqn:E2; bprop.
  - apply wp_bind, wp_modify; [|done|].
    + split; cbn; try reflexivity; done.
    + apply wp_bind, wp_commit, wp_ret. by apply (HQ _ (add64w (ds_MonotonicRevision st) 1)).
  - apply wp_ret. replace st with (set_ds_MonotonicRevision (ds_MonotonicRevision st)
      (set_ds_TrustedTimeHighWater (Z.to_N (Unix t)) st)) at 1; [by apply HQ|].
    assert (Z.to_N (Unix t) = ds_TrustedTimeHighWater st) as -> by lia. by destruct st.
Qed.

(** ** Changes along the order *)

Definition occupied {V} (m : gmap string V) (key : string) : Prop := m !! key <> None.

Lemma occupied_some {V} (m : gmap string V) key v : m !! key = Some v -> occupied m key.
Proof. unfold occupied. by intros ->. Qed.

Lemma buried_entries x y :
  ds_Tombstones y = ds_Tombstones x ->
  (forall key, occupied (ds_Entries y) key -> occupied (ds_Entries x) key \/ ds_Tombstones x !! key = None) ->
  buried x -> buried y /\ ds_Tombstones x ⊆ ds_Tombstones y.
Proof.
  intros Ht He Hx. rewrite Ht. split; [|done]. intros key Hk. rewrite Ht in Hk.
  destruct (ds_Entries y !! key) as [v|] eqn:E; [|done]. exfalso.
  destruct (He key) as [H|H]; [by eapply occupied_some|by apply H, Hx|done].
Qed.

Lemma occupied_insert {V} (m : gmap string V) key v (P : string -> Prop) :
  occupied m key \/ P key -> forall k, occupied (<[key := v]> m) k -> occupied m k \/ P k.
Proof.
  unfold occupied. intros H k Hk. destruct (decide (key = k)) as [<-|Hne]; [done|].
  rewrite lookup_insert_ne in Hk by done. by left.
Qed.

Lemma occupied_alter {V} (m : gmap string V) key f k : occupied (alter f key m) k <-> occupied m k.
Proof.
  unfold occupied. destruct (decide (key = k)) as [<-|Hne].
  - rewrite lookup_alter_eq. by destruct (m !! key).
  - by rewrite lookup_alter_ne.
Qed.

Lemma map_le_alter {V} (le : V -> V -> Prop) `{!PreOrder le} (m : gmap string V) key f :
  (forall v, m !! key = Some v -> le v (f v)) -> map_le le m (alter f key m).
Proof.
  intros Hf k v Hv. destruct (decide (key = k)) as [<-|Hne].
  - exists (f v). rewrite lookup_alter_eq, Hv. auto.
  - exists v. rewrite lookup_alter_ne by done. split; [done|reflexivity].
Qed.

End wp.

(** ** Guards as propositions *)

Lemma same_true a b : same a b = true -> a = b.
Proof. unfold same. intros. by bprop. Qed.
Lemma same_false a b : same a b = false -> a <> b.
Proof. unfold same. intros. by bprop. Qed.
Lemma differ_true a b : differ a b = true -> a <> b.
Proof. unfold differ. intros. bprop. by apply same_false. Qed.
Lemma differ_false a b : differ a b = false -> a = b.
Proof. unfold differ. intros. bprop. by apply same_true. Qed.
Lemma is_none_true {A} (o : option A) : is_none o = true -> o = None.
Proof. by destruct o. Qed.
Lemma is_none_false {A} (o : option A) : is_none o = false -> exists a, o = Some a.
Proof. destruct o; [eauto|done]. Qed.
Lemma is_err_false (r : result unit) : is_err r = false -> r = Ok tt.
Proof. by destruct r as [[]|]. Qed.
Lemma matches_true r want : matches r want = true -> r = Ok want.
Proof. destruct r; [|done]. cbn. by intros ->%same_true. Qed.

Ltac cprop_step :=
  match goal with
  | H : same _ _ = true |- _ => apply same_true in H
  | H : same _ _ = false |- _ => apply same_false in H
  | H : differ _ _ = true |- _ => apply differ_true in H
  | H : differ _ _ = false |- _ => apply differ_false in H
  | H : is_none _ = true |- _ => apply is_none_true in H
  | H : is_none _ = false |- _ => apply is_none_false in H as [? H]
  | H : is_err _ = false |- _ => apply is_err_false in H
  | H : matches _ _ = true |- _ => apply matches_true in H
  | u : unit |- _ => destruct u
  end.
Ltac cprop := repeat (bprop_step || cprop_step).

(** One step of an operation; the obligation of a change. *)
Ltac wp_step :=
  lazymatch goal with
  | |- wp (reading _) _ _ _ => apply wp_reading
  | |- wp (bind _ _) _ _ _ => apply wp_bind
  | |- wp (ret _) _ _ _ => apply wp_ret
  | |- wp (raise _) _ _ _ => apply wp_raise
  | |- wp (pure _) _ _ _ => apply wp_pure; intros ? ?
  | |- wp (commit _) _ _ _ => apply wp_commit
  | |- wp (trustedNowLocked _) _ _ _ => apply wp_trustedNow; intros ? ? ? ?
  | |- wp (if _ then raise _ else _) _ _ _ => apply wp_refuse; intros ?
  | |- wp (match ?c with _ => _ end) _ _ _ => destruct c eqn:?
  end.
Ltac wp_steps := repeat (wp_step; cbv beta).
Ltac le_split := split; cbn; try reflexivity; try done.

Section follow.
Context {TC : TrustedCapability} {SHA : Sha256} {SJ : StateJSON} {MA : MonotonicAuthority} {ML : MonotonicLaws}.
Implicit Types (st x y : DurableState).

Lemma le_entries st entries :
  (forall key, occupied entries key -> occupied (ds_Entries st) key \/ ds_Tombstones st !! key = None) ->
  state_le st (set_ds_Entries entries st).
Proof. intros H. le_split. by apply (buried_entries st (set_ds_Entries entries st)). Qed.

Lemma le_inventory st : state_le st (bump_inventory st).
Proof. le_split. Qed.

Lemma le_put_entry st key entry :
  occupied (ds_Entries st) key \/ ds_Tombstones st !! key = None -> state_le st (put_entry key entry st).
Proof. intros H. apply le_entries, (occupied_insert _ _ _ (fun k => ds_Tombstones st !! k = None)), H. Qed.

Lemma wp_acceptHead envelope (Q : unit -> _) st x :
  (forall heads, Q tt (set_ds_AuthorityHeads heads st) x) -> wp (acceptAuthorityHeadLocked envelope) Q st x.
Proof.
  intros HQ. unfold acceptAuthorityHeadLocked. wp_steps. apply wp_modify; [le_split|done|apply HQ].
Qed.

Lemma wp_revalidate e key entry now (Q : Entry -> _) st x :
  (forall entries entry', (forall k, occupied entries k <-> occupied (ds_Entries st) k) ->
     (revalidatePublisherLocked e entry now).2 = Ok entry' -> Q entry' (set_ds_Entries entries st) x) ->
  wp (revalidate_stored e key entry now) Q st x.
Proof.
  intros HQ. unfold revalidate_stored. destruct (revalidatePublisherLocked e entry now) as [heads r].
  apply wp_bind, wp_modify; case_decide; try done; try reflexivity.
  - apply le_entries. intros k Hk. left. by apply occupied_alter in Hk.
  - apply wp_pure. intros a Ha. replace st with (set_ds_Entries (ds_Entries st) st) at 1 by by destruct st. by apply HQ.
  - apply wp_pure. intros a Ha. apply HQ; [|done]. intros k. apply occupied_alter.
Qed.

(** *** The owner's trust root *)

Definition done_ {A} : A -> DurableState -> DurableState -> Prop := fun _ _ _ => True.

Lemma le_govern st policy digest subjects controllers :
  (ds_Initialized st = true -> ds_AuthorityEpoch st <= po_AuthorityEpoch policy) ->
  state_le st (govern policy digest subjects controllers st).
Proof. intros H. le_split. auto. Qed.

Lemma Bootstrap_follows e request st x : wp (Bootstrap e request) done_ st x.
Proof.
  unfold Bootstrap. wp_steps; try done. apply wp_modify; [|done|by wp_steps].
  match goal with H : ds_Initialized st = false |- _ => rename H into Hi end.
  split; cbn; try reflexivity; try done. by rewrite Hi.
Qed.

Lemma RotatePolicy_follows e request st x : wp (RotatePolicy e request) done_ st x.
Proof.
  unfold RotatePolicy. wp_steps. apply wp_acceptHead. intros heads. wp_steps. apply wp_modify; [|by destruct (_ <? po_AuthorityEpoch _)|by wp_steps].
  match goal with H : negb (successor_policy _ _ _ _ _) = false |- _ => apply negb_false_iff in H; unfold successor_policy in H end.
  bprop. etrans; [|apply le_govern].
  - destruct (_ <? po_AuthorityEpoch _); [le_split|reflexivity].
  - intros _. by destruct (_ <? po_AuthorityEpoch _).
Qed.

Lemma IssueDeviceSession_follows e request st x : wp (IssueDeviceSession e request) done_ st x.
Proof.
  unfold IssueDeviceSession. wp_steps; try done. apply wp_acceptHead. intros heads. wp_steps.
  apply wp_modify; [|done|by wp_steps]. le_split. apply map_le_insert; [apply _|]. cbn in *. congruence.
Qed.

Lemma ObserveTrustedTime_follows e st x : wp (ObserveTrustedTime e) done_ st x.
Proof.
  unfold ObserveTrustedTime. wp_steps; try done. apply wp_modify; [|done|by wp_steps]. bprop. le_split.
Qed.

(** *** Into quarantine *)

Lemma import_child_follows now child changed (Q : bool -> _) st x :
  (forall b st' y, Q b st' y) -> wp (import_child now child changed) Q st x.
Proof.
  intros HQ. unfold import_child. wp_steps; auto. apply wp_modify; [|done|by wp_steps; auto].
  apply (le_put_entry st). right. bprop. by destruct (ds_Tombstones st !! _).
Qed.

Lemma import_children_follows now children changed (Q : bool -> _) st x :
  (forall b st' y, Q b st' y) -> wp (import_children now children changed) Q st x.
Proof.
  intros HQ. revert changed st x. induction children as [|c rest IH]; intros changed st x; cbn; wp_steps; auto.
  by apply import_child_follows.
Qed.

Lemma import_roots_follows now roots changed (Q : bool -> _) st x :
  (forall b st' y, Q b st' y) -> wp (import_roots now roots changed) Q st x.
Proof.
  intros HQ. revert changed st x. induction roots as [|[] rest IH]; intros changed st x; cbn; wp_steps; auto.
  by apply import_children_follows.
Qed.

Lemma ImportLegacySkillRoots_follows e roots now st x : wp (ImportLegacySkillRoots e roots now) done_ st x.
Proof.
  unfold ImportLegacySkillRoots. wp_steps. apply import_roots_follows. intros b st' y. wp_steps; try done.
  apply wp_modify; [le_split|done|by wp_steps].
Qed.

Lemma registerQuarantined_follows e entry path now st x : wp (registerQuarantined e entry path now) done_ st x.
Proof.
  unfold registerQuarantined. wp_steps. apply wp_modify; [|done|by wp_steps].
  etrans; [|apply le_inventory]. apply (le_put_entry st). right. bprop. by destruct (ds_Tombstones st !! _).
Qed.

Lemma RegisterQuarantined_follows e entry receipt validated now st x :
  wp (RegisterQuarantined e entry receipt validated now) done_ st x.
Proof. unfold RegisterQuarantined. wp_steps. apply registerQuarantined_follows. Qed.

(** *** From quarantine to installation *)

Lemma VerifyCandidate_follows e request st x : wp (VerifyCandidate e request) done_ st x.
Proof.
  unfold VerifyCandidate. wp_steps. apply wp_modify; [|done|by wp_steps].
  etrans; [|apply le_inventory]. apply le_entries. cbn in *.
  match goal with H : negb (is_none (ds_Tombstones st !! _)) = false |- _ => rename H into Ht end.
  intros k Hk. apply (occupied_insert _ _ _ (fun k => ds_Tombstones st !! k = None)) in Hk;
    [|right; bprop; by destruct (ds_Tombstones st !! _)].
  destruct Hk as [Hk|Hk]; [left|by right]. unfold occupied in *. intros Hn. apply Hk. rewrite lookup_delete_None. auto.
Qed.

(** Rewriting an entry that is there. *)
Lemma le_update_entry st key entry : occupied (ds_Entries st) key -> state_le st (bump_inventory (put_entry key entry st)).
Proof. intros H. etrans; [|apply le_inventory]. apply le_put_entry. by left. Qed.

Lemma Admit_follows e request st x : wp (Admit e request) done_ st x.
Proof.
  unfold Admit. wp_steps. apply wp_revalidate. intros entries entry' Hk Hr. wp_steps.
  apply wp_acceptHead. intros heads. wp_steps. apply wp_modify; [|done|by wp_steps].
  apply le_update_entry. cbn. by eapply Hk, occupied_some.
Qed.

Lemma Promote_follows e request st x : wp (Promote e request) done_ st x.
Proof.
  unfold Promote. wp_steps. apply wp_revalidate. intros entries entry' Hk Hr. wp_steps.
  apply wp_acceptHead. intros heads. wp_steps. apply wp_modify; [|done|by wp_steps].
  apply le_update_entry. cbn. by eapply Hk, occupied_some.
Qed.

Lemma materialize_follows e key slotKey target entry now st x :
  occupied (ds_Entries st) key -> wp (materialize e key slotKey target entry now) done_ st x.
Proof.
  intros Hk. unfold materialize. wp_steps. apply wp_modify; [|done|by wp_steps].
  match goal with |- state_le _ (set_ds_InstallationSlots _ ?y) => trans y; [by apply le_update_entry|] end. le_split. apply map_le_alter; [apply _|]. by right.
Qed.

Lemma Install_follows e request st x : wp (Install e request) done_ st x.
Proof.
  unfold Install. wp_steps. apply wp_revalidate. intros entries entry' Hk Hr. wp_steps; try done.
  - apply materialize_follows. cbn in *. by eapply Hk, occupied_some.
  - apply wp_acceptHead. intros heads. wp_steps. apply wp_modify; [|done|].
    + le_split. apply map_le_insert; [apply _|]. cbn in *. congruence.
    + wp_steps. apply materialize_follows. cbn in *. by eapply Hk, occupied_some.
Qed.

(** *** Executions *)

(** What the gate has seen when it lets an execution start: [st] is memory as
    the call found it, [lease] the decoded lease, [entry] the revalidated entry
    of the artifact. Every guard of [validateUse] has its clause. *)
Record lease_valid (request : StartRequest) st (now : N) (lease : UseLease) : Prop := {
  lv_shape : ValidateUseBindingShape (sq_Binding request) (sq_Remote request) = Ok tt;
  lv_decoded : DecodeLease (sq_LeaseObject request) = Ok lease;
  lv_window : ValidateUseLease lease now (ds_AuthorityEpoch st) (bi_AdmissionRevocationGeneration (sq_Binding request))
    (valueOrZero (bi_PromotionRevocationGeneration (sq_Binding request))) = Ok tt;
  lv_signed : VerifyAuthorization (sq_LeaseEnvelope request) (sq_LeaseObject request) now (ds_AuthorityEpoch st) = Ok tt;
  lv_policy : verifyPolicyAuthorizationLocked st (sq_LeaseEnvelope request) "use-lease" (le_AgentID lease) = Ok tt;
  lv_subset : ob_ObjectKind (sq_PermissionSubsetObject request) <> ""%string;
  lv_domain : ob_DomainKind (sq_LeaseObject request) = ds_DomainKind st /\
    ob_DomainID (sq_LeaseObject request) = ds_DomainID st;
  lv_digest : ObjectDigest (sq_LeaseObject request) = Ok (bi_UseLeaseDigest (sq_Binding request));
  lv_binding : ValidateLeaseBinding lease (sq_Binding request) (ds_InstallationID st) = Ok tt
}.

Definition admission_valid (request : StartRequest) st (now : N) (lease : UseLease) (entry : Entry) : Prop :=
  exists object envelope body,
    e_AdmissionObject entry = Some object /\ e_AdmissionEnvelope entry = Some envelope /\
    DecodeAdmission object = Ok body /\ ValidateAdmission body now = Ok tt /\
    VerifyAuthorization envelope object now (ds_AuthorityEpoch st) = Ok tt /\
    authorizationEnvelopeDigest envelope = Ok (bi_AdmissionEnvelopeDigest (sq_Binding request)) /\
    le_AdmissionEnvelopeDigest lease = bi_AdmissionEnvelopeDigest (sq_Binding request).

(** The promotion that is required, and none bound where none is. *)
Definition promotion_valid (request : StartRequest) st (now : N) (entry : Entry) : Prop :=
  if e_PromotionRequired entry then exists object envelope body digest,
    e_PromotionObject entry = Some object /\ e_PromotionEnvelope entry = Some envelope /\
    DecodePromotion object = Ok body /\ pr_NotBeforeUnix body <= now < pr_ExpiresAtUnix body /\
    VerifyAuthorization envelope object now (ds_AuthorityEpoch st) = Ok tt /\
    authorizationEnvelopeDigest envelope = Ok digest /\ bi_PromotionEnvelopeDigest (sq_Binding request) = Some digest
  else bi_PromotionEnvelopeDigest (sq_Binding request) = None.

Definition permissions_valid (request : StartRequest) (entry : Entry) : Prop :=
  exists object admitted selected,
    e_PermissionObject entry = Some object /\ DecodePermission object = Ok admitted /\
    DecodePermission (sq_PermissionSubsetObject request) = Ok selected /\ PermissionSubsetOf selected admitted = Ok tt /\
    ObjectDigest (sq_PermissionSubsetObject request) = Ok (bi_PermissionSubsetDigest (sq_Binding request)).

(** The binding names every revision and generation as it is. *)
Record binding_current (binding : UseBinding) st (lease : UseLease) (entry : Entry) : Prop := {
  bc_admission : bi_AdmissionRevision binding = e_AdmissionRevision entry /\
    bi_AdmissionRevocationGeneration binding = e_AdmissionRevocationGeneration entry;
  bc_promotion : valueOrZero (bi_PromotionRevision binding) = e_PromotionRevision entry /\
    valueOrZero (bi_PromotionRevocationGeneration binding) = e_PromotionRevocationGeneration entry;
  bc_epoch : bi_AuthorityEpoch binding = ds_AuthorityEpoch st;
  bc_policy : bi_PolicyRevision binding = ds_PolicyRevision st /\ bi_PolicyDigest binding = ds_PolicyDigest st;
  bc_scope : bi_ControlScopeGeneration binding = ds_ControlScopeGeneration st;
  bc_inventory : bi_InventoryRevision binding = ds_InventoryRevision st;
  bc_installation : bi_InstallationRevision binding = e_InstallationRevision entry;
  bc_loaded : bi_LoadedObjectDigest binding = bi_ArtifactVersionDigest binding;
  bc_permissions : bi_PermissionSubsetDigest binding = le_PermissionSubsetDigest lease
}.

(** The resources the runtime resolved are the ones the binding names. *)
Record resources_bound (observed : ObservedUseContext) (binding : UseBinding) : Prop := {
  rb_loaded : ou_LoadedObjectDigest observed = bi_LoadedObjectDigest binding;
  rb_installation : ou_InstallationRevision observed = bi_InstallationRevision binding;
  rb_runtime : ou_RuntimeAndSandboxDigest observed = bi_RuntimeAndSandboxDigest binding;
  rb_environment : ou_EffectiveEnvironmentDigest observed = bi_EffectiveEnvironmentDigest binding;
  rb_credentials : ou_CredentialCapabilityReferenceSetDigest observed = bi_CredentialCapabilityReferenceSetDigest binding;
  rb_files : ou_FilesystemHandleSetDigest observed = bi_FilesystemHandleSetDigest binding;
  rb_network : ou_NetworkBrokerPolicyDigest observed = bi_NetworkBrokerPolicyDigest binding;
  rb_handshake : ou_RemoteSessionHandshakeDigest observed = bi_RemoteSessionHandshakeDigest binding
}.

Record use_authorized (e : op_env) (request : StartRequest) st (now : N) (lease : UseLease) (entry : Entry) : Prop := {
  ua_owner : ds_Initialized st = true /\ ds_OwnerPaused st = false /\ ds_OwnerExit st = None;
  ua_time : ds_TrustedTimeHighWater st <= now;
  ua_lease : lease_valid request st now lease;
  ua_active : exists stored,
    ds_Entries st !! hex_EncodeToString (bi_ArtifactVersionDigest (sq_Binding request)) = Some stored /\
    e_State stored = StateActive /\ is_Some (e_AdmissionEnvelope stored) /\ e_InstalledPath stored <> ""%string /\
    (revalidatePublisherLocked e stored now).2 = Ok entry;
  ua_admission : admission_valid request st now lease entry;
  ua_promotion : promotion_valid request st now entry;
  ua_permissions : permissions_valid request entry;
  ua_bytes : ev_manifest e (e_InstalledPath entry) = Ok (e_ObservedContentDigest entry);
  ua_current : binding_current (sq_Binding request) st lease entry;
  ua_resources : resources_bound (sq_Observed request) (sq_Binding request)
}.

Lemma use_lease_ok st request now lease digest :
  use_lease st request now = Ok (lease, digest) ->
  lease_valid request st now lease /\ digest = bi_UseLeaseDigest (sq_Binding request).
Proof. unfold use_lease. intros H. op_cases H. cprop. subst. by repeat split. Qed.

Lemma use_admission_ok st request lease entry now :
  use_admission st request lease entry now = Ok tt -> admission_valid request st now lease entry.
Proof. unfold use_admission. intros H. op_cases H. cprop. subst. by do 3 eexists. Qed.

Lemma use_promotion_ok st request entry now :
  use_promotion st request entry now = Ok tt -> promotion_valid request st now entry.
Proof.
  unfold use_promotion, promotion_valid. intros H. destruct (e_PromotionRequired entry); op_cases H; cprop; [|done].
  subst. do 4 eexists. by split_and!.
Qed.

Lemma use_permissions_ok request entry :
  use_permissions request entry = Ok tt -> permissions_valid request entry.
Proof. unfold use_permissions. intros H. op_cases H. cprop. by do 3 eexists. Qed.

Lemma use_generations_ok st binding lease entry :
  use_generations st binding lease entry = true -> binding_current binding st lease entry.
Proof. unfold use_generations. intros H. cprop. by repeat split. Qed.

Lemma use_observed_ok observed binding : use_observed observed binding = true -> resources_bound observed binding.
Proof. unfold use_observed, optionalBytesEqual. intros H. cprop. by split. Qed.

(** A start: what it established, that the execution was unknown, and that its
    slot is stored. *)
Definition started (e : op_env) (request : StartRequest) (tokenDigest : string) st y : Prop :=
  let slotKey := hex_EncodeToString (bi_ExecutionID (sq_Binding request)) in
  exists now lease entry slot requestDigest,
    use_authorized e request st now lease entry /\ ds_UseSlots st !! slotKey = None /\
    ds_UseSlots y !! slotKey = Some slot /\ us_State slot = "started"%string /\
    us_LeaseDigest slot = bi_UseLeaseDigest (sq_Binding request) /\ us_StartedAtUnix slot = now /\
    us_ResolutionTokenDigest slot = tokenDigest /\ us_ExactRequestDigest slot = requestDigest /\
    us_ExecutionID slot = bi_ExecutionID (sq_Binding request) /\
    capabilityUseRequestDigest (ds_DomainKind st) (ds_DomainID st) (sq_Binding request) = Ok requestDigest.

Lemma validateUse_starts e request tokenDigest st x :
  wp (validateUse e request (Some tokenDigest)) (fun _ st' y => st' = y /\ started e request tokenDigest st y) st x.
Proof.
  unfold validateUse. wp_steps; cbn [negb is_none andb] in *; try done.
  apply wp_revalidate. intros entries entry' Hk Hr. wp_steps; try done.
  { exfalso. by bprop. }
  match goal with H : ds_UseSlots _ !! _ = None |- _ => rename H into Hslot end. cbn in Hslot.
  match goal with H : use_lease _ _ _ = Ok _ |- _ => destruct (use_lease_ok _ _ _ _ _ H) as [? ->] end.
  match goal with H : use_admission _ _ _ _ _ = Ok ?u |- _ => destruct u; pose proof (use_admission_ok _ _ _ _ _ H) end.
  match goal with H : use_promotion _ _ _ _ = Ok ?u |- _ => destruct u; pose proof (use_promotion_ok _ _ _ _ H) end.
  match goal with H : use_permissions _ _ = Ok ?u |- _ => destruct u; pose proof (use_permissions_ok _ _ H) end.
  cprop. match goal with H : use_generations _ _ _ _ = true |- _ => apply use_generations_ok in H end.
  match goal with H : use_observed _ _ = true |- _ => apply use_observed_ok in H end.
  apply wp_modify.
  - etrans; [|match goal with |- state_le _ (set_ds_UseSlots _ (put_entry ?k ?en ?s)) => instantiate (1 := put_entry k en s) end].
    + apply le_put_entry. left. cbn in *. by eapply Hk, occupied_some.
    + le_split. apply map_le_insert; [apply _|]. congruence.
  - done.
  - wp_steps. split; [done|]. unfold started. cbn. do 5 eexists. rewrite lookup_insert_eq.
    split_and!; [|done|done|done|done|done|done|done|done|done]. cbn in *.
    split; cbn; try done.
    + match goal with H : lease_valid _ _ _ _ |- _ => destruct H; by split end.
    + eexists. by split_and!.
    + match goal with H : binding_current _ _ _ _ |- _ => destruct H; by split end.
Qed.

Lemma PrepareUse_starts e request st x :
  wp (PrepareUse e request) (fun token st' y => st' = y /\ started e request (use_token_digest token) st y) st x.
Proof.
  unfold PrepareUse. wp_steps. eapply wp_mono; [|apply validateUse_starts].
  intros [] st' y [-> H]. by apply wp_ret.
Qed.

Lemma RevalidateUse_follows e request st x : wp (RevalidateUse e request) done_ st x.
Proof.
  unfold RevalidateUse, validateUse. wp_steps; try done. apply wp_revalidate. intros entries entry' Hk Hr.
  by wp_steps.
Qed.

Lemma le_put_use st key slot :
  (forall prior, ds_UseSlots st !! key = Some prior -> use_le prior slot) -> state_le st (put_use key slot st).
Proof. intros H. le_split. apply map_le_insert; [apply _|done]. Qed.

Lemma le_put_action st key action :
  (forall prior, ds_MCPToolActions st !! key = Some prior -> mcp_le prior action) -> state_le st (put_action key action st).
Proof. intros H. le_split. apply map_le_insert; [apply _|done]. Qed.

Lemma ResolveUse_follows e executionID token disposition st x : wp (ResolveUse e executionID token disposition) done_ st x.
Proof.
  unfold ResolveUse. wp_steps; try done. apply wp_modify; [|done|by wp_steps].
  apply le_put_use. cbn. intros prior Hp. simplify_eq. right. split; [done|]. cbn.
  unfold use_phase. repeat case_match; try lia; cprop; congruence.
Qed.

(** *** Tool actions *)

Definition prepared (actionID exactRequestDigest token : string) st y : Prop :=
  let key := hex_EncodeToString actionID in
  ds_MCPToolActions st !! key = None /\ ds_OwnerExit st = None /\
  exists action, ds_MCPToolActions y !! key = Some action /\ ma_State action = "prepared"%string /\
    ma_ExactRequestDigest action = exactRequestDigest /\
    ma_ResolutionTokenDigest action = mcpResolutionTokenDigest actionID exactRequestDigest token.

Lemma requireNew_ok st : requireNewCapabilityWorkLocked st = Ok tt -> ds_OwnerPaused st = false /\ ds_OwnerExit st = None.
Proof. unfold requireNewCapabilityWorkLocked. intros H. op_cases H. cprop. done. Qed.

Lemma PrepareMCPAction_prepares e actionID exactRequestDigest st x :
  wp (PrepareMCPAction e actionID exactRequestDigest)
    (fun token st' y => st' = y /\ prepared actionID exactRequestDigest token st y) st x.
Proof.
  unfold PrepareMCPAction. wp_steps. cprop.
  match goal with H : requireNewCapabilityWorkLocked _ = _ |- _ => destruct (requireNew_ok _ H) end.
  apply wp_modify; [|done|].
  - apply le_put_action. cbn. congruence.
  - wp_steps. split; [done|]. split_and!; [done|done|]. cbn. rewrite lookup_insert_eq. by eexists.
Qed.

Lemma ResolveMCPAction_follows e actionID exactRequestDigest token disposition st x :
  wp (ResolveMCPAction e actionID exactRequestDigest token disposition) done_ st x.
Proof.
  unfold ResolveMCPAction. wp_steps; try done. apply wp_modify; [|done|by wp_steps].
  apply le_put_action. cbn. intros prior Hp. simplify_eq. right. split; [done|].
  cbn. unfold mcp_open in *. cprop. set_unfold.
  match goal with H : _ \/ same _ "ambiguous" = true |- _ => destruct H; cprop; [|congruence] end.
  match goal with H : ma_State _ = "prepared"%string |- _ => rewrite H end.
  match goal with H : disposition = _ \/ _ |- _ => destruct H as [-> |[-> |[-> |[]]]] end; vm_compute; done.
Qed.

Lemma recovered_le st evidence digest now change :
  recovered st evidence digest now = Ok change ->
  forall st', ds_UseSlots st' = ds_UseSlots st -> ds_MCPToolActions st' = ds_MCPToolActions st ->
  state_le st' (change st') /\ ds_MonotonicRevision (change st') = ds_MonotonicRevision st'.
Proof.
  unfold recovered. intros H st' Hu Hm. op_cases H; cprop; split; try done.
  - le_split. apply map_le_insert; [apply _|]. rewrite Hm. intros prior Hp. simplify_eq. right. split; [done|]. cbn.
    by repeat match goal with H : ma_State _ = _ |- _ => rewrite H end.
  - apply le_put_use. rewrite Hu. intros prior Hp. simplify_eq. right. split; [done|]. cbn.
    by repeat match goal with H : us_State _ = _ |- _ => rewrite H end.
Qed.

Lemma RecoverAmbiguousAction_follows e request st x : wp (RecoverAmbiguousAction e request) done_ st x.
Proof.
  unfold RecoverAmbiguousAction. wp_steps. apply wp_acceptHead. intros heads. wp_steps.
  match goal with H : recovered _ _ _ _ = Ok ?c |- _ =>
    destruct (recovered_le _ _ _ _ _ H (set_ds_AuthorityHeads heads
      (set_ds_MonotonicRevision revision (set_ds_TrustedTimeHighWater now st)))) as [Hle Hrev]; [done|done|] end.
  apply wp_modify; [|exact Hrev|by wp_steps]. etrans; [exact Hle|apply le_inventory].
Qed.

(** *** Owner commands *)

Context {OC : OwnerControl}.

Lemma occupied_fmap {V} (m : gmap string V) (f : V -> V) key : occupied (f <$> m) key <-> occupied m key.
Proof. unfold occupied. rewrite lookup_fmap. by destruct (m !! key). Qed.

Lemma session_le_revoke r : session_le r (revoke_session r).
Proof. done. Qed.

Lemma le_revoke_authorities st session : state_le st (revoke_authorities session st).
Proof.
  le_split.
  - apply (buried_entries st (revoke_authorities session st)); [done|]. cbn. intros key Hk. left. by apply occupied_fmap in Hk.
  - intros key r Hr. rewrite map_lookup_imap, Hr. cbn. eexists. split; [done|].
    case_match; [apply session_le_revoke|reflexivity].
Qed.

(** The last stage has no successor. *)
Lemma exit_successor st effect attempt plan st' accepting :
  exit_change st effect attempt plan = Ok (st', accepting) -> ~ exited st.
Proof.
  unfold exit_change. intros H (p & Hp & Hs). rewrite Hp in H.
  destruct (_ || is_err _); [done|]. destruct (_ || differ _ (xp_PredecessorPolicyDigest p)); [done|].
  rewrite Hs in H. destruct (negb (xp_Revision plan =? _)); [done|]. cbn in H. done.
Qed.

Lemma exit_change_le st effect attempt plan st' accepting :
  exit_change st effect attempt plan = Ok (st', accepting) ->
  state_le st st' /\ ds_MonotonicRevision st' = ds_MonotonicRevision st /\
  ds_OwnerCommandActions st' = ds_OwnerCommandActions st.
Proof.
  intros H. pose proof (exit_successor _ _ _ _ _ _ H) as Hex. unfold exit_change in H.
  destruct (_ || is_err _); [done|]. head_case H as [[stage revision]|] eqn Hprior; [|done].
  destruct (_ || negb (validOwnerExitTransition _ _)); [done|]. destruct (_ && differ _ _); [done|].
  set (st1 := if same (xp_Stage plan) "revoke-authorities" then _ else st) in *.
  assert (state_le st st1 /\ ds_MonotonicRevision st1 = ds_MonotonicRevision st /\
    ds_OwnerCommandActions st1 = ds_OwnerCommandActions st /\ ds_OwnerExit st1 = ds_OwnerExit st) as (Hle & Hr & Hc & He).
  { subst st1. destruct (same _ "revoke-authorities"); [|by split_and!]. split_and!; try done. apply le_revoke_authorities. }
  assert (~ exited st1) as Hex1 by (unfold exited; by rewrite He).
  destruct (same (xp_Stage plan) "abort"); [|destruct (same (xp_Stage plan) "tombstone")]; injection H as <- <-;
    (split; [etrans; [exact Hle|]; le_split|by split]).
  intros key r Hr'. rewrite lookup_fmap, Hr'. eexists. split; [done|apply session_le_revoke].
Qed.

Lemma le_remove st key tombstone :
  occupied (ds_Entries st) key ->
  state_le st (set_ds_Tombstones (<[key := tombstone]> (ds_Tombstones st)) (set_ds_Entries (delete key (ds_Entries st)) st)).
Proof.
  intros Hk. le_split. intros Hb. assert (ds_Tombstones st !! key = None) as Hn.
  { destruct (ds_Tombstones st !! key) eqn:E; [|done]. exfalso. apply Hk, Hb. by rewrite E. }
  split; [|by apply insert_subseteq]. intros k. cbn. destruct (decide (key = k)) as [<-|Hne].
  - intros _. apply lookup_delete_eq.
  - rewrite lookup_insert_ne, lookup_delete_ne by done. apply Hb.
Qed.

Lemma apply_switch_follows e effect attempt input (Q : option bool -> _) st x :
  (forall accepting st' y, ds_OwnerCommandActions st' = ds_OwnerCommandActions st -> Q accepting st' y) ->
  wp (apply_switch e effect attempt input) Q st x.
Proof.
  intros HQ. unfold apply_switch. apply wp_reading.
  destruct (command_of _) as [[]|]; [| | | | | | | | | |apply wp_raise].
  3: { wp_steps. match goal with H : exit_change _ _ _ _ = _ |- _ => apply exit_change_le in H as (?&?&?) end.
       apply wp_modify; [done|done|]. wp_steps. by apply HQ. }
  8: { wp_steps. apply wp_modify; [|done|wp_steps; by apply HQ].
       match goal with |- state_le ?s (set_ds_Tombstones (<[?k := ?t]> _) _) => trans (set_ds_Tombstones (<[k := t]> (ds_Tombstones s)) (set_ds_Entries (delete k (ds_Entries s)) s)) end.
       - apply le_remove. cbn. by eapply occupied_some.
       - le_split. }
  8: { wp_steps. apply wp_modify; [|done|wp_steps; by apply HQ]. le_split. apply map_le_insert; [apply _|].
       intros prior Hp. simplify_eq. done. }
  1-2: wp_steps; apply wp_modify; [le_split|done|wp_steps; by apply HQ].
  all: wp_steps; apply wp_modify; [|done|wp_steps; by apply HQ]; apply le_put_entry; left; by eapply occupied_some.
Qed.

(** A command that is answered is recorded with its answer. *)
Definition recorded (attempt : Attempt) (fencingToken : string) (revision : N) y : Prop :=
  ds_OwnerCommandActions y !! hex_EncodeToString (at_ActionID attempt) =
    Some {| oa_ExactRequestDigest := at_ExactRequestDigest attempt; oa_FencingToken := fencingToken;
            oa_State := "applied"; oa_ResultRevision := revision |}.

Lemma applyOwnerCommand_records e effect attempt parameters fencingToken st x :
  wp (applyOwnerCommand e effect attempt parameters fencingToken)
    (fun revision st' y => recorded attempt fencingToken revision st' /\
       (ds_OwnerCommandActions st !! hex_EncodeToString (at_ActionID attempt) = None ->
        recorded attempt fencingToken revision y)) st x.
Proof.
  unfold applyOwnerCommand. wp_steps.
  - cprop. split; [|congruence]. unfold recorded. match goal with H : ds_OwnerCommandActions st !! _ = Some ?o |- _ => rewrite H; destruct o end.
    cbn in *. congruence.
  - apply apply_switch_follows. intros accepting st' y Ha. wp_steps. apply wp_modify; [|done|].
    + le_split. apply insert_subseteq. congruence.
    + wp_steps. apply wp_commit_with. wp_steps. unfold recorded. cbn. by rewrite lookup_insert_eq.
Qed.

Lemma VerifyOwnerCommand_follows principal effect attempt evidence now st x :
  wp (VerifyOwnerCommand principal effect attempt evidence now) done_ st x.
Proof. unfold VerifyOwnerCommand. by wp_steps. Qed.

End follow.

(** ** Runs *)
Section runs.
Context {TC : TrustedCapability} {SHA : Sha256} {SJ : StateJSON} {MA : MonotonicAuthority} {ML : MonotonicLaws}
  {OC : OwnerControl}.
Implicit Types (d : disk) (s : Store) (x y : DurableState).

(** The critical sections of the store's methods. Those of an owner command are
    calls of their own: others may come between them. *)
Inductive call :=
| CallBootstrap (e : op_env) (request : BootstrapRequest)
| CallRotatePolicy (e : op_env) (request : PolicyRotationRequest)
| CallIssueDeviceSession (e : op_env) (request : DeviceSessionRequest)
| CallObserveTrustedTime (e : op_env)
| CallImport (e : op_env) (roots : list legacy_root) (now : Z)
| CallRegister (e : op_env) (entry : Entry) (receipt : QuarantineReceipt) (validated : result string) (now : Z)
| CallVerify (e : op_env) (request : VerificationRequest)
| CallAdmit (e : op_env) (request : AdmissionRequest)
| CallPromote (e : op_env) (request : PromotionRequest)
| CallInstall (e : op_env) (request : InstallationRequest)
| CallPrepareUse (e : op_env) (request : StartRequest)
| CallRevalidateUse (e : op_env) (request : StartRequest)
| CallResolveUse (e : op_env) (executionID token disposition : string)
| CallPrepareMCP (e : op_env) (actionID exactRequestDigest : string)
| CallResolveMCP (e : op_env) (actionID exactRequestDigest token disposition : string)
| CallRecover (e : op_env) (request : ActionOutcomeRecoveryRequest)
| CallCommandTime (e : op_env)
| CallCommandVerify (principal : Principal) (effect : OwnerCommandEffectV1) (attempt : Attempt)
    (evidence : SubmissionEvidence) (now : N)
| CallCommandApply (e : op_env) (effect : OwnerCommandEffectV1) (attempt : Attempt) (parameters fencingToken : string)
| CallClose.

(** What a caller is told that entitles it to act. *)
Inductive event :=
| Started (executionID token : string)
| Prepared (actionID token : string)
| Applied (actionID exactRequestDigest fencingToken : string) (revision : N)   (* executed now *)
| Replayed (actionID : string) (revision : N)                                  (* found in memory *)
| Silent.

Definition told {A} (c : M A) (f : A -> event) s : Store * event :=
  let '(s', r) := c s in (s', match r with Ok a => f a | Err _ => Silent end).
Definition untold {A} (c : M A) s : Store * event := told c (fun _ => Silent) s.

Definition run (c : call) s : Store * event :=
  match c with
  | CallBootstrap e request => untold (Bootstrap e request) s
  | CallRotatePolicy e request => untold (RotatePolicy e request) s
  | CallIssueDeviceSession e request => untold (IssueDeviceSession e request) s
  | CallObserveTrustedTime e => untold (ObserveTrustedTime e) s
  | CallImport e roots now => untold (ImportLegacySkillRoots e roots now) s
  | CallRegister e entry receipt validated now => untold (RegisterQuarantined e entry receipt validated now) s
  | CallVerify e request => untold (VerifyCandidate e request) s
  | CallAdmit e request => untold (Admit e request) s
  | CallPromote e request => untold (Promote e request) s
  | CallInstall e request => untold (Install e request) s
  | CallPrepareUse e request => told (PrepareUse e request) (Started (bi_ExecutionID (sq_Binding request))) s
  | CallRevalidateUse e request => untold (RevalidateUse e request) s
  | CallResolveUse e executionID token disposition => untold (ResolveUse e executionID token disposition) s
  | CallPrepareMCP e actionID digest => told (PrepareMCPAction e actionID digest) (Prepared actionID) s
  | CallResolveMCP e actionID digest token disposition => untold (ResolveMCPAction e actionID digest token disposition) s
  | CallRecover e request => untold (RecoverAmbiguousAction e request) s
  | CallCommandTime e => untold (trustedNowLocked e) s
  | CallCommandVerify principal effect attempt evidence now =>
      untold (VerifyOwnerCommand principal effect attempt evidence now) s
  | CallCommandApply e effect attempt parameters fencingToken =>
      told (applyOwnerCommand e effect attempt parameters fencingToken)
        (if is_none (ds_OwnerCommandActions (cs_state s) !! hex_EncodeToString (at_ActionID attempt))
         then Applied (at_ActionID attempt) (at_ExactRequestDigest attempt) fencingToken
         else Replayed (at_ActionID attempt)) s
  | CallClose => (Close s, Silent)
  end.

(** A process has the store open, or none has. *)
Inductive world := Up (s : Store) | Down (d : disk).

Inductive step : world -> event -> world -> Prop :=
| step_call c s : step (Up s) (run c s).2 (Up (run c s).1)
| step_crash s : step (Up s) Silent (Down (cs_disk s))
| step_open dp e resolved d :
    step (Down d) Silent
      match OpenProductionInDomain dp e resolved d with
      | (_, Ok s) => Up s
      | (d', Err _) => Down d'
      end.

Inductive steps : world -> list event -> world -> Prop :=
| steps_nil w : steps w [] w
| steps_cons w1 ev w2 evs w3 : step w1 ev w2 -> steps w2 evs w3 -> steps w1 (ev :: evs) w3.

(** ** The invariant of runs *)

(** The store holds the state [x]; a directory no store was made in holds none. *)
Definition fresh d : Prop :=
  dk_file d = FileAbsent /\ dk_pending d = FileAbsent /\ forall scope, held (dk_authority d) scope = None.

Definition holds (w : world) (x : option DurableState) : Prop :=
  match w, x with
  | Up s, Some x => store_ok s x
  | Down d, Some x => disk_ok d x
  | Down d, None => fresh d
  | Up _, None => False
  end.

Definition option_le (x y : option DurableState) : Prop :=
  match x, y with
  | None, None => True
  | None, Some y => buried y
  | Some x, Some y => state_le x y
  | Some _, None => False
  end.

#[global] Instance option_le_preorder : PreOrder option_le.
Proof.
  split; [by intros [x|]; cbn; [reflexivity|]|]. intros [x|] [y|] [z|]; cbn; try done; intros.
  - by etrans.
  - by eapply sl_tombstones.
Qed.

(** What an event says about what is stored after it. *)
Definition witnessed (ev : event) y : Prop :=
  match ev with
  | Started executionID token => exists slot, ds_UseSlots y !! hex_EncodeToString executionID = Some slot /\
      us_ResolutionTokenDigest slot = use_token_digest token
  | Prepared actionID _ => occupied (ds_MCPToolActions y) (hex_EncodeToString actionID)
  | Applied actionID digest fence revision =>
      ds_OwnerCommandActions y !! hex_EncodeToString actionID =
        Some {| oa_ExactRequestDigest := digest; oa_FencingToken := fence; oa_State := "applied"; oa_ResultRevision := revision |}
  | Replayed _ _ | Silent => True
  end.

(** What it says about what was stored before it. *)
Definition novel (ev : event) x : Prop :=
  match ev with
  | Started executionID _ => ds_UseSlots x !! hex_EncodeToString executionID = None /\ ~ exited x
  | Prepared actionID _ => ds_MCPToolActions x !! hex_EncodeToString actionID = None /\ ~ exited x
  | Applied actionID _ _ _ => ds_OwnerCommandActions x !! hex_EncodeToString actionID = None
  | Replayed _ _ | Silent => True
  end.

Lemma map_le_none {V} (le : V -> V -> Prop) (m m' : gmap string V) key : map_le le m m' -> m' !! key = None -> m !! key = None.
Proof. intros H Hk. destruct (m !! key) eqn:E; [|done]. destruct (H _ _ E) as (? & ? & _). congruence. Qed.

Lemma told_ok {A} (c : M A) f Q s x :
  store_ok s x -> wp c Q (cs_state s) x ->
  (forall a st y, Q a st y -> witnessed (f a) y /\ novel (f a) x) ->
  exists y, store_ok (told c f s).1 y /\ state_le x y /\ witnessed (told c f s).2 y /\ novel (told c f s).2 x.
Proof.
  intros Hs H Hf. destruct (H s Hs eq_refl) as (y & Hy & Hxy & HQ). exists y. unfold told.
  destruct (c s) as [s' [a|]]; cbn in *; [|by split_and!].
  destruct (Hf a _ _ (HQ a eq_refl)). by split_and!.
Qed.

Lemma untold_ok {A} (c : M A) s x :
  store_ok s x -> wp c done_ (cs_state s) x ->
  exists y, store_ok (untold c s).1 y /\ state_le x y /\ witnessed (untold c s).2 y /\ novel (untold c s).2 x.
Proof. intros Hs H. by eapply told_ok. Qed.

Lemma not_exited x st : state_le x st -> ds_OwnerExit st = None -> ~ exited x.
Proof. intros Hle Hn Hx. destruct (exited_le _ _ Hle Hx) as (p & Hp & _). congruence. Qed.

Lemma call_ok c s x : store_ok s x ->
  exists y, store_ok (run c s).1 y /\ state_le x y /\ witnessed (run c s).2 y /\ novel (run c s).2 x.
Proof.
  intros Hs. pose proof (so_memory _ _ Hs) as Hm. destruct c; cbn [run].
  20: { exists x. split_and!; [|reflexivity|done|done]. destruct Hs. by split. }
  11: { eapply told_ok; [done|apply PrepareUse_starts|]. intros token st y [_ (now & lease & entry & slot & rd & Hu & Hn & Hy & _ & _ & _ & Ht & _)].
        split; [by exists slot|]. split; [by eapply map_le_none; [apply Hm|]|]. eapply not_exited; [done|apply Hu]. }
  13: { eapply told_ok; [done|apply PrepareMCPAction_prepares|]. intros token st y [_ (Hn & He & action & Hy & _)].
        split; [by eapply occupied_some|]. split; [by eapply map_le_none; [apply Hm|]|by eapply not_exited]. }
  17: { eapply told_ok; [done|apply applyOwnerCommand_records|]. intros revision st y [_ Hr].
        destruct (ds_OwnerCommandActions (cs_state s) !! _) as [o|] eqn:E; cbn [is_none]; [done|].
        split; [by apply Hr|]. cbn. destruct (ds_OwnerCommandActions x !! _) eqn:Ex; [|done].
        pose proof (lookup_weaken _ _ _ _ Ex (sl_commands _ _ Hm)). congruence. }
  all: apply untold_ok; [done|].
  - apply Bootstrap_follows.
  - apply RotatePolicy_follows.
  - apply IssueDeviceSession_follows.
  - apply ObserveTrustedTime_follows.
  - apply ImportLegacySkillRoots_follows.
  - apply RegisterQuarantined_follows.
  - apply VerifyCandidate_follows.
  - apply Admit_follows.
  - apply Promote_follows.
  - apply Install_follows.
  - apply RevalidateUse_follows.
  - apply ResolveUse_follows.
  - apply ResolveMCPAction_follows.
  - apply RecoverAmbiguousAction_follows.
  - by apply wp_trustedNow.
  - apply VerifyOwnerCommand_follows.
Qed.

(** Opening where no store was made: nothing, or the initial state. *)
Lemma open_fresh dp e resolved d d' r :
  fresh d -> OpenProductionInDomain dp e resolved d = (d', r) ->
  exists y : option DurableState, holds match r with Ok s => Up s | Err _ => Down d' end y /\ option_le None y.
Proof.
  intros Hfresh E. pose proof Hfresh as (Hf & Hp & Hh).
  assert (forall m, (d, Err m : result Store) = (d', r) -> exists y : option DurableState, holds match r with Ok s => Up s | Err _ => Down d' end y /\ option_le None y)
    as Hfail by (intros m [= <- <-]; by exists None).
  unfold OpenProductionInDomain, openInDomainWithInstallation in E. destruct resolved as [inst|m]; [|by eapply Hfail].
  destruct (slen inst =? 16); [|by eapply Hfail]. destruct (_ || _); [by eapply Hfail|].
  destruct (op_prepare e); [|by eapply Hfail]. rewrite Hf in E. unfold persistLocked in E. cbn [cs_lock negb cs_state cs_disk] in E.
  set (x := initial_state dp inst) in *. assert (buried x) as Hb by done.
  assert (disk_ok (with_file (FileDoc x) d) x) as Hd
    by (apply disk_settled; [done|done|right; split; [apply Hh|done]]).
  destruct (WriteFileAtomic_atomic (ce_state_io (op_genesis e)) x (dk_file d)) as [Hw Hok].
  set (out := WriteFileAtomic _ _ _) in *. destruct (wo_result out) as [[]|m] eqn:Er.
  - destruct (Hok eq_refl) as [Hfile _]. rewrite Hfile in E.
    destruct (reconcileMonotonicLocked e _) as [s1 r1] eqn:Ec. injection E as <- <-.
    apply (store_reconcile_ok e _ x) in Ec as (y & Hy & Hxy & Hs); [|done|done].
    exists (Some y). split; [|by eapply sl_tombstones]. destruct r1 as [[]|]; cbn; [|done]. by destruct (Hs eq_refl) as (? & _).
  - injection E as <- <-. cbn. assert (forall fails s, cs_disk (reloadLocked fails s) = cs_disk s) as Hre
      by (intros fails s; unfold reloadLocked; destruct fails; [done|by destruct (dk_file (cs_disk s))]).
    rewrite Hre. cbn. destruct Hw as [-> | ->]; [exists None|by exists (Some x)].
    unfold fresh. cbn. by rewrite Hf.
Qed.

Lemma world_step w ev w' (x : option DurableState) : holds w x -> step w ev w' ->
  exists y : option DurableState, holds w' y /\ option_le x y /\ (ev <> Silent -> exists x' y', x = Some x' /\ y = Some y' /\ witnessed ev y' /\ novel ev x').
Proof.
  intros Hw Hstep. destruct Hstep as [c s|s|dp e resolved d]; cbn in Hw.
  - destruct x as [x|]; [|done]. destruct (call_ok c s x Hw) as (y & Hy & Hxy & He & Hn).
    exists (Some y). split_and!; [done|done|]. intros _. by exists x, y.
  - destruct x as [x|]; [|done]. exists (Some x). split_and!; [apply Hw|reflexivity|done].
  - destruct (OpenProductionInDomain dp e resolved d) as [d' r] eqn:E. destruct x as [x|].
    + destruct (store_open_ok _ _ _ _ _ _ _ Hw E) as (y & Hy & Hxy & Hs). exists (Some y). split_and!; [|done|done].
      destruct r as [s|]; [|done]. by destruct (Hs s eq_refl).
    + destruct (open_fresh _ _ _ _ _ _ Hw E) as (y & Hy & Hxy). exists y. split_and!; [|done|done].
      by destruct r.
Qed.

Lemma world_steps w evs w' (x : option DurableState) :
  holds w x -> steps w evs w' -> exists y : option DurableState, holds w' y /\ option_le x y.
Proof.
  intros Hw Hs. revert x Hw. induction Hs as [|w1 ev w2 evs w3 H1 H2 IH]; intros x Hw; [by exists x|].
  destruct (world_step _ _ _ _ Hw H1) as (y & Hy & Hxy & _). destruct (IH _ Hy) as (z & Hz & Hyz).
  exists z. split; [done|by etrans].
Qed.

(** What an event witnessed stays true. *)
Lemma witnessed_le ev x y : state_le x y -> witnessed ev x -> witnessed ev y.
Proof.
  intros Hle. destruct ev as [executionID token|actionID token|actionID digest fence revision| |]; cbn; [| | |done..].
  - intros (slot & Hk & Ht). destruct (sl_uses _ _ Hle _ _ Hk) as (slot' & Hk' & Hslot). exists slot'. split; [done|].
    destruct Hslot as [-> |[Ho _]]; [done|].
    rewrite <-Ht. change (us_ResolutionTokenDigest (us_origin slot') = us_ResolutionTokenDigest (us_origin slot)). by rewrite Ho.
  - unfold occupied. destruct (ds_MCPToolActions x !! _) as [a|] eqn:E; [|done]. intros _.
    destruct (sl_actions _ _ Hle _ _ E) as (b & Hb & _). by rewrite Hb.
  - intros Hk. by apply (lookup_weaken _ _ _ _ Hk), sl_commands.
Qed.

(** An event in a run is witnessed by everything stored later. *)
Lemma witnessed_later w ev evs1 evs2 w' (x : option DurableState) :
  holds w x -> steps w (evs1 ++ ev :: evs2) w' -> ev <> Silent ->
  exists w2 w3 x2 y2, holds w2 (Some x2) /\ novel ev x2 /\ option_le x (Some x2) /\
    steps w3 evs2 w' /\ holds w3 (Some y2) /\ witnessed ev y2.
Proof.
  intros Hw Hs He. revert w x Hw Hs. induction evs1 as [|ev1 evs1 IH]; intros w x Hw Hs; inversion Hs as [|w1 e1 w2 l1 w3 H1 H2]; subst.
  - destruct (world_step _ _ _ _ Hw H1) as (y & Hy & Hxy & Hev). destruct (Hev He) as (x' & y' & -> & -> & Hwi & Hno).
    exists w, w2, x', y'. by split_and!.
  - destruct (world_step _ _ _ _ Hw H1) as (y & Hy & Hxy & _).
    destruct (IH _ _ Hy H2) as (w4 & w5 & x2 & y2 & ? & ? & Hle & ? & ? & ?).
    exists w4, w5, x2, y2. split_and!; try done. by etrans.
Qed.

(** ** What holds of every run *)

(** The state a world has stored. *)
Definition stored (w : world) : option DurableState :=
  match dk_file match w with Up s => cs_disk s | Down d => d end with FileDoc x => Some x | _ => None end.

Lemma holds_stored w (x : option DurableState) : holds w x -> stored w = x.
Proof.
  destruct w as [s|d], x as [x|]; cbn; try done; unfold stored.
  - intros [Hd _ _]. by rewrite (disk_ok_file _ _ Hd).
  - intros Hd. by rewrite (disk_ok_file _ _ Hd).
  - intros (-> & _). done.
Qed.

Lemma reachable d evs w : fresh d -> steps (Down d) evs w -> holds w (stored w) /\ option_le None (stored w).
Proof.
  intros Hd Hs. destruct (world_steps (Down d) evs w None Hd Hs) as (y & Hy & Hle).
  by rewrite (holds_stored _ _ Hy).
Qed.

(** C12: The records of the store never go back. Along every run from an empty
    directory, through failing calls, crashes and restarts: the identity, the
    genesis and the trusted time stay or grow; no execution, tool action,
    installation, device session, owner command or tombstone is forgotten; an
    execution or tool action keeps what its start fixed, moves only to a later
    phase and is frozen when it is terminal; a revoked device session stays
    revoked; a finished owner exit stays finished; and an artifact that was
    removed has no entry. This says nothing of the state of an artifact that
    has an entry: a revoked artifact can become admitted or verified again
    ([cap_revoked_returns]). *)
Theorem cap_history d evs1 w1 evs2 w2 x :
  fresh d -> steps (Down d) evs1 w1 -> steps w1 evs2 w2 -> stored w1 = Some x ->
  buried x /\ exists y, stored w2 = Some y /\ state_le x y /\ buried y.
Proof.
  intros Hd H1 H2 Hx. destruct (reachable _ _ _ Hd H1) as [Hw1 Hb]. rewrite Hx in Hw1, Hb.
  destruct (world_steps _ _ _ _ Hw1 H2) as (y & Hy & Hle). pose proof (holds_stored _ _ Hy) as Hst.
  destruct y as [y|]; [|done]. split; [done|]. exists y. split_and!; [done|done|]. by eapply sl_tombstones.
Qed.

(** What a caller was entitled to: an execution, a tool action or a command. *)
Inductive right := Execution (id : string) | ToolAction (id : string) | Command (id : string).
Definition right_of (ev : event) : option right :=
  match ev with
  | Started id _ => Some (Execution id)
  | Prepared id _ => Some (ToolAction id)
  | Applied id _ _ _ => Some (Command id)
  | Replayed _ _ | Silent => None
  end.

Lemma witnessed_not_novel ev1 ev2 r y : right_of ev1 = Some r -> right_of ev2 = Some r -> witnessed ev1 y -> novel ev2 y -> False.
Proof.
  destruct ev1, ev2; cbn; try congruence; intros H1 H2; simplify_eq.
  - intros (? & ? & _) [? _]. congruence.
  - intros ? [? _]. by apply H.
Qed.

Lemma granted_before w evs1 ev1 evs2 ev2 evs3 w' (x : option DurableState) r :
  holds w x -> steps w (evs1 ++ ev1 :: evs2 ++ ev2 :: evs3) w' -> right_of ev1 = Some r -> right_of ev2 = Some r -> False.
Proof.
  intros Hw Hs H1 H2.
  destruct (witnessed_later _ _ _ _ _ _ Hw Hs) as (_ & w3 & _ & y & _ & _ & _ & Hs3 & Hy & Hwit); [by intros ->|].
  destruct (witnessed_later _ _ _ _ _ _ Hy Hs3) as (_ & _ & x2 & _ & _ & Hno & Hle & _); [by intros ->|].
  eapply (witnessed_not_novel ev1 ev2); [done|done| |done]. by eapply witnessed_le.
Qed.

(** C5: Nothing is granted twice. In every run from an empty directory, across
    failing calls, crashes and restarts, the store tells a caller at most once
    that an execution has started, at most once that a tool action is prepared,
    and executes an owner command at most once: a retry is refused or answered
    from the record. *)
Theorem cap_granted_once d evs w i j ev1 ev2 r :
  fresh d -> steps (Down d) evs w ->
  evs !! i = Some ev1 -> evs !! j = Some ev2 -> right_of ev1 = Some r -> right_of ev2 = Some r -> i = j.
Proof.
  intros Hd Hs Hi Hj H1 H2.
  assert (forall i j ev1 ev2, (i < j)%nat -> evs !! i = Some ev1 -> evs !! j = Some ev2 ->
    right_of ev1 = Some r -> right_of ev2 = Some r -> False) as Hlt.
  { clear i j ev1 ev2 Hi Hj H1 H2. intros i j ev1 ev2 Hij Hi Hj H1 H2.
    rewrite <-(take_drop_middle evs i ev1 Hi) in Hs.
    assert (drop (S i) evs !! (j - S i)%nat = Some ev2) as Hj' by (rewrite lookup_drop; by replace (S i + (j - S i))%nat with j by lia).
    rewrite <-(take_drop_middle _ _ _ Hj') in Hs.
    by apply (granted_before (Down d) _ ev1 _ ev2 _ w None r Hd Hs). }
  destruct (Nat.lt_trichotomy i j) as [H|[H|H]]; [|done|]; exfalso; eauto.
Qed.

(** C22: An owner who has left stays gone: once the terminal stage of an exit
    is stored, no later run of the store, whatever is called and whatever fails,
    starts an execution or prepares a tool action, and the exit stays stored. *)
Theorem cap_exit_final d evs1 w1 evs2 w2 x :
  fresh d -> steps (Down d) evs1 w1 -> stored w1 = Some x -> exited x -> steps w1 evs2 w2 ->
  (forall ev, ev ∈ evs2 -> match ev with Started _ _ | Prepared _ _ => False | _ => True end) /\
  exists y, stored w2 = Some y /\ ds_OwnerExit y = ds_OwnerExit x.
Proof.
  intros Hd H1 Hx Hex H2. destruct (reachable _ _ _ Hd H1) as [Hw1 _]. rewrite Hx in Hw1. split.
  - intros ev Hin. apply list_elem_of_split in Hin as (l1 & l2 & ->).
    destruct (decide (right_of ev = None)) as [Hr|Hr]; [by destruct ev|].
    destruct (witnessed_later _ _ _ _ _ _ Hw1 H2) as (_ & _ & x2 & _ & _ & Hno & Hle & _); [by intros ->|].
    pose proof (exited_le _ _ Hle Hex). destruct ev; [by destruct Hno..|done|done|done].
  - destruct (world_steps _ _ _ _ Hw1 H2) as (y & Hy & Hle). pose proof (holds_stored _ _ Hy).
    destruct y as [y|]; [|done]. exists y. split; [done|]. by apply sl_exit.
Qed.

(** C7: An execution starts only under authority that stands at that moment.
    When [PrepareUse] hands out a resolution token, the owner is neither paused
    nor leaving, the artifact is active and its publisher was revalidated, the
    installed bytes have the verified digest; the lease has the digest the
    request binds, is decoded, valid now in its window and its generations, signed
    under the current epoch by a key the policy lists for leases, and made for
    this domain and this request; the admission and, where one is needed, the
    promotion are decoded, valid now, signed under the current epoch and the ones
    the request binds; the selected permissions are among the admitted ones; the
    request names the current revisions and generations and the resources the
    runtime resolved. The execution was unknown before, and its slot, with the
    digests of the lease, of the exact request and of the token, is on disk
    before the caller learns the token. *)
Theorem cap_use_gated e request s x s' token :
  store_ok s x -> PrepareUse e request s = (s', Ok token) ->
  exists now lease entry slot requestDigest,
    use_authorized e request (cs_state s) now lease entry /\
    ds_UseSlots (cs_state s) !! hex_EncodeToString (bi_ExecutionID (sq_Binding request)) = None /\
    dk_file (cs_disk s') = FileDoc (cs_state s') /\
    ds_UseSlots (cs_state s') !! hex_EncodeToString (bi_ExecutionID (sq_Binding request)) = Some slot /\
    us_State slot = "started"%string /\ us_LeaseDigest slot = bi_UseLeaseDigest (sq_Binding request) /\
    us_StartedAtUnix slot = now /\ us_ResolutionTokenDigest slot = use_token_digest token /\
    us_ExactRequestDigest slot = requestDigest /\
    capabilityUseRequestDigest (ds_DomainKind (cs_state s)) (ds_DomainID (cs_state s)) (sq_Binding request) = Ok requestDigest.
Proof.
  intros Hs E. destruct (PrepareUse_starts e request (cs_state s) x s Hs eq_refl) as (y & Hy & _ & HQ).
  rewrite E in Hy, HQ. cbn in *.
  destruct (HQ token eq_refl) as [Hst (now & lease & entry & slot & rd & Hu & Hn & Hk & ? & ? & ? & ? & ? & _ & ?)].
  exists now, lease, entry, slot, rd. rewrite Hst. split_and!; try done. apply disk_ok_file, Hy.
Qed.

End runs.

End CapSafety.
