(* ===== verification/CapPolicy.v ===== *)
(** * Capability control: who may decide

    The checks that tie a decision to the owner's policy: the signers of an
    owner command (owner_command.go), the device session of a channel, the
    publisher's revocation sources (publisher.go) and the separation of duties of
    a promotion (gate.go), each characterised by what it accepts; and the
    promotion an entry comes with. *)

From S2P Require Import Prelude GoLib GoText FileStore Ledger Protocol CapTypes CapStore CapOps CapGate CapOwner CapSafety.
#[local] Open Scope N_scope.

Module CapPolicy.
Import CapTypes CapStore CapOps CapGate CapOwner CapSafety.

(** ** Sorted lists *)

Lemma hex_inj a b : hex_EncodeToString a = hex_EncodeToString b -> a = b.
Proof. intros H. pose proof (hex_decode_encode a) as Ha. rewrite H, hex_decode_encode in Ha. congruence. Qed.

#[global] Instance hex_Inj : Inj (=) (=) hex_EncodeToString.
Proof. exact hex_inj. Qed.

Lemma adjacent_equal_false l :
  StronglySorted String.le l -> adjacent_equal l = false <-> strict_sorted l.
Proof.
  induction l as [|x l IH]; intros Hs; [split; [constructor|done]|].
  inversion Hs as [|? ? Hl Hx]; subst. specialize (IH Hl). destruct l as [|y rest]; cbn.
  - split; [|done]. intros _. repeat constructor.
  - cbn in IH. split.
    + intros H. bprop. apply same_false in H. constructor; [by apply IH|].
      inversion Hx as [|? ? Hxy Hrest]; subst. inversion Hl as [|? ? _ Hy]; subst.
      constructor; [by apply str_le_neq_lt|].
      eapply Forall_impl; [exact Hy|]. cbn. intros z Hz. eapply str_lt_le_trans; [|exact Hz]. by apply str_le_neq_lt.
    + intros H. inversion H as [|? ? Hr Hlt]; subst. inversion Hlt as [|? ? Hxy _]; subst.
      apply orb_false_iff. split; [|by apply IH]. unfold same. apply bool_decide_eq_false_2. intros ->.
      by rewrite str_lt_irrefl in Hxy.
Qed.

Lemma sort_Strings_sorted l : StronglySorted String.le (sort_Strings l).
Proof. apply (sort_by_sorted id). Qed.

Lemma adjacent_sort l : adjacent_equal (sort_Strings l) = false <-> NoDup l.
Proof.
  rewrite adjacent_equal_false by apply sort_Strings_sorted. split.
  - intros H. apply strict_sorted_NoDup in H. by rewrite (sort_by_Permutation id l) in H.
  - intros H. rewrite <-(sort_by_Permutation id l) in H. fold (sort_Strings l) in H.
    pose proof (sort_Strings_sorted l) as Hs. induction Hs as [|x k Hk IH Hx]; [constructor|].
    inversion H as [|? ? Hin Hnd]; subst. constructor; [by apply IH|]. apply Forall_forall. intros y Hy.
    apply str_le_neq_lt; [by eapply (proj1 (Forall_forall _ _) Hx)|]. by intros ->.
Qed.

(** ** The signers of an owner command *)

Section signers.
Context (device : string) (subjects : gmap string (list string)) (controllers : gmap string string).

(** The policy binds the key to a principal. *)
Definition controlled (identifier owner : string) : Prop :=
  controllers !! hex_EncodeToString identifier = Some owner /\ owner <> ""%string.
(** The policy lists the key for the role it has in a command. *)
Definition entitled (identifier : string) : Prop := identifier ∈ default [] (subjects !! role_of device identifier).

Lemma controlled_default identifier :
  default ""%string (controllers !! hex_EncodeToString identifier) <> ""%string ->
  controlled identifier (default ""%string (controllers !! hex_EncodeToString identifier)).
Proof. unfold controlled. by destruct (controllers !! _). Qed.

Lemma cover_roles_ok ids issuers owners roles i o r :
  cover_roles device subjects controllers ids issuers owners roles = Ok (i, o, r) <->
  Forall entitled ids /\ exists more, Forall2 controlled ids more /\
    i = issuers ++ (hex_EncodeToString <$> ids) /\ o = owners ++ more /\
    r = roles ∪ list_to_set (role_of device <$> ids).
Proof.
  revert issuers owners roles. induction ids as [|id rest IH]; intros issuers owners roles; cbn.
  - split.
    + intros [= <- <- <-]. split; [done|]. exists []. split_and!; [done|by rewrite app_nil_r..|set_solver].
    + intros (_ & more & Hm & -> & -> & ->). apply Forall2_nil_inv_l in Hm as ->. rewrite !app_nil_r. repeat f_equal. set_solver.
  - destruct (same _ "") eqn:Eo; [|destruct (negb (subjectAllowed subjects (role_of device id) id)) eqn:Es].
    + apply same_true in Eo. split; [done|]. intros (_ & more & Hm & _).
      apply Forall2_cons_inv_l in Hm as (w & more' & [Hc Hne] & _). by rewrite Hc in Eo.
    + split; [done|]. intros (He & _). apply Forall_cons in He as [He _]. unfold subjectAllowed in Es. by bprop.
    + apply same_false in Eo. unfold subjectAllowed in Es. bprop. rewrite IH, Forall_cons. split.
      * intros (He & more & Hm & -> & -> & ->). split; [done|]. eexists (_ :: more).
        split_and!; [constructor; [by apply controlled_default|done]|by rewrite <-app_assoc..|set_solver].
      * intros ([_ He] & more & Hm & -> & -> & ->). split; [done|].
        apply Forall2_cons_inv_l in Hm as (w & more' & [Hc Hne] & Hm & ->). exists more'. rewrite Hc. cbn.
        rewrite <-!app_assoc. split_and!; [done..|set_solver].
Qed.

Lemma sorted_owners ids owners : Forall2 controlled ids owners -> llen (sort_Strings owners) = llen ids.
Proof.
  intros Hc. unfold llen, sort_Strings. rewrite (Permutation_length (sort_by_Permutation id owners)).
  by rewrite (Forall2_length _ _ _ Hc).
Qed.

(** The device's key is found among the sorted issuers. *)
Lemma device_found ids :
  NoDup ids ->
  let issuers := sort_Strings (hex_EncodeToString <$> ids) in
  issuers !! SearchStrings issuers (hex_EncodeToString device) = Some (hex_EncodeToString device) <-> device ∈ ids.
Proof.
  intros Hnd issuers. apply (NoDup_fmap_2 hex_EncodeToString), adjacent_sort in Hnd.
  apply adjacent_equal_false in Hnd; [|apply sort_Strings_sorted].
  transitivity (hex_EncodeToString device ∈ issuers).
  - split; [apply list_elem_of_lookup_2|by apply SearchStrings_found].
  - subst issuers. unfold sort_Strings. rewrite (sort_by_Permutation id), list_elem_of_fmap. split; [|by exists device].
    intros (d & Hd & Hin). apply hex_inj in Hd. by subst.
Qed.

Lemma roles_covered ids required :
  forallb (fun role => bool_decide (role ∈ (list_to_set (role_of device <$> ids) : gset string))) required = true <->
  forall role, role ∈ required -> exists id, id ∈ ids /\ role_of device id = role.
Proof.
  rewrite forallb_forall. split.
  - intros H role Hin. apply list_elem_of_In, H in Hin. bprop. set_solver.
  - intros H role Hin. apply bool_decide_eq_true_2. apply list_elem_of_In, H in Hin as (id & Hid & <-). set_solver.
Qed.

(** C27: The signatures under an owner command are accepted exactly when they
    come from different keys, one of them that of the authenticated device, each
    listed in the policy for the role it plays, each bound by the policy to a
    controlling principal, no two to the same one; when together they cover the
    roles the command requires; and when they are as many as it requires, at
    least two where it requires an independent approver. *)
Theorem cap_role_coverage predicate ids :
  validateOwnerCommandRoleCoverage predicate device ids subjects controllers = Ok tt <->
  NoDup ids /\ device ∈ ids /\ Forall entitled ids /\
  (exists owners, Forall2 controlled ids owners /\ NoDup owners) /\
  (forall role, role ∈ pd_RequiredAuthorityKinds predicate -> exists id, id ∈ ids /\ role_of device id = role) /\
  pd_MinimumDistinctPrincipals predicate <= llen ids /\
  (pd_RequireIndependentApprover predicate = true -> 2 <= llen ids).
Proof.
  unfold validateOwnerCommandRoleCoverage. split.
  - intros H. destruct (cover_roles _ _ _ _ _ _ _) as [[[i o] r]|m] eqn:E; [|done].
    apply cover_roles_ok in E as (He & owners & Hc & -> & -> & ->). cbn [app] in H.
    destruct (adjacent_equal (sort_Strings (_ <$> ids))) eqn:Ei; [done|]. apply adjacent_sort, NoDup_fmap_1 in Ei.
    destruct (adjacent_equal _) eqn:Eo; [done|]. apply adjacent_sort in Eo.
    destruct (bool_decide _) eqn:Ed; [|done]. bprop. apply device_found in Ed; [|done].
    rewrite (union_empty_l_L _) in H. destruct (forallb _ _) eqn:Er; [|done]. cbn [negb] in H.
    rewrite sorted_owners with (ids := ids) in H by done. destruct (_ || _) eqn:Eq; [done|]. bprop.
    split_and!; try done; [by exists owners|by apply roles_covered|]. intros Ha.
    match goal with H : _ \/ _ |- _ => destruct H as [Hq|Hq]; [congruence|by apply N.ltb_ge] end.
  - intros (Hnd & Hdev & He & (owners & Hc & Hno) & Hroles & Hmin & Happ).
    rewrite (proj2 (cover_roles_ok ids [] [] ∅ _ _ _)
      (conj He (ex_intro _ owners (conj Hc (conj eq_refl (conj eq_refl eq_refl)))))). cbn [app].
    rewrite (proj2 (adjacent_sort _)) by by apply (NoDup_fmap_2 _). rewrite (proj2 (adjacent_sort _)) by done.
    rewrite bool_decide_eq_true_2 by by apply device_found. rewrite union_empty_l_L. cbn [negb].
    rewrite (proj2 (roles_covered ids _)) by done. cbn [negb]. rewrite sorted_owners with (ids := ids) by done.
    rewrite (proj2 (N.ltb_ge _ _)) by done. destruct (pd_RequireIndependentApprover predicate); [|done].
    by rewrite (proj2 (N.ltb_ge _ _)) by auto.
Qed.

End signers.

(** ** The device session of a channel *)

Section channel.
Context {TC : TrustedCapability} {SHA : Sha256} {SJ : StateJSON} {MA : MonotonicAuthority} {OC : OwnerControl}.

Definition selection (selected : option string) (lives : list (string * DeviceSessionRecord)) : result (option string) :=
  match lives with
  | [] => Ok selected
  | [(encoded, _)] =>
      match hex_DecodeString encoded, selected with
      | Some digest, None =>
          if slen digest =? 32 then Ok (Some digest)
          else Err "authenticated owner channel does not select exactly one device session"
      | _, _ => Err "authenticated owner channel does not select exactly one device session"
      end
  | _ => Err "authenticated owner channel does not select exactly one device session"
  end.

Lemma select_session_spec live sessions selected :
  select_session live sessions selected = selection selected (List.filter (fun kv => live kv.2) sessions).
Proof.
  revert selected. induction sessions as [|[k r] rest IH]; intros selected; cbn; [done|].
  destruct (live r); cbn; [|by rewrite IH].
  destruct (hex_DecodeString k) as [d|] eqn:Ed; cycle 1.
  { unfold selection. destruct (List.filter _ _); [by rewrite ?Ed|done]. }
  unfold no_digest. destruct (slen d =? 32) eqn:El; cbn.
  - destruct selected; cbn.
    + unfold selection. destruct (List.filter _ _); [by rewrite ?Ed|done].
    + rewrite IH. unfold selection at 1. destruct (List.filter _ _) as [|[k' r'] l] eqn:Ef; cbn; [by rewrite ?Ed, ?El|].
      destruct l; [by destruct (hex_DecodeString k')|done].
  - unfold selection. destruct (List.filter _ _); [by rewrite ?Ed, ?El; destruct selected|done].
Qed.

Lemma filter_singleton {A} (p : A -> bool) l x : NoDup l ->
  List.filter p l = [x] <-> x ∈ l /\ p x = true /\ forall y, y ∈ l -> p y = true -> y = x.
Proof.
  intros Hnd. assert (forall y, y ∈ List.filter p l <-> y ∈ l /\ p y = true) as Hin
    by (intros y; rewrite !list_elem_of_In; apply filter_In).
  split.
  - intros H. rewrite H in Hin. split_and!; [apply Hin; set_solver..|]. intros y Hy Hp.
    assert (y ∈ [x]) by (by apply Hin). set_solver.
  - intros (Hx & Hp & Hu). apply Permutation_singleton_r, NoDup_Permutation.
    + apply NoDup_ListNoDup, List.NoDup_filter. by apply NoDup_ListNoDup.
    + apply NoDup_singleton.
    + intros y. rewrite Hin, list_elem_of_singleton. split; [intros [??]; auto|by intros ->].
Qed.

(** An authenticated channel selects a device session exactly when one
    and only one live session is bound to it: not revoked, within its validity,
    with the channel's audience and binding. The order in which the sessions are
    visited, which the language leaves open, does not matter. *)
Theorem cap_channel_session order audience channelBindingDigest now st digest :
  order ≡ₚ map_to_list (ds_DeviceSessions st) ->
  DeviceSessionForAuthenticatedChannel order audience channelBindingDigest now st = Ok digest <->
  ds_Initialized st = true /\ audience <> ""%string /\ slen channelBindingDigest = 32 /\
  exists key record, ds_DeviceSessions st !! key = Some record /\
    live_session audience channelBindingDigest now record = true /\
    hex_DecodeString key = Some digest /\ slen digest = 32 /\
    forall key' record', ds_DeviceSessions st !! key' = Some record' ->
      live_session audience channelBindingDigest now record' = true -> key' = key.
Proof.
  intros Hperm. set (live := live_session audience channelBindingDigest now).
  assert (NoDup order) as Hnd by (rewrite Hperm; apply NoDup_map_to_list).
  assert (forall key record, (key, record) ∈ order <-> ds_DeviceSessions st !! key = Some record) as Hin
    by (intros; rewrite Hperm; apply elem_of_map_to_list).
  unfold DeviceSessionForAuthenticatedChannel. fold live. rewrite select_session_spec. split.
  - intros H. destruct (_ || no_digest _) eqn:Eg; [done|]. unfold no_digest in Eg. cprop. split_and!; [done..|].
    destruct (List.filter _ order) as [|[key record] [|]] eqn:Ef; [done| |done]. cbn in H.
    destruct (hex_DecodeString key) as [d|] eqn:Ed; [|done]. destruct (slen d =? 32) eqn:El; [|done].
    injection H as ->. bprop. apply filter_singleton in Ef as (Hx & Hp & Hu); [|done]. cbn in Hp.
    exists key, record. split_and!; [by apply Hin|done..|]. intros key' record' Hk' Hl'.
    specialize (Hu (key', record') (proj2 (Hin _ _) Hk') Hl'). congruence.
  - intros (Hi & Ha & Hc & key & record & Hk & Hl & Hd & Hlen & Hu).
    rewrite Hi. unfold no_digest, same. rewrite bool_decide_eq_false_2, Hc by done. cbn [negb orb].
    assert (List.filter (fun kv => live kv.2) order = [(key, record)]) as ->.
    { apply filter_singleton; [done|]. split_and!; [by apply Hin|done|]. intros [key' record'] Hin' Hl'.
      apply Hin in Hin'. pose proof (Hu _ _ Hin' Hl'). congruence. }
    cbn. by rewrite Hd, Hlen.
Qed.

End channel.

(** ** The publisher's revocation sources *)

Section publisher.
Context {TC : TrustedCapability} {SHA : Sha256} {SJ : StateJSON} {MA : MonotonicAuthority} {ML : MonotonicLaws}.

(** A source's checkpoint does not go back and does not fork. *)
Record head_le (a b : PublisherSourceHead) : Prop := {
  hl_source : ph_SourceGeneration a <= ph_SourceGeneration b;
  hl_observed : ph_ObservedGeneration a <= ph_ObservedGeneration b;
  hl_checkpoint : ph_SourceGeneration a = ph_SourceGeneration b -> ph_CheckpointRoot b = ph_CheckpointRoot a
}.

#[global] Instance head_le_preorder : PreOrder head_le.
Proof.
  split; [done|]. intros a b c [H1 H2 H3] [H4 H5 H6]. split; [lia|lia|]. intros E. rewrite H6, H3 by lia. done.
Qed.

(** An observation of the source says that nothing is revoked. *)
Definition vouches (now : N) (artifact : ArtifactBody) (publisher : PublisherBody) (artifactDigest envelopeDigest : string)
    (source : string) (supplied : PublisherObservation) : Prop :=
  exists observation,
    DecodeObservation (pu_Object supplied) = Ok observation /\ hex_EncodeToString (ro_SourceID observation) = source /\
    ValidatePublisherRevocationObservation observation (ar_PublisherSubject artifact) artifactDigest envelopeDigest now = Ok tt /\
    VerifyAuthorization (pu_Envelope supplied) (pu_Object supplied) now 0 = Ok tt /\
    su_Identifier (eb_IssuerSubject (en_Body (pu_Envelope supplied))) = ro_SourceID observation /\
    ro_Revoked observation = false /\ ro_ObservedGeneration observation <= pb_RevocationGeneration publisher.

Lemma check_observation_ok now artifact publisher artifactDigest envelopeDigest required seen heads supplied source head :
  check_observation now artifact publisher artifactDigest envelopeDigest required seen heads supplied = Ok (source, head) ->
  vouches now artifact publisher artifactDigest envelopeDigest source supplied /\ source ∈ required /\
  (forall prior, heads !! source = Some prior -> head_le prior head).
Proof.
  unfold check_observation. intros H. destruct (DecodeObservation _) as [o|] eqn:Eo; [|done].
  destruct (ValidatePublisherRevocationObservation _ _ _ _ _) as [[]|] eqn:Ev; [|done].
  destruct (_ || _) eqn:Ea; [done|]. cprop. destruct (negb (bool_decide _)) eqn:Er; [done|].
  destruct (bool_decide (_ ∈ seen)); [done|]. destruct (head_rejects _ _ _) as [[]|] eqn:Eh; [|done].
  destruct (_ || _) eqn:Eg; [done|]. cprop. injection H as <- <-.
  split_and!; [exists o; by split_and!|done|]. intros prior Hp. unfold head_rejects in Eh. rewrite Hp in Eh.
  destruct (_ || _) eqn:Eroll; [done|]. destruct (_ && _) eqn:Efork; [done|]. cprop.
  split; cbn; [done|done|]. intros Hs. destruct Efork as [Hf|Hf]; cprop; congruence.
Qed.

Lemma observe_sources_ok now artifact publisher artifactDigest envelopeDigest required seen heads observations heads' seen' :
  observe_sources now artifact publisher artifactDigest envelopeDigest required seen heads observations = (heads', Ok seen') ->
  seen ⊆ required -> seen' ⊆ required /\ map_le head_le heads heads' /\
  forall source, source ∈ seen' -> source ∈ seen \/
    exists supplied, supplied ∈ observations /\ vouches now artifact publisher artifactDigest envelopeDigest source supplied.
Proof.
  revert seen heads. induction observations as [|supplied rest IH]; intros seen heads; cbn.
  - intros [= <- <-] Hs. split_and!; [done|reflexivity|auto].
  - destruct (check_observation _ _ _ _ _ _ _ _ _) as [[source head]|] eqn:Ec; [|done]. intros H Hs.
    apply check_observation_ok in Ec as (Hv & Hr & Hh). apply IH in H as (H1 & H2 & H3); [|set_solver].
    split_and!; [done|etrans; [apply map_le_insert; [apply _|exact Hh]|exact H2]|].
    intros source' Hin. apply H3 in Hin as [Hin|(s' & Hin & Hv')]; [|right; exists s'; split; [set_solver|done]].
    apply elem_of_union in Hin as [->%elem_of_singleton|Hin]; [|by left]. right. exists supplied. split; [set_solver|done].
Qed.

Lemma required_sources_ok sources required :
  required_sources sources = Ok required -> required = list_to_set (hex_EncodeToString <$> sources).
Proof.
  unfold required_sources. assert (forall l (acc : result (gset string)) (req : gset string),
    foldl (fun acc source => let? set := acc in
      if no_digest source then Err "policy-bound publisher revocation source identity is invalid"
      else Ok ({[hex_EncodeToString source]} ∪ set)) acc l = Ok req ->
    exists start, acc = Ok start /\ req = start ∪ list_to_set (hex_EncodeToString <$> l)) as H.
  { induction l as [|x l IH]; intros acc req; cbn.
    - intros ->. exists req. split; [done|set_solver].
    - intros (start & Hs & ->)%IH. destruct acc as [set|]; [|done]. destruct (no_digest x); [done|].
      injection Hs as <-. exists set. split; [done|set_solver]. }
  intros (start & [= <-] & ->)%H. set_solver.
Qed.

(** The publisher's own authority over the stored artifact. *)
Definition now_valid (now : N) (artifact : ArtifactBody) (publisher : PublisherBody) (entry : Entry) : Prop :=
  exists artifactObject publisherObject publisherEnvelope,
    e_ArtifactObject entry = Some artifactObject /\ e_PublisherObject entry = Some publisherObject /\
    e_PublisherEnvelope entry = Some publisherEnvelope /\ DecodeArtifact artifactObject = Ok artifact /\
    DecodePublisher publisherObject = Ok publisher /\ ValidatePublisherEnvelope publisher artifact now = Ok tt /\
    VerifyAuthorization publisherEnvelope publisherObject now 0 = Ok tt /\
    ObjectDigest artifactObject = Ok (e_ArtifactDigest entry).

Lemma publisher_context_ok e entry now artifact publisher artifactDigest envelopeDigest observations required :
  publisher_context e entry now = Ok (artifact, publisher, artifactDigest, envelopeDigest, observations, required) ->
  exists sources, ev_sources e = Ok sources /\ sources <> [] /\ ev_observations e = Ok observations /\
    required_sources sources = Ok required /\ now_valid now artifact publisher entry.
Proof.
  unfold publisher_context. intros H. op_cases H. cprop. subst.
  eexists. split_and!; [done|done|done|done|]. do 3 eexists. by split_and!.
Qed.

(** A publisher is revalidated only under full coverage: every source of
    revocations the owner's policy names has supplied an observation, valid now
    and signed by that source, which does not revoke the publisher or the
    artifact and knows of no later generation; and what the entry remembers of
    each source moves only forward, so that a source that rolls back, or shows
    two checkpoints for one generation, is refused. *)
Theorem cap_publisher_coverage e entry now entry' :
  (revalidatePublisherLocked e entry now).2 = Ok entry' ->
  exists artifact publisher artifactDigest envelopeDigest sources observations,
    ev_sources e = Ok sources /\ sources <> [] /\ ev_observations e = Ok observations /\
    (forall source, source ∈ sources -> exists supplied, supplied ∈ observations /\
       vouches now artifact publisher artifactDigest envelopeDigest (hex_EncodeToString source) supplied) /\
    e_PublisherRevocationGeneration entry' = pb_RevocationGeneration publisher /\ now_valid now artifact publisher entry /\
    map_le head_le (e_PublisherSourceHeads entry) (e_PublisherSourceHeads entry').
Proof.
  unfold revalidatePublisherLocked.
  destruct (publisher_context e entry now) as [[[[[[artifact publisher] artifactDigest] envelopeDigest] observations] required]|] eqn:Ec; [|done].
  destruct (observe_sources _ _ _ _ _ _ _ _ _) as [heads [seen|]] eqn:Eo; [|done]. cbn.
  destruct (negb _) eqn:En; [done|]. intros [= <-]. bprop.
  apply observe_sources_ok in Eo as (Hsub & Hle & Hv); [|set_solver].
  destruct (publisher_context_ok _ _ _ _ _ _ _ _ _ Ec) as (sources & Hs & Hne & Hob & Hreq & Hval).
  apply required_sources_ok in Hreq. exists artifact, publisher, artifactDigest, envelopeDigest, sources, observations.
  split_and!; try done. intros source Hin.
  assert (seen = required) as -> by (apply leibniz_equiv, set_subseteq_size_equiv; [done|lia]).
  destruct (Hv (hex_EncodeToString source)) as [Hn|?]; [subst required; set_solver|set_solver|done].
Qed.

End publisher.

(** ** The separation of duties of a promotion *)

Section promotion.
Context {TC : TrustedCapability} {SHA : Sha256} {SJ : StateJSON} {MA : MonotonicAuthority} {ML : MonotonicLaws}.

(** A key the policy lists for a role and binds to a principal, which has
    signed [object] under the current epoch. *)
Definition signed_by (st : DurableState) (role : string) (identifier principal : string) (object : ProfileObjectV1) (now : N)
    : Prop :=
  identifier ∈ default [] (ds_AuthorizedSubjects st !! role) /\
  ds_AuthorityControllers st !! hex_EncodeToString identifier = Some principal /\ principal <> ""%string /\
  exists envelope, su_Identifier (eb_IssuerSubject (en_Body envelope)) = identifier /\
    eb_AuthorityKind (en_Body envelope) = role /\ eb_PolicyDigest (en_Body envelope) = ds_PolicyDigest st /\
    VerifyAuthorization envelope object now (ds_AuthorityEpoch st) = Ok tt.

(** Three principals: the author of the candidate, its evaluator, its approver. *)
Definition separately_promoted (st : DurableState) (request : PromotionRequest) (now : N) : Prop :=
  exists body generator verifier approver,
    DecodePromotion (pq_Object request) = Ok body /\
    pr_CandidateArtifactVersionDigest body = pq_ArtifactDigest request /\
    signed_by st "capability-generator" (pr_GeneratorIdentityDigest body) generator (pq_Object request) now /\
    signed_by st "evaluation-verifier" (su_Identifier (pr_IndependentVerifierSubject body)) verifier
      (pq_EvaluationObject request) now /\
    signed_by st "promotion-authority" (su_Identifier (pr_ApproverSubject body)) approver (pq_Object request) now /\
    generator <> verifier /\ generator <> approver /\ verifier <> approver.

Lemma subjectAllowed_true subjects kind identifier :
  subjectAllowed subjects kind identifier = true -> identifier ∈ default [] (subjects !! kind).
Proof. unfold subjectAllowed. intros. by bprop. Qed.

Lemma verifyPolicy_ok st envelope kind agent :
  verifyPolicyAuthorizationLocked st envelope kind agent = Ok tt ->
  eb_AuthorityKind (en_Body envelope) = kind /\ eb_PolicyDigest (en_Body envelope) = ds_PolicyDigest st /\
  su_Identifier (eb_IssuerSubject (en_Body envelope)) ∈ default [] (ds_AuthorizedSubjects st !! kind).
Proof.
  unfold verifyPolicyAuthorizationLocked. destruct (_ || _) eqn:E; [done|]. intros _. cprop.
  split_and!; [done|done|by apply subjectAllowed_true].
Qed.

Lemma controller_some st identifier :
  controller st identifier <> ""%string ->
  ds_AuthorityControllers st !! hex_EncodeToString identifier = Some (controller st identifier).
Proof. unfold controller. by destruct (ds_AuthorityControllers st !! _). Qed.

Lemma separated_true a b c : separated a b c = true ->
  a <> ""%string /\ b <> ""%string /\ c <> ""%string /\ a <> b /\ a <> c /\ b <> c.
Proof. unfold separated. intros. by cprop. Qed.

Lemma generator_ok st envelope object body now :
  is_err (verifyPromotionGeneratorLocked st envelope object body now) = false ->
  VerifyAuthorization envelope object now (ds_AuthorityEpoch st) = Ok tt /\
  eb_AuthorityKind (en_Body envelope) = "capability-generator"%string /\
  eb_PolicyDigest (en_Body envelope) = ds_PolicyDigest st /\
  su_Identifier (eb_IssuerSubject (en_Body envelope)) = pr_GeneratorIdentityDigest body.
Proof.
  intros H. cprop. unfold verifyPromotionGeneratorLocked in H. op_cases H. cprop.
  match goal with H : verifyPolicyAuthorizationLocked _ _ _ _ = _ |- _ => apply verifyPolicy_ok in H as (?&?&?) end.
  by split_and!.
Qed.

Lemma verifier_ok st request body entry now evaluation :
  verifier_evidence st request body entry now = Ok evaluation ->
  exists envelope, VerifyAuthorization envelope (pq_EvaluationObject request) now (ds_AuthorityEpoch st) = Ok tt /\
    eb_AuthorityKind (en_Body envelope) = "evaluation-verifier"%string /\
    eb_PolicyDigest (en_Body envelope) = ds_PolicyDigest st /\
    su_Identifier (eb_IssuerSubject (en_Body envelope)) = su_Identifier (pr_IndependentVerifierSubject body).
Proof.
  unfold verifier_evidence. intros H. destruct (ReferenceMatchesObject _ (pq_EvaluationObject _)); [|done].
  destruct (ReferenceMatchesObject _ _); [|done]. destruct (DecodeEvaluation _); [|done].
  destruct (DecodeEnvelope _) as [envelope|]; [|done]. destruct (VerifyAuthorization _ _ _ _) as [[]|] eqn:Ev; [|done].
  destruct (_ || _) eqn:E; [done|]. bprop.
  match goal with H : sameAuthoritySubject _ _ = true |- _ => apply bool_decide_eq_true in H; rename H into Hs end.
  cprop. exists envelope. split_and!; [done|done|congruence|by rewrite Hs].
Qed.

Lemma Promote_separates e request st x :
  wp (Promote e request) (fun _ st' y => st' = y /\ (exists now, separately_promoted st request now) /\
    exists entry, ds_Entries y !! hex_EncodeToString (pq_ArtifactDigest request) = Some entry /\
      e_PromotionEnvelope entry = Some (pq_Envelope request) /\ e_PromotionObject entry = Some (pq_Object request)) st x.
Proof.
  unfold Promote. wp_steps. apply wp_revalidate. intros entries entry' Hk Hr. wp_steps.
  apply wp_acceptHead. intros heads. wp_steps. apply wp_modify; [|done|].
  { apply le_update_entry. cbn. by eapply Hk, occupied_some. }
  wp_steps. split; [done|]. split; [|cbn; rewrite lookup_insert_eq; by eexists].
  repeat match goal with H : verifyPolicyAuthorizationLocked _ _ _ _ = Ok ?u |- _ => destruct u; apply verifyPolicy_ok in H as (?&?&?) end.
  repeat match goal with H : is_err (verifyPromotionGeneratorLocked _ _ _ _ _) = false |- _ => apply generator_ok in H as (?&?&?&?) end.
  repeat match goal with H : verifier_evidence _ _ _ _ _ = Ok _ |- _ => apply verifier_ok in H as (?&?&?&?&?) end.
  repeat match goal with H : negb (promotion_scope _ _ _ _) = false |- _ => apply negb_false_iff in H; unfold promotion_scope in H end.
  cprop.
  repeat match goal with H : sameAuthoritySubject _ _ = true |- _ => apply bool_decide_eq_true in H end.
  repeat match goal with H : subjectAllowed _ _ _ = true |- _ => apply subjectAllowed_true in H end.
  repeat match goal with H : separated _ _ _ = true |- _ => apply separated_true in H as (?&?&?&?&?&?) end.
  match goal with H : DecodePromotion _ = Ok ?b |- _ =>
    exists now, b, (controller st (pr_GeneratorIdentityDigest b)),
      (controller st (su_Identifier (pr_IndependentVerifierSubject b))), (controller st (su_Identifier (pr_ApproverSubject b))) end.
  split_and!; [done|done| | | |done|done|done].
  - split_and!; [done|by apply controller_some|done|]. eexists. by split_and!.
  - split_and!; [done|by apply controller_some|done|]. eexists. by split_and!.
  - match goal with H : pr_ApproverSubject _ = _ |- _ => rename H into Ha end.
    split_and!; [by rewrite Ha|by apply controller_some|done|]. rewrite Ha. eexists. by split_and!.
Qed.

(** C23: No one promotes alone. When a promotion is accepted, the author of the
    candidate, the evaluator and the approver are keys the owner's policy lists
    for these three roles and binds to three different principals, and each has
    signed: the author and the approver the promotion, the evaluator the
    evaluation; the promotion is then on disk. *)
Theorem cap_promotion_separated e request s x s' :
  store_ok s x -> Promote e request s = (s', Ok tt) ->
  (exists now, separately_promoted (cs_state s) request now) /\
  exists entry, dk_file (cs_disk s') = FileDoc (cs_state s') /\
    ds_Entries (cs_state s') !! hex_EncodeToString (pq_ArtifactDigest request) = Some entry /\
    e_PromotionEnvelope entry = Some (pq_Envelope request).
Proof.
  intros Hs E. destruct (Promote_separates e request (cs_state s) x s Hs eq_refl) as (y & Hy & _ & HQ).
  rewrite E in Hy, HQ. cbn in *. destruct (HQ tt eq_refl) as (Hst & Hp & entry & Hk & He & _).
  split; [done|]. exists entry. rewrite Hst. split_and!; [apply disk_ok_file, Hy|done|done].
Qed.

(** *** The promotion an entry comes with *)

Definition promotion_of (entry : Entry) : option ProfileObjectV1 * option Envelope * N * N :=
  (e_PromotionObject entry, e_PromotionEnvelope entry, e_PromotionRevision entry, e_PromotionRevocationGeneration entry).

(** The entry stored under a digest, and its promotion. *)
Definition carries (st : DurableState) (digest : string) (p : option ProfileObjectV1 * option Envelope * N * N) : Prop :=
  exists entry, ds_Entries st !! hex_EncodeToString digest = Some entry /\ promotion_of entry = p.

Lemma revalidated_promotion e entry now entry' :
  (revalidatePublisherLocked e entry now).2 = Ok entry' -> promotion_of entry' = promotion_of entry.
Proof.
  unfold revalidatePublisherLocked.
  destruct (publisher_context e entry now) as [[[[[[artifact publisher] artifactDigest] envelopeDigest] observations] required]|]; [|done].
  destruct (observe_sources _ _ _ _ _ _ _ _ _) as [heads [seen|]]; [|done]. cbn. by destruct (negb _); [|intros [= <-]].
Qed.

Lemma RegisterQuarantined_carries e entry receipt validated now st x :
  wp (RegisterQuarantined e entry receipt validated now)
    (fun _ st' _ => carries st' (qr_ContentDigest receipt) (promotion_of entry)) st x.
Proof.
  unfold RegisterQuarantined, registerQuarantined.
  cbn [e_ObservedContentDigest e_ArtifactDigest set_e_ArtifactDigest set_e_ObservedContentDigest].
  destruct (same (qr_ContentDigest receipt) "") eqn:Es; wp_steps.
  - match goal with H : no_digest "" || _ = false |- _ => by cbn in H end.
  - apply wp_modify; [|done|].
    + etrans; [|apply le_inventory]. apply (le_put_entry st). right. bprop. by destruct (ds_Tombstones st !! _).
    + wp_steps. eexists. split; [apply lookup_insert_eq|done].
Qed.

Lemma VerifyCandidate_carries e request st x p :
  carries st (vq_QuarantineDigest request) p ->
  wp (VerifyCandidate e request)
    (fun _ st' _ => exists digest, ObjectDigest (vq_ArtifactObject request) = Ok digest /\ carries st' digest p) st x.
Proof.
  intros (entry & Hk & Hp). unfold VerifyCandidate. wp_steps. apply wp_modify; [|done|].
  { etrans; [|apply le_inventory]. apply le_entries. cbn in *.
    match goal with H : negb (is_none (ds_Tombstones st !! _)) = false |- _ => rename H into Ht end.
    intros k Hk'. apply (occupied_insert _ _ _ (fun k => ds_Tombstones st !! k = None)) in Hk';
      [|right; bprop; by destruct (ds_Tombstones st !! _)].
    destruct Hk' as [Hk'|Hk']; [left|by right]. unfold occupied in *. intros Hn. apply Hk'. rewrite lookup_delete_None. auto. }
  wp_steps. eexists. split; [done|]. eexists. split; [apply lookup_insert_eq|].
  match goal with H : (revalidatePublisherLocked _ _ _).2 = Ok _ |- _ => rewrite (revalidated_promotion _ _ _ _ H) end.
  rewrite Hk in *. by simplify_eq.
Qed.

Lemma Admit_carries e request st x p :
  carries st (aq_ArtifactDigest request) p ->
  wp (Admit e request)
    (fun _ st' _ => exists entry, ds_Entries st' !! hex_EncodeToString (aq_ArtifactDigest request) = Some entry /\
       promotion_of entry = p /\ e_State entry = StateAdmitted) st x.
Proof.
  intros (entry & Hk & Hp). unfold Admit. wp_steps. apply wp_revalidate. intros entries entry' Hocc Hr. wp_steps.
  apply wp_acceptHead. intros heads. wp_steps. apply wp_modify; [|done|].
  { apply le_update_entry. cbn. by eapply Hocc, occupied_some. }
  wp_steps. eexists. split; [apply lookup_insert_eq|]. split; [|done].
  rewrite Hk in *. simplify_eq. exact (revalidated_promotion _ _ _ _ Hr).
Qed.

(** C36: Activation does not depend on [Promote]. The promotion that comes with the
    entry given to [RegisterQuarantined] is kept as it is through verification
    and admission, whoever signed it and whatever the environment, so that once
    the artifact is installed the owner's activation finds the promotion it
    requires. *)
Theorem cap_promotion_kept e1 e2 e3 entry receipt validated now verification admission artifactDigest s x s1 s2 s3 :
  store_ok s x ->
  RegisterQuarantined e1 entry receipt validated now s = (s1, Ok tt) ->
  VerifyCandidate e2 verification s1 = (s2, Ok tt) -> vq_QuarantineDigest verification = qr_ContentDigest receipt ->
  ObjectDigest (vq_ArtifactObject verification) = Ok artifactDigest ->
  Admit e3 admission s2 = (s3, Ok tt) -> aq_ArtifactDigest admission = artifactDigest ->
  exists admitted, ds_Entries (cs_state s3) !! hex_EncodeToString artifactDigest = Some admitted /\
    e_State admitted = StateAdmitted /\ promotion_of admitted = promotion_of entry /\
    (is_Some (e_PromotionEnvelope entry) -> forall path, path <> "" ->
       capability_change Activate (set_e_InstalledPath path admitted) = Ok StateActive).
Proof.
  intros Hs Hreg Hver Eq Ed Hadm Ea.
  destruct (RegisterQuarantined_carries e1 entry receipt validated now (cs_state s) x s Hs eq_refl) as (x1 & Hs1 & _ & H1).
  rewrite Hreg in Hs1, H1. specialize (H1 tt eq_refl). cbn in Hs1, H1. rewrite <- Eq in H1.
  destruct (VerifyCandidate_carries e2 verification (cs_state s1) x1 _ H1 s1 Hs1 eq_refl) as (x2 & Hs2 & _ & H2).
  rewrite Hver in Hs2, H2. destruct (H2 tt eq_refl) as (digest & Ed' & H2'). cbn in Hs2, H2'.
  rewrite Ed in Ed'. injection Ed' as <-. rewrite <- Ea in H2'.
  destruct (Admit_carries e3 admission (cs_state s2) x2 _ H2' s2 Hs2 eq_refl) as (x3 & _ & _ & H3).
  rewrite Hadm in H3. destruct (H3 tt eq_refl) as (admitted & Hk & Hp & Hst). cbn in Hk. rewrite Ea in Hk.
  exists admitted. split_and!; [done|done|done|]. intros [envelope He] path Hpath. unfold capability_change. cbn.
  unfold promotion_of in Hp. injection Hp as _ Henv _ _. rewrite Hst, Henv, He.
  assert (same path "" = false) as -> by (unfold same; by apply bool_decide_eq_false). cbn. by rewrite andb_false_r.
Qed.

End promotion.

End CapPolicy.
