(* ===== verification/CapExample.v ===== *)
(** * Capability control: a run

    Concrete collaborators and one complete run of the capability store: an
    owner takes control, an artifact goes from quarantine to an execution, and
    the owner leaves. It instantiates the hypotheses of the theorems of
    CapStore.v, CapSafety.v and CapPolicy.v. *)

From S2P Require Import Prelude GoLib GoText FileStore Ledger Protocol Fixtures CapTypes CapStore CapOps CapGate CapOwner CapSafety CapPolicy.
#[local] Open Scope N_scope.

Module CapExample.
Import Fixtures CapTypes CapStore CapOps CapGate CapOwner CapSafety CapPolicy.

(** ** The authority: one revision and commitment for each scope *)

#[global] Instance memory_authority : MonotonicAuthority := {|
  authority := gmap string (N * string);
  reply := bool;
  Read := fun works a scope => if works then Ok (default (0, ""%string) (a !! scope)) else Err "unreachable";
  Check := fun works a scope revision commitment =>
    if works then
      match a !! scope with
      | Some held => if decide (held = (revision, commitment)) then (a, Ok tt) else (a, Err "stale")
      | None => if revision =? 0 then (<[scope := (0, commitment)]> a, Ok tt) else (a, Err "stale")
      end
    else (a, Err "unreachable");
  CompareAndAdvance := fun works a scope prior next commitment _ =>
    if works then
      if (default (0, ""%string) (a !! scope)).1 =? prior then (<[scope := (next, commitment)]> a, Ok tt)
      else (a, Err "stale")
    else (a, Err "unreachable")
|}.

#[global] Instance memory_laws : MonotonicLaws.
Proof.
  refine {| held := fun (a : authority) scope => (a : gmap string (N * string)) !! scope |}.
  - intros r a scope revision commitment. cbn. destruct r; [|done]. by intros [= ->].
  - intros r a scope revision commitment a' res. cbn in *. destruct r; [|by intros [= <- <-]; split; [left|]].
    destruct (a !! scope) as [h|] eqn:E.
    + case_decide; intros [= <- <-]; (split; [by left|]); [|done]. by subst.
    + destruct (revision =? 0) eqn:Er; intros [= <- <-]; [|split; [by left|done]]. bprop. subst.
      rewrite lookup_insert_eq. split; [by right|done].
  - intros r a scope prior next commitment accepting a' res. cbn in *. destruct r; [|by intros [= <- <-]; split; [left|]].
    destruct (_ =? prior) eqn:E; intros [= <- <-]; [|split; [by left|done]]. bprop.
    rewrite lookup_insert_eq. split; [by right|done].
Defined.

#[global] Instance memory_reliable : MonotonicReliable.
Proof.
  refine {| reliable := true |}.
  - done.
  - intros a scope revision commitment. cbn. intros [-> |[-> ->]]; [by rewrite decide_True|done].
  - intros a scope prior next commitment accepting. cbn. intros -> _. by rewrite N.eqb_refl.
Defined.

#[global] Instance test_state_json : StateJSON := {| json_state := fun st => FormatUint10 (ds_MonotonicRevision st) |}.

(** ** The objects *)

Definition object (rest : string) : ProfileObjectV1 :=
  {| ob_DomainKind := 1; ob_DomainID := "domain"; ob_ObjectKind := "kind"; ob_rest := rest |}.
(** The digest of an object is given by the length of its text. *)
Definition digest_of (rest : string) : string := hash (slen rest).

Definition key (b : N) : Subject := {| su_Kind := "ed25519"; su_Namespace := "owner"; su_Identifier := hash b |}.
Definition installation : string := bytes 16 9.

(** The subjects of the policy, each with a controller of its own. *)
Definition subjects : gmap string (list string) := list_to_map
  [("owner-bootstrap", [hash 1]); ("capability-admission", [hash 2]); ("capability-installation", [hash 3]);
   ("use-lease", [hash 4]); ("action-outcome", [hash 5]); ("capability-generator", [hash 12]);
   ("evaluation-verifier", [hash 13]); ("promotion-authority", [hash 14]); ("device-session", [hash 15])]%string.
Definition controllers : gmap string string := list_to_map
  ((fun b => (hex_EncodeToString (hash b), FormatUint10 b)) <$> [1; 2; 3; 4; 5; 12; 13; 14; 15]).

Definition ceremony : OwnerBootstrapCeremonyV1 :=
  {| oc_SchemaVersion := 1; oc_DomainKind := 1; oc_DomainID := "domain"; oc_OwnerID := "owner"; oc_CeremonyNonce := hash 20;
     oc_OwnerConfirmationDigest := hash 21; oc_PossessionChallengeDigest := hash 22; oc_Generation := 0;
     oc_State := "owner-confirmed"; oc_NotBeforeUnix := 0; oc_ExpiresAtUnix := 9000;
     oc_GenesisPolicyObjectDigest := digest_of "policy"; oc_AuthoritySubjectSetDigest := sha256_Sum256 "subjects";
     oc_RootSubject := key 1; oc_RecoverySubjects := [key 6] |}.
Definition policy : OwnerPolicyBodyV1 :=
  {| po_OwnerID := "owner"; po_Revision := 1; po_PredecessorPolicyDigest := None; po_AuthorityEpoch := 1;
     po_NotBeforeUnix := 0; po_ExpiresAtUnix := 9000; po_AuthorityProfileSetDigest := sha256_Sum256 "subjects";
     po_PromotionSeparationPolicyDigest := v1PromotionSeparationPolicyDigest; po_CapabilityPolicyDigest := hash 23 |}.
Definition session : OwnerDeviceSessionV1 :=
  {| se_SessionID := bytes 16 24; se_OwnerID := "owner"; se_DevicePublicKey := hash 25;
     se_AllowedCommandClassesDigest := hash 80; se_Audience := "phone"; se_ChannelBindingDigest := hash 26;
     se_SessionGeneration := 1; se_SessionRevocationGeneration := 1; se_AuthorityEpoch := 1; se_PolicyRevision := 1;
     se_PolicyDigest := digest_of "policy"; se_NotBeforeUnix := 0; se_ExpiresAtUnix := 9000;
     se_RevocationObjectReference := "revocation" |}.
Definition artifact : ArtifactBody :=
  {| ar_ContentManifestDigest := digest_of "contents"; ar_EntrypointDescriptorDigest := digest_of "entrypoint";
     ar_PermissionManifestDigest := Some (digest_of "permissions"); ar_DependencyManifestDigest := None;
     ar_PublisherSubject := key 30; ar_ArtifactKind := "skill"; ar_ArtifactNamespace := "ns"; ar_ArtifactName := "name";
     ar_ArtifactVersion := "1" |}.
(** It reads one class of data: it needs a promotion. *)
Definition permission : PermissionManifest :=
  {| pm_ArtifactPreManifestDigest := hash 31; pm_ToolCapabilities := []; pm_ProcessCapabilities := [];
     pm_FilesystemCapabilities := []; pm_NetworkCapabilities := []; pm_CredentialCapabilities := [];
     pm_DataClassesRead := ["mail"%string]; pm_DataClassesWrite := []; pm_DisclosureCapabilities := [];
     pm_UploadCapabilities := []; pm_DestructiveCapabilities := []; pm_DirectCostCeiling := "0" |}.
Definition publisher : PublisherBody := {| pb_ExpiresAtUnix := 9000; pb_RevocationGeneration := 1; pb_rest := "" |}.
Definition observation : RevocationObservation :=
  {| ro_SourceID := hash 32; ro_SourceGeneration := 1; ro_ObservedGeneration := 1; ro_CheckpointRoot := hash 33;
     ro_Revoked := false; ro_rest := "" |}.
Definition artifact_digest : string := digest_of "artifact".
Definition admission : AdmissionBody :=
  {| ab_OwnerID := "owner"; ab_AgentID := "agent"; ab_ArtifactVersionDigest := artifact_digest;
     ab_PermissionManifestDigest := digest_of "permissions"; ab_PolicyRevision := 1; ab_PolicyDigest := digest_of "policy";
     ab_RevocationGeneration := 1; ab_rest := "" |}.
Definition evidence_digests : list string := map hash [40; 41; 42; 43; 44; 45; 46; 47; 48].

Definition promotion : PromotionBody :=
  {| pr_NotBeforeUnix := 0; pr_ExpiresAtUnix := 9000; pr_PromotionID := bytes 16 7; pr_RevocationGeneration := 1;
     pr_OwnerID := "owner"; pr_AgentID := "agent"; pr_CandidateArtifactVersionDigest := artifact_digest;
     pr_CandidatePermissionManifestDigest := digest_of "permissions"; pr_PolicyRevision := 1;
     pr_PolicyDigest := digest_of "policy"; pr_GeneratorIdentityDigest := hash 12; pr_IndependentVerifierSubject := key 13;
     pr_ApproverSubject := key 14; pr_EvaluationManifestDigest := digest_of "evaluation manifest";
     pr_RetainedControlArtifactDigest := hash 41; pr_RetainedControlResultDigest := hash 42;
     pr_PrimaryMetricResultDigest := hash 44; pr_HarmMetricResultDigest := hash 45;
     pr_AllowedRegressionBoundsDigest := hash 46; pr_ApproverPolicyDigest := digest_of "policy";
     pr_EvaluationResultReference := "evaluation"; pr_VerifierAuthorizationEnvelopeReference := "verifier";
     pr_AuthorityRevision := 0; pr_PredecessorEnvelopeDigest := None; pr_SourcingDecisionDigest := digest_of "sourcing";
     pr_CandidateOriginDigest := hash 40; pr_UnseenTaskCommitment := hash 43; pr_RollbackArtifactDigest := hash 47;
     pr_RollbackPlanDigest := hash 48 |}.
Definition evaluation : EvaluationResult :=
  {| er_SchemaVersion := 1; er_CandidateArtifactDigest := artifact_digest;
     er_PermissionManifestDigest := digest_of "permissions"; er_PolicyDigest := digest_of "policy"; er_PolicyRevision := 1;
     er_ExpiresAtUnix := 9000; er_RetainedControlResultDigest := hash 42; er_RuntimeSandboxDigest := hash 34;
     er_CorpusCommitment := hash 35; er_CompleteResultSetDigest := hash 36 |}.

Definition body (kind : string) (issuer : N) (agent : option string) : EnvelopeBody :=
  {| eb_DomainKind := 1; eb_DomainID := "domain"; eb_AuthorityKind := kind; eb_AuthorityID := bytes 16 issuer;
     eb_AuthorityRevision := 0; eb_PredecessorEnvelopeDigest := None; eb_AuthorityEpoch := 1; eb_PolicyRevision := 1;
     eb_PolicyDigest := digest_of "policy"; eb_OwnerID := "owner"; eb_AgentID := agent; eb_IssuerSubject := key issuer |}.
Definition envelope (kind : string) (issuer : N) (agent : option string) : Envelope :=
  {| en_Body := body kind issuer agent; en_rest := kind |}.
Definition agent_envelope (kind : string) (issuer : N) : Envelope := envelope kind issuer (Some "agent"%string).

Definition manifest : EvaluationManifest :=
  {| em_RuntimeSandboxDigest := hash 34; em_CorpusCommitment := hash 35; em_CompleteResultSetDigest := hash 36;
     em_RetainedControlResultDigest := hash 42; em_EvidenceObjectDigests := evidence_digests; em_rest := "" |}.
(** The inventory has moved five times when the installation is signed. *)
Definition transaction : InstallationTransaction :=
  {| tx_SchemaVersion := 1; tx_InstallationID := installation; tx_State := "prepared"; tx_ExpectedInventoryRevision := 6;
     tx_PolicyRevision := 1; tx_ArtifactVersionDigest := artifact_digest;
     tx_AdmissionEnvelopeDigest := digest_of "capability-admission"; tx_QuarantineObjectDigest := hash 50;
     tx_TargetStoreDigest := sha256_Sum256 ("tos.capability-target-store.v1" +:+ sep 0 +:+ installation);
     tx_DependencyClosureDigest := hash 51; tx_InstallPlanDigest := hash 52; tx_RollbackPlanDigest := hash 53;
     tx_WriterFenceDigest := hash 54; tx_StableActionID := hash 60; tx_ExactRequestDigest := hash 61;
     tx_SourceObjectReference := "source" |}.
Definition lease : UseLease :=
  {| le_AgentID := "agent"; le_AdmissionEnvelopeDigest := digest_of "capability-admission";
     le_PermissionSubsetDigest := digest_of "permission subset"; le_rest := "" |}.
Definition binding : UseBinding :=
  {| bi_ExecutionID := bytes 16 1; bi_ActionID := hash 62; bi_UseLeaseDigest := digest_of "use lease";
     bi_ArtifactVersionDigest := artifact_digest; bi_AdmissionEnvelopeDigest := digest_of "capability-admission";
     bi_PromotionEnvelopeDigest := Some (digest_of "promotion-authority");
     bi_PermissionSubsetDigest := digest_of "permission subset"; bi_AdmissionRevision := 2;
     bi_AdmissionRevocationGeneration := 2; bi_PromotionRevision := Some 1; bi_PromotionRevocationGeneration := Some 1;
     bi_AuthorityEpoch := 1; bi_PolicyRevision := 1; bi_PolicyDigest := digest_of "policy"; bi_ControlScopeGeneration := 2;
     bi_InventoryRevision := 8; bi_InstallationRevision := 1; bi_LoadedObjectDigest := artifact_digest;
     bi_RuntimeAndSandboxDigest := hash 63; bi_EffectiveEnvironmentDigest := hash 64;
     bi_CredentialCapabilityReferenceSetDigest := hash 65; bi_FilesystemHandleSetDigest := hash 66;
     bi_NetworkBrokerPolicyDigest := hash 67; bi_RemoteSessionHandshakeDigest := None; bi_rest := "" |}.
Definition exit_plan (stage : string) (revision : N) : OwnerExitPlanV1 :=
  {| xp_ExitID := bytes 16 8; xp_OwnerID := "owner"; xp_PredecessorPolicyDigest := digest_of "policy";
     xp_StageEvidenceRoot := hash 70; xp_AmbiguousActionSetRoot := hash 141;
     xp_CustodyDispositionDigest := hash 72; xp_ExportDigest := hash 73; xp_TombstoneDigest := Some (hash 74);
     xp_Stage := stage; xp_Revision := revision |}.

(** ** The protocol package: every object decodes to the body above, every
    signature is accepted *)
#[global] Instance test_capability : TrustedCapability := {|
  SchemaVersion := 1;
  ObjectDigest := fun o => Ok (digest_of (ob_rest o));
  NewEnvelopeObject := fun _ _ env => Ok (object (en_rest env));
  NewBindingObject := fun _ _ _ => Ok (object "binding");
  VerifyAuthorization := fun _ _ _ _ => Ok tt;
  ValidateLinearSuccessor := fun _ revision _ next =>
    if eb_AuthorityRevision next =? revision + 1 then Ok tt else Err "not a successor";
  ValidateReference := fun _ => Ok tt;
  ReferenceMatchesObject := fun _ _ => Ok tt;
  MarshalSubjects := fun _ => Ok "subjects"%string;
  DecodeCeremony := fun _ => Ok ceremony;
  DecodePolicy := fun _ => Ok policy;
  DecodeSession := fun _ => Ok session;
  DecodeArtifact := fun _ => Ok artifact;
  ValidateExecutableArtifact := fun _ => Ok tt;
  ArtifactPreManifestDigest := fun _ => Ok (hash 31);
  DecodeContentManifest := fun _ => Ok {| cm_ClosureRoot := hash 50; cm_rest := "" |};
  ValidateContentManifest := fun _ => Ok tt;
  DecodeEntrypoint := fun _ => Ok "main"%string;
  ValidateEntrypointDescriptor := fun _ => Ok tt;
  DecodePermission := fun _ => Ok permission;
  ValidatePermissionManifest := fun _ => Ok tt;
  PermissionSubsetOf := fun _ _ => Ok tt;
  DecodeDependencies := fun _ => Ok ""%string;
  ValidateDependencyManifest := fun _ _ => Ok tt;
  DecodePublisher := fun _ => Ok publisher;
  ValidatePublisherEnvelope := fun _ _ _ => Ok tt;
  DecodeObservation := fun _ => Ok observation;
  ValidatePublisherRevocationObservation := fun _ _ _ _ _ => Ok tt;
  DecodeAdmission := fun _ => Ok admission;
  ValidateAdmission := fun _ _ => Ok tt;
  DecodePromotion := fun _ => Ok promotion;
  DecodeEvaluation := fun _ => Ok evaluation;
  DecodeEnvelope := fun _ => Ok (agent_envelope "evaluation-verifier" 13);
  DecodeSourcing := fun _ => Ok {| sd_SourceSnapshots := [(hash 40, "snapshot"%string)]; sd_rest := "" |};
  ValidateSourcingDecision := fun _ _ _ _ _ _ _ => Ok tt;
  DecodeEvaluationManifest := fun _ => Ok manifest;
  ValidateEvaluationManifest := fun _ _ _ _ _ => Ok tt;
  DecodeEvidence := fun o => Ok (ob_rest o);
  ValidateEvaluationEvidence := fun _ _ _ _ _ _ => Ok tt;
  DecodeTransaction := fun _ => Ok transaction;
  MarshalTransaction := fun _ => Ok "transaction"%string;
  DeriveStableActionID := fun _ _ => Ok ("sha256:" +:+ hex_EncodeToString (hash 60));
  CommerceRequestDigest := fun _ => Ok ("sha256:" +:+ hex_EncodeToString (hash 61));
  ValidateUseBindingShape := fun _ _ => Ok tt;
  DecodeLease := fun _ => Ok lease;
  ValidateUseLease := fun _ _ _ _ _ => Ok tt;
  ValidateLeaseBinding := fun _ _ _ => Ok tt;
  DecodeOutcome := fun _ => Err "no outcome";
  ValidateActionOutcomeEvidence := fun _ _ => Ok tt
|}.

Definition no_input : OwnerCommandParametersV1 :=
  {| in_SchemaVersion := 1; in_ArtifactDigest := ""; in_SessionDigest := ""; in_ExpectedGeneration := 0;
     in_NewGeneration := 0; in_OwnerExitPlan := None |}.
Definition artifact_input (expected new : N) : OwnerCommandParametersV1 :=
  {| in_SchemaVersion := 1; in_ArtifactDigest := artifact_digest; in_SessionDigest := ""; in_ExpectedGeneration := expected;
     in_NewGeneration := new; in_OwnerExitPlan := None |}.
Definition exit_input (stage : string) (revision : N) : OwnerCommandParametersV1 :=
  {| in_SchemaVersion := 1; in_ArtifactDigest := ""; in_SessionDigest := ""; in_ExpectedGeneration := 0;
     in_NewGeneration := 0; in_OwnerExitPlan := Some (exit_plan stage revision) |}.

(** The parameters by name. *)
Definition inputs : list (string * OwnerCommandParametersV1) :=
  [("none", no_input); ("activate", artifact_input 1 2); ("revoke", artifact_input 2 3); ("demote", artifact_input 1 2);
   ("again", artifact_input 3 4); ("fence", exit_input "fence-new-work" 1); ("revoke-all", exit_input "revoke-authorities" 2);
   ("resolve", exit_input "resolve-actions" 3); ("custody", exit_input "custody-disposition" 4);
   ("export", exit_input "export-evidence" 5); ("leave", exit_input "tombstone" 6)]%string.

#[global] Instance test_owner_control : OwnerControl := {|
  OwnerCommandClassSetDigest := fun _ => Ok (hash 80);
  DecodeCommandLease := fun _ => Err "no lease";
  PredicateSet := fun _ => Err "no predicate";
  PredicateSetDigest := fun _ => Err "no predicate";
  SemanticConfirmationDigest := fun _ => Err "no confirmation";
  ValidateSemanticConfirmation := fun _ _ _ _ => Ok tt;
  UnmarshalParameters := fun p =>
    match list_find (fun kv => kv.1 = p) inputs with Some (_, (_, input)) => Ok input | None => Err "parameters" end;
  MarshalParameters := fun _ => Err "parameters";
  NewEffectObject := fun _ _ _ => object "effect";
  Ed25519KeyReference := fun k => k;
  OwnerCommandConfirmationProfileV1 := "profile"
|}.

(** ** The calls *)

(** Everything works, at second 1000. *)
Definition works : op_env :=
  {| ev_now := Some 1000000000000%Z; ev_commit := fun _ => commit_good;
     ev_observations := Ok [{| pu_Object := object "observation";
                               pu_Envelope := envelope "publisher-revocation-observation" 32 None |}];
     ev_sources := Ok [hash 32]; ev_manifest := fun _ => Ok (hash 50); ev_clean := id; ev_install := fun _ => Ok tt;
     ev_target := fun k => "objects/" +:+ k; ev_copy := Ok tt; ev_seal := Ok tt; ev_random := Some (hash 90);
     ev_time := Err "no evidence" |}.

Definition bootstrap : BootstrapRequest :=
  {| br_CeremonyObject := object "ceremony"; br_RootCeremonyAuthorization := envelope "owner-bootstrap" 1 None;
     br_RecoveryCeremonyAuthorizations := [envelope "owner-bootstrap-recovery" 6 None]; br_PolicyObject := object "policy";
     br_Envelope := envelope "owner-bootstrap-policy" 1 None; br_AuthorizedSubjects := subjects;
     br_AuthorityControllers := controllers |}.
Definition verification : VerificationRequest :=
  {| vq_QuarantineDigest := hash 50; vq_ArtifactObject := object "artifact"; vq_ContentManifestObject := object "contents";
     vq_EntrypointObject := object "entrypoint"; vq_PermissionObject := Some (object "permissions");
     vq_DependencyObject := None; vq_PublisherObject := object "publisher";
     vq_PublisherAuthorization := envelope "artifact-publisher" 30 None |}.
Definition promote : PromotionRequest :=
  {| pq_ArtifactDigest := artifact_digest; pq_Object := object "promotion";
     pq_Envelope := {| en_Body :=
       {| eb_DomainKind := 1; eb_DomainID := "domain"; eb_AuthorityKind := "promotion-authority"; eb_AuthorityID := bytes 16 7;
          eb_AuthorityRevision := 0; eb_PredecessorEnvelopeDigest := None; eb_AuthorityEpoch := 1; eb_PolicyRevision := 1;
          eb_PolicyDigest := digest_of "policy"; eb_OwnerID := "owner"; eb_AgentID := Some "agent"%string;
          eb_IssuerSubject := key 14 |}; en_rest := "promotion-authority" |};
     pq_GeneratorAuthorization := agent_envelope "capability-generator" 12; pq_EvaluationObject := object "evaluation";
     pq_VerifierEnvelopeObject := object "verifier"; pq_SourcingDecisionObject := object "sourcing";
     pq_EvaluationManifestObject := object "evaluation manifest";
     pq_EvidenceObjects := (fun n => object (bytes n 0)) <$> seq 40 9 |}.
Definition start : StartRequest :=
  {| sq_Binding := binding; sq_LeaseObject := object "use lease"; sq_LeaseEnvelope := agent_envelope "use-lease" 4;
     sq_PermissionSubsetObject := object "permission subset"; sq_Remote := false;
     sq_Observed := {| ou_LoadedObjectDigest := artifact_digest; ou_InstallationRevision := 1;
       ou_RuntimeAndSandboxDigest := hash 63; ou_EffectiveEnvironmentDigest := hash 64;
       ou_CredentialCapabilityReferenceSetDigest := hash 65; ou_FilesystemHandleSetDigest := hash 66;
       ou_NetworkBrokerPolicyDigest := hash 67; ou_RemoteSessionHandshakeDigest := None |} |}.

(** A command signed for the state [st]. *)
Definition effect (st : DurableState) (kind target id : string) (revision : N) : OwnerCommandEffectV1 :=
  {| ef_DomainKind := 1; ef_DomainID := "domain"; ef_OwnerID := "owner"; ef_AgentID := Some "agent"%string;
     ef_PolicyRevision := 1; ef_PolicyDigest := digest_of "policy";
     ef_ControlScopeGeneration := ds_ControlScopeGeneration st; ef_CommandKind := kind; ef_TargetObjectKind := target;
     ef_TargetObjectID := id; ef_ExpectedTargetRevision := revision; ef_SinkAuthorityID := "sink"; ef_SinkClusterEpoch := 1;
     ef_AuthorityPredicateSetDigest := hash 81; ef_SemanticConfirmationDigest := hash 82;
     ef_ExactParameterDigest := hash 83; ef_CreatedAtUnix := 900; ef_ExpiresAtUnix := 9000; ef_rest := "" |}.
Definition attempt (n : N) : Attempt :=
  {| at_ActionID := hash n; at_ExactRequestDigest := hash (n + 100); at_DeviceSessionDigest := hash 84;
     at_SessionGeneration := 1; at_SessionRevocationGeneration := 1; at_AuthorityEpoch := 1; at_AttemptedAtUnix := 950;
     at_ExpiresAtUnix := 9000; at_AuthorizationEnvelopes := [] |}.
Definition exit_command (n : N) (parameters : string) (s : Store) : call :=
  CallCommandApply works (effect (cs_state s) "owner.exit" "owner" "owner" (ds_InventoryRevision (cs_state s))) (attempt n)
    parameters "fence".
Definition capability_command (e : op_env) (n : N) (kind parameters : string) (revision : N) (s : Store) : call :=
  CallCommandApply e (effect (cs_state s) kind "capability" artifact_digest revision) (attempt n) parameters "fence".

(** From an owner's ceremony to an installed, active artifact, and its start. *)
Definition prelude : list (Store -> call) :=
  [fun _ => CallBootstrap works bootstrap;
   fun _ => CallRegister works zero_Entry {| qr_OwnerID := "owner"; qr_AgentID := "agent"; qr_ContentDigest := hash 50 |}
              (Ok "quarantine"%string) 1000000000000%Z;
   fun _ => CallVerify works verification;
   fun _ => CallAdmit works {| aq_ArtifactDigest := artifact_digest; aq_Object := object "admission";
                               aq_Envelope := agent_envelope "capability-admission" 2 |};
   fun _ => CallPromote works promote;
   fun _ => CallInstall works {| iq_Object := object "installation";
                                 iq_Envelope := agent_envelope "capability-installation" 3 |};
   capability_command works 91 "capability.promotion.activate" "activate" 1].
Definition starting : list (Store -> call) := [fun _ => CallPrepareUse works start].
Definition leaving : list (Store -> call) :=
  [exit_command 92 "fence"; exit_command 93 "revoke-all"; exit_command 94 "resolve"; exit_command 95 "custody";
   exit_command 96 "export"; exit_command 97 "leave"].

Fixpoint play (script : list (Store -> call)) (s : Store) : Store * list event :=
  match script with
  | [] => (s, [])
  | c :: rest => let '(s1, ev) := run (c s) s in let '(s2, evs) := play rest s1 in (s2, ev :: evs)
  end.

Definition empty_disk : disk := {| dk_file := FileAbsent; dk_pending := FileAbsent; dk_authority := (∅ : gmap string (N * string)) |}.
Definition dp : deployment := {| dp_DomainKind := 1; dp_DomainID := "domain"; dp_OwnerID := "owner"; dp_AgentID := "agent" |}.
Definition opened : Store :=
  match OpenProductionInDomain dp open_good (Ok installation) empty_disk with
  | (_, Ok s) => s
  | (d, Err _) => {| cs_state := initial_state dp installation; cs_lock := false; cs_disk := d |}
  end.
Definition installed : Store := (play prelude opened).1.
(** Before its promotion; and with a device that has a session. *)
Definition admitted : Store := (play (take 4 prelude) opened).1.
Definition with_device : Store :=
  (play [fun _ => CallIssueDeviceSession works {| dq_Object := object "device session";
                                                  dq_Envelope := envelope "device-session" 15 None |}] installed).1.
Definition running : Store := (play starting installed).1.
Definition gone : Store := (play leaving running).1.

Lemma play_steps script s : steps (Up s) (play script s).2 (Up (play script s).1).
Proof.
  revert s. induction script as [|c rest IH]; intros s; cbn; [constructor|].
  specialize (IH (run (c s) s).1). pose proof (step_call (c s) s) as Hc. destruct (run (c s) s) as [s1 ev]. cbn in *.
  destruct (play rest s1) as [s2 evs]. by econstructor.
Qed.

(** ** Revocation, and a failing call *)

Definition with_generations (admission promotion control inventory : N) : StartRequest :=
  {| sq_Binding :=
       {| bi_ExecutionID := bytes 16 2; bi_ActionID := hash 62; bi_UseLeaseDigest := digest_of "use lease";
          bi_ArtifactVersionDigest := artifact_digest; bi_AdmissionEnvelopeDigest := digest_of "capability-admission";
          bi_PromotionEnvelopeDigest := Some (digest_of "promotion-authority");
          bi_PermissionSubsetDigest := digest_of "permission subset"; bi_AdmissionRevision := admission;
          bi_AdmissionRevocationGeneration := admission; bi_PromotionRevision := Some promotion;
          bi_PromotionRevocationGeneration := Some promotion; bi_AuthorityEpoch := 1; bi_PolicyRevision := 1;
          bi_PolicyDigest := digest_of "policy"; bi_ControlScopeGeneration := control; bi_InventoryRevision := inventory;
          bi_InstallationRevision := 1; bi_LoadedObjectDigest := artifact_digest; bi_RuntimeAndSandboxDigest := hash 63;
          bi_EffectiveEnvironmentDigest := hash 64; bi_CredentialCapabilityReferenceSetDigest := hash 65;
          bi_FilesystemHandleSetDigest := hash 66; bi_NetworkBrokerPolicyDigest := hash 67;
          bi_RemoteSessionHandshakeDigest := None; bi_rest := "" |};
     sq_LeaseObject := sq_LeaseObject start; sq_LeaseEnvelope := sq_LeaseEnvelope start;
     sq_PermissionSubsetObject := sq_PermissionSubsetObject start; sq_Remote := false; sq_Observed := sq_Observed start |}.

(** The owner revokes the artifact. *)
Definition revoking : list (Store -> call) := [capability_command works 98 "capability.revoke" "revoke" 2].
(** Then its promotion, and activates it. *)
Definition reactivating : list (Store -> call) :=
  [capability_command works 99 "capability.promotion.revoke" "demote" 1;
   capability_command works 100 "capability.promotion.activate" "again" 3;
   fun _ => CallPrepareUse works (with_generations 4 2 5 11)].
(** The same bytes are quarantined and verified again. *)
Definition reverifying : list (Store -> call) :=
  [fun _ => CallRegister works zero_Entry {| qr_OwnerID := "owner"; qr_AgentID := "agent"; qr_ContentDigest := hash 50 |}
              (Ok "quarantine"%string) 1000000000000%Z;
   fun _ => CallVerify works verification].

(** The caller quarantines the bytes with a promotion of its own, under a key
    no policy lists; nobody calls [Promote]. *)
Definition own_promotion : Envelope := {| en_Body := body "promotion-authority" 66 (Some "agent"%string); en_rest := "promotion-authority" |}.
Definition own_entry : Entry :=
  set_e_PromotionRevocationGeneration 1 (set_e_PromotionRevision 1 (set_e_PromotionEnvelope (Some own_promotion)
    (set_e_PromotionObject (Some (object "promotion")) zero_Entry))).
Definition own_receipt : QuarantineReceipt :=
  {| qr_OwnerID := "owner"; qr_AgentID := "agent"; qr_ContentDigest := hash 50 |}.
Definition admission_request : AdmissionRequest :=
  {| aq_ArtifactDigest := artifact_digest; aq_Object := object "admission"; aq_Envelope := agent_envelope "capability-admission" 2 |}.
Definition smuggling : list (Store -> call) :=
  [fun _ => CallBootstrap works bootstrap;
   fun _ => CallRegister works own_entry own_receipt (Ok "quarantine"%string) 1000000000000%Z;
   fun _ => CallVerify works verification;
   fun _ => CallAdmit works admission_request;
   fun _ => CallImport works [RootChildren [{| lc_Name := "legacy"; lc_IsDir := true; lc_Path := "legacy"; lc_Hash := HashOf (hash 55) |}]]
              1000000000000%Z;
   fun _ => CallInstall works {| iq_Object := object "installation";
                                 iq_Envelope := agent_envelope "capability-installation" 3 |};
   capability_command works 91 "capability.promotion.activate" "activate" 1;
   fun _ => CallPrepareUse works start].

(** No call of a commit works from the first on. *)
Definition stat_fails : op_env :=
  {| ev_now := ev_now works;
     ev_commit := fun _ => {| ce_stat_fails := true; ce_pending_io := fun _ => false; ce_advance := true;
       ce_state_io := fun _ => false; ce_remove_fails := false; ce_sync_fails := false; ce_reload_fails := false |};
     ev_observations := ev_observations works; ev_sources := ev_sources works; ev_manifest := ev_manifest works;
     ev_clean := id; ev_install := ev_install works; ev_target := ev_target works; ev_copy := Ok tt; ev_seal := Ok tt;
     ev_random := ev_random works; ev_time := ev_time works |}.
(** A command whose commit fails. *)
Definition failing : list (Store -> call) := [capability_command stat_fails 98 "capability.revoke" "revoke" 2].

Definition artifact_state (st : DurableState) : option (State * N) :=
  (fun entry => (e_State entry, e_AdmissionRevocationGeneration entry)) <$> ds_Entries st !! hex_EncodeToString artifact_digest.

(** ** The run meets the theorems *)

Lemma empty_fresh : fresh empty_disk.
Proof. done. Qed.

Lemma open_disk `{SHA : Sha256} `{SJ : StateJSON} `{MA : MonotonicAuthority} dp e resolved (d d' : disk) s :
  OpenProductionInDomain dp e resolved d = (d', Ok s) -> cs_disk s = d'.
Proof.
  unfold OpenProductionInDomain, openInDomainWithInstallation. destruct resolved as [inst|]; [|done].
  destruct (slen inst =? 16); [|done]. destruct (_ || _); [done|]. destruct (op_prepare e); [|done]. intros H.
  destruct (dk_file d) as [| | |state]; [|done|done|].
  - destruct (persistLocked _ _) as [s1 [[]|]]; [|done]. destruct (reconcileMonotonicLocked e s1) as [s2 [[]|]]; [|done]. congruence.
  - destruct (negb (state_identifies dp state)); [done|]. destruct (negb (bool_decide _)); [done|].
    destruct (reconcileMonotonicLocked _ _) as [s2 [[]|]]; [|done]. congruence.
Qed.

Lemma open_succeeds : OpenProductionInDomain dp open_good (Ok installation) empty_disk = (cs_disk opened, Ok opened).
Proof.
  assert (is_ok (OpenProductionInDomain dp open_good (Ok installation) empty_disk).2 = true) as H by (vm_compute; reflexivity).
  unfold opened. destruct (OpenProductionInDomain _ _ _ _) as [d [s|m]] eqn:E; [|done].
  by rewrite (open_disk _ _ _ _ _ _ E).
Qed.

Lemma opens : steps (Down empty_disk) [Silent] (Up opened).
Proof.
  pose proof (step_open dp open_good (Ok installation) empty_disk) as H. rewrite open_succeeds in H.
  econstructor; [exact H|constructor].
Qed.

Lemma steps_app w1 evs1 w2 evs2 w3 : steps w1 evs1 w2 -> steps w2 evs2 w3 -> steps w1 (evs1 ++ evs2) w3.
Proof. induction 1 as [|? ? ? ? ? H H' IH]; [done|]. intros. econstructor; eauto. Qed.

Lemma installs : steps (Down empty_disk) ([Silent] ++ (play prelude opened).2) (Up installed).
Proof. apply (steps_app _ _ _ _ _ opens (play_steps prelude opened)). Qed.

Lemma starts : steps (Up installed) [Started (bytes 16 1) (hash 90)] (Up running).
Proof.
  assert ([Started (bytes 16 1) (hash 90)] = (play starting installed).2) as -> by (vm_compute; reflexivity).
  apply play_steps.
Qed.

Lemma leaves : steps (Up running) (play leaving running).2 (Up gone).
Proof. apply play_steps. Qed.

(** What a store holds, and that the run left something there. *)
Definition kept (s : Store) : DurableState := default (initial_state dp installation) (stored (Up s)).
Definition keeps (s : Store) : bool := negb (is_none (stored (Up s))).

Lemma kept_stored s : keeps s = true -> stored (Up s) = Some (kept s).
Proof. unfold keeps, kept. by destruct (stored (Up s)). Qed.

Lemma kept_ok evs s : steps (Down empty_disk) evs (Up s) -> keeps s = true -> store_ok s (kept s).
Proof.
  intros Hs Hk. destruct (reachable _ _ _ empty_fresh Hs) as [H _]. by rewrite (kept_stored _ Hk) in H.
Qed.

Lemma cap_history_witness :
  exists y, stored (Up running) = Some y /\ state_le (kept installed) y /\ buried y.
Proof.
  assert (keeps installed = true) as Hk by (vm_compute; reflexivity).
  apply (cap_history empty_disk _ (Up installed) _ (Up running) (kept installed) empty_fresh installs starts
    (kept_stored _ Hk)).
Defined.

Lemma cap_granted_once_witness : exists i : nat,
  (([Silent] ++ (play prelude opened).2) ++ [Started (bytes 16 1) (hash 90)]) !! i = Some (Started (bytes 16 1) (hash 90)) /\ i = i.
Proof.
  exists 8%nat.
  assert ((([Silent] ++ (play prelude opened).2) ++ [Started (bytes 16 1) (hash 90)]) !! 8%nat =
    Some (Started (bytes 16 1) (hash 90))) as H8 by (vm_compute; reflexivity).
  split; [exact H8|].
  exact (cap_granted_once empty_disk _ (Up running) 8%nat 8%nat _ _ (Execution (bytes 16 1)) empty_fresh
    (steps_app _ _ _ _ _ installs starts) H8 H8 eq_refl eq_refl).
Defined.

Lemma gone_exited : keeps gone = true /\ exited (kept gone).
Proof.
  split; [vm_compute; reflexivity|].
  assert (match ds_OwnerExit (kept gone) with Some p => bool_decide (xp_Stage p = "tombstone"%string) | None => false end = true)
    as H by (vm_compute; reflexivity).
  unfold exited. destruct (ds_OwnerExit (kept gone)) as [p|]; [|done]. exists p. by bprop.
Qed.

Lemma cap_exit_final_witness : exists y, stored (Up gone) = Some y /\ ds_OwnerExit y = ds_OwnerExit (kept gone).
Proof.
  destruct gone_exited as [Hk He].
  apply (cap_exit_final empty_disk _ (Up gone) [] (Up gone) (kept gone) empty_fresh
    (steps_app _ _ _ _ _ (steps_app _ _ _ _ _ installs starts) leaves) (kept_stored _ Hk) He (steps_nil _)).
Defined.

Lemma cap_use_gated_witness :
  exists now lease entry slot,
    use_authorized works start (cs_state installed) now lease entry /\
    ds_UseSlots (cs_state (PrepareUse works start installed).1) !! hex_EncodeToString (bi_ExecutionID (sq_Binding start))
      = Some slot /\ us_ResolutionTokenDigest slot = use_token_digest (hash 90).
Proof.
  assert ((PrepareUse works start installed).2 = Ok (hash 90)) as H by (vm_compute; reflexivity).
  assert (keeps installed = true) as Hk by (vm_compute; reflexivity).
  destruct (cap_use_gated works start installed (kept installed) (PrepareUse works start installed).1 (hash 90)
    (kept_ok _ _ installs Hk)) as (now & lease & entry & slot & _ & Hu & _ & _ & Hslot & _ & _ & _ & Htoken & _).
  - rewrite <-H. apply surjective_pairing.
  - exists now, lease, entry, slot. exact (conj Hu (conj Hslot Htoken)).
Defined.

Lemma cap_no_rollback_witness : dk_file (cs_disk opened) = FileDoc (cs_state opened).
Proof. apply (cap_no_rollback dp open_good installation empty_disk (cs_disk opened) opened open_succeeds). Defined.

Lemma pending_none (d : disk) p : pending_exists d = false -> dk_pending d = FileDoc p -> False.
Proof. unfold pending_exists. by destruct (dk_pending d). Qed.

Lemma cap_recovers_witness : exists d' s,
  OpenProductionInDomain dp open_good (Ok (ds_InstallationID (kept running))) (cs_disk running) = (d', Ok s).
Proof.
  assert (keeps running = true) as Hk by (vm_compute; reflexivity).
  destruct (cap_recovers dp (cs_disk running) (kept running)
    (so_disk _ _ (kept_ok _ _ (steps_app _ _ _ _ _ installs starts) Hk))) as (d' & s & Ho & _).
  - vm_compute. reflexivity.
  - done.
  - done.
  - assert (pending_exists (cs_disk running) = false) as Hp by (vm_compute; reflexivity).
    intros p E. exfalso. exact (pending_none _ _ Hp E).
  - exists d', s. exact Ho.
Defined.

Lemma cap_promotion_separated_witness : exists now, separately_promoted (cs_state admitted) promote now.
Proof.
  assert ((Promote works promote admitted).2 = Ok tt) as H by (vm_compute; reflexivity).
  assert (keeps admitted = true) as Hk by (vm_compute; reflexivity).
  destruct (cap_promotion_separated works promote admitted (kept admitted) (Promote works promote admitted).1
    (kept_ok _ _ (steps_app _ _ _ _ _ opens (play_steps (take 4 prelude) opened)) Hk)) as [Hp _].
  - rewrite <-H. apply surjective_pairing.
  - exact Hp.
Defined.

(** The stores of the run that registers an entry with a promotion of its own. *)
Definition bootstrapped : Store := (play (take 1 smuggling) opened).1.
Definition registered : Store := (play (take 2 smuggling) opened).1.
Definition verified : Store := (play (take 3 smuggling) opened).1.
Definition admitted_own : Store := (play (take 4 smuggling) opened).1.

Lemma cap_promotion_kept_witness : exists entry,
  ds_Entries (cs_state admitted_own) !! hex_EncodeToString artifact_digest = Some entry /\
  e_PromotionEnvelope entry = Some own_promotion /\
  capability_change Activate (set_e_InstalledPath "installed" entry) = Ok StateActive.
Proof.
  assert (keeps bootstrapped = true) as Hk by (vm_compute; reflexivity).
  assert (RegisterQuarantined works own_entry own_receipt (Ok "quarantine"%string) 1000000000000%Z bootstrapped = (registered, Ok tt))
    as H1 by (vm_compute; reflexivity).
  assert (VerifyCandidate works verification registered = (verified, Ok tt)) as H2 by (vm_compute; reflexivity).
  assert (Admit works admission_request verified = (admitted_own, Ok tt)) as H3 by (vm_compute; reflexivity).
  destruct (cap_promotion_kept works works works own_entry own_receipt (Ok "quarantine"%string) 1000000000000%Z verification
    admission_request artifact_digest bootstrapped (kept bootstrapped) registered verified admitted_own
    (kept_ok _ _ (steps_app _ _ _ _ _ opens (play_steps (take 1 smuggling) opened)) Hk) H1 H2)
    as (entry & Hentry & _ & Hp & Hact); [reflexivity|vm_compute; reflexivity|exact H3|reflexivity|].
  exists entry. split; [exact Hentry|]. injection Hp as _ He _ _. split; [exact He|].
  apply Hact; [eexists; reflexivity|discriminate].
Defined.

Definition active_entry : Entry := default zero_Entry (ds_Entries (cs_state installed) !! hex_EncodeToString artifact_digest).
Definition refreshed_entry : Entry :=
  match (revalidatePublisherLocked works active_entry 1000).2 with Ok entry => entry | Err _ => zero_Entry end.

Lemma cap_publisher_coverage_witness :
  map_le head_le (e_PublisherSourceHeads active_entry) (e_PublisherSourceHeads refreshed_entry).
Proof.
  assert (is_ok (revalidatePublisherLocked works active_entry 1000).2 = true) as H by (vm_compute; reflexivity).
  destruct (cap_publisher_coverage works active_entry 1000 refreshed_entry) as (? & ? & ? & ? & ? & ? & _ & _ & _ & _ & _ & _ & Hle).
  - unfold refreshed_entry. destruct (revalidatePublisherLocked works active_entry 1000).2; [reflexivity|discriminate H].
  - exact Hle.
Defined.

Lemma cap_channel_session_witness :
  exists k record, ds_DeviceSessions (cs_state with_device) !! k = Some record /\
    live_session "phone" (hash 26) 1000 record = true.
Proof.
  assert (DeviceSessionForAuthenticatedChannel (map_to_list (ds_DeviceSessions (cs_state with_device))) "phone" (hash 26) 1000
    (cs_state with_device) = Ok (digest_of "device session")) as H by (vm_compute; reflexivity).
  apply (cap_channel_session _ _ _ _ _ _ (reflexivity _)) in H as (_ & _ & _ & k & record & Hk & Hl & _).
  exists k, record. split; [exact Hk|exact Hl].
Defined.

(** ** What revocation does not do *)

(** The revocation of a capability is not final. From the installed and
    active artifact of the run above, [capability.revoke] makes it Revoked, the
    state [capability.remove] calls terminal. Two ways lead back. Revoking its
    promotion makes it Admitted whatever it was, and leaves the promotion in
    place, so that activation accepts it again and an execution starts. And
    quarantining and verifying the same bytes once more replaces the revoked
    entry by a verified one whose revocation generation starts again at zero. *)
Theorem cap_revoked_returns :
  let revoked := play revoking installed in
  let again := play reactivating revoked.1 in
  let verified := play reverifying revoked.1 in
  revoked.2 = [Applied (hash 98) (hash 198) "fence" 9] /\
  artifact_state (kept revoked.1) = Some (StateRevoked, 3) /\
  again.2 = [Applied (hash 99) (hash 199) "fence" 10; Applied (hash 100) (hash 200) "fence" 11;
             Started (bytes 16 2) (hash 90)] /\
  artifact_state (kept again.1) = Some (StateActive, 4) /\
  artifact_state (kept verified.1) = Some (StateVerified, 0).
Proof. vm_compute. split_and!; reflexivity. Qed.

(** What [cap_promotion_kept] allows, up to a started execution.
    [RegisterQuarantined] keeps the promotion that comes with the caller's entry, and neither
    verification nor admission removes it: with a promotion under a key that no
    policy lists, and without a call of [Promote], the artifact of the run, which
    requires a promotion, is installed, activated and started. *)
Theorem cap_promotion_smuggled :
  let run := play smuggling opened in
  run.2 = [Silent; Silent; Silent; Silent; Silent; Silent; Applied (hash 91) (hash 191) "fence" 8;
           Started (bytes 16 1) (hash 90)] /\
  match ds_Entries (kept run.1) !! hex_EncodeToString artifact_digest with
  | Some entry => e_State entry = StateActive /\ e_PromotionRequired entry = true /\
                  e_PromotionEnvelope entry = Some own_promotion
  | None => False
  end /\
  subjectAllowed (ds_AuthorizedSubjects (kept run.1)) "promotion-authority" (hash 66) = false.
Proof. vm_compute. split_and!; reflexivity. Qed.

(** The store may confirm a command that it has not stored. When
    [os.Stat] of the pending file fails for another reason than absence, the
    commit returns without reloading memory, where the command is recorded as
    applied. The submission was answered with an error; asked what became of the
    command, the store then answers "applied" and a revision, while the file
    still has the artifact active and knows nothing of the command. After a crash
    the confirmed revocation is lost. *)
Theorem cap_resolve_unstored :
  let failed := play failing installed in
  failed.2 = [Silent] /\
  ResolveOwnerCommand (cs_state failed.1) (attempt 98) "fence" = ("applied"%string, 9) /\
  artifact_state (kept failed.1) = Some (StateActive, 2) /\
  ds_OwnerCommandActions (kept failed.1) !! hex_EncodeToString (hash 98) = None.
Proof. vm_compute. split_and!; reflexivity. Qed.

End CapExample.
