(* ===== verification/GoUnicode.v ===== *)
(** * Case mapping, UTF-8 and searching in strings

    What message routing uses of [strings] and [unicode/utf8] beyond GoLib.v
    and GoText.v: [strings.ToLower] on all text, the runes a [range] over a
    string yields, [strings.Index], [Cut], [Contains], [Count] and [Join]. *)

From S2P Require Import Prelude GoLib GoText.
#[local] Open Scope N_scope.

(** ** [strings.ToLower] *)

Definition is_ascii (s : string) : bool := all_bytes (fun b => b <? 128) s.

(** [strings.Map(unicode.ToLower, s)]: the case tables of Unicode are not part
    of the repository, so the map is a parameter. *)
Class CaseMap := unicode_lower : string -> string.

(** [strings.Map] maps rune by rune, and an ASCII byte is always a rune of its
    own; the tables send an ASCII letter to its lower case. *)
Class CaseMapLaws `{CaseMap} := {
  unicode_lower_nil : unicode_lower "" = ""%string;
  unicode_lower_split a c b : byte_of c < 128 ->
    unicode_lower (a +:+ String c b) = unicode_lower a +:+ String (lower_byte c) (unicode_lower b)
}.

(** [strings.ToLower] maps bytes when the text is ASCII and runes otherwise. *)
Definition lower `{CaseMap} (s : string) : string := if is_ascii s then ToLower s else unicode_lower s.

(** [strings.EqualFold(s, keyword)] for a keyword of lower-case ASCII letters
    other than k and s, which alone fold to letters outside ASCII. *)
Definition EqualFold (s keyword : string) : bool := bool_decide (ToLower s = keyword).

(** ** Runes *)

Definition in_range (lo hi : N) (b : N) : bool := (lo <=? b) && (b <=? hi).
Definition is_cont (b : N) : bool := in_range 128 191 b.
Definition RuneError : N := 65533.

(** The range the second byte of an encoding must lie in, and the number of
    bytes, by the first byte ([first] and [acceptRanges] of [unicode/utf8]). *)
Definition first_byte (b : N) : option (N * N * nat) :=
  if in_range 194 223 b then Some (128, 191, 2%nat)
  else if b =? 224 then Some (160, 191, 3%nat)
  else if b =? 237 then Some (128, 159, 3%nat)
  else if in_range 225 239 b then Some (128, 191, 3%nat)
  else if b =? 240 then Some (144, 191, 4%nat)
  else if in_range 241 243 b then Some (128, 191, 4%nat)
  else if b =? 244 then Some (128, 143, 4%nat)
  else None.

(** [utf8.DecodeRuneInString] of the text [String c s]: the rune and its width. *)
Definition decode_rune (c : ascii) (s : string) : N * nat :=
  let b0 := byte_of c in
  if b0 <? 128 then (b0, 1%nat) else
  match first_byte b0, s with
  | Some (lo, hi, 2%nat), String c1 _ =>
      if in_range lo hi (byte_of c1) then (N.land b0 31 * 64 + N.land (byte_of c1) 63, 2%nat) else (RuneError, 1%nat)
  | Some (lo, hi, 3%nat), String c1 (String c2 _) =>
      if in_range lo hi (byte_of c1) && is_cont (byte_of c2)
      then (N.land b0 15 * 4096 + N.land (byte_of c1) 63 * 64 + N.land (byte_of c2) 63, 3%nat)
      else (RuneError, 1%nat)
  | Some (lo, hi, 4%nat), String c1 (String c2 (String c3 _)) =>
      if in_range lo hi (byte_of c1) && is_cont (byte_of c2) && is_cont (byte_of c3)
      then (N.land b0 7 * 262144 + N.land (byte_of c1) 63 * 4096 + N.land (byte_of c2) 63 * 64
            + N.land (byte_of c3) 63, 4%nat)
      else (RuneError, 1%nat)
  | _, _ => (RuneError, 1%nat)
  end.

(** The runes of [for _, r := range s]; every round consumes at least a byte,
    so the length of the text is fuel enough. *)
Fixpoint runes_loop (fuel : nat) (s : string) : list N :=
  match fuel, s with
  | S fuel, String c rest =>
      let '(r, width) := decode_rune c rest in r :: runes_loop fuel (skip width s)
  | _, _ => []
  end.
Definition runes (s : string) : list N := runes_loop (String.length s) s.

(** [utf8.RuneCountInString] *)
Definition RuneCountInString (s : string) : nat := length (runes s).

(** ** Searching *)

(** [strings.Cut(s, string(b))]: the text before and after the first [b]. *)
Fixpoint CutByte (b : N) (s : string) : option (string * string) :=
  match s with
  | EmptyString => None
  | String c s =>
      if byte_of c =? b then Some (EmptyString, s)
      else option_map (fun '(before, after) => (String c before, after)) (CutByte b s)
  end.

(** [strings.Contains] *)
Fixpoint Contains (s sub : string) : bool :=
  HasPrefix s sub || match s with EmptyString => false | String _ s => Contains s sub end.

(** [strings.Count] of a non-empty [sub]: occurrences that do not overlap. *)
Fixpoint count_loop (fuel : nat) (s sub : string) : nat :=
  match fuel, s with
  | S fuel, String _ rest =>
      if HasPrefix s sub then S (count_loop fuel (skip (String.length sub) s) sub)
      else count_loop fuel rest sub
  | _, _ => O
  end.
Definition Count (s sub : string) : nat := count_loop (String.length s) s sub.

(** [strings.Join] *)
Fixpoint Join (parts : list string) (separator : string) : string :=
  match parts with
  | [] => EmptyString
  | [part] => part
  | part :: parts => part +:+ separator +:+ Join parts separator
  end.

(** ** Lemmas *)

Lemma is_ascii_app a b : is_ascii (a +:+ b) = is_ascii a && is_ascii b.
Proof. apply all_bytes_app. Qed.

Lemma ToLower_length s : String.length (ToLower s) = String.length s.
Proof. induction s as [|c s IH]; cbn; congruence. Qed.

(** A byte class of ASCII bytes that are not capitals is left alone. *)
Lemma ToLower_id p s :
  (forall b, p b = true -> is_upper b = false) -> all_bytes p s = true -> ToLower s = s.
Proof.
  intros Hp. induction s as [|c s IH]; [done|]. cbn. intros H. bprop.
  rewrite IH by done. f_equal. unfold lower_byte.
  apply Hp in H. unfold is_upper in H. by rewrite H.
Qed.

Section lower.
Context `{CaseMap}.

Lemma lower_id p s :
  (forall b, p b = true -> b < 128 /\ is_upper b = false) -> all_bytes p s = true -> lower s = s.
Proof.
  intros Hp Hs. unfold lower.
  assert (is_ascii s = true) as ->.
  { eapply all_bytes_impl; [|exact Hs]. intros b Hb. apply N.ltb_lt. by apply Hp. }
  eapply (ToLower_id p); [|done]. intros b Hb. by apply Hp.
Qed.

Context `{!CaseMapLaws}.

Lemma unicode_lower_ascii s : is_ascii s = true -> unicode_lower s = ToLower s.
Proof.
  induction s as [|c s IH]; cbn; [intros; apply unicode_lower_nil|]. intros Hs. bprop.
  pose proof (unicode_lower_split "" c s) as Hsplit. rewrite unicode_lower_nil in Hsplit.
  rewrite append_nil in Hsplit. rewrite Hsplit by done. by rewrite append_nil, IH.
Qed.

Lemma lower_unicode s : lower s = unicode_lower s.
Proof. unfold lower. destruct (is_ascii s) eqn:E; [|done]. symmetry. by apply unicode_lower_ascii. Qed.

(** Mapping commutes with a split at an ASCII byte. *)
Lemma lower_split a c b :
  byte_of c < 128 -> lower (a +:+ String c b) = lower a +:+ String (lower_byte c) (lower b).
Proof. rewrite !lower_unicode. apply unicode_lower_split. Qed.

Lemma lower_app_ascii a b : is_ascii a = true -> lower (a +:+ b) = lower a +:+ lower b.
Proof.
  induction a as [|c a IH]; [done|]. cbn [is_ascii all_bytes]. intros Ha. bprop.
  rewrite append_cons. pose proof (lower_split "" c (a +:+ b)) as Hab. pose proof (lower_split "" c a) as Hca.
  rewrite !append_nil in *. rewrite Hab, Hca, IH by done. done.
Qed.
End lower.

(** The identity on runes outside ASCII is a case map. *)
Definition ascii_case_map : CaseMap := ToLower.

Lemma ascii_case_map_laws : @CaseMapLaws ascii_case_map.
Proof.
  split; [done|]. intros a c b Hc. unfold unicode_lower, ascii_case_map. by rewrite ToLower_app.
Qed.

(** *** Runes *)

Lemma decode_rune_width c s : (1 <= (decode_rune c s).2)%nat.
Proof.
  unfold decode_rune. repeat (case_match; simplify_eq/=; try lia).
Qed.

Lemma runes_loop_length fuel s : (length (runes_loop fuel s) <= String.length s)%nat.
Proof.
  revert s. induction fuel as [|fuel IH]; intros [|c s]; cbn; try lia.
  destruct (decode_rune c s) as [r w] eqn:E. pose proof (decode_rune_width c s) as Hw. rewrite E in Hw. cbn in Hw.
  pose proof (IH (skip w (String c s))) as Hl. rewrite length_skip in Hl. cbn in *. lia.
Qed.

Lemma RuneCountInString_le s : (RuneCountInString s <= String.length s)%nat.
Proof. apply runes_loop_length. Qed.

(** Text of ASCII bytes has one rune a byte. *)
Lemma runes_loop_ascii fuel s :
  (String.length s <= fuel)%nat -> is_ascii s = true -> length (runes_loop fuel s) = String.length s.
Proof.
  revert s. induction fuel as [|fuel IH]; intros [|c s]; cbn; try lia. intros Hl Hs. bprop.
  unfold decode_rune. destruct (byte_of c <? 128) eqn:E; bprop; [|lia]. cbn. rewrite IH; [done|lia|done].
Qed.

(** *** Cutting *)

Lemma CutByte_spec b s before after :
  CutByte b s = Some (before, after) -> exists c, byte_of c = b /\ s = before +:+ String c after.
Proof.
  revert before. induction s as [|c s IH]; intros before; [done|]. cbn.
  destruct (byte_of c =? b) eqn:E.
  - intros. simplify_eq. exists c. bprop. by rewrite append_nil.
  - destruct (CutByte b s) as [[x y]|] eqn:Ec; [|done]. cbn. intros. simplify_eq.
    destruct (IH _ eq_refl) as (c' & Hc' & ->). exists c'. by rewrite append_cons.
Qed.

Lemma CutByte_app p b a s :
  p b = false -> b < 256 -> all_bytes p a = true -> CutByte b (a +:+ String (of_byte b) s) = Some (a, s).
Proof.
  intros Hb Hlt. induction a as [|c a IH]; cbn [all_bytes].
  - intros _. rewrite append_nil. cbn. by rewrite byte_of_of, N.eqb_refl.
  - intros Ha. bprop. rewrite append_cons. cbn. rewrite IH by done.
    destruct (byte_of c =? b) eqn:E; bprop; [|done]. congruence.
Qed.

(** *** Trimming around a separator *)

(** A prefix without the byte [c] ends before the first [c]. *)
Lemma HasPrefix_before c x y p :
  all_bytes (fun b => negb (b =? byte_of c)) p = true ->
  HasPrefix (x +:+ String c y) p = true -> HasPrefix x p = true.
Proof.
  revert x. induction p as [|d p IH]; intros x; [by destruct x|]. cbn [all_bytes]. intros Hp. bprop.
  destruct x as [|e x].
  - rewrite append_nil. unfold HasPrefix. cbn. destruct (ascii_dec d c) as [->|]; [done|done].
  - rewrite append_cons. unfold HasPrefix in *. cbn. destruct (ascii_dec d e); [|done]. by apply IH.
Qed.

(** Text that begins with a byte no space begins with, and whose tail after a
    byte no space contains is trimmed, is trimmed. *)
Lemma TrimSpace_tail d a c v :
  forallb (fun p => negb (HasPrefix (String d "") (String.substring 0 1 p))) space_encodings = true ->
  forallb (all_bytes (fun b => negb (b =? byte_of c))) space_encodings = true ->
  TrimSpace v = v ->
  TrimSpace (String d (a +:+ String c v)) = String d (a +:+ String c v).
Proof.
  rewrite !forallb_forall. intros Hd Hc Hv. apply TrimSpace_id in Hv. apply TrimSpace_id.
  unfold trimmed in *. apply andb_true_iff in Hv as [_ Hv]. apply andb_true_iff. rewrite !forallb_forall in *.
  split; intros p Hp; apply negb_true_iff.
  - specialize (Hd p Hp). apply negb_true_iff in Hd. destruct p as [|e p].
    { apply list_elem_of_In in Hp. pose proof space_encodings_nonempty as Hne. rewrite Forall_forall in Hne.
      by destruct (Hne _ Hp). }
    unfold HasPrefix in *. cbn in *. destruct p; cbn in *; destruct (ascii_dec e d); try done.
  - specialize (Hv p Hp). apply negb_true_iff in Hv.
    apply not_true_is_false. intros E. apply not_true_iff_false in Hv. apply Hv.
    replace (String d (a +:+ String c v)) with (String d a +:+ String c v) in E by done.
    rewrite str_rev_append in E. rewrite str_rev_cons, append_assoc in E. cbn [String.append] in E.
    apply HasPrefix_before in E; [done|].
    apply in_map_iff in Hp as (q & <- & Hq). rewrite all_bytes_str_rev. by apply Hc.
Qed.

(** *** Trimming twice *)

Lemma HasPrefix_app_r x y p : HasPrefix x p = true -> HasPrefix (x +:+ y) p = true.
Proof.
  intros Hp. rewrite (HasPrefix_skip x p), append_assoc by done. apply HasPrefix_app.
Qed.

Lemma trim_left_suffix encodings fuel s : exists t, s = t +:+ trim_left encodings fuel s.
Proof.
  revert s. induction fuel as [|fuel IH]; intros s; cbn; [by exists ""|].
  destruct (List.find (HasPrefix s) encodings) as [p|] eqn:E; [|by exists ""].
  apply List.find_some in E as [_ Hp]. destruct (IH (skip (String.length p) s)) as [t Ht].
  exists (p +:+ t). rewrite append_assoc, <-Ht. by apply HasPrefix_skip.
Qed.

(** With fuel for every byte the trimming ends before a byte of no space. *)
Lemma trim_left_done encodings fuel s :
  Forall (fun p => p <> ""%string) encodings -> (String.length s <= fuel)%nat ->
  forallb (fun p => negb (HasPrefix (trim_left encodings fuel s) p)) encodings = true.
Proof.
  intros He. revert s. induction fuel as [|fuel IH]; intros s Hl.
  - destruct s; [|cbn in Hl; lia]. cbn. rewrite forallb_forall. intros p Hp. apply negb_true_iff.
    apply list_elem_of_In in Hp. rewrite Forall_forall in He. specialize (He p Hp). by destruct p.
  - cbn. destruct (List.find (HasPrefix s) encodings) as [p|] eqn:E.
    + apply IH. rewrite length_skip. apply List.find_some in E as [Hin Hp]. apply HasPrefix_length in Hp.
      rewrite Forall_forall in He. apply list_elem_of_In in Hin. specialize (He p Hin). destruct p; [done|]. cbn in *. lia.
    + rewrite forallb_forall. intros p Hp. apply negb_true_iff. by apply (List.find_none _ _ E).
Qed.

Lemma TrimSpace_idemp s : TrimSpace (TrimSpace s) = TrimSpace s.
Proof.
  apply TrimSpace_id. unfold trimmed, TrimSpace. set (l := trim_left _ _ s). rewrite andb_true_iff, str_rev_involutive.
  set (r := trim_left _ _ (str_rev l)). split.
  - destruct (trim_left_suffix (str_rev <$> space_encodings) (String.length l) (str_rev l)) as [t Ht]. fold r in Ht.
    apply (f_equal str_rev) in Ht. rewrite str_rev_involutive, str_rev_append in Ht.
    pose proof (trim_left_done space_encodings (String.length s) s space_encodings_nonempty (le_n _)) as Hd. fold l in Hd.
    rewrite forallb_forall in *. intros p Hp. specialize (Hd p Hp). rewrite negb_true_iff in *.
    apply not_true_is_false. intros Hr. apply (HasPrefix_app_r _ (str_rev t)) in Hr. rewrite <-Ht in Hr. congruence.
  - apply trim_left_done; [apply rev_space_encodings_nonempty|]. by rewrite length_str_rev.
Qed.

(** *** Trimming keeps what a byte of no space fences off *)

Lemma skip_length_app p x y : HasPrefix x p = true ->
  skip (String.length p) (x +:+ y) = skip (String.length p) x +:+ y.
Proof.
  intros Hp. rewrite (HasPrefix_skip x p) at 1 by done. by rewrite append_assoc, skip_app.
Qed.

Lemma trim_left_fence c encodings fuel x y :
  forallb (all_bytes (fun b => negb (b =? byte_of c))) encodings = true ->
  exists x', trim_left encodings fuel (x +:+ String c y) = x' +:+ String c y.
Proof.
  intros He. revert x. induction fuel as [|fuel IH]; intros x; cbn; [by exists x|].
  destruct (List.find _ encodings) as [p|] eqn:E; [|by exists x].
  apply List.find_some in E as [Hin Hp]. rewrite forallb_forall in He.
  rewrite skip_length_app; [apply IH|]. apply (HasPrefix_before c x y); [by apply He|done].
Qed.

Lemma forallb_str_rev q encodings :
  forallb (all_bytes q) encodings = true -> forallb (all_bytes q) (str_rev <$> encodings) = true.
Proof.
  rewrite !forallb_forall. intros He p (r & <- & Hr)%in_map_iff. rewrite all_bytes_str_rev. by apply He.
Qed.

Lemma TrimSpace_fence d a c v :
  forallb (fun p => negb (HasPrefix (String d "") (String.substring 0 1 p))) space_encodings = true ->
  forallb (all_bytes (fun b => negb (b =? byte_of c))) space_encodings = true ->
  exists w, TrimSpace (String d (a +:+ String c v)) = String d (a +:+ String c w).
Proof.
  intros Hd Hc. unfold TrimSpace. cbv zeta. rewrite (trim_left_fixed space_encodings).
  - change (String d (a +:+ String c v)) with (String d a +:+ String c v).
    rewrite str_rev_append, (str_rev_cons c v), append_assoc. cbn [String.append].
    destruct (trim_left_fence c (str_rev <$> space_encodings) (String.length (String d a +:+ String c v)) (str_rev v)
                (str_rev (String d a)) (forallb_str_rev _ _ Hc)) as [x' Hx].
    exists (str_rev x').
    replace (str_rev v +:+ String c "" +:+ str_rev (String d a)) with (str_rev v +:+ String c (str_rev (String d a))) by done.
    rewrite Hx. rewrite str_rev_append, str_rev_cons, str_rev_involutive, append_assoc. done.
  - rewrite forallb_forall in *. intros p Hp. specialize (Hd p Hp). apply negb_true_iff in Hd. apply negb_true_iff.
    destruct p as [|e p].
    { apply list_elem_of_In in Hp. pose proof space_encodings_nonempty as Hne. rewrite Forall_forall in Hne.
      by destruct (Hne _ Hp). }
    unfold HasPrefix in *. cbn in *. destruct p; cbn in *; destruct (ascii_dec e d); try done.
Qed.

(** *** Joining *)

Lemma Join_cons part parts separator :
  parts <> [] -> Join (part :: parts) separator = part +:+ separator +:+ Join parts separator.
Proof. by destruct parts. Qed.

(** Parts without the separator byte can be read back. *)
Lemma Join_inj b l1 l2 :
  b < 256 -> Forall (fun part => ContainsByte part b = false) l1 -> Forall (fun part => ContainsByte part b = false) l2 ->
  l1 <> [] -> l2 <> [] -> Join l1 (sep b) = Join l2 (sep b) -> l1 = l2.
Proof.
  intros Hb H1. revert l2. induction H1 as [|p1 l1 Hp1 H1 IH]; intros l2 H2 Hn1 Hn2; [done|].
  assert (forall p q r, ContainsByte p b = false -> p <> q +:+ sep b +:+ r) as Hno.
  { intros p q r Hp ->. unfold ContainsByte in Hp. rewrite !all_bytes_app in Hp. cbn in Hp.
    rewrite byte_of_of, N.eqb_refl in Hp by done. cbn in Hp. by rewrite andb_false_r in Hp. }
  destruct H2 as [|p2 l2 Hp2 H2]; [done|].
  destruct l1 as [|q1 l1], l2 as [|q2 l2]; try (rewrite !(Join_cons p1), !(Join_cons p2) by done).
  - intros E. cbn in E. by subst.
  - intros E. rewrite (Join_cons p2) in E by done. by destruct (Hno p1 p2 (Join (q2 :: l2) (sep b))).
  - intros E. rewrite (Join_cons p1) in E by done. by destruct (Hno p2 p1 (Join (q1 :: l1) (sep b))).
  - intros E. apply sep_split in E as [-> E]; [|done..]. f_equal. by apply IH.
Qed.
