(* ===== verification/Routing.v ===== *)
(** * Routing a message to an agent (src/pkg/routing, src/pkg/agent/registry.go)

    A message that arrives on a channel is routed to one of the configured
    agents: the dispatch rules are tried in order, and the first whose selector
    matches the normalized message decides; without one the default agent
    answers. The registry of agents is keyed by the same normalized
    identifiers. This file models the identifiers, the resolver, and the part
    of the registry that finds the agent of a route. *)

From S2P Require Import Prelude GoLib GoText GoUnicode.
#[local] Open Scope string_scope.
#[local] Open Scope N_scope.

Module Routing.

(** ** agent_id.go *)

Definition DefaultAgentID : string := "main".
Definition DefaultAccountID : string := "default".
Definition MaxAgentIDLength : nat := 64.

(** [[a-z0-9]] and [[a-z0-9_-]] *)
Definition id_first (b : N) : bool := is_lower b || is_digit b.
Definition id_byte (b : N) : bool := id_first b || (b =? 95) || (b =? 45).

(** [^[a-z0-9][a-z0-9_-]{0,63}$] *)
Definition validIDRe (s : string) : bool :=
  match s with
  | EmptyString => false
  | String c rest => id_first (byte_of c) && all_bytes id_byte rest && (slen rest <=? 63)
  end.

Definition dash : ascii := of_byte 45.

(** [invalidCharsRe.ReplaceAllString(s, "-")]: every maximal run of other
    characters becomes one dash. The bytes of a character outside ASCII are
    all outside the class, so runs of bytes are runs of characters. *)
Fixpoint replace_invalid (in_run : bool) (s : string) : string :=
  match s with
  | EmptyString => EmptyString
  | String c s =>
      if id_byte (byte_of c) then String c (replace_invalid false s)
      else if in_run then replace_invalid true s
      else String dash (replace_invalid true s)
  end.

(** [leadingDashRe.ReplaceAllString(s, "")] *)
Fixpoint trim_leading_dashes (s : string) : string :=
  match s with
  | String c rest => if byte_of c =? 45 then trim_leading_dashes rest else s
  | EmptyString => EmptyString
  end.

(** [trailingDashRe.ReplaceAllString(s, "")] *)
Definition trim_trailing_dashes (s : string) : string := str_rev (trim_leading_dashes (str_rev s)).

(** The clean-up both normalizers apply to an identifier that is not valid. *)
Definition clean_id (s : string) : string :=
  let result := replace_invalid false s in
  let result := trim_leading_dashes result in
  let result := trim_trailing_dashes result in
  if (MaxAgentIDLength <? String.length result)%nat then String.substring 0 MaxAgentIDLength result else result.

Section routing.
Context `{CaseMap}.

Definition NormalizeAgentID (id : string) : string :=
  let trimmed := TrimSpace id in
  if bool_decide (trimmed = "") then DefaultAgentID else
  let lowered := lower trimmed in
  if validIDRe lowered then lowered else
  let result := clean_id lowered in
  if bool_decide (result = "") then DefaultAgentID else result.

Definition NormalizeAccountID (id : string) : string :=
  let trimmed := TrimSpace id in
  if bool_decide (trimmed = "") then DefaultAccountID else
  let lowered := lower trimmed in
  if validIDRe lowered then lowered else
  let result := clean_id lowered in
  if bool_decide (result = "") then DefaultAccountID else result.

(** ** The configuration the resolver reads *)

(** [Subagents]: [None] when the section is absent, else its [AllowAgents]. *)
Record AgentConfig := {
  ac_ID : string;
  ac_Default : bool;
  ac_Subagents : option (list string)
}.

Record DispatchSelector := {
  ds_Channel : string;
  ds_Account : string;
  ds_Space : string;
  ds_Chat : string;
  ds_Topic : string;
  ds_Sender : string;
  ds_Mentioned : option bool
}.

Record DispatchRule := {
  dr_Name : string;
  dr_Agent : string;
  dr_When : DispatchSelector;
  dr_SessionDimensions : list string
}.

(** The agents, the dispatch rules ([None] without a dispatch section), and
    the session section. *)
Record Config := {
  cfg_List : list AgentConfig;
  cfg_Dispatch : option (list DispatchRule);
  cfg_Dimensions : list string;
  cfg_IdentityLinks : gmap string (list string)
}.

(** The fields of [bus.InboundContext] that routing and sessions read. *)
Record InboundContext := {
  in_Channel : string;
  in_Account : string;
  in_ChatID : string;
  in_ChatType : string;
  in_TopicID : string;
  in_SpaceID : string;
  in_SpaceType : string;
  in_SenderID : string;
  in_Mentioned : bool
}.

(** ** route.go *)

Record SessionPolicy := {
  sp_Dimensions : list string;
  sp_IdentityLinks : gmap string (list string)
}.

Record ResolvedRoute := {
  rr_AgentID : string;
  rr_Channel : string;
  rr_AccountID : string;
  rr_SessionPolicy : SessionPolicy;
  rr_MatchedBy : string
}.

Definition resolveDefaultAgentID (cfg : Config) : string :=
  match cfg_List cfg with
  | [] => DefaultAgentID
  | first :: _ =>
      match List.find (fun a => ac_Default a && negb (bool_decide (TrimSpace (ac_ID a) = ""))) (cfg_List cfg) with
      | Some a => NormalizeAgentID (TrimSpace (ac_ID a))
      | None =>
          if bool_decide (TrimSpace (ac_ID first) = "") then DefaultAgentID
          else NormalizeAgentID (TrimSpace (ac_ID first))
      end
  end.

Definition pickAgentID (cfg : Config) (agentID : string) : string :=
  let trimmed := TrimSpace agentID in
  if bool_decide (trimmed = "") then NormalizeAgentID (resolveDefaultAgentID cfg) else
  let normalized := NormalizeAgentID trimmed in
  match cfg_List cfg with
  | [] => normalized
  | agents =>
      if existsb (fun a => bool_decide (NormalizeAgentID (ac_ID a) = normalized)) agents then normalized
      else NormalizeAgentID (resolveDefaultAgentID cfg)
  end.

Definition known_dimensions : list string := ["space"; "chat"; "topic"; "sender"].

(** The loop of [normalizeSessionDimensions], with the set of names seen. *)
Fixpoint normalize_dimensions (seen : list string) (dimensions : list string) : list string :=
  match dimensions with
  | [] => []
  | dimension :: dimensions =>
      let dimension := lower (TrimSpace dimension) in
      if negb (bool_decide (dimension ∈ known_dimensions)) then normalize_dimensions seen dimensions
      else if bool_decide (dimension ∈ seen) then normalize_dimensions seen dimensions
      else dimension :: normalize_dimensions (dimension :: seen) dimensions
  end.
Definition normalizeSessionDimensions (dimensions : list string) : list string := normalize_dimensions [] dimensions.

Definition sessionPolicy (cfg : Config) (rule : option DispatchRule) : SessionPolicy :=
  let dimensions :=
    match rule with
    | Some rule => if bool_decide (dr_SessionDimensions rule = []) then cfg_Dimensions cfg else dr_SessionDimensions rule
    | None => cfg_Dimensions cfg
    end in
  {| sp_Dimensions := normalizeSessionDimensions dimensions; sp_IdentityLinks := cfg_IdentityLinks cfg |}.

Record dispatchView := {
  dv_Channel : string;
  dv_Account : string;
  dv_Space : string;
  dv_Chat : string;
  dv_Topic : string;
  dv_Sender : string;
  dv_Mentioned : bool
}.

(** The names under which a peer may be listed in the identity links. *)
Definition link_candidates (channel peerID : string) : list string :=
  let rawCandidate := lower peerID in
  let channel := lower (TrimSpace channel) in
  (if bool_decide (rawCandidate = "") then [] else [rawCandidate])
  ++ (if bool_decide (channel = "") then [] else [channel +:+ ":" +:+ rawCandidate])
  ++ match CutByte 58 rawCandidate with
     | Some (before, after) => if bool_decide (before = "") || bool_decide (after = "") then [] else [after]
     | None => []
     end.

(** One entry of the identity links names the peer. *)
Definition link_matches (candidates : list string) (entry : string * list string) : bool :=
  negb (bool_decide (TrimSpace entry.1 = ""))
  && existsb (fun id => let normalized := lower (TrimSpace id) in
                        negb (bool_decide (normalized = "")) && bool_decide (normalized ∈ candidates)) entry.2.

(** [identityLinks] in the order in which the loop over the map visits it. *)
Definition resolveLinkedDispatchID (identityLinks : list (string * list string)) (channel peerID : string) : string :=
  match identityLinks with
  | [] => ""
  | _ =>
      let peerID := TrimSpace peerID in
      if bool_decide (peerID = "") then "" else
      match List.find (link_matches (link_candidates channel peerID)) identityLinks with
      | Some (canonical, _) => TrimSpace canonical
      | None => ""
      end
  end.

Definition canonicalDispatchSenderID (channel rawID : string) (identityLinks : list (string * list string)) : string :=
  let normalizedID := TrimSpace rawID in
  if bool_decide (normalizedID = "") then "" else
  let linked := resolveLinkedDispatchID identityLinks channel normalizedID in
  if bool_decide (linked = "") then lower normalizedID else lower linked.

(** [<kind>:<id>] with the kind's default, or nothing without an id. *)
Definition typed_id (kind default id : string) : string :=
  let id := TrimSpace id in
  if bool_decide (id = "") then "" else
  let kind := lower (TrimSpace kind) in
  (if bool_decide (kind = "") then default else kind) +:+ ":" +:+ lower id.

Definition buildDispatchView (inbound : InboundContext) (identityLinks : list (string * list string)) : dispatchView :=
  {| dv_Channel := lower (TrimSpace (in_Channel inbound));
     dv_Account := NormalizeAccountID (in_Account inbound);
     dv_Space := typed_id (in_SpaceType inbound) "space" (in_SpaceID inbound);
     dv_Chat := typed_id (in_ChatType inbound) "direct" (in_ChatID inbound);
     dv_Topic := if bool_decide (TrimSpace (in_TopicID inbound) = "") then ""
                 else "topic:" +:+ lower (TrimSpace (in_TopicID inbound));
     dv_Sender := canonicalDispatchSenderID (in_Channel inbound) (in_SenderID inbound) identityLinks;
     dv_Mentioned := in_Mentioned inbound |}.

Definition normalizeDispatchSelector (selector : DispatchSelector) : DispatchSelector :=
  {| ds_Channel := lower (TrimSpace (ds_Channel selector));
     ds_Account := NormalizeAccountID (ds_Account selector);
     ds_Space := lower (TrimSpace (ds_Space selector));
     ds_Chat := lower (TrimSpace (ds_Chat selector));
     ds_Topic := lower (TrimSpace (ds_Topic selector));
     ds_Sender := lower (TrimSpace (ds_Sender selector));
     ds_Mentioned := ds_Mentioned selector |}.

Definition selectorHasAnyConstraint (selector : DispatchSelector) : bool :=
  negb (bool_decide (TrimSpace (ds_Channel selector) = ""))
  || negb (bool_decide (TrimSpace (ds_Account selector) = ""))
  || negb (bool_decide (TrimSpace (ds_Space selector) = ""))
  || negb (bool_decide (TrimSpace (ds_Chat selector) = ""))
  || negb (bool_decide (TrimSpace (ds_Topic selector) = ""))
  || negb (bool_decide (TrimSpace (ds_Sender selector) = ""))
  || bool_decide (ds_Mentioned selector <> None).

Definition ruleMatchesView (rule : DispatchRule) (view : dispatchView) : bool :=
  let when := normalizeDispatchSelector (dr_When rule) in
  if negb (bool_decide (ds_Channel when = "")) && negb (bool_decide (ds_Channel when = dv_Channel view)) then false else
  if negb (bool_decide (ds_Account when = "")) && negb (bool_decide (ds_Account when = dv_Account view)) then false else
  if negb (bool_decide (ds_Space when = "")) && negb (bool_decide (ds_Space when = dv_Space view)) then false else
  if negb (bool_decide (ds_Chat when = "")) && negb (bool_decide (ds_Chat when = dv_Chat view)) then false else
  if negb (bool_decide (ds_Topic when = "")) && negb (bool_decide (ds_Topic when = dv_Topic view)) then false else
  if negb (bool_decide (ds_Sender when = "")) && negb (bool_decide (ds_Sender when = dv_Sender view)) then false else
  match ds_Mentioned when with
  | Some mentioned => eqb mentioned (dv_Mentioned view)
  | None => true
  end.

Definition matchDispatchRule (cfg : Config) (view : dispatchView) : option DispatchRule :=
  match cfg_Dispatch cfg with
  | None => None
  | Some rules => List.find (fun rule => selectorHasAnyConstraint (dr_When rule) && ruleMatchesView rule view) rules
  end.

Definition matchedByForRule (rule : option DispatchRule) : string :=
  match rule with
  | None => "default"
  | Some rule =>
      let name := TrimSpace (dr_Name rule) in
      if bool_decide (name = "") then "dispatch.rule" else "dispatch.rule:" +:+ lower name
  end.

(** [iteration] is the order in which this call visits the identity links. *)
Definition ResolveRoute (iteration : gmap string (list string) -> list (string * list string))
    (cfg : Config) (inbound : InboundContext) : ResolvedRoute :=
  let channel := lower (TrimSpace (in_Channel inbound)) in
  let accountID := NormalizeAccountID (in_Account inbound) in
  let view := buildDispatchView inbound (iteration (cfg_IdentityLinks cfg)) in
  match matchDispatchRule cfg view with
  | Some rule =>
      {| rr_AgentID := pickAgentID cfg (dr_Agent rule); rr_Channel := channel; rr_AccountID := accountID;
         rr_SessionPolicy := sessionPolicy cfg (Some rule); rr_MatchedBy := matchedByForRule (Some rule) |}
  | None =>
      {| rr_AgentID := pickAgentID cfg (resolveDefaultAgentID cfg); rr_Channel := channel; rr_AccountID := accountID;
         rr_SessionPolicy := sessionPolicy cfg None; rr_MatchedBy := "default" |}
  end.

(** ** registry.go: which agent instance answers *)

(** An agent instance stands for the configuration it was built from. *)
Definition implicitAgent : AgentConfig := {| ac_ID := "main"; ac_Default := true; ac_Subagents := None |}.

(** [NewAgentRegistry]: a later agent replaces an earlier one under its id. *)
Definition NewAgentRegistry (cfg : Config) : gmap string AgentConfig :=
  match cfg_List cfg with
  | [] => {["main" := implicitAgent]}
  | agents => foldl (fun agents ac => <[NormalizeAgentID (ac_ID ac) := ac]> agents) ∅ agents
  end.

Definition GetAgent (agents : gmap string AgentConfig) (agentID : string) : option AgentConfig :=
  agents !! NormalizeAgentID agentID.

(** [any] is the entry at which a loop over the map begins. *)
Definition defaultAgentIDLocked (any : gmap string AgentConfig -> option string) (cfg : Config)
    (agents : gmap string AgentConfig) : string :=
  if bool_decide (is_Some (agents !! DefaultAgentID)) then DefaultAgentID else
  let registered id := bool_decide (is_Some (agents !! NormalizeAgentID id)) in
  match List.find (fun a => ac_Default a && registered (ac_ID a)) (cfg_List cfg), cfg_List cfg with
  | Some a, _ => NormalizeAgentID (ac_ID a)
  | None, first :: _ => if registered (ac_ID first) then NormalizeAgentID (ac_ID first) else default "" (any agents)
  | None, [] => default "" (any agents)
  end.

Definition GetDefaultAgent (any : gmap string AgentConfig -> option string) (cfg : Config)
    (agents : gmap string AgentConfig) : option AgentConfig :=
  let id := defaultAgentIDLocked any cfg agents in
  match (if bool_decide (id = "") then None else agents !! id) with
  | Some agent => Some agent
  | None => any agents ≫= (agents !!.)
  end.

(** [resolveMessageRoute] of src/pkg/agent/agent_message.go *)
Definition resolveMessageRoute (iteration : gmap string (list string) -> list (string * list string))
    (any : gmap string AgentConfig -> option string) (cfg : Config) (inbound : InboundContext)
    : result (ResolvedRoute * AgentConfig) :=
  let agents := NewAgentRegistry cfg in
  let route := ResolveRoute iteration cfg inbound in
  match GetAgent agents (rr_AgentID route) with
  | Some agent => Ok (route, agent)
  | None =>
      match GetDefaultAgent any cfg agents with
      | Some agent => Ok (route, agent)
      | None => Err "no agent available for route"
      end
  end.

Definition agentAllowsSubagent (parent : AgentConfig) (targetNorm : string) : bool :=
  match ac_Subagents parent with
  | None => false
  | Some allowed => existsb (fun a => bool_decide (a = "*") || bool_decide (NormalizeAgentID a = targetNorm)) allowed
  end.

Definition CanSpawnSubagent (agents : gmap string AgentConfig) (parentAgentID targetAgentID : string) : bool :=
  match GetAgent agents parentAgentID with
  | None => false
  | Some parent => agentAllowsSubagent parent (NormalizeAgentID targetAgentID)
  end.

(** ** Identifiers *)

(** What the normalizers return: at most 64 bytes of the class, not beginning
    with a dash. Unlike the pattern, it admits an underscore in front. *)
Definition id_normal (s : string) : bool :=
  match s with
  | EmptyString => false
  | String c _ => negb (byte_of c =? 45) && all_bytes id_byte s && (slen s <=? 64)
  end.

Lemma id_byte_lower b : id_byte b = true -> b < 128 /\ is_upper b = false.
Proof.
  unfold id_byte, id_first, is_lower, is_digit, is_upper. intros Hb.
  rewrite !orb_true_iff, !andb_true_iff, !N.leb_le, !N.eqb_eq in Hb.
  split; [lia|]. apply andb_false_iff. rewrite !N.leb_gt. lia.
Qed.

Lemma id_byte_spaces :
  forallb (starts_outside id_byte) space_encodings = true
  /\ forallb (starts_outside id_byte) (str_rev <$> space_encodings) = true.
Proof. split; vm_compute; reflexivity. Qed.

Lemma TrimSpace_id_bytes s : all_bytes id_byte s = true -> TrimSpace s = s.
Proof. destruct id_byte_spaces. by apply TrimSpace_bytes. Qed.

Lemma lower_id_bytes s : all_bytes id_byte s = true -> lower s = s.
Proof. apply lower_id, id_byte_lower. Qed.

Lemma replace_invalid_bytes in_run s : all_bytes id_byte (replace_invalid in_run s) = true.
Proof.
  revert in_run. induction s as [|c s IH]; intros in_run; [done|]. cbn.
  destruct (id_byte (byte_of c)) eqn:E; [cbn; by rewrite E, IH|].
  destruct in_run; [done|]. cbn. by rewrite IH.
Qed.

Lemma replace_invalid_id in_run s : all_bytes id_byte s = true -> replace_invalid in_run s = s.
Proof.
  revert in_run. induction s as [|c s IH]; intros in_run; [done|]. cbn. intros [Hc Hs]%andb_true_iff.
  by rewrite Hc, IH.
Qed.

Lemma trim_leading_bytes p s : all_bytes p s = true -> all_bytes p (trim_leading_dashes s) = true.
Proof.
  induction s as [|c s IH]; [done|]. cbn [trim_leading_dashes]. intros Hs.
  destruct (byte_of c =? 45); [|done]. apply IH. cbn in Hs. by bprop.
Qed.

(** What is left after dropping the dashes is empty or begins otherwise. *)
Definition not_dash (s : string) : bool :=
  match s with EmptyString => true | String c _ => negb (byte_of c =? 45) end.

Lemma trim_leading_not_dash s : not_dash (trim_leading_dashes s) = true.
Proof. induction s as [|c s IH]; [done|]. cbn. destruct (byte_of c =? 45) eqn:E; [done|]. cbn. by rewrite E. Qed.

Lemma trim_leading_fixed s : not_dash s = true -> trim_leading_dashes s = s.
Proof. destruct s as [|c s]; [done|]. cbn. by destruct (byte_of c =? 45). Qed.

(** Dropping dashes drops a prefix. *)
Lemma trim_leading_suffix s : exists t, s = t +:+ trim_leading_dashes s.
Proof.
  induction s as [|c s [t IH]]; [by exists ""|]. cbn. destruct (byte_of c =? 45); [|by exists ""].
  exists (String c t). rewrite append_cons. by rewrite <-IH.
Qed.

Lemma trim_trailing_prefix s : exists t, s = trim_trailing_dashes s +:+ t.
Proof.
  unfold trim_trailing_dashes. destruct (trim_leading_suffix (str_rev s)) as [t Ht].
  exists (str_rev t). rewrite <-str_rev_append, <-Ht. by rewrite str_rev_involutive.
Qed.

Lemma trim_trailing_bytes p s : all_bytes p s = true -> all_bytes p (trim_trailing_dashes s) = true.
Proof. intros Hs. unfold trim_trailing_dashes. rewrite all_bytes_str_rev. apply trim_leading_bytes. by rewrite all_bytes_str_rev. Qed.

Lemma not_dash_prefix s t : not_dash (s +:+ t) = true -> not_dash s = true.
Proof. by destruct s. Qed.

Lemma substring_split n s : exists t, s = String.substring 0 n s +:+ t.
Proof.
  revert n. induction s as [|c s IH]; intros [|n]; cbn; [by exists ""|by exists ""|by eexists|].
  destruct (IH n) as [t Ht]. exists t. rewrite append_cons. by rewrite <-Ht.
Qed.

Lemma substring_length n s : (String.length (String.substring 0 n s) <= n)%nat.
Proof. revert n. induction s as [|c s IH]; intros [|n]; cbn; try lia. specialize (IH n). lia. Qed.

Lemma clean_id_normal s : clean_id s <> "" -> id_normal (clean_id s) = true.
Proof.
  unfold clean_id. set (r := trim_trailing_dashes _).
  assert (all_bytes id_byte r = true) as Hb by apply trim_trailing_bytes, trim_leading_bytes, replace_invalid_bytes.
  assert (not_dash r = true) as Hd.
  { destruct (trim_trailing_prefix (trim_leading_dashes (replace_invalid false s))) as [t Ht].
    eapply (not_dash_prefix _ t). unfold r. rewrite <-Ht. apply trim_leading_not_dash. }
  assert (forall x, x <> "" -> all_bytes id_byte x = true -> not_dash x = true ->
                    (String.length x <= 64)%nat -> id_normal x = true) as Hx.
  { intros [|c x] Hne Hxb Hxd Hl; [done|]. unfold id_normal. cbn [not_dash] in Hxd. rewrite Hxd, Hxb.
    apply N.leb_le. unfold slen. lia. }
  destruct (_ <? _)%nat eqn:E; intros Hne; apply Hx; try done.
  - destruct (substring_split MaxAgentIDLength r) as [t Ht]. rewrite Ht, all_bytes_app in Hb. by bprop.
  - destruct (substring_split MaxAgentIDLength r) as [t Ht]. rewrite Ht in Hd. by eapply not_dash_prefix.
  - apply substring_length.
  - apply Nat.ltb_ge in E. exact E.
Qed.

Lemma validIDRe_normal s : validIDRe s = true -> id_normal s = true.
Proof.
  destruct s as [|c s]; [done|]. unfold validIDRe, id_normal. intros Hs.
  apply andb_true_iff in Hs as [[Hf Hr]%andb_true_iff Hl%N.leb_le].
  cbn [all_bytes]. unfold id_byte at 1. rewrite Hf, Hr. cbn.
  assert ((byte_of c =? 45) = false) as ->.
  { apply N.eqb_neq. intros E. by rewrite E in Hf. }
  apply N.leb_le. unfold slen in *. cbn. lia.
Qed.

Lemma NormalizeAgentID_normal id : id_normal (NormalizeAgentID id) = true.
Proof.
  unfold NormalizeAgentID. case_bool_decide; [done|]. destruct (validIDRe _) eqn:E.
  - by apply validIDRe_normal.
  - case_bool_decide; [done|]. by apply clean_id_normal.
Qed.

Lemma NormalizeAccountID_normal id : id_normal (NormalizeAccountID id) = true.
Proof.
  unfold NormalizeAccountID. case_bool_decide; [done|]. destruct (validIDRe _) eqn:E.
  - by apply validIDRe_normal.
  - case_bool_decide; [done|]. by apply clean_id_normal.
Qed.

Lemma id_normal_bytes s : id_normal s = true -> s <> "" /\ all_bytes id_byte s = true.
Proof. destruct s as [|c s]; [done|]. unfold id_normal. intros Hs. by bprop. Qed.

(** A normal identifier without an underscore in front is what the pattern
    describes, and is its own normalization. *)
Lemma id_normal_valid s : id_normal s = true -> HasPrefix s "_" = false -> validIDRe s = true.
Proof.
  destruct s as [|c s]; [done|]. unfold id_normal, validIDRe, HasPrefix. cbn [all_bytes]. intros Hs Hu.
  apply andb_true_iff in Hs as [[Hd%negb_true_iff%N.eqb_neq [Hc Hb]%andb_true_iff]%andb_true_iff Hl%N.leb_le].
  rewrite Hb, andb_true_r. apply andb_true_iff. split; [|apply N.leb_le; unfold slen in *; cbn in *; lia].
  unfold id_byte in Hc. rewrite !orb_true_iff, !N.eqb_eq in Hc. destruct Hc as [[?|E]|E]; [done| |done].
  exfalso. assert (c = of_byte 95) as -> by (by rewrite <-E, of_byte_of). destruct s; vm_compute in Hu; discriminate.
Qed.

Lemma NormalizeAgentID_fixed s : validIDRe s = true -> NormalizeAgentID s = s.
Proof.
  intros Hs. pose proof (validIDRe_normal _ Hs) as Hn. apply id_normal_bytes in Hn as [Hne Hb].
  unfold NormalizeAgentID. rewrite TrimSpace_id_bytes by done. rewrite bool_decide_eq_false_2 by done.
  rewrite lower_id_bytes by done. by rewrite Hs.
Qed.

Lemma NormalizeAgentID_idemp id :
  HasPrefix (NormalizeAgentID id) "_" = false -> NormalizeAgentID (NormalizeAgentID id) = NormalizeAgentID id.
Proof. intros Hu. apply NormalizeAgentID_fixed, id_normal_valid; [apply NormalizeAgentID_normal|done]. Qed.

(** ** The registry *)

Lemma registry_fold agents (m : gmap string AgentConfig) id :
  is_Some (foldl (fun m ac => <[NormalizeAgentID (ac_ID ac) := ac]> m) m agents !! id)
  <-> is_Some (m !! id) \/ exists a, a ∈ agents /\ NormalizeAgentID (ac_ID a) = id.
Proof.
  revert m. induction agents as [|ac agents IH]; intros m; cbn.
  - split; [by left|]. intros [?|(a & Ha & _)]; [done|]. by apply not_elem_of_nil in Ha.
  - rewrite IH. split.
    + intros [Hs|(a & Ha & <-)]; [|right; exists a; split; [by right|done]].
      destruct (decide (NormalizeAgentID (ac_ID ac) = id)) as [E|E].
      * right. exists ac. split; [by left|done].
      * left. by rewrite lookup_insert_ne in Hs.
    + intros [Hs|(a & [->|Ha]%elem_of_cons & <-)].
      * left. by apply lookup_insert_is_Some'; right.
      * left. by rewrite lookup_insert_eq.
      * right. by exists a.
Qed.

(** The entry under an identifier is an agent with that identifier. *)
Lemma registry_fold_id agents (m : gmap string AgentConfig) id agent :
  (forall id agent, m !! id = Some agent -> NormalizeAgentID (ac_ID agent) = id) ->
  foldl (fun m ac => <[NormalizeAgentID (ac_ID ac) := ac]> m) m agents !! id = Some agent ->
  NormalizeAgentID (ac_ID agent) = id.
Proof.
  revert m. induction agents as [|ac agents IH]; intros m Hm; cbn; [apply Hm|]. apply IH.
  intros id' agent' [[<- <-]|[_ Hl]]%lookup_insert_Some; [done|]. by apply Hm.
Qed.

Lemma registry_nonempty cfg : NewAgentRegistry cfg <> ∅.
Proof.
  unfold NewAgentRegistry. destruct (cfg_List cfg) as [|ac agents]; [apply map_non_empty_singleton|].
  intros E. assert (is_Some ((∅ : gmap string AgentConfig) !! NormalizeAgentID (ac_ID ac))) as [? Hs].
  { rewrite <-E. apply registry_fold. right. exists ac. split; [by left|done]. }
  by rewrite lookup_empty in Hs.
Qed.

Lemma TrimSpace_NormalizeAgentID a : TrimSpace (NormalizeAgentID a) = NormalizeAgentID a.
Proof. apply TrimSpace_id_bytes, id_normal_bytes, NormalizeAgentID_normal. Qed.

(** Identifiers whose normal form does not begin with an underscore: the form
    the comment on [NormalizeAgentID] promises for all of them. *)
Definition plain_ids (cfg : Config) : bool :=
  forallb (fun a => negb (HasPrefix (NormalizeAgentID (ac_ID a)) "_")) (cfg_List cfg).

Lemma NormalizeAgentID_trim id : NormalizeAgentID (TrimSpace id) = NormalizeAgentID id.
Proof. unfold NormalizeAgentID. by rewrite TrimSpace_idemp. Qed.

(** The default agent's identifier is one of those configured. *)
Lemma default_configured cfg :
  cfg_List cfg <> [] -> exists a, a ∈ cfg_List cfg /\ NormalizeAgentID (ac_ID a) = resolveDefaultAgentID cfg.
Proof.
  unfold resolveDefaultAgentID. destruct (cfg_List cfg) as [|first agents]; [done|]. intros _.
  destruct (List.find _ _) as [a|] eqn:E.
  - apply List.find_some in E as [Hin _]. exists a. split; [by apply list_elem_of_In|]. by rewrite NormalizeAgentID_trim.
  - exists first. split; [by left|]. rewrite NormalizeAgentID_trim. case_bool_decide as Hb; [|done].
    unfold NormalizeAgentID. by rewrite Hb.
Qed.

Lemma default_stable cfg :
  cfg_List cfg <> [] -> plain_ids cfg = true ->
  NormalizeAgentID (resolveDefaultAgentID cfg) = resolveDefaultAgentID cfg.
Proof.
  intros Hne Hp. destruct (default_configured cfg Hne) as (a & Ha & <-). apply NormalizeAgentID_idemp.
  unfold plain_ids in Hp. rewrite forallb_forall in Hp. apply negb_true_iff, Hp. by apply list_elem_of_In.
Qed.

Lemma pick_configured cfg target :
  cfg_List cfg <> [] -> plain_ids cfg = true ->
  exists a, a ∈ cfg_List cfg /\ NormalizeAgentID (ac_ID a) = pickAgentID cfg target.
Proof.
  intros Hne Hp. unfold pickAgentID. rewrite default_stable by done.
  case_bool_decide; [by apply default_configured|].
  destruct (cfg_List cfg) as [|first agents] eqn:Hl; [done|]. rewrite <-Hl in *.
  destruct (existsb _ _) eqn:E; [|by apply default_configured].
  apply existsb_exists in E as (a & Hin & Hd). bprop. exists a. split; [by apply list_elem_of_In|done].
Qed.

Lemma pick_stable cfg target :
  cfg_List cfg <> [] -> plain_ids cfg = true ->
  NormalizeAgentID (pickAgentID cfg target) = pickAgentID cfg target.
Proof.
  intros Hne Hp. destruct (pick_configured cfg target Hne Hp) as (a & Ha & <-). apply NormalizeAgentID_idemp.
  unfold plain_ids in Hp. rewrite forallb_forall in Hp. apply negb_true_iff, Hp. by apply list_elem_of_In.
Qed.

Lemma ResolveRoute_picks iteration cfg inbound :
  exists target, rr_AgentID (ResolveRoute iteration cfg inbound) = pickAgentID cfg target.
Proof. unfold ResolveRoute. destruct (matchDispatchRule _ _); by eexists. Qed.

(** Whatever the dispatch rules name and whatever message arrives, the
    route ends at an agent of the configuration: the identifier it carries is
    a key of the registry, the instance found under it is the one that answers,
    and its configured identifier normalizes to the routed one. *)
Theorem route_agent_registered iteration any cfg inbound :
  cfg_List cfg <> [] -> plain_ids cfg = true ->
  let route := ResolveRoute iteration cfg inbound in
  exists agent,
    resolveMessageRoute iteration any cfg inbound = Ok (route, agent)
    /\ NewAgentRegistry cfg !! rr_AgentID route = Some agent
    /\ NormalizeAgentID (ac_ID agent) = rr_AgentID route.
Proof.
  intros Hne Hp route. destruct (ResolveRoute_picks iteration cfg inbound) as [target Ht]. fold route in Ht.
  assert (is_Some (NewAgentRegistry cfg !! rr_AgentID route)) as [agent Hagent].
  { unfold NewAgentRegistry. destruct (cfg_List cfg) eqn:El; [done|]. rewrite <-El in *.
    apply registry_fold. right. rewrite Ht. by apply pick_configured. }
  exists agent. split; [|split; [done|]].
  - unfold resolveMessageRoute, GetAgent. fold route. rewrite Ht, pick_stable, <-Ht, Hagent by done. done.
  - revert Hagent. unfold NewAgentRegistry. destruct (cfg_List cfg); [done|]. apply registry_fold_id.
    intros ? ? Hl. by rewrite lookup_empty in Hl.
Qed.

(** Every message is answered by some agent, whatever the configuration, when
    a loop over a registry that is not empty finds an entry. *)
Lemma route_answered iteration any cfg inbound :
  (forall agents : gmap string AgentConfig, agents <> ∅ -> exists id, any agents = Some id /\ is_Some (agents !! id)) ->
  exists agent, resolveMessageRoute iteration any cfg inbound = Ok (ResolveRoute iteration cfg inbound, agent).
Proof.
  intros Hany. unfold resolveMessageRoute. destruct (GetAgent _ _) as [agent|]; [by exists agent|].
  unfold GetDefaultAgent. destruct (Hany _ (registry_nonempty cfg)) as (id & Hid & agent & Hagent).
  rewrite Hid. cbn. rewrite Hagent. case_bool_decide; [by eexists|].
  destruct (NewAgentRegistry cfg !! defaultAgentIDLocked _ _ _); by eexists.
Qed.

(** ** Dispatch rules *)

(** A text field of a selector: blank, or equal to the message's. *)
Definition field_ok (want have : string) : Prop := want = "" \/ want = have.

(** A rule applies: it constrains something, every field it fills in agrees,
    and the account is the selector's, a blank selector meaning [default]. *)
Definition selects (selector : DispatchSelector) (view : dispatchView) : Prop :=
  selectorHasAnyConstraint selector = true
  /\ field_ok (lower (TrimSpace (ds_Channel selector))) (dv_Channel view)
  /\ NormalizeAccountID (ds_Account selector) = dv_Account view
  /\ field_ok (lower (TrimSpace (ds_Space selector))) (dv_Space view)
  /\ field_ok (lower (TrimSpace (ds_Chat selector))) (dv_Chat view)
  /\ field_ok (lower (TrimSpace (ds_Topic selector))) (dv_Topic view)
  /\ field_ok (lower (TrimSpace (ds_Sender selector))) (dv_Sender view)
  /\ (forall mentioned, ds_Mentioned selector = Some mentioned -> mentioned = dv_Mentioned view).

Lemma field_ok_test want have :
  negb (bool_decide (want = "")) && negb (bool_decide (want = have)) = false <-> field_ok want have.
Proof. unfold field_ok. repeat case_bool_decide; cbn; intuition congruence. Qed.

Lemma guard_false (b c : bool) : (if b then false else c) = true <-> b = false /\ c = true.
Proof. destruct b; intuition congruence. Qed.

Lemma selects_spec rule view :
  selectorHasAnyConstraint (dr_When rule) && ruleMatchesView rule view = true <-> selects (dr_When rule) view.
Proof.
  unfold ruleMatchesView, selects. rewrite andb_true_iff, !guard_false. cbn [ds_Channel ds_Account ds_Space ds_Chat
    ds_Topic ds_Sender ds_Mentioned normalizeDispatchSelector]. rewrite !field_ok_test.
  assert (field_ok (NormalizeAccountID (ds_Account (dr_When rule))) (dv_Account view)
          <-> NormalizeAccountID (ds_Account (dr_When rule)) = dv_Account view) as ->.
  { unfold field_ok. destruct (id_normal_bytes _ (NormalizeAccountID_normal (ds_Account (dr_When rule)))). tauto. }
  assert (match ds_Mentioned (dr_When rule) with Some m => eqb m (dv_Mentioned view) | None => true end = true
          <-> forall m, ds_Mentioned (dr_When rule) = Some m -> m = dv_Mentioned view) as ->; [|tauto].
  destruct (ds_Mentioned (dr_When rule)) as [m|]; [|by split].
  rewrite eqb_true_iff. split; [intros -> ? [= <-]; done|auto].
Qed.

Lemma find_split {A} (f : A -> bool) l :
  match List.find f l with
  | Some x => exists pre post, l = (pre ++ x :: post)%list /\ f x = true /\ Forall (fun y => f y = false) pre
  | None => Forall (fun y => f y = false) l
  end.
Proof.
  induction l as [|x l IH]; cbn; [constructor|]. destruct (f x) eqn:E.
  - exists [], l. by repeat split.
  - destruct (List.find f l) as [y|].
    + destruct IH as (pre & post & -> & Hy & Hpre). exists (x :: pre), post. repeat split; [done|]. by constructor.
    + by constructor.
Qed.

Lemma matchDispatchRule_spec cfg view :
  match matchDispatchRule cfg view with
  | Some rule => exists pre post, default [] (cfg_Dispatch cfg) = (pre ++ rule :: post)%list
      /\ selects (dr_When rule) view /\ Forall (fun earlier => ~ selects (dr_When earlier) view) pre
  | None => Forall (fun rule => ~ selects (dr_When rule) view) (default [] (cfg_Dispatch cfg))
  end.
Proof.
  assert (forall l, Forall (fun r => selectorHasAnyConstraint (dr_When r) && ruleMatchesView r view = false) l ->
                    Forall (fun r => ~ selects (dr_When r) view) l) as Hnot.
  { intros l Hl. eapply Forall_impl; [exact Hl|]. intros r Hr Hs. apply selects_spec in Hs. congruence. }
  unfold matchDispatchRule. destruct (cfg_Dispatch cfg) as [l|]; [|constructor].
  pose proof (find_split (fun r => selectorHasAnyConstraint (dr_When r) && ruleMatchesView r view) l) as Hf.
  destruct (List.find _ l) as [rule|]; [|by apply Hnot].
  destruct Hf as (pre & post & -> & Hr & Hpre). exists pre, post.
  split; [done|split; [by apply selects_spec|by apply Hnot]].
Qed.

(** The first rule that applies decides: the route takes its agent, its
    session dimensions and its name, and every rule before it does not apply;
    the default agent and the global dimensions are used exactly when no rule
    applies. *)
Theorem route_first_match iteration cfg inbound :
  let view := buildDispatchView inbound (iteration (cfg_IdentityLinks cfg)) in
  let rules := default [] (cfg_Dispatch cfg) in
  let route := ResolveRoute iteration cfg inbound in
  (exists pre rule post,
     rules = (pre ++ rule :: post)%list /\ selects (dr_When rule) view
     /\ Forall (fun earlier => ~ selects (dr_When earlier) view) pre
     /\ rr_AgentID route = pickAgentID cfg (dr_Agent rule)
     /\ rr_SessionPolicy route = sessionPolicy cfg (Some rule)
     /\ rr_MatchedBy route = matchedByForRule (Some rule))
  \/ (Forall (fun rule => ~ selects (dr_When rule) view) rules
      /\ rr_AgentID route = pickAgentID cfg (resolveDefaultAgentID cfg)
      /\ rr_SessionPolicy route = sessionPolicy cfg None
      /\ rr_MatchedBy route = "default").
Proof.
  intros view rules route. unfold route, ResolveRoute. fold view.
  pose proof (matchDispatchRule_spec cfg view) as Hm. destruct (matchDispatchRule cfg view) as [rule|].
  - left. destruct Hm as (pre & post & Hl & Hs & Hpre). by exists pre, rule, post.
  - right. by repeat split.
Qed.

(** A rule that names no account applies to the default account only:
    with no accounts in any selector, every message on another account goes to
    the default agent, whatever channel, chat or sender the rules name. *)
Theorem route_account_gap iteration cfg inbound :
  Forall (fun rule => TrimSpace (ds_Account (dr_When rule)) = "") (default [] (cfg_Dispatch cfg)) ->
  NormalizeAccountID (in_Account inbound) <> DefaultAccountID ->
  rr_MatchedBy (ResolveRoute iteration cfg inbound) = "default"
  /\ rr_AgentID (ResolveRoute iteration cfg inbound) = pickAgentID cfg (resolveDefaultAgentID cfg).
Proof.
  intros Hblank Hacc. unfold ResolveRoute.
  pose proof (matchDispatchRule_spec cfg (buildDispatchView inbound (iteration (cfg_IdentityLinks cfg)))) as Hm.
  destruct (matchDispatchRule _ _) as [rule|]; [exfalso|done]. destruct Hm as (pre & post & Hl & Hs & _).
  rewrite Hl, Forall_app, Forall_cons in Hblank. destruct Hblank as (_ & Hblank & _).
  destruct Hs as (_ & _ & Ha & _). cbn in Ha. unfold NormalizeAccountID at 1 in Ha. rewrite Hblank in Ha.
  by destruct Hacc.
Qed.

(** ** Identity links *)

(** Every entry that names the peer stands for one and the same identity. *)
Definition unambiguous (links : gmap string (list string)) (channel peerID : string) : Prop :=
  forall e1 e2, e1 ∈ map_to_list links -> e2 ∈ map_to_list links ->
    link_matches (link_candidates channel (TrimSpace peerID)) e1 = true ->
    link_matches (link_candidates channel (TrimSpace peerID)) e2 = true -> TrimSpace e1.1 = TrimSpace e2.1.

(** The identity a loop finds is that of some entry that matches. *)
Lemma resolveLinked_found order channel peerID e :
  TrimSpace peerID <> "" -> e ∈ order -> link_matches (link_candidates channel (TrimSpace peerID)) e = true ->
  exists e', e' ∈ order /\ link_matches (link_candidates channel (TrimSpace peerID)) e' = true
    /\ resolveLinkedDispatchID order channel peerID = TrimSpace e'.1.
Proof.
  intros Hp Hin He. unfold resolveLinkedDispatchID. rewrite bool_decide_eq_false_2 by done.
  destruct order as [|x order]; [by apply not_elem_of_nil in Hin|].
  destruct (List.find _ (x :: order)) as [[k ids]|] eqn:E.
  - apply List.find_some in E as [Hk Hm]. exists (k, ids). split; [by apply list_elem_of_In|done].
  - apply list_elem_of_In in Hin. by rewrite (List.find_none _ _ E e Hin) in He.
Qed.

Lemma resolveLinked_none order channel peerID :
  (forall e, e ∈ order -> link_matches (link_candidates channel (TrimSpace peerID)) e = false) ->
  resolveLinkedDispatchID order channel peerID = "".
Proof.
  intros Hno. unfold resolveLinkedDispatchID. destruct order as [|x order]; [done|]. case_bool_decide; [done|].
  destruct (List.find _ (x :: order)) as [[k ids]|] eqn:E; [|done].
  apply List.find_some in E as [Hk Hm]. apply list_elem_of_In in Hk. by rewrite Hno in Hm.
Qed.

Lemma resolveLinked_first order channel peerID e :
  TrimSpace peerID <> "" -> link_matches (link_candidates channel (TrimSpace peerID)) e = true ->
  resolveLinkedDispatchID (e :: order) channel peerID = TrimSpace e.1.
Proof.
  intros Hp He. unfold resolveLinkedDispatchID. rewrite bool_decide_eq_false_2 by done. cbn. rewrite He. by destruct e.
Qed.

(** A sender resolves to the same identity in whichever order the run
    visits the identity links, exactly when all the entries that list the
    sender, by any of its names, stand for one identity. *)
Theorem route_links_deterministic links channel peerID :
  TrimSpace peerID <> "" ->
  unambiguous links channel peerID
  <-> forall order1 order2, order1 ≡ₚ map_to_list links -> order2 ≡ₚ map_to_list links ->
        resolveLinkedDispatchID order1 channel peerID = resolveLinkedDispatchID order2 channel peerID.
Proof.
  intros Hp. set (m := link_matches (link_candidates channel (TrimSpace peerID))). split.
  - intros Hu o1 o2 H1 H2. destruct (decide (Exists (fun e => m e = true) o1)) as [Hex|Hno].
    + apply Exists_exists in Hex as (e & Hin & He).
      assert (e ∈ o2) as Hin2 by (by rewrite H2, <-H1).
      destruct (resolveLinked_found o1 channel peerID e Hp Hin He) as (e1 & Hi1 & Hm1 & ->).
      destruct (resolveLinked_found o2 channel peerID e Hp Hin2 He) as (e2 & Hi2 & Hm2 & ->).
      apply Hu; [by rewrite <-H1|by rewrite <-H2|done|done].
    + assert (forall e, e ∈ map_to_list links -> m e = false) as Hnone.
      { intros e He. apply not_true_is_false. intros Hm. apply Hno, Exists_exists. exists e. by rewrite H1. }
      rewrite !resolveLinked_none; [done| |]; intros e He; apply Hnone; [by rewrite <-H2|by rewrite <-H1].
  - intros Hall e1 e2 Hin1 Hin2 Hm1 Hm2.
    apply elem_of_Permutation in Hin1 as [l1 Hl1]. apply elem_of_Permutation in Hin2 as [l2 Hl2].
    rewrite <-(resolveLinked_first l1 channel peerID e1), <-(resolveLinked_first l2 channel peerID e2) by done.
    apply Hall; by symmetry.
Qed.

End routing.

(** ** A concrete configuration *)

#[local] Existing Instance ascii_case_map.

Definition ex_agent (id : string) (is_default : bool) : AgentConfig :=
  {| ac_ID := id; ac_Default := is_default; ac_Subagents := None |}.

Definition ex_selector (channel chat sender : string) : DispatchSelector :=
  {| ds_Channel := channel; ds_Account := ""; ds_Space := ""; ds_Chat := chat; ds_Topic := ""; ds_Sender := sender;
     ds_Mentioned := None |}.

(** The example of docs/guides/routing-guide.md, with a sender linked over two
    channels. *)
Definition ex_config : Config :=
  {| cfg_List := [ex_agent "main" true; ex_agent "Support" false; ex_agent "sales" false];
     cfg_Dispatch := Some [
       {| dr_Name := "VIP in support group"; dr_Agent := "sales";
          dr_When := ex_selector "telegram" "group:-1001234567890" "john"; dr_SessionDimensions := ["chat"; "sender"] |};
       {| dr_Name := "support group"; dr_Agent := "support";
          dr_When := ex_selector "telegram" "group:-1001234567890" ""; dr_SessionDimensions := ["chat"] |}];
     cfg_Dimensions := ["Sender"; "chat "; "chat"; "other"];
     cfg_IdentityLinks := {["John" := ["telegram:12345"; "slack:U1"]]} |}.

Definition ex_inbound (account sender : string) : InboundContext :=
  {| in_Channel := " Telegram"; in_Account := account; in_ChatID := "-1001234567890"; in_ChatType := "group";
     in_TopicID := ""; in_SpaceID := ""; in_SpaceType := ""; in_SenderID := sender; in_Mentioned := false |}.

Example ex_routes :
  (fun sender => let route := ResolveRoute map_to_list ex_config (ex_inbound "" sender) in
                 (rr_AgentID route, sp_Dimensions (rr_SessionPolicy route), rr_MatchedBy route)) <$> ["12345"; "777"]
  = [("sales", ["chat"; "sender"], "dispatch.rule:vip in support group");
     ("support", ["chat"], "dispatch.rule:support group")].
Proof. vm_compute. reflexivity. Qed.

Lemma route_agent_registered_witness :
  exists agent,
    resolveMessageRoute map_to_list (fun _ => None) ex_config (ex_inbound "" "777")
      = Ok (ResolveRoute map_to_list ex_config (ex_inbound "" "777"), agent)
    /\ NewAgentRegistry ex_config !! rr_AgentID (ResolveRoute map_to_list ex_config (ex_inbound "" "777")) = Some agent
    /\ NormalizeAgentID (ac_ID agent) = rr_AgentID (ResolveRoute map_to_list ex_config (ex_inbound "" "777")).
Proof.
  apply (route_agent_registered map_to_list (fun _ => None) ex_config (ex_inbound "" "777")); [discriminate|].
  vm_compute. reflexivity.
Defined.

(** The same message on the account [bot2]: no rule applies. *)
Lemma route_account_gap_witness :
  rr_MatchedBy (ResolveRoute map_to_list ex_config (ex_inbound "bot2" "12345")) = "default"
  /\ rr_AgentID (ResolveRoute map_to_list ex_config (ex_inbound "bot2" "12345"))
     = pickAgentID ex_config (resolveDefaultAgentID ex_config).
Proof.
  apply route_account_gap; [|vm_compute; discriminate].
  apply Forall_forall. intros rule Hr. cbn in Hr. rewrite !elem_of_cons in Hr.
  destruct Hr as [->|[->|Hr]]; [reflexivity|reflexivity|]. by apply not_elem_of_nil in Hr.
Defined.

Lemma route_links_deterministic_witness :
  unambiguous (cfg_IdentityLinks ex_config) "telegram" "12345"
  /\ resolveLinkedDispatchID (map_to_list (cfg_IdentityLinks ex_config)) "telegram" "12345" = "John".
Proof.
  split; [|vm_compute; reflexivity].
  apply (route_links_deterministic (cfg_IdentityLinks ex_config) "telegram" "12345"); [vm_compute; discriminate|].
  intros o1 o2 H1 H2. unfold ex_config, cfg_IdentityLinks in H1, H2. rewrite map_to_list_singleton in H1, H2.
  apply Permutation_singleton_r in H1 as ->. apply Permutation_singleton_r in H2 as ->. reflexivity.
Defined.

(** Two people share a bare number: whose messages these are depends on the
    order of the map. *)
Example links_ambiguous :
  resolveLinkedDispatchID [("ann", ["telegram:12345"]); ("bob", ["12345"])] "telegram" "12345" = "ann"
  /\ resolveLinkedDispatchID [("bob", ["12345"]); ("ann", ["telegram:12345"])] "telegram" "12345" = "bob".
Proof. vm_compute. by split. Qed.

(** An identifier with an underscore in front, cut after a dash. *)
Definition ex_long_id : string := "_23456789012345678901234567890123456789012345678901234567890123-x".

(** The normalization of identifiers is not idempotent: a single agent
    whose identifier begins with an underscore and is cut behind a dash is
    registered under one name and routed to under another, which is no key of
    the registry, although the comment promises a first letter or digit. *)
Theorem route_underscore_lost :
  let cfg := {| cfg_List := [ex_agent ex_long_id true]; cfg_Dispatch := None; cfg_Dimensions := [];
                cfg_IdentityLinks := ∅ |} in
  let route := ResolveRoute map_to_list cfg (ex_inbound "" "777") in
  NewAgentRegistry cfg !! rr_AgentID route = None
  /\ NormalizeAgentID (NormalizeAgentID ex_long_id) <> NormalizeAgentID ex_long_id
  /\ validIDRe (NormalizeAgentID ex_long_id) = false.
Proof. split; [|split]; vm_compute; [reflexivity|discriminate|reflexivity]. Qed.

End Routing.
