(* ===== verification/Session.v ===== *)
(** * Session keys (src/pkg/session/scope.go, key.go, allocator.go)

    A routed message is mapped onto a session: the scope it belongs to, under
    the dimensions of the route's policy, and the opaque key under which the
    conversation is stored, a digest of the scope's signature. The older keys
    of the form [agent:<id>:...] are kept as aliases. *)

From S2P Require Import Prelude GoLib GoText GoUnicode Routing.
#[local] Open Scope string_scope.
#[local] Open Scope N_scope.

Module Session.
Import Routing.

(** ** scope.go *)

Definition ScopeVersionV1 : Z := 1.

Record SessionScope := {
  sc_Version : Z;
  sc_AgentID : string;
  sc_Channel : string;
  sc_Account : string;
  sc_Dimensions : list string;
  sc_Values : gmap string string
}.

(** ** key.go *)

Definition sessionKeyV1Prefix : string := "sk_v1_".
Definition legacyAgentSessionKeyPrefix : string := "agent:".

Record ParsedLegacySessionKey := { pl_AgentID : string; pl_Rest : string }.

Section session.
Context `{CaseMap} (Sum256 : string -> string).

Definition BuildOpaqueSessionKey (alias : string) : string :=
  let normalized := TrimSpace (lower alias) in
  if bool_decide (normalized = "") then "" else
  sessionKeyV1Prefix +:+ hex_EncodeToString (Sum256 normalized).

Definition IsOpaqueSessionKey (key : string) : bool := HasPrefix (lower (TrimSpace key)) sessionKeyV1Prefix.
Definition IsLegacyAgentSessionKey (key : string) : bool := HasPrefix (lower (TrimSpace key)) legacyAgentSessionKeyPrefix.
Definition IsExplicitSessionKey (key : string) : bool := IsOpaqueSessionKey key || IsLegacyAgentSessionKey key.

(** [strings.SplitN(raw, ":", 3)] yields three parts when two cuts succeed. *)
Definition ParseLegacyAgentSessionKey (sessionKey : string) : option ParsedLegacySessionKey :=
  let raw := TrimSpace sessionKey in
  if bool_decide (raw = "") then None else
  match CutByte 58 raw with
  | None => None
  | Some (part0, tail) =>
      match CutByte 58 tail with
      | None => None
      | Some (part1, rest) =>
          if negb (bool_decide (part0 = "agent")) then None else
          let agentID := TrimSpace part1 in
          if bool_decide (agentID = "") || bool_decide (rest = "") then None else
          Some {| pl_AgentID := agentID; pl_Rest := rest |}
      end
  end.

(** [store] answers [GetSessionScope], when it can. *)
Definition ResolveAgentID (store : option (string -> option SessionScope)) (sessionKey : string) : string :=
  let scope := store ≫= fun GetSessionScope => GetSessionScope sessionKey in
  let legacy := match ParseLegacyAgentSessionKey sessionKey with
                | Some parsed => NormalizeAgentID (pl_AgentID parsed)
                | None => ""
                end in
  match scope with
  | Some scope => if bool_decide (TrimSpace (sc_AgentID scope) = "") then legacy else NormalizeAgentID (sc_AgentID scope)
  | None => legacy
  end.

Definition BuildLegacyMainAlias (agentID : string) : string := "agent:" +:+ NormalizeAgentID agentID +:+ ":main".

Definition BuildMainSessionKey (agentID : string) : string := BuildOpaqueSessionKey (BuildLegacyMainAlias agentID).

Definition normalizeLegacyChannel (channel : string) : string :=
  let channel := lower (TrimSpace channel) in
  if bool_decide (channel = "") then "unknown" else channel.

Definition BuildLegacyDirectAliases (agentID channel account peerID : string) : list string :=
  let agentID := NormalizeAgentID agentID in
  let channel := normalizeLegacyChannel channel in
  let account := NormalizeAccountID account in
  let peerID := lower (TrimSpace peerID) in
  if bool_decide (peerID = "") then [] else
  ["agent:" +:+ agentID +:+ ":direct:" +:+ peerID;
   "agent:" +:+ agentID +:+ ":" +:+ channel +:+ ":direct:" +:+ peerID;
   "agent:" +:+ agentID +:+ ":" +:+ channel +:+ ":" +:+ account +:+ ":direct:" +:+ peerID].

Definition BuildLegacyPeerAlias (agentID channel peerKind peerID : string) : string :=
  let agentID := NormalizeAgentID agentID in
  let channel := normalizeLegacyChannel channel in
  let peerKind := lower (TrimSpace peerKind) in
  let peerKind := if bool_decide (peerKind = "") then "unknown" else peerKind in
  let peerID := lower (TrimSpace peerID) in
  let peerID := if bool_decide (peerID = "") then "unknown" else peerID in
  "agent:" +:+ agentID +:+ ":" +:+ channel +:+ ":" +:+ peerKind +:+ ":" +:+ peerID.

(** The same loop as [resolveLinkedDispatchID], in this package. *)
Definition resolveLinkedPeerID (identityLinks : list (string * list string)) (channel peerID : string) : string :=
  match identityLinks with
  | [] => ""
  | _ =>
      let peerID := TrimSpace peerID in
      if bool_decide (peerID = "") then "" else
      match List.find (link_matches (link_candidates channel peerID)) identityLinks with
      | Some (canonical, _) => TrimSpace canonical
      | None => ""
      end
  end.

Definition CanonicalSessionIdentityID (channel rawID : string) (identityLinks : list (string * list string)) : string :=
  let normalizedID := TrimSpace rawID in
  if bool_decide (normalizedID = "") then "" else
  let linked := resolveLinkedPeerID identityLinks channel normalizedID in
  if bool_decide (linked = "") then lower normalizedID else lower linked.

(** The parts of the signature that stand for the dimensions. *)
Definition dimension_parts (values : gmap string string) (dimensions : list string) : list string :=
  omap (fun dimension =>
    let dimension := TrimSpace (lower dimension) in
    if bool_decide (dimension = "") then None
    else Some (dimension +:+ "=" +:+ TrimSpace (lower (default "" (values !! dimension))))) dimensions.

Definition CanonicalScopeSignature (scope : SessionScope) : string :=
  Join (["v=" +:+ pretty (sc_Version scope);
         "agent=" +:+ TrimSpace (lower (sc_AgentID scope));
         "channel=" +:+ TrimSpace (lower (sc_Channel scope));
         "account=" +:+ TrimSpace (lower (sc_Account scope))]
        ++ dimension_parts (sc_Values scope) (sc_Dimensions scope))%list "|".

Definition BuildSessionKey (scope : SessionScope) : string := BuildOpaqueSessionKey (CanonicalScopeSignature scope).

(** ** allocator.go *)

Record Allocation := {
  al_Scope : SessionScope;
  al_SessionKey : string;
  al_SessionAliases : list string;
  al_MainSessionKey : string;
  al_MainAliases : list string
}.

(** [ai_Iteration] is the order in which the identity links are visited. *)
Record AllocationInput := {
  ai_AgentID : string;
  ai_Context : InboundContext;
  ai_SessionPolicy : SessionPolicy;
  ai_Iteration : gmap string (list string) -> list (string * list string)
}.

Definition ai_links (input : AllocationInput) : list (string * list string) :=
  ai_Iteration input (sp_IdentityLinks (ai_SessionPolicy input)).

Definition shouldPreserveTelegramForumIsolation (input : AllocationInput) : bool :=
  let inbound := ai_Context input in
  if negb (EqualFold (TrimSpace (in_Channel inbound)) "telegram") then false else
  if bool_decide (TrimSpace (in_TopicID inbound) = "") then false else
  negb (existsb (fun dimension => EqualFold (TrimSpace dimension) "topic") (sp_Dimensions (ai_SessionPolicy input))).

(** One turn of the loop over the policy's dimensions: the value it adds. *)
Definition dimension_value (input : AllocationInput) (dimension : string) : option string :=
  let inbound := ai_Context input in
  let optional value := if bool_decide (value = "") then None else Some value in
  if bool_decide (dimension = "space") then
    optional (typed_id (in_SpaceType inbound) "space" (in_SpaceID inbound))
  else if bool_decide (dimension = "chat") then
    let chatID := TrimSpace (in_ChatID inbound) in
    if bool_decide (chatID = "") then None else
    let topicID := TrimSpace (in_TopicID inbound) in
    let chatID := if shouldPreserveTelegramForumIsolation input && negb (bool_decide (topicID = ""))
                  then chatID +:+ "/" +:+ topicID else chatID in
    let chatType := lower (TrimSpace (in_ChatType inbound)) in
    Some ((if bool_decide (chatType = "") then "direct" else chatType) +:+ ":" +:+ lower chatID)
  else if bool_decide (dimension = "topic") then
    let topicID := TrimSpace (in_TopicID inbound) in
    if bool_decide (topicID = "") then None else Some ("topic:" +:+ lower topicID)
  else if bool_decide (dimension = "sender") then
    optional (CanonicalSessionIdentityID (in_Channel inbound) (in_SenderID inbound) (ai_links input))
  else None.

Fixpoint scope_loop (input : AllocationInput) (policy : list string) (dimensions : list string)
    (values : gmap string string) : list string * gmap string string :=
  match policy with
  | [] => (dimensions, values)
  | dimension :: policy =>
      match dimension_value input dimension with
      | Some value => scope_loop input policy (dimensions ++ [dimension])%list (<[dimension := value]> values)
      | None => scope_loop input policy dimensions values
      end
  end.

Definition buildSessionScope (input : AllocationInput) : SessionScope :=
  let inbound := ai_Context input in
  let channel := lower (TrimSpace (in_Channel inbound)) in
  let '(dimensions, values) := scope_loop input (sp_Dimensions (ai_SessionPolicy input)) [] ∅ in
  {| sc_Version := ScopeVersionV1;
     sc_AgentID := NormalizeAgentID (ai_AgentID input);
     sc_Channel := if bool_decide (channel = "") then "unknown" else channel;
     sc_Account := NormalizeAccountID (in_Account inbound);
     sc_Dimensions := dimensions;
     sc_Values := values |}.

(** The loop of [uniqueAliases], with the set of aliases seen. *)
Fixpoint unique_loop (seen : list string) (aliases : list string) : list string :=
  match aliases with
  | [] => []
  | alias :: aliases =>
      let alias := TrimSpace (lower alias) in
      if bool_decide (alias = "") then unique_loop seen aliases
      else if bool_decide (alias ∈ seen) then unique_loop seen aliases
      else alias :: unique_loop (alias :: seen) aliases
  end.
Definition uniqueAliases (aliases : list string) : list string := unique_loop [] aliases.

Definition buildLegacyDirectPeerIDs (input : AllocationInput) : list string :=
  let inbound := ai_Context input in
  let rawSenderID := TrimSpace (in_SenderID inbound) in
  let canonicalSenderID :=
    CanonicalSessionIdentityID (in_Channel inbound) (in_SenderID inbound) (ai_links input) in
  let chatID := TrimSpace (in_ChatID inbound) in
  uniqueAliases
    ((if bool_decide (rawSenderID = "") then [] else [lower rawSenderID])
     ++ (if bool_decide (canonicalSenderID = "") then [] else [canonicalSenderID])
     ++ (if bool_decide (chatID = "") then [] else [lower chatID]))%list.

Definition buildLegacySessionAliases (input : AllocationInput) : list string :=
  let inbound := ai_Context input in
  let aliases := [lower (BuildLegacyMainAlias (ai_AgentID input))] in
  if EqualFold (TrimSpace (in_ChatType inbound)) "direct" then
    uniqueAliases (aliases ++ flat_map (BuildLegacyDirectAliases (ai_AgentID input) (in_Channel inbound) (in_Account inbound))
                                (buildLegacyDirectPeerIDs input))%list
  else
    let peerID := TrimSpace (in_ChatID inbound) in
    if bool_decide (peerID = "") then uniqueAliases aliases else
    let topicID := TrimSpace (in_TopicID inbound) in
    let peerID := if bool_decide (topicID = "") then peerID else peerID +:+ "/" +:+ topicID in
    uniqueAliases (aliases ++ [BuildLegacyPeerAlias (ai_AgentID input) (in_Channel inbound)
                                 (lower (TrimSpace (in_ChatType inbound))) peerID])%list.

Definition AllocateRouteSession (input : AllocationInput) : Allocation :=
  let scope := buildSessionScope input in
  let legacyMainSessionKey := lower (BuildLegacyMainAlias (ai_AgentID input)) in
  {| al_Scope := scope;
     al_SessionKey := BuildSessionKey scope;
     al_SessionAliases := buildLegacySessionAliases input;
     al_MainSessionKey := BuildOpaqueSessionKey legacyMainSessionKey;
     al_MainAliases := [legacyMainSessionKey] |}.

(** [resolveScopeKey] of src/pkg/agent/agent_utils.go *)
Definition resolveScopeKey (routeSessionKey msgSessionKey : string) : string :=
  if IsExplicitSessionKey msgSessionKey then msgSessionKey else routeSessionKey.

(** ** Scopes *)

(** The value of a dimension is there exactly for the dimensions listed. *)
Lemma scope_loop_spec input policy dimensions values dimensions' values' :
  scope_loop input policy dimensions values = (dimensions', values') ->
  (forall d, values !! d = if bool_decide (d ∈ dimensions) then dimension_value input d else None) ->
  Forall (fun d => is_Some (dimension_value input d)) dimensions ->
  (forall d, values' !! d = if bool_decide (d ∈ dimensions') then dimension_value input d else None)
  /\ Forall (fun d => is_Some (dimension_value input d)) dimensions'.
Proof.
  revert dimensions values. induction policy as [|d policy IH]; intros dims vals; cbn.
  { by intros [= <- <-]. }
  destruct (dimension_value input d) as [v|] eqn:Hv; [|apply IH].
  intros E Hvals Hdims. apply (IH _ _ E).
  - intros d'. destruct (decide (d' = d)) as [->|Hne].
    + rewrite lookup_insert_eq, bool_decide_eq_true_2; [done|]. apply elem_of_app. right. by left.
    + rewrite lookup_insert_ne, Hvals by done. rewrite (bool_decide_ext (d' ∈ dims) (d' ∈ dims ++ [d])%list); [done|].
      rewrite elem_of_app, list_elem_of_singleton. naive_solver.
  - apply Forall_app. split; [done|]. by constructor.
Qed.

Lemma dimension_value_known input d : is_Some (dimension_value input d) -> d ∈ known_dimensions.
Proof.
  unfold dimension_value, known_dimensions. cbv zeta. repeat (case_bool_decide; [subst; set_solver|]). by intros [? ?].
Qed.

(** What the allocator makes of a message: the parts of its scope. *)
Record scope_ok (scope : SessionScope) : Prop := {
  so_Version : sc_Version scope = ScopeVersionV1;
  so_AgentID : id_normal (sc_AgentID scope) = true;
  so_Account : id_normal (sc_Account scope) = true;
  so_Dimensions : Forall (fun d => d ∈ known_dimensions) (sc_Dimensions scope);
  so_Values : forall d, is_Some (sc_Values scope !! d) <-> d ∈ sc_Dimensions scope
}.

Lemma buildSessionScope_ok input : scope_ok (buildSessionScope input).
Proof.
  unfold buildSessionScope. destruct (scope_loop _ _ _ _) as [dims vals] eqn:E.
  apply scope_loop_spec in E as [Hv Hd]; [|intros d; by rewrite lookup_empty|constructor].
  split; cbn; [done|apply NormalizeAgentID_normal|apply NormalizeAccountID_normal| |].
  - eapply Forall_impl; [exact Hd|]. apply dimension_value_known.
  - intros d. rewrite Hv. rewrite Forall_forall in Hd. case_bool_decide as Hin; [by split; [|intros; apply Hd]|].
    split; [by intros [? ?]|done].
Qed.

(** A text the signature carries as it is: in lower case, trimmed, without the
    bar that separates the parts. *)
Definition plain (v : string) : bool :=
  bool_decide (lower v = v) && bool_decide (TrimSpace v = v) && negb (ContainsByte v 124).

Definition scope_plain (scope : SessionScope) : bool :=
  plain (sc_Channel scope) && forallb (fun d => plain (default "" (sc_Values scope !! d))) (sc_Dimensions scope).

Lemma plain_spec v : plain v = true -> lower v = v /\ TrimSpace v = v /\ ContainsByte v 124 = false.
Proof. unfold plain. intros Hv. by bprop. Qed.

Lemma plain_id v : id_normal v = true -> plain v = true.
Proof.
  intros [_ Hb]%id_normal_bytes. unfold plain. rewrite lower_id_bytes, TrimSpace_id_bytes by done.
  rewrite !bool_decide_eq_true_2 by done. cbn. by rewrite (all_bytes_ContainsByte id_byte).
Qed.

(** The signature's parts as pairs of a name and a value. *)
Definition scope_pairs (scope : SessionScope) : list (string * string) :=
  ([("v", pretty (sc_Version scope)); ("agent", sc_AgentID scope); ("channel", sc_Channel scope);
    ("account", sc_Account scope)]
   ++ ((fun d => (d, default "" (sc_Values scope !! d))) <$> sc_Dimensions scope))%list.

Definition pair_part (kv : string * string) : string := kv.1 +:+ "=" +:+ kv.2.

Definition names : list string := ["v"; "agent"; "channel"; "account"; "space"; "chat"; "topic"; "sender"].

Lemma scope_pairs_plain scope :
  scope_ok scope -> scope_plain scope = true ->
  Forall (fun kv => kv.1 ∈ names /\ plain kv.2 = true) (scope_pairs scope).
Proof.
  intros [Hv Ha Hc Hd _] Hp. unfold scope_plain in Hp. apply andb_true_iff in Hp as [Hch Hvals].
  unfold scope_pairs. rewrite Hv. repeat (apply Forall_cons; split; [split; [cbn; set_solver|]|]).
  - vm_compute. reflexivity.
  - by apply plain_id.
  - done.
  - by apply plain_id.
  - apply Forall_map. rewrite forallb_forall in Hvals. apply Forall_forall. intros d Hin. cbn. split.
    + rewrite Forall_forall in Hd. specialize (Hd d Hin). unfold known_dimensions, names in *. set_solver.
    + apply Hvals. by apply list_elem_of_In.
Qed.

Lemma names_fixed d : d ∈ names -> lower d = d /\ TrimSpace d = d /\ is_ascii d = true /\ ContainsByte d 124 = false
  /\ ContainsByte d 61 = false /\ d <> "".
Proof.
  unfold names. rewrite !elem_of_cons, elem_of_nil.
  intros Hd. repeat (destruct Hd as [->|Hd]; [vm_compute; repeat split; done|]). done.
Qed.

(** The signature of such a scope is its parts joined, nothing altered. *)
Lemma signature_plain scope :
  scope_ok scope -> scope_plain scope = true ->
  CanonicalScopeSignature scope = Join (pair_part <$> scope_pairs scope) "|".
Proof.
  intros Hok Hp. pose proof (scope_pairs_plain scope Hok Hp) as Hall. unfold scope_pairs in Hall.
  rewrite Forall_app in Hall. destruct Hall as [H4 Hd]. rewrite !Forall_cons in H4.
  destruct H4 as (_ & [_ (Ha1 & Ha2 & _)%plain_spec] & [_ (Hc1 & Hc2 & _)%plain_spec]
                    & [_ (Hb1 & Hb2 & _)%plain_spec] & _).
  cbn [fst snd] in *. unfold CanonicalScopeSignature, scope_pairs. rewrite fmap_app.
  rewrite Ha1, Ha2, Hb1, Hb2, Hc1, Hc2. f_equal. rewrite !fmap_cons, fmap_nil. f_equal.
  clear -Hd. unfold dimension_parts. induction (sc_Dimensions scope) as [|d dims IH]; [done|].
  rewrite fmap_cons, Forall_cons in Hd. destruct Hd as [[Hn (Hv1 & Hv2 & _)%plain_spec] Hd]. cbn [fst snd] in *.
  apply names_fixed in Hn as (Hl & Ht & _ & _ & _ & Hne). rewrite !fmap_cons. cbn [omap list_omap].
  by rewrite Hl, Ht, bool_decide_eq_false_2, Hv1, Hv2, <-IH by done.
Qed.

Lemma pair_part_plain kv : kv.1 ∈ names -> plain kv.2 = true -> ContainsByte (pair_part kv) 124 = false.
Proof.
  intros (_ & _ & _ & Hk & _)%names_fixed (_ & _ & Hv)%plain_spec. unfold pair_part, ContainsByte in *.
  rewrite !negb_false_iff in *. rewrite !all_bytes_app, Hk, Hv. done.
Qed.

Lemma pair_part_inj kv kv' : kv.1 ∈ names -> kv'.1 ∈ names -> pair_part kv = pair_part kv' -> kv = kv'.
Proof.
  intros (_ & _ & _ & _ & Hk & _)%names_fixed (_ & _ & _ & _ & Hk' & _)%names_fixed E. unfold pair_part in E.
  apply (sep_split 61) in E as [E1 E2]; [|done..]. destruct kv, kv'. cbn in *. by subst.
Qed.

(** Scopes are told apart by the pairs their signatures are made of. *)
Lemma scope_pairs_inj s1 s2 : scope_ok s1 -> scope_ok s2 -> scope_pairs s1 = scope_pairs s2 -> s1 = s2.
Proof.
  intros [Hv1 _ _ _ Hd1] [Hv2 _ _ _ Hd2] E. unfold scope_pairs in E. cbn in E. injection E as _ Ea Ec Eacc Ed.
  assert (sc_Dimensions s1 = sc_Dimensions s2) as Edims.
  { apply (f_equal (fmap fst)) in Ed. rewrite <-!list_fmap_compose in Ed.
    unfold compose in Ed. cbn in Ed. by rewrite !list_fmap_id in Ed. }
  assert (sc_Values s1 = sc_Values s2) as Evals; [|destruct s1, s2; cbn in *; congruence].
  apply map_eq. intros d. rewrite <-Edims in Ed. destruct (decide (d ∈ sc_Dimensions s1)) as [Hin|Hout].
  - assert (is_Some (sc_Values s1 !! d)) as [x Hx] by (by apply Hd1).
    assert (is_Some (sc_Values s2 !! d)) as [y Hy] by (apply Hd2; by rewrite <-Edims).
    rewrite Hx, Hy. f_equal.
    assert (forall l : list string, d ∈ l -> (fun d => (d, default "" (sc_Values s1 !! d))) <$> l
                               = (fun d => (d, default "" (sc_Values s2 !! d))) <$> l -> x = y) as Hl.
    { intros l. induction l as [|e l IH]; [by intros ?%not_elem_of_nil|]. rewrite !fmap_cons.
      intros [->|Hl]%elem_of_cons [= E1 E2]; [|by apply IH]. by rewrite Hx, Hy in E1. }
    by apply (Hl (sc_Dimensions s1)).
  - destruct (sc_Values s1 !! d) eqn:E1; [by destruct Hout; apply Hd1; eexists|].
    destruct (sc_Values s2 !! d) eqn:E2; [|done]. destruct Hout. rewrite Edims. apply Hd2. by eexists.
Qed.

(** Joined parts end in the value of the last pair. *)
Lemma Join_pairs_tail kvs :
  kvs <> [] -> exists a kv, kv ∈ kvs /\ Join (pair_part <$> kvs) "|" = a +:+ "=" +:+ kv.2.
Proof.
  induction kvs as [|kv kvs IH]; [done|]. intros _. destruct kvs as [|kv' kvs].
  - exists kv.1, kv. split; [by left|done].
  - destruct IH as (a & last & Hin & E); [done|]. exists (pair_part kv +:+ "|" +:+ a), last. split; [by right|].
    rewrite fmap_cons, Join_cons by (by rewrite fmap_cons). by rewrite E, !append_assoc.
Qed.

Context `{!CaseMapLaws}.

Lemma lower_Join kvs :
  Forall (fun kv => kv.1 ∈ names /\ plain kv.2 = true) kvs ->
  lower (Join (pair_part <$> kvs) "|") = Join (pair_part <$> kvs) "|".
Proof.
  assert (forall kv, kv.1 ∈ names -> plain kv.2 = true -> lower (pair_part kv) = pair_part kv) as Hpart.
  { intros kv (Hl & _ & Ha & _)%names_fixed (Hv & _ & _)%plain_spec. unfold pair_part.
    rewrite lower_app_ascii, Hl, lower_app_ascii, Hv by done. done. }
  induction 1 as [|kv kvs [Hk Hv] Hkvs IH]; [done|]. rewrite fmap_cons.
  destruct kvs as [|kv' kvs]; [by apply Hpart|]. rewrite Join_cons by (by rewrite fmap_cons).
  etransitivity; [by apply (lower_split (pair_part kv) "|")|]. rewrite fmap_cons in IH |- *.
  etransitivity; [apply f_equal2; [by apply Hpart|apply f_equal; exact IH]|]. done.
Qed.

(** Normalizing the signature once more, as the key does, changes nothing. *)
Lemma signature_fixed scope :
  scope_ok scope -> scope_plain scope = true ->
  TrimSpace (lower (CanonicalScopeSignature scope)) = CanonicalScopeSignature scope.
Proof.
  intros Hok Hp. pose proof (scope_pairs_plain scope Hok Hp) as Hall. rewrite signature_plain, lower_Join by done.
  unfold scope_pairs in *. rewrite <-app_comm_cons, fmap_cons in *. apply Forall_cons in Hall as [_ Hall].
  destruct (Join_pairs_tail ([("agent", sc_AgentID scope); ("channel", sc_Channel scope); ("account", sc_Account scope)]
    ++ ((fun d => (d, default "" (sc_Values scope !! d))) <$> sc_Dimensions scope))%list) as (a & kv & Hin & E); [done|].
  rewrite Join_cons by done. rewrite E. rewrite Forall_forall in Hall.
  destruct (Hall _ Hin) as [_ (_ & Ht & _)%plain_spec]. unfold pair_part. cbn [fst snd].
  apply (TrimSpace_tail "v" ("=" +:+ pretty (sc_Version scope) +:+ "|" +:+ a) "=" kv.2) in Ht;
    [|vm_compute; reflexivity|vm_compute; reflexivity].
  rewrite !append_assoc in Ht. exact Ht.
Qed.

Lemma signature_nonempty scope : CanonicalScopeSignature scope <> "".
Proof. unfold CanonicalScopeSignature. by rewrite <-app_comm_cons, Join_cons. Qed.

Lemma session_key_plain scope :
  scope_ok scope -> scope_plain scope = true ->
  BuildSessionKey scope = sessionKeyV1Prefix +:+ hex_EncodeToString (Sum256 (CanonicalScopeSignature scope)).
Proof.
  intros Hok Hp. unfold BuildSessionKey, BuildOpaqueSessionKey.
  by rewrite signature_fixed, bool_decide_eq_false_2 by (done || apply signature_nonempty).
Qed.

(** C29: Two routed messages share a session only when they belong to the same
    scope: if the digest does not collide on the two signatures, equal session
    keys mean the same agent, channel, account, dimensions and values, as long
    as the channel and the values are in lower case, trimmed and without bars. *)
Theorem session_isolated input1 input2 :
  let scope1 := al_Scope (AllocateRouteSession input1) in
  let scope2 := al_Scope (AllocateRouteSession input2) in
  scope_plain scope1 = true -> scope_plain scope2 = true ->
  (Sum256 (CanonicalScopeSignature scope1) = Sum256 (CanonicalScopeSignature scope2) ->
   CanonicalScopeSignature scope1 = CanonicalScopeSignature scope2) ->
  al_SessionKey (AllocateRouteSession input1) = al_SessionKey (AllocateRouteSession input2) -> scope1 = scope2.
Proof.
  cbn [al_Scope al_SessionKey AllocateRouteSession]. intros Hp1 Hp2 Hcoll E.
  pose proof (buildSessionScope_ok input1) as Hok1. pose proof (buildSessionScope_ok input2) as Hok2.
  rewrite !session_key_plain in E by done. apply append_inj in E. apply (f_equal hex_DecodeString) in E.
  rewrite !hex_decode_encode in E. injection E as E. apply Hcoll in E.
  rewrite !signature_plain in E by done.
  pose proof (scope_pairs_plain _ Hok1 Hp1) as Hf1. pose proof (scope_pairs_plain _ Hok2 Hp2) as Hf2.
  apply scope_pairs_inj; [done..|]. apply (Join_inj 124) in E; [| |clear -Hf1|clear -Hf2|done..].
  - revert E Hf1 Hf2. generalize (scope_pairs (buildSessionScope input1)), (scope_pairs (buildSessionScope input2)).
    induction l as [|kv l IH]; intros [|kv' l']; rewrite ?fmap_cons; [done|done|done|].
    intros [= E1 E2] [[Hk _] H1]%Forall_cons [[Hk' _] H2]%Forall_cons. f_equal; [by apply pair_part_inj|by apply IH].
  - done.
  - apply Forall_map. eapply Forall_impl; [exact Hf1|]. intros kv [Hk Hv]. by apply pair_part_plain.
  - apply Forall_map. eapply Forall_impl; [exact Hf2|]. intros kv [Hk Hv]. by apply pair_part_plain.
Qed.

(** ** Legacy aliases *)

(** The shape of the aliases: behind the agent comes text that holds a byte no
    space contains, so that trimming leaves the agent's part alone. *)
Definition alias_form (n alias : string) : Prop :=
  exists a c t, alias = "agent:" +:+ n +:+ ":" +:+ a +:+ String c t /\ (c = ":"%char \/ c = "n"%char).

Lemma alias_parses n alias :
  id_normal n = true -> alias_form n alias ->
  exists rest, ParseLegacyAgentSessionKey (TrimSpace (lower alias)) = Some {| pl_AgentID := n; pl_Rest := rest |}.
Proof.
  intros [Hne Hb]%id_normal_bytes (a & c & t & -> & Hc).
  assert (byte_of c < 128 /\ lower_byte c = c
          /\ forallb (all_bytes (fun b => negb (b =? byte_of c))) space_encodings = true) as (Hc1 & Hc2 & Hc3)
    by (destruct Hc as [->| ->]; repeat split; vm_compute; reflexivity).
  assert (is_ascii n = true) as Ha.
  { eapply all_bytes_impl; [|exact Hb]. intros b Hbb. apply N.ltb_lt. by apply id_byte_lower. }
  rewrite !lower_app_ascii, lower_split, Hc2, (lower_id_bytes n) by done.
  destruct (TrimSpace_fence "a" ("gent:" +:+ n +:+ ":" +:+ lower a) c (lower t)) as [w Hw]; [vm_compute; reflexivity|done|].
  rewrite !append_assoc in Hw.
  assert (TrimSpace (lower "agent:" +:+ n +:+ lower ":" +:+ lower a +:+ String c (lower t))
          = "agent" +:+ String (of_byte 58) (n +:+ String (of_byte 58) (lower a +:+ String c w))) as Htrim.
  { change (lower "agent:") with "agent:". change (lower ":") with ":". etransitivity; [exact Hw|]. done. }
  unfold ParseLegacyAgentSessionKey. rewrite TrimSpace_idemp, Htrim. rewrite bool_decide_eq_false_2 by done.
  rewrite (CutByte_app is_lower) by done. rewrite (CutByte_app id_byte) by done.
  rewrite bool_decide_eq_true_2 by done. cbn [negb]. rewrite (TrimSpace_id_bytes n) by done.
  rewrite !bool_decide_eq_false_2; [by eexists|by destruct (lower a)|done].
Qed.

Lemma main_alias_form agentID :
  alias_form (NormalizeAgentID agentID) (lower (BuildLegacyMainAlias agentID)).
Proof.
  destruct (id_normal_bytes _ (NormalizeAgentID_normal agentID)) as [_ Hb].
  assert (is_ascii (NormalizeAgentID agentID) = true) as Ha.
  { eapply all_bytes_impl; [|exact Hb]. intros b Hbb. apply N.ltb_lt. by apply id_byte_lower. }
  unfold BuildLegacyMainAlias. rewrite !lower_app_ascii, (lower_id_bytes (NormalizeAgentID agentID)) by done.
  exists "mai", "n"%char, "". split; [reflexivity|by right].
Qed.

Lemma direct_alias_form agentID channel account peerID alias :
  alias ∈ BuildLegacyDirectAliases agentID channel account peerID -> alias_form (NormalizeAgentID agentID) alias.
Proof.
  unfold BuildLegacyDirectAliases. cbv zeta. case_bool_decide; [by intros ?%not_elem_of_nil|].
  set (peer := lower (TrimSpace peerID)). rewrite !elem_of_cons, elem_of_nil. intros [->|[->|[->|[]]]].
  - exists "direct", ":"%char, peer. split; [done|by left].
  - exists (normalizeLegacyChannel channel), ":"%char, ("direct:" +:+ peer). split; [done|by left].
  - exists (normalizeLegacyChannel channel), ":"%char, (NormalizeAccountID account +:+ ":direct:" +:+ peer).
    split; [done|by left].
Qed.

Lemma peer_alias_form agentID channel peerKind peerID :
  alias_form (NormalizeAgentID agentID) (BuildLegacyPeerAlias agentID channel peerKind peerID).
Proof.
  unfold BuildLegacyPeerAlias. cbv zeta. eexists (normalizeLegacyChannel channel), ":"%char, _.
  split; [reflexivity|by left].
Qed.

Lemma unique_loop_elem seen aliases alias :
  alias ∈ unique_loop seen aliases -> exists a, a ∈ aliases /\ alias = TrimSpace (lower a).
Proof.
  revert seen. induction aliases as [|a aliases IH]; intros seen; cbn; [by intros ?%not_elem_of_nil|].
  intros Hin. assert (alias = TrimSpace (lower a) \/ exists seen, alias ∈ unique_loop seen aliases) as [->|[seen' Hs]].
  { repeat case_bool_decide; [by right; eexists..|]. apply elem_of_cons in Hin as [->|Hin]; [by left|by right; eexists]. }
  - exists a. split; [by left|done].
  - destruct (IH _ Hs) as (b & Hb & ->). exists b. split; [by right|done].
Qed.

(** Every alias kept for a routed message names the routed agent: parsing
    it as a legacy session key gives back the normalized identifier, whatever
    text the channel, account, chat and sender hold. *)
Theorem session_alias_agent input alias :
  alias ∈ al_SessionAliases (AllocateRouteSession input) ->
  exists rest, ParseLegacyAgentSessionKey alias
    = Some {| pl_AgentID := NormalizeAgentID (ai_AgentID input); pl_Rest := rest |}.
Proof.
  cbn [al_SessionAliases AllocateRouteSession]. intros Hin.
  assert (exists a, alias_form (NormalizeAgentID (ai_AgentID input)) a /\ alias = TrimSpace (lower a)) as (a & Ha & ->).
  { revert Hin. unfold buildLegacySessionAliases, uniqueAliases. cbv zeta.
    pose proof (main_alias_form (ai_AgentID input)) as Hmain.
    repeat case_match; intros (a & Ha & ->)%unique_loop_elem; exists a; (split; [|done]); cbn in Ha;
      rewrite ?elem_of_cons, ?elem_of_nil in Ha; destruct Ha as [->|Ha]; try done.
    - apply list_elem_of_In, in_flat_map in Ha as (peer & _ & Ha%list_elem_of_In). by eapply direct_alias_form.
    - destruct Ha as [->|[]]. apply peer_alias_form.
    - destruct Ha as [->|[]]. apply peer_alias_form. }
  apply alias_parses; [apply NormalizeAgentID_normal|done].
Qed.

End session.

(** ** Concrete sessions *)

#[local] Existing Instance ascii_case_map.
#[local] Existing Instance ascii_case_map_laws.

Definition ex_input (chat sender : string) : AllocationInput :=
  {| ai_AgentID := "Main";
     ai_Context := {| in_Channel := "IRC"; in_Account := ""; in_ChatID := chat; in_ChatType := "group"; in_TopicID := "";
                      in_SpaceID := ""; in_SpaceType := ""; in_SenderID := sender; in_Mentioned := false |};
     ai_SessionPolicy := {| sp_Dimensions := ["chat"; "sender"]; sp_IdentityLinks := {["ann" := ["irc:ann_"]]} |};
     ai_Iteration := map_to_list |}.

Example ex_signature :
  CanonicalScopeSignature (buildSessionScope (ex_input "#Fox" "Ann_"))
  = "v=1|agent=main|channel=irc|account=default|chat=group:#fox|sender=ann".
Proof. vm_compute. reflexivity. Qed.

(** The two names of one sender share the session. *)
Lemma session_isolated_witness :
  buildSessionScope (ex_input "#Fox" "Ann_") = buildSessionScope (ex_input " #fox" "ann").
Proof.
  apply (session_isolated id (ex_input "#Fox" "Ann_") (ex_input " #fox" "ann"));
    [vm_compute; reflexivity|vm_compute; reflexivity|intros E; exact E|vm_compute; reflexivity].
Defined.

Lemma session_alias_agent_witness :
  exists rest, ParseLegacyAgentSessionKey "agent:main:irc:group:#fox"
    = Some {| pl_AgentID := NormalizeAgentID "Main"; pl_Rest := rest |}.
Proof.
  apply (session_alias_agent id (ex_input "#Fox" "Ann_")).
  replace (al_SessionAliases (AllocateRouteSession id (ex_input "#Fox" "Ann_")))
    with ["agent:main:main"; "agent:main:irc:group:#fox"] by (vm_compute; reflexivity).
  right. left.
Defined.

(** A bar in a chat or sender name is not told apart from the bar between
    the parts of the signature: under every digest two different people in two
    different rooms, with a policy that separates both, get one session key. *)
Theorem session_bar_collision (Sum256 : string -> string) :
  let allocation1 := AllocateRouteSession Sum256 (ex_input "#fox" "b|sender=c") in
  let allocation2 := AllocateRouteSession Sum256 (ex_input "#fox|sender=b" "c") in
  al_SessionKey allocation1 = al_SessionKey allocation2 /\ al_Scope allocation1 <> al_Scope allocation2.
Proof. split; vm_compute; [reflexivity|discriminate]. Qed.

End Session.
