(* ===== verification/ModelRouter.v ===== *)
(** * Choosing the model of a turn (src/pkg/routing/features.go, classifier.go, router.go)

    With model routing enabled, every turn is scored by structural signals of
    the message and its history, and a score below the threshold sends it to
    the light model. Scores are IEEE 754 double-precision numbers, computed
    here with the Standard Library's [SpecFloat]. *)

From Stdlib Require Import SpecFloat.
From S2P Require Import Prelude GoLib GoText GoUnicode.
#[local] Open Scope string_scope.
#[local] Open Scope N_scope.

Module ModelRouter.

(** ** [float64] *)

Definition float64 := spec_float.
Definition float_add : float64 -> float64 -> float64 := SFadd 53 1024.
Definition float_lt (x y : float64) : bool := SFltb x y.
Definition float_le (x y : float64) : bool := SFleb x y.

(** The double nearest to a decimal [mantissa * 2^exponent]. *)
Definition finite (mantissa : positive) (exponent : Z) : float64 := S754_finite false mantissa exponent.

Definition zero : float64 := S754_zero false.
Definition one : float64 := finite 4503599627370496 (-52).
Definition c010 : float64 := finite 7205759403792794 (-56).
Definition c015 : float64 := finite 5404319552844595 (-55).
Definition c025 : float64 := finite 4503599627370496 (-54).
Definition c035 : float64 := finite 6305039478318694 (-54).
Definition c040 : float64 := finite 7205759403792794 (-54).

(** ** features.go *)

Definition lookbackWindow : nat := 6.

(** A message of the history, by the number of its tool calls. *)
Record Message := { msg_ToolCalls : nat }.

Record Features := {
  TokenEstimate : nat;
  CodeBlockCount : nat;
  RecentToolCalls : nat;
  ConversationDepth : nat;
  HasAttachments : bool
}.

Definition is_cjk (r : N) : bool := in_range 11904 40959 r || in_range 63744 64255 r || in_range 44032 55215 r.

Definition estimateTokens (msg : string) : nat :=
  let total := RuneCountInString msg in
  if (total =? 0)%nat then 0%nat else
  let cjk := length (filter (fun r => is_cjk r = true) (runes msg)) in
  (cjk + (total - cjk) / 4)%nat.

Definition fence : string := "```".

Definition countCodeBlocks (msg : string) : nat := (Count msg fence / 2)%nat.

(** A history shorter than the window starts at zero, as [nat] subtraction does. *)
Definition countRecentToolCalls (history : list Message) : nat :=
  foldl (fun count msg => count + msg_ToolCalls msg)%nat 0%nat (drop (length history - lookbackWindow) history).

Definition dataURIs : list string := ["data:image/"; "data:audio/"; "data:video/"].
Definition mediaExts : list string :=
  [".jpg"; ".jpeg"; ".png"; ".gif"; ".webp"; ".bmp"; ".mp3"; ".wav"; ".ogg"; ".m4a"; ".flac"; ".mp4"; ".avi"; ".mov"; ".webm"].

Section features.
Context `{CaseMap}.

Definition hasAttachments (msg : string) : bool :=
  let lowered := lower msg in
  if existsb (Contains lowered) dataURIs then true else existsb (Contains lowered) mediaExts.

Definition ExtractFeatures (msg : string) (history : list Message) : Features :=
  {| TokenEstimate := estimateTokens msg;
     CodeBlockCount := countCodeBlocks msg;
     RecentToolCalls := countRecentToolCalls history;
     ConversationDepth := length history;
     HasAttachments := hasAttachments msg |}.

End features.

(** ** classifier.go *)

Class Classifier := Score : Features -> float64.

Definition RuleClassifier_Score (f : Features) : float64 :=
  if HasAttachments f then one else
  let score := zero in
  let score := if (200 <? TokenEstimate f)%nat then float_add score c035
               else if (50 <? TokenEstimate f)%nat then float_add score c015 else score in
  let score := if (0 <? CodeBlockCount f)%nat then float_add score c040 else score in
  let score := if (3 <? RecentToolCalls f)%nat then float_add score c025
               else if (0 <? RecentToolCalls f)%nat then float_add score c010 else score in
  let score := if (10 <? ConversationDepth f)%nat then float_add score c010 else score in
  if float_lt one score then one else score.

#[global] Instance RuleClassifier : Classifier := RuleClassifier_Score.

(** ** router.go *)

Definition defaultThreshold : float64 := c035.

Record RouterConfig := { LightModel : string; Threshold : float64 }.

(** [New] and [newWithClassifier]: the classifier is the instance. *)
Definition New (cfg : RouterConfig) : RouterConfig :=
  {| LightModel := LightModel cfg;
     Threshold := if float_le (Threshold cfg) zero then defaultThreshold else Threshold cfg |}.

Definition SelectModel `{CaseMap, Classifier} (r : RouterConfig) (msg : string) (history : list Message)
    (primaryModel : string) : string * bool * float64 :=
  let features := ExtractFeatures msg history in
  let score := Score features in
  if float_lt score (Threshold r) then (LightModel r, true, score) else (primaryModel, false, score).

(** ** Theorems *)

(** The score of the rule-based classifier lies in [[0, 1]] for every set
    of features, and at the default threshold the light model is chosen exactly
    when there is no attachment, no code block, at most 200 tokens, and of
    {more than 50 tokens, recent tool calls, more than ten messages} not all
    three, nor another one beside more than three tool calls. *)
Theorem router_score (f : Features) :
  float_le zero (RuleClassifier_Score f) = true /\ float_le (RuleClassifier_Score f) one = true
  /\ (float_lt (RuleClassifier_Score f) defaultThreshold = true <->
      HasAttachments f = false /\ CodeBlockCount f = 0%nat /\ (TokenEstimate f <= 200)%nat
      /\ ~ (50 < TokenEstimate f /\ 0 < RecentToolCalls f /\ 10 < ConversationDepth f)%nat
      /\ ~ (3 < RecentToolCalls f /\ (50 < TokenEstimate f \/ 10 < ConversationDepth f))%nat).
Proof.
  unfold RuleClassifier_Score. destruct f as [tokens code tools depth attach]. cbn [HasAttachments TokenEstimate CodeBlockCount
    RecentToolCalls ConversationDepth].
  destruct attach; [vm_compute; repeat split; intuition discriminate|].
  destruct (Nat.ltb_spec 200 tokens), (Nat.ltb_spec 50 tokens), (Nat.ltb_spec 0 code), (Nat.ltb_spec 3 tools),
    (Nat.ltb_spec 0 tools), (Nat.ltb_spec 10 depth); try lia;
  match goal with |- float_le zero ?x = true /\ _ => let y := eval vm_compute in x in change x with y end;
  (split; [vm_compute; reflexivity|split; [vm_compute; reflexivity|]]);
  match goal with |- float_lt ?x ?y = true <-> _ => let b := eval vm_compute in (float_lt x y) in change (float_lt x y) with b end;
  (split; [intros ?; first [discriminate | repeat split; lia]|intros (_ & ? & ? & ? & ?); first [reflexivity | lia]]).
Qed.

(** The token estimate counts every CJK rune fully and four other runes as
    one: it never exceeds the number of runes, nor that the number of bytes, and
    it is at least a quarter of the runes, rounded down. *)
Theorem router_tokens_bounded (msg : string) :
  (RuneCountInString msg / 4 <= estimateTokens msg <= RuneCountInString msg)%nat
  /\ (estimateTokens msg <= String.length msg)%nat.
Proof.
  assert (RuneCountInString msg / 4 <= estimateTokens msg <= RuneCountInString msg)%nat as Hb.
  { unfold estimateTokens. destruct (Nat.eqb_spec (RuneCountInString msg) 0) as [->|Hne]; [done|].
    pose proof (length_filter (fun r => is_cjk r = true) (runes msg)) as Hf. fold (RuneCountInString msg) in Hf.
    set (cjk := length (filter _ _)) in *. set (n := RuneCountInString msg) in *. clearbody cjk n.
    pose proof (Nat.Div0.div_le_mono n (cjk + (n - cjk)) 4). split.
    - replace n with (cjk + (n - cjk))%nat at 1 by lia.
      pose proof (Nat.div_mod_eq (cjk + (n - cjk)) 4). pose proof (Nat.div_mod_eq (n - cjk) 4).
      pose proof (Nat.mod_upper_bound (n - cjk) 4). pose proof (Nat.mod_upper_bound (cjk + (n - cjk)) 4). lia.
    - pose proof (Nat.Div0.div_le_upper_bound (n - cjk) 4 (n - cjk)). lia. }
  pose proof (RuneCountInString_le msg). lia.
Qed.

End ModelRouter.
