(* ===== verification/History.v ===== *)
(** * Conversation history and room moderation (src/pkg/providers/messageutil/messageutil.go)

    The messages of a session, the binding of an authenticated message to its
    event, and the moderation of rooms: a decision hides or restores one event,
    histories are shown with the hidden content replaced, and a history that
    is written back gets the original content again. *)

From S2P Require Import Prelude GoLib GoText.
#[local] Open Scope string_scope.
#[local] Open Scope N_scope.

Module History.

(** ** The data (src/pkg/providers/protocoltypes/types.go, src/pkg/actionauth/actionauth.go) *)

Record Origin := {
  o_AgentID : string;
  o_EndpointID : string;
  o_DeviceID : string;
  o_EventID : string;
  o_ConversationID : string;
  o_Kind : string;
  o_ReceivedAtUnix : N
}.

#[global] Instance Origin_eq_dec : EqDecision Origin.
Proof. solve_decision. Defined.

(** Attachments, system parts and tool calls are counted and compared but not
    looked into: each is its encoded form. The prompt annotations, which are
    neither stored nor compared, are left out. *)
Record Message := {
  m_Role : string;
  m_Content : string;
  m_ModelName : string;
  m_CreatedAt : option Z;
  m_Media : list string;
  m_Attachments : list string;
  m_ReasoningContent : string;
  m_SystemParts : list string;
  m_ToolCalls : list string;
  m_ToolCallID : string;
  m_ActionOrigins : list Origin;
  m_ActionProvenanceState : string;
  m_SourceEventID : string;
  m_SourceRoomID : string;
  m_RoomModerationAction : string;
  m_RoomModerationRevision : N;
  m_RoomModerationDecisionID : string;
  m_ModerationSynthetic : bool
}.

#[global] Instance Message_eq_dec : EqDecision Message.
Proof. solve_decision. Defined.

Definition blank_message : Message :=
  {| m_Role := ""; m_Content := ""; m_ModelName := ""; m_CreatedAt := None; m_Media := []; m_Attachments := [];
     m_ReasoningContent := ""; m_SystemParts := []; m_ToolCalls := []; m_ToolCallID := ""; m_ActionOrigins := [];
     m_ActionProvenanceState := ""; m_SourceEventID := ""; m_SourceRoomID := ""; m_RoomModerationAction := "";
     m_RoomModerationRevision := 0; m_RoomModerationDecisionID := ""; m_ModerationSynthetic := false |}.

Definition set_Content (c : string) (m : Message) : Message :=
  {| m_Role := m_Role m; m_Content := c; m_ModelName := m_ModelName m; m_CreatedAt := m_CreatedAt m;
     m_Media := m_Media m; m_Attachments := m_Attachments m; m_ReasoningContent := m_ReasoningContent m;
     m_SystemParts := m_SystemParts m; m_ToolCalls := m_ToolCalls m; m_ToolCallID := m_ToolCallID m;
     m_ActionOrigins := m_ActionOrigins m; m_ActionProvenanceState := m_ActionProvenanceState m;
     m_SourceEventID := m_SourceEventID m; m_SourceRoomID := m_SourceRoomID m;
     m_RoomModerationAction := m_RoomModerationAction m; m_RoomModerationRevision := m_RoomModerationRevision m;
     m_RoomModerationDecisionID := m_RoomModerationDecisionID m; m_ModerationSynthetic := m_ModerationSynthetic m |}.

Definition set_CreatedAt (t : option Z) (m : Message) : Message :=
  {| m_Role := m_Role m; m_Content := m_Content m; m_ModelName := m_ModelName m; m_CreatedAt := t;
     m_Media := m_Media m; m_Attachments := m_Attachments m; m_ReasoningContent := m_ReasoningContent m;
     m_SystemParts := m_SystemParts m; m_ToolCalls := m_ToolCalls m; m_ToolCallID := m_ToolCallID m;
     m_ActionOrigins := m_ActionOrigins m; m_ActionProvenanceState := m_ActionProvenanceState m;
     m_SourceEventID := m_SourceEventID m; m_SourceRoomID := m_SourceRoomID m;
     m_RoomModerationAction := m_RoomModerationAction m; m_RoomModerationRevision := m_RoomModerationRevision m;
     m_RoomModerationDecisionID := m_RoomModerationDecisionID m; m_ModerationSynthetic := m_ModerationSynthetic m |}.

(** The fields a decision sets on a message. *)
Definition set_moderation (source room action : string) (revision : N) (decisionID : string) (m : Message) : Message :=
  {| m_Role := m_Role m; m_Content := m_Content m; m_ModelName := m_ModelName m; m_CreatedAt := m_CreatedAt m;
     m_Media := m_Media m; m_Attachments := m_Attachments m; m_ReasoningContent := m_ReasoningContent m;
     m_SystemParts := m_SystemParts m; m_ToolCalls := m_ToolCalls m; m_ToolCallID := m_ToolCallID m;
     m_ActionOrigins := m_ActionOrigins m; m_ActionProvenanceState := m_ActionProvenanceState m;
     m_SourceEventID := source; m_SourceRoomID := room;
     m_RoomModerationAction := action; m_RoomModerationRevision := revision;
     m_RoomModerationDecisionID := decisionID; m_ModerationSynthetic := m_ModerationSynthetic m |}.

Record RoomModerationDecision := {
  d_RoomID : string;
  d_TargetEventID : string;
  d_DecisionEventID : string;
  d_DecisionRevision : N;
  d_Action : string;
  d_Reason : string
}.

#[global] Instance RoomModerationDecision_eq_dec : EqDecision RoomModerationDecision.
Proof. solve_decision. Defined.

Abbreviation Decisions := (gmap string RoomModerationDecision).

(** ** messageutil.go *)

Definition SameAuthenticatedInbound (a b : Message) : bool :=
  bool_decide (set_CreatedAt None a = set_CreatedAt None b).

Definition HiddenRoomMessage : string := "[message hidden by room moderation]".

Definition messengerEventIDPattern (eventID : string) : bool := hex64_pattern "evt_" eventID.

Definition ValidateAuthenticatedInbound (msg : Message) (eventID : string) : result unit :=
  if negb (messengerEventIDPattern eventID) || negb (bool_decide (m_Role msg = "user"))
     || negb (bool_decide (m_SourceEventID msg = eventID))
     || negb (bool_decide (m_ActionProvenanceState msg = "authenticated-messaging"))
     || negb (bool_decide (o_EventID <$> m_ActionOrigins msg = [eventID]))
     || bool_decide (TrimSpace (m_Content msg) = "") && bool_decide (m_Media msg = [])
  then Err "invalid authenticated inbound message"
  else Ok tt.

(** The event a message came from, also in histories written before the
    dedicated field existed. *)
Definition source_event (msg : Message) : string :=
  if bool_decide (m_SourceEventID msg = "") && bool_decide (m_Role msg = "user") then
    match m_ActionOrigins msg with
    | [origin] => o_EventID origin
    | _ => m_SourceEventID msg
    end
  else m_SourceEventID msg.

(** One turn of the first loop of [ProjectRoomModeration]. *)
Definition project_message (decisions : Decisions) (msg : Message) : option Message :=
  match decisions !! source_event msg with
  | None => Some msg
  | Some decision =>
      let room := if bool_decide (m_SourceRoomID msg = "") then d_RoomID decision else m_SourceRoomID msg in
      let msg := set_moderation (source_event msg) room (d_Action decision) (d_DecisionRevision decision)
                   (d_DecisionEventID decision) msg in
      if bool_decide (d_Action decision = "hide") then Some (set_Content HiddenRoomMessage msg)
      else if m_ModerationSynthetic msg then None
      else Some msg
  end.

(** The placeholder for a hidden event the history does not hold. *)
Definition tombstone (target : string) (decision : RoomModerationDecision) : Message :=
  {| m_Role := "user"; m_Content := HiddenRoomMessage; m_ModelName := ""; m_CreatedAt := None; m_Media := [];
     m_Attachments := []; m_ReasoningContent := ""; m_SystemParts := []; m_ToolCalls := []; m_ToolCallID := "";
     m_ActionOrigins := []; m_ActionProvenanceState := ""; m_SourceEventID := target;
     m_SourceRoomID := d_RoomID decision; m_RoomModerationAction := "hide";
     m_RoomModerationRevision := d_DecisionRevision decision;
     m_RoomModerationDecisionID := d_DecisionEventID decision; m_ModerationSynthetic := true |}.

Definition seen_targets (history : list Message) (decisions : Decisions) : list string :=
  omap (fun msg => d_TargetEventID <$> decisions !! source_event msg) history.

(** [iteration] is the order in which the second loop visits the decisions. *)
Definition ProjectRoomModeration (iteration : Decisions -> list (string * RoomModerationDecision))
    (history : list Message) (decisions : Decisions) : list Message :=
  let seen := seen_targets history decisions in
  (omap (project_message decisions) history
   ++ omap (fun '(target, decision) =>
              if bool_decide (target ∈ seen) || negb (bool_decide (d_Action decision = "hide")) then None
              else Some (tombstone target decision)) (iteration decisions))%list.

Definition originals (stored : list Message) : gmap string string :=
  foldl (fun originals msg =>
    let source := source_event msg in
    if negb (bool_decide (source = "")) && negb (bool_decide (m_Content msg = HiddenRoomMessage))
    then <[source := m_Content msg]> originals else originals) ∅ stored.

Definition PreserveModeratedOriginals (next stored : list Message) : list Message :=
  let originals := originals stored in
  (fun msg =>
     if bool_decide (m_RoomModerationAction msg = "hide") && bool_decide (m_Content msg = HiddenRoomMessage) then
       match originals !! m_SourceEventID msg with
       | Some original => set_Content original msg
       | None => msg
       end
     else msg) <$> next.

(** The decisions afterwards, and whether they changed. *)
Definition AdvanceRoomModeration (current : Decisions) (next : RoomModerationDecision) : result (Decisions * bool) :=
  if bool_decide (d_RoomID next = "") || bool_decide (d_TargetEventID next = "")
     || bool_decide (d_DecisionEventID next = "") || (d_DecisionRevision next =? 0)
     || negb (bool_decide (d_Action next = "hide")) && negb (bool_decide (d_Action next = "restore"))
  then Err "invalid room moderation decision"
  else
  match current !! d_TargetEventID next with
  | Some prior =>
      if bool_decide (prior = next) then Ok (current, false)
      else if negb (bool_decide (d_RoomID prior = d_RoomID next))
              || negb (d_DecisionRevision next =? add64w (d_DecisionRevision prior) 1)
      then Err "room moderation revision is not the next decision"
      else Ok (<[d_TargetEventID next := next]> current, true)
  | None =>
      if negb (d_DecisionRevision next =? 1) then Err "first room moderation revision must be 1"
      else Ok (<[d_TargetEventID next := next]> current, true)
  end.

Definition IsTransientAssistantThoughtMessage (msg : Message) : bool :=
  bool_decide (m_Role msg = "assistant")
  && bool_decide (TrimSpace (m_Content msg) = "")
  && negb (bool_decide (TrimSpace (m_ReasoningContent msg) = ""))
  && bool_decide (m_ToolCalls msg = [])
  && bool_decide (m_Media msg = [])
  && bool_decide (m_Attachments msg = [])
  && bool_decide (TrimSpace (m_ToolCallID msg) = "").

Definition FilterInvalidHistoryMessages (history : list Message) : list Message :=
  List.filter (fun msg => negb (IsTransientAssistantThoughtMessage msg)) history.

(** ** Theorems *)

(** A decision map as the code keeps it: under its target, with a revision. *)
Definition decisions_ok (decisions : Decisions) : Prop :=
  forall target d, decisions !! target = Some d ->
    d_TargetEventID d = target /\ target <> "" /\ d_RoomID d <> "" /\ 0 < d_DecisionRevision d
    /\ is_u64 (d_DecisionRevision d) /\ d_DecisionEventID d <> ""
    /\ (d_Action d = "hide" \/ d_Action d = "restore").

(** The later of two decision maps: every target keeps its room, its revision
    never falls, and at one revision the decision is one and the same. *)
Definition decisions_le (before after : Decisions) : Prop :=
  forall target d, before !! target = Some d ->
    exists d', after !! target = Some d' /\ d_RoomID d' = d_RoomID d
      /\ d_DecisionRevision d <= d_DecisionRevision d'
      /\ (d_DecisionRevision d' = d_DecisionRevision d -> d' = d).

Lemma decisions_le_refl d : decisions_le d d.
Proof. intros t x Hx. exists x. split; [done|split; [done|split; [lia|done]]]. Qed.

Lemma decisions_le_trans a b c : decisions_le a b -> decisions_le b c -> decisions_le a c.
Proof.
  intros Hab Hbc t x Hx. destruct (Hab t x Hx) as (y & Hy & Hr1 & Hl1 & He1).
  destruct (Hbc t y Hy) as (z & Hz & Hr2 & Hl2 & He2). exists z.
  split; [done|split; [congruence|split; [lia|]]]. intros E. rewrite He2 by lia. apply He1. lia.
Qed.

Lemma Advance_cases current next current' changed :
  AdvanceRoomModeration current next = Ok (current', changed) ->
  (changed = false /\ current' = current /\ current !! d_TargetEventID next = Some next)
  \/ (changed = true /\ current' = <[d_TargetEventID next := next]> current
      /\ d_TargetEventID next <> "" /\ d_RoomID next <> "" /\ 0 < d_DecisionRevision next
      /\ d_DecisionEventID next <> ""
      /\ (d_Action next = "hide" \/ d_Action next = "restore")
      /\ match current !! d_TargetEventID next with
         | Some prior => d_RoomID prior = d_RoomID next
             /\ d_DecisionRevision next = add64w (d_DecisionRevision prior) 1
         | None => d_DecisionRevision next = 1
         end).
Proof.
  unfold AdvanceRoomModeration. destruct (_ || _) eqn:Eg; [done|].
  apply orb_false_iff in Eg as [Eg Ea]. repeat (apply orb_false_iff in Eg as [Eg ?]). bprop.
  assert (d_Action next = "hide" \/ d_Action next = "restore") as Hact by (destruct Ea; bprop; auto). clear Ea.
  destruct (current !! d_TargetEventID next) as [prior|] eqn:Ep.
  - case_bool_decide as E1; [intros ?; simplify_eq; by left|]. destruct (_ || _) eqn:E2; [done|].
    apply orb_false_iff in E2 as [E2 E3]. bprop. intros ?. simplify_eq. right.
    assert (0 < d_DecisionRevision next) by lia. done.
  - destruct (negb _) eqn:E2; [done|]. bprop. intros ?. simplify_eq. right.
    assert (0 < d_DecisionRevision next) by lia. done.
Qed.

(** The successor of a 64-bit revision, or zero when it wraps. *)
Lemma next_revision n : is_u64 n -> add64w n 1 = n + 1 \/ add64w n 1 = 0.
Proof.
  unfold is_u64. intros Hn. destruct (decide (n = MaxUint64)) as [->|Hne]; [by right|left].
  apply add64w_exact. unfold MaxUint64 in *. lia.
Qed.

Lemma Advance_forward current next current' changed :
  decisions_ok current -> AdvanceRoomModeration current next = Ok (current', changed) ->
  decisions_ok current' /\ decisions_le current current'.
Proof.
  intros Hok [(_ & -> & _)|(_ & -> & Ht & Hroom & Hrev & Hde & Hact & Hprior)]%Advance_cases;
    [split; [done|apply decisions_le_refl]|].
  destruct (current !! d_TargetEventID next) as [prior|] eqn:Ep.
  - destruct Hprior as [Hr He]. destruct (Hok _ _ Ep) as (_ & _ & _ & _ & Hu & _).
    destruct (next_revision _ Hu) as [E|E]; [|lia]. split.
    + intros t d [[<- <-]|[Hne Hl]]%lookup_insert_Some; [|by apply Hok].
      repeat split; try done. rewrite He. unfold add64w, u64, is_u64, MaxUint64. pose proof (N.mod_lt
        (d_DecisionRevision prior + 1) 18446744073709551616). lia.
    + intros t d Hd. destruct (decide (t = d_TargetEventID next)) as [->|Hne].
      * simplify_eq. exists next. rewrite lookup_insert_eq. repeat split; [done|lia|lia].
      * exists d. rewrite lookup_insert_ne by done. split; [done|split; [done|split; [lia|done]]].
  - split.
    + intros t d [[<- <-]|[Hne Hl]]%lookup_insert_Some; [|by apply Hok].
      repeat split; try done. rewrite Hprior. unfold is_u64, MaxUint64. lia.
    + intros t d Hd. exists d. rewrite lookup_insert_ne by congruence. split; [done|split; [done|split; [lia|done]]].
Qed.

(** Where a projected message comes from. *)
Lemma project_elem iteration history decisions msg :
  msg ∈ ProjectRoomModeration iteration history decisions ->
  (exists m, m ∈ history /\ project_message decisions m = Some msg)
  \/ (exists target d, (target, d) ∈ iteration decisions /\ d_Action d = "hide" /\ msg = tombstone target d).
Proof.
  unfold ProjectRoomModeration. rewrite elem_of_app, !list_elem_of_omap.
  intros [(m & Hm & Hp)|([t d] & Hin & Hp)]; [left; by exists m|right]. exists t, d.
  destruct (_ || _) eqn:E; [done|]. bprop. by simplify_eq.
Qed.

(** C30: What a session shows of an event whose latest decision hides it is the
    placeholder, for every message of the history that came from the event and
    in whatever order the decisions are visited; and there is such a message,
    whether or not the event has arrived. *)
Theorem history_hidden_masked iteration history decisions target d :
  (forall decisions, iteration decisions ≡ₚ map_to_list decisions) ->
  decisions_ok decisions -> decisions !! target = Some d -> d_Action d = "hide" ->
  (forall msg, msg ∈ ProjectRoomModeration iteration history decisions -> source_event msg = target ->
     m_Content msg = HiddenRoomMessage)
  /\ exists msg, msg ∈ ProjectRoomModeration iteration history decisions /\ m_SourceEventID msg = target
       /\ m_Content msg = HiddenRoomMessage.
Proof.
  intros Hiter Hok Hd Hhide. destruct (Hok _ _ Hd) as (Htgt & Hne & _). split.
  - intros msg [(m & _ & Hp)|(t & d' & _ & _ & ->)]%project_elem Hsrc; [|done].
    unfold project_message in Hp. destruct (decisions !! source_event m) as [dm|] eqn:E.
    + case_bool_decide; [by simplify_eq|]. destruct (m_ModerationSynthetic _); [done|]. simplify_eq/=.
      exfalso. revert Hsrc. unfold source_event at 1. cbn.
      destruct (Hok _ _ E) as (_ & Hne' & _). rewrite bool_decide_eq_false_2 by done. cbn.
      intros Es. rewrite Es in E. congruence.
    + simplify_eq. congruence.
  - unfold ProjectRoomModeration. set (seen := seen_targets history decisions).
    destruct (decide (target ∈ seen)) as [Hin|Hout].
    + unfold seen, seen_targets in Hin. apply list_elem_of_omap in Hin as (m & Hm & Ht).
      destruct (decisions !! source_event m) as [dm|] eqn:E; [|done]. cbn in Ht. simplify_eq.
      destruct (Hok _ _ E) as (Htm & _). assert (dm = d) as -> by congruence.
      eexists. split; [apply elem_of_app; left; apply list_elem_of_omap; exists m; split; [done|]|].
      * unfold project_message. rewrite E, bool_decide_eq_true_2 by done. reflexivity.
      * cbn. by rewrite Htm.
    + exists (tombstone target d). split; [|done]. apply elem_of_app. right. apply list_elem_of_omap.
      exists (target, d). split; [rewrite Hiter; by apply elem_of_map_to_list|].
      rewrite bool_decide_eq_false_2, bool_decide_eq_true_2 by done. done.
Qed.

(** The content kept for a source all of whose known contents agree. *)
Lemma originals_lookup stored m :
  m ∈ stored -> source_event m <> "" -> m_Content m <> HiddenRoomMessage ->
  (forall m', m' ∈ stored -> source_event m' = source_event m -> m_Content m' <> HiddenRoomMessage ->
              m_Content m' = m_Content m) ->
  originals stored !! source_event m = Some (m_Content m).
Proof.
  unfold originals. intros Hm Hs Hc. generalize (∅ : gmap string string) as start.
  induction stored as [|x stored IH] using rev_ind; intros start Hu; [by apply not_elem_of_nil in Hm|].
  rewrite foldl_snoc. cbv zeta. set (before := foldl _ start stored).
  destruct (negb (bool_decide (source_event x = "")) && negb (bool_decide (m_Content x = HiddenRoomMessage))) eqn:E.
  - bprop. destruct (decide (source_event x = source_event m)) as [Es|Es].
    + rewrite Es, lookup_insert_eq. f_equal. apply Hu; [|done|done]. apply elem_of_app. right. by left.
    + rewrite lookup_insert_ne by done. apply elem_of_app in Hm as [Hm|Hm%list_elem_of_singleton]; [|congruence].
      apply IH; [done|]. intros m' Hm' Es' Hc'. apply Hu; [|done|done]. apply elem_of_app. by left.
  - apply elem_of_app in Hm as [Hm|Hm%list_elem_of_singleton].
    + apply IH; [done|]. intros m' Hm' Es' Hc'. apply Hu; [|done|done]. apply elem_of_app. by left.
    + subst x. apply andb_false_iff in E as [E|E]; bprop; done.
Qed.

(** A hide can be undone: when a history is read with the event hidden,
    written back and the event restored later, the session shows the original
    content again, for every message whose event has one content in the
    history. *)
Theorem history_restore_recovers iteration history decisions decisions' m d d' :
  let written := PreserveModeratedOriginals
                   (FilterInvalidHistoryMessages (ProjectRoomModeration iteration history decisions)) history in
  m ∈ history -> source_event m <> "" -> m_Content m <> HiddenRoomMessage -> m_ModerationSynthetic m = false ->
  (forall m', m' ∈ history -> source_event m' = source_event m -> m_Content m' <> HiddenRoomMessage ->
              m_Content m' = m_Content m) ->
  decisions !! source_event m = Some d -> d_Action d = "hide" ->
  decisions' !! source_event m = Some d' -> d_Action d' <> "hide" ->
  exists shown, shown ∈ ProjectRoomModeration iteration written decisions'
    /\ m_SourceEventID shown = source_event m /\ m_Content shown = m_Content m /\ m_Media shown = m_Media m.
Proof.
  intros written Hm Hs Hc Hsyn Hu Hd Hhide Hd' Hrestore.
  set (room := if bool_decide (m_SourceRoomID m = "") then d_RoomID d else m_SourceRoomID m).
  set (hidden := set_Content HiddenRoomMessage
                   (set_moderation (source_event m) room (d_Action d) (d_DecisionRevision d) (d_DecisionEventID d) m)).
  assert (set_Content (m_Content m) hidden ∈ written) as Hw.
  { unfold written, PreserveModeratedOriginals. apply list_elem_of_fmap. exists hidden. split.
    - rewrite bool_decide_eq_true_2 by done. cbn [hidden set_Content set_moderation m_SourceEventID m_Content].
      rewrite bool_decide_eq_true_2 by done. cbn. by rewrite (originals_lookup history m).
    - apply list_elem_of_In, filter_In. split.
      + apply list_elem_of_In. unfold ProjectRoomModeration. apply elem_of_app. left. apply list_elem_of_omap.
        exists m. split; [done|]. unfold project_message. by rewrite Hd, bool_decide_eq_true_2.
      + unfold IsTransientAssistantThoughtMessage.
        rewrite (bool_decide_eq_false_2 (TrimSpace (m_Content hidden) = "")) by (vm_compute; discriminate).
        by rewrite andb_false_r. }
  assert (source_event (set_Content (m_Content m) hidden) = source_event m) as Hsrc.
  { unfold source_event at 1. cbn. by rewrite bool_decide_eq_false_2. }
  eexists. split; [unfold ProjectRoomModeration; apply elem_of_app; left; apply list_elem_of_omap;
                   eexists; split; [exact Hw|]|].
  - unfold project_message. rewrite Hsrc, Hd', bool_decide_eq_false_2 by done. cbn. rewrite Hsyn. reflexivity.
  - done.
Qed.

(** Hiding replaces the text only: the media, attachments and reasoning of
    a hidden message are shown as they are. *)
Theorem history_hidden_media decisions m d :
  decisions !! source_event m = Some d -> d_Action d = "hide" ->
  exists shown, project_message decisions m = Some shown /\ m_Content shown = HiddenRoomMessage
    /\ m_Media shown = m_Media m /\ m_Attachments shown = m_Attachments m
    /\ m_ReasoningContent shown = m_ReasoningContent m.
Proof. intros Hd Hh. unfold project_message. rewrite Hd, bool_decide_eq_true_2 by done. eexists. by repeat split. Qed.

(** ** A hidden picture *)

Definition ex_origin (event : string) : Origin :=
  {| o_AgentID := "agent"; o_EndpointID := "endpoint"; o_DeviceID := "device"; o_EventID := event;
     o_ConversationID := "room"; o_Kind := "message"; o_ReceivedAtUnix := 1 |}.

Definition ex_event : string := "evt_0123456789abcdef0123456789abcdef0123456789abcdef0123456789abcdef".

Definition ex_message (event content : string) (media : list string) : Message :=
  {| m_Role := "user"; m_Content := content; m_ModelName := ""; m_CreatedAt := None; m_Media := media;
     m_Attachments := []; m_ReasoningContent := ""; m_SystemParts := []; m_ToolCalls := []; m_ToolCallID := "";
     m_ActionOrigins := [ex_origin event]; m_ActionProvenanceState := "authenticated-messaging";
     m_SourceEventID := event; m_SourceRoomID := ""; m_RoomModerationAction := "";
     m_RoomModerationRevision := 0; m_RoomModerationDecisionID := ""; m_ModerationSynthetic := false |}.

Definition ex_decision (event action : string) (revision : N) : RoomModerationDecision :=
  {| d_RoomID := "room"; d_TargetEventID := event; d_DecisionEventID := "evt_d"; d_DecisionRevision := revision;
     d_Action := action; d_Reason := "" |}.

Definition ex_hidden : Decisions := {[ex_event := ex_decision ex_event "hide" 1]}.

Lemma history_hidden_masked_witness :
  exists msg, msg ∈ ProjectRoomModeration map_to_list [ex_message ex_event "secret" ["media://1"]] ex_hidden
    /\ m_SourceEventID msg = ex_event /\ m_Content msg = HiddenRoomMessage.
Proof.
  apply (history_hidden_masked map_to_list [ex_message ex_event "secret" ["media://1"]] ex_hidden ex_event
           (ex_decision ex_event "hide" 1)); [done| |vm_compute; reflexivity|done].
  unfold ex_hidden. intros t d [<- <-]%lookup_singleton_Some. repeat split; try done. by left.
Defined.

Lemma history_restore_recovers_witness :
  exists shown,
    shown ∈ ProjectRoomModeration map_to_list
      (PreserveModeratedOriginals
         (FilterInvalidHistoryMessages
            (ProjectRoomModeration map_to_list [ex_message ex_event "secret" ["media://1"]] ex_hidden))
         [ex_message ex_event "secret" ["media://1"]]) {[ex_event := ex_decision ex_event "restore" 2]}
    /\ m_SourceEventID shown = ex_event /\ m_Content shown = "secret" /\ m_Media shown = ["media://1"].
Proof.
  apply (history_restore_recovers map_to_list [ex_message ex_event "secret" ["media://1"]] ex_hidden
           {[ex_event := ex_decision ex_event "restore" 2]} (ex_message ex_event "secret" ["media://1"])
           (ex_decision ex_event "hide" 1) (ex_decision ex_event "restore" 2)); try (vm_compute; done).
  - by left.
  - intros m' Hm'%list_elem_of_singleton _ _. by subst.
Defined.

Lemma history_hidden_media_witness :
  exists shown, project_message ex_hidden (ex_message ex_event "secret" ["media://1"]) = Some shown
    /\ m_Content shown = HiddenRoomMessage /\ m_Media shown = ["media://1"]
    /\ m_Attachments shown = [] /\ m_ReasoningContent shown = "".
Proof.
  apply (history_hidden_media ex_hidden (ex_message ex_event "secret" ["media://1"]) (ex_decision ex_event "hide" 1));
    vm_compute; reflexivity.
Defined.

End History.
