(* ===== verification/SessionStore.v ===== *)
(** * The session store (src/pkg/memory/jsonl.go)

    A session is kept in three files: a log with one encoded message a line,
    appended to; a metadata document with the number of leading lines that are
    logically truncated; and a document with the moderation decisions. The
    documents are replaced atomically. An append is not atomic: what a crash or
    a failing call leaves of it is an argument of the model. *)

From S2P Require Import Prelude GoLib GoText GoUnicode FileStore History.
#[local] Open Scope string_scope.
#[local] Open Scope N_scope.

Module SessionStore.
Import History.

(** ** Data *)

Definition maxLineSize : N := 10485760.

(** [CreatedAt] of a document that does not exist is the zero time. *)
Definition zero_time : Z := (-62135596800000000000)%Z.

Record SessionMeta := {
  sm_Key : string;
  sm_Summary : string;
  sm_Skip : nat;
  sm_Count : nat;
  sm_CreatedAt : Z;
  sm_UpdatedAt : Z;
  sm_Scope : string;
  sm_Aliases : list string
}.

(** A line of the log: the message it decodes to, if it does, and its length. *)
Record line := { ln_Message : option Message; ln_Size : N }.

(** The log: its complete lines, and what follows the last newline. *)
Record log := { lg_Lines : list line; lg_Tail : option line }.

Definition empty_log : log := {| lg_Lines := []; lg_Tail := None |}.

Definition all_lines (l : log) : list line := (lg_Lines l ++ option_list (lg_Tail l))%list.

(** The files of one session; a log that does not exist is [None]. *)
Record files := {
  f_Log : option log;
  f_Meta : file_state SessionMeta;
  f_Moderation : file_state Decisions
}.

Definition no_files : files := {| f_Log := None; f_Meta := FileAbsent; f_Moderation := FileAbsent |}.

Definition set_Log (l : option log) (f : files) : files :=
  {| f_Log := l; f_Meta := f_Meta f; f_Moderation := f_Moderation f |}.
Definition set_Meta (m : file_state SessionMeta) (f : files) : files :=
  {| f_Log := f_Log f; f_Meta := m; f_Moderation := f_Moderation f |}.
Definition set_Moderation (d : file_state Decisions) (f : files) : files :=
  {| f_Log := f_Log f; f_Meta := f_Meta f; f_Moderation := d |}.

(** ** The environment of an operation *)

(** What became of an append: the file was not opened or protected (it may
    have been created), some bytes of the line were written, all but the
    newline, everything but the sync or close failed, or all went well. *)
Inductive append_outcome :=
| AppendRefused (created : bool)
| AppendPartial (size : positive)
| AppendNoNewline
| AppendUnsynced
| AppendDone.

Record env := {
  e_Now : Z;
  e_Append : append_outcome;
  e_WriteMeta : write_step -> bool;
  e_WriteLog : write_step -> bool;
  e_WriteModeration : write_step -> bool;
  e_Restore : write_step -> bool
}.

Definition all_good (now : Z) : env :=
  {| e_Now := now; e_Append := AppendDone; e_WriteMeta := fun _ => false; e_WriteLog := fun _ => false;
     e_WriteModeration := fun _ => false; e_Restore := fun _ => false |}.

Section store.
(** The length of a message's JSON encoding. *)
Context (encoded_size : Message -> N).

Definition message_line (msg : Message) : line := {| ln_Message := Some msg; ln_Size := encoded_size msg |}.

(** ** Files *)

Definition replace_byte (from : N) (to : ascii) (c : ascii) : ascii := if byte_of c =? from then to else c.

Fixpoint ReplaceAllByte (s : string) (from : N) (to : ascii) : string :=
  match s with
  | EmptyString => EmptyString
  | String c s => String (replace_byte from to c) (ReplaceAllByte s from to)
  end.

Definition sanitizeKey (key : string) : string :=
  let underscore := of_byte 95 in
  ReplaceAllByte (ReplaceAllByte (ReplaceAllByte key 58 underscore) 47 underscore) 92 underscore.

Definition readMeta (key : string) (f : files) : result SessionMeta :=
  match f_Meta f with
  | FileAbsent =>
      Ok {| sm_Key := key; sm_Summary := ""; sm_Skip := 0; sm_Count := 0; sm_CreatedAt := zero_time;
            sm_UpdatedAt := zero_time; sm_Scope := ""; sm_Aliases := [] |}
  | FileUnreadable => Err "memory: read meta"
  | FileUndecodable => Err "memory: decode meta"
  | FileDoc meta =>
      Ok {| sm_Key := if bool_decide (sm_Key meta = "") then key else sm_Key meta; sm_Summary := sm_Summary meta;
            sm_Skip := sm_Skip meta; sm_Count := sm_Count meta; sm_CreatedAt := sm_CreatedAt meta;
            sm_UpdatedAt := sm_UpdatedAt meta; sm_Scope := sm_Scope meta; sm_Aliases := sm_Aliases meta |}
  end.

Definition writeMeta (fails : write_step -> bool) (key : string) (meta : SessionMeta) (f : files) : files * result unit :=
  let meta := {| sm_Key := if bool_decide (TrimSpace (sm_Key meta) = "") then key else sm_Key meta;
                 sm_Summary := sm_Summary meta; sm_Skip := sm_Skip meta; sm_Count := sm_Count meta;
                 sm_CreatedAt := sm_CreatedAt meta; sm_UpdatedAt := sm_UpdatedAt meta; sm_Scope := sm_Scope meta;
                 sm_Aliases := sm_Aliases meta |} in
  let out := WriteFileAtomic fails meta (f_Meta f) in
  (set_Meta (wo_file out) f, wo_result out).

(** A stored decision must be valid at some revision. *)
Definition decision_valid (target : string) (decision : RoomModerationDecision) : bool :=
  bool_decide (target = d_TargetEventID decision) && negb (d_DecisionRevision decision =? 0)
  && is_ok (AdvanceRoomModeration ∅
       {| d_RoomID := d_RoomID decision; d_TargetEventID := d_TargetEventID decision;
          d_DecisionEventID := d_DecisionEventID decision; d_DecisionRevision := 1; d_Action := d_Action decision;
          d_Reason := d_Reason decision |}).

Definition readModeration (f : files) : result Decisions :=
  match f_Moderation f with
  | FileAbsent => Ok ∅
  | FileUnreadable => Err "memory: read room moderation"
  | FileUndecodable => Err "memory: invalid room moderation state"
  | FileDoc decisions =>
      if map_all decision_valid decisions then Ok decisions else Err "memory: invalid room moderation decision"
  end.

Definition writeModeration (fails : write_step -> bool) (decisions : Decisions) (f : files) : files * result unit :=
  let out := WriteFileAtomic fails decisions (f_Moderation f) in (set_Moderation (wo_file out) f, wo_result out).

(** A line as long as the scanner's buffer ends the scan with an error. *)
Definition too_long (ln : line) : bool := maxLineSize <=? ln_Size ln.

(** The message of a line that survives the filter. *)
Definition retained (ln : line) : option Message :=
  match ln_Message ln with
  | Some msg => if IsTransientAssistantThoughtMessage msg then None else Some msg
  | None => None
  end.

Definition readMessages (l : option log) (skip : nat) : result (list Message) :=
  match l with
  | None => Ok []
  | Some l =>
      if existsb too_long (all_lines l) then Err "memory: scan jsonl"
      else Ok (omap retained (drop skip (all_lines l)))
  end.

(** The numbers, from one, of the lines that survive. *)
Fixpoint retained_lines (n : nat) (ls : list line) : list nat :=
  match ls with
  | [] => []
  | ln :: ls => (match retained ln with Some _ => [n] | None => [] end ++ retained_lines (S n) ls)%list
  end.

Definition scanRetainedMessageLines (l : option log) : result (nat * list nat) :=
  match l with
  | None => Ok (0%nat, [])
  | Some l =>
      if existsb too_long (all_lines l) then Err "bufio.Scanner: token too long"
      else Ok (length (all_lines l), retained_lines 1 (all_lines l))
  end.

(** Bytes appended behind an unterminated line make one line with it, and two
    values on a line do not decode. *)
Definition extend (tail : option line) (ln : line) : line :=
  match tail with
  | None => ln
  | Some t => {| ln_Message := None; ln_Size := ln_Size t + ln_Size ln |}
  end.

Definition append_line (outcome : append_outcome) (l : option log) (ln : line) : option log * result unit :=
  let base := default empty_log l in
  match outcome with
  | AppendRefused created => (if created then Some base else l, Err "memory: open jsonl for append")
  | AppendPartial size =>
      (Some {| lg_Lines := lg_Lines base;
               lg_Tail := Some (extend (lg_Tail base) {| ln_Message := None; ln_Size := Npos size |}) |},
       Err "memory: append message")
  | AppendNoNewline =>
      (Some {| lg_Lines := lg_Lines base; lg_Tail := Some (extend (lg_Tail base) ln) |}, Err "memory: append message")
  | AppendUnsynced =>
      (Some {| lg_Lines := (lg_Lines base ++ [extend (lg_Tail base) ln])%list; lg_Tail := None |}, Err "memory: sync jsonl")
  | AppendDone =>
      (Some {| lg_Lines := (lg_Lines base ++ [extend (lg_Tail base) ln])%list; lg_Tail := None |}, Ok tt)
  end.

Definition rewriteJSONL (fails : write_step -> bool) (msgs : list Message) (f : files) : files * result unit :=
  let content := {| lg_Lines := message_line <$> FilterInvalidHistoryMessages msgs; lg_Tail := None |} in
  let out := WriteFileAtomic fails content FileAbsent in
  (match wo_file out with FileDoc l => set_Log (Some l) f | _ => f end, wo_result out).

(** ** Messages *)

Definition with_created (now : Z) (msg : Message) : Message :=
  match m_CreatedAt msg with None => set_CreatedAt (Some now) msg | Some _ => msg end.

Definition addMsgLocked (e : env) (key : string) (msg : Message) (f : files) : files * result unit :=
  let '(l, r) := append_line (e_Append e) (f_Log f) (message_line (with_created (e_Now e) msg)) in
  let f := set_Log l f in
  match r with
  | Err err => (f, Err err)
  | Ok _ =>
      match readMeta key f with
      | Err err => (f, Err err)
      | Ok meta =>
          writeMeta (e_WriteMeta e) key
            {| sm_Key := sm_Key meta; sm_Summary := sm_Summary meta; sm_Skip := sm_Skip meta;
               sm_Count := S (sm_Count meta);
               sm_CreatedAt := if (sm_Count meta =? 0)%nat && IsZero (sm_CreatedAt meta) then e_Now e else sm_CreatedAt meta;
               sm_UpdatedAt := e_Now e; sm_Scope := sm_Scope meta; sm_Aliases := sm_Aliases meta |} f
      end
  end.

Definition AddFullMessage (e : env) (key : string) (msg : Message) (f : files) : files * result unit :=
  if IsTransientAssistantThoughtMessage msg then (f, Ok tt) else addMsgLocked e key msg f.

Definition AddMessage (e : env) (key role content : string) (f : files) : files * result unit :=
  AddFullMessage e key
    {| m_Role := role; m_Content := content; m_ModelName := ""; m_CreatedAt := None; m_Media := []; m_Attachments := [];
       m_ReasoningContent := ""; m_SystemParts := []; m_ToolCalls := []; m_ToolCallID := ""; m_ActionOrigins := [];
       m_ActionProvenanceState := ""; m_SourceEventID := ""; m_SourceRoomID := ""; m_RoomModerationAction := "";
       m_RoomModerationRevision := 0; m_RoomModerationDecisionID := ""; m_ModerationSynthetic := false |} f.

Definition ApplyAuthenticatedInbound (e : env) (key eventID : string) (msg : Message) (f : files) : files * result bool :=
  match ValidateAuthenticatedInbound msg eventID with
  | Err err => (f, Err err)
  | Ok _ =>
      match (let? meta := readMeta key f in readMessages (f_Log f) (sm_Skip meta)) with
      | Err err => (f, Err err)
      | Ok history =>
          match List.find (fun existing => bool_decide (m_SourceEventID existing = eventID)) history with
          | Some existing =>
              if SameAuthenticatedInbound existing msg then (f, Ok false)
              else (f, Err "memory: authenticated Event ID substitution")
          | None =>
              match addMsgLocked e key msg f with
              | (f, Ok _) => (f, Ok true)
              | (f, Err err) => (f, Err err)
              end
          end
      end
  end.

Definition GetHistory (iteration : Decisions -> list (string * RoomModerationDecision)) (key : string) (f : files)
    : result (list Message) :=
  let? meta := readMeta key f in
  let? msgs := readMessages (f_Log f) (sm_Skip meta) in
  let? decisions := readModeration f in
  Ok (ProjectRoomModeration iteration msgs decisions).

Definition ApplyRoomModeration (e : env) (decision : RoomModerationDecision) (f : files) : files * result bool :=
  match readModeration f with
  | Err err => (f, Err err)
  | Ok decisions =>
      match AdvanceRoomModeration decisions decision with
      | Err err => (f, Err err)
      | Ok (_, false) => (f, Ok false)
      | Ok (decisions, true) =>
          match writeModeration (e_WriteModeration e) decisions f with
          | (f, Ok _) => (f, Ok true)
          | (f, Err err) => (f, Err err)
          end
      end
  end.

Definition GetSummary (key : string) (f : files) : result string := let? meta := readMeta key f in Ok (sm_Summary meta).

Definition created (e : env) (meta : SessionMeta) : Z := if IsZero (sm_CreatedAt meta) then e_Now e else sm_CreatedAt meta.

Definition SetSummary (e : env) (key summary : string) (f : files) : files * result unit :=
  match readMeta key f with
  | Err err => (f, Err err)
  | Ok meta =>
      writeMeta (e_WriteMeta e) key
        {| sm_Key := sm_Key meta; sm_Summary := summary; sm_Skip := sm_Skip meta; sm_Count := sm_Count meta;
           sm_CreatedAt := created e meta; sm_UpdatedAt := e_Now e; sm_Scope := sm_Scope meta;
           sm_Aliases := sm_Aliases meta |} f
  end.

(** The new offset of [TruncateHistory]. *)
Definition truncated_skip (keepLast : Z) (skip rawCount : nat) (retainedRawLines : list nat) : nat :=
  let skip := if (rawCount <? skip)%nat then rawCount else skip in
  let activeStart := sort_Search (length retainedRawLines)
                       (fun i => (skip <? default 0%nat (retainedRawLines !! i))%nat) in
  let activeRetainedCount := (length retainedRawLines - activeStart)%nat in
  if (keepLast <=? 0)%Z || (activeRetainedCount =? 0)%nat then rawCount
  else if (keepLast <? Z.of_nat activeRetainedCount)%Z then
    default 0%nat (drop activeStart retainedRawLines !! (activeRetainedCount - Z.to_nat keepLast - 1)%nat)
  else skip.

Definition TruncateHistory (e : env) (key : string) (keepLast : Z) (f : files) : files * result unit :=
  match readMeta key f, scanRetainedMessageLines (f_Log f) with
  | Err err, _ => (f, Err err)
  | Ok _, Err err => (f, Err err)
  | Ok meta, Ok (rawCount, retainedRawLines) =>
      writeMeta (e_WriteMeta e) key
        {| sm_Key := sm_Key meta; sm_Summary := sm_Summary meta;
           sm_Skip := truncated_skip keepLast (sm_Skip meta) rawCount retainedRawLines; sm_Count := rawCount;
           sm_CreatedAt := sm_CreatedAt meta; sm_UpdatedAt := e_Now e; sm_Scope := sm_Scope meta;
           sm_Aliases := sm_Aliases meta |} f
  end.

(** The metadata of a history that has been rewritten. *)
Definition rewritten_meta (e : env) (count : nat) (createdAt : Z) (meta : SessionMeta) : SessionMeta :=
  {| sm_Key := sm_Key meta; sm_Summary := sm_Summary meta; sm_Skip := 0; sm_Count := count; sm_CreatedAt := createdAt;
     sm_UpdatedAt := e_Now e; sm_Scope := sm_Scope meta; sm_Aliases := sm_Aliases meta |}.

Definition SetHistory (e : env) (key : string) (history : list Message) (f : files) : files * result unit :=
  let history := FilterInvalidHistoryMessages history in
  match readMeta key f with
  | Err err => (f, Err err)
  | Ok meta =>
      match readMessages (f_Log f) (sm_Skip meta) with
      | Err err => (f, Err err)
      | Ok stored =>
          let history := PreserveModeratedOriginals history stored in
          let meta := rewritten_meta e (length history) (created e meta) meta in
          let history := with_created (e_Now e) <$> history in
          match writeMeta (e_WriteMeta e) key meta f with
          | (f, Err err) => (f, Err err)
          | (f, Ok _) => rewriteJSONL (e_WriteLog e) history f
          end
      end
  end.

Definition Compact (e : env) (key : string) (f : files) : files * result unit :=
  match readMeta key f with
  | Err err => (f, Err err)
  | Ok meta =>
      if (sm_Skip meta =? 0)%nat then (f, Ok tt) else
      match readMessages (f_Log f) (sm_Skip meta) with
      | Err err => (f, Err err)
      | Ok active =>
          let meta := rewritten_meta e (length active) (sm_CreatedAt meta) meta in
          match writeMeta (e_WriteMeta e) key meta f with
          | (f, Err err) => (f, Err err)
          | (f, Ok _) => rewriteJSONL (e_WriteLog e) active f
          end
      end
  end.

(** ** What a session shows *)

(** The messages that are read, before moderation. *)
Definition visible (key : string) (f : files) : result (list Message) :=
  let? meta := readMeta key f in readMessages (f_Log f) (sm_Skip meta).

(** Everything the log holds, truncated or not. *)
Definition recorded (f : files) : list Message :=
  match f_Log f with None => [] | Some l => omap retained (all_lines l) end.

Definition skip_of (f : files) : nat := match f_Meta f with FileDoc meta => sm_Skip meta | _ => 0%nat end.
Definition lines_of (f : files) : list line := match f_Log f with None => [] | Some l => all_lines l end.

Lemma visible_ok key f h :
  visible key f = Ok h <->
  (f_Meta f = FileAbsent \/ exists meta, f_Meta f = FileDoc meta)
  /\ existsb too_long (lines_of f) = false /\ h = omap retained (drop (skip_of f) (lines_of f)).
Proof.
  unfold visible, readMeta, readMessages, skip_of, lines_of.
  destruct (f_Meta f) as [| | |meta]; destruct (f_Log f) as [l|]; cbn [sm_Skip existsb];
    try destruct (existsb too_long (all_lines l)) eqn:E; rewrite ?drop_nil; cbn [omap list_omap];
    split; intros Hx; try (destruct Hx as ([Hx|[? Hx]] & ? & ?)); simplify_eq; try done;
    (split; [by eauto|done]).
Qed.

Lemma writeMeta_cases fails key meta f f' r :
  writeMeta fails key meta f = (f', r) ->
  f_Log f' = f_Log f /\ f_Moderation f' = f_Moderation f
  /\ (f' = f /\ r <> Ok tt
      \/ exists meta', f_Meta f' = FileDoc meta' /\ sm_Skip meta' = sm_Skip meta).
Proof.
  unfold writeMeta. intros E. simplify_eq. cbn [set_Meta f_Log f_Moderation f_Meta]. split; [done|split; [done|]].
  unfold WriteFileAtomic. repeat case_match; cbn; try (left; split; [by destruct f|done]); right; by eexists.
Qed.

Lemma writeMeta_good fails key meta f f' :
  writeMeta fails key meta f = (f', Ok tt) ->
  f_Log f' = f_Log f /\ f_Moderation f' = f_Moderation f /\ exists meta', f_Meta f' = FileDoc meta' /\ sm_Skip meta' = sm_Skip meta.
Proof. intros E. destruct (writeMeta_cases _ _ _ _ _ _ E) as (? & ? & [[_ ?]|?]); [done|by repeat split]. Qed.

Lemma rewriteJSONL_cases fails msgs f f' r :
  rewriteJSONL fails msgs f = (f', r) ->
  f_Meta f' = f_Meta f /\ f_Moderation f' = f_Moderation f
  /\ (f' = f /\ r <> Ok tt
      \/ f_Log f' = Some {| lg_Lines := message_line <$> FilterInvalidHistoryMessages msgs; lg_Tail := None |}).
Proof.
  unfold rewriteJSONL, WriteFileAtomic. intros E. repeat case_match; cbn in *; simplify_eq; cbn;
    (split; [done|split; [done|]]); first [by left | by right].
Qed.

Lemma retained_message_line msg :
  IsTransientAssistantThoughtMessage msg = false -> retained (message_line msg) = Some msg.
Proof. unfold retained. cbn. by intros ->. Qed.

Lemma omap_retained_lines msgs :
  Forall (fun msg => IsTransientAssistantThoughtMessage msg = false) msgs -> omap retained (message_line <$> msgs) = msgs.
Proof.
  induction 1 as [|msg msgs Hm Hms IH]; [done|]. rewrite fmap_cons. cbn [omap list_omap].
  rewrite retained_message_line by done. by rewrite IH.
Qed.

Lemma filter_valid msgs :
  Forall (fun msg => IsTransientAssistantThoughtMessage msg = false) (FilterInvalidHistoryMessages msgs).
Proof.
  apply Forall_forall. intros m [_ Hm]%list_elem_of_In%filter_In. by apply negb_true_iff.
Qed.

(** ** Appending *)

Lemma with_created_transient now msg :
  IsTransientAssistantThoughtMessage (with_created now msg) = IsTransientAssistantThoughtMessage msg.
Proof. unfold with_created. by destruct (m_CreatedAt msg). Qed.

(** The log ends with a newline, and the offset lies within it. *)
Definition log_whole (f : files) : Prop :=
  (forall l, f_Log f = Some l -> lg_Tail l = None) /\ (skip_of f <= length (lines_of f))%nat.

Lemma addMsgLocked_good e key msg f f' h :
  visible key f = Ok h -> log_whole f -> IsTransientAssistantThoughtMessage msg = false ->
  encoded_size (with_created (e_Now e) msg) < maxLineSize ->
  addMsgLocked e key msg f = (f', Ok tt) ->
  visible key f' = Ok (h ++ [with_created (e_Now e) msg])%list /\ log_whole f'.
Proof.
  intros (Hmeta & Hlong & ->)%visible_ok [Htail Hskip] Hm Hsize. unfold addMsgLocked.
  set (ln := message_line (with_created (e_Now e) msg)).
  destruct (append_line _ _ ln) as [l r] eqn:Ea. destruct r as [[]|]; [|done].
  assert (l = Some {| lg_Lines := (lines_of f ++ [ln])%list; lg_Tail := None |}) as ->.
  { unfold append_line in Ea. destruct (e_Append e); simplify_eq. unfold lines_of.
    destruct (f_Log f) as [l|]; cbn; [|done]. rewrite (Htail l) by done. cbn. unfold all_lines. rewrite (Htail l) by done.
    cbn. by rewrite app_nil_r. }
  destruct (readMeta key _) as [meta|] eqn:Em; [|done].
  assert (sm_Skip meta = skip_of f) as Hs.
  { unfold readMeta in Em. cbn [set_Log f_Meta] in Em. unfold skip_of. destruct (f_Meta f); by simplify_eq/=. }
  intros (Hl & _ & meta' & Hm' & Hs')%writeMeta_good. cbn in Hl, Hs'. rewrite Hs in Hs'.
  assert (lines_of f' = (lines_of f ++ [ln])%list) as Hlines.
  { unfold lines_of at 1. rewrite Hl. unfold all_lines. cbn. by rewrite app_nil_r. }
  assert (skip_of f' = skip_of f) as Hsk by (unfold skip_of at 1; by rewrite Hm').
  split; [apply visible_ok; split; [right; by eexists|split]|split].
  - rewrite Hlines, existsb_app, Hlong. cbn. unfold too_long. cbn. rewrite orb_false_r. apply N.leb_gt. done.
  - rewrite Hlines, Hsk, drop_app_le, omap_app by done. f_equal. unfold ln. cbn [omap list_omap].
    rewrite retained_message_line; [done|]. by rewrite with_created_transient.
  - intros l' Hl'. rewrite Hl in Hl'. by simplify_eq.
  - rewrite Hlines, Hsk, length_app. lia.
Qed.

(** ** Truncating *)

(** How many of the first [n] lines survive. *)
Definition survivors (n : nat) (ls : list line) : nat := length (omap retained (take n ls)).

Lemma drop_survivors n ls : omap retained (drop n ls) = drop (survivors n ls) (omap retained ls).
Proof.
  pose proof (omap_app retained (take n ls) (drop n ls)) as Ho. rewrite take_drop in Ho. rewrite Ho.
  unfold survivors. by rewrite drop_app_length.
Qed.

Lemma survivors_all n ls : (length ls <= n)%nat -> survivors n ls = length (omap retained ls).
Proof. intros Hn. unfold survivors. by rewrite take_ge. Qed.

Lemma retained_lines_length n ls : length (retained_lines n ls) = length (omap retained ls).
Proof.
  revert n. induction ls as [|ln ls IH]; intros n; [done|]. cbn [retained_lines omap list_omap].
  destruct (retained ln); cbn; by rewrite IH.
Qed.

(** The [i]-th line that survives lies behind the first [n] lines exactly when
    at most [i] of these survive. *)
Lemma retained_lines_lookup base ls i p n :
  retained_lines (S base) ls !! i = Some p ->
  (base < p <= base + length ls)%nat /\ ((base + n < p)%nat <-> (survivors n ls <= i)%nat).
Proof.
  revert base i p n. induction ls as [|ln ls IH]; intros base i p n; [done|].
  cbn [retained_lines]. unfold survivors.
  destruct n as [|n]; rewrite ?take_0; cbn [take omap list_omap length].
  - assert (retained_lines (S base) (ln :: ls) !! i = Some p -> (base < p <= base + S (length ls))%nat) as Hr.
    { cbn [retained_lines]. destruct (retained ln); cbn [app].
      - destruct i as [|i]; cbn; [intros; simplify_eq; lia|]. intros Hi. destruct (IH (S base) i p 0%nat Hi). lia.
      - intros Hi. destruct (IH (S base) i p 0%nat Hi). lia. }
    cbn [retained_lines] in Hr. intros Hi. specialize (Hr Hi). split; [lia|split; lia].
  - destruct (retained ln) eqn:E; cbn [app length].
    + destruct i as [|i]; cbn [lookup list_lookup]; [intros; simplify_eq; split; [lia|split; lia]|].
      intros Hi. destruct (IH (S base) i p n Hi) as [Hb Hiff]. unfold survivors in Hiff. split; [lia|]. split; intros; [|]; cbn in *; lia.
    + intros Hi. destruct (IH (S base) i p n Hi) as [Hb Hiff]. unfold survivors in Hiff. split; [lia|]. split; intros; lia.
Qed.

Lemma search_loop_ext fuel f g i j :
  (forall k, (k < j)%nat -> f k = g k) -> search_loop fuel f i j = search_loop fuel g i j.
Proof.
  revert i j. induction fuel as [|fuel IH]; intros i j Hfg; [done|]. cbn.
  destruct (decide (i < j)%nat) as [Hij|Hij]; [|done].
  assert (Nat.div2 (i + j) < j)%nat as Hlt.
  { rewrite Nat.div2_div. apply Nat.Div0.div_lt_upper_bound. lia. }
  rewrite (Hfg _ Hlt). destruct (g _); apply IH; intros k Hk; apply Hfg; lia.
Qed.

(** [sort.Search] finds the first line behind the offset. *)
Lemma search_survivors skip ls :
  sort_Search (length (retained_lines 1 ls)) (fun i => (skip <? default 0%nat (retained_lines 1 ls !! i))%nat)
  = survivors skip ls.
Proof.
  set (R := retained_lines 1 ls). set (f := fun i => (skip <? default 0%nat (R !! i))%nat).
  set (g := fun i => (survivors skip ls <=? i)%nat). unfold sort_Search.
  assert (survivors skip ls <= length R)%nat as Hle.
  { unfold R. rewrite retained_lines_length.
    pose proof (omap_app retained (take skip ls) (drop skip ls)) as Ho. rewrite take_drop in Ho. rewrite Ho, length_app.
    unfold survivors. lia. }
  rewrite (search_loop_ext _ f g).
  - destruct (search_loop_spec g (length R) 0 (length R)) as (Hr1 & Hr2 & Hr3).
    + intros a b Hab. unfold g. rewrite !Nat.leb_le. lia.
    + lia.
    + lia.
    + lia.
    + unfold g. by apply Nat.leb_le.
    + unfold g in Hr3 at 1. apply Nat.leb_le in Hr3.
      destruct (decide (survivors skip ls < search_loop (length R) g 0 (length R))%nat) as [Hlt|Hge]; [|lia].
      specialize (Hr2 _ Hlt). unfold g in Hr2. apply Nat.leb_gt in Hr2. lia.
  - intros k Hk. unfold f, g. destruct (lookup_lt_is_Some_2 R k Hk) as [p Hp]. rewrite Hp. unfold default, id.
    destruct (retained_lines_lookup 0 ls k p skip Hp) as [_ Hiff]. cbn in Hiff.
    destruct (Nat.ltb_spec skip p), (Nat.leb_spec (survivors skip ls) k); try done; lia.
Qed.

(** The last [n] messages, as [keepLast] asks for. *)
Definition last_messages (keepLast : Z) (h : list Message) : list Message := drop (length h - Z.to_nat keepLast) h.

Lemma truncated_skip_spec keepLast skip ls :
  omap retained (drop (truncated_skip keepLast skip (length ls) (retained_lines 1 ls)) ls)
  = last_messages keepLast (omap retained (drop skip ls)).
Proof.
  unfold truncated_skip, last_messages. cbv zeta.
  set (skip' := if (length ls <? skip)%nat then length ls else skip).
  assert (drop skip' ls = drop skip ls) as <-.
  { unfold skip'. destruct (Nat.ltb_spec (length ls) skip); [|done]. rewrite !drop_ge by lia. done. }
  rewrite search_survivors, retained_lines_length. set (a := survivors skip' ls). set (all := omap retained ls).
  assert (omap retained (drop skip' ls) = drop a all) as Hact by apply drop_survivors. rewrite Hact, length_drop.
  destruct (keepLast <=? 0)%Z eqn:E1; cbn [orb].
  { apply Z.leb_le in E1. rewrite drop_ge by done. cbn. rewrite drop_drop, drop_ge; [done|]. lia. }
  apply Z.leb_gt in E1. destruct (Nat.eqb_spec (length all - a) 0) as [E2|E2].
  { rewrite drop_ge by done. cbn. rewrite drop_drop, drop_ge; [done|lia]. }
  destruct (Z.ltb_spec keepLast (Z.of_nat (length all - a))) as [E3|E3].
  - set (k := (a + (length all - a - Z.to_nat keepLast - 1))%nat).
    assert (k < length (retained_lines 1 ls))%nat as Hk by (rewrite retained_lines_length; unfold k, all in *; lia).
    destruct (lookup_lt_is_Some_2 _ _ Hk) as [p Hp]. rewrite lookup_drop. fold k. rewrite Hp. unfold default, id.
    rewrite drop_survivors. fold all. rewrite drop_drop. f_equal.
    destruct (retained_lines_lookup 0 ls k p p Hp) as [Hb Hi1].
    destruct (retained_lines_lookup 0 ls k p (p - 1) Hp) as [_ Hi2].
    assert (survivors p ls <= S (survivors (p - 1) ls))%nat as Hstep.
    { unfold survivors. replace p with (p - 1 + 1)%nat at 1 by lia. rewrite <-(take_take_drop ls (p - 1) 1), omap_app, length_app.
      destruct (take 1 (drop (p - 1) ls)) as [|x [|y r]] eqn:Et; cbn; [lia|destruct (retained x); cbn; lia|].
      apply (f_equal length) in Et. rewrite length_take in Et. cbn [length] in Et. lia. }
    unfold k in *. lia.
  - rewrite Hact. replace (length all - a - Z.to_nat keepLast)%nat with 0%nat by lia. by rewrite drop_0.
Qed.

(** Truncating keeps exactly the last messages that are shown: lines that
    do not decode or hold an abandoned thought are neither counted nor brought
    back, an offset behind the end is taken as the end, and keeping none or
    fewer empties the session. *)
Theorem session_truncate_exact e key keepLast f f' h :
  visible key f = Ok h -> TruncateHistory e key keepLast f = (f', Ok tt) ->
  visible key f' = Ok (last_messages keepLast h) /\ f_Log f' = f_Log f.
Proof.
  intros (Hmeta & Hlong & ->)%visible_ok. unfold TruncateHistory.
  destruct (readMeta key f) as [meta|] eqn:Em; [|done].
  assert (sm_Skip meta = skip_of f) as Hs.
  { unfold readMeta in Em. unfold skip_of. destruct (f_Meta f); by simplify_eq/=. }
  assert (scanRetainedMessageLines (f_Log f) = Ok (length (lines_of f), retained_lines 1 (lines_of f))) as ->.
  { unfold scanRetainedMessageLines, lines_of in *. destruct (f_Log f); [by rewrite Hlong|done]. }
  intros (Hl & _ & meta' & Hm' & Hs')%writeMeta_good. cbn in Hs'. split; [|done].
  assert (lines_of f' = lines_of f) as Hlines by (unfold lines_of; by rewrite Hl).
  apply visible_ok. split; [right; by eexists|]. rewrite Hlines. split; [done|].
  unfold skip_of. rewrite Hm', Hs', Hs. symmetry. apply truncated_skip_spec.
Qed.

(** ** Authenticated messages *)

Lemma Inbound_cases e key eventID msg f f' r :
  ApplyAuthenticatedInbound e key eventID msg f = (f', r) -> r = Ok true ->
  exists h, ValidateAuthenticatedInbound msg eventID = Ok tt /\ visible key f = Ok h
    /\ (forall m, m ∈ h -> m_SourceEventID m <> eventID) /\ addMsgLocked e key msg f = (f', Ok tt).
Proof.
  unfold ApplyAuthenticatedInbound. intros E ->. destruct (ValidateAuthenticatedInbound msg eventID) as [[]|]; [|done].
  fold (visible key f) in E. destruct (visible key f) as [h|]; [|done]. exists h. split; [done|split; [done|]].
  destruct (List.find _ h) as [x|] eqn:Ef; [by destruct (SameAuthenticatedInbound x msg)|].
  destruct (addMsgLocked e key msg f) as [f1 [[]|]]; simplify_eq. split; [|done].
  intros m Hm%list_elem_of_In. pose proof (List.find_none _ _ Ef m Hm) as Hn. cbn in Hn. by bprop.
Qed.

Lemma validated_user msg eventID :
  ValidateAuthenticatedInbound msg eventID = Ok tt ->
  m_Role msg = "user" /\ m_SourceEventID msg = eventID /\ IsTransientAssistantThoughtMessage msg = false.
Proof.
  unfold ValidateAuthenticatedInbound. destruct (_ || _) eqn:E; [done|]. intros _.
  repeat (apply orb_false_iff in E as [E ?]). bprop. split; [done|split; [done|]].
  unfold IsTransientAssistantThoughtMessage. rewrite bool_decide_eq_false_2; [done|]. congruence.
Qed.

Lemma with_created_same now msg msg' :
  SameAuthenticatedInbound (with_created now msg) msg' = SameAuthenticatedInbound msg msg'.
Proof. unfold SameAuthenticatedInbound, with_created. by destruct (m_CreatedAt msg). Qed.

Lemma with_created_source now msg : m_SourceEventID (with_created now msg) = m_SourceEventID msg.
Proof. unfold with_created. by destruct (m_CreatedAt msg). Qed.

Lemma find_source (eventID : string) (before after : list Message) m :
  Forall (fun m => m_SourceEventID m <> eventID) before -> m_SourceEventID m = eventID ->
  List.find (fun existing => bool_decide (m_SourceEventID existing = eventID)) (before ++ m :: after) = Some m.
Proof.
  intros Hb Hm. induction Hb as [|m' before Hm' _ IH]; cbn.
  - by rewrite bool_decide_eq_true_2.
  - by rewrite bool_decide_eq_false_2.
Qed.

(** C25: On a log that ends with a newline and is no shorter than what its
    metadata skips, an authenticated message whose line is below the size the
    reader accepts, and that is acknowledged as new, is the last one shown and
    the only one of its event. For as long as the stored
    message is shown, at once or after any other change to the files, the
    message offered again is acknowledged as known, any other message under the
    event is refused, and neither writes anything. (A truncation or a rewrite of
    a moderated history ends this: [session_truncated_event_again],
    [session_retry_refused].) *)
Theorem session_inbound_once e key eventID msg f f' h :
  visible key f = Ok h -> log_whole f -> encoded_size (with_created (e_Now e) msg) < maxLineSize ->
  ApplyAuthenticatedInbound e key eventID msg f = (f', Ok true) ->
  visible key f' = Ok (h ++ [with_created (e_Now e) msg])%list
  /\ Forall (fun m => m_SourceEventID m <> eventID) h
  /\ forall g before after, visible key g = Ok (before ++ with_created (e_Now e) msg :: after)%list ->
       Forall (fun m => m_SourceEventID m <> eventID) before ->
       forall e' msg', ValidateAuthenticatedInbound msg' eventID = Ok tt ->
         ApplyAuthenticatedInbound e' key eventID msg' g
         = (g, if SameAuthenticatedInbound msg msg' then Ok false else Err "memory: authenticated Event ID substitution").
Proof.
  intros Hv Hw Hsize E. destruct (Inbound_cases _ _ _ _ _ _ _ E eq_refl) as (h' & Hval & Hv' & Hnone & Hadd).
  rewrite Hv in Hv'. simplify_eq. destruct (validated_user _ _ Hval) as (_ & Hsrc & Htr).
  destruct (addMsgLocked_good _ _ _ _ _ _ Hv Hw Htr Hsize Hadd) as [Hvis _].
  split; [done|split; [by apply Forall_forall|]]. intros g before after Hg Hb e' msg' Hval'.
  unfold ApplyAuthenticatedInbound. rewrite Hval'. fold (visible key g). rewrite Hg.
  rewrite (find_source eventID before after) by (done || by rewrite with_created_source).
  rewrite with_created_same. by destruct (SameAuthenticatedInbound msg msg').
Qed.

Lemma omap_drop_none n ls x : retained x = None -> omap retained (drop n (ls ++ [x])%list) = omap retained (drop n ls).
Proof.
  intros Hx. rewrite drop_app, omap_app. destruct (n - length ls)%nat as [|k]; cbn [drop omap list_omap].
  - by rewrite Hx, app_nil_r.
  - rewrite drop_nil. by rewrite app_nil_r.
Qed.

(** Behind a line that an interrupted append left without its newline, a
    message that is acknowledged as durably stored is lost: it joins the broken
    line and is not shown, and neither is a complete message that only missed
    its newline. *)
Theorem session_torn_append_lost e key eventID msg f f' l t h :
  visible key f = Ok h -> f_Log f = Some l -> lg_Tail l = Some t ->
  ln_Size t + encoded_size (with_created (e_Now e) msg) < maxLineSize ->
  ApplyAuthenticatedInbound e key eventID msg f = (f', Ok true) ->
  exists h' lost, visible key f' = Ok h' /\ h = (h' ++ lost)%list /\ Forall (fun m => m_SourceEventID m <> eventID) h'.
Proof.
  intros Hv Hl Ht Hsize E. destruct (Inbound_cases _ _ _ _ _ _ _ E eq_refl) as (h1 & Hval & Hv' & Hnone & Hadd).
  rewrite Hv in Hv'. simplify_eq. apply visible_ok in Hv as (Hmeta & Hlong & ->).
  exists (omap retained (drop (skip_of f) (lg_Lines l))), (omap retained (drop (skip_of f - length (lg_Lines l)) [t])).
  unfold addMsgLocked in Hadd. destruct (append_line _ _ _) as [l' [[]|]] eqn:Ea; [|done].
  unfold append_line in Ea. rewrite Hl in Ea. destruct (e_Append e); simplify_eq. cbn [default id from_option] in *.
  destruct (readMeta key _) as [meta|] eqn:Em; [|done].
  assert (sm_Skip meta = skip_of f) as Hs.
  { unfold readMeta in Em. cbn [set_Log f_Meta] in Em. unfold skip_of. destruct (f_Meta f); by simplify_eq/=. }
  apply writeMeta_good in Hadd as (Hl' & _ & meta' & Hm' & Hs'). cbn in Hl', Hs'. rewrite Hs in Hs'.
  assert (omap retained (drop (skip_of f) (lines_of f))
          = (omap retained (drop (skip_of f) (lg_Lines l)) ++ omap retained (drop (skip_of f - length (lg_Lines l)) [t]))%list)
    as Hsplit.
  { unfold lines_of. rewrite Hl. unfold all_lines. rewrite Ht. cbn [option_list]. by rewrite drop_app, omap_app. }
  split; [|split; [exact Hsplit|]].
  - apply visible_ok. split; [right; by eexists|]. unfold lines_of at 1 2. rewrite Hl'. unfold all_lines. cbn [lg_Lines lg_Tail
      option_list]. rewrite app_nil_r. split.
    + unfold lines_of in Hlong. rewrite Hl in Hlong. unfold all_lines in Hlong. rewrite existsb_app in Hlong.
      apply orb_false_iff in Hlong as [Hlong _]. rewrite existsb_app, Hlong. cbn. rewrite Ht. cbn.
      unfold too_long. cbn. rewrite orb_false_r. by apply N.leb_gt.
    + rewrite omap_drop_none by (by rewrite Ht). unfold skip_of at 2. by rewrite Hm', Hs'.
  - rewrite Hsplit in Hnone. apply Forall_forall. intros m Hm. apply Hnone. apply elem_of_app. by left.
Qed.

(** ** Rewriting the log *)

Lemma recorded_suffix key f h : visible key f = Ok h -> exists truncated, recorded f = (truncated ++ h)%list.
Proof.
  intros (_ & _ & ->)%visible_ok. exists (omap retained (take (skip_of f) (lines_of f))).
  rewrite <-omap_app, take_drop. unfold recorded, lines_of. by destruct (f_Log f).
Qed.

Lemma rewritten_visible key f meta msgs :
  f_Meta f = FileDoc meta -> sm_Skip meta = 0%nat ->
  f_Log f = Some {| lg_Lines := message_line <$> FilterInvalidHistoryMessages msgs; lg_Tail := None |} ->
  Forall (fun msg => encoded_size msg < maxLineSize) (FilterInvalidHistoryMessages msgs) ->
  visible key f = Ok (FilterInvalidHistoryMessages msgs).
Proof.
  intros Hm Hs Hl Hsize. apply visible_ok. split; [right; by eexists|]. unfold lines_of, skip_of. rewrite Hl, Hm, Hs.
  unfold all_lines. cbn [lg_Lines lg_Tail option_list]. rewrite app_nil_r, drop_0. split.
  - apply not_true_is_false. intros (ln & Hin & Hlong)%existsb_exists. apply list_elem_of_In, list_elem_of_fmap in Hin.
    destruct Hin as (msg & -> & Hmsg). rewrite Forall_forall in Hsize. specialize (Hsize msg Hmsg).
    unfold too_long in Hlong. cbn in Hlong. apply N.leb_le in Hlong. lia.
  - symmetry. apply omap_retained_lines, filter_valid.
Qed.

(** Writing the metadata first and the log second, with either write failing:
    what is shown is what was, everything recorded, or the new messages. *)
Lemma rewrite_crash e key meta msgs f f1 f' h r1 r :
  visible key f = Ok h -> sm_Skip meta = 0%nat ->
  Forall (fun msg => encoded_size msg < maxLineSize) (FilterInvalidHistoryMessages msgs) ->
  writeMeta (e_WriteMeta e) key meta f = (f1, r1) ->
  (r1 <> Ok tt /\ f' = f1 /\ r <> Ok tt) \/ rewriteJSONL (e_WriteLog e) msgs f1 = (f', r) /\ r1 = Ok tt ->
  (r <> Ok tt /\ (visible key f' = Ok h \/ visible key f' = Ok (recorded f)))
  \/ visible key f' = Ok (FilterInvalidHistoryMessages msgs).
Proof.
  intros Hv Hs Hsize Hw Hr. pose proof Hv as (_ & Hlong & _)%visible_ok.
  assert (forall g meta', f_Log g = f_Log f -> f_Meta g = FileDoc meta' -> sm_Skip meta' = 0%nat ->
            visible key g = Ok (recorded f)) as Hall.
  { intros g meta' Hl Hm Hs'. apply visible_ok. split; [right; by eexists|]. unfold lines_of, skip_of, recorded in *.
    rewrite Hl, Hm, Hs', drop_0. split; [done|by destruct (f_Log f)]. }
  destruct (writeMeta_cases _ _ _ _ _ _ Hw) as (Hl & _ & Hcase). destruct Hr as [(Hr1 & -> & Hr)|[Hrew ->]].
  - left. split; [done|]. destruct Hcase as [[-> _]|(meta' & Hm & Hs')]; [by left|right].
    eapply Hall; [done|done|congruence].
  - destruct Hcase as [[_ ?]|(meta' & Hm & Hs')]; [done|]. rewrite Hs in Hs'.
    destruct (rewriteJSONL_cases _ _ _ _ _ Hrew) as (Hm1 & _ & [[-> Hne]|Hlog]).
    + left. split; [done|right]. by eapply Hall.
    + right. eapply rewritten_visible; [by rewrite Hm1|done|done|done].
Qed.

(** C31: Replacing the history is safe against a crash or an error at any call,
    provided each line written is below the size the reader accepts: the session then shows the new messages, or the old ones, or the old ones
    with those that had been truncated before them; an acknowledged
    replacement shows the new ones. *)
Theorem session_rewrite_crash e key history f f' h r :
  let written := FilterInvalidHistoryMessages
                   (with_created (e_Now e) <$> PreserveModeratedOriginals (FilterInvalidHistoryMessages history) h) in
  visible key f = Ok h -> Forall (fun msg => encoded_size msg < maxLineSize) written ->
  SetHistory e key history f = (f', r) ->
  (r <> Ok tt /\ (visible key f' = Ok h \/ exists truncated, visible key f' = Ok (truncated ++ h)%list))
  \/ visible key f' = Ok written.
Proof.
  intros written Hv Hsize E. destruct (recorded_suffix key f h Hv) as [truncated Hrec]. unfold SetHistory in E.
  pose proof Hv as Hv0. unfold visible in Hv0. destruct (readMeta key f) as [meta|]; [|done]. rewrite Hv0 in E.
  destruct (writeMeta _ _ _ f) as [f1 r1] eqn:Ew.
  eapply (rewrite_crash e key _ _ f f1 f' h r1 r) in Ew; [|done|done|exact Hsize|].
  - destruct Ew as [[Hr [?|Hall]]|?]; [left; split; [done|by left]|left; split; [done|right]|by right].
    exists truncated. by rewrite Hall, Hrec.
  - destruct r1 as [[]|err]; [by right|left]. by simplify_eq.
Qed.

(** Compacting never changes what a session shows when it succeeds, and a
    crash in the middle at most brings truncated messages back in front. *)
Theorem session_compact_crash e key f f' h r :
  visible key f = Ok h -> Forall (fun msg => encoded_size msg < maxLineSize) h ->
  Compact e key f = (f', r) ->
  visible key f' = Ok h \/ r <> Ok tt /\ exists truncated, visible key f' = Ok (truncated ++ h)%list.
Proof.
  intros Hv Hsize E. destruct (recorded_suffix key f h Hv) as [truncated Hrec]. unfold Compact in E.
  pose proof Hv as Hv0. unfold visible in Hv0. destruct (readMeta key f) as [meta|]; [|done].
  destruct (sm_Skip meta =? 0)%nat; [simplify_eq; by left|]. rewrite Hv0 in E.
  assert (FilterInvalidHistoryMessages h = h) as Hf.
  { apply visible_ok in Hv as (_ & _ & ->). generalize (drop (skip_of f) (lines_of f)) as ls. induction ls as [|ln ls IH]; [done|].
    cbn [omap list_omap]. destruct (retained ln) as [m|] eqn:Er; [|done]. cbn. unfold retained in Er.
    destruct (ln_Message ln); [|done]. destruct (IsTransientAssistantThoughtMessage _) eqn:Et; simplify_eq. rewrite Et. cbn.
    f_equal. exact IH. }
  destruct (writeMeta _ _ _ f) as [f1 r1] eqn:Ew.
  eapply (rewrite_crash e key _ h f f1 f' h r1 r) in Ew; [|done|done|by rewrite Hf|].
  - rewrite Hf in Ew. destruct Ew as [[Hr [?|Hall]]|?]; [by left|right|by left]. split; [done|].
    exists truncated. by rewrite Hall, Hrec.
  - destruct r1 as [[]|err]; [by right|left]. by simplify_eq.
Qed.

(** A message whose encoding is ten megabytes or longer is accepted, and
    from then on the session can neither be read nor truncated nor replaced. *)
Theorem session_oversized_unreadable e key msg f f' :
  IsTransientAssistantThoughtMessage msg = false -> maxLineSize <= encoded_size (with_created (e_Now e) msg) ->
  AddFullMessage e key msg f = (f', Ok tt) ->
  (forall iteration, is_ok (GetHistory iteration key f') = false)
  /\ (forall e' keepLast, exists err, TruncateHistory e' key keepLast f' = (f', Err err))
  /\ (forall e' history, exists err, SetHistory e' key history f' = (f', Err err)).
Proof.
  intros Htr Hsize. unfold AddFullMessage. rewrite Htr. unfold addMsgLocked.
  destruct (append_line _ _ _) as [l [[]|]] eqn:Ea; [|done].
  destruct (readMeta key _) as [meta|]; [|done]. intros (Hl & _ & meta' & Hm & _)%writeMeta_good. cbn in Hl.
  assert (exists l', l = Some l' /\ existsb too_long (all_lines l') = true) as (l' & -> & Hlong).
  { unfold append_line in Ea. destruct (e_Append e); simplify_eq. eexists. split; [done|].
    unfold all_lines. cbn [lg_Lines lg_Tail option_list]. rewrite app_nil_r, existsb_app. apply orb_true_iff. right.
    cbn. rewrite orb_false_r. apply N.leb_le. unfold extend, message_line.
    destruct (lg_Tail _); cbn; lia. }
  assert (forall skip, readMessages (f_Log f') skip = Err "memory: scan jsonl") as Hread
    by (intros skip; rewrite Hl; cbn; by rewrite Hlong).
  assert (exists m, readMeta key f' = Ok m) as [m Hmeta] by (unfold readMeta; rewrite Hm; by eexists).
  split; [|split].
  - intros iteration. unfold GetHistory. by rewrite Hmeta, Hread.
  - intros e' keepLast. unfold TruncateHistory. rewrite Hmeta, Hl. cbn. rewrite Hlong. by eexists.
  - intros e' history. unfold SetHistory. rewrite Hmeta, Hread. by eexists.
Qed.

(** ** Moderation along every run *)

Inductive op :=
| OAdd (msg : Message)
| OInbound (eventID : string) (msg : Message)
| OModerate (decision : RoomModerationDecision)
| OSummary (summary : string)
| OTruncate (keepLast : Z)
| OSetHistory (history : list Message)
| OCompact.

Definition exec (key : string) (f : files) (step : env * op) : files :=
  let '(e, o) := step in
  match o with
  | OAdd msg => (AddFullMessage e key msg f).1
  | OInbound eventID msg => (ApplyAuthenticatedInbound e key eventID msg f).1
  | OModerate decision => (ApplyRoomModeration e decision f).1
  | OSummary summary => (SetSummary e key summary f).1
  | OTruncate keepLast => (TruncateHistory e key keepLast f).1
  | OSetHistory history => (SetHistory e key history f).1
  | OCompact => (Compact e key f).1
  end.

Lemma writeMeta_moderation fails key meta f : f_Moderation (writeMeta fails key meta f).1 = f_Moderation f.
Proof. done. Qed.

Lemma rewriteJSONL_moderation fails msgs f : f_Moderation (rewriteJSONL fails msgs f).1 = f_Moderation f.
Proof. unfold rewriteJSONL. cbn. by case_match. Qed.

Lemma addMsgLocked_moderation e key msg f : f_Moderation (addMsgLocked e key msg f).1 = f_Moderation f.
Proof.
  unfold addMsgLocked. destruct (append_line _ _ _) as [l [u|]]; [|done]. by destruct (readMeta key _).
Qed.

(** Only moderation writes the decisions. *)
Lemma exec_moderation key f e o :
  (forall decision, o <> OModerate decision) -> f_Moderation (exec key f (e, o)) = f_Moderation f.
Proof.
  intros Ho. destruct o; cbn; [| |by destruct (Ho decision)| | | |].
  - unfold AddFullMessage. destruct (IsTransientAssistantThoughtMessage msg); [done|apply addMsgLocked_moderation].
  - unfold ApplyAuthenticatedInbound. destruct (ValidateAuthenticatedInbound _ _); [|done].
    fold (visible key f). destruct (visible key f); [|done]. destruct (List.find _ _).
    + by destruct (SameAuthenticatedInbound _ _).
    + pose proof (addMsgLocked_moderation e key msg f) as Hm. by destruct (addMsgLocked e key msg f) as [f1 [u|]].
  - unfold SetSummary. by destruct (readMeta key f).
  - unfold TruncateHistory. destruct (readMeta key f); [|done].
    destruct (scanRetainedMessageLines _) as [[? ?]|]; done.
  - unfold SetHistory. destruct (readMeta key f); [|done]. destruct (readMessages _ _); [|done].
    destruct (writeMeta _ _ _ f) as [f1 [u|]] eqn:E; apply (f_equal fst) in E; cbn [fst] in E; subst; [|done].
    by rewrite rewriteJSONL_moderation.
  - unfold Compact. destruct (readMeta key f); [|done]. destruct (_ =? _)%nat; [done|]. destruct (readMessages _ _); [|done].
    destruct (writeMeta _ _ _ f) as [f1 [u|]] eqn:E; apply (f_equal fst) in E; cbn [fst] in E; subst; [|done].
    by rewrite rewriteJSONL_moderation.
Qed.

Lemma decisions_ok_valid decisions : decisions_ok decisions -> map_all decision_valid decisions = true.
Proof.
  intros Hok. unfold map_all. rewrite forallb_forall. intros [t d] Hin%list_elem_of_In%elem_of_map_to_list. cbn.
  destruct (Hok _ _ Hin) as (Ht & Hne & Hr & Hrev & _ & Hde & Ha). unfold decision_valid.
  rewrite bool_decide_eq_true_2 by done. assert ((d_DecisionRevision d =? 0) = false) as -> by (apply N.eqb_neq; lia).
  unfold AdvanceRoomModeration. cbn [d_RoomID d_TargetEventID d_DecisionEventID d_DecisionRevision d_Action].
  rewrite lookup_empty, !bool_decide_eq_false_2 by congruence.
  destruct Ha as [-> | ->]; reflexivity.
Qed.

(** Along every run of operations, under all failing writes, crashes and
    torn appends, the decisions of a session stay readable and only move
    forward: a target keeps its room, its revision never falls, and the
    decision at a revision never changes. *)
Theorem session_moderation_forward key steps f decisions :
  readModeration f = Ok decisions -> decisions_ok decisions ->
  exists decisions', readModeration (foldl (exec key) f steps) = Ok decisions'
    /\ decisions_ok decisions' /\ decisions_le decisions decisions'.
Proof.
  revert f decisions. induction steps as [|[e o] steps IH]; intros f decisions Hread Hok; cbn [foldl].
  { exists decisions. split; [done|split; [done|apply decisions_le_refl]]. }
  assert (exists d, readModeration (exec key f (e, o)) = Ok d /\ decisions_ok d /\ decisions_le decisions d)
    as (d & Hd & Hokd & Hle).
  { assert ((exists decision, o = OModerate decision) \/ forall decision, o <> OModerate decision) as [[decision ->]|Hno]
      by (destruct o; [by right|by right|left; by eexists|by right..]).
    - cbn. unfold ApplyRoomModeration. rewrite Hread.
      destruct (AdvanceRoomModeration decisions decision) as [[d []]|] eqn:Ea; cbn;
        [|exists decisions; split; [done|split; [done|apply decisions_le_refl]]..].
      destruct (Advance_forward _ _ _ _ Hok Ea) as [Hokd Hle].
      unfold writeModeration. pose proof (WriteFileAtomic_atomic (e_WriteModeration e) d (f_Moderation f)) as [[Hw|Hw] _].
      + exists decisions. split; [|split; [done|apply decisions_le_refl]].
        destruct (wo_result _); cbn; unfold readModeration in *; cbn; by rewrite Hw.
      + exists d. split; [|done]. destruct (wo_result _); cbn; unfold readModeration; cbn; rewrite Hw;
          by rewrite decisions_ok_valid.
    - exists decisions. unfold readModeration. rewrite exec_moderation by done.
      split; [done|split; [done|apply decisions_le_refl]]. }
  destruct (IH _ _ Hd Hokd) as (d' & Hd' & Hok' & Hle'). exists d'. split; [done|split; [done|]].
  by eapply decisions_le_trans.
Qed.

(** ** Sessions and their aliases *)

(** The directory: the files under each sanitized key. *)
Abbreviation directory := (gmap string files).

Definition files_of (key : string) (dir : directory) : files := default no_files (dir !! sanitizeKey key).
Definition put_files (key : string) (f : files) (dir : directory) : directory := <[sanitizeKey key := f]> dir.

(** The loop of [normalizeAliases], with the set of aliases seen. *)
Fixpoint normalize_aliases (canonicalKey : string) (seen aliases : list string) : list string :=
  match aliases with
  | [] => []
  | alias :: aliases =>
      let alias := TrimSpace alias in
      if bool_decide (alias = "") || bool_decide (alias = canonicalKey) then normalize_aliases canonicalKey seen aliases
      else if bool_decide (alias ∈ seen) then normalize_aliases canonicalKey seen aliases
      else alias :: normalize_aliases canonicalKey (alias :: seen) aliases
  end.
Definition normalizeAliases (canonicalKey : string) (aliases : list string) : list string :=
  normalize_aliases (TrimSpace canonicalKey) [] aliases.

Definition UpsertSessionMeta (e : env) (key scope : string) (aliases : list string) (f : files) : files * result unit :=
  match readMeta key f with
  | Err err => (f, Err err)
  | Ok meta =>
      writeMeta (e_WriteMeta e) key
        {| sm_Key := sm_Key meta; sm_Summary := sm_Summary meta; sm_Skip := sm_Skip meta; sm_Count := sm_Count meta;
           sm_CreatedAt := created e meta; sm_UpdatedAt := e_Now e; sm_Scope := scope;
           sm_Aliases := normalizeAliases key aliases |} f
  end.

Definition HasSuffix (s suffix : string) : bool := HasPrefix (str_rev s) (str_rev suffix).

(** [len(strings.SplitN(s, ":", 4)) == 3]: two colons and no third. *)
Definition three_parts (s : string) : bool :=
  match CutByte 58 s with
  | Some (_, rest) => match CutByte 58 rest with Some (_, rest) => negb (ContainsByte rest 58) | None => false end
  | None => false
  end.

Definition isMainSessionAlias (Sum256 : string -> string) (alias : string) : bool :=
  if bool_decide (alias = "") then false else
  if HasPrefix alias "agent:" && HasSuffix alias ":main" && three_parts alias then true else
  HasPrefix alias "sk_v1_"
  && existsb (fun agentID => bool_decide ("sk_v1_" +:+ hex_EncodeToString (Sum256 ("agent:" +:+ agentID +:+ ":main")) = alias))
       ["main"; "Main"; "MAIN"].

Definition sessionHasVisibleContentLocked (meta : SessionMeta) (f : files) : result bool :=
  if negb (bool_decide (TrimSpace (sm_Summary meta) = "")) then Ok true else
  let? history := readMessages (f_Log f) (sm_Skip meta) in
  Ok (negb (bool_decide (history = []))).

(** Put the previous log back, or remove the new one. *)
Definition restoreRawJSONL (fails : write_step -> bool) (previous : option log) (f : files) : files * result unit :=
  match previous with
  | None => if fails RemoveTemp then (f, Err "memory: remove jsonl rollback") else (set_Log None f, Ok tt)
  | Some l =>
      let out := WriteFileAtomic fails l FileAbsent in
      (match wo_file out with FileDoc l => set_Log (Some l) f | _ => f end, wo_result out)
  end.

(** The outcome for the canonical session's files; the alias is only read. *)
Definition promoteAliasHistoryLocked (e : env) (key alias scope : string) (aliases : list string) (f aliasFiles : files)
    : files * result bool :=
  match readMeta key f with
  | Err err => (f, Err err)
  | Ok meta =>
      match sessionHasVisibleContentLocked meta f with
      | Err err => (f, Err err)
      | Ok true => (f, Ok false)
      | Ok false =>
          match readMeta alias aliasFiles with
          | Err err => (f, Err err)
          | Ok aliasMeta =>
              match readMessages (f_Log aliasFiles) (sm_Skip aliasMeta) with
              | Err err => (f, Err err)
              | Ok aliasHistory =>
                  let aliasSummary := TrimSpace (sm_Summary aliasMeta) in
                  if bool_decide (aliasHistory = []) && bool_decide (aliasSummary = "") then (f, Ok false) else
                  let promoted :=
                    {| sm_Key := sm_Key meta;
                       sm_Summary := if bool_decide (aliasSummary = "") then sm_Summary meta else aliasSummary;
                       sm_Skip := 0; sm_Count := length aliasHistory; sm_CreatedAt := created e meta;
                       sm_UpdatedAt := e_Now e; sm_Scope := scope; sm_Aliases := normalizeAliases key aliases |} in
                  match rewriteJSONL (e_WriteLog e) aliasHistory f with
                  | (f1, Err err) => (f1, Err err)
                  | (f1, Ok _) =>
                      match writeMeta (e_WriteMeta e) key promoted f1 with
                      | (f2, Ok _) => (f2, Ok true)
                      | (f2, Err err) =>
                          match restoreRawJSONL (e_Restore e) (f_Log f) f2 with
                          | (f3, Ok _) => (f3, Err err)
                          | (f3, Err _) => (f3, Err "memory: write promoted meta (rollback jsonl)")
                          end
                      end
                  end
              end
          end
      end
  end.

Fixpoint promote_loop (Sum256 : string -> string) (e : env) (key scope : string) (aliases rest : list string) (dir : directory)
    : directory * result bool :=
  match rest with
  | [] => (dir, Ok false)
  | alias :: rest =>
      if isMainSessionAlias Sum256 alias then promote_loop Sum256 e key scope aliases rest dir else
      let '(f, r) := promoteAliasHistoryLocked e key alias scope aliases (files_of key dir) (files_of alias dir) in
      let dir := put_files key f dir in
      match r with
      | Ok false => promote_loop Sum256 e key scope aliases rest dir
      | r => (dir, r)
      end
  end.

Definition PromoteAliasHistory (Sum256 : string -> string) (e : env) (key scope : string) (aliases : list string)
    (dir : directory) : directory * result bool :=
  let key := TrimSpace key in
  if bool_decide (key = "") then (dir, Ok false) else
  let aliases := normalizeAliases key aliases in
  promote_loop Sum256 e key scope aliases aliases dir.

Definition sessionExists (key : string) (dir : directory) : bool :=
  if bool_decide (key = "") then false else
  let f := files_of key dir in
  match f_Log f, f_Meta f with None, FileAbsent => false | _, _ => true end.

Definition shouldShortCircuitSessionResolve `{CaseMap} (sessionKey : string) : bool :=
  let sessionKey := TrimSpace (lower sessionKey) in
  if bool_decide (sessionKey = "") then false
  else negb (ContainsByte sessionKey 58 || ContainsByte sessionKey 47 || ContainsByte sessionKey 92).

(** The metadata documents in the order of [os.ReadDir], by file name. *)
Definition meta_entries (dir : directory) : list SessionMeta :=
  omap (fun '(_, f) => match f_Meta f with FileDoc meta => Some meta | _ => None end)
    (sort_by (fun entry => entry.1 +:+ ".meta.json") (map_to_list dir)).

Fixpoint resolve_loop (sessionKey directMetaMatch : string) (metas : list SessionMeta) : option string :=
  match metas with
  | [] => if bool_decide (directMetaMatch = "") then None else Some directMetaMatch
  | meta :: metas =>
      if bool_decide (sm_Key meta = "") then resolve_loop sessionKey directMetaMatch metas else
      let directMetaMatch := if bool_decide (sm_Key meta = sessionKey) then sm_Key meta else directMetaMatch in
      if existsb (fun alias => bool_decide (alias = sessionKey) && negb (bool_decide (sm_Key meta = sessionKey))) (sm_Aliases meta)
      then Some (sm_Key meta)
      else resolve_loop sessionKey directMetaMatch metas
  end.

Definition ResolveSessionKey `{CaseMap} (sessionKey : string) (dir : directory) : string * bool :=
  let sessionKey := TrimSpace sessionKey in
  if bool_decide (sessionKey = "") then ("", false) else
  let hasDirectSession := sessionExists sessionKey dir in
  if hasDirectSession && shouldShortCircuitSessionResolve sessionKey then (sessionKey, true) else
  match resolve_loop sessionKey "" (meta_entries dir) with
  | Some key => (key, true)
  | None => if hasDirectSession then (sessionKey, true) else ("", false)
  end.

(** [ListSessions]: the keys of the metadata documents. *)
Definition ListSessions (dir : directory) : list string :=
  List.filter (fun key => negb (bool_decide (key = ""))) (sm_Key <$> meta_entries dir).

Lemma promote_locked_safe e key alias scope aliases f aliasFiles f' r h :
  promoteAliasHistoryLocked e key alias scope aliases f aliasFiles = (f', r) ->
  visible key f = Ok h -> h <> [] -> f' = f /\ r = Ok false.
Proof.
  unfold promoteAliasHistoryLocked, visible. destruct (readMeta key f) as [meta|]; [|done]. intros E Hv Hne.
  unfold sessionHasVisibleContentLocked in E. rewrite Hv in E.
  destruct (negb (bool_decide (TrimSpace (sm_Summary meta) = ""))); [by simplify_eq|].
  rewrite bool_decide_eq_false_2 in E by done. cbn in E. by simplify_eq.
Qed.

(** Taking over the history of an alias changes the files of the canonical
    session only, never when that session already shows messages, and never
    from a main session, which all sessions of an agent share. *)
Theorem session_promote_safe Sum256 e key scope aliases dir dir' r :
  PromoteAliasHistory Sum256 e key scope aliases dir = (dir', r) ->
  (forall other, sanitizeKey other <> sanitizeKey (TrimSpace key) -> files_of other dir' = files_of other dir)
  /\ (forall h, visible (TrimSpace key) (files_of (TrimSpace key) dir) = Ok h -> h <> [] ->
        files_of (TrimSpace key) dir' = files_of (TrimSpace key) dir /\ r = Ok false)
  /\ (forallb (isMainSessionAlias Sum256) (normalizeAliases (TrimSpace key) aliases) = true -> dir' = dir).
Proof.
  unfold PromoteAliasHistory. case_bool_decide; [intros; by simplify_eq|].
  set (k := TrimSpace key). set (as_ := normalizeAliases k aliases). generalize as_ at 2 3 as rest.
  intros rest. revert dir. induction rest as [|alias rest IH]; intros dir; cbn [promote_loop forallb].
  { intros. by simplify_eq. }
  destruct (isMainSessionAlias Sum256 alias); [apply IH|].
  destruct (promoteAliasHistoryLocked _ _ _ _ _ _ _) as [f rr] eqn:El.
  assert (forall other, sanitizeKey other <> sanitizeKey k ->
            files_of other (put_files k f dir) = files_of other dir) as Hother.
  { intros other Hne. unfold files_of, put_files. by rewrite lookup_insert_ne. }
  assert (files_of k (put_files k f dir) = f) as Hself by (unfold files_of, put_files; by rewrite lookup_insert_eq).
  assert (forall h, visible k (files_of k dir) = Ok h -> h <> [] -> f = files_of k dir /\ rr = Ok false) as Hsafe
    by (intros h Hv Hne; by eapply promote_locked_safe).
  destruct rr as [[]|err]; intros E; simplify_eq.
  - split; [done|]. split; [|done]. intros h Hv Hne. by destruct (Hsafe h Hv Hne).
  - destruct (IH _ E) as (IH1 & IH2 & _). split; [|split; [|done]].
    + intros other Hne. rewrite IH1, Hother by done. done.
    + intros h Hv Hne. destruct (Hsafe h Hv Hne) as [-> _]. rewrite Hself in IH2. by apply (IH2 h).
  - split; [done|]. split; [|done]. intros h Hv Hne. by destruct (Hsafe h Hv Hne).
Qed.

End store.

(** ** A session *)

Definition ex_size (msg : Message) : N := 100 + slen (m_Content msg).

Definition ex_msg : Message := ex_message ex_event "secret" ["media://1"].
Definition ex_other : string := "evt_fedcba9876543210fedcba9876543210fedcba9876543210fedcba9876543210".

(** The first message is stored. *)
Definition ex_stored : files := (ApplyAuthenticatedInbound ex_size (all_good 7) "s" ex_event ex_msg no_files).1.

(** The second append is interrupted after ten bytes. *)
Definition ex_torn : files :=
  (AddMessage ex_size {| e_Now := 8; e_Append := AppendPartial 10; e_WriteMeta := fun _ => false;
                         e_WriteLog := fun _ => false; e_WriteModeration := fun _ => false; e_Restore := fun _ => false |}
     "s" "assistant" "answer" ex_stored).1.

(** An answer has been added; the retry comes after it. *)
Definition ex_answered : files := (AddMessage ex_size (all_good 8) "s" "assistant" "answer" ex_stored).1.

Definition ex_after : list Message := match visible "s" ex_answered with Ok (_ :: after) => after | _ => [] end.

Lemma session_inbound_once_witness :
  visible "s" ex_stored = Ok [with_created 7 ex_msg] /\ length ex_after = 1%nat /\
  ApplyAuthenticatedInbound ex_size (all_good 9) "s" ex_event ex_msg ex_answered = (ex_answered, Ok false) /\
  ApplyAuthenticatedInbound ex_size (all_good 9) "s" ex_event (ex_message ex_event "other" []) ex_answered
  = (ex_answered, Err "memory: authenticated Event ID substitution").
Proof.
  destruct (session_inbound_once ex_size (all_good 7) "s" ex_event ex_msg no_files ex_stored []) as (Hv & _ & Hretry);
    [reflexivity|split; [done|cbn; lia]|vm_compute; reflexivity|vm_compute; reflexivity|].
  assert (visible "s" ex_answered = Ok ([] ++ with_created 7 ex_msg :: ex_after)%list) as Hg by (vm_compute; reflexivity).
  split; [exact Hv|]. split; [vm_compute; reflexivity|]. split.
  - exact (Hretry ex_answered [] ex_after Hg (Forall_nil_2 _) (all_good 9) ex_msg ltac:(vm_compute; reflexivity)).
  - exact (Hretry ex_answered [] ex_after Hg (Forall_nil_2 _) (all_good 9) (ex_message ex_event "other" [])
             ltac:(vm_compute; reflexivity)).
Defined.

Lemma session_torn_append_lost_witness :
  exists h' lost,
    visible "s" (ApplyAuthenticatedInbound ex_size (all_good 9) "s" ex_other (ex_message ex_other "hello" []) ex_torn).1 = Ok h'
    /\ [with_created 7 ex_msg] = (h' ++ lost)%list /\ Forall (fun m => m_SourceEventID m <> ex_other) h'.
Proof.
  eapply (session_torn_append_lost ex_size (all_good 9) "s" ex_other (ex_message ex_other "hello" []) ex_torn);
    [vm_compute; reflexivity|vm_compute; reflexivity|reflexivity|vm_compute; reflexivity|vm_compute; reflexivity].
Defined.

Lemma session_truncate_exact_witness :
  visible "s" (TruncateHistory (all_good 9) "s" 0 ex_stored).1 = Ok []
  /\ f_Log (TruncateHistory (all_good 9) "s" 0 ex_stored).1 = f_Log ex_stored.
Proof.
  apply (session_truncate_exact (all_good 9) "s" 0 ex_stored _ [with_created 7 ex_msg]); vm_compute; reflexivity.
Defined.

(** The replacement of the log fails after the metadata has been written. *)
Definition ex_crash : env :=
  {| e_Now := 9; e_Append := AppendDone; e_WriteMeta := fun _ => false;
     e_WriteLog := fun step => bool_decide (step = RenameTemp); e_WriteModeration := fun _ => false; e_Restore := fun _ => false |}.

Definition ex_truncated : files := (TruncateHistory (all_good 8) "s" 0 ex_stored).1.

Definition ex_new : list Message := [ex_message ex_other "hello" []].

Definition ex_written : list Message :=
  FilterInvalidHistoryMessages
    (with_created (e_Now ex_crash) <$> PreserveModeratedOriginals (FilterInvalidHistoryMessages ex_new) []).

Lemma session_rewrite_crash_witness :
  exists f' r,
    SetHistory ex_size ex_crash "s" ex_new ex_truncated = (f', r)
    /\ ((r <> Ok tt /\ (visible "s" f' = Ok [] \/ exists truncated, visible "s" f' = Ok (truncated ++ [])%list))
        \/ visible "s" f' = Ok ex_written).
Proof.
  destruct (SetHistory ex_size ex_crash "s" ex_new ex_truncated) as [f' r] eqn:E. exists f', r. split; [reflexivity|].
  refine (session_rewrite_crash ex_size ex_crash "s" ex_new ex_truncated f' [] r _ _ E).
  - vm_compute. reflexivity.
  - apply Forall_forall. intros msg Hm. change (msg ∈ ex_written) in Hm.
    assert (ex_written = [with_created 9 (ex_message ex_other "hello" [])]) as Hw by (vm_compute; reflexivity).
    rewrite Hw in Hm. apply list_elem_of_singleton in Hm as ->. vm_compute. reflexivity.
Defined.

(** The interrupted replacement brings the truncated message back. *)
Example ex_interrupted :
  visible "s" (SetHistory ex_size ex_crash "s" ex_new ex_truncated).1 = Ok [with_created 7 ex_msg].
Proof. vm_compute. reflexivity. Qed.

Lemma session_compact_crash_witness :
  visible "s" (Compact ex_size ex_crash "s" ex_truncated).1 = Ok []
  \/ (Compact ex_size ex_crash "s" ex_truncated).2 <> Ok tt
     /\ exists truncated, visible "s" (Compact ex_size ex_crash "s" ex_truncated).1 = Ok (truncated ++ [])%list.
Proof.
  apply (session_compact_crash ex_size ex_crash "s" ex_truncated _ []);
    [vm_compute; reflexivity|constructor|apply surjective_pairing].
Defined.

Definition ex_huge (_ : Message) : N := 20000000.

Lemma session_oversized_unreadable_witness :
  (forall iteration, is_ok (GetHistory iteration "s" (AddFullMessage ex_huge (all_good 7) "s" ex_msg no_files).1) = false)
  /\ (forall e' keepLast, exists err,
        TruncateHistory e' "s" keepLast (AddFullMessage ex_huge (all_good 7) "s" ex_msg no_files).1
        = ((AddFullMessage ex_huge (all_good 7) "s" ex_msg no_files).1, Err err))
  /\ (forall e' history, exists err,
        SetHistory ex_huge e' "s" history (AddFullMessage ex_huge (all_good 7) "s" ex_msg no_files).1
        = ((AddFullMessage ex_huge (all_good 7) "s" ex_msg no_files).1, Err err)).
Proof.
  apply (session_oversized_unreadable ex_huge (all_good 7) "s" ex_msg no_files); [reflexivity| |vm_compute; reflexivity].
  vm_compute. discriminate.
Defined.

Lemma session_moderation_forward_witness :
  exists decisions',
    readModeration (foldl (exec ex_size "s") ex_stored
      [(all_good 8, OModerate (ex_decision ex_event "hide" 1)); (ex_crash, OCompact);
       (all_good 9, OModerate (ex_decision ex_event "restore" 2))]) = Ok decisions'
    /\ decisions_ok decisions' /\ decisions_le ∅ decisions'.
Proof.
  apply session_moderation_forward; [vm_compute; reflexivity|]. intros t d Hd. by rewrite lookup_empty in Hd.
Defined.

Lemma session_promote_safe_witness :
  (forall other, sanitizeKey other <> sanitizeKey (TrimSpace "s") ->
     files_of other (PromoteAliasHistory ex_size id (all_good 9) "s" "" ["agent:main:main"; "old"]
                       (put_files "s" ex_stored ∅)).1
     = files_of other (put_files "s" ex_stored ∅))
  /\ (forall h, visible (TrimSpace "s") (files_of (TrimSpace "s") (put_files "s" ex_stored ∅)) = Ok h -> h <> [] ->
        files_of (TrimSpace "s") (PromoteAliasHistory ex_size id (all_good 9) "s" "" ["agent:main:main"; "old"]
                                    (put_files "s" ex_stored ∅)).1
        = files_of (TrimSpace "s") (put_files "s" ex_stored ∅)
        /\ (PromoteAliasHistory ex_size id (all_good 9) "s" "" ["agent:main:main"; "old"] (put_files "s" ex_stored ∅)).2
           = Ok false)
  /\ (forallb (isMainSessionAlias id) (normalizeAliases (TrimSpace "s") ["agent:main:main"; "old"]) = true ->
      (PromoteAliasHistory ex_size id (all_good 9) "s" "" ["agent:main:main"; "old"] (put_files "s" ex_stored ∅)).1
      = put_files "s" ex_stored ∅).
Proof. apply (session_promote_safe ex_size id (all_good 9) "s" ""). apply surjective_pairing. Defined.

(** An exact retry of an authenticated message is refused as a substitution
    once its event has been moderated and the history has been written back:
    the stored message then carries the fields of the decision. *)
Theorem session_retry_refused :
  let hidden := (ApplyRoomModeration (all_good 8) (ex_decision ex_event "hide" 1) ex_stored).1 in
  exists shown, GetHistory map_to_list "s" hidden = Ok shown
    /\ let rewritten := (SetHistory ex_size (all_good 9) "s" shown hidden).1 in
       (ApplyAuthenticatedInbound ex_size (all_good 10) "s" ex_event ex_msg hidden).2 = Ok false
       /\ (ApplyAuthenticatedInbound ex_size (all_good 10) "s" ex_event ex_msg rewritten).2
          = Err "memory: authenticated Event ID substitution".
Proof. eexists. split; [vm_compute; reflexivity|]. split; vm_compute; reflexivity. Qed.

(** The binding of an event to its message ends with a truncation: the same
    message, offered again, is acknowledged as new a second time. *)
Theorem session_truncated_event_again :
  (ApplyAuthenticatedInbound ex_size (all_good 7) "s" ex_event ex_msg no_files).2 = Ok true
  /\ (ApplyAuthenticatedInbound ex_size (all_good 9) "s" ex_event ex_msg ex_stored).2 = Ok false
  /\ (ApplyAuthenticatedInbound ex_size (all_good 9) "s" ex_event ex_msg ex_truncated).2 = Ok true.
Proof. split; [|split]; vm_compute; reflexivity. Qed.

End SessionStore.
