(* ===== verification/QuarTree.v ===== *)
(** * Quarantined file trees

    src/pkg/capabilitycontrol/quarantine_snapshot_linux.go and the tree hashes of
    quarantine_ledger.go and store.go: a candidate directory is captured into a
    list of entries, hashed, staged as a fresh read-only tree and published under
    its digest, where it is hashed and measured again. Each of these walks a
    directory tree in the order of the names.

    A tree holds what the code looks at: names, permission bits, link counts and
    contents of files, and whether something is neither a file nor a directory.
    Permission bits of directories are never read: both hashes put 0o700. Files
    that change while they are read, and calls that fail, are answers of the
    environment of the ledger operations (Quarantine.v). *)

From S2P Require Import Prelude GoLib GoText GoUnicode Protocol.
#[local] Open Scope string_scope.
#[local] Open Scope N_scope.

Module QuarTree.

Definition QuarantineReservationBytes : N := 67108864.
Definition QuarantineReservationFiles : N := 4096.

(** ** Trees *)

Inductive node :=
| File (perm links : N) (data : string)
| Dir (children : list (string * node))
| Special.

(** Induction with the hypothesis on every child. *)
Definition node_tree_ind (P : node -> Prop)
    (file : forall perm links data, P (File perm links data))
    (dir : forall children, Forall (fun c => P c.2) children -> P (Dir children))
    (special : P Special) : forall n, P n :=
  fix go n :=
    match n with
    | File perm links data => file perm links data
    | Dir children =>
        dir children ((fix all l : Forall (fun c => P c.2) l :=
                         match l with
                         | [] => Forall_nil_2 _
                         | c :: l => Forall_cons_2 _ c l (go c.2) (all l)
                         end) children)
    | Special => special
    end.

(** A chain of fallible steps, in order; [in_order] sorts what a directory
    holds by name. *)
Fixpoint fold_ok {A B} (f : B -> A -> result A) (l : list B) (a : A) : result A :=
  match l with
  | [] => Ok a
  | b :: l => let? a := f b a in fold_ok f l a
  end.

Definition in_order {A} (l : list (string * A)) : list A := (sort_by fst l).*2.

Definition child_path (prefix name : string) : string :=
  if bool_decide (prefix = "") then name else prefix +:+ "/" +:+ name.

(** [filepath.WalkDir] over what lies below a directory, on the paths relative
    to it. *)
Fixpoint walk_child {A} (visit : string -> string -> node -> A -> result A) (n : node) (name prefix : string)
    (acc : A) {struct n} : result A :=
  let relative := child_path prefix name in
  let? acc := visit relative name n acc in
  match n with
  | Dir children =>
      fold_ok (fun step acc => step acc)
        (in_order (map (fun c => (c.1, walk_child visit c.2 c.1 relative)) children)) acc
  | _ => Ok acc
  end.

Definition WalkDir {A} (visit : string -> string -> node -> A -> result A) (root : option node) (acc : A) : result A :=
  match root with
  | None => Err "no such file or directory"
  | Some (Dir children) =>
      fold_ok (fun step acc => step acc)
        (in_order (map (fun c => (c.1, walk_child visit c.2 c.1 "")) children)) acc
  | Some _ => Ok acc
  end.

(** ** The snapshot of a candidate *)

Record quarantineSnapshotEntry := {
  se_Relative : string;
  se_Mode : N;
  se_Directory : bool;
  se_Data : string
}.

Record quarantineSnapshot := {
  qs_Entries : list quarantineSnapshotEntry;
  qs_Bytes : N;
  qs_Files : N
}.

Definition no_snapshot : quarantineSnapshot := {| qs_Entries := []; qs_Bytes := 0; qs_Files := 0 |}.

Definition skill_origin : string := ".skill-origin.json".

Definition invalid_name (name : string) : bool :=
  bool_decide (name = "") || bool_decide (name = ".") || bool_decide (name = "..") || ContainsByte name 47.

(** One entry of a directory, up to the descent into a directory: the counters
    stay below their ceilings, so neither wraps around. *)
Definition capture_visit (relative name : string) (n : node) (r : quarantineSnapshot) : result quarantineSnapshot :=
  if invalid_name name then Err "quarantine snapshot contains an invalid name"
  else
    match n with
    | Special => Err "quarantine snapshot contains an unsupported object"
    | _ =>
        let files := qs_Files r + 1 in
        if QuarantineReservationFiles <? files then Err "quarantine snapshot exceeds file limit"
        else
          match n with
          | File perm links data =>
              if negb (links =? 1) || (QuarantineReservationBytes - qs_Bytes r <? slen data)
              then Err "quarantine source is hard-linked, changed, or exceeds the snapshot bound"
              else Ok {| qs_Entries := (qs_Entries r ++ [{| se_Relative := relative; se_Mode := N.land perm 365;
                                                           se_Directory := false; se_Data := data |}])%list;
                         qs_Bytes := qs_Bytes r + slen data; qs_Files := files |}
          | _ => Ok {| qs_Entries := (qs_Entries r ++ [{| se_Relative := relative; se_Mode := 448;
                                                         se_Directory := true; se_Data := "" |}])%list;
                       qs_Bytes := qs_Bytes r; qs_Files := files |}
          end
    end.

Fixpoint capture_child (n : node) (name prefix : string) (r : quarantineSnapshot) {struct n}
    : result quarantineSnapshot :=
  if bool_decide (name = skill_origin) then Ok r
  else
    let relative := child_path prefix name in
    let? r := capture_visit relative name n r in
    match n with
    | Dir children =>
        fold_ok (fun step r => step r) (in_order (map (fun c => (c.1, capture_child c.2 c.1 relative)) children)) r
    | _ => Ok r
    end.

Definition captureQuarantineDirectory (children : list (string * node)) (prefix : string) (r : quarantineSnapshot)
    : result quarantineSnapshot :=
  fold_ok (fun step r => step r) (in_order (map (fun c => (c.1, capture_child c.2 c.1 prefix)) children)) r.

Definition captureQuarantineSnapshot (child : option node) : result quarantineSnapshot :=
  match child with
  | None => Err "no such file or directory"
  | Some (Dir children) => captureQuarantineDirectory children "" no_snapshot
  | Some _ => Err "not a directory"
  end.

(** ** Hashes and sizes *)

Record ContentManifestEntry := {
  me_Path : string;
  me_Mode : N;
  me_ObjectType : string;
  me_Size : N;
  me_ContentDigest : string
}.

(** [trusted.ContentClosureRoot] of the service protocol. *)
Class ClosureRoot := ContentClosureRoot : list ContentManifestEntry -> result string.

Section hashes.
Context {SHA : Sha256} {CR : ClosureRoot}.

Definition file_entry (path : string) (mode : N) (data : string) : ContentManifestEntry :=
  {| me_Path := path; me_Mode := mode; me_ObjectType := "regular"; me_Size := slen data;
     me_ContentDigest := sha256_Sum256 data |}.
Definition directory_entry (path : string) (mode : N) : ContentManifestEntry :=
  {| me_Path := path; me_Mode := mode; me_ObjectType := "directory"; me_Size := 0; me_ContentDigest := "" |}.

Definition snapshot_entry (item : quarantineSnapshotEntry) : ContentManifestEntry :=
  if se_Directory item then directory_entry (se_Relative item) (se_Mode item)
  else file_entry (se_Relative item) (se_Mode item) (se_Data item).

Definition hashQuarantineSnapshot (snapshot : quarantineSnapshot) : result string :=
  ContentClosureRoot (sort_by me_Path (map snapshot_entry (qs_Entries snapshot))).

(** [BuildContentManifest]: the visit of one path, with the entries so far and
    their number. *)
Definition manifest_visit (relative name : string) (n : node) (acc : list ContentManifestEntry * N)
    : result (list ContentManifestEntry * N) :=
  if bool_decide (name = skill_origin) then Ok acc
  else
    let '(entries, count) := acc in
    if 4096 <? count + 1 then Err "capability tree exceeds file limit"
    else if HasPrefix relative ".." then Err "capability path escapes root"
    else
      match n with
      | Special => Err "capability tree contains unsupported file"
      | Dir _ => Ok ((entries ++ [directory_entry relative 448])%list, count + 1)
      | File perm links data =>
          if negb (links =? 1) then Err "capability tree contains a hard-linked file"
          else Ok ((entries ++ [file_entry relative (N.land perm 365) data])%list, count + 1)
      end.

Definition HashTree (root : option node) : result string :=
  let? acc := WalkDir manifest_visit root ([], 0) in
  ContentClosureRoot (sort_by me_Path acc.1).

Definition usage_visit (relative name : string) (n : node) (acc : N * N) : result (N * N) :=
  let '(bytesUsed, files) := acc in
  match n with
  | Special => Err "quarantine contains unsupported filesystem object"
  | _ =>
      if QuarantineReservationFiles <? files + 1 then Err "quarantine file ceiling exceeded"
      else
        match n with
        | File _ _ data =>
            if QuarantineReservationBytes <? bytesUsed + slen data then Err "quarantine byte ceiling exceeded"
            else Ok (bytesUsed + slen data, files + 1)
        | _ => Ok (bytesUsed, files + 1)
        end
  end.

Definition boundedTreeUsage (root : option node) : result (N * N) := WalkDir usage_visit root (0, 0).

End hashes.

(** ** Staging *)

(** [filepath.Clean] on a slash-separated path, and [strings.Split] on the
    slash. *)
Fixpoint Split_slash (s : string) : list string :=
  match s with
  | EmptyString => [""]
  | String c s =>
      if byte_of c =? 47 then "" :: Split_slash s
      else match Split_slash s with
           | part :: parts => String c part :: parts
           | [] => [String c ""]
           end
  end.

Definition clean_part (rooted : bool) (out : list string) (part : string) : list string :=
  if bool_decide (part = "") || bool_decide (part = ".") then out
  else if bool_decide (part = "..") then
    match out with
    | last :: rest => if bool_decide (last = "..") then part :: out else rest
    | [] => if rooted then [] else [part]
    end
  else part :: out.

Definition Clean (path : string) : string :=
  let rooted := HasPrefix path "/" in
  let cleaned := Join (reverse (foldl (clean_part rooted) [] (Split_slash path))) "/" in
  if rooted then "/" +:+ cleaned else if bool_decide (cleaned = "") then "." else cleaned.

(** The path below the staging directory: its parent's parts and its name. *)
Definition openQuarantineParent (relative : string) : result (list string) :=
  let clean := Clean relative in
  if bool_decide (clean = ".") || bool_decide (clean = "..") || HasPrefix clean "../" || HasPrefix clean "/"
  then Err "quarantine destination escapes root"
  else Ok (Split_slash clean).

Fixpoint lookup_child (name : string) (children : list (string * node)) : option node :=
  match children with
  | [] => None
  | c :: children => if bool_decide (c.1 = name) then Some c.2 else lookup_child name children
  end.

Fixpoint replace_child (name : string) (n : node) (children : list (string * node)) : list (string * node) :=
  match children with
  | [] => []
  | c :: children => if bool_decide (c.1 = name) then (name, n) :: children else c :: replace_child name n children
  end.

(** Opens every directory on the way and creates the last name, which must not
    exist. *)
Fixpoint create_at (parts : list string) (new : node) (children : list (string * node))
    : result (list (string * node)) :=
  match parts with
  | [] => Err "no such file or directory"
  | name :: rest =>
      match rest with
      | [] =>
          match lookup_child name children with
          | Some _ => Err "file exists"
          | None => Ok (children ++ [(name, new)])%list
          end
      | _ =>
          match lookup_child name children with
          | Some (Dir below) =>
              let? below := create_at rest new below in
              Ok (replace_child name (Dir below) children)
          | Some _ => Err "not a directory"
          | None => Err "no such file or directory"
          end
      end
  end.

Definition staged_node (item : quarantineSnapshotEntry) : node :=
  if se_Directory item then Dir [] else File (se_Mode item) 1 (se_Data item).

Definition stage_item (item : quarantineSnapshotEntry) (children : list (string * node))
    : result (list (string * node)) :=
  let? parts := openQuarantineParent (se_Relative item) in
  create_at parts (staged_node item) children.

(** The tree [stageQuarantineSnapshot] builds. *)
Definition stage_tree (snapshot : quarantineSnapshot) : result node :=
  let? children := fold_ok stage_item (qs_Entries snapshot) [] in
  Ok (Dir children).

(** ** The flattened tree

    On a tree without origin marks, whose children are in order, each walk is a
    chain of visits over one list. *)

Fixpoint flat (n : node) (name prefix : string) : list (string * string * node) :=
  let relative := child_path prefix name in
  (relative, name, n) ::
  match n with
  | Dir children => concat (in_order (map (fun c => (c.1, flat c.2 c.1 relative)) children))
  | _ => []
  end.

Definition flat_all (children : list (string * node)) (prefix : string) : list (string * string * node) :=
  concat (in_order (map (fun c => (c.1, flat c.2 c.1 prefix)) children)).

(** What is staged of a captured tree. *)
Definition keep (c : string * node) : Prop := c.1 <> skill_origin.

Fixpoint norm (n : node) : node :=
  match n with
  | File perm links data => File (N.land perm 365) links data
  | Dir children => Dir (filter keep (sort_by fst (map (fun c => (c.1, norm c.2)) children)))
  | Special => Special
  end.

Definition norm_children (children : list (string * node)) : list (string * node) :=
  filter keep (sort_by fst (map (fun c => (c.1, norm c.2)) children)).

(** Names are unique in every directory. *)
Inductive tree_ok : node -> Prop :=
| ok_file perm links data : tree_ok (File perm links data)
| ok_dir children : NoDup children.*1 -> Forall (fun c => tree_ok c.2) children -> tree_ok (Dir children)
| ok_special : tree_ok Special.

(** ** Chains *)

Lemma fold_ok_app {A B} (f : B -> A -> result A) l1 l2 a :
  fold_ok f (l1 ++ l2)%list a = (let? a := fold_ok f l1 a in fold_ok f l2 a).
Proof. revert a. induction l1 as [|b l1 IH]; intros a; simpl; [done|]. by destruct (f b a). Qed.

Lemma fold_ok_concat {A B} (f : B -> A -> result A) (ls : list (list B)) a :
  fold_ok f (concat ls) a = fold_ok (fun l a => fold_ok f l a) ls a.
Proof.
  revert a. induction ls as [|l ls IH]; intros a; simpl; [done|].
  rewrite fold_ok_app. by destruct (fold_ok f l a).
Qed.

Lemma fold_ok_map {A B C} (g : C -> B) (f : B -> A -> result A) l a :
  fold_ok f (map g l) a = fold_ok (fun c => f (g c)) l a.
Proof. revert a. induction l as [|c l IH]; intros a; simpl; [done|]. by destruct (f (g c) a). Qed.

Lemma fold_ok_ext {A B} (f g : B -> A -> result A) l a :
  (forall b a, b ∈ l -> f b a = g b a) -> fold_ok f l a = fold_ok g l a.
Proof.
  revert a. induction l as [|b l IH]; intros a H; simpl; [done|].
  rewrite (H b a) by set_solver. destruct (g b a); [|done]. apply IH. set_solver.
Qed.

(** ** Sorting by name *)

Lemma sort_by_unique {A} (l1 l2 : list (string * A)) :
  NoDup l1.*1 -> l1 ≡ₚ l2 -> StronglySorted (key_le fst) l2 -> sort_by fst l1 = l2.
Proof.
  intros Hnd Hp Hs. apply (StronglySorted_unique_strong (key_le fst)).
  - intros [k1 v1] [k2 v2] H1 H2 Hle Hge.
    rewrite sort_by_Permutation in H1. rewrite <- Hp in H2.
    assert (k1 = k2) as -> by (unfold key_le in *; simpl in *; by apply (anti_symm String.le)).
    apply list_elem_of_lookup in H1 as [i Hi]. apply list_elem_of_lookup in H2 as [j Hj].
    assert (i = j) as ->; [|congruence].
    eapply NoDup_lookup; [exact Hnd| |].
    + by rewrite list_lookup_fmap, Hi.
    + by rewrite list_lookup_fmap, Hj.
  - apply sort_by_sorted.
  - done.
  - by rewrite sort_by_Permutation.
Qed.

Lemma sorted_map {A B} (g : string * A -> B) (l : list (string * A)) :
  StronglySorted (key_le fst) l -> StronglySorted (key_le fst) (map (fun c => (c.1, g c)) l).
Proof.
  induction 1 as [|c l Hs IH Hall]; simpl; constructor; [done|].
  apply Forall_forall. intros d (c' & -> & Hc')%list_elem_of_fmap. exact (proj1 (Forall_forall _ _) Hall c' Hc').
Qed.

Lemma sort_by_map {A B} (g : string * A -> B) (l : list (string * A)) :
  NoDup l.*1 -> sort_by fst (map (fun c => (c.1, g c)) l) = map (fun c => (c.1, g c)) (sort_by fst l).
Proof.
  intros Hnd. apply sort_by_unique.
  - assert ((map (fun c => (c.1, g c)) l).*1 = l.*1) as -> by (rewrite <- list_fmap_compose; done). done.
  - apply Permutation_map. symmetry. apply sort_by_Permutation.
  - apply sorted_map, sort_by_sorted.
Qed.

Lemma in_order_map {A B} (g : string * A -> B) (l : list (string * A)) :
  NoDup l.*1 -> in_order (map (fun c => (c.1, g c)) l) = map g (sort_by fst l).
Proof. intros Hnd. unfold in_order. rewrite sort_by_map by done. by rewrite <- list_fmap_compose. Qed.

Lemma sort_by_id {A} (l : list (string * A)) :
  NoDup l.*1 -> StronglySorted (key_le fst) l -> sort_by fst l = l.
Proof. intros. by apply sort_by_unique. Qed.

Lemma filter_sorted {A} (P : string * A -> Prop) `{forall x, Decision (P x)} (l : list (string * A)) :
  StronglySorted (key_le fst) l -> StronglySorted (key_le fst) (filter P l).
Proof.
  induction 1 as [|c l Hs IH Hall]; [constructor|]. rewrite filter_cons. case_decide; [|done].
  constructor; [done|]. apply Forall_forall. intros d [_ Hd]%list_elem_of_filter. exact (proj1 (Forall_forall _ _) Hall d Hd).
Qed.

Lemma filter_keys_NoDup {A} (P : string * A -> Prop) `{forall x, Decision (P x)} (l : list (string * A)) :
  NoDup l.*1 -> NoDup (filter P l).*1.
Proof. intros Hnd. eapply sublist_NoDup; [exact Hnd|]. apply fmap_sublist, sublist_filter. Qed.

Lemma norm_children_spec children :
  NoDup children.*1 -> norm_children children = filter keep (map (fun c => (c.1, norm c.2)) (sort_by fst children)).
Proof. intros. unfold norm_children. by rewrite (sort_by_map (fun c => norm c.2)). Qed.

Lemma norm_children_sorted children : StronglySorted (key_le fst) (norm_children children).
Proof. apply filter_sorted, sort_by_sorted. Qed.

Lemma norm_children_NoDup children : NoDup children.*1 -> NoDup (norm_children children).*1.
Proof.
  intros Hnd. apply filter_keys_NoDup. rewrite sort_by_Permutation, <- list_fmap_compose. done.
Qed.

Lemma flat_all_map children prefix :
  NoDup children.*1 -> flat_all children prefix = concat (map (fun c => flat c.2 c.1 prefix) (sort_by fst children)).
Proof. intros. unfold flat_all. by rewrite (in_order_map (fun c => flat c.2 c.1 prefix)). Qed.

Lemma flat_norm children prefix :
  NoDup children.*1 ->
  flat_all (norm_children children) prefix = concat (map (fun c => flat c.2 c.1 prefix) (norm_children children)).
Proof.
  intros. rewrite flat_all_map by by apply norm_children_NoDup.
  by rewrite sort_by_id by (apply norm_children_NoDup || apply norm_children_sorted; done).
Qed.

(** ** Every walk is a chain over the flattened tree *)

Definition on_item {A} (visit : string -> string -> node -> A -> result A) (item : string * string * node)
    : A -> result A :=
  visit item.1.1 item.1.2 item.2.

Lemma walk_children {A} (visit : string -> string -> node -> A -> result A) children prefix acc :
  NoDup children.*1 ->
  (forall c acc, c ∈ children -> walk_child visit c.2 c.1 prefix acc = fold_ok (on_item visit) (flat c.2 c.1 prefix) acc) ->
  fold_ok (fun step acc => step acc) (in_order (map (fun c => (c.1, walk_child visit c.2 c.1 prefix)) children)) acc =
  fold_ok (on_item visit) (flat_all children prefix) acc.
Proof.
  intros Hnd Hc. rewrite (in_order_map (fun c => walk_child visit c.2 c.1 prefix)), flat_all_map by done.
  rewrite fold_ok_concat, !fold_ok_map. apply fold_ok_ext. intros c a Hin. apply Hc.
  by rewrite sort_by_Permutation in Hin.
Qed.

Lemma walk_flat {A} (visit : string -> string -> node -> A -> result A) n : forall name prefix acc,
  tree_ok n -> walk_child visit n name prefix acc = fold_ok (on_item visit) (flat n name prefix) acc.
Proof.
  induction n as [perm links data|children IH|] using node_tree_ind; intros name prefix acc Hok.
  - cbn [walk_child flat fold_ok]. unfold on_item. cbn [fst snd]. by destruct (visit _ _ _ _).
  - inversion Hok as [|? Hnd Hall|]; subst. cbn [walk_child flat fold_ok]. unfold on_item at 1. cbn [fst snd].
    destruct (visit _ _ _ _) as [a|m]; [|done]. apply walk_children; [done|].
    intros c a' Hin. rewrite Forall_forall in IH, Hall. apply IH; [done|]. by apply Hall.
  - cbn [walk_child flat fold_ok]. unfold on_item. cbn [fst snd]. by destruct (visit _ _ _ _).
Qed.

Lemma capture_children children prefix r :
  NoDup children.*1 ->
  (forall c r, c ∈ children -> c.1 <> skill_origin ->
     capture_child c.2 c.1 prefix r = fold_ok (on_item capture_visit) (flat (norm c.2) c.1 prefix) r) ->
  captureQuarantineDirectory children prefix r =
  fold_ok (on_item capture_visit) (flat_all (norm_children children) prefix) r.
Proof.
  intros Hnd Hc. unfold captureQuarantineDirectory.
  rewrite (in_order_map (fun c => capture_child c.2 c.1 prefix)) by done.
  rewrite flat_norm, norm_children_spec by done. rewrite fold_ok_concat, !fold_ok_map.
  assert (forall c, c ∈ sort_by fst children -> c ∈ children) as Hin
    by (intros c; by rewrite sort_by_Permutation).
  revert r. induction (sort_by fst children) as [|c l IH]; intros r; cbn [map fold_ok]; [done|].
  rewrite filter_cons. case_decide as Hk.
  - cbn [map fold_ok fst snd]. rewrite (Hc c) by (done || apply Hin; set_solver).
    destruct (fold_ok _ _ _); [|done]. apply IH. set_solver.
  - assert (c.1 = skill_origin) as E by (unfold keep in Hk; cbn in Hk; by apply dec_stable).
    assert (capture_child c.2 c.1 prefix r = Ok r) as -> by (rewrite E; by destruct c.2).
    apply IH. set_solver.
Qed.

(** Capturing a tree is visiting what is staged of it, in order. *)
Lemma capture_flat n : forall name prefix r,
  tree_ok n -> name <> skill_origin ->
  capture_child n name prefix r = fold_ok (on_item capture_visit) (flat (norm n) name prefix) r.
Proof.
  induction n as [perm links data|children IH|] using node_tree_ind; intros name prefix r Hok Hn.
  - cbn [capture_child flat norm fold_ok]. rewrite bool_decide_eq_false_2 by done. unfold on_item. cbn [fst snd].
    assert (forall rel, capture_visit rel name (File (N.land perm 365) links data) r =
                        capture_visit rel name (File perm links data) r) as ->.
    { intros rel. unfold capture_visit. by rewrite <- N.land_assoc, N.land_diag. }
    by destruct (capture_visit _ _ _ _).
  - inversion Hok as [|? Hnd Hall|]; subst. cbn [capture_child flat norm fold_ok].
    rewrite bool_decide_eq_false_2 by done. unfold on_item at 1. cbn [fst snd].
    change (capture_visit (child_path prefix name) name (Dir (filter _ _)) r)
      with (capture_visit (child_path prefix name) name (Dir children) r).
    destruct (capture_visit _ _ _ _) as [a|m]; [|done].
    change (fold_ok _ _ a) with (captureQuarantineDirectory children (child_path prefix name) a) at 1.
    apply capture_children; [done|]. intros c a' Hin Hc. rewrite Forall_forall in IH, Hall.
    apply IH; [done| |done]. by apply Hall.
  - cbn [capture_child flat norm fold_ok]. rewrite bool_decide_eq_false_2 by done. unfold on_item. cbn [fst snd].
    by destruct (capture_visit _ _ _ _).
Qed.

(** ** What a successful capture says *)

Definition entry_of (item : string * string * node) : quarantineSnapshotEntry :=
  match item.2 with
  | File perm _ data =>
      {| se_Relative := item.1.1; se_Mode := N.land perm 365; se_Directory := false; se_Data := data |}
  | _ => {| se_Relative := item.1.1; se_Mode := 448; se_Directory := true; se_Data := "" |}
  end.

Definition item_bytes (item : string * string * node) : N :=
  match item.2 with File _ _ data => slen data | _ => 0 end.

Definition fine (item : string * string * node) : Prop :=
  invalid_name item.1.2 = false /\
  match item.2 with File _ links _ => links = 1 | Dir _ => True | Special => False end.

Lemma capture_chain items : forall r s,
  fold_ok (on_item capture_visit) items r = Ok s ->
  qs_Files r <= QuarantineReservationFiles -> qs_Bytes r <= QuarantineReservationBytes ->
  Forall fine items /\
  s = {| qs_Entries := (qs_Entries r ++ map entry_of items)%list;
         qs_Bytes := qs_Bytes r + sumN (map item_bytes items); qs_Files := qs_Files r + llen items |} /\
  qs_Files s <= QuarantineReservationFiles /\ qs_Bytes s <= QuarantineReservationBytes.
Proof.
  induction items as [|[[rel name] n] items IH]; intros r s H Hf Hb.
  - injection H as <-. split; [constructor|]. split; [|done]. destruct r. unfold sumN, llen. cbn. by rewrite app_nil_r, !N.add_0_r.
  - cbn [fold_ok] in H. destruct (on_item capture_visit (rel, name, n) r) as [r1|] eqn:Hv; [|done].
    assert (fine (rel, name, n) /\ r1 = {| qs_Entries := (qs_Entries r ++ [entry_of (rel, name, n)])%list;
              qs_Bytes := qs_Bytes r + item_bytes (rel, name, n); qs_Files := qs_Files r + 1 |} /\
            qs_Files r1 <= QuarantineReservationFiles /\ qs_Bytes r1 <= QuarantineReservationBytes)
      as (Hfine & -> & Hf1 & Hb1).
    { unfold on_item, capture_visit in Hv. cbn [fst snd] in Hv. unfold fine, entry_of, item_bytes. cbn [fst snd].
      destruct (invalid_name name) eqn:Hi; [done|].
      destruct n as [perm links data|cs|]; [| |done]; destruct (_ <? _) eqn:Hlt in Hv; try done; bprop.
      - destruct (negb (links =? 1)) eqn:Hl; [done|]. cbn [orb] in Hv. destruct (_ <? _) eqn:Hs in Hv; [done|].
        injection Hv as <-. cbn. bprop. split; [done|]. split; [done|]. lia.
      - injection Hv as <-. cbn. split; [done|]. split; [by rewrite N.add_0_r|]. lia. }
    destruct (IH _ _ H Hf1 Hb1) as (Hall & -> & ?). split; [by constructor|]. split; [|done].
    cbn [qs_Entries qs_Bytes qs_Files map sumN foldr]. unfold llen. cbn [length].
    f_equal; [by rewrite <- app_assoc|unfold sumN; cbn; lia|lia].
Qed.

Section chains.
Context {SHA : Sha256}.

Lemma manifest_chain items : forall entries count,
  Forall fine items ->
  Forall (fun item => item.1.2 <> skill_origin /\ HasPrefix item.1.1 ".." = false) items ->
  count + llen items <= 4096 ->
  fold_ok (on_item manifest_visit) items (entries, count) =
  Ok ((entries ++ map (fun item => snapshot_entry (entry_of item)) items)%list, count + llen items).
Proof.
  induction items as [|[[rel name] n] items IH]; intros entries count Hf Hn Hc.
  - cbn. unfold llen. cbn. by rewrite app_nil_r, N.add_0_r.
  - inversion Hf as [|? ? [_ H1] Hf']; inversion Hn as [|? ? [H2 H3] Hn']; subst. cbn [fst snd] in *.
    unfold llen in Hc. cbn [length] in Hc.
    cbn [fold_ok map]. unfold on_item at 1. unfold manifest_visit at 1. cbn [fst snd].
    rewrite bool_decide_eq_false_2 by done.
    assert ((4096 <? count + 1) = false) as -> by (apply N.ltb_ge; lia). rewrite H3.
    assert (llen ((rel, name, n) :: items) = 1 + llen items) as -> by (unfold llen; cbn; lia).
    destruct n as [perm links data|cs|]; [| |done].
    + subst links. cbn [negb N.eqb Pos.eqb]. rewrite IH by (done || unfold llen; lia).
      rewrite <- app_assoc, N.add_assoc. done.
    + rewrite IH by (done || unfold llen; lia). rewrite <- app_assoc, N.add_assoc. done.
Qed.

Lemma usage_chain items : forall bytes files,
  Forall fine items -> files + llen items <= QuarantineReservationFiles ->
  bytes + sumN (map item_bytes items) <= QuarantineReservationBytes ->
  fold_ok (on_item usage_visit) items (bytes, files) = Ok (bytes + sumN (map item_bytes items), files + llen items).
Proof.
  induction items as [|[[rel name] n] items IH]; intros bytes files Hf Hc Hb.
  - cbn. by rewrite !N.add_0_r.
  - inversion Hf as [|? ? [_ H1] Hf']; subst. cbn [fst snd] in *.
    assert (llen ((rel, name, n) :: items) = 1 + llen items) as E by (unfold llen; cbn; lia). rewrite E in Hc |- *.
    assert (forall x, sumN (map item_bytes (x :: items)) = item_bytes x + sumN (map item_bytes items)) as E2 by done.
    rewrite E2 in Hb |- *. cbn [fold_ok]. unfold on_item at 1. unfold usage_visit at 1. cbn [fst snd].
    destruct n as [perm links data|cs|]; [| |done]; cbn [item_bytes snd] in Hb |- *.
    + assert ((QuarantineReservationFiles <? files + 1) = false) as -> by (apply N.ltb_ge; lia).
      assert ((QuarantineReservationBytes <? bytes + slen data) = false) as -> by (apply N.ltb_ge; lia).
      rewrite IH by (done || lia). by rewrite !N.add_assoc.
    + assert ((QuarantineReservationFiles <? files + 1) = false) as -> by (apply N.ltb_ge; lia).
      rewrite IH by (done || lia). by rewrite !N.add_assoc, N.add_0_r.
Qed.

End chains.

(** ** Paths below the staging directory *)

Definition valid (name : string) : Prop := invalid_name name = false.

Lemma valid_spec name :
  valid name <-> name <> "" /\ name <> "." /\ name <> ".." /\ ContainsByte name 47 = false.
Proof.
  unfold valid, invalid_name. rewrite !orb_false_iff, !bool_decide_eq_false. tauto.
Qed.

Lemma Split_slash_plain name : ContainsByte name 47 = false -> Split_slash name = [name].
Proof.
  unfold ContainsByte. intros H%negb_false_iff. induction name as [|c name IH]; [done|].
  cbn in H. apply andb_true_iff in H as [Hc H]. apply negb_true_iff in Hc.
  cbn [Split_slash]. rewrite Hc, IH by done. done.
Qed.

Lemma Split_slash_app name rest :
  ContainsByte name 47 = false -> Split_slash (name +:+ "/" +:+ rest) = name :: Split_slash rest.
Proof.
  unfold ContainsByte. intros H%negb_false_iff. induction name as [|c name IH]; [done|].
  cbn in H. apply andb_true_iff in H as [Hc H]. apply negb_true_iff in Hc.
  rewrite append_cons. cbn [Split_slash]. rewrite Hc, IH by done. done.
Qed.

Lemma Split_Join names : names <> [] -> Forall valid names -> Split_slash (Join names "/") = names.
Proof.
  intros Hne Hall. induction Hall as [|name names Hv Hall IH]; [done|].
  apply valid_spec in Hv as (_ & _ & _ & Hs).
  destruct names as [|name' names]; [by apply Split_slash_plain|].
  change (Join (name :: name' :: names) "/") with (name +:+ "/" +:+ Join (name' :: names) "/").
  by rewrite Split_slash_app, IH.
Qed.

Lemma clean_parts rooted names out : Forall valid names -> foldl (clean_part rooted) out names = (reverse names ++ out)%list.
Proof.
  intros Hall. revert out. induction Hall as [|name names Hv Hall IH]; intros out; [done|].
  apply valid_spec in Hv as (H1 & H2 & H3 & _). cbn [foldl].
  assert (clean_part rooted out name = name :: out) as ->
    by (unfold clean_part; by rewrite !bool_decide_eq_false_2 by done).
  rewrite IH, reverse_cons, <- app_assoc. done.
Qed.

(** A string that splits into valid names is no dot path. *)
Lemma plain_path names s :
  names <> [] -> Forall valid names -> Split_slash s = names ->
  s <> "" /\ s <> "." /\ s <> ".." /\ HasPrefix s "../" = false /\ HasPrefix s "/" = false.
Proof.
  intros Hne Hall E.
  assert (forall first rest, Split_slash s = first :: rest -> valid first) as Hv
    by (intros first rest H; rewrite E in H; rewrite H in Hall; by inversion Hall).
  assert (HasPrefix s "../" = false /\ HasPrefix s "/" = false) as [? ?].
  { split; apply not_true_iff_false; intros Hp; apply HasPrefix_skip in Hp.
    - rewrite Hp in Hv. specialize (Hv ".." _ (Split_slash_app ".." _ eq_refl)). by apply valid_spec in Hv as (_ & _ & ? & _).
    - rewrite Hp in Hv. specialize (Hv "" _ (Split_slash_app "" _ eq_refl)). by apply valid_spec in Hv as (? & _). }
  repeat split; try done; intros ->; cbn in Hv; specialize (Hv _ _ eq_refl); apply valid_spec in Hv; naive_solver.
Qed.

Lemma openQuarantineParent_Join names :
  names <> [] -> Forall valid names -> openQuarantineParent (Join names "/") = Ok names.
Proof.
  intros Hne Hall. pose proof (Split_Join names Hne Hall) as E.
  destruct (plain_path _ _ Hne Hall E) as (H0 & H1 & H2 & H3 & H4).
  assert (Clean (Join names "/") = Join names "/") as Hc.
  { unfold Clean. rewrite H4, E, clean_parts by done. rewrite app_nil_r, reverse_involutive.
    by rewrite bool_decide_eq_false_2. }
  unfold openQuarantineParent. rewrite Hc, !bool_decide_eq_false_2, H3, H4 by done. cbn [orb]. by rewrite E.
Qed.

Lemma Join_snoc names name :
  Forall valid names -> child_path (Join names "/") name = Join (names ++ [name]) "/".
Proof.
  intros Hall. unfold child_path. destruct names as [|first names]; [done|].
  rewrite bool_decide_eq_false_2 by by (eapply plain_path; [|exact Hall|by apply Split_Join]).
  clear Hall. revert first. induction names as [|second names IH]; intros first; [done|].
  change (Join (first :: second :: names) "/") with (first +:+ "/" +:+ Join (second :: names) "/").
  change (Join ((first :: second :: names) ++ [name])%list "/")
    with (first +:+ "/" +:+ Join ((second :: names) ++ [name])%list "/").
  by rewrite <- IH, !append_assoc.
Qed.

(** The paths of a tree as lists of names. *)
Fixpoint paths (n : node) (name : string) : list (list string * node) :=
  ([name], n) ::
  match n with
  | Dir children => map (fun x => (name :: x.1, x.2)) (concat (in_order (map (fun c => (c.1, paths c.2 c.1)) children)))
  | _ => []
  end.

(** A tree as it is staged: sorted, masked modes, single links, valid names. *)
Inductive staged : node -> Prop :=
| staged_file perm data : N.land perm 365 = perm -> staged (File perm 1 data)
| staged_dir children : StronglySorted (key_le fst) children -> NoDup children.*1 ->
    Forall (fun c => keep c /\ valid c.1 /\ staged c.2) children -> staged (Dir children).

Lemma in_order_sorted {A B} (g : string * A -> B) (l : list (string * A)) :
  NoDup l.*1 -> StronglySorted (key_le fst) l -> in_order (map (fun c => (c.1, g c)) l) = map g l.
Proof. intros. by rewrite in_order_map, sort_by_id. Qed.

Lemma staged_norm_all children prefix :
  NoDup children.*1 ->
  Forall (fun c => forall prefix, Forall fine (flat (norm c.2) c.1 prefix) -> valid c.1 /\ staged (norm c.2)) children ->
  Forall fine (flat_all (norm_children children) prefix) -> staged (Dir (norm_children children)).
Proof.
  intros Hnd IH Hf. constructor; [apply norm_children_sorted|by apply norm_children_NoDup|].
  rewrite flat_norm in Hf by done.
  apply Forall_forall. intros c Hc.
  assert (Forall fine (flat c.2 c.1 prefix)) as Hfc.
  { apply Forall_forall. intros x Hx. apply (proj1 (Forall_forall _ _) Hf). apply list_elem_of_In, in_concat.
    exists (flat c.2 c.1 prefix). split; [|by apply list_elem_of_In].
    apply list_elem_of_In, list_elem_of_fmap. by exists c. }
  rewrite norm_children_spec in Hc by done. apply list_elem_of_filter in Hc as [Hk (c' & -> & Hc')%list_elem_of_fmap].
  rewrite sort_by_Permutation in Hc'. cbn [fst snd] in *.
  destruct (proj1 (Forall_forall _ _) IH c' Hc' prefix Hfc) as [? ?]. done.
Qed.

Lemma staged_norm n : forall name prefix,
  tree_ok n -> Forall fine (flat (norm n) name prefix) -> valid name /\ staged (norm n).
Proof.
  induction n as [perm links data|children IH|] using node_tree_ind; intros name prefix Hok Hf.
  - inversion Hf as [|? ? [Hv Hl] _]; subst. cbn in *. subst links. split; [done|]. constructor.
    by rewrite <- N.land_assoc, N.land_diag.
  - inversion Hok as [|? Hnd Hall|]; subst. cbn [norm flat] in Hf. inversion Hf as [|? ? [Hv _] Hf']; subst.
    split; [done|]. change (norm (Dir children)) with (Dir (norm_children children)).
    eapply staged_norm_all; [done| |exact Hf']. apply Forall_forall. intros c Hc prefix' Hfc.
    eapply (proj1 (Forall_forall _ _) IH); [done| |exact Hfc]. exact (proj1 (Forall_forall _ _) Hall c Hc).
  - inversion Hf as [|? ? [_ Hs] _]; subst. destruct Hs.
Qed.

(** ** Staging builds the captured tree *)

Definition leaf (n : node) : node :=
  match n with File perm _ data => File (N.land perm 365) 1 data | _ => Dir [] end.

Definition create_item (x : list string * node) (children : list (string * node)) : result (list (string * node)) :=
  create_at x.1 (leaf x.2) children.

Definition create_parsed (x : result (list string) * node) (children : list (string * node))
    : result (list (string * node)) :=
  let? parts := x.1 in create_at parts (leaf x.2) children.

Lemma stage_parsed items children :
  fold_ok stage_item (map entry_of items) children =
  fold_ok create_parsed (map (fun it => (openQuarantineParent it.1.1, it.2)) items) children.
Proof.
  rewrite !fold_ok_map. apply fold_ok_ext. intros [[rel name] n] a _. unfold stage_item, create_parsed. cbn [fst snd].
  destruct n as [perm links data|cs|]; done.
Qed.

Lemma flat_paths n : forall p name,
  staged n -> valid name -> Forall valid p ->
  map (fun it => (openQuarantineParent it.1.1, it.2)) (flat n name (Join p "/")) =
  map (fun x => (Ok (p ++ x.1)%list, x.2)) (paths n name).
Proof.
  induction n as [perm links data|children IH|] using node_tree_ind; intros p name Hst Hv Hp;
    (assert (Forall valid (p ++ [name])) as Hpn by (apply Forall_app; auto));
    cbn [flat paths map]; cbn [fst snd]; rewrite Join_snoc, openQuarantineParent_Join by (done || by destruct p);
    f_equal.
  inversion Hst as [|? Hs Hnd Hall]; subst.
  rewrite (in_order_sorted (fun c => flat c.2 c.1 _)), (in_order_sorted (fun c => paths c.2 c.1)) by done.
  rewrite map_map. cbn [fst snd]. rewrite !concat_map, !map_map. f_equal. apply map_ext_in.
  intros c Hc%list_elem_of_In. destruct (proj1 (Forall_forall _ _) Hall c Hc) as (_ & Hvc & Hsc).
  rewrite (proj1 (Forall_forall _ _) IH c Hc) by done. apply map_ext. intros [q x]. cbn [fst snd].
  by rewrite <- app_assoc.
Qed.

Lemma paths_nonempty n name x : x ∈ paths n name -> x.1 <> [].
Proof.
  destruct n; cbn [paths]; intros [->|H]%elem_of_cons; try done; try by apply not_elem_of_nil in H.
  apply list_elem_of_fmap in H as (y & -> & _). done.
Qed.

Lemma lookup_child_last name n t : name ∉ t.*1 -> lookup_child name (t ++ [(name, n)])%list = Some n.
Proof.
  induction t as [|c t IH]; cbn; intros H; [by rewrite bool_decide_eq_true_2|].
  rewrite bool_decide_eq_false_2 by set_solver. apply IH. set_solver.
Qed.

Lemma replace_child_last name n n' t :
  name ∉ t.*1 -> replace_child name n' (t ++ [(name, n)])%list = (t ++ [(name, n')])%list.
Proof.
  induction t as [|c t IH]; cbn; intros H; [by rewrite bool_decide_eq_true_2|].
  rewrite bool_decide_eq_false_2 by set_solver. f_equal. apply IH. set_solver.
Qed.

Lemma lookup_child_fresh name t : name ∉ t.*1 -> lookup_child name t = None.
Proof.
  induction t as [|c t IH]; cbn; intros H; [done|].
  rewrite bool_decide_eq_false_2 by set_solver. apply IH. set_solver.
Qed.

Lemma create_at_fresh name new t : name ∉ t.*1 -> create_at [name] new t = Ok (t ++ [(name, new)])%list.
Proof. intros H. cbn. by rewrite lookup_child_fresh. Qed.

Lemma create_at_below name below t q new :
  q <> [] -> name ∉ t.*1 ->
  create_at (name :: q) new (t ++ [(name, Dir below)])%list =
  (let? below := create_at q new below in Ok (t ++ [(name, Dir below)])%list).
Proof.
  intros Hq Hn. destruct q as [|d q]; [done|].
  change (create_at (name :: d :: q) new ?l) with
    (match lookup_child name l with
     | Some (Dir below) => let? below := create_at (d :: q) new below in Ok (replace_child name (Dir below) l)
     | Some _ => Err "not a directory"
     | None => Err "no such file or directory"
     end).
  rewrite lookup_child_last by done. destruct (create_at (d :: q) new below); [|done]. by rewrite replace_child_last.
Qed.

Lemma create_items_below name items : forall below t,
  Forall (fun x => x.1 <> []) items -> name ∉ t.*1 ->
  fold_ok create_item (map (fun x => (name :: x.1, x.2)) items) (t ++ [(name, Dir below)])%list =
  (let? below := fold_ok create_item items below in Ok (t ++ [(name, Dir below)])%list).
Proof.
  induction items as [|x items IH]; intros below t Hne Hn; [done|].
  inversion Hne as [|? ? Hx Hne']; subst. cbn [map fold_ok]. unfold create_item at 1 3. cbn [fst snd].
  rewrite create_at_below by done. destruct (create_at _ _ _) as [below'|]; [|done]. by apply IH.
Qed.

Lemma create_children children : forall t,
  (forall c t, c ∈ children -> c.1 ∉ t.*1 -> fold_ok create_item (paths c.2 c.1) t = Ok (t ++ [(c.1, c.2)])%list) ->
  NoDup children.*1 -> (forall name, name ∈ children.*1 -> name ∉ t.*1) ->
  fold_ok create_item (concat (map (fun c => paths c.2 c.1) children)) t = Ok (t ++ children)%list.
Proof.
  induction children as [|c children IH]; intros t Hc Hnd Hfresh; cbn [map concat].
  - cbn. by rewrite app_nil_r.
  - inversion Hnd as [|? ? Hn Hnd']; subst. rewrite fold_ok_app, Hc by (set_solver || apply Hfresh; set_solver).
    rewrite IH.
    + rewrite <- app_assoc. by destruct c.
    + intros c' t' Hin. apply Hc. set_solver.
    + done.
    + intros name Hin. rewrite fmap_app. cbn. intros [H|H]%elem_of_app; [by apply (Hfresh name); set_solver|].
      apply list_elem_of_singleton in H as ->. done.
Qed.

Lemma create_paths n : forall name t,
  staged n -> name ∉ t.*1 -> fold_ok create_item (paths n name) t = Ok (t ++ [(name, n)])%list.
Proof.
  induction n as [perm links data|children IH|] using node_tree_ind; intros name t Hst Hn; inversion Hst; subst;
    cbn [paths fold_ok]; unfold create_item at 1; cbn [fst snd leaf]; rewrite create_at_fresh by done; cbn [fold_ok].
  - congruence.
  - rename select (Forall _ children) into Hall.
    rewrite (in_order_sorted (fun c => paths c.2 c.1)) by done.
    rewrite create_items_below, (create_children children []); [done| |done|set_solver| |done].
    + intros c t' Hc Hf. apply (proj1 (Forall_forall _ _) IH); [done| |done].
      by destruct (proj1 (Forall_forall _ _) Hall c Hc) as (_ & _ & ?).
    + apply Forall_forall. intros x Hx%list_elem_of_In%in_concat. destruct Hx as (l & Hl & Hx).
      apply list_elem_of_In, list_elem_of_fmap in Hl as (c & -> & _). apply list_elem_of_In in Hx.
      by eapply paths_nonempty.
Qed.

Lemma stage_flat children :
  staged (Dir children) -> fold_ok stage_item (map entry_of (flat_all children "")) [] = Ok children.
Proof.
  intros Hst. inversion Hst as [|? Hs Hnd Hall]; subst. rewrite stage_parsed.
  unfold flat_all. rewrite (in_order_sorted (fun c => flat c.2 c.1 "")) by done.
  assert (map (fun it => (openQuarantineParent it.1.1, it.2)) (concat (map (fun c => flat c.2 c.1 "") children)) =
          map (fun x => (Ok x.1, x.2)) (concat (map (fun c => paths c.2 c.1) children))) as ->.
  { rewrite !concat_map, !map_map. f_equal. apply map_ext_in. intros c Hc%list_elem_of_In.
    destruct (proj1 (Forall_forall _ _) Hall c Hc) as (_ & Hvc & Hsc).
    exact (flat_paths c.2 [] c.1 Hsc Hvc (Forall_nil_2 _)). }
  rewrite fold_ok_map. change (fold_ok create_item (concat (map (fun c => paths c.2 c.1) children)) [] = Ok children).
  apply (create_children children []); [|done|set_solver].
  intros c t Hc Hf. apply create_paths; [|done]. by destruct (proj1 (Forall_forall _ _) Hall c Hc) as (_ & _ & ?).
Qed.

(** Staging the staged tree again changes nothing. *)
Lemma norm_staged n : staged n -> norm n = n.
Proof.
  induction n as [perm links data|children IH|] using node_tree_ind; intros Hst; inversion Hst; subst; [by cbn; f_equal|].
  rename select (Forall _ children) into Hall.
  change (Dir (norm_children children) = Dir children). f_equal. rewrite norm_children_spec, sort_by_id by done.
  assert (map (fun c => (c.1, norm c.2)) children = children) as ->.
  { rewrite <- (map_id children) at 2. apply map_ext_in. intros c Hc%list_elem_of_In.
    rewrite (proj1 (Forall_forall _ _) IH c Hc) by by destruct (proj1 (Forall_forall _ _) Hall c Hc) as (_ & _ & ?).
    by destruct c. }
  clear -Hall. induction Hall as [|c l [Hk _] Hall IH]; [done|]. by rewrite filter_cons, decide_True, IH.
Qed.

Lemma staged_tree_ok n : staged n -> tree_ok n.
Proof.
  induction n as [perm links data|children IH|] using node_tree_ind; intros Hst; inversion Hst; subst; [constructor|].
  rename select (Forall _ children) into Hall. constructor; [done|]. apply Forall_forall. intros c Hc.
  apply (proj1 (Forall_forall _ _) IH c Hc). by destruct (proj1 (Forall_forall _ _) Hall c Hc) as (_ & _ & ?).
Qed.

(** ** The hash of the candidate and of the published tree *)

(** No directory carries the name of the origin mark: the hash of a candidate
    would enter it, the capture does not. *)
Inductive origin_ok : node -> Prop :=
| origin_file perm links data : origin_ok (File perm links data)
| origin_dir children :
    Forall (fun c => (c.1 = skill_origin -> forall below, c.2 <> Dir below) /\ origin_ok c.2) children ->
    origin_ok (Dir children)
| origin_special : origin_ok Special.

Definition dotdot_free (children : list (string * node)) : Prop :=
  Forall (fun c => HasPrefix c.1 ".." = false) children.

Lemma HasPrefix_dotdot name rest :
  valid name -> HasPrefix name ".." = false -> HasPrefix (name +:+ "/" +:+ rest) ".." = false.
Proof.
  intros (H1 & H2 & _)%valid_spec. unfold HasPrefix. destruct name as [|a [|b name]]; [done| |].
  - rewrite append_cons, append_nil, append_cons. cbn [String.prefix].
    destruct (ascii_dec "."%char a) as [<-|]; [|done]. by destruct (ascii_dec "."%char "/"%char).
  - rewrite !append_cons. cbn [String.prefix]. destruct (ascii_dec "."%char a); [|done]. destruct (ascii_dec "."%char b); [|done]. by destruct name.
Qed.

Lemma flat_below n : forall name prefix item, prefix <> "" -> item ∈ flat n name prefix ->
  exists rest, item.1.1 = prefix +:+ "/" +:+ rest.
Proof.
  assert (forall prefix name, prefix <> "" -> child_path prefix name = prefix +:+ "/" +:+ name) as E
    by (intros; unfold child_path; by rewrite bool_decide_eq_false_2).
  induction n as [perm links data|children IH|] using node_tree_ind; intros name prefix item Hp Hin; cbn [flat] in Hin;
    apply elem_of_cons in Hin as [->|Hin]; try by apply not_elem_of_nil in Hin.
  all: try (exists name; exact (E _ _ Hp)).
  - apply list_elem_of_In, in_concat in Hin as (l & Hl & Hin). apply list_elem_of_In in Hl, Hin.
    unfold in_order in Hl. apply list_elem_of_fmap in Hl as ([k l'] & -> & Hl). rewrite sort_by_Permutation in Hl.
    apply list_elem_of_fmap in Hl as (c & [= -> ->] & Hc). cbn [fst snd] in Hin. rewrite E in Hin by done.
    assert (prefix +:+ "/" +:+ name <> "") as Hne by by destruct prefix.
    destruct (proj1 (Forall_forall _ _) IH c Hc _ _ _ Hne Hin) as (rest & ->).
    exists (name +:+ "/" +:+ rest). by rewrite !append_assoc.
Qed.

Lemma flat_dotdot children :
  dotdot_free children -> Forall (fun c => valid c.1) children ->
  Forall (fun item => HasPrefix item.1.1 ".." = false) (concat (map (fun c => flat c.2 c.1 "") children)).
Proof.
  intros Hd Hv. apply Forall_forall. intros item Hin.
  apply list_elem_of_In, in_concat in Hin as (l & Hl & Hin). apply list_elem_of_In in Hl, Hin.
  apply list_elem_of_fmap in Hl as (c & -> & Hc).
  pose proof (proj1 (Forall_forall _ _) Hd c Hc) as Hdc. pose proof (proj1 (Forall_forall _ _) Hv c Hc) as Hvc.
  cbn beta in Hdc, Hvc. assert (child_path "" c.1 = c.1) as E by done.
  destruct c.2 as [perm links data|below|]; cbn [flat] in Hin; rewrite E in Hin;
    apply elem_of_cons in Hin as [->|Hin]; try by apply not_elem_of_nil in Hin.
  all: try exact Hdc.
  apply list_elem_of_In, in_concat in Hin as (l & Hl & Hin). apply list_elem_of_In in Hl, Hin.
  unfold in_order in Hl. apply list_elem_of_fmap in Hl as ([k l'] & -> & Hl). rewrite sort_by_Permutation in Hl.
  apply list_elem_of_fmap in Hl as (c' & [= -> ->] & Hc'). cbn [fst snd] in Hin.
  destruct (flat_below _ _ _ _ ltac:(by apply valid_spec in Hvc as [? _]) Hin) as (rest & ->). by apply HasPrefix_dotdot.
Qed.

(** The names of a staged tree are no origin marks. *)
Lemma flat_keep n : forall name prefix,
  staged n -> name <> skill_origin -> Forall (fun item => item.1.2 <> skill_origin) (flat n name prefix).
Proof.
  induction n as [perm links data|children IH|] using node_tree_ind; intros name prefix Hst Hn; inversion Hst; subst;
    cbn [flat]; constructor; try done.
  rename select (Forall _ children) into Hall. apply Forall_forall. intros item Hin.
  apply list_elem_of_In, in_concat in Hin as (l & Hl & Hin). apply list_elem_of_In in Hl, Hin.
  rewrite (in_order_sorted (fun c => flat c.2 c.1 _)) in Hl by done. apply list_elem_of_fmap in Hl as (c & -> & Hc).
  destruct (proj1 (Forall_forall _ _) Hall c Hc) as (Hk & _ & Hs).
  exact (proj1 (Forall_forall _ _) (proj1 (Forall_forall _ _) IH c Hc _ _ Hs Hk) item Hin).
Qed.

Section trees.
Context {SHA : Sha256} {CR : ClosureRoot}.

Lemma manifest_children children prefix acc :
  NoDup children.*1 ->
  (forall c acc, c ∈ children -> c.1 <> skill_origin ->
     walk_child manifest_visit c.2 c.1 prefix acc = fold_ok (on_item manifest_visit) (flat (norm c.2) c.1 prefix) acc) ->
  (forall c acc, c ∈ children -> c.1 = skill_origin -> walk_child manifest_visit c.2 c.1 prefix acc = Ok acc) ->
  fold_ok (fun step acc => step acc)
    (in_order (map (fun c => (c.1, walk_child manifest_visit c.2 c.1 prefix)) children)) acc =
  fold_ok (on_item manifest_visit) (flat_all (norm_children children) prefix) acc.
Proof.
  intros Hnd Hc Ho. rewrite (in_order_map (fun c => walk_child manifest_visit c.2 c.1 prefix)) by done.
  rewrite flat_norm, norm_children_spec by done. rewrite fold_ok_concat, !fold_ok_map.
  assert (forall c, c ∈ sort_by fst children -> c ∈ children) as Hin
    by (intros c; by rewrite sort_by_Permutation).
  revert acc. induction (sort_by fst children) as [|c l IH]; intros acc; cbn [map fold_ok]; [done|].
  rewrite filter_cons. case_decide as Hk.
  - cbn [map fold_ok fst snd]. rewrite (Hc c) by (done || apply Hin; set_solver).
    destruct (fold_ok _ _ _); [|done]. apply IH. set_solver.
  - rewrite (Ho c) by (apply Hin; set_solver) || by (unfold keep in Hk; cbn in Hk; by apply dec_stable).
    apply IH. set_solver.
Qed.

Lemma manifest_origin n prefix acc :
  (forall below, n <> Dir below) -> walk_child manifest_visit n skill_origin prefix acc = Ok acc.
Proof. by destruct n as [| below|]; intros H; try done; destruct (H below). Qed.

Lemma manifest_flat n : forall name prefix acc,
  tree_ok n -> origin_ok n -> name <> skill_origin ->
  walk_child manifest_visit n name prefix acc = fold_ok (on_item manifest_visit) (flat (norm n) name prefix) acc.
Proof.
  induction n as [perm links data|children IH|] using node_tree_ind; intros name prefix acc Hok Ho Hn.
  - cbn [walk_child flat norm fold_ok]. unfold on_item. cbn [fst snd].
    assert (manifest_visit (child_path prefix name) name (File (N.land perm 365) links data) acc =
            manifest_visit (child_path prefix name) name (File perm links data) acc) as ->
      by (unfold manifest_visit; by rewrite <- N.land_assoc, N.land_diag).
    by destruct (manifest_visit _ _ _ _).
  - inversion Hok as [|? Hnd Hall|]; inversion Ho as [|? Hall'|]; subst. cbn [walk_child flat norm fold_ok].
    unfold on_item at 1. cbn [fst snd].
    change (manifest_visit (child_path prefix name) name (Dir (filter _ _)) acc)
      with (manifest_visit (child_path prefix name) name (Dir children) acc).
    destruct (manifest_visit _ _ _ _) as [a|m]; [|done].
    apply manifest_children; [done| |]; intros c a' Hin Hc; destruct (proj1 (Forall_forall _ _) Hall' c Hin) as [H1 H2].
    + apply (proj1 (Forall_forall _ _) IH); [done| |done|done]. exact (proj1 (Forall_forall _ _) Hall c Hin).
    + rewrite Hc. by apply manifest_origin, H1.
  - cbn [walk_child flat norm fold_ok]. unfold on_item. cbn [fst snd]. by destruct (manifest_visit _ _ _ _).
Qed.

Lemma manifest_root children :
  tree_ok (Dir children) -> origin_ok (Dir children) ->
  WalkDir manifest_visit (Some (Dir children)) ([], 0) =
  fold_ok (on_item manifest_visit) (flat_all (norm_children children) "") ([], 0).
Proof.
  intros Hok Ho. inversion Hok as [|? Hnd Hall|]; inversion Ho as [|? Hall'|]; subst.
  apply manifest_children; [done| |]; intros c a' Hin Hc; destruct (proj1 (Forall_forall _ _) Hall' c Hin) as [H1 H2].
  - apply manifest_flat; [|done..]. exact (proj1 (Forall_forall _ _) Hall c Hin).
  - rewrite Hc. by apply manifest_origin, H1.
Qed.

(** What a successful capture of a tree determines. *)
Lemma capture_root children s :
  tree_ok (Dir children) -> captureQuarantineSnapshot (Some (Dir children)) = Ok s ->
  let items := flat_all (norm_children children) "" in
  staged (Dir (norm_children children)) /\ Forall fine items /\
  s = {| qs_Entries := map entry_of items; qs_Bytes := sumN (map item_bytes items); qs_Files := llen items |} /\
  llen items <= QuarantineReservationFiles /\ sumN (map item_bytes items) <= QuarantineReservationBytes.
Proof.
  intros Hok Hc items. inversion Hok as [|? Hnd Hall|]; subst. unfold captureQuarantineSnapshot in Hc.
  rewrite capture_children in Hc; [|done|].
  2: { intros c r Hin Hn. apply capture_flat; [|done]. exact (proj1 (Forall_forall _ _) Hall c Hin). }
  destruct (capture_chain _ _ _ Hc) as (Hf & -> & H1 & H2); [done..|]. cbn in H1, H2.
  split; [|split; [done|split; [done|done]]].
  eapply staged_norm_all; [done| |exact Hf]. apply Forall_forall. intros c Hin prefix Hfc.
  eapply staged_norm; [|exact Hfc]. exact (proj1 (Forall_forall _ _) Hall c Hin).
Qed.

Lemma hash_root children s :
  tree_ok (Dir children) -> origin_ok (Dir children) -> dotdot_free children ->
  captureQuarantineSnapshot (Some (Dir children)) = Ok s ->
  HashTree (Some (Dir children)) = hashQuarantineSnapshot s.
Proof.
  intros Hok Ho Hd Hc. destruct (capture_root _ _ Hok Hc) as (Hst & Hf & -> & Hl & _).
  inversion Hok as [|? Hnd _|]; subst. inversion Hst as [|? _ _ Hall]; subst.
  unfold HashTree. rewrite manifest_root by done. rewrite manifest_chain; [|done| |done].
  - unfold hashQuarantineSnapshot. cbn [fst qs_Entries]. by rewrite map_map.
  - apply Forall_and. rewrite flat_norm by done. split.
    + apply Forall_forall. intros item Hin.
      apply list_elem_of_In, in_concat in Hin as (l & Hl' & Hin). apply list_elem_of_In in Hl', Hin.
      apply list_elem_of_fmap in Hl' as (c & -> & Hc').
      destruct (proj1 (Forall_forall _ _) Hall c Hc') as (Hk & _ & Hs).
      exact (proj1 (Forall_forall _ _) (flat_keep _ _ _ Hs Hk) item Hin).
    + apply flat_dotdot.
      * apply Forall_forall. intros c Hc'. rewrite norm_children_spec in Hc' by done.
        apply list_elem_of_filter in Hc' as [_ (c' & -> & Hc')%list_elem_of_fmap].
        rewrite sort_by_Permutation in Hc'. exact (proj1 (Forall_forall _ _) Hd c' Hc').
      * apply Forall_forall. intros c Hc'. by destruct (proj1 (Forall_forall _ _) Hall c Hc') as (_ & ? & _).
Qed.

Lemma capture_norm children s :
  tree_ok (Dir children) -> captureQuarantineSnapshot (Some (Dir children)) = Ok s ->
  captureQuarantineSnapshot (Some (Dir (norm_children children))) = Ok s.
Proof.
  intros Hok Hc. destruct (capture_root _ _ Hok Hc) as (Hst & _).
  assert (forall cs, tree_ok (Dir cs) -> captureQuarantineSnapshot (Some (Dir cs)) =
            fold_ok (on_item capture_visit) (flat_all (norm_children cs) "") no_snapshot) as E.
  { intros cs Hcs. inversion Hcs as [|? Hnd Hall|]; subst. apply capture_children; [done|].
    intros c r Hin Hn. apply capture_flat; [|done]. exact (proj1 (Forall_forall _ _) Hall c Hin). }
  pose proof (norm_staged _ Hst) as En. change (Dir (norm_children (norm_children children)) = Dir (norm_children children)) in En.
  injection En as En. rewrite E in Hc |- * by (done || by apply staged_tree_ok). by rewrite En.
Qed.

Lemma staged_origin_ok n : staged n -> origin_ok n.
Proof.
  induction n as [perm links data|children IH|] using node_tree_ind; intros Hst; inversion Hst; subst; constructor.
  rename select (Forall _ children) into Hall. apply Forall_forall. intros c Hc.
  destruct (proj1 (Forall_forall _ _) Hall c Hc) as (Hk & _ & Hs).
  split; [done|]. exact (proj1 (Forall_forall _ _) IH c Hc Hs).
Qed.

Lemma dotdot_free_norm children : NoDup children.*1 -> dotdot_free children -> dotdot_free (norm_children children).
Proof.
  intros Hnd Hd. apply Forall_forall. intros c Hc. rewrite norm_children_spec in Hc by done.
  apply list_elem_of_filter in Hc as [_ (c' & -> & Hc')%list_elem_of_fmap].
  rewrite sort_by_Permutation in Hc'. exact (proj1 (Forall_forall _ _) Hd c' Hc').
Qed.

(** The staged tree of a capture: what publication, hashing and measuring see. *)
Lemma staged_snapshot children s :
  tree_ok (Dir children) -> captureQuarantineSnapshot (Some (Dir children)) = Ok s ->
  stage_tree s = Ok (Dir (norm_children children)) /\
  boundedTreeUsage (Some (Dir (norm_children children))) = Ok (qs_Bytes s, qs_Files s) /\
  (dotdot_free children -> HashTree (Some (Dir (norm_children children))) = hashQuarantineSnapshot s).
Proof.
  intros Hok Hc. pose proof (capture_norm _ _ Hok Hc) as Hcn.
  destruct (capture_root _ _ Hok Hc) as (Hst & Hf & E & Hl & Hb).
  inversion Hst as [|? Hs Hnd Hall]; subst. split; [|split].
  - unfold stage_tree. cbn [qs_Entries]. by rewrite stage_flat.
  - unfold boundedTreeUsage, WalkDir. rewrite walk_children; [|done|].
    + rewrite usage_chain; [|done..]. done.
    + intros c acc Hin. apply walk_flat, staged_tree_ok.
      by destruct (proj1 (Forall_forall _ _) Hall c Hin) as (_ & _ & ?).
  - intros Hd. apply hash_root; [by apply staged_tree_ok|by apply staged_origin_ok| |done].
    inversion Hok; subst. by apply dotdot_free_norm.
Qed.

Lemma fold_ok_stuck {A B} (f : B -> A -> result A) l b a :
  b ∈ l -> (forall a, is_err (f b a) = true) -> is_err (fold_ok f l a) = true.
Proof.
  intros Hin He. revert a. induction l as [|x l IH]; intros a; [by apply not_elem_of_nil in Hin|].
  cbn [fold_ok]. apply elem_of_cons in Hin as [->|Hin].
  - specialize (He a). by destruct (f x a).
  - destruct (f x a); [by apply IH|done].
Qed.

(** C28: A candidate whose capture succeeded is published exactly, provided no name
    directly below it begins with two dots and no directory carries the name of
    the origin mark: the staged tree is captured to the same entries again, it
    measures what the snapshot measured, and it hashes to the digest that was
    compared with the caller's, which is also the hash of the candidate itself.
    (Without the first proviso the staged tree cannot be hashed at all:
    [dotdot_unpublished].) *)
Theorem quar_publish_exact children s :
  tree_ok (Dir children) -> dotdot_free children -> origin_ok (Dir children) ->
  captureQuarantineSnapshot (Some (Dir children)) = Ok s ->
  exists tree, stage_tree s = Ok tree /\ captureQuarantineSnapshot (Some tree) = Ok s /\
    boundedTreeUsage (Some tree) = Ok (qs_Bytes s, qs_Files s) /\
    HashTree (Some tree) = hashQuarantineSnapshot s /\ HashTree (Some (Dir children)) = hashQuarantineSnapshot s.
Proof.
  intros Hok Hd Ho Hc. destruct (staged_snapshot _ _ Hok Hc) as (H1 & H2 & H3).
  exists (Dir (norm_children children)). split; [done|]. split; [by apply capture_norm|].
  split; [done|]. split; [by apply H3|by apply hash_root].
Qed.

(** The capture accepts a name that begins with two dots, the hash of the
    published tree refuses it: such a candidate can never be published. *)
Lemma dotdot_unpublished children s name n :
  tree_ok (Dir children) -> captureQuarantineSnapshot (Some (Dir children)) = Ok s ->
  (name, n) ∈ children -> HasPrefix name ".." = true -> name <> skill_origin ->
  stage_tree s = Ok (Dir (norm_children children)) /\ is_err (HashTree (Some (Dir (norm_children children)))) = true.
Proof.
  intros Hok Hc Hin Hp Hn. destruct (staged_snapshot _ _ Hok Hc) as (H1 & _). split; [done|].
  destruct (capture_root _ _ Hok Hc) as (Hst & _). inversion Hst as [|? Hs Hnd Hall]; subst.
  inversion Hok as [|? Hnd0 _|]; subst. unfold HashTree, WalkDir.
  rewrite walk_children; [|done|].
  2: { intros c acc Hcin. apply walk_flat, staged_tree_ok.
       by destruct (proj1 (Forall_forall _ _) Hall c Hcin) as (_ & _ & ?). }
  rewrite flat_all_map, sort_by_id by done.
  assert (is_err (fold_ok (on_item manifest_visit)
    (concat (map (fun c => flat c.2 c.1 "") (norm_children children))) ([], 0)) = true) as He.
  { apply (fold_ok_stuck _ _ (name, name, norm n)).
    - apply list_elem_of_In, in_concat. exists (flat (norm n) name ""). split; apply list_elem_of_In.
      + apply list_elem_of_fmap. exists (name, norm n). split; [done|]. rewrite norm_children_spec by done.
        apply list_elem_of_filter. split; [done|]. apply list_elem_of_fmap. exists (name, n). split; [done|].
        by rewrite sort_by_Permutation.
      + assert (child_path "" name = name) as Ep by done. destruct n; cbn [norm flat]; rewrite Ep; apply elem_of_cons; by left.
    - intros [entries count]. unfold on_item, manifest_visit. cbn [fst snd]. rewrite bool_decide_eq_false_2, Hp by done.
      by destruct (_ <? _). }
  by destruct (fold_ok _ _ _).
Qed.

End trees.

End QuarTree.
