(* ===== verification/Quarantine.v ===== *)
(** * Capability control: the quarantine ledger

    src/pkg/capabilitycontrol/quarantine_ledger.go (and the request check of
    [AdmitCapabilityAcquisition], http_authority.go): what a model may retrieve
    from outside. A reservation is admitted by an external authority before
    anything is fetched; a commit captures the candidate directory, has the
    authority accept its exact digest and size, and publishes it under its digest.
    The ledger file is written before and after each call to the authority, and
    opening the ledger finishes what was interrupted.

    The authority is an interface: an idempotent compare-and-swap on the revision
    of the ledger, as the comments on [CapabilityAcquisitionRequest] and
    [recoverCommitLocked] require it. The directory of the ledger is a map from
    names to trees; which system calls fail, and what the authority's answer comes
    to, are arguments of each operation, which reads the clock once. *)

From S2P Require Import Prelude GoLib GoText GoUnicode FileStore Protocol QuarTree.
#[local] Open Scope string_scope.
#[local] Open Scope N_scope.

Module Quarantine.
Import QuarTree.

Definition QuarantineGlobalBytes : N := 536870912.
Definition QuarantinePrincipalBytes : N := 268435456.
Definition QuarantineSourceBytes : N := 268435456.
Definition QuarantineMaxObjects : N := 512.
Definition QuarantineDailyRequests : N := 32.

(** ** Data *)

(** [trusted.CapabilityAcquisitionTransitionV1]: the fields the source fills. *)
Record CapabilityAcquisitionRequest := {
  ar_SchemaVersion : N;
  ar_OwnerID : string;
  ar_AgentID : string;
  ar_LedgerID : string;
  ar_AcquisitionID : string;
  ar_Phase : string;
  ar_Principal : string;
  ar_SourceID : string;
  ar_SourceGeneration : N;
  ar_ReservedBytes : N;
  ar_ReservedFiles : N;
  ar_ExpiresAtUnix : N;
  ar_ContentDigest : string;
  ar_ContentBytes : N;
  ar_ContentFiles : N;
  ar_PriorRevision : N;
  ar_NextRevision : N
}.

#[global] Instance request_eq_dec : EqDecision CapabilityAcquisitionRequest.
Proof. solve_decision. Defined.

Record QuarantineReservation := {
  r_ID : string;
  r_Principal : string;
  r_SourceID : string;
  r_SourceGeneration : N;
  r_ReservedBytes : N;
  r_ReservedFiles : N;
  r_ExpiresAtUnix : N;
  r_CommitDigest : string;
  r_CommitBytes : N;
  r_CommitFiles : N;
  r_TemporaryName : string;
  r_AuthorityPhase : string;
  r_PriorRevision : N;
  r_NextRevision : N
}.

Record QuarantineObjectRecord := {
  q_Digest : string;
  q_Principal : string;
  q_SourceID : string;
  q_SourceGeneration : N;
  q_Bytes : N;
  q_Files : N;
  q_RetainedAtUnix : N;
  q_CommitTransition : CapabilityAcquisitionRequest
}.

Record QuarantineCommitReceipt := {
  rc_SchemaVersion : N;
  rc_LedgerRoot : string;
  rc_RootDevice : N;
  rc_RootInode : N;
  rc_Transition : CapabilityAcquisitionRequest
}.

Record quarantineLedgerState := {
  ls_SchemaVersion : N;
  ls_LedgerID : string;
  ls_RootDevice : N;
  ls_RootInode : N;
  ls_LedgerRevision : N;
  ls_DeletionGeneration : N;
  ls_Reservations : gmap string QuarantineReservation;
  ls_Objects : gmap string QuarantineObjectRecord;
  ls_Tombstones : gmap string N;
  ls_DailyRequests : gmap string (gmap string N);
  ls_LastRequestDay : string
}.

(** The fields of an open [QuarantineLedger] besides its lock and its handle;
    the device and inode are the pinned handle's. *)
Record QuarantineLedger := {
  ql_root : string;
  ql_device : N;
  ql_inode : N;
  ql_state : quarantineLedgerState;
  ql_ownerID : string;
  ql_agentID : string;
  ql_closed : bool;
  ql_poisoned : bool
}.

Definition set_phase (phase : string) (r : QuarantineReservation) : QuarantineReservation :=
  {| r_ID := r_ID r; r_Principal := r_Principal r; r_SourceID := r_SourceID r; r_SourceGeneration := r_SourceGeneration r;
     r_ReservedBytes := r_ReservedBytes r; r_ReservedFiles := r_ReservedFiles r; r_ExpiresAtUnix := r_ExpiresAtUnix r;
     r_CommitDigest := r_CommitDigest r; r_CommitBytes := r_CommitBytes r; r_CommitFiles := r_CommitFiles r;
     r_TemporaryName := r_TemporaryName r; r_AuthorityPhase := phase; r_PriorRevision := r_PriorRevision r;
     r_NextRevision := r_NextRevision r |}.

(** The reservation a commit prepares. *)
Definition prepared (r : QuarantineReservation) (key : string) (bytesUsed filesUsed : N) (temporaryName : string)
    (revision : N) : QuarantineReservation :=
  {| r_ID := r_ID r; r_Principal := r_Principal r; r_SourceID := r_SourceID r; r_SourceGeneration := r_SourceGeneration r;
     r_ReservedBytes := r_ReservedBytes r; r_ReservedFiles := r_ReservedFiles r; r_ExpiresAtUnix := r_ExpiresAtUnix r;
     r_CommitDigest := key; r_CommitBytes := bytesUsed; r_CommitFiles := filesUsed; r_TemporaryName := temporaryName;
     r_AuthorityPhase := "commit-prepared"; r_PriorRevision := revision; r_NextRevision := add64w revision 1 |}.

Definition with_books (reservations : gmap string QuarantineReservation) (objects : gmap string QuarantineObjectRecord)
    (revision : N) (st : quarantineLedgerState) : quarantineLedgerState :=
  {| ls_SchemaVersion := ls_SchemaVersion st; ls_LedgerID := ls_LedgerID st; ls_RootDevice := ls_RootDevice st;
     ls_RootInode := ls_RootInode st; ls_LedgerRevision := revision; ls_DeletionGeneration := ls_DeletionGeneration st;
     ls_Reservations := reservations; ls_Objects := objects; ls_Tombstones := ls_Tombstones st;
     ls_DailyRequests := ls_DailyRequests st; ls_LastRequestDay := ls_LastRequestDay st |}.
Definition with_reservations (reservations : gmap string QuarantineReservation) (st : quarantineLedgerState) :=
  with_books reservations (ls_Objects st) (ls_LedgerRevision st) st.
Definition with_daily (daily : gmap string (gmap string N)) (day : string) (st : quarantineLedgerState)
    : quarantineLedgerState :=
  {| ls_SchemaVersion := ls_SchemaVersion st; ls_LedgerID := ls_LedgerID st; ls_RootDevice := ls_RootDevice st;
     ls_RootInode := ls_RootInode st; ls_LedgerRevision := ls_LedgerRevision st;
     ls_DeletionGeneration := ls_DeletionGeneration st; ls_Reservations := ls_Reservations st;
     ls_Objects := ls_Objects st; ls_Tombstones := ls_Tombstones st; ls_DailyRequests := daily; ls_LastRequestDay := day |}.
Definition with_deleted (objects : gmap string QuarantineObjectRecord) (tombstones : gmap string N) (generation : N)
    (st : quarantineLedgerState) : quarantineLedgerState :=
  {| ls_SchemaVersion := ls_SchemaVersion st; ls_LedgerID := ls_LedgerID st; ls_RootDevice := ls_RootDevice st;
     ls_RootInode := ls_RootInode st; ls_LedgerRevision := ls_LedgerRevision st; ls_DeletionGeneration := generation;
     ls_Reservations := ls_Reservations st; ls_Objects := objects; ls_Tombstones := tombstones;
     ls_DailyRequests := ls_DailyRequests st; ls_LastRequestDay := ls_LastRequestDay st |}.

Definition set_state (st : quarantineLedgerState) (l : QuarantineLedger) : QuarantineLedger :=
  {| ql_root := ql_root l; ql_device := ql_device l; ql_inode := ql_inode l; ql_state := st; ql_ownerID := ql_ownerID l;
     ql_agentID := ql_agentID l; ql_closed := ql_closed l; ql_poisoned := ql_poisoned l |}.
Definition poison (l : QuarantineLedger) : QuarantineLedger :=
  {| ql_root := ql_root l; ql_device := ql_device l; ql_inode := ql_inode l; ql_state := ql_state l;
     ql_ownerID := ql_ownerID l; ql_agentID := ql_agentID l; ql_closed := ql_closed l; ql_poisoned := true |}.
Definition close (l : QuarantineLedger) : QuarantineLedger :=
  {| ql_root := ql_root l; ql_device := ql_device l; ql_inode := ql_inode l; ql_state := ql_state l;
     ql_ownerID := ql_ownerID l; ql_agentID := ql_agentID l; ql_closed := true; ql_poisoned := ql_poisoned l |}.

(** ** The external authority *)

Class AcquisitionAuthority := {
  authority : Type;
  (* The state after an admitted request; [None] is a refusal. *)
  compare_and_swap : authority -> CapabilityAcquisitionRequest -> option authority;
  (* The requests admitted so far. *)
  admitted : authority -> CapabilityAcquisitionRequest -> Prop
}.

(** "An idempotent CAS on PriorRevision -> NextRevision" (types.go). *)
Class AuthorityLaws `{AcquisitionAuthority} := {
  admit_admitted a r a' : compare_and_swap a r = Some a' -> admitted a' r;
  admit_keeps a r a' r' : compare_and_swap a r = Some a' -> admitted a r' -> admitted a' r';
  admit_again a r : admitted a r -> compare_and_swap a r = Some a;
  admit_conflict a r r' : admitted a r -> ar_NextRevision r' = ar_NextRevision r -> r' <> r -> compare_and_swap a r' = None
}.

(** What comes of a call: it never arrives, its answer is lost, or it is
    answered. *)
Inductive delivery := Unsent | AnswerLost | Answered.

(** http_authority.go: the check before the call. *)
Definition acquisition_complete (r : CapabilityAcquisitionRequest) : bool :=
  negb (negb (ar_SchemaVersion r =? 1) || (slen (ar_OwnerID r) =? 0) || (slen (ar_AgentID r) =? 0)
        || negb (slen (ar_LedgerID r) =? 16) || negb (slen (ar_AcquisitionID r) =? 32)
        || (negb (bool_decide (ar_Phase r = "reserve")) && negb (bool_decide (ar_Phase r = "commit")))
        || bool_decide (ar_Principal r = "") || bool_decide (ar_SourceID r = "")
        || (ar_SourceGeneration r =? 0) || (ar_ReservedBytes r =? 0) || (ar_ReservedFiles r =? 0)
        || (ar_ExpiresAtUnix r =? 0) || negb (ar_NextRevision r =? add64w (ar_PriorRevision r) 1)
        || (bool_decide (ar_Phase r = "reserve")
            && (negb (slen (ar_ContentDigest r) =? 0) || negb (ar_ContentBytes r =? 0) || negb (ar_ContentFiles r =? 0)))
        || (bool_decide (ar_Phase r = "commit")
            && (negb (slen (ar_ContentDigest r) =? 32) || (ar_ContentFiles r =? 0)
                || (ar_ReservedBytes r <? ar_ContentBytes r) || (ar_ReservedFiles r <? ar_ContentFiles r)))).

Definition AdmitCapabilityAcquisition `{AcquisitionAuthority} (d : delivery) (r : CapabilityAcquisitionRequest)
    (a : authority) : authority * result unit :=
  if negb (acquisition_complete r) then (a, Err "capability acquisition fence request is incomplete")
  else
    match d with
    | Unsent => (a, Err "control authority unreachable")
    | AnswerLost => (match compare_and_swap a r with Some a' => a' | None => a end, Err "control authority response is invalid")
    | Answered =>
        match compare_and_swap a r with
        | Some a' => (a', Ok tt)
        | None => (a, Err "control authority rejected request")
        end
    end.
(** ** Days *)

(** [Format("2006-01-02")] of a time in UTC: the civil date of its day. *)
Definition civil (days : Z) : Z * Z * Z :=
  (let z := days + 719468 in
   let era := z / 146097 in
   let doe := z mod 146097 in
   let yoe := (doe - doe / 1460 + doe / 36524 - doe / 146096) / 365 in
   let doy := doe - (365 * yoe + yoe / 4 - yoe / 100) in
   let mp := (5 * doy + 2) / 153 in
   let day := doy - (153 * mp + 2) / 5 + 1 in
   let month := if mp <? 10 then mp + 3 else mp - 9 in
   let year := yoe + era * 400 + (if month <=? 2 then 1 else 0) in
   (year, month, day))%Z.

Fixpoint zeros (n : nat) : string :=
  match n with O => EmptyString | S n => "0" +:+ zeros n end.

Definition padded (width : nat) (v : Z) : string :=
  let digits := FormatUint10 (Z.abs_N v) in
  (if (v <? 0)%Z then "-" else "") +:+ zeros (width - String.length digits) +:+ digits.

Definition Format_day (now : Z) : string :=
  let '(year, month, day) := civil (Unix now / 86400)%Z in
  padded 4 year +:+ "-" +:+ padded 2 month +:+ "-" +:+ padded 2 day.

(** ** Paths of the ledger directory *)

Definition path_names (clean : string) : list string := filter (fun part => part <> "") (Split_slash clean).

(** [filepath.Dir] and [filepath.Base] of a cleaned absolute path. *)
Definition Dir_of (clean : string) : string := "/" +:+ Join (removelast (path_names clean)) "/".
Definition Base_of (clean : string) : string := default "/" (last (path_names clean)).

Definition Abs (cwd path : string) : string :=
  if HasPrefix path "/" then Clean path else Clean (cwd +:+ "/" +:+ path).

(** ** Operations *)

(** What [os.RemoveAll] comes to. *)
Inductive removal := Removed | RemoveFailed (remains : node).

(** What publishing a staged tree comes to, besides a target that exists. *)
Inductive publication := Published | PublishFailed | PublishedUnsynced.

(** What staging comes to: a random name, or a failing call and what is left. *)
Inductive staging := Staged (random : string) | StageFailed (partial : option (string * node)).

Record op_env := {
  oe_now : Z;
  oe_matches : bool;          (* rootHandle.matchesPath *)
  oe_matches_again : bool;
  oe_id : result string;      (* NewCapabilityAcquisitionID *)
  oe_cwd : string;
  oe_read_fails : bool;       (* a call of the capture *)
  oe_stat_fails : bool;       (* os.Stat of the target, other than by absence *)
  oe_staging : staging;
  oe_persist : io quarantineLedgerState;
  oe_delivery : delivery;
  oe_publication : publication;
  oe_hash_fails : bool;       (* a call of HashTree or boundedTreeUsage *)
  oe_persist_again : io quarantineLedgerState;
  oe_remove : string -> removal
}.

(** The part of [hex.DecodeString]'s result that the source keeps when it
    ignores the error. *)
Fixpoint hex_decoded (s : string) : string :=
  match s with
  | String a (String b rest) =>
      match from_hex a, from_hex b with
      | Some x, Some y => String (of_byte (16 * x + y)) (hex_decoded rest)
      | _, _ => EmptyString
      end
  | _ => EmptyString
  end.

Section ledger.
Context {SHA : Sha256} {CR : ClosureRoot} {AA : AcquisitionAuthority}.

(** What survives the process: the ledger file, the directory, the authority. *)
Record world := {
  w_file : file_state quarantineLedgerState;
  w_entries : gmap string node;
  w_authority : authority
}.

Definition with_file (file : file_state quarantineLedgerState) (w : world) : world :=
  {| w_file := file; w_entries := w_entries w; w_authority := w_authority w |}.
Definition with_entries (entries : gmap string node) (w : world) : world :=
  {| w_file := w_file w; w_entries := entries; w_authority := w_authority w |}.
Definition with_authority (a : authority) (w : world) : world :=
  {| w_file := w_file w; w_entries := w_entries w; w_authority := a |}.

Definition persistLocked (e : io quarantineLedgerState) (l : QuarantineLedger) (w : world) : world * result unit :=
  match io_marshal e (ql_state l) with
  | None => (w, Err "json")
  | Some _ =>
      let out := WriteFileAtomic (io_fails e) (ql_state l) (w_file w) in
      (with_file (wo_file out) w, wo_result out)
  end.

Definition requirePinnedRootLocked (matches : bool) (l : QuarantineLedger) : QuarantineLedger * result unit :=
  if negb matches || negb (ls_RootDevice (ql_state l) =? ql_device l) || negb (ls_RootInode (ql_state l) =? ql_inode l)
  then (poison l, Err "quarantine ledger root identity changed")
  else (l, Ok tt).

Definition removeAll (outcome : removal) (name : string) (w : world) : world * result unit :=
  match outcome with
  | Removed => (with_entries (delete name (w_entries w)) w, Ok tt)
  | RemoveFailed remains => (with_entries (<[name := remains]> (w_entries w)) w, Err "remove")
  end.

(** The sums are taken modulo 2^64, whatever the order of the maps. *)
Definition usageLocked (st : quarantineLedgerState) (principal source : string) : N * N * N * N :=
  let total (use_o : QuarantineObjectRecord -> bool) (use_r : QuarantineReservation -> bool) :=
    u64 (map_sum (fun o => if use_o o then q_Bytes o else 0) (ls_Objects st)
         + map_sum (fun r => if use_r r then r_ReservedBytes r else 0) (ls_Reservations st)) in
  (total (fun _ => true) (fun _ => true),
   total (fun o => bool_decide (q_Principal o = principal)) (fun r => bool_decide (r_Principal r = principal)),
   total (fun o => bool_decide (q_SourceID o = source)) (fun r => bool_decide (r_SourceID r = source)),
   N.of_nat (size (ls_Objects st))).

Definition acquisitionRequest (l : QuarantineLedger) (r : QuarantineReservation) (phase : string)
    : CapabilityAcquisitionRequest :=
  let commit := bool_decide (phase = "commit") in
  {| ar_SchemaVersion := 1; ar_OwnerID := ql_ownerID l; ar_AgentID := ql_agentID l;
     ar_LedgerID := ls_LedgerID (ql_state l); ar_AcquisitionID := r_ID r; ar_Phase := phase;
     ar_Principal := r_Principal r; ar_SourceID := r_SourceID r; ar_SourceGeneration := r_SourceGeneration r;
     ar_ReservedBytes := r_ReservedBytes r; ar_ReservedFiles := r_ReservedFiles r; ar_ExpiresAtUnix := r_ExpiresAtUnix r;
     ar_ContentDigest := if commit then hex_decoded (r_CommitDigest r) else "";
     ar_ContentBytes := if commit then r_CommitBytes r else 0;
     ar_ContentFiles := if commit then r_CommitFiles r else 0;
     ar_PriorRevision := r_PriorRevision r; ar_NextRevision := r_NextRevision r |}.

(** The requests of one principal on one day. *)
Definition requests_on (st : quarantineLedgerState) (day : string) : gmap string N :=
  default ∅ (ls_DailyRequests st !! day).
Definition count_requests (st : quarantineLedgerState) (day principal : string) (count : N) : quarantineLedgerState :=
  with_daily (<[day := <[principal := count]> (requests_on st day)]> (ls_DailyRequests st)) (ls_LastRequestDay st) st.

Definition new_reservation (e : op_env) (id principal sourceID : string) (sourceGeneration : N)
    (st : quarantineLedgerState) : QuarantineReservation :=
  {| r_ID := id; r_Principal := principal; r_SourceID := sourceID; r_SourceGeneration := sourceGeneration;
     r_ReservedBytes := QuarantineReservationBytes; r_ReservedFiles := QuarantineReservationFiles;
     r_ExpiresAtUnix := unix_u64 (time_Add (oe_now e) (30 * Minute)); r_CommitDigest := ""; r_CommitBytes := 0;
     r_CommitFiles := 0; r_TemporaryName := ""; r_AuthorityPhase := "reserve-prepared";
     r_PriorRevision := ls_LedgerRevision st; r_NextRevision := add64w (ls_LedgerRevision st) 1 |}.

Definition Reserve (e : op_env) (principal sourceID : string) (sourceGeneration : N) (l : QuarantineLedger) (w : world)
    : QuarantineLedger * world * result QuarantineReservation :=
  if ql_closed l || ql_poisoned l then (l, w, Err "quarantine ledger is closed and fenced")
  else
    let '(l, pinned) := requirePinnedRootLocked (oe_matches e) l in
    match pinned with
    | Err m => (l, w, Err m)
    | Ok _ =>
        if bool_decide (principal = "") || bool_decide (sourceID = "") || (256 <? slen principal) || (256 <? slen sourceID)
           || negb (bool_decide (TrimSpace principal = principal)) || negb (bool_decide (TrimSpace sourceID = sourceID))
           || (sourceGeneration =? 0)
        then (l, w, Err "quarantine principal and source provenance are invalid")
        else
          let day := Format_day (oe_now e) in
          let st := ql_state l in
          if negb (bool_decide (ls_LastRequestDay st = "")) && str_lt day (ls_LastRequestDay st)
          then (l, w, Err "quarantine rate-limit clock moved backwards")
          else
            let st := with_daily (<[day := requests_on st day]> (ls_DailyRequests st)) (ls_LastRequestDay st) st in
            let count := default 0 (requests_on st day !! principal) in
            if QuarantineDailyRequests <=? count
            then (set_state st l, w, Err "quarantine acquisition rate limit reached")
            else
              let '(global, perPrincipal, perSource, objects) := usageLocked st principal sourceID in
              if (QuarantineMaxObjects <=? objects) || (QuarantineGlobalBytes <? add64w global QuarantineReservationBytes)
                 || (QuarantinePrincipalBytes <? add64w perPrincipal QuarantineReservationBytes)
                 || (QuarantineSourceBytes <? add64w perSource QuarantineReservationBytes)
              then (set_state st l, w, Err "quarantine aggregate quota reached before retrieval")
              else
                match oe_id e with
                | Err m => (set_state st l, w, Err m)
                | Ok id =>
                    let reservation := new_reservation e id principal sourceID sourceGeneration st in
                    let st' := count_requests (with_reservations (<[id := reservation]> (ls_Reservations st)) st)
                                 day principal (u32 (count + 1)) in
                    let st' := with_daily (ls_DailyRequests st') day st' in
                    let l := set_state st' l in
                    let '(w, written) := persistLocked (oe_persist e) l w in
                    match written with
                    | Err m =>
                        (set_state (count_requests (with_reservations (delete id (ls_Reservations st')) st')
                                      day principal count) l, w, Err m)
                    | Ok _ =>
                        let '(a, answer) := AdmitCapabilityAcquisition (oe_delivery e)
                                              (acquisitionRequest l reservation "reserve") (w_authority w) in
                        let w := with_authority a w in
                        match answer with
                        | Err m => (poison l, w, Err "owner control fenced capability acquisition")
                        | Ok _ =>
                            let reservation := set_phase "reserved" reservation in
                            let l := set_state (with_books (<[id := reservation]> (ls_Reservations st')) (ls_Objects st')
                                                  (r_NextRevision reservation) st') l in
                            let '(w, written) := persistLocked (oe_persist_again e) l w in
                            match written with
                            | Err m => (poison l, w, Err m)
                            | Ok _ => (l, w, Ok reservation)
                            end
                        end
                    end
                end
    end.

Definition Abort (e : op_env) (reservationID : string) (l : QuarantineLedger) (w : world)
    : QuarantineLedger * world * result unit :=
  if ql_closed l || ql_poisoned l then (l, w, Err "quarantine ledger is closed and fenced")
  else
    let '(l, pinned) := requirePinnedRootLocked (oe_matches e) l in
    match pinned with
    | Err m => (l, w, Err m)
    | Ok _ =>
        match ls_Reservations (ql_state l) !! reservationID with
        | None => (l, w, Ok tt)
        | Some reservation =>
            if negb (bool_decide (r_CommitDigest reservation = "")) || negb (bool_decide (r_AuthorityPhase reservation = "reserved"))
            then (l, w, Err "quarantine commit is prepared or ambiguous and cannot be aborted")
            else
              let l := set_state (with_reservations (delete reservationID (ls_Reservations (ql_state l))) (ql_state l)) l in
              let '(w, written) := persistLocked (oe_persist e) l w in
              (l, w, written)
        end
    end.
(** ** Committing *)

Definition directTemporaryName (cwd : string) (l : QuarantineLedger) (path : string) : result string :=
  let clean := Abs cwd path in
  if negb (bool_decide (Dir_of clean = ql_root l)) || negb (HasPrefix (Base_of clean) ".")
  then Err "quarantine candidate must be a private direct-child staging directory"
  else Ok (Base_of clean).

Definition receipt_of (l : QuarantineLedger) (transition : CapabilityAcquisitionRequest) : QuarantineCommitReceipt :=
  {| rc_SchemaVersion := 1; rc_LedgerRoot := ql_root l; rc_RootDevice := ql_device l; rc_RootInode := ql_inode l;
     rc_Transition := transition |}.
Definition receiptForRecord (l : QuarantineLedger) (record : QuarantineObjectRecord) : QuarantineCommitReceipt :=
  receipt_of l (q_CommitTransition record).

(** A tree read back: its hash, or a failing call. *)
Definition read_tree (fails : bool) (w : world) (name : string) : result string :=
  if fails then Err "read" else HashTree (w_entries w !! name).
Definition read_usage (fails : bool) (w : world) (name : string) : result (N * N) :=
  if fails then Err "read" else boundedTreeUsage (w_entries w !! name).

(** [stageQuarantineSnapshot] *)
Definition stageQuarantineSnapshot (s : staging) (snapshot : quarantineSnapshot) (w : world) : world * result string :=
  match s with
  | StageFailed partial =>
      (match partial with Some (name, tree) => with_entries (<[name := tree]> (w_entries w)) w | None => w end,
       Err "stage quarantine snapshot")
  | Staged random =>
      let name := ".commit-snapshot-" +:+ hex_EncodeToString random in
      match w_entries w !! name with
      | Some _ => (w, Err "file exists")
      | None =>
          match stage_tree snapshot with
          | Err m => (w, Err m)
          | Ok tree => (with_entries (<[name := tree]> (w_entries w)) w, Ok name)
          end
      end
  end.

(** [publishStagedQuarantineSnapshot]: a rename that replaces nothing. *)
Definition publishStagedQuarantineSnapshot (p : publication) (temporaryName digestName : string) (w : world)
    : world * result unit :=
  if negb (HasPrefix temporaryName ".commit-snapshot-") || negb (slen digestName =? 64)
  then (w, Err "invalid prepared quarantine publication identity")
  else
    match p, w_entries w !! temporaryName with
    | PublishFailed, _ => (w, Err "publish quarantine snapshot")
    | _, Some (Dir children) =>
        match w_entries w !! digestName with
        | Some _ => (w, Err "file exists")
        | None =>
            (with_entries (<[digestName := Dir children]> (delete temporaryName (w_entries w))) w,
             match p with Published => Ok tt | _ => Err "quarantine publication" end)
        end
    | _, _ => (w, Err "prepared quarantine snapshot is not a directory")
    end.

Definition retained (e : op_env) (l : QuarantineLedger) (r : QuarantineReservation) : QuarantineObjectRecord :=
  {| q_Digest := r_CommitDigest r; q_Principal := r_Principal r; q_SourceID := r_SourceID r;
     q_SourceGeneration := r_SourceGeneration r; q_Bytes := r_CommitBytes r; q_Files := r_CommitFiles r;
     q_RetainedAtUnix := unix_u64 (oe_now e); q_CommitTransition := acquisitionRequest l r "commit" |}.

(** The published tree, checked against what was acknowledged. *)
Definition differs (fails : bool) (w : world) (key : string) (bytesUsed filesUsed : N) : bool :=
  match read_tree fails w key, read_usage fails w key with
  | Ok digest, Ok (b, f) =>
      negb (bool_decide (hex_EncodeToString digest = key)) || negb (b =? bytesUsed) || negb (f =? filesUsed)
  | _, _ => true
  end.

Definition prepareAndCommitLocked (e : op_env) (reservation : QuarantineReservation) (temporaryName key : string)
    (bytesUsed filesUsed : N) (deduplicated : bool) (l : QuarantineLedger) (w : world)
    : QuarantineLedger * world * result QuarantineCommitReceipt :=
  let reservation := prepared reservation key bytesUsed filesUsed temporaryName (ls_LedgerRevision (ql_state l)) in
  let l := set_state (with_reservations (<[r_ID reservation := reservation]> (ls_Reservations (ql_state l))) (ql_state l)) l in
  let '(w, written) := persistLocked (oe_persist e) l w in
  match written with
  | Err m => (l, w, Err m)
  | Ok _ =>
      let '(l, pinned) := requirePinnedRootLocked (oe_matches_again e) l in
      match pinned with
      | Err m => (l, w, Err m)
      | Ok _ =>
          let '(a, answer) := AdmitCapabilityAcquisition (oe_delivery e) (acquisitionRequest l reservation "commit")
                                (w_authority w) in
          let w := with_authority a w in
          match answer with
          | Err m => (poison l, w, Err "owner control fenced capability quarantine commit")
          | Ok _ =>
              let '(w, published) :=
                if deduplicated then removeAll (oe_remove e temporaryName) temporaryName w
                else
                  let '(w, published) := publishStagedQuarantineSnapshot (oe_publication e) temporaryName key w in
                  match published with
                  | Err m => (w, Err m)
                  | Ok _ => (w, if differs (oe_hash_fails e) w key bytesUsed filesUsed
                                then Err "published quarantine snapshot differs from the acknowledged closure" else Ok tt)
                  end in
              match published with
              | Err m => (poison l, w, Err m)
              | Ok _ =>
                  let st := ql_state l in
                  let record := retained e l reservation in
                  let l := set_state (with_books (delete (r_ID reservation) (ls_Reservations st))
                                        (<[key := record]> (ls_Objects st)) (r_NextRevision reservation) st) l in
                  let '(w, written) := persistLocked (oe_persist_again e) l w in
                  match written with
                  | Err m => (poison l, w, Err m)
                  | Ok _ => (l, w, Ok (receipt_of l (q_CommitTransition record)))
                  end
              end
          end
      end
  end.

(** [Commit]: the returned path is the root's child named by the digest. *)
Definition Commit (e : op_env) (reservationID temporaryPath digest : string) (l : QuarantineLedger) (w : world)
    : QuarantineLedger * world * result (string * QuarantineCommitReceipt) :=
  if ql_closed l || ql_poisoned l then (l, w, Err "quarantine ledger is closed and fenced")
  else
    let '(l, pinned) := requirePinnedRootLocked (oe_matches e) l in
    match pinned with
    | Err m => (l, w, Err m)
    | Ok _ =>
        match ls_Reservations (ql_state l) !! reservationID with
        | None => (l, w, Err "quarantine reservation is absent or expired")
        | Some reservation =>
            if (r_ExpiresAtUnix reservation <=? unix_u64 (oe_now e)) || negb (slen digest =? 32)
            then (l, w, Err "quarantine reservation is absent or expired")
            else
              match directTemporaryName (oe_cwd e) l temporaryPath with
              | Err m => (l, w, Err m)
              | Ok callerTemporaryName =>
                  match (if oe_read_fails e then Err "read"
                         else captureQuarantineSnapshot (w_entries w !! callerTemporaryName)) with
                  | Err m => (l, w, Err m)
                  | Ok snapshot =>
                      match hashQuarantineSnapshot snapshot with
                      | Err m => (l, w, Err "quarantine tree digest mismatch")
                      | Ok want =>
                          let key := hex_EncodeToString digest in
                          if negb (bool_decide (want = digest)) then (l, w, Err "quarantine tree digest mismatch")
                          else if (r_ReservedBytes reservation <? qs_Bytes snapshot)
                                  || (r_ReservedFiles reservation <? qs_Files snapshot)
                          then (l, w, Err "quarantine candidate exceeds reserved resources")
                          else if bool_decide (is_Some (ls_Tombstones (ql_state l) !! key))
                          then (l, w, Err "quarantine candidate is tombstoned")
                          else
                            match ls_Objects (ql_state l) !! key with
                            | Some prior =>
                                match read_tree (oe_hash_fails e) w key with
                                | Err m => (l, w, Err "existing quarantine object changed")
                                | Ok retainedDigest =>
                                    if negb (bool_decide (retainedDigest = digest))
                                    then (l, w, Err "existing quarantine object changed")
                                    else if negb (q_Bytes prior =? qs_Bytes snapshot) || negb (q_Files prior =? qs_Files snapshot)
                                    then (l, w, Err "quarantine digest accounting equivocation")
                                    else
                                      let st := ql_state l in
                                      let l := set_state (with_reservations (delete (r_ID reservation) (ls_Reservations st)) st) l in
                                      let '(w, written) := persistLocked (oe_persist e) l w in
                                      match written with
                                      | Err m => (poison l, w, Err m)
                                      | Ok _ =>
                                          let '(w, removed) := removeAll (oe_remove e callerTemporaryName) callerTemporaryName w in
                                          match removed with
                                          | Err m => (poison l, w, Err m)
                                          | Ok _ => (l, w, Ok (ql_root l +:+ "/" +:+ key, receiptForRecord l prior))
                                          end
                                      end
                                end
                            | None =>
                                if oe_stat_fails e then (l, w, Err "stat")
                                else if bool_decide (is_Some (w_entries w !! key))
                                then (l, w, Err "untracked quarantine target exists")
                                else
                                  let '(w, staged) := stageQuarantineSnapshot (oe_staging e) snapshot w in
                                  match staged with
                                  | Err m => (l, w, Err m)
                                  | Ok temporaryName =>
                                      let '(l, w, committed) :=
                                        prepareAndCommitLocked e reservation temporaryName key (qs_Bytes snapshot)
                                          (qs_Files snapshot) false l w in
                                      match committed with
                                      | Err m => (l, w, Err m)
                                      | Ok receipt =>
                                          (l, (removeAll (oe_remove e callerTemporaryName) callerTemporaryName w).1,
                                           Ok (ql_root l +:+ "/" +:+ key, receipt))
                                      end
                                  end
                            end
                      end
                  end
              end
        end
    end.

(** ** Receipts and deletion *)

Definition validateObjectRecord (l : QuarantineLedger) (record : QuarantineObjectRecord) : result unit :=
  let t := q_CommitTransition record in
  let bad :=
    match hex_DecodeString (q_Digest record) with
    | None => true
    | Some digest =>
        negb (slen digest =? 32) || negb (ar_SchemaVersion t =? 1) || negb (bool_decide (ar_Phase t = "commit"))
        || negb (bool_decide (ar_OwnerID t = ql_ownerID l)) || negb (bool_decide (ar_AgentID t = ql_agentID l))
        || negb (bool_decide (ar_LedgerID t = ls_LedgerID (ql_state l)))
        || bool_decide (ar_AcquisitionID t = "") || negb (bool_decide (ar_Principal t = q_Principal record))
        || negb (bool_decide (ar_SourceID t = q_SourceID record)) || negb (ar_SourceGeneration t =? q_SourceGeneration record)
        || negb (ar_ContentBytes t =? q_Bytes record) || negb (ar_ContentFiles t =? q_Files record)
        || (ar_ReservedBytes t =? 0) || (ar_ReservedFiles t =? 0) || (ar_ExpiresAtUnix t =? 0) || (ar_ContentFiles t =? 0)
        || (ar_ReservedBytes t <? ar_ContentBytes t) || (ar_ReservedFiles t <? ar_ContentFiles t)
        || negb (bool_decide (ar_ContentDigest t = digest)) || negb (ar_NextRevision t =? add64w (ar_PriorRevision t) 1)
    end in
  if bad then Err "quarantine object has no valid durable commit receipt" else Ok tt.

Fixpoint receipts_of (l : QuarantineLedger) (records : list QuarantineObjectRecord) : result (list QuarantineCommitReceipt) :=
  match records with
  | [] => Ok []
  | record :: records =>
      let? _ := validateObjectRecord l record in
      let? receipts := receipts_of l records in
      Ok (receiptForRecord l record :: receipts)
  end.

Definition CommitReceipts (e : op_env) (l : QuarantineLedger) (w : world)
    : QuarantineLedger * world * result (list QuarantineCommitReceipt) :=
  if ql_closed l || ql_poisoned l then (l, w, Err "quarantine ledger is closed and fenced")
  else
    let '(l, pinned) := requirePinnedRootLocked (oe_matches e) l in
    match pinned with
    | Err m => (l, w, Err m)
    | Ok _ =>
        match receipts_of l (sort_by fst (map_to_list (ls_Objects (ql_state l)))).*2 with
        | Err m => (poison l, w, Err m)
        | Ok receipts => (l, w, Ok receipts)
        end
    end.

(** The checks of [GarbageCollect], with the digest before. *)
Fixpoint deletable (objects : gmap string QuarantineObjectRecord) (previous : option string) (digests : list string)
    : result unit :=
  match digests with
  | [] => Ok tt
  | digest :: digests =>
      if negb (slen digest =? 64) || bool_decide (previous = Some digest)
      then Err "quarantine garbage collection digest is invalid"
      else if bool_decide (is_Some (objects !! digest)) then deletable objects (Some digest) digests
      else Err "quarantine garbage collection target is unknown"
  end.

Fixpoint removeTrees (remove : string -> removal) (digests : list string) (w : world) : world * result unit :=
  match digests with
  | [] => (w, Ok tt)
  | digest :: digests =>
      let '(w, removed) := removeAll (remove digest) digest w in
      match removed with
      | Err m => (w, Err m)
      | Ok _ => removeTrees remove digests w
      end
  end.

Definition GarbageCollect (e : op_env) (digests : list string) (expectedGeneration nextGeneration : N)
    (l : QuarantineLedger) (w : world) : QuarantineLedger * world * result unit :=
  if ql_closed l || ql_poisoned l then (l, w, Err "quarantine ledger is closed and fenced")
  else
    let '(l, pinned) := requirePinnedRootLocked (oe_matches e) l in
    match pinned with
    | Err m => (l, w, Err m)
    | Ok _ =>
        let st := ql_state l in
        if negb (expectedGeneration =? ls_DeletionGeneration st) || negb (nextGeneration =? add64w expectedGeneration 1)
           || negb (StringsAreSorted digests)
        then (l, w, Err "quarantine garbage collection authorization is stale or non-canonical")
        else
          match deletable (ls_Objects st) None digests with
          | Err m => (l, w, Err m)
          | Ok _ =>
              let objects := foldr delete (ls_Objects st) digests in
              let tombstones := foldr (fun digest => insert digest nextGeneration) (ls_Tombstones st) digests in
              let l := set_state (with_deleted objects tombstones nextGeneration st) l in
              let '(w, written) := persistLocked (oe_persist e) l w in
              match written with
              | Err m => (l, w, Err m)
              | Ok _ =>
                  let '(w, removed) := removeTrees (oe_remove e) digests w in
                  match removed with
                  | Err m => (poison l, w, Err m)
                  | Ok _ => (l, w, Ok tt)
                  end
              end
          end
    end.
(** ** Opening: the reconciliation *)

Record open_env := {
  oo_now : Z;
  oo_handle : result (N * N);       (* the directory, made and opened: its device and inode *)
  oo_lock : result unit;            (* the writer lock *)
  oo_id : result string;            (* sixteen random bytes *)
  oo_order : list string;           (* the order in which the reservations are visited *)
  oo_delivery : string -> delivery; (* by reservation *)
  oo_stat_fails : string -> bool;   (* by digest *)
  oo_publication : string -> publication;
  oo_hash_fails : string -> bool;
  oo_read_dir_fails : bool;
  oo_remove : string -> removal;    (* by name *)
  oo_persist : io quarantineLedgerState
}.

Definition stepping (X : Type) : Type := QuarantineLedger * world * result X.

Definition recoverCommitLocked (e : open_env) (id : string) (r : QuarantineReservation) (l : QuarantineLedger) (w : world)
    : stepping unit :=
  if negb (slen (r_CommitDigest r) =? 64) || bool_decide (r_TemporaryName r = "") || negb (HasPrefix (r_TemporaryName r) ".")
  then (l, w, Err "pending quarantine commit is corrupt")
  else
    let '(a, answer) := AdmitCapabilityAcquisition (oo_delivery e id) (acquisitionRequest l r "commit") (w_authority w) in
    let w := with_authority a w in
    match answer with
    | Err m => (l, w, Err "pending quarantine commit cannot be authoritatively resolved")
    | Ok _ =>
        let key := r_CommitDigest r in
        if oo_stat_fails e key then (l, w, Err "stat")
        else
          let '(w, published) :=
            match w_entries w !! key with
            | Some _ => (w, Ok tt)
            | None => publishStagedQuarantineSnapshot (oo_publication e key) (r_TemporaryName r) key w
            end in
          match published with
          | Err m => (l, w, Err m)
          | Ok _ =>
              match read_tree (oo_hash_fails e key) w key with
              | Err m => (l, w, Err "recovered quarantine object does not match its committed digest")
              | Ok digest =>
                  if negb (bool_decide (hex_EncodeToString digest = key))
                  then (l, w, Err "recovered quarantine object does not match its committed digest")
                  else
                    let st := ql_state l in
                    let record :=
                      {| q_Digest := key; q_Principal := r_Principal r; q_SourceID := r_SourceID r;
                         q_SourceGeneration := r_SourceGeneration r; q_Bytes := r_CommitBytes r; q_Files := r_CommitFiles r;
                         q_RetainedAtUnix := unix_u64 (oo_now e); q_CommitTransition := acquisitionRequest l r "commit" |} in
                    (set_state (with_books (delete id (ls_Reservations st)) (<[key := record]> (ls_Objects st))
                                  (r_NextRevision r) st) l, w, Ok tt)
              end
          end
    end.

(** An expired reservation is dropped. *)
Definition expire (e : open_env) (id : string) (r : QuarantineReservation) (l : QuarantineLedger) : QuarantineLedger :=
  if r_ExpiresAtUnix r <=? unix_u64 (oo_now e)
  then set_state (with_reservations (delete id (ls_Reservations (ql_state l))) (ql_state l)) l else l.

Definition reconcile_reservation (e : open_env) (id : string) (r : QuarantineReservation) (l : QuarantineLedger) (w : world)
    : stepping unit :=
  if bool_decide (r_AuthorityPhase r = "reserve-prepared") then
    let '(a, answer) := AdmitCapabilityAcquisition (oo_delivery e id) (acquisitionRequest l r "reserve") (w_authority w) in
    let w := with_authority a w in
    match answer with
    | Err m => (l, w, Err "pending quarantine reservation cannot be authoritatively resolved")
    | Ok _ =>
        let st := ql_state l in
        let r := set_phase "reserved" r in
        let l := set_state (with_books (<[id := r]> (ls_Reservations st)) (ls_Objects st) (r_NextRevision r) st) l in
        (expire e id r l, w, Ok tt)
    end
  else if bool_decide (r_AuthorityPhase r = "commit-prepared") && negb (bool_decide (r_CommitDigest r = ""))
  then recoverCommitLocked e id r l w
  else if negb (bool_decide (r_AuthorityPhase r = "reserved"))
  then (l, w, Err "quarantine reservation authority phase is corrupt")
  else (expire e id r l, w, Ok tt).

Fixpoint reconcile_reservations (e : open_env) (ids : list string) (l : QuarantineLedger) (w : world) : stepping unit :=
  match ids with
  | [] => (l, w, Ok tt)
  | id :: ids =>
      match ls_Reservations (ql_state l) !! id with
      | None => reconcile_reservations e ids l w
      | Some r =>
          let '(l, w, done) := reconcile_reservation e id r l w in
          match done with
          | Err m => (l, w, Err m)
          | Ok _ => reconcile_reservations e ids l w
          end
      end
  end.

(** The directories of the ledger, by name. *)
Fixpoint reconcile_entries (e : open_env) (st : quarantineLedgerState) (names : list string) (w : world)
    : world * result unit :=
  match names with
  | [] => (w, Ok tt)
  | name :: names =>
      match w_entries w !! name with
      | Some (Dir _) =>
          if HasPrefix name "." then
            let '(w, removed) := removeAll (oo_remove e name) name w in
            match removed with Err m => (w, Err m) | Ok _ => reconcile_entries e st names w end
          else if negb (slen name =? 64) then (w, Err "unexpected public directory exists in quarantine")
          else if bool_decide (is_Some (ls_Objects st !! name)) then reconcile_entries e st names w
          else if bool_decide (is_Some (ls_Tombstones st !! name)) then
            let '(w, removed) := removeAll (oo_remove e name) name w in
            match removed with Err m => (w, Err m) | Ok _ => reconcile_entries e st names w end
          else (w, Err "untracked content-addressed quarantine object requires authoritative retention recovery")
      | _ => reconcile_entries e st names w
      end
  end.

(** A tracked object is the tree its record describes. *)
Definition tracked (fails : bool) (l : QuarantineLedger) (w : world) (digest : string) (record : QuarantineObjectRecord)
    : result unit :=
  let? _ := validateObjectRecord l record in
  if differs fails w digest (q_Bytes record) (q_Files record)
  then Err "tracked quarantine object is missing or changed" else Ok tt.

Definition reconcileLocked (e : open_env) (l : QuarantineLedger) (w : world) : stepping unit :=
  let '(l, w, done) := reconcile_reservations e (oo_order e) l w in
  match done with
  | Err m => (l, w, Err m)
  | Ok _ =>
      if oo_read_dir_fails e then (l, w, Err "read dir")
      else
        let '(w, done) := reconcile_entries e (ql_state l) (sort_by id (map_to_list (w_entries w)).*1) w in
        match done with
        | Err m => (l, w, Err m)
        | Ok _ =>
            match range_check (fun digest record => tracked (oo_hash_fails e digest) l w digest record)
                    (ls_Objects (ql_state l)) with
            | Err m => (l, w, Err m)
            | Ok _ =>
                let '(w, written) := persistLocked (oo_persist e) l w in (l, w, written)
            end
        end
  end.

Definition no_state (ledgerID : string) (device inode : N) : quarantineLedgerState :=
  {| ls_SchemaVersion := 3; ls_LedgerID := ledgerID; ls_RootDevice := device; ls_RootInode := inode;
     ls_LedgerRevision := 0; ls_DeletionGeneration := 0; ls_Reservations := ∅; ls_Objects := ∅; ls_Tombstones := ∅;
     ls_DailyRequests := ∅; ls_LastRequestDay := "" |}.

Definition opened (root ownerID agentID : string) (device inode : N) (st : quarantineLedgerState) : QuarantineLedger :=
  {| ql_root := root; ql_device := device; ql_inode := inode; ql_state := st; ql_ownerID := ownerID;
     ql_agentID := agentID; ql_closed := false; ql_poisoned := false |}.

(** [OpenQuarantineLedger] with a fence, on the cleaned absolute root. A file
    whose maps are null is undecodable here. *)
Definition OpenQuarantineLedger (e : open_env) (root ownerID agentID : string) (w : world)
    : world * result QuarantineLedger :=
  if bool_decide (root = "") || (slen ownerID =? 0) || (slen agentID =? 0)
  then (w, Err "quarantine root and external acquisition fence are required")
  else
    match oo_handle e, oo_lock e, oo_id e with
    | Err m, _, _ => (w, Err m)
    | _, Err m, _ => (w, Err m)
    | _, _, Err m => (w, Err m)
    | Ok (device, inode), Ok _, Ok ledgerID =>
        let loaded :=
          match w_file w with
          | FileAbsent => Ok (no_state ledgerID device inode)
          | FileUnreadable => Err "read"
          | FileUndecodable => Err "quarantine ledger is corrupt"
          | FileDoc st =>
              if negb (ls_SchemaVersion st =? 3) || negb (slen (ls_LedgerID st) =? 16)
                 || negb (ls_RootDevice st =? device) || negb (ls_RootInode st =? inode)
              then Err "quarantine ledger is corrupt" else Ok st
          end in
        match loaded with
        | Err m => (w, Err m)
        | Ok st =>
            let '(l, w, done) := reconcileLocked e (opened root ownerID agentID device inode st) w in
            (w, match done with Err m => Err m | Ok _ => Ok l end)
        end
    end.

(** [ValidateQuarantineCommitReceipt], with the delivery of its own call: the
    inventory's check of a receipt. *)
Definition ValidateQuarantineCommitReceipt (e : open_env) (d : delivery) (hash_fails usage_fails : bool)
    (receipt : QuarantineCommitReceipt) (w : world) : world * result string :=
  let t := rc_Transition receipt in
  if negb (rc_SchemaVersion receipt =? 1) || (rc_RootDevice receipt =? 0) || (rc_RootInode receipt =? 0)
     || negb (HasPrefix (rc_LedgerRoot receipt) "/") || negb (bool_decide (Clean (rc_LedgerRoot receipt) = rc_LedgerRoot receipt))
     || negb (ar_SchemaVersion t =? 1) || negb (bool_decide (ar_Phase t = "commit")) || (slen (ar_OwnerID t) =? 0)
     || (slen (ar_AgentID t) =? 0) || negb (slen (ar_LedgerID t) =? 16) || negb (slen (ar_ContentDigest t) =? 32)
     || (QuarantineReservationBytes <? ar_ContentBytes t) || (QuarantineReservationFiles <? ar_ContentFiles t)
     || negb (ar_NextRevision t =? add64w (ar_PriorRevision t) 1)
  then (w, Err "quarantine commit receipt is incomplete")
  else
    let '(w, ledger) := OpenQuarantineLedger e (rc_LedgerRoot receipt) (ar_OwnerID t) (ar_AgentID t) w in
    match ledger with
    | Err m => (w, Err m)
    | Ok l =>
        if negb (ql_device l =? rc_RootDevice receipt) || negb (ql_inode l =? rc_RootInode receipt)
        then (w, Err "quarantine receipt ledger-root identity changed")
        else if negb (bool_decide (ls_LedgerID (ql_state l) = ar_LedgerID t))
                || (ls_LedgerRevision (ql_state l) <? ar_NextRevision t)
        then (w, Err "quarantine receipt belongs to a different or rolled-back ledger")
        else
          let key := hex_EncodeToString (ar_ContentDigest t) in
          match ls_Objects (ql_state l) !! key with
          | None => (w, Err "quarantine receipt is not retained by the live ledger")
          | Some record =>
              if negb (bool_decide (q_CommitTransition record = t)) || negb (bool_decide (q_Principal record = ar_Principal t))
                 || negb (bool_decide (q_SourceID record = ar_SourceID t))
                 || negb (q_SourceGeneration record =? ar_SourceGeneration t)
                 || negb (q_Bytes record =? ar_ContentBytes t) || negb (q_Files record =? ar_ContentFiles t)
              then (w, Err "quarantine receipt is not retained by the live ledger")
              else
                let '(a, answer) := AdmitCapabilityAcquisition d t (w_authority w) in
                let w := with_authority a w in
                match answer with
                | Err m => (w, Err "quarantine authority did not resolve the exact commit receipt")
                | Ok _ =>
                    match read_tree hash_fails w key with
                    | Err m => (w, Err "quarantine receipt content changed")
                    | Ok digest =>
                        if negb (bool_decide (digest = ar_ContentDigest t)) then (w, Err "quarantine receipt content changed")
                        else
                          match read_usage usage_fails w key with
                          | Err m => (w, Err "quarantine receipt accounting changed")
                          | Ok (bytesUsed, filesUsed) =>
                              if negb (bytesUsed =? ar_ContentBytes t) || negb (filesUsed =? ar_ContentFiles t)
                              then (w, Err "quarantine receipt accounting changed")
                              else (w, Ok (ql_root l +:+ "/" +:+ key))
                          end
                    end
                end
          end
    end.

End ledger.

End Quarantine.
