(* ===== verification/QuarSafety.v ===== *)
(** * Capability control: what the quarantine ledger guarantees

    The runs of the ledger (operations with any failing calls, closing, crashing,
    reopening, and what others do to the staging area and the authority), and the
    properties of all of them: the quotas hold, every granted request is counted,
    and nothing is retained that the authority has not admitted. *)

From stdpp Require Import relations.
From S2P Require Import Prelude GoLib GoText GoUnicode FileStore Protocol QuarTree Quarantine.
#[local] Open Scope string_scope.
#[local] Open Scope N_scope.

Module QuarSafety.
Import QuarTree Quarantine.

(** ** The books of a ledger *)

(** The bytes charged to the objects and reservations a filter selects. *)
Definition charged (use_o : QuarantineObjectRecord -> bool) (use_r : QuarantineReservation -> bool)
    (objects : gmap string QuarantineObjectRecord) (reservations : gmap string QuarantineReservation) : N :=
  map_sum (fun o => if use_o o then q_Bytes o else 0) objects
  + map_sum (fun r => if use_r r then r_ReservedBytes r else 0) reservations.

(** A way of charging: the whole, one principal, or one source. *)
Inductive account := Whole | OfPrincipal (principal : string) | OfSource (source : string).
Definition of_object (a : account) (o : QuarantineObjectRecord) : bool :=
  match a with
  | Whole => true
  | OfPrincipal principal => bool_decide (q_Principal o = principal)
  | OfSource source => bool_decide (q_SourceID o = source)
  end.
Definition of_reservation (a : account) (r : QuarantineReservation) : bool :=
  match a with
  | Whole => true
  | OfPrincipal principal => bool_decide (r_Principal r = principal)
  | OfSource source => bool_decide (r_SourceID r = source)
  end.
Definition ceiling (a : account) : N :=
  match a with
  | Whole => QuarantineGlobalBytes
  | OfPrincipal _ => QuarantinePrincipalBytes
  | OfSource _ => QuarantineSourceBytes
  end.
Definition charge (a : account) := charged (of_object a) (of_reservation a).

(** What a reservation promises: the full quantity, and at most that much to
    be committed; a prepared commit names its digest and its staged tree. *)
Definition reservation_ok (id : string) (r : QuarantineReservation) : Prop :=
  r_ID r = id /\ r_ReservedBytes r = QuarantineReservationBytes /\ r_ReservedFiles r = QuarantineReservationFiles /\
  r_CommitBytes r <= r_ReservedBytes r /\
  ((r_CommitDigest r = "" /\ (r_AuthorityPhase r = "reserve-prepared" \/ r_AuthorityPhase r = "reserved")) \/
   (r_AuthorityPhase r = "commit-prepared" /\ HasPrefix (r_TemporaryName r) ".commit-snapshot-" = true /\
    exists digest, slen digest = 32 /\ r_CommitDigest r = hex_EncodeToString digest)).

Definition quotas (objects : gmap string QuarantineObjectRecord) (reservations : gmap string QuarantineReservation) : Prop :=
  (forall a, charge a objects reservations <= ceiling a) /\
  N.of_nat (size objects + size reservations) <= QuarantineMaxObjects + 7.

(** [granted] are requests that were granted, by day and principal: the ledger
    counts at least those, and never more than the limit. *)
Record books (granted : string -> string -> N) (st : quarantineLedgerState) : Prop := {
  bk_reservations : map_Forall reservation_ok (ls_Reservations st);
  bk_quotas : quotas (ls_Objects st) (ls_Reservations st);
  bk_daily : forall day principal,
    granted day principal <= default 0 (requests_on st day !! principal) <= QuarantineDailyRequests
}.

Lemma ceiling_u64 a n : n <= ceiling a -> n + QuarantineReservationBytes <= MaxUint64.
Proof.
  unfold ceiling, QuarantineGlobalBytes, QuarantinePrincipalBytes, QuarantineSourceBytes, QuarantineReservationBytes, MaxUint64.
  destruct a; lia.
Qed.

(** Dropping a reservation. *)
Lemma quotas_delete objects reservations id : quotas objects reservations -> quotas objects (delete id reservations).
Proof.
  intros [H1 H2]. split.
  - intros a. specialize (H1 a). unfold charge, charged in *.
    pose proof (map_sum_delete_le (fun r => if of_reservation a r then r_ReservedBytes r else 0) reservations id). lia.
  - pose proof (map_size_delete_le reservations id). lia.
Qed.

(** Replacing a reservation by one with the same provenance and quantity. *)
Lemma quotas_update objects reservations id r r' :
  quotas objects reservations -> reservations !! id = Some r ->
  r_Principal r' = r_Principal r -> r_SourceID r' = r_SourceID r -> r_ReservedBytes r' = r_ReservedBytes r ->
  quotas objects (<[id := r']> reservations).
Proof.
  intros [H1 H2] Hr E1 E2 E3. split.
  - intros a. specialize (H1 a). unfold charge, charged in *.
    rewrite (map_sum_insert_same _ reservations id r' r Hr); [done|]. rewrite E3. destruct a; simpl; by rewrite ?E1, ?E2.
  - rewrite map_size_insert_Some by eauto. done.
Qed.

(** Turning a reservation into an object of its provenance that is no larger. *)
Lemma quotas_commit objects reservations id r key o :
  quotas objects reservations -> reservations !! id = Some r ->
  q_Principal o = r_Principal r -> q_SourceID o = r_SourceID r -> q_Bytes o <= r_ReservedBytes r ->
  quotas (<[key := o]> objects) (delete id reservations).
Proof.
  intros [H1 H2] Hr E1 E2 Hb. split.
  - intros a. specialize (H1 a). unfold charge, charged in *.
    pose proof (map_sum_insert_le (fun o => if of_object a o then q_Bytes o else 0) objects key o) as Hi.
    rewrite (map_sum_delete (fun r => if of_reservation a r then r_ReservedBytes r else 0) reservations id r Hr) in H1.
    cbn beta in Hi, H1.
    assert ((if of_object a o then q_Bytes o else 0) <= (if of_reservation a r then r_ReservedBytes r else 0)).
    { destruct a; simpl; [done| |]; rewrite ?E1, ?E2; by case_bool_decide. }
    lia.
  - rewrite map_size_delete_Some by eauto.
    pose proof (map_size_insert_le objects key o).
    assert (size reservations <> 0)%nat by (intros E; apply map_size_empty_inv in E; subst; by rewrite lookup_empty in Hr).
    lia.
Qed.

(** Objects only go away. *)
Lemma quotas_objects objects objects' reservations :
  objects' ⊆ objects -> quotas objects reservations -> quotas objects' reservations.
Proof.
  intros Hsub [H1 H2]. split.
  - intros a. specialize (H1 a). unfold charge, charged in *.
    assert (map_sum (fun o => if of_object a o then q_Bytes o else 0) objects' <=
            map_sum (fun o => if of_object a o then q_Bytes o else 0) objects) by by apply map_sum_subseteq.
    lia.
  - apply map_subseteq_size in Hsub. lia.
Qed.
(** ** Runs *)

Section runs.
Context {SHA : Sha256} {CR : ClosureRoot} {AA : AcquisitionAuthority}.
Context (root owner agent : string).

Record sys := { sy_ledger : option QuarantineLedger; sy_world : world }.

(** A name in the staging area of others. *)
Definition foreign (name : string) : Prop :=
  HasPrefix name "." = true /\ HasPrefix name ".commit-snapshot-" = false.

(** The identifier of a reservation is new (it is sixteen random bytes), and a
    failed staging leaves only a name of its own. *)
Definition fresh_id (e : op_env) (l : QuarantineLedger) : Prop :=
  forall id, oe_id e = Ok id -> ls_Reservations (ql_state l) !! id = None.
Definition own_remains (e : op_env) : Prop :=
  forall name tree, oe_staging e = StageFailed (Some (name, tree)) -> HasPrefix name ".commit-snapshot-" = true.

(** A tree others leave in the staging area; for a [careful] client no name
    directly below it begins with two dots. *)
Definition plausible (careful : bool) (n : node) : Prop :=
  tree_ok n /\ (careful = true -> forall children, n = Dir children -> dotdot_free children).

(** An interrupted removal leaves such a tree. *)
Definition plausible_remains (careful : bool) (remove : string -> removal) : Prop :=
  forall name n, remove name = RemoveFailed n -> plausible careful n.

(** The runtime visits every reservation, and the random identity has its
    sixteen bytes. *)
Definition open_ok (e : open_env) (w : world) : Prop :=
  (forall d id r, w_file w = FileDoc d -> ls_Reservations d !! id = Some r -> id ∈ oo_order e) /\
  (forall id, oo_id e = Ok id -> slen id = 16).

(** A [careful] client gives the ledger up when a commit fails; the callers in
    the repository all do. The label of a call is the day and the principal of
    the request it granted. *)
Inductive qcall (careful : bool) : option (string * string) -> sys -> sys -> Prop :=
| step_open e w w' l :
    open_ok e w -> plausible_remains careful (oo_remove e) ->
    OpenQuarantineLedger e root owner agent w = (w', Ok l) ->
    qcall careful None {| sy_ledger := None; sy_world := w |} {| sy_ledger := Some l; sy_world := w' |}
| step_open_fails e w w' m :
    open_ok e w -> plausible_remains careful (oo_remove e) ->
    OpenQuarantineLedger e root owner agent w = (w', Err m) ->
    qcall careful None {| sy_ledger := None; sy_world := w |} {| sy_ledger := None; sy_world := w' |}
| step_reserve e principal source generation l w l' w' r :
    fresh_id e l -> Reserve e principal source generation l w = (l', w', r) ->
    qcall careful (if is_ok r then Some (Format_day (oe_now e), principal) else None)
      {| sy_ledger := Some l; sy_world := w |} {| sy_ledger := Some l'; sy_world := w' |}
| step_abort e id l w l' w' r :
    Abort e id l w = (l', w', r) ->
    qcall careful None {| sy_ledger := Some l; sy_world := w |} {| sy_ledger := Some l'; sy_world := w' |}
| step_commit e id path digest l w l' w' r :
    own_remains e -> plausible_remains careful (oe_remove e) -> HasPrefix (Base_of (Abs (oe_cwd e) path)) ".commit-snapshot-" = false ->
    Commit e id path digest l w = (l', w', r) ->
    qcall careful None {| sy_ledger := Some l; sy_world := w |}
      {| sy_ledger := if careful && is_err r then None else Some l'; sy_world := w' |}
| step_receipts e l w l' w' r :
    CommitReceipts e l w = (l', w', r) ->
    qcall careful None {| sy_ledger := Some l; sy_world := w |} {| sy_ledger := Some l'; sy_world := w' |}
| step_collect e digests expected next l w l' w' r :
    GarbageCollect e digests expected next l w = (l', w', r) ->
    qcall careful None {| sy_ledger := Some l; sy_world := w |} {| sy_ledger := Some l'; sy_world := w' |}
| step_close l w :
    qcall careful None {| sy_ledger := Some l; sy_world := w |} {| sy_ledger := None; sy_world := w |}
| step_deposit ledger name tree w :
    foreign name -> plausible careful tree ->
    qcall careful None {| sy_ledger := ledger; sy_world := w |}
      {| sy_ledger := ledger; sy_world := with_entries (<[name := tree]> (w_entries w)) w |}
| step_remove ledger name w :
    foreign name ->
    qcall careful None {| sy_ledger := ledger; sy_world := w |}
      {| sy_ledger := ledger; sy_world := with_entries (delete name (w_entries w)) w |}
| step_authority ledger w a :
    (forall r, admitted (w_authority w) r -> admitted a r) ->
    qcall careful None {| sy_ledger := ledger; sy_world := w |} {| sy_ledger := ledger; sy_world := with_authority a w |}.

Definition qstep (careful : bool) (s s' : sys) : Prop := exists request, qcall careful request s s'.

(** A run, with the requests it granted, the newest first. *)
Inductive qrun (careful : bool) (s0 : sys) : list (string * string) -> sys -> Prop :=
| qrun_start : qrun careful s0 [] s0
| qrun_next requests s request s' :
    qrun careful s0 requests s -> qcall careful request s s' ->
    qrun careful s0 (option_list request ++ requests)%list s'.

Fixpoint requests_made (requests : list (string * string)) (day principal : string) : N :=
  match requests with
  | [] => 0
  | (day', principal') :: requests =>
      (if bool_decide (day' = day /\ principal' = principal) then 1 else 0) + requests_made requests day principal
  end.

(** A ledger directory before its first use: no ledger file, and at most
    staging directories. *)
Definition unused (careful : bool) (w : world) : Prop :=
  w_file w = FileAbsent /\ forall name tree, w_entries w !! name = Some tree -> foreign name /\ plausible careful tree.

Definition reachable (careful : bool) (s : sys) : Prop :=
  exists w, unused careful w /\ rtc (qstep careful) {| sy_ledger := None; sy_world := w |} s.

(** ** The invariant of every run *)

(** A retained object is what its transition says, and the authority admitted
    that transition. *)
Record object_ok (a : authority) (st : quarantineLedgerState) (key : string) (o : QuarantineObjectRecord) : Prop := {
  ob_digest : q_Digest o = key;
  ob_content : key = hex_EncodeToString (ar_ContentDigest (q_CommitTransition o));
  ob_admitted : admitted a (q_CommitTransition o);
  ob_complete : acquisition_complete (q_CommitTransition o) = true;
  ob_phase : ar_Phase (q_CommitTransition o) = "commit";
  ob_owner : ar_OwnerID (q_CommitTransition o) = owner;
  ob_agent : ar_AgentID (q_CommitTransition o) = agent;
  ob_ledger : ar_LedgerID (q_CommitTransition o) = ls_LedgerID st;
  ob_principal : ar_Principal (q_CommitTransition o) = q_Principal o;
  ob_source : ar_SourceID (q_CommitTransition o) = q_SourceID o;
  ob_generation : ar_SourceGeneration (q_CommitTransition o) = q_SourceGeneration o;
  ob_bytes : ar_ContentBytes (q_CommitTransition o) = q_Bytes o;
  ob_files : ar_ContentFiles (q_CommitTransition o) = q_Files o;
  ob_reserved : ar_ReservedBytes (q_CommitTransition o) = QuarantineReservationBytes /\
    ar_ReservedFiles (q_CommitTransition o) = QuarantineReservationFiles
}.

Context {AL : AuthorityLaws}.

(** What follows holds of the ledger whatever the requests it granted so far. *)
Section kept.
Context (granted : string -> string -> N).

Definition sound (a : authority) (st : quarantineLedgerState) : Prop :=
  books granted st /\ map_Forall (object_ok a st) (ls_Objects st).

(** The file holds a sound state; before it does, nothing was granted. *)
Definition filed (w : world) : Prop :=
  (forall d, w_file w = FileDoc d -> sound (w_authority w) d) /\
  ((forall d, w_file w <> FileDoc d) -> forall day principal, granted day principal = 0).

Definition sys_ok (s : sys) : Prop :=
  let a := w_authority (sy_world s) in
  filed (sy_world s) /\
  (forall l, sy_ledger s = Some l -> sound a (ql_state l) /\ ql_ownerID l = owner /\ ql_agentID l = agent).

Definition grows (a a' : authority) : Prop := forall r, admitted a r -> admitted a' r.

#[global] Instance grows_refl : Reflexive grows.
Proof. by intros a r. Qed.
#[global] Instance grows_trans : Transitive grows.
Proof. intros a1 a2 a3 H12 H23 r Hr. by apply H23, H12. Qed.

Lemma object_ok_grows a a' st key o : grows a a' -> object_ok a st key o -> object_ok a' st key o.
Proof. intros Hg [Hd Hc Ha ? ? ? ? ? ? ? ? ? ? ?]. constructor; try done. by apply Hg. Qed.

Lemma sound_grows a a' st : grows a a' -> sound a st -> sound a' st.
Proof. intros Hg [Hb Ho]. split; [done|]. eapply map_Forall_impl; [exact Ho|]. intros k o. by apply object_ok_grows. Qed.

Lemma admit_grows d r a a' res : AdmitCapabilityAcquisition d r a = (a', res) -> grows a a'.
Proof.
  unfold AdmitCapabilityAcquisition. intros H r' Hr'. destruct (negb _); [by injection H as <- <-|].
  destruct d; [by injection H as <- <-| |]; destruct (compare_and_swap a r) as [a1|] eqn:E; injection H as <- <-; try done;
    by eapply admit_keeps.
Qed.

Lemma admit_done d r a a' : AdmitCapabilityAcquisition d r a = (a', Ok tt) ->
  acquisition_complete r = true /\ admitted a' r /\ grows a a' /\ d = Answered /\ compare_and_swap a r = Some a'.
Proof.
  intros H. pose proof (admit_grows _ _ _ _ _ H) as Hg. unfold AdmitCapabilityAcquisition in H.
  destruct (acquisition_complete r); [|done]. cbn [negb] in H.
  destruct d; [done|done|]. destruct (compare_and_swap a r) as [a1|] eqn:E; [|done]. injection H as <-.
  split; [done|]. split; [by eapply admit_admitted|done].
Qed.

(** A write leaves the file alone or puts the state of the ledger there. *)
Lemma quar_persist_cases e l w w' r : persistLocked e l w = (w', r) ->
  w_entries w' = w_entries w /\ w_authority w' = w_authority w /\
  (w_file w' = w_file w \/ w_file w' = FileDoc (ql_state l)) /\ (r = Ok tt -> w_file w' = FileDoc (ql_state l)).
Proof.
  unfold persistLocked. destruct (io_marshal e (ql_state l)); [|by intros [= <- <-]; split_and!; auto].
  intros [= <- <-]. cbn.
  pose proof (WriteFileAtomic_atomic (io_fails e) (ql_state l) (w_file w)) as H. cbv zeta in H.
  destruct H as [H1 H2]. split; [done|]. split; [done|]. split; [done|]. intros Hr. by apply H2.
Qed.

(** The file and the memory hold sound states. *)
Definition held (l : QuarantineLedger) (w : world) : Prop :=
  sound (w_authority w) (ql_state l) /\ filed w.

Lemma persist_held e l w w' r : persistLocked e l w = (w', r) -> held l w -> held l w' /\ w_authority w' = w_authority w.
Proof.
  intros H [H1 H2]. apply quar_persist_cases in H as (_ & Ea & Hf & _). split; [|done].
  split; [by rewrite Ea|]. destruct H2 as [H2 H3]. split.
  - intros d Hd. rewrite Ea. destruct Hf as [E|E]; rewrite E in Hd; [by apply H2|by simplify_eq].
  - intros Hn. apply H3. intros d Hd. destruct Hf as [E|E]; rewrite E in Hn; [by apply (Hn d)|by apply (Hn (ql_state l))].
Qed.

Lemma admit_held d r a res l w : AdmitCapabilityAcquisition d r (w_authority w) = (a, res) ->
  held l w -> held l (with_authority a w).
Proof.
  intros H [H1 [H2 H3]]. apply admit_grows in H. split; cbn; [by eapply sound_grows|]. split; [|done].
  intros d' Hd. eapply sound_grows; [exact H|by apply H2].
Qed.

Lemma held_state st l w : sound (w_authority w) st -> held l w -> held (set_state st l) w.
Proof. intros H [_ H2]. by split. Qed.

Lemma held_poison l w : held l w -> held (poison l) w.
Proof. done. Qed.

Lemma held_entries entries l w : held l w -> held l (with_entries entries w).
Proof. done. Qed.

(** ** Sound states *)

Lemma object_ok_ledger a st st' key o : ls_LedgerID st' = ls_LedgerID st -> object_ok a st key o -> object_ok a st' key o.
Proof. intros E [? ? ? ? ? ? ? El ? ? ? ? ? ?]. constructor; try done. by rewrite E. Qed.

Lemma sound_update a st reservations objects revision :
  sound a st -> map_Forall reservation_ok reservations -> quotas objects reservations ->
  map_Forall (object_ok a st) objects -> sound a (with_books reservations objects revision st).
Proof.
  intros [Hb _] Hr Hq Ho. split; [constructor; cbn; [done|done|]|].
  - apply (bk_daily _ _ Hb).
  - eapply map_Forall_impl; [exact Ho|]. intros k o. by apply object_ok_ledger.
Qed.

Lemma sound_drop a st id : sound a st -> sound a (with_reservations (delete id (ls_Reservations st)) st).
Proof.
  intros H. pose proof H as [[Hr Hq Hd] Ho]. apply sound_update; try done.
  - by apply map_Forall_delete.
  - by apply quotas_delete.
Qed.

Lemma requests_on_insert st day day' counts last :
  requests_on (with_daily (<[day:=counts]> (ls_DailyRequests st)) last st) day' =
  if decide (day = day') then counts else requests_on st day'.
Proof. unfold requests_on. cbn. case_decide; subst; [by rewrite lookup_insert_eq|by rewrite lookup_insert_ne]. Qed.

Lemma sound_daily a st day counts last :
  sound a st -> (forall principal, granted day principal <= default 0 (counts !! principal) <= QuarantineDailyRequests) ->
  sound a (with_daily (<[day:=counts]> (ls_DailyRequests st)) last st).
Proof.
  intros [[Hr Hq Hd] Ho] Hc. split; [constructor; cbn; [done|done|]|].
  - intros day' p. rewrite requests_on_insert. case_decide; [subst; by apply Hc|by apply Hd].
  - eapply map_Forall_impl; [exact Ho|]. intros k o. by apply object_ok_ledger.
Qed.

Lemma sound_count a st day principal n last :
  sound a st -> granted day principal <= n <= QuarantineDailyRequests ->
  sound a (with_daily (<[day:=<[principal:=n]> (requests_on st day)]> (ls_DailyRequests st)) last st).
Proof.
  intros Hs Hn. apply sound_daily; [done|]. intros p. rewrite lookup_insert. case_decide; [by subst|].
  by apply (bk_daily _ _ (proj1 Hs)).
Qed.

Lemma sound_touch a st day :
  sound a st -> sound a (with_daily (<[day:=requests_on st day]> (ls_DailyRequests st)) (ls_LastRequestDay st) st).
Proof. intros Hs. apply sound_daily; [done|]. intros p. apply (bk_daily _ _ (proj1 Hs)). Qed.

Lemma usage_exact a st :
  sound a st -> forall acc, u64 (charge acc (ls_Objects st) (ls_Reservations st)) = charge acc (ls_Objects st) (ls_Reservations st).
Proof.
  intros [[_ [Hq _] _] _] acc. apply u64_small. specialize (Hq acc). apply ceiling_u64 in Hq. lia.
Qed.

(** The admission of a reservation, in terms of what is charged. *)
Lemma usage_admits a st principal source :
  sound a st ->
  usageLocked st principal source =
    (charge Whole (ls_Objects st) (ls_Reservations st), charge (OfPrincipal principal) (ls_Objects st) (ls_Reservations st),
     charge (OfSource source) (ls_Objects st) (ls_Reservations st), N.of_nat (size (ls_Objects st))).
Proof.
  intros Hs. pose proof (usage_exact a st Hs) as E. rewrite <- (E Whole), <- (E (OfPrincipal principal)), <- (E (OfSource source)).
  done.
Qed.

(** With at most 512 MiB charged there are at most eight reservations. *)
Lemma few_reservations a st :
  sound a st -> QuarantineReservationBytes * N.of_nat (size (ls_Reservations st)) <= charge Whole (ls_Objects st) (ls_Reservations st).
Proof.
  intros [[Hr _ _] _]. unfold charge, charged. rewrite <- (map_sum_const QuarantineReservationBytes (ls_Reservations st)).
  pose proof (map_sum_le (fun _ => QuarantineReservationBytes)
    (fun r => if of_reservation Whole r then r_ReservedBytes r else 0) (ls_Reservations st)) as H.
  assert (map_Forall (fun _ r => QuarantineReservationBytes <= (if of_reservation Whole r then r_ReservedBytes r else 0))
            (ls_Reservations st)) as Hall.
  { intros id r Hid. destruct (Hr id r Hid) as (_ & E & _). cbn. rewrite E. done. }
  specialize (H Hall). lia.
Qed.

Lemma sound_reserve a st id r principal source :
  sound a st -> ls_Reservations st !! id = None -> reservation_ok id r ->
  r_Principal r = principal -> r_SourceID r = source ->
  N.of_nat (size (ls_Objects st)) < QuarantineMaxObjects ->
  charge Whole (ls_Objects st) (ls_Reservations st) + QuarantineReservationBytes <= QuarantineGlobalBytes ->
  charge (OfPrincipal principal) (ls_Objects st) (ls_Reservations st) + QuarantineReservationBytes <= QuarantinePrincipalBytes ->
  charge (OfSource source) (ls_Objects st) (ls_Reservations st) + QuarantineReservationBytes <= QuarantineSourceBytes ->
  sound a (with_reservations (<[id:=r]> (ls_Reservations st)) st).
Proof.
  intros Hs Hid Hok Ep Es Hn Hg Hp Hsrc. pose proof Hs as [[Hr [Hq1 Hq2] Hd] Ho]. apply sound_update; try done.
  - by apply map_Forall_insert_2.
  - destruct Hok as (_ & Eb & _). split.
    + intros acc. specialize (Hq1 acc). unfold charge, charged in *.
      rewrite (map_sum_insert_fresh _ (ls_Reservations st)) by done.
      destruct acc as [|p|s]; cbn [of_object of_reservation ceiling] in *; rewrite ?Eb.
      * lia.
      * case_bool_decide as E; [|lia]. rewrite Ep in E. subst p. lia.
      * case_bool_decide as E; [|lia]. rewrite Es in E. subst s. lia.
    + rewrite map_size_insert_None by done. pose proof (few_reservations a st Hs) as Hf.
      unfold QuarantineReservationBytes, QuarantineGlobalBytes, QuarantineMaxObjects in *. lia.
Qed.

(** A reservation replaced by one of the same provenance and quantity. *)
Lemma sound_replace a st id r r' revision :
  sound a st -> ls_Reservations st !! id = Some r -> reservation_ok id r' ->
  r_Principal r' = r_Principal r -> r_SourceID r' = r_SourceID r -> r_ReservedBytes r' = r_ReservedBytes r ->
  sound a (with_books (<[id:=r']> (ls_Reservations st)) (ls_Objects st) revision st).
Proof.
  intros Hs Hid Hok E1 E2 E3. pose proof Hs as [[Hr Hq Hd] Ho]. apply sound_update; try done.
  - by apply map_Forall_insert_2.
  - by eapply quotas_update.
Qed.

Lemma sound_retain a st id r key o revision :
  sound a st -> ls_Reservations st !! id = Some r -> object_ok a st key o ->
  q_Principal o = r_Principal r -> q_SourceID o = r_SourceID r -> q_Bytes o <= r_ReservedBytes r ->
  sound a (with_books (delete id (ls_Reservations st)) (<[key:=o]> (ls_Objects st)) revision st).
Proof.
  intros Hs Hid Hok E1 E2 E3. pose proof Hs as [[Hr Hq Hd] Ho]. apply sound_update; try done.
  - by apply map_Forall_delete.
  - by eapply quotas_commit.
  - by apply map_Forall_insert_2.
Qed.

Lemma foldr_delete_subseteq (objects : gmap string QuarantineObjectRecord) digests : foldr delete objects digests ⊆ objects.
Proof. induction digests as [|d ds IH]; [done|]. cbn. etrans; [apply delete_subseteq|done]. Qed.

Lemma sound_deleted a st digests tombstones generation :
  sound a st -> sound a (with_deleted (foldr delete (ls_Objects st) digests) tombstones generation st).
Proof.
  intros [[Hr Hq Hd] Ho]. pose proof (foldr_delete_subseteq (ls_Objects st) digests) as Hsub.
  split; [constructor; cbn; [done| |done]|].
  - by eapply quotas_objects.
  - cbn. intros k o Hk. eapply (object_ok_ledger _ st); [done|]. apply Ho. by eapply lookup_weaken.
Qed.

Lemma hex_decoded_encode d : hex_decoded (hex_EncodeToString d) = d.
Proof.
  induction d as [|c d IH]; [done|]. cbn. rewrite !from_hex_digit by (apply byte_div16 || apply byte_mod16).
  rewrite IH. f_equal. rewrite <- N.div_mod by done. apply of_byte_of.
Qed.

(** What the request of a reservation is made of. *)
Lemma retained_ok a l r key digest now :
  admitted a (acquisitionRequest l r "commit") -> acquisition_complete (acquisitionRequest l r "commit") = true ->
  ql_ownerID l = owner -> ql_agentID l = agent -> r_ReservedBytes r = QuarantineReservationBytes ->
  r_ReservedFiles r = QuarantineReservationFiles -> r_CommitDigest r = key -> key = hex_EncodeToString digest ->
  object_ok a (ql_state l) key
    {| q_Digest := key; q_Principal := r_Principal r; q_SourceID := r_SourceID r; q_SourceGeneration := r_SourceGeneration r;
       q_Bytes := r_CommitBytes r; q_Files := r_CommitFiles r; q_RetainedAtUnix := now;
       q_CommitTransition := acquisitionRequest l r "commit" |}.
Proof.
  intros Ha Hc Eo Eg Eb Ef Ek Ed. constructor; cbn; try done. subst key. rewrite Ed. f_equal. symmetry.
  exact (hex_decoded_encode digest).
Qed.
(** ** Every operation keeps the invariant *)

Definition same_ledger (l l' : QuarantineLedger) : Prop :=
  ql_root l' = ql_root l /\ ql_device l' = ql_device l /\ ql_inode l' = ql_inode l /\
  ql_ownerID l' = ql_ownerID l /\ ql_agentID l' = ql_agentID l /\ ql_closed l' = ql_closed l.

#[local] Instance same_ledger_trans : Transitive same_ledger.
Proof. intros l1 l2 l3 (? & ? & ? & ? & ? & ?) (? & ? & ? & ? & ? & ?). repeat split; congruence. Qed.

(** The invariant while an operation runs, and the ledger of the deployment. *)
Definition ours (l : QuarantineLedger) (w : world) : Prop := held l w /\ ql_ownerID l = owner /\ ql_agentID l = agent.

Lemma ours_state st l w : ours l w -> sound (w_authority w) st -> ours (set_state st l) w.
Proof. intros (H & ? & ?) Hs. split; [by apply held_state|done]. Qed.

Lemma ours_persist e l w w' r : persistLocked e l w = (w', r) -> ours l w -> ours l w' /\ w_authority w' = w_authority w.
Proof. intros Hp (H & ? & ?). destruct (persist_held _ _ _ _ _ Hp H) as [? ?]. done. Qed.

Lemma ours_admit d r a res l w : AdmitCapabilityAcquisition d r (w_authority w) = (a, res) -> ours l w -> ours l (with_authority a w).
Proof. intros Ha (H & ? & ?). split; [by eapply admit_held|done]. Qed.

Lemma ours_poison l w : ours l w -> ours (poison l) w.
Proof. done. Qed.

Lemma ours_entries entries l w : ours l w -> ours l (with_entries entries w).
Proof. done. Qed.

Lemma pinned_cases matches l l' r : requirePinnedRootLocked matches l = (l', r) ->
  (r = Ok tt /\ l' = l) \/ (is_err r = true /\ l' = poison l).
Proof. unfold requirePinnedRootLocked. destruct (_ || _); intros [= <- <-]; auto. Qed.

Lemma Reserve_ours e principal source generation l w l' w' r :
  ours l w -> fresh_id e l -> Reserve e principal source generation l w = (l', w', r) -> ours l' w' /\ same_ledger l l'.
Proof.
  intros Ho Hf H. unfold Reserve in H.
  destruct (ql_closed l || ql_poisoned l); [by injection H as <- <- <-|].
  destruct (requirePinnedRootLocked _ l) as [l1 p] eqn:Hp. apply pinned_cases in Hp as [[-> ->]|[He ->]].
  2: { destruct p; [done|]. by injection H as <- <- <-. }
  destruct (_ || _) in H; [by injection H as <- <- <-|].
  destruct (negb _ && _) in H; [by injection H as <- <- <-|].
  pose proof Ho as [[Hs _] _]. set (day := Format_day (oe_now e)) in H.
  set (st1 := with_daily _ (ls_LastRequestDay (ql_state l)) _) in H.
  assert (sound (w_authority w) st1) as Hs1 by by apply sound_touch.
  assert (ours (set_state st1 l) w) as Ho1 by by apply ours_state.
  destruct (_ <=? _) eqn:Hcount in H; [by injection H as <- <- <-|].
  rewrite (usage_admits _ st1) in H by exact Hs1.
  destruct (_ || _) eqn:Hquota in H; [by injection H as <- <- <-|].
  destruct (oe_id e) as [id|m] eqn:Hid; [|by injection H as <- <- <-].
  set (r0 := new_reservation e id principal source generation st1) in H.
  set (n := default 0 _) in *.
  assert (sound (w_authority w) (with_reservations (<[id:=r0]> (ls_Reservations st1)) st1)) as Hs2.
  { rewrite !orb_false_iff in Hquota. pose proof (fun acc => ceiling_u64 acc _ (proj1 (bk_quotas _ _ (proj1 Hs1)) acc)) as Hc.
    eapply (sound_reserve _ _ _ _ principal source); try done.
    - by apply Hf.
    - split; [done|]. split; [done|]. split; [done|]. split; [cbn; unfold QuarantineReservationBytes; lia|]. left. auto.
    - destruct Hquota as [[[Hq _] _] _]. by apply N.leb_gt.
    - destruct Hquota as [[[_ Hq] _] _]. rewrite add64w_exact in Hq by apply (Hc Whole). by apply N.ltb_ge.
    - destruct Hquota as [[_ Hq] _]. rewrite add64w_exact in Hq by apply (Hc (OfPrincipal principal)). by apply N.ltb_ge.
    - destruct Hquota as [_ Hq]. rewrite add64w_exact in Hq by apply (Hc (OfSource source)). by apply N.ltb_ge. }
  assert (granted day principal <= n < QuarantineDailyRequests) as Hn.
  { split; [apply (bk_daily _ _ (proj1 Hs1))|by apply N.leb_gt]. }
  set (st' := with_daily _ day _) in H.
  assert (sound (w_authority w) st') as Hs'.
  { apply (sound_count _ (with_reservations (<[id:=r0]> (ls_Reservations st1)) st1)); [done|].
    unfold QuarantineDailyRequests in Hn |- *. rewrite u32_small; unfold MaxUint32; lia. }
  assert (ls_Reservations st' !! id = Some r0) as Hid' by apply lookup_insert_eq.
  destruct (persistLocked _ _ w) as [w1 p] eqn:Hp1.
  apply ours_persist in Hp1 as [Ho2 Ea]; [|by apply (ours_state st')].
  destruct p as [[]|m].
  2: { injection H as <- <- <-. split; [|done]. apply (ours_state _ (set_state st' l)); [done|]. rewrite Ea.
       apply (sound_count _ _ _ _ _ (ls_LastRequestDay _)); [by apply sound_drop|lia]. }
  destruct (AdmitCapabilityAcquisition _ _ _) as [a res] eqn:Ha.
  pose proof (admit_grows _ _ _ _ _ Ha) as Hg. apply (ours_admit _ _ _ _ (set_state st' l)) in Ha; [|done].
  destruct res as [[]|m]; [|by injection H as <- <- <-].
  assert (sound a st') as Hsa by (eapply sound_grows; [exact Hg|]; by rewrite Ea).
  set (st2 := with_books _ _ _ st') in H.
  assert (sound a st2) as Hs3.
  { eapply sound_replace; [done|exact Hid'| |done..]. destruct (bk_reservations _ _ (proj1 Hsa) id r0 Hid') as (H1 & H2 & H3 & H4 & _).
    split; [done|]. split; [done|]. split; [done|]. split; [done|]. left. split; [done|by right]. }
  destruct (persistLocked _ _ (with_authority a w1)) as [w2 p] eqn:Hp2.
  apply ours_persist in Hp2 as [Ho4 _]; [|by apply (ours_state st2 (set_state st' l))].
  destruct p as [[]|m]; injection H as <- <- <-; done.
Qed.

Lemma Abort_ours e id l w l' w' r : ours l w -> Abort e id l w = (l', w', r) -> ours l' w' /\ same_ledger l l'.
Proof.
  intros Ho H. unfold Abort in H.
  destruct (ql_closed l || ql_poisoned l); [by injection H as <- <- <-|].
  destruct (requirePinnedRootLocked _ l) as [l1 p] eqn:Hp. apply pinned_cases in Hp as [[-> ->]|[He ->]].
  2: { destruct p; [done|]. by injection H as <- <- <-. }
  destruct (_ !! id); [|by injection H as <- <- <-].
  destruct (_ || _) in H; [by injection H as <- <- <-|].
  destruct (persistLocked _ _ w) as [w1 p] eqn:Hp1. injection H as <- <- <-. split; [|done].
  apply ours_persist in Hp1 as [? _]; [done|]. apply ours_state; [done|]. by apply sound_drop, (proj1 (proj1 Ho)).
Qed.

Lemma CommitReceipts_ours e l w l' w' r : ours l w -> CommitReceipts e l w = (l', w', r) -> ours l' w' /\ same_ledger l l'.
Proof.
  intros Ho H. unfold CommitReceipts in H.
  destruct (ql_closed l || ql_poisoned l); [by injection H as <- <- <-|].
  destruct (requirePinnedRootLocked _ l) as [l1 p] eqn:Hp. apply pinned_cases in Hp as [[-> ->]|[He ->]].
  - destruct (receipts_of _ _); by injection H as <- <- <-.
  - destruct p; [done|]. by injection H as <- <- <-.
Qed.

Lemma removeTrees_files remove digests : forall w w' r, removeTrees remove digests w = (w', r) ->
  w_file w' = w_file w /\ w_authority w' = w_authority w.
Proof.
  induction digests as [|d ds IH]; intros w w' r H; cbn in H; [by injection H as <- <-|].
  destruct (removeAll _ d w) as [w1 p] eqn:Hr. unfold removeAll in Hr.
  destruct (remove d); injection Hr as <- <-; [|by injection H as <- <-]. apply IH in H as [-> ->]. done.
Qed.

Lemma ours_files l w w' : w_file w' = w_file w -> w_authority w' = w_authority w -> ours l w -> ours l w'.
Proof. intros E1 E2 [[H1 H2] ?]. split; [|done]. unfold held, filed. by rewrite E1, E2. Qed.

Lemma GarbageCollect_ours e digests expected next l w l' w' r :
  ours l w -> GarbageCollect e digests expected next l w = (l', w', r) -> ours l' w' /\ same_ledger l l'.
Proof.
  intros Ho H. unfold GarbageCollect in H.
  destruct (ql_closed l || ql_poisoned l); [by injection H as <- <- <-|].
  destruct (requirePinnedRootLocked _ l) as [l1 p] eqn:Hp. apply pinned_cases in Hp as [[-> ->]|[He ->]].
  2: { destruct p; [done|]. by injection H as <- <- <-. }
  destruct (_ || _) in H; [by injection H as <- <- <-|].
  destruct (deletable _ _ _); [|by injection H as <- <- <-].
  destruct (persistLocked _ _ w) as [w1 p] eqn:Hp1.
  apply ours_persist in Hp1 as [Ho1 _]; [|apply ours_state; [done|]; by apply sound_deleted, (proj1 (proj1 Ho))].
  destruct p; [|by injection H as <- <- <-].
  destruct (removeTrees _ _ _) as [w2 p] eqn:Hr. apply removeTrees_files in Hr as [E1 E2].
  destruct p; injection H as <- <- <-; (split; [|done]); [|apply ours_poison]; by eapply ours_files.
Qed.
(** ** Commits and reopening keep the invariant *)

Lemma removeAll_files outcome name w w' r : removeAll outcome name w = (w', r) ->
  w_file w' = w_file w /\ w_authority w' = w_authority w.
Proof. unfold removeAll. destruct outcome; by intros [= <- <-]. Qed.

Lemma stage_files s snapshot w w' r : stageQuarantineSnapshot s snapshot w = (w', r) ->
  w_file w' = w_file w /\ w_authority w' = w_authority w /\
  (forall name, r = Ok name -> HasPrefix name ".commit-snapshot-" = true).
Proof.
  unfold stageQuarantineSnapshot. destruct s as [random|[[name tree]|]].
  - destruct (w_entries w !! _); [by intros [= <- <-]|]. destruct (stage_tree snapshot); intros [= <- <-]; [|done].
    split; [done|]. split; [done|]. intros name [= <-]. apply HasPrefix_app.
  - by intros [= <- <-].
  - by intros [= <- <-].
Qed.

Lemma publish_files p temp name w w' r : publishStagedQuarantineSnapshot p temp name w = (w', r) ->
  w_file w' = w_file w /\ w_authority w' = w_authority w.
Proof.
  unfold publishStagedQuarantineSnapshot. destruct (_ || _); [by intros [= <- <-]|].
  destruct p; destruct (w_entries w !! temp) as [[]|]; try (by intros [= <- <-]);
    destruct (w_entries w !! name); by intros [= <- <-].
Qed.

(** The step between the authority's answer and the accounting. *)
Lemma published_files (deduplicated : bool) e temp key b f w w' r :
  (if deduplicated then removeAll (oe_remove e temp) temp w
   else let '(w, published) := publishStagedQuarantineSnapshot (oe_publication e) temp key w in
        match published with
        | Err m => (w, Err m)
        | Ok _ => (w, if differs (oe_hash_fails e) w key b f
                      then Err "published quarantine snapshot differs from the acknowledged closure" else Ok tt)
        end) = (w', r) -> w_file w' = w_file w /\ w_authority w' = w_authority w.
Proof.
  destruct deduplicated; [apply removeAll_files|].
  destruct (publishStagedQuarantineSnapshot _ _ _ _) as [w1 p] eqn:Hp. apply publish_files in Hp as [? ?].
  destruct p; by intros [= <- <-].
Qed.

Lemma prepareAndCommit_ours e reservation temp key digest b f dedup l w l' w' r :
  ours l w -> ls_Reservations (ql_state l) !! r_ID reservation = Some reservation -> b <= r_ReservedBytes reservation ->
  HasPrefix temp ".commit-snapshot-" = true -> key = hex_EncodeToString digest -> slen digest = 32 ->
  prepareAndCommitLocked e reservation temp key b f dedup l w = (l', w', r) -> ours l' w' /\ same_ledger l l'.
Proof.
  intros Ho Hid Hb Ht Hk Hd H. unfold prepareAndCommitLocked in H.
  set (r1 := prepared reservation key b f temp _) in H.
  set (st1 := with_reservations _ (ql_state l)) in H.
  pose proof (proj1 (proj1 Ho)) as Hs.
  destruct (bk_reservations _ _ (proj1 Hs) _ _ Hid) as (H1 & H2 & H3 & _ & _).
  assert (reservation_ok (r_ID reservation) r1) as Hok.
  { split; [done|]. split; [done|]. split; [done|]. split; [done|]. right. split; [done|]. split; [done|]. by exists digest. }
  assert (sound (w_authority w) st1) as Hs1 by by eapply sound_replace.
  destruct (persistLocked _ _ w) as [w1 p] eqn:Hp1. apply ours_persist in Hp1 as [Ho1 Ea]; [|by apply ours_state].
  destruct p; [|by injection H as <- <- <-].
  destruct (requirePinnedRootLocked _ _) as [l2 p] eqn:Hp. apply pinned_cases in Hp as [[-> ->]|[He ->]].
  2: { destruct p; [done|]. by injection H as <- <- <-. }
  destruct (AdmitCapabilityAcquisition _ _ _) as [a2 res] eqn:Ha. pose proof Ha as Ha'.
  apply (ours_admit _ _ _ _ (set_state st1 l)) in Ha'; [|done].
  destruct res as [[]|]; [|by injection H as <- <- <-].
  apply admit_done in Ha as (Hc & Had & Hg & _).
  destruct (if dedup then _ else _) as [w3 p] eqn:Hpub. apply published_files in Hpub as [Ef Ea3]. cbn in Ef, Ea3.
  assert (ours (set_state st1 l) w3) as Ho3 by by apply (ours_files _ (with_authority a2 w1)).
  destruct p as [[]|]; [|by injection H as <- <- <-].
  set (st2 := with_books _ _ _ _) in H.
  destruct (persistLocked _ _ w3) as [w4 p] eqn:Hp4. apply ours_persist in Hp4 as [Ho4 _].
  2: { apply (ours_state st2 (set_state st1 l)); [done|]. rewrite Ea3.
       apply (sound_retain _ st1 _ r1); [|apply lookup_insert_eq| |done..|exact Hb].
       - eapply sound_grows; [exact Hg|]. by rewrite Ea.
       - destruct Ho as (_ & ? & ?). by eapply (retained_ok a2 (set_state st1 l) r1 key digest). }
  destruct p; by injection H as <- <- <-.
Qed.

Lemma Commit_ours e id path digest l w l' w' r :
  ours l w -> Commit e id path digest l w = (l', w', r) -> ours l' w' /\ same_ledger l l'.
Proof.
  intros Ho H. unfold Commit in H.
  destruct (ql_closed l || ql_poisoned l); [by injection H as <- <- <-|].
  destruct (requirePinnedRootLocked _ l) as [l1 p] eqn:Hp. apply pinned_cases in Hp as [[-> ->]|[He ->]].
  2: { destruct p; [done|]. by injection H as <- <- <-. }
  destruct (_ !! id) as [r0|] eqn:Hid; [|by injection H as <- <- <-].
  pose proof (proj1 (proj1 Ho)) as Hs. destruct (bk_reservations _ _ (proj1 Hs) _ _ Hid) as (Eid & H2 & H3 & _ & _).
  destruct (_ || _) eqn:Hexp in H; [by injection H as <- <- <-|]. apply orb_false_iff in Hexp as [_ Hlen]. bprop.
  destruct (directTemporaryName _ l path) as [temp0|]; [|by injection H as <- <- <-].
  destruct (if oe_read_fails e then _ else _) as [s|]; [|by injection H as <- <- <-].
  destruct (hashQuarantineSnapshot s) as [want|]; [|by injection H as <- <- <-].
  destruct (negb (bool_decide (want = digest))); [by injection H as <- <- <-|].
  destruct (_ || _) eqn:Hb in H; [by injection H as <- <- <-|]. apply orb_false_iff in Hb as [Hb _]. bprop.
  destruct (bool_decide _) in H; [by injection H as <- <- <-|].
  destruct (ls_Objects (ql_state l) !! _) as [prior|].
  - destruct (read_tree _ _ _) as [d|]; [|by injection H as <- <- <-].
    destruct (negb _) in H; [by injection H as <- <- <-|].
    destruct (_ || _) in H; [by injection H as <- <- <-|].
    destruct (persistLocked _ _ w) as [w1 p] eqn:Hp1.
    apply ours_persist in Hp1 as [Ho1 _]; [|apply ours_state; [done|by apply sound_drop]].
    destruct p; [|by injection H as <- <- <-].
    destruct (removeAll _ _ _) as [w2 p] eqn:Hr. apply removeAll_files in Hr as [E1 E2].
    destruct p; injection H as <- <- <-; (split; [|done]); [|apply ours_poison]; by eapply ours_files.
  - destruct (oe_stat_fails e); [by injection H as <- <- <-|].
    destruct (bool_decide _) in H; [by injection H as <- <- <-|].
    destruct (stageQuarantineSnapshot _ _ _) as [w1 p] eqn:Hst. apply stage_files in Hst as (E1 & E2 & Hpre).
    assert (ours l w1) as Ho1 by by eapply ours_files.
    destruct p as [temp|]; [|by injection H as <- <- <-].
    destruct (prepareAndCommitLocked _ _ _ _ _ _ _ _ _) as [[l2 w2] c] eqn:Hc.
    eapply (prepareAndCommit_ours _ _ _ _ digest) in Hc as [Ho2 Hsame]; [|done|by rewrite Eid|done|by apply Hpre|done|done].
    destruct c; injection H as <- <- <-; [|done]. split; [|done].
    destruct (removeAll _ _ w2) as [w3 p] eqn:Hr. apply removeAll_files in Hr as [E3 E4]. by eapply ours_files.
Qed.

Lemma expire_sound e id r l a : sound a (ql_state l) -> sound a (ql_state (expire e id r l)).
Proof. intros H. unfold expire. destruct (_ <=? _); [by apply sound_drop|done]. Qed.

Lemma expire_same e id r l : same_ledger l (expire e id r l).
Proof. unfold expire. by destruct (_ <=? _). Qed.

Lemma ours_expire e id r l w : ours l w -> ours (expire e id r l) w.
Proof.
  intros ((H1 & H2) & Ho & Hg). split; [split; [by apply expire_sound|done]|].
  destruct (expire_same e id r l) as (_ & _ & _ & -> & -> & _). done.
Qed.

Lemma reconcile_reservation_ours e id r l w l' w' res :
  ours l w -> ls_Reservations (ql_state l) !! id = Some r ->
  reconcile_reservation e id r l w = (l', w', res) -> ours l' w' /\ same_ledger l l'.
Proof.
  intros Ho Hid H. pose proof (proj1 (proj1 Ho)) as Hs.
  destruct (bk_reservations _ _ (proj1 Hs) _ _ Hid) as (H1 & H2 & H3 & H4 & H5). unfold reconcile_reservation in H.
  destruct (bool_decide (r_AuthorityPhase r = "reserve-prepared")) eqn:Hph.
  - destruct (AdmitCapabilityAcquisition _ _ _) as [a p] eqn:Ha. pose proof Ha as Ha'.
    apply (ours_admit _ _ _ _ l) in Ha'; [|done]. destruct p as [[]|]; [|by injection H as <- <- <-].
    apply admit_done in Ha as (_ & _ & Hg & _). injection H as <- <- <-. split; [|etrans; [|apply expire_same]; done].
    apply ours_expire, ours_state; [done|]. eapply sound_replace; [by eapply sound_grows|exact Hid| |done..].
    split; [done|]. split; [done|]. split; [done|]. split; [done|]. left. split; [|by right]. bprop.
    destruct H5 as [[? _]|[Hc _]]; [done|]. rewrite Hc in Hph. done.
  - destruct (bool_decide _ && _) eqn:Hc.
    + apply andb_true_iff in Hc as [Hc _]. unfold recoverCommitLocked in H.
      destruct (_ || _) in H; [by injection H as <- <- <-|].
      destruct (AdmitCapabilityAcquisition _ _ _) as [a p] eqn:Ha. pose proof Ha as Ha'.
      apply (ours_admit _ _ _ _ l) in Ha'; [|done]. destruct p as [[]|]; [|by injection H as <- <- <-].
      apply admit_done in Ha as (Hcomp & Hadm & Hg & _).
      destruct (oo_stat_fails e _); [by injection H as <- <- <-|].
      destruct (match w_entries _ !! _ with Some _ => _ | None => _ end) as [w1 p] eqn:Hpub.
      assert (w_file w1 = w_file w /\ w_authority w1 = a) as [E1 E2].
      { destruct (w_entries _ !! _); [by injection Hpub as <- <-|]. by apply publish_files in Hpub. }
      assert (ours l w1) as Ho1 by by apply (ours_files _ (with_authority a w)).
      destruct p; [|by injection H as <- <- <-].
      destruct (read_tree _ _ _); [|by injection H as <- <- <-].
      destruct (negb _) in H; [by injection H as <- <- <-|]. injection H as <- <- <-. split; [|done].
      apply ours_state; [done|]. rewrite E2. bprop.
      destruct H5 as [[_ [Hx|Hx]]|(_ & _ & d & Hd & Ed)]; [congruence|congruence|].
      destruct Ho as (_ & ? & ?).
      eapply sound_retain; [by eapply sound_grows|exact Hid| |done..|exact H4]. by eapply retained_ok.
    + destruct (negb _) in H; injection H as <- <- <-; [done|]. split; [by apply ours_expire|apply expire_same].
Qed.

Lemma reconcile_reservations_ours e ids : forall l w l' w' res,
  ours l w -> reconcile_reservations e ids l w = (l', w', res) -> ours l' w' /\ same_ledger l l'.
Proof.
  induction ids as [|id ids IH]; intros l w l' w' res Ho H; cbn in H; [by injection H as <- <- <-|].
  destruct (_ !! id) as [r|] eqn:Hid; [|by eapply IH].
  destruct (reconcile_reservation _ _ _ _ _) as [[l1 w1] p] eqn:Hr.
  eapply reconcile_reservation_ours in Hr as [Ho1 Hs1]; [|done|done].
  destruct p; [|by injection H as <- <- <-]. eapply IH in H as [? ?]; [|done]. split; [done|by etrans].
Qed.

Lemma reconcile_entries_files e st names : forall w w' res,
  reconcile_entries e st names w = (w', res) -> w_file w' = w_file w /\ w_authority w' = w_authority w.
Proof.
  induction names as [|name names IH]; intros w w' res H; cbn in H; [by injection H as <- <-|].
  destruct (w_entries w !! name) as [[]|]; try by eapply IH.
  destruct (HasPrefix name "."); [|destruct (negb _); [by injection H as <- <-|];
    destruct (bool_decide _); [by eapply IH|]; destruct (bool_decide _); [|by injection H as <- <-]].
  all: destruct (removeAll _ _ _) as [w1 p] eqn:Hr; apply removeAll_files in Hr as [E1 E2];
    destruct p; [|by injection H as <- <-]; apply IH in H as [-> ->]; done.
Qed.

Lemma reconcile_ours e l w l' w' res : ours l w -> reconcileLocked e l w = (l', w', res) -> ours l' w' /\ same_ledger l l'.
Proof.
  intros Ho H. unfold reconcileLocked in H.
  destruct (reconcile_reservations _ _ _ _) as [[l1 w1] p] eqn:Hr. eapply reconcile_reservations_ours in Hr as [Ho1 Hs1]; [|done].
  destruct p; [|by injection H as <- <- <-]. destruct (oo_read_dir_fails e); [by injection H as <- <- <-|].
  destruct (reconcile_entries _ _ _ _) as [w2 p] eqn:He. apply reconcile_entries_files in He as [E1 E2].
  assert (ours l1 w2) as Ho2 by by eapply ours_files.
  destruct p; [|by injection H as <- <- <-]. destruct (range_check _ _); [|by injection H as <- <- <-].
  destruct (persistLocked _ _ _) as [w3 p] eqn:Hp. apply ours_persist in Hp as [? _]; [|done].
  by injection H as <- <- <-.
Qed.

Lemma no_state_sound a id device inode :
  (forall day principal, granted day principal = 0) -> sound a (no_state id device inode).
Proof.
  intros Hg. split; [constructor|]; cbn.
  - by intros k r Hk%lookup_empty_Some.
  - split; [|by rewrite !map_size_empty]. intros acc. unfold charge, charged. rewrite !map_sum_empty. destruct acc; done.
  - intros day p. rewrite Hg. unfold requests_on. cbn. rewrite lookup_empty. cbn. by rewrite lookup_empty.
  - by intros k r Hk%lookup_empty_Some.
Qed.

Lemma Open_ours e w w' res : OpenQuarantineLedger e root owner agent w = (w', res) ->
  filed w -> filed w' /\ (forall l, res = Ok l -> ours l w').
Proof.
  intros H Hf. unfold OpenQuarantineLedger in H.
  destruct (_ || _) in H; [by injection H as <- <-|].
  destruct (oo_handle e) as [[device inode]|]; [|by injection H as <- <-].
  destruct (oo_lock e); [|by injection H as <- <-]. destruct (oo_id e) as [lid|]; [|by injection H as <- <-].
  destruct (match w_file w with FileAbsent => _ | FileUnreadable => _ | FileUndecodable => _ | FileDoc _ => _ end)
    as [st|] eqn:Hl; [|by injection H as <- <-].
  assert (sound (w_authority w) st) as Hs.
  { destruct Hf as [Hf Hn]. destruct (w_file w) as [| | |d]; [injection Hl as <-; apply no_state_sound; by apply Hn|done|done|].
    destruct (_ || _) in Hl; [done|]. injection Hl as <-. by apply Hf. }
  destruct (reconcileLocked _ _ _) as [[l w1] p] eqn:Hr. apply reconcile_ours in Hr as [[[Ho1 Ho2] Ho3] _]; [|by split; [split|]].
  injection H as <- <-. split; [done|]. intros l0 Hl0. destruct p; [|done]. by injection Hl0 as <-.
Qed.
(** ** All runs *)

Lemma qcall_kept careful request s s' : qcall careful request s s' -> sys_ok s -> sys_ok s'.
Proof.
  intros Hst [Hf Hl]. destruct Hst; cbn in Hf, Hl; unfold sys_ok; cbn.
  all: try (specialize (Hl _ eq_refl); destruct Hl as (Hs & Eo & Ea); assert (ours l w) as Hours by by split; [split|]).
  - edestruct Open_ours as [Hfile Hled]; [done..|]. split; [done|]. intros l0 [= <-]. by destruct (Hled _ eq_refl) as [[? _] ?].
  - edestruct Open_ours as [Hfile Hled]; [done..|]. split; [done|]. by intros l0.
  - edestruct Reserve_ours as [[[? ?] ?] _]; [done..|]. split; [done|]. by intros l0 [= <-].
  - edestruct Abort_ours as [[[? ?] ?] _]; [done..|]. split; [done|]. by intros l0 [= <-].
  - edestruct Commit_ours as [[[? ?] ?] _]; [done..|]. split; [done|]. intros l0 Hl0.
    destruct (careful && is_err r); [done|]. by injection Hl0 as <-.
  - edestruct CommitReceipts_ours as [[[? ?] ?] _]; [done..|]. split; [done|]. by intros l0 [= <-].
  - edestruct GarbageCollect_ours as [[[? ?] ?] _]; [done..|]. split; [done|]. by intros l0 [= <-].
  - split; [done|]. by intros l0.
  - done.
  - done.
  - destruct Hf as [Hf Hn]. split; [split; [|done]|].
    + intros d Hd. eapply sound_grows; [|by apply Hf]. done.
    + intros l Hl0. destruct (Hl l Hl0) as (? & ? & ?). split; [|done]. by eapply sound_grows.
Qed.

Lemma qstep_ok careful s s' : qstep careful s s' -> sys_ok s -> sys_ok s'.
Proof. intros [request H]. by eapply qcall_kept. Qed.

End kept.

(** A ledger whose requests nobody counts. *)
Definition nobody (_ _ : string) : N := 0.

Lemma unused_ok careful w : unused careful w -> sys_ok nobody {| sy_ledger := None; sy_world := w |}.
Proof. intros [Hf _]. split; [split; [|done]|by intros l]. cbn. by rewrite Hf. Qed.

Lemma quar_reachable_ok careful s : reachable careful s -> sys_ok nobody s.
Proof.
  intros (w & Hu & Hr). remember {| sy_ledger := None; sy_world := w |} as s0 eqn:E0.
  assert (sys_ok nobody s0) as H0 by (subst s0; by eapply unused_ok). clear E0.
  induction Hr as [|s0 s1 s2 Hst Hr IH]; [done|]. apply IH. by eapply qstep_ok.
Qed.

(** A granted request was counted, in the ledger and in its file. *)
Lemma Reserve_counts e principal source generation l w l' w' r :
  Reserve e principal source generation l w = (l', w', Ok r) ->
  let count := default 0 (requests_on (ql_state l) (Format_day (oe_now e)) !! principal) in
  count < QuarantineDailyRequests /\
  requests_on (ql_state l') (Format_day (oe_now e)) !! principal = Some (count + 1) /\
  w_file w' = FileDoc (ql_state l').
Proof.
  intros H. unfold Reserve in H. set (day := Format_day (oe_now e)) in *.
  destruct (ql_closed l || ql_poisoned l); [done|].
  destruct (requirePinnedRootLocked _ l) as [l1 p] eqn:Hp. apply pinned_cases in Hp as [[-> ->]|[He ->]].
  2: { by destruct p. }
  destruct (_ || _) in H; [done|]. destruct (negb _ && _) in H; [done|].
  rewrite requests_on_insert, decide_True in H by done.
  set (count := default 0 _) in H. change (default 0 _) with count. cbv zeta.
  destruct (_ <=? _) eqn:Hc in H; [done|]. apply N.leb_gt in Hc.
  destruct (usageLocked _ _ _) as [[[global perP] perS] objects]. destruct (_ || _) in H; [done|].
  destruct (oe_id e); [|done].
  destruct (persistLocked _ _ w) as [w1 p] in H. destruct p; [|done].
  destruct (AdmitCapabilityAcquisition _ _ _) as [a1 res] in H. destruct res; [|done].
  destruct (persistLocked _ _ (with_authority a1 w1)) as [w2 p] eqn:Hp2 in H. destruct p as [[]|]; [|done].
  apply quar_persist_cases in Hp2 as (_ & _ & _ & Hf). injection H as <- <- <-.
  split; [done|]. split; [|by apply Hf].
  unfold requests_on at 1. cbn. rewrite lookup_insert_eq. cbn. rewrite lookup_insert_eq. f_equal.
  apply u32_small. unfold QuarantineDailyRequests in Hc. unfold MaxUint32. lia.
Qed.

Lemma sound_bump day principal requests a st :
  sound (requests_made requests) a st ->
  requests_made requests day principal < default 0 (requests_on st day !! principal) ->
  sound (requests_made ((day, principal) :: requests)) a st.
Proof.
  intros [[Hr Hq Hd] Ho] Hn. split; [constructor; [done|done|]|done].
  intros day' p. specialize (Hd day' p). cbn. case_bool_decide as E; [destruct E as [<- <-]|]; lia.
Qed.

Lemma qcall_ok careful request requests s s' :
  qcall careful request s s' -> sys_ok (requests_made requests) s -> sys_ok (requests_made (option_list request ++ requests)) s'.
Proof.
  intros Hst Hok. pose proof (qcall_kept _ _ _ _ _ Hst Hok) as Hok'. destruct Hst; try exact Hok'.
  destruct r as [r|]; [|exact Hok']. destruct Hok as [_ Hl]. destruct (Hl _ eq_refl) as [Hs _]. cbn in Hs.
  match goal with H : Reserve _ _ _ _ _ _ = _ |- _ => apply Reserve_counts in H as (_ & Hn & Hf) end.
  pose proof (proj1 (bk_daily _ _ (proj1 Hs) (Format_day (oe_now e)) principal)) as Hd.
  destruct Hok' as [_ Hl']. destruct (Hl' _ eq_refl) as (Hs' & Eo & Ea). cbn in Hs'.
  assert (sound (requests_made ((Format_day (oe_now e), principal) :: requests)) (w_authority w') (ql_state l')) as Hb.
  { apply sound_bump; [done|]. rewrite Hn. eapply N.le_lt_trans; [exact Hd|]. by apply N.lt_add_pos_r. }
  split; [split|].
  - intros d Hfd. change (w_file w' = FileDoc d) in Hfd. rewrite Hf in Hfd. injection Hfd as <-. exact Hb.
  - intros Hno. by destruct (Hno (ql_state l') Hf).
  - intros l0 [= <-]. exact (conj Hb (conj Eo Ea)).
Qed.

Lemma qrun_ok careful w requests s :
  unused careful w -> qrun careful {| sy_ledger := None; sy_world := w |} requests s -> sys_ok (requests_made requests) s.
Proof. intros Hu Hr. induction Hr; [by eapply unused_ok|]. by eapply qcall_ok. Qed.

(** C24: Whatever fails and whenever the process stops, across reopenings: of one
    principal at most 32 requests are granted on one day, the open ledger and
    its file count at least those, and both never charge more than 512 MiB in
    all and 256 MiB to one principal or one source, nor hold more than 519
    objects. *)
Theorem quar_quotas careful w requests s :
  unused careful w -> qrun careful {| sy_ledger := None; sy_world := w |} requests s ->
  (forall day principal, requests_made requests day principal <= QuarantineDailyRequests) /\
  forall st, (exists l, sy_ledger s = Some l /\ st = ql_state l) \/ w_file (sy_world s) = FileDoc st ->
  (forall acc, charge acc (ls_Objects st) (ls_Reservations st) <= ceiling acc) /\
  N.of_nat (size (ls_Objects st)) <= QuarantineMaxObjects + 7 /\
  (forall day principal,
     requests_made requests day principal <= default 0 (requests_on st day !! principal) <= QuarantineDailyRequests).
Proof.
  intros Hu Hr. apply qrun_ok in Hr as [[Hf Hn] Hl]; [|done]. split.
  - destruct (w_file (sy_world s)) as [| | |d]; intros day principal; try (rewrite Hn; done).
    destruct (Hf d eq_refl) as [Hb _]. pose proof (bk_daily _ _ Hb day principal). lia.
  - intros st Hst. assert (exists a, sound (requests_made requests) a st) as [a [[_ [Hq1 Hq2] Hd] _]].
    { exists (w_authority (sy_world s)). destruct Hst as [(l & E & ->)|E]; [by apply Hl|by apply Hf]. }
    split; [done|]. split; [lia|done].
Qed.

(** C10: Nothing is retained that the authority has not admitted: every object of the
    open ledger and of the file carries a complete commit transition of this
    deployment with its own digest, provenance and size, within what was
    reserved for it, which the authority has admitted. *)
Theorem quar_admitted careful s st key o :
  reachable careful s ->
  (exists l, sy_ledger s = Some l /\ st = ql_state l) \/ w_file (sy_world s) = FileDoc st ->
  ls_Objects st !! key = Some o ->
  let t := q_CommitTransition o in
  admitted (w_authority (sy_world s)) t /\ ar_Phase t = "commit" /\ hex_EncodeToString (ar_ContentDigest t) = key /\
  ar_OwnerID t = owner /\ ar_AgentID t = agent /\ ar_LedgerID t = ls_LedgerID st /\
  ar_Principal t = q_Principal o /\ ar_SourceID t = q_SourceID o /\ ar_SourceGeneration t = q_SourceGeneration o /\
  ar_ContentBytes t = q_Bytes o /\ ar_ContentFiles t = q_Files o /\
  q_Bytes o <= ar_ReservedBytes t /\ q_Files o <= ar_ReservedFiles t.
Proof.
  intros Hr Hst Ho t. apply quar_reachable_ok in Hr as [[Hf _] Hl].
  assert (sound nobody (w_authority (sy_world s)) st) as [_ Hob]
    by (destruct Hst as [(l & E & ->)|E]; [by apply Hl|by apply Hf]).
  destruct (Hob key o Ho) as [? Hk ? Hc Hph ? ? ? ? ? ? Hb Hfi _].
  repeat (split; [done|]). unfold acquisition_complete in Hc. rewrite Hph, Hb, Hfi in Hc.
  apply negb_true_iff in Hc. rewrite !orb_false_iff in Hc. destruct Hc as [_ Hc].
  rewrite bool_decide_eq_true_2, andb_true_l, !orb_false_iff in Hc by done. destruct Hc as [[_ H1] H2]. bprop. done.
Qed.

End runs.

End QuarSafety.
