(* ===== verification/QuarRecovery.v ===== *)
(** * Capability control: the quarantine ledger and its directory

    For a client that gives the ledger up when a commit fails, the ledger file
    and the directory agree after every crash: each retained object is the tree
    its record describes, and a prepared commit still has its tree. So the
    ledger can be opened again, and a commit the authority admitted is completed
    with exactly the admitted transition. Nothing retained is ever ahead of the
    ledger's revision, so its receipts pass the inventory's check. *)

From stdpp Require Import relations.
From S2P Require Import Prelude GoLib GoText GoUnicode FileStore Protocol QuarTree Quarantine QuarSafety.
#[local] Open Scope string_scope.
#[local] Open Scope N_scope.

Module QuarRecovery.
Import QuarTree Quarantine QuarSafety.

Section recovery.
Context {SHA : Sha256} {CR : ClosureRoot} {AA : AcquisitionAuthority} {AL : AuthorityLaws}.
Context (root owner agent : string).

(** ** Agreement of a state with the directory *)

(** The directory holds, under [name], a tree with this digest and size. *)
Definition stored (entries : gmap string node) (name key : string) (bytes files : N) : Prop :=
  exists children digest, entries !! name = Some (Dir children) /\
    HashTree (Some (Dir children)) = Ok digest /\ hex_EncodeToString digest = key /\
    boundedTreeUsage (Some (Dir children)) = Ok (bytes, files).

Definition is_prepared (r : QuarantineReservation) : Prop := r_AuthorityPhase r = "commit-prepared".

Record agree (entries : gmap string node) (st : quarantineLedgerState) : Prop := {
  ag_entries name children : entries !! name = Some (Dir children) ->
    HasPrefix name "." = true \/
    (slen name = 64 /\ (is_Some (ls_Objects st !! name) \/ is_Some (ls_Tombstones st !! name) \/
       exists id r, ls_Reservations st !! id = Some r /\ is_prepared r /\ r_CommitDigest r = name));
  ag_objects key o : ls_Objects st !! key = Some o -> stored entries key key (q_Bytes o) (q_Files o);
  ag_prepared id r : ls_Reservations st !! id = Some r -> is_prepared r ->
    ls_Objects st !! r_CommitDigest r = None /\ ls_Tombstones st !! r_CommitDigest r = None /\
    ((stored entries (r_TemporaryName r) (r_CommitDigest r) (r_CommitBytes r) (r_CommitFiles r) /\
      entries !! r_CommitDigest r = None) \/
     stored entries (r_CommitDigest r) (r_CommitDigest r) (r_CommitBytes r) (r_CommitFiles r));
  ag_one id id' r r' : ls_Reservations st !! id = Some r -> ls_Reservations st !! id' = Some r' ->
    is_prepared r -> is_prepared r' -> id = id'
}.

Definition quiet (st : quarantineLedgerState) : Prop :=
  map_Forall (fun _ r => r_AuthorityPhase r = "reserved") (ls_Reservations st).
Definition unprepared (st : quarantineLedgerState) : Prop :=
  map_Forall (fun _ r => ~ is_prepared r) (ls_Reservations st).

Lemma quiet_unprepared st : quiet st -> unprepared st.
Proof. intros Hq id r Hr E. specialize (Hq id r Hr). unfold is_prepared in E. cbn in Hq. congruence. Qed.

(** Names of retained or tombstoned trees are no staging names. *)
Definition public (name : string) : Prop := HasPrefix name "." = false.

Lemma hex_public d : d <> "" -> public (hex_EncodeToString d).
Proof.
  destruct d as [|c d]; [done|]. intros _. cbn. unfold public, HasPrefix. cbn [String.prefix].
  destruct (ascii_dec "."%char (hex_digit (byte_of c / 16))) as [E|]; [|done].
  assert (from_hex (hex_digit (byte_of c / 16)) = Some (byte_of c / 16)) as Hx by apply from_hex_digit, byte_div16.
  rewrite <- E in Hx. done.
Qed.

Lemma hex32 d : slen d = 32 -> slen (hex_EncodeToString d) = 64 /\ public (hex_EncodeToString d).
Proof.
  intros E. split.
  - unfold slen in *. rewrite length_hex. lia.
  - apply hex_public. by intros ->.
Qed.

(** Agreement only looks at the objects, the tombstones and the prepared
    commits of a state. *)
Lemma agree_unprepared entries st st' :
  agree entries st -> unprepared st' -> ls_Objects st' = ls_Objects st -> ls_Tombstones st' = ls_Tombstones st ->
  unprepared st -> agree entries st'.
Proof.
  intros [H1 H2 H3 H4] Hu Eo Et Hu0. constructor.
  - intros name cs Hn. destruct (H1 name cs Hn) as [?|(? & [?|[?|(id & r & Hr & Hp & _)]])]; [by left|right; split; [done|]..].
    + rewrite Eo. by left.
    + rewrite Et. by right; left.
    + by destruct (Hu0 id r Hr).
  - intros key o. rewrite Eo. apply H2.
  - intros id r Hr Hp. by destruct (Hu id r Hr).
  - intros id id' r r' Hr _ Hp. by destruct (Hu id r Hr).
Qed.

(** Changes among staging names that are not the staged tree of a prepared
    commit. *)
Lemma agree_staging entries entries' st :
  agree entries st ->
  map_Forall (fun key _ => public key) (ls_Objects st) ->
  (forall id r, ls_Reservations st !! id = Some r -> is_prepared r -> public (r_CommitDigest r)) ->
  (forall name, public name -> entries' !! name = entries !! name) ->
  (forall id r, ls_Reservations st !! id = Some r -> is_prepared r ->
     entries' !! r_TemporaryName r = entries !! r_TemporaryName r) ->
  agree entries' st.
Proof.
  intros [H1 H2 H3 H4] Hpo Hpr Hsame Htemp. constructor; [| | |done].
  - intros name cs Hn. destruct (HasPrefix name ".") eqn:E; [by left|]. rewrite Hsame in Hn by done.
    destruct (H1 name cs Hn) as [?|?]; [congruence|by right].
  - intros key o Ho. destruct (H2 key o Ho) as (cs & d & He & ?). exists cs, d. by rewrite Hsame by by eapply Hpo.
  - intros id r Hr Hp. destruct (H3 id r Hr Hp) as (? & ? & Hst). split; [done|]. split; [done|].
    unfold stored in *. rewrite (Htemp id r Hr Hp), (Hsame _ (Hpr id r Hr Hp)). done.
Qed.
(** ** The invariant of a careful client *)

Local Abbreviation sound := (sound owner agent nobody).

Lemma complete_digest r : acquisition_complete r = true -> ar_Phase r = "commit" -> slen (ar_ContentDigest r) = 32.
Proof.
  unfold acquisition_complete. intros Hc Hp. rewrite Hp in Hc. apply negb_true_iff in Hc. rewrite !orb_false_iff in Hc.
  destruct Hc as [_ Hc]. rewrite bool_decide_eq_true_2, andb_true_l, !orb_false_iff in Hc by done.
  destruct Hc as [[[H _] _] _]. by bprop.
Qed.

Lemma sound_objects_public a st key o : sound a st -> ls_Objects st !! key = Some o -> slen key = 64 /\ public key.
Proof.
  intros [_ Ho] Hk. destruct (Ho key o Hk) as [? -> ? Hc Hp ? ? ? ? ? ? ? ? ?].
  apply hex32, complete_digest; [exact Hc|exact Hp].
Qed.

Lemma sound_prepared a st id r :
  sound a st -> ls_Reservations st !! id = Some r -> is_prepared r ->
  HasPrefix (r_TemporaryName r) ".commit-snapshot-" = true /\
  exists digest, slen digest = 32 /\ r_CommitDigest r = hex_EncodeToString digest.
Proof.
  intros [[Hr _ _] _] Hid Hp. destruct (Hr id r Hid) as (_ & _ & _ & _ & [[_ [E|E]]|(_ & ? & ?)]); [| |done];
    unfold is_prepared in Hp; congruence.
Qed.

Lemma sound_prepared_public a st id r :
  sound a st -> ls_Reservations st !! id = Some r -> is_prepared r -> slen (r_CommitDigest r) = 64 /\ public (r_CommitDigest r).
Proof.
  intros Hs Hid Hp. destruct (sound_prepared _ _ _ _ Hs Hid Hp) as (_ & d & Hd & ->). by apply hex32.
Qed.

Definition header (st : quarantineLedgerState) : Prop := ls_SchemaVersion st = 3 /\ slen (ls_LedgerID st) = 16.

(** What the crash leaves: the staging area of others, and a file that agrees
    with the directory. *)
Record world_ok (w : world) : Prop := {
  wo_foreign name n : foreign name -> w_entries w !! name = Some n -> plausible true n;
  wo_file : match w_file w with
            | FileAbsent => agree (w_entries w) (no_state "" 0 0)
            | FileDoc d => header d /\ agree (w_entries w) d
            | _ => False
            end
}.

(** The file of an open ledger holds no prepared commit; its memory agrees with
    the directory while it is usable. *)
Definition pinned (l : QuarantineLedger) : Prop :=
  ql_root l = root /\ ls_RootDevice (ql_state l) = ql_device l /\ ls_RootInode (ql_state l) = ql_inode l.

Record ledger_ok (l : QuarantineLedger) (w : world) : Prop := {
  lo_pinned : pinned l;
  lo_doc : exists d, w_file w = FileDoc d /\ unprepared d;
  lo_header : header (ql_state l);
  lo_memory : ql_poisoned l = false -> quiet (ql_state l) /\ agree (w_entries w) (ql_state l)
}.

Definition careful_ok (s : sys) : Prop :=
  sys_ok owner agent nobody s /\ world_ok (sy_world s) /\ forall l, sy_ledger s = Some l -> ledger_ok l (sy_world s).

Lemma persist_world e l w w' r :
  persistLocked e l w = (w', r) -> world_ok w -> header (ql_state l) -> agree (w_entries w) (ql_state l) ->
  world_ok w' /\ w_entries w' = w_entries w /\
  (w_file w' = w_file w \/ w_file w' = FileDoc (ql_state l)) /\ (r = Ok tt -> w_file w' = FileDoc (ql_state l)).
Proof.
  intros Hp [Hfo Hf] Hh Ha. apply quar_persist_cases in Hp as (Ee & _ & Hc & Hok). split; [|done]. constructor; rewrite Ee.
  - done.
  - destruct Hc as [->| ->]; [done|]. by split.
Qed.

Lemma doc_unprepared_persist (w w' : world) st :
  (exists d, w_file w = FileDoc d /\ unprepared d) -> unprepared st ->
  (w_file w' = w_file w \/ w_file w' = FileDoc st) -> exists d, w_file w' = FileDoc d /\ unprepared d.
Proof. intros (d & Hd & Hu) Hst [E|E]; rewrite E; eauto. Qed.

Lemma world_ok_authority a w : world_ok w -> world_ok (with_authority a w).
Proof. intros [? ?]. by constructor. Qed.

(** Updates of a state that keep its objects, its tombstones and its identity,
    and that prepare no commit. *)
Definition mild (st st' : quarantineLedgerState) : Prop :=
  ls_Objects st' = ls_Objects st /\ ls_Tombstones st' = ls_Tombstones st /\
  ls_SchemaVersion st' = ls_SchemaVersion st /\ ls_LedgerID st' = ls_LedgerID st /\ unprepared st'.

Lemma mild_ok entries st st' : mild st st' -> unprepared st -> header st -> agree entries st ->
  header st' /\ agree entries st'.
Proof.
  intros (Eo & Et & Ev & El & Hu) Hu0 [Hv Hl] Ha. split.
  - split; congruence.
  - by eapply agree_unprepared.
Qed.

(** A write of a mildly updated memory keeps everything; the ledger may then be
    poisoned. *)
Lemma persist_mild e l st st' w w' r :
  persistLocked e (set_state st' l) w = (w', r) -> world_ok w -> (exists d, w_file w = FileDoc d /\ unprepared d) ->
  header st -> unprepared st -> agree (w_entries w) st -> mild st st' ->
  world_ok w' /\ w_entries w' = w_entries w /\ (exists d, w_file w' = FileDoc d /\ unprepared d) /\
  header st' /\ agree (w_entries w') st'.
Proof.
  intros Hp Hw Hd Hh Hu Ha Hm. destruct (mild_ok _ _ _ Hm Hu Hh Ha) as [Hh' Ha'].
  destruct (persist_world _ _ _ _ _ Hp Hw Hh' Ha') as (Hw' & Ee & Hf & _). split; [done|]. split; [done|].
  split; [eapply doc_unprepared_persist; [done| |exact Hf]; apply Hm|]. split; [done|]. by rewrite Ee.
Qed.

Lemma ledger_ok_poison l w : pinned l -> (exists d, w_file w = FileDoc d /\ unprepared d) -> header (ql_state l) -> ledger_ok (poison l) w.
Proof. intros. by constructor. Qed.

Lemma quiet_drop st id : quiet st -> quiet (with_reservations (delete id (ls_Reservations st)) st).
Proof. apply map_Forall_delete. Qed.

Lemma Reserve_careful e principal source generation l w l' w' r :
  fresh_id e l -> Reserve e principal source generation l w = (l', w', r) ->
  world_ok w -> ledger_ok l w -> world_ok w' /\ ledger_ok l' w'.
Proof.
  intros Hfresh H Hw Hl. unfold Reserve in H.
  destruct (ql_closed l || ql_poisoned l) eqn:Hcp; [by injection H as <- <- <-|]. apply orb_false_iff in Hcp as [_ Hpo].
  destruct Hl as [Hpin Hd Hh Hm]. destruct (Hm Hpo) as [Hq Ha]. pose proof (quiet_unprepared _ Hq) as Hu.
  destruct (requirePinnedRootLocked _ l) as [l1 p] eqn:Hp. apply pinned_cases in Hp as [[-> ->]|[He ->]].
  2: { destruct p; [done|]. injection H as <- <- <-. split; [done|by apply ledger_ok_poison]. }
  destruct (_ || _) in H; [by injection H as <- <- <-|].
  destruct (negb _ && _) in H; [by injection H as <- <- <-|]. set (day := Format_day (oe_now e)) in H.
  set (st1 := with_daily _ (ls_LastRequestDay (ql_state l)) _) in H.
  assert (mild (ql_state l) st1) as M1 by done.
  assert (ledger_ok (set_state st1 l) w) as Hl1 by (constructor; [done|done|done|]; intros _; split; [done|]; by eapply mild_ok).
  destruct (_ <=? _) in H; [by injection H as <- <- <-|].
  destruct (usageLocked _ _ _) as [[[global perPrincipal] perSource] objects].
  destruct (_ || _) in H; [by injection H as <- <- <-|].
  destruct (oe_id e) as [id|m] eqn:Hid; [|by injection H as <- <- <-].
  set (r0 := new_reservation e id principal source generation st1) in H. set (n := default 0 _) in *.
  set (st' := with_daily _ day _) in H.
  assert (unprepared st') as Hu'.
  { intros id' r' Hr'. cbn in Hr'. apply lookup_insert_Some in Hr' as [[_ <-]|[_ Hr']]; [by intros [=]|by eapply Hu]. }
  destruct (persistLocked _ _ w) as [w1 p] eqn:Hp1.
  eapply persist_mild in Hp1 as (Hw1 & Ee1 & Hd1 & Hh1 & Ha1); [|done|done|exact Hh|exact Hu|exact Ha|done].
  destruct p as [[]|m].
  2: { injection H as <- <- <-. split; [done|]. set (st2 := count_requests _ _ _ _).
       assert (ls_Reservations st2 = ls_Reservations (ql_state l)) as Er
         by (cbn; rewrite delete_insert_id; [done|by apply Hfresh]).
       assert (quiet st2) as Hq2 by (unfold quiet; by rewrite Er).
       assert (mild (ql_state l) st2) as M2 by (split_and!; try done; by apply quiet_unprepared).
       constructor; [done|done| |]; [|intros _; split; [done|]; rewrite Ee1]; by eapply mild_ok. }
  destruct (AdmitCapabilityAcquisition _ _ _) as [a res]. apply (world_ok_authority a) in Hw1.
  destruct res as [[]|m]; [|injection H as <- <- <-; split; [done|by apply ledger_ok_poison]].
  set (st2 := with_books _ _ _ st') in H.
  assert (quiet st2) as Hq2.
  { intros id' r' Hr'. cbn in Hr'. rewrite insert_insert_eq in Hr'.
    apply lookup_insert_Some in Hr' as [[_ <-]|[_ Hr']]; [done|by eapply Hq]. }
  assert (mild st' st2) as M2 by (split_and!; try done; by apply quiet_unprepared).
  destruct (persistLocked _ _ (with_authority a w1)) as [w2 p] eqn:Hp2.
  eapply (persist_mild _ (set_state st' l)) in Hp2 as (Hw2 & Ee2 & Hd2 & Hh2 & Ha2);
    [|done|done|exact Hh1|exact Hu'|exact Ha1|done].
  destruct p as [[]|m]; injection H as <- <- <-; (split; [done|]); [by constructor|by apply ledger_ok_poison].
Qed.

Lemma Abort_careful e id l w l' w' r :
  Abort e id l w = (l', w', r) -> world_ok w -> ledger_ok l w -> world_ok w' /\ ledger_ok l' w'.
Proof.
  intros H Hw Hl. unfold Abort in H.
  destruct (ql_closed l || ql_poisoned l) eqn:Hcp; [by injection H as <- <- <-|]. apply orb_false_iff in Hcp as [_ Hpo].
  destruct Hl as [Hpin Hd Hh Hm]. destruct (Hm Hpo) as [Hq Ha]. pose proof (quiet_unprepared _ Hq) as Hu.
  destruct (requirePinnedRootLocked _ l) as [l1 p] eqn:Hp. apply pinned_cases in Hp as [[-> ->]|[He ->]].
  2: { destruct p; [done|]. injection H as <- <- <-. split; [done|by apply ledger_ok_poison]. }
  destruct (_ !! id); [|by injection H as <- <- <-].
  destruct (_ || _) in H; [by injection H as <- <- <-|].
  destruct (persistLocked _ _ w) as [w1 p] eqn:Hp1. injection H as <- <- <-.
  pose proof (quiet_drop _ id Hq) as Hq1.
  eapply persist_mild in Hp1 as (Hw1 & Ee1 & Hd1 & Hh1 & Ha1); [|done|done|exact Hh|exact Hu|exact Ha|].
  - split; [done|]. by constructor.
  - split_and!; try done. by apply quiet_unprepared.
Qed.

Lemma CommitReceipts_careful e l w l' w' r :
  CommitReceipts e l w = (l', w', r) -> world_ok w -> ledger_ok l w -> world_ok w' /\ ledger_ok l' w'.
Proof.
  intros H Hw Hl. unfold CommitReceipts in H.
  destruct (ql_closed l || ql_poisoned l); [by injection H as <- <- <-|]. pose proof Hl as [Hpin Hd Hh Hm].
  destruct (requirePinnedRootLocked _ l) as [l1 p] eqn:Hp. apply pinned_cases in Hp as [[-> ->]|[He ->]].
  - destruct (receipts_of _ _); injection H as <- <- <-; [done|]. split; [done|by apply ledger_ok_poison].
  - destruct p; [done|]. injection H as <- <- <-. split; [done|by apply ledger_ok_poison].
Qed.
(** ** Deletion *)

(** Changes of staging names and of tombstoned trees. *)
Lemma agree_clean entries entries' st :
  agree entries st ->
  (forall name, entries' !! name = entries !! name \/ HasPrefix name "." = true \/
     (slen name = 64 /\ is_Some (ls_Tombstones st !! name) /\ ls_Objects st !! name = None)) ->
  (forall key o, ls_Objects st !! key = Some o -> public key) ->
  (forall id r, ls_Reservations st !! id = Some r -> is_prepared r -> public (r_CommitDigest r) /\
     stored entries (r_CommitDigest r) (r_CommitDigest r) (r_CommitBytes r) (r_CommitFiles r)) ->
  agree entries' st.
Proof.
  intros [H1 H2 H3 H4] Hch Hpo Hpr. constructor; [| | |done].
  - intros name cs Hn. destruct (Hch name) as [E|[E|(? & ? & _)]]; [|by left|right; split; [done|by right; left]].
    rewrite E in Hn. by eapply H1.
  - intros key o Ho. destruct (Hch key) as [E|[E|(_ & _ & E)]].
    + destruct (H2 key o Ho) as (cs & d & He & ?). exists cs, d. by rewrite E.
    + specialize (Hpo key o Ho). unfold public in Hpo. congruence.
    + congruence.
  - intros id r Hr Hp. destruct (H3 id r Hr Hp) as (Ho & Ht & _). destruct (Hpr id r Hr Hp) as [Hpub (cs & d & He & ?)].
    split; [done|]. split; [done|]. right. exists cs, d.
    destruct (Hch (r_CommitDigest r)) as [E|[E|(_ & [x Hx] & _)]]; [by rewrite E| |by rewrite Ht in Hx].
    unfold public in Hpub. congruence.
Qed.

Lemma removeAll_entries outcome name w w' r : removeAll outcome name w = (w', r) ->
  forall other, other <> name -> w_entries w' !! other = w_entries w !! other.
Proof.
  unfold removeAll. intros H other Hne. destruct outcome; injection H as <- <-; cbn;
    [by rewrite lookup_delete_ne|by rewrite lookup_insert_ne].
Qed.

Lemma removeTrees_entries remove digests : forall w w' r, removeTrees remove digests w = (w', r) ->
  forall name, name ∉ digests -> w_entries w' !! name = w_entries w !! name.
Proof.
  induction digests as [|d ds IH]; intros w w' r H name Hn; cbn in H; [by injection H as <- <-|].
  destruct (removeAll _ d w) as [w1 p] eqn:Hr. apply not_elem_of_cons in Hn as [Hne Hn].
  rewrite <- (removeAll_entries _ _ _ _ _ Hr name Hne).
  destruct p; [by eapply IH|]. by injection H as <- <-.
Qed.

Lemma deletable_spec objects digests : forall previous, deletable objects previous digests = Ok tt ->
  forall d, d ∈ digests -> slen d = 64 /\ is_Some (objects !! d).
Proof.
  induction digests as [|x ds IH]; intros previous H d Hd; [by apply not_elem_of_nil in Hd|]. cbn in H.
  destruct (negb (slen x =? 64) || _) eqn:E; [done|]. apply orb_false_iff in E as [E _]. bprop.
  destruct (bool_decide _) eqn:Eo; [|done]. bprop. apply elem_of_cons in Hd as [->|Hd]; [done|]. by eapply IH.
Qed.

Lemma lookup_foldr_delete (objects : gmap string QuarantineObjectRecord) digests name :
  foldr delete objects digests !! name = if decide (name ∈ digests) then None else objects !! name.
Proof.
  induction digests as [|d ds IH]; cbn; [by rewrite decide_False by apply not_elem_of_nil|].
  destruct (decide (name = d)) as [->|Hne].
  - rewrite lookup_delete_eq, decide_True by set_solver. done.
  - rewrite lookup_delete_ne, IH by done. destruct (decide (name ∈ ds)); [rewrite decide_True by set_solver|rewrite decide_False by set_solver]; done.
Qed.

Lemma lookup_foldr_insert (tombstones : gmap string N) g digests name :
  foldr (fun digest => insert digest g) tombstones digests !! name =
  if decide (name ∈ digests) then Some g else tombstones !! name.
Proof.
  induction digests as [|d ds IH]; cbn; [by rewrite decide_False by apply not_elem_of_nil|].
  destruct (decide (name = d)) as [->|Hne].
  - rewrite lookup_insert_eq, decide_True by set_solver. done.
  - rewrite lookup_insert_ne, IH by done. destruct (decide (name ∈ ds)); [rewrite decide_True by set_solver|rewrite decide_False by set_solver]; done.
Qed.

Lemma GarbageCollect_careful e digests expected next l w l' w' r :
  sound (w_authority w) (ql_state l) ->
  GarbageCollect e digests expected next l w = (l', w', r) -> world_ok w -> ledger_ok l w -> world_ok w' /\ ledger_ok l' w'.
Proof.
  intros Hs H Hw Hl. unfold GarbageCollect in H.
  destruct (ql_closed l || ql_poisoned l) eqn:Hcp; [by injection H as <- <- <-|]. apply orb_false_iff in Hcp as [_ Hpo].
  destruct Hl as [Hpin Hd Hh Hm]. destruct (Hm Hpo) as [Hq Ha]. pose proof (quiet_unprepared _ Hq) as Hu.
  destruct (requirePinnedRootLocked _ l) as [l1 p] eqn:Hp. apply pinned_cases in Hp as [[-> ->]|[He ->]].
  2: { destruct p; [done|]. injection H as <- <- <-. split; [done|by apply ledger_ok_poison]. }
  destruct (_ || _) in H; [by injection H as <- <- <-|].
  destruct (deletable _ _ _) as [[]|] eqn:Hdel; [|by injection H as <- <- <-].
  pose proof (deletable_spec _ _ _ Hdel) as Hds. set (st' := with_deleted _ _ _ _) in H.
  assert (forall d, d ∈ digests -> slen d = 64 /\ is_Some (ls_Tombstones st' !! d) /\ ls_Objects st' !! d = None) as Hgone.
  { intros d Hin. split; [by apply Hds|]. cbn. rewrite lookup_foldr_insert, lookup_foldr_delete, !decide_True by done. done. }
  assert (agree (w_entries w) st') as Ha'.
  { destruct Ha as [H1 H2 _ _]. constructor.
    - intros name cs Hn. destruct (H1 name cs Hn) as [?|(? & Hc)]; [by left|right; split; [done|]].
      destruct (decide (name ∈ digests)) as [Hin|Hin]; [right; left; by apply Hgone|].
      cbn. rewrite lookup_foldr_insert, lookup_foldr_delete, !decide_False by done. done.
    - intros key o Ho. cbn in Ho. rewrite lookup_foldr_delete in Ho. destruct (decide _); [done|]. by apply H2.
    - intros id r0 Hr0 Hp0. by destruct (Hu id r0 Hr0).
    - intros id id' r0 r1 Hr0 _ Hp0. by destruct (Hu id r0 Hr0). }
  destruct (persistLocked _ _ w) as [w1 p] eqn:Hp1.
  eapply (persist_world _ (set_state st' l)) in Hp1 as (Hw1 & Ee1 & Hf1 & Hok1); [|done|exact Hh|exact Ha'].
  assert (exists d, w_file w1 = FileDoc d /\ unprepared d) as Hd1 by by apply (doc_unprepared_persist w w1 st').
  destruct p as [[]|]; [|injection H as <- <- <-; split; [done|]; constructor; [done|done|done|]; intros _; split; [done|by rewrite Ee1]].
  specialize (Hok1 eq_refl). destruct (removeTrees _ _ _) as [w2 p] eqn:Hr.
  pose proof (removeTrees_entries _ _ _ _ _ Hr) as Hsame. apply removeTrees_files in Hr as [Ef2 Ea2].
  assert (agree (w_entries w2) st') as Ha2.
  { apply (agree_clean (w_entries w)); [done| | |].
    - intros name. destruct (decide (name ∈ digests)) as [Hin|Hin]; [right; right; by apply Hgone|left].
      by rewrite Hsame, Ee1.
    - intros key o Ho. cbn in Ho. rewrite lookup_foldr_delete in Ho. destruct (decide _); [done|].
      by eapply sound_objects_public in Ho as [_ ?].
    - intros id r0 Hr0 Hp0. by destruct (Hu id r0 Hr0). }
  assert (world_ok w2) as Hw2.
  { constructor; [|rewrite Ef2, Hok1; by split]. intros name n Hn Hin. rewrite Hsame, Ee1 in Hin.
    - by eapply (wo_foreign _ Hw).
    - intros Hdig. destruct (Hds name Hdig) as [_ [o Ho]]. eapply sound_objects_public in Ho as [_ Hpub]; [|done].
      destruct Hn as [Hn _]. unfold public in Hpub. congruence. }
  destruct p; injection H as <- <- <-; (split; [done|]); constructor; try done; rewrite ?Ef2; eauto.
Qed.

(** ** Commits *)

Lemma quar_publish_cases p temp name w w' r : publishStagedQuarantineSnapshot p temp name w = (w', r) ->
  (w' = w /\ is_err r = true) \/
  (exists children, w_entries w !! temp = Some (Dir children) /\ w_entries w !! name = None /\
     w' = with_entries (<[name := Dir children]> (delete temp (w_entries w))) w).
Proof.
  unfold publishStagedQuarantineSnapshot. destruct (_ || _); [intros [= <- <-]; by left|].
  destruct p; destruct (w_entries w !! temp) as [[| cs|]|] eqn:Et; try (intros [= <- <-]; by left);
    destruct (w_entries w !! name) eqn:En; try (intros [= <- <-]; by left); intros [= <- <-]; right; by exists cs.
Qed.

(** The prepared state: one commit under way, whose tree is staged. *)
Record preparing (entries : gmap string node) (st : quarantineLedgerState) (id : string) (r : QuarantineReservation) : Prop := {
  pr_quiet : quiet st;
  pr_agree : agree entries st;
  pr_public : public (r_CommitDigest r);
  pr_length : slen (r_CommitDigest r) = 64;
  pr_temp : HasPrefix (r_TemporaryName r) ".commit-snapshot-" = true;
  pr_prepared : is_prepared r;
  pr_object : ls_Objects st !! r_CommitDigest r = None;
  pr_tombstone : ls_Tombstones st !! r_CommitDigest r = None
}.

Lemma commit_snapshot_dot name : HasPrefix name ".commit-snapshot-" = true -> HasPrefix name "." = true.
Proof.
  unfold HasPrefix. destruct name as [|c name]; [done|]. cbn [String.prefix].
  destruct (ascii_dec "."%char c); [|done]. by destruct name.
Qed.

Lemma agree_prepared entries st id r :
  preparing entries st id r ->
  ((stored entries (r_TemporaryName r) (r_CommitDigest r) (r_CommitBytes r) (r_CommitFiles r) /\
    entries !! r_CommitDigest r = None) \/
   stored entries (r_CommitDigest r) (r_CommitDigest r) (r_CommitBytes r) (r_CommitFiles r)) ->
  agree entries (with_reservations (<[id := r]> (ls_Reservations st)) st).
Proof.
  intros [Hq [H1 H2 _ _] Hpub Hlen Htemp Hp Ho Ht] Hst.
  assert (forall id' r', <[id:=r]> (ls_Reservations st) !! id' = Some r' -> is_prepared r' -> id' = id /\ r' = r) as Hone.
  { intros id' r' [[-> ->]|[_ Hr']]%lookup_insert_Some Hp'; [done|]. by destruct (quiet_unprepared _ Hq id' r' Hr'). }
  constructor; cbn.
  - intros name cs Hn. destruct (H1 name cs Hn) as [?|(? & [?|[?|(id' & r' & Hr' & Hp' & _)]])]; [by left|right; split; [done|]..].
    + by left.
    + by right; left.
    + by destruct (quiet_unprepared _ Hq id' r' Hr').
  - done.
  - intros id' r' Hr' Hp'. by destruct (Hone id' r' Hr' Hp') as [_ ->].
  - intros id1 id2 r1 r2 Hr1 Hr2 Hp1 Hp2. destruct (Hone _ _ Hr1 Hp1) as [-> _]. by destruct (Hone _ _ Hr2 Hp2) as [-> _].
Qed.

(** Publishing moves the staged tree under its digest. *)
Lemma agree_published entries st id r children :
  agree entries st -> ls_Reservations st !! id = Some r -> is_prepared r ->
  (forall key o, ls_Objects st !! key = Some o -> public key) ->
  public (r_CommitDigest r) -> slen (r_CommitDigest r) = 64 -> HasPrefix (r_TemporaryName r) ".commit-snapshot-" = true ->
  entries !! r_TemporaryName r = Some (Dir children) -> entries !! r_CommitDigest r = None ->
  let entries' := <[r_CommitDigest r := Dir children]> (delete (r_TemporaryName r) entries) in
  stored entries' (r_CommitDigest r) (r_CommitDigest r) (r_CommitBytes r) (r_CommitFiles r) /\ agree entries' st.
Proof.
  intros [H1 H2 H3 H4] Hr Hp Hpo Hpub Hlen Htemp Ht Hk entries'.
  destruct (H3 id r Hr Hp) as (Ho & Htb & [[(cs & d & Hcs & Hh & Hx & Hu) _]|(cs & d & Hcs & _)]); [|congruence].
  rewrite Ht in Hcs. injection Hcs as <-.
  assert (r_TemporaryName r <> r_CommitDigest r) as Hne.
  { intros E. rewrite E in Htemp. apply commit_snapshot_dot in Htemp. unfold public in Hpub. congruence. }
  assert (stored entries' (r_CommitDigest r) (r_CommitDigest r) (r_CommitBytes r) (r_CommitFiles r)) as Hst
    by (exists children, d; unfold entries'; by rewrite lookup_insert_eq).
  split; [done|].
  assert (forall name, public name -> name <> r_CommitDigest r -> entries' !! name = entries !! name) as Hsame.
  { intros name Hn Hne'. unfold entries'. rewrite lookup_insert_ne, lookup_delete_ne; [done| |done].
    intros E. rewrite E in Htemp. apply commit_snapshot_dot in Htemp. unfold public in Hn. congruence. }
  constructor; [| | |done].
  - intros name cs Hn. destruct (decide (name = r_CommitDigest r)) as [->|Hne'].
    + right. split; [done|]. right; right. by exists id, r.
    + destruct (HasPrefix name ".") eqn:E; [by left|]. rewrite Hsame in Hn by done.
      destruct (H1 name cs Hn) as [?|?]; [congruence|by right].
  - intros key o Hkey. assert (key <> r_CommitDigest r) as Hne' by congruence.
    destruct (H2 key o Hkey) as (cs & d' & He & ?). exists cs, d'. by rewrite Hsame by (done || by eapply Hpo).
  - intros id' r' Hr' Hp'. assert (id' = id) as -> by by eapply H4. rewrite Hr in Hr'. injection Hr' as <-. by auto.
Qed.

(** The published tree becomes an object. *)
Lemma agree_retained entries st id r o revision :
  agree entries st -> ls_Reservations st !! id = Some r -> is_prepared r ->
  stored entries (r_CommitDigest r) (r_CommitDigest r) (r_CommitBytes r) (r_CommitFiles r) ->
  q_Bytes o = r_CommitBytes r -> q_Files o = r_CommitFiles r ->
  let st' := with_books (delete id (ls_Reservations st)) (<[r_CommitDigest r := o]> (ls_Objects st)) revision st in
  unprepared st' /\ agree entries st'.
Proof.
  intros [H1 H2 _ H4] Hr Hp Hst Eb Ef st'.
  assert (unprepared st') as Hu.
  { intros id' r' Hr' Hp'. change (delete id (ls_Reservations st) !! id' = Some r') in Hr'. apply lookup_delete_Some in Hr' as [Hne Hr']. apply Hne. by eapply H4. }
  split; [done|]. constructor; cbn.
  - intros name cs Hn. destruct (H1 name cs Hn) as [?|(? & Hc)]; [by left|right; split; [done|]].
    destruct (decide (name = r_CommitDigest r)) as [->|Hne]; [left; by rewrite lookup_insert_eq|].
    rewrite lookup_insert_ne by done. destruct Hc as [?|[?|(id' & r' & Hr' & Hp' & E)]]; [by left|by right; left|].
    assert (id' = id) as -> by by eapply H4. rewrite Hr in Hr'. injection Hr' as <-. congruence.
  - intros key o' Hkey. apply lookup_insert_Some in Hkey as [[<- <-]|[_ Hkey]]; [by rewrite Eb, Ef|by apply H2].
  - intros id' r' Hr' Hp'. by destruct (Hu id' r' Hr').
  - intros id1 id2 r1 r2 Hr1 _ Hp1. by destruct (Hu id1 r1 Hr1).
Qed.
Lemma unprepared_agree_staging entries entries' st a :
  sound a st -> unprepared st -> agree entries st ->
  (forall name, public name -> entries' !! name = entries !! name) -> agree entries' st.
Proof.
  intros Hs Hu Ha Hsame. eapply agree_staging; [exact Ha| | |done|].
  - intros key o Ho. by eapply sound_objects_public in Ho as [_ ?].
  - intros id r Hr Hp. by destruct (Hu id r Hr).
  - intros id r Hr Hp. by destruct (Hu id r Hr).
Qed.

Lemma stored_differs fails w key b f :
  differs fails w key b f = false -> forall children, w_entries w !! key = Some (Dir children) ->
  stored (w_entries w) key key b f.
Proof.
  unfold differs, read_tree, read_usage. destruct fails; [done|]. intros H children E. rewrite E in H.
  destruct (HashTree (Some (Dir children))) as [d|] eqn:Eh; [|done].
  destruct (boundedTreeUsage (Some (Dir children))) as [[b' f']|] eqn:Eu; [|done].
  rewrite !orb_false_iff in H. destruct H as [[H1 H2] H3]. bprop. subst. by exists children, d.
Qed.

(** The commit after the capture: whatever fails, the crash leaves a file that
    agrees with the directory. *)
Lemma prepareAndCommit_careful e reservation temp key b f l w l' w' r :
  sound (w_authority w) (ql_state l) ->
  ls_Reservations (ql_state l) !! r_ID reservation = Some reservation ->
  preparing (w_entries w) (ql_state l) (r_ID reservation)
    (prepared reservation key b f temp (ls_LedgerRevision (ql_state l))) ->
  stored (w_entries w) temp key b f -> w_entries w !! key = None -> header (ql_state l) -> pinned l -> ql_poisoned l = false ->
  (exists d, w_file w = FileDoc d /\ unprepared d) ->
  prepareAndCommitLocked e reservation temp key b f false l w = (l', w', r) -> world_ok w ->
  world_ok w' /\ (forall name, foreign name -> w_entries w' !! name = w_entries w !! name) /\
  (is_err r = false -> ledger_ok l' w' /\ ql_poisoned l' = false /\ w_file w' = FileDoc (ql_state l')).
Proof.
  intros Hs Hid Hpr Hst Hkey Hh Hpin Hpo Hd H Hw. unfold prepareAndCommitLocked in H.
  set (r1 := prepared reservation key b f temp _) in *. set (st1 := with_reservations _ (ql_state l)) in H.
  assert (agree (w_entries w) st1) as Ha1 by (apply agree_prepared; [done|left; by split]).
  destruct (persistLocked _ _ w) as [w1 p] eqn:Hp1.
  eapply (persist_world _ (set_state st1 l)) in Hp1 as (Hw1 & Ee1 & Hf1 & Hok1); [|done|exact Hh|exact Ha1].
  destruct p as [[]|]; [|injection H as <- <- <-; split; [done|]; split; [by rewrite Ee1|done]].
  specialize (Hok1 eq_refl). cbn in Hok1.
  destruct (requirePinnedRootLocked _ _) as [l2 p] eqn:Hp. apply pinned_cases in Hp as [[-> ->]|[He ->]].
  2: { destruct p; [done|]. injection H as <- <- <-. split; [done|]. split; [by rewrite Ee1|done]. }
  destruct (AdmitCapabilityAcquisition _ _ _) as [a2 res].
  destruct res as [[]|]; [|injection H as <- <- <-; split; [by apply world_ok_authority|]; split; [by cbn; rewrite Ee1|done]].
  destruct (publishStagedQuarantineSnapshot _ _ _ _) as [w2 p2] eqn:Hpub.
  apply quar_publish_cases in Hpub as [[-> Herr]|(children & Ht & Hk & ->)].
  { destruct p2; [done|]. injection H as <- <- <-. split; [by apply world_ok_authority|]. split; [by cbn; rewrite Ee1|done]. }
  cbn in Ht, Hk. rewrite Ee1 in Ht, Hk.
  pose proof (fun k o Ho => proj2 (sound_objects_public _ _ k o Hs Ho)) as Hpubs.
  assert (ls_Reservations st1 !! r_ID reservation = Some r1) as Hid1 by apply lookup_insert_eq.
  destruct (agree_published _ st1 _ r1 children Ha1 Hid1 eq_refl Hpubs (pr_public _ _ _ _ Hpr) (pr_length _ _ _ _ Hpr)
              (pr_temp _ _ _ _ Hpr) Ht Hk) as [Hst2 Ha2].
  set (entries2 := <[key := Dir children]> (delete temp (w_entries w))) in *.
  change (stored entries2 key key b f) in Hst2. change (agree entries2 st1) in Ha2. set (w2 := with_entries _ (with_authority a2 w1)) in H.
  assert (w_entries w2 = entries2) as Ee2 by (unfold w2; cbn; by rewrite Ee1).
  assert (forall name, foreign name -> entries2 !! name = w_entries w !! name) as Hfor.
  { intros name [Hn1 Hn2]. unfold entries2. rewrite lookup_insert_ne, lookup_delete_ne; [done| |].
    - intros E. pose proof (pr_temp _ _ _ _ Hpr : HasPrefix temp ".commit-snapshot-" = true) as Htemp. rewrite E in Htemp. congruence.
    - intros E. pose proof (pr_public _ _ _ _ Hpr : HasPrefix key "." = false) as Hpb. rewrite E in Hpb. congruence. }
  assert (world_ok w2) as Hw2.
  { constructor; rewrite Ee2.
    - intros name n Hn Hin. rewrite Hfor in Hin by done. by eapply (wo_foreign _ Hw).
    - change (w_file w2) with (w_file w1). rewrite Hok1. by split. }
  destruct p2 as [[]|]; [|injection H as <- <- <-; split; [done|]; split; [by rewrite Ee2|done]].
  destruct (differs _ w2 key b f) eqn:Hdiff; [injection H as <- <- <-; split; [done|]; split; [by rewrite Ee2|done]|].
  set (o := retained e _ r1) in H. set (st2 := with_books _ _ _ _) in H.
  destruct (agree_retained entries2 st1 _ r1 o (r_NextRevision r1) Ha2 Hid1 eq_refl Hst2 eq_refl eq_refl) as [_ Ha3].
  change (agree entries2 st2) in Ha3. rewrite <- Ee2 in Ha3.
  assert (quiet st2) as Hq3.
  { intros id' r' Hr'. change (delete (r_ID r1) (ls_Reservations st1) !! id' = Some r') in Hr'. apply lookup_delete_Some in Hr' as [Hne Hr']. cbn in Hr'. rewrite lookup_insert_ne in Hr' by done.
    exact (pr_quiet _ _ _ _ Hpr id' r' Hr'). }
  destruct (persistLocked _ _ w2) as [w3 p] eqn:Hp3.
  eapply (persist_world _ (set_state st2 (set_state st1 l))) in Hp3 as (Hw3 & Ee3 & Hf3 & Hok3);
    [|done|exact Hh|exact Ha3].
  destruct p as [[]|]; [|injection H as <- <- <-; split; [done|]; split; [by rewrite Ee3, Ee2|done]].
  specialize (Hok3 eq_refl). cbn in Hok3. injection H as <- <- <-. split; [done|]. split; [by rewrite Ee3, Ee2|].
  intros _. split; [|done]. constructor; [exact Hpin| |exact Hh|].
  - exists st2. split; [done|by apply quiet_unprepared].
  - intros _. split; [exact Hq3|]. change (agree (w_entries w3) st2). by rewrite Ee3.
Qed.

(** A change of the staging area of others. *)
Lemma foreign_change w w' :
  world_ok w -> w_file w' = w_file w ->
  (forall name, ~ foreign name -> w_entries w' !! name = w_entries w !! name) ->
  (forall name n, foreign name -> w_entries w' !! name = Some n -> plausible true n) ->
  (forall d, w_file w = FileDoc d -> sound (w_authority w) d) -> world_ok w'.
Proof.
  intros [Hfo Hf] Ef Hsame Hpl Hs. constructor; [done|]. rewrite Ef.
  assert (forall name, public name -> w_entries w' !! name = w_entries w !! name) as Hpub.
  { intros name Hn. apply Hsame. intros [Hd _]. unfold public in Hn. congruence. }
  destruct (w_file w) as [| | |d]; try done.
  - destruct Hf as [H1 _ _ _]. constructor; cbn.
    + intros name cs Hn. destruct (HasPrefix name ".") eqn:E; [by left|]. rewrite Hpub in Hn by done.
      destruct (H1 name cs Hn) as [E'|?]; [congruence|by right].
    + by intros key o Ho%lookup_empty_Some.
    + by intros id r Hr%lookup_empty_Some.
    + by intros id id' r r' Hr%lookup_empty_Some.
  - destruct Hf as [Hh Ha]. split; [done|]. specialize (Hs d eq_refl).
    eapply agree_staging; [exact Ha| | |done|].
    + intros key o Ho. by eapply sound_objects_public in Ho as [_ ?].
    + intros id r Hr Hp. by eapply sound_prepared_public in Hr as [_ ?].
    + intros id r Hr Hp. apply Hsame. intros [_ Hn].
      destruct (sound_prepared _ _ _ _ Hs Hr Hp) as [Ht _]. congruence.
Qed.

Lemma foreign_ledger l w w' :
  ledger_ok l w -> sound (w_authority w) (ql_state l) -> w_file w' = w_file w ->
  (forall name, public name -> w_entries w' !! name = w_entries w !! name) -> ledger_ok l w'.
Proof.
  intros [Hpin Hd Hh Hm] Hs Ef Hsame. constructor; [done|by rewrite Ef|done|]. intros Hp. destruct (Hm Hp) as [Hq Ha].
  split; [done|]. eapply unprepared_agree_staging; [exact Hs|by apply quiet_unprepared|exact Ha|done].
Qed.

Lemma foreign_public name : foreign name -> ~ public name.
Proof. intros [H _] Hp. unfold public in Hp. congruence. Qed.

(** A call of [removeAll] on a staging name of others. *)
Lemma removeAll_foreign outcome name w w' r :
  removeAll outcome name w = (w', r) -> foreign name -> (forall n, outcome = RemoveFailed n -> plausible true n) ->
  world_ok w -> (forall d, w_file w = FileDoc d -> sound (w_authority w) d) ->
  world_ok w' /\ w_file w' = w_file w /\ (forall other, public other -> w_entries w' !! other = w_entries w !! other).
Proof.
  intros H Hn Hpl Hw Hs. pose proof (removeAll_entries _ _ _ _ _ H) as He. pose proof (removeAll_files _ _ _ _ _ H) as [Ef _].
  assert (forall other, public other -> w_entries w' !! other = w_entries w !! other) as Hpub.
  { intros other Ho. apply He. intros ->. by eapply foreign_public. }
  split; [|done]. eapply foreign_change; [done|done| |  |done].
  - intros other Ho. apply He. by intros ->.
  - intros other n Ho Hin. destruct (decide (other = name)) as [->|Hne].
    + unfold removeAll in H. destruct outcome; injection H as <- <-; cbn in Hin.
      * by rewrite lookup_delete_eq in Hin.
      * rewrite lookup_insert_eq in Hin. injection Hin as <-. by apply Hpl.
    + rewrite He in Hin by done. by eapply (wo_foreign _ Hw).
Qed.

Lemma Commit_careful e id path digest l w l' w' r :
  own_remains e -> plausible_remains true (oe_remove e) -> HasPrefix (Base_of (Abs (oe_cwd e) path)) ".commit-snapshot-" = false ->
  ours owner agent nobody l w -> Commit e id path digest l w = (l', w', r) -> world_ok w -> ledger_ok l w ->
  world_ok w' /\ (is_err r = false -> ledger_ok l' w').
Proof.
  intros Hown Hpl Hbase Hours H Hw Hl. pose proof Hours as [[Hs [Hsd _]] _]. unfold Commit in H.
  destruct (ql_closed l || ql_poisoned l) eqn:Hcp; [by injection H as <- <- <-|]. apply orb_false_iff in Hcp as [_ Hpo].
  pose proof Hl as [Hpin Hd Hh Hm]. destruct (Hm Hpo) as [Hq Ha]. pose proof (quiet_unprepared _ Hq) as Hu.
  destruct (requirePinnedRootLocked _ l) as [l1 p] eqn:Hp. apply pinned_cases in Hp as [[-> ->]|[He ->]].
  2: { destruct p; [done|]. by injection H as <- <- <-. }
  destruct (_ !! id) as [r0|] eqn:Hid; [|by injection H as <- <- <-].
  destruct (bk_reservations _ _ (proj1 Hs) _ _ Hid) as (Eid & _).
  destruct (_ || _) eqn:Hexp in H; [by injection H as <- <- <-|]. apply orb_false_iff in Hexp as [_ Hlen]. bprop.
  destruct (directTemporaryName _ l path) as [temp0|] eqn:Htemp0; [|by injection H as <- <- <-].
  assert (foreign temp0) as Hforeign.
  { unfold directTemporaryName in Htemp0. destruct (_ || _) eqn:Et in Htemp0; [done|]. injection Htemp0 as <-.
    apply orb_false_iff in Et as [_ Et]. bprop. by split. }
  destruct (if oe_read_fails e then _ else _) as [s|] eqn:Hcap; [|by injection H as <- <- <-].
  destruct (hashQuarantineSnapshot s) as [want|] eqn:Hhash; [|by injection H as <- <- <-].
  destruct (negb (bool_decide (want = digest))) eqn:Hwant; [by injection H as <- <- <-|]. bprop. subst want.
  destruct (_ || _) eqn:Hb in H; [by injection H as <- <- <-|]. apply orb_false_iff in Hb as [Hb _]. bprop.
  set (key := hex_EncodeToString digest) in *.
  destruct (hex32 digest) as [Hk64 Hkpub]; [done|]. fold key in Hk64, Hkpub.
  destruct (bool_decide (is_Some (ls_Tombstones _ !! key))) eqn:Htomb; [by injection H as <- <- <-|].
  destruct (ls_Objects (ql_state l) !! key) as [prior|] eqn:Hobj.
  - destruct (read_tree _ _ _) as [d|]; [|by injection H as <- <- <-].
    destruct (negb _) in H; [by injection H as <- <- <-|].
    destruct (_ || _) in H; [by injection H as <- <- <-|]. set (st1 := with_reservations _ _) in H.
    pose proof (quiet_drop _ (r_ID r0) Hq) as Hq1. change (quiet st1) in Hq1.
    assert (mild (ql_state l) st1) as Hmild by (split_and!; try done; by apply quiet_unprepared).
    destruct (persistLocked _ _ w) as [w1 p] eqn:Hp1. pose proof Hp1 as Hp1'.
    apply (ours_persist owner agent nobody) in Hp1' as [[[Hs1 [Hsd1 _]] _] _]; [|apply ours_state; [done|by apply sound_drop]].
    eapply persist_mild in Hp1 as (Hw1 & Ee1 & Hd1 & Hh1 & Ha1); [|done|done|exact Hh|exact Hu|exact Ha|exact Hmild].
    destruct p; [|by injection H as <- <- <-].
    destruct (removeAll _ _ _) as [w2 p] eqn:Hr. eapply removeAll_foreign in Hr as (Hw2 & Ef2 & Hpub2); try done; [|by apply Hpl].
    destruct p; injection H as <- <- <-; (split; [done|]); [|done]. intros _.
    eapply (foreign_ledger _ w1); [|exact Hs1|done|done]. by constructor.
  - destruct (oe_stat_fails e); [by injection H as <- <- <-|].
    destruct (bool_decide (is_Some (w_entries w !! key))) eqn:Hfree; [by injection H as <- <- <-|]. bprop.
    apply eq_None_not_Some in Hfree. apply eq_None_not_Some in Htomb.
    destruct (stageQuarantineSnapshot _ _ _) as [w1 p] eqn:Hst. pose proof (stage_files _ _ _ _ _ Hst) as (E1 & E2 & Hpre).
    assert (forall name, HasPrefix name ".commit-snapshot-" = false -> w_entries w1 !! name = w_entries w !! name) as Hsame.
    { intros name Hn. unfold stageQuarantineSnapshot in Hst. destruct (oe_staging e) as [random|[[nm tree]|]] eqn:Est.
      - destruct (w_entries w !! (_ +:+ _)); [by injection Hst as <- <-|]. destruct (stage_tree s); injection Hst as <- <-; [|done].
        cbn. rewrite lookup_insert_ne; [done|]. intros <-. by rewrite HasPrefix_app in Hn.
      - injection Hst as <- <-. cbn. rewrite lookup_insert_ne; [done|]. intros <-. rewrite (Hown _ _ Est) in Hn. done.
      - by injection Hst as <- <-. }
    assert (forall name, public name -> w_entries w1 !! name = w_entries w !! name) as Hpubs.
    { intros name Hn. apply Hsame, not_true_iff_false. intros Hc%commit_snapshot_dot. unfold public in Hn. congruence. }
    assert (forall d, w_file w = FileDoc d -> unprepared d) as Hdu.
    { destruct Hd as (d0 & Hd0 & Hu0). intros d Hd1. rewrite Hd0 in Hd1. by injection Hd1 as <-. }
    assert (world_ok w1) as Hw1.
    { constructor.
      - intros name n Hn Hin. rewrite Hsame in Hin by apply Hn. by eapply (wo_foreign _ Hw).
      - rewrite E1. pose proof (wo_file _ Hw) as Hf. destruct Hd as (d & Ed & Hud). rewrite Ed in Hf |- *.
        destruct Hf as [Hhd Had]. split; [done|]. eapply unprepared_agree_staging; [by apply Hsd|done|exact Had|done]. }
    destruct p as [temp|]; [|by injection H as <- <- <-].
    assert (agree (w_entries w1) (ql_state l)) as Ha1 by by eapply unprepared_agree_staging.
    assert (stored (w_entries w1) temp key (qs_Bytes s) (qs_Files s)) as Hstored.
    { destruct (oe_read_fails e); [done|]. unfold stageQuarantineSnapshot in Hst. destruct (oe_staging e) as [random|[[? ?]|]]; [|done|done].
      destruct (w_entries w !! (_ +:+ _)); [done|]. destruct (w_entries w !! temp0) as [[|cs|]|] eqn:Hcand; try done.
      destruct (wo_foreign _ Hw _ _ Hforeign Hcand) as [Htok Hdots].
      destruct (staged_snapshot cs s Htok Hcap) as (Hstage & Husage & Hht). rewrite Hstage in Hst. injection Hst as <- <-.
      exists (norm_children cs), digest. cbn. rewrite lookup_insert_eq. split; [done|]. split; [|done].
      rewrite Hht by by apply Hdots. done. }
    destruct (prepareAndCommitLocked _ _ _ _ _ _ _ _ _) as [[l2 w2] c] eqn:Hc.
    pose proof Hc as Hc'. eapply (prepareAndCommit_careful _ r0) in Hc' as (Hw2 & Hfor2 & Hl2).
    2: { by rewrite E2. } 2: { by rewrite Eid. }
    2: { constructor; try done. by apply Hpre. }
    2: { done. } 2: { by rewrite Hpubs. } 2: { done. } 2: { done. } 2: { done. } 2: { by rewrite E1. } 2: { done. }
    eapply (prepareAndCommit_ours owner agent nobody _ r0 _ _ digest) in Hc as [[[Hs2 [Hsd2 _]] _] _];
      [|by eapply ours_files|by rewrite Eid|exact Hb|by apply Hpre|done|done].
    destruct c; [|by injection H as <- <- <-].
    destruct (removeAll _ _ w2) as [w3 p] eqn:Hr. injection H as <- <- <-. cbn.
    eapply removeAll_foreign in Hr as (Hw3 & Ef3 & Hpub3); try done; [|by apply Hpl].
    split; [done|]. intros _. eapply (foreign_ledger _ w2); [by apply Hl2|exact Hs2|done|done].
Qed.
(** ** Reopening *)

(** The state the reconciliation starts from: the file's, or a new one. *)
Definition loaded (w : world) (st0 : quarantineLedgerState) : Prop :=
  w_file w = FileDoc st0 \/ (w_file w = FileAbsent /\ exists id device inode, st0 = no_state id device inode).

Definition request_of (st0 : quarantineLedgerState) (r : QuarantineReservation) (phase : string) : CapabilityAcquisitionRequest :=
  acquisitionRequest (opened root owner agent 0 0 st0) r phase.

Lemma agree_reservations entries st st' :
  agree entries st -> ls_Objects st' = ls_Objects st -> ls_Tombstones st' = ls_Tombstones st ->
  (forall id r, is_prepared r -> ls_Reservations st' !! id = Some r <-> ls_Reservations st !! id = Some r) ->
  agree entries st'.
Proof.
  intros [H1 H2 H3 H4] Eo Et Hr. constructor; rewrite ?Eo, ?Et.
  - intros name cs Hn. destruct (H1 name cs Hn) as [?|(? & [?|[?|(id & r & Hid & Hp & ?)]])]; [by left|right; split; [done|]..];
      [by left|by right; left|]. right; right. exists id, r. by rewrite Hr.
  - done.
  - intros id r Hid Hp. apply Hr in Hid; [|done]. by eapply H3.
  - intros id id' r r' Hid Hid' Hp Hp'. apply Hr in Hid; [|done]. apply Hr in Hid'; [|done]. by eapply H4.
Qed.

Record reconciling (st0 : quarantineLedgerState) (l : QuarantineLedger) (w : world) : Prop := {
  rg_ours : ours owner agent nobody l w;
  rg_pinned : pinned l;
  rg_sound : sound (w_authority w) st0;
  rg_file : loaded w st0;
  rg_header : header st0;
  rg_foreign name n : foreign name -> w_entries w !! name = Some n -> plausible true n;
  rg_agree0 : agree (w_entries w) st0;
  rg_agree : agree (w_entries w) (ql_state l);
  rg_tombstones : ls_Tombstones (ql_state l) = ls_Tombstones st0;
  rg_objects : ls_Objects st0 ⊆ ls_Objects (ql_state l);
  rg_version : ls_SchemaVersion (ql_state l) = ls_SchemaVersion st0;
  rg_ledger : ls_LedgerID (ql_state l) = ls_LedgerID st0;
  rg_left id r : ls_Reservations (ql_state l) !! id = Some r -> r_AuthorityPhase r <> "reserved" ->
    ls_Reservations st0 !! id = Some r;
  rg_link id r : ls_Reservations st0 !! id = Some r -> is_prepared r ->
    ls_Reservations (ql_state l) !! id = Some r \/
    exists o, ls_Objects (ql_state l) !! r_CommitDigest r = Some o /\ q_Bytes o = r_CommitBytes r /\
      q_Files o = r_CommitFiles r /\ q_CommitTransition o = request_of st0 r "commit"
}.

Lemma reconciling_request st0 l w r phase : reconciling st0 l w -> acquisitionRequest l r phase = request_of st0 r phase.
Proof.
  intros H. unfold request_of, acquisitionRequest. cbn. rewrite (rg_ledger _ _ _ H).
  destruct (rg_ours _ _ _ H) as (_ & -> & ->). done.
Qed.

Lemma reconciling_authority st0 l w d q a res :
  reconciling st0 l w -> AdmitCapabilityAcquisition d q (w_authority w) = (a, res) ->
  reconciling st0 l (with_authority a w).
Proof.
  intros [] Ha. constructor; try done.
  - by eapply ours_admit.
  - eapply sound_grows; [by eapply admit_grows|done].
Qed.

(** A change of the reservations that touches no prepared commit. *)
Lemma reconciling_reservations st0 l w st' :
  reconciling st0 l w -> sound (w_authority w) st' ->
  ls_Objects st' = ls_Objects (ql_state l) -> ls_Tombstones st' = ls_Tombstones (ql_state l) ->
  ls_SchemaVersion st' = ls_SchemaVersion (ql_state l) -> ls_LedgerID st' = ls_LedgerID (ql_state l) ->
  ls_RootDevice st' = ls_RootDevice (ql_state l) -> ls_RootInode st' = ls_RootInode (ql_state l) ->
  (forall id r, is_prepared r -> ls_Reservations st' !! id = Some r <-> ls_Reservations (ql_state l) !! id = Some r) ->
  (forall id r, ls_Reservations st' !! id = Some r -> r_AuthorityPhase r <> "reserved" ->
     ls_Reservations (ql_state l) !! id = Some r) ->
  reconciling st0 (set_state st' l) w.
Proof.
  intros [Ho Hpin Hs Hf Hh Hfo Ha0 Ha Ht Hob Hv Hl Hle Hli] Hs' Eo Et Ev El Ed Ei Hp Hleft.
  constructor; cbn; rewrite ?Eo, ?Et, ?Ev, ?El; try done.
  - by apply ours_state.
  - unfold pinned. cbn. by rewrite Ed, Ei.
  - by eapply agree_reservations.
  - intros id r Hid Hph. apply Hle; [by apply Hleft|done].
  - intros id r Hid Hpr. destruct (Hli id r Hid Hpr) as [?|?]; [left; by apply Hp|by right].
Qed.

Lemma reconciling_expire e st0 id r l w :
  reconciling st0 l w -> ls_Reservations (ql_state l) !! id = Some r -> ~ is_prepared r ->
  reconciling st0 (expire e id r l) w.
Proof.
  intros H Hid Hp. unfold expire. destruct (_ <=? _); [|done].
  apply reconciling_reservations; try done.
  - apply sound_drop. exact (proj1 (proj1 (rg_ours _ _ _ H))).
  - intros id' r' Hp'. cbn. rewrite lookup_delete_Some. split; [by intros [_ ?]|]. intros Hr'. split; [|done].
    intros <-. congruence.
  - intros id' r' Hr' _. cbn in Hr'. by apply lookup_delete_Some in Hr' as [_ ?].
Qed.

Lemma expire_reservations e id r l :
  (forall r', ls_Reservations (ql_state (expire e id r l)) !! id = Some r' -> ls_Reservations (ql_state l) !! id = Some r') /\
  (forall id', id' <> id -> ls_Reservations (ql_state (expire e id r l)) !! id' = ls_Reservations (ql_state l) !! id').
Proof.
  unfold expire. destruct (_ <=? _); [|done]. cbn. split.
  - intros r' Hr'. by apply lookup_delete_Some in Hr' as [_ ?].
  - intros id' Hne. by rewrite lookup_delete_ne.
Qed.

Lemma loaded_file w w' st0 : w_file w' = w_file w -> loaded w st0 -> loaded w' st0.
Proof. unfold loaded. by intros ->. Qed.

(** One prepared commit is published and becomes an object. *)
Lemma reconciling_publish e st0 l w id r p w' :
  reconciling st0 l w -> ls_Reservations (ql_state l) !! id = Some r -> is_prepared r ->
  match w_entries w !! r_CommitDigest r with
  | Some _ => (w, Ok tt)
  | None => publishStagedQuarantineSnapshot (oo_publication e (r_CommitDigest r)) (r_TemporaryName r) (r_CommitDigest r) w
  end = (w', p) ->
  reconciling st0 l w' /\ w_authority w' = w_authority w /\ (p = Ok tt ->
    stored (w_entries w') (r_CommitDigest r) (r_CommitDigest r) (r_CommitBytes r) (r_CommitFiles r)).
Proof.
  intros H Hid Hp Hpub. pose proof H as [Ho Hpin Hs Hf Hh Hfo Ha0 Ha Ht Hob Hv Hl Hle Hli].
  pose proof (proj1 (proj1 Ho)) as Hsl.
  destruct (sound_prepared_public _ _ _ _ Hsl Hid Hp) as [Hlen Hpb].
  destruct (sound_prepared _ _ _ _ Hsl Hid Hp) as [Htemp _].
  destruct (w_entries w !! r_CommitDigest r) as [n|] eqn:Ek.
  - injection Hpub as <- <-. split; [done|]. split; [done|]. intros _.
    destruct (ag_prepared _ _ Ha id r Hid Hp) as (_ & _ & [[_ ?]|?]); [congruence|done].
  - pose proof Hpub as Hpub'. apply publish_files in Hpub' as [Ef Eau].
    apply quar_publish_cases in Hpub as [[-> Herr]|(cs & Etmp & _ & ->)]; [split; [done|]; split; [done|]; by intros ->|].
    assert (ls_Reservations st0 !! id = Some r) as Hid0.
    { apply Hle; [done|]. unfold is_prepared in Hp. congruence. }
    pose proof (fun k o Hk => proj2 (sound_objects_public _ _ k o Hsl Hk)) as Hpo.
    pose proof (fun k o Hk => proj2 (sound_objects_public _ _ k o Hs Hk)) as Hpo0.
    destruct (agree_published _ _ id r cs Ha Hid Hp Hpo Hpb Hlen Htemp Etmp Ek) as [Hst Ha'].
    destruct (agree_published _ _ id r cs Ha0 Hid0 Hp Hpo0 Hpb Hlen Htemp Etmp Ek) as [_ Ha0'].
    split; [|done]. constructor; try done.
    intros name n Hn Hin. cbn in Hin.
    assert (name <> r_CommitDigest r) as Hne1 by (intros ->; by eapply foreign_public).
    assert (name <> r_TemporaryName r) as Hne2 by (intros ->; destruct Hn as [_ Hn]; congruence).
    rewrite lookup_insert_ne, lookup_delete_ne in Hin by done. by eapply Hfo.
Qed.

Lemma reconciling_recover e st0 l w id r l' w' res :
  reconciling st0 l w -> ls_Reservations (ql_state l) !! id = Some r -> is_prepared r ->
  recoverCommitLocked e id r l w = (l', w', res) ->
  reconciling st0 l' w' /\ (res = Ok tt -> ls_Reservations (ql_state l') = delete id (ls_Reservations (ql_state l))) /\
  (is_err res = true -> l' = l).
Proof.
  intros H Hid Hp Hrec. unfold recoverCommitLocked in Hrec. pose proof (rg_ours _ _ _ H) as Hours.
  destruct (_ || _) in Hrec; [by injection Hrec as <- <- <-|].
  destruct (AdmitCapabilityAcquisition _ _ _) as [a p] eqn:Hadm.
  pose proof (reconciling_authority _ _ _ _ _ _ _ H Hadm) as H1.
  destruct p as [[]|]; [|by injection Hrec as <- <- <-]. apply admit_done in Hadm as (Hc & Had & Hg & _).
  destruct (oo_stat_fails e _); [by injection Hrec as <- <- <-|].
  destruct (match w_entries _ !! _ with Some _ => _ | None => _ end) as [w1 p] eqn:Hpub.
  eapply reconciling_publish in Hpub as (H2 & Ea & Hst); [|exact H1|done|done]. cbn in Ea.
  destruct p as [[]|]; [|by injection Hrec as <- <- <-]. specialize (Hst eq_refl).
  destruct (read_tree _ _ _); [|by injection Hrec as <- <- <-].
  destruct (negb _) in Hrec; [by injection Hrec as <- <- <-|].
  set (o := {| q_Digest := r_CommitDigest r |}) in Hrec. set (st' := with_books _ _ _ _) in Hrec.
  injection Hrec as <- <- <-. split; [|done].
  pose proof H2 as [Ho Hpin Hs Hf Hh Hfo Ha0 Ha Ht Hob Hv Hl Hle Hli].
  destruct (agree_retained _ _ id r o (r_NextRevision r) Ha Hid Hp Hst eq_refl eq_refl) as [_ Ha'].
  assert (ls_Objects (ql_state l) !! r_CommitDigest r = None) as Hnone by by eapply ag_prepared in Ha as [? _].
  assert (ls_Reservations st0 !! id = Some r) as Hid0.
  { apply Hle; [done|]. unfold is_prepared in Hp. congruence. }
  constructor; try done.
  - apply ours_state; [done|]. destruct Ho as ((Hsl & _) & Ho1 & Ho2).
    destruct (sound_prepared _ _ _ _ Hsl Hid Hp) as (_ & d & Hd & Ed).
    destruct (bk_reservations _ _ (proj1 Hsl) _ _ Hid) as (_ & Hrb & Hrf & _ & _).
    eapply sound_retain; [exact Hsl|exact Hid| |done..|].
    + rewrite Ea. by eapply retained_ok.
    + by destruct (bk_reservations _ _ (proj1 Hsl) _ _ Hid) as (_ & _ & _ & ? & _).
  - cbn. etrans; [exact Hob|]. by apply insert_subseteq.
  - intros id' r' Hr'. cbn in Hr'. apply lookup_delete_Some in Hr' as [_ Hr']. by apply Hle.
  - intros id' r' Hr' Hp'. destruct (decide (id' = id)) as [->|Hne].
    + rewrite Hid0 in Hr'. injection Hr' as <-. right. exists o. cbn. rewrite lookup_insert_eq.
      split; [done|]. split; [done|]. split; [done|]. cbn. by eapply reconciling_request.
    + by destruct Hne; eapply (ag_one _ _ Ha0).
Qed.
Lemma reconciling_step e st0 l w id r l' w' res :
  reconciling st0 l w -> ls_Reservations (ql_state l) !! id = Some r ->
  reconcile_reservation e id r l w = (l', w', res) ->
  reconciling st0 l' w' /\
  (forall id', id' <> id -> ls_Reservations (ql_state l') !! id' = ls_Reservations (ql_state l) !! id') /\
  (res = Ok tt -> forall r', ls_Reservations (ql_state l') !! id = Some r' -> r_AuthorityPhase r' = "reserved").
Proof.
  intros H Hid Hrec. unfold reconcile_reservation in Hrec.
  pose proof (rg_ours _ _ _ H) as Hours. pose proof (proj1 (proj1 Hours)) as Hs.
  destruct (bool_decide (r_AuthorityPhase r = "reserve-prepared")) eqn:Hph; bprop.
  - destruct (AdmitCapabilityAcquisition _ _ _) as [a p] eqn:Hadm.
    pose proof (reconciling_authority _ _ _ _ _ _ _ H Hadm) as H1.
    destruct p as [[]|]; [|by injection Hrec as <- <- <-].
    set (r1 := set_phase "reserved" r) in Hrec. set (st1 := with_books _ _ _ _) in Hrec.
    assert (reconciling st0 (set_state st1 l) (with_authority a w)) as H2.
    { apply reconciling_reservations; try done.
      - eapply sound_replace; [|exact Hid| |done..].
        + by destruct (rg_ours _ _ _ H1) as [[? _] _].
        + destruct (bk_reservations _ _ (proj1 Hs) _ _ Hid) as (? & ? & ? & ? & [[? _]|[Hc _]]); [|congruence].
          split; [done|]. split; [done|]. split; [done|]. split; [done|]. left. split; [done|by right].
      - intros id' r' Hp'. cbn. rewrite lookup_insert_Some. split.
        + intros [[-> <-]|[_ ?]]; [done|done].
        + intros Hr'. right. split; [|done]. intros <-. rewrite Hid in Hr'. injection Hr' as <-.
          unfold is_prepared in Hp'. congruence.
      - intros id' r' Hr' Hne. cbn in Hr'. apply lookup_insert_Some in Hr' as [[<- <-]|[_ ?]]; [by destruct Hne|done]. }
    assert (ls_Reservations (ql_state (set_state st1 l)) !! id = Some r1) as Hid1 by apply lookup_insert_eq.
    injection Hrec as <- <- <-.
    destruct (expire_reservations e id r1 (set_state st1 l)) as [He1 He2].
    split; [by apply reconciling_expire|]. split.
    + intros id' Hne. rewrite He2 by done. cbn. by rewrite lookup_insert_ne.
    + intros _ r' Hr'. apply He1 in Hr'. rewrite Hid1 in Hr'. by injection Hr' as <-.
  - destruct (bool_decide _ && _) eqn:Hc.
    + apply andb_true_iff in Hc as [Hc _]. bprop.
      destruct (reconciling_recover _ _ _ _ _ _ _ _ _ H Hid Hc Hrec) as (H1 & Hok & Herr).
      split; [done|]. destruct res as [[]|].
      * rewrite (Hok eq_refl). split; [intros id' Hne; by rewrite lookup_delete_ne|].
        intros _ r' Hr'. by rewrite lookup_delete_eq in Hr'.
      * by rewrite (Herr eq_refl).
    + destruct (negb _) eqn:Hres in Hrec; injection Hrec as <- <- <-; [done|]. bprop.
      destruct (expire_reservations e id r l) as [He1 He2].
      split; [apply reconciling_expire; [done|done|]; unfold is_prepared; congruence|]. split; [done|].
      intros _ r' Hr'. apply He1 in Hr'. congruence.
Qed.

Lemma reconciling_all e st0 ids : forall l w l' w' res,
  reconciling st0 l w -> reconcile_reservations e ids l w = (l', w', res) ->
  reconciling st0 l' w' /\
  (res = Ok tt -> forall id r, ls_Reservations (ql_state l') !! id = Some r ->
     r_AuthorityPhase r = "reserved" \/ ((id ∉ ids) /\ ls_Reservations (ql_state l) !! id = Some r)).
Proof.
  induction ids as [|id ids IH]; intros l w l' w' res H Hrec; cbn in Hrec.
  - injection Hrec as <- <- <-. split; [done|]. intros _ id r Hr. right. split; [apply not_elem_of_nil|done].
  - destruct (ls_Reservations (ql_state l) !! id) as [r|] eqn:Hid.
    + destruct (reconcile_reservation _ _ _ _ _) as [[l1 w1] p] eqn:Hone.
      destruct (reconciling_step _ _ _ _ _ _ _ _ _ H Hid Hone) as (H1 & Hother & Hdone).
      destruct p as [[]|]; [|injection Hrec as <- <- <-; by split].
      destruct (IH _ _ _ _ _ H1 Hrec) as [H2 Hall]. split; [done|]. intros Hok id' r' Hr'.
      destruct (decide (r_AuthorityPhase r' = "reserved")) as [?|Hne]; [by left|].
      destruct (Hall Hok id' r' Hr') as [?|[Hnin Hl1]]; [by left|].
      destruct (decide (id' = id)) as [->|Hid']; [left; by apply Hdone|].
      right. split; [by apply not_elem_of_cons|]. by rewrite <- Hother.
    + destruct (IH _ _ _ _ _ H Hrec) as [H2 Hall]. split; [done|]. intros Hok id' r' Hr'.
      destruct (decide (r_AuthorityPhase r' = "reserved")) as [?|Hne]; [by left|].
      destruct (Hall Hok id' r' Hr') as [?|[Hnin Hl1]]; [by left|].
      right. split; [|done]. apply not_elem_of_cons. split; [|done]. intros ->. congruence.
Qed.

(** The changes the second loop makes. *)
Lemma reconcile_entries_changes e st names : forall w w' res,
  reconcile_entries e st names w = (w', res) -> plausible_remains true (oo_remove e) ->
  (forall name n, foreign name -> w_entries w !! name = Some n -> plausible true n) ->
  (forall name, w_entries w' !! name = w_entries w !! name \/ HasPrefix name "." = true \/
     (slen name = 64 /\ is_Some (ls_Tombstones st !! name) /\ ls_Objects st !! name = None)) /\
  (forall name n, foreign name -> w_entries w' !! name = Some n -> plausible true n).
Proof.
  induction names as [|name names IH]; intros w w' res H Hpl Hfo; cbn in H; [injection H as <- <-; auto|].
  assert (forall w1 p, removeAll (oo_remove e name) name w = (w1, p) ->
    (HasPrefix name "." = true \/ (slen name = 64 /\ is_Some (ls_Tombstones st !! name) /\ ls_Objects st !! name = None)) ->
    (forall other, w_entries w1 !! other = w_entries w !! other \/ HasPrefix other "." = true \/
       (slen other = 64 /\ is_Some (ls_Tombstones st !! other) /\ ls_Objects st !! other = None)) /\
    (forall other n, foreign other -> w_entries w1 !! other = Some n -> plausible true n)) as Hremove.
  { intros w1 p Hr Hname. pose proof (removeAll_entries _ _ _ _ _ Hr) as He. split.
    - intros other. destruct (decide (other = name)) as [->|Hne]; [by right|left; by apply He].
    - intros other n Ho Hin. destruct (decide (other = name)) as [->|Hne].
      + unfold removeAll in Hr. destruct (oo_remove e name) as [|remains] eqn:Er; injection Hr as <- <-; cbn in Hin.
        * by rewrite lookup_delete_eq in Hin.
        * rewrite lookup_insert_eq in Hin. injection Hin as <-. by eapply Hpl.
      + rewrite He in Hin by done. by eapply Hfo. }
  assert (forall w1 p, removeAll (oo_remove e name) name w = (w1, p) ->
    (HasPrefix name "." = true \/ (slen name = 64 /\ is_Some (ls_Tombstones st !! name) /\ ls_Objects st !! name = None)) ->
    match p with Err m => (w1, Err m) | Ok _ => reconcile_entries e st names w1 end = (w', res) ->
    (forall other, w_entries w' !! other = w_entries w !! other \/ HasPrefix other "." = true \/
       (slen other = 64 /\ is_Some (ls_Tombstones st !! other) /\ ls_Objects st !! other = None)) /\
    (forall other n, foreign other -> w_entries w' !! other = Some n -> plausible true n)) as Hcont.
  { intros w1 p Hr Hname Hres. destruct (Hremove _ _ Hr Hname) as [H1 H2].
    destruct p; [|by injection Hres as <- <-]. destruct (IH _ _ _ Hres Hpl H2) as [H3 H4]. split; [|done].
    intros other. destruct (H3 other) as [->|?]; [apply H1|by right]. }
  destruct (w_entries w !! name) as [[|children|]|]; try by eapply IH.
  destruct (HasPrefix name ".") eqn:Hdot.
  - destruct (removeAll _ _ _) as [w1 p] eqn:Hr. by eapply Hcont; [done|left|].
  - destruct (negb _) eqn:Hlen; [injection H as <- <-; auto|].
    destruct (bool_decide (is_Some (ls_Objects st !! name))) eqn:Hobj; [by eapply IH|].
    destruct (bool_decide (is_Some (ls_Tombstones st !! name))) eqn:Htomb; [|injection H as <- <-; auto].
    destruct (removeAll _ _ _) as [w1 p] eqn:Hr. bprop. eapply Hcont; [done|right|done].
    split; [done|]. split; [done|]. by apply eq_None_not_Some.
Qed.

(** After a successful first loop the ledger is quiet. *)
Lemma reconciling_quiet e st0 l w l' w' :
  reconciling st0 l w -> ql_state l = st0 -> (forall id r, ls_Reservations st0 !! id = Some r -> id ∈ oo_order e) ->
  reconcile_reservations e (oo_order e) l w = (l', w', Ok tt) -> quiet (ql_state l').
Proof.
  intros H E Hord Hrec. destruct (reconciling_all _ _ _ _ _ _ _ _ H Hrec) as [H1 Hall]. intros id r Hr.
  destruct (decide (r_AuthorityPhase r = "reserved")) as [?|Hne]; [done|].
  destruct (Hall eq_refl id r Hr) as [?|[Hnin Hl]]; [done|]. destruct Hnin. rewrite E in Hl. by eapply Hord.
Qed.

Lemma agree_no_state entries id device inode :
  agree entries (no_state "" 0 0) -> agree entries (no_state id device inode).
Proof. intros H. by eapply agree_reservations. Qed.

Lemma loaded_world w st0 :
  loaded w st0 -> (forall name n, foreign name -> w_entries w !! name = Some n -> plausible true n) ->
  header st0 -> agree (w_entries w) st0 -> world_ok w.
Proof.
  intros Hl Hfo Hh Ha. constructor; [done|]. destruct Hl as [E|(E & id & device & inode & ->)]; rewrite E; [by split|].
  by eapply agree_reservations.
Qed.

(** The rest of the reconciliation keeps the agreement. *)
Lemma reconciling_clean e st0 l w w' res :
  reconciling st0 l w -> quiet (ql_state l) -> plausible_remains true (oo_remove e) ->
  reconcile_entries e (ql_state l) (sort_by id (map_to_list (w_entries w)).*1) w = (w', res) ->
  reconciling st0 l w'.
Proof.
  intros H Hq Hpl Hent. pose proof H as [Ho Hpin Hs Hf Hh Hfo Ha0 Ha Ht Hob Hv Hl Hle Hli].
  destruct (reconcile_entries_changes _ _ _ _ _ _ Hent Hpl Hfo) as [Hch Hfo'].
  apply reconcile_entries_files in Hent as [Ef Ea]. pose proof (proj1 (proj1 Ho)) as Hsl.
  constructor; try done.
  - by eapply ours_files.
  - by rewrite Ea.
  - by eapply loaded_file.
  - eapply agree_clean; [exact Ha0| | |].
    + intros name. destruct (Hch name) as [?|[?|(? & ? & ?)]]; [by left|by right; left|right; right].
      split; [done|]. split; [by rewrite <- Ht|]. by eapply lookup_weaken_None.
    + intros key o Hk. by eapply sound_objects_public in Hk as [_ ?].
    + intros id r Hr Hp. split; [by eapply sound_prepared_public in Hr as [_ ?]|].
      destruct (Hli id r Hr Hp) as [Hc|(o & Hobj & Eb & Efl & _)].
      * specialize (Hq id r Hc). cbn in Hq. unfold is_prepared in Hp. congruence.
      * rewrite <- Eb, <- Efl. by apply (ag_objects _ _ Ha).
  - eapply agree_clean; [exact Ha|done| |].
    + intros key o Hk. by eapply sound_objects_public in Hk as [_ ?].
    + intros id r Hr Hp. by destruct (quiet_unprepared _ Hq id r Hr).
Qed.

Lemma reconciling_start w st0 l :
  world_ok w -> loaded w st0 -> header st0 -> sound (w_authority w) st0 ->
  (forall d, w_file w = FileDoc d -> sound (w_authority w) d) ->
  ql_state l = st0 -> ql_ownerID l = owner -> ql_agentID l = agent -> pinned l -> reconciling st0 l w.
Proof.
  intros [Hfo Hf] Hl Hh Hs Hsd E Eo Ea Hpin.
  assert (agree (w_entries w) st0) as Ha.
  { destruct Hl as [Ed|(Ed & id & device & inode & ->)]; rewrite Ed in Hf; [apply Hf|by apply agree_no_state]. }
  constructor; rewrite ?E; try done.
  - split; [|done]. split; [by rewrite E|done].
  - by left.
Qed.

(** What opening starts from. *)
Lemma open_loaded w st0 (device inode : N) (ledgerID : string) :
  match w_file w with
  | FileAbsent => Ok (no_state ledgerID device inode)
  | FileUnreadable => Err "read"
  | FileUndecodable => Err "quarantine ledger is corrupt"
  | FileDoc st =>
      if negb (ls_SchemaVersion st =? 3) || negb (slen (ls_LedgerID st) =? 16)
         || negb (ls_RootDevice st =? device) || negb (ls_RootInode st =? inode)
      then Err "quarantine ledger is corrupt" else Ok st
  end = Ok st0 -> slen ledgerID = 16 ->
  loaded w st0 /\ header st0 /\ ls_RootDevice st0 = device /\ ls_RootInode st0 = inode.
Proof.
  intros H Hid. destruct (w_file w) as [| | |d] eqn:E; try done.
  - injection H as <-. split; [right; eauto|done].
  - destruct (_ || _) eqn:Eb in H; [done|]. injection H as <-. rewrite !orb_false_iff in Eb. destruct Eb as [[[E1 E2] E3] E4].
    bprop. split; [by left|done].
Qed.

Lemma Open_careful e w w' res :
  OpenQuarantineLedger e root owner agent w = (w', res) -> open_ok e w -> plausible_remains true (oo_remove e) ->
  world_ok w -> (forall d, w_file w = FileDoc d -> sound (w_authority w) d) ->
  world_ok w' /\ (forall l, res = Ok l -> ledger_ok l w').
Proof.
  intros H [Hord Hid16] Hpl Hw Hsd. unfold OpenQuarantineLedger in H.
  destruct (_ || _) in H; [by injection H as <- <-|].
  destruct (oo_handle e) as [[device inode]|]; [|by injection H as <- <-].
  destruct (oo_lock e); [|by injection H as <- <-]. destruct (oo_id e) as [lid|] eqn:Elid; [|by injection H as <- <-].
  destruct (match w_file w with FileAbsent => _ | FileUnreadable => _ | FileUndecodable => _ | FileDoc _ => _ end)
    as [st0|] eqn:Hl; [|by injection H as <- <-].
  pose proof Hl as Hl'. apply open_loaded in Hl' as (Hload & Hhead & Hdev & Hino); [|by apply Hid16].
  assert (sound (w_authority w) st0) as Hs0.
  { destruct Hload as [E|(E & i & d & n & ->)]; [by apply Hsd|by apply no_state_sound]. }
  set (l0 := opened root owner agent device inode st0) in H.
  assert (reconciling st0 l0 w) as H0 by by apply reconciling_start.
  assert (forall id r, ls_Reservations st0 !! id = Some r -> id ∈ oo_order e) as Hord0.
  { intros id r Hr. destruct Hload as [E|(E & i & d & n & ->)]; [by eapply Hord|cbn in Hr; by apply lookup_empty_Some in Hr]. }
  destruct (reconcileLocked e l0 w) as [[l w1] p] eqn:Hrec. injection H as <- <-. unfold reconcileLocked in Hrec.
  destruct (reconcile_reservations _ _ _ _) as [[l1 w2] p1] eqn:Hfold.
  destruct (reconciling_all _ _ _ _ _ _ _ _ H0 Hfold) as [H1 _].
  assert (forall l w, reconciling st0 l w -> world_ok w) as Hworld
    by (intros l' w' []; by eapply loaded_world).
  destruct p1 as [[]|]; [|injection Hrec as <- <- <-; split; [by eapply Hworld|done]].
  pose proof (reconciling_quiet _ _ _ _ _ _ H0 eq_refl Hord0 Hfold) as Hq.
  destruct (oo_read_dir_fails e); [injection Hrec as <- <- <-; split; [by eapply Hworld|done]|].
  destruct (reconcile_entries _ _ _ _) as [w3 p3] eqn:Hent.
  pose proof (reconciling_clean _ _ _ _ _ _ H1 Hq Hpl Hent) as H3.
  destruct p3; [|injection Hrec as <- <- <-; split; [by eapply Hworld|done]].
  destruct (range_check _ _); [|injection Hrec as <- <- <-; split; [by eapply Hworld|done]].
  destruct (persistLocked _ _ _) as [w4 p4] eqn:Hp4. injection Hrec as <- <- <-.
  assert (header (ql_state l1)) as Hh1.
  { destruct (rg_header _ _ _ H3) as [Hv Hli]. split; [by rewrite (rg_version _ _ _ H3)|by rewrite (rg_ledger _ _ _ H3)]. }
  pose proof Hp4 as Hp4'. eapply persist_world in Hp4' as (Hw4 & Ee & Hf & Hok); [|by eapply Hworld|done|apply H3].
  split; [done|]. intros l Hl1. destruct p4 as [[]|]; [|done]. injection Hl1 as <-. constructor.
  - apply H3.
  - exists (ql_state l1). split; [by apply Hok|by apply quiet_unprepared].
  - done.
  - intros _. split; [done|]. rewrite Ee. apply H3.
Qed.
(** ** Every run of a careful client *)

Lemma qstep_careful s s' : qstep root owner agent true s s' -> careful_ok s -> careful_ok s'.
Proof.
  intros Hst (Hsys & Hw & Hl). split; [by eapply qstep_ok|]. pose proof Hsys as [[Hf Hnone] Hm].
  destruct Hst as [request Hst]. destruct Hst; cbn in *; try (specialize (Hl _ eq_refl); destruct (Hm _ eq_refl) as (Hs & Eo & Ea);
    assert (ours owner agent nobody l w) as Hours by by split; [split|]).
  - edestruct Open_careful as [H3 H4]; [done..|]. split; [done|]. intros l0 [= <-]. by apply H4.
  - edestruct Open_careful as [H3 H4]; [done..|]. split; [done|]. by intros l0.
  - edestruct Reserve_careful as [? ?]; [done..|]. split; [done|]. by intros l0 [= <-].
  - edestruct Abort_careful as [? ?]; [done..|]. split; [done|]. by intros l0 [= <-].
  - edestruct Commit_careful as [? Hok]; [done..|]. split; [done|]. intros l0 Hl0.
    destruct (is_err r) eqn:Er; [done|]. injection Hl0 as <-. by apply Hok.
  - edestruct CommitReceipts_careful as [? ?]; [done..|]. split; [done|]. by intros l0 [= <-].
  - edestruct GarbageCollect_careful as [? ?]; [done..|]. split; [done|]. by intros l0 [= <-].
  - split; [done|]. by intros l0.
  - assert (forall other, public other -> <[name:=tree]> (w_entries w) !! other = w_entries w !! other) as Hpub.
    { intros other Ho. rewrite lookup_insert_ne; [done|]. intros <-. by eapply foreign_public. }
    split.
    + eapply foreign_change; [exact Hw|done| | |exact Hf]; cbn.
      * intros other Ho. rewrite lookup_insert_ne; [done|]. by intros <-.
      * intros other n Ho [[<- <-]|[_ Hin]]%lookup_insert_Some; [done|]. by eapply (wo_foreign _ Hw).
    + intros l Hl0. eapply foreign_ledger; [by apply Hl|by apply Hm|done|done].
  - assert (forall other, public other -> delete name (w_entries w) !! other = w_entries w !! other) as Hpub.
    { intros other Ho. rewrite lookup_delete_ne; [done|]. intros <-. by eapply foreign_public. }
    split.
    + eapply foreign_change; [exact Hw|done| | |exact Hf]; cbn.
      * intros other Ho. rewrite lookup_delete_ne; [done|]. by intros <-.
      * intros other n Ho [_ Hin]%lookup_delete_Some. by eapply (wo_foreign _ Hw).
    + intros l Hl0. eapply foreign_ledger; [by apply Hl|by apply Hm|done|done].
  - split; [by apply world_ok_authority|]. intros l Hl0. destruct (Hl l Hl0). by constructor.
Qed.

Lemma unused_careful w : unused true w -> careful_ok {| sy_ledger := None; sy_world := w |}.
Proof.
  intros Hu. pose proof Hu as [Hf Hn]. split; [by eapply unused_ok|]. split; [|by intros l].
  constructor; cbn; [intros name n _ Hin; by apply (Hn name n)|]. rewrite Hf. constructor; cbn.
  - intros name cs Hin. left. by destruct (Hn name _ Hin) as [[? _] _].
  - by intros key o Ho%lookup_empty_Some.
  - by intros id r Hr%lookup_empty_Some.
  - by intros id id' r r' Hr%lookup_empty_Some.
Qed.

Lemma reachable_careful s : reachable root owner agent true s -> careful_ok s.
Proof.
  intros (w & Hu & Hr). apply unused_careful in Hu. remember {| sy_ledger := None; sy_world := w |} as s0 eqn:E0. clear E0.
  induction Hr as [|s0 s1 s2 Hst Hr IH]; [done|]. apply IH. by eapply qstep_careful.
Qed.

(** ** A reopening in which nothing fails *)

Record smooth (e : open_env) (d : quarantineLedgerState) : Prop := {
  sm_handle : oo_handle e = Ok (ls_RootDevice d, ls_RootInode d);
  sm_lock : is_ok (oo_lock e) = true;
  sm_id : is_ok (oo_id e) = true;
  sm_order id r : ls_Reservations d !! id = Some r -> id ∈ oo_order e;
  sm_delivery id : oo_delivery e id = Answered;
  sm_stat key : oo_stat_fails e key = false;
  sm_publication key : oo_publication e key = Published;
  sm_hash key : oo_hash_fails e key = false;
  sm_read_dir : oo_read_dir_fails e = false;
  sm_remove name : oo_remove e name = Removed;
  sm_marshal st : io_marshal (oo_persist e) st <> None;
  sm_write step : io_fails (oo_persist e) step = false
}.

(** The transition a pending reservation waits for. *)
Definition pending_request (d : quarantineLedgerState) (r : QuarantineReservation) : CapabilityAcquisitionRequest :=
  request_of d r (if bool_decide (r_AuthorityPhase r = "reserve-prepared") then "reserve" else "commit").

(** The authority has admitted every pending transition (before the crash), and
    each passes the client's own check. *)
Definition all_admitted (d : quarantineLedgerState) (a : authority) : Prop :=
  forall id r, ls_Reservations d !! id = Some r -> r_AuthorityPhase r <> "reserved" ->
    admitted a (pending_request d r) /\ acquisition_complete (pending_request d r) = true.

Lemma admit_known r a : admitted a r -> acquisition_complete r = true -> AdmitCapabilityAcquisition Answered r a = (a, Ok tt).
Proof. intros Ha Hc. unfold AdmitCapabilityAcquisition. rewrite Hc. cbn. by rewrite (admit_again a r Ha). Qed.

Lemma stored_read w name key b f : stored (w_entries w) name key b f ->
  exists d, read_tree false w name = Ok d /\ hex_EncodeToString d = key.
Proof. intros (cs & d & He & Hh & Hx & _). exists d. unfold read_tree. rewrite He. done. Qed.

Lemma stored_same w key b f : stored (w_entries w) key key b f -> differs false w key b f = false.
Proof.
  intros (cs & d & He & Hh & Hx & Hu). unfold differs, read_tree, read_usage. rewrite He, Hh, Hu, Hx.
  rewrite bool_decide_eq_true_2 by done. by rewrite !N.eqb_refl.
Qed.

Lemma smooth_step e st0 l w id r :
  reconciling st0 l w -> smooth e st0 -> all_admitted st0 (w_authority w) -> ls_Reservations (ql_state l) !! id = Some r ->
  exists l' w', reconcile_reservation e id r l w = (l', w', Ok tt) /\ w_authority w' = w_authority w.
Proof.
  intros H Hsm Hadm Hid. unfold reconcile_reservation. pose proof H as [Ho Hpin Hs Hf Hh Hfo Ha0 Ha Ht Hob Hv Hl Hle Hli].
  pose proof (proj1 (proj1 Ho)) as Hsl. destruct (bk_reservations _ _ (proj1 Hsl) _ _ Hid) as (_ & _ & _ & _ & Hphase).
  destruct (bool_decide (r_AuthorityPhase r = "reserve-prepared")) eqn:Hph.
  - bprop. assert (ls_Reservations st0 !! id = Some r) as Hid0 by (apply Hle; congruence).
    destruct (Hadm id r Hid0) as [Had Hc]; [congruence|]. unfold pending_request in Had, Hc.
    rewrite bool_decide_eq_true_2 in Had, Hc by done. rewrite (sm_delivery _ _ Hsm).
    rewrite (reconciling_request _ _ _ r "reserve" H), admit_known by done. by eexists _, _.
  - destruct (bool_decide (r_AuthorityPhase r = "commit-prepared") && _) eqn:Hc.
    + apply andb_true_iff in Hc as [Hc _]. bprop.
      assert (ls_Reservations st0 !! id = Some r) as Hid0 by (apply Hle; congruence).
      destruct (Hadm id r Hid0) as [Had Hcomp]; [congruence|]. unfold pending_request in Had, Hcomp.
      rewrite bool_decide_eq_false_2 in Had, Hcomp by done.
      destruct (sound_prepared_public _ _ _ _ Hsl Hid Hc) as [Hlen Hpub].
      destruct (sound_prepared _ _ _ _ Hsl Hid Hc) as [Htemp _]. pose proof (commit_snapshot_dot _ Htemp) as Hdot.
      unfold recoverCommitLocked. rewrite Hlen, Hdot. cbn [negb N.eqb Pos.eqb orb].
      rewrite bool_decide_eq_false_2 by (intros E; by rewrite E in Htemp). cbn [orb].
      rewrite (sm_delivery _ _ Hsm), (reconciling_request _ _ _ r "commit" H), admit_known by done.
      rewrite (sm_stat _ _ Hsm), (sm_publication _ _ Hsm), (sm_hash _ _ Hsm).
      assert (w_entries (with_authority (w_authority w) w) = w_entries w) as Ew by done.
      destruct (match w_entries (with_authority (w_authority w) w) !! r_CommitDigest r with Some _ => _ | None => _ end)
        as [w1 p] eqn:Hpubl.
      assert (reconciling st0 l (with_authority (w_authority w) w)) as H' by by destruct H.
      pose proof Hpubl as Hpubl'. pose proof (reconciling_publish e st0 l _ id r p w1 H' Hid Hc) as Hrp.
      rewrite (sm_publication _ _ Hsm) in Hrp. destruct (Hrp Hpubl) as (_ & Ea1 & Hst).
      assert (p = Ok tt) as ->.
      { destruct (ag_prepared _ _ Ha id r Hid Hc) as (_ & _ & [[(cs & ? & Etemp & _) Enone]|(cs & ? & Ek & _)]).
        - rewrite Ew, Enone in Hpubl'. unfold publishStagedQuarantineSnapshot in Hpubl'.
          rewrite Htemp, Hlen, Ew, Etemp, Enone in Hpubl'. cbn in Hpubl'. by injection Hpubl' as _ <-.
        - rewrite Ew, Ek in Hpubl'. by injection Hpubl' as _ <-. }
      specialize (Hst eq_refl). destruct (stored_read _ _ _ _ _ Hst) as (dg & -> & Edg).
      rewrite bool_decide_eq_true_2 by done. cbn [negb]. by eexists _, _.
    + destruct Hphase as [[_ [Hx|Hx]]|(Hx & _ & dg & Hdg & Edg)].
      * rewrite Hx in Hph. done.
      * rewrite bool_decide_eq_true_2 by done. cbn [negb]. by eexists _, _.
      * rewrite bool_decide_eq_true_2, andb_true_l in Hc by done. bprop. rewrite Edg in Hc.
        destruct (hex32 dg Hdg) as [H64 _]. rewrite Hc in H64. done.
Qed.

Lemma smooth_all e st0 ids : forall l w,
  reconciling st0 l w -> smooth e st0 -> all_admitted st0 (w_authority w) ->
  exists l' w', reconcile_reservations e ids l w = (l', w', Ok tt) /\ w_authority w' = w_authority w.
Proof.
  induction ids as [|id ids IH]; intros l w H Hsm Hadm; cbn; [by eexists _, _|].
  destruct (ls_Reservations (ql_state l) !! id) as [r|] eqn:Hid; [|by apply IH].
  destruct (smooth_step _ _ _ _ _ _ H Hsm Hadm Hid) as (l1 & w1 & E & Ea). rewrite E.
  destruct (reconciling_step _ _ _ _ _ _ _ _ _ H Hid E) as (H1 & _).
  destruct (IH l1 w1 H1 Hsm) as (l2 & w2 & E2 & Ea2); [by rewrite Ea|]. rewrite E2. exists l2, w2. by rewrite Ea2.
Qed.

Lemma smooth_entries e d st names : forall w,
  smooth e d -> quiet st ->
  (forall name cs, w_entries w !! name = Some (Dir cs) -> HasPrefix name "." = true \/
     (slen name = 64 /\ (is_Some (ls_Objects st !! name) \/ is_Some (ls_Tombstones st !! name)))) ->
  exists w', reconcile_entries e st names w = (w', Ok tt).
Proof.
  induction names as [|name names IH]; intros w Hsm Hq Hent; cbn; [by eexists|].
  assert (exists w', (let '(w, removed) := removeAll (oo_remove e name) name w in
            match removed with Err m => (w, Err m) | Ok _ => reconcile_entries e st names w end) = (w', Ok tt)) as Hrem.
  { rewrite (sm_remove _ _ Hsm). cbn. apply IH; [done|done|]. cbn. intros other cs [_ Ho]%lookup_delete_Some. by eapply Hent. }
  destruct (w_entries w !! name) as [[|cs|]|] eqn:En; try by apply IH.
  destruct (Hent name cs En) as [->|(Hlen & Hc)]; [done|]. destruct (HasPrefix name "."); [done|].
  rewrite Hlen. cbn [negb N.eqb Pos.eqb].
  destruct (bool_decide (is_Some (ls_Objects st !! name))) eqn:Eo; [by apply IH|]. bprop.
  destruct Hc as [?|Htomb]; [done|]. rewrite bool_decide_eq_true_2 by done. exact Hrem.
Qed.

Lemma object_validates a l o key :
  object_ok owner agent a (ql_state l) key o -> ql_ownerID l = owner -> ql_agentID l = agent -> validateObjectRecord l o = Ok tt.
Proof.
  intros [Ed Ek Had Hc Hp Ho Hg Hl Hpr Hso Hge Hby Hfi _] Eo Eg. unfold validateObjectRecord.
  rewrite Ed, Ek, hex_decode_encode.
  pose proof (complete_digest _ Hc Hp) as H32. pose proof Hc as Hc'. unfold acquisition_complete in Hc'.
  apply negb_true_iff in Hc'. rewrite !orb_false_iff in Hc'.
  destruct Hc' as [[[[[[[[[[[[[[C1 C2] C3] C4] C5] C6] C7] C8] C9] C10] C11] C12] C13] _] C15].
  rewrite Hp, bool_decide_eq_true_2, andb_true_l, !orb_false_iff in C15 by done. destruct C15 as [[[_ C16] C17] C18].
  rewrite H32, C1, Ho, Hg, Hl, Hpr, Hso, Hge, Hby, Hfi, C10, C11, C12, C13, Hp, Eo, Eg.
  rewrite <- Hfi, <- Hby. rewrite C16, C17, C18.
  assert (ar_AcquisitionID (q_CommitTransition o) <> "") as Hid by (intros E; rewrite E in C5; done).
  rewrite (bool_decide_eq_false_2 _ Hid), !bool_decide_eq_true_2, !N.eqb_refl by done. done.
Qed.
(** The first loop only touches the state of the ledger. *)
Lemma reconcile_reservation_usable e id r l w l' w' res :
  reconcile_reservation e id r l w = (l', w', res) -> ql_poisoned l' = ql_poisoned l.
Proof.
  assert (forall r l, ql_poisoned (expire e id r l) = ql_poisoned l) as Hexp by (intros; unfold expire; by destruct (_ <=? _)).
  unfold reconcile_reservation, recoverCommitLocked. intros H.
  repeat match type of H with
  | context [if ?b then _ else _] => destruct b
  | context [match ?x with _ => _ end] => destruct x
  end; injection H as <- <- <-; rewrite ?Hexp; done.
Qed.

Lemma reconcile_reservations_usable e ids : forall l w l' w' res,
  reconcile_reservations e ids l w = (l', w', res) -> ql_poisoned l' = ql_poisoned l.
Proof.
  induction ids as [|id ids IH]; intros l w l' w' res H; cbn in H; [by injection H as <- <- <-|].
  destruct (_ !! id) as [r|]; [|by eapply IH].
  destruct (reconcile_reservation _ _ _ _ _) as [[l1 w1] p] eqn:E. apply reconcile_reservation_usable in E.
  destruct p; [|by injection H as <- <- <-]. by rewrite (IH _ _ _ _ _ H).
Qed.

(** A quiet ledger has nothing to finish. *)
Lemma reconcile_quiet e ids : forall l w l' w' res,
  quiet (ql_state l) -> reconcile_reservations e ids l w = (l', w', res) ->
  ls_LedgerRevision (ql_state l') = ls_LedgerRevision (ql_state l) /\ ls_Objects (ql_state l') = ls_Objects (ql_state l).
Proof.
  induction ids as [|id ids IH]; intros l w l' w' res Hq H; cbn in H; [by injection H as <- <- <-|].
  destruct (_ !! id) as [r|] eqn:Hid; [|by eapply IH].
  pose proof (Hq id r Hid) as Hph. cbn in Hph.
  assert (reconcile_reservation e id r l w = (expire e id r l, w, Ok tt)) as E by (unfold reconcile_reservation; by rewrite Hph).
  rewrite E in H. apply IH in H as [-> ->]; unfold expire; destruct (_ <=? _); try done. by apply quiet_drop.
Qed.

Lemma smooth_open e w d :
  root <> "" -> owner <> "" -> agent <> "" ->
  careful_ok {| sy_ledger := None; sy_world := w |} -> w_file w = FileDoc d -> smooth e d -> all_admitted d (w_authority w) ->
  exists w' l, OpenQuarantineLedger e root owner agent w = (w', Ok l) /\
    ql_closed l = false /\ ql_poisoned l = false /\ quiet (ql_state l) /\ ours owner agent nobody l w' /\ pinned l /\
    (ql_device l = ls_RootDevice d /\ ql_inode l = ls_RootInode d) /\
    w_file w' = FileDoc (ql_state l) /\ w_authority w' = w_authority w /\
    ls_LedgerID (ql_state l) = ls_LedgerID d /\ ls_Tombstones (ql_state l) = ls_Tombstones d /\
    ls_Objects d ⊆ ls_Objects (ql_state l) /\
    (forall id r, ls_Reservations d !! id = Some r -> is_prepared r ->
       exists o, ls_Objects (ql_state l) !! r_CommitDigest r = Some o /\ q_Bytes o = r_CommitBytes r /\
         q_Files o = r_CommitFiles r /\ q_CommitTransition o = request_of d r "commit") /\
    (forall key o, ls_Objects (ql_state l) !! key = Some o -> stored (w_entries w') key key (q_Bytes o) (q_Files o)) /\
    (quiet d -> ls_LedgerRevision (ql_state l) = ls_LedgerRevision d /\ ls_Objects (ql_state l) = ls_Objects d).
Proof.
  intros Hroot Howner Hagent ([[Hsd _] _] & Hw & _) Hfile Hsm Hadm. cbn in Hsd, Hw. pose proof (Hsd d Hfile) as Hs.
  assert (header d) as Hh by (pose proof (wo_file _ Hw) as Hf; rewrite Hfile in Hf; apply Hf).
  unfold OpenQuarantineLedger. rewrite bool_decide_eq_false_2 by done.
  assert (forall s, s <> "" -> (slen s =? 0) = false) as Hne by (intros [|c s] Hs0; [done|]; apply N.eqb_neq; unfold slen; cbn; lia).
  rewrite !Hne by done. cbn [orb]. rewrite (sm_handle _ _ Hsm).
  pose proof (sm_lock _ _ Hsm) as Hlock. destruct (oo_lock e); [|done].
  pose proof (sm_id _ _ Hsm) as Hid. destruct (oo_id e) as [lid|]; [|done]. rewrite Hfile.
  destruct Hh as [Hv Hl16]. rewrite Hv, Hl16, !N.eqb_refl. cbn [negb orb].
  set (l0 := opened root owner agent _ _ d).
  assert (reconciling d l0 w) as H0 by (apply reconciling_start; try done; by left).
  unfold reconcileLocked.
  destruct (smooth_all e d (oo_order e) l0 w H0 Hsm Hadm) as (l1 & w1 & E1 & Ea1). rewrite E1.
  destruct (reconciling_all _ _ _ _ _ _ _ _ H0 E1) as [H1 _].
  pose proof (reconciling_quiet _ _ _ _ _ _ H0 eq_refl (sm_order _ _ Hsm) E1) as Hq.
  rewrite (sm_read_dir _ _ Hsm).
  assert (plausible_remains true (oo_remove e)) as Hpl by (intros name n; by rewrite (sm_remove _ _ Hsm)).
  destruct (smooth_entries e d (ql_state l1) (sort_by id (map_to_list (w_entries w1)).*1) w1 Hsm Hq) as (w2 & E2).
  { intros name cs Hn. destruct (ag_entries _ _ (rg_agree _ _ _ H1) name cs Hn) as [?|(? & [?|[?|(id & r & Hr & Hp & _)]])];
      [by left|right; by auto|right; by auto|]. by destruct (quiet_unprepared _ Hq id r Hr). }
  rewrite E2. pose proof (reconciling_clean _ _ _ _ _ _ H1 Hq Hpl E2) as H2.
  apply reconcile_entries_files in E2 as [_ Ea2].
  assert (range_check (fun digest record => tracked (oo_hash_fails e digest) l1 w2 digest record) (ls_Objects (ql_state l1)) = Ok tt) as ->.
  { apply range_check_ok. intros key o Ho. cbn. unfold tracked. destruct (rg_ours _ _ _ H2) as ([[_ Hob] _] & Eo & Eg).
    rewrite (object_validates _ _ _ _ (Hob key o Ho) Eo Eg), (sm_hash _ _ Hsm).
    by rewrite (stored_same _ _ _ _ (ag_objects _ _ (rg_agree _ _ _ H2) key o Ho)). }
  destruct (persistLocked (oo_persist e) l1 w2) as [w3 p] eqn:Ep.
  assert (p = Ok tt) as ->.
  { unfold persistLocked in Ep. pose proof (sm_marshal _ _ Hsm (ql_state l1)) as Hm.
    destruct (io_marshal (oo_persist e) (ql_state l1)); [|done]. injection Ep as _ <-. unfold WriteFileAtomic.
    rewrite !(sm_write _ _ Hsm). done. }
  destruct (quar_persist_cases _ _ _ _ _ Ep) as (Ee3 & Ea3 & _ & Hok). specialize (Hok eq_refl).
  pose proof (ours_persist owner agent nobody _ _ _ _ _ Ep (rg_ours _ _ _ H2)) as [Hours3 _].
  assert (same_ledger l0 l1) as (_ & Edev & Eino & _ & _ & Ecl)
    by (eapply (reconcile_reservations_ours owner agent nobody); [exact (rg_ours _ _ _ H0)|exact E1]).
  exists w3, l1. split; [done|]. split; [done|]. split; [by rewrite (reconcile_reservations_usable _ _ _ _ _ _ _ E1)|].
  split; [done|]. split; [done|]. split; [apply H2|]. split; [done|]. split; [done|]. split; [congruence|].
  split; [apply H2|]. split; [apply H2|]. split; [apply H2|]. split; [|split].
  - intros id r Hr Hp. destruct (rg_link _ _ _ H2 id r Hr Hp) as [Hl|?]; [|done].
    by destruct (quiet_unprepared _ Hq id r Hl).
  - intros key o Ho. rewrite Ee3. by apply (ag_objects _ _ (rg_agree _ _ _ H2)).
  - intros Hqd. exact (reconcile_quiet e (oo_order e) l0 w l1 w1 (Ok tt) Hqd E1).
Qed.

(** C17: After a crash at any point of a careful client's work, if the authority has
    admitted what was under way, opening the ledger succeeds: every retained
    object is still there, every prepared commit is now an object with exactly
    the admitted transition, and every object is the tree its record
    describes. *)
Theorem quar_reopen e w d :
  root <> "" -> owner <> "" -> agent <> "" ->
  reachable root owner agent true {| sy_ledger := None; sy_world := w |} ->
  w_file w = FileDoc d -> smooth e d -> all_admitted d (w_authority w) ->
  exists w' l, OpenQuarantineLedger e root owner agent w = (w', Ok l) /\
    ql_closed l = false /\ ql_poisoned l = false /\
    ls_Objects d ⊆ ls_Objects (ql_state l) /\
    (forall id r, ls_Reservations d !! id = Some r -> is_prepared r ->
       exists o, ls_Objects (ql_state l) !! r_CommitDigest r = Some o /\ q_CommitTransition o = pending_request d r) /\
    (forall key o, ls_Objects (ql_state l) !! key = Some o -> stored (w_entries w') key key (q_Bytes o) (q_Files o)) /\
    (forall id r, ls_Reservations (ql_state l) !! id = Some r -> r_AuthorityPhase r = "reserved").
Proof.
  intros Hr Ho Ha Hreach Hf Hsm Hadm. apply reachable_careful in Hreach.
  destruct (smooth_open e w d Hr Ho Ha Hreach Hf Hsm Hadm)
    as (w' & l & E & Hcl & Hpo & Hq & _ & _ & _ & _ & _ & _ & _ & Hsub & Hpend & Hst & _).
  exists w', l. split; [done|]. split; [done|]. split; [done|]. split; [done|]. split; [|done].
  intros id r Hid Hp. destruct (Hpend id r Hid Hp) as (o & Hob & _ & _ & Et). exists o. split; [done|].
  unfold pending_request. rewrite bool_decide_eq_false_2; [done|]. unfold is_prepared in Hp. congruence.
Qed.
Lemma receipts_spec l records : forall receipts, receipts_of l records = Ok receipts ->
  forall receipt, receipt ∈ receipts -> exists o, o ∈ records /\ receipt = receiptForRecord l o.
Proof.
  induction records as [|o records IH]; intros receipts H receipt Hin; cbn in H.
  - injection H as <-. by apply not_elem_of_nil in Hin.
  - destruct (validateObjectRecord l o); [|done]. destruct (receipts_of l records) as [rest|] eqn:E; [|done].
    injection H as <-. apply elem_of_cons in Hin as [->|Hin]; [exists o; split; [by left|done]|].
    destruct (IH _ eq_refl _ Hin) as (o' & ? & ?). exists o'. split; [by right|done].
Qed.

(** A listed receipt is that of a retained object. *)
Lemma listed_record e l w l' w' receipts receipt :
  CommitReceipts e l w = (l', w', Ok receipts) -> receipt ∈ receipts ->
  ql_poisoned l = false /\ exists key o, ls_Objects (ql_state l) !! key = Some o /\ receipt = receiptForRecord l o.
Proof.
  intros Hrec Hin. unfold CommitReceipts in Hrec. destruct (ql_closed l || ql_poisoned l) eqn:Hcp; [done|].
  apply orb_false_iff in Hcp as [_ Hpo]. split; [done|].
  assert (receipts_of l (sort_by fst (map_to_list (ls_Objects (ql_state l)))).*2 = Ok receipts) as Hrcs.
  { destruct (requirePinnedRootLocked _ l) as [l1 p] eqn:Hp. apply pinned_cases in Hp as [[-> ->]|[He ->]].
    - by destruct (receipts_of l _); [injection Hrec as <- <- <-|].
    - by destruct p. }
  destruct (receipts_spec _ _ _ Hrcs _ Hin) as (o & Hrecord & ->).
  apply list_elem_of_fmap in Hrecord as ([key o'] & -> & Hk). rewrite sort_by_Permutation in Hk.
  exists key, o'. split; [by apply elem_of_map_to_list in Hk|done].
Qed.

(** ** Revisions

    A ledger takes a revision with every admitted transition, at most one in a
    call; nothing retained is ahead of it, and what is pending is next. *)

Record revised (n : N) (st : quarantineLedgerState) : Prop := {
  rv_bound : ls_LedgerRevision st <= n;
  rv_objects : map_Forall (fun _ o => ar_NextRevision (q_CommitTransition o) <= ls_LedgerRevision st) (ls_Objects st);
  rv_pending id r : ls_Reservations st !! id = Some r -> r_AuthorityPhase r <> "reserved" ->
    r_NextRevision r = add64w (ls_LedgerRevision st) 1;
  rv_one id id' r r' : ls_Reservations st !! id = Some r -> ls_Reservations st !! id' = Some r' ->
    r_AuthorityPhase r <> "reserved" -> r_AuthorityPhase r' <> "reserved" -> id = id'
}.

Definition revised_file (n : N) (w : world) : Prop := forall d, w_file w = FileDoc d -> revised n d.

(** What is retained is retained in the file, which is that of the ledger. *)
Definition kept_by (st d : quarantineLedgerState) : Prop :=
  ls_Objects st ⊆ ls_Objects d /\ ls_RootDevice st = ls_RootDevice d /\ ls_RootInode st = ls_RootInode d /\
  ls_LedgerID st = ls_LedgerID d.
Definition kept_in (st : quarantineLedgerState) (w : world) : Prop := exists d, w_file w = FileDoc d /\ kept_by st d.

#[local] Instance kept_by_trans : Transitive kept_by.
Proof. intros s1 s2 s3 (? & ? & ? & ?) (? & ? & ? & ?). split; [by etrans|]. repeat split; congruence. Qed.

Record tracks (n : N) (l : QuarantineLedger) (w : world) : Prop := {
  tk_state : revised n (ql_state l);
  tk_file : revised_file n w;
  tk_kept : kept_in (ql_state l) w
}.

Lemma revised_le n m st : n <= m -> revised n st -> revised m st.
Proof. intros H []. constructor; try done. lia. Qed.

Lemma tracks_le n m l w : n <= m -> tracks n l w -> tracks m l w.
Proof.
  intros H [H1 H2 H3]. constructor; [by eapply revised_le| |done]. intros d Hd. eapply revised_le; [exact H|by apply H2].
Qed.

Lemma revised_quiet n st st' :
  revised n st -> quiet st' -> ls_LedgerRevision st' = ls_LedgerRevision st -> ls_Objects st' ⊆ ls_Objects st -> revised n st'.
Proof.
  intros [Hb Ho Hp H1] Hq Er Hsub. constructor.
  - by rewrite Er.
  - intros key o Hk. cbn. rewrite Er. eapply Ho. by eapply lookup_weaken.
  - intros id r Hr Hne. by destruct (Hne (Hq id r Hr)).
  - intros id id' r r' Hr _ Hne. by destruct (Hne (Hq id r Hr)).
Qed.

(** A transition becomes pending. *)
Lemma revised_pending n st st' id r :
  revised n st -> quiet st -> ls_LedgerRevision st' = ls_LedgerRevision st -> ls_Objects st' = ls_Objects st ->
  ls_Reservations st' = <[id := r]> (ls_Reservations st) -> r_NextRevision r = add64w (ls_LedgerRevision st) 1 ->
  revised n st'.
Proof.
  intros [Hb Ho Hp H1] Hq Er Eo Ers En.
  assert (forall id' r', ls_Reservations st' !! id' = Some r' -> r_AuthorityPhase r' <> "reserved" -> id' = id /\ r' = r) as Hone.
  { intros id' r' Hr Hne. rewrite Ers in Hr. apply lookup_insert_Some in Hr as [[-> ->]|[_ Hr]]; [done|].
    by destruct (Hne (Hq id' r' Hr)). }
  constructor.
  - by rewrite Er.
  - intros key o Hk. cbn. rewrite Er. rewrite Eo in Hk. by apply (Ho key).
  - intros id' r' Hr Hne. destruct (Hone _ _ Hr Hne) as [_ ->]. by rewrite Er.
  - intros id1 id2 r1 r2 Hr1 Hr2 Hn1 Hn2. by destruct (Hone _ _ Hr1 Hn1) as [-> _], (Hone _ _ Hr2 Hn2) as [-> _].
Qed.

(** The pending transition is accounted for. *)
Lemma revised_next n st st' :
  revised n st -> n < MaxUint64 -> quiet st' -> ls_LedgerRevision st' = add64w (ls_LedgerRevision st) 1 ->
  (forall key o, ls_Objects st' !! key = Some o ->
     ls_Objects st !! key = Some o \/ ar_NextRevision (q_CommitTransition o) = add64w (ls_LedgerRevision st) 1) ->
  revised (n + 1) st'.
Proof.
  intros [Hb Ho Hp H1] Hn Hq Er Hobj.
  assert (add64w (ls_LedgerRevision st) 1 = ls_LedgerRevision st + 1) as E by (apply add64w_exact; lia).
  constructor.
  - rewrite Er, E. lia.
  - intros key o Hk. cbn. rewrite Er, E. destruct (Hobj key o Hk) as [Hold| ->]; [|lia].
    specialize (Ho key o Hold). cbn in Ho. lia.
  - intros id r Hr Hne. by destruct (Hne (Hq id r Hr)).
  - intros id id' r r' Hr _ Hne. by destruct (Hne (Hq id r Hr)).
Qed.

Lemma quiet_delete id st st' :
  quiet st -> ls_Reservations st' = delete id (ls_Reservations st) -> quiet st'.
Proof. intros Hq E id' r Hr. rewrite E in Hr. apply lookup_delete_Some in Hr as [_ Hr]. by eapply Hq. Qed.

(** The only pending transition is settled. *)
Lemma quiet_settled n st st' id r :
  revised n st -> ls_Reservations st !! id = Some r -> r_AuthorityPhase r <> "reserved" ->
  (forall id' r', ls_Reservations st' !! id' = Some r' ->
     r_AuthorityPhase r' = "reserved" \/ (id' <> id /\ ls_Reservations st !! id' = Some r')) -> quiet st'.
Proof.
  intros Hrev Hid Hne Hst id' r' Hr'. destruct (Hst id' r' Hr') as [?|[Hd Hr]]; [done|].
  destruct (decide (r_AuthorityPhase r' = "reserved")) as [?|Hne']; [done|].
  destruct Hd. by eapply (rv_one _ _ Hrev).
Qed.

Lemma revised_persist n e l w w' r :
  persistLocked e l w = (w', r) -> revised n (ql_state l) -> revised_file n w ->
  revised_file n w' /\ (kept_in (ql_state l) w -> kept_in (ql_state l) w') /\ (r = Ok tt -> kept_in (ql_state l) w').
Proof.
  intros Hp Hl Hf. apply quar_persist_cases in Hp as (_ & _ & Hfile & Hok). split; [|split].
  - intros d Hd. destruct Hfile as [E|E]; rewrite E in Hd; [by apply Hf|by injection Hd as <-].
  - intros (d & Hd & Hsub). destruct Hfile as [E|E]; [exists d|exists (ql_state l)]; by rewrite E.
  - intros Hr. exists (ql_state l). split; [by apply Hok|done].
Qed.

Lemma tracks_same n l w w' : w_file w' = w_file w -> tracks n l w -> tracks n l w'.
Proof. intros E [H1 H2 H3]. constructor; [done|unfold revised_file; by rewrite E|unfold kept_in; by rewrite E]. Qed.

(** A change of the state that leaves the file alone. *)
Lemma tracks_state n st l w :
  tracks n l w -> revised n st -> kept_by st (ql_state l) -> tracks n (set_state st l) w.
Proof. intros [H1 H2 (d & Hd & Hsub)] Hst Hs. constructor; [done..|]. exists d. split; [done|]. by etrans. Qed.

Lemma tracks_persist n e l w w' r : persistLocked e l w = (w', r) -> tracks n l w -> tracks n l w'.
Proof. intros Hp [H1 H2 H3]. destruct (revised_persist _ _ _ _ _ _ Hp H1 H2) as (? & ? & _). constructor; auto. Qed.

Lemma Reserve_tracks n e principal source generation l w l' w' r :
  Reserve e principal source generation l w = (l', w', r) -> (ql_poisoned l = false -> quiet (ql_state l)) ->
  n < MaxUint64 -> tracks n l w -> tracks (n + 1) l' w'.
Proof.
  intros H Hquiet Hn Ht. assert (tracks (n + 1) l w) as Ht1 by (eapply tracks_le; [|exact Ht]; lia). unfold Reserve in H.
  destruct (ql_closed l || ql_poisoned l) eqn:Hcp; [by injection H as <- <- <-|]. apply orb_false_iff in Hcp as [_ Hpo].
  specialize (Hquiet Hpo).
  destruct (requirePinnedRootLocked _ l) as [l1 p] eqn:Hp. apply pinned_cases in Hp as [[-> ->]|[He ->]].
  2: { destruct p; [done|]. injection H as <- <- <-. by destruct Ht1. }
  destruct (_ || _) in H; [by injection H as <- <- <-|]. destruct (negb _ && _) in H; [by injection H as <- <- <-|].
  set (day := Format_day (oe_now e)) in H. set (st1 := with_daily _ (ls_LastRequestDay (ql_state l)) _) in H.
  assert (revised n st1) as Hr1 by (apply (revised_quiet n (ql_state l)); [apply Ht|done..]).
  assert (tracks n (set_state st1 l) w) as Ht2 by by apply tracks_state.
  assert (tracks (n + 1) (set_state st1 l) w) as Ht3 by (eapply tracks_le; [|exact Ht2]; lia).
  destruct (_ <=? _) in H; [by injection H as <- <- <-|].
  destruct (usageLocked _ _ _) as [[[global perPrincipal] perSource] objects].
  destruct (_ || _) in H; [by injection H as <- <- <-|]. destruct (oe_id e) as [id|]; [|by injection H as <- <- <-].
  set (r0 := new_reservation e id principal source generation st1) in H. set (st' := with_daily _ day _) in H.
  assert (tracks n (set_state st' l) w) as Ht4.
  { apply (tracks_state n st' (set_state st1 l)); [done| |done]. by apply (revised_pending n st1 st' id r0). }
  destruct (persistLocked _ _ w) as [w1 p] eqn:Hp1. apply (tracks_persist n) in Hp1 as Ht5; [|done].
  destruct p as [[]|].
  2: { injection H as <- <- <-. apply (tracks_le n); [lia|]. apply (tracks_state n _ (set_state st' l)); [done| |done].
       apply (revised_quiet n st1); [done| |done..]. apply (quiet_delete id (ql_state l)); [done|].
       cbn. by rewrite delete_insert_eq. }
  destruct (AdmitCapabilityAcquisition _ _ _) as [a' res].
  assert (tracks (n + 1) (set_state st' l) (with_authority a' w1)) as Ht6
    by (apply (tracks_le n); [lia|by apply (tracks_same n _ w1)]).
  destruct res; [|injection H as <- <- <-; by destruct Ht6].
  set (st2 := with_books _ _ _ st') in H.
  destruct (persistLocked _ _ (with_authority a' w1)) as [w2 p] eqn:Hp2.
  apply (tracks_persist (n + 1)) in Hp2 as Ht7.
  - destruct p; injection H as <- <- <-; [done|by destruct Ht7].
  - apply (tracks_state (n + 1) st2 (set_state st' l)); [done| |done]. apply (revised_next n st1); [done|done| |done|by left].
    intros id' r' Hr'. cbn in Hr'. rewrite insert_insert_eq in Hr'. apply lookup_insert_Some in Hr' as [[_ <-]|[_ Hr']]; [done|].
    by eapply Hquiet.
Qed.

Lemma revised_drop n st id : revised n st -> revised n (with_reservations (delete id (ls_Reservations st)) st).
Proof.
  intros [Hb Ho Hp H1]. constructor; cbn; [done|done| |].
  - intros id' r [_ Hr]%lookup_delete_Some. by eapply Hp.
  - intros id1 id2 r1 r2 [_ Hr1]%lookup_delete_Some [_ Hr2]%lookup_delete_Some. by eapply H1.
Qed.

Lemma Abort_tracks n e id l w l' w' r : Abort e id l w = (l', w', r) -> tracks n l w -> tracks n l' w'.
Proof.
  intros H Ht. unfold Abort in H. destruct (ql_closed l || ql_poisoned l); [by injection H as <- <- <-|].
  destruct (requirePinnedRootLocked _ l) as [l1 p] eqn:Hp. apply pinned_cases in Hp as [[-> ->]|[He ->]].
  2: { destruct p; [done|]. injection H as <- <- <-. by destruct Ht. }
  destruct (_ !! id); [|by injection H as <- <- <-]. destruct (_ || _) in H; [by injection H as <- <- <-|].
  destruct (persistLocked _ _ w) as [w1 p] eqn:Hp1. injection H as <- <- <-.
  eapply tracks_persist; [exact Hp1|]. apply tracks_state; [done|apply revised_drop, Ht|done].
Qed.

Lemma CommitReceipts_tracks n e l w l' w' r : CommitReceipts e l w = (l', w', r) -> tracks n l w -> tracks n l' w'.
Proof.
  intros H Ht. unfold CommitReceipts in H. destruct (ql_closed l || ql_poisoned l); [by injection H as <- <- <-|].
  destruct (requirePinnedRootLocked _ l) as [l1 p] eqn:Hp. apply pinned_cases in Hp as [[-> ->]|[He ->]].
  - destruct (receipts_of _ _); injection H as <- <- <-; by destruct Ht.
  - destruct p; [done|]. injection H as <- <- <-. by destruct Ht.
Qed.

Lemma revised_deleted n st digests tombstones generation :
  revised n st -> revised n (with_deleted (foldr delete (ls_Objects st) digests) tombstones generation st).
Proof.
  intros [Hb Ho Hp H1]. constructor; cbn; try done. intros key o Hk. cbn in Hk |- *.
  apply (Ho key). eapply lookup_weaken; [exact Hk|apply foldr_delete_subseteq].
Qed.

Lemma GarbageCollect_tracks n e digests expected next l w l' w' r :
  GarbageCollect e digests expected next l w = (l', w', r) -> tracks n l w -> tracks n l' w'.
Proof.
  intros H Ht. unfold GarbageCollect in H. destruct (ql_closed l || ql_poisoned l); [by injection H as <- <- <-|].
  destruct (requirePinnedRootLocked _ l) as [l1 p] eqn:Hp. apply pinned_cases in Hp as [[-> ->]|[He ->]].
  2: { destruct p; [done|]. injection H as <- <- <-. by destruct Ht. }
  destruct (_ || _) in H; [by injection H as <- <- <-|].
  destruct (deletable _ _ _) as [[]|]; [|by injection H as <- <- <-]. set (st' := with_deleted _ _ _ _) in H.
  assert (tracks n (set_state st' l) w) as Ht1
    by (apply tracks_state; [done|apply revised_deleted, Ht|split; [apply foldr_delete_subseteq|done]]).
  destruct (persistLocked _ _ w) as [w1 p] eqn:Hp1. apply (tracks_persist n) in Hp1; [|exact Ht1].
  destruct p; [|by injection H as <- <- <-].
  destruct (removeTrees _ _ _) as [w2 p] eqn:Hr. apply removeTrees_files in Hr as [E1 _].
  apply (tracks_same _ _ _ w2) in Hp1; [|done]. destruct p; injection H as <- <- <-; [done|by destruct Hp1].
Qed.

(** A commit that fails may leave the ledger ahead of its file, which its client
    then gives up. *)
Lemma prepareAndCommit_tracks n e reservation temp key b f dedup l w l' w' r :
  prepareAndCommitLocked e reservation temp key b f dedup l w = (l', w', r) -> quiet (ql_state l) ->
  n < MaxUint64 -> tracks n l w -> revised_file (n + 1) w' /\ (is_err r = false -> tracks (n + 1) l' w').
Proof.
  intros H Hq Hn Ht. unfold prepareAndCommitLocked in H. set (r1 := prepared reservation key b f temp _) in H.
  set (st1 := with_reservations _ (ql_state l)) in H.
  assert (forall w l, tracks n l w -> tracks (n + 1) l w) as Hle by (intros w0 l0; apply tracks_le; lia).
  assert (tracks n (set_state st1 l) w) as Ht1.
  { apply tracks_state; [done| |done]. apply (revised_pending n (ql_state l) st1 (r_ID reservation) r1); [apply Ht|done..]. }
  destruct (persistLocked _ _ w) as [w1 p] eqn:Hp1. apply (tracks_persist n) in Hp1 as Ht2; [|done].
  assert (revised_file (n + 1) w1) as Hf1 by by apply (tk_file _ (set_state st1 l)), Hle.
  destruct p; [|by injection H as <- <- <-].
  destruct (requirePinnedRootLocked _ _) as [l2 p] eqn:Hp. apply pinned_cases in Hp as [[-> ->]|[He ->]].
  2: { destruct p; [done|]. by injection H as <- <- <-. }
  destruct (AdmitCapabilityAcquisition _ _ _) as [a2 res]. destruct res; [|by injection H as <- <- <-].
  destruct (if dedup then _ else _) as [w3 p] eqn:Hpub. apply published_files in Hpub as [Ef _].
  assert (revised_file (n + 1) w3) as Hf3 by (unfold revised_file; by rewrite Ef).
  destruct p; [|by injection H as <- <- <-]. set (st2 := with_books _ _ _ _) in H.
  assert (revised (n + 1) st2) as Hr2.
  { apply (revised_next n (ql_state l)); [apply Ht|done| |done|].
    - apply (quiet_delete (r_ID reservation) (ql_state l)); [done|]. cbn. by rewrite delete_insert_eq.
    - intros key' o Ho. cbn in Ho. apply lookup_insert_Some in Ho as [[_ <-]|[_ Ho]]; [by right|by left]. }
  destruct (persistLocked _ _ w3) as [w4 p] eqn:Hp4. eapply (revised_persist (n + 1)) in Hp4 as (Hf4 & _ & Hk); [|done|done].
  destruct p as [[]|]; injection H as <- <- <-; [|done]. split; [done|]. intros _. constructor; [done|done|by apply Hk].
Qed.

Lemma Commit_tracks n e id path d l w l' w' r :
  Commit e id path d l w = (l', w', r) -> (ql_poisoned l = false -> quiet (ql_state l)) ->
  n < MaxUint64 -> tracks n l w -> revised_file (n + 1) w' /\ (is_err r = false -> tracks (n + 1) l' w').
Proof.
  intros H Hquiet Hn Ht.
  assert (forall w l, tracks n l w -> revised_file (n + 1) w /\ tracks (n + 1) l w) as Hle.
  { intros w0 l0 H0. assert (tracks (n + 1) l0 w0) as H0' by (apply (tracks_le n); [lia|done]). split; [apply H0'|done]. }
  pose proof (Hle _ _ Ht) as [Hf Ht1]. unfold Commit in H.
  destruct (ql_closed l || ql_poisoned l) eqn:Hcp; [by injection H as <- <- <-|]. apply orb_false_iff in Hcp as [_ Hpo].
  destruct (requirePinnedRootLocked _ l) as [l1 p] eqn:Hp. apply pinned_cases in Hp as [[-> ->]|[He ->]].
  2: { destruct p; [done|]. by injection H as <- <- <-. }
  destruct (_ !! id); [|by injection H as <- <- <-]. destruct (_ || _) in H; [by injection H as <- <- <-|].
  destruct (directTemporaryName _ l path); [|by injection H as <- <- <-].
  destruct (if oe_read_fails e then _ else _) as [s|]; [|by injection H as <- <- <-].
  destruct (hashQuarantineSnapshot s); [|by injection H as <- <- <-].
  destruct (negb _) in H; [by injection H as <- <- <-|]. destruct (_ || _) in H; [by injection H as <- <- <-|].
  destruct (bool_decide _) in H; [by injection H as <- <- <-|].
  destruct (ls_Objects (ql_state l) !! _).
  - destruct (read_tree _ _ _); [|by injection H as <- <- <-]. destruct (negb _) in H; [by injection H as <- <- <-|].
    destruct (_ || _) in H; [by injection H as <- <- <-|]. set (st1 := with_reservations _ _) in H.
    assert (tracks n (set_state st1 l) w) as Ht2 by (apply tracks_state; [done|apply revised_drop, Ht|done]).
    destruct (persistLocked _ _ w) as [w1 p] eqn:Hp1. apply (tracks_persist n) in Hp1; [|done].
    destruct p; [|injection H as <- <- <-; by destruct (Hle _ _ Hp1)].
    destruct (removeAll _ _ _) as [w2 p] eqn:Hr. apply removeAll_files in Hr as [E1 _].
    apply (tracks_same _ _ _ w2) in Hp1; [|done]. destruct (Hle _ _ Hp1) as [? ?].
    destruct p; injection H as <- <- <-; (split; [done|]); done.
  - destruct (oe_stat_fails e); [by injection H as <- <- <-|]. destruct (bool_decide _) in H; [by injection H as <- <- <-|].
    destruct (stageQuarantineSnapshot _ _ _) as [w1 p] eqn:Hst. apply stage_files in Hst as (E1 & _).
    assert (tracks n l w1) as Ht2 by by eapply tracks_same.
    destruct p; [|injection H as <- <- <-; by destruct (Hle _ _ Ht2)].
    destruct (prepareAndCommitLocked _ _ _ _ _ _ _ _ _) as [[l2 w2] c] eqn:Hc.
    eapply prepareAndCommit_tracks in Hc as [Hf2 Ht3]; [|by apply Hquiet|done|done].
    destruct c; injection H as <- <- <-; [|done]. specialize (Ht3 eq_refl).
    destruct (removeAll _ _ w2) as [w3 p] eqn:Hr. apply removeAll_files in Hr as [E3 _].
    apply (tracks_same _ _ _ w3) in Ht3; [|done]. split; [apply Ht3|done].
Qed.

(** Reconciling settles the one transition that may be pending. *)
Definition settling (n : N) (st : quarantineLedgerState) : Prop := revised n st \/ (quiet st /\ revised (n + 1) st).

Lemma settling_next n st : settling n st -> revised (n + 1) st.
Proof. intros [H|[_ H]]; [|done]. eapply revised_le; [|exact H]. lia. Qed.

Lemma settling_expire n e id r l : settling n (ql_state l) -> settling n (ql_state (expire e id r l)).
Proof.
  intros H. unfold expire. destruct (_ <=? _); [|done]. destruct H as [H|[Hq H]]; [left; by apply revised_drop|right].
  split; [by eapply quiet_delete|by apply revised_drop].
Qed.

(** A pending transition is settled by a state whose other reservations it
    leaves alone. *)
Lemma settling_settled n st st' id r :
  settling n st -> n < MaxUint64 -> ls_Reservations st !! id = Some r -> r_AuthorityPhase r <> "reserved" ->
  ls_LedgerRevision st' = r_NextRevision r ->
  (forall id' r', ls_Reservations st' !! id' = Some r' ->
     r_AuthorityPhase r' = "reserved" \/ (id' <> id /\ ls_Reservations st !! id' = Some r')) ->
  (forall key o, ls_Objects st' !! key = Some o ->
     ls_Objects st !! key = Some o \/ ar_NextRevision (q_CommitTransition o) = r_NextRevision r) ->
  settling n st'.
Proof.
  intros [H|[Hq _]] Hn Hid Hne Er Hres Hobj; [|by destruct (Hne (Hq id r Hid))]. right.
  pose proof (rv_pending _ _ H id r Hid Hne) as En.
  assert (quiet st') as Hq by by eapply quiet_settled.
  split; [done|]. apply (revised_next n st); [done|done|done|by rewrite Er|]. by rewrite <- En.
Qed.

Lemma reconcile_reservation_settles n e id r l w l' w' res :
  reconcile_reservation e id r l w = (l', w', res) -> ls_Reservations (ql_state l) !! id = Some r ->
  n < MaxUint64 -> settling n (ql_state l) -> settling n (ql_state l').
Proof.
  intros H Hid Hn Hs. unfold reconcile_reservation in H.
  destruct (bool_decide (r_AuthorityPhase r = "reserve-prepared")) eqn:Hph; bprop.
  - destruct (AdmitCapabilityAcquisition _ _ _) as [a p]. destruct p; injection H as <- <- <-; [|done].
    apply settling_expire. eapply (settling_settled n (ql_state l) _ id r); [done|done|done|by rewrite Hph|done| |by left].
    intros id' r' Hr'. cbn in Hr'. apply lookup_insert_Some in Hr' as [[_ <-]|[? ?]]; [by left|by right].
  - destruct (bool_decide _ && _) eqn:Hc in H.
    + apply andb_true_iff in Hc as [Hc _]. bprop. unfold recoverCommitLocked in H.
      destruct (_ || _) in H; [by injection H as <- <- <-|]. destruct (AdmitCapabilityAcquisition _ _ _) as [a p].
      destruct p; [|by injection H as <- <- <-]. destruct (oo_stat_fails e _); [by injection H as <- <- <-|].
      destruct (match w_entries _ !! _ with Some _ => _ | None => _ end) as [w1 p].
      destruct p; [|by injection H as <- <- <-]. destruct (read_tree _ _ _); [|by injection H as <- <- <-].
      destruct (negb _) in H; injection H as <- <- <-; [done|].
      eapply (settling_settled n (ql_state l) _ id r); [done|done|done|by rewrite Hc|done| |].
      * intros id' r' Hr'. cbn in Hr'. apply lookup_delete_Some in Hr' as [? ?]. by right.
      * intros key o Ho. cbn in Ho. apply lookup_insert_Some in Ho as [[_ <-]|[_ ?]]; [by right|by left].
    + destruct (negb _) in H; injection H as <- <- <-; [done|by apply settling_expire].
Qed.

Lemma reconcile_reservations_settle n e ids : forall l w l' w' res,
  reconcile_reservations e ids l w = (l', w', res) -> n < MaxUint64 -> settling n (ql_state l) -> settling n (ql_state l').
Proof.
  induction ids as [|id ids IH]; intros l w l' w' res H Hn Hs; cbn in H; [by injection H as <- <- <-|].
  destruct (_ !! id) as [r|] eqn:Hid; [|by eapply IH].
  destruct (reconcile_reservation _ _ _ _ _) as [[l1 w1] p] eqn:Hone.
  eapply reconcile_reservation_settles in Hone; [|done|exact Hn|exact Hs].
  destruct p; [by eapply IH|by injection H as <- <- <-].
Qed.

Lemma reconcile_reservations_file e ids : forall l w l' w' res,
  reconcile_reservations e ids l w = (l', w', res) -> w_file w' = w_file w.
Proof.
  induction ids as [|id ids IH]; intros l w l' w' res H; cbn in H; [by injection H as <- <- <-|].
  destruct (_ !! id) as [r|]; [|by eapply IH].
  destruct (reconcile_reservation _ _ _ _ _) as [[l1 w1] p] eqn:Hone.
  assert (w_file w1 = w_file w) as E.
  { unfold reconcile_reservation in Hone. destruct (bool_decide _) in Hone.
    - destruct (AdmitCapabilityAcquisition _ _ _) as [a q]. by destruct q; injection Hone as <- <- <-.
    - destruct (bool_decide _ && _) in Hone; [|by destruct (negb _) in Hone; injection Hone as <- <- <-].
      unfold recoverCommitLocked in Hone. destruct (_ || _) in Hone; [by injection Hone as <- <- <-|].
      destruct (AdmitCapabilityAcquisition _ _ _) as [a q]. destruct q; [|by injection Hone as <- <- <-].
      destruct (oo_stat_fails e _); [by injection Hone as <- <- <-|].
      destruct (match w_entries _ !! _ with Some _ => _ | None => _ end) as [w2 q] eqn:Hpub.
      assert (w_file w2 = w_file w) as E2
        by (destruct (w_entries _ !! _); [by injection Hpub as <- <-|by apply publish_files in Hpub as [? _]]).
      destruct q; [|by injection Hone as <- <- <-]. destruct (read_tree _ _ _); [|by injection Hone as <- <- <-].
      by destruct (negb _) in Hone; injection Hone as <- <- <-. }
  destruct p; [|by injection H as <- <- <-]. rewrite <- E. by eapply IH.
Qed.

Lemma no_state_revised id device inode : revised 0 (no_state id device inode).
Proof.
  constructor; cbn; [done|by intros k o Hk%lookup_empty_Some|by intros k r Hk%lookup_empty_Some|].
  by intros k k' r r' Hk%lookup_empty_Some.
Qed.

Lemma Open_tracks n e w w' res :
  OpenQuarantineLedger e root owner agent w = (w', res) -> n < MaxUint64 -> revised_file n w ->
  revised_file (n + 1) w' /\ (forall l, res = Ok l -> tracks (n + 1) l w').
Proof.
  intros H Hn Hf. unfold OpenQuarantineLedger in H.
  assert (forall w1, w_file w1 = w_file w -> revised_file (n + 1) w1) as Hsame.
  { intros w1 E d Hd. rewrite E in Hd. apply (revised_le n); [lia|by apply Hf]. }
  pose proof (Hsame w eq_refl) as Hf1.
  destruct (_ || _) in H; [by injection H as <- <-|].
  destruct (oo_handle e) as [[device inode]|]; [|by injection H as <- <-].
  destruct (oo_lock e); [|by injection H as <- <-]. destruct (oo_id e) as [lid|]; [|by injection H as <- <-].
  destruct (match w_file w with FileAbsent => _ | FileUnreadable => _ | FileUndecodable => _ | FileDoc _ => _ end)
    as [st0|] eqn:Hl; [|by injection H as <- <-].
  assert (revised n st0) as H0.
  { unfold revised_file in Hf. destruct (w_file w) as [| | |d]; [|done|done|].
    - injection Hl as <-. apply (revised_le 0); [lia|apply no_state_revised].
    - destruct (_ || _) in Hl; [done|]. injection Hl as <-. by apply Hf. }
  destruct (reconcileLocked e _ w) as [[l w1] p] eqn:Hrec. injection H as <- <-. unfold reconcileLocked in Hrec.
  destruct (reconcile_reservations _ _ _ _) as [[l1 w2] p1] eqn:Hfold.
  pose proof (reconcile_reservations_file _ _ _ _ _ _ _ Hfold) as E2.
  apply (reconcile_reservations_settle n) in Hfold; [|done|by left]. apply settling_next in Hfold as Hr1.
  destruct p1; [|injection Hrec as <- <- <-; split; [by apply Hsame|done]].
  destruct (oo_read_dir_fails e); [injection Hrec as <- <- <-; split; [by apply Hsame|done]|].
  destruct (reconcile_entries _ _ _ _) as [w3 p3] eqn:Hent. apply reconcile_entries_files in Hent as [E3 _].
  assert (w_file w3 = w_file w) as Ew3 by by rewrite E3.
  destruct p3; [|injection Hrec as <- <- <-; split; [by apply Hsame|done]].
  destruct (range_check _ _); [|injection Hrec as <- <- <-; split; [by apply Hsame|done]].
  destruct (persistLocked _ _ _) as [w4 p4] eqn:Hp4. injection Hrec as <- <- <-.
  eapply (revised_persist (n + 1)) in Hp4 as (Hf4 & _ & Hk); [|done|by apply Hsame].
  split; [done|]. intros l Hl1. destruct p4 as [[]|]; [|done]. injection Hl1 as <-. constructor; [done|done|by apply Hk].
Qed.

(** Every run of a careful client, with the number of its calls. *)
Definition tracks_sys (n : N) (s : sys) : Prop :=
  revised_file n (sy_world s) /\ forall l, sy_ledger s = Some l -> tracks n l (sy_world s).

Lemma qstep_tracks n s s' :
  qstep root owner agent true s s' -> careful_ok s -> n < MaxUint64 -> tracks_sys n s -> tracks_sys (n + 1) s'.
Proof.
  intros [request Hst] (_ & _ & Hc) Hn [Hf Hl].
  assert (tracks_sys (n + 1) s) as [Hf1 Hl1].
  { split; [intros d Hd; apply (revised_le n); [lia|by apply Hf]|]. intros l E. apply (tracks_le n); [lia|by apply Hl]. }
  destruct Hst; cbn in *; try (pose proof (Hl _ eq_refl) as Ht; pose proof (Hl1 _ eq_refl) as Ht1;
    assert (ql_poisoned l = false -> quiet (ql_state l)) as Hq by (intros Hpo; by destruct (lo_memory _ _ (Hc l eq_refl) Hpo))).
  - edestruct Open_tracks as [H3 H4]; [done..|]. split; [done|]. intros l0 [= <-]. by apply H4.
  - edestruct Open_tracks as [H3 H4]; [done..|]. split; [done|]. by intros l0.
  - assert (tracks (n + 1) l' w') as Hok by by eapply Reserve_tracks. split; [apply Hok|]. by intros l0 [= <-].
  - assert (tracks (n + 1) l' w') as Hok by by eapply Abort_tracks. split; [apply Hok|]. by intros l0 [= <-].
  - edestruct Commit_tracks as [? Hok]; [done..|]. split; [done|]. intros l0 Hl0.
    destruct (is_err r) eqn:Er; [done|]. injection Hl0 as <-. by apply Hok.
  - assert (tracks (n + 1) l' w') as Hok by by eapply CommitReceipts_tracks. split; [apply Hok|]. by intros l0 [= <-].
  - assert (tracks (n + 1) l' w') as Hok by by eapply GarbageCollect_tracks. split; [apply Hok|]. by intros l0 [= <-].
  - split; [done|]. by intros l0.
  - split; [done|]. intros l E. by apply (tracks_same _ _ w), Hl1.
  - split; [done|]. intros l E. by apply (tracks_same _ _ w), Hl1.
  - split; [done|]. intros l E. by apply (tracks_same _ _ w), Hl1.
Qed.

Lemma steps_tracks n w s :
  unused true w -> nsteps (qstep root owner agent true) n {| sy_ledger := None; sy_world := w |} s ->
  N.of_nat n <= MaxUint64 -> careful_ok s /\ tracks_sys (N.of_nat n) s.
Proof.
  intros Hu. remember {| sy_ledger := None; sy_world := w |} as s0 eqn:E0. revert s.
  induction n as [|n IH]; intros s Hr Hn.
  - inversion Hr; subst. split; [by apply unused_careful|]. split; [|by intros l]. intros d. cbn.
    destruct Hu as [Hf _]. by rewrite Hf.
  - apply nsteps_inv_r in Hr as (s1 & Hr & Hst). destruct (IH s1 Hr ltac:(lia)) as [Hc Ht].
    split; [by eapply qstep_careful|]. replace (N.of_nat (S n)) with (N.of_nat n + 1) by lia.
    eapply qstep_tracks; [done|done|lia|done].
Qed.

(** The inventory's check of the receipt of an object the reopened ledger holds. *)
Lemma receipt_valid ev w w1 l l1 key o :
  HasPrefix root "/" = true -> Clean root = root -> ql_device l <> 0 -> ql_inode l <> 0 -> ql_root l = root ->
  object_ok owner agent (w_authority w) (ql_state l) key o ->
  OpenQuarantineLedger ev root owner agent w = (w1, Ok l1) ->
  ql_device l1 = ql_device l -> ql_inode l1 = ql_inode l -> ql_root l1 = root -> w_authority w1 = w_authority w ->
  ls_LedgerID (ql_state l1) = ls_LedgerID (ql_state l) -> ls_Objects (ql_state l1) !! key = Some o ->
  ar_NextRevision (q_CommitTransition o) <= ls_LedgerRevision (ql_state l1) ->
  stored (w_entries w1) key key (q_Bytes o) (q_Files o) ->
  (ValidateQuarantineCommitReceipt ev Answered false false (receiptForRecord l o) w).2 =
    Ok (root +:+ "/" +:+ hex_EncodeToString (ar_ContentDigest (q_CommitTransition o))).
Proof.
  intros Hpre Hclean Hdev Hino Eroot Hob Eopen Edev1 Eino1 Eroot1 Ea1 Elid Hkey Hrev Hst1.
  pose proof Hob as [Ed Ek Had Hc Hph Hoo Hag Hle Hpr Hso Hge Hby Hfi [Hrb Hrf]].
  unfold ValidateQuarantineCommitReceipt. cbn [receiptForRecord receipt_of rc_Transition rc_SchemaVersion rc_RootDevice rc_RootInode rc_LedgerRoot].
  pose proof (complete_digest _ Hc Hph) as H32. pose proof Hc as Hc'. unfold acquisition_complete in Hc'.
  apply negb_true_iff in Hc'. rewrite !orb_false_iff in Hc'.
  destruct Hc' as [[[[[[[[[[[[[[C1 C2] C3] C4] C5] C6] C7] C8] C9] C10] C11] C12] C13] _] C15].
  rewrite Hph, bool_decide_eq_true_2, andb_true_l, !orb_false_iff in C15 by done. destruct C15 as [[[_ C16] C17] C18].
  rewrite Eroot, Hpre, Hclean, C1, Hph, C2, C3, C4, H32, C13, Hoo, Hag.
  apply N.eqb_neq in Hdev, Hino. rewrite Hdev, Hino.
  rewrite Hrb in C17. rewrite Hrf in C18. rewrite C17, C18, !bool_decide_eq_true_2 by done. cbn [negb orb N.eqb Pos.eqb].
  rewrite Eopen, Edev1, Eino1, !N.eqb_refl, Elid, Hle.
  assert ((ls_LedgerRevision (ql_state l1) <? ar_NextRevision (q_CommitTransition o)) = false) as -> by (by apply N.ltb_ge).
  rewrite bool_decide_eq_true_2 by done. cbn [negb orb]. rewrite <- Ek, Hkey.
  rewrite Hpr, Hso, Hge, Hby, Hfi, !bool_decide_eq_true_2, !N.eqb_refl by done. cbn [negb orb].
  rewrite Ea1, admit_known by done.
  assert (stored (w_entries (with_authority (w_authority w) w1)) key key (q_Bytes o) (q_Files o)) as (cs & digest & He & Hha & Hx & Hu)
    by exact Hst1.
  unfold read_tree, read_usage. rewrite He, Hha, Hu.
  assert (digest = ar_ContentDigest (q_CommitTransition o)) as ->.
  { apply (f_equal hex_DecodeString) in Hx. rewrite Ek, !hex_decode_encode in Hx. by injection Hx. }
  rewrite bool_decide_eq_true_2, !N.eqb_refl by done. cbn [negb orb]. by rewrite Eroot1.
Qed.

(** C35: A receipt the ledger of a careful client lists passes the inventory's check
    once the ledger is closed, its rollback check of the revision included. This
    is after fewer than 2^64 calls, whatever failed in them; what its file still
    has under way must have been admitted, and it is reopened with nothing
    failing. The reopened ledger holds the very transition, the authority
    resolves it again, and the tree has the digest and the size it names. The
    result is the path of the retained tree. *)
Theorem quar_receipt n e ev w0 l w l' w' d receipts receipt :
  HasPrefix root "/" = true -> Clean root = root -> owner <> "" -> agent <> "" ->
  unused true w0 ->
  nsteps (qstep root owner agent true) n {| sy_ledger := None; sy_world := w0 |} {| sy_ledger := Some l; sy_world := w |} ->
  N.of_nat n < MaxUint64 ->
  CommitReceipts e l w = (l', w', Ok receipts) -> receipt ∈ receipts -> ql_device l <> 0 -> ql_inode l <> 0 ->
  w_file w = FileDoc d -> smooth ev d -> all_admitted d (w_authority w) ->
  (ValidateQuarantineCommitReceipt ev Answered false false receipt w).2 =
    Ok (root +:+ "/" +:+ hex_EncodeToString (ar_ContentDigest (rc_Transition receipt))).
Proof.
  intros Hpre Hclean Howner Hagent Hu Hruns Hn Hrec Hin Hdev Hino Hfile Hsm Hadm.
  assert (root <> "") as Hroot by (intros ->; done).
  destruct (steps_tracks _ _ _ Hu Hruns ltac:(lia)) as [Hsafe [Hrf Htk]]. cbn in Hrf, Htk.
  destruct (tk_kept _ _ _ (Htk l eq_refl)) as (d' & Hfile' & Hsub & Edd & Eid & Eld).
  rewrite Hfile in Hfile'. injection Hfile' as <-.
  destruct Hsafe as (Hsys & Hw & Hl). cbn in Hw, Hl. specialize (Hl l eq_refl). destruct (lo_pinned _ _ Hl) as (Eroot & Edev & Eino).
  destruct (listed_record _ _ _ _ _ _ _ Hrec Hin) as (_ & key & o & Hkey & ->). clear Hin Hrec.
  destruct Hsys as [Hsd Hmem]. destruct (Hmem l eq_refl) as (Hs & Eo & Eg).
  pose proof (proj2 Hs key o Hkey) as Hob.
  assert (careful_ok {| sy_ledger := None; sy_world := w |}) as Hclosed by (split; [split; [done|by intros]|]; split; [done|by intros]).
  destruct (smooth_open ev w d Hroot Howner Hagent Hclosed Hfile Hsm Hadm)
    as (w1 & l1 & Eopen & _ & _ & _ & Hours1 & Hpin1 & [Edev1 Eino1] & _ & Ea1 & Elid & _ & Hsub1 & _ & Hst & _).
  destruct (Open_tracks _ _ _ _ _ Eopen Hn Hrf) as [_ Htk1].
  assert (ls_Objects (ql_state l1) !! key = Some o) as Hkey1 by (eapply lookup_weaken; [exact Hkey|by trans (ls_Objects d)]).
  pose proof (rv_objects _ _ (tk_state _ _ _ (Htk1 l1 eq_refl)) key o Hkey1) as Hrev.
  apply (receipt_valid ev w w1 l l1 key o); try done.
  - by rewrite Edev1, <- Edd.
  - by rewrite Eino1, <- Eid.
  - by apply Hpin1.
  - by rewrite Elid, <- Eld.
  - by apply Hst.
Qed.
(** ** Deleted digests *)

(** The digest is tombstoned and no longer retained. *)
Definition buried (digest : string) (st : quarantineLedgerState) : Prop :=
  is_Some (ls_Tombstones st !! digest) /\ ls_Objects st !! digest = None.

Definition buried_file (digest : string) (w : world) : Prop := exists d, w_file w = FileDoc d /\ buried digest d.

Definition buried_sys (digest : string) (s : sys) : Prop :=
  buried_file digest (sy_world s) /\ forall l, sy_ledger s = Some l -> buried digest (ql_state l).

Lemma buried_persist digest e l w w' r :
  persistLocked e l w = (w', r) -> buried_file digest w -> buried digest (ql_state l) -> buried_file digest w'.
Proof.
  intros Hp (d & Hd & Hb) Hl. apply quar_persist_cases in Hp as (_ & _ & [E|E] & _); [exists d|exists (ql_state l)]; by rewrite E.
Qed.

Lemma buried_same digest w w' : w_file w' = w_file w -> buried_file digest w -> buried_file digest w'.
Proof. intros E (d & Hd & Hb). exists d. by rewrite E. Qed.

Definition buried_both (digest : string) (l : QuarantineLedger) (w : world) : Prop :=
  buried_file digest w /\ buried digest (ql_state l).

Lemma Reserve_buried digest e principal source generation l w l' w' r :
  Reserve e principal source generation l w = (l', w', r) -> buried_both digest l w -> buried_both digest l' w'.
Proof.
  intros H [Hf Hb]. unfold Reserve in H. destruct (ql_closed l || ql_poisoned l); [by injection H as <- <- <-|].
  destruct (requirePinnedRootLocked _ l) as [l1 p] eqn:Hp. apply pinned_cases in Hp as [[-> ->]|[He ->]].
  2: { destruct p; [done|]. by injection H as <- <- <-. }
  destruct (_ || _) in H; [by injection H as <- <- <-|]. destruct (negb _ && _) in H; [by injection H as <- <- <-|].
  destruct (_ <=? _) in H; [by injection H as <- <- <-|].
  destruct (usageLocked _ _ _) as [[[global perPrincipal] perSource] objects].
  destruct (_ || _) in H; [by injection H as <- <- <-|]. destruct (oe_id e); [|by injection H as <- <- <-].
  destruct (persistLocked _ _ w) as [w1 p] eqn:Hp1. eapply buried_persist in Hp1; [|done|exact Hb].
  destruct p; [|by injection H as <- <- <-]. destruct (AdmitCapabilityAcquisition _ _ _) as [a' res].
  destruct res; [|by injection H as <- <- <-].
  destruct (persistLocked _ _ (with_authority a' w1)) as [w2 p] eqn:Hp2.
  eapply buried_persist in Hp2; [|done|exact Hb]. destruct p; by injection H as <- <- <-.
Qed.

Lemma Abort_buried digest e id l w l' w' r :
  Abort e id l w = (l', w', r) -> buried_both digest l w -> buried_both digest l' w'.
Proof.
  intros H [Hf Hb]. unfold Abort in H. destruct (ql_closed l || ql_poisoned l); [by injection H as <- <- <-|].
  destruct (requirePinnedRootLocked _ l) as [l1 p] eqn:Hp. apply pinned_cases in Hp as [[-> ->]|[He ->]].
  2: { destruct p; [done|]. by injection H as <- <- <-. }
  destruct (_ !! id); [|by injection H as <- <- <-]. destruct (_ || _) in H; [by injection H as <- <- <-|].
  destruct (persistLocked _ _ w) as [w1 p] eqn:Hp1. eapply buried_persist in Hp1; [|done|exact Hb].
  by injection H as <- <- <-.
Qed.

Lemma CommitReceipts_buried digest e l w l' w' r :
  CommitReceipts e l w = (l', w', r) -> buried_both digest l w -> buried_both digest l' w'.
Proof.
  intros H Hb. unfold CommitReceipts in H. destruct (ql_closed l || ql_poisoned l); [by injection H as <- <- <-|].
  destruct (requirePinnedRootLocked _ l) as [l1 p] eqn:Hp. apply pinned_cases in Hp as [[-> ->]|[He ->]].
  - destruct (receipts_of _ _); by injection H as <- <- <-.
  - destruct p; [done|]. by injection H as <- <- <-.
Qed.

Lemma GarbageCollect_buried digest e digests expected next l w l' w' r :
  GarbageCollect e digests expected next l w = (l', w', r) -> buried_both digest l w -> buried_both digest l' w'.
Proof.
  intros H [Hf [Ht Ho]]. unfold GarbageCollect in H. destruct (ql_closed l || ql_poisoned l); [by injection H as <- <- <-|].
  destruct (requirePinnedRootLocked _ l) as [l1 p] eqn:Hp. apply pinned_cases in Hp as [[-> ->]|[He ->]].
  2: { destruct p; [done|]. by injection H as <- <- <-. }
  destruct (_ || _) in H; [by injection H as <- <- <-|].
  destruct (deletable _ _ _) as [[]|] eqn:Hdel; [|by injection H as <- <- <-]. set (st' := with_deleted _ _ _ _) in H.
  assert (buried digest st') as Hb'.
  { split; cbn; [rewrite lookup_foldr_insert; by case_decide|rewrite lookup_foldr_delete; by case_decide]. }
  destruct (persistLocked _ _ w) as [w1 p] eqn:Hp1. eapply buried_persist in Hp1; [|done|exact Hb'].
  destruct p; [|by injection H as <- <- <-].
  destruct (removeTrees _ _ _) as [w2 p] eqn:Hr. apply removeTrees_files in Hr as [E1 _].
  destruct p; injection H as <- <- <-; (split; [by eapply buried_same|exact Hb']).
Qed.

Lemma prepareAndCommit_buried digest e reservation temp key b f dedup l w l' w' r :
  prepareAndCommitLocked e reservation temp key b f dedup l w = (l', w', r) -> key <> digest ->
  buried_both digest l w -> buried_both digest l' w'.
Proof.
  intros H Hne [Hf Hb]. unfold prepareAndCommitLocked in H.
  destruct (persistLocked _ _ w) as [w1 p] eqn:Hp1. eapply buried_persist in Hp1; [|done|exact Hb].
  destruct p; [|by injection H as <- <- <-].
  destruct (requirePinnedRootLocked _ _) as [l2 p] eqn:Hp. apply pinned_cases in Hp as [[-> ->]|[He ->]].
  2: { destruct p; [done|]. by injection H as <- <- <-. }
  destruct (AdmitCapabilityAcquisition _ _ _) as [a2 res]. destruct res; [|by injection H as <- <- <-].
  destruct (if dedup then _ else _) as [w3 p] eqn:Hpub. apply published_files in Hpub as [Ef _].
  assert (buried_file digest w3) as Hf3 by by apply (buried_same digest w1).
  destruct p; [|by injection H as <- <- <-]. set (st2 := with_books _ _ _ _) in H.
  assert (buried digest st2) as Hb2 by (destruct Hb; split; [done|]; cbn; by rewrite lookup_insert_ne).
  destruct (persistLocked _ _ w3) as [w4 p] eqn:Hp4. eapply buried_persist in Hp4; [|done|exact Hb2].
  destruct p; by injection H as <- <- <-.
Qed.

Lemma Commit_buried digest e id path d l w l' w' r :
  Commit e id path d l w = (l', w', r) -> buried_both digest l w ->
  buried_both digest l' w' /\ (hex_EncodeToString d = digest -> is_err r = true).
Proof.
  intros H Hb. unfold Commit in H. destruct (ql_closed l || ql_poisoned l); [by injection H as <- <- <-|].
  destruct (requirePinnedRootLocked _ l) as [l1 p] eqn:Hp. apply pinned_cases in Hp as [[-> ->]|[He ->]].
  2: { destruct p; [done|]. by injection H as <- <- <-. }
  destruct (_ !! id); [|by injection H as <- <- <-]. destruct (_ || _) in H; [by injection H as <- <- <-|].
  destruct (directTemporaryName _ l path); [|by injection H as <- <- <-].
  destruct (if oe_read_fails e then _ else _) as [s|]; [|by injection H as <- <- <-].
  destruct (hashQuarantineSnapshot s); [|by injection H as <- <- <-].
  destruct (negb _) in H; [by injection H as <- <- <-|]. destruct (_ || _) in H; [by injection H as <- <- <-|].
  destruct (bool_decide (is_Some (ls_Tombstones _ !! _))) eqn:Ht; [by injection H as <- <- <-|]. bprop.
  assert (hex_EncodeToString d <> digest) as Hne by (intros E; rewrite E in Ht; by destruct Hb as [_ [? _]]).
  destruct (ls_Objects (ql_state l) !! _).
  - destruct (read_tree _ _ _); [|by injection H as <- <- <-]. destruct (negb _) in H; [by injection H as <- <- <-|].
    destruct (_ || _) in H; [by injection H as <- <- <-|].
    destruct (persistLocked _ _ w) as [w1 p] eqn:Hp1. eapply buried_persist in Hp1; [|apply Hb|apply Hb].
    assert (buried_both digest l w1) as Hb1 by (split; [done|apply Hb]).
    destruct p; [|by injection H as <- <- <-].
    destruct (removeAll _ _ _) as [w2 p] eqn:Hr. apply removeAll_files in Hr as [E1 _].
    destruct p; injection H as <- <- <-; (split; [split; [by eapply buried_same|apply Hb]|done]).
  - destruct (oe_stat_fails e); [by injection H as <- <- <-|]. destruct (bool_decide _) in H; [by injection H as <- <- <-|].
    destruct (stageQuarantineSnapshot _ _ _) as [w1 p] eqn:Hst. apply stage_files in Hst as (E1 & _).
    assert (buried_both digest l w1) as Hb1 by (destruct Hb; split; [by eapply buried_same|done]).
    destruct p; [|by injection H as <- <- <-].
    destruct (prepareAndCommitLocked _ _ _ _ _ _ _ _ _) as [[l2 w2] c] eqn:Hc.
    eapply prepareAndCommit_buried in Hc as [Hf2 Hb2]; [|done|done].
    destruct c; injection H as <- <- <-; [|done]. split; [|done]. split; [|done].
    destruct (removeAll _ _ w2) as [w3 p] eqn:Hr. apply removeAll_files in Hr as [E3 _]. by eapply buried_same.
Qed.

Lemma reconciling_buried st0 e ids digest : forall l w l' w' res,
  reconciling st0 l w -> reconcile_reservations e ids l w = (l', w', res) -> buried digest (ql_state l) -> buried digest (ql_state l').
Proof.
  induction ids as [|id ids IH]; intros l w l' w' res H Hrec Hb; cbn in Hrec; [by injection Hrec as <- <- <-|].
  destruct (_ !! id) as [r|] eqn:Hid; [|by eapply IH].
  destruct (reconcile_reservation _ _ _ _ _) as [[l1 w1] p] eqn:Hone.
  assert (buried digest (ql_state l1)) as Hb1.
  { assert (forall r l, buried digest (ql_state l) -> buried digest (ql_state (expire e id r l))) as Hexp
      by (intros r' l2 H2; unfold expire; by destruct (_ <=? _)).
    unfold reconcile_reservation in Hone. destruct (bool_decide _) in Hone.
    - destruct (AdmitCapabilityAcquisition _ _ _) as [a q]. destruct q; injection Hone as <- <- <-; [by apply Hexp|done].
    - destruct (bool_decide _ && _) eqn:Hc.
      + apply andb_true_iff in Hc as [Hc _]. bprop. unfold recoverCommitLocked in Hone.
        destruct (_ || _) in Hone; [by injection Hone as <- <- <-|]. destruct (AdmitCapabilityAcquisition _ _ _) as [a q].
        destruct q; [|by injection Hone as <- <- <-]. destruct (oo_stat_fails e _); [by injection Hone as <- <- <-|].
        destruct (match w_entries _ !! _ with Some _ => _ | None => _ end) as [w2 q].
        destruct q; [|by injection Hone as <- <- <-]. destruct (read_tree _ _ _); [|by injection Hone as <- <- <-].
        destruct (negb _) in Hone; injection Hone as <- <- <-; [done|].
        destruct (ag_prepared _ _ (rg_agree _ _ _ H) id r Hid Hc) as (_ & Hnt & _). destruct Hb as [Ht Ho]. split; [done|].
        cbn. rewrite lookup_insert_ne; [done|]. intros E. rewrite <- E, Hnt in Ht. by destruct Ht.
      + destruct (negb _) in Hone; injection Hone as <- <- <-; [done|by apply Hexp]. }
  destruct (reconciling_step _ _ _ _ _ _ _ _ _ H Hid Hone) as [H1 _].
  destruct p; [|by injection Hrec as <- <- <-]. by eapply IH.
Qed.

Lemma Open_buried digest e w w' res :
  OpenQuarantineLedger e root owner agent w = (w', res) -> open_ok e w -> world_ok w ->
  (forall d, w_file w = FileDoc d -> sound (w_authority w) d) -> buried_file digest w ->
  buried_file digest w' /\ (forall l, res = Ok l -> buried digest (ql_state l)).
Proof.
  intros H [_ Hid16] Hw Hsd (d & Hfile & Hb). unfold OpenQuarantineLedger in H.
  destruct (_ || _) in H; [by injection H as <- <-; split; [exists d|]|].
  destruct (oo_handle e) as [[device inode]|]; [|by injection H as <- <-; split; [exists d|]].
  destruct (oo_lock e); [|by injection H as <- <-; split; [exists d|]].
  destruct (oo_id e) as [lid|] eqn:Elid; [|by injection H as <- <-; split; [exists d|]].
  destruct (match w_file w with FileAbsent => _ | FileUnreadable => _ | FileUndecodable => _ | FileDoc _ => _ end)
    as [st0|] eqn:Hl; [|by injection H as <- <-; split; [exists d|]].
  pose proof Hl as Hl'. apply open_loaded in Hl' as (Hload & Hhead & Hdev & Hino); [|by apply Hid16].
  assert (st0 = d) as ->.
  { rewrite Hfile in Hl. destruct (_ || _) in Hl; [done|]. by injection Hl. }
  set (l0 := opened root owner agent device inode d) in H.
  assert (reconciling d l0 w) as H0 by (apply reconciling_start; try done; by apply Hsd).
  destruct (reconcileLocked e l0 w) as [[l w1] p] eqn:Hrec. injection H as <- <-. unfold reconcileLocked in Hrec.
  destruct (reconcile_reservations _ _ _ _) as [[l1 w2] p1] eqn:Hfold.
  pose proof (reconciling_buried _ _ _ digest _ _ _ _ _ H0 Hfold Hb) as Hb1.
  destruct (reconciling_all _ _ _ _ _ _ _ _ H0 Hfold) as [H1 _].
  assert (forall w, loaded w d -> buried_file digest w) as Hloaded.
  { intros w' [E|(E & i & dv & n & Ed)]; [by exists d|]. destruct Hb as [[x Hx] _]. rewrite Ed in Hx. cbn in Hx.
    by apply lookup_empty_Some in Hx. }
  pose proof (Hloaded _ (rg_file _ _ _ H1)) as Hf2.
  destruct p1; [|injection Hrec as <- <- <-; by split]. destruct (oo_read_dir_fails e); [injection Hrec as <- <- <-; by split|].
  destruct (reconcile_entries _ _ _ _) as [w3 p3] eqn:Hent. apply reconcile_entries_files in Hent as [Ef _].
  pose proof (buried_same _ _ _ Ef Hf2) as Hf3.
  destruct p3; [|injection Hrec as <- <- <-; by split]. destruct (range_check _ _); [|injection Hrec as <- <- <-; by split].
  destruct (persistLocked _ _ _) as [w4 p4] eqn:Hp4. injection Hrec as <- <- <-.
  split; [by eapply buried_persist|]. intros l Hl1. destruct p4; [|done]. by injection Hl1 as <-.
Qed.

Lemma qstep_buried digest s s' : qstep root owner agent true s s' -> careful_ok s -> buried_sys digest s -> buried_sys digest s'.
Proof.
  intros [request Hst] ([[Hsd _] _] & Hw & _) [Hf Hl]. destruct Hst; cbn in *;
    try (assert (buried_both digest l w) as Hb by (split; [done|by apply Hl])).
  - edestruct Open_buried as [? Hok]; [done..|]. split; [done|]. intros l0 [= <-]. by apply Hok.
  - edestruct Open_buried as [? Hok]; [done..|]. split; [done|]. by intros l0.
  - edestruct Reserve_buried; [done..|]. split; [done|]. by intros l0 [= <-].
  - edestruct Abort_buried; [done..|]. split; [done|]. by intros l0 [= <-].
  - edestruct Commit_buried as [[? ?] _]; [done..|]. split; [done|]. intros l0 Hl0.
    destruct (is_err r); [done|]. by injection Hl0 as <-.
  - edestruct CommitReceipts_buried; [done..|]. split; [done|]. by intros l0 [= <-].
  - edestruct GarbageCollect_buried; [done..|]. split; [done|]. by intros l0 [= <-].
  - split; [done|]. by intros l0.
  - split; [by eapply buried_same|done].
  - split; [by eapply buried_same|done].
  - split; [by eapply buried_same|done].
Qed.

(** Neither the ledger nor its file retains the digest. *)
Definition unretained (digest : string) (s : sys) : Prop :=
  forall st, (exists l, sy_ledger s = Some l /\ st = ql_state l) \/ w_file (sy_world s) = FileDoc st ->
    ls_Objects st !! digest = None.

(** C21: A deleted digest never comes back: after a completed deletion, whatever a
    careful client does and whatever fails, neither the ledger nor its file
    retains the digest, and a commit of it is refused. *)
Theorem quar_deleted_stays e digests expected next l w l' w' digest s :
  reachable root owner agent true {| sy_ledger := Some l; sy_world := w |} ->
  GarbageCollect e digests expected next l w = (l', w', Ok tt) -> digest ∈ digests ->
  rtc (qstep root owner agent true) {| sy_ledger := Some l'; sy_world := w' |} s ->
  unretained digest s /\
  (forall e1 id path d l1 l2 w2 r, sy_ledger s = Some l1 -> hex_EncodeToString d = digest ->
     Commit e1 id path d l1 (sy_world s) = (l2, w2, r) -> is_err r = true).
Proof.
  intros Hreach Hgc Hin Hrun. destruct Hreach as (w0 & Hu & Hr).
  assert (qstep root owner agent true {| sy_ledger := Some l; sy_world := w |} {| sy_ledger := Some l'; sy_world := w' |}) as Hst
    by (eexists; by eapply step_collect).
  assert (reachable root owner agent true {| sy_ledger := Some l'; sy_world := w' |}) as Hreach1
    by (exists w0; split; [done|]; eapply rtc_r; [exact Hr|exact Hst]).
  assert (buried_sys digest {| sy_ledger := Some l'; sy_world := w' |}) as Hb.
  { clear Hst Hreach1 Hrun Hr. unfold GarbageCollect in Hgc. destruct (ql_closed l || ql_poisoned l); [done|].
    destruct (requirePinnedRootLocked _ l) as [l1 p] eqn:Hp. apply pinned_cases in Hp as [[-> ->]|[He ->]]; [|by destruct p].
    destruct (_ || _) in Hgc; [done|]. destruct (deletable _ _ _); [|done]. set (st' := with_deleted _ _ _ _) in Hgc.
    assert (buried digest st') as Hb'.
    { split; cbn; [rewrite lookup_foldr_insert, decide_True by done; done|by rewrite lookup_foldr_delete, decide_True]. }
    destruct (persistLocked _ _ w) as [w1 p] eqn:Hp1. apply quar_persist_cases in Hp1 as (_ & _ & _ & Hok).
    destruct p as [[]|]; [|done]. specialize (Hok eq_refl). destruct (removeTrees _ _ _) as [w2 p] eqn:Hr.
    apply removeTrees_files in Hr as [E1 _]. destruct p; [|done]. injection Hgc as <- <-.
    split; cbn; [exists st'; by rewrite E1|]. by intros l1 [= <-]. }
  assert (reachable root owner agent true s /\ buried_sys digest s) as [_ [Hf Hl]].
  { clear Hst Hgc. induction Hrun as [|s0 s1 s2 Hstep Hrun IH]; [done|]. apply IH.
    - destruct Hreach1 as (w1 & Hu1 & Hr1). exists w1. split; [done|]. by eapply rtc_r.
    - eapply qstep_buried; [exact Hstep|by apply reachable_careful|done]. }
  split.
  - intros st [(l1 & E & ->)|E]; [by apply (Hl l1 E)|]. destruct Hf as (d & Ed & [_ Hb']). rewrite E in Ed. by injection Ed as ->.
  - intros e1 id path d l1 l2 w2 r E Hd Hc. eapply Commit_buried in Hc as [_ Herr]; [by apply Herr|]. split; [done|by apply Hl].
Qed.

End recovery.

End QuarRecovery.
