(* ===== verification/QuarRefusal.v ===== *)
(** * Capability control: a transition that can no longer be admitted

    Opening the quarantine ledger resolves every pending transition with the
    authority. When the authority has admitted another transition of the same
    revision, it refuses the pending one for good, and the ledger with all it
    retains stays closed. *)

From stdpp Require Import relations.
From S2P Require Import Prelude GoLib GoText GoUnicode FileStore Protocol QuarTree Quarantine QuarSafety QuarRecovery.
#[local] Open Scope string_scope.
#[local] Open Scope N_scope.

Module QuarRefusal.
Import QuarTree Quarantine QuarSafety QuarRecovery.

Section refusal.
Context {SHA : Sha256} {CR : ClosureRoot} {AA : AcquisitionAuthority} {AL : AuthorityLaws}.
Context (root owner agent : string).

(** A pending transition: a reservation or a commit under way. *)
Definition pending (r : QuarantineReservation) : Prop :=
  r_AuthorityPhase r = "reserve-prepared" \/ r_AuthorityPhase r = "commit-prepared".

(** The authority has admitted another transition in its place. *)
Definition displaced (r t : CapabilityAcquisitionRequest) (a : authority) : Prop :=
  admitted a t /\ ar_NextRevision r = ar_NextRevision t /\ r <> t.

Lemma displaced_refused d r t a a' res :
  displaced r t a -> AdmitCapabilityAcquisition d r a = (a', res) -> is_err res = true /\ displaced r t a'.
Proof.
  intros (Hd & En & Hne) H. pose proof (admit_grows _ _ _ _ _ H) as Hg.
  split; [|split; [by apply Hg|done]]. unfold AdmitCapabilityAcquisition in H.
  rewrite (admit_conflict a t r Hd En Hne) in H. destruct (negb _); [by injection H as <- <-|].
  by destruct d; injection H as <- <-.
Qed.

(** The reservations of others and the identity of the ledger are kept, and the
    file is not written. *)
Definition apart (id : string) (l l' : QuarantineLedger) (w w' : world) : Prop :=
  ls_Reservations (ql_state l') !! id = ls_Reservations (ql_state l) !! id /\
  (forall r phase, acquisitionRequest l' r phase = acquisitionRequest l r phase) /\
  w_file w' = w_file w /\ grows (w_authority w) (w_authority w').

Lemma apart_refl id l w : apart id l l w w.
Proof. split; [done|by split; [|split]]. Qed.

Lemma expire_apart id e id' r l w : id' <> id -> apart id l (expire e id' r l) w w.
Proof.
  intros Hne. unfold expire. destruct (_ <=? _); [|apply apart_refl].
  split; [|by split; [|split]]. cbn. by rewrite lookup_delete_ne.
Qed.

Lemma recover_apart id e id' r l w l' w' res :
  id' <> id -> recoverCommitLocked e id' r l w = (l', w', res) -> apart id l l' w w'.
Proof.
  intros Hne H. unfold recoverCommitLocked in H. destruct (_ || _) in H; [injection H as <- <- <-; apply apart_refl|].
  destruct (AdmitCapabilityAcquisition _ _ _) as [a answer] eqn:Ha. apply admit_grows in Ha.
  assert (apart id l l w (with_authority a w)) as H1 by (split; [done|by split; [|split]]).
  destruct answer; [|by injection H as <- <- <-]. destruct (oo_stat_fails e _); [by injection H as <- <- <-|].
  destruct (match w_entries _ !! _ with Some _ => _ | None => _ end) as [w2 p] eqn:Hp.
  assert (w_file w2 = w_file w /\ w_authority w2 = a) as [Ef Ea].
  { destruct (w_entries _ !! _); [by injection Hp as <- <-|]. by apply publish_files in Hp as [-> ->]. }
  assert (apart id l l w w2) as H2 by (split; [done|split; [done|split; [done|by rewrite Ea]]]).
  destruct p; [|by injection H as <- <- <-]. destruct (read_tree _ _ _); [|by injection H as <- <- <-].
  destruct (negb _) in H; injection H as <- <- <-; [done|].
  split; [cbn; by rewrite lookup_delete_ne|]. split; [done|split; [done|by rewrite Ea]].
Qed.

Lemma reconcile_apart id e id' r l w l' w' res :
  id' <> id -> reconcile_reservation e id' r l w = (l', w', res) -> apart id l l' w w'.
Proof.
  intros Hne H. unfold reconcile_reservation in H. destruct (bool_decide _) in H.
  - destruct (AdmitCapabilityAcquisition _ _ _) as [a answer] eqn:Ha. apply admit_grows in Ha.
    destruct answer; injection H as <- <- <-; [|(split; [done|by split; [|split]])].
    match goal with |- apart _ _ (expire _ _ ?r' ?l') _ _ => destruct (expire_apart id e id' r' l' w Hne) as (E1 & E2 & _) end.
    split; [rewrite E1; cbn; by rewrite lookup_insert_ne|]. split; [|by split]. intros r' phase. by rewrite E2.
  - destruct (_ && _) in H; [by eapply recover_apart|].
    destruct (negb _) in H; injection H as <- <- <-; [apply apart_refl|by apply expire_apart].
Qed.

(** The phase a pending reservation asks for. *)
Definition asked (r : QuarantineReservation) : string :=
  if bool_decide (r_AuthorityPhase r = "reserve-prepared") then "reserve" else "commit".

(** The visit of the pending transition itself. *)
Lemma reconcile_displaced e id r t l w l' w' res :
  pending r -> displaced (acquisitionRequest l r (asked r)) t (w_authority w) ->
  reconcile_reservation e id r l w = (l', w', res) ->
  is_err res = true /\ w_file w' = w_file w /\ grows (w_authority w) (w_authority w').
Proof.
  intros Hp Hd H. unfold asked in Hd. unfold reconcile_reservation, recoverCommitLocked in H.
  destruct Hp as [Hp|Hp]; rewrite Hp in H, Hd.
  - rewrite bool_decide_eq_true_2 in H, Hd by done. destruct (AdmitCapabilityAcquisition _ _ _) as [a answer] eqn:Ha.
    pose proof (admit_grows _ _ _ _ _ Ha) as Hg. destruct (displaced_refused _ _ _ _ _ _ Hd Ha) as [He _].
    destruct answer; [done|]. by injection H as <- <- <-.
  - rewrite bool_decide_eq_false_2 in H, Hd by done. rewrite bool_decide_eq_true_2 in H by done.
    cbn [andb] in H. destruct (negb _) in H.
    + destruct (_ || _) in H; [by injection H as <- <- <-|].
      destruct (AdmitCapabilityAcquisition _ _ _) as [a answer] eqn:Ha.
      pose proof (admit_grows _ _ _ _ _ Ha) as Hg. destruct (displaced_refused _ _ _ _ _ _ Hd Ha) as [He _].
      destruct answer; [done|]. by injection H as <- <- <-.
    + rewrite bool_decide_eq_false_2 in H by done. by injection H as <- <- <-.
Qed.

Lemma reservations_displaced e id r t ids : forall l w l' w' res,
  id ∈ ids -> ls_Reservations (ql_state l) !! id = Some r -> pending r ->
  displaced (acquisitionRequest l r (asked r)) t (w_authority w) ->
  reconcile_reservations e ids l w = (l', w', res) ->
  is_err res = true /\ w_file w' = w_file w /\ grows (w_authority w) (w_authority w').
Proof.
  induction ids as [|id' ids IH]; intros l w l' w' res Hin Hid Hp Hd H; [by apply not_elem_of_nil in Hin|].
  cbn in H. destruct (decide (id' = id)) as [->|Hne].
  - rewrite Hid in H. destruct (reconcile_reservation _ _ _ _ _) as [[l1 w1] p] eqn:Hone.
    destruct (reconcile_displaced _ _ _ _ _ _ _ _ _ Hp Hd Hone) as [He Hr].
    destruct p; [done|]. by injection H as <- <- <-.
  - assert (id ∈ ids) as Hin' by (by apply elem_of_cons in Hin as [->|]).
    destruct (ls_Reservations (ql_state l) !! id') as [r'|]; [|by eapply IH].
    destruct (reconcile_reservation _ _ _ _ _) as [[l1 w1] p] eqn:Hone.
    destruct (reconcile_apart _ _ _ _ _ _ _ _ _ Hne Hone) as (E1 & E2 & Ef & Hg).
    destruct p; [|by injection H as <- <- <-].
    edestruct IH as (He & Ef' & Hg'); [exact Hin'|by rewrite E1|exact Hp| |exact H|].
    + destruct Hd as (Ht & En & Hn). split; [by apply Hg|]. by rewrite E2.
    + split; [done|]. split; [congruence|]. intros x Hx. by apply Hg', Hg.
Qed.

(** The request is that of the document, whatever directory it was opened with. *)
Lemma open_displaced e w d id r t w' res :
  open_ok e w -> w_file w = FileDoc d -> ls_Reservations d !! id = Some r -> pending r ->
  displaced (pending_request root owner agent d r) t (w_authority w) ->
  OpenQuarantineLedger e root owner agent w = (w', res) ->
  is_err res = true /\ w_file w' = FileDoc d /\ grows (w_authority w) (w_authority w').
Proof.
  intros [Hord _] Hf Hid Hp Hd H. unfold OpenQuarantineLedger in H.
  destruct (_ || _) in H; [by injection H as <- <-|].
  destruct (oo_handle e) as [[device inode]|]; [|by injection H as <- <-].
  destruct (oo_lock e); [|by injection H as <- <-]. destruct (oo_id e); [|by injection H as <- <-].
  rewrite Hf in H. destruct (_ || _) in H; [by injection H as <- <-|].
  destruct (reconcileLocked _ _ _) as [[l w1] done] eqn:Hrec. unfold reconcileLocked in Hrec.
  destruct (reconcile_reservations _ _ _ _) as [[l1 w2] p] eqn:Hr.
  eapply (reservations_displaced e id r t) in Hr as (He & Ef & Hg); [|by eapply Hord|exact Hid|exact Hp|exact Hd].
  destruct p; [done|]. injection Hrec as <- <- <-. injection H as <- <-. by rewrite Ef.
Qed.

(** C37: Once the authority has admitted another transition with the revision of a
    pending one, the ledger is closed for good: whatever is tried, whoever
    changes the staging area and however the authority goes on, no opening
    succeeds and the file is never written again, so nothing retained is ever
    listed, registered or deleted. *)
Theorem quar_displaced_final careful w d id r t s :
  w_file w = FileDoc d -> ls_Reservations d !! id = Some r -> pending r ->
  displaced (pending_request root owner agent d r) t (w_authority w) ->
  rtc (qstep root owner agent careful) {| sy_ledger := None; sy_world := w |} s ->
  sy_ledger s = None /\ w_file (sy_world s) = FileDoc d.
Proof.
  intros Hf Hid Hp Hd Hrun. remember {| sy_ledger := None; sy_world := w |} as s0 eqn:E0.
  revert w Hf Hd E0. induction Hrun as [s0|s0 s1 s2 Hst Hrun IH]; intros w Hf Hd ->; [done|].
  assert (forall w', grows (w_authority w) (w_authority w') ->
            displaced (pending_request root owner agent d r) t (w_authority w')) as Hlater.
  { intros w' Hg. destruct Hd as (Ht & En & Hn). split; [by apply Hg|done]. }
  destruct Hst as [request Hst]. inversion Hst; subst; try by (eapply IH; [| |reflexivity]; [exact Hf|apply Hlater; done]).
  - edestruct open_displaced as [He _]; [done..|]. done.
  - edestruct open_displaced as (_ & Ef & Hg); [done..|]. eapply IH; [exact Ef|by apply Hlater|reflexivity].
Qed.

End refusal.

End QuarRefusal.
