(* ===== verification/QuarExample.v ===== *)
(** * Capability control: concrete runs of the quarantine ledger

    An authority that implements the interface of Quarantine.v (the
    [strictAcquisitionFence] of quarantine_ledger_test.go), a sample hash, and
    runs from an unused directory that the properties are applied to. *)

From stdpp Require Import relations.
From S2P Require Import Prelude GoLib GoText GoUnicode FileStore Protocol Fixtures QuarTree Quarantine QuarSafety QuarRecovery QuarRefusal.
#[local] Open Scope string_scope.
#[local] Open Scope N_scope.

Module QuarExample.
Import Fixtures QuarTree Quarantine QuarSafety QuarRecovery QuarRefusal.

(** ** The authority of the tests *)

Record strictAcquisitionFence := {
  sf_revision : N;
  sf_ledgerID : option string;
  sf_accepted : gmap N CapabilityAcquisitionRequest
}.

Definition strict_admit (f : strictAcquisitionFence) (r : CapabilityAcquisitionRequest) : option strictAcquisitionFence :=
  match sf_accepted f !! ar_NextRevision r with
  | Some prior => if bool_decide (prior = r) then Some f else None
  | None =>
      if negb (ar_PriorRevision r =? sf_revision f) || negb (ar_NextRevision r =? add64w (sf_revision f) 1) then None
      else if match sf_ledgerID f with Some id => negb (bool_decide (id = ar_LedgerID r)) | None => false end then None
      else Some {| sf_revision := ar_NextRevision r; sf_ledgerID := Some (ar_LedgerID r);
                   sf_accepted := <[ar_NextRevision r := r]> (sf_accepted f) |}
  end.

#[global] Instance strict_authority : AcquisitionAuthority := {|
  authority := strictAcquisitionFence;
  compare_and_swap := strict_admit;
  admitted := fun f r => sf_accepted f !! ar_NextRevision r = Some r
|}.

#[global] Instance strict_laws : AuthorityLaws.
Proof.
  split; cbn; unfold strict_admit.
  - intros f r f' H. destruct (sf_accepted f !! ar_NextRevision r) as [prior|] eqn:E.
    + case_bool_decide; [|done]. injection H as <-. congruence.
    + destruct (_ || _) in H; [done|]. destruct (match sf_ledgerID f with Some _ => _ | None => _ end) in H; [done|].
      injection H as <-. cbn. apply lookup_insert_eq.
  - intros f r f' r' H Hr'. destruct (sf_accepted f !! ar_NextRevision r) as [prior|] eqn:E.
    + case_bool_decide; [|done]. by injection H as <-.
    + destruct (_ || _) in H; [done|]. destruct (match sf_ledgerID f with Some _ => _ | None => _ end) in H; [done|].
      injection H as <-. cbn. rewrite lookup_insert_ne; [done|]. congruence.
  - intros f r H. rewrite H. by rewrite bool_decide_eq_true_2.
  - intros f r r' H En Hne. rewrite En, H. by rewrite bool_decide_eq_false_2 by congruence.
Qed.

(** The root of a closure by the lengths of what it lists. *)
#[global] Instance sample_closure : ClosureRoot :=
  fun entries => Ok (sha256_Sum256 (foldr (fun m s => me_Path m +:+ me_ContentDigest m +:+ s) "" entries)).

(** ** Environments in which nothing fails, but for what is asked for *)

Definition root : string := "/quarantine".
Definition owner : string := "owner".
Definition agent : string := "agent".

Definition writes (fails : write_step -> bool) : io quarantineLedgerState :=
  {| io_marshal := fun _ => Some 100; io_fails := fails |}.
Definition no_write_fails (_ : write_step) : bool := false.

Definition op (now : Z) (id : string) (d : delivery) : op_env :=
  {| oe_now := now; oe_matches := true; oe_matches_again := true; oe_id := Ok id; oe_cwd := "/"; oe_read_fails := false;
     oe_stat_fails := false; oe_staging := Staged "random"; oe_persist := writes no_write_fails; oe_delivery := d;
     oe_publication := Published; oe_hash_fails := false; oe_persist_again := writes no_write_fails;
     oe_remove := fun _ => Removed |}.

Definition opening (now : Z) (order : list string) : open_env :=
  {| oo_now := now; oo_handle := Ok (7, 11); oo_lock := Ok tt; oo_id := Ok "0123456789abcdef"; oo_order := order;
     oo_delivery := fun _ => Answered; oo_stat_fails := fun _ => false; oo_publication := fun _ => Published;
     oo_hash_fails := fun _ => false; oo_read_dir_fails := false; oo_remove := fun _ => Removed;
     oo_persist := writes no_write_fails |}.

(** ** Scripts *)

Inductive act :=
| AOpen (e : open_env)
| ADeposit (name : string) (tree : node)
| AReserve (e : op_env) (principal source : string) (generation : N)
| ACommit (e : op_env) (id path digest : string)
| ACollect (e : op_env) (digests : list string) (expected next : N)
| AClose.

Definition exec (careful : bool) (a : act) (s : sys) : sys :=
  let w := sy_world s in
  match a, sy_ledger s with
  | AOpen e, None =>
      let '(w, r) := OpenQuarantineLedger e root owner agent w in
      {| sy_ledger := match r with Ok l => Some l | Err _ => None end; sy_world := w |}
  | ADeposit name tree, ledger => {| sy_ledger := ledger; sy_world := with_entries (<[name := tree]> (w_entries w)) w |}
  | AReserve e principal source generation, Some l =>
      let '(l, w, _) := Reserve e principal source generation l w in {| sy_ledger := Some l; sy_world := w |}
  | ACommit e id path digest, Some l =>
      let '(l, w, r) := Commit e id path digest l w in
      {| sy_ledger := if careful && is_err r then None else Some l; sy_world := w |}
  | ACollect e digests expected next, Some l =>
      let '(l, w, _) := GarbageCollect e digests expected next l w in {| sy_ledger := Some l; sy_world := w |}
  | AClose, Some _ => {| sy_ledger := None; sy_world := w |}
  | _, _ => s
  end.

(** The side conditions of a step, as a check. *)
Definition fresh_b (e : op_env) (s : sys) : bool :=
  match oe_id e, sy_ledger s with
  | Ok id, Some l => bool_decide (ls_Reservations (ql_state l) !! id = None)
  | _, _ => true
  end.
Definition open_b (e : open_env) (s : sys) : bool :=
  (match w_file (sy_world s) with
   | FileDoc d => forallb (fun id => bool_decide (id ∈ oo_order e)) (map_to_list (ls_Reservations d)).*1
   | _ => true
   end) && (match oo_id e with Ok id => slen id =? 16 | Err _ => true end).
Definition foreign_b (name : string) : bool := HasPrefix name "." && negb (HasPrefix name ".commit-snapshot-").

Definition act_ok (a : act) (s : sys) : bool :=
  match a, sy_ledger s with
  | AOpen e, None => open_b e s
  | ADeposit name _, _ => foreign_b name
  | AReserve e _ _ _, Some _ => fresh_b e s
  | ACommit e _ path _, Some _ => negb (HasPrefix (Base_of (Abs (oe_cwd e) path)) ".commit-snapshot-")
  | ACollect _ _ _ _, Some _ => true
  | AClose, Some _ => true
  | _, _ => false
  end.

(** Nothing of a step is a failing removal or staging, and what is deposited
    is an ordinary tree. *)
Definition gentle (a : act) : Prop :=
  match a with
  | AOpen e => oo_remove e = fun _ => Removed
  | ADeposit _ tree => plausible true tree
  | ACommit e _ _ _ => oe_remove e = (fun _ => Removed) /\ exists random, oe_staging e = Staged random
  | _ => True
  end.

Lemma plausible_any careful n : plausible true n -> plausible careful n.
Proof. intros [H1 H2]. split; [done|]. intros _. by apply H2. Qed.

(** The request a step is granted. *)
Definition request_of (a : act) (s : sys) : option (string * string) :=
  match a, sy_ledger s with
  | AReserve e principal source generation, Some l =>
      if is_ok (Reserve e principal source generation l (sy_world s)).2 then Some (Format_day (oe_now e), principal) else None
  | _, _ => None
  end.

Lemma exec_step careful a s :
  act_ok a s = true -> gentle a -> qcall root owner agent careful (request_of a s) s (exec careful a s).
Proof.
  destruct s as [ledger w]. unfold act_ok, exec, request_of. cbn [sy_ledger sy_world]. intros Hok Hg.
  destruct a as [e|name tree|e p src g|e id path digest|e digests expected next|]; cbn [gentle] in Hg;
    destruct ledger as [l|]; try done.
  - apply andb_true_iff in Hok as [H1 H2].
    assert (open_ok e w) as Ho.
    { split; cbn in *.
      - intros d id r E Hr. rewrite E in H1. rewrite forallb_forall in H1.
        assert (bool_decide (id ∈ oo_order e) = true) as Hin; [|by apply bool_decide_eq_true_1 in Hin].
        apply H1, list_elem_of_In, list_elem_of_fmap. exists (id, r). split; [done|]. by apply elem_of_map_to_list.
      - intros id E. rewrite E in H2. by apply N.eqb_eq. }
    assert (plausible_remains careful (oo_remove e)) as Hr by (rewrite Hg; by intros).
    destruct (OpenQuarantineLedger e root owner agent w) as [w' [l|m]] eqn:E;
      [by eapply step_open|by eapply step_open_fails].
  - apply andb_true_iff in Hok as [H1 H2%negb_true_iff]. apply step_deposit; [done|by apply plausible_any].
  - apply andb_true_iff in Hok as [H1 H2%negb_true_iff]. apply step_deposit; [done|by apply plausible_any].
  - destruct (Reserve e p src g l w) as [[l' w'] r] eqn:E. eapply step_reserve; [|exact E].
    intros id Hid. unfold fresh_b in Hok. cbn in Hok. rewrite Hid in Hok. by apply bool_decide_eq_true_1 in Hok.
  - destruct Hg as [Hr [random Hs]]. apply negb_true_iff in Hok. destruct (Commit e id path digest l w) as [[l' w'] r] eqn:E.
    eapply (step_commit _ _ _ _ e id path digest); [|rewrite Hr; by intros|done|exact E].
    intros name tree. by rewrite Hs.
  - destruct (GarbageCollect e digests expected next l w) as [[l' w'] r] eqn:E. by eapply step_collect.
  - apply step_close.
Qed.

(** A script all of whose steps are checked. *)
Fixpoint exec_all (careful : bool) (script : list act) (s : sys) : sys :=
  match script with
  | [] => s
  | a :: script => exec_all careful script (exec careful a s)
  end.
Fixpoint script_ok (careful : bool) (script : list act) (s : sys) : bool :=
  match script with
  | [] => true
  | a :: script => act_ok a s && script_ok careful script (exec careful a s)
  end.

Lemma exec_all_nsteps careful script : forall s, script_ok careful script s = true -> Forall gentle script ->
  nsteps (qstep root owner agent careful) (length script) s (exec_all careful script s).
Proof.
  induction script as [|a script IH]; intros s Hok Hg; [constructor|]. cbn in Hok. apply andb_true_iff in Hok as [H1 H2].
  inversion Hg; subst. eapply nsteps_l; [eexists; by apply exec_step|]. by apply IH.
Qed.

Lemma exec_all_steps careful script s : script_ok careful script s = true -> Forall gentle script ->
  rtc (qstep root owner agent careful) s (exec_all careful script s).
Proof. intros. apply rtc_nsteps_2 with (length script). by apply exec_all_nsteps. Qed.

(** The requests a script is granted, the newest first. *)
Fixpoint requests_of (careful : bool) (script : list act) (s : sys) (requests : list (string * string)) : list (string * string) :=
  match script with
  | [] => requests
  | a :: script => requests_of careful script (exec careful a s) (option_list (request_of a s) ++ requests)%list
  end.

Lemma exec_all_run careful script s0 : forall s requests,
  qrun root owner agent careful s0 requests s -> script_ok careful script s = true -> Forall gentle script ->
  qrun root owner agent careful s0 (requests_of careful script s requests) (exec_all careful script s).
Proof.
  induction script as [|a script IH]; intros s requests Hrun Hok Hg; [done|]. cbn in Hok. apply andb_true_iff in Hok as [H1 H2].
  inversion Hg; subst. apply IH; [|done|done]. eapply qrun_next; [exact Hrun|by apply exec_step].
Qed.

(** ** A run: retrieve, commit, list *)

Definition id_one : string := bytes 32 1.
Definition id_two : string := bytes 32 2.
Definition candidate : list (string * node) :=
  [("SKILL.md", File 384 1 "content-A"); ("scripts", Dir [("run.sh", File 448 1 "echo")])].
Definition digest_of (tree : node) : string :=
  match HashTree (Some tree) with Ok digest => digest | Err _ => "" end.
Definition digest : string := digest_of (Dir candidate).
Definition key : string := hex_EncodeToString digest.

Definition start : sys :=
  {| sy_ledger := None;
     sy_world := {| w_file := FileAbsent; w_entries := ∅;
                    w_authority := {| sf_revision := 0; sf_ledgerID := None; sf_accepted := ∅ |} |} |}.

Definition retrieve : list act :=
  [AOpen (opening Second []); AReserve (op (2 * Second) id_one Answered) "owner:one" "source:one" 1;
   ADeposit ".candidate" (Dir candidate)].
Definition commit_one (d : delivery) : act := ACommit (op (3 * Second) id_one d) id_one "/quarantine/.candidate" digest.

(** The commit is answered; its answer is lost. *)
Definition committed : sys := exec_all true (retrieve ++ [commit_one Answered]) start.
Definition interrupted : sys := exec_all true (retrieve ++ [commit_one AnswerLost]) start.

Definition file_of (s : sys) : quarantineLedgerState :=
  match w_file (sy_world s) with FileDoc d => d | _ => no_state "" 0 0 end.

Definition ledger_of (s : sys) : QuarantineLedger :=
  default (opened "" "" "" 0 0 (no_state "" 0 0)) (sy_ledger s).
Definition is_open (s : sys) : bool := bool_decide (is_Some (sy_ledger s)).
Definition has_file (s : sys) : bool := match w_file (sy_world s) with FileDoc _ => true | _ => false end.

Lemma is_open_ledger s : is_open s = true -> sy_ledger s = Some (ledger_of s).
Proof. intros [l E]%bool_decide_eq_true_1. unfold ledger_of. by rewrite E. Qed.
Lemma has_file_of s : has_file s = true -> w_file (sy_world s) = FileDoc (file_of s).
Proof. unfold has_file, file_of. by destruct (w_file (sy_world s)). Qed.
Lemma sys_open s : is_open s = true -> s = {| sy_ledger := Some (ledger_of s); sy_world := sy_world s |}.
Proof. intros <-%is_open_ledger. by destruct s. Qed.

Lemma candidate_ok : tree_ok (Dir candidate) /\ dotdot_free candidate /\ origin_ok (Dir candidate).
Proof.
  repeat split; repeat constructor; cbn; try done; try set_solver; try (intros E; by discriminate).
Qed.

Lemma candidate_plausible : plausible true (Dir candidate).
Proof. destruct candidate_ok as (H1 & H2 & _). split; [exact H1|]. by intros _ children [= <-]. Qed.

Lemma start_unused careful : unused careful (sy_world start).
Proof. split; [done|]. intros name tree H. cbn in H. by apply lookup_empty_Some in H. Qed.

Lemma retrieve_gentle d : Forall gentle (retrieve ++ [commit_one d]).
Proof.
  repeat (constructor; [first [exact candidate_plausible|done|by split; [done|eexists]]|]). constructor.
Qed.

Lemma script_reachable careful script : script_ok careful script start = true -> Forall gentle script ->
  reachable root owner agent careful (exec_all careful script start).
Proof. intros Hok Hg. exists (sy_world start). split; [apply start_unused|]. by apply (exec_all_steps careful script start). Qed.

Lemma committed_reachable : reachable root owner agent true committed.
Proof. apply script_reachable; [vm_compute; reflexivity|apply retrieve_gentle]. Qed.

Lemma interrupted_reachable : reachable root owner agent true interrupted.
Proof. apply script_reachable; [vm_compute; reflexivity|apply retrieve_gentle]. Qed.

(** ** The properties at these runs *)

Definition captured : quarantineSnapshot :=
  match captureQuarantineSnapshot (Some (Dir candidate)) with Ok s => s | Err _ => no_snapshot end.

Lemma quar_publish_exact_witness :
  exists tree, stage_tree captured = Ok tree /\ captureQuarantineSnapshot (Some tree) = Ok captured /\
    boundedTreeUsage (Some tree) = Ok (13, 3) /\ HashTree (Some tree) = hashQuarantineSnapshot captured /\
    HashTree (Some (Dir candidate)) = hashQuarantineSnapshot captured.
Proof.
  destruct candidate_ok as (H1 & H2 & H3).
  exact (quar_publish_exact candidate captured H1 H2 H3 ltac:(vm_compute; reflexivity)).
Defined.

(** Two principals are granted requests on a day, one of them before and after
    the ledger is reopened. *)
Definition reopened_script : list act :=
  [AOpen (opening Second []); AReserve (op (2 * Second) id_one Answered) "owner:one" "source:one" 1; AClose;
   AOpen (opening (3 * Second) [id_one]); AReserve (op (4 * Second) id_two Answered) "owner:one" "source:two" 1;
   AReserve (op (5 * Second) (bytes 32 3) Answered) "owner:two" "source:two" 1].
Definition requested : sys := exec_all true reopened_script start.
Definition granted_requests : list (string * string) := requests_of true reopened_script start [].

Lemma quar_quotas_witness :
  granted_requests = [("1970-01-01", "owner:two"); ("1970-01-01", "owner:one"); ("1970-01-01", "owner:one")] /\
  (forall day principal, requests_made granted_requests day principal <= 32) /\
  (forall acc, charge acc (ls_Objects (file_of requested)) (ls_Reservations (file_of requested)) <= ceiling acc) /\
  2 <= default 0 (requests_on (file_of requested) "1970-01-01" !! "owner:one") <= 32.
Proof.
  assert (qrun root owner agent true start granted_requests requested) as Hrun.
  { apply exec_all_run; [constructor|vm_compute; reflexivity|repeat constructor]. }
  destruct (quar_quotas root owner agent true (sy_world start) granted_requests requested (start_unused true) Hrun) as [H1 H2].
  destruct (H2 (file_of requested) (or_intror (has_file_of requested ltac:(vm_compute; reflexivity)))) as (H3 & _ & H4).
  split; [vm_compute; reflexivity|]. split; [exact H1|]. split; [exact H3|]. exact (H4 "1970-01-01" "owner:one").
Defined.

Definition retained_record : QuarantineObjectRecord :=
  {| q_Digest := key; q_Principal := "owner:one"; q_SourceID := "source:one"; q_SourceGeneration := 1; q_Bytes := 13;
     q_Files := 3; q_RetainedAtUnix := 3;
     q_CommitTransition :=
       {| ar_SchemaVersion := 1; ar_OwnerID := owner; ar_AgentID := agent; ar_LedgerID := "0123456789abcdef";
          ar_AcquisitionID := id_one; ar_Phase := "commit"; ar_Principal := "owner:one"; ar_SourceID := "source:one";
          ar_SourceGeneration := 1; ar_ReservedBytes := QuarantineReservationBytes;
          ar_ReservedFiles := QuarantineReservationFiles; ar_ExpiresAtUnix := 1802; ar_ContentDigest := digest;
          ar_ContentBytes := 13; ar_ContentFiles := 3; ar_PriorRevision := 1; ar_NextRevision := 2 |} |}.

Lemma quar_admitted_witness :
  let t := q_CommitTransition retained_record in
  admitted (w_authority (sy_world committed)) t /\ ar_Phase t = "commit" /\ hex_EncodeToString (ar_ContentDigest t) = key /\
  ar_OwnerID t = owner /\ ar_AgentID t = agent /\ ar_LedgerID t = ls_LedgerID (file_of committed).
Proof.
  destruct (quar_admitted root owner agent true committed (file_of committed) key retained_record committed_reachable
              (or_intror (has_file_of committed ltac:(vm_compute; reflexivity))) ltac:(vm_compute; reflexivity))
    as (H1 & H2 & H3 & H4 & H5 & H6 & _).
  exact (conj H1 (conj H2 (conj H3 (conj H4 (conj H5 H6))))).
Defined.

Lemma smooth_opening now order d :
  ls_RootDevice d = 7 -> ls_RootInode d = 11 ->
  forallb (fun id => bool_decide (id ∈ order)) (map_to_list (ls_Reservations d)).*1 = true -> smooth (opening now order) d.
Proof.
  intros Hd Hi Ho. constructor; try done; [by rewrite Hd, Hi|]. intros id r Hr. rewrite forallb_forall in Ho.
  assert (bool_decide (id ∈ order) = true) as Hin; [|by apply bool_decide_eq_true_1 in Hin].
  apply Ho, list_elem_of_In, list_elem_of_fmap. exists (id, r). split; [done|]. by apply elem_of_map_to_list.
Qed.

(** What the authority must have admitted, as a check. *)
Definition all_admitted_b (d : quarantineLedgerState) (f : strictAcquisitionFence) : bool :=
  forallb (fun p => bool_decide (r_AuthorityPhase p.2 = "reserved")
    || (bool_decide (sf_accepted f !! ar_NextRevision (pending_request root owner agent d p.2) = Some (pending_request root owner agent d p.2))
        && acquisition_complete (pending_request root owner agent d p.2))) (map_to_list (ls_Reservations d)).

Lemma all_admitted_check d f : all_admitted_b d f = true -> all_admitted root owner agent d f.
Proof.
  intros H id r Hr Hne. unfold all_admitted_b in H. rewrite forallb_forall in H.
  specialize (H (id, r) ltac:(by apply list_elem_of_In, elem_of_map_to_list)). cbn [snd] in H.
  apply orb_true_iff in H as [H|[H1 H2]%andb_true_iff].
  - by apply bool_decide_eq_true_1 in H.
  - apply bool_decide_eq_true_1 in H1. done.
Qed.

Lemma interrupted_closed : interrupted = {| sy_ledger := None; sy_world := sy_world interrupted |}.
Proof. vm_compute. reflexivity. Qed.

Lemma quar_reopen_witness :
  exists w' l, OpenQuarantineLedger (opening (4 * Second) [id_one]) root owner agent (sy_world interrupted) = (w', Ok l) /\
    ql_closed l = false /\ ql_poisoned l = false /\
    (forall id r, ls_Reservations (file_of interrupted) !! id = Some r -> is_prepared r ->
       exists o, ls_Objects (ql_state l) !! r_CommitDigest r = Some o /\
         q_CommitTransition o = pending_request root owner agent (file_of interrupted) r) /\
    (forall key o, ls_Objects (ql_state l) !! key = Some o -> stored (w_entries w') key key (q_Bytes o) (q_Files o)).
Proof.
  pose proof interrupted_reachable as Hr. rewrite interrupted_closed in Hr.
  destruct (quar_reopen root owner agent (opening (4 * Second) [id_one]) (sy_world interrupted) (file_of interrupted))
    as (w' & l & H1 & H2 & H3 & _ & H5 & H6 & _); [done|done|done|exact Hr|apply has_file_of; vm_compute; reflexivity| | |].
  - apply smooth_opening; vm_compute; reflexivity.
  - apply all_admitted_check. vm_compute. reflexivity.
  - exists w', l. exact (conj H1 (conj H2 (conj H3 (conj H5 H6)))).
Defined.

(** The listed receipt of the run. *)
Definition listed : QuarantineCommitReceipt := receiptForRecord (ledger_of committed) retained_record.

Lemma committed_open : reachable root owner agent true {| sy_ledger := Some (ledger_of committed); sy_world := sy_world committed |}.
Proof. rewrite <- sys_open; [exact committed_reachable|vm_compute; reflexivity]. Qed.

Lemma committed_steps :
  nsteps (qstep root owner agent true) 4 {| sy_ledger := None; sy_world := sy_world start |}
    {| sy_ledger := Some (ledger_of committed); sy_world := sy_world committed |}.
Proof.
  rewrite <- sys_open by (vm_compute; reflexivity).
  apply (exec_all_nsteps true (retrieve ++ [commit_one Answered]) start); [vm_compute; reflexivity|apply retrieve_gentle].
Qed.

Lemma quar_receipt_witness :
  (ValidateQuarantineCommitReceipt (opening (4 * Second) []) Answered false false listed (sy_world committed)).2 =
  Ok (root +:+ "/" +:+ key).
Proof.
  refine (quar_receipt root owner agent 4 (op (3 * Second) id_two Answered) (opening (4 * Second) []) (sy_world start)
    (ledger_of committed) (sy_world committed) (ledger_of committed) (sy_world committed) (file_of committed) [listed] listed
    _ _ _ _ (start_unused true) committed_steps _ _ (list_elem_of_here listed []) _ _ _
    (smooth_opening _ _ _ _ _ _) (all_admitted_check _ _ _)).
  all: vm_compute; first [reflexivity|discriminate].
Defined.

(** The object is deleted, and the candidate retrieved once more. *)
Definition collected : sys := exec true (ACollect (op (4 * Second) id_two Answered) [key] 0 1) committed.
Definition again : list act :=
  [AReserve (op (5 * Second) id_two Answered) "owner:one" "source:one" 1; ADeposit ".candidate" (Dir candidate)].

Lemma again_gentle : Forall gentle again.
Proof. constructor; [exact I|]. constructor; [exact candidate_plausible|constructor]. Qed.

Lemma quar_deleted_stays_witness :
  unretained key (exec_all true again collected) /\
  is_err (Commit (op (6 * Second) id_two Answered) id_two "/quarantine/.candidate" digest
            (ledger_of (exec_all true again collected)) (sy_world (exec_all true again collected))).2 = true.
Proof.
  assert (GarbageCollect (op (4 * Second) id_two Answered) [key] 0 1 (ledger_of committed) (sy_world committed) =
          (ledger_of collected, sy_world collected, Ok tt)) as Hgc by (vm_compute; reflexivity).
  assert (rtc (qstep root owner agent true) {| sy_ledger := Some (ledger_of collected); sy_world := sy_world collected |}
            (exec_all true again collected)) as Hrun.
  { rewrite <- sys_open by (vm_compute; reflexivity). apply exec_all_steps; [vm_compute; reflexivity|].
    exact again_gentle. }
  destruct (quar_deleted_stays root owner agent (op (4 * Second) id_two Answered) [key] 0 1 (ledger_of committed)
              (sy_world committed) (ledger_of collected) (sy_world collected) key (exec_all true again collected)
              committed_open Hgc (list_elem_of_here key []) Hrun) as [H1 H2].
  split; [exact H1|]. destruct (Commit _ _ _ _ _ _) as [[l2 w2] r] eqn:E. cbn [snd].
  refine (H2 _ id_two _ digest _ _ _ _ _ eq_refl E). apply is_open_ledger. vm_compute. reflexivity.
Defined.

(** ** A failed write that closes the ledger for good

    The first write of a commit fails: the reservation stays prepared in memory,
    and the next reservation takes the same revision. *)
Definition failing_commit : act :=
  ACommit {| oe_now := 3 * Second; oe_matches := true; oe_matches_again := true; oe_id := Ok id_two; oe_cwd := "/";
             oe_read_fails := false; oe_stat_fails := false; oe_staging := Staged "random";
             oe_persist := writes (fun step => bool_decide (step = CreateTemp)); oe_delivery := Answered;
             oe_publication := Published; oe_hash_fails := false; oe_persist_again := writes no_write_fails;
             oe_remove := fun _ => Removed |} id_one "/quarantine/.candidate" digest.
Definition carrying_on : list act :=
  (retrieve ++ [failing_commit; AReserve (op (4 * Second) id_two Answered) "owner:one" "source:two" 1; AClose])%list.
Definition stuck : sys := exec_all false carrying_on start.

Definition stuck_reservation : QuarantineReservation :=
  default (new_reservation (op 0 id_one Answered) id_one "" "" 0 (file_of stuck)) (ls_Reservations (file_of stuck) !! id_one).
(** What the authority admitted with that revision. *)
Definition admitted_instead : CapabilityAcquisitionRequest :=
  default (q_CommitTransition retained_record) (sf_accepted (w_authority (sy_world stuck)) !! 2).

Lemma carrying_on_gentle : Forall gentle carrying_on.
Proof.
  repeat (constructor; [first [exact candidate_plausible|done|by split; [done|eexists]]|]). constructor.
Qed.

Lemma stuck_reachable : reachable root owner agent false {| sy_ledger := None; sy_world := sy_world stuck |}.
Proof.
  assert (stuck = {| sy_ledger := None; sy_world := sy_world stuck |}) as <- by (vm_compute; reflexivity).
  apply script_reachable; [vm_compute; reflexivity|exact carrying_on_gentle].
Qed.

Lemma quar_displaced_final_witness :
  reachable root owner agent false {| sy_ledger := None; sy_world := sy_world stuck |} /\
  forall s, rtc (qstep root owner agent false) {| sy_ledger := None; sy_world := sy_world stuck |} s ->
    sy_ledger s = None /\ w_file (sy_world s) = FileDoc (file_of stuck).
Proof.
  split; [exact stuck_reachable|]. intros s Hrun.
  refine (quar_displaced_final root owner agent false (sy_world stuck) (file_of stuck) id_one stuck_reservation
            admitted_instead s _ _ _ _ Hrun).
  - apply has_file_of. vm_compute. reflexivity.
  - vm_compute. reflexivity.
  - right. vm_compute. reflexivity.
  - split; [vm_compute; reflexivity|]. split; [vm_compute; reflexivity|]. intros E.
    apply (f_equal ar_Phase) in E. vm_compute in E. discriminate E.
Defined.

(** ** A candidate that is captured but never published *)

Definition dotted : list (string * node) := [("..notes", File 384 1 "x"); ("SKILL.md", File 384 1 "content-A")].
Definition dotted_snapshot : quarantineSnapshot :=
  match captureQuarantineSnapshot (Some (Dir dotted)) with Ok s => s | Err _ => no_snapshot end.

Lemma dotdot_unpublished_witness :
  captureQuarantineSnapshot (Some (Dir dotted)) = Ok dotted_snapshot /\
  stage_tree dotted_snapshot = Ok (Dir (norm_children dotted)) /\ is_err (HashTree (Some (Dir (norm_children dotted)))) = true.
Proof.
  assert (captureQuarantineSnapshot (Some (Dir dotted)) = Ok dotted_snapshot) as Hc by (vm_compute; reflexivity).
  split; [exact Hc|]. refine (dotdot_unpublished dotted dotted_snapshot "..notes" (File 384 1 "x") _ Hc _ _ _).
  - repeat constructor; cbn; set_solver.
  - by left.
  - reflexivity.
  - discriminate.
Defined.

End QuarExample.
